(* ===== verification/_CoqProject ===== *)
-Q . S2P
Prelude.v
Def.v
Chksum.v
Ip4Addr.v
XSpi.v
SpiCore.v
Spi.v
XSpiSpec.v
Timeouts.v
Mem.v
Memp.v
PbufMem.v
Pbuf.v
PbufBoard.v
PbufCopy.v
Slip.v
Ip4Frag.v
Ip4Reass.v
Ip4ReassTmr.v
Ip4ReassType.v
Etharp.v
EtharpInv.v
EtharpProto.v
EtharpTmr.v
EtharpBoard.v
UdpPcb.v
Ip4Out.v
Packet.v
Ip4Send.v
Icmp.v
Udp.v
UdpProto.v
Ip4In.v
Ip4Recv.v
IcmpProto.v
NetBoard.v
FragSend.v
FragReass.v
FragBoard.v
TcpIn.v
TcpOut.v
TcpWrite.v
TcpConn.v
TcpStream.v
TcpAck.v
TcpQueue.v
TcpFrame.v
TcpSend.v
TcpSender.v
TcpReceive.v
TcpProcess.v
TcpApp.v
TcpInput.v
TcpRuns.v
TcpTransfer.v
TcpOpen.v
TcpFaults.v
TcpDemo.v
TcpSendDemo.v
UartLite.v
UartSpec.v
UartSession.v
UartBoard.v
XilPrintf.v
UartConsole.v
App.v
