(* ===== verification/Prelude.v ===== *)
(** * JAM: verification of the Microblaze application and its network stack

    The program is a bare-metal application for a Microblaze soft processor on
    an FPGA board (main.c, platform.c, spi.c) with the drivers of the Xilinx
    standalone BSP (bsp/) and the lwIP TCP/IP stack (lwip/).  The application
    talks to a flash memory through an AXI Quad SPI core.  The repository has no
    lwipopts.h for the board: lwIP is modelled in the default configuration of
    opt.h, with NO_SYS 0 (an empty pool of pbufs then leads to a callback through
    the mailbox of tcpip.c, and PBUF_CHECK_FREE_OOSEQ() is empty).

    ** How the development corresponds to the code

    A C integer is a [Z]; every assignment to a narrower type is written out
    with [u8], [u16] and [u32].  Stateful code is a function in the monad [M S]
    of this file: state passing with three outcomes, [Ok], [Halt] (a failed
    assertion, which never returns) and [Hang] (fuel used up).  A struct is a
    record, memory is a function from addresses, and a component that is not in
    the repository (a serial device, the clock, the hardware) is an argument.

    - Prelude (this file): machine words, the monad with its Hoare triples
      ([triple], total) and invariants ([safe], partial), record update, the
      hint databases and the generic lemmas.
    - Def: lwip/src/core/def.c, byte order and the string helpers.
    - Chksum: lwip/src/core/inet_chksum.c, the three variants of the Internet
      checksum, checksums over packet chains and with pseudo headers, and
      RFC 1071 as their specification.
    - Ip4Addr: lwip/src/core/ipv4/ip4_addr.c, address tests and text forms.
    - XSpi: the driver bsp/.../spi_v4_2 (initialisation, transfers, interrupt
      handler, options, self test), over register operations.
    - SpiCore: the AXI Quad SPI core as the driver sees it, from its data sheet
      as quoted in the driver; the register operations of XSpi on it.
    - Spi: spi.c, [init_spi] and [send_spi], on the driver and the core.
    - XSpiSpec: what the driver guarantees in every reachable state and how it
      handles errors.
    - Timeouts: lwip/src/core/timeouts.c, the timer list.
    - Mem: lwip/src/core/mem.c, the heap.  Memp: lwip/src/core/memp.c, pools.
    - PbufMem: the interface through which pbuf.c uses the allocators (a class
      with their laws).  PbufBoard: its instance, built from Mem and Memp.
    - Pbuf: lwip/src/core/pbuf.c, packet buffers, against that interface.
    - Slip: lwip/src/netif/slipif.c, the SLIP interface.
    - Ip4Frag: lwip/src/core/ipv4/ip4_frag.c, the reassembly.  Ip4Reass: what a
      queue of fragments is in memory and when a datagram comes out.
      Ip4ReassTmr: the reassembly timer.  Ip4ReassType: invariants of its
      statics.
    - Etharp: lwip/src/core/ipv4/etharp.c and lwip/src/netif/ethernet.c, on the
      packet buffers.  EtharpInv: the selection of entries and the invariant of
      the table.  EtharpProto: the frames of the protocol.  EtharpTmr: the
      timer.  EtharpBoard: a link and the memory of a board on which the
      hypotheses of these theorems hold.  PbufCopy: lemmas on copies of packets.
    - UdpPcb: the control blocks of lwip/src/core/udp.c.  Udp: its datagrams.
      UdpProto: how a datagram finds its control block, and what is sent.
    - Ip4Out: output of lwip/src/core/ipv4/ip4.c and fragmentation of
      ip4_frag.c, on the state all of IP shares ([net], with the interfaces).
      The outside world (drivers, TCP, the application) is the class [World].
      Ip4Send: what goes out.  Ip4In: input and forwarding of ip4.c, the whole
      stack put together.  Ip4Recv: what input does with a valid packet.
    - Icmp: lwip/src/core/ipv4/icmp.c.  IcmpProto: the echo answer.
    - FragSend: what [ip4_frag] does to memory and the link.  FragReass: its
      composition with the reassembly.  FragBoard: two hosts for these theorems.
    - TcpIn: [tcp_receive] of lwip/src/core/tcp_in.c with all it calls.  TcpOut:
      [tcp_output] of tcp_out.c and the retransmission of the queue.  TcpWrite:
      [tcp_write], [tcp_enqueue_flags], [tcp_send_fin] and the probes.  TcpConn:
      [tcp_process] and the part of [tcp_input] that follows the search for the
      control block, with the functions of tcp.c that end a connection.
    - TcpStream: what the receiver's side of a control block means for the
      peer's stream, and data of the stream.  TcpAck: the sender's side, and
      acknowledgements.  TcpQueue: the stream in the queues of a sender, and
      [tcp_write] on it.  TcpSender: acknowledgements, output, retransmission and
      probes keep the stream there.  TcpSend: output.  TcpFrame: what input leaves alone.
      TcpReceive: [tcp_receive] on a segment of the stream.  TcpProcess: the
      state machine and the options.  TcpApp: the application as a class of
      callbacks with their laws.  TcpInput: a segment and what the application
      is told.  TcpRuns: runs of a connection, and an application that reads.
      TcpTransfer: a sender and a receiver with a network between them.
      TcpOpen: the handshake.  TcpFaults: a segment behind the window, and
      writing while a segment waits to be retransmitted.  TcpDemo: a connection
      for these theorems, and an ACK that is forgotten.  TcpSendDemo: a sender.
    - Packet: a packet whose header is added and removed in place.  NetBoard: a
      driver and two hosts on which the hypotheses of the theorems on IP hold.
    - UartLite: the driver bsp/.../uartlite_v3_2 and outbyte.c, inbyte.c of the
      standalone BSP, with the interrupt as an argument of the code it can
      interrupt.  UartSpec: the core by its laws, what each function does to it.
      UartSession: a transfer in both directions under interrupts.  UartBoard:
      its properties, a soft core, and a race.
    - XilPrintf: bsp/.../standalone_v6_0 xil_printf.c and print.c, the console.
      UartConsole: the console on the UART.
    - App: main.c and platform.c, on Spi and XilPrintf and an Ethernet core
      whose memory accesses are arguments.

    ** What the theorems show

    - SPI: on a core that drains its FIFO in time [send_spi] exchanges exactly the
      bytes of the buffer with the slave for every length, whatever the core
      returns it terminates, and after a
      time-out the slave is still selected; the driver's invariant holds in
      every reachable state; options and slave select read back; guards and
      mode fault.
    - Memory: clients of the heap and of the pools never get overlapping memory
      and nothing is lost; [mem_malloc] is first fit; [mem_free], [mem_trim].
    - Packet buffers: allocation, freeing by reference count, copying, with the
      arithmetic at 8 and 16 bits where it matters.
    - Checksums: the three algorithms agree with each other and with RFC 1071,
      over chains too; a receiver accepts what a sender fills in, and single
      byte errors are detected.
    - Timers: insertion and removal refine a list of due times; handlers that
      leave the timers alone are called exactly when due, and the loop that calls
      them ends also with lwIP's handlers, which start their timeout again.
    - SLIP: what one side sends the other side receives.
    - Reassembly: the fragments of a datagram come out as the datagram when the
      last fragment comes last; incomplete datagrams are dropped in a bounded
      number of timer calls and their memory is given back; the statics keep
      their types in every reachable state; a hole right before a fragment that
      is put before a queued one is overlooked, whatever the queue.
    - Fragmentation: for an MTU of at least 28 and pbufs of at least 20 bytes,
      [ip4_frag] returns, sends the fragments of RFC 791 in order (unless the last
      piece is as short as below) and leaves packet, reference counts and memory as
      they were, also when it runs out of memory; what it sends the reassembly of another host turns back into the
      packet; for an MTU whose room is not a multiple of 8 it can send two
      fragments without the flag for more.
    - ARP: for an unknown address a request is broadcast if there is memory for
      it, the packet is queued and, when the answer arrives, sent to it byte for
      byte with its memory given back; requests
      for the interface are answered; the table keeps its invariant over every
      sequence of calls; entries expire in a bounded number of timer calls; the
      entry [etharp_find_entry] takes is the one of the selection rule.  Two
      errors: packets that start with PBUF_ROM are not queued, and of a packet that
      is too short the bytes behind its end are entered into the table.
    - UDP: what [udp_sendto] is given reaches the receive function of the
      listener on the other host, through both IP layers; no two control blocks
      have the same address and port over every sequence of calls (but a change
      of the interface's address breaks that); ports are found when one is free;
      a datagram goes to the control block of the selection rule.
    - ICMP: an echo request is answered once, with valid checksums, and its
      memory is given back.
    - TCP: between a sender that has the stream in its queues and a receiver,
      whatever the network loses, repeats or reorders, what the receiver's
      application has been told is a prefix of the stream, and what is missing is
      still with the sender (segments that arrive are assumed to fit the
      receiver's window, acknowledgements to cover at most what it has).
      Whatever the order in which segments of the peer's stream arrive, inside
      the window, overlapping and repeated, the application is told the stream, each byte
      once, its end once and last, no assertion fails and no segment is lost; a
      segment that continues the stream takes it further; the state machine is
      that of RFC 793; the handshake frees the SYN and ends at the beginning of
      the stream; a reset of an established connection needs the exact number;
      acknowledgements are accounted for exactly;
      output keeps to the windows; [tcp_write] appends exactly what was written to
      the stream in the queues, or changes nothing; options are read within
      bounds.  A segment that reaches behind the window breaks the receiver, an
      ACK for which there was no memory is forgotten, and writing while a
      retransmission waits puts the new bytes at the wrong place of the stream.
    - UART: with the interrupt handler running at any time between the calls,
      the bytes of the send buffer leave in order and once, what arrives is
      stored in order, the callbacks come for complete transfers, and a transfer
      is complete after a bounded number of interrupts.  An interrupt inside
      [XUartLite_SendBuffer] can lose a byte.  What [xil_printf] renders leaves on
      the line.
    - Text: addresses and numbers round trip, string search; [xil_printf]
      prints what an item-by-item reading of the format says.
    - Application: a register read prints the answers of the flash, the length
      byte the flash sends bounds what [read_id] overwrites and can exceed its
      buffer; with a flash that names at most 128 bytes [main] reaches its final
      loop and touches nothing else.  (The local variables of [main] other than the
      buffer are not in the modelled memory, so that what an overrun does to them
      is not modelled; the text of [main] goes to a console that takes every
      character, the UART below it is in UartConsole.)

    ** Fuel

    Loops over a packet chain or a fragment queue take 65537 steps, more than
    the 16-bit counts of the code allow; loops over lists of the model take the
    length of the list, those over the options of a TCP segment one step more
    than their length; the polling loops of spi.c have the bound of the code
    ([send_spi] is proved to return), those of [outbyte] and [inbyte] have none
    and take the number of polls in which the core is assumed to move.  The theorems state that the result is
    [Ok], so that the fuel is enough is part of them.

    ** Not modelled

    The caches, the system monitor and the greeting of platform.c, the drivers
    of the other cores, what opt.h turns off (of ARP: queues of several packets, VLAN, the
    hooks of AutoIP and DHCP; of IP: IGMP, raw sockets, options on output; of
    TCP: window scaling, time stamps, keep-alive options), of TCP the lists of
    control blocks with the search for one, [tcp_listen_input], the
    slow timer and the calls that open and close a connection; netif.c, raw.c, DHCP, DNS, the sequential API (needs an operating system port that is not in
    the repository), IPv6 and PPP (disabled in opt.h), the applications of lwIP
    (not linked) and the tests.  Debug output and MIB2 counters are left out;
    they change nothing the code reads. *)

From Stdlib Require Import ZArith List Lia Bool Permutation Sorted.
Import ListNotations.
Open Scope Z_scope.

(** ** C operators on machine words

    A w-bit C integer is a [Z]; the wrap-around of an assignment is written
    out with [u8], [u16] and [u32]. *)

Declare Scope c_scope.
Delimit Scope c_scope with c.
Infix ".&" := Z.land (at level 40, left associativity) : c_scope.
Infix ".|" := Z.lor (at level 45, left associativity) : c_scope.
Infix ".^" := Z.lxor (at level 44, left associativity) : c_scope.
Infix "<<" := Z.shiftl (at level 38, left associativity) : c_scope.
Infix ">>" := Z.shiftr (at level 38, left associativity) : c_scope.
Open Scope c_scope.

Definition u8 (x : Z) : Z := x mod 256.
Definition u16 (x : Z) : Z := x mod 65536.
Definition u32 (x : Z) : Z := x mod 4294967296.

(** Two's complement reading of a 32-bit word as [int]. *)
Definition s32 (x : Z) : Z :=
  let y := u32 x in if y <? 2147483648 then y else y - 4294967296.

Definition is_u8 (x : Z) : Prop := 0 <= x < 256.
Definition is_u16 (x : Z) : Prop := 0 <= x < 65536.
Definition is_u32 (x : Z) : Prop := 0 <= x < 4294967296.
Definition is_int (x : Z) : Prop := -2147483648 <= x < 2147483648.

(** A buffer of bytes. *)
Definition bytes_ok (l : list Z) : Prop := Forall is_u8 l.

(** Boolean form of [is_u8] for checking concrete buffers. *)
Definition is_u8b (x : Z) : bool := (0 <=? x) && (x <? 256).

(** ** Error monad *)

(** [LWIP_ASSERT] failures and out-of-range accesses are [None]. *)
Definition obind {A B} (m : option A) (k : A -> option B) : option B :=
  match m with Some a => k a | None => None end.

Notation "'let*' p := e 'in' k" :=
  (obind e (fun p => k)) (at level 10, p pattern, e at level 200, k at level 200)
  : c_scope.

Definition LWIP_ASSERT (cond : bool) : option unit :=
  if cond then Some tt else None.

(** ** State and outcome monad

    Driver code returns normally, halts in a failed assertion or, for a loop
    without a bound of its own, exhausts the fuel of the model. *)

Inductive res (A : Type) := Ok (a : A) | Halt | Hang.
Arguments Ok {A} a.
Arguments Halt {A}.
Arguments Hang {A}.

Definition M (S A : Type) := S -> res (A * S).

Definition ret {S A} (a : A) : M S A := fun s => Ok (a, s).
Definition bind {S A B} (m : M S A) (k : A -> M S B) : M S B := fun s =>
  match m s with
  | Ok (a, s') => k a s'
  | Halt => Halt
  | Hang => Hang
  end.
Definition gets {S A} (f : S -> A) : M S A := fun s => Ok (f s, s).
Definition modify {S} (f : S -> S) : M S unit := fun s => Ok (tt, f s).
Definition halt {S A} : M S A := fun _ => Halt.
Definition hang {S A} : M S A := fun _ => Hang.

(** [Xil_AssertNonvoid] and [Xil_AssertVoid]: a failed assertion spins in
    [Xil_Assert]. *)
Definition Xil_Assert {S} (cond : bool) : M S unit := if cond then ret tt else halt.

Notation "'do' x <- m ; k" := (bind m (fun x => k))
  (at level 10, x name, m at level 100, k at level 200) : c_scope.
Notation "m ;; k" := (bind m (fun _ => k)) (at level 95, right associativity) : c_scope.
Notation "'when' c 'then' m" := (if c then m else ret tt)
  (at level 94, c at level 90, m at level 94) : c_scope.

(** *** Total correctness of monadic code *)

Definition triple {S A} (P : S -> Prop) (m : M S A) (Q : A -> S -> Prop) : Prop :=
  forall s, P s -> exists a s', m s = Ok (a, s') /\ Q a s'.

Section Triples.
Context {S A B : Type}.
Implicit Types (P : S -> Prop) (m : M S A).

Lemma triple_bind P m (k : A -> M S B) Q R :
  triple P m Q -> (forall a, triple (Q a) (k a) R) -> triple P (bind m k) R.
Proof.
  intros Hm Hk s Hs. destruct (Hm s Hs) as (a & s1 & E1 & Ha).
  destruct (Hk a s1 Ha) as (b & s2 & E2 & Hb).
  exists b, s2. unfold bind. now rewrite E1.
Qed.

Lemma triple_ret P (Q : A -> S -> Prop) a : (forall s, P s -> Q a s) -> triple P (ret a) Q.
Proof. intros H s Hs. exists a, s. split; [reflexivity|auto]. Qed.

Lemma triple_gets P (Q : A -> S -> Prop) f : (forall s, P s -> Q (f s) s) -> triple P (gets f) Q.
Proof. intros H s Hs. exists (f s), s. split; [reflexivity|auto]. Qed.

Lemma triple_conseq P P' m Q Q' :
  triple P' m Q' -> (forall s, P s -> P' s) -> (forall a s, Q' a s -> Q a s) -> triple P m Q.
Proof.
  intros Hm HP HQ s Hs. destruct (Hm s (HP s Hs)) as (a & s1 & E & Ha).
  exists a, s1. auto.
Qed.

Lemma triple_post P m Q Q' :
  triple P m Q' -> (forall a s, Q' a s -> Q a s) -> triple P m Q.
Proof. intros Hm HQ. eapply triple_conseq; eauto. Qed.

(** A fact about the start state that does not mention the state. *)
Lemma triple_assume (F : Prop) P m Q : (F -> triple P m Q) -> triple (fun s => F /\ P s) m Q.
Proof. intros H s [HF Hs]. exact (H HF s Hs). Qed.

(** Sequential evaluation from a known start. *)
Lemma bind_ok m (k : A -> M S B) s a s1 : m s = Ok (a, s1) -> bind m k s = k a s1.
Proof. intros E. unfold bind. now rewrite E. Qed.

Lemma bind_inv m (k : A -> M S B) s r : bind m k s = Ok r ->
  exists a s1, m s = Ok (a, s1) /\ k a s1 = Ok r.
Proof. unfold bind. destruct (m s) as [[a s1]| |]; try discriminate. eauto. Qed.

Lemma bind_assert c (k : unit -> M S B) s : c = true -> bind (Xil_Assert c) k s = k tt s.
Proof. now intros ->. Qed.

Lemma bind_modify (f : S -> S) (k : unit -> M S B) s : bind (modify f) k s = k tt (f s).
Proof. reflexivity. Qed.

Lemma bind_gets (f : S -> A) (k : A -> M S B) s : bind (gets f) k s = k (f s) s.
Proof. reflexivity. Qed.

Lemma bind_ret (a : A) (k : A -> M S B) s : bind (ret a) k s = k a s.
Proof. reflexivity. Qed.
End Triples.

Lemma bind_assoc {S A B C} (m : M S A) (k : A -> M S B) (l : B -> M S C) s :
  bind (bind m k) l s = bind m (fun a => bind (k a) l) s.
Proof. unfold bind. now destruct (m s) as [[]| |]. Qed.

Lemma bind_cong {S A B} (m : M S A) (k k' : A -> M S B) s :
  (forall a s1, m s = Ok (a, s1) -> k a s1 = k' a s1) -> bind m k s = bind m k' s.
Proof. intros H. unfold bind. destruct (m s) as [[a s1]| |]; auto. Qed.

Lemma triple_modify {S} (P : S -> Prop) f (Q : unit -> S -> Prop) :
  (forall s, P s -> Q tt (f s)) -> triple P (modify f) Q.
Proof. intros H s Hs. exists tt, (f s). split; [reflexivity|auto]. Qed.

(** ** Invariants

    What holds after every run that comes to an end, from any state: [safe]
    says nothing about runs that halt or hang, and is used for invariants. *)

Definition safe {S A} (P : S -> Prop) (m : M S A) (Q : A -> S -> Prop) : Prop :=
  forall s a s', P s -> m s = Ok (a, s') -> Q a s'.

Create HintDb safe.

Section Safe.
Context {S A B : Type}.
Implicit Types P : S -> Prop.

Lemma safe_bind P (m : M S A) (k : A -> M S B) R Q : safe P m R -> (forall a, safe (R a) (k a) Q) -> safe P (bind m k) Q.
Proof. intros Hm Hk s b s' Hs E. apply bind_inv in E. destruct E as (a & s1 & E1 & E2). exact (Hk a s1 b s' (Hm s a s1 Hs E1) E2). Qed.

Lemma safe_seq P (m : M S A) (k : A -> M S B) Q : safe P m (fun _ => P) -> (forall a, safe P (k a) Q) -> safe P (bind m k) Q.
Proof. apply safe_bind. Qed.

Lemma safe_ret P (a : A) (Q : A -> S -> Prop) : (forall s, P s -> Q a s) -> safe P (ret a) Q.
Proof. intros H s b s' Hs [= <- <-]. auto. Qed.

Lemma safe_hang P (Q : A -> S -> Prop) : safe P hang Q.
Proof. intros s a s' _ E. discriminate. Qed.

Lemma safe_gets P (f : S -> A) (Q : A -> S -> Prop) : (forall s, P s -> Q (f s) s) -> safe P (gets f) Q.
Proof. intros H s b s' Hs [= <- <-]. auto. Qed.

Lemma safe_modify P (f : S -> S) (Q : unit -> S -> Prop) : (forall s, P s -> Q tt (f s)) -> safe P (modify f) Q.
Proof. intros H s b s' Hs [= <- <-]. auto. Qed.

Lemma safe_pre P P' (m : M S A) Q : safe P' m Q -> (forall s, P s -> P' s) -> safe P m Q.
Proof. intros Hm HP s a s' Hs. apply Hm. auto. Qed.

Lemma safe_post P (m : M S A) Q Q' : safe P m Q' -> (forall a s, Q' a s -> Q a s) -> safe P m Q.
Proof. intros Hm HQ s a s' Hs E. apply HQ. exact (Hm s a s' Hs E). Qed.
End Safe.
#[export] Hint Resolve safe_hang : safe.

(** ** Record update *)

Class Eta (R : Type) := { eta : R -> R }.
Class Setter {R E : Type} (get : R -> E) := { with_field : (E -> E) -> R -> R }.
Arguments with_field {R E} get {_} f r.

(** The setter of a field is the record rebuilt from its projections. *)
Ltac find_setter :=
  match goal with
  | |- @Setter ?R ?E ?get =>
      let inst := constr:(_ : Eta R) in
      let body := eval hnf in (@eta R inst) in
      match eval pattern get in body with
      | ?k _ =>
          let s := eval cbv beta in (fun (f : E -> E) => k (fun r => f (get r))) in
          exact {| with_field := s |}
      end
  end.
#[export] Hint Extern 1 (Setter _) => find_setter : typeclass_instances.

Notation "r '<|' p ':=' v '|>'" := (with_field p (fun _ => v) r)
  (at level 1, left associativity, p constr at level 12, v at level 200,
   format "r '<|' p  ':='  v '|>'") : c_scope.

(** ** Automation *)

#[global] Arguments Z.eqb : simpl never.
#[global] Arguments Z.leb : simpl never.
#[global] Arguments Z.ltb : simpl never.
#[global] Arguments Z.add : simpl never.
#[global] Arguments Z.sub : simpl never.
#[global] Arguments Z.mul : simpl never.
#[global] Arguments Z.modulo : simpl never.
#[global] Arguments Z.div : simpl never.
#[global] Arguments Z.pow : simpl never.
#[global] Arguments Z.land : simpl never.
#[global] Arguments Z.lor : simpl never.
#[global] Arguments Z.shiftl : simpl never.
#[global] Arguments Z.shiftr : simpl never.
#[global] Arguments Z.of_nat : simpl never.
#[global] Arguments Z.to_nat : simpl never.

Create HintDb cword.
Create Rewrite HintDb cword_rw.
Create Rewrite HintDb cbits.

Lemma u8_ok x : is_u8 (u8 x).
Proof. unfold is_u8, u8. apply Z.mod_pos_bound. lia. Qed.
Lemma u16_ok x : is_u16 (u16 x).
Proof. unfold is_u16, u16. apply Z.mod_pos_bound. lia. Qed.
Lemma u32_ok x : is_u32 (u32 x).
Proof. unfold is_u32, u32. apply Z.mod_pos_bound. lia. Qed.

Lemma u8_id x : is_u8 x -> u8 x = x.
Proof. apply Z.mod_small. Qed.
Lemma u16_id x : is_u16 x -> u16 x = x.
Proof. apply Z.mod_small. Qed.
Lemma u32_id x : is_u32 x -> u32 x = x.
Proof. apply Z.mod_small. Qed.

#[export] Hint Resolve u8_ok u16_ok u32_ok : cword.
#[export] Hint Rewrite u8_id u16_id u32_id using (unfold is_u8, is_u16, is_u32 in *; lia) : cword_rw.

(** Unfold the range predicates and call [lia]. *)
Ltac word_lia := unfold is_u8, is_u16, is_u32, is_int in *; lia.

(** As [word_lia], with [/] and [mod] expanded. *)
Ltac word_div :=
  unfold is_u8, is_u16, is_u32, is_int, u8, u16, u32 in *;
  Z.div_mod_to_equations; lia.

(** Split one boolean test of the context or the goal. *)
Ltac bool_to_prop :=
  repeat match goal with
  | H : andb _ _ = true |- _ => apply andb_prop in H; destruct H
  | H : orb _ _ = false |- _ => apply orb_false_elim in H; destruct H
  | H : negb _ = true |- _ => apply negb_true_iff in H
  | H : negb _ = false |- _ => apply negb_false_iff in H
  | H : (_ =? _) = true |- _ => apply Z.eqb_eq in H
  | H : (_ =? _) = false |- _ => apply Z.eqb_neq in H
  | H : (_ <=? _) = true |- _ => apply Z.leb_le in H
  | H : (_ <=? _) = false |- _ => apply Z.leb_gt in H
  | H : (_ <? _) = true |- _ => apply Z.ltb_lt in H
  | H : (_ <? _) = false |- _ => apply Z.ltb_ge in H
  | H : (_ >? _) = true |- _ => apply Z.gtb_lt in H
  | H : (_ >? _) = false |- _ => rewrite Z.gtb_ltb in H; apply Z.ltb_ge in H
  end.

(** Discharge [Forall] of an arithmetic predicate on a concrete list. *)
Ltac solve_Forall :=
  cbn; unfold bytes_ok; repeat (apply Forall_nil || apply Forall_cons); cbn; try word_lia.

(** ** Masks, shifts and disjoint [or] as arithmetic *)

Lemma land_mask x n : 0 <= n -> x .& (Z.ones n) = x mod 2 ^ n.
Proof. intros. now apply Z.land_ones. Qed.

Lemma land_ff x : x .& 0xff = x mod 256.
Proof. now apply (land_mask x 8). Qed.
Lemma land_ffff x : x .& 0xffff = x mod 65536.
Proof. now apply (land_mask x 16). Qed.
Lemma land_1 x : x .& 1 = x mod 2.
Proof. now apply (land_mask x 1). Qed.

Lemma shiftr_div x n : 0 <= n -> x >> n = x / 2 ^ n.
Proof. intros. now apply Z.shiftr_div_pow2. Qed.
Lemma shiftl_mul x n : 0 <= n -> x << n = x * 2 ^ n.
Proof. intros. now apply Z.shiftl_mul_pow2. Qed.

(** A field of [w] bits at position [n]. *)
Lemma land_field x n w :
  0 <= n -> 0 <= w -> x .& (Z.ones w << n) = ((x / 2 ^ n) mod 2 ^ w) * 2 ^ n.
Proof.
  intros Hn Hw.
  rewrite <- (Z.shiftr_div_pow2 x n), <- Z.land_ones, <- Z.shiftl_mul_pow2 by lia.
  apply Z.bits_inj'; intros i Hi.
  rewrite Z.land_spec, !Z.shiftl_spec, Z.land_spec by lia.
  destruct (Z_lt_le_dec i n).
  - rewrite !(Z.testbit_neg_r _ (i - n)) by lia. now rewrite andb_false_r.
  - rewrite Z.shiftr_spec by lia. do 2 f_equal; lia.
Qed.

Lemma land_ff00 x : x .& 0xff00 = ((x / 256) mod 256) * 256.
Proof. apply (land_field x 8 8); lia. Qed.
Lemma land_ff0000 x : x .& 0xff0000 = ((x / 65536) mod 256) * 65536.
Proof. apply (land_field x 16 8); lia. Qed.
Lemma land_ff000000 x : x .& 0xff000000 = ((x / 16777216) mod 256) * 16777216.
Proof. apply (land_field x 24 8); lia. Qed.

(** [or] of two words without a common bit is their sum. *)
Lemma lor_add a b n : 0 <= n -> 0 <= a < 2 ^ n -> (b mod 2 ^ n = 0) -> b .| a = b + a.
Proof.
  intros Hn Ha Hb.
  rewrite Z.add_nocarry_lxor.
  - symmetry. apply Z.lxor_lor. apply Z.bits_inj'; intros i Hi.
    rewrite Z.land_spec, Z.bits_0. destruct (Z_lt_le_dec i n).
    + rewrite <- (Z.mod_pow2_bits_low b n i), Hb, Z.bits_0 by lia. reflexivity.
    + rewrite <- (Z.mod_small a (2 ^ n)), Z.mod_pow2_bits_high by lia.
      apply andb_false_r.
  - apply Z.bits_inj'; intros i Hi.
    rewrite Z.land_spec, Z.bits_0. destruct (Z_lt_le_dec i n).
    + rewrite <- (Z.mod_pow2_bits_low b n i), Hb, Z.bits_0 by lia. reflexivity.
    + rewrite <- (Z.mod_small a (2 ^ n)), Z.mod_pow2_bits_high by lia.
      apply andb_false_r.
Qed.

(** [~x] of a w-bit word. *)
Lemma lnot_u16 x : is_u16 x -> u16 (Z.lnot x) = 65535 - x.
Proof. intros. unfold Z.lnot. word_div. Qed.
Lemma lnot_u32 x : is_u32 x -> u32 (Z.lnot x) = 4294967295 - x.
Proof. intros. unfold Z.lnot. word_div. Qed.

(** Turn masks and shifts by constants into [/] and [mod]. *)
#[export] Hint Rewrite land_ff land_ffff land_ff00 land_ff0000 land_ff000000 land_1 : cbits.
Ltac cbits :=
  autorewrite with cbits;
  repeat rewrite shiftr_div by lia; repeat rewrite shiftl_mul by lia.

(** ** Single bits *)

Lemma testbit_pow2 n i : 0 <= n -> 0 <= i -> Z.testbit (2 ^ n) i = (i =? n).
Proof.
  intros Hn Hi. rewrite Z.pow2_bits_eqb by assumption. apply Z.eqb_sym.
Qed.

Lemma land_pow2 x n : 0 <= n -> x .& 2 ^ n = if Z.testbit x n then 2 ^ n else 0.
Proof.
  intros Hn. apply Z.bits_inj'; intros i Hi. rewrite Z.land_spec, testbit_pow2 by lia.
  destruct (Z.eqb_spec i n) as [->|Hne].
  - destruct (Z.testbit x n); [now rewrite testbit_pow2, Z.eqb_refl|now rewrite Z.bits_0].
  - rewrite andb_false_r. symmetry.
    destruct (Z.testbit x n); [|apply Z.bits_0]. rewrite testbit_pow2 by lia. now apply Z.eqb_neq.
Qed.

(** ** Bytes and lists *)

Lemma is_u8b_spec x : is_u8b x = true <-> is_u8 x.
Proof. unfold is_u8b, is_u8. rewrite andb_true_iff, Z.leb_le, Z.ltb_lt. tauto. Qed.

Lemma bytes_okb_spec l : forallb is_u8b l = true -> bytes_ok l.
Proof.
  intros H. apply Forall_forall. intros x Hx.
  apply is_u8b_spec. rewrite forallb_forall in H. auto.
Qed.

Lemma bytes_ok_app l1 l2 : bytes_ok (l1 ++ l2) <-> bytes_ok l1 /\ bytes_ok l2.
Proof. apply Forall_app. Qed.

Lemma bytes_ok_cons x l : bytes_ok (x :: l) <-> is_u8 x /\ bytes_ok l.
Proof. apply Forall_cons_iff. Qed.

Lemma bytes_ok_firstn n l : bytes_ok l -> bytes_ok (firstn n l).
Proof.
  intros H. rewrite <- (firstn_skipn n l) in H. now apply bytes_ok_app in H.
Qed.

Lemma bytes_ok_skipn n l : bytes_ok l -> bytes_ok (skipn n l).
Proof.
  intros H. rewrite <- (firstn_skipn n l) in H. now apply bytes_ok_app in H.
Qed.

#[export] Hint Resolve bytes_ok_firstn bytes_ok_skipn : cword.

(** Induction two elements at a time. *)
Lemma list_ind2 {A} (P : list A -> Prop) :
  P [] -> (forall a, P [a]) -> (forall a b l, P l -> P (a :: b :: l)) -> forall l, P l.
Proof.
  intros H0 H1 H2. fix IH 1. intros [|a [|b l]]; [exact H0 | apply H1 | apply H2, IH].
Qed.

Lemma length_cons_Z {A} (x : A) l : Z.of_nat (length (x :: l)) = 1 + Z.of_nat (length l).
Proof. simpl length. lia. Qed.

(** ** Little-endian words *)

Definition le16 (b0 b1 : Z) : Z := b0 + 256 * b1.
Definition le32 (b0 b1 b2 b3 : Z) : Z := b0 + 256 * b1 + 65536 * b2 + 16777216 * b3.

(** The bytes of a 32-bit word, as [((u8_t * )&x)[i]] reads them. *)
Definition byte_of (x : Z) (i : nat) : Z := (x / 2 ^ (8 * Z.of_nat i)) mod 256.

Lemma le32_bytes x : is_u32 x ->
  x = le32 (x mod 256) (x / 256 mod 256) (x / 65536 mod 256) (x / 16777216).
Proof.
  intros H. unfold le32, is_u32 in *.
  replace (x / 65536) with (x / 256 / 256) by now rewrite Z.div_div by lia.
  replace (x / 16777216) with (x / 256 / 256 / 256) by now rewrite !Z.div_div by lia.
  pose proof (Z.div_mod x 256). pose proof (Z.div_mod (x / 256) 256).
  pose proof (Z.div_mod (x / 256 / 256) 256). lia.
Qed.

Lemma le32_split x : is_u32 x -> exists b0 b1 b2 b3,
  x = le32 b0 b1 b2 b3 /\ is_u8 b0 /\ is_u8 b1 /\ is_u8 b2 /\ is_u8 b3.
Proof.
  intros H. do 4 eexists. split; [apply le32_bytes, H|].
  split; [apply u8_ok|]. split; [apply u8_ok|]. split; [apply u8_ok|]. word_div.
Qed.

Section Le32Bytes.
Context (b0 b1 b2 b3 : Z) (H0 : is_u8 b0) (H1 : is_u8 b1) (H2 : is_u8 b2) (H3 : is_u8 b3).

Lemma le32_ok : is_u32 (le32 b0 b1 b2 b3).
Proof. unfold le32. word_lia. Qed.
Lemma le32_byte0 : le32 b0 b1 b2 b3 mod 256 = b0.
Proof. unfold le32. word_div. Qed.
Lemma le32_byte1 : le32 b0 b1 b2 b3 / 256 mod 256 = b1.
Proof.
  unfold le32. replace (_ / 256) with (b1 + 256 * b2 + 65536 * b3); word_div.
Qed.
Lemma le32_byte2 : le32 b0 b1 b2 b3 / 65536 mod 256 = b2.
Proof. unfold le32. replace (_ / 65536) with (b2 + 256 * b3); word_div. Qed.
Lemma le32_byte3 : le32 b0 b1 b2 b3 / 16777216 = b3.
Proof. unfold le32. word_div. Qed.
End Le32Bytes.

(** The bytes of a 16- and of a 32-bit word in memory. *)
Definition put16 (v : Z) : list Z := [v mod 256; v / 256 mod 256].
Definition put32 (v : Z) : list Z := [v mod 256; v / 256 mod 256; v / 65536 mod 256; v / 16777216 mod 256].

Lemma le16_put16 v : is_u16 v -> le16 (v mod 256) (v / 256 mod 256) = v.
Proof. unfold le16. intros. word_div. Qed.

Lemma le32_put32 v : is_u32 v -> le32 (v mod 256) (v / 256 mod 256) (v / 65536 mod 256) (v / 16777216 mod 256) = v.
Proof.
  intros H. replace (v / 16777216 mod 256) with (v / 16777216) by (unfold is_u32 in H; rewrite Z.mod_small; [reflexivity|word_div]).
  symmetry. now apply le32_bytes.
Qed.

(** A list with its element at position [i] changed. *)
Fixpoint alter_at {A} (i : nat) (f : A -> A) (l : list A) : list A :=
  match l, i with
  | [], _ => []
  | x :: l, O => f x :: l
  | x :: l, S i => x :: alter_at i f l
  end.

Lemma length_alter {A} i (f : A -> A) l : length (alter_at i f l) = length l.
Proof. revert i. induction l as [|x l IH]; intros [|i]; cbn; [reflexivity..|now rewrite IH]. Qed.

Lemma nth_error_alter {A} i j (f : A -> A) l : nth_error (alter_at i f l) j =
  if (j =? i)%nat then option_map f (nth_error l j) else nth_error l j.
Proof.
  revert i j. induction l as [|x l IH]; intros [|i] [|j]; cbn; try reflexivity; [now destruct (j =? i)%nat|apply IH].
Qed.

Lemma alter_ext {A} i (f g : A -> A) l : (forall x, nth_error l i = Some x -> f x = g x) -> alter_at i f l = alter_at i g l.
Proof.
  revert i. induction l as [|x l IH]; intros [|i] H; cbn; [reflexivity..|now rewrite (H x eq_refl)|now rewrite (IH i H)].
Qed.

Lemma alter_alter {A} i (f g : A -> A) l : alter_at i g (alter_at i f l) = alter_at i (fun x => g (f x)) l.
Proof. revert i. induction l as [|x l IH]; intros [|i]; cbn; [reflexivity..|now rewrite IH]. Qed.

(** A list without its element at position [i]. *)
Definition remove_at {A} (i : nat) (l : list A) : list A := firstn i l ++ skipn (S i) l.

Lemma nth_error_middle {A} (l1 : list A) x l2 : nth_error (l1 ++ x :: l2) (length l1) = Some x.
Proof. rewrite nth_error_app2, Nat.sub_diag by lia. reflexivity. Qed.

Lemma remove_at_middle {A} (l1 : list A) x l2 : remove_at (length l1) (l1 ++ x :: l2) = l1 ++ l2.
Proof.
  unfold remove_at. rewrite firstn_app, firstn_all, Nat.sub_diag, skipn_app, skipn_all2 by lia.
  replace (S (length l1) - length l1)%nat with 1%nat by lia. cbn [firstn skipn app]. now rewrite app_nil_r.
Qed.

Lemma remove_at_split {A} i (l : list A) x : nth_error l i = Some x ->
  exists l1 l2, l = l1 ++ x :: l2 /\ remove_at i l = l1 ++ l2.
Proof.
  intros Hi. destruct (nth_error_split _ _ Hi) as (l1 & l2 & -> & <-). exists l1, l2.
  split; [reflexivity|apply remove_at_middle].
Qed.

(** A relation on all pairs of a list, at two positions. *)
Lemma ForallOrdPairs_nth {A} (R : A -> A -> Prop) l : ForallOrdPairs R l -> forall i j x y, i <> j ->
  nth_error l i = Some x -> nth_error l j = Some y -> R x y \/ R y x.
Proof.
  induction 1 as [|a l Ha _ IH]; intros [|i] [|j] x y Hij Hx Hy; try discriminate; try contradiction;
    rewrite Forall_forall in Ha; cbn [nth_error] in *.
  - injection Hx as ->. left. apply Ha. now apply nth_error_In in Hy.
  - injection Hy as ->. right. apply Ha. now apply nth_error_In in Hx.
  - eapply IH; [|eassumption..]. congruence.
Qed.

Lemma ForallOrdPairs_app {A} (R : A -> A -> Prop) l1 l2 : ForallOrdPairs R l1 -> ForallOrdPairs R l2 ->
  (forall x y, In x l1 -> In y l2 -> R x y) -> ForallOrdPairs R (l1 ++ l2).
Proof.
  induction 1 as [|a l1 Ha _ IH]; intros H2 Hx; cbn [app]; [assumption|].
  constructor; [|apply IH; [assumption|]; intros; apply Hx; auto using in_cons].
  rewrite Forall_app. split; [assumption|]. apply Forall_forall. intros. apply Hx; auto using in_eq.
Qed.

Lemma ForallOrdPairs_perm {A} (R : A -> A -> Prop) l l' : (forall x y, R x y -> R y x) ->
  Permutation l l' -> ForallOrdPairs R l -> ForallOrdPairs R l'.
Proof.
  intros Hsym Hp. induction Hp as [|x l l' Hp IH|x y l|l l2 l3 _ IH1 _ IH2]; intros Hf; [assumption|..].
  - inversion_clear Hf as [|? ? Hx Hl]. constructor; [now rewrite <- Hp|auto].
  - inversion_clear Hf as [|? ? Hx Hl]. inversion_clear Hl as [|? ? Hy Hl'].
    apply Forall_cons_iff in Hx. destruct Hx as [Hyx Hx].
    constructor; [constructor; auto|]. now constructor.
  - auto.
Qed.

Lemma ForallOrdPairs_app_inv {A} (R : A -> A -> Prop) l1 l2 : ForallOrdPairs R (l1 ++ l2) ->
  ForallOrdPairs R l1 /\ ForallOrdPairs R l2 /\ forall x y, In x l1 -> In y l2 -> R x y.
Proof.
  induction l1 as [|a l1 IH]; cbn [app]; intros H; [repeat split; [constructor|assumption|contradiction]|].
  inversion H as [|? ? Ha Hr]; subst. destruct (IH Hr) as (H1 & H2 & H3). apply Forall_app in Ha. destruct Ha as [Ha1 Ha2].
  split; [now constructor|]. split; [assumption|]. intros x y [<-|Hx] Hy; [|now apply H3]. rewrite Forall_forall in Ha2. now apply Ha2.
Qed.

Lemma NoDup_app_disjoint {A} (l1 l2 : list A) a : NoDup (l1 ++ l2) -> In a l1 -> In a l2 -> False.
Proof.
  induction l1 as [|x l1 IH]; [contradiction|]. cbn [app]. intros Hnd Hin H2. apply NoDup_cons_iff in Hnd. destruct Hnd as [Hx Hnd].
  destruct Hin as [->|Hin]; [apply Hx, in_app_iff; now right|now apply IH].
Qed.

(** ** Sorted lists

    The place of an element in a list that is sorted by a strict order. *)

Section SortedLists.
Context {A : Type} (R : A -> A -> Prop).

Lemma sorted_place g q : (forall a b, R a b -> R b a -> False) -> (forall a b c, R a b -> R b c -> R a c) ->
  StronglySorted R q -> Forall (fun h => R h g \/ R g h) q ->
  exists q1 q2, q = q1 ++ q2 /\ Forall (fun h => R h g) q1 /\ Forall (R g) q2.
Proof.
  intros Hasym Htrans Hs Hc. induction Hs as [|a q Hs IH Ha]; [now exists [], []|].
  apply Forall_cons_iff in Hc. destruct Hc as [Hag Hc]. destruct Hag as [Hag|Hga].
  - destruct (IH Hc) as (q1 & q2 & -> & H1 & H2). exists (a :: q1), q2. split; [reflexivity|]. split; [now constructor|assumption].
  - exists [], (a :: q). split; [reflexivity|]. split; [constructor|]. constructor; [assumption|].
    eapply Forall_impl; [|exact Ha]. intros b Hab. eapply Htrans; eassumption.
Qed.

Lemma sorted_insert g q1 q2 : StronglySorted R (q1 ++ q2) -> Forall (fun h => R h g) q1 -> Forall (R g) q2 ->
  StronglySorted R (q1 ++ g :: q2).
Proof.
  induction q1 as [|a q1 IH]; cbn [app]; intros Hs H1 H2; [now constructor|].
  inversion Hs as [|? ? Hs' Ha]; subst. apply Forall_cons_iff in H1. destruct H1 as [Hag H1].
  constructor; [now apply IH|]. apply Forall_app in Ha. destruct Ha as [Ha1 Ha2]. apply Forall_app. split; [assumption|]. now constructor.
Qed.

Lemma sorted_unique l l' : (forall a b, R a b -> R b a -> False) -> StronglySorted R l -> StronglySorted R l' ->
  Permutation l l' -> l = l'.
Proof.
  intros Hasym Hs. revert l'. induction Hs as [|a l Hs IH Ha]; intros l' Hs' Hp; [now apply Permutation_nil in Hp|].
  destruct l' as [|b l']; [apply Permutation_sym, Permutation_nil in Hp; discriminate|].
  inversion Hs' as [|? ? Hs'' Hb]; subst. rewrite Forall_forall in Ha, Hb.
  assert (a = b) as ->.
  { assert (In a (b :: l')) as [->|Hin] by (apply (Permutation_in _ Hp); now left); [reflexivity|].
    assert (In b (a :: l)) as [->|Hin'] by (apply (Permutation_in _ (Permutation_sym Hp)); now left); [reflexivity|].
    destruct (Hasym a b); auto. }
  f_equal. apply IH; [assumption|]. now apply Permutation_cons_inv in Hp.
Qed.
End SortedLists.
