(* ===== verification/Def.v ===== *)
(** * Byte order and string helpers ([lwip/src/core/def.c], [lwip/def.h])

    The byte-order functions on a little-endian host, the string functions
    that replace non-standard C library functions, and [lwip_itoa].

    A C string is the list of its characters before the terminating NUL; a
    read at the end of the list gives the NUL. *)

From Stdlib Require Import ZArith List Lia Bool.
From S2P Require Import Prelude.
Import ListNotations.
Open Scope Z_scope.
Open Scope c_scope.

(** ** Byte order *)

Definition PP_HTONS (x : Z) : Z := ((x .& 0xff) << 8) .| ((x .& 0xff00) >> 8).

Definition PP_HTONL (x : Z) : Z :=
  ((x .& 0xff) << 24) .| ((x .& 0xff00) << 8)
    .| ((x .& 0xff0000) >> 8) .| ((x .& 0xff000000) >> 24).

Definition lwip_htons (n : Z) : Z := u16 (PP_HTONS n).
Definition lwip_htonl (n : Z) : Z := u32 (PP_HTONL n).

Lemma lwip_htons_eq n : is_u16 n -> lwip_htons n = (n mod 256) * 256 + n / 256.
Proof.
  intros H. unfold lwip_htons, PP_HTONS. cbits.
  rewrite (lor_add _ _ 8); [| lia | word_div | word_div]. word_div.
Qed.

Lemma lwip_htonl_le32 b0 b1 b2 b3 :
  is_u8 b0 -> is_u8 b1 -> is_u8 b2 -> is_u8 b3 ->
  lwip_htonl (le32 b0 b1 b2 b3) = le32 b3 b2 b1 b0.
Proof.
  intros H0 H1 H2 H3. unfold lwip_htonl, PP_HTONL. cbits.
  rewrite le32_byte0, le32_byte1, le32_byte2, le32_byte3 by assumption.
  rewrite (Z.mod_small b3) by assumption.
  change (2 ^ 24) with 16777216. change (2 ^ 8) with 256.
  rewrite !Z.div_mul, <- !Z.mul_assoc by lia. change (256 * 256) with 65536.
  replace (b2 * 65536 / 256) with (b2 * 256) by word_div.
  rewrite (lor_add (b1 * 65536) _ 24); [| lia | word_lia | word_div].
  rewrite (lor_add (b2 * 256) _ 16); [| lia | word_lia | word_div].
  rewrite (lor_add b3 _ 8); [| lia | word_lia | word_div].
  unfold le32. word_div.
Qed.

Lemma lwip_htons_ok n : is_u16 (lwip_htons n).
Proof. apply u16_ok. Qed.
Lemma lwip_htonl_ok n : is_u32 (lwip_htonl n).
Proof. apply u32_ok. Qed.
#[export] Hint Resolve lwip_htons_ok lwip_htonl_ok : cword.

Lemma lwip_htons_involutive n : is_u16 n -> lwip_htons (lwip_htons n) = n.
Proof.
  intros H. rewrite (lwip_htons_eq (lwip_htons n)) by auto with cword.
  rewrite lwip_htons_eq by assumption. word_div.
Qed.

Lemma lwip_htonl_involutive n : is_u32 n -> lwip_htonl (lwip_htonl n) = n.
Proof.
  intros (b0 & b1 & b2 & b3 & -> & ? & ? & ? & ?)%le32_split.
  now rewrite !lwip_htonl_le32.
Qed.

(** ** Strings *)

(** [*s] and [s + 1] on a C string. *)
Definition deref (s : list Z) : Z := match s with c :: _ => c | [] => 0 end.

(** The test of one loop iteration of [lwip_stricmp]: [true] when the loop
    returns 1. *)
Definition stricmp_differ (c1 c2 : Z) : bool :=
  if c1 =? c2 then false
  else
    let c1_upc := c1 .| 0x20 in
    if (97 <=? c1_upc) && (c1_upc <=? 122) then
      let c2_upc := c2 .| 0x20 in negb (c1_upc =? c2_upc)
    else true.

(** [do { ... } while (c1 != 0)] *)
Fixpoint lwip_stricmp (str1 str2 : list Z) : Z :=
  let c1 := deref str1 in
  let c2 := deref str2 in
  if stricmp_differ c1 c2 then 1
  else if c1 =? 0 then 0
  else match str1 with
       | [] => 0
       | _ :: str1' => lwip_stricmp str1' (tl str2)
       end.

(** [do { ... } while (len-- && c1 != 0)] *)
Fixpoint lwip_strnicmp (str1 str2 : list Z) (len : nat) : Z :=
  let c1 := deref str1 in
  let c2 := deref str2 in
  if stricmp_differ c1 c2 then 1
  else match len with
       | O => 0
       | S len' => if c1 =? 0 then 0 else lwip_strnicmp (tl str1) (tl str2) len'
       end.

(** [strncmp(p, token, n) == 0] of the C library. *)
Fixpoint strncmp_eq0 (p token : list Z) (n : nat) : bool :=
  match n with
  | O => true
  | S n' => if deref p =? deref token
            then if deref p =? 0 then true else strncmp_eq0 (tl p) (tl token) n'
            else false
  end.

(** The [for] loop of [lwip_strnstr]; [off] is [p - buffer]. *)
Fixpoint strnstr_loop (p token : list Z) (tokenlen off n : nat) : option nat :=
  match p with
  | [] => None
  | c :: p' =>
      if (off + tokenlen <=? n)%nat then
        if (c =? deref token) && strncmp_eq0 p token tokenlen then Some off
        else strnstr_loop p' token tokenlen (S off) n
      else None
  end.

(** The result is the offset in [buffer] of the pointer returned. *)
Definition lwip_strnstr (buffer token : list Z) (n : nat) : option nat :=
  let tokenlen := length token in
  if (tokenlen =? 0)%nat then Some 0%nat else strnstr_loop buffer token tokenlen 0 n.

(** *** Case-insensitive comparison *)

Definition is_cstr (s : list Z) : Prop := Forall (fun c => 0 < c < 256) s.

(** ASCII lower case. *)
Definition tolower (c : Z) : Z := if (65 <=? c) && (c <=? 90) then c + 32 else c.

Definition all_chars : list Z := map Z.of_nat (seq 0 256).

Lemma all_chars_spec c : is_u8 c -> In c all_chars.
Proof.
  intros H. unfold all_chars. apply in_map_iff. exists (Z.to_nat c).
  split; [word_lia | apply in_seq; word_lia].
Qed.

(** Check a property of two characters on all 65536 pairs. *)
Lemma chars2_dec (P : Z -> Z -> bool) :
  forallb (fun a => forallb (P a) all_chars) all_chars = true ->
  forall a b, is_u8 a -> is_u8 b -> P a b = true.
Proof.
  intros H a b Ha Hb. rewrite forallb_forall in H.
  specialize (H a (all_chars_spec a Ha)). rewrite forallb_forall in H.
  apply H, all_chars_spec, Hb.
Qed.

Lemma stricmp_differ_spec c1 c2 : is_u8 c1 -> is_u8 c2 ->
  stricmp_differ c1 c2 = negb (tolower c1 =? tolower c2).
Proof.
  intros H1 H2. apply eqb_prop.
  apply (chars2_dec (fun a b => eqb (stricmp_differ a b) (negb (tolower a =? tolower b))));
    [vm_compute; reflexivity | assumption | assumption].
Qed.

Lemma is_cstr_deref s : is_cstr s -> is_u8 (deref s).
Proof. intros H. destruct H as [|c s Hc Hs]; simpl; word_lia. Qed.

Lemma tolower_0 c : 0 < c < 256 -> tolower c <> 0.
Proof. unfold tolower. destruct (_ && _) eqn:E; lia. Qed.

Lemma is_cstr_cons c s : is_cstr (c :: s) -> 0 < c < 256 /\ is_cstr s.
Proof. apply Forall_cons_iff. Qed.
#[export] Hint Resolve is_cstr_deref : cword.

(** [lwip_stricmp] on one step, for strings of characters. *)
Lemma lwip_stricmp_step s1 s2 : is_cstr s1 -> is_cstr s2 ->
  lwip_stricmp s1 s2 = 0 <->
  tolower (deref s1) = tolower (deref s2) /\
  (s1 = [] \/ lwip_stricmp (tl s1) (tl s2) = 0).
Proof.
  intros H1 H2. destruct s1 as [|a s1]; cbn [lwip_stricmp];
    rewrite stricmp_differ_spec by auto with cword;
    match goal with |- context [?x =? tolower (deref s2)] =>
      destruct (Z.eqb_spec x (tolower (deref s2))) as [E|E] end; cbn [negb deref tl].
  - cbn. intuition.
  - intuition congruence.
  - apply is_cstr_cons in H1 as [Ha _]. cbn [deref].
    destruct (Z.eqb_spec a 0); [lia|]. intuition congruence.
  - intuition congruence.
Qed.

Lemma lwip_stricmp_spec s1 s2 : is_cstr s1 -> is_cstr s2 ->
  lwip_stricmp s1 s2 = 0 <-> map tolower s1 = map tolower s2.
Proof.
  revert s2. induction s1 as [|a s1 IH]; intros s2 H1 H2; rewrite lwip_stricmp_step by assumption.
  - destruct s2 as [|b s2]; cbn; [intuition|].
    apply is_cstr_cons in H2 as [Hb _]. pose proof (tolower_0 b Hb).
    change (tolower 0) with 0. split; [intros []; congruence | discriminate].
  - apply is_cstr_cons in H1 as [Ha Hs1]. destruct s2 as [|b s2]; cbn.
    + pose proof (tolower_0 a Ha). change (tolower 0) with 0.
      split; [intros []; congruence | discriminate].
    + apply is_cstr_cons in H2 as [Hb Hs2]. rewrite IH by assumption.
      split; [intros [-> [ | -> ]]; [discriminate | reflexivity] | intros [= -> ->]; auto].
Qed.

(** [lwip_strnicmp] looks at one character more than [len]. *)
Lemma lwip_strnicmp_stricmp s1 s2 len : is_cstr s1 -> is_cstr s2 ->
  lwip_strnicmp s1 s2 len = lwip_stricmp (firstn (S len) s1) (firstn (S len) s2).
Proof.
  revert s1 s2. induction len as [|len IH]; intros s1 s2 H1 H2.
  - destruct s1 as [|a s1], s2 as [|b s2]; try reflexivity; cbn.
    + apply is_cstr_cons in H1 as [Ha _].
      destruct (stricmp_differ a 0); [reflexivity|]. now destruct (a =? 0).
    + apply is_cstr_cons in H1 as [Ha _].
      destruct (stricmp_differ a b); [reflexivity|]. now destruct (a =? 0).
  - destruct s1 as [|a s1].
    + destruct s2; reflexivity.
    + apply is_cstr_cons in H1 as [Ha Hs1].
      assert (is_cstr (tl s2)) as Htl by (destruct H2; [constructor | assumption]).
      cbn [lwip_strnicmp tl]. rewrite IH by assumption.
      destruct s2 as [|b s2]; reflexivity.
Qed.

(** *** Substring search *)

Definition occurs_at (buffer token : list Z) (i : nat) : Prop :=
  firstn (length token) (skipn i buffer) = token.

Lemma strncmp_eq0_spec p token : is_cstr p -> is_cstr token ->
  strncmp_eq0 p token (length token) = true <-> firstn (length token) p = token.
Proof.
  revert p. induction token as [|t token IH]; intros p Hp Ht; cbn; [tauto|].
  apply is_cstr_cons in Ht as [Ht Htoken]. destruct p as [|c p]; cbn.
  - destruct (Z.eqb_spec 0 t); [lia|]. split; discriminate.
  - apply is_cstr_cons in Hp as [Hc Hp].
    destruct (Z.eqb_spec c t) as [->|Hne].
    + destruct (Z.eqb_spec t 0); [lia|]. rewrite IH by assumption.
      split; [now intros -> | now intros [=]].
    + split; [discriminate | congruence].
Qed.

(** The test in the loop body of [lwip_strnstr]. *)
Lemma strnstr_test c p t token : is_cstr (c :: p) -> is_cstr (t :: token) ->
  (c =? t) && strncmp_eq0 (c :: p) (t :: token) (length (t :: token)) = true <->
  occurs_at (c :: p) (t :: token) 0.
Proof.
  intros Hp Ht. unfold occurs_at. cbn [skipn].
  rewrite andb_true_iff, strncmp_eq0_spec, Z.eqb_eq by assumption.
  cbn. split; [tauto | intros E; split; [congruence | assumption]].
Qed.

Lemma occurs_at_skipn p c token i :
  occurs_at (c :: p) token (S i) <-> occurs_at p token i.
Proof. reflexivity. Qed.

Lemma occurs_at_nil t token i : ~ occurs_at [] (t :: token) i.
Proof. unfold occurs_at. rewrite skipn_nil, firstn_nil. discriminate. Qed.

Lemma strnstr_loop_some p t token off n i :
  is_cstr p -> is_cstr (t :: token) ->
  strnstr_loop p (t :: token) (length (t :: token)) off n = Some i ->
  exists j, i = (off + j)%nat /\ (i + length (t :: token) <= n)%nat /\
    occurs_at p (t :: token) j /\
    forall k, (k < j)%nat -> ~ occurs_at p (t :: token) k.
Proof.
  revert off. induction p as [|c p IH]; intros off Hp Ht; cbn [strnstr_loop]; [discriminate|].
  destruct (Nat.leb_spec (off + length (t :: token)) n) as [Hle|]; [|discriminate].
  cbn [deref]. destruct (_ && _) eqn:E.
  - apply strnstr_test in E; [|assumption|assumption]. intros [= <-].
    exists 0%nat. repeat split; [lia | lia | assumption | lia].
  - intros H. apply IH in H as (j & -> & Hn & Ho & Hk); [| now apply is_cstr_cons in Hp | assumption].
    exists (S j). repeat split; [lia | lia | assumption |].
    intros [|k] Hlt; [| apply Hk; lia].
    rewrite <- strnstr_test by assumption. congruence.
Qed.

Lemma strnstr_loop_none p t token off n :
  is_cstr p -> is_cstr (t :: token) ->
  strnstr_loop p (t :: token) (length (t :: token)) off n = None ->
  forall j, (off + j + length (t :: token) <= n)%nat -> ~ occurs_at p (t :: token) j.
Proof.
  revert off. induction p as [|c p IH]; intros off Hp Ht; cbn [strnstr_loop].
  - intros _ j _. apply occurs_at_nil.
  - destruct (Nat.leb_spec (off + length (t :: token)) n) as [Hle|]; [|intros _ j; lia].
    cbn [deref]. destruct (_ && _) eqn:E; [discriminate|].
    intros H [|j] Hj.
    + rewrite <- strnstr_test by assumption. congruence.
    + rewrite occurs_at_skipn. apply (IH (S off)); [now apply is_cstr_cons in Hp | assumption | assumption | lia].
Qed.

(** ** lwip_itoa *)

(** "zyx...a9876543210123456789a...xyz" *)
Definition itoa_table : list Z :=
  map Z.of_nat (rev (seq 97 26) ++ rev (seq 49 9) ++ seq 48 10 ++ seq 97 26).

(** [*ptr++ = table[...]] until [number] is 0: the characters written so far,
    and the last [tmp_value]. *)
Fixpoint itoa_digits (fuel : nat) (buf : list Z) (number : Z) : option (list Z * Z) :=
  match fuel with
  | O => None
  | S fuel' =>
      let tmp_value := number in
      let number := Z.quot number 10 in
      let* c := nth_error itoa_table (Z.to_nat (35 + (tmp_value - number * 10))) in
      let buf := buf ++ [c] in
      if number =? 0 then Some (buf, tmp_value) else itoa_digits fuel' buf number
  end.

(** [buf[i] = x] *)
Fixpoint set_nth (buf : list Z) (i : nat) (x : Z) : list Z :=
  match buf, i with
  | [], _ => []
  | _ :: buf', O => x :: buf'
  | c :: buf', S i' => c :: set_nth buf' i' x
  end.

(** [while (ptr1 < ptr)] swaps the two ends. *)
Fixpoint itoa_reverse (fuel : nat) (buf : list Z) (ptr1 ptr : nat) : list Z :=
  match fuel with
  | O => buf
  | S fuel' =>
      if (ptr1 <? ptr)%nat then
        let tmp_char := nth ptr buf 0 in
        let buf := set_nth buf ptr (nth ptr1 buf 0) in
        let buf := set_nth buf ptr1 tmp_char in
        itoa_reverse fuel' buf (S ptr1) (pred ptr)
      else buf
  end.

(** The bytes written to [result], the NUL included; [bufsize] is unused in
    the source too. *)
Definition lwip_itoa (bufsize : Z) (number : Z) : option (list Z) :=
  let* (buf, tmp_value) := itoa_digits 10 [] number in
  let buf := if tmp_value <? 0 then buf ++ [45] else buf in
  Some (itoa_reverse (length buf) buf 0 (pred (length buf)) ++ [0]).

(** *** The in-place reversal *)

Lemma set_nth_app l1 c l2 x : set_nth (l1 ++ c :: l2) (length l1) x = l1 ++ x :: l2.
Proof. induction l1 as [|a l1 IH]; cbn; [reflexivity | now rewrite IH]. Qed.

Lemma nth_app_here (l1 : list Z) c l2 d : nth (length l1) (l1 ++ c :: l2) d = c.
Proof. rewrite app_nth2, Nat.sub_diag by lia. reflexivity. Qed.

(** One swap of the loop body. *)
Lemma itoa_swap l1 a mid b l2 (buf := l1 ++ a :: mid ++ b :: l2)
  (ptr := (length l1 + S (length mid))%nat) :
  set_nth (set_nth buf ptr (nth (length l1) buf 0)) (length l1) (nth ptr buf 0)
  = l1 ++ b :: mid ++ a :: l2.
Proof.
  assert (buf = (l1 ++ a :: mid) ++ b :: l2) as Hb
    by (unfold buf; now rewrite <- app_assoc).
  assert (ptr = length (l1 ++ a :: mid)) as Hp by (unfold ptr; rewrite length_app; reflexivity).
  rewrite Hp, (eq_refl : nth (length l1) buf 0 = nth (length l1) (l1 ++ a :: mid ++ b :: l2) 0).
  rewrite Hb, !nth_app_here, set_nth_app, <- app_assoc. cbn [app]. apply set_nth_app.
Qed.

(** The loop invariant: the ends outside [ptr1..ptr] are already swapped. *)
Lemma itoa_reverse_inv fuel l1 mid l2 :
  (length mid <= fuel + 1)%nat -> mid <> [] ->
  itoa_reverse fuel (l1 ++ mid ++ l2) (length l1) (length l1 + pred (length mid))
  = l1 ++ rev mid ++ l2.
Proof.
  revert l1 mid l2. induction fuel as [|fuel IH]; intros l1 mid l2 Hlen Hne.
  - destruct mid as [|a [|b mid]]; [congruence | reflexivity | cbn in Hlen; lia].
  - destruct mid as [|a mid]; [congruence|]. cbn [itoa_reverse].
    destruct mid as [|m mid'].
    { rewrite (proj2 (Nat.ltb_ge _ _)) by (cbn; lia). reflexivity. }
    destruct (@exists_last _ (m :: mid')) as (mid & b & E); [discriminate|].
    rewrite E in *. clear m mid' E.
    cbn [length] in *. rewrite length_app in *. cbn [length pred] in *.
    rewrite (proj2 (Nat.ltb_lt _ _)) by lia.
    replace (length mid + 1)%nat with (S (length mid)) by lia.
    cbn [app]. rewrite <- app_assoc. cbn [app]. rewrite itoa_swap.
    cbn [rev]. rewrite rev_app_distr. cbn [rev app]. rewrite <- app_assoc. cbn [app].
    destruct mid as [|m mid'] eqn:Em.
    + destruct fuel; cbn [itoa_reverse]; [reflexivity|].
      rewrite (proj2 (Nat.ltb_ge _ _)) by (cbn; lia). reflexivity.
    + rewrite <- Em in *. specialize (IH (l1 ++ [b]) mid (a :: l2)).
      rewrite <- !app_assoc, length_app in IH. cbn [app length] in IH.
      replace (length l1 + 1)%nat with (S (length l1)) in IH by lia.
      replace (pred (length l1 + S (length mid))) with (S (length l1) + pred (length mid))%nat
        by (subst mid; cbn; lia).
      apply IH; [lia | now subst mid].
Qed.

Lemma itoa_reverse_rev buf :
  buf <> [] -> itoa_reverse (length buf) buf 0 (pred (length buf)) = rev buf.
Proof.
  intros Hne. pose proof (itoa_reverse_inv (length buf) [] buf []) as H.
  cbn in H. rewrite !app_nil_r in H. apply H; [lia | assumption].
Qed.

(** *** Digits *)

(** The reading of a decimal string: an optional [-] and digits, most
    significant first. *)
Definition dec_value (digits : list Z) : Z :=
  fold_left (fun v c => 10 * v + (c - 48)) digits 0.
Definition dec_read (s : list Z) : Z :=
  match s with
  | c :: ds => if c =? 45 then - dec_value ds else dec_value s
  | [] => 0
  end.

Definition is_digit (c : Z) : Prop := 48 <= c <= 57.

Lemma itoa_table_spec d : -9 <= d <= 9 ->
  nth_error itoa_table (Z.to_nat (35 + d)) = Some (48 + Z.abs d).
Proof.
  intros H.
  assert (In d (map (fun n => Z.of_nat n - 9) (seq 0 19))) as Hin.
  { apply in_map_iff. exists (Z.to_nat (d + 9)). split; [lia | apply in_seq; lia]. }
  cbn in Hin. repeat (destruct Hin as [<-|Hin]; [reflexivity|]). contradiction.
Qed.

Lemma quot10_digit n :
  n = 10 * Z.quot n 10 + (n - Z.quot n 10 * 10) /\ -9 <= n - Z.quot n 10 * 10 <= 9 /\
  (0 <= n -> 0 <= n - Z.quot n 10 * 10) /\ (n <= 0 -> n - Z.quot n 10 * 10 <= 0) /\
  Z.abs (Z.quot n 10) = Z.abs n / 10.
Proof.
  Z.quot_rem_to_equations. Z.div_mod_to_equations. lia.
Qed.

Lemma dec_value_snoc ds c : dec_value (ds ++ [c]) = 10 * dec_value ds + (c - 48).
Proof. unfold dec_value. now rewrite fold_left_app. Qed.

(** What the digit loop appends for [number], read back to front. *)
Lemma itoa_digits_spec fuel number buf :
  Z.abs number < 10 ^ Z.of_nat fuel -> (0 < fuel)%nat ->
  exists ds tmp, itoa_digits fuel buf number = Some (buf ++ ds, tmp) /\
    Forall is_digit ds /\ dec_value (rev ds) = Z.abs number /\
    (1 <= length ds <= fuel)%nat /\ (tmp <? 0) = (number <? 0) /\
    hd 0 (rev ds) = 48 + Z.abs tmp /\ (tmp = 0 -> ds = [48]).
Proof.
  revert number buf. induction fuel as [|fuel IH]; intros number buf Hn Hf; [lia|].
  cbn [itoa_digits]. destruct (quot10_digit number) as (Hq & Hd & Hpos & Hneg & Habs).
  set (q := Z.quot number 10) in *. set (d := number - q * 10) in *.
  rewrite itoa_table_spec by assumption. cbn [obind].
  destruct (Z.eqb_spec q 0) as [Hq0|Hq0].
  - exists [48 + Z.abs d], number.
    assert (number = d) as Hnd by lia. rewrite <- Hnd in *. repeat split.
    + constructor; [unfold is_digit; lia | constructor].
    + cbn. unfold dec_value. cbn. lia.
    + cbn. lia.
    + cbn. lia.
    + now intros ->.
  - assert (Z.abs q < 10 ^ Z.of_nat fuel) as Hqf.
    { rewrite Nat2Z.inj_succ, Z.pow_succ_r in Hn by lia.
      rewrite Habs. apply Z.div_lt_upper_bound; lia. }
    destruct fuel as [|fuel]; [cbn in Hqf; lia|].
    destruct (IH q (buf ++ [48 + Z.abs d])) as (ds & tmp & -> & Hds & Hv & Hl & Hs & Hh & Hz); [assumption | lia |].
    exists ([48 + Z.abs d] ++ ds), tmp. rewrite app_assoc.
    assert (tmp <> 0) as Htmp.
    { intros H0. specialize (Hz H0). subst ds. cbn in Hv. unfold dec_value in Hv. cbn in Hv. lia. }
    assert (rev ds <> []) as Hne.
    { intros E. apply (f_equal (@length Z)) in E. rewrite length_rev in E. cbn in E. lia. }
    repeat split.
    + constructor; [unfold is_digit; lia | assumption].
    + cbn [app rev]. rewrite dec_value_snoc, Hv. lia.
    + cbn. lia.
    + cbn. lia.
    + rewrite Hs. lia.
    + cbn [app rev]. destruct (rev ds); [congruence | assumption].
    + congruence.
Qed.

Lemma dec_read_digits ds : Forall is_digit ds -> dec_read ds = dec_value ds.
Proof.
  intros H. destruct H as [|c ds Hc H]; [reflexivity|]. cbn.
  destruct (Z.eqb_spec c 45); [unfold is_digit in Hc; lia | reflexivity].
Qed.

(** A decimal numeral without redundant characters. *)
Definition dec_canonical (s : list Z) : Prop :=
  match s with
  | c :: ds => if c =? 45 then ds <> [] /\ Forall is_digit ds /\ hd 0 ds <> 48
               else Forall is_digit s /\ (c = 48 -> ds = [])
  | [] => False
  end.

(** ** Properties *)

(** For every [int], [lwip_itoa] terminates within ten digits and writes a
    NUL-terminated canonical decimal numeral of at most eleven characters that
    reads back as the number, [INT_MIN] included. *)
Theorem lwip_itoa_correct bufsize number (H : is_int number) :
  exists s, lwip_itoa bufsize number = Some (s ++ [0]) /\
    dec_read s = number /\ dec_canonical s /\ (length s <= 11)%nat.
Proof.
  unfold lwip_itoa.
  destruct (itoa_digits_spec 10 number []) as (ds & tmp & -> & Hds & Hv & Hl & Hs & Hh & Hz);
    [change (10 ^ Z.of_nat 10) with 10000000000; word_lia | lia |].
  cbn [obind app]. rewrite Hs.
  apply Forall_rev in Hds as Hrev. assert (rev ds <> []) as Hne.
  { intros E%(f_equal (@length Z)). rewrite length_rev in E. cbn in E. lia. }
  assert (length (rev ds) <= 10)%nat as Hlen by (rewrite length_rev; lia).
  eexists. split; [reflexivity|]. destruct (Z.ltb_spec number 0) as [Hneg|Hpos].
  - rewrite itoa_reverse_rev by now destruct ds. rewrite rev_app_distr.
    cbn [rev app dec_read dec_canonical length]. change (45 =? 45) with true.
    repeat split; [lia | assumption | assumption | rewrite Hh; lia | lia].
  - rewrite itoa_reverse_rev by (destruct ds; [now destruct Hne | discriminate]).
    rewrite dec_read_digits by assumption. repeat split; [lia | | lia].
    destruct (rev ds) as [|c l] eqn:E; [congruence|]. cbn in Hh |- *.
    rewrite (proj2 (Z.eqb_neq c 45)) by (apply Forall_inv in Hrev; unfold is_digit in Hrev; lia).
    split; [assumption|]. intros ->. assert (ds = [48]) as -> by (apply Hz; lia).
    cbn in E. congruence.
Qed.

Lemma lwip_itoa_correct_witness :
  exists s, lwip_itoa 12 (-2147483648) = Some (s ++ [0]) /\
    dec_read s = -2147483648 /\ dec_canonical s /\ (length s <= 11)%nat.
Proof. apply (lwip_itoa_correct 12 (-2147483648)). word_lia. Defined.

(** [lwip_strnstr] returns the first position at which a non-empty token
    occurs inside the first [n] characters of the buffer, and NULL exactly
    when there is none. *)
Theorem lwip_strnstr_first_match buffer token n :
  is_cstr buffer -> is_cstr token -> token <> [] ->
  match lwip_strnstr buffer token n with
  | Some i => occurs_at buffer token i /\ (i + length token <= n)%nat /\
              forall j, (j < i)%nat -> ~ occurs_at buffer token j
  | None => forall j, (j + length token <= n)%nat -> ~ occurs_at buffer token j
  end.
Proof.
  intros Hb Ht Hne. destruct token as [|t token]; [congruence|]. unfold lwip_strnstr.
  change (length (t :: token) =? 0)%nat with false. cbn [andb].
  destruct (strnstr_loop _ _ _ _ _) as [i|] eqn:E.
  - apply strnstr_loop_some in E as (j & -> & Hn & Ho & Hk); auto.
  - intros j. now apply (strnstr_loop_none _ _ _ _ _ Hb Ht E).
Qed.

Lemma lwip_strnstr_first_match_witness :
  lwip_strnstr [97; 98; 97; 99; 97; 99] [97; 99] 5 = Some 2%nat /\
  occurs_at [97; 98; 97; 99; 97; 99] [97; 99] 2.
Proof.
  split; [reflexivity|].
  refine (proj1 (lwip_strnstr_first_match [97; 98; 97; 99; 97; 99] [97; 99] 5 _ _ _));
    [repeat constructor | repeat constructor | discriminate].
Defined.

(** [lwip_strnicmp s1 s2 len] is 0 exactly when the first [len + 1]
    characters are equal up to ASCII case: the loop test [len--] is evaluated
    after the comparison, so one character too many takes part. *)
Theorem lwip_strnicmp_compares_one_more s1 s2 len :
  is_cstr s1 -> is_cstr s2 ->
  lwip_strnicmp s1 s2 len = 0 <->
  map tolower (firstn (S len) s1) = map tolower (firstn (S len) s2).
Proof.
  intros H1 H2. rewrite lwip_strnicmp_stricmp by assumption.
  apply lwip_stricmp_spec; unfold is_cstr in *.
  - rewrite <- (firstn_skipn (S len) s1) in H1. now apply Forall_app in H1.
  - rewrite <- (firstn_skipn (S len) s2) in H2. now apply Forall_app in H2.
Qed.

(** "GET" and "gex" agree on two characters, and compare as different for
    [len = 2]. *)
Lemma lwip_strnicmp_compares_one_more_witness :
  map tolower (firstn 2 [71; 69; 84]) = map tolower (firstn 2 [103; 101; 120]) /\
  lwip_strnicmp [71; 69; 84] [103; 101; 120] 2 <> 0 /\
  lwip_strnicmp [71; 69; 84] [103; 101; 120] 1 = 0.
Proof.
  split; [reflexivity|]. split.
  - rewrite (lwip_strnicmp_compares_one_more [71; 69; 84] [103; 101; 120] 2)
      by (repeat constructor). discriminate.
  - reflexivity.
Defined.
