(* ===== verification/Chksum.v ===== *)
(** * Internet checksum ([lwip/src/core/inet_chksum.c], [lwip/inet_chksum.h])

    The three implementations of [lwip_standard_chksum] (selected in the
    source by [LWIP_CHKSUM_ALGORITHM]), the checksums over pbuf chains and
    over the IPv4 and IPv6 pseudo headers, for a little-endian host.

    The reference definition is RFC 1071: the one's complement sum of the
    16-bit words of the data. *)

From Stdlib Require Import ZArith List Lia Bool.
From S2P Require Import Prelude Def.
Import ListNotations.
Open Scope Z_scope.
Open Scope c_scope.

(** ** The code *)

Definition FOLD_U32T (u : Z) : Z := (u >> 16) + (u .& 0xffff).
Definition SWAP_BYTES_IN_WORD (w : Z) : Z := ((w .& 0xff) << 8) .| ((w .& 0xff00) >> 8).

(** *** Algorithm 1 *)

(** [while (len > 1)]: the accumulator and the octets left. *)
Fixpoint chksum1_loop (octetptr : list Z) (acc : Z) : Z * list Z :=
  match octetptr with
  | a :: b :: rest =>
      let src := u16 (a << 8) in
      let src := src .| b in
      chksum1_loop rest (u32 (acc + src))
  | _ => (acc, octetptr)
  end.

Definition lwip_standard_chksum_1 (data : list Z) : Z :=
  let '(acc, octetptr) := chksum1_loop data 0 in
  let acc := match octetptr with
             | a :: _ => u32 (acc + u16 (a << 8))
             | [] => acc
             end in
  let acc := u32 ((acc >> 16) + (acc .& 0xffff)) in
  let acc := if (acc .& 0xffff0000) =? 0 then acc
             else u32 ((acc >> 16) + (acc .& 0xffff)) in
  lwip_htons (u16 acc).

(** *** Algorithm 2 (the default) *)

(** [while (len > 1) { sum += *ps++; len -= 2; }]: the sum and the bytes
    left; [*ps] is a little-endian load. *)
Fixpoint sum_words (ps : list Z) (sum : Z) : Z * list Z :=
  match ps with
  | a :: b :: rest => sum_words rest (u32 (sum + le16 a b))
  | _ => (sum, ps)
  end.

(** [if (odd && len > 0) { ((u8_t * )&t)[1] = *pb++; len--; }] *)
Definition align_first (odd : bool) (pb : list Z) : Z * list Z :=
  match pb with
  | b :: pb' => if odd then (b << 8, pb') else (0, pb)
  | [] => (0, pb)
  end.

(** [if (len > 0) { ((u8_t * )&t)[0] = *(const u8_t * )ps; }] *)
Definition left_over (t : Z) (ps : list Z) : Z :=
  match ps with b :: _ => (t .& 0xff00) .| b | [] => t end.

Definition lwip_standard_chksum_2 (dataptr : Z) (data : list Z) : Z :=
  let odd := negb ((dataptr .& 1) =? 0) in
  let '(t, pb) := align_first odd data in
  let '(sum, ps) := sum_words pb 0 in
  let t := left_over t ps in
  let sum := u32 (sum + t) in
  let sum := FOLD_U32T sum in
  let sum := FOLD_U32T sum in
  let sum := if odd then SWAP_BYTES_IN_WORD sum else sum in
  u16 sum.

(** *** Algorithm 3 *)

(** [tmp = sum + x; if (tmp < sum) tmp++;] *)
Definition add_carry (sum x : Z) : Z :=
  let tmp := u32 (sum + x) in if tmp <? sum then u32 (tmp + 1) else tmp.

(** [while (len > 7)], two 32-bit loads per turn. *)
Fixpoint sum_long (pl : list Z) (sum : Z) : Z * list Z :=
  match pl with
  | a0 :: a1 :: a2 :: a3 :: b0 :: b1 :: b2 :: b3 :: rest =>
      let tmp := add_carry sum (le32 a0 a1 a2 a3) in
      sum_long rest (add_carry tmp (le32 b0 b1 b2 b3))
  | _ => (sum, pl)
  end.

(** [if (((mem_ptr_t)ps & 3) && len > 1) { sum += *ps++; len -= 2; }] *)
Definition align_word (ps_addr : Z) (ps : list Z) (sum : Z) : Z * list Z :=
  match ps with
  | a :: b :: rest => if (ps_addr .& 3) =? 0 then (sum, ps) else (u32 (sum + le16 a b), rest)
  | _ => (sum, ps)
  end.

Definition lwip_standard_chksum_3 (dataptr : Z) (data : list Z) : Z :=
  let odd := negb ((dataptr .& 1) =? 0) in
  let '(t, pb) := align_first odd data in
  let ps_addr := dataptr + Z.of_nat (length data - length pb) in
  let '(sum, pl) := align_word ps_addr pb 0 in
  let '(sum, ps) := sum_long pl sum in
  let sum := FOLD_U32T sum in
  let '(sum, ps) := sum_words ps sum in
  let t := left_over t ps in
  let sum := u32 (sum + t) in
  let sum := FOLD_U32T sum in
  let sum := FOLD_U32T sum in
  let sum := if odd then SWAP_BYTES_IN_WORD sum else sum in
  u16 sum.

(** [LWIP_CHKSUM] of the default configuration. *)
Definition LWIP_CHKSUM := lwip_standard_chksum_2.

(** *** Checksums of buffers and pbuf chains *)

(** What the checksum code sees of a pbuf: [payload] (its address and the
    [len] bytes it points to). *)
Record seg := mk_seg { payload : Z; payload_bytes : list Z }.
Definition seg_len (q : seg) : Z := Z.of_nat (length (payload_bytes q)).

Definition inet_chksum (dataptr : Z) (data : list Z) : Z :=
  u16 (Z.lnot (LWIP_CHKSUM dataptr data)).

(** One turn of the loop over the chain: [acc] and [swapped]. *)
Definition chksum_step (q : seg) (chk : list Z) (acc : Z) (swapped : bool) : Z * bool :=
  let acc := u32 (acc + LWIP_CHKSUM (payload q) chk) in
  let acc := FOLD_U32T acc in
  if negb (seg_len q mod 2 =? 0) then (SWAP_BYTES_IN_WORD acc, negb swapped)
  else (acc, swapped).

Fixpoint chksum_chain (p : list seg) (acc : Z) (swapped : bool) : Z * bool :=
  match p with
  | [] => (acc, swapped)
  | q :: next =>
      let '(acc, swapped) := chksum_step q (payload_bytes q) acc swapped in
      chksum_chain next acc swapped
  end.

Definition inet_chksum_pbuf (p : list seg) : Z :=
  let '(acc, swapped) := chksum_chain p 0 false in
  let acc := if swapped then SWAP_BYTES_IN_WORD acc else acc in
  u16 (Z.lnot (acc .& 0xffff)).

(** [acc += htons(proto) + htons(proto_len)], the last folds and the
    complement. *)
Definition pseudo_finish (acc : Z) (swapped : bool) (proto proto_len : Z) : Z :=
  let acc := if swapped then SWAP_BYTES_IN_WORD acc else acc in
  let acc := u32 (acc + lwip_htons (u16 proto)) in
  let acc := u32 (acc + lwip_htons proto_len) in
  let acc := FOLD_U32T acc in
  let acc := FOLD_U32T acc in
  u16 (Z.lnot (acc .& 0xffff)).

Definition inet_cksum_pseudo_base (p : list seg) (proto proto_len acc : Z) : Z :=
  let '(acc, swapped) := chksum_chain p acc false in
  pseudo_finish acc swapped proto proto_len.

(** [acc += (addr & 0xffff); acc += ((addr >> 16) & 0xffff)] *)
Definition add_addr (acc addr : Z) : Z :=
  let acc := u32 (acc + (addr .& 0xffff)) in u32 (acc + ((addr >> 16) .& 0xffff)).

(** An IPv4 address is its 32-bit word in network byte order. *)
Definition inet_chksum_pseudo (p : list seg) (proto proto_len src dest : Z) : Z :=
  let acc := add_addr (add_addr 0 src) dest in
  let acc := FOLD_U32T (FOLD_U32T acc) in
  inet_cksum_pseudo_base p proto proto_len acc.

(** An IPv6 address is its four 32-bit words in network byte order; the loop
    runs over [addr_part]. *)
Fixpoint add_addr6 (acc : Z) (src dest : list Z) : Z :=
  match src, dest with
  | s :: src', d :: dest' => add_addr6 (add_addr (add_addr acc s) d) src' dest'
  | _, _ => acc
  end.

Definition ip6_chksum_pseudo (p : list seg) (proto proto_len : Z) (src dest : list Z) : Z :=
  let acc := add_addr6 0 src dest in
  let acc := FOLD_U32T (FOLD_U32T acc) in
  inet_cksum_pseudo_base p proto proto_len acc.

(** The [ip_addr_t] of a dual-stack build: a union (the four words of the
    larger member; an IPv4 address is the first) and a tag. *)
Record ip_addr_t := mk_ip_addr { u_addr : list Z; type : Z }.
Definition IPADDR_TYPE_V6 : Z := 6.
Definition ip_2_ip4 (a : ip_addr_t) : Z := hd 0 (u_addr a).
Definition ip_2_ip6 (a : ip_addr_t) : list Z := u_addr a.
Definition IP_IS_V6 (a : ip_addr_t) : bool := type a =? IPADDR_TYPE_V6.

Definition ip_chksum_pseudo (p : list seg) (proto proto_len : Z) (src dest : ip_addr_t) : Z :=
  if IP_IS_V6 dest then ip6_chksum_pseudo p proto proto_len (ip_2_ip6 src) (ip_2_ip6 dest)
  else inet_chksum_pseudo p proto proto_len (ip_2_ip4 src) (ip_2_ip4 dest).

(** [for (q = p; (q != NULL) && (chksum_len > 0); q = q->next)]: the loop
    asserts [chksum_len < 0x7fff] after every pbuf. *)
Fixpoint chksum_chain_partial (p : list seg) (chksum_len acc : Z) (swapped : bool)
  : option (Z * bool) :=
  match p with
  | [] => Some (acc, swapped)
  | q :: next =>
      if chksum_len <=? 0 then Some (acc, swapped)
      else
        let chklen := if seg_len q >? chksum_len then chksum_len else seg_len q in
        let '(acc, swapped) :=
          chksum_step q (firstn (Z.to_nat chklen) (payload_bytes q)) acc swapped in
        let chksum_len := u16 (chksum_len - chklen) in
        let* _ := LWIP_ASSERT (chksum_len <? 0x7fff) in
        chksum_chain_partial next chksum_len acc swapped
  end.

Definition inet_cksum_pseudo_partial_base (p : list seg) (proto proto_len chksum_len acc : Z)
  : option Z :=
  let* (acc, swapped) := chksum_chain_partial p chksum_len acc false in
  Some (pseudo_finish acc swapped proto proto_len).

Definition inet_chksum_pseudo_partial (p : list seg) (proto proto_len chksum_len src dest : Z)
  : option Z :=
  let acc := add_addr (add_addr 0 src) dest in
  let acc := FOLD_U32T (FOLD_U32T acc) in
  inet_cksum_pseudo_partial_base p proto proto_len chksum_len acc.

Definition ip6_chksum_pseudo_partial (p : list seg) (proto proto_len chksum_len : Z)
    (src dest : list Z) : option Z :=
  let acc := add_addr6 0 src dest in
  let acc := FOLD_U32T (FOLD_U32T acc) in
  inet_cksum_pseudo_partial_base p proto proto_len chksum_len acc.

Definition ip_chksum_pseudo_partial (p : list seg) (proto proto_len chksum_len : Z)
    (src dest : ip_addr_t) : option Z :=
  if IP_IS_V6 dest
  then ip6_chksum_pseudo_partial p proto proto_len chksum_len (ip_2_ip6 src) (ip_2_ip6 dest)
  else inet_chksum_pseudo_partial p proto proto_len chksum_len (ip_2_ip4 src) (ip_2_ip4 dest).

(** [MEMCPY(dst, src, len); return LWIP_CHKSUM(dst, len);]: the bytes at
    [dst] and the sum. *)
Definition lwip_chksum_copy (dst : Z) (src : list Z) : list Z * Z :=
  (src, LWIP_CHKSUM dst src).

(** ** RFC 1071 *)

(** The sum of the little-endian 16-bit words, a last odd byte padded with
    zero. *)
Fixpoint word_sum (l : list Z) : Z :=
  match l with
  | [] => 0
  | [a] => a
  | a :: b :: l' => le16 a b + word_sum l'
  end.

(** Reduction of a non-negative integer to 16 bits with end-around carry: the
    representative in [1..65535] modulo 65535, 0 only for 0. *)
Definition oc_norm (n : Z) : Z := if n =? 0 then 0 else (n - 1) mod 65535 + 1.

Definition rfc1071 (l : list Z) : Z := oc_norm (word_sum l).

(** *** One's complement arithmetic *)

(** Two sums with the same one's complement reduction. *)
Definition oc_eq (n m : Z) : Prop :=
  0 <= n /\ 0 <= m /\ (n = 0 <-> m = 0) /\ n mod 65535 = m mod 65535.

Lemma oc_eq_refl n : 0 <= n -> oc_eq n n.
Proof. unfold oc_eq. tauto. Qed.
Lemma oc_eq_sym n m : oc_eq n m -> oc_eq m n.
Proof. unfold oc_eq. intuition. Qed.
Lemma oc_eq_trans n m k : oc_eq n m -> oc_eq m k -> oc_eq n k.
Proof. unfold oc_eq. intuition congruence. Qed.

#[export] Instance oc_eq_per : RelationClasses.PER oc_eq.
Proof. split; [exact oc_eq_sym | exact oc_eq_trans]. Qed.

Lemma oc_eq_add n m n' m' : oc_eq n m -> oc_eq n' m' -> oc_eq (n + n') (m + m').
Proof.
  unfold oc_eq. intros (? & ? & ? & E) (? & ? & ? & E'). repeat split; try lia.
  rewrite Z.add_mod, E, E', <- Z.add_mod by lia. reflexivity.
Qed.

Lemma oc_eq_mul k n m : 0 < k -> oc_eq n m -> oc_eq (k * n) (k * m).
Proof.
  unfold oc_eq. intros Hk (? & ? & ? & E). repeat split; try nia.
  rewrite Z.mul_mod, E, <- Z.mul_mod by lia. reflexivity.
Qed.

Lemma oc_eq_diff n m k : 0 <= n -> 0 <= m -> (n = 0 <-> m = 0) -> n = m + k * 65535 -> oc_eq n m.
Proof. intros. repeat split; try tauto. subst n. apply Z.mod_add. lia. Qed.

Lemma oc_norm_range n : 0 <= oc_norm n <= 65535.
Proof. unfold oc_norm. destruct (Z.eqb_spec n 0); word_div. Qed.

Lemma oc_norm_eq n : 0 <= n -> oc_eq (oc_norm n) n.
Proof.
  intros Hn. pose proof (oc_norm_range n). unfold oc_norm in *.
  destruct (Z.eqb_spec n 0) as [->|]; [now apply oc_eq_refl|].
  apply (oc_eq_diff _ _ (- ((n - 1) / 65535))); Z.div_mod_to_equations; lia.
Qed.

Lemma oc_norm_proper n m : oc_eq n m -> oc_norm n = oc_norm m.
Proof.
  intros (Hn & Hm & Hz & E). unfold oc_norm.
  destruct (Z.eqb_spec n 0), (Z.eqb_spec m 0); try lia.
  rewrite (Zminus_mod n), (Zminus_mod m), E. reflexivity.
Qed.

(** A 16-bit word is its own reduction. *)
Lemma oc_norm_id s : 0 <= s <= 65535 -> oc_norm s = s.
Proof.
  intros H. unfold oc_norm. destruct (Z.eqb_spec s 0); [lia|]. rewrite Z.mod_small; lia.
Qed.

Lemma oc_norm_unique n s : 0 <= s <= 65535 -> oc_eq s n -> s = oc_norm n.
Proof. intros Hs H. rewrite <- (oc_norm_id s Hs). now apply oc_norm_proper. Qed.

Create HintDb oc.
#[export] Hint Resolve oc_eq_refl oc_eq_add oc_norm_eq : oc.

(** *** The folding and swapping steps *)

Lemma FOLD_U32T_eq u : FOLD_U32T u = u / 65536 + u mod 65536.
Proof. unfold FOLD_U32T. now cbits. Qed.

Lemma FOLD_U32T_oc u : 0 <= u -> oc_eq (FOLD_U32T u) u.
Proof.
  intros H. rewrite FOLD_U32T_eq.
  apply (oc_eq_diff _ _ (- (u / 65536))); Z.div_mod_to_equations; lia.
Qed.

Lemma FOLD_U32T_bound u : is_u32 u -> 0 <= FOLD_U32T u <= 131070.
Proof. intros H. rewrite FOLD_U32T_eq. word_div. Qed.
Lemma FOLD_U32T_bound2 u : 0 <= u <= 131070 -> 0 <= FOLD_U32T u <= 65535.
Proof. intros H. rewrite FOLD_U32T_eq. word_div. Qed.

(** One fold suffices below 2*65535, two folds for any 32-bit sum. *)
Lemma FOLD1_norm u : 0 <= u <= 131070 -> FOLD_U32T u = oc_norm u.
Proof. intros. apply oc_norm_unique; [now apply FOLD_U32T_bound2 | apply FOLD_U32T_oc; lia]. Qed.

Lemma FOLD2_norm u : is_u32 u -> FOLD_U32T (FOLD_U32T u) = oc_norm u.
Proof.
  intros H. rewrite FOLD1_norm by now apply FOLD_U32T_bound.
  apply oc_norm_proper, FOLD_U32T_oc. word_lia.
Qed.

Lemma SWAP_eq w : is_u16 w -> SWAP_BYTES_IN_WORD w = w mod 256 * 256 + w / 256.
Proof. intros H. rewrite <- (lwip_htons_eq w H). unfold lwip_htons, u16.
  change (PP_HTONS w) with (SWAP_BYTES_IN_WORD w). rewrite Z.mod_small; [reflexivity|].
  unfold SWAP_BYTES_IN_WORD. cbits. rewrite (lor_add _ _ 8); [| lia | word_div | word_div]. word_div.
Qed.

Lemma SWAP_ok w : is_u16 w -> is_u16 (SWAP_BYTES_IN_WORD w).
Proof. intros H. rewrite SWAP_eq by assumption. word_div. Qed.

Lemma SWAP_oc w : is_u16 w -> oc_eq (SWAP_BYTES_IN_WORD w) (256 * w).
Proof.
  intros H. rewrite SWAP_eq by assumption.
  apply (oc_eq_diff _ _ (- (w / 256))); word_div.
Qed.

Lemma SWAP_norm n : 0 <= n -> SWAP_BYTES_IN_WORD (oc_norm n) = oc_norm (256 * n).
Proof.
  intros H. pose proof (oc_norm_range n).
  apply oc_norm_unique.
  - assert (is_u16 (oc_norm n)) as Hu by word_lia. apply SWAP_ok in Hu. word_lia.
  - eapply oc_eq_trans; [apply SWAP_oc; word_lia|]. apply oc_eq_mul; auto with oc; lia.
Qed.

(** *** Sums of words *)

Lemma word_sum_bound l (n := Z.of_nat (length l)) :
  bytes_ok l -> 0 <= word_sum l <= 65535 * (n / 2) + 255 * (n mod 2).
Proof.
  subst n. induction l as [|a|a b l IH] using list_ind2; intros H.
  - cbn. word_div.
  - apply bytes_ok_cons in H as [Ha _]. cbn. word_div.
  - apply bytes_ok_cons in H as [Ha [Hb H]%bytes_ok_cons]. specialize (IH H).
    cbn [word_sum]. unfold le16. rewrite !length_cons_Z.
    replace (1 + (1 + Z.of_nat (length l))) with (Z.of_nat (length l) + 1 * 2) by lia.
    rewrite Z.div_add, Z.mod_add by lia. word_lia.
Qed.

Lemma word_sum_nonneg l : bytes_ok l -> 0 <= word_sum l.
Proof. intros H. now apply word_sum_bound in H. Qed.
#[export] Hint Resolve word_sum_nonneg : oc.

(** The largest length the 32-bit accumulator can take. *)
Lemma word_sum_u32 l : bytes_ok l -> Z.of_nat (length l) <= 0x20000 -> is_u32 (word_sum l).
Proof. intros H Hl. apply word_sum_bound in H. unfold is_u32. Z.div_mod_to_equations. lia. Qed.

Lemma oc_eq_65536 n : 0 <= n -> oc_eq (65536 * n) n.
Proof. intros. apply (oc_eq_diff _ _ n); lia. Qed.

(** Shifting the data by one byte multiplies the sum by 256. *)
Lemma word_sum_cons a l : is_u8 a -> bytes_ok l ->
  oc_eq (word_sum (a :: l)) (a + 256 * word_sum l).
Proof.
  revert a. induction l as [|b l IH]; intros a Ha Hl.
  - cbn. rewrite Z.mul_0_r, Z.add_0_r. apply oc_eq_refl. word_lia.
  - apply bytes_ok_cons in Hl as [Hb Hl].
    change (word_sum (a :: b :: l)) with (a + 256 * b + word_sum l).
    rewrite <- Z.add_assoc. apply oc_eq_add; [apply oc_eq_refl; word_lia|].
    pose proof (word_sum_nonneg l Hl) as Hw.
    eapply oc_eq_trans; [|apply oc_eq_sym, (oc_eq_mul 256), IH; [lia | assumption | assumption]].
    rewrite Z.mul_add_distr_l, Z.mul_assoc.
    apply oc_eq_add; [apply oc_eq_refl; word_lia | apply oc_eq_sym, oc_eq_65536, Hw].
Qed.

(** The weight of data that starts at offset [n]. *)
Definition parity_mul (n : nat) : Z := if Nat.even n then 1 else 256.

Lemma parity_mul_cases n : parity_mul n = 1 \/ parity_mul n = 256.
Proof. unfold parity_mul. destruct (Nat.even n); auto. Qed.

Lemma parity_mul_pos n : 0 < parity_mul n.
Proof. destruct (parity_mul_cases n); lia. Qed.
#[export] Hint Resolve parity_mul_pos : oc.

Lemma parity_mul_S n m : 0 <= m -> oc_eq (256 * (parity_mul n * m)) (parity_mul (S n) * m).
Proof.
  intros Hm. unfold parity_mul. rewrite Nat.even_succ, <- Nat.negb_even.
  destruct (Nat.even n); cbn [negb].
  - rewrite Z.mul_1_l. apply oc_eq_refl. lia.
  - rewrite Z.mul_1_l, Z.mul_assoc. now apply oc_eq_65536.
Qed.

Lemma word_sum_app l1 l2 : bytes_ok l1 -> bytes_ok l2 ->
  oc_eq (word_sum (l1 ++ l2)) (word_sum l1 + parity_mul (length l1) * word_sum l2).
Proof.
  revert l2. induction l1 as [|a l1 IH]; intros l2 H1 H2.
  - cbn [app length]. change (word_sum []) with 0. change (parity_mul 0) with 1.
    rewrite Z.mul_1_l, Z.add_0_l. auto with oc.
  - apply bytes_ok_cons in H1 as [Ha H1]. pose proof (word_sum_nonneg _ H2) as Hw2.
    cbn [app length]. eapply oc_eq_trans.
    { apply word_sum_cons; [assumption | apply bytes_ok_app; auto]. }
    eapply oc_eq_trans.
    { apply oc_eq_add; [apply oc_eq_refl; word_lia|]. apply oc_eq_mul; [lia | apply IH; assumption]. }
    rewrite Z.mul_add_distr_l, Z.add_assoc.
    apply oc_eq_add; [apply oc_eq_sym, word_sum_cons; assumption | now apply parity_mul_S].
Qed.

(** *** Algorithm 2 *)

Lemma sum_words_spec ps sum : bytes_ok ps -> 0 <= sum -> is_u32 (sum + word_sum ps) ->
  exists s, 0 <= s /\
    ((sum_words ps sum = (s, []) /\ s = sum + word_sum ps) \/
     exists b, is_u8 b /\ sum_words ps sum = (s, [b]) /\ s + b = sum + word_sum ps).
Proof.
  revert sum. induction ps as [|a|a b l IH] using list_ind2; intros sum H Hs Hu.
  - exists sum. split; [assumption|]. left. cbn. split; [reflexivity | lia].
  - apply bytes_ok_cons in H as [Ha _]. exists sum. split; [assumption|]. right.
    exists a. cbn. auto.
  - apply bytes_ok_cons in H as [Ha [Hb H]%bytes_ok_cons].
    pose proof (word_sum_nonneg _ H). cbn [sum_words word_sum] in *.
    assert (0 <= le16 a b) by (unfold le16; word_lia).
    rewrite u32_id by word_lia.
    destruct (IH (sum + le16 a b)) as (s & Hs' & D); [assumption | lia | now rewrite <- Z.add_assoc|].
    rewrite <- Z.add_assoc in D. exists s. auto.
Qed.

(** The sum after the loop and the end bytes; [hi] is the first byte of odd
    data. *)
Lemma sum_words_left_over ps hi sum (sp := sum_words ps sum) : bytes_ok ps -> is_u8 hi -> 0 <= sum ->
  is_u32 (sum + word_sum ps + 256 * hi) ->
  u32 (fst sp + left_over (hi << 8) (snd sp)) = sum + word_sum ps + 256 * hi.
Proof.
  intros H Hhi Hs Hu. subst sp. pose proof (word_sum_nonneg ps H).
  destruct (sum_words_spec ps sum) as (s & Hs' & [[-> ->] | (b & Hb & -> & E)]);
    [assumption | word_lia | word_lia | |].
  - cbn [fst snd left_over]. rewrite shiftl_mul by lia. rewrite u32_id; word_lia.
  - cbn [fst snd left_over]. rewrite shiftl_mul by lia. change (2 ^ 8) with 256.
    rewrite land_ff00, Z.div_mul, Z.mod_small by word_lia.
    rewrite (lor_add _ _ 8); [|lia | assumption | apply Z_mod_mult].
    rewrite u32_id; word_lia.
Qed.

Lemma odd_cases (dataptr : Z) : { (dataptr .& 1 =? 0) = true } + { (dataptr .& 1 =? 0) = false }.
Proof. destruct (_ =? _); auto. Qed.

(** The data as seen after the alignment step: the first byte of odd data,
    or 0, and the rest. *)
Lemma align_first_spec odd data (n := Z.of_nat (length data)) : bytes_ok data -> exists hi pb,
  align_first odd data = (hi << 8, pb) /\ is_u8 hi /\ bytes_ok pb /\
  oc_eq ((if odd then 256 else 1) * (word_sum pb + 256 * hi)) (word_sum data) /\
  0 <= word_sum pb + 256 * hi <= 65535 * ((n + 1) / 2).
Proof.
  intros H. subst n. pose proof (word_sum_bound _ H) as Hb. destruct data as [|b data].
  { exists 0, []. cbn [align_first word_sum]. split; [reflexivity|]. split; [word_lia|].
    split; [assumption|]. split; [destruct odd; now apply oc_eq_refl | word_div]. }
  pose proof H as [Hb0 Hd]%bytes_ok_cons. destruct odd; cbn [align_first].
  - exists b, data. pose proof (word_sum_bound _ Hd) as Hbd.
    split; [reflexivity|]. split; [assumption|]. split; [assumption|]. split.
    + eapply oc_eq_trans; [|apply oc_eq_sym, word_sum_cons; assumption].
      rewrite Z.mul_add_distr_l, Z.add_comm. apply oc_eq_add.
      * rewrite Z.mul_assoc. apply oc_eq_65536. word_lia.
      * apply oc_eq_refl. lia.
    + rewrite length_cons_Z. word_div.
  - exists 0, (b :: data). split; [reflexivity|]. split; [word_lia|]. split; [assumption|].
    rewrite Z.mul_0_r, Z.add_0_r, Z.mul_1_l.
    split; [apply oc_eq_refl; lia | word_div].
Qed.

Lemma u16_norm n : u16 (oc_norm n) = oc_norm n.
Proof. pose proof (oc_norm_range n). rewrite u16_id; word_lia. Qed.

(** The last steps, shared by algorithms 2 and 3. *)
Lemma fold_swap_norm (odd : bool) sum w : is_u32 sum ->
  oc_eq ((if odd then 256 else 1) * sum) w ->
  u16 (if odd then SWAP_BYTES_IN_WORD (FOLD_U32T (FOLD_U32T sum)) else FOLD_U32T (FOLD_U32T sum))
  = oc_norm w.
Proof.
  intros Hs E. rewrite FOLD2_norm by assumption. destruct odd.
  - rewrite SWAP_norm by word_lia. rewrite u16_norm. now apply oc_norm_proper.
  - rewrite u16_norm. rewrite Z.mul_1_l in E. now apply oc_norm_proper.
Qed.

Lemma chksum_2_rfc1071 dataptr data :
  bytes_ok data -> Z.of_nat (length data) <= 0x20000 ->
  lwip_standard_chksum_2 dataptr data = rfc1071 data.
Proof.
  intros H Hl. unfold lwip_standard_chksum_2.
  destruct (align_first_spec (negb (dataptr .& 1 =? 0)) data H) as (hi & pb & -> & Hhi & Hpb & E & Hb).
  rewrite (surjective_pairing (sum_words pb 0)), sum_words_left_over;
    [| assumption | assumption | lia | unfold is_u32; Z.div_mod_to_equations; lia ].
  apply fold_swap_norm; [unfold is_u32; Z.div_mod_to_equations; lia | now rewrite Z.add_0_l].
Qed.

(** *** Algorithm 1 *)

Fixpoint be_sum (l : list Z) : Z :=
  match l with
  | [] => 0
  | [a] => 256 * a
  | a :: b :: l' => 256 * a + b + be_sum l'
  end.

Lemma be_sum_oc l : bytes_ok l -> 0 <= be_sum l /\ oc_eq (256 * be_sum l) (word_sum l).
Proof.
  induction l as [|a|a b l IH] using list_ind2; intros H.
  - split; [reflexivity | now apply oc_eq_refl].
  - apply bytes_ok_cons in H as [Ha _]. cbn. split; [word_lia|].
    rewrite Z.mul_assoc. apply oc_eq_65536. word_lia.
  - apply bytes_ok_cons in H as [Ha [Hb H]%bytes_ok_cons]. destruct (IH H) as [IH0 IH1].
    cbn [be_sum word_sum]. split; [word_lia|]. unfold le16.
    rewrite !Z.mul_add_distr_l. apply oc_eq_add; [|assumption].
    apply oc_eq_add; [rewrite Z.mul_assoc; apply oc_eq_65536; word_lia | apply oc_eq_refl; word_lia].
Qed.

Lemma be_sum_bound l (n := Z.of_nat (length l)) :
  bytes_ok l -> be_sum l <= 65535 * ((n + 1) / 2).
Proof.
  subst n. induction l as [|a|a b l IH] using list_ind2; intros H.
  - cbn. word_div.
  - apply bytes_ok_cons in H as [Ha _]. cbn. word_div.
  - apply bytes_ok_cons in H as [Ha [Hb H]%bytes_ok_cons]. specialize (IH H).
    cbn [be_sum]. rewrite !length_cons_Z. word_div.
Qed.

Lemma octet_shift a : is_u8 a -> u16 (a << 8) = 256 * a.
Proof. intros H. rewrite shiftl_mul by lia. change (2 ^ 8) with 256. rewrite u16_id; word_lia. Qed.

Lemma chksum1_loop_spec l acc (sp := chksum1_loop l acc) :
  bytes_ok l -> 0 <= acc -> is_u32 (acc + be_sum l) ->
  match snd sp with a :: _ => u32 (fst sp + u16 (a << 8)) | [] => fst sp end = acc + be_sum l.
Proof.
  subst sp. revert acc. induction l as [|a|a b l IH] using list_ind2; intros acc H Ha Hu.
  - cbn. lia.
  - apply bytes_ok_cons in H as [Hb _]. cbn in Hu |- *.
    rewrite octet_shift by assumption. now apply u32_id.
  - apply bytes_ok_cons in H as [Hca [Hcb H]%bytes_ok_cons]. cbn [chksum1_loop be_sum] in *.
    destruct (be_sum_oc _ H) as [Hbe _]. rewrite octet_shift by assumption.
    rewrite (lor_add b _ 8); [| lia | assumption | rewrite Z.mul_comm; apply Z_mod_mult].
    rewrite u32_id by word_lia. rewrite IH; [lia | assumption | word_lia | word_lia].
Qed.

Lemma chksum_1_rfc1071 data :
  bytes_ok data -> Z.of_nat (length data) <= 0x20000 ->
  lwip_standard_chksum_1 data = rfc1071 data.
Proof.
  intros H Hl. unfold lwip_standard_chksum_1.
  destruct (be_sum_oc _ H) as [Hb0 Hoc]. pose proof (be_sum_bound _ H) as Hb.
  assert (is_u32 (be_sum data)) as Hu by word_div.
  rewrite (surjective_pairing (chksum1_loop data 0)), chksum1_loop_spec by (assumption || lia || word_lia).
  rewrite Z.add_0_l. fold (FOLD_U32T (be_sum data)).
  pose proof (FOLD_U32T_bound _ Hu) as Hf. rewrite (u32_id (FOLD_U32T _)) by word_lia.
  set (f := FOLD_U32T (be_sum data)) in *. fold (FOLD_U32T f).
  assert ((if (f .& 0xffff0000) =? 0 then f else u32 (FOLD_U32T f)) = oc_norm (be_sum data)) as ->.
  { pose proof (FOLD_U32T_bound2 f Hf) as Hf2. rewrite <- FOLD2_norm by assumption. fold f.
    rewrite u32_id by word_lia. change 0xffff0000 with (Z.ones 16 << 16). rewrite land_field by lia.
    rewrite FOLD_U32T_eq. destruct (Z.eqb_spec (f / 2 ^ 16 mod 2 ^ 16 * 2 ^ 16) 0); [|reflexivity].
    word_div. }
  rewrite u16_norm. unfold lwip_htons. change (PP_HTONS ?x) with (SWAP_BYTES_IN_WORD x).
  rewrite SWAP_norm, u16_norm by assumption. now apply oc_norm_proper.
Qed.

(** *** Algorithm 3 *)

Lemma add_carry_oc s x : is_u32 s -> is_u32 x ->
  is_u32 (add_carry s x) /\ oc_eq (add_carry s x) (s + x).
Proof.
  intros Hs Hx. unfold add_carry. pose proof (u32_ok (s + x)) as Hok.
  destruct (Z.ltb_spec (u32 (s + x)) s) as [E|E].
  - assert (u32 (s + x) = s + x - 4294967296) as Eu by word_div. rewrite Eu in *.
    rewrite u32_id by word_lia. split; [word_lia|].
    apply (oc_eq_diff _ _ (-65537)); word_lia.
  - assert (u32 (s + x) = s + x) as -> by word_div.
    split; [word_div | apply oc_eq_refl; word_lia].
Qed.

Lemma le32_oc a0 a1 a2 a3 : is_u8 a0 -> is_u8 a1 -> is_u8 a2 -> is_u8 a3 ->
  oc_eq (le32 a0 a1 a2 a3) (le16 a0 a1 + le16 a2 a3).
Proof.
  intros. unfold le32, le16. apply (oc_eq_diff _ _ (a2 + 256 * a3)); word_lia.
Qed.

Lemma sum_long_spec n pl sum : (length pl <= n)%nat -> bytes_ok pl -> is_u32 sum ->
  exists s r, sum_long pl sum = (s, r) /\ is_u32 s /\ bytes_ok r /\ (length r <= 7)%nat /\
    oc_eq (s + word_sum r) (sum + word_sum pl).
Proof.
  revert pl sum. induction n as [|n IH]; intros pl sum Hn H Hs.
  { destruct pl; [|cbn in Hn; lia]. exists sum, []. cbn. repeat split; try word_lia; auto. }
  do 8 (destruct pl as [|?b pl];
    [eexists sum, _; cbn [sum_long]; split; [reflexivity|]; split; [assumption|];
     split; [assumption|]; split; [cbn; lia | apply oc_eq_refl];
     pose proof (word_sum_nonneg _ H); word_lia |]).
  cbn [sum_long]. do 8 (let K := fresh "K" in apply bytes_ok_cons in H as [K H]).
  assert (length pl <= n)%nat as Hlen by (cbn in Hn; lia). clear Hn.
  destruct (add_carry_oc sum (le32 b b0 b1 b2)) as [U1 E1]; [assumption | apply le32_ok; assumption |].
  destruct (add_carry_oc (add_carry sum (le32 b b0 b1 b2)) (le32 b3 b4 b5 b6)) as [U2 E2];
    [assumption | apply le32_ok; assumption |].
  destruct (IH _ _ Hlen H U2) as (s & r & Heq & Us & Hr & Hl & E).
  exists s, r. do 4 (split; [assumption|]).
  eapply oc_eq_trans; [exact E|]. cbn [word_sum].
  replace (sum + (le16 b b0 + (le16 b1 b2 + (le16 b3 b4 + (le16 b5 b6 + word_sum pl)))))
    with (sum + (le16 b b0 + le16 b1 b2) + (le16 b3 b4 + le16 b5 b6) + word_sum pl) by lia.
  apply oc_eq_add; [|auto with oc].
  eapply oc_eq_trans; [exact E2|]. apply oc_eq_add; [|now apply le32_oc].
  eapply oc_eq_trans; [exact E1|]. apply oc_eq_add; [apply oc_eq_refl; word_lia | now apply le32_oc].
Qed.

Lemma align_word_spec a ps : bytes_ok ps ->
  exists s pl, align_word a ps 0 = (s, pl) /\ is_u16 s /\ bytes_ok pl /\ s + word_sum pl = word_sum ps.
Proof.
  intros H.
  assert (is_u16 0 /\ bytes_ok ps /\ 0 + word_sum ps = word_sum ps) as Hid
    by (split; [word_lia | split; [assumption | lia]]).
  destruct ps as [|x [|y ps]]; cbn [align_word]; [eauto | eauto |].
  destruct (_ =? 0); [eauto|].
  apply bytes_ok_cons in H as [Hx [Hy Hps]%bytes_ok_cons].
  exists (le16 x y), ps. rewrite Z.add_0_l, u32_id by (unfold le16; word_lia).
  repeat split; [unfold le16; word_lia | unfold le16; word_lia | assumption].
Qed.

Lemma chksum_3_rfc1071 dataptr data : bytes_ok data ->
  lwip_standard_chksum_3 dataptr data = rfc1071 data.
Proof.
  intros H. unfold lwip_standard_chksum_3.
  destruct (align_first_spec (negb (dataptr .& 1 =? 0)) data H) as (hi & pb & -> & Hhi & Hpb & E & _).
  set (odd := negb _) in *. set (ad := dataptr + _).
  destruct (align_word_spec ad pb Hpb) as (s & pl & -> & Hs & Hpl & Es).
  destruct (sum_long_spec (length pl) pl s) as (s' & r & -> & Hs' & Hr & Hlr & Er);
    [lia | assumption | word_lia |].
  pose proof (FOLD_U32T_bound _ Hs') as Hf. pose proof (word_sum_bound _ Hr) as Hwr.
  assert (is_u32 (FOLD_U32T s' + word_sum r + 256 * hi)) as Hu by word_div.
  rewrite (surjective_pairing (sum_words r (FOLD_U32T s'))), sum_words_left_over; try assumption; try lia.
  apply fold_swap_norm; [assumption|].
  eapply oc_eq_trans; [|exact E]. apply oc_eq_mul; [destruct odd; lia|].
  apply oc_eq_add; [|apply oc_eq_refl; word_lia].
  rewrite <- Es. eapply oc_eq_trans; [|exact Er].
  apply oc_eq_add; [apply FOLD_U32T_oc; word_lia | auto with oc].
Qed.

(** *** pbuf chains *)

(** The bytes of a chain, in order. *)
Definition chain_bytes (p : list seg) : list Z := concat (map payload_bytes p).

(** [len] of a pbuf is a [u16_t]. *)
Definition seg_ok (q : seg) : Prop := bytes_ok (payload_bytes q) /\ is_u16 (seg_len q).

Definition seg_okb (q : seg) : bool := forallb is_u8b (payload_bytes q) && (seg_len q <? 65536).

Lemma segs_okb_spec p : forallb seg_okb p = true -> Forall seg_ok p.
Proof.
  intros H. apply Forall_forall. intros q Hq. rewrite forallb_forall in H.
  specialize (H q Hq). unfold seg_okb in H. bool_to_prop.
  split; [now apply bytes_okb_spec | unfold seg_len, is_u16 in *; lia].
Qed.

(** The complement of the RFC 1071 sum: the value of a checksum field. *)
Definition rfc1071_field (l : list Z) : Z := 65535 - rfc1071 l.

Lemma field_of_norm n : u16 (Z.lnot (oc_norm n)) = 65535 - oc_norm n.
Proof. pose proof (oc_norm_range n). apply lnot_u16. word_lia. Qed.

Lemma field_of_norm_masked n : u16 (Z.lnot (oc_norm n .& 0xffff)) = 65535 - oc_norm n.
Proof.
  pose proof (oc_norm_range n). rewrite land_ffff, Z.mod_small by lia. apply field_of_norm.
Qed.

Lemma chain_bytes_ok p : Forall seg_ok p -> bytes_ok (chain_bytes p).
Proof.
  induction 1 as [|q p [Hq _] _ IH]; [constructor|].
  unfold chain_bytes. cbn. apply bytes_ok_app. auto.
Qed.
#[export] Hint Resolve chain_bytes_ok : oc.

Lemma parity_mul_sq n m : 0 <= m -> oc_eq (parity_mul n * (parity_mul n * m)) m.
Proof.
  intros Hm. destruct (parity_mul_cases n) as [-> | ->].
  - rewrite !Z.mul_1_l. auto with oc.
  - rewrite Z.mul_assoc. now apply oc_eq_65536.
Qed.

Lemma parity_mul_add n k m : 0 <= m ->
  oc_eq (parity_mul n * (parity_mul k * m)) (parity_mul (n + k) * m).
Proof.
  intros Hm. unfold parity_mul. rewrite Nat.even_add.
  destruct (Nat.even n), (Nat.even k); cbn [Bool.eqb]; rewrite ?Z.mul_1_l.
  - apply oc_eq_refl. lia.
  - apply oc_eq_refl. lia.
  - apply oc_eq_refl. lia.
  - rewrite Z.mul_assoc. now apply oc_eq_65536.
Qed.

(** The state of the loop over a chain: [n] bytes have been read, their sum
    (with the initial value) is [T], and [acc] holds it swapped when [n] is
    odd. *)
Record chain_state (n : nat) (T acc : Z) (swapped : bool) : Prop := {
  cs_acc : 0 <= acc <= 65535;
  cs_T : 0 <= T;
  cs_swapped : swapped = Nat.odd n;
  cs_sum : oc_eq acc (parity_mul n * T)
}.

Lemma seg_len_odd q : negb (seg_len q mod 2 =? 0) = Nat.odd (length (payload_bytes q)).
Proof.
  unfold seg_len. set (n := length _). rewrite <- (Nat2Z.id n) at 2.
  destruct (Nat.Even_or_Odd n) as [[k E]|[k E]]; rewrite E.
  - replace (Nat.odd _) with false
      by (symmetry; rewrite Nat2Z.id, <- Nat.negb_even, Nat.even_mul; reflexivity).
    rewrite Nat2Z.inj_mul, Z.mul_comm, Z_mod_mult. reflexivity.
  - replace (Nat.odd _) with true
      by (symmetry; rewrite Nat2Z.id, Nat.add_1_r, Nat.odd_succ, Nat.even_mul; reflexivity).
    rewrite Nat2Z.inj_add, Nat2Z.inj_mul, (Z.mul_comm (Z.of_nat 2)), Z.add_comm, Z.mod_add by lia.
    reflexivity.
Qed.

Lemma chksum_step_spec q chk n T acc swapped :
  bytes_ok chk -> Z.of_nat (length chk) <= 0x20000 -> chain_state n T acc swapped ->
  exists acc' swapped', chksum_step q chk acc swapped = (acc', swapped') /\
    chain_state (n + length (payload_bytes q)) (T + parity_mul n * word_sum chk) acc' swapped'.
Proof.
  intros Hc Hl [Ha HT Hs Hsum]. unfold chksum_step, LWIP_CHKSUM.
  rewrite chksum_2_rfc1071 by assumption. pose proof (oc_norm_range (word_sum chk)) as Hr.
  fold (rfc1071 chk) in Hr. rewrite u32_id by word_lia.
  pose proof (word_sum_nonneg _ Hc) as Hw. pose proof (parity_mul_pos n) as Hp.
  rewrite FOLD1_norm by lia. set (T' := T + parity_mul n * word_sum chk).
  assert (0 <= T') as HT' by (unfold T'; nia).
  assert (oc_eq (acc + rfc1071 chk) (parity_mul n * T')) as E.
  { unfold T'. rewrite Z.mul_add_distr_l. apply oc_eq_add; [assumption|].
    eapply oc_eq_trans; [apply oc_norm_eq, Hw | apply oc_eq_sym, parity_mul_sq, Hw]. }
  rewrite (oc_norm_proper _ _ E), seg_len_odd.
  set (k := length (payload_bytes q)). destruct (Nat.odd k) eqn:Hk.
  - do 2 eexists. split; [reflexivity|]. rewrite SWAP_norm by nia. split.
    + apply oc_norm_range.
    + assumption.
    + rewrite Hs, Nat.odd_add, Hk. now destruct (Nat.odd n).
    + eapply oc_eq_trans; [apply oc_norm_eq; nia|].
      replace 256 with (parity_mul k) by (unfold parity_mul; now rewrite <- Nat.negb_odd, Hk).
      rewrite Nat.add_comm. now apply parity_mul_add.
  - do 2 eexists. split; [reflexivity|]. split.
    + apply oc_norm_range.
    + assumption.
    + rewrite Hs, Nat.odd_add, Hk. now destruct (Nat.odd n).
    + eapply oc_eq_trans; [apply oc_norm_eq; nia|].
      replace (parity_mul (n + k)) with (parity_mul n); [apply oc_eq_refl; nia|].
      unfold parity_mul. rewrite Nat.even_add, <- (Nat.negb_odd k), Hk. now destruct (Nat.even n).
Qed.

(** Two sums of the same loop state may be exchanged. *)
Lemma chain_state_proper n T T' acc swapped :
  oc_eq T T' -> chain_state n T acc swapped -> chain_state n T' acc swapped.
Proof.
  intros E [Ha HT Hs Hsum]. split; [assumption | apply E | assumption |].
  eapply oc_eq_trans; [exact Hsum|]. apply oc_eq_mul; [apply parity_mul_pos | assumption].
Qed.

Lemma word_sum_app_at n T l1 l2 : 0 <= T -> bytes_ok l1 -> bytes_ok l2 ->
  oc_eq (T + parity_mul n * word_sum l1 + parity_mul (n + length l1) * word_sum l2)
        (T + parity_mul n * word_sum (l1 ++ l2)).
Proof.
  intros HT H1 H2. rewrite <- Z.add_assoc. apply oc_eq_add; [auto with oc|].
  pose proof (word_sum_nonneg _ H1). pose proof (word_sum_nonneg _ H2). pose proof (parity_mul_pos n).
  eapply oc_eq_trans; [|apply oc_eq_mul, oc_eq_sym, word_sum_app; auto with oc].
  rewrite Z.mul_add_distr_l. apply oc_eq_add; [apply oc_eq_refl; nia|].
  apply oc_eq_sym. now apply parity_mul_add.
Qed.

Lemma chksum_chain_spec p n T acc swapped : Forall seg_ok p -> chain_state n T acc swapped ->
  exists acc' swapped', chksum_chain p acc swapped = (acc', swapped') /\
    chain_state (n + length (chain_bytes p)) (T + parity_mul n * word_sum (chain_bytes p)) acc' swapped'.
Proof.
  intros Hp. revert n T acc swapped. induction Hp as [|q p [Hq Hql] Hp IH]; intros n T acc swapped Hs.
  - do 2 eexists. split; [reflexivity|]. cbn. rewrite Nat.add_0_r, Z.mul_0_r, Z.add_0_r. assumption.
  - cbn [chksum_chain].
    destruct (chksum_step_spec q (payload_bytes q) n T acc swapped) as (a1 & s1 & -> & H1);
      [assumption | unfold seg_len in Hql; word_lia | assumption |].
    destruct (IH _ _ _ _ H1) as (a2 & s2 & -> & H2). do 2 eexists. split; [reflexivity|].
    change (chain_bytes (q :: p)) with (payload_bytes q ++ chain_bytes p).
    rewrite length_app, Nat.add_assoc. eapply chain_state_proper; [|exact H2].
    apply word_sum_app_at; [apply Hs | assumption | auto with oc].
Qed.

(** Undoing the last swap gives the reduced sum. *)
Lemma chain_state_unswap n T acc swapped : chain_state n T acc swapped ->
  (if swapped then SWAP_BYTES_IN_WORD acc else acc) = oc_norm T.
Proof.
  intros [Ha HT -> E]. rewrite (oc_norm_unique _ _ Ha E), <- Nat.negb_even.
  pose proof (parity_mul_pos n). unfold parity_mul in *. destruct (Nat.even n); cbn [negb].
  - now rewrite Z.mul_1_l.
  - rewrite SWAP_norm by lia. apply oc_norm_proper. rewrite Z.mul_assoc. now apply oc_eq_65536.
Qed.

Lemma chain_state_init acc : 0 <= acc <= 65535 -> chain_state 0 acc acc false.
Proof.
  intros H. split; [assumption | lia | reflexivity |].
  change (parity_mul 0) with 1. rewrite Z.mul_1_l. apply oc_eq_refl. lia.
Qed.

Lemma pseudo_finish_spec n T acc swapped proto proto_len :
  chain_state n T acc swapped -> is_u8 proto -> is_u16 proto_len ->
  pseudo_finish acc swapped proto proto_len
  = 65535 - oc_norm (T + word_sum [0; proto; proto_len / 256; proto_len mod 256]).
Proof.
  intros Hs Hp Hl. unfold pseudo_finish. rewrite (chain_state_unswap _ _ _ _ Hs).
  pose proof (oc_norm_range T) as Hr. rewrite (u16_id proto), !lwip_htons_eq by word_lia.
  rewrite (Z.mod_small proto 256), (Z.div_small proto 256) by assumption.
  rewrite (u32_id (oc_norm T + _)), u32_id by word_div.
  rewrite FOLD2_norm, field_of_norm_masked by word_div. f_equal.
  apply oc_norm_proper. rewrite <- Z.add_assoc. apply oc_eq_add; [apply oc_norm_eq, Hs|].
  cbn [word_sum]. unfold le16.
  replace (proto * 256 + 0 + (proto_len mod 256 * 256 + proto_len / 256))
    with (0 + 256 * proto + (proto_len / 256 + 256 * (proto_len mod 256) + 0)) by lia.
  apply oc_eq_refl. word_div.
Qed.

(** *** Pseudo headers *)

(** The bytes of a word in memory. *)
Definition addr_bytes (x : Z) : list Z :=
  [x mod 256; x / 256 mod 256; x / 65536 mod 256; x / 16777216].

Definition pseudo_header (src dest proto proto_len : Z) : list Z :=
  addr_bytes src ++ addr_bytes dest ++ [0; proto; proto_len / 256; proto_len mod 256].

(** The layout of RFC 2460, section 8.1. *)
Definition pseudo_header6 (src dest : list Z) (proto proto_len : Z) : list Z :=
  flat_map addr_bytes src ++ flat_map addr_bytes dest
    ++ [0; 0; proto_len / 256; proto_len mod 256; 0; 0; 0; proto].

Lemma word_sum_app_even l1 l2 :
  Nat.even (length l1) = true -> word_sum (l1 ++ l2) = word_sum l1 + word_sum l2.
Proof.
  induction l1 as [|a|a b l1 IH] using list_ind2; intros H.
  - reflexivity.
  - discriminate.
  - cbn in H |- *. rewrite IH by assumption. lia.
Qed.

Lemma addr_bytes_ok x : is_u32 x -> bytes_ok (addr_bytes x).
Proof.
  intros (b0 & b1 & b2 & b3 & -> & H0 & H1 & H2 & H3)%le32_split. unfold addr_bytes.
  rewrite le32_byte0, le32_byte1, le32_byte2, le32_byte3 by assumption. repeat constructor; word_lia.
Qed.

Lemma add_addr_eq acc x : is_u32 x -> 0 <= acc -> acc <= 0x100000 ->
  add_addr acc x = acc + word_sum (addr_bytes x) /\ 0 <= word_sum (addr_bytes x) <= 131070.
Proof.
  intros (b0 & b1 & b2 & b3 & -> & H0 & H1 & H2 & H3)%le32_split Ha Hm. unfold add_addr, addr_bytes.
  rewrite le32_byte0, le32_byte1, le32_byte2, le32_byte3 by assumption. cbits.
  change (2 ^ 16) with 65536.
  replace (le32 b0 b1 b2 b3 mod 65536) with (le16 b0 b1) by (unfold le32, le16; word_div).
  replace (le32 b0 b1 b2 b3 / 65536) with (le16 b2 b3) by (unfold le32, le16; word_div).
  cbn [word_sum]. unfold le16 in *. rewrite (Z.mod_small (b2 + 256 * b3)) by word_lia.
  rewrite (u32_id (acc + _)) by word_lia. rewrite u32_id by word_lia. word_lia.
Qed.

Lemma word_sum_addr_cons x l : word_sum (addr_bytes x ++ l) = word_sum (addr_bytes x) + word_sum l.
Proof. now apply word_sum_app_even. Qed.

Lemma inet_chksum_pseudo_rfc1071 p proto proto_len src dest :
  Forall seg_ok p -> is_u8 proto -> is_u16 proto_len -> is_u32 src -> is_u32 dest ->
  inet_chksum_pseudo p proto proto_len src dest
  = rfc1071_field (pseudo_header src dest proto proto_len ++ chain_bytes p).
Proof.
  intros Hp Hproto Hlen Hs Hd. unfold inet_chksum_pseudo, inet_cksum_pseudo_base.
  destruct (add_addr_eq 0 src) as [E1 B1]; [assumption | lia | lia|].
  destruct (add_addr_eq (add_addr 0 src) dest) as [E2 B2]; [assumption | lia | lia|].
  rewrite E2, E1, Z.add_0_l. set (A := word_sum (addr_bytes src) + word_sum (addr_bytes dest)).
  rewrite FOLD2_norm by (unfold A; word_lia).
  pose proof (oc_norm_range A) as Hr.
  destruct (chksum_chain_spec p 0 _ _ _ Hp (chain_state_init _ Hr)) as (acc & sw & -> & Hst).
  rewrite (pseudo_finish_spec _ _ _ _ _ _ Hst) by assumption. unfold rfc1071_field, rfc1071. f_equal.
  unfold pseudo_header. rewrite <- !app_assoc, !word_sum_addr_cons, (word_sum_app_even [_; _; _; _]) by reflexivity.
  change (parity_mul 0) with 1. rewrite Z.mul_1_l. apply oc_norm_proper.
  pose proof (word_sum_nonneg _ (chain_bytes_ok _ Hp)).
  rewrite (Z.add_comm (word_sum [_; _; _; _])), !Z.add_assoc. fold A.
  apply oc_eq_add; [|apply oc_eq_refl; cbn; unfold le16; word_div].
  apply oc_eq_add; [apply oc_norm_eq; unfold A; lia | auto with oc].
Qed.

(** The address loop of the IPv6 pseudo header. *)
Lemma add_addr6_eq src dest acc : length src = length dest -> (length src <= 4)%nat ->
  Forall is_u32 src -> Forall is_u32 dest -> 0 <= acc ->
  acc + 262140 * Z.of_nat (length src) <= 0x100000 ->
  add_addr6 acc src dest = acc + word_sum (flat_map addr_bytes src) + word_sum (flat_map addr_bytes dest)
  /\ acc <= add_addr6 acc src dest <= acc + 262140 * Z.of_nat (length src).
Proof.
  intros Hl Hle Hs. revert dest acc Hl Hle. induction Hs as [|s src Hs Hsrc IH];
    intros [|d dest] acc [=] Hle Hd Ha Hm.
  - cbn. lia.
  - inversion_clear Hd as [|? ? Hd' Hdest]. rewrite length_cons_Z in *. cbn [add_addr6 flat_map].
    destruct (add_addr_eq acc s) as [E1 B1]; [assumption | lia | lia|].
    destruct (add_addr_eq (add_addr acc s) d) as [E2 B2]; [assumption | lia | lia|].
    rewrite !word_sum_addr_cons.
    destruct (IH dest (add_addr (add_addr acc s) d)) as [E B]; [assumption | cbn in Hle; lia | assumption | lia | lia |].
    lia.
Qed.

Lemma flat_map_addr_even l : Nat.even (length (flat_map addr_bytes l)) = true.
Proof. induction l as [|x l IH]; [reflexivity | exact IH]. Qed.

Lemma ip6_chksum_pseudo_rfc1071 p proto proto_len src dest :
  Forall seg_ok p -> is_u8 proto -> is_u16 proto_len ->
  Forall is_u32 src -> Forall is_u32 dest -> length src = 4%nat -> length dest = 4%nat ->
  ip6_chksum_pseudo p proto proto_len src dest
  = rfc1071_field (pseudo_header6 src dest proto proto_len ++ chain_bytes p).
Proof.
  intros Hp Hproto Hlen Hs Hd Ls Ld. unfold ip6_chksum_pseudo, inet_cksum_pseudo_base.
  destruct (add_addr6_eq src dest 0) as [E B];
    [congruence | lia | assumption | assumption | lia | rewrite Ls; lia |]. rewrite Ls in B.
  rewrite FOLD2_norm by word_lia. set (A := add_addr6 0 src dest) in *.
  pose proof (oc_norm_range A) as Hr.
  destruct (chksum_chain_spec p 0 _ _ _ Hp (chain_state_init _ Hr)) as (acc & sw & -> & Hst).
  rewrite (pseudo_finish_spec _ _ _ _ _ _ Hst) by assumption. unfold rfc1071_field, rfc1071. f_equal.
  unfold pseudo_header6. rewrite <- !app_assoc.
  rewrite (word_sum_app_even (flat_map addr_bytes src)), (word_sum_app_even (flat_map addr_bytes dest)),
    (word_sum_app_even [_; _; _; _; _; _; _; _]) by (apply flat_map_addr_even || reflexivity).
  change (parity_mul 0) with 1. rewrite Z.mul_1_l. apply oc_norm_proper.
  pose proof (word_sum_nonneg _ (chain_bytes_ok _ Hp)) as Hw. rewrite Z.add_0_l in E.
  rewrite (Z.add_comm (word_sum [_; _; _; _; _; _; _; _])), !Z.add_assoc, <- E.
  apply oc_eq_add.
  - apply oc_eq_add; [apply oc_norm_eq; lia | auto with oc].
  - cbn [word_sum]. unfold le16.
    replace (0 + 256 * proto + (proto_len / 256 + 256 * (proto_len mod 256) + 0))
      with (0 + 256 * 0 + (proto_len / 256 + 256 * (proto_len mod 256) + (0 + 256 * 0 + (0 + 256 * proto + 0)))) by lia.
    apply oc_eq_refl. word_div.
Qed.

(** *** Partial checksums *)

Lemma firstn_app_le {A} n (l1 l2 : list A) :
  firstn n (l1 ++ l2) = firstn n l1 ++ firstn (n - length l1) l2.
Proof. apply firstn_app. Qed.

Lemma chksum_chain_partial_spec p L n T acc swapped : Forall seg_ok p ->
  0 <= L < 0x7fff -> chain_state n T acc swapped ->
  exists acc' swapped' n', chksum_chain_partial p L acc swapped = Some (acc', swapped') /\
    chain_state n' (T + parity_mul n * word_sum (firstn (Z.to_nat L) (chain_bytes p))) acc' swapped'.
Proof.
  intros Hp. revert L n T acc swapped. induction Hp as [|q p [Hq Hql] Hp IH]; intros L n T acc swapped HL Hs.
  - exists acc, swapped, n. split; [reflexivity|]. cbn. rewrite firstn_nil. cbn.
    rewrite Z.mul_0_r, Z.add_0_r. assumption.
  - cbn [chksum_chain_partial]. change (chain_bytes (q :: p)) with (payload_bytes q ++ chain_bytes p).
    destruct (Z.leb_spec L 0) as [H0|H0].
    + exists acc, swapped, n. split; [reflexivity|]. replace (Z.to_nat L) with 0%nat by lia. cbn.
      rewrite Z.mul_0_r, Z.add_0_r. assumption.
    + set (chklen := if seg_len q >? L then L else seg_len q).
      assert (0 <= chklen <= L /\ chklen <= seg_len q) as [Hc1 Hc2]
        by (unfold chklen, seg_len; destruct (Z.gtb_spec (Z.of_nat (length (payload_bytes q))) L); word_lia).
      destruct (chksum_step_spec q (firstn (Z.to_nat chklen) (payload_bytes q)) n T acc swapped)
        as (a1 & s1 & -> & H1);
        [auto with cword | rewrite length_firstn; unfold seg_len in *; word_lia | assumption |].
      rewrite u16_id by word_lia. rewrite (proj2 (Z.ltb_lt _ _)) by lia. cbn [LWIP_ASSERT obind].
      destruct (IH (L - chklen) _ _ _ _ ltac:(lia) H1) as (a2 & s2 & n2 & E2 & H2).
      exists a2, s2, n2. split; [exact E2|].
      eapply chain_state_proper; [|exact H2]. rewrite firstn_app_le. unfold chklen in *.
      destruct (Z.gtb_spec (seg_len q) L) as [Hg|Hg]; unfold seg_len in *.
      * replace (Z.to_nat (L - L)) with 0%nat by lia.
        replace (Z.to_nat L - length (payload_bytes q))%nat with 0%nat by lia.
        cbn [firstn word_sum]. rewrite Z.mul_0_r, Z.add_0_r, app_nil_r. apply oc_eq_refl.
        pose proof (word_sum_nonneg (firstn (Z.to_nat L) (payload_bytes q)) ltac:(auto with cword)).
        pose proof (parity_mul_pos n). pose proof (cs_T _ _ _ _ Hs). nia.
      * rewrite Nat2Z.id, firstn_all, (firstn_all2 (payload_bytes q)) by lia.
        replace (Z.to_nat (L - Z.of_nat (length (payload_bytes q))))
          with (Z.to_nat L - length (payload_bytes q))%nat by lia.
        apply word_sum_app_at; [apply Hs | assumption | auto with cword oc].
Qed.

(** *** Contiguous buffers *)

Lemma inet_chksum_rfc1071 dataptr data :
  bytes_ok data -> Z.of_nat (length data) <= 0x20000 ->
  inet_chksum dataptr data = rfc1071_field data.
Proof.
  intros H Hl. unfold inet_chksum, LWIP_CHKSUM. rewrite chksum_2_rfc1071 by assumption.
  apply field_of_norm.
Qed.

(** [inet_chksum_pbuf] reads the chain as one buffer. *)
Lemma inet_chksum_pbuf_rfc1071 p : Forall seg_ok p ->
  inet_chksum_pbuf p = rfc1071_field (chain_bytes p).
Proof.
  intros Hp. unfold inet_chksum_pbuf.
  destruct (chksum_chain_spec p 0 0 0 false Hp) as (acc & sw & -> & Hst); [now apply chain_state_init|].
  rewrite (chain_state_unswap _ _ _ _ Hst), field_of_norm_masked. cbn. now rewrite Z.mul_1_l, Z.add_0_l.
Qed.

(** The field that makes a sum complete. *)
Lemma field_completes S : 0 <= S -> oc_norm (S + (65535 - oc_norm S)) = 65535.
Proof.
  intros HS. pose proof (oc_norm_range S) as Hr.
  pose proof (oc_norm_eq S HS) as (_ & _ & Hz & Hmod).
  symmetry. apply oc_norm_unique; [lia|]. repeat split; try lia.
  replace (S + (65535 - oc_norm S)) with (S - oc_norm S + 1 * 65535) by lia.
  rewrite Z.mod_add, Zminus_mod, Hmod, Z.sub_diag by lia. reflexivity.
Qed.

(** ** Properties *)

(** C26: the three implementations of [lwip_standard_chksum] compute the RFC
    1071 sum of any buffer of up to 0x20000 bytes, whatever the alignment of
    the buffer, and so agree. *)
Theorem chksum_algorithms_agree dataptr data :
  bytes_ok data -> Z.of_nat (length data) <= 0x20000 ->
  lwip_standard_chksum_1 data = rfc1071 data /\
  lwip_standard_chksum_2 dataptr data = rfc1071 data /\
  lwip_standard_chksum_3 dataptr data = rfc1071 data.
Proof.
  intros H Hl. split; [now apply chksum_1_rfc1071|].
  split; [now apply chksum_2_rfc1071 | now apply chksum_3_rfc1071].
Qed.

(** The example of RFC 1071, at an odd address. *)
Lemma chksum_algorithms_agree_witness :
  rfc1071 [0x00; 0x01; 0xf2; 0x03; 0xf4; 0xf5; 0xf6; 0xf7] = lwip_htons 0xddf2 /\
  lwip_standard_chksum_3 1001 [0x00; 0x01; 0xf2; 0x03; 0xf4; 0xf5; 0xf6; 0xf7] = lwip_htons 0xddf2.
Proof.
  split; [reflexivity|].
  apply (chksum_algorithms_agree 1001 [0x00; 0x01; 0xf2; 0x03; 0xf4; 0xf5; 0xf6; 0xf7]);
    [apply bytes_okb_spec; reflexivity | cbn; lia].
Defined.

(** The checksum of a pbuf chain is the checksum of its bytes laid out in
    one buffer, however the bytes are split and aligned (odd-length pbufs
    included). *)
Theorem inet_chksum_pbuf_contiguous p dataptr :
  Forall seg_ok p -> Z.of_nat (length (chain_bytes p)) <= 0x20000 ->
  inet_chksum_pbuf p = inet_chksum dataptr (chain_bytes p).
Proof.
  intros Hp Hl. rewrite inet_chksum_pbuf_rfc1071, inet_chksum_rfc1071 by auto with oc. reflexivity.
Qed.

Lemma inet_chksum_pbuf_contiguous_witness :
  inet_chksum_pbuf [mk_seg 7 [1; 2; 3]; mk_seg 4 []; mk_seg 4 [250; 251]; mk_seg 12 [4]]
  = inet_chksum 0 [1; 2; 3; 250; 251; 4].
Proof.
  apply (inet_chksum_pbuf_contiguous [mk_seg 7 [1; 2; 3]; mk_seg 4 []; mk_seg 4 [250; 251]; mk_seg 12 [4]] 0).
  - now apply segs_okb_spec.
  - cbn. lia.
Defined.

(** [ip_chksum_pseudo] is the checksum field over the IPv4 or IPv6 pseudo
    header (source, destination, protocol, length, in the order of the RFCs)
    followed by the bytes of the chain. *)
Theorem ip_chksum_pseudo_correct p proto proto_len src dest :
  Forall seg_ok p -> is_u8 proto -> is_u16 proto_len ->
  Forall is_u32 (u_addr src) -> Forall is_u32 (u_addr dest) ->
  length (u_addr src) = 4%nat -> length (u_addr dest) = 4%nat ->
  ip_chksum_pseudo p proto proto_len src dest =
  rfc1071_field
    ((if IP_IS_V6 dest then pseudo_header6 (u_addr src) (u_addr dest) proto proto_len
      else pseudo_header (hd 0 (u_addr src)) (hd 0 (u_addr dest)) proto proto_len)
     ++ chain_bytes p).
Proof.
  intros Hp Hproto Hlen Hs Hd Ls Ld. unfold ip_chksum_pseudo.
  destruct (IP_IS_V6 dest); [now apply ip6_chksum_pseudo_rfc1071|].
  destruct src as [[|s src] ts], dest as [[|d dest] td]; try discriminate.
  apply Forall_inv in Hs, Hd. now apply inet_chksum_pseudo_rfc1071.
Qed.

(** UDP from 192.168.0.31 to 192.168.0.30, two pbufs. *)
Lemma ip_chksum_pseudo_correct_witness :
  ip_chksum_pseudo [mk_seg 8 [0x00; 0x14; 0x00; 0x0a; 0x00; 0x0a; 0; 0]; mk_seg 3 [0x48; 0x69]] 17 10
    (mk_ip_addr [le32 192 168 0 31; 0; 0; 0] 0) (mk_ip_addr [le32 192 168 0 30; 0; 0; 0] 0)
  = rfc1071_field [192; 168; 0; 31; 192; 168; 0; 30; 0; 17; 0; 10;
                   0x00; 0x14; 0x00; 0x0a; 0x00; 0x0a; 0; 0; 0x48; 0x69].
Proof.
  refine (ip_chksum_pseudo_correct
    [mk_seg 8 [0x00; 0x14; 0x00; 0x0a; 0x00; 0x0a; 0; 0]; mk_seg 3 [0x48; 0x69]] 17 10
    (mk_ip_addr [le32 192 168 0 31; 0; 0; 0] 0) (mk_ip_addr [le32 192 168 0 30; 0; 0; 0] 0) _ _ _ _ _ _ _);
  [now apply segs_okb_spec | word_lia | word_lia | solve_Forall; unfold le32; word_lia
  | solve_Forall; unfold le32; word_lia | reflexivity | reflexivity].
Defined.

(** The value [inet_chksum] gives makes the checksum of the packet 0. *)
Lemma inet_chksum_fills dataptr pre post
    (c := inet_chksum dataptr (pre ++ [0; 0] ++ post)) :
  bytes_ok pre -> bytes_ok post -> Nat.even (length pre) = true ->
  Z.of_nat (length pre + length post) <= 0x1fffe ->
  inet_chksum dataptr (pre ++ [c mod 256; c / 256] ++ post) = 0.
Proof.
  intros H1 H2 He Hl.
  assert (bytes_ok [0; 0]) as H0 by (repeat constructor; word_lia).
  assert (bytes_ok (pre ++ [0; 0] ++ post)) as Hz by (repeat (apply bytes_ok_app; split); assumption).
  assert (c = 65535 - oc_norm (word_sum pre + word_sum post)) as Ec.
  { unfold c. rewrite inet_chksum_rfc1071 by (assumption || (rewrite !length_app; cbn; lia)).
    unfold rfc1071_field, rfc1071. rewrite !word_sum_app_even by (assumption || reflexivity). reflexivity. }
  pose proof (oc_norm_range (word_sum pre + word_sum post)) as Hr.
  assert (bytes_ok [c mod 256; c / 256]) as Hcb by (repeat constructor; word_div).
  rewrite inet_chksum_rfc1071;
    [| repeat (apply bytes_ok_app; split); assumption | rewrite !length_app; cbn; lia].
  unfold rfc1071_field, rfc1071. rewrite !word_sum_app_even by (assumption || reflexivity).
  replace (word_sum [c mod 256; c / 256]) with c by (cbn; unfold le16; word_div).
  pose proof (word_sum_nonneg _ H1). pose proof (word_sum_nonneg _ H2).
  replace (word_sum pre + (c + word_sum post)) with (word_sum pre + word_sum post + c) by lia.
  rewrite Ec, field_completes; lia.
Qed.

(** A packet whose checksum field (at an even offset) holds the value that
    [inet_chksum] gave for the packet with a zero field is accepted by the
    receiver: its own [inet_chksum] is 0. *)
Theorem inet_chksum_receiver_accepts dataptr pre post
    (c := inet_chksum dataptr (pre ++ [0; 0] ++ post)) :
  bytes_ok pre -> bytes_ok post -> Nat.even (length pre) = true ->
  Z.of_nat (length pre + length post) <= 0x1fffe ->
  inet_chksum dataptr (pre ++ [c mod 256; c / 256] ++ post) = 0.
Proof. exact (inet_chksum_fills dataptr pre post). Qed.

Lemma inet_chksum_receiver_accepts_witness :
  inet_chksum 1 ([0x45; 0; 0; 0x1c] ++ [0x83; 0x70] ++ [0x40; 1; 10]) <> 0 /\
  let c := inet_chksum 1 ([0x45; 0; 0; 0x1c] ++ [0; 0] ++ [0x40; 1; 10]) in
  inet_chksum 1 ([0x45; 0; 0; 0x1c] ++ [c mod 256; c / 256] ++ [0x40; 1; 10]) = 0.
Proof.
  split; [vm_compute; discriminate|].
  apply (inet_chksum_receiver_accepts 1 [0x45; 0; 0; 0x1c] [0x40; 1; 10]);
    [apply bytes_okb_spec; reflexivity | apply bytes_okb_spec; reflexivity | reflexivity | cbn; lia].
Defined.

(** [inet_chksum] detects every change of a single byte. *)
Theorem inet_chksum_detects_byte_error dataptr pre x y post :
  bytes_ok pre -> bytes_ok post -> is_u8 x -> is_u8 y -> x <> y ->
  Z.of_nat (length pre + length post) < 0x20000 ->
  inet_chksum dataptr (pre ++ x :: post) <> inet_chksum dataptr (pre ++ y :: post).
Proof.
  intros H1 H2 Hx Hy Hne Hl.
  assert (forall z, is_u8 z -> bytes_ok (z :: post)) as Hz by (intros; now apply bytes_ok_cons).
  assert (forall z, is_u8 z -> bytes_ok (pre ++ z :: post)) as Hpz by (intros; apply bytes_ok_app; auto).
  rewrite !inet_chksum_rfc1071 by (auto || (rewrite length_app; cbn; lia)).
  unfold rfc1071_field, rfc1071. intros E.
  set (m := parity_mul (length pre)).
  assert (forall z, is_u8 z -> oc_norm (word_sum (pre ++ z :: post)) mod 65535
                     = (m * z + (word_sum pre + m * (256 * word_sum post))) mod 65535) as Hmod.
  { intros z Hu. pose proof (word_sum_nonneg _ (Hpz z Hu)) as Hn.
    rewrite (proj2 (proj2 (proj2 (oc_norm_eq _ Hn)))).
    rewrite (proj2 (proj2 (proj2 (word_sum_app pre (z :: post) H1 (Hz z Hu))))). fold m.
    rewrite Z.add_mod, (Z.mul_mod m), (proj2 (proj2 (proj2 (word_sum_cons z post Hu H2)))),
      <- Z.mul_mod, <- Z.add_mod by lia. f_equal. lia. }
  assert (oc_norm (word_sum (pre ++ x :: post)) = oc_norm (word_sum (pre ++ y :: post))) as E' by lia.
  apply (f_equal (fun v => v mod 65535)) in E'. rewrite !Hmod in E' by assumption.
  destruct (parity_mul_cases (length pre)) as [Em|Em]; fold m in Em; rewrite Em in *; word_div.
Qed.

Lemma inet_chksum_detects_byte_error_witness :
  inet_chksum 0 ([1; 2; 3] ++ 0 :: [4]) <> inet_chksum 0 ([1; 2; 3] ++ 255 :: [4]).
Proof.
  apply (inet_chksum_detects_byte_error 0 [1; 2; 3] 0 255 [4]);
    try (apply bytes_okb_spec; reflexivity); cbn; word_lia.
Defined.

(** The UDP-Lite style partial checksum covers exactly the pseudo header
    and the first [chksum_len] bytes of the chain, for every [chksum_len]
    below 0x7fff. *)
Theorem inet_chksum_pseudo_partial_correct p proto proto_len chksum_len src dest :
  Forall seg_ok p -> is_u8 proto -> is_u16 proto_len -> is_u32 src -> is_u32 dest ->
  0 <= chksum_len < 0x7fff ->
  inet_chksum_pseudo_partial p proto proto_len chksum_len src dest =
  Some (rfc1071_field (pseudo_header src dest proto proto_len
                         ++ firstn (Z.to_nat chksum_len) (chain_bytes p))).
Proof.
  intros Hp Hproto Hlen Hs Hd HL.
  unfold inet_chksum_pseudo_partial, inet_cksum_pseudo_partial_base.
  destruct (add_addr_eq 0 src) as [E1 B1]; [assumption | lia | lia|].
  destruct (add_addr_eq (add_addr 0 src) dest) as [E2 B2]; [assumption | lia | lia|].
  rewrite E2, E1, Z.add_0_l. set (A := word_sum (addr_bytes src) + word_sum (addr_bytes dest)).
  rewrite FOLD2_norm by (unfold A; word_lia). pose proof (oc_norm_range A) as Hr.
  destruct (chksum_chain_partial_spec p chksum_len 0 _ _ _ Hp HL (chain_state_init _ Hr))
    as (acc & sw & n & -> & Hst).
  cbn [obind]. rewrite (pseudo_finish_spec _ _ _ _ _ _ Hst) by assumption.
  unfold rfc1071_field, rfc1071. do 2 f_equal. unfold pseudo_header.
  rewrite <- !app_assoc, !word_sum_addr_cons, (word_sum_app_even [_; _; _; _]) by reflexivity.
  change (parity_mul 0) with 1. rewrite Z.mul_1_l. apply oc_norm_proper.
  rewrite (Z.add_comm (word_sum [_; _; _; _])), !Z.add_assoc. fold A.
  apply oc_eq_add; [|apply oc_eq_refl; cbn; unfold le16; word_div].
  apply oc_eq_add; [apply oc_norm_eq; unfold A; lia | auto with oc cword].
Qed.

Lemma inet_chksum_pseudo_partial_correct_witness :
  inet_chksum_pseudo_partial [mk_seg 0 [1; 2; 3]; mk_seg 0 [4; 5; 6]] 136 6 4 1 2
  = Some (rfc1071_field (pseudo_header 1 2 136 6 ++ [1; 2; 3; 4])).
Proof.
  apply (inet_chksum_pseudo_partial_correct [mk_seg 0 [1; 2; 3]; mk_seg 0 [4; 5; 6]] 136 6 4 1 2);
    [now apply segs_okb_spec | word_lia | word_lia | word_lia | word_lia | lia].
Defined.

(** The assertion labelled "delete me" aborts every partial checksum that
    has at least 0x7fff bytes left after its first pbuf, although
    [chksum_len] is a [u16_t]. *)
Theorem inet_chksum_pseudo_partial_asserts q p proto proto_len chksum_len src dest :
  is_u16 chksum_len -> 0x7fff <= chksum_len - seg_len q ->
  inet_chksum_pseudo_partial (q :: p) proto proto_len chksum_len src dest = None.
Proof.
  intros HL Hq. unfold inet_chksum_pseudo_partial, inet_cksum_pseudo_partial_base.
  cbn [chksum_chain_partial]. assert (0 <= seg_len q) by (unfold seg_len; lia).
  rewrite (proj2 (Z.leb_gt _ _)) by lia.
  destruct (Z.gtb_spec (seg_len q) chksum_len); [lia|].
  destruct (chksum_step _ _ _ _) as [acc sw].
  rewrite u16_id by word_lia. rewrite (proj2 (Z.ltb_ge _ _)) by lia. reflexivity.
Qed.

Lemma inet_chksum_pseudo_partial_asserts_witness :
  inet_chksum_pseudo_partial [mk_seg 0 [1; 2]; mk_seg 0 (repeat 7 (Z.to_nat 32767))] 136 6 32769 1 2 = None.
Proof.
  apply (inet_chksum_pseudo_partial_asserts (mk_seg 0 [1; 2]) [mk_seg 0 (repeat 7 (Z.to_nat 32767))]);
    [word_lia | vm_compute; discriminate].
Defined.
