(* ===== verification/Ip4Addr.v ===== *)
(** * IPv4 addresses ([lwip/src/core/ipv4/ip4_addr.c])

    Broadcast and netmask tests, and the conversions between the 32-bit
    address (network byte order, little-endian host) and its text. *)

From Stdlib Require Import ZArith List Lia Bool.
From S2P Require Import Prelude Def.
Import ListNotations.
Open Scope Z_scope.
Open Scope c_scope.

(** ** The code *)

Definition IPADDR_NONE : Z := 0xffffffff.
Definition IPADDR_ANY : Z := 0.
Definition IPADDR_BROADCAST : Z := 0xffffffff.
Definition NETIF_FLAG_BROADCAST : Z := 0x02.
Definition IP4ADDR_STRLEN_MAX : Z := 16.

(** The fields of [struct netif] that are read here. *)
Record netif4 := mk_netif4 { flags : Z; ip_addr : Z; netmask : Z }.

Definition ip4_addr_netcmp (addr1 addr2 mask : Z) : bool := (addr1 .& mask) =? (addr2 .& mask).

Definition ip4_addr_ismulticast (a : Z) : bool := a .& PP_HTONL 0xf0000000 =? PP_HTONL 0xe0000000.
Definition ip4_addr_islinklocal (a : Z) : bool := a .& PP_HTONL 0xffff0000 =? PP_HTONL 0xa9fe0000.
Definition ip4_addr_isany_val (a : Z) : bool := a =? IPADDR_ANY.

Definition ip4_addr_isbroadcast_u32 (addr : Z) (n : netif4) : Z :=
  if (u32 (Z.lnot addr) =? IPADDR_ANY) || (addr =? IPADDR_ANY) then 1
  else if (flags n .& NETIF_FLAG_BROADCAST) =? 0 then 0
  else if addr =? ip_addr n then 0
  else if ip4_addr_netcmp addr (ip_addr n) (netmask n)
          && ((addr .& u32 (Z.lnot (netmask n)))
              =? (IPADDR_BROADCAST .& u32 (Z.lnot (netmask n)))) then 1
  else 0.

(** [for (mask = 1UL << 31; mask != 0; mask >>= 1)] up to the first zero. *)
Fixpoint netmask_first_zero (fuel : nat) (nm mask : Z) : Z :=
  match fuel with
  | O => mask
  | S fuel' =>
      if mask =? 0 then mask
      else if (nm .& mask) =? 0 then mask
      else netmask_first_zero fuel' nm (mask >> 1)
  end.

(** The second loop: [true] when a one is found. *)
Fixpoint netmask_has_one (fuel : nat) (nm mask : Z) : bool :=
  match fuel with
  | O => false
  | S fuel' =>
      if mask =? 0 then false
      else if negb ((nm .& mask) =? 0) then true
      else netmask_has_one fuel' nm (mask >> 1)
  end.

(** A 32-bit mask becomes 0 after at most 32 shifts. *)
Definition ip4_addr_netmask_valid (netmask : Z) : Z :=
  let nm_hostorder := lwip_htonl netmask in
  let mask := netmask_first_zero 33 nm_hostorder (1 << 31) in
  if netmask_has_one 33 nm_hostorder mask then 0 else 1.

Definition in_range (c lo up : Z) : bool := (lo <=? u8 c) && (u8 c <=? up).
Definition isdigit (c : Z) : bool := in_range c 48 57.
Definition isxdigit (c : Z) : bool := isdigit c || in_range c 97 102 || in_range c 65 70.
Definition islower (c : Z) : bool := in_range c 97 122.
Definition isspace (c : Z) : bool :=
  (c =? 32) || (c =? 12) || (c =? 10) || (c =? 13) || (c =? 9) || (c =? 11).

(** The inner [for (;;)]: digits of one part in [base]; the value (mod 2^32)
    and the text left. *)
Fixpoint aton_digits (base val : Z) (cp : list Z) : Z * list Z :=
  match cp with
  | [] => (val, cp)
  | c :: cp' =>
      if isdigit c then aton_digits base (u32 (val * base + (c - 48))) cp'
      else if (base =? 16) && isxdigit c then
        aton_digits base (u32 (u32 (val << 4) .| (c + 10 - (if islower c then 97 else 65)))) cp'
      else (val, cp)
  end.

(** One part: [None] when it does not start with a digit. *)
Definition aton_part (cp : list Z) : option (Z * list Z) :=
  if negb (isdigit (deref cp)) then None
  else if deref cp =? 48 then
    let cp := tl cp in
    if (deref cp =? 120) || (deref cp =? 88) then Some (aton_digits 16 0 (tl cp))
    else Some (aton_digits 8 0 cp)
  else Some (aton_digits 10 0 cp).

(** The outer [for (;;)]: [parts] are the values stored so far; the fuel is
    the number of parts that may still come. *)
Fixpoint aton_parts (fuel : nat) (parts : list Z) (cp : list Z)
  : option (list Z * Z * list Z) :=
  match fuel with
  | O => None
  | S fuel' =>
      let* (val, cp) := aton_part cp in
      if deref cp =? 46 then
        if (3 <=? length parts)%nat then None
        else aton_parts fuel' (parts ++ [val]) (tl cp)
      else Some (parts, val, cp)
  end.

(** [switch (pp - parts + 1)] *)
Definition aton_concoct (parts : list Z) (val : Z) : option Z :=
  match parts with
  | [] => Some val
  | [p0] =>
      if val >? 0xffffff then None
      else if p0 >? 0xff then None
      else Some (val .| u32 (p0 << 24))
  | [p0; p1] =>
      if val >? 0xffff then None
      else if (p0 >? 0xff) || (p1 >? 0xff) then None
      else Some (val .| (u32 (p0 << 24) .| u32 (p1 << 16)))
  | [p0; p1; p2] =>
      if val >? 0xff then None
      else if (p0 >? 0xff) || (p1 >? 0xff) || (p2 >? 0xff) then None
      else Some (val .| (u32 (p0 << 24) .| u32 (p1 << 16) .| u32 (p2 << 8)))
  | _ => None
  end.

(** [None] is the return value 0; [Some addr] is 1 with [*addr] set. *)
Definition ip4addr_aton (cp : list Z) : option Z :=
  let* (pv, cp) := aton_parts 4 [] cp in
  let '(parts, val) := pv in
  if negb (deref cp =? 0) && negb (isspace (deref cp)) then None
  else
    let* val := aton_concoct parts val in
    Some (lwip_htonl val).

Definition ipaddr_addr (cp : list Z) : Z :=
  match ip4addr_aton cp with Some val => val | None => IPADDR_NONE end.

(** [do { ... } while ( *ap )]: [inv[0..i-1]], the least significant digit
    first; a byte has at most three digits. *)
Fixpoint ntoa_inv (fuel : nat) (ap : Z) : list Z :=
  match fuel with
  | O => []
  | S fuel' =>
      let rem := ap mod 10 in
      let ap := ap / 10 in
      (48 + rem) :: (if ap =? 0 then [] else ntoa_inv fuel' ap)
  end.

(** [if (len++ >= buflen) return NULL; *rp++ = c;] for the characters [cs];
    [buf] holds what has been written, so [len] is its length. *)
Fixpoint ntoa_put (cs : list Z) (buf : list Z) (buflen : Z) : option (list Z) :=
  match cs with
  | [] => Some buf
  | c :: cs' => if Z.of_nat (length buf) >=? buflen then None else ntoa_put cs' (buf ++ [c]) buflen
  end.

(** The [for] loop over the bytes at [ap]. *)
Fixpoint ntoa_bytes (ap : list Z) (buf : list Z) (buflen : Z) : option (list Z) :=
  match ap with
  | [] => Some buf
  | a :: ap' =>
      let* buf := ntoa_put (rev (ntoa_inv 3 a)) buf buflen in
      let* buf := ntoa_put [46] buf buflen in
      ntoa_bytes ap' buf buflen
  end.

(** The bytes written to [buf]; the last dot becomes the NUL. *)
Definition ip4addr_ntoa_r (addr : Z) (buflen : Z) : option (list Z) :=
  let s_addr := [addr mod 256; addr / 256 mod 256; addr / 65536 mod 256; addr / 16777216] in
  let* buf := ntoa_bytes s_addr [] buflen in
  Some (removelast buf ++ [0]).

Definition ip4addr_ntoa (addr : Z) : option (list Z) := ip4addr_ntoa_r addr IP4ADDR_STRLEN_MAX.

(** ** Printing *)

(** The decimal digits of a byte, and dotted decimal text. *)
Definition octet_text (b : Z) : list Z := rev (ntoa_inv 3 b).
Definition octet_dot (b : Z) : list Z := octet_text b ++ [46].
Definition dotted (b0 b1 b2 b3 : Z) : list Z :=
  octet_text b0 ++ [46] ++ octet_text b1 ++ [46] ++ octet_text b2 ++ [46] ++ octet_text b3.

(** Check a property of a byte on its 256 values. *)
Lemma byte_dec (P : Z -> bool) : forallb P all_chars = true -> forall b, is_u8 b -> P b = true.
Proof. intros H b Hb. rewrite forallb_forall in H. apply H, all_chars_spec, Hb. Qed.

Lemma octet_text_spec b : is_u8 b ->
  Forall is_digit (octet_text b) /\ dec_value (octet_text b) = b /\
  (1 <= length (octet_text b) <= 3)%nat /\ (octet_text b = [48] \/ hd 0 (octet_text b) <> 48).
Proof.
  intros Hb.
  pose proof (byte_dec (fun b =>
    forallb (fun c => (48 <=? c) && (c <=? 57)) (octet_text b) && (dec_value (octet_text b) =? b)
    && (1 <=? length (octet_text b))%nat && (length (octet_text b) <=? 3)%nat
    && ((b =? 0) && (length (octet_text b) =? 1)%nat || negb (hd 0 (octet_text b) =? 48)))
    ltac:(vm_compute; reflexivity) b Hb) as H.
  rewrite !andb_true_iff, !Nat.leb_le, Z.eqb_eq in H. destruct H as [[[[HA HB] HC] HD] HE].
  repeat split; try assumption.
  - apply Forall_forall. intros c Hc. rewrite forallb_forall in HA. specialize (HA c Hc).
    bool_to_prop. split; assumption.
  - apply orb_true_iff in HE as [HE|HE]; bool_to_prop.
    + left. subst b. reflexivity.
    + right. assumption.
Qed.

Lemma ntoa_put_spec cs buf buflen :
  ntoa_put cs buf buflen =
  if Z.of_nat (length buf + length cs) <=? buflen then Some (buf ++ cs)
  else if (length cs =? 0)%nat then Some buf else None.
Proof.
  revert buf. induction cs as [|c cs IH]; intros buf; cbn [ntoa_put length].
  - rewrite Nat.add_0_r, app_nil_r. now destruct (_ <=? _).
  - destruct (Z.geb_spec (Z.of_nat (length buf)) buflen) as [H|H].
    + now rewrite (proj2 (Z.leb_gt _ _)) by lia.
    + rewrite IH, length_app, <- app_assoc. cbn [length app].
      replace (length buf + 1 + length cs)%nat with (length buf + S (length cs))%nat by lia.
      destruct (Z.leb_spec (Z.of_nat (length buf + S (length cs))) buflen); [reflexivity|].
      destruct cs; [cbn in *; lia | reflexivity].
Qed.

Lemma ntoa_bytes_spec ap buf buflen : Forall is_u8 ap ->
  ntoa_bytes ap buf buflen =
  let text := flat_map octet_dot ap in
  if Z.of_nat (length buf + length text) <=? buflen then Some (buf ++ text)
  else if (length ap =? 0)%nat then Some buf else None.
Proof.
  intros Hap. revert buf. induction Hap as [|a ap Ha Hap IH]; intros buf; cbn [ntoa_bytes flat_map].
  - cbn. rewrite app_nil_r. now destruct (_ <=? _).
  - rewrite ntoa_put_spec. fold (octet_text a).
    destruct (octet_text_spec a Ha) as (_ & _ & Hl & _). cbn zeta.
    change (octet_dot a) with (octet_text a ++ [46]). rewrite !length_app. cbn [length Nat.eqb].
    destruct (Z.leb_spec (Z.of_nat (length buf + length (octet_text a))) buflen); cbn [obind].
    + cbn [ntoa_put]. rewrite length_app.
      destruct (Z.geb_spec (Z.of_nat (length buf + length (octet_text a))) buflen); cbn [obind].
      * now rewrite (proj2 (Z.leb_gt _ _)) by lia.
      * rewrite IH. cbn zeta. rewrite !length_app, <- !app_assoc. cbn [length app].
        replace (length buf + length (octet_text a) + 1 + length (flat_map octet_dot ap))%nat
          with (length buf + (length (octet_text a) + 1 + length (flat_map octet_dot ap)))%nat by lia.
        destruct (Z.leb_spec (Z.of_nat (length buf + (length (octet_text a) + 1 + length (flat_map octet_dot ap)))) buflen); [reflexivity|].
        destruct ap; [cbn in *; lia | reflexivity].
    + rewrite (proj2 (Z.leb_gt _ _)) by lia.
      destruct (octet_text a); [cbn in Hl; lia | reflexivity].
Qed.

Lemma ntoa_r_spec b0 b1 b2 b3 buflen : is_u8 b0 -> is_u8 b1 -> is_u8 b2 -> is_u8 b3 ->
  ip4addr_ntoa_r (le32 b0 b1 b2 b3) buflen =
  if Z.of_nat (length (dotted b0 b1 b2 b3)) + 1 <=? buflen
  then Some (dotted b0 b1 b2 b3 ++ [0]) else None.
Proof.
  intros H0 H1 H2 H3. unfold ip4addr_ntoa_r.
  rewrite le32_byte0, le32_byte1, le32_byte2, le32_byte3 by assumption.
  rewrite ntoa_bytes_spec by (repeat constructor; word_lia).
  set (d := dotted b0 b1 b2 b3).
  replace (flat_map octet_dot [b0; b1; b2; b3]) with (d ++ [46]).
  - cbn zeta. rewrite length_app. cbn [length Nat.add app Nat.eqb].
    replace (Z.of_nat (length d + 1)) with (Z.of_nat (length d) + 1) by lia.
    destruct (_ <=? _); cbn [obind]; [|reflexivity]. now rewrite removelast_last.
  - unfold d, dotted, octet_dot. cbn [flat_map]. now rewrite <- !app_assoc, app_nil_r.
Qed.

(** ** Parsing *)

Lemma isdigit_digit c : is_digit c -> isdigit c = true.
Proof. unfold is_digit, isdigit, in_range. intros H. rewrite u8_id by word_lia. lia. Qed.

Definition dec_from (v : Z) (ds : list Z) : Z := fold_left (fun v c => 10 * v + (c - 48)) ds v.

Lemma dec_from_le v ds : 0 <= v -> Forall is_digit ds -> v <= dec_from v ds.
Proof.
  intros Hv H. revert v Hv. induction H as [|c ds Hc H IH]; intros v Hv; cbn; [lia|].
  unfold is_digit in Hc. specialize (IH (10 * v + (c - 48)) ltac:(lia)). unfold dec_from in *. lia.
Qed.

(** Text at which a decimal part ends: its end, or a dot. *)
Definition stops (rest : list Z) : Prop := deref rest = 0 \/ deref rest = 46.

(** At such text the digit loop stops in every base. *)
Lemma aton_digits_stops base v rest : stops rest -> aton_digits base v rest = (v, rest).
Proof.
  intros H. destruct rest as [|c rest]; [reflexivity|].
  destruct H as [H|H]; cbn in H; subst c; cbn; now rewrite andb_false_r.
Qed.

Lemma aton_digits_dec ds rest v : 0 <= v -> Forall is_digit ds -> stops rest ->
  dec_from v ds < 4294967296 ->
  aton_digits 10 v (ds ++ rest) = (dec_from v ds, rest).
Proof.
  intros Hv H Hrest. revert v Hv. induction H as [|c ds Hc H IH]; intros v Hv Hlt.
  - now apply aton_digits_stops.
  - cbn [app aton_digits]. rewrite isdigit_digit by assumption. cbn in Hlt.
    unfold is_digit in Hc. pose proof (dec_from_le (10 * v + (c - 48)) ds ltac:(lia) H) as Hle.
    unfold dec_from in Hle. rewrite Z.mul_comm, u32_id by word_lia. apply IH; [lia | assumption].
Qed.

Lemma aton_part_octet b rest : is_u8 b -> stops rest ->
  aton_part (octet_text b ++ rest) = Some (b, rest).
Proof.
  intros Hb Hrest. destruct (octet_text_spec b Hb) as (Hd & Hv & Hl & Hz). unfold aton_part.
  destruct (octet_text b) as [|c ds] eqn:E; [cbn in Hl; lia|]. cbn [app deref tl].
  rewrite isdigit_digit by now apply Forall_inv in Hd. cbn [negb].
  destruct (Z.eqb_spec c 48) as [->|Hc].
  - destruct Hz as [[= ->]|Hz]; [|now cbn in Hz]. cbn [app].
    assert (b = 0) as -> by (rewrite <- Hv; reflexivity).
    rewrite (aton_digits_stops 8) by assumption.
    destruct Hrest as [-> | ->]; reflexivity.
  - f_equal. change (c :: ds ++ rest) with ((c :: ds) ++ rest).
    change (dec_value (c :: ds)) with (dec_from 0 (c :: ds)) in Hv.
    rewrite aton_digits_dec; [now rewrite Hv | lia | assumption | assumption | word_lia].
Qed.

(** A leading octet followed by a dot. *)
Lemma aton_parts_octet_dot fuel parts b rest : is_u8 b -> (length parts < 3)%nat ->
  aton_parts (S fuel) parts (octet_text b ++ 46 :: rest) = aton_parts fuel (parts ++ [b]) rest.
Proof.
  intros Hb Hp. cbn [aton_parts]. rewrite aton_part_octet by (assumption || now right).
  cbn [obind deref tl]. change (46 =? 46) with true.
  now rewrite (proj2 (Nat.leb_gt _ _)) by lia.
Qed.

Lemma aton_parts_octet_end fuel parts b : is_u8 b ->
  aton_parts (S fuel) parts (octet_text b) = Some (parts, b, []).
Proof.
  intros Hb. cbn [aton_parts]. rewrite <- (app_nil_r (octet_text b)).
  now rewrite aton_part_octet by (assumption || now left).
Qed.

Lemma concoct_4 b0 b1 b2 b3 : is_u8 b0 -> is_u8 b1 -> is_u8 b2 -> is_u8 b3 ->
  aton_concoct [b0; b1; b2] b3 = Some (le32 b3 b2 b1 b0).
Proof.
  intros H0 H1 H2 H3. unfold aton_concoct.
  destruct (Z.gtb_spec b3 0xff), (Z.gtb_spec b0 0xff), (Z.gtb_spec b1 0xff), (Z.gtb_spec b2 0xff);
    try word_lia; cbn [orb].
  rewrite !shiftl_mul by lia.
  change (2 ^ 24) with 16777216. change (2 ^ 16) with 65536. change (2 ^ 8) with 256.
  rewrite !u32_id by word_lia. f_equal. rewrite Z.lor_comm.
  rewrite (lor_add (b1 * 65536) _ 24); [| lia | word_lia | word_div].
  rewrite (lor_add (b2 * 256) _ 16); [| lia | word_lia | word_div].
  rewrite (lor_add b3 _ 8); [| lia | word_lia | word_div].
  unfold le32. lia.
Qed.

Lemma aton_dotted b0 b1 b2 b3 : is_u8 b0 -> is_u8 b1 -> is_u8 b2 -> is_u8 b3 ->
  ip4addr_aton (dotted b0 b1 b2 b3) = Some (le32 b0 b1 b2 b3).
Proof.
  intros H0 H1 H2 H3. unfold ip4addr_aton, dotted.
  cbn [app]. rewrite !aton_parts_octet_dot, aton_parts_octet_end by (assumption || (cbn; lia)).
  cbn [obind app deref]. rewrite concoct_4 by assumption. cbn [obind].
  now rewrite lwip_htonl_le32 by assumption.
Qed.

(** ** Netmasks *)

Lemma land_pow2_eqb x i : 0 <= i -> ((x .& 2 ^ i) =? 0) = negb (Z.testbit x i).
Proof.
  intros Hi. rewrite land_pow2 by assumption. destruct (Z.testbit x i); [|reflexivity].
  apply Z.eqb_neq. pose proof (Z.pow_pos_nonneg 2 i). lia.
Qed.

Lemma pow2_shiftr i : 0 <= i -> 2 ^ (i + 1) >> 1 = 2 ^ i.
Proof.
  intros. rewrite Z.pow_add_r, shiftr_div by lia. apply Z.div_mul. lia.
Qed.

(** The bits below [i] are all zero. *)
Definition zero_below (x i : Z) : Prop := forall j, 0 <= j < i -> Z.testbit x j = false.

Lemma netmask_has_one_0 fuel nm : netmask_has_one fuel nm 0 = false.
Proof. now destruct fuel. Qed.

Lemma netmask_has_one_spec fuel nm i : (i < fuel)%nat ->
  netmask_has_one fuel nm (2 ^ Z.of_nat i) = false <-> zero_below nm (Z.of_nat i + 1).
Proof.
  revert i. induction fuel as [|fuel IH]; intros i Hi; [lia|]. cbn [netmask_has_one].
  rewrite (proj2 (Z.eqb_neq _ 0)) by (apply Z.pow_nonzero; lia).
  rewrite land_pow2_eqb, negb_involutive by lia. destruct (Z.testbit nm (Z.of_nat i)) eqn:E.
  - split; [discriminate|]. intros H. rewrite H in E by lia. discriminate.
  - destruct i as [|i].
    + change (2 ^ Z.of_nat 0 >> 1) with 0. rewrite netmask_has_one_0. split; [|reflexivity].
      intros _ j Hj. now replace j with (Z.of_nat 0) by lia.
    + rewrite Nat2Z.inj_succ, <- Z.add_1_r, pow2_shiftr, IH by lia. split; intros H j Hj.
      * destruct (Z.eq_dec j (Z.of_nat i + 1)) as [->|]; [|apply H; lia].
        now rewrite Nat2Z.inj_succ, <- Z.add_1_r in E.
      * apply H. lia.
Qed.

(** A word of [w] bits whose leading ones are followed by zeros only. *)
Definition is_mask (w x : Z) : Prop := exists k, 0 <= k <= w /\ x = 2 ^ w - 2 ^ (w - k).

Lemma zero_below_mod x i : 0 <= i -> (zero_below x i <-> x mod 2 ^ i = 0).
Proof.
  intros Hi. split.
  - intros H. apply Z.bits_inj'. intros n Hn. rewrite Z.bits_0. destruct (Z_lt_le_dec n i).
    + rewrite Z.mod_pow2_bits_low by lia. apply H. lia.
    + now rewrite Z.mod_pow2_bits_high by lia.
  - intros H j Hj. rewrite <- (Z.mod_pow2_bits_low x i j), H by lia. apply Z.bits_0.
Qed.

(** Splitting off the top bit. *)
Lemma mod_top_bit x i : 0 <= i ->
  x mod 2 ^ (i + 1) = (if Z.testbit x i then 2 ^ i else 0) + x mod 2 ^ i.
Proof.
  intros Hi. rewrite Z.pow_add_r, Z.rem_mul_r by lia. change (2 ^ 1) with 2.
  rewrite <- Z.testbit_spec' by lia. destruct (Z.testbit x i); cbn [Z.b2z]; lia.
Qed.

Lemma is_mask_zero w : 0 <= w -> is_mask w 0.
Proof. intros. exists 0. rewrite Z.sub_0_r. lia. Qed.

Lemma is_mask_small w y : 0 <= w -> 0 <= y < 2 ^ w -> is_mask (w + 1) y -> y = 0.
Proof.
  intros Hw Hy (k & Hk & ->). destruct (Z.eq_dec k 0) as [->|]; [rewrite Z.sub_0_r; lia|].
  assert (2 ^ (w + 1 - k) <= 2 ^ w) by (apply Z.pow_le_mono_r; lia).
  rewrite (Z.pow_add_r 2 w 1) in * by lia. lia.
Qed.

Lemma is_mask_top w y : 0 <= w -> 0 <= y < 2 ^ w -> (is_mask (w + 1) (2 ^ w + y) <-> is_mask w y).
Proof.
  intros Hw Hy. unfold is_mask.
  assert (2 ^ (w + 1) = 2 ^ w + 2 ^ w) as Hp by (rewrite Z.pow_add_r by lia; lia).
  split; intros (k & Hk & E).
  - exists (k - 1). destruct (Z.eq_dec k 0) as [->|]; [rewrite Z.sub_0_r in E; lia|].
    replace (w - (k - 1)) with (w + 1 - k) by lia. lia.
  - exists (k + 1). replace (w + 1 - (k + 1)) with (w - k) by lia. lia.
Qed.

(** The first loop stops at the highest zero bit; the mask is valid when
    nothing is set below it. *)
Lemma netmask_loops fuel fuel' nm i : (i < fuel)%nat -> (i < fuel')%nat ->
  netmask_has_one fuel' nm (netmask_first_zero fuel nm (2 ^ Z.of_nat i)) = false
  <-> is_mask (Z.of_nat i + 1) (nm mod 2 ^ (Z.of_nat i + 1)).
Proof.
  revert fuel. induction i as [|i IH]; intros fuel Hf Hf'; (destruct fuel as [|fuel]; [lia|]);
    cbn [netmask_first_zero]; rewrite (proj2 (Z.eqb_neq (2 ^ _) 0)) by (apply Z.pow_nonzero; lia);
    rewrite land_pow2_eqb, mod_top_bit by lia.
  - pose proof (netmask_has_one_spec fuel' nm 0 Hf') as H1.
    rewrite zero_below_mod, mod_top_bit in H1 by lia.
    change (nm mod 2 ^ Z.of_nat 0) with (nm mod 1) in *. rewrite Z.mod_1_r in *.
    destruct (Z.testbit nm (Z.of_nat 0)); cbn [negb].
    + change (2 ^ Z.of_nat 0 >> 1) with 0.
      assert (netmask_first_zero fuel nm 0 = 0) as -> by now destruct fuel.
      rewrite netmask_has_one_0. split; [intros _ | reflexivity]. exists 1. now cbn.
    + rewrite H1. split; [intros _; now apply is_mask_zero | reflexivity].
  - pose proof (netmask_has_one_spec fuel' nm (S i) Hf') as H1.
    rewrite zero_below_mod, mod_top_bit in H1 by lia.
    pose proof (Z.mod_pos_bound nm (2 ^ Z.of_nat (S i))) as Hb.
    assert (0 < 2 ^ Z.of_nat (S i)) by (apply Z.pow_pos_nonneg; lia).
    destruct (Z.testbit nm (Z.of_nat (S i))); cbn [negb].
    + rewrite is_mask_top by lia. rewrite Nat2Z.inj_succ, <- Z.add_1_r, pow2_shiftr by lia.
      apply IH; lia.
    + rewrite H1, Z.add_0_l. split; [intros ->; apply is_mask_zero; lia|].
      apply is_mask_small; lia.
Qed.

(** ** Broadcast *)

Lemma lnot_testbit x i : is_u32 x -> 0 <= i ->
  Z.testbit (u32 (Z.lnot x)) i = (i <? 32) && negb (Z.testbit x i).
Proof.
  intros Hx Hi. unfold u32. change 4294967296 with (2 ^ 32).
  destruct (Z.ltb_spec i 32).
  - rewrite Z.mod_pow2_bits_low, Z.lnot_spec by lia. reflexivity.
  - now rewrite Z.mod_pow2_bits_high by lia.
Qed.

Lemma testbit_high x i : is_u32 x -> 32 <= i -> Z.testbit x i = false.
Proof.
  intros Hx Hi. rewrite <- (Z.mod_small x (2 ^ 32)) by apply Hx. apply Z.mod_pow2_bits_high. lia.
Qed.

Lemma ones32_testbit i : 0 <= i -> Z.testbit IPADDR_BROADCAST i = (i <? 32).
Proof.
  intros. change IPADDR_BROADCAST with (Z.ones 32). destruct (Z.ltb_spec i 32).
  - apply Z.ones_spec_low. lia.
  - apply Z.ones_spec_high. lia.
Qed.

(** The directed broadcast address of a network: network bits of [ip], host
    bits all ones. *)
Definition directed_broadcast (ip mask : Z) : Z := (ip .& mask) .| u32 (Z.lnot mask).

Lemma directed_broadcast_spec addr ip mask : is_u32 addr -> is_u32 ip -> is_u32 mask ->
  ip4_addr_netcmp addr ip mask
    && ((addr .& u32 (Z.lnot mask)) =? (IPADDR_BROADCAST .& u32 (Z.lnot mask))) = true
  <-> addr = directed_broadcast ip mask.
Proof.
  intros Ha Hi Hm. unfold ip4_addr_netcmp, directed_broadcast.
  rewrite andb_true_iff, !Z.eqb_eq. split.
  - intros [E1 E2]. apply Z.bits_inj'. intros i Hi0.
    apply (f_equal (fun v => Z.testbit v i)) in E1, E2.
    rewrite !Z.land_spec in E1, E2. rewrite ones32_testbit in E2 by lia.
    rewrite Z.lor_spec, Z.land_spec, !lnot_testbit in * by assumption.
    destruct (Z.ltb_spec i 32) as [Hlt|Hge].
    + destruct (Z.testbit addr i), (Z.testbit mask i), (Z.testbit ip i); cbn in *; congruence.
    + rewrite !testbit_high by (assumption || lia). reflexivity.
  - intros ->. split; apply Z.bits_inj'; intros i Hi0;
      rewrite !Z.land_spec, ?Z.lor_spec, ?Z.land_spec, ?ones32_testbit, !lnot_testbit by assumption.
    + destruct (i <? 32), (Z.testbit mask i), (Z.testbit ip i); reflexivity.
    + destruct (Z.ltb_spec i 32) as [Hlt|Hge].
      * destruct (Z.testbit mask i), (Z.testbit ip i); reflexivity.
      * now rewrite !andb_false_r.
Qed.

(** ** Properties *)

(** [ip4addr_ntoa_r] succeeds exactly when the dotted text and its NUL fit
    the buffer, and then writes a NUL-terminated text of at most 16 bytes that
    [ip4addr_aton] reads back as the same address. *)
Theorem ip4addr_ntoa_aton_roundtrip addr buflen : is_u32 addr ->
  exists text, ip4addr_aton text = Some addr /\ (length text <= 15)%nat /\
    ip4addr_ntoa_r addr buflen =
      if Z.of_nat (length text) + 1 <=? buflen then Some (text ++ [0]) else None.
Proof.
  intros (b0 & b1 & b2 & b3 & -> & H0 & H1 & H2 & H3)%le32_split.
  exists (dotted b0 b1 b2 b3). split; [now apply aton_dotted|]. split; [|now apply ntoa_r_spec].
  destruct (octet_text_spec b0 H0) as (_ & _ & L0 & _), (octet_text_spec b1 H1) as (_ & _ & L1 & _),
    (octet_text_spec b2 H2) as (_ & _ & L2 & _), (octet_text_spec b3 H3) as (_ & _ & L3 & _).
  unfold dotted. rewrite !length_app. cbn [length]. lia.
Qed.

(** 10.20.30.40, the address of the packet that [main] sends to. *)
Lemma ip4addr_ntoa_aton_roundtrip_witness :
  ip4addr_ntoa (le32 10 20 30 40) = Some ([49; 48; 46; 50; 48; 46; 51; 48; 46; 52; 48] ++ [0]) /\
  exists text, ip4addr_aton text = Some (le32 10 20 30 40) /\ (length text <= 15)%nat /\
    ip4addr_ntoa_r (le32 10 20 30 40) 16 =
      if Z.of_nat (length text) + 1 <=? 16 then Some (text ++ [0]) else None.
Proof.
  split; [reflexivity|]. apply (ip4addr_ntoa_aton_roundtrip (le32 10 20 30 40) 16).
  unfold le32. word_lia.
Defined.

(** [ip4_addr_netmask_valid] is 1 exactly for the words that, in host
    byte order, are [k] ones followed by [32 - k] zeros, 0 <= k <= 32. *)
Theorem ip4_addr_netmask_valid_iff mask : is_u32 mask ->
  ip4_addr_netmask_valid mask = 1 <-> exists k, 0 <= k <= 32 /\ lwip_htonl mask = 2 ^ 32 - 2 ^ (32 - k).
Proof.
  intros Hm. unfold ip4_addr_netmask_valid. change (1 << 31) with (2 ^ Z.of_nat 31).
  pose proof (netmask_loops 33 33 (lwip_htonl mask) 31 ltac:(lia) ltac:(lia)) as H.
  change (Z.of_nat 31 + 1) with 32 in H. unfold is_mask in H.
  rewrite (Z.mod_small (lwip_htonl mask)) in H by apply lwip_htonl_ok.
  rewrite <- H. destruct (netmask_has_one _ _ _); split; congruence.
Qed.

Lemma ip4_addr_netmask_valid_iff_witness :
  ip4_addr_netmask_valid (le32 255 255 240 0) = 1 /\
  exists k, 0 <= k <= 32 /\ lwip_htonl (le32 255 255 240 0) = 2 ^ 32 - 2 ^ (32 - k).
Proof.
  split; [vm_compute; reflexivity|].
  apply (ip4_addr_netmask_valid_iff (le32 255 255 240 0)); [unfold le32; word_lia | vm_compute; reflexivity].
Defined.

(** An address is a broadcast address exactly when it is all ones, all
    zeros, or, on an interface with broadcast support, the directed broadcast
    address of the interface's network (and not the interface's own
    address). *)
Theorem ip4_addr_isbroadcast_iff addr n :
  is_u32 addr -> is_u32 (ip_addr n) -> is_u32 (netmask n) ->
  ip4_addr_isbroadcast_u32 addr n = 1 <->
  addr = IPADDR_BROADCAST \/ addr = IPADDR_ANY \/
  ((flags n .& NETIF_FLAG_BROADCAST) <> 0 /\ addr <> ip_addr n /\
   addr = directed_broadcast (ip_addr n) (netmask n)).
Proof.
  intros Ha Hi Hm. unfold ip4_addr_isbroadcast_u32. rewrite lnot_u32 by assumption.
  assert ((4294967295 - addr =? IPADDR_ANY) = (addr =? IPADDR_BROADCAST)) as ->
    by (unfold IPADDR_ANY, IPADDR_BROADCAST; lia).
  destruct (Z.eqb_spec addr IPADDR_BROADCAST); [cbn; tauto|].
  destruct (Z.eqb_spec addr IPADDR_ANY); [cbn; tauto|]. cbn [orb].
  destruct (Z.eqb_spec (flags n .& NETIF_FLAG_BROADCAST) 0); [intuition lia|].
  destruct (Z.eqb_spec addr (ip_addr n)); [intuition lia|].
  pose proof (directed_broadcast_spec addr (ip_addr n) (netmask n) Ha Hi Hm) as Hd.
  destruct (_ && _); intuition congruence.
Qed.

Lemma ip4_addr_isbroadcast_iff_witness :
  ip4_addr_isbroadcast_u32 (le32 10 1 255 255) (mk_netif4 2 (le32 10 1 2 3) (le32 255 255 0 0)) = 1 /\
  ip4_addr_isbroadcast_u32 (le32 10 1 2 255) (mk_netif4 2 (le32 10 1 2 3) (le32 255 255 0 0)) <> 1.
Proof.
  split; [vm_compute; reflexivity|].
  rewrite (ip4_addr_isbroadcast_iff (le32 10 1 2 255) (mk_netif4 2 (le32 10 1 2 3) (le32 255 255 0 0)));
    [| unfold le32; word_lia | unfold le32; cbn; word_lia | unfold le32; cbn; word_lia].
  vm_compute. intuition congruence.
Defined.

(** The value of a part wraps around at 2^32 before [ip4addr_aton] checks its
    range: "4294967297.b1.b2.b3" is accepted and gives the address 1.b1.b2.b3. *)
Theorem ip4addr_aton_accepts_overflow b1 b2 b3 :
  is_u8 b1 -> is_u8 b2 -> is_u8 b3 ->
  (* "4294967297." *)
  ip4addr_aton ([52; 50; 57; 52; 57; 54; 55; 50; 57; 55; 46]
                ++ octet_text b1 ++ [46] ++ octet_text b2 ++ [46] ++ octet_text b3)
  = Some (le32 1 b1 b2 b3).
Proof.
  intros H1 H2 H3. unfold ip4addr_aton.
  assert (forall rest, aton_parts 4 [] ([52; 50; 57; 52; 57; 54; 55; 50; 57; 55; 46] ++ rest)
                       = aton_parts 3 [1] rest) as ->.
  { intros rest. cbn [aton_parts]. change (3 <=? length (@nil Z))%nat with false.
    replace (aton_part _) with (Some (1, 46 :: rest)); reflexivity. }
  cbn [app]. rewrite !aton_parts_octet_dot, aton_parts_octet_end by (assumption || (cbn; lia)).
  cbn [obind app deref]. rewrite concoct_4 by (assumption || word_lia). cbn [obind].
  now rewrite lwip_htonl_le32 by (assumption || word_lia).
Qed.

Lemma ip4addr_aton_accepts_overflow_witness :
  ip4addr_aton ([52; 50; 57; 52; 57; 54; 55; 50; 57; 55; 46] ++ [50] ++ [46] ++ [51] ++ [46] ++ [52])
  = Some (le32 1 2 3 4).
Proof. apply (ip4addr_aton_accepts_overflow 2 3 4); word_lia. Defined.
