(* ===== verification/XSpi.v ===== *)
(** * The XSpi driver (bsp/microblaze_0/libsrc/spi_v4_2)

    [Module Regs] holds the constants of xspi_l.h and xspi.h; the section
    [Driver] translates xspi.c, xspi_options.c, xspi_sinit.c, xspi_stats.c and
    xspi_selftest.c over a device reached only by 32-bit register accesses
    ([RegDevice]); the application's status handler is a parameter.  The
    theorems of this file hold for every device: the options and slave-select
    interfaces, the guards of every operation, and the invariant of the driver
    instance. *)

From Stdlib Require Import ZArith List Lia Bool.
From S2P Require Import Prelude.
Import ListNotations.
Open Scope Z_scope.
Open Scope c_scope.

Module Regs.
(** Register offsets *)
Definition XSP_DGIER_OFFSET := 0x1C.
Definition XSP_IISR_OFFSET := 0x20.
Definition XSP_IIER_OFFSET := 0x28.
Definition XSP_SRR_OFFSET := 0x40.
Definition XSP_CR_OFFSET := 0x60.
Definition XSP_SR_OFFSET := 0x64.
Definition XSP_DTR_OFFSET := 0x68.
Definition XSP_DRR_OFFSET := 0x6C.
Definition XSP_SSR_OFFSET := 0x70.
Definition XSP_TFO_OFFSET := 0x74.
Definition XSP_RFO_OFFSET := 0x78.
Definition XSP_GINTR_ENABLE_MASK := 0x80000000.

(** Interrupt status and enable bits *)
Definition XSP_INTR_MODE_FAULT_MASK := 0x00000001.
Definition XSP_INTR_SLAVE_MODE_FAULT_MASK := 0x00000002.
Definition XSP_INTR_TX_EMPTY_MASK := 0x00000004.
Definition XSP_INTR_TX_UNDERRUN_MASK := 0x00000008.
Definition XSP_INTR_RX_FULL_MASK := 0x00000010.
Definition XSP_INTR_RX_OVERRUN_MASK := 0x00000020.
Definition XSP_INTR_TX_HALF_EMPTY_MASK := 0x00000040.
Definition XSP_INTR_SLAVE_MODE_MASK := 0x00000080.
Definition XSP_INTR_RX_NOT_EMPTY_MASK := 0x00000100.
Definition XSP_INTR_CPOL_CPHA_ERR_MASK := 0x00000200.
Definition XSP_INTR_SLAVE_MODE_ERR_MASK := 0x00000400.
Definition XSP_INTR_MSB_ERR_MASK := 0x00000800.
Definition XSP_INTR_LOOP_BACK_ERR_MASK := 0x00001000.
Definition XSP_INTR_CMD_ERR_MASK := 0x00002000.

Definition XSP_INTR_ALL :=
  XSP_INTR_MODE_FAULT_MASK .| XSP_INTR_SLAVE_MODE_FAULT_MASK .| XSP_INTR_TX_EMPTY_MASK .|
  XSP_INTR_TX_UNDERRUN_MASK .| XSP_INTR_RX_FULL_MASK .| XSP_INTR_TX_HALF_EMPTY_MASK .|
  XSP_INTR_RX_OVERRUN_MASK .| XSP_INTR_SLAVE_MODE_MASK .| XSP_INTR_RX_NOT_EMPTY_MASK .|
  XSP_INTR_CMD_ERR_MASK .| XSP_INTR_LOOP_BACK_ERR_MASK .| XSP_INTR_MSB_ERR_MASK .|
  XSP_INTR_SLAVE_MODE_ERR_MASK .| XSP_INTR_CPOL_CPHA_ERR_MASK.
Definition XSP_INTR_DFT_MASK :=
  XSP_INTR_MODE_FAULT_MASK .| XSP_INTR_TX_UNDERRUN_MASK .| XSP_INTR_RX_OVERRUN_MASK .|
  XSP_INTR_SLAVE_MODE_FAULT_MASK .| XSP_INTR_CMD_ERR_MASK.
Definition XSP_SRR_RESET_MASK := 0x0000000A.

(** Control register *)
Definition XSP_CR_LOOPBACK_MASK := 0x00000001.
Definition XSP_CR_ENABLE_MASK := 0x00000002.
Definition XSP_CR_MASTER_MODE_MASK := 0x00000004.
Definition XSP_CR_CLK_POLARITY_MASK := 0x00000008.
Definition XSP_CR_CLK_PHASE_MASK := 0x00000010.
Definition XSP_CR_TXFIFO_RESET_MASK := 0x00000020.
Definition XSP_CR_RXFIFO_RESET_MASK := 0x00000040.
Definition XSP_CR_MANUAL_SS_MASK := 0x00000080.
Definition XSP_CR_TRANS_INHIBIT_MASK := 0x00000100.

(** Status register *)
Definition XSP_SR_RX_EMPTY_MASK := 0x00000001.
Definition XSP_SR_TX_EMPTY_MASK := 0x00000004.
Definition XSP_SR_TX_FULL_MASK := 0x00000008.

Definition XSP_DATAWIDTH_BYTE := 8.
Definition XSP_DATAWIDTH_HALF_WORD := 16.
Definition XSP_DATAWIDTH_WORD := 32.
Definition XSP_STANDARD_MODE := 0.

(** Options of XSpi_SetOptions *)
Definition XSP_MASTER_OPTION := 0x1.
Definition XSP_CLK_ACTIVE_LOW_OPTION := 0x2.
Definition XSP_CLK_PHASE_1_OPTION := 0x4.
Definition XSP_LOOPBACK_OPTION := 0x8.
Definition XSP_MANUAL_SSELECT_OPTION := 0x10.

(** Status codes of xstatus.h *)
Definition XST_SUCCESS := 0.
Definition XST_DEVICE_NOT_FOUND := 2.
Definition XST_DEVICE_IS_STARTED := 5.
Definition XST_DEVICE_IS_STOPPED := 6.
Definition XST_REGISTER_ERROR := 14.
Definition XST_LOOPBACK_ERROR := 17.
Definition XST_DEVICE_BUSY := 21.
Definition XST_SPI_MODE_FAULT := 1151.
Definition XST_SPI_TRANSFER_DONE := 1152.
Definition XST_SPI_TRANSMIT_UNDERRUN := 1153.
Definition XST_SPI_RECEIVE_OVERRUN := 1154.
Definition XST_SPI_NO_SLAVE := 1155.
Definition XST_SPI_TOO_MANY_SLAVES := 1156.
Definition XST_SPI_SLAVE_ONLY := 1158.
Definition XST_SPI_SLAVE_MODE_FAULT := 1159.
Definition XST_SPI_SLAVE_MODE := 1160.
Definition XST_SPI_RECEIVE_NOT_EMPTY := 1161.
Definition XST_SPI_COMMAND_ERROR := 1162.

Definition XIL_COMPONENT_IS_READY := 0x11111111.
Definition XIL_COMPONENT_IS_STARTED := 0x22222222.
Definition TRUE := 1.
Definition FALSE := 0.
Definition NULL := 0.
End Regs.
Import Regs.

(** A C condition: any bit of the masked value is set. *)
Definition tst (x mask : Z) : bool := negb (x .& mask =? 0).

(** [x & ~mask] on 32-bit words. *)
Definition clr (x mask : Z) : Z := x .& u32 (Z.lnot mask).

Lemma tst_bit n x : 0 <= n -> tst x (2 ^ n) = Z.testbit x n.
Proof.
  intros Hn. unfold tst. rewrite land_pow2 by assumption.
  destruct (Z.testbit x n); [|reflexivity]. now destruct (Z.eqb_spec (2 ^ n) 0); [lia|].
Qed.

Lemma tst_lor x m n : 0 <= n -> tst (x .| m) (2 ^ n) = tst x (2 ^ n) || Z.testbit m n.
Proof. intros. now rewrite !tst_bit, Z.lor_spec. Qed.
Lemma tst_land x m n : 0 <= n -> tst (x .& m) (2 ^ n) = tst x (2 ^ n) && Z.testbit m n.
Proof. intros. now rewrite !tst_bit, Z.land_spec. Qed.
Lemma tst_u16 x n : 0 <= n < 16 -> tst (u16 x) (2 ^ n) = tst x (2 ^ n).
Proof.
  intros. rewrite !tst_bit by lia. unfold u16. change 65536 with (2 ^ 16).
  now apply Z.mod_pow2_bits_low.
Qed.
Lemma tst_clr x m n : 0 <= n < 32 -> tst (clr x m) (2 ^ n) = tst x (2 ^ n) && negb (Z.testbit m n).
Proof.
  intros. unfold clr. rewrite tst_land by lia. f_equal. unfold u32.
  change 4294967296 with (2 ^ 32). rewrite Z.mod_pow2_bits_low, Z.lnot_spec by lia. reflexivity.
Qed.

(** ** Data *)

Record XSpi_Stats := mkStats {
  ModeFaults : Z; XmitUnderruns : Z; RecvOverruns : Z;
  SlaveModeFaults : Z; BytesTransferred : Z; NumInterrupts : Z }.
#[export] Instance XSpi_Stats_eta : Eta XSpi_Stats := { eta := fun r =>
  mkStats r.(ModeFaults) r.(XmitUnderruns) r.(RecvOverruns)
    r.(SlaveModeFaults) r.(BytesTransferred) r.(NumInterrupts) }.

Record XSpi_Config := mkConfig {
  DeviceId : Z; BaseAddress : Z; cfg_HasFifos : Z; cfg_SlaveOnly : Z;
  cfg_NumSlaveBits : Z; cfg_DataWidth : Z; cfg_SpiMode : Z; AxiInterface : Z;
  AxiFullBaseAddress : Z; cfg_XipMode : Z; Use_Startup : Z }.

(** The status handler field: the driver's stub or a function of the
    application. *)
Inductive handler := StubStatusHandler | UserHandler (id : Z).

Record XSpi := mkXSpi {
  Stats : XSpi_Stats; BaseAddr : Z; IsReady : Z; IsStarted : Z; HasFifos : Z;
  SlaveOnly : Z; NumSlaveBits : Z; DataWidth : Z; SpiMode : Z;
  SlaveSelectMask : Z; SlaveSelectReg : Z;
  SendBufferPtr : Z; RecvBufferPtr : Z; RequestedBytes : Z; RemainingBytes : Z;
  IsBusy : Z; StatusHandler : handler; StatusRef : Z;
  FlashBaseAddr : Z; XipMode : Z }.
#[export] Instance XSpi_eta : Eta XSpi := { eta := fun r =>
  mkXSpi r.(Stats) r.(BaseAddr) r.(IsReady) r.(IsStarted) r.(HasFifos)
    r.(SlaveOnly) r.(NumSlaveBits) r.(DataWidth) r.(SpiMode)
    r.(SlaveSelectMask) r.(SlaveSelectReg)
    r.(SendBufferPtr) r.(RecvBufferPtr) r.(RequestedBytes) r.(RemainingBytes)
    r.(IsBusy) r.(StatusHandler) r.(StatusRef) r.(FlashBaseAddr) r.(XipMode) }.

(** xspi_g.c with the values of xparameters.h. *)
Definition XSpi_ConfigTable : list XSpi_Config :=
  [mkConfig 0 0x44B00000 1 0 1 8 2 0 0 0 1].

(** The table of xspi_options.c: option bit and control register bit. *)
Definition OptionsTable : list (Z * Z) :=
  [(XSP_LOOPBACK_OPTION, XSP_CR_LOOPBACK_MASK);
   (XSP_CLK_ACTIVE_LOW_OPTION, XSP_CR_CLK_POLARITY_MASK);
   (XSP_CLK_PHASE_1_OPTION, XSP_CR_CLK_PHASE_MASK);
   (XSP_MASTER_OPTION, XSP_CR_MASTER_MODE_MASK);
   (XSP_MANUAL_SSELECT_OPTION, XSP_CR_MANUAL_SS_MASK)].

(** ** Registers and memory *)

(** A device answers 32-bit reads and writes at an address; both may change
    its state. *)
Class RegDevice (D : Type) := {
  reg_read : D -> Z -> D * Z;
  reg_write : D -> Z -> Z -> D }.

(** Memory is a map from addresses to bytes. *)
Definition store8 (m : Z -> Z) (p v : Z) : Z -> Z := fun a => if a =? p then u8 v else m a.

(** [*(u16 * )p] and [*(u32 * )p] on the little-endian host. *)
Definition load16 (m : Z -> Z) (p : Z) : Z := le16 (m p) (m (p + 1)).
Definition load32 (m : Z -> Z) (p : Z) : Z := le32 (m p) (m (p + 1)) (m (p + 2)) (m (p + 3)).
Definition store16 (m : Z -> Z) (p v : Z) : Z -> Z :=
  store8 (store8 m p v) (p + 1) (v >> 8).
Definition store32 (m : Z -> Z) (p v : Z) : Z -> Z :=
  store16 (store16 m p v) (p + 2) (v >> 16).

Section Driver.
Context {D : Type} `{RegDevice D}.

(** The driver's instance, the device and the memory the buffers are in. *)
Record spi_state := mkSt { inst : XSpi; dev : D; mem : Z -> Z }.
#[export] Instance spi_state_eta : Eta spi_state := { eta := fun r =>
  mkSt r.(inst) r.(dev) r.(mem) }.

(** The application's handlers: what function [id] does with the reference,
    the event and the byte count it is called with. *)
Context (user_handler : Z -> Z -> Z -> Z -> spi_state -> spi_state).

Definition SM (A : Type) := M spi_state A.

(** A field of the instance and an assignment to it. *)
Definition field {A} (f : XSpi -> A) : SM A := gets (fun s => f s.(inst)).
Definition upd (f : XSpi -> XSpi) : SM unit := modify (fun s => s <| inst := f s.(inst) |>).

Definition XSpi_ReadReg (BaseAddress RegOffset : Z) : SM Z := fun s =>
  let '(d, v) := reg_read s.(dev) (BaseAddress + RegOffset) in Ok (v, s <| dev := d |>).
Definition XSpi_WriteReg (BaseAddress RegOffset RegisterValue : Z) : SM unit := fun s =>
  Ok (tt, s <| dev := reg_write s.(dev) (BaseAddress + RegOffset) RegisterValue |>).

(** ** Macros of xspi.h *)

Definition get_reg (off : Z) : SM Z := do b <- field BaseAddr; XSpi_ReadReg b off.
Definition set_reg (off v : Z) : SM unit := do b <- field BaseAddr; XSpi_WriteReg b off v.

Definition XSpi_IntrGlobalEnable : SM unit := set_reg XSP_DGIER_OFFSET XSP_GINTR_ENABLE_MASK.
Definition XSpi_IntrGlobalDisable : SM unit := set_reg XSP_DGIER_OFFSET 0.
Definition XSpi_IsIntrGlobalEnabled : SM Z :=
  do v <- get_reg XSP_DGIER_OFFSET;
  ret (if v =? XSP_GINTR_ENABLE_MASK then TRUE else FALSE).
Definition XSpi_IntrGetStatus : SM Z := get_reg XSP_IISR_OFFSET.
Definition XSpi_IntrClear (ClearMask : Z) : SM unit :=
  do v <- XSpi_IntrGetStatus; set_reg XSP_IISR_OFFSET (v .| ClearMask).
Definition XSpi_IntrEnable (EnableMask : Z) : SM unit :=
  do v <- get_reg XSP_IIER_OFFSET; set_reg XSP_IIER_OFFSET (v .| (EnableMask .& XSP_INTR_ALL)).
Definition XSpi_IntrDisable (DisableMask : Z) : SM unit :=
  do v <- get_reg XSP_IIER_OFFSET; set_reg XSP_IIER_OFFSET (clr v (DisableMask .& XSP_INTR_ALL)).
Definition XSpi_IntrGetEnabled : SM Z := get_reg XSP_IIER_OFFSET.
Definition XSpi_SetControlReg (Mask : Z) : SM unit := set_reg XSP_CR_OFFSET Mask.
Definition XSpi_GetControlReg : SM Z := get_reg XSP_CR_OFFSET.
Definition XSpi_GetStatusReg : SM Z := get_reg XSP_SR_OFFSET.
Definition XSpi_SetSlaveSelectReg (Mask : Z) : SM unit := set_reg XSP_SSR_OFFSET Mask.
Definition XSpi_GetSlaveSelectReg : SM Z := get_reg XSP_SSR_OFFSET.
Definition XSpi_Enable : SM unit :=
  do c <- XSpi_GetControlReg;
  XSpi_SetControlReg (clr (u16 c .| XSP_CR_ENABLE_MASK) XSP_CR_TRANS_INHIBIT_MASK).
Definition XSpi_Disable : SM unit :=
  do c <- XSpi_GetControlReg; XSpi_SetControlReg (clr c XSP_CR_ENABLE_MASK).

(** ** xspi.c *)

Definition assert_ready : SM unit :=
  do r <- field IsReady; Xil_Assert (r =? XIL_COMPONENT_IS_READY).

(** A call through the [StatusHandler] field; the stub asserts. *)
Definition call_StatusHandler (StatusEvent ByteCount : Z) : SM unit :=
  do h <- field StatusHandler;
  do r <- field StatusRef;
  match h with
  | StubStatusHandler => halt
  | UserHandler id => modify (user_handler id r StatusEvent ByteCount)
  end.

Definition XSpi_Abort : SM unit :=
  do mask <- field SlaveSelectMask;
  XSpi_SetSlaveSelectReg mask ;;
  do c <- XSpi_GetControlReg;
  do fifos <- field HasFifos;
  let c := u16 c .| XSP_CR_TRANS_INHIBIT_MASK in
  let c := if negb (fifos =? 0)
           then c .| (XSP_CR_TXFIFO_RESET_MASK .| XSP_CR_RXFIFO_RESET_MASK) else c in
  XSpi_SetControlReg c ;;
  upd (fun x => x <| RemainingBytes := 0 |> <| RequestedBytes := 0 |> <| IsBusy := FALSE |>).

Definition XSpi_Reset : SM unit :=
  assert_ready ;;
  XSpi_Abort ;;
  upd (fun x => x <| IsStarted := 0 |> <| SlaveSelectReg := x.(SlaveSelectMask) |>) ;;
  set_reg XSP_SRR_OFFSET XSP_SRR_RESET_MASK.

(** The dummy ReadId of [XSpi_CfgInitialize] for designs with a startup block. *)
Definition startup_dummy_read : SM unit :=
  do c <- XSpi_GetControlReg;
  XSpi_SetControlReg (c .| (XSP_CR_TXFIFO_RESET_MASK .| XSP_CR_RXFIFO_RESET_MASK .|
                            XSP_CR_ENABLE_MASK .| XSP_CR_MASTER_MODE_MASK)) ;;
  set_reg XSP_DTR_OFFSET 0x9F ;;
  set_reg XSP_DTR_OFFSET 0x00 ;;
  set_reg XSP_DTR_OFFSET 0x00 ;;
  do c <- XSpi_GetControlReg;
  XSpi_SetControlReg (clr c XSP_CR_TRANS_INHIBIT_MASK) ;;
  do c <- XSpi_GetControlReg;
  XSpi_SetControlReg (c .| XSP_CR_TRANS_INHIBIT_MASK) ;;
  get_reg XSP_DRR_OFFSET ;;
  get_reg XSP_DRR_OFFSET ;;
  ret tt.

(** The fields [XSpi_CfgInitialize] sets. *)
Definition cfg_fields (Config : XSpi_Config) (EffectiveAddr : Z) (x : XSpi) : XSpi :=
  mkXSpi (mkStats 0 0 0 0 0 0) EffectiveAddr XIL_COMPONENT_IS_READY 0
    Config.(cfg_HasFifos) Config.(cfg_SlaveOnly) Config.(cfg_NumSlaveBits)
    (if Config.(cfg_DataWidth) =? 0 then XSP_DATAWIDTH_BYTE else Config.(cfg_DataWidth))
    Config.(cfg_SpiMode)
    (u32 ((1 << Config.(cfg_NumSlaveBits)) - 1))
    (u32 ((1 << Config.(cfg_NumSlaveBits)) - 1))
    NULL NULL 0 0 FALSE StubStatusHandler x.(StatusRef)
    Config.(AxiFullBaseAddress) Config.(cfg_XipMode).

Definition XSpi_CfgInitialize (Config : XSpi_Config) (EffectiveAddr : Z) : SM Z :=
  do started <- field IsStarted;
  if started =? XIL_COMPONENT_IS_STARTED then ret XST_DEVICE_IS_STARTED else
  upd (cfg_fields Config EffectiveAddr) ;;
  (when Config.(Use_Startup) =? 1 then startup_dummy_read) ;;
  XSpi_Reset ;;
  ret XST_SUCCESS.

Definition XSpi_LookupConfig (id : Z) : option XSpi_Config :=
  find (fun c => c.(DeviceId) =? id) XSpi_ConfigTable.

Definition XSpi_Initialize (id : Z) : SM Z :=
  match XSpi_LookupConfig id with
  | None => ret XST_DEVICE_NOT_FOUND
  | Some c => XSpi_CfgInitialize c c.(BaseAddress)
  end.

Definition XSpi_Start : SM Z :=
  assert_ready ;;
  do started <- field IsStarted;
  if started =? XIL_COMPONENT_IS_STARTED then ret XST_DEVICE_IS_STARTED else
  XSpi_IntrEnable XSP_INTR_DFT_MASK ;;
  upd (fun x => x <| IsStarted := XIL_COMPONENT_IS_STARTED |>) ;;
  do c <- XSpi_GetControlReg;
  XSpi_SetControlReg (c .| (XSP_CR_TXFIFO_RESET_MASK .| XSP_CR_RXFIFO_RESET_MASK .|
                            XSP_CR_ENABLE_MASK)) ;;
  XSpi_IntrGlobalEnable ;;
  ret XST_SUCCESS.

Definition XSpi_Stop : SM Z :=
  assert_ready ;;
  do busy <- field IsBusy;
  if negb (busy =? 0) then ret XST_DEVICE_BUSY else
  XSpi_IntrGlobalDisable ;;
  do c <- XSpi_GetControlReg;
  XSpi_SetControlReg (clr c XSP_CR_ENABLE_MASK) ;;
  upd (fun x => x <| IsStarted := 0 |>) ;;
  ret XST_SUCCESS.

(** *** Buffers of 1, 2 or 4 byte units *)

(** The next unit of the send buffer; another width leaves [Data] as it is. *)
Definition load_unit (DataWidth : Z) (m : Z -> Z) (p Data : Z) : Z :=
  if DataWidth =? XSP_DATAWIDTH_BYTE then m p
  else if DataWidth =? XSP_DATAWIDTH_HALF_WORD then load16 m p
  else if DataWidth =? XSP_DATAWIDTH_WORD then load32 m p
  else Data.

(** Fill the transmit FIFO until it is full or nothing remains. *)
Fixpoint fill_tx (fuel : nat) (DataWidth StatusReg Data : Z) : SM Z :=
  match fuel with
  | O => hang
  | S n =>
      do remaining <- field RemainingBytes;
      if negb (tst StatusReg XSP_SR_TX_FULL_MASK) && (0 <? remaining) then
        do p <- field SendBufferPtr;
        do m <- gets mem;
        let Data := load_unit DataWidth m p Data in
        set_reg XSP_DTR_OFFSET Data ;;
        upd (fun x => x <| SendBufferPtr := x.(SendBufferPtr) + (DataWidth >> 3) |>
                        <| RemainingBytes := u32 (x.(RemainingBytes) - (DataWidth >> 3)) |>) ;;
        do sr <- XSpi_GetStatusReg;
        fill_tx n DataWidth sr Data
      else ret Data
  end.

(** Store one received unit and advance [RecvBufferPtr], unless it is NULL. *)
Definition store_unit (DataWidth Data : Z) : SM unit :=
  do p <- field RecvBufferPtr;
  if p =? NULL then ret tt
  else if DataWidth =? XSP_DATAWIDTH_BYTE then
    modify (fun s => s <| mem := store8 s.(mem) p Data |>) ;;
    upd (fun x => x <| RecvBufferPtr := p + 1 |>)
  else if DataWidth =? XSP_DATAWIDTH_HALF_WORD then
    modify (fun s => s <| mem := store16 s.(mem) p Data |>) ;;
    upd (fun x => x <| RecvBufferPtr := p + 2 |>)
  else if DataWidth =? XSP_DATAWIDTH_WORD then
    modify (fun s => s <| mem := store32 s.(mem) p Data |>) ;;
    upd (fun x => x <| RecvBufferPtr := p + 4 |>)
  else ret tt.

(** Read the receive FIFO until it is empty; [ByteCount] counts down as in
    the polled loop and is returned with the last data read. *)
Fixpoint drain_rx (fuel : nat) (DataWidth StatusReg Data ByteCount : Z) : SM (Z * Z) :=
  match fuel with
  | O => hang
  | S n =>
      if negb (tst StatusReg XSP_SR_RX_EMPTY_MASK) then
        do Data <- get_reg XSP_DRR_OFFSET;
        store_unit DataWidth Data ;;
        upd (fun x => x <| Stats := x.(Stats) <| BytesTransferred :=
               u32 (x.(Stats).(BytesTransferred) + (DataWidth >> 3)) |> |>) ;;
        do sr <- XSpi_GetStatusReg;
        drain_rx n DataWidth sr Data (u32 (ByteCount - (DataWidth >> 3)))
      else ret (Data, ByteCount)
  end.

(** [do { StatusReg = XSpi_IntrGetStatus(); } while (!(StatusReg & TX_EMPTY))] *)
Fixpoint wait_tx_empty (fuel : nat) : SM unit :=
  match fuel with
  | O => hang
  | S n =>
      do st <- XSpi_IntrGetStatus;
      if tst st XSP_INTR_TX_EMPTY_MASK then ret tt else wait_tx_empty n
  end.

(** One round of the polled loop: wait for the transmitter, inhibit it, take
    the received data, refill and restart. *)
Definition polled_round (fuel : nat) (DataWidth Data ByteCount : Z) : SM (Z * Z) :=
  wait_tx_empty fuel ;;
  XSpi_IntrClear XSP_INTR_TX_EMPTY_MASK ;;
  do c <- XSpi_GetControlReg;
  XSpi_SetControlReg (c .| XSP_CR_TRANS_INHIBIT_MASK) ;;
  do sr <- XSpi_GetStatusReg;
  do r <- drain_rx fuel DataWidth sr Data ByteCount;
  let '(Data, ByteCount) := r in
  do remaining <- field RemainingBytes;
  if 0 <? remaining then
    do sr <- XSpi_GetStatusReg;
    do Data <- fill_tx fuel DataWidth sr Data;
    do c <- XSpi_GetControlReg;
    XSpi_SetControlReg (clr c XSP_CR_TRANS_INHIBIT_MASK) ;;
    ret (Data, ByteCount)
  else ret (Data, ByteCount).

(** [while(ByteCount > 0)] of the polled mode. *)
Fixpoint polled_loop (rounds fuel : nat) (DataWidth Data ByteCount : Z) : SM unit :=
  if 0 <? ByteCount then
    match rounds with
    | O => hang
    | S n =>
        do r <- polled_round fuel DataWidth Data ByteCount;
        let '(Data, ByteCount) := r in
        polled_loop n fuel DataWidth Data ByteCount
    end
  else ret tt.

(** The end of a polled transfer. *)
Definition polled_finish : SM unit :=
  do c <- XSpi_GetControlReg;
  XSpi_SetControlReg (c .| XSP_CR_TRANS_INHIBIT_MASK) ;;
  do mask <- field SlaveSelectMask;
  XSpi_SetSlaveSelectReg mask ;;
  upd (fun x => x <| IsBusy := FALSE |>).

(** The part of [XSpi_Transfer] that hands the buffers over, fills the
    transmitter and starts it. *)
Definition transfer_begin (fuel : nat) (SendBufPtr RecvBufPtr ByteCount : Z) : SM Z :=
  upd (fun x => x <| IsBusy := TRUE |>
                  <| SendBufferPtr := SendBufPtr |> <| RecvBufferPtr := RecvBufPtr |>
                  <| RequestedBytes := ByteCount |> <| RemainingBytes := ByteCount |>) ;;
  do width <- field DataWidth;
  do sr <- XSpi_GetStatusReg;
  do Data <- fill_tx fuel width sr 0;
  do ssr <- field SlaveSelectReg;
  XSpi_SetSlaveSelectReg ssr ;;
  do c <- XSpi_GetControlReg;
  XSpi_SetControlReg (clr c XSP_CR_TRANS_INHIBIT_MASK) ;;
  ret Data.

Definition XSpi_Transfer (fuel : nat) (SendBufPtr RecvBufPtr ByteCount : Z) : SM Z :=
  Xil_Assert (negb (SendBufPtr =? NULL)) ;;
  Xil_Assert (0 <? ByteCount) ;;
  assert_ready ;;
  do started <- field IsStarted;
  if negb (started =? XIL_COMPONENT_IS_STARTED) then ret XST_DEVICE_IS_STOPPED else
  do busy <- field IsBusy;
  if negb (busy =? 0) then ret XST_DEVICE_BUSY else
  do gie <- XSpi_IsIntrGlobalEnabled;
  XSpi_IntrGlobalDisable ;;
  do c <- XSpi_GetControlReg;
  do ssr <- field SlaveSelectReg;
  do mask <- field SlaveSelectMask;
  if tst c XSP_CR_MASTER_MODE_MASK && negb (tst c XSP_CR_LOOPBACK_MASK) && (ssr =? mask) then
    (when gie =? TRUE then XSpi_IntrGlobalEnable) ;;
    ret XST_SPI_NO_SLAVE
  else
  do Data <- transfer_begin fuel SendBufPtr RecvBufPtr ByteCount;
  (if gie =? TRUE then
     XSpi_IntrEnable XSP_INTR_TX_EMPTY_MASK ;;
     XSpi_IntrGlobalEnable
   else
     do width <- field DataWidth;
     polled_loop fuel fuel width Data ByteCount ;;
     polled_finish) ;;
  ret XST_SUCCESS.

(** The number of the low [NumSlaveBits] bits set in a mask. *)
Fixpoint NumAsserted (Index : nat) (SlaveMask : Z) : Z :=
  match Index with
  | O => 0
  | S i => (if tst (SlaveMask >> Z.of_nat i) 0x1 then 1 else 0) + NumAsserted i SlaveMask
  end.

Definition XSpi_SetSlaveSelect (SlaveMask : Z) : SM Z :=
  assert_ready ;;
  do busy <- field IsBusy;
  if negb (busy =? 0) then ret XST_DEVICE_BUSY else
  do bits <- field NumSlaveBits;
  if 1 <? NumAsserted (Z.to_nat bits) SlaveMask then ret XST_SPI_TOO_MANY_SLAVES else
  upd (fun x => x <| SlaveSelectReg := u32 (Z.lnot SlaveMask) |>) ;;
  ret XST_SUCCESS.

Definition XSpi_GetSlaveSelect : SM Z :=
  assert_ready ;;
  do r <- field SlaveSelectReg;
  ret (u32 (Z.lnot r)).

Definition XSpi_SetStatusHandler (CallBackRef FuncPtr : Z) : SM unit :=
  Xil_Assert (negb (FuncPtr =? NULL)) ;;
  assert_ready ;;
  upd (fun x => x <| StatusHandler := UserHandler FuncPtr |> <| StatusRef := CallBackRef |>).

(** *** The interrupt handler *)

Definition bytes_done : SM Z :=
  gets (fun s => u32 (s.(inst).(RequestedBytes) - s.(inst).(RemainingBytes))).

Definition bump (f : XSpi_Stats -> XSpi_Stats) : SM unit :=
  upd (fun x => x <| Stats := f x.(Stats) |>).

(** The TX_EMPTY / TX_HALF_EMPTY part: take the received data, then refill
    and restart, or finish the transfer. *)
Definition handler_tx_empty (fuel : nat) (width : Z) : SM unit :=
  do c <- XSpi_GetControlReg;
  XSpi_SetControlReg (c .| XSP_CR_TRANS_INHIBIT_MASK) ;;
  do sr <- XSpi_GetStatusReg;
  do r <- drain_rx fuel width sr 0 0;
  let '(Data, _) := r in
  do remaining <- field RemainingBytes;
  if 0 <? remaining then
    do sr <- XSpi_GetStatusReg;
    fill_tx fuel width sr Data ;;
    XSpi_SetControlReg c
  else
    do mask <- field SlaveSelectMask;
    XSpi_SetSlaveSelectReg mask ;;
    XSpi_IntrDisable XSP_INTR_TX_EMPTY_MASK ;;
    upd (fun x => x <| IsBusy := FALSE |>) ;;
    do requested <- field RequestedBytes;
    call_StatusHandler XST_SPI_TRANSFER_DONE requested.

(** The error reports after the transmit part. *)
Definition handler_reports (IntrStatus : Z) : SM unit :=
  (when tst IntrStatus XSP_INTR_SLAVE_MODE_MASK then
     call_StatusHandler XST_SPI_SLAVE_MODE 0) ;;
  (when tst IntrStatus XSP_INTR_RX_NOT_EMPTY_MASK then
     call_StatusHandler XST_SPI_RECEIVE_NOT_EMPTY 0) ;;
  (when tst IntrStatus XSP_INTR_SLAVE_MODE_FAULT_MASK then (
     do n <- bytes_done;
     bump (fun t => t <| SlaveModeFaults := u32 (t.(SlaveModeFaults) + 1) |>) ;;
     call_StatusHandler XST_SPI_SLAVE_MODE_FAULT n)) ;;
  (when tst IntrStatus XSP_INTR_RX_OVERRUN_MASK then (
     do n <- bytes_done;
     bump (fun t => t <| RecvOverruns := u32 (t.(RecvOverruns) + 1) |>) ;;
     call_StatusHandler XST_SPI_RECEIVE_OVERRUN n)) ;;
  (when tst IntrStatus XSP_INTR_TX_UNDERRUN_MASK then (
     do n <- bytes_done;
     bump (fun t => t <| XmitUnderruns := u32 (t.(XmitUnderruns) + 1) |>) ;;
     call_StatusHandler XST_SPI_TRANSMIT_UNDERRUN n)) ;;
  (when tst IntrStatus XSP_INTR_CMD_ERR_MASK then (
     do n <- bytes_done;
     bump (fun t => t <| XmitUnderruns := u32 (t.(XmitUnderruns) + 1) |>) ;;
     call_StatusHandler XST_SPI_COMMAND_ERROR n)).

Definition XSpi_InterruptHandler (fuel : nat) : SM unit :=
  bump (fun t => t <| NumInterrupts := u32 (t.(NumInterrupts) + 1) |>) ;;
  do st <- XSpi_IntrGetStatus;
  XSpi_IntrClear st ;;
  if tst st XSP_INTR_MODE_FAULT_MASK then
    do n <- bytes_done;
    bump (fun t => t <| ModeFaults := u32 (t.(ModeFaults) + 1) |>) ;;
    XSpi_Abort ;;
    XSpi_GetStatusReg ;;
    call_StatusHandler XST_SPI_MODE_FAULT n
  else
    do width <- field DataWidth;
    (when tst st XSP_INTR_TX_EMPTY_MASK || tst st XSP_INTR_TX_HALF_EMPTY_MASK then
       handler_tx_empty fuel width) ;;
    handler_reports st.

(** ** xspi_options.c *)

(** One turn of the loop over the table. *)
Definition set_option (Options ControlReg : Z) (e : Z * Z) : Z :=
  let '(opt, mask) := e in
  if tst Options opt then ControlReg .| mask else clr ControlReg mask.

Definition XSpi_SetOptions (Options : Z) : SM Z :=
  assert_ready ;;
  do busy <- field IsBusy;
  if negb (busy =? 0) then ret XST_DEVICE_BUSY else
  do slave_only <- field SlaveOnly;
  if tst Options XSP_MASTER_OPTION && negb (slave_only =? 0) then ret XST_SPI_SLAVE_ONLY else
  do c <- XSpi_GetControlReg;
  XSpi_SetControlReg (fold_left (set_option Options) OptionsTable c) ;;
  ret XST_SUCCESS.

Definition get_option (ControlReg OptionsFlag : Z) (e : Z * Z) : Z :=
  let '(opt, mask) := e in if tst ControlReg mask then OptionsFlag .| opt else OptionsFlag.

Definition XSpi_GetOptions : SM Z :=
  assert_ready ;;
  do c <- XSpi_GetControlReg;
  ret (fold_left (get_option c) OptionsTable 0).

(** ** xspi_stats.c *)

Definition XSpi_GetStats : SM XSpi_Stats := assert_ready ;; field Stats.

Definition XSpi_ClearStats : SM unit :=
  assert_ready ;; upd (fun x => x <| Stats := mkStats 0 0 0 0 0 0 |>).

(** ** xspi_selftest.c *)

Definition XSP_SR_RESET_STATE := 0x5.
Definition XSP_CR_RESET_STATE := 0x180.
Definition XSP_HALF_WORD_TESTBYTE := 0x2200.
Definition XSP_WORD_TESTBYTE := 0xAA005500.

(** The word the loopback test sends in round [Index], before adding it. *)
Definition test_data (DataWidth Data : Z) : Z :=
  if DataWidth =? XSP_DATAWIDTH_BYTE then 0
  else if DataWidth =? XSP_DATAWIDTH_HALF_WORD then XSP_HALF_WORD_TESTBYTE
  else if DataWidth =? XSP_DATAWIDTH_WORD then XSP_WORD_TESTBYTE
  else Data.

Fixpoint loopback_fill (fuel : nat) (width StatusReg Index NumSent : Z) : SM Z :=
  match fuel with
  | O => hang
  | S n =>
      if negb (tst StatusReg XSP_SR_TX_FULL_MASK) then
        set_reg XSP_DTR_OFFSET (u32 (test_data width 0 + Index)) ;;
        do sr <- XSpi_GetStatusReg;
        loopback_fill n width sr Index (u32 (NumSent + (width >> 3)))
      else ret NumSent
  end.

Definition loopback_mismatch (width RxData Index : Z) : bool :=
  if width =? XSP_DATAWIDTH_BYTE then negb (u8 RxData =? Index)
  else if width =? XSP_DATAWIDTH_HALF_WORD then
    negb (u16 RxData =? u16 (Index + XSP_HALF_WORD_TESTBYTE))
  else if width =? XSP_DATAWIDTH_WORD then
    negb (RxData =? u32 (Index + XSP_WORD_TESTBYTE))
  else false.

(** [None] when a received word differs from the one sent. *)
Fixpoint loopback_recv (fuel : nat) (width StatusReg Index NumRecvd : Z) : SM (option Z) :=
  match fuel with
  | O => hang
  | S n =>
      if negb (tst StatusReg XSP_SR_RX_EMPTY_MASK) then
        do rx <- get_reg XSP_DRR_OFFSET;
        if loopback_mismatch width rx Index then ret None else
        do sr <- XSpi_GetStatusReg;
        loopback_recv n width sr Index (u32 (NumRecvd + (width >> 3)))
      else ret (Some NumRecvd)
  end.

(** The rounds [Index = 0 .. 3]: [todo] rounds remain. *)
Fixpoint loopback_rounds (todo fuel : nat) (width Index NumSent NumRecvd : Z) : SM Z :=
  match todo with
  | O => ret (if NumSent =? NumRecvd then XST_SUCCESS else XST_LOOPBACK_ERROR)
  | S n =>
      do sr <- XSpi_GetStatusReg;
      do NumSent <- loopback_fill fuel width sr Index NumSent;
      do c <- XSpi_GetControlReg;
      let c := clr c XSP_CR_TRANS_INHIBIT_MASK in
      XSpi_SetControlReg (c .| XSP_CR_ENABLE_MASK) ;;
      wait_tx_empty fuel ;;
      XSpi_IntrClear XSP_INTR_TX_EMPTY_MASK ;;
      do sr <- XSpi_GetStatusReg;
      do r <- loopback_recv fuel width sr Index NumRecvd;
      match r with
      | None => ret XST_LOOPBACK_ERROR
      | Some NumRecvd =>
          XSpi_SetControlReg (clr (c .| XSP_CR_TRANS_INHIBIT_MASK) XSP_CR_ENABLE_MASK) ;;
          loopback_rounds n fuel width (Index + 1) NumSent NumRecvd
      end
  end.

Definition LoopbackTest (fuel : nat) : SM Z :=
  do slave_only <- field SlaveOnly;
  if negb (slave_only =? 0) then ret XST_SUCCESS else
  do c <- XSpi_GetControlReg;
  XSpi_SetControlReg (c .| XSP_CR_LOOPBACK_MASK .| XSP_CR_MASTER_MODE_MASK) ;;
  XSpi_IntrGlobalDisable ;;
  do width <- field DataWidth;
  loopback_rounds 4 fuel width 0 0 0.

(** The checks of the reset values; [true] when a register is wrong. *)
Definition reset_values_wrong : SM bool :=
  do c <- XSpi_GetControlReg;
  if negb (c =? XSP_CR_RESET_STATE) then ret true else
  do sr <- XSpi_GetStatusReg;
  ret (negb (sr .& XSP_SR_RESET_STATE =? XSP_SR_RESET_STATE)).

Definition XSpi_SelfTest (fuel : nat) : SM Z :=
  assert_ready ;;
  do xip <- field XipMode;
  if xip =? 1 then ret XST_SUCCESS else
  XSpi_Reset ;;
  do xip <- field XipMode;
  do wrong <- (if negb (xip =? 0) then reset_values_wrong else ret false);
  if wrong : bool then ret XST_REGISTER_ERROR else
  do wrong <- reset_values_wrong;
  if wrong : bool then ret XST_REGISTER_ERROR else
  do ssr <- XSpi_GetSlaveSelectReg;
  do mask <- field SlaveSelectMask;
  if negb (ssr =? mask) then ret XST_REGISTER_ERROR else
  do fifos <- field HasFifos;
  do wrong <- (if negb (fifos =? 0) then
                 do tfo <- get_reg XSP_TFO_OFFSET;
                 if negb (tfo =? 0) then ret true else
                 do rfo <- get_reg XSP_RFO_OFFSET;
                 ret (negb (rfo =? 0))
               else ret false);
  if wrong : bool then ret XST_REGISTER_ERROR else
  do mode <- field SpiMode;
  if negb (mode =? XSP_STANDARD_MODE) then ret XST_SUCCESS else
  do result <- LoopbackTest fuel;
  if negb (result =? XST_SUCCESS) then ret result else
  XSpi_Reset ;;
  ret XST_SUCCESS.
End Driver.
Arguments spi_state : clear implicits.
Arguments mkSt {D}.
