(* ===== verification/SpiCore.v ===== *)
(** * The SPI core as the drivers see it

    The AXI Quad SPI core is hardware: a parameter of the development.  This
    file states what the drivers rely on, as the laws of the class [AxiSpi]:
    a core in standard mode with 8-bit transfers and 16-deep FIFOs, whose
    master shifts bytes on its own between any two register accesses.  The
    slave on the bus is an arbitrary function of the bus history.  [soft_spi]
    is a concrete core that satisfies the laws; the other definitions are the
    vocabulary of the driver theorems. *)

From Stdlib Require Import ZArith List Lia Bool.
From S2P Require Import Prelude XSpi.
Import ListNotations Regs.
Open Scope Z_scope.
Open Scope c_scope.

(** ** The bus *)

Inductive bus_event :=
| SlaveSelect (lines : Z)
| Exchange (mosi miso : Z).

(** What the core holds: control and slave-select registers, the FIFOs, the
    latched TX_EMPTY interrupt, the global interrupt enable, and the history
    of the bus. *)
Record spi_view := mkView {
  v_cr : Z; v_ssr : Z; v_tx : list Z; v_rx : list Z;
  v_txe : bool; v_gie : bool; v_bus : list bus_event }.
#[export] Instance spi_view_eta : Eta spi_view := { eta := fun r =>
  mkView r.(v_cr) r.(v_ssr) r.(v_tx) r.(v_rx) r.(v_txe) r.(v_gie) r.(v_bus) }.

(** The master shifts: enabled, in master mode, not inhibited. *)
Definition v_active (v : spi_view) : bool :=
  tst v.(v_cr) XSP_CR_ENABLE_MASK && tst v.(v_cr) XSP_CR_MASTER_MODE_MASK &&
  negb (tst v.(v_cr) XSP_CR_TRANS_INHIBIT_MASK).

Definition FIFO_DEPTH : nat := 16.

(** Registers whose read has no effect beyond the passage of time. *)
Definition quiet_register (off : Z) : Prop :=
  In off [XSP_DGIER_OFFSET; XSP_IISR_OFFSET; XSP_IIER_OFFSET; XSP_CR_OFFSET; XSP_SR_OFFSET;
          XSP_SSR_OFFSET; XSP_TFO_OFFSET; XSP_RFO_OFFSET].

Definition is_nil {A} (l : list A) : bool := match l with [] => true | _ => false end.

Section Core.
Context (slave : list bus_event -> Z -> Z).

(** One byte goes out and one comes in; a full receive FIFO drops it. *)
Definition shift_byte (v : spi_view) (b : Z) (t : list Z) : spi_view :=
  let m := slave v.(v_bus) b in
  v <| v_tx := t |>
    <| v_rx := if (length v.(v_rx) <? FIFO_DEPTH)%nat then v.(v_rx) ++ [m] else v.(v_rx) |>
    <| v_txe := v.(v_txe) || is_nil t |>
    <| v_bus := v.(v_bus) ++ [Exchange b m] |>.

Inductive shifts : spi_view -> spi_view -> Prop :=
| shifts_refl v : shifts v v
| shifts_step v b t w :
    v_active v = true -> v.(v_tx) = b :: t -> shifts (shift_byte v b t) w -> shifts v w.

(** The effect of a register write on the core. *)
Definition write_cr (v : spi_view) (c : Z) : spi_view :=
  v <| v_cr := c .& 0x39f |>
    <| v_tx := if tst c XSP_CR_TXFIFO_RESET_MASK then [] else v.(v_tx) |>
    <| v_rx := if tst c XSP_CR_RXFIFO_RESET_MASK then [] else v.(v_rx) |>.
Definition write_dtr (v : spi_view) (x : Z) : spi_view :=
  if (length v.(v_tx) <? FIFO_DEPTH)%nat then v <| v_tx := v.(v_tx) ++ [u8 x] |> else v.
Definition write_ssr (v : spi_view) (x : Z) : spi_view :=
  v <| v_ssr := x |> <| v_bus := v.(v_bus) ++ [SlaveSelect x] |>.
Definition write_isr (v : spi_view) (x : Z) : spi_view :=
  v <| v_txe := xorb v.(v_txe) (tst x XSP_INTR_TX_EMPTY_MASK) |>.
Definition write_gie (v : spi_view) (x : Z) : spi_view :=
  v <| v_gie := tst x XSP_GINTR_ENABLE_MASK |>.
Definition soft_reset (v : spi_view) : spi_view :=
  mkView XSP_CR_RESET_STATE 0xFFFFFFFF [] [] false false (v.(v_bus) ++ [SlaveSelect 0xFFFFFFFF]).

(** The effect of reading the data register. *)
Definition pop_rx (v : spi_view) : spi_view :=
  match v.(v_rx) with [] => v | _ :: r => v <| v_rx := r |> end.

(** ** The laws *)

Class AxiSpi (D : Type) `{RegDevice D} (base : Z) := {
  view : D -> spi_view;
  (** a read lets time pass, and nothing else unless it is the data register *)
  read_quiet : forall d off, quiet_register off ->
    shifts (view d) (view (fst (reg_read d (base + off))));
  read_cr : forall d, let r := reg_read d (base + XSP_CR_OFFSET) in
    snd r = (view (fst r)).(v_cr);
  read_sr_tx_empty : forall d, let r := reg_read d (base + XSP_SR_OFFSET) in
    tst (snd r) XSP_SR_TX_EMPTY_MASK = is_nil (view (fst r)).(v_tx);
  read_sr_tx_full : forall d, let r := reg_read d (base + XSP_SR_OFFSET) in
    tst (snd r) XSP_SR_TX_FULL_MASK = (FIFO_DEPTH <=? length (view (fst r)).(v_tx))%nat;
  read_sr_rx_empty : forall d, let r := reg_read d (base + XSP_SR_OFFSET) in
    tst (snd r) XSP_SR_RX_EMPTY_MASK = is_nil (view (fst r)).(v_rx);
  read_isr : forall d, let r := reg_read d (base + XSP_IISR_OFFSET) in
    tst (snd r) XSP_INTR_TX_EMPTY_MASK = (view (fst r)).(v_txe);
  read_gie : forall d, let r := reg_read d (base + XSP_DGIER_OFFSET) in
    (snd r =? XSP_GINTR_ENABLE_MASK) = (view (fst r)).(v_gie);
  read_drr : forall d, let r := reg_read d (base + XSP_DRR_OFFSET) in
    exists w, shifts (view d) w /\ view (fst r) = pop_rx w /\
      forall b l, w.(v_rx) = b :: l -> snd r = b;
  (** a write takes effect after some time has passed *)
  write_cr_law : forall d c, exists w, shifts (view d) w /\
    view (reg_write d (base + XSP_CR_OFFSET) c) = write_cr w c;
  write_dtr_law : forall d x, exists w, shifts (view d) w /\
    view (reg_write d (base + XSP_DTR_OFFSET) x) = write_dtr w x;
  write_ssr_law : forall d x, exists w, shifts (view d) w /\
    view (reg_write d (base + XSP_SSR_OFFSET) x) = write_ssr w x;
  write_isr_law : forall d x, exists w, shifts (view d) w /\
    view (reg_write d (base + XSP_IISR_OFFSET) x) = write_isr w x;
  write_gie_law : forall d x, exists w, shifts (view d) w /\
    view (reg_write d (base + XSP_DGIER_OFFSET) x) = write_gie w x;
  write_ier_law : forall d x,
    shifts (view d) (view (reg_write d (base + XSP_IIER_OFFSET) x));
  write_srr_law : forall d, exists w, shifts (view d) w /\
    view (reg_write d (base + XSP_SRR_OFFSET) XSP_SRR_RESET_MASK) = soft_reset w }.

(** [k] reads of a register. *)
Definition polls {D} `{RegDevice D} (base off : Z) (k : nat) (d : D) : D :=
  Nat.iter k (fun d => fst (reg_read d (base + off))) d.

(** Liveness: an active core empties its transmit FIFO within [n] reads of
    the register at [off]. *)
Definition drains {D} `{RegDevice D} {base} `{!AxiSpi D base} (off : Z) (n : nat) : Prop :=
  forall d, v_active (view d) = true -> (length (v_tx (view d)) <= FIFO_DEPTH)%nat ->
    exists k, (k < n)%nat /\ (view (polls base off (S k) d)).(v_tx) = [].

(** ** A run of the bus *)

(** The slave's answers to a sequence of bytes, and the history after it. *)
Fixpoint answers (h : list bus_event) (bytes : list Z) : list Z :=
  match bytes with
  | [] => []
  | b :: l => slave h b :: answers (h ++ [Exchange b (slave h b)]) l
  end.

Fixpoint history (h : list bus_event) (bytes : list Z) : list bus_event :=
  match bytes with
  | [] => h
  | b :: l => history (h ++ [Exchange b (slave h b)]) l
  end.

Lemma answers_app l1 : forall h l2,
  answers h (l1 ++ l2) = answers h l1 ++ answers (history h l1) l2.
Proof. induction l1 as [|b l1 IH]; intros; cbn; [reflexivity|]. now rewrite IH. Qed.

Lemma history_app l1 : forall h l2, history h (l1 ++ l2) = history (history h l1) l2.
Proof. induction l1 as [|b l1 IH]; intros; cbn; [reflexivity|]. now rewrite IH. Qed.

Lemma length_answers l : forall h, length (answers h l) = length l.
Proof. induction l as [|b l IH]; intros; cbn; [reflexivity|]. now rewrite IH. Qed.

Lemma shifts_trans v w x : shifts v w -> shifts w x -> shifts v x.
Proof. induction 1; intros; [assumption|]. eapply shifts_step; eauto. Qed.

(** Nothing shifts when there is nothing to send or the master is stopped. *)
Lemma shifts_idle v w : shifts v w -> v.(v_tx) = [] \/ v_active v = false -> w = v.
Proof. destruct 1 as [|v b t w Ha Ht]; [reflexivity|]. rewrite Ha, Ht. intuition discriminate. Qed.

(** Registers other than the FIFOs do not change while shifting. *)
Lemma shifts_frame v w : shifts v w ->
  w.(v_cr) = v.(v_cr) /\ w.(v_ssr) = v.(v_ssr) /\ w.(v_gie) = v.(v_gie).
Proof. induction 1 as [|v b t w Ha Ht Hs IH]; [auto|]. exact IH. Qed.

Lemma shifts_active v w : shifts v w -> v_active w = v_active v.
Proof. intros H. unfold v_active. apply shifts_frame in H. now destruct H as [-> _]. Qed.

(** ** A burst: bytes written since the FIFOs were empty *)

(** Of the bytes [all] written since the history was [h], the first [k] have
    been exchanged, and nothing received has been taken yet. *)
Record burst (h : list bus_event) (all : list Z) (k : nat) (v : spi_view) : Prop := {
  burst_le : (k <= length all)%nat;
  burst_tx : v.(v_tx) = skipn k all;
  burst_rx : v.(v_rx) = answers h (firstn k all);
  burst_bus : v.(v_bus) = history h (firstn k all) }.

Lemma skipn_S {A} k : forall (l : list A) b t, skipn k l = b :: t -> skipn (S k) l = t.
Proof.
  induction k; intros [|a l] b t Hs; cbn in *; try discriminate; [congruence|].
  now apply IHk in Hs.
Qed.

Lemma firstn_S {A} k : forall (l : list A) b t,
  skipn k l = b :: t -> firstn (S k) l = firstn k l ++ [b].
Proof.
  induction k; intros [|a l] b t Hs; cbn [skipn firstn app] in *; try discriminate.
  - congruence.
  - f_equal. now apply IHk in Hs.
Qed.

Lemma burst_shift h all k v b t : (length all <= FIFO_DEPTH)%nat -> v.(v_tx) = b :: t ->
  burst h all k v -> burst h all (S k) (shift_byte v b t).
Proof.
  intros Hlen Ht [Hle Htx Hrx Hbus]. rewrite Ht in Htx. symmetry in Htx.
  pose proof (firstn_S _ _ _ _ Htx) as Hf.
  assert (Hk : (k < length all)%nat).
  { destruct (Nat.lt_ge_cases k (length all)) as [|Hge]; [assumption|].
    now rewrite skipn_all2 in Htx. }
  split; cbn [v_tx v_rx v_bus shift_byte with_field].
  - lia.
  - now rewrite (skipn_S _ _ _ _ Htx).
  - rewrite Hf, answers_app, Hrx, Hbus. cbn [answers].
    rewrite length_answers, length_firstn. unfold FIFO_DEPTH in *.
    replace (_ <? 16)%nat with true; [reflexivity|]. symmetry. apply Nat.ltb_lt. lia.
  - now rewrite Hf, history_app, Hbus.
Qed.

(** A burst progresses by shifting. *)
Lemma burst_shifts h all v w : (length all <= FIFO_DEPTH)%nat -> shifts v w ->
  forall k, burst h all k v -> exists k', (k <= k')%nat /\ burst h all k' w.
Proof.
  intros Hlen. induction 1 as [|v b t w Ha Ht Hs IH]; intros k Hb; [eauto|].
  destruct (IH (S k)) as (k' & ? & ?); [now apply burst_shift|].
  exists k'. split; [lia|assumption].
Qed.

Lemma burst_write h all k v x : (length all < FIFO_DEPTH)%nat ->
  burst h all k v -> burst h (all ++ [u8 x]) k (write_dtr v x).
Proof.
  intros Hlen [Hle Htx Hrx Hbus]. unfold write_dtr.
  assert (Hl : length (v_tx v) = (length all - k)%nat) by now rewrite Htx, length_skipn.
  replace (_ <? _)%nat with true by (symmetry; apply Nat.ltb_lt; lia).
  split; cbn [v_tx v_rx v_bus with_field].
  - rewrite length_app. cbn. lia.
  - now rewrite skipn_app, Htx, (proj2 (Nat.sub_0_le k (length all)) Hle).
  - rewrite firstn_app, (proj2 (Nat.sub_0_le k (length all)) Hle). cbn. now rewrite app_nil_r.
  - rewrite firstn_app, (proj2 (Nat.sub_0_le k (length all)) Hle). cbn. now rewrite app_nil_r.
Qed.

(** An empty transmit FIFO: every byte of the burst has been exchanged. *)
Lemma burst_done h all k v : burst h all k v -> v.(v_tx) = [] ->
  v.(v_rx) = answers h all /\ v.(v_bus) = history h all.
Proof.
  intros [Hle Htx Hrx Hbus] He. rewrite He in Htx. symmetry in Htx.
  assert (k = length all).
  { apply f_equal with (f := @length _) in Htx. rewrite length_skipn in Htx. cbn in Htx. lia. }
  subst k. now rewrite Hrx, Hbus, firstn_all.
Qed.
End Core.

Arguments view {slave D _ base _} d.
Arguments read_quiet {slave D _ base _}.
Arguments read_cr {slave D _ base _}.
Arguments read_sr_tx_empty {slave D _ base _}.
Arguments read_sr_tx_full {slave D _ base _}.
Arguments read_sr_rx_empty {slave D _ base _}.
Arguments read_isr {slave D _ base _}.
Arguments read_gie {slave D _ base _}.
Arguments read_drr {slave D _ base _}.
Arguments write_cr_law {slave D _ base _}.
Arguments write_dtr_law {slave D _ base _}.
Arguments write_ssr_law {slave D _ base _}.
Arguments write_isr_law {slave D _ base _}.
Arguments write_gie_law {slave D _ base _}.
Arguments write_ier_law {slave D _ base _}.
Arguments write_srr_law {slave D _ base _}.

(** ** A concrete core

    [soft_spi] exchanges one byte at every register access while it is
    active, unless it is built [stalled]. *)

Section Soft.
Context (slave : list bus_event -> Z -> Z) (base : Z) (stalled : bool).

Definition soft_spi := spi_view.

Definition tick (v : spi_view) : spi_view :=
  if v_active v && negb stalled then
    match v.(v_tx) with
    | [] => v
    | b :: t => shift_byte slave v b t
    end
  else v.

Definition soft_sr (v : spi_view) : Z :=
  (if is_nil v.(v_rx) then XSP_SR_RX_EMPTY_MASK else 0) .|
  (if is_nil v.(v_tx) then XSP_SR_TX_EMPTY_MASK else 0) .|
  (if (FIFO_DEPTH <=? length v.(v_tx))%nat then XSP_SR_TX_FULL_MASK else 0).

Definition soft_read (d : soft_spi) (a : Z) : soft_spi * Z :=
  let v := tick d in
  let off := a - base in
  if off =? XSP_DRR_OFFSET then (pop_rx v, hd 0 v.(v_rx))
  else if off =? XSP_CR_OFFSET then (v, v.(v_cr))
  else if off =? XSP_SR_OFFSET then (v, soft_sr v)
  else if off =? XSP_IISR_OFFSET then (v, if v.(v_txe) then XSP_INTR_TX_EMPTY_MASK else 0)
  else if off =? XSP_DGIER_OFFSET then (v, if v.(v_gie) then XSP_GINTR_ENABLE_MASK else 0)
  else if off =? XSP_SSR_OFFSET then (v, v.(v_ssr))
  else (v, 0).

Definition soft_write (d : soft_spi) (a x : Z) : soft_spi :=
  let v := tick d in
  let off := a - base in
  if off =? XSP_CR_OFFSET then write_cr v x
  else if off =? XSP_DTR_OFFSET then write_dtr v x
  else if off =? XSP_SSR_OFFSET then write_ssr v x
  else if off =? XSP_IISR_OFFSET then write_isr v x
  else if off =? XSP_DGIER_OFFSET then write_gie v x
  else if (off =? XSP_SRR_OFFSET) && (x =? XSP_SRR_RESET_MASK) then soft_reset v
  else v.

#[export] Instance soft_regs : RegDevice soft_spi := { reg_read := soft_read; reg_write := soft_write }.

Lemma tick_shifts v : shifts slave v (tick v).
Proof.
  unfold tick. destruct (v_active v) eqn:Ha; [|constructor]. destruct stalled; [constructor|].
  cbn [andb negb].
  destruct (v_tx v) as [|b t] eqn:Ht; [constructor|].
  eapply shifts_step; eauto. constructor.
Qed.

Lemma base_off off : base + off - base = off.
Proof. lia. Qed.

Lemma soft_sr_bits v :
  tst (soft_sr v) XSP_SR_TX_EMPTY_MASK = is_nil v.(v_tx) /\
  tst (soft_sr v) XSP_SR_TX_FULL_MASK = (FIFO_DEPTH <=? length v.(v_tx))%nat /\
  tst (soft_sr v) XSP_SR_RX_EMPTY_MASK = is_nil v.(v_rx).
Proof.
  unfold soft_sr. destruct (is_nil _), (is_nil _), (_ <=? _)%nat; repeat split.
Qed.

(** Unfold one access of the soft core at a known offset. *)
Ltac soft_access :=
  repeat match goal with r := _ |- _ => subst r end;
  cbn [reg_read reg_write soft_regs]; unfold soft_read, soft_write; rewrite base_off;
  repeat match goal with
  | |- context [?a =? ?b] =>
      lazymatch eval vm_compute in (a =? b) with
      | true => change (a =? b) with true
      | false => change (a =? b) with false
      end
  end; cbv beta iota zeta delta [andb]; cbn [fst snd].

#[export] Instance soft_laws : AxiSpi slave soft_spi base.
Proof.
  refine {| view := fun d => d |}; intros.
  - unfold quiet_register in *. cbn [In] in *.
    repeat match goal with H : _ \/ _ |- _ => destruct H as [<- | H] end;
      [.. | contradiction]; soft_access; apply tick_shifts.
  - soft_access. reflexivity.
  - soft_access. apply soft_sr_bits.
  - soft_access. apply soft_sr_bits.
  - soft_access. apply soft_sr_bits.
  - soft_access. now destruct (v_txe (tick d)).
  - soft_access. now destruct (v_gie (tick d)).
  - soft_access. exists (tick d). split; [apply tick_shifts|]. split; [reflexivity|].
    intros b l. cbn. now intros ->.
  - exists (tick d). split; [apply tick_shifts|]. soft_access. reflexivity.
  - exists (tick d). split; [apply tick_shifts|]. soft_access. reflexivity.
  - exists (tick d). split; [apply tick_shifts|]. soft_access. reflexivity.
  - exists (tick d). split; [apply tick_shifts|]. soft_access. reflexivity.
  - exists (tick d). split; [apply tick_shifts|]. soft_access. reflexivity.
  - soft_access. apply tick_shifts.
  - exists (tick d). split; [apply tick_shifts|]. soft_access. reflexivity.
Defined.

Lemma tick_length v : stalled = false -> v_active v = true ->
  length (v_tx (tick v)) = pred (length (v_tx v)) /\ v_active (tick v) = true.
Proof.
  intros Hst Ha. unfold tick. rewrite Ha, Hst. cbn [andb negb]. destruct (v_tx v) as [|b t] eqn:Ht.
  - now rewrite Ht.
  - auto.
Qed.

Lemma soft_read_quiet d off : quiet_register off ->
  fst (reg_read d (base + off)) = tick d.
Proof.
  unfold quiet_register. cbn [In]. intros Hq.
  repeat match goal with H : _ \/ _ |- _ => destruct H as [<- | H] end;
    [.. | contradiction]; soft_access; reflexivity.
Qed.

(** A stalled core keeps what is in its transmit FIFO. *)
Lemma stalled_tick v : stalled = true -> tick v = v.
Proof. intros Hst. unfold tick. rewrite Hst. cbn [negb]. now rewrite andb_false_r. Qed.

(** The soft core empties its transmit FIFO in as many accesses as it holds
    bytes. *)
Lemma soft_drains off n : stalled = false -> quiet_register off -> (FIFO_DEPTH < n)%nat ->
  @drains slave soft_spi soft_regs base soft_laws off n.
Proof.
  intros Hst Hq Hn d Ha Hl.
  assert (Hpoll : forall k, length (v_tx (polls base off k d)) = (length (v_tx d) - k)%nat /\
                            v_active (polls base off k d) = true).
  { induction k as [|k [IH1 IH2]]; [split; [cbn; lia|assumption]|].
    change (polls base off (S k) d) with (fst (reg_read (polls base off k d) (base + off))).
    rewrite soft_read_quiet by assumption.
    destruct (tick_length _ Hst IH2) as [-> ?]. split; [lia|assumption]. }
  exists FIFO_DEPTH. split; [assumption|].
  apply length_zero_iff_nil. destruct (Hpoll (S FIFO_DEPTH)) as [Hz _].
  cbn [view soft_laws] in *. lia.
Qed.
End Soft.
