(* ===== verification/Spi.v ===== *)
(** * The flash transport (spi.c)

    [init_spi], [send_spi] and [dump_spi] over the XSpi driver's register
    macros.  For every core that obeys the laws of [AxiSpi] the theorems show
    that [send_spi] exchanges exactly the bytes of its source buffer, frames
    them with the slave select, leaves the transaction open exactly when asked
    to, and that it returns for any device at all. *)

From Stdlib Require Import ZArith List Lia Bool.
From S2P Require Import Prelude XSpi SpiCore.
Import ListNotations Regs.
Open Scope Z_scope.
Open Scope c_scope.

Definition SEND_SPI_MORE := 0x01.

Section Spi.
Context {D : Type} `{RegDevice D}.
Abbreviation SM := (M (spi_state D)).

(** spi.c replaces the macro of xspi.h by a plain write. *)
Definition spi_IntrClear (ClearMask : Z) : SM unit := set_reg XSP_IISR_OFFSET ClearMask.
Definition XSpi_GetTFOcyReg : SM Z := get_reg XSP_TFO_OFFSET.
Definition XSpi_GetRFOcyReg : SM Z := get_reg XSP_RFO_OFFSET.

(** [init_spi]; without a configuration [cfg_ptr->BaseAddress] would read
    through NULL. *)
Definition init_spi : SM unit :=
  match XSpi_LookupConfig 0 with
  | None => halt
  | Some cfg =>
      XSpi_CfgInitialize cfg cfg.(BaseAddress) ;;
      XSpi_SetOptions (XSP_MASTER_OPTION .| XSP_MANUAL_SSELECT_OPTION) ;;
      spi_IntrClear XSP_INTR_SLAVE_MODE_ERR_MASK ;;
      XSpi_Disable ;;
      do c <- XSpi_GetControlReg;
      XSpi_SetControlReg (c .| XSP_CR_TXFIFO_RESET_MASK .| XSP_CR_RXFIFO_RESET_MASK) ;;
      XSpi_IntrGlobalDisable
  end.

(** The eight register values [dump_spi] prints. *)
Definition dump_spi : SM (list Z) :=
  do cr <- XSpi_GetControlReg;
  do sr <- XSpi_GetStatusReg;
  do ssr <- XSpi_GetSlaveSelectReg;
  do tfo <- XSpi_GetTFOcyReg;
  do rfo <- XSpi_GetRFOcyReg;
  do gie <- XSpi_IsIntrGlobalEnabled;
  do isr <- XSpi_IntrGetStatus;
  do ier <- XSpi_IntrGetEnabled;
  ret [cr; sr; ssr; tfo; rfo; (if negb (gie =? 0) then XSP_GINTR_ENABLE_MASK else 0); isr; ier].

(** Write [n] bytes from [src] to the transmit FIFO. *)
Fixpoint write_tx (n : nat) (src : Z) : SM unit :=
  match n with
  | O => ret tt
  | S k =>
      do m <- gets mem;
      set_reg XSP_DTR_OFFSET (m src) ;;
      write_tx k (src + 1)
  end.

(** Read the status register up to [n] times until TX_EMPTY is set. *)
Fixpoint poll_tx_empty (n : nat) : SM bool :=
  match n with
  | O => ret false
  | S k =>
      do sr <- XSpi_GetStatusReg;
      if tst sr XSP_SR_TX_EMPTY_MASK then ret true else poll_tx_empty k
  end.

(** Read [n] bytes into [dst]; the result is whether no underflow occurred and
    [bytes_remaining]. *)
Fixpoint read_rx (n : nat) (dst bytes_remaining : Z) : SM (bool * Z) :=
  match n with
  | O => ret (true, bytes_remaining)
  | S k =>
      do sr <- XSpi_GetStatusReg;
      if tst sr XSP_SR_RX_EMPTY_MASK then ret (false, bytes_remaining) else
      do v <- get_reg XSP_DRR_OFFSET;
      modify (fun s => s <| mem := store8 s.(mem) dst (v .& 0xff) |>) ;;
      read_rx k (dst + 1) (bytes_remaining - 1)
  end.

Definition chunk (bytes_remaining : Z) : Z := if bytes_remaining <? 16 then bytes_remaining else 16.

(** The [while(bytes_remaining > 0)] loop. *)
Fixpoint send_chunks (fuel : nat) (src dst bytes_remaining : Z) : SM (bool * Z) :=
  if negb (0 <? bytes_remaining) then ret (true, bytes_remaining) else
  match fuel with
  | O => hang
  | S n =>
      let bytes_to_xfer := chunk bytes_remaining in
      write_tx (Z.to_nat bytes_to_xfer) src ;;
      do empty <- poll_tx_empty 1000;
      if negb empty then
        dump_spi ;;
        ret (false, bytes_remaining)
      else
        do r <- read_rx (Z.to_nat bytes_to_xfer) dst bytes_remaining;
        let '(ok, bytes_remaining) := r in
        if negb ok then ret (false, bytes_remaining)
        else send_chunks n (src + bytes_to_xfer) (dst + bytes_to_xfer) bytes_remaining
  end.

(** Start a transaction unless one is open. *)
Definition begin_transaction : SM unit :=
  do c <- XSpi_GetControlReg;
  let control_reg := u16 c in
  if negb (tst control_reg XSP_CR_ENABLE_MASK) then
    XSpi_SetControlReg (control_reg .| (XSP_CR_TXFIFO_RESET_MASK .| XSP_CR_RXFIFO_RESET_MASK)) ;;
    XSpi_Enable ;;
    XSpi_SetSlaveSelectReg (u32 (Z.lnot 1))
  else ret tt.

Definition end_transaction : SM unit :=
  XSpi_SetSlaveSelectReg (u32 (Z.lnot 0)) ;;
  XSpi_Disable.

(** The number of chunks is at most [len]. *)
Definition send_spi (src dst len opt : Z) : SM Z :=
  begin_transaction ;;
  do r <- send_chunks (Z.to_nat len) src dst len;
  let '(ok, bytes_remaining) := r in
  if negb ok then ret (u32 (len - bytes_remaining)) else
  (when negb (tst opt SEND_SPI_MORE) then end_transaction) ;;
  ret len.
End Spi.

(** ** Buffers *)

Fixpoint load_bytes (m : Z -> Z) (p : Z) (n : nat) : list Z :=
  match n with O => [] | S k => m p :: load_bytes m (p + 1) k end.

Fixpoint store_bytes (m : Z -> Z) (p : Z) (l : list Z) : Z -> Z :=
  match l with [] => m | v :: t => store_bytes (store8 m p v) (p + 1) t end.

Lemma length_load_bytes n : forall m p, length (load_bytes m p n) = n.
Proof. induction n; cbn; intros; [reflexivity|]. now rewrite IHn. Qed.

Lemma load_bytes_nth n : forall m p i, (i < n)%nat -> nth i (load_bytes m p n) 0 = m (p + Z.of_nat i).
Proof.
  induction n as [|n IH]; intros m p i Hi; [lia|]. destruct i as [|i]; cbn [load_bytes nth]; [f_equal; lia|].
  rewrite IH by lia. f_equal. lia.
Qed.

Lemma load_bytes_app n1 : forall m p n2,
  load_bytes m p (n1 + n2) = load_bytes m p n1 ++ load_bytes m (p + Z.of_nat n1) n2.
Proof.
  induction n1; intros; cbn [load_bytes app Nat.add]; [now rewrite Z.add_0_r|].
  rewrite IHn1. do 3 f_equal. lia.
Qed.

Lemma load_bytes_ext n : forall m m' p,
  (forall a, p <= a < p + Z.of_nat n -> m a = m' a) -> load_bytes m p n = load_bytes m' p n.
Proof.
  induction n; intros m m' p Ha; cbn [load_bytes]; [reflexivity|].
  rewrite Ha by lia. f_equal. apply IHn. intros. apply Ha. lia.
Qed.

Lemma store_bytes_app l1 : forall m p l2,
  store_bytes m p (l1 ++ l2) = store_bytes (store_bytes m p l1) (p + Z.of_nat (length l1)) l2.
Proof.
  induction l1; intros; cbn [store_bytes app length]; [now rewrite Z.add_0_r|].
  rewrite IHl1. f_equal. lia.
Qed.

Lemma store_bytes_outside l : forall m p a,
  a < p \/ p + Z.of_nat (length l) <= a -> store_bytes m p l a = m a.
Proof.
  induction l as [|v t IH]; intros m p a Ha; cbn [store_bytes length] in *; [reflexivity|].
  rewrite IH by lia. unfold store8. now destruct (Z.eqb_spec a p); [lia|].
Qed.

Lemma load_store_bytes l : forall m p,
  load_bytes (store_bytes m p l) p (length l) = map u8 l.
Proof.
  induction l as [|v t IH]; intros; cbn [load_bytes store_bytes length map]; [reflexivity|].
  rewrite IH, store_bytes_outside by lia. unfold store8. now rewrite Z.eqb_refl.
Qed.

(** ** Every device: termination *)

Section AnyDevice.
Context {D : Type} `{RegDevice D}.

(** Code that always returns, whatever the device answers. *)
Definition returns {A} (m : M (spi_state D) A) (Q : A -> Prop) : Prop :=
  triple (fun _ => True) m (fun a _ => Q a).

Lemma returns_bind {A B} (m : M (spi_state D) A) (k : A -> M (spi_state D) B) Q R :
  returns m Q -> (forall a, Q a -> returns (k a) R) -> returns (bind m k) R.
Proof.
  intros Hm Hk. eapply triple_bind; [exact Hm|]. intros a s Ha.
  exact (Hk a Ha s I).
Qed.

Lemma returns_ret {A} (a : A) (Q : A -> Prop) : Q a -> returns (ret a) Q.
Proof. intros. now apply triple_ret. Qed.

Lemma returns_get_reg off : returns (get_reg off) (fun _ => True).
Proof.
  intros s _. unfold get_reg, bind, field, gets, XSpi_ReadReg.
  destruct (reg_read _ _) as [d v]. eauto.
Qed.
Lemma returns_set_reg off v : returns (set_reg off v) (fun _ => True).
Proof. intros s _. do 2 eexists. split; [reflexivity|exact I]. Qed.
Lemma returns_gets {A} (f : spi_state D -> A) : returns (gets f) (fun _ => True).
Proof. now apply triple_gets. Qed.
Lemma returns_modify f : returns (modify f) (fun _ => True).
Proof. now apply triple_modify. Qed.

(** Step through a sequence of register accesses. *)
Ltac returns_step :=
  first
  [ apply returns_ret
  | eapply returns_bind; [first [apply returns_get_reg | apply returns_set_reg
                                | apply returns_gets | apply returns_modify] | intros ? _]
  | apply returns_set_reg ].

Lemma write_tx_returns n : forall src, returns (write_tx n src) (fun _ => True).
Proof. induction n; intros; cbn [write_tx]; repeat returns_step; auto. Qed.

Lemma poll_returns n : returns (poll_tx_empty n) (fun _ => True).
Proof.
  induction n; cbn [poll_tx_empty]; [now returns_step|].
  unfold XSpi_GetStatusReg. returns_step. destruct (tst _ _); [now returns_step|assumption].
Qed.

Lemma dump_returns : returns dump_spi (fun _ => True).
Proof.
  unfold dump_spi, XSpi_GetControlReg, XSpi_GetStatusReg, XSpi_GetSlaveSelectReg,
    XSpi_GetTFOcyReg, XSpi_GetRFOcyReg, XSpi_IntrGetStatus, XSpi_IntrGetEnabled.
  do 5 returns_step. eapply (returns_bind _ _ (fun _ => True)); [|intros ? _; repeat returns_step; auto].
  unfold XSpi_IsIntrGlobalEnabled. repeat returns_step. exact I.
Qed.

Lemma read_rx_returns n : forall dst r,
  returns (read_rx n dst r)
    (fun '(ok, r') => r - Z.of_nat n <= r' <= r /\
                      if ok then r' = r - Z.of_nat n else r - Z.of_nat n < r').
Proof.
  induction n; intros; cbn [read_rx]; unfold XSpi_GetStatusReg; returns_step; [split; lia|].
  destruct (tst _ _); [returns_step; split; lia|].
  do 2 returns_step. eapply triple_conseq; [apply IHn|auto|].
  intros [[] r'] _; cbn beta iota; lia.
Qed.

Lemma send_chunks_returns fuel : forall src dst r, (Z.to_nat r <= fuel)%nat -> 0 <= r ->
  returns (send_chunks fuel src dst r)
    (fun '(ok, r') => 0 <= r' <= r /\ if ok then r' = 0 else 0 < r').
Proof.
  induction fuel as [|n IH]; intros src dst r Hf Hr; cbn [send_chunks];
    destruct (Z.ltb_spec 0 r); cbn [negb]; try (returns_step; lia); [lia|].
  eapply returns_bind; [apply write_tx_returns|intros _ _].
  eapply returns_bind; [apply poll_returns|intros [] _]; cbn [negb].
  - eapply returns_bind; [apply read_rx_returns|]. intros [ok r'] [Hr' Hok].
    assert (Hc : 1 <= chunk r <= r) by (unfold chunk; destruct (Z.ltb_spec r 16); lia).
    destruct ok; cbn [negb].
    + eapply triple_conseq; [apply IH; lia|auto|].
      intros [[] r2] _; cbn beta iota; lia.
    + returns_step. lia.
  - eapply returns_bind; [apply dump_returns|intros ? _]. returns_step. lia.
Qed.

Lemma get_reg_eq off (s : spi_state D) : get_reg off s =
  Ok (snd (reg_read s.(dev) (s.(inst).(BaseAddr) + off)),
      s <| dev := fst (reg_read s.(dev) (s.(inst).(BaseAddr) + off)) |>).
Proof.
  unfold get_reg, bind, field, gets, XSpi_ReadReg. now destruct (reg_read _ _).
Qed.

Lemma set_reg_eq off v (s : spi_state D) : set_reg off v s =
  Ok (tt, s <| dev := reg_write s.(dev) (s.(inst).(BaseAddr) + off) v |>).
Proof. reflexivity. Qed.
End AnyDevice.

(** ** Cores that obey the laws *)

Section Axi.
Context (slave : list bus_event -> Z -> Z) {D : Type} `{RegDevice D} {base : Z}
  `{!AxiSpi slave D base}.
Implicit Types (s : spi_state D) (x : XSpi) (m : Z -> Z).

(** The FIFOs hold a burst of the bytes [all]. *)
Definition bursting x m c h all s : Prop :=
  s.(inst) = x /\ s.(mem) = m /\ (view s.(dev)).(v_cr) = c /\
  exists k, burst slave h all k (view s.(dev)).

(** Nothing is left to send; [rx] has been received and not taken. *)
Definition settled x m c h rx s : Prop :=
  s.(inst) = x /\ s.(mem) = m /\ (view s.(dev)).(v_cr) = c /\
  (view s.(dev)).(v_tx) = [] /\ (view s.(dev)).(v_rx) = rx /\ (view s.(dev)).(v_bus) = h.

Definition active_cr (c : Z) : Prop :=
  tst c XSP_CR_ENABLE_MASK = true /\ tst c XSP_CR_MASTER_MODE_MASK = true /\
  tst c XSP_CR_TRANS_INHIBIT_MASK = false.

Lemma active_view c v : v.(v_cr) = c -> active_cr c -> v_active v = true.
Proof. intros <- (H1 & H2 & H3). unfold v_active. now rewrite H1, H2, H3. Qed.

Lemma settled_bursting x m c h s : settled x m c h [] s -> bursting x m c h [] s.
Proof.
  intros (? & ? & ? & Htx & Hrx & Hbus). do 3 (split; [assumption|]).
  exists O. split; cbn; auto.
Qed.

(** Time passing keeps a burst a burst and a settled core as it is. *)
Lemma bursting_shifts x m c h all s d : (length all <= FIFO_DEPTH)%nat ->
  bursting x m c h all s -> shifts slave (view s.(dev)) (view d) ->
  bursting x m c h all (s <| dev := d |>).
Proof.
  intros Hl (? & ? & Hc & k & Hb) Hs. do 2 (split; [assumption|]). split.
  - apply shifts_frame in Hs. destruct Hs as [Hs _]. cbn. now rewrite Hs.
  - destruct (burst_shifts _ _ _ _ _ Hl Hs k Hb) as (k' & _ & ?). now exists k'.
Qed.

Lemma settled_shifts x m c h rx s d :
  settled x m c h rx s -> shifts slave (view s.(dev)) (view d) -> view d = view s.(dev).
Proof. intros (_ & _ & _ & Htx & _) Hs. apply (shifts_idle _ _ _ Hs). auto. Qed.

Context (x : XSpi) (Hbase : x.(BaseAddr) = base).

Lemma write_tx_triple m c h n : forall src all, (length all + n <= FIFO_DEPTH)%nat ->
  triple (bursting x m c h all) (write_tx n src)
    (fun _ => bursting x m c h (all ++ map u8 (load_bytes m src n))).
Proof.
  induction n as [|n IH]; intros src all Hl; cbn [write_tx load_bytes map].
  - apply triple_ret. now rewrite app_nil_r.
  - eapply triple_bind with (Q := fun m' s => m' = m /\ bursting x m c h all s).
    { apply triple_gets. intros s Hs. split; [apply Hs|assumption]. }
    intros m'. apply triple_assume. intros ->.
    eapply triple_bind with (Q := fun _ => bursting x m c h (all ++ [u8 (m src)])).
    + intros s (Hi & Hm & Hc & k & Hb). rewrite set_reg_eq, Hi, Hbase.
      do 2 eexists. split; [reflexivity|].
      destruct (write_dtr_law s.(dev) (m src)) as (w & Hs & Hv).
      do 2 (split; [assumption|]). cbn [dev with_field]. rewrite Hv.
      split.
      * apply shifts_frame in Hs. destruct Hs as [Hs _].
        unfold write_dtr. destruct (_ <? _)%nat; cbn; now rewrite Hs.
      * destruct (burst_shifts slave h all _ w ltac:(lia) Hs k Hb) as (k' & _ & Hb').
        exists k'. apply burst_write; [lia|assumption].
    + intros []. eapply triple_conseq; [apply (IH _ (all ++ [u8 (m src)]))|auto|].
      * rewrite length_app. cbn. lia.
      * intros ? s. now rewrite <- app_assoc.
Qed.

(** One read of a register without side effects. *)
Lemma get_quiet_bursting m c h all off s : quiet_register off -> (length all <= FIFO_DEPTH)%nat ->
  bursting x m c h all s ->
  let r := reg_read s.(dev) (base + off) in
  get_reg off s = Ok (snd r, s <| dev := fst r |>) /\
  bursting x m c h all (s <| dev := fst r |>).
Proof.
  intros Hq Hl Hs r. split.
  - rewrite get_reg_eq. destruct Hs as [-> _]. now rewrite Hbase.
  - apply bursting_shifts; [assumption|assumption|]. now apply read_quiet.
Qed.

Lemma SR_quiet : quiet_register XSP_SR_OFFSET.
Proof. cbv. tauto. Qed.

(** The polling loop ends as soon as the transmit FIFO is empty. *)
Lemma poll_empties m c h all n : (length all <= FIFO_DEPTH)%nat ->
  forall s k, bursting x m c h all s -> (k < n)%nat ->
  (view (polls base XSP_SR_OFFSET (S k) s.(dev))).(v_tx) = [] ->
  exists s', poll_tx_empty n s = Ok (true, s') /\
    settled x m c (history slave h all) (answers slave h all) s'.
Proof.
  intros Hl. induction n as [|n IH]; intros s k Hs Hk He; [lia|].
  cbn [poll_tx_empty]. unfold XSpi_GetStatusReg.
  destruct (get_quiet_bursting m c h all _ s SR_quiet Hl Hs) as [E Hs'].
  rewrite (bind_ok _ _ _ _ _ E), read_sr_tx_empty. clear E.
  set (d := fst (reg_read (dev s) (base + XSP_SR_OFFSET))) in *.
  destruct (v_tx (view d)) as [|b t] eqn:Ht; cbn [is_nil].
  - eexists. split; [reflexivity|].
    destruct Hs' as (Hi & Hm & Hc & j & Hb).
    destruct (burst_done _ _ _ _ _ Hb Ht) as [Hrx Hbus]. repeat split; assumption.
  - destruct k as [|k]; [cbn in He; fold d in He; congruence|].
    apply (IH _ k Hs'); [lia|]. cbn [dev with_field].
    unfold polls in *. now rewrite Nat.iter_succ_r in He.
Qed.

(** Taking the received bytes. *)
Lemma read_rx_settled c h l : forall m dst r rest s, settled x m c h (l ++ rest) s ->
  exists s', read_rx (length l) dst r s = Ok ((true, r - Z.of_nat (length l)), s') /\
    settled x (store_bytes m dst (map (fun v => v .& 0xff) l)) c h rest s'.
Proof.
  induction l as [|b l IH]; intros m dst r rest s Hs; cbn [read_rx length].
  - exists s. cbn. now rewrite Z.sub_0_r.
  - unfold XSpi_GetStatusReg. destruct Hs as (Hi & Hm & Hc & Htx & Hrx & Hbus).
    assert (Hs : settled x m c h ((b :: l) ++ rest) s) by (repeat split; assumption).
    rewrite (bind_ok _ _ _ _ _ (get_reg_eq _ _)), Hi, Hbase, read_sr_rx_empty.
    set (d := fst (reg_read (dev s) (base + XSP_SR_OFFSET))).
    assert (Hd : view d = view s.(dev)).
    { eapply settled_shifts; [exact Hs|]. now apply read_quiet, SR_quiet. }
    rewrite Hd, Hrx. cbn [is_nil app].
    rewrite (bind_ok _ _ _ _ _ (get_reg_eq _ _)). cbn [inst dev with_field]. rewrite Hi, Hbase.
    destruct (read_drr d) as (w & Hw & Hpop & Hval).
    assert (Hwd : w = view d) by (apply (shifts_idle _ _ _ Hw); left; now rewrite Hd).
    subst w. rewrite Hd in *. rewrite (Hval b (l ++ rest) Hrx).
    unfold bind at 1, modify. cbn [dev mem inst with_field].
    match goal with |- context [read_rx _ _ _ ?st] => set (s1 := st) end.
    destruct (IH (store8 m dst (b .& 0xff)) (dst + 1) (r - 1) rest s1) as (s' & E & Hs').
    + unfold s1, settled. cbn [dev mem inst with_field]. rewrite Hpop, Hm.
      unfold pop_rx. rewrite Hrx. repeat split; assumption.
    + exists s'. cbn [map store_bytes]. split; [|assumption].
      rewrite E. do 3 f_equal. lia.
Qed.

(** *** Accesses to a core that is not shifting *)

Definition idle (v : spi_view) : Prop := v.(v_tx) = [] \/ v_active v = false.

Lemma idle_get_cr s : s.(inst) = x -> idle (view s.(dev)) ->
  exists d, XSpi_GetControlReg s = Ok ((view s.(dev)).(v_cr), s <| dev := d |>) /\
            view d = view s.(dev).
Proof.
  intros Hi Hidle. unfold XSpi_GetControlReg. rewrite get_reg_eq, Hi, Hbase, read_cr.
  set (d := fst _). exists d.
  assert (Hd : view d = view (dev s)).
  { eapply shifts_idle; [|exact Hidle]. apply read_quiet. cbv. tauto. }
  now rewrite Hd.
Qed.

Lemma idle_set_cr s c : s.(inst) = x -> idle (view s.(dev)) ->
  exists d, XSpi_SetControlReg c s = Ok (tt, s <| dev := d |>) /\
            view d = write_cr (view s.(dev)) c.
Proof.
  intros Hi Hidle. unfold XSpi_SetControlReg. rewrite set_reg_eq, Hi, Hbase.
  eexists. split; [reflexivity|]. destruct (write_cr_law s.(dev) c) as (w & Hw & ->).
  now rewrite (shifts_idle _ _ _ Hw Hidle).
Qed.

Lemma idle_set_ssr s v : s.(inst) = x -> idle (view s.(dev)) ->
  exists d, XSpi_SetSlaveSelectReg v s = Ok (tt, s <| dev := d |>) /\
            view d = write_ssr (view s.(dev)) v.
Proof.
  intros Hi Hidle. unfold XSpi_SetSlaveSelectReg. rewrite set_reg_eq, Hi, Hbase.
  eexists. split; [reflexivity|]. destruct (write_ssr_law s.(dev) v) as (w & Hw & ->).
  now rewrite (shifts_idle _ _ _ Hw Hidle).
Qed.

(** Run the next access of an idle core. *)
Ltac idle_step lem d Hd :=
  match goal with
  | |- context [bind _ _ ?s] =>
      edestruct (lem s) as (d & E & Hd); [cbn; assumption | | rewrite (bind_ok _ _ _ _ _ E); clear E];
      cbn [dev inst mem with_field] in *
  end.

Lemma idle_enable s : s.(inst) = x -> idle (view s.(dev)) ->
  exists d, XSpi_Enable s = Ok (tt, s <| dev := d |>) /\
            view d = write_cr (view s.(dev))
                       (clr (u16 (view s.(dev)).(v_cr) .| XSP_CR_ENABLE_MASK) XSP_CR_TRANS_INHIBIT_MASK).
Proof.
  intros Hi Hidle. unfold XSpi_Enable. idle_step idle_get_cr d Hd; [assumption|].
  edestruct (idle_set_cr (s <| dev := d |>)) as (d' & E & Hd'); [assumption| |].
  - cbn [dev with_field]. now rewrite Hd.
  - exists d'. rewrite E. split; [reflexivity|]. rewrite Hd'. cbn [dev with_field]. now rewrite Hd.
Qed.

Lemma idle_disable s : s.(inst) = x -> idle (view s.(dev)) ->
  exists d, XSpi_Disable s = Ok (tt, s <| dev := d |>) /\
            view d = write_cr (view s.(dev)) (clr (view s.(dev)).(v_cr) XSP_CR_ENABLE_MASK).
Proof.
  intros Hi Hidle. unfold XSpi_Disable. idle_step idle_get_cr d Hd; [assumption|].
  edestruct (idle_set_cr (s <| dev := d |>)) as (d' & E & Hd'); [assumption| |].
  - cbn [dev with_field]. now rewrite Hd.
  - exists d'. rewrite E. split; [reflexivity|]. rewrite Hd'. cbn [dev with_field]. now rewrite Hd.
Qed.

(** *** Opening and closing a transaction *)

(** Ready for [send_spi]: a master, and if a transaction is open, its FIFOs
    are empty. *)
Definition spi_ready s : Prop :=
  let v := view s.(dev) in
  tst v.(v_cr) XSP_CR_MASTER_MODE_MASK = true /\
  (tst v.(v_cr) XSP_CR_ENABLE_MASK = true ->
   tst v.(v_cr) XSP_CR_TRANS_INHIBIT_MASK = false /\ v.(v_tx) = [] /\ v.(v_rx) = []).

(** The bus history when the first byte goes out. *)
Definition opened s : list bus_event :=
  let v := view s.(dev) in
  if tst v.(v_cr) XSP_CR_ENABLE_MASK then v.(v_bus) else v.(v_bus) ++ [SlaveSelect 0xFFFFFFFE].

Lemma enabled_cr_active c : tst c XSP_CR_MASTER_MODE_MASK = true ->
  active_cr (clr (u16 ((u16 c .| (XSP_CR_TXFIFO_RESET_MASK .| XSP_CR_RXFIFO_RESET_MASK)) .& 0x39f)
                  .| XSP_CR_ENABLE_MASK) XSP_CR_TRANS_INHIBIT_MASK .& 0x39f).
Proof.
  change XSP_CR_MASTER_MODE_MASK with (2 ^ 2). intros Hm. unfold active_cr.
  change (XSP_CR_TXFIFO_RESET_MASK .| XSP_CR_RXFIFO_RESET_MASK) with 0x60.
  change XSP_CR_MASTER_MODE_MASK with (2 ^ 2). change (tst ?a XSP_CR_ENABLE_MASK) with (tst a (2 ^ 1)).
  change (tst ?a XSP_CR_TRANS_INHIBIT_MASK) with (tst a (2 ^ 8)).
  rewrite !tst_land, !tst_clr, !tst_lor, !tst_u16, !tst_land, !tst_lor, !tst_u16, Hm by lia.
  cbn. now rewrite !andb_true_r, !orb_true_r, ?andb_false_r.
Qed.

Lemma write_cr_reset v c : write_cr v (u16 c .| (XSP_CR_TXFIFO_RESET_MASK .| XSP_CR_RXFIFO_RESET_MASK)) =
  v <| v_cr := (u16 c .| (XSP_CR_TXFIFO_RESET_MASK .| XSP_CR_RXFIFO_RESET_MASK)) .& 0x39f |>
    <| v_tx := [] |> <| v_rx := [] |>.
Proof.
  unfold write_cr. change XSP_CR_TXFIFO_RESET_MASK with (2 ^ 5).
  change XSP_CR_RXFIFO_RESET_MASK with (2 ^ 6). rewrite !tst_lor by lia.
  cbn -[Z.land Z.lor Z.pow]. now rewrite !orb_true_r.
Qed.

Lemma write_cr_tx v c : v.(v_tx) = [] -> (write_cr v c).(v_tx) = [].
Proof. unfold write_cr. cbn. intros ->. now destruct (tst _ _). Qed.
Lemma write_cr_rx v c : v.(v_rx) = [] -> (write_cr v c).(v_rx) = [].
Proof. unfold write_cr. cbn. intros ->. now destruct (tst _ _). Qed.

Lemma begin_settled s : s.(inst) = x -> spi_ready s ->
  exists s' c, begin_transaction s = Ok (tt, s') /\ active_cr c /\
    settled x s.(mem) c (opened s) [] s'.
Proof.
  intros Hi [Hm Hopen]. unfold begin_transaction, opened.
  assert (Hu16 : forall c, tst (u16 c) XSP_CR_ENABLE_MASK = tst c XSP_CR_ENABLE_MASK)
    by (intros; now apply (tst_u16 _ 1)).
  destruct (tst (v_cr (view (dev s))) XSP_CR_ENABLE_MASK) eqn:He.
  - destruct (Hopen eq_refl) as (Hinh & Htx & Hrx).
    idle_step idle_get_cr d Hd; [now left|]. rewrite Hu16, He. cbn [negb].
    do 2 eexists. split; [reflexivity|]. split; [split; [|split]; eassumption|].
    unfold settled. cbn [dev inst mem with_field]. rewrite Hd. repeat split; assumption.
  - assert (Hidle : idle (view (dev s))) by (right; unfold v_active; now rewrite He).
    idle_step idle_get_cr d Hd; [assumption|]. rewrite Hu16, He. cbn [negb].
    idle_step idle_set_cr d1 Hd1; [now rewrite Hd|].
    rewrite write_cr_reset, Hd in Hd1.
    idle_step idle_enable d2 Hd2; [left; now rewrite Hd1|].
    edestruct (idle_set_ssr (s <| dev := d2 |>)) as (d3 & E & Hd3);
      [assumption|left; cbn [dev with_field]; rewrite Hd2, Hd1; now apply write_cr_tx|].
    do 2 eexists. split; [exact E|]. split; [apply enabled_cr_active, Hm|].
    unfold settled. cbn [dev inst mem with_field]. rewrite Hd3. cbn [dev with_field]. rewrite Hd2, Hd1.
    do 3 (split; [easy|]). split; [now apply write_cr_tx|]. split; [now apply write_cr_rx|easy].
Qed.

Lemma end_settled m c h s : tst c XSP_CR_MASTER_MODE_MASK = true -> settled x m c h [] s ->
  exists s' c', end_transaction s = Ok (tt, s') /\
    tst c' XSP_CR_MASTER_MODE_MASK = true /\ tst c' XSP_CR_ENABLE_MASK = false /\
    settled x m c' (h ++ [SlaveSelect 0xFFFFFFFF]) [] s'.
Proof.
  intros Hm (Hi & Hmem & Hc & Htx & Hrx & Hbus). unfold end_transaction.
  idle_step idle_set_ssr d Hd; [now left|].
  edestruct (idle_disable (s <| dev := d |>)) as (d' & E & Hd');
    [assumption|left; cbn [dev with_field]; now rewrite Hd|].
  cbn [dev with_field] in Hd'. rewrite Hd in Hd'. cbn -[tst clr write_cr] in Hd'. rewrite Hc in Hd'.
  do 2 eexists. split; [exact E|].
  assert (Hcr : forall n, 0 <= n < 32 -> tst (clr c XSP_CR_ENABLE_MASK .& 0x39f) (2 ^ n) =
    (tst c (2 ^ n) && negb (Z.testbit XSP_CR_ENABLE_MASK n)) && Z.testbit 0x39f n).
  { intros. now rewrite tst_land, tst_clr by lia. }
  unfold settled. cbn [dev inst mem with_field]. rewrite Hd'.
  split; [|split; [|repeat split; try assumption; try reflexivity]].
  - change XSP_CR_MASTER_MODE_MASK with (2 ^ 2) in *. rewrite Hcr, Hm by lia. reflexivity.
  - change (tst ?a XSP_CR_ENABLE_MASK) with (tst a (2 ^ 1)). rewrite Hcr by lia.
    cbn. now rewrite andb_false_r.
  - now apply write_cr_tx.
  - now apply write_cr_rx.
  - cbn. now rewrite Hbus.
Qed.

(** *** A core that stalls *)

(** [stuck]: the transmit FIFO does not empty while registers are read. *)
Definition stuck : Prop := forall d off, quiet_register off ->
  (view (slave := slave) (base := base) d).(v_tx) <> [] ->
  (view (fst (reg_read d (base + off)))).(v_tx) <> [].

(** A burst that has not been sent completely. *)
Definition pending m c h all s : Prop :=
  bursting x m c h all s /\ (view s.(dev)).(v_tx) <> [].

Lemma pending_read m c h all off s : stuck -> quiet_register off -> (length all <= FIFO_DEPTH)%nat ->
  pending m c h all s ->
  let r := reg_read s.(dev) (base + off) in
  get_reg off s = Ok (snd r, s <| dev := fst r |>) /\ pending m c h all (s <| dev := fst r |>).
Proof.
  intros Hst Hq Hl [Hs Ht] r.
  destruct (get_quiet_bursting m c h all _ s Hq Hl Hs) as [E Hs'].
  split; [exact E|]. split; [exact Hs'|]. cbn. now apply Hst.
Qed.

Lemma poll_stuck m c h all n : stuck -> (length all <= FIFO_DEPTH)%nat ->
  triple (pending m c h all) (poll_tx_empty n) (fun r s => r = false /\ pending m c h all s).
Proof.
  intros Hst Hl. induction n as [|n IH]; cbn [poll_tx_empty]; [now apply triple_ret|].
  intros s Hs. destruct (pending_read m c h all _ s Hst SR_quiet Hl Hs) as [E Hs'].
  unfold XSpi_GetStatusReg. rewrite (bind_ok _ _ _ _ _ E), read_sr_tx_empty.
  destruct (v_tx (view (fst _))) eqn:Hnil; [|now apply IH].
  destruct Hs' as [_ Ht]. now cbn in Ht.
Qed.

Lemma quiet_triple m c h all off : stuck -> quiet_register off -> (length all <= FIFO_DEPTH)%nat ->
  triple (pending m c h all) (get_reg off) (fun _ => pending m c h all).
Proof.
  intros Hst Hq Hl s Hs. destruct (pending_read m c h all _ s Hst Hq Hl Hs) as [E Hs'].
  do 2 eexists. split; [exact E|exact Hs'].
Qed.

Lemma dump_pending m c h all : stuck -> (length all <= FIFO_DEPTH)%nat ->
  triple (pending m c h all) dump_spi (fun _ => pending m c h all).
Proof.
  intros Hst Hl. unfold dump_spi, XSpi_IsIntrGlobalEnabled.
  do 5 (eapply triple_bind; [apply quiet_triple; [assumption|cbv; tauto|assumption]|intros ?]).
  eapply triple_bind with (Q := fun _ => pending m c h all); [|intros ?].
  - eapply triple_bind; [apply quiet_triple; [assumption|cbv; tauto|assumption]|intros ?].
    now apply triple_ret.
  - do 2 (eapply triple_bind; [apply quiet_triple; [assumption|cbv; tauto|assumption]|intros ?]).
    now apply triple_ret.
Qed.

(** Writing the data register leaves something to send. *)
Lemma write_tx_pending n : forall src s, s.(inst) = x -> n <> O \/ (view s.(dev)).(v_tx) <> [] ->
  exists s', write_tx n src s = Ok (tt, s') /\ (view s'.(dev)).(v_tx) <> [].
Proof.
  induction n as [|n IH]; intros src s Hi Hn; cbn [write_tx].
  - exists s. split; [reflexivity|]. destruct Hn; [congruence|assumption].
  - unfold bind at 1, gets. rewrite (bind_ok _ _ _ _ _ (set_reg_eq _ _ _)).
    apply IH; [exact Hi|]. right. cbn [dev with_field]. rewrite Hi, Hbase.
    destruct (write_dtr_law s.(dev) (mem s src)) as (w & _ & ->). unfold write_dtr.
    destruct (Nat.ltb_spec (length (v_tx w)) FIFO_DEPTH); cbn [v_tx with_field].
    + now destruct (v_tx w).
    + unfold FIFO_DEPTH in *. destruct (v_tx w); [cbn in *; lia|discriminate].
Qed.

(** *** The transfer *)

Context (Hdrain : drains slave (D := D) (base := base) XSP_SR_OFFSET 1000).

(** What the slave's answers leave in memory. *)
Definition received m dst h bytes : Z -> Z :=
  store_bytes m dst (map (fun v => v .& 0xff) (answers slave h bytes)).

(** One chunk that fits the FIFO. *)
Lemma chunk_settled m c h src dst r n s : active_cr c -> (n <= FIFO_DEPTH)%nat ->
  settled x m c h [] s ->
  let bytes := map u8 (load_bytes m src n) in
  exists s1 s2 s3,
    write_tx n src s = Ok (tt, s1) /\ poll_tx_empty 1000 s1 = Ok (true, s2) /\
    read_rx n dst r s2 = Ok ((true, r - Z.of_nat n), s3) /\
    settled x (received m dst h bytes) c (history slave h bytes) [] s3.
Proof.
  intros Hact Hn Hs bytes.
  destruct (write_tx_triple m c h n src [] Hn s (settled_bursting _ _ _ _ _ Hs))
    as ([] & s1 & E1 & Hs1).
  cbn [app] in Hs1. fold bytes in Hs1.
  assert (Hlen : length bytes = n) by (unfold bytes; now rewrite length_map, length_load_bytes).
  destruct (Hdrain s1.(dev)) as (k & Hk & He).
  { destruct Hs1 as (_ & _ & Hc & _). now apply (active_view c). }
  { destruct Hs1 as (_ & _ & _ & j & [_ Htx _ _]). rewrite Htx, length_skipn. lia. }
  destruct (poll_empties m c h bytes 1000 ltac:(lia) s1 k Hs1 Hk He) as (s2 & E2 & Hs2).
  rewrite <- (app_nil_r (answers _ _ _)) in Hs2.
  destruct (read_rx_settled c _ _ m dst r [] s2 Hs2) as (s3 & E3 & Hs3).
  rewrite length_answers, Hlen in E3. exists s1, s2, s3. repeat split; try assumption; apply Hs3.
Qed.

Lemma send_chunks_settled c fuel : active_cr c -> forall m src dst r h s,
  (Z.to_nat r <= fuel)%nat -> 0 <= r -> dst <= src \/ src + r <= dst ->
  settled x m c h [] s ->
  let bytes := map u8 (load_bytes m src (Z.to_nat r)) in
  exists s', send_chunks fuel src dst r s = Ok ((true, 0), s') /\
    settled x (received m dst h bytes) c (history slave h bytes) [] s'.
Proof.
  intros Hact. induction fuel as [|fuel IH]; intros m src dst r h s Hf Hr Hsep Hs bytes;
    cbn [send_chunks]; destruct (Z.ltb_spec 0 r) as [Hpos|Hz]; cbn [negb]; try lia.
  1, 3: assert (r = 0) by lia; subst r; exists s; split; [reflexivity|exact Hs].
  assert (Hc : 1 <= chunk r <= 16 /\ chunk r <= r)
    by (unfold chunk; destruct (Z.ltb_spec r 16); lia).
  destruct (chunk_settled m c h src dst r (Z.to_nat (chunk r)) s Hact ltac:(unfold FIFO_DEPTH; lia) Hs)
    as (s1 & s2 & s3 & E1 & E2 & E3 & Hs3).
  rewrite (bind_ok _ _ _ _ _ E1), (bind_ok _ _ _ _ _ E2). cbn [negb].
  rewrite (bind_ok _ _ _ _ _ E3). cbn [negb]. rewrite Z2Nat.id by lia.
  set (n := Z.to_nat (chunk r)) in *. set (bytes1 := map u8 (load_bytes m src n)) in *.
  destruct (IH _ (src + chunk r) (dst + chunk r) (r - chunk r) _ s3 ltac:(lia) ltac:(lia) ltac:(lia) Hs3)
    as (s' & E & Hs').
  exists s'. split; [exact E|].
  assert (Hlen : Z.of_nat (length (answers slave h bytes1)) = chunk r).
  { unfold bytes1. rewrite length_answers, length_map, length_load_bytes. lia. }
  rewrite (load_bytes_ext _ _ m) in Hs'.
  - assert (Hb : bytes = bytes1 ++ map u8 (load_bytes m (src + chunk r) (Z.to_nat (r - chunk r)))).
    { unfold bytes, bytes1. rewrite <- map_app. f_equal.
      replace (src + chunk r) with (src + Z.of_nat n) by lia.
      rewrite <- load_bytes_app. f_equal. lia. }
    rewrite Hb, history_app. unfold received in *.
    rewrite answers_app, map_app, store_bytes_app, length_map, Hlen. exact Hs'.
  - intros a Ha. unfold received. apply store_bytes_outside.
    rewrite length_map, Hlen. lia.
Qed.

(** What [send_spi] does from a ready state. *)
Lemma send_spi_spec s src dst len opt :
  s.(inst) = x -> spi_ready s -> is_u32 len -> dst <= src \/ src + len <= dst ->
  let bytes := map u8 (load_bytes s.(mem) src (Z.to_nat len)) in
  exists s', send_spi src dst len opt s = Ok (len, s') /\
    load_bytes s'.(mem) dst (Z.to_nat len) = map u8 (answers slave (opened s) bytes) /\
    (forall a, a < dst \/ dst + len <= a -> s'.(mem) a = s.(mem) a) /\
    (view s'.(dev)).(v_bus) = history slave (opened s) bytes ++
      (if tst opt SEND_SPI_MORE then [] else [SlaveSelect 0xFFFFFFFF]) /\
    tst (view s'.(dev)).(v_cr) XSP_CR_ENABLE_MASK = tst opt SEND_SPI_MORE /\
    spi_ready s' /\ s'.(inst) = x.
Proof.
  intros Hi Hready Hlen Hsep bytes. unfold send_spi, is_u32 in *.
  destruct (begin_settled s Hi Hready) as (s1 & c & E1 & Hact & Hs1).
  destruct (send_chunks_settled c (Z.to_nat len) Hact _ src dst len _ s1 (le_n _) ltac:(lia) Hsep Hs1)
    as (s2 & E2 & Hs2).
  fold bytes in Hs2. rewrite (bind_ok _ _ _ _ _ E1), (bind_ok _ _ _ _ _ E2). cbn [negb].
  assert (Hn : Z.to_nat len = length (map (fun v => v .& 0xff) (answers slave (opened s) bytes))).
  { unfold bytes. now rewrite length_map, length_answers, length_map, length_load_bytes. }
  assert (Hmem : forall s', s'.(mem) = received s.(mem) dst (opened s) bytes ->
    load_bytes s'.(mem) dst (Z.to_nat len) = map u8 (answers slave (opened s) bytes) /\
    (forall a, a < dst \/ dst + len <= a -> s'.(mem) a = s.(mem) a)).
  { intros s' ->. unfold received. split.
    - rewrite Hn, load_store_bytes, map_map. apply map_ext. intros v.
      unfold u8. rewrite land_ff. apply Z.mod_mod. lia.
    - intros a Ha. apply store_bytes_outside. lia. }
  destruct (tst opt SEND_SPI_MORE) eqn:Hmore; cbn [negb].
  - exists s2. split; [reflexivity|]. destruct Hs2 as (Hi2 & Hm2 & Hc2 & Htx & Hrx & Hbus).
    destruct (Hmem s2 Hm2). destruct Hact as (Hen & Hma & Hinh). unfold spi_ready.
    rewrite app_nil_r, Hc2. now repeat split.
  - destruct (end_settled _ _ _ _ (proj1 (proj2 Hact)) Hs2) as (s3 & c3 & E3 & Hma & Hen & Hs3).
    rewrite (bind_ok _ _ _ _ _ E3). exists s3. split; [reflexivity|].
    destruct Hs3 as (Hi3 & Hm3 & Hc3 & Htx & Hrx & Hbus). destruct (Hmem s3 Hm3).
    unfold spi_ready. rewrite Hc3, Hen. now repeat split.
Qed.

(** C3: For every core that obeys the register laws and drains its FIFO
    within 1000 polls, [send_spi] from a ready state returns [len]: the bytes
    of [src] go out in order and nothing else does, the slave's answers end up
    in [dst], no other memory changes, the slave select frames the exchange,
    and the transaction is left open (core enabled, slave selected) exactly
    when SEND_SPI_MORE is given.  [dst] may be [src] or lie below it. *)
Theorem send_spi_exchanges s src dst len opt :
  s.(inst) = x -> spi_ready s -> is_u32 len -> dst <= src \/ src + len <= dst ->
  let bytes := map u8 (load_bytes s.(mem) src (Z.to_nat len)) in
  exists s', send_spi src dst len opt s = Ok (len, s') /\
    load_bytes s'.(mem) dst (Z.to_nat len) = map u8 (answers slave (opened s) bytes) /\
    (forall a, a < dst \/ dst + len <= a -> s'.(mem) a = s.(mem) a) /\
    (view s'.(dev)).(v_bus) = history slave (opened s) bytes ++
      (if tst opt SEND_SPI_MORE then [] else [SlaveSelect 0xFFFFFFFF]) /\
    tst (view s'.(dev)).(v_cr) XSP_CR_ENABLE_MASK = tst opt SEND_SPI_MORE /\
    spi_ready s' /\ s'.(inst) = x.
Proof. exact (send_spi_spec s src dst len opt). Qed.

(** On a core whose transmit FIFO does not empty, [send_spi] without an
    open transaction returns 0 and stores nothing, but the core stays enabled
    with bytes left in its transmit FIFO, whatever [opt] asked for.  It is not
    a state [send_spi] is ready in, and since the core is enabled the next
    call does not reset the FIFOs. *)
Theorem send_spi_timeout_leaves_open s src dst len opt :
  stuck -> s.(inst) = x -> spi_ready s -> 0 < len < 4294967296 ->
  exists s', send_spi src dst len opt s = Ok (0, s') /\ s'.(mem) = s.(mem) /\
    tst (view s'.(dev)).(v_cr) XSP_CR_ENABLE_MASK = true /\ ~ spi_ready s'.
Proof.
  intros Hst Hi Hready Hlen. unfold send_spi.
  destruct (begin_settled s Hi Hready) as (s1 & c & E1 & Hact & Hs1).
  rewrite (bind_ok _ _ _ _ _ E1).
  set (n := Z.to_nat (chunk len)).
  assert (Hn : (0 < n <= FIFO_DEPTH)%nat)
    by (unfold n, chunk, FIFO_DEPTH; destruct (Z.ltb_spec len 16); lia).
  destruct (write_tx_triple (mem s) c (opened s) n src [] (proj2 Hn) s1 (settled_bursting _ _ _ _ _ Hs1))
    as ([] & s2 & E2 & Hs2).
  destruct (write_tx_pending n src s1 (proj1 Hs1) ltac:(lia)) as (s2' & E2' & Ht).
  rewrite E2 in E2'. injection E2' as <-.
  cbn [app] in Hs2. set (all := map u8 (load_bytes (mem s) src n)) in *.
  assert (Hl : (length all <= FIFO_DEPTH)%nat)
    by (unfold all; rewrite length_map, length_load_bytes; lia).
  destruct (poll_stuck (mem s) c (opened s) all 1000 Hst Hl s2 (conj Hs2 Ht)) as (r & s3 & E3 & -> & Hs3).
  destruct (dump_pending _ _ _ _ Hst Hl s3 Hs3) as (vals & s4 & E4 & [(Hi4 & Hm4 & Hc4 & _) Ht4]).
  exists s4. split; [|split; [assumption|]].
  - replace (Z.to_nat len) with (S (Z.to_nat len - 1)) by lia. cbn [send_chunks].
    destruct (Z.ltb_spec 0 len); [|lia]. cbn [negb]. fold n.
    unfold bind at 1. rewrite (bind_ok _ _ _ _ _ E2), (bind_ok _ _ _ _ _ E3). cbn [negb].
    rewrite (bind_ok _ _ _ _ _ E4). cbn. now rewrite Z.sub_diag.
  - rewrite Hc4. split; [apply Hact|]. intros [_ Hno]. rewrite Hc4 in Hno.
    now destruct (Hno (proj1 Hact)) as (_ & ? & _).
Qed.
End Axi.

Lemma send_spi_returns {D} `{RegDevice D} (s : spi_state D) src dst len opt : is_u32 len ->
  exists v s', send_spi src dst len opt s = Ok (v, s') /\ 0 <= v <= len.
Proof.
  intros Hlen. unfold is_u32 in Hlen.
  enough (Hr : returns (D := D) (send_spi src dst len opt) (fun v => 0 <= v <= len)) by exact (Hr s I).
  eapply (returns_bind _ _ (fun _ => True)).
  { unfold begin_transaction, XSpi_GetControlReg. eapply returns_bind; [apply returns_get_reg|intros c _].
    destruct (negb _); [|now apply returns_ret].
    eapply returns_bind; [apply returns_set_reg|intros [] _].
    eapply returns_bind with (Q := fun _ => True); [|intros [] _; apply returns_set_reg].
    eapply returns_bind; [apply returns_get_reg|intros c' _]. apply returns_set_reg. }
  intros [] _. eapply returns_bind; [apply send_chunks_returns; [apply le_n|lia]|].
  intros [ok r] [Hr Hok]. destruct ok; cbn [negb].
  - eapply (returns_bind _ _ (fun _ => True)); [|intros [] _; apply returns_ret; lia].
    destruct (negb _); [|now apply returns_ret].
    eapply returns_bind; [apply returns_set_reg|intros [] _].
    eapply returns_bind; [apply returns_get_reg|intros c' _]. apply returns_set_reg.
  - apply returns_ret. rewrite u32_id; word_lia.
Qed.

(** [send_spi] returns for every device, even one that answers register
    reads arbitrarily, and never reports more than [len] bytes. *)
Theorem send_spi_total {D} `{RegDevice D} (s : spi_state D) src dst len opt : is_u32 len ->
  exists v s', send_spi src dst len opt s = Ok (v, s') /\ 0 <= v <= len.
Proof. apply send_spi_returns. Qed.

(** ** Initialisation *)

Section Init.
Context (slave : list bus_event -> Z -> Z) {D : Type} `{RegDevice D}
  `{!AxiSpi slave D 0x44B00000}.
Implicit Types (s : spi_state D).

(** Only the device may have changed. *)
Definition framed (x : XSpi) (m : Z -> Z) s : Prop := s.(inst) = x /\ s.(mem) = m.

Lemma framed_get x m off : triple (framed x m) (get_reg off) (fun _ => framed x m).
Proof. intros s Hs. rewrite get_reg_eq. do 2 eexists. split; [reflexivity|exact Hs]. Qed.
Lemma framed_set x m off v : triple (framed x m) (set_reg off v) (fun _ => framed x m).
Proof. intros s Hs. do 2 eexists. split; [reflexivity|exact Hs]. Qed.

Lemma startup_framed x m : triple (framed x m) startup_dummy_read (fun _ => framed x m).
Proof.
  unfold startup_dummy_read.
  repeat (eapply triple_bind; [first [apply framed_get | apply framed_set]|intros ?]).
  now apply triple_ret.
Qed.

(** The instance after [XSpi_Abort] and [XSpi_Reset]. *)
Definition aborted (x : XSpi) : XSpi :=
  x <| RemainingBytes := 0 |> <| RequestedBytes := 0 |> <| IsBusy := FALSE |>.

Lemma abort_framed x m : triple (framed x m) XSpi_Abort (fun _ => framed (aborted x) m).
Proof.
  unfold XSpi_Abort. eapply triple_bind; [apply (triple_gets _ (fun _ => framed x m)); auto|intros ?].
  do 2 (eapply triple_bind; [first [apply framed_get | apply framed_set]|intros ?]).
  eapply triple_bind; [apply (triple_gets _ (fun _ => framed x m)); auto|intros ?].
  eapply triple_bind; [apply framed_set|intros ?].
  apply triple_modify. intros s [Hi Hm]. split; [cbn; now rewrite Hi|exact Hm].
Qed.

(** A software reset puts the core in its reset state, whatever it was doing. *)
Lemma reset_state x m : x.(IsReady) = XIL_COMPONENT_IS_READY -> x.(BaseAddr) = 0x44B00000 ->
  triple (framed x m) XSpi_Reset
    (fun _ s => framed (aborted x <| IsStarted := 0 |> <| SlaveSelectReg := x.(SlaveSelectMask) |>) m s /\
                exists w, view s.(dev) = soft_reset w).
Proof.
  intros Hr Hb s [Hi Hm]. unfold XSpi_Reset.
  assert (E : assert_ready s = Ok (tt, s)).
  { unfold assert_ready, bind, field, gets, Xil_Assert. now rewrite Hi, Hr. }
  rewrite (bind_ok _ _ _ _ _ E).
  destruct (abort_framed x m s (conj Hi Hm)) as ([] & s1 & E1 & [Hi1 Hm1]).
  rewrite (bind_ok _ _ _ _ _ E1). unfold bind at 1, upd, modify. rewrite set_reg_eq.
  do 2 eexists. split; [reflexivity|]. cbn [inst dev mem with_field]. rewrite Hi1.
  split; [now split|].
  destruct (write_srr_law s1.(dev)) as (w & _ & Hv). exists w.
  cbn -[view reg_write soft_reset]. rewrite Hb. exact Hv.
Qed.

(** The instance [init_spi] leaves behind. *)
Definition spi_instance (ref : Z) : XSpi :=
  mkXSpi (mkStats 0 0 0 0 0 0) 0x44B00000 XIL_COMPONENT_IS_READY 0 1 0 1 8 2 1 1
    NULL NULL 0 0 FALSE StubStatusHandler ref 0 0.

Lemma cfg_initialize_state s : s.(inst).(IsStarted) <> XIL_COMPONENT_IS_STARTED ->
  exists s', XSpi_CfgInitialize (hd (mkConfig 0 0 0 0 0 0 0 0 0 0 0) XSpi_ConfigTable) 0x44B00000 s
             = Ok (XST_SUCCESS, s') /\
    framed (spi_instance s.(inst).(StatusRef)) s.(mem) s' /\ exists w, view s'.(dev) = soft_reset w.
Proof.
  intros Hst. unfold XSpi_CfgInitialize. unfold bind at 1, field, gets.
  destruct (Z.eqb_spec (IsStarted (inst s)) XIL_COMPONENT_IS_STARTED) as [|_]; [contradiction|].
  unfold bind at 1, upd, modify. cbn [hd XSpi_ConfigTable Use_Startup Z.eqb].
  change (1 =? 1) with true. cbv iota.
  match goal with |- context [bind _ _ ?st] => set (s1 := st) end.
  set (x := s1.(inst)).
  destruct (startup_framed x s.(mem) s1 (conj eq_refl eq_refl)) as ([] & s2 & E2 & Hs2).
  rewrite (bind_ok _ _ _ _ _ E2).
  destruct (reset_state x s.(mem) eq_refl eq_refl s2 Hs2) as ([] & s3 & E3 & Hs3 & Hw).
  rewrite (bind_ok _ _ _ _ _ E3). exists s3. split; [reflexivity|]. now split.
Qed.

(** Instance, memory and core are known, and the core is not shifting. *)
Definition known x m v s : Prop :=
  s.(inst) = x /\ s.(mem) = m /\ view s.(dev) = v /\ idle v.

Lemma known_get_cr x m v : x.(BaseAddr) = 0x44B00000 ->
  triple (known x m v) XSpi_GetControlReg (fun c s => c = v.(v_cr) /\ known x m v s).
Proof.
  intros Hb s (Hi & Hm & Hv & Hidle). rewrite <- Hv in Hidle.
  destruct (idle_get_cr slave x Hb s Hi Hidle) as (d & E & Hd).
  do 2 eexists. split; [exact E|]. rewrite Hv in *. repeat split; assumption.
Qed.

Lemma known_write x m v off c f : x.(BaseAddr) = 0x44B00000 ->
  (forall d c, exists w, shifts slave (view d) w /\
     view (reg_write d (0x44B00000 + off) c) = f w c) ->
  idle (f v c) -> triple (known x m v) (set_reg off c) (fun _ => known x m (f v c)).
Proof.
  intros Hb Hlaw Hidle' s (Hi & Hm & Hv & Hidle). rewrite set_reg_eq, Hi, Hb.
  do 2 eexists. split; [reflexivity|]. do 2 (split; [assumption|]). split; [|assumption].
  cbn [dev with_field]. destruct (Hlaw s.(dev) c) as (w & Hw & ->).
  rewrite Hv in Hw. now rewrite (shifts_idle _ _ _ Hw Hidle).
Qed.

Lemma set_options_known ref m b : let x := spi_instance ref in
  triple (known x m (mkView 0x180 0xFFFFFFFF [] [] false false b))
    (XSpi_SetOptions (XSP_MASTER_OPTION .| XSP_MANUAL_SSELECT_OPTION))
    (fun r s => r = XST_SUCCESS /\ known x m (mkView 0x184 0xFFFFFFFF [] [] false false b) s).
Proof.
  intros x s Hs. pose proof Hs as (Hi & _). unfold XSpi_SetOptions, assert_ready, field.
  unfold bind at 1 2, gets at 1, Xil_Assert. rewrite Hi. cbv iota.
  change (IsReady x =? XIL_COMPONENT_IS_READY) with true. unfold ret at 1, bind at 1, gets at 1.
  rewrite Hi. change (negb (IsBusy x =? 0)) with false. unfold bind at 1, gets at 1. rewrite Hi.
  change (_ && negb (SlaveOnly x =? 0)) with false. cbv iota.
  destruct (known_get_cr x m _ eq_refl s Hs) as (c & s1 & E1 & -> & Hs1).
  rewrite (bind_ok _ _ _ _ _ E1).
  destruct (known_write x m (mkView 0x180 0xFFFFFFFF [] [] false false b) XSP_CR_OFFSET 0x184
              write_cr eq_refl write_cr_law (or_introl eq_refl) s1 Hs1)
    as ([] & s2 & E2 & Hs2).
  unfold XSpi_SetControlReg. change (fold_left _ _ _) with 0x184. rewrite (bind_ok _ _ _ _ _ E2).
  do 2 eexists. split; [reflexivity|]. split; [reflexivity|exact Hs2].
Qed.

(** [init_spi] leaves the core disabled, master, with empty FIFOs and
    interrupts off, which is a state [send_spi] can be called in, whatever
    the core was doing before. *)
Theorem init_spi_ready s : s.(inst).(IsStarted) <> XIL_COMPONENT_IS_STARTED ->
  exists s', init_spi s = Ok (tt, s') /\
    s'.(inst) = spi_instance s.(inst).(StatusRef) /\ s'.(mem) = s.(mem) /\
    (view s'.(dev)).(v_cr) = 0x184 /\ (view s'.(dev)).(v_gie) = false /\
    (view s'.(dev)).(v_tx) = [] /\ (view s'.(dev)).(v_rx) = [] /\ spi_ready slave s'.
Proof.
  intros Hst. destruct (cfg_initialize_state s Hst) as (s1 & E1 & [Hi1 Hm1] & w & Hw).
  unfold init_spi. cbn [XSpi_LookupConfig find XSpi_ConfigTable DeviceId].
  change (0 =? 0) with true. cbv iota. cbn [BaseAddress]. cbn [hd XSpi_ConfigTable] in E1.
  rewrite (bind_ok _ _ _ _ _ E1).
  set (x := spi_instance (StatusRef (inst s))) in *. set (b := v_bus w ++ [SlaveSelect 0xFFFFFFFF]).
  assert (Hs1 : known x (mem s) (mkView 0x180 0xFFFFFFFF [] [] false false b) s1)
    by (repeat split; [assumption..|now left]).
  enough (Ht : triple (known x (mem s) (mkView 0x180 0xFFFFFFFF [] [] false false b))
    (XSpi_SetOptions (XSP_MASTER_OPTION .| XSP_MANUAL_SSELECT_OPTION) ;;
     spi_IntrClear XSP_INTR_SLAVE_MODE_ERR_MASK ;;
     XSpi_Disable ;;
     do c <- XSpi_GetControlReg;
     XSpi_SetControlReg (c .| XSP_CR_TXFIFO_RESET_MASK .| XSP_CR_RXFIFO_RESET_MASK) ;;
     XSpi_IntrGlobalDisable)
    (fun _ => known x (mem s) (mkView 0x184 0xFFFFFFFF [] [] false false b))).
  { destruct (Ht s1 Hs1) as ([] & s' & E & Hi & Hm & Hv & _). exists s'. rewrite Hv. unfold spi_ready.
    rewrite Hv. now repeat split. }
  eapply triple_bind; [apply set_options_known|]. intros r. apply triple_assume. intros _.
  eapply triple_bind; [apply (known_write _ _ _ _ _ write_isr); [reflexivity|apply write_isr_law|now left]|].
  intros [].
  eapply triple_bind with (Q := fun _ => known x (mem s) (mkView 0x184 0xFFFFFFFF [] [] false false b)).
  { eapply triple_bind; [now apply known_get_cr|]. intros c. apply triple_assume. intros ->.
    unfold XSpi_SetControlReg. eapply triple_post;
      [apply (known_write _ _ _ _ _ write_cr); [reflexivity|apply write_cr_law|now left]
      |intros ? s2 Hk; exact Hk]. }
  intros []. eapply triple_bind; [now apply known_get_cr|]. intros c. apply triple_assume. intros ->.
  unfold XSpi_SetControlReg. eapply triple_bind; [apply (known_write _ _ _ _ _ write_cr); [reflexivity|apply write_cr_law|now left]|].
  intros []. eapply triple_post;
    [apply (known_write _ _ _ _ _ write_gie); [reflexivity|apply write_gie_law|now left]
    |intros ? s2 Hk; exact Hk].
Qed.
End Init.

(** ** Witnesses on the soft core *)

Module Demo.
(** A slave that answers with the number of bus events so far. *)
Definition counter : list bus_event -> Z -> Z := fun h _ => Z.of_nat (length h).

Definition core (stalled : bool) : RegDevice soft_spi := soft_regs counter 0x44B00000 stalled.
Definition laws (stalled : bool) : @AxiSpi counter soft_spi (core stalled) 0x44B00000 :=
  soft_laws counter 0x44B00000 stalled.

Definition start : spi_state soft_spi :=
  mkSt (spi_instance 0) (mkView 0x184 1 [] [] false false []) (fun a => a).
End Demo.

Lemma send_spi_exchanges_witness : exists s',
  @send_spi _ (Demo.core false) 100 90 20 0 Demo.start = Ok (20, s') /\
  load_bytes s'.(mem) 90 20 = map Z.of_nat (seq 1 20) /\
  s'.(mem) 110 = 110 /\ length (v_bus s'.(dev)) = 22%nat.
Proof.
  destruct (@send_spi_exchanges Demo.counter _ (Demo.core false) _ (Demo.laws false)
              (spi_instance 0) eq_refl) with (s := Demo.start) (src := 100) (dst := 90)
    (len := 20) (opt := 0) as (s' & E & Hm & Ho & Hb & _).
  - apply soft_drains; [reflexivity|apply SR_quiet|]. apply Nat.ltb_lt. vm_compute. reflexivity.
  - reflexivity.
  - split; [reflexivity|discriminate].
  - word_lia.
  - left. lia.
  - exists s'. split; [exact E|]. split; [exact Hm|]. split; [apply Ho; lia|].
    cbn [view Demo.laws soft_laws] in Hb. rewrite Hb. vm_compute. reflexivity.
Defined.

Lemma send_spi_timeout_leaves_open_witness : exists s',
  @send_spi _ (Demo.core true) 100 100 3 0 Demo.start = Ok (0, s') /\ s'.(mem) 100 = 100.
Proof.
  destruct (@send_spi_timeout_leaves_open Demo.counter _ (Demo.core true) _ (Demo.laws true)
              (spi_instance 0) eq_refl Demo.start 100 100 3 0) as (s' & E & Hm & _).
  - intros d off Hq Ht. cbn [view Demo.laws soft_laws] in *.
    unfold Demo.core. rewrite soft_read_quiet by assumption. now rewrite stalled_tick.
  - reflexivity.
  - split; [reflexivity|discriminate].
  - lia.
  - exists s'. split; [exact E|]. now rewrite Hm.
Defined.

Lemma send_spi_total_witness : exists v s',
  @send_spi _ (Demo.core true) 100 100 3 0 Demo.start = Ok (v, s') /\ 0 <= v <= 3.
Proof. apply send_spi_total. word_lia. Defined.

Lemma init_spi_ready_witness : exists s',
  @init_spi _ (Demo.core false) Demo.start = Ok (tt, s') /\ (v_cr s'.(dev)) = 0x184.
Proof.
  destruct (@init_spi_ready Demo.counter _ (Demo.core false) (Demo.laws false) Demo.start)
    as (s' & E & _ & _ & Hc & _).
  - discriminate.
  - exists s'. split; [exact E|exact Hc].
Defined.
