(* ===== verification/XSpiSpec.v ===== *)
(** * Theorems about the XSpi driver

    Part one holds for every device: the slave-select interface, the guards of
    [XSpi_Transfer], the mode-fault path of the interrupt handler, and an
    invariant of the driver instance over every sequence of driver calls and
    interrupts.  Part two, for cores that obey [AxiSpi]: the options round
    trip and the polled transfer. *)

From Stdlib Require Import ZArith List Lia Bool.
From S2P Require Import Prelude XSpi SpiCore Spi.
Import ListNotations Regs.
Open Scope Z_scope.
Open Scope c_scope.

Section AnyDevice.
Context {D : Type} `{RegDevice D} (user_handler : Z -> Z -> Z -> Z -> spi_state D -> spi_state D).
Implicit Types (s : spi_state D) (x : XSpi).

Lemma assert_ready_ok s : s.(inst).(IsReady) = XIL_COMPONENT_IS_READY ->
  assert_ready s = Ok (tt, s).
Proof. intros Hr. unfold assert_ready, bind, field, gets, Xil_Assert. now rewrite Hr. Qed.

Lemma bind_field {A B} (f : XSpi -> A) (k : A -> M (spi_state D) B) s :
  bind (field f) k s = k (f s.(inst)) s.
Proof. reflexivity. Qed.

Lemma bind_get {B} off (k : Z -> M (spi_state D) B) s :
  bind (get_reg off) k s =
  k (snd (reg_read s.(dev) (s.(inst).(BaseAddr) + off)))
    (s <| dev := fst (reg_read s.(dev) (s.(inst).(BaseAddr) + off)) |>).
Proof. apply bind_ok, get_reg_eq. Qed.

Lemma bind_set {B} off v (k : unit -> M (spi_state D) B) s :
  bind (set_reg off v) k s =
  k tt (s <| dev := reg_write s.(dev) (s.(inst).(BaseAddr) + off) v |>).
Proof. reflexivity. Qed.

(** ** Slave select *)

Lemma NumAsserted_nonneg n : forall m, 0 <= NumAsserted n m.
Proof. induction n; intros; cbn [NumAsserted]; [lia|]. specialize (IHn m). destruct (tst _ _); lia. Qed.

Lemma tst_shift m i : 0 <= i -> tst (m >> i) 0x1 = Z.testbit m i.
Proof.
  intros Hi. rewrite (tst_bit 0) by lia. now rewrite Z.shiftr_spec, Z.add_0_l by lia.
Qed.

(** At most one asserted bit, said with bits. *)
Lemma NumAsserted_le_1 n m : NumAsserted n m <= 1 <->
  forall i j, 0 <= i < Z.of_nat n -> 0 <= j < Z.of_nat n ->
    Z.testbit m i = true -> Z.testbit m j = true -> i = j.
Proof.
  induction n as [|n IH]; cbn [NumAsserted]; [split; intros; lia|].
  rewrite tst_shift by lia.
  assert (Hzero : NumAsserted n m = 0 <-> forall i, 0 <= i < Z.of_nat n -> Z.testbit m i = false).
  { clear. induction n as [|n IH]; cbn [NumAsserted]; [split; intros; lia|].
    rewrite tst_shift by lia. pose proof (NumAsserted_nonneg n m).
    destruct (Z.testbit m (Z.of_nat n)) eqn:E.
    - split; [lia|]. intros Hi. specialize (Hi (Z.of_nat n) ltac:(lia)). congruence.
    - rewrite Z.add_0_l, IH. split; intros Hi i Hr.
      + destruct (Z.eq_dec i (Z.of_nat n)) as [->|]; [assumption|apply Hi; lia].
      + apply Hi. lia. }
  pose proof (NumAsserted_nonneg n m).
  destruct (Z.testbit m (Z.of_nat n)) eqn:E.
  - transitivity (NumAsserted n m = 0); [lia|]. rewrite Hzero. split.
    + intros Hall i j Hi Hj Ti Tj.
      destruct (Z.eq_dec i (Z.of_nat n)) as [->|]; destruct (Z.eq_dec j (Z.of_nat n)) as [->|];
        [reflexivity|rewrite Hall in Tj by lia; discriminate
        |rewrite Hall in Ti by lia; discriminate|rewrite Hall in Ti by lia; discriminate].
    + intros Huniq i Hi. destruct (Z.testbit m i) eqn:Ti; [|reflexivity].
      specialize (Huniq i (Z.of_nat n) ltac:(lia) ltac:(lia) Ti E). lia.
  - rewrite Z.add_0_l, IH. split; intros Hu i j Hi Hj Ti Tj.
    + apply Hu; try assumption.
      * destruct (Z.eq_dec i (Z.of_nat n)) as [->|]; [congruence|lia].
      * destruct (Z.eq_dec j (Z.of_nat n)) as [->|]; [congruence|lia].
    + apply Hu; (assumption || lia).
Qed.

Lemma lnot_lnot_u32 m : is_u32 m -> u32 (Z.lnot (u32 (Z.lnot m))) = m.
Proof. intros Hm. rewrite lnot_u32 by apply u32_ok. rewrite lnot_u32 by assumption. lia. Qed.

(** On a ready instance [XSpi_SetSlaveSelect] changes nothing and reports
    BUSY during a transfer; otherwise it succeeds exactly when at most one of
    the device's slave lines is asserted, and [XSpi_GetSlaveSelect] then reads
    the mask back; more than one asserted line changes nothing. *)
Theorem slave_select_roundtrip s SlaveMask :
  s.(inst).(IsReady) = XIL_COMPONENT_IS_READY -> is_u32 SlaveMask -> 0 <= s.(inst).(NumSlaveBits) ->
  let one_line := forall i j, 0 <= i < s.(inst).(NumSlaveBits) -> 0 <= j < s.(inst).(NumSlaveBits) ->
    Z.testbit SlaveMask i = true -> Z.testbit SlaveMask j = true -> i = j in
  (s.(inst).(IsBusy) <> 0 -> XSpi_SetSlaveSelect SlaveMask s = Ok (XST_DEVICE_BUSY, s)) /\
  (s.(inst).(IsBusy) = 0 -> one_line -> exists s',
     XSpi_SetSlaveSelect SlaveMask s = Ok (XST_SUCCESS, s') /\
     XSpi_GetSlaveSelect s' = Ok (SlaveMask, s')) /\
  (s.(inst).(IsBusy) = 0 -> ~ one_line ->
     XSpi_SetSlaveSelect SlaveMask s = Ok (XST_SPI_TOO_MANY_SLAVES, s)).
Proof.
  intros Hr Hm Hn one_line.
  assert (Hone : NumAsserted (Z.to_nat s.(inst).(NumSlaveBits)) SlaveMask <= 1 <-> one_line).
  { rewrite NumAsserted_le_1, Z2Nat.id by assumption. reflexivity. }
  unfold XSpi_SetSlaveSelect. rewrite (bind_ok _ _ _ _ _ (assert_ready_ok s Hr)).
  rewrite bind_field. split; [|split].
  - intros Hb. destruct (Z.eqb_spec (IsBusy (inst s)) 0); [contradiction|reflexivity].
  - intros -> Ho. cbn [negb]. change (0 =? 0) with true. cbn [negb]. rewrite bind_field.
    destruct (Z.ltb_spec 1 (NumAsserted (Z.to_nat (NumSlaveBits (inst s))) SlaveMask));
      [apply Hone in Ho; lia|].
    eexists. split; [reflexivity|].
    unfold XSpi_GetSlaveSelect, assert_ready, bind, field, gets, Xil_Assert, ret.
    cbn [inst with_field IsReady SlaveSelectReg].
    rewrite Hr, Z.eqb_refl.
    cbn [inst with_field SlaveSelectReg]. now rewrite lnot_lnot_u32.
  - intros -> Ho. change (0 =? 0) with true. cbn [negb]. rewrite bind_field.
    destruct (Z.ltb_spec 1 (NumAsserted (Z.to_nat (NumSlaveBits (inst s))) SlaveMask));
      [reflexivity|]. now rewrite <- Hone in Ho.
Qed.

(** ** Transfer guards *)

(** Behind the guards: NO_SLAVE is returned only when the recorded select
    register equals the mask, and only the device has been touched. *)
Lemma no_slave_inv fuel s Send Recv n s' :
  XSpi_Transfer fuel Send Recv n s = Ok (XST_SPI_NO_SLAVE, s') ->
  s.(inst).(SlaveSelectReg) = s.(inst).(SlaveSelectMask) /\
  s'.(inst) = s.(inst) /\ s'.(mem) = s.(mem).
Proof.
  unfold XSpi_Transfer, Xil_Assert, assert_ready. intros E.
  destruct (negb _); [|discriminate E]. destruct (0 <? n); [|discriminate E].
  rewrite !bind_ret, bind_assoc, bind_field in E. unfold Xil_Assert in E.
  destruct (_ =? XIL_COMPONENT_IS_READY); [|discriminate E].
  rewrite bind_ret, bind_field in E.
  destruct (negb _); [discriminate E|]. rewrite bind_field in E.
  destruct (negb _); [discriminate E|].
  unfold XSpi_IsIntrGlobalEnabled, XSpi_IntrGlobalDisable, XSpi_GetControlReg in E.
  rewrite bind_assoc, bind_get, bind_ret, bind_set, bind_get, !bind_field in E.
  destruct (tst _ _ && _ && _) eqn:Hno.
  - apply andb_prop in Hno. destruct Hno as [_ Heq]. apply Z.eqb_eq in Heq.
    split; [exact Heq|]. destruct (_ =? TRUE); injection E as <-; now split.
  - apply bind_inv in E. destruct E as (Data & s1 & _ & E).
    apply bind_inv in E. destruct E as ([] & s2 & _ & E). discriminate E.
Qed.

(** The guards of [XSpi_Transfer] on a ready instance: a stopped device
    and a busy driver are reported without touching anything; a master
    without a selected slave (and not in loopback mode) is reported with the
    instance and memory untouched. *)
Theorem transfer_guards fuel s Send Recv n :
  s.(inst).(IsReady) = XIL_COMPONENT_IS_READY -> Send <> NULL -> 0 < n ->
  (s.(inst).(IsStarted) <> XIL_COMPONENT_IS_STARTED ->
     XSpi_Transfer fuel Send Recv n s = Ok (XST_DEVICE_IS_STOPPED, s)) /\
  (s.(inst).(IsStarted) = XIL_COMPONENT_IS_STARTED -> s.(inst).(IsBusy) <> 0 ->
     XSpi_Transfer fuel Send Recv n s = Ok (XST_DEVICE_BUSY, s)) /\
  (forall v s', XSpi_Transfer fuel Send Recv n s = Ok (v, s') ->
     v = XST_SPI_NO_SLAVE ->
     s.(inst).(SlaveSelectReg) = s.(inst).(SlaveSelectMask) /\
     s'.(inst) = s.(inst) /\ s'.(mem) = s.(mem)).
Proof.
  intros Hr Hs Hn. unfold XSpi_Transfer, NULL in *.
  rewrite (proj2 (Z.eqb_neq Send 0) Hs), (proj2 (Z.ltb_lt 0 n) Hn). cbn [negb].
  rewrite !bind_assert by reflexivity.
  rewrite !(bind_ok _ _ _ _ _ (assert_ready_ok s Hr)), bind_field.
  split; [|split].
  - intros Hst. now rewrite (proj2 (Z.eqb_neq _ _) Hst).
  - intros -> Hb. rewrite Z.eqb_refl. cbn [negb]. rewrite bind_field.
    now rewrite (proj2 (Z.eqb_neq _ _) Hb).
  - intros v s' E ->. unfold XSpi_Transfer in *.
    apply (no_slave_inv fuel s Send Recv n). unfold XSpi_Transfer, NULL.
    rewrite (proj2 (Z.eqb_neq Send 0) Hs), (proj2 (Z.ltb_lt 0 n) Hn). cbn [negb].
    rewrite !bind_assert by reflexivity.
    now rewrite !(bind_ok _ _ _ _ _ (assert_ready_ok s Hr)), bind_field.
Qed.

(** After [XSpi_SetSlaveSelect(0)], which the driver documents as
    deselecting the slave, [XSpi_Transfer] never reports XST_SPI_NO_SLAVE: the
    recorded register is ~0, the test compares it with the mask of the
    existing lines, and the transfer starts with no slave selected. *)
Theorem deselect_not_detected fuel s s1 s2 Send Recv n v :
  s.(inst).(SlaveSelectMask) = 2 ^ s.(inst).(NumSlaveBits) - 1 ->
  0 <= s.(inst).(NumSlaveBits) < 32 ->
  XSpi_SetSlaveSelect 0 s = Ok (XST_SUCCESS, s1) ->
  XSpi_Transfer fuel Send Recv n s1 = Ok (v, s2) -> v <> XST_SPI_NO_SLAVE.
Proof.
  intros Hmask Hbits Hsel Htr ->. apply no_slave_inv in Htr. destruct Htr as [Heq _].
  unfold XSpi_SetSlaveSelect in Hsel. apply bind_inv in Hsel.
  destruct Hsel as ([] & s0 & Er & Hsel).
  assert (s0 = s) as ->.
  { unfold assert_ready in Er. rewrite bind_field in Er. unfold Xil_Assert in Er.
    now destruct (_ =? _); [injection Er as <-|]. }
  rewrite !bind_field in Hsel. destruct (negb _); [discriminate|].
  rewrite bind_field in Hsel. destruct (1 <? _); [discriminate|]. injection Hsel as <-.
  cbn [inst with_field SlaveSelectReg SlaveSelectMask] in Heq. rewrite Hmask in Heq.
  pose proof (Z.pow_lt_mono_r 2 (NumSlaveBits (inst s)) 32 ltac:(lia) ltac:(lia) ltac:(lia)).
  change (u32 (Z.lnot 0)) with 4294967295 in Heq. lia.
Qed.

(** ** Interrupts *)

(** A mode fault aborts the transfer before anything else is serviced:
    the slave is deselected in the core, the counters are cleared, the
    statistics count one mode fault and one interrupt, and the application is
    told once, with the number of bytes handed to the transmitter so far. *)
Theorem mode_fault_aborts fuel s id :
  s.(inst).(StatusHandler) = UserHandler id ->
  tst (snd (reg_read s.(dev) (s.(inst).(BaseAddr) + XSP_IISR_OFFSET))) XSP_INTR_MODE_FAULT_MASK = true ->
  let x := s.(inst) in
  exists s1,
    XSpi_InterruptHandler user_handler fuel s =
      Ok (tt, user_handler id x.(StatusRef) XST_SPI_MODE_FAULT
                (u32 (x.(RequestedBytes) - x.(RemainingBytes))) s1) /\
    s1.(inst) = x <| Stats := x.(Stats) <| NumInterrupts := u32 (x.(Stats).(NumInterrupts) + 1) |>
                                        <| ModeFaults := u32 (x.(Stats).(ModeFaults) + 1) |> |>
                  <| RemainingBytes := 0 |> <| RequestedBytes := 0 |> <| IsBusy := FALSE |> /\
    s1.(mem) = s.(mem).
Proof.
  intros Hh Hmf x. unfold XSpi_InterruptHandler, bump, upd.
  unfold bind at 1, modify at 1. set (s0 := with_field inst _ s).
  unfold XSpi_IntrGetStatus at 1. rewrite bind_get. cbn beta.
  change (reg_read (dev s0) (BaseAddr (inst s0) + XSP_IISR_OFFSET))
    with (reg_read (dev s) (BaseAddr (inst s) + XSP_IISR_OFFSET)).
  set (r := reg_read _ _) in *. rewrite Hmf.
  match goal with |- context [?prog (with_field dev _ s0)] => 
    enough (Ht : triple (framed s0.(inst) s.(mem)) prog (fun _ s' => exists s1,
      s' = user_handler id x.(StatusRef) XST_SPI_MODE_FAULT
             (u32 (x.(RequestedBytes) - x.(RemainingBytes))) s1 /\
      framed (aborted (s0.(inst) <| Stats := s0.(inst).(Stats) <| ModeFaults :=
        u32 (s0.(inst).(Stats).(ModeFaults) + 1) |> |>)) s.(mem) s1))
  end.
  { destruct (Ht (s0 <| dev := fst r |>)) as ([] & s' & E & s1 & -> & [Hi Hm]); [now split|].
    exists s1. rewrite E. now repeat split. }
  clear Hmf. eapply (triple_bind _ _ _ (fun _ => framed s0.(inst) s.(mem))).
  { eapply triple_bind; [apply framed_get|intros ?]. apply framed_set. }
  intros []. eapply (triple_bind _ _ _ (fun n s' => n = u32 (x.(RequestedBytes) - x.(RemainingBytes)) /\
    framed s0.(inst) s.(mem) s')).
  { apply triple_gets. intros s' Hs'. split; [|assumption]. destruct Hs' as [-> _]. reflexivity. }
  intros n. apply triple_assume. intros ->.
  eapply triple_bind; [eapply (triple_modify _ _ (fun _ => framed (s0.(inst) <| Stats :=
    s0.(inst).(Stats) <| ModeFaults := u32 (s0.(inst).(Stats).(ModeFaults) + 1) |> |>) s.(mem)))|].
  { intros s' [Hi Hm]. split; [cbn; now rewrite Hi|exact Hm]. }
  intros []. eapply triple_bind; [apply abort_framed|intros []].
  eapply triple_bind; [apply framed_get|intros ?].
  intros s' Hs'. pose proof Hs' as [Hi _]. unfold call_StatusHandler. rewrite !bind_field.
  assert (StatusHandler (inst s') = UserHandler id) as -> by (rewrite Hi; exact Hh).
  assert (StatusRef (inst s') = StatusRef x) as -> by (rewrite Hi; reflexivity).
  do 2 eexists. split; [reflexivity|]. exists s'. split; [reflexivity|exact Hs'].
Qed.

(** ** Invariant of the instance *)

Definition lines x : nat := Z.to_nat x.(NumSlaveBits).

Record wf (x : XSpi) : Prop := {
  wf_ready : x.(IsReady) = XIL_COMPONENT_IS_READY;
  wf_width : In x.(DataWidth) [8; 16; 32];
  wf_rem : 0 <= x.(RemainingBytes) <= x.(RequestedBytes);
  wf_req : x.(RequestedBytes) < 4294967296;
  wf_unit : (x.(DataWidth) >> 3 | x.(RemainingBytes));
  wf_busy : x.(IsBusy) <> 0 -> x.(IsStarted) = XIL_COMPONENT_IS_STARTED;
  wf_bits : 0 <= x.(NumSlaveBits) < 32;
  wf_mask : x.(SlaveSelectMask) = 2 ^ x.(NumSlaveBits) - 1;
  wf_select : NumAsserted (lines x) (u32 (Z.lnot x.(SlaveSelectReg))) <= 1 }.

(** Well formed with data width [w]. *)
Definition wfw (w : Z) x : Prop := wf x /\ x.(DataWidth) = w.

(** [keeps w m]: if [m] returns from a state with a well-formed instance of
    width [w], it leaves one. *)
Definition keeps (w : Z) {A} (m : M (spi_state D) A) : Prop :=
  forall s a s', m s = Ok (a, s') -> wfw w s.(inst) -> wfw w s'.(inst).

Context (w : Z).

Lemma keeps_bind {A B} (m : M (spi_state D) A) (k : A -> M (spi_state D) B) :
  keeps w m -> (forall a, keeps w (k a)) -> keeps w (bind m k).
Proof.
  intros Hm Hk s b s' E Hs. apply bind_inv in E. destruct E as (a & s1 & E1 & E2).
  eapply Hk; eauto.
Qed.
Lemma keeps_ret {A} (a : A) : keeps w (ret a).
Proof. intros s b s' E. now injection E as <- <-. Qed.
Lemma keeps_halt {A} : keeps w (halt (A := A)).
Proof. discriminate. Qed.
Lemma keeps_hang {A} : keeps w (hang (A := A)).
Proof. discriminate. Qed.
Lemma keeps_gets {A} (f : spi_state D -> A) : keeps w (gets f).
Proof. intros s b s' E. now injection E as <- <-. Qed.
Lemma keeps_get off : keeps w (get_reg off).
Proof. intros s b s' E. rewrite get_reg_eq in E. now injection E as <- <-. Qed.
Lemma keeps_set off v : keeps w (set_reg off v).
Proof. intros s b s' E. now injection E as <- <-. Qed.
Lemma keeps_upd f : (forall x, wfw w x -> wfw w (f x)) -> keeps w (upd f).
Proof. intros Hf s b s' E Hs. injection E as <- <-. cbn. auto. Qed.
Lemma keeps_mem f : keeps w (modify (fun s => s <| mem := f s |>)).
Proof. intros s b s' E. now injection E as <- <-. Qed.
Lemma keeps_if {A} (c : bool) (m1 m2 : M (spi_state D) A) :
  keeps w m1 -> keeps w m2 -> keeps w (if c then m1 else m2).
Proof. now destruct c. Qed.
Lemma keeps_assert c : keeps w (Xil_Assert c).
Proof. destruct c; [apply keeps_ret|apply keeps_halt]. Qed.

(** An update of fields the invariant does not mention. *)
Ltac wf_frame := intros ? [[] ?]; split; [constructor|]; assumption.

(** Walk through register code. *)
Ltac keeps_step :=
  first
  [ apply keeps_ret | apply keeps_halt | apply keeps_hang | apply keeps_gets | apply keeps_get
  | apply keeps_set | apply keeps_mem | apply keeps_assert
  | apply keeps_upd; wf_frame
  | apply keeps_if
  | apply keeps_bind; [|intros ?] ].

Lemma unit_width x : wf x -> x.(DataWidth) >> 3 = 1 \/ x.(DataWidth) >> 3 = 2 \/ x.(DataWidth) >> 3 = 4.
Proof.
  intros [_ Hw _ _ _ _ _ _ _]. cbn [In] in Hw.
  destruct Hw as [<- | [<- | [<- | []]]]; [left|right; left|right; right]; reflexivity.
Qed.

(** Handing one unit to the transmitter: a positive remainder is at least one
    unit, so the subtraction does not wrap. *)
Lemma wf_send x : wfw w x -> 0 < x.(RemainingBytes) ->
  wfw w (x <| SendBufferPtr := x.(SendBufferPtr) + (w >> 3) |>
           <| RemainingBytes := u32 (x.(RemainingBytes) - (w >> 3)) |>).
Proof.
  intros [Hwf Hw] Hpos. rewrite <- Hw. pose proof (unit_width x Hwf) as Hu.
  split; [|reflexivity]. destruct Hwf as [? ? ? ? [q Hq] ? ? ? ?].
  assert (Hge : x.(DataWidth) >> 3 <= x.(RemainingBytes)) by (destruct Hu as [Hu|[Hu|Hu]]; rewrite Hu in *; lia).
  constructor; cbn; try assumption; rewrite u32_id by word_lia; [lia|].
  exists (q - 1). lia.
Qed.

Lemma keeps_fill fuel : forall sr data, keeps w (fill_tx fuel w sr data).
Proof.
  induction fuel as [|n IH]; intros sr data s a s' E Hwf; cbn [fill_tx] in E; [discriminate|].
  rewrite bind_field in E. destruct (negb _ && _) eqn:Hc.
  - apply andb_prop in Hc. destruct Hc as [_ Hpos]. apply Z.ltb_lt in Hpos.
    rewrite bind_field in E. unfold bind at 1, gets in E. rewrite bind_set in E.
    unfold bind at 1, upd, modify in E. unfold XSpi_GetStatusReg in E. rewrite bind_get in E.
    eapply IH; [exact E|]. now apply wf_send.
  - now injection E as <- <-.
Qed.

Lemma keeps_store data : keeps w (store_unit w data).
Proof. unfold store_unit. repeat keeps_step. Qed.

Lemma keeps_drain fuel : forall sr data bc, keeps w (drain_rx fuel w sr data bc).
Proof.
  induction fuel as [|n IH]; intros; cbn [drain_rx]; [keeps_step|].
  apply keeps_if; [|keeps_step]. keeps_step; [keeps_step|].
  apply keeps_bind; [apply keeps_store|intros _].
  repeat keeps_step. apply IH.
Qed.

Lemma keeps_wait fuel : keeps w (wait_tx_empty fuel).
Proof. induction fuel; cbn [wait_tx_empty]; repeat keeps_step. assumption. Qed.

Lemma keeps_round fuel data bc : keeps w (polled_round fuel w data bc).
Proof.
  unfold polled_round. apply keeps_bind; [apply keeps_wait|intros _].
  unfold XSpi_IntrClear. do 4 (keeps_step; [repeat keeps_step|]).
  apply keeps_bind; [apply keeps_drain|intros [data' bc']].
  keeps_step; [keeps_step|]. apply keeps_if; [|keeps_step].
  keeps_step; [keeps_step|]. apply keeps_bind; [apply keeps_fill|intros ?]. repeat keeps_step.
Qed.

Lemma keeps_polled rounds fuel : forall data bc, keeps w (polled_loop rounds fuel w data bc).
Proof.
  induction rounds as [|n IH]; intros; cbn [polled_loop];
    (apply keeps_if; [|apply keeps_ret]); [apply keeps_hang|].
  apply keeps_bind; [apply keeps_round|intros [data' bc']]. apply IH.
Qed.

(** Going idle is always allowed. *)
Lemma wf_idle x : wfw w x -> wfw w (x <| IsBusy := FALSE |>).
Proof. intros [[] ?]. split; [constructor; try assumption; now intros []|assumption]. Qed.

Lemma wf_aborted x : wfw w x -> wfw w (aborted x).
Proof.
  intros [[] ?]. split; [|assumption]. constructor; try assumption; cbn;
    [lia|lia|apply Z.divide_0_r|now intros []].
Qed.

Lemma keeps_abort : keeps w XSpi_Abort.
Proof.
  unfold XSpi_Abort. repeat (keeps_step; [keeps_step|]).
  apply keeps_upd. exact wf_aborted.
Qed.

Lemma mask_selects_none n : 0 <= n < 32 -> NumAsserted (Z.to_nat n) (u32 (Z.lnot (2 ^ n - 1))) <= 1.
Proof.
  intros Hn. apply NumAsserted_le_1. rewrite Z2Nat.id by lia. intros i j Hi _ Ti.
  unfold u32 in Ti. change 4294967296 with (2 ^ 32) in Ti.
  rewrite Z.mod_pow2_bits_low, Z.lnot_spec in Ti by lia.
  change (2 ^ n - 1) with (Z.pred (2 ^ n)) in Ti. rewrite <- Z.ones_equiv in Ti.
  now rewrite Z.ones_spec_low in Ti by lia.
Qed.

(** Resetting the select register and the started flag of an idle driver. *)
Lemma wf_stopped x : wfw w x -> x.(IsBusy) = 0 ->
  wfw w (x <| IsStarted := 0 |> <| SlaveSelectReg := x.(SlaveSelectMask) |>).
Proof.
  intros [[] ?] Hb. split; [|assumption]. constructor; cbn; try assumption; [congruence|].
  rewrite wf_mask0. now apply mask_selects_none.
Qed.

Lemma keeps_ready {A} (m : M (spi_state D) A) : keeps w m -> keeps w (assert_ready ;; m).
Proof. intros Hm. unfold assert_ready. repeat keeps_step. assumption. Qed.

Lemma keeps_reset : keeps w XSpi_Reset.
Proof.
  apply keeps_ready. intros s a s' E Hs.
  apply bind_inv in E. destruct E as ([] & s1 & E1 & E).
  apply bind_inv in E. destruct E as ([] & s2 & E2 & E). injection E2 as <-. injection E as <- <-.
  pose proof (keeps_abort _ _ _ E1 Hs) as Hs1. cbn [inst with_field].
  apply (wf_stopped _ Hs1).
  destruct (abort_framed s.(inst) s.(mem) s (conj eq_refl eq_refl)) as (b & s3 & E3 & [Hi _]).
  rewrite E1 in E3. injection E3 as <- <-. now rewrite Hi.
Qed.

Lemma keeps_start : keeps w XSpi_Start.
Proof.
  apply keeps_ready. unfold XSpi_IntrEnable. do 2 keeps_step; [repeat keeps_step..|].
  keeps_step; [repeat keeps_step|]. keeps_step; [|repeat keeps_step].
  apply keeps_upd. intros x [[] ?]. split; [constructor; cbn; auto|assumption].
Qed.

(** A guard on the busy flag. *)
Lemma keeps_not_busy {A} r (m : M (spi_state D) A) :
  (forall s a s', m s = Ok (a, s') -> wfw w s.(inst) -> s.(inst).(IsBusy) = 0 -> wfw w s'.(inst)) ->
  keeps w (do busy <- field IsBusy; if negb (busy =? 0) then ret r else m).
Proof.
  intros Hm s a s' E Hs. rewrite bind_field in E.
  destruct (Z.eqb_spec (IsBusy (inst s)) 0) as [Hb|_]; cbn [negb] in E; [eauto|].
  now injection E as <- <-.
Qed.

Lemma keeps_stop : keeps w XSpi_Stop.
Proof.
  apply keeps_ready, keeps_not_busy. intros s a s' E Hs Hb.
  unfold XSpi_IntrGlobalDisable, XSpi_GetControlReg, XSpi_SetControlReg in E.
  rewrite bind_set, bind_get, bind_set in E. injection E as <- <-.
  destruct Hs as [[] ?]. split; [|assumption]. constructor; cbn; try assumption. congruence.
Qed.

Lemma keeps_select m : is_u32 m -> keeps w (XSpi_SetSlaveSelect m).
Proof.
  intros Hm. apply keeps_ready, keeps_not_busy. intros s a s' E Hs Hb. rewrite bind_field in E.
  destruct (Z.ltb_spec 1 (NumAsserted (lines (inst s)) m)) as [Hgt|Hle];
    unfold lines in *; [rewrite (proj2 (Z.ltb_lt _ _) Hgt) in E|rewrite (proj2 (Z.ltb_ge _ _) Hle) in E];
    injection E as <- <-; [assumption|].
  destruct Hs as [[] ?]. split; [|assumption]. constructor; cbn; try assumption.
  rewrite lnot_lnot_u32 by assumption. exact Hle.
Qed.

Lemma keeps_options o : keeps w (XSpi_SetOptions o).
Proof.
  apply keeps_ready, keeps_not_busy. intros s a s' E Hs _. revert s a s' E Hs.
  change (keeps w (do slave_only <- field SlaveOnly;
    if tst o XSP_MASTER_OPTION && negb (slave_only =? 0) then ret XST_SPI_SLAVE_ONLY else
    do c <- XSpi_GetControlReg;
    XSpi_SetControlReg (fold_left (set_option o) OptionsTable c) ;; ret XST_SUCCESS)).
  repeat keeps_step.
Qed.

(** Code that reads the width of the instance. *)
Lemma keeps_width {A} (m : Z -> M (spi_state D) A) :
  keeps w (m w) -> keeps w (bind (field DataWidth) m).
Proof. intros Hm s a s' E Hs. rewrite bind_field, (proj2 Hs) in E. eapply Hm; eauto. Qed.

Lemma wf_begin x Send Recv n : wfw w x -> x.(IsStarted) = XIL_COMPONENT_IS_STARTED ->
  0 < n < 4294967296 -> (w >> 3 | n) ->
  wfw w (x <| IsBusy := TRUE |> <| SendBufferPtr := Send |> <| RecvBufferPtr := Recv |>
           <| RequestedBytes := n |> <| RemainingBytes := n |>).
Proof.
  intros [[] Hw] Hst Hn Hu. split; [|assumption].
  constructor; cbn; try assumption; try lia; now rewrite Hw.
Qed.

Lemma keeps_transfer_rest fuel gie n Send Recv s a s' :
  wfw w s.(inst) -> s.(inst).(IsStarted) = XIL_COMPONENT_IS_STARTED ->
  0 < n < 4294967296 -> (w >> 3 | n) ->
  (do Data <- transfer_begin fuel Send Recv n;
   (if gie =? TRUE then XSpi_IntrEnable XSP_INTR_TX_EMPTY_MASK ;; XSpi_IntrGlobalEnable
    else do width <- field DataWidth; polled_loop fuel fuel width Data n ;; polled_finish) ;;
   ret XST_SUCCESS) s = Ok (a, s') -> wfw w s'.(inst).
Proof.
  intros Hs Hst Hn Hu E. unfold transfer_begin in E. rewrite !bind_assoc in E.
  unfold bind at 1, upd, modify in E.
  match type of E with ?m ?s1 = _ => assert (Hm : keeps w m) end; [|eapply Hm; [exact E|]].
  - keeps_step; [|intros data]. 
    + apply keeps_width. keeps_step; [keeps_step|]. apply keeps_bind; [apply keeps_fill|intros ?].
      repeat keeps_step.
    + unfold XSpi_IntrEnable. keeps_step; [|keeps_step]. apply keeps_if; [repeat keeps_step|].
      apply keeps_width. apply keeps_bind; [apply keeps_polled|intros _].
      unfold polled_finish. do 4 (keeps_step; [repeat keeps_step|]).
      apply keeps_upd, wf_idle.
  - cbn [inst with_field]. now apply wf_begin.
Qed.

Lemma keeps_transfer fuel Send Recv n : 0 < n < 4294967296 -> (w >> 3 | n) ->
  keeps w (XSpi_Transfer fuel Send Recv n).
Proof.
  intros Hn Hu. unfold XSpi_Transfer. apply keeps_bind; [apply keeps_assert|intros _].
  apply keeps_bind; [apply keeps_assert|intros _]. apply keeps_ready.
  intros s a s' E Hs. rewrite bind_field in E.
  destruct (Z.eqb_spec (IsStarted (inst s)) XIL_COMPONENT_IS_STARTED) as [Hst|_]; cbn [negb] in E;
    [|now injection E as <- <-].
  rewrite bind_field in E. destruct (negb _) in E; [now injection E as <- <-|].
  unfold XSpi_IsIntrGlobalEnabled, XSpi_IntrGlobalDisable, XSpi_GetControlReg in E.
  rewrite bind_assoc, bind_get, bind_ret, bind_set, bind_get, !bind_field in E.
  destruct (tst _ _ && _ && _).
  - destruct (_ =? TRUE); injection E as <- <-; exact Hs.
  - eapply keeps_transfer_rest; [| |exact Hn|exact Hu|exact E]; assumption.
Qed.

(** *** Interrupts *)

(** The application's handlers may do anything that keeps the instance well
    formed and does not reconfigure it. *)
Context (handlers_ok : forall id ref event n s, wfw w s.(inst) ->
  wfw w (user_handler id ref event n s).(inst)).

Lemma keeps_call event n : keeps w (call_StatusHandler user_handler event n).
Proof.
  unfold call_StatusHandler. do 2 (keeps_step; [keeps_step|]). destruct a; [apply keeps_halt|].
  intros s b s' E Hs. injection E as <- <-. now apply handlers_ok.
Qed.

Lemma keeps_bump f : keeps w (bump f).
Proof. unfold bump. keeps_step. Qed.

Lemma keeps_tx_empty fuel : keeps w (handler_tx_empty user_handler fuel w).
Proof.
  unfold handler_tx_empty. do 3 (keeps_step; [repeat keeps_step|]).
  apply keeps_bind; [apply keeps_drain|intros [data bc]].
  keeps_step; [keeps_step|]. apply keeps_if.
  - keeps_step; [keeps_step|]. apply keeps_bind; [apply keeps_fill|intros ?]. keeps_step.
  - unfold XSpi_IntrDisable. do 3 (keeps_step; [repeat keeps_step|]).
    apply keeps_bind; [apply keeps_upd, wf_idle|intros _].
    keeps_step; [keeps_step|]. apply keeps_call.
Qed.

Lemma keeps_reports st : keeps w (handler_reports user_handler st).
Proof.
  unfold handler_reports, bytes_done.
  repeat first [apply keeps_call | apply keeps_bump | keeps_step].
Qed.

Lemma keeps_interrupt fuel : keeps w (XSpi_InterruptHandler user_handler fuel).
Proof.
  unfold XSpi_InterruptHandler, XSpi_IntrClear, bytes_done.
  apply keeps_bind; [apply keeps_bump|intros _].
  do 2 (keeps_step; [repeat keeps_step|]). apply keeps_if.
  - keeps_step; [keeps_step|]. apply keeps_bind; [apply keeps_bump|intros _].
    apply keeps_bind; [apply keeps_abort|intros _]. keeps_step; [keeps_step|]. apply keeps_call.
  - apply keeps_width. apply keeps_bind; [|intros _; apply keeps_reports].
    apply keeps_if; [apply keeps_tx_empty|keeps_step].
Qed.

(** *** Self test *)

Lemma keeps_loopback_fill fuel : forall sr i n, keeps w (loopback_fill fuel w sr i n).
Proof. induction fuel; intros; cbn [loopback_fill]; repeat keeps_step. apply IHfuel. Qed.

Lemma keeps_loopback_recv fuel : forall sr i n, keeps w (loopback_recv fuel w sr i n).
Proof. induction fuel; intros; cbn [loopback_recv]; repeat keeps_step. apply IHfuel. Qed.

Lemma keeps_loopback_rounds todo fuel : forall i a b, keeps w (loopback_rounds todo fuel w i a b).
Proof.
  induction todo as [|n IH]; intros i a b; cbn [loopback_rounds]; [keeps_step|].
  keeps_step; [keeps_step|]. apply keeps_bind; [apply keeps_loopback_fill|intros sent].
  do 2 (keeps_step; [repeat keeps_step|]). apply keeps_bind; [apply keeps_wait|intros _].
  unfold XSpi_IntrClear. do 2 (keeps_step; [repeat keeps_step|]).
  apply keeps_bind; [apply keeps_loopback_recv|intros [recvd|]]; [|keeps_step].
  keeps_step; [keeps_step|]. apply IH.
Qed.

Lemma keeps_selftest fuel : keeps w (XSpi_SelfTest fuel).
Proof.
  apply keeps_ready. keeps_step; [keeps_step|]. apply keeps_if; [keeps_step|].
  apply keeps_bind; [apply keeps_reset|intros _]. unfold reset_values_wrong.
  keeps_step; [keeps_step|].
  do 2 (keeps_step; [repeat keeps_step|]; apply keeps_if; [keeps_step|]).
  do 2 (keeps_step; [keeps_step|]). apply keeps_if; [keeps_step|].
  keeps_step; [keeps_step|]. keeps_step; [repeat keeps_step|]. apply keeps_if; [keeps_step|].
  keeps_step; [keeps_step|]. apply keeps_if; [keeps_step|].
  apply keeps_bind; [|intros r; apply keeps_if; [keeps_step|]].
  - unfold LoopbackTest. keeps_step; [keeps_step|]. apply keeps_if; [keeps_step|].
    do 3 (keeps_step; [keeps_step|]). apply keeps_width, keeps_loopback_rounds.
  - apply keeps_bind; [apply keeps_reset|intros _; keeps_step].
Qed.

(** *** Initialisation *)

Definition valid_config (c : XSpi_Config) : Prop :=
  In c.(cfg_DataWidth) [0; 8; 16; 32] /\ 0 <= c.(cfg_NumSlaveBits) < 32.

Lemma cfg_fields_wf c addr x : valid_config c -> wf (cfg_fields c addr x).
Proof.
  intros [Hw Hn].
  assert (Hmask : u32 ((1 << cfg_NumSlaveBits c) - 1) = 2 ^ cfg_NumSlaveBits c - 1).
  { rewrite shiftl_mul, Z.mul_1_l by lia. apply u32_id.
    pose proof (Z.pow_lt_mono_r 2 (cfg_NumSlaveBits c) 32 ltac:(lia) ltac:(lia) ltac:(lia)).
    pose proof (Z.pow_pos_nonneg 2 (cfg_NumSlaveBits c)). word_lia. }
  constructor; cbn [IsReady DataWidth RemainingBytes RequestedBytes IsBusy IsStarted NumSlaveBits
    SlaveSelectMask SlaveSelectReg cfg_fields lines]; try lia; try reflexivity; try assumption.
  - cbn [In] in Hw. destruct Hw as [<- | [<- | [<- | [<- | []]]]]; cbv; tauto.
  - apply Z.divide_0_r.
  - now intros [].
  - unfold lines. cbn [NumSlaveBits]. rewrite Hmask. now apply mask_selects_none.
Qed.

Lemma keeps_startup : keeps w startup_dummy_read.
Proof. unfold startup_dummy_read. repeat keeps_step. Qed.
End AnyDevice.

(** ** Reachable states *)

Section Reachable.
Context {D : Type} `{RegDevice D} (user_handler : Z -> Z -> Z -> Z -> spi_state D -> spi_state D).
Implicit Types (s : spi_state D).

(** One call of the driver's interface, or one interrupt. *)
Inductive driver_call : spi_state D -> spi_state D -> Prop :=
| call_start s r s' : XSpi_Start s = Ok (r, s') -> driver_call s s'
| call_stop s r s' : XSpi_Stop s = Ok (r, s') -> driver_call s s'
| call_reset s r s' : XSpi_Reset s = Ok (r, s') -> driver_call s s'
| call_transfer fuel Send Recv n s r s' :
    0 < n < 4294967296 -> (s.(inst).(DataWidth) >> 3 | n) ->
    XSpi_Transfer fuel Send Recv n s = Ok (r, s') -> driver_call s s'
| call_select m s r s' : is_u32 m -> XSpi_SetSlaveSelect m s = Ok (r, s') -> driver_call s s'
| call_options o s r s' : XSpi_SetOptions o s = Ok (r, s') -> driver_call s s'
| call_handler ref f s r s' : XSpi_SetStatusHandler ref f s = Ok (r, s') -> driver_call s s'
| call_clear s r s' : XSpi_ClearStats s = Ok (r, s') -> driver_call s s'
| call_selftest fuel s r s' : XSpi_SelfTest fuel s = Ok (r, s') -> driver_call s s'
| call_interrupt fuel s r s' :
    XSpi_InterruptHandler user_handler fuel s = Ok (r, s') -> driver_call s s'.

(** States after a successful initialisation and any calls and interrupts. *)
Inductive reachable : spi_state D -> Prop :=
| reach_init cfg addr s s' : valid_config cfg ->
    XSpi_CfgInitialize cfg addr s = Ok (XST_SUCCESS, s') -> reachable s'
| reach_call s s' : reachable s -> driver_call s s' -> reachable s'.

(** Whatever the device answers, in every state reachable by driver calls
    and interrupts the instance is well formed: the bytes remaining never
    exceed the bytes requested (the countdown does not wrap) and stay a
    multiple of the transfer unit, a busy driver is started, and at most one
    slave line is selected. *)
Theorem driver_invariant s :
  (forall w id ref event n s, wfw w s.(inst) -> wfw w (user_handler id ref event n s).(inst)) ->
  reachable s -> wf s.(inst).
Proof.
  intros Hh. induction 1 as [cfg addr s s' Hc E|s s' _ IH Hcall].
  - unfold XSpi_CfgInitialize in E. rewrite bind_field in E.
    destruct (_ =? XIL_COMPONENT_IS_STARTED); [discriminate|].
    unfold bind at 1, upd, modify in E. set (s1 := with_field _ _ _) in E.
    assert (Hs1 : wfw s1.(inst).(DataWidth) s1.(inst)) by (split; [now apply cfg_fields_wf|reflexivity]).
    refine (proj1 ((_ : keeps (s1.(inst).(DataWidth)) _) s1 _ s' E Hs1)).
    apply keeps_bind; [|intros _].
    + apply keeps_if; [apply keeps_startup|apply keeps_ret].
    + apply keeps_bind; [apply keeps_reset|intros _; apply keeps_ret].
  - specialize (Hh s.(inst).(DataWidth)).
    assert (Hs : wfw s.(inst).(DataWidth) s.(inst)) by now split.
    destruct Hcall as [s r s' E|s r s' E|s r s' E|fuel p q n s r s' Hn Hu E|m s r s' Hm E|o s r s' E
                      |ref f s r s' E|s r s' E|fuel s r s' E|fuel s r s' E].
    + exact (proj1 (keeps_start _ _ _ _ E Hs)).
    + exact (proj1 (keeps_stop _ _ _ _ E Hs)).
    + exact (proj1 (keeps_reset _ _ _ _ E Hs)).
    + exact (proj1 (keeps_transfer _ _ _ _ _ Hn Hu _ _ _ E Hs)).
    + exact (proj1 (keeps_select _ _ Hm _ _ _ E Hs)).
    + exact (proj1 (keeps_options _ _ _ _ _ E Hs)).
    + refine (proj1 ((_ : keeps _ (XSpi_SetStatusHandler ref f)) _ _ _ E Hs)).
      apply keeps_bind; [apply keeps_assert|intros _]. apply keeps_ready, keeps_upd.
      intros x [[] ?]. split; [constructor|]; assumption.
    + refine (proj1 ((_ : keeps _ XSpi_ClearStats) _ _ _ E Hs)). apply keeps_ready, keeps_upd.
      intros x [[] ?]. split; [constructor|]; assumption.
    + exact (proj1 (keeps_selftest _ _ _ _ _ E Hs)).
    + exact (proj1 (keeps_interrupt _ _ Hh _ _ _ _ E Hs)).
Qed.
End Reachable.

(** ** Options *)

Lemma tst_bits o : o .& 0x1f =
  (if tst o 1 then 1 else 0) .| (if tst o 2 then 2 else 0) .| (if tst o 4 then 4 else 0) .|
  (if tst o 8 then 8 else 0) .| (if tst o 16 then 16 else 0).
Proof.
  assert (Hbit : forall n, 0 <= n -> (if tst o (2 ^ n) then 2 ^ n else 0) = o .& 2 ^ n).
  { intros n Hn. now rewrite tst_bit, land_pow2 by lia. }
  change 1 with (2 ^ 0). change 2 with (2 ^ 1) at 2 3. change 4 with (2 ^ 2).
  change 8 with (2 ^ 3). change 16 with (2 ^ 4). rewrite !Hbit by lia.
  rewrite <- !Z.land_lor_distr_r. reflexivity.
Qed.

(** The control register [XSpi_SetOptions] writes, bit by bit. *)
Definition options_cr (o c : Z) : Z := fold_left (set_option o) OptionsTable c.

Lemma options_cr_bit o c n : 0 <= n < 32 ->
  tst (options_cr o c) (2 ^ n) =
  if n =? 0 then tst o XSP_LOOPBACK_OPTION
  else if n =? 2 then tst o XSP_MASTER_OPTION
  else if n =? 3 then tst o XSP_CLK_ACTIVE_LOW_OPTION
  else if n =? 4 then tst o XSP_CLK_PHASE_1_OPTION
  else if n =? 7 then tst o XSP_MANUAL_SSELECT_OPTION
  else tst c (2 ^ n).
Proof.
  intros Hn. unfold options_cr, OptionsTable. cbn [fold_left set_option].
  assert (Hstep : forall b x mask k, mask = 2 ^ k -> 0 <= k ->
    tst (if b : bool then x .| mask else clr x mask) (2 ^ n) = if n =? k then b else tst x (2 ^ n)).
  { intros b x mask k -> Hk. destruct b.
    - rewrite tst_lor, testbit_pow2 by lia. destruct (n =? k); [apply orb_true_r|apply orb_false_r].
    - rewrite tst_clr, testbit_pow2 by lia. destruct (n =? k); [apply andb_false_r|apply andb_true_r]. }
  rewrite (Hstep _ _ _ 7), (Hstep _ _ _ 2), (Hstep _ _ _ 4), (Hstep _ _ _ 3), (Hstep _ _ _ 0)
    by (reflexivity || lia).
  destruct (Z.eqb_spec n 7), (Z.eqb_spec n 2), (Z.eqb_spec n 4), (Z.eqb_spec n 3), (Z.eqb_spec n 0);
    subst; try reflexivity; try discriminate; lia.
Qed.

Section Options.
Context (slave : list bus_event -> Z -> Z) {D : Type} `{RegDevice D} {base : Z}
  `{!AxiSpi slave D base}.

(** Reading the control register, even while the core shifts. *)
Lemma get_cr_any (s : spi_state D) : s.(inst).(BaseAddr) = base ->
  exists d, XSpi_GetControlReg s = Ok ((view s.(dev)).(v_cr), s <| dev := d |>) /\
    (view d).(v_cr) = (view s.(dev)).(v_cr).
Proof.
  intros Hb. unfold XSpi_GetControlReg. rewrite get_reg_eq, Hb, read_cr. eexists.
  pose proof (read_quiet s.(dev) XSP_CR_OFFSET ltac:(cbv; tauto)) as Hs.
  apply shifts_frame in Hs. destruct Hs as [Hs _]. split; [now rewrite Hs|exact Hs].
Qed.

(** On a ready idle driver (and not asking a slave-only device to be
    master) [XSpi_SetOptions] succeeds, [XSpi_GetOptions] then returns exactly
    the five option bits, and the other control bits keep their value. *)
Theorem options_roundtrip (s : spi_state D) o :
  s.(inst).(BaseAddr) = base -> s.(inst).(IsReady) = XIL_COMPONENT_IS_READY ->
  s.(inst).(IsBusy) = 0 -> s.(inst).(SlaveOnly) = 0 ->
  exists s1 s2, XSpi_SetOptions o s = Ok (XST_SUCCESS, s1) /\
    XSpi_GetOptions s1 = Ok (o .& 0x1f, s2) /\
    forall n, In n [1; 8; 9] -> tst (view s1.(dev)).(v_cr) (2 ^ n) = tst (view s.(dev)).(v_cr) (2 ^ n).
Proof.
  intros Hb Hr Hbusy Hso. unfold XSpi_SetOptions.
  rewrite (bind_ok _ _ _ _ _ (assert_ready_ok s Hr)), !bind_field, Hbusy.
  change (0 =? 0) with true. cbn [negb]. rewrite bind_field, Hso.
  change (0 =? 0) with true. cbn [negb]. rewrite andb_false_r.
  destruct (get_cr_any s Hb) as (d & E & Hd). rewrite (bind_ok _ _ _ _ _ E).
  fold (options_cr o (v_cr (view (dev s)))).
  unfold XSpi_SetControlReg. rewrite bind_set. cbn [inst dev with_field]. rewrite Hb.
  set (c' := options_cr o _). set (d' := reg_write d _ _).
  assert (Hcr : forall n, 0 <= n < 32 -> tst (view d').(v_cr) (2 ^ n) = tst c' (2 ^ n) && Z.testbit 0x39f n).
  { intros n Hn. destruct (write_cr_law d c') as (v & Hv & Hw).
    unfold d'. rewrite Hw. cbn [v_cr write_cr with_field]. now apply tst_land. }
  exists (s <| dev := d' |>). unfold XSpi_GetOptions.
  assert (Hb' : BaseAddr (inst (s <| dev := d' |>)) = base) by exact Hb.
  destruct (get_cr_any _ Hb') as (d2 & E2 & _).
  exists (s <| dev := d2 |>). split; [reflexivity|]. split.
  - erewrite bind_ok; [|apply assert_ready_ok; exact Hr]. erewrite bind_ok; [|exact E2].
    cbn [dev with_field]. unfold ret. do 2 f_equal. unfold OptionsTable. cbn [fold_left get_option].
    assert (Hbit : forall n mask, mask = 2 ^ n -> 0 <= n < 32 ->
      tst (v_cr (view d')) mask = tst (options_cr o (v_cr (view (dev s)))) (2 ^ n) && Z.testbit 0x39f n).
    { intros n mask -> Hn. now apply Hcr. }
    rewrite (Hbit 0 XSP_CR_LOOPBACK_MASK), (Hbit 3 XSP_CR_CLK_POLARITY_MASK),
      (Hbit 4 XSP_CR_CLK_PHASE_MASK), (Hbit 2 XSP_CR_MASTER_MODE_MASK),
      (Hbit 7 XSP_CR_MANUAL_SS_MASK) by (reflexivity || lia).
    rewrite !options_cr_bit, tst_bits by lia. cbn -[tst Z.lor]. rewrite !andb_true_r.
    change XSP_MASTER_OPTION with 1. change XSP_CLK_ACTIVE_LOW_OPTION with 2.
    change XSP_CLK_PHASE_1_OPTION with 4. change XSP_LOOPBACK_OPTION with 8.
    change XSP_MANUAL_SSELECT_OPTION with 16.
    destruct (tst o 1), (tst o 2), (tst o 4), (tst o 8), (tst o 16); reflexivity.
  - cbn [dev with_field In]. intros n Hn.
    assert (Hr32 : 0 <= n < 32) by (destruct Hn as [<- | [<- | [<- | []]]]; lia).
    rewrite Hcr by assumption. unfold c'. rewrite options_cr_bit by assumption.
    destruct Hn as [<- | [<- | [<- | []]]]; cbn; apply andb_true_r.
Qed.
End Options.

(** ** Witnesses *)

Module SpecDemo.
Definition started : spi_state soft_spi :=
  Demo.start <| dev := mkView 0x186 1 [] [] false false [] |>
             <| inst := (spi_instance 0) <| IsStarted := XIL_COMPONENT_IS_STARTED |>
                          <| StatusHandler := UserHandler 7 |> |>.

(** A handler that only notes the event in memory. *)
Definition note (id ref event n : Z) (s : spi_state soft_spi) : spi_state soft_spi :=
  s <| mem := store8 s.(mem) 0 n |>.

(** After [XSpi_Initialize] and [XSpi_Start] on the soft core. *)
Definition outcome {A} (m : M (spi_state soft_spi) A) (s : spi_state soft_spi) : spi_state soft_spi :=
  match m s with Ok (_, s') => s' | _ => s end.
Definition config : XSpi_Config := mkConfig 0 0x44B00000 1 0 1 8 2 0 0 0 1.
Definition initialised : spi_state soft_spi :=
  outcome (@XSpi_CfgInitialize _ (Demo.core false) config 0x44B00000) Demo.start.
Definition running : spi_state soft_spi := outcome (@XSpi_Start _ (Demo.core false)) initialised.

(** A device that reports a mode fault at every read. *)
Definition faulty : RegDevice soft_spi :=
  {| reg_read := fun d _ => (d, XSP_INTR_MODE_FAULT_MASK); reg_write := fun d _ _ => d |}.
End SpecDemo.

Lemma slave_select_roundtrip_witness : exists s',
  @XSpi_SetSlaveSelect soft_spi 1 Demo.start = Ok (XST_SUCCESS, s') /\
  @XSpi_GetSlaveSelect soft_spi s' = Ok (1, s').
Proof.
  destruct (slave_select_roundtrip Demo.start 1) as (_ & Hok & _).
  - reflexivity.
  - word_lia.
  - cbn. lia.
  - apply Hok; [reflexivity|]. cbn. intros i j Hi Hj _ _. lia.
Defined.

Lemma transfer_guards_witness :
  @XSpi_Transfer _ (Demo.core false) 5 100 200 3 Demo.start = Ok (XST_DEVICE_IS_STOPPED, Demo.start).
Proof.
  apply (@transfer_guards _ (Demo.core false) 5 Demo.start 100 200 3);
    [reflexivity|discriminate|lia|discriminate].
Defined.

Lemma deselect_not_detected_witness : exists s1 v s2,
  @XSpi_SetSlaveSelect soft_spi 0 SpecDemo.started = Ok (XST_SUCCESS, s1) /\
  @XSpi_Transfer _ (Demo.core false) 50 100 200 3 s1 = Ok (v, s2) /\ v <> XST_SPI_NO_SLAVE.
Proof.
  do 3 eexists. split; [reflexivity|]. split; [vm_compute; reflexivity|].
  eapply (@deselect_not_detected _ (Demo.core false) 50 SpecDemo.started _ _ 100 200 3);
    [reflexivity|cbn; lia|reflexivity|vm_compute; reflexivity].
Defined.

Lemma mode_fault_aborts_witness : exists s1,
  @XSpi_InterruptHandler _ SpecDemo.faulty SpecDemo.note 5 SpecDemo.started =
    Ok (tt, SpecDemo.note 7 0 XST_SPI_MODE_FAULT 0 s1) /\ s1.(inst).(IsBusy) = FALSE.
Proof.
  destruct (@mode_fault_aborts _ SpecDemo.faulty SpecDemo.note 5 SpecDemo.started 7)
    as (s1 & E & Hi & _).
  - reflexivity.
  - reflexivity.
  - exists s1. split; [exact E|]. now rewrite Hi.
Defined.

Lemma driver_invariant_witness :
  wf SpecDemo.running.(inst) /\ SpecDemo.running.(inst).(IsStarted) = XIL_COMPONENT_IS_STARTED.
Proof.
  split; [|vm_compute; reflexivity].
  apply (@driver_invariant _ (Demo.core false) SpecDemo.note).
  - intros w id ref event n s Hs. exact Hs.
  - apply reach_call with (s := SpecDemo.initialised).
    + apply (reach_init _ SpecDemo.config 0x44B00000 Demo.start); [|vm_compute; reflexivity].
      split; cbn; [tauto|lia].
    + apply (call_start _ _ XST_SUCCESS). vm_compute. reflexivity.
Defined.

Lemma options_roundtrip_witness : exists s1 s2,
  @XSpi_SetOptions _ (Demo.core false) 0x16 Demo.start = Ok (XST_SUCCESS, s1) /\
  @XSpi_GetOptions _ (Demo.core false) s1 = Ok (0x16, s2).
Proof.
  destruct (@options_roundtrip Demo.counter _ (Demo.core false) _ (Demo.laws false) Demo.start 0x16)
    as (s1 & s2 & E1 & E2 & _); try reflexivity.
  now exists s1, s2.
Defined.
