(* ===== verification/Timeouts.v ===== *)
(** * Timers (lwip/src/core/timeouts.c)

    The delta list of pending timeouts: every entry holds the time after its
    predecessor.  The abstraction is the list of absolute due times [due]; the
    theorems say when the operations refine insertion, removal and expiry on
    that list, and what happens when they do not.  The clock, the application
    and the mailbox live in a parameter [W]; handlers act on it and may call
    back into the timer module. *)

From Stdlib Require Import ZArith List Lia Bool Sorted.
From S2P Require Import Prelude.
Import ListNotations.
Open Scope Z_scope.
Open Scope c_scope.

(** Functions a timeout can call: the two of timeouts.c or another module's;
    [other_h 0] is NULL, which is skipped. *)
Inductive handler := tcpip_tcp_timer_h | cyclic_timer_h | other_h (id : Z).

Definition handler_eqb (a b : handler) : bool :=
  match a, b with
  | tcpip_tcp_timer_h, tcpip_tcp_timer_h => true
  | cyclic_timer_h, cyclic_timer_h => true
  | other_h i, other_h j => i =? j
  | _, _ => false
  end.

(** [struct sys_timeo] *)
Record sys_timeo := mkTimeo { time : Z; h : handler; arg : Z }.
#[export] Instance sys_timeo_eta : Eta sys_timeo := { eta := fun r =>
  mkTimeo r.(time) r.(h) r.(arg) }.

Definition TCP_TMR_INTERVAL := 250.
Definition IP_TMR_INTERVAL := 1000.
Definition ARP_TMR_INTERVAL := 1000.

(** [lwip_cyclic_timers] in the default configuration (IPv4 with TCP,
    reassembly and ARP): the interval and the index of the handler. *)
Definition lwip_cyclic_timers : list Z := [TCP_TMR_INTERVAL; IP_TMR_INTERVAL; ARP_TMR_INTERVAL].

Section Timers.
Context {W : Type}.

(** The statics of timeouts.c, the free entries of the MEMP_SYS_TIMEOUT pool
    and the rest of the system. *)
Record tstate := mkTs {
  next_timeout : list sys_timeo; timeouts_last_time : Z; free_timeouts : nat;
  tcpip_tcp_timer_active : bool; world : W }.
#[export] Instance tstate_eta : Eta tstate := { eta := fun r =>
  mkTs r.(next_timeout) r.(timeouts_last_time) r.(free_timeouts)
    r.(tcpip_tcp_timer_active) r.(world) }.

(** The system clock; the cyclic handlers [tcp_tmr], [ip_reass_tmr] and
    [etharp_tmr] by index; whether TCP has PCBs that need the timer. *)
Context (sys_now : W -> Z) (tmr : Z -> W -> W) (tcp_has_pcbs : W -> bool).

(** The [for] loop of [sys_timeout]: [tm] goes behind the last entry that is
    due no later. *)
Fixpoint insert_after (msecs first : Z) (tm : sys_timeo) (l : list sys_timeo) : list sys_timeo :=
  match l with
  | [] => []
  | t :: rest =>
      let tm := tm <| time := u32 (tm.(time) - t.(time)) |> in
      match rest with
      | [] =>
          let tm := if tm.(time) >? msecs then tm <| time := u32 (msecs + first) |> else tm in
          [t; tm]
      | n :: r =>
          if n.(time) >? tm.(time)
          then t :: tm :: (n <| time := u32 (n.(time) - tm.(time)) |>) :: r
          else t :: insert_after msecs first tm rest
      end
  end.

(** [None]: the pool is empty and the assertion fails. *)
Definition sys_timeout (msecs : Z) (handler : handler) (arg : Z) (s : tstate) : option tstate :=
  match s.(free_timeouts) with
  | O => None
  | S free =>
      let now := sys_now s.(world) in
      let s := s <| free_timeouts := free |> in
      match s.(next_timeout) with
      | [] =>
          Some (s <| timeouts_last_time := now |>
                  <| next_timeout := [mkTimeo (u32 (msecs + 0)) handler arg] |>)
      | first :: rest =>
          let diff := u32 (now - s.(timeouts_last_time)) in
          let tm := mkTimeo (u32 (msecs + diff)) handler arg in
          if first.(time) >? msecs then
            Some (s <| next_timeout :=
                     tm :: (first <| time := u32 (first.(time) - msecs) |>) :: rest |>)
          else
            Some (s <| next_timeout := insert_after msecs first.(time) tm (first :: rest) |>)
      end
  end.

Definition matches (hd : handler) (a : Z) (t : sys_timeo) : bool :=
  handler_eqb t.(h) hd && (t.(arg) =? a).

(** Unlink the first match, giving its time to its successor; the result is
    [None] when nothing matches. *)
Fixpoint unlink (handler : handler) (arg : Z) (l : list sys_timeo) : option (list sys_timeo) :=
  match l with
  | [] => None
  | t :: rest =>
      if matches handler arg t then
        Some (match rest with
              | [] => []
              | n :: r => n <| time := u32 (n.(time) + t.(time)) |> :: r
              end)
      else match unlink handler arg rest with
           | Some rest' => Some (t :: rest')
           | None => None
           end
  end.

Definition sys_untimeout (handler : handler) (arg : Z) (s : tstate) : tstate :=
  match unlink handler arg s.(next_timeout) with
  | Some l => s <| next_timeout := l |> <| free_timeouts := S s.(free_timeouts) |>
  | None => s
  end.

(** Handlers of other modules. *)
Context (other : Z -> Z -> tstate -> option tstate).

Definition tcpip_tcp_timer (s : tstate) : option tstate :=
  let s := s <| world := tmr 0 s.(world) |> in
  if tcp_has_pcbs s.(world) then sys_timeout TCP_TMR_INTERVAL tcpip_tcp_timer_h 0 s
  else Some (s <| tcpip_tcp_timer_active := false |>).

Definition tcp_timer_needed (s : tstate) : option tstate :=
  if negb s.(tcpip_tcp_timer_active) && tcp_has_pcbs s.(world) then
    sys_timeout TCP_TMR_INTERVAL tcpip_tcp_timer_h 0 (s <| tcpip_tcp_timer_active := true |>)
  else Some s.

(** [arg] points to an entry of [lwip_cyclic_timers]: its index here. *)
Definition cyclic_timer (arg : Z) (s : tstate) : option tstate :=
  let s := s <| world := tmr arg s.(world) |> in
  sys_timeout (nth (Z.to_nat arg) lwip_cyclic_timers 0) cyclic_timer_h arg s.

Fixpoint start_cyclic (idx : list Z) (s : tstate) : option tstate :=
  match idx with
  | [] => Some s
  | i :: rest =>
      let* s := sys_timeout (nth (Z.to_nat i) lwip_cyclic_timers 0) cyclic_timer_h i s in
      start_cyclic rest s
  end.

Definition sys_timeouts_init (s : tstate) : option tstate :=
  let* s := start_cyclic [1; 2] s in
  Some (s <| timeouts_last_time := sys_now s.(world) |>).

Definition call_handler (hd : handler) (arg : Z) (s : tstate) : option tstate :=
  match hd with
  | tcpip_tcp_timer_h => tcpip_tcp_timer s
  | cyclic_timer_h => cyclic_timer arg s
  | other_h id => if id =? 0 then Some s else other id arg s
  end.

(** The [do ... while (had_one)] loop.  PBUF_CHECK_FREE_OOSEQ(), at the start of
    each turn, is empty with NO_SYS 0, the value of opt.h.  A handler that rearms itself with no
    delay keeps it busy, so it runs on fuel: [Halt] is a failed assertion,
    [Hang] no fuel. *)
Fixpoint expire (fuel : nat) (diff : Z) (s : tstate) : res tstate :=
  match fuel with
  | O => Hang
  | S n =>
      match s.(next_timeout) with
      | t :: rest =>
          if t.(time) <=? diff then
            let s := s <| timeouts_last_time := u32 (s.(timeouts_last_time) + t.(time)) |>
                       <| next_timeout := rest |>
                       <| free_timeouts := S s.(free_timeouts) |> in
            match call_handler t.(h) t.(arg) s with
            | Some s => expire n (u32 (diff - t.(time))) s
            | None => Halt
            end
          else Ok s
      | [] => Ok s
      end
  end.

Definition sys_check_timeouts (fuel : nat) (s : tstate) : res tstate :=
  match s.(next_timeout) with
  | [] => Ok s
  | _ => expire fuel (u32 (sys_now s.(world) - s.(timeouts_last_time))) s
  end.

Definition sys_restart_timeouts (s : tstate) : tstate :=
  s <| timeouts_last_time := sys_now s.(world) |>.

Definition sys_timeouts_sleeptime (s : tstate) : Z :=
  match s.(next_timeout) with
  | [] => 0xffffffff
  | t :: _ =>
      let diff := u32 (sys_now s.(world) - s.(timeouts_last_time)) in
      if diff >? t.(time) then 0 else u32 (t.(time) - diff)
  end.

(** The mailbox: a message, or [None] for SYS_ARCH_TIMEOUT. *)
Context (sys_arch_mbox_fetch : Z -> W -> option Z * W).

Fixpoint sys_timeouts_mbox_fetch (fuel : nat) (s : tstate) : res (option Z * tstate) :=
  match fuel with
  | O => Hang
  | S n =>
      match s.(next_timeout) with
      | [] =>
          let '(msg, w) := sys_arch_mbox_fetch 0 s.(world) in Ok (msg, s <| world := w |>)
      | _ =>
          let sleeptime := sys_timeouts_sleeptime s in
          let again s :=
            match sys_check_timeouts n s with
            | Ok s => sys_timeouts_mbox_fetch n s
            | Halt => Halt
            | Hang => Hang
            end in
          if sleeptime =? 0 then again s else
          let '(msg, w) := sys_arch_mbox_fetch sleeptime s.(world) in
          match msg with
          | Some m => Ok (Some m, s <| world := w |>)
          | None => again (s <| world := w |>)
          end
      end
  end.
End Timers.
Arguments tstate : clear implicits.
Arguments mkTs {W}.

(** ** Due times *)

(** An entry with its absolute due time. *)
Definition entry : Type := Z * handler * Z.
Definition due_at (e : entry) : Z := fst (fst e).

Fixpoint due (base : Z) (l : list sys_timeo) : list entry :=
  match l with
  | [] => []
  | t :: r => (base + t.(time), t.(h), t.(arg)) :: due (base + t.(time)) r
  end.

Fixpoint total (l : list sys_timeo) : Z :=
  match l with [] => 0 | t :: r => t.(time) + total r end.

(** Times are words and the last entry is due within 2^32 ms. *)
Definition times_ok (l : list sys_timeo) : Prop :=
  Forall (fun t => 0 <= t.(time)) l /\ total l < 4294967296.

(** The abstract operations: insert behind the entries due no later, remove
    the first match, postpone. *)
Fixpoint insert_due (e : entry) (l : list entry) : list entry :=
  match l with
  | [] => [e]
  | x :: r => if due_at e <? due_at x then e :: l else x :: insert_due e r
  end.

Fixpoint remove_due (hd : handler) (a : Z) (l : list entry) : list entry :=
  match l with
  | [] => []
  | x :: r =>
      if handler_eqb (snd (fst x)) hd && (snd x =? a) then r else x :: remove_due hd a r
  end.

Definition postpone (d : Z) (e : entry) : entry := (due_at e + d, snd (fst e), snd e).

Lemma times_nonneg l : Forall (fun t => 0 <= t.(time)) l -> 0 <= total l.
Proof. induction 1; cbn; lia. Qed.

Lemma times_ok_cons t l : times_ok (t :: l) ->
  0 <= t.(time) /\ 0 <= total l /\ t.(time) + total l < 4294967296 /\ times_ok l.
Proof.
  intros [Hf Ht]. cbn [total] in Ht. inversion Hf; subst. pose proof (times_nonneg l H2).
  unfold times_ok. repeat split; (assumption || lia).
Qed.

Lemma due_app l1 : forall base l2, due base (l1 ++ l2) = due base l1 ++ due (base + total l1) l2.
Proof.
  induction l1 as [|t l1 IH]; intros; cbn [due app total]; [now rewrite Z.add_0_r|].
  rewrite IH. now replace (base + (time t + total l1)) with (base + time t + total l1) by lia.
Qed.

Lemma due_shift d l : forall base, due (base + d) l = map (postpone d) (due base l).
Proof.
  induction l as [|t l IH]; intros; cbn [due map]; [reflexivity|]. unfold postpone at 1, due_at. cbn [fst snd].
  replace (base + d + time t) with (base + time t + d) by lia. now rewrite IH.
Qed.

(** The insertion loop refines [insert_due] when the new entry is not due
    before the first one, nor more than [msecs] after the last. *)
Lemma insert_after_due msecs first tm l : forall base T,
  tm.(time) = T -> l <> [] -> (forall t r, l = t :: r -> t.(time) <= T) ->
  times_ok l -> 0 <= T < 4294967296 -> T - total l <= msecs ->
  due base (insert_after msecs first tm l) = insert_due (base + T, tm.(h), tm.(arg)) (due base l) /\
  Forall (fun t => 0 <= t.(time)) (insert_after msecs first tm l) /\
  total (insert_after msecs first tm l) = Z.max (total l) T.
Proof.
  revert tm. induction l as [|t rest IH]; intros tm base T HT Hne Hfirst Hok Hrange Hlate; [contradiction|].
  pose proof (Hfirst t rest eq_refl) as Hle. destruct (times_ok_cons _ _ Hok) as (H0 & H1 & H2 & Hok').
  cbn [insert_after total] in *. cbn [time with_field]. rewrite HT, u32_id by word_lia.
  cbn [due insert_due due_at fst].
  replace (base + T <? base + time t) with false by (symmetry; apply Z.ltb_ge; lia).
  destruct rest as [|n r].
  - cbn [total] in *. replace (T - time t >? msecs) with false by (symmetry; rewrite Z.gtb_ltb; apply Z.ltb_ge; lia).
    cbn [due insert_due time h arg with_field total]. split; [|split].
    + now replace (base + time t + (T - time t)) with (base + T) by lia.
    + repeat apply Forall_cons; cbn; (apply Forall_nil || lia).
    + lia.
  - destruct (times_ok_cons _ _ Hok') as (H3 & H4 & H5 & Hok'').
    rewrite Z.gtb_ltb. destruct (Z.ltb_spec (T - time t) (time n)) as [Hlt|Hge].
    + rewrite u32_id by word_lia. cbn [due insert_due due_at fst time h arg with_field total] in *.
      replace (base + T <? base + time t + time n) with true by (symmetry; apply Z.ltb_lt; lia).
      split; [|split].
      * replace (base + time t + (T - time t)) with (base + T) by lia.
        now replace (base + T + (time n - (T - time t))) with (base + time t + time n) by lia.
      * repeat apply Forall_cons; cbn; try lia. apply Hok''.
      * lia.
    + destruct (IH (tm <| time := T - time t |>) (base + time t) (T - time t)) as (IHd & IHf & IHt);
        cbn [time with_field]; try lia; try assumption; try discriminate.
      { intros t' r' E. injection E as <- <-. lia. }
      cbn [h arg with_field] in IHd, IHf, IHt. cbn [due total]. rewrite IHd, IHt.
      replace (base + time t + (T - time t)) with (base + T) by lia.
      split; [reflexivity|]. split; [now apply Forall_cons|cbn [total]; lia].
Qed.

Section Theorems.
Context {W : Type} (sys_now : W -> Z).
Implicit Types (s : tstate W).

(** Milliseconds since the time base of the list. *)
Definition elapsed s : Z := u32 (sys_now s.(world) - s.(timeouts_last_time)).

(** [sys_timeout] on a non-empty list puts the new timeout exactly where
    it is due, [msecs] from now, behind entries due no later, and moves no
    other entry, provided the time base is current ([elapsed] is 0) or the
    first entry is not later than [msecs] and the base is not older than the
    whole list.  The list stays well formed. *)
Theorem sys_timeout_inserts msecs hd a s first rest :
  s.(next_timeout) = first :: rest -> times_ok s.(next_timeout) -> s.(free_timeouts) <> O ->
  0 <= msecs -> msecs + elapsed s < 4294967296 ->
  elapsed s = 0 \/ (first.(time) <= msecs /\ elapsed s <= total s.(next_timeout)) ->
  exists s', sys_timeout sys_now msecs hd a s = Some s' /\
    let base := s.(timeouts_last_time) in
    s'.(timeouts_last_time) = base /\
    due base s'.(next_timeout) =
      insert_due (base + elapsed s + msecs, hd, a) (due base s.(next_timeout)) /\
    times_ok s'.(next_timeout).
Proof.
  intros Hl Hok Hfree Hm Hsum Hcase. unfold sys_timeout.
  destruct (free_timeouts s) as [|free]; [contradiction|].
  cbn [next_timeout timeouts_last_time world with_field]. rewrite Hl in *. fold (elapsed s).
  assert (He : 0 <= elapsed s) by (unfold elapsed; pose proof (u32_ok (sys_now (world s) - timeouts_last_time s)); word_lia).
  destruct (times_ok_cons _ _ Hok) as (H0 & H1 & H2 & Hok').
  rewrite Z.gtb_ltb. destruct (Z.ltb_spec msecs (time first)) as [Hlt|Hge].
  - assert (elapsed s = 0) as E0 by lia. eexists. split; [reflexivity|].
    cbn [next_timeout timeouts_last_time with_field]. split; [reflexivity|].
    rewrite E0, Z.add_0_r, !u32_id by word_lia. cbn [due insert_due due_at fst time h arg with_field].
    replace (timeouts_last_time s + 0 + msecs) with (timeouts_last_time s + msecs) by lia.
    replace (_ <? _) with true by (symmetry; apply Z.ltb_lt; lia). split.
    + now replace (timeouts_last_time s + msecs + (time first - msecs))
        with (timeouts_last_time s + time first) by lia.
    + split; [repeat apply Forall_cons; cbn; try lia; apply Hok'|cbn; lia].
  - eexists. split; [reflexivity|]. cbn [next_timeout timeouts_last_time with_field].
    split; [reflexivity|]. rewrite u32_id by word_lia.
    destruct (insert_after_due msecs (time first) (mkTimeo (msecs + elapsed s) hd a) (first :: rest)
                (timeouts_last_time s) (msecs + elapsed s)) as (Hd & Hf & Ht);
      try assumption; try reflexivity; try discriminate; try lia.
    { intros t r E. injection E as <- <-. lia. }
    { destruct Hcase; cbn [total] in *; lia. }
    rewrite Hd. cbn [h arg]. split.
    + now replace (timeouts_last_time s + (msecs + elapsed s))
        with (timeouts_last_time s + elapsed s + msecs) by lia.
    + split; [assumption|]. rewrite Ht. cbn [total]. lia.
Qed.

(** When the first pending timeout is later than [msecs], [sys_timeout]
    postpones every pending timeout by the time elapsed since the list's time
    base: it subtracts [msecs] from the first entry where the new entry in
    front of it takes [msecs + elapsed]. *)
Theorem sys_timeout_delays_others msecs hd a s first rest :
  s.(next_timeout) = first :: rest -> times_ok s.(next_timeout) -> s.(free_timeouts) <> O ->
  0 <= msecs < first.(time) -> msecs + elapsed s < 4294967296 ->
  exists s', sys_timeout sys_now msecs hd a s = Some s' /\
    let base := s.(timeouts_last_time) in
    s'.(timeouts_last_time) = base /\
    due base s'.(next_timeout) =
      (base + elapsed s + msecs, hd, a) :: map (postpone (elapsed s)) (due base s.(next_timeout)).
Proof.
  intros Hl Hok Hfree Hm Hsum. unfold sys_timeout.
  destruct (free_timeouts s) as [|free]; [contradiction|].
  cbn [next_timeout timeouts_last_time world with_field]. rewrite Hl in *. fold (elapsed s).
  assert (He : 0 <= elapsed s) by (unfold elapsed; pose proof (u32_ok (sys_now (world s) - timeouts_last_time s)); word_lia).
  destruct (times_ok_cons _ _ Hok) as (H0 & H1 & H2 & _).
  rewrite Z.gtb_ltb, (proj2 (Z.ltb_lt _ _)) by lia.
  eexists. split; [reflexivity|]. cbn [next_timeout timeouts_last_time with_field].
  split; [reflexivity|]. rewrite !u32_id by word_lia. rewrite <- due_shift.
  cbn [due time h arg with_field]. set (b := timeouts_last_time s).
  replace (b + (msecs + elapsed s)) with (b + elapsed s + msecs) by lia.
  now replace (b + elapsed s + msecs + (time first - msecs)) with (b + elapsed s + time first) by lia.
Qed.

Lemma unlink_due hd a l : forall base, times_ok l ->
  match unlink hd a l with
  | Some l' => due base l' = remove_due hd a (due base l) /\ Forall (fun t => 0 <= t.(time)) l' /\
               total l' <= total l /\ S (length l') = length l
  | None => remove_due hd a (due base l) = due base l
  end.
Proof.
  induction l as [|t rest IH]; intros base Hok; cbn [unlink due remove_due]; [reflexivity|].
  destruct (times_ok_cons _ _ Hok) as (H0 & H1 & H2 & Hok'). unfold matches. cbn [fst snd].
  destruct (handler_eqb (h t) hd && (arg t =? a)) eqn:Em.
  - destruct rest as [|n r]; [repeat split; [constructor|cbn; lia]|].
    destruct (times_ok_cons _ _ Hok') as (H3 & H4 & H5 & Hok'').
    cbn [total] in *. rewrite u32_id by word_lia. cbn [due time h arg with_field].
    replace (base + (time n + time t)) with (base + time t + time n) by lia.
    split; [reflexivity|]. split; [apply Forall_cons; [cbn; lia|apply Hok'']|].
    split; [cbn; lia|reflexivity].
  - specialize (IH (base + time t) Hok'). destruct (unlink hd a rest) as [l'|]; cbn [due].
    + destruct IH as (-> & Hf & Ht & Hlen). split; [reflexivity|].
      split; [now apply Forall_cons|]. cbn [total length]. lia.
    + now rewrite IH.
Qed.

(** [sys_untimeout] removes exactly the first matching timeout, returns
    its entry to the pool, and leaves every other timeout due when it was;
    without a match nothing changes. *)
Theorem sys_untimeout_removes hd a s : times_ok s.(next_timeout) ->
  let s' := sys_untimeout hd a s in
  let base := s.(timeouts_last_time) in
  due base s'.(next_timeout) = remove_due hd a (due base s.(next_timeout)) /\
  times_ok s'.(next_timeout) /\ s'.(timeouts_last_time) = base /\
  (s'.(free_timeouts) + length s'.(next_timeout) = s.(free_timeouts) + length s.(next_timeout))%nat.
Proof.
  intros Hok. unfold sys_untimeout.
  pose proof (unlink_due hd a _ s.(timeouts_last_time) Hok) as Hu.
  destruct (unlink hd a (next_timeout s)) as [l'|]; cbn [next_timeout timeouts_last_time free_timeouts with_field].
  - destruct Hu as (Hd & Hf & Ht & Hlen). destruct Hok. split; [assumption|].
    split; [split; [assumption|lia]|]. split; [reflexivity|lia].
  - now rewrite Hu.
Qed.

(** ** Expiry *)

Context (tmr : Z -> W -> W) (pcbs : W -> bool) (other : Z -> Z -> tstate W -> option (tstate W)).

(** The entries expired at [diff], in list order, and the ones left. *)
Fixpoint expired (diff : Z) (l : list sys_timeo) : list sys_timeo * list sys_timeo :=
  match l with
  | [] => ([], [])
  | t :: r =>
      if t.(time) <=? diff then let '(f, k) := expired (diff - t.(time)) r in (t :: f, k)
      else ([], l)
  end.

Lemma expired_app l : forall diff, l = fst (expired diff l) ++ snd (expired diff l).
Proof.
  induction l as [|t r IH]; intros; cbn [expired]; [reflexivity|].
  destruct (time t <=? diff); [|reflexivity]. specialize (IH (diff - time t)).
  destruct (expired _ r). cbn [fst snd app] in *. now rewrite <- IH.
Qed.

(** The split is by due time. *)
Lemma expired_due l : forall base diff, Forall (fun t => 0 <= t.(time)) l ->
  Forall (fun e => due_at e <= base + diff) (due base (fst (expired diff l))) /\
  Forall (fun e => base + diff < due_at e)
    (due (base + total (fst (expired diff l))) (snd (expired diff l))).
Proof.
  induction l as [|t r IH]; intros base diff Hf; cbn [expired]; [split; constructor|].
  inversion Hf as [|? ? Ht Hr]; subst. destruct (Z.leb_spec (time t) diff) as [Hle|Hgt].
  - destruct (IH (base + time t) (diff - time t) Hr) as [H1 H2].
    destruct (expired (diff - time t) r) as [f k]. cbn [fst snd due total] in *.
    replace (base + time t + (diff - time t)) with (base + diff) in * by lia.
    replace (base + (time t + total f)) with (base + time t + total f) by lia.
    split; [apply Forall_cons; [cbn; lia|assumption]|assumption].
  - cbn [fst snd due total]. split; [constructor|]. rewrite Z.add_0_r.
    apply Forall_cons; [cbn; lia|].
    assert (Hlater : forall l b, Forall (fun t => 0 <= t.(time)) l -> base + diff < b ->
      Forall (fun e => base + diff < due_at e) (due b l)).
    { clear. induction l as [|t l IH]; intros b Hf Hb; cbn [due]; constructor; inversion Hf; subst.
      - cbn. lia.
      - apply IH; [assumption|lia]. }
    apply Hlater; [assumption|lia].
Qed.

(** Handlers that only act on the rest of the system. *)
Definition inert (eff : handler -> Z -> W -> W) (l : list sys_timeo) : Prop :=
  forall t, In t l -> forall st,
    call_handler sys_now tmr pcbs other t.(h) t.(arg) st =
    Some (st <| world := eff t.(h) t.(arg) st.(world) |>).

Lemma expire_inert eff l : forall fuel diff s,
  s.(next_timeout) = l -> times_ok l -> 0 <= diff < 4294967296 -> (length l < fuel)%nat ->
  inert eff l ->
  let fired := fst (expired diff l) in
  exists s', expire sys_now tmr pcbs other fuel diff s = Ok s' /\
    s'.(next_timeout) = snd (expired diff l) /\
    s'.(timeouts_last_time) mod 4294967296 = (s.(timeouts_last_time) + total fired) mod 4294967296 /\
    s'.(world) = fold_left (fun w t => eff t.(h) t.(arg) w) fired s.(world) /\
    s'.(free_timeouts) = (s.(free_timeouts) + length fired)%nat.
Proof.
  induction l as [|t r IH]; intros fuel diff s Hl Hok Hd Hfuel Hin;
    destruct fuel as [|fuel]; try (cbn in Hfuel; lia); cbn [expire expired]; rewrite Hl.
  - exists s. cbn [fst snd total length fold_left]. rewrite Z.add_0_r, Nat.add_0_r. now repeat split.
  - destruct (times_ok_cons _ _ Hok) as (H0 & H1 & H2 & Hok').
    destruct (Z.leb_spec (time t) diff) as [Hle|Hgt].
    + rewrite (Hin t (or_introl eq_refl)), u32_id by word_lia.
      match goal with |- context [expire _ _ _ _ fuel _ ?st] => set (s1 := st) end.
      destruct (IH fuel (diff - time t) s1) as (s' & E & Hn & Hlast & Hw & Hf);
        [reflexivity|assumption|lia|cbn in Hfuel; lia|intros u Hu; apply Hin; now right|].
      destruct (expired (diff - time t) r) as [f k]. cbn [fst snd total length fold_left] in *.
      exists s'. split; [exact E|]. split; [exact Hn|]. split; [|split; [exact Hw|]].
      * rewrite Hlast. unfold s1. cbn [timeouts_last_time with_field]. unfold u32.
        rewrite Zplus_mod_idemp_l. f_equal. lia.
      * rewrite Hf. unfold s1. cbn [free_timeouts with_field]. lia.
    + exists s. cbn [fst snd total length fold_left]. rewrite Z.add_0_r, Nat.add_0_r. now repeat split.
Qed.

(** C29: When the handlers of the pending timeouts do not touch the timer
    module, [sys_check_timeouts] terminates and calls exactly the handlers of
    the timeouts due by now, each once and in order of due time; the others
    keep their due time, and the pool entries come back. *)
Theorem sys_check_timeouts_fires eff fuel s :
  times_ok s.(next_timeout) -> (length s.(next_timeout) < fuel)%nat ->
  inert eff s.(next_timeout) ->
  let base := s.(timeouts_last_time) in
  exists s' fired, sys_check_timeouts sys_now tmr pcbs other fuel s = Ok s' /\
    s'.(world) = fold_left (fun w t => eff t.(h) t.(arg) w) fired s.(world) /\
    s.(next_timeout) = fired ++ s'.(next_timeout) /\
    Forall (fun e => due_at e <= base + elapsed s) (due base fired) /\
    Forall (fun e => base + elapsed s < due_at e) (due (base + total fired) s'.(next_timeout)) /\
    s'.(timeouts_last_time) mod 4294967296 = (base + total fired) mod 4294967296 /\
    s'.(free_timeouts) = (s.(free_timeouts) + length fired)%nat.
Proof.
  intros Hok Hfuel Hin base. unfold sys_check_timeouts.
  assert (He : 0 <= elapsed s < 4294967296)
    by (unfold elapsed; pose proof (u32_ok (sys_now (world s) - timeouts_last_time s)); word_lia).
  destruct (expire_inert eff _ fuel (elapsed s) s eq_refl Hok He Hfuel Hin)
    as (s' & E & Hn & Hlast & Hw & Hf).
  destruct (expired_due (next_timeout s) base (elapsed s) (proj1 Hok)) as [H1 H2].
  pose proof (expired_app (next_timeout s) (elapsed s)) as Happ.
  exists s', (fst (expired (elapsed s) (next_timeout s))). rewrite Hn. split; [|now repeat split].
  destruct (next_timeout s) eqn:El; [|exact E].
  destruct fuel; [cbn in Hfuel; lia|]. cbn [expire] in E. now rewrite El in E.
Qed.

(** ** Handlers that start their timeout again *)

(** A timeout that is so late that the list is taken for stale goes to the end,
    with the time the code makes up for it. *)
Lemma insert_after_end msecs first tm l : forall T, tm.(time) = T -> l <> [] -> Forall (fun t => 0 <= t.(time)) l -> total l <= T < 4294967296 -> msecs < T - total l ->
  insert_after msecs first tm l = l ++ [tm <| time := u32 (msecs + first) |>].
Proof.
  revert tm. induction l as [|t rest IH]; intros tm T HT Hne Hf Hr Hlate; [contradiction|]. apply Forall_cons_iff in Hf. destruct Hf as [H0 Hf]. pose proof (times_nonneg rest Hf) as Hn. cbn [total] in Hr, Hlate. cbn [insert_after]. cbn [time with_field]. rewrite HT, u32_id by word_lia.
  destruct rest as [|n r].
  - cbn [total] in *. rewrite Z.gtb_ltb, (proj2 (Z.ltb_lt _ _)) by lia. reflexivity.
  - cbn [total] in Hr, Hlate, Hn. pose proof (proj1 (proj1 (Forall_cons_iff _ _ _) Hf)) as H3. pose proof (times_nonneg r (proj2 (proj1 (Forall_cons_iff _ _ _) Hf))) as H4. rewrite Z.gtb_ltb, (proj2 (Z.ltb_ge _ _)) by lia. refine (f_equal (cons t) (IH (tm <| time := T - time t |>) (T - time t) eq_refl _ Hf _ _)); [discriminate|cbn [total]; lia|cbn [total]; lia].
Qed.

(** The timeouts due within [diff]. *)
Definition count (diff : Z) (l : list sys_timeo) : nat := length (filter (fun e => due_at e <=? diff) (due 0 l)).
(** How many more turns the loop can make. *)
Definition turns (diff : Z) (l : list sys_timeo) : nat := (count diff l + Z.to_nat (Z.max 0 (diff - total l)))%nat.

Lemma count_shift d diff l : forall base, length (filter (fun e => due_at e <=? diff + d) (due (base + d) l)) = length (filter (fun e => due_at e <=? diff) (due base l)).
Proof.
  induction l as [|t r IH]; intros base; [reflexivity|]. cbn [due filter due_at fst]. replace (base + d + time t) with (base + time t + d) by lia.
  destruct (Z.leb_spec (base + time t + d) (diff + d)), (Z.leb_spec (base + time t) diff); try lia; cbn [length]; now rewrite IH.
Qed.
Lemma count_pop diff t r : t.(time) <= diff -> count diff (t :: r) = S (count (diff - t.(time)) r).
Proof.
  intros H. unfold count. cbn [due filter due_at fst]. rewrite (proj2 (Z.leb_le _ _)) by lia. cbn [length]. f_equal. rewrite <- (count_shift (time t) (diff - time t) r 0). now replace (diff - time t + time t) with diff by lia.
Qed.
Lemma count_insert diff e l : diff < due_at e -> filter (fun e => due_at e <=? diff) (insert_due e l) = filter (fun e => due_at e <=? diff) l.
Proof.
  intros H. induction l as [|x r IH]; cbn [insert_due]; [cbn [filter]; now rewrite (proj2 (Z.leb_gt _ _)) by lia|]. destruct (_ <? _); cbn [filter]; [now rewrite (proj2 (Z.leb_gt (due_at e) _)) by lia|now rewrite IH].
Qed.
Lemma count_length diff l : (count diff l <= length l)%nat.
Proof. unfold count. rewrite filter_length_le. replace (length (due 0 l)) with (length l); [lia|]. generalize 0. induction l as [|t r IH]; intros b; [reflexivity|]. cbn [due length]. now rewrite <- IH. Qed.
Lemma count_end diff l x : count diff (l ++ [x]) = (count diff l + if (total l + x.(time) <=? diff)%Z then 1 else 0)%nat.
Proof. unfold count. rewrite due_app, filter_app, length_app. f_equal. cbn [due filter due_at fst]. rewrite Z.add_0_l. now destruct (_ <=? _). Qed.

Lemma timeo_total_app l1 l2 : total (l1 ++ l2) = total l1 + total l2.
Proof. induction l1 as [|t l1 IH]; cbn [app total]; lia. Qed.

(** The insertion keeps handlers and arguments. *)
Lemma insert_after_members (P : handler -> Z -> Prop) msecs first l : forall tm, l <> [] -> Forall (fun t => P t.(h) t.(arg)) l -> P tm.(h) tm.(arg) ->
  Forall (fun t => P t.(h) t.(arg)) (insert_after msecs first tm l) /\ length (insert_after msecs first tm l) = S (length l).
Proof.
  induction l as [|t rest IH]; intros tm Hne Hf Hp; [contradiction|]. apply Forall_cons_iff in Hf. destruct Hf as [Ht Hf]. cbn [insert_after]. destruct rest as [|n r].
  - split; [|reflexivity]. apply Forall_cons; [exact Ht|]. apply Forall_cons; [|constructor]. now destruct (_ >? _).
  - destruct (_ >? _).
    + pose proof (proj1 (Forall_cons_iff _ _ _) Hf) as [Hn Hr]. split; [|reflexivity]. now repeat (apply Forall_cons; [assumption|]).
    + destruct (IH (tm <| time := u32 (time tm - time t) |>) ltac:(discriminate) Hf Hp) as [H1 H2]. split; [now apply Forall_cons|]. exact (f_equal S H2).
Qed.

Section Ending.
(** A handler takes at most [c] milliseconds; those of other modules do not touch
    the timers. *)
Context (c : Z) (Hc : 0 <= c).
Definition ticks (w w' : W) : Prop := u32 (sys_now w' - sys_now w) <= c.
Hypothesis tmr_ticks : forall i w, ticks w (tmr i w).
Hypothesis other_ticks : forall id a st, exists w, ticks st.(world) w /\ other id a st = Some (st <| world := w |>).

(** The argument of [cyclic_timer] is an entry of the table. *)
Definition known (hd : handler) (a : Z) : Prop := match hd with cyclic_timer_h => 0 <= a < 3 | _ => True end.

Lemma ticks_refl w : ticks w w.
Proof. unfold ticks. rewrite Z.sub_diag. exact Hc. Qed.

Lemma handler_called t st : known t.(h) t.(arg) -> exists w b, ticks st.(world) w /\
  (call_handler sys_now tmr pcbs other t.(h) t.(arg) st = Some (st <| world := w |> <| tcpip_tcp_timer_active := b |>) \/
   exists m a, 0 < m <= 1000 /\ known t.(h) a /\ call_handler sys_now tmr pcbs other t.(h) t.(arg) st = sys_timeout sys_now m t.(h) a (st <| world := w |>)).
Proof.
  intros Hk. destruct t as [d [| |id] a]; cbn [h arg known call_handler] in *.
  - exists (tmr 0 (world st)). unfold tcpip_tcp_timer. cbv zeta. cbn [world with_field]. destruct (pcbs _).
    + exists false. split; [apply tmr_ticks|]. right. exists TCP_TMR_INTERVAL, 0. split; [unfold TCP_TMR_INTERVAL; lia|now split].
    + exists false. split; [apply tmr_ticks|]. now left.
  - exists (tmr a (world st)), false. split; [apply tmr_ticks|]. right. exists (nth (Z.to_nat a) lwip_cyclic_timers 0), a. split; [|now split].
    assert (C : a = 0 \/ a = 1 \/ a = 2) by lia. destruct C as [-> |[-> | ->]]; vm_compute; split; (reflexivity || discriminate).
  - destruct (id =? 0).
    + exists (world st), (tcpip_tcp_timer_active st). split; [apply ticks_refl|]. left. now destruct st.
    + destruct (other_ticks id a st) as (w & Hw & E). exists w, (tcpip_tcp_timer_active st). split; [exact Hw|]. left. rewrite E. now destruct st.
Qed.

Definition all_known (l : list sys_timeo) : Prop := Forall (fun t => known t.(h) t.(arg)) l.

(** A timeout that a handler starts again does not add to the turns of the loop. *)
Lemma rearm_turns m hd a s d f : let l := s.(next_timeout) in 0 < m <= 1000 -> known hd a -> times_ok l -> all_known l -> s.(free_timeouts) = S f -> 0 <= d ->
  (l <> [] -> d <= elapsed s /\ elapsed s + 2000 < 4294967296) ->
  exists s2, sys_timeout sys_now m hd a s = Some s2 /\ s2.(free_timeouts) = f /\ length s2.(next_timeout) = S (length l) /\ all_known s2.(next_timeout) /\
    ((exists t r, s2.(next_timeout) = t :: r /\ d < t.(time)) \/
     (times_ok s2.(next_timeout) /\ (turns d s2.(next_timeout) <= turns d l)%nat /\ (length s2.(next_timeout) = 1%nat \/ elapsed s2 = elapsed s))).
Proof.
  intros l Hm Hk Hok Hall Hf Hd He. unfold sys_timeout. rewrite Hf. cbn [next_timeout timeouts_last_time world with_field]. fold l. fold (elapsed s). destruct l as [|x r] eqn:El.
  - eexists. split; [reflexivity|]. split; [reflexivity|]. split; [reflexivity|]. cbn [next_timeout with_field]. rewrite Z.add_0_r, u32_id by word_lia. split; [now repeat constructor|]. right.
    split; [split; [repeat constructor; cbn; lia|cbn; lia]|]. split; [|now left]. unfold turns, count. cbn [due filter due_at fst time total]. destruct (Z.leb_spec (0 + m) d); cbn [length]; lia.
  - destruct (He ltac:(discriminate)) as [He1 He2]. clear He. destruct (times_ok_cons _ _ Hok) as (H0 & H1 & H2 & Hok'). rewrite Z.gtb_ltb. destruct (Z.ltb_spec m (time x)) as [Hlt|Hge].
    + eexists. split; [reflexivity|]. split; [reflexivity|]. split; [reflexivity|]. cbn [next_timeout with_field]. apply Forall_cons_iff in Hall. destruct Hall as [Hx Hr]. split; [now repeat (apply Forall_cons; [assumption|])|].
      left. eexists _, _. split; [reflexivity|]. cbn [time]. rewrite u32_id by word_lia. lia.
    + set (T := m + elapsed s). rewrite (u32_id T) by (unfold T; word_lia). set (tm := mkTimeo T hd a). destruct (insert_after_members known m (time x) (x :: r) tm ltac:(discriminate) Hall Hk) as [Hall' Hlen].
      eexists. split; [reflexivity|]. split; [reflexivity|]. cbn [next_timeout with_field]. split; [exact Hlen|]. split; [exact Hall'|]. right. destruct (Z.le_gt_cases (T - total (x :: r)) m) as [Hin|Hout].
      * destruct (insert_after_due m (time x) tm (x :: r) 0 T) as (Hdue & Hnn & Htot); try assumption; try reflexivity; try discriminate; [intros t r' E; injection E as <- <-; unfold T; lia|unfold T; lia|]. cbn [total] in Htot.
        split; [split; [exact Hnn|rewrite Htot; unfold T; lia]|]. split; [|now right]. unfold turns, count. rewrite Hdue, count_insert by (cbn; unfold T; lia). rewrite Htot. unfold T. lia.
      * rewrite (insert_after_end m (time x) tm (x :: r) T eq_refl ltac:(discriminate) (proj1 Hok)) by (unfold T in *; lia). rewrite u32_id by (cbn [total] in Hout; unfold T in *; word_lia). set (y := tm <| time := m + time x |>). assert (Hy : time y = m + time x) by reflexivity. clearbody y.
        split; [split; [apply Forall_app; split; [exact (proj1 Hok)|apply Forall_cons; [lia|constructor]]|rewrite timeo_total_app; cbn [total] in *; unfold T in *; lia]|]. split; [|now right].
        unfold turns. rewrite count_end, timeo_total_app. cbn [total] in *. destruct (Z.leb_spec (time x + total r + time y) d); lia.
Qed.

Lemma elapsed_pop (s : tstate W) t0 w l f b : ticks s.(world) w -> 0 <= t0 <= elapsed s -> elapsed s + c < 4294967296 ->
  elapsed s - t0 <= elapsed (mkTs l (u32 (s.(timeouts_last_time) + t0)) f b w) <= elapsed s - t0 + c.
Proof.
  unfold ticks, elapsed. cbn [world timeouts_last_time]. set (x := sys_now w). set (y := sys_now (world s)). set (z := timeouts_last_time s). intros Hk Ht Hb.
  assert (E : u32 (x - u32 (z + t0)) = u32 (y - z) - t0 + u32 (x - y)).
  { rewrite <- (u32_id (u32 (y - z) - t0 + u32 (x - y))) by (pose proof (u32_ok (x - y)); word_lia). unfold u32. rewrite Zminus_mod_idemp_r, Zplus_mod_idemp_r.
    replace ((y - z) mod 4294967296 - t0 + (x - y)) with ((y - z) mod 4294967296 + (- t0 + (x - y))) by lia. rewrite Zplus_mod_idemp_l. f_equal. lia. }
  pose proof (u32_ok (x - y)) as Hu. unfold is_u32 in Hu. lia.
Qed.

Lemma expire_ends fuel : forall diff s A, let l := s.(next_timeout) in (turns diff l < fuel)%nat -> times_ok l -> all_known l -> 0 <= diff -> 0 <= A ->
  ((length l <= 1)%nat \/ diff <= elapsed s <= diff + A) -> diff + A + c * Z.of_nat (turns diff l) + 2000 < 4294967296 ->
  exists s', expire sys_now tmr pcbs other fuel diff s = Ok s' /\ (s'.(free_timeouts) + length s'.(next_timeout) = s.(free_timeouts) + length l)%nat.
Proof.
  induction fuel as [|fuel IH]; intros diff s A l Ht Hok Hk Hd HA He Hb; [lia|]. cbn [expire]. fold l. destruct l as [|t r] eqn:El; [exists s; split; [reflexivity|]; fold l; now rewrite El|].
  destruct (Z.leb_spec (time t) diff) as [Hle|]; [|exists s; split; [reflexivity|]; fold l; now rewrite El]. destruct (times_ok_cons _ _ Hok) as (H0 & H1 & H2 & Hok'). apply Forall_cons_iff in Hk. destruct Hk as [Hkt Hkr].
  assert (Htu : turns diff (t :: r) = S (turns (diff - time t) r)) by (unfold turns; rewrite count_pop by lia; cbn [total Nat.add]; do 3 f_equal; lia). rewrite Htu in Ht, Hb. set (d := diff - time t) in *. assert (Ed : d = diff - time t) by reflexivity. clearbody d.
  assert (Hcn : 0 <= c * Z.of_nat (turns d r)) by nia. assert (Hb' : diff + A + c + c * Z.of_nat (turns d r) + 2000 < 4294967296) by nia. clear Hb. rewrite (u32_id d) by word_lia.
  match goal with |- context [call_handler _ _ _ _ _ _ ?st] => change st with (mkTs r (u32 (timeouts_last_time s + time t)) (S (free_timeouts s)) (tcpip_tcp_timer_active s) (world s)) end.
  set (s1 := mkTs r _ _ _ _). set (s1w := @mkTs W r (u32 (timeouts_last_time s + time t)) (S (free_timeouts s)) (tcpip_tcp_timer_active s)). destruct (handler_called t s1 Hkt) as (w & b & Hw & Hcall). change (world s1) with (world s) in Hw.
  assert (Hel : forall l' f' b', r <> [] -> d <= elapsed (mkTs l' (u32 (timeouts_last_time s + time t)) f' b' w) <= d + (A + c)).
  { intros l' f' b' Hr. destruct He as [He|He]; [destruct r; [contradiction|cbn in He; lia]|]. pose proof (elapsed_pop s (time t) w l' f' b' Hw ltac:(lia) ltac:(lia)). lia. }
  destruct Hcall as [E|(m & a & Hm & Hka & E)]; rewrite E.
  - destruct (IH d (mkTs r (u32 (timeouts_last_time s + time t)) (S (free_timeouts s)) b w) (A + c)) as (s' & E' & Hf'); cbn [next_timeout s1w]; try assumption; try lia.
    + destruct r as [|x r']; [left; cbn; lia|right]. apply Hel. discriminate.
    + exists s'. split; [exact E'|]. rewrite Hf'. cbn [free_timeouts next_timeout length]. lia.
  - destruct (rearm_turns m (h t) a (s1w w) d (free_timeouts s)) as (s2 & E2 & F2 & L2 & K2 & H); cbn [next_timeout s1w]; try assumption; try reflexivity; try lia.
    { intros Hr. pose proof (Hel r (S (free_timeouts s)) (tcpip_tcp_timer_active s) Hr) as Hx. change (mkTs r _ _ _ w) with (s1w w) in Hx. split; [apply Hx|]. lia. }
    change (s1 <| world := w |>) with (s1w w). rewrite E2. cbn [next_timeout s1w] in L2, H. destruct H as [(x & r' & Ex & Hx)|(Hok2 & Htn & Hel2)].
    + destruct fuel as [|fuel]; [lia|]. exists s2. split; [|rewrite F2, L2; cbn [length]; lia]. cbn [expire]. rewrite Ex. now rewrite (proj2 (Z.leb_gt _ _)) by lia.
    + destruct (IH d s2 (A + c)) as (s' & E' & Hf'); try assumption; try lia.
      * destruct Hel2 as [Hl1|Hl2]; [left; lia|]. destruct r as [|x r']; [left; cbn in L2; lia|right]. rewrite Hl2. apply Hel. discriminate.
      * assert (c * Z.of_nat (turns d (next_timeout s2)) <= c * Z.of_nat (turns d r)) by nia. lia.
      * exists s'. split; [exact E'|]. rewrite Hf', F2, L2. cbn [length]. lia.
Qed.

(** C30: [sys_check_timeouts] ends also with lwIP's own handlers, which start their
    timeout again ([cyclic_timer] for an entry of the table, [tcpip_tcp_timer]),
    however late it is called: each turn of the loop takes a timeout off the list
    or uses up a part of the time that has passed.  The handlers may take up to [c]
    milliseconds each, as long as the clock does not get around; those of other
    modules leave the timers alone.  The pool of timeouts is never found empty,
    and no entry of it is lost. *)
Theorem sys_check_timeouts_ends fuel s : let n := (length s.(next_timeout) + Z.to_nat (elapsed s))%nat in
  times_ok s.(next_timeout) -> all_known s.(next_timeout) -> elapsed s + c * Z.of_nat n + 2000 < 4294967296 -> (n < fuel)%nat ->
  exists s', sys_check_timeouts sys_now tmr pcbs other fuel s = Ok s' /\ (s'.(free_timeouts) + length s'.(next_timeout) = s.(free_timeouts) + length s.(next_timeout))%nat.
Proof.
  intros n Hok Hk Hb Hf. assert (He : 0 <= elapsed s) by (unfold elapsed; pose proof (u32_ok (sys_now (world s) - timeouts_last_time s)); word_lia).
  assert (Ht : (turns (elapsed s) (next_timeout s) <= n)%nat) by (unfold turns, n; pose proof (count_length (elapsed s) (next_timeout s)); pose proof (times_nonneg _ (proj1 Hok)); lia).
  destruct (expire_ends fuel (elapsed s) s 0) as (s' & E & H); try assumption; try lia; [nia|]. exists s'. split; [|exact H]. unfold sys_check_timeouts. fold (elapsed s).
  destruct (next_timeout s) eqn:El; [|exact E]. destruct fuel; [lia|]. cbn [expire] in E. now rewrite El in E.
Qed.
End Ending.
End Theorems.

(** ** Witnesses *)

Module TimersDemo.
(** A world with a clock and a log of the handlers called. *)
Definition clock (w : Z * list Z) : Z := fst w.
Definition note (hd : handler) (a : Z) (w : Z * list Z) : Z * list Z := (fst w, snd w ++ [a]).

Definition pending : tstate (Z * list Z) :=
  mkTs [mkTimeo 50 (other_h 1) 11; mkTimeo 30 (other_h 1) 22; mkTimeo 40 (other_h 2) 33]
    1000 4 false (1000, []).
Definition at_time (t : Z) : tstate (Z * list Z) := pending <| world := (t, []) |>.

Definition tmr (i : Z) (w : Z * list Z) : Z * list Z := w.
Definition pcbs (w : Z * list Z) : bool := false.
Definition other (id a : Z) (s : tstate (Z * list Z)) : option (tstate (Z * list Z)) :=
  Some (s <| world := note (other_h id) a s.(world) |>).
End TimersDemo.

Lemma sys_timeout_inserts_witness : exists s',
  sys_timeout TimersDemo.clock 60 (other_h 3) 44 (TimersDemo.at_time 1005) = Some s' /\
  map due_at (due 1000 s'.(next_timeout)) = [1050; 1065; 1080; 1120].
Proof.
  destruct (sys_timeout_inserts TimersDemo.clock 60 (other_h 3) 44 (TimersDemo.at_time 1005)
              (mkTimeo 50 (other_h 1) 11) (tl TimersDemo.pending.(next_timeout)))
    as (s' & E & _ & Hd & _).
  - reflexivity.
  - split; [repeat constructor; cbn; lia|reflexivity].
  - discriminate.
  - lia.
  - reflexivity.
  - right. split; vm_compute; discriminate.
  - exists s'. split; [exact E|]. change 1000 with (timeouts_last_time (TimersDemo.at_time 1005)).
    rewrite Hd. reflexivity.
Defined.

Lemma sys_timeout_delays_others_witness : exists s',
  sys_timeout TimersDemo.clock 10 (other_h 3) 44 (TimersDemo.at_time 1005) = Some s' /\
  map due_at (due 1000 s'.(next_timeout)) = [1015; 1055; 1085; 1125].
Proof.
  destruct (sys_timeout_delays_others TimersDemo.clock 10 (other_h 3) 44 (TimersDemo.at_time 1005)
              (mkTimeo 50 (other_h 1) 11) (tl TimersDemo.pending.(next_timeout)))
    as (s' & E & _ & Hd).
  - reflexivity.
  - split; [repeat constructor; cbn; lia|reflexivity].
  - discriminate.
  - cbn. lia.
  - reflexivity.
  - exists s'. split; [exact E|]. change 1000 with (timeouts_last_time (TimersDemo.at_time 1005)).
    rewrite Hd. reflexivity.
Defined.

Lemma sys_untimeout_removes_witness :
  map due_at (due 1000 (sys_untimeout (other_h 1) 22 TimersDemo.pending).(next_timeout)) = [1050; 1120].
Proof.
  destruct (sys_untimeout_removes (other_h 1) 22 TimersDemo.pending) as [Hd _].
  - split; [repeat constructor; cbn; lia|reflexivity].
  - cbv zeta in Hd. change 1000 with (timeouts_last_time TimersDemo.pending). rewrite Hd. reflexivity.
Defined.

Lemma sys_check_timeouts_fires_witness : exists s' fired,
  sys_check_timeouts TimersDemo.clock TimersDemo.tmr TimersDemo.pcbs TimersDemo.other 5
    (TimersDemo.at_time 1085) = Ok s' /\
  TimersDemo.pending.(next_timeout) = fired ++ s'.(next_timeout).
Proof.
  destruct (sys_check_timeouts_fires TimersDemo.clock TimersDemo.tmr TimersDemo.pcbs TimersDemo.other
              TimersDemo.note 5 (TimersDemo.at_time 1085)) as (s' & fired & E & _ & Hs & _).
  - split; [repeat constructor; cbn; lia|reflexivity].
  - cbn. lia.
  - intros t Ht st. cbn in Ht. destruct Ht as [<- | [<- | [<- | []]]]; reflexivity.
  - exists s', fired. split; [exact E|exact Hs].
Defined.

(** The table's timers and TCP's, three seconds late; a handler takes 3 ms. *)
Definition slow_tmr (i : Z) (w : Z * list Z) : Z * list Z := (fst w + 3, snd w ++ [i]).
Definition late_timers : tstate (Z * list Z) :=
  mkTs [mkTimeo 250 tcpip_tcp_timer_h 0; mkTimeo 750 cyclic_timer_h 1; mkTimeo 0 cyclic_timer_h 2] 1000 0 true (4000, []).
Lemma note_ticks id a (st : tstate (Z * list Z)) : exists w, ticks TimersDemo.clock 3 st.(world) w /\ TimersDemo.other id a st = Some (st <| world := w |>).
Proof. exists (TimersDemo.note (other_h id) a st.(world)). split; [|reflexivity]. unfold ticks, TimersDemo.clock, TimersDemo.note. cbn [fst]. rewrite Z.sub_diag. change (u32 0) with 0. lia. Qed.
Lemma slow_tmr_ticks i w : ticks TimersDemo.clock 3 w (slow_tmr i w).
Proof. unfold ticks, TimersDemo.clock, slow_tmr. cbn [fst]. replace (fst w + 3 - fst w) with 3 by lia. change (u32 3) with 3. lia. Qed.
Lemma sys_check_timeouts_ends_witness : exists s',
  sys_check_timeouts TimersDemo.clock slow_tmr (fun _ => true) TimersDemo.other 3100 late_timers = Ok s' /\ (s'.(free_timeouts) + length s'.(next_timeout) = 3)%nat.
Proof.
  apply (sys_check_timeouts_ends TimersDemo.clock slow_tmr (fun _ => true) TimersDemo.other 3 ltac:(lia) slow_tmr_ticks note_ticks 3100 late_timers).
  - split; [repeat constructor; cbn; lia|reflexivity].
  - repeat constructor; cbn; lia.
  - vm_compute. reflexivity.
  - apply Nat.ltb_lt. vm_compute. reflexivity.
Defined.
