(* ===== verification/Mem.v ===== *)
(** * The heap (lwip/src/core/mem.c)

    The allocator in its default configuration (opt.h: MEM_SIZE 1600,
    MEM_ALIGNMENT 1, 16-bit sizes, no freeing from interrupts).  Pointers are
    offsets into [ram]; the headers are a map from offsets to [struct mem].
    The abstraction is the list of blocks, from low to high addresses, with
    their sizes and used flags; the theorems show that the linked headers
    always represent such a list with no two adjacent free blocks, and what
    each operation does to it. *)

From Stdlib Require Import ZArith List Lia Bool.
From S2P Require Import Prelude.
Import ListNotations.
Open Scope Z_scope.
Open Scope c_scope.

Definition MEM_ALIGNMENT := 1.
Definition MEM_SIZE := 1600.
Definition MIN_SIZE := 12.
Definition LWIP_MEM_ALIGN_SIZE (size : Z) : Z :=
  (size + MEM_ALIGNMENT - 1) .& u32 (Z.lnot (MEM_ALIGNMENT - 1)).
Definition MIN_SIZE_ALIGNED := LWIP_MEM_ALIGN_SIZE MIN_SIZE.
(** two [mem_size_t], one [u8_t] and a byte of padding *)
Definition SIZEOF_STRUCT_MEM := LWIP_MEM_ALIGN_SIZE 6.
Definition MEM_SIZE_ALIGNED := LWIP_MEM_ALIGN_SIZE MEM_SIZE.

(** [struct mem] *)
Record mem := mkMem { next : Z; prev : Z; used : bool }.
#[export] Instance mem_eta : Eta mem := { eta := fun r => mkMem r.(next) r.(prev) r.(used) }.

(** [ram] as a map from offsets to headers, [lfree] as an offset ([ram_end]
    is the offset MEM_SIZE_ALIGNED), and [lwip_stats.mem]. *)
Record heap := mkHeap {
  ram : Z -> mem; lfree : Z;
  st_used : Z; st_max : Z; st_err : Z; st_illegal : Z }.
#[export] Instance heap_eta : Eta heap := { eta := fun r =>
  mkHeap r.(ram) r.(lfree) r.(st_used) r.(st_max) r.(st_err) r.(st_illegal) }.

Definition ram_end := MEM_SIZE_ALIGNED.

(** Assignment to the header at [p]. *)
Definition upd (r : Z -> mem) (p : Z) (f : mem -> mem) : Z -> mem :=
  fun a => if a =? p then f (r p) else r a.

Definition HM := M heap.
Definition set_hdr (p : Z) (f : mem -> mem) : HM unit :=
  modify (fun s => s <| ram := upd s.(ram) p f |>).
Definition set_lfree (p : Z) : HM unit := modify (fun s => s <| lfree := p |>).
Definition hdr (p : Z) : HM mem := gets (fun s => s.(ram) p).
Definition Assert (c : bool) : HM unit := Xil_Assert c.

Definition MEM_STATS_INC_USED (y : Z) : HM unit := modify (fun s =>
  let u := u16 (s.(st_used) + y) in
  s <| st_used := u |> <| st_max := if s.(st_max) <? u then u else s.(st_max) |>).
Definition MEM_STATS_DEC_USED (y : Z) : HM unit := modify (fun s =>
  s <| st_used := u16 (s.(st_used) - y) |>).

(** Join the freed block at [mem] with its free neighbours. *)
Definition plug_holes (mem : Z) : HM unit :=
  do m <- hdr mem;
  Assert (0 <=? mem) ;;
  Assert (mem <? ram_end) ;;
  Assert (negb m.(used)) ;;
  Assert (m.(next) <=? MEM_SIZE_ALIGNED) ;;
  let nmem := m.(next) in
  do n <- hdr nmem;
  (when negb (mem =? nmem) && negb n.(used) && negb (nmem =? ram_end) then (
     do lf <- gets lfree;
     (when lf =? nmem then set_lfree mem) ;;
     set_hdr mem (fun m => m <| next := n.(next) |>) ;;
     set_hdr n.(next) (fun m => m <| prev := mem |>))) ;;
  do m <- hdr mem;
  let pmem := m.(prev) in
  do p <- hdr pmem;
  (when negb (pmem =? mem) && negb p.(used) then (
     do lf <- gets lfree;
     (when lf =? mem then set_lfree pmem) ;;
     set_hdr pmem (fun p => p <| next := m.(next) |>) ;;
     set_hdr m.(next) (fun m => m <| prev := pmem |>))).

Definition mem_init : HM unit :=
  Assert (SIZEOF_STRUCT_MEM .& (MEM_ALIGNMENT - 1) =? 0) ;;
  set_hdr 0 (fun _ => mkMem MEM_SIZE_ALIGNED 0 false) ;;
  set_hdr ram_end (fun _ => mkMem MEM_SIZE_ALIGNED MEM_SIZE_ALIGNED true) ;;
  set_lfree 0.

(** [rmem] is an offset into the heap or [None] for NULL.  The test for an
    illegal pointer after the assertion of the same condition is not reached. *)
Definition mem_free (rmem : option Z) : HM unit :=
  match rmem with
  | None => ret tt
  | Some rmem =>
      Assert (rmem .& (MEM_ALIGNMENT - 1) =? 0) ;;
      Assert ((0 <=? rmem) && (rmem <? ram_end)) ;;
      let mem := rmem - SIZEOF_STRUCT_MEM in
      do m <- hdr mem;
      Assert m.(used) ;;
      set_hdr mem (fun m => m <| used := false |>) ;;
      do lf <- gets lfree;
      (when mem <? lf then set_lfree mem) ;;
      do m <- hdr mem;
      MEM_STATS_DEC_USED (u16 (m.(next) - mem)) ;;
      plug_holes mem
  end.

(** The size a request is rounded to. *)
Definition round_size (size : Z) : Z :=
  let size := u16 (LWIP_MEM_ALIGN_SIZE size) in
  if size <? MIN_SIZE_ALIGNED then MIN_SIZE_ALIGNED else size.

Definition mem_trim (rmem newsize : Z) : HM (option Z) :=
  let newsize := round_size newsize in
  if newsize >? MEM_SIZE_ALIGNED then ret None else
  Assert ((0 <=? rmem) && (rmem <? ram_end)) ;;
  let mem := rmem - SIZEOF_STRUCT_MEM in
  let ptr := u16 mem in
  do m <- hdr mem;
  let size := u16 (m.(next) - ptr - SIZEOF_STRUCT_MEM) in
  Assert (newsize <=? size) ;;
  if newsize =? size then ret (Some rmem) else
  let mem2 := m.(next) in
  do m2 <- hdr mem2;
  let ptr2 := u16 (ptr + SIZEOF_STRUCT_MEM + newsize) in
  (if negb m2.(used) then
     let nxt := m2.(next) in
     do lf <- gets lfree;
     (when lf =? mem2 then set_lfree ptr2) ;;
     set_hdr ptr2 (fun _ => mkMem nxt ptr false) ;;
     set_hdr mem (fun m => m <| next := ptr2 |>) ;;
     (when negb (nxt =? MEM_SIZE_ALIGNED) then set_hdr nxt (fun m => m <| prev := ptr2 |>)) ;;
     MEM_STATS_DEC_USED (size - newsize)
   else if newsize + SIZEOF_STRUCT_MEM + MIN_SIZE_ALIGNED <=? size then
     do lf <- gets lfree;
     (when ptr2 <? lf then set_lfree ptr2) ;;
     set_hdr ptr2 (fun _ => mkMem m.(next) ptr false) ;;
     set_hdr mem (fun m => m <| next := ptr2 |>) ;;
     (when negb (m.(next) =? MEM_SIZE_ALIGNED) then
        set_hdr m.(next) (fun m => m <| prev := ptr2 |>)) ;;
     MEM_STATS_DEC_USED (size - newsize)
   else ret tt) ;;
  ret (Some rmem).

(** [while (cur->used && cur != ram_end) cur = cur->next] *)
Fixpoint next_free (fuel : nat) (cur : Z) : HM Z :=
  match fuel with
  | O => hang
  | S n =>
      do m <- hdr cur;
      if m.(used) && negb (cur =? ram_end) then next_free n m.(next) else ret cur
  end.

(** Take the free block at [ptr], which is big enough. *)
Definition take_block (fuel : nat) (size ptr : Z) : HM Z :=
  do m <- hdr ptr;
  (if u32 (m.(next) - (ptr + SIZEOF_STRUCT_MEM)) >=? size + SIZEOF_STRUCT_MEM + MIN_SIZE_ALIGNED then
     let ptr2 := u16 (ptr + SIZEOF_STRUCT_MEM + size) in
     set_hdr ptr2 (fun _ => mkMem m.(next) ptr false) ;;
     set_hdr ptr (fun m => m <| next := ptr2 |> <| used := true |>) ;;
     (when negb (m.(next) =? MEM_SIZE_ALIGNED) then
        set_hdr m.(next) (fun m => m <| prev := ptr2 |>)) ;;
     MEM_STATS_INC_USED (size + SIZEOF_STRUCT_MEM)
   else
     set_hdr ptr (fun m => m <| used := true |>) ;;
     MEM_STATS_INC_USED (m.(next) - ptr)) ;;
  do lf <- gets lfree;
  (when ptr =? lf then (
     do cur <- next_free fuel lf;
     set_lfree cur ;;
     do c <- hdr cur;
     Assert ((cur =? ram_end) || negb c.(used)))) ;;
  Assert (ptr + SIZEOF_STRUCT_MEM + size <=? ram_end) ;;
  Assert ((ptr + SIZEOF_STRUCT_MEM) mod MEM_ALIGNMENT =? 0) ;;
  Assert (ptr .& (MEM_ALIGNMENT - 1) =? 0) ;;
  ret (ptr + SIZEOF_STRUCT_MEM).

(** The [for] loop over the heap. *)
Fixpoint scan (fuel : nat) (size ptr : Z) : HM (option Z) :=
  match fuel with
  | O => hang
  | S n =>
      if ptr <? MEM_SIZE_ALIGNED - size then
        do m <- hdr ptr;
        if negb m.(used) && (u32 (m.(next) - (ptr + SIZEOF_STRUCT_MEM)) >=? size) then
          do p <- take_block fuel size ptr;
          ret (Some p)
        else scan n size m.(next)
      else
        modify (fun s => s <| st_err := u16 (s.(st_err) + 1) |>) ;;
        ret None
  end.

(** A well-formed heap has fewer blocks than bytes. *)
Definition heap_fuel : nat := S (Z.to_nat MEM_SIZE_ALIGNED).

Definition mem_malloc (size : Z) : HM (option Z) :=
  if size =? 0 then ret None else
  let size := round_size size in
  if size >? MEM_SIZE_ALIGNED then ret None else
  do lf <- gets lfree;
  scan heap_fuel size lf.

(** The pointer and the number of bytes [memset] clears. *)
Definition mem_calloc (count size : Z) : HM (option (Z * Z)) :=
  do p <- mem_malloc (u16 (count * size));
  ret (match p with Some p => Some (p, count * size) | None => None end).

(** ** Blocks *)

(** The size of a block, header included, and whether it is used. *)
Abbreviation block := (Z * bool)%type.

Fixpoint bytes (bs : list block) : Z :=
  match bs with [] => 0 | (sz, _) :: t => sz + bytes t end.

Fixpoint used_bytes (bs : list block) : Z :=
  match bs with [] => 0 | (sz, u) :: t => (if u : bool then sz else 0) + used_bytes t end.

(** The offset of the first free block of a list that starts at [p]. *)
Fixpoint low_free (p : Z) (bs : list block) : Z :=
  match bs with [] => p | (sz, u) :: t => if u : bool then low_free (p + sz) t else p end.

Definition starts_free (bs : list block) : bool :=
  match bs with (_, false) :: _ => true | _ => false end.

(** No free block is followed by a free block. *)
Fixpoint no_holes (bs : list block) : Prop :=
  match bs with
  | [] => True
  | (_, u) :: t => (u = false -> starts_free t = false) /\ no_holes t
  end.

(** The headers between [p] and [q] represent the blocks [bs]: [pv] is the
    offset of the block before [p], [lv] that of the last block. *)
Fixpoint seg (r : Z -> mem) (p pv : Z) (bs : list block) (q lv : Z) : Prop :=
  match bs with
  | [] => p = q /\ pv = lv
  | (sz, u) :: t =>
      SIZEOF_STRUCT_MEM + MIN_SIZE_ALIGNED <= sz /\ r p = mkMem (p + sz) pv u /\
      seg r (p + sz) p t q lv
  end.

(** The heap represents the blocks [bs]. *)
Record heap_rep (s : heap) (bs : list block) : Prop := {
  rep_seg : exists lv, seg s.(ram) 0 0 bs MEM_SIZE_ALIGNED lv;
  rep_end : (s.(ram) ram_end).(used) = true /\ (s.(ram) ram_end).(next) = ram_end;
  rep_lfree : s.(lfree) = low_free 0 bs;
  rep_holes : no_holes bs;
  rep_used : s.(st_used) = used_bytes bs }.

(** Numbers of the configuration. *)
Ltac mem_numbers :=
  change SIZEOF_STRUCT_MEM with 6 in *; change MIN_SIZE_ALIGNED with 12 in *;
  change MEM_SIZE_ALIGNED with 1600 in *; change ram_end with 1600 in *.

Lemma bytes_app b1 b2 : bytes (b1 ++ b2) = bytes b1 + bytes b2.
Proof. induction b1 as [|[sz u] b1 IH]; cbn [bytes app]; lia. Qed.

Lemma used_bytes_app b1 b2 : used_bytes (b1 ++ b2) = used_bytes b1 + used_bytes b2.
Proof. induction b1 as [|[sz u] b1 IH]; cbn [used_bytes app]; [lia|]. destruct u; lia. Qed.

Lemma seg_bytes r bs : forall p pv q lv, seg r p pv bs q lv ->
  q = p + bytes bs /\ 18 * Z.of_nat (length bs) <= bytes bs.
Proof.
  induction bs as [|[sz u] t IH]; intros p pv q lv; cbn [seg bytes length].
  - intros [-> _]. lia.
  - mem_numbers. intros (Hsz & _ & Hs). apply IH in Hs. lia.
Qed.

Lemma seg_app r b1 : forall p pv b2 q lv,
  seg r p pv (b1 ++ b2) q lv <-> exists lm, seg r p pv b1 (p + bytes b1) lm /\
                                            seg r (p + bytes b1) lm b2 q lv.
Proof.
  induction b1 as [|[sz u] t IH]; intros p pv b2 q lv; cbn [app seg bytes].
  - rewrite Z.add_0_r. split; [eauto|]. now intros (lm & (_ & <-) & Hs).
  - split.
    + intros (Hsz & Hp & Hs). apply IH in Hs. destruct Hs as (lm & H1 & H2).
      exists lm. replace (p + (sz + bytes t)) with (p + sz + bytes t) by lia. auto.
    + intros (lm & (Hsz & Hp & H1) & H2). split; [assumption|]. split; [assumption|].
      apply IH. exists lm. now replace (p + sz + bytes t) with (p + (sz + bytes t)) by lia.
Qed.

(** Only the headers of the blocks matter. *)
Lemma seg_ext r r' bs : forall p pv q lv, (forall a, p <= a < q -> r' a = r a) ->
  seg r p pv bs q lv -> seg r' p pv bs q lv.
Proof.
  induction bs as [|[sz u] t IH]; intros p pv q lv He Hs; cbn [seg] in *; [assumption|].
  pose proof (seg_bytes r ((sz, u) :: t) p pv q lv Hs) as Hb. destruct Hs as (Hsz & Hp & Hs).
  pose proof (seg_bytes _ _ _ _ _ _ Hs). cbn [bytes length] in *. mem_numbers.
  split; [assumption|]. split; [rewrite He by lia; assumption|].
  apply IH; [|assumption]. intros. apply He. lia.
Qed.

(** A list of blocks behind another predecessor. *)
Lemma seg_reprev r r' bs p pv pv' q lv :
  seg r p pv bs q lv -> (forall a, p < a < q -> r' a = r a) ->
  (p < q -> r' p = (r p) <| prev := pv' |>) -> exists lv', seg r' p pv' bs q lv'.
Proof.
  destruct bs as [|[sz u] t]; cbn [seg].
  - intros [-> _] _ _. eauto.
  - intros (Hsz & Hp & Hs) He Hq. pose proof (seg_bytes _ _ _ _ _ _ Hs) as [? ?]. mem_numbers.
    exists lv. split; [assumption|]. split; [rewrite Hq, Hp by lia; reflexivity|].
    apply (seg_ext r); [|assumption]. intros. apply He. lia.
Qed.

Lemma upd_same r p f : upd r p f p = f (r p).
Proof. unfold upd. now rewrite Z.eqb_refl. Qed.
Lemma upd_other r p f a : a <> p -> upd r p f a = r a.
Proof. unfold upd. now intros ->%Z.eqb_neq. Qed.

(** *** Rebuilding the middle of the list *)

(** One block from [p] to [q] between the blocks [b1] and [b2]. *)
Lemma seg_one r r' b1 b2 p pv q x lv u :
  seg r 0 0 b1 p pv -> seg r q x b2 MEM_SIZE_ALIGNED lv -> p + 18 <= q ->
  (forall a, a < p \/ q < a < MEM_SIZE_ALIGNED -> r' a = r a) ->
  (q < MEM_SIZE_ALIGNED -> r' q = (r q) <| prev := p |>) ->
  r' p = mkMem q pv u ->
  exists lv', seg r' 0 0 (b1 ++ (q - p, u) :: b2) MEM_SIZE_ALIGNED lv'.
Proof.
  intros H1 H2 Hq Hout Hprev Hp. pose proof (seg_bytes _ _ _ _ _ _ H1) as [Hb _].
  destruct (seg_reprev r r' b2 q x p MEM_SIZE_ALIGNED lv H2) as (lv' & H2'); [intros; apply Hout; lia|assumption|].
  exists lv'. apply seg_app. rewrite <- Hb. exists pv. split.
  - apply (seg_ext r); [|assumption]. intros. apply Hout. lia.
  - cbn [seg]. mem_numbers. replace (p + (q - p)) with q by lia. split; [lia|]. auto.
Qed.

(** Two blocks, from [p] to [p2] and from [p2] to [q]. *)
Lemma seg_two r r' b1 b2 p pv q x lv p2 u u2 :
  seg r 0 0 b1 p pv -> seg r q x b2 MEM_SIZE_ALIGNED lv -> p + 18 <= p2 -> p2 + 18 <= q ->
  (forall a, a < p \/ q < a < MEM_SIZE_ALIGNED -> r' a = r a) ->
  (q < MEM_SIZE_ALIGNED -> r' q = (r q) <| prev := p2 |>) ->
  r' p = mkMem p2 pv u -> r' p2 = mkMem q p u2 ->
  exists lv', seg r' 0 0 (b1 ++ (p2 - p, u) :: (q - p2, u2) :: b2) MEM_SIZE_ALIGNED lv'.
Proof.
  intros H1 H2 Hp2 Hq Hout Hprev Hp Hp2'. pose proof (seg_bytes _ _ _ _ _ _ H1) as [Hb _].
  destruct (seg_reprev r r' b2 q x p2 MEM_SIZE_ALIGNED lv H2) as (lv' & H2'); [intros; apply Hout; lia|assumption|].
  exists lv'. apply seg_app. rewrite <- Hb. exists pv. split.
  - apply (seg_ext r); [|assumption]. intros. apply Hout. lia.
  - cbn [seg]. mem_numbers. replace (p + (p2 - p)) with p2 by lia.
    split; [lia|]. split; [assumption|]. replace (p2 + (q - p2)) with q by lia. split; [lia|]. auto.
Qed.

(** The block in the middle of a represented list. *)
Lemma seg_mid r b1 sz u b2 lv : seg r 0 0 (b1 ++ (sz, u) :: b2) MEM_SIZE_ALIGNED lv ->
  exists pv, seg r 0 0 b1 (bytes b1) pv /\ r (bytes b1) = mkMem (bytes b1 + sz) pv u /\
    18 <= sz /\ 0 <= bytes b1 /\ 0 <= bytes b2 /\ bytes b1 + sz + bytes b2 = MEM_SIZE_ALIGNED /\
    seg r (bytes b1 + sz) (bytes b1) b2 MEM_SIZE_ALIGNED lv.
Proof.
  intros Hs. apply seg_app in Hs. cbn [Z.add] in Hs. destruct Hs as (pv & H1 & Hsz & Hp & H2).
  exists pv. pose proof (seg_bytes _ _ _ _ _ _ H1). pose proof (seg_bytes _ _ _ _ _ _ H2).
  mem_numbers. rewrite Z.add_0_l in *. repeat split; (assumption || lia).
Qed.

(** *** Lists of blocks *)

Definition all_used (bs : list block) : bool := forallb snd bs.

Lemma low_free_app b1 : forall p b2, low_free p (b1 ++ b2) =
  if all_used b1 then low_free (p + bytes b1) b2 else low_free p b1.
Proof.
  induction b1 as [|[sz u] t IH]; intros p b2; cbn [app low_free all_used forallb bytes snd];
    [now rewrite Z.add_0_r|].
  destruct u; cbn [andb]; [|reflexivity]. rewrite IH. unfold all_used.
  now replace (p + sz + bytes t) with (p + (sz + bytes t)) by lia.
Qed.

Lemma low_free_bound r bs : forall p pv q lv, seg r p pv bs q lv ->
  p <= low_free p bs <= q /\ (all_used bs = false -> low_free p bs < q) /\
  (all_used bs = true -> low_free p bs = q).
Proof.
  induction bs as [|[sz u] t IH]; intros p pv q lv; cbn [seg low_free all_used forallb snd].
  - intros [-> _]. lia.
  - mem_numbers. intros (Hsz & _ & Hs). pose proof (seg_bytes _ _ _ _ _ _ Hs).
    destruct (IH _ _ _ _ Hs) as (H1 & H2 & H3). unfold all_used in *. destruct u; cbn [andb]; [split; [lia|split; assumption]|].
    split; [lia|]. split; [lia|discriminate].
Qed.

Lemma no_holes_tail b1 t : no_holes (b1 ++ t) -> no_holes t.
Proof. induction b1 as [|[sz u] b1 IH]; cbn [app no_holes]; [auto|]. now intros [_ ?%IH]. Qed.

(** Replacing the end of a list by one that does not newly start free. *)
Lemma no_holes_replace b1 t t' : no_holes (b1 ++ t) ->
  (starts_free t' = true -> starts_free t = true) -> no_holes t' -> no_holes (b1 ++ t').
Proof.
  induction b1 as [|[sz u] b1 IH]; intros Hn Hst Ht; cbn [app no_holes] in *; [assumption|].
  destruct Hn as [H1 H2]. split; [|auto]. intros Hu. specialize (H1 Hu).
  destruct b1 as [|[sz' u'] b1]; cbn [app starts_free] in *; [|assumption].
  destruct (starts_free t'); [|reflexivity]. now rewrite (Hst eq_refl) in H1.
Qed.

(** Scanning for the next free block. *)
Lemma next_free_spec s bs : forall fuel p pv lv, seg s.(ram) p pv bs MEM_SIZE_ALIGNED lv ->
  (s.(ram) ram_end).(used) = true -> (length bs < fuel)%nat ->
  next_free fuel p s = Ok (low_free p bs, s).
Proof.
  induction bs as [|[sz u] t IH]; intros fuel p pv lv Hs He Hf;
    destruct fuel as [|fuel]; try (cbn in Hf; lia); cbn [next_free seg low_free] in *.
  - destruct Hs as [-> _]. unfold bind, hdr, gets. change MEM_SIZE_ALIGNED with ram_end. rewrite He.
    rewrite Z.eqb_refl. reflexivity.
  - destruct Hs as (Hsz & Hp & Hs). unfold bind at 1, hdr, gets. rewrite Hp. cbn [used next].
    pose proof (seg_bytes _ _ _ _ _ _ Hs). mem_numbers.
    replace (p =? 1600) with false by (symmetry; apply Z.eqb_neq; lia).
    destruct u; cbn [andb negb]; [|reflexivity].
    apply (IH _ _ p lv); [assumption|assumption|cbn in Hf; lia].
Qed.

(** *** Allocation *)

(** What becomes of a free block of size [sz] when [n] bytes are taken. *)
Definition carve (n sz : Z) : list block :=
  if sz - SIZEOF_STRUCT_MEM >=? n + SIZEOF_STRUCT_MEM + MIN_SIZE_ALIGNED
  then [(n + SIZEOF_STRUCT_MEM, true); (sz - n - SIZEOF_STRUCT_MEM, false)]
  else [(sz, true)].

Lemma used_bytes_bound r bs p pv q lv : seg r p pv bs q lv -> 0 <= used_bytes bs <= bytes bs.
Proof.
  revert p pv. induction bs as [|[sz u] t IH]; intros p pv; cbn [seg used_bytes bytes]; [lia|].
  mem_numbers. intros (Hsz & _ & Hs). apply IH in Hs. destruct u; lia.
Qed.

Ltac eqb_cases :=
  repeat match goal with
  | |- context [?a =? ?b] => destruct (Z.eqb_spec a b); try lia
  end.

(** The header assignments of [take_block]. *)
Lemma take_headers s b1 sz b2 n m : heap_rep s (b1 ++ (sz, false) :: b2) ->
  12 <= n -> n + 6 <= sz -> m = s.(ram) (bytes b1) ->
  let ptr := bytes b1 in
  exists s1,
    (if u32 (m.(next) - (ptr + SIZEOF_STRUCT_MEM)) >=? n + SIZEOF_STRUCT_MEM + MIN_SIZE_ALIGNED then
       let ptr2 := u16 (ptr + SIZEOF_STRUCT_MEM + n) in
       set_hdr ptr2 (fun _ => mkMem m.(next) ptr false) ;;
       set_hdr ptr (fun m => m <| next := ptr2 |> <| used := true |>) ;;
       (when negb (m.(next) =? MEM_SIZE_ALIGNED) then
          set_hdr m.(next) (fun m => m <| prev := ptr2 |>)) ;;
       MEM_STATS_INC_USED (n + SIZEOF_STRUCT_MEM)
     else
       set_hdr ptr (fun m => m <| used := true |>) ;;
       MEM_STATS_INC_USED (m.(next) - ptr)) s = Ok (tt, s1) /\
    (exists lv, seg s1.(ram) 0 0 (b1 ++ carve n sz ++ b2) MEM_SIZE_ALIGNED lv) /\
    (s1.(ram) ram_end).(used) = true /\ (s1.(ram) ram_end).(next) = ram_end /\
    s1.(lfree) = s.(lfree) /\ s1.(st_used) = used_bytes (b1 ++ carve n sz ++ b2).
Proof.
  intros [[lv Hseg] [Heu Hen] _ _ Hused] Hn Hfit -> ptr.
  destruct (seg_mid _ _ _ _ _ _ Hseg) as (pv & H1 & Hp & Hsz & Hb1 & Hb2 & Hsum & H2).
  pose proof (used_bytes_bound _ _ _ _ _ _ H1). pose proof (used_bytes_bound _ _ _ _ _ _ H2).
  rewrite used_bytes_app in Hused. cbn [used_bytes] in Hused.
  fold ptr in Hp, H1, H2, Hsum, Hb1 |- *. rewrite Hp. cbn [next]. unfold carve. mem_numbers.
  rewrite u32_id by word_lia. replace (ptr + sz - (ptr + 6)) with (sz - 6) by lia.
  rewrite Z.geb_leb. destruct (Z.leb_spec (n + 6 + 12) (sz - 6)) as [Hsplit|Hfull].
  - rewrite u16_id by word_lia. cbv zeta. unfold set_hdr. rewrite !bind_modify.
    set (r2 := upd (upd (ram s) (ptr + 6 + n) (fun _ => mkMem (ptr + sz) ptr false)) ptr
                 (fun m => m <| next := ptr + 6 + n |> <| used := true |>)).
    set (r3 := if ptr + sz =? 1600 then r2 else upd r2 (ptr + sz) (fun m => m <| prev := ptr + 6 + n |>)).
    exists (s <| ram := r3 |> <| st_used := st_used s + (n + 6) |>
              <| st_max := if st_max s <? st_used s + (n + 6) then st_used s + (n + 6) else st_max s |>).
    split.
    { unfold MEM_STATS_INC_USED, r3. destruct (ptr + sz =? 1600); cbn [negb]; rewrite ?bind_modify;
        unfold modify, bind, ret; cbn [ram st_used st_max lfree st_err st_illegal with_field];
        rewrite u16_id by word_lia; reflexivity. }
    cbn [ram st_used lfree with_field].
    assert (Hr3 : forall a, r3 a =
      if (a =? ptr + sz) && negb (a =? 1600) then (ram s a) <| prev := ptr + 6 + n |>
      else if a =? ptr then mkMem (ptr + 6 + n) pv true
      else if a =? ptr + 6 + n then mkMem (ptr + sz) ptr false else ram s a).
    { intros a. unfold r3, r2, upd.
      destruct (Z.eqb_spec (ptr + sz) 1600), (Z.eqb_spec a (ptr + sz)), (Z.eqb_spec a 1600),
        (Z.eqb_spec a ptr), (Z.eqb_spec a (ptr + 6 + n)); try lia; subst; cbn [andb negb];
        eqb_cases; rewrite ?Hp; reflexivity. }
    split; [|split; [|split; [|split; [reflexivity|]]]].
    + change (b1 ++ [(n + 6, true); (sz - n - 6, false)] ++ b2)
        with (b1 ++ (n + 6, true) :: (sz - n - 6, false) :: b2).
      replace (n + 6) with (ptr + 6 + n - ptr) by lia.
      replace (sz - n - 6) with (ptr + sz - (ptr + 6 + n)) by lia.
      apply (seg_two (ram s) r3 b1 b2 ptr pv (ptr + sz) ptr lv); try assumption; try lia;
        mem_numbers; intros; rewrite Hr3; eqb_cases; reflexivity.
    + rewrite Hr3. eqb_cases; cbn [andb negb]; assumption.
    + rewrite Hr3. eqb_cases; cbn [andb negb]; assumption.
    + rewrite !used_bytes_app. cbn [used_bytes]. lia.
  - unfold set_hdr, MEM_STATS_INC_USED. rewrite !bind_modify. unfold modify.
    eexists. split; [reflexivity|]. cbn [ram st_used lfree with_field].
    split; [|split; [|split; [|split; [reflexivity|]]]].
    + change (b1 ++ [(sz, true)] ++ b2) with (b1 ++ (sz, true) :: b2).
      assert (Esz : (sz, true) = (ptr + sz - ptr, true)) by (f_equal; lia). rewrite Esz. clear Esz.
      apply (seg_one (ram s) _ b1 b2 ptr pv (ptr + sz) ptr lv); try assumption; try lia;
        mem_numbers; intros; unfold upd; eqb_cases; rewrite ?Hp; try reflexivity.
      destruct b2 as [|[sz2 u2] b2']; cbn [seg bytes] in *; [lia|].
      destruct H2 as (_ & -> & _). reflexivity.
    + unfold upd; eqb_cases; assumption.
    + unfold upd; eqb_cases; assumption.
    + replace (ptr + sz - ptr) with sz by lia. rewrite u16_id by word_lia.
      rewrite !used_bytes_app. cbn [used_bytes]. lia.
Qed.

Lemma carve_shape n sz b2 : no_holes ((sz, false) :: b2) ->
  exists a t, carve n sz ++ b2 = (a, true) :: t /\ no_holes ((a, true) :: t) /\
              (length t <= S (length b2))%nat.
Proof.
  cbn [no_holes]. intros [Hst Hnh]. unfold carve.
  destruct (_ >=? _); cbn [app]; do 2 eexists; (split; [reflexivity|]);
    cbn [no_holes length]; (split; [|lia]); repeat split; auto; discriminate.
Qed.

Lemma low_free_hdr r bs : forall p pv lv, seg r p pv bs MEM_SIZE_ALIGNED lv ->
  (low_free p bs =? ram_end) || negb (used (r (low_free p bs))) = true.
Proof.
  induction bs as [|[sz u] t IH]; intros p pv lv; cbn [seg low_free].
  - intros [-> _]. now rewrite Z.eqb_refl.
  - intros (_ & Hp & Hs). destruct u; [eauto|]. rewrite Hp. apply orb_true_r.
Qed.

Lemma take_block_spec s b1 sz b2 n fuel : heap_rep s (b1 ++ (sz, false) :: b2) ->
  12 <= n -> n + 6 <= sz -> (length b2 + 2 < fuel)%nat ->
  exists s', take_block fuel n (bytes b1) s = Ok (bytes b1 + SIZEOF_STRUCT_MEM, s') /\
    heap_rep s' (b1 ++ carve n sz ++ b2).
Proof.
  intros Hrep Hn Hfit Hf. unfold take_block, hdr. rewrite bind_gets.
  destruct (take_headers s b1 sz b2 n _ Hrep Hn Hfit eq_refl)
    as (s1 & E1 & (lv & Hseg) & Heu & Hen & Hlf & Hused).
  rewrite (bind_ok _ _ _ _ _ E1), bind_gets. destruct Hrep as [[lv0 Hseg0] _ Hlow Hholes _].
  destruct (seg_mid _ _ _ _ _ _ Hseg0) as (pv & H1 & _ & Hsz & Hb1 & Hb2 & Hsum & _).
  pose proof (carve_shape n sz b2 (no_holes_tail _ _ Hholes)) as Hcarve.
  destruct Hcarve as (a & t & Hc & Hnh & Hlen). rewrite Hc in *.
  assert (Hnh' : no_holes (b1 ++ (a, true) :: t)).
  { apply (no_holes_replace _ _ _ Hholes); [discriminate|assumption]. }
  apply seg_app in Hseg. destruct Hseg as (lm & Hs1 & Hs2).
  (* the new lowest free block *)
  assert (Hlf' : exists s2,
    (when bytes b1 =? lfree s1 then (
       do cur <- next_free fuel (lfree s1);
       set_lfree cur ;;
       do c <- gets (fun s => ram s cur);
       Assert ((cur =? ram_end) || negb (used c)))) s1 = Ok (tt, s2) /\
    s2.(ram) = s1.(ram) /\ s2.(st_used) = s1.(st_used) /\
    s2.(lfree) = low_free 0 (b1 ++ (a, true) :: t)).
  { rewrite Hlf, Hlow, !low_free_app. cbn [low_free].
    destruct (low_free_bound _ _ _ _ _ _ H1) as (Hlb & Hlt & Hle).
    destruct (all_used b1) eqn:Eu; rewrite Z.add_0_l in *.
    - rewrite Z.eqb_refl.
      rewrite (bind_ok _ _ _ _ _ (next_free_spec s1 ((a, true) :: t) fuel _ lm lv Hs2 Heu ltac:(cbn [length]; lia))).
      cbn [low_free]. unfold set_lfree. rewrite bind_modify. unfold bind, gets.
      destruct (low_free_bound _ _ _ _ _ _ Hs2) as (Hb & _ & _). cbn [low_free] in Hb.
      set (cur := low_free (bytes b1 + a) t) in *. cbn [ram with_field].
      pose proof (low_free_hdr _ _ _ _ _ Hs2) as Hcur. cbn [low_free] in Hcur. fold cur in Hcur.
      rewrite Hcur. eexists. split; [reflexivity|]. now repeat split.
    - replace (bytes b1 =? _) with false by (symmetry; apply Z.eqb_neq; specialize (Hlt eq_refl); lia).
      exists s1. repeat split. now rewrite Hlf, Hlow, low_free_app, Eu. }
  destruct Hlf' as (s2 & E2 & Hr2 & Hu2 & Hl2). unfold hdr in *. rewrite (bind_ok _ _ _ _ _ E2).
  unfold Assert. mem_numbers.
  rewrite !bind_assert by (reflexivity || (apply Z.leb_le; lia) || (apply Z.eqb_eq; apply Z.mod_1_r)
                           || (apply Z.eqb_eq; apply Z.land_0_r)).
  exists s2. split; [reflexivity|]. constructor; try assumption; mem_numbers.
  - exists lv. rewrite Hr2. apply seg_app. exists lm. now rewrite Z.add_0_l.
  - rewrite Hr2. now split.
  - now rewrite Hu2.
Qed.

(** No free block of the list can hold [n] bytes. *)
Definition no_fit (n : Z) (bs : list block) : Prop :=
  Forall (fun b => snd b = false -> fst b - SIZEOF_STRUCT_MEM < n) bs.

Lemma low_free_split bs : forall p, exists b1 b2,
  bs = b1 ++ b2 /\ low_free p bs = p + bytes b1 /\ all_used b1 = true.
Proof.
  induction bs as [|[sz u] t IH]; intros p; cbn [low_free].
  - exists [], []. cbn. repeat split. lia.
  - destruct u.
    + destruct (IH (p + sz)) as (b1 & b2 & -> & Hl & Hu). exists ((sz, true) :: b1), b2.
      cbn [bytes all_used forallb snd andb]. repeat split; [rewrite Hl; lia|exact Hu].
    + exists [], ((sz, false) :: t). cbn. repeat split. lia.
Qed.

Lemma all_used_no_fit n bs : all_used bs = true -> no_fit n bs.
Proof.
  intros Hu. apply Forall_forall. intros [sz u] Hin Hf. cbn in Hf. subst u.
  unfold all_used in Hu. rewrite forallb_forall in Hu. now specialize (Hu _ Hin).
Qed.

Lemma scan_spec s bs n : heap_rep s bs -> 12 <= n <= 1600 -> forall b2 fuel b1,
  bs = b1 ++ b2 -> no_fit n b1 -> (length b2 + 1 < fuel)%nat ->
  (exists c1 sz c2 s', bs = c1 ++ (sz, false) :: c2 /\ no_fit n c1 /\ n + 6 <= sz /\
     scan fuel n (bytes b1) s = Ok (Some (bytes c1 + SIZEOF_STRUCT_MEM), s') /\
     heap_rep s' (c1 ++ carve n sz ++ c2)) \/
  (no_fit n bs /\ exists s', scan fuel n (bytes b1) s = Ok (None, s') /\
     heap_rep s' bs /\ s'.(ram) = s.(ram)).
Proof.
  intros Hrep Hn. induction b2 as [|[sz u] b2 IH]; intros fuel b1 Hbs Hb1 Hf;
    (destruct fuel as [|fuel]; [lia|]); cbn [scan]; pose proof Hrep as [[lv Hseg] [Heu Hen] Hlf Hnh Hu];
    rewrite Hbs in Hseg.
  - rewrite app_nil_r in *. pose proof (seg_bytes _ _ _ _ _ _ Hseg) as [Hb _]. mem_numbers.
    replace (bytes b1 <? 1600 - n) with false by (symmetry; apply Z.ltb_ge; lia).
    right. split; [now subst|]. eexists. split; [reflexivity|]. split; [|reflexivity].
    now constructor; [exists lv; subst|..].
  - destruct (seg_mid _ _ _ _ _ _ Hseg) as (pv & H1 & Hp & Hsz & Hb & Hb2 & Hsum & H2). mem_numbers.
    assert (Hlate : 1600 - n <= bytes b1 -> no_fit n bs).
    { intros Hge. subst bs. apply Forall_app. split; [assumption|].
      apply Forall_cons; [cbn; mem_numbers; lia|]. apply Forall_forall. intros [sz' u'] Hin _. cbn. mem_numbers.
      apply in_split in Hin. destruct Hin as (l1 & l2 & ->). rewrite bytes_app in Hb2, Hsum.
      cbn [bytes] in *. apply seg_app in H2. destruct H2 as (lm & Hs1 & _ & _ & Hs2).
      pose proof (seg_bytes _ _ _ _ _ _ Hs1). pose proof (seg_bytes _ _ _ _ _ _ Hs2). lia. }
    destruct (Z.ltb_spec (bytes b1) (1600 - n)) as [Hlt|Hge].
    + unfold hdr. rewrite bind_gets, Hp. cbn [used next]. rewrite u32_id by word_lia.
      replace (bytes b1 + sz - (bytes b1 + 6)) with (sz - 6) by lia. rewrite Z.geb_leb.
      destruct (negb u && (n <=? sz - 6)) eqn:Hc.
      * left. apply andb_prop in Hc. destruct Hc as [Hnu Hle]. apply negb_true_iff in Hnu.
        apply Z.leb_le in Hle. subst u bs.
        destruct (take_block_spec s b1 sz b2 n (S fuel) Hrep) as (s' & E & Hs'); [lia|lia|cbn in Hf; lia|].
        exists b1, sz, b2, s'. split; [reflexivity|]. split; [assumption|]. split; [lia|].
        rewrite (bind_ok _ _ _ _ _ E). now split.
      * replace (bytes b1 + sz) with (bytes (b1 ++ [(sz, u)])) by (rewrite bytes_app; cbn; lia).
        apply IH; [now rewrite <- app_assoc|..|cbn in Hf; lia].
        apply Forall_app. split; [assumption|]. repeat constructor. cbn. intros ->. mem_numbers.
        apply andb_false_iff in Hc. destruct Hc as [|Hc]; [discriminate|]. apply Z.leb_gt in Hc. lia.
    + right. split; [now apply Hlate|]. eexists. split; [reflexivity|]. split; [|reflexivity].
      now constructor; [exists lv; subst|..].
Qed.

(** A request that can be served at all. *)
Lemma round_size_range size : 0 <= size < 65536 ->
  12 <= round_size size /\ size <= round_size size /\
  round_size size = Z.max 12 size.
Proof.
  intros Hs. assert (Ha : u16 (LWIP_MEM_ALIGN_SIZE size) = size).
  { unfold LWIP_MEM_ALIGN_SIZE. change (u32 (Z.lnot (MEM_ALIGNMENT - 1))) with (Z.ones 32).
    rewrite Z.land_ones by lia. unfold MEM_ALIGNMENT, u16. rewrite Z.add_simpl_r.
    rewrite (Z.mod_small size (2 ^ 32)), Z.mod_small; lia. }
  unfold round_size. rewrite Ha. mem_numbers. destruct (Z.ltb_spec size 12); lia.
Qed.

(** [mem_malloc] on a represented heap. *)
Lemma mem_malloc_spec s bs size : heap_rep s bs -> 0 <= size < 65536 ->
  let n := round_size size in
  (0 < size /\ exists c1 sz c2 s', bs = c1 ++ (sz, false) :: c2 /\ no_fit n c1 /\
     n + SIZEOF_STRUCT_MEM <= sz /\
     mem_malloc size s = Ok (Some (bytes c1 + SIZEOF_STRUCT_MEM), s') /\
     heap_rep s' (c1 ++ carve n sz ++ c2)) \/
  ((size = 0 \/ no_fit n bs) /\ exists s', mem_malloc size s = Ok (None, s') /\ heap_rep s' bs).
Proof.
  intros Hrep Hs n. pose proof (round_size_range size Hs) as (Hn1 & Hn2 & _). fold n in Hn1, Hn2.
  unfold mem_malloc. fold n. destruct (Z.eqb_spec size 0) as [->|Hne].
  { right. split; [now left|]. now exists s. }
  rewrite Z.gtb_ltb. pose proof Hrep as [[lv Hseg] _ Hlf _ _]. mem_numbers.
  destruct (Z.ltb_spec 1600 n) as [Hbig|Hok].
  - right. split; [|now exists s]. right. apply Forall_forall. intros [sz u] Hin _. cbn. mem_numbers.
    apply in_split in Hin. destruct Hin as (l1 & l2 & ->).
    destruct (seg_mid _ _ _ _ _ _ Hseg) as (_ & _ & _ & _ & ? & ? & Hsum & _). mem_numbers. lia.
  - rewrite bind_gets, Hlf. destruct (low_free_split bs 0) as (b1 & b2 & Hbs & Hl & Hu).
    rewrite Hl, Z.add_0_l.
    destruct (scan_spec s bs n Hrep ltac:(lia) b2 heap_fuel b1 Hbs (all_used_no_fit n b1 Hu))
      as [(c1 & sz & c2 & s' & Hc & Hnf & Hfit & E & Hrep')|(Hnf & s' & E & Hrep' & _)].
    + pose proof (seg_bytes _ _ _ _ _ _ Hseg) as [_ Hlen]. subst bs. rewrite length_app in Hlen.
      pose proof (seg_bytes _ _ _ _ _ _ Hseg) as [Htot _].
      unfold heap_fuel. mem_numbers. change (Z.to_nat 1600) with (Z.to_nat 1600). lia.
    + left. split; [lia|]. exists c1, sz, c2, s'. mem_numbers.
      repeat (split; [assumption||lia|]). assumption.
    + right. split; [now right|]. exists s'. split; [exact E|assumption].
Qed.

(** [mem_malloc] on a represented heap is first fit: it takes the lowest
    free block that can hold the (rounded) request, splits off the rest when
    another block fits in it, and returns the data part, which lies inside
    the heap; it returns NULL exactly when the size is 0 or no free block can
    hold the request, and then the blocks are unchanged.  The resulting heap
    is represented again: linked headers, no adjacent free blocks, [lfree]
    the lowest free block, and statistics counting the bytes in use. *)
Theorem mem_malloc_first_fit s bs size : heap_rep s bs -> 0 <= size < 65536 ->
  let n := round_size size in
  (0 < size /\ exists c1 sz c2 s', bs = c1 ++ (sz, false) :: c2 /\ no_fit n c1 /\
     n + SIZEOF_STRUCT_MEM <= sz /\
     mem_malloc size s = Ok (Some (bytes c1 + SIZEOF_STRUCT_MEM), s') /\
     bytes c1 + SIZEOF_STRUCT_MEM + size <= MEM_SIZE_ALIGNED /\
     heap_rep s' (c1 ++ carve n sz ++ c2)) \/
  ((size = 0 \/ no_fit n bs) /\ exists s', mem_malloc size s = Ok (None, s') /\ heap_rep s' bs).
Proof.
  intros Hrep Hs n. destruct (mem_malloc_spec s bs size Hrep Hs) as [(H0 & c1 & sz & c2 & s' & Hc & Hnf & Hfit & E & Hrep')|H];
    [left|right; exact H].
  split; [assumption|]. exists c1, sz, c2, s'. pose proof (round_size_range size Hs) as (_ & Hn & _). fold n in Hn.
  destruct Hrep as [[lv Hseg] _ _ _ _]. rewrite Hc in Hseg.
  destruct (seg_mid _ _ _ _ _ _ Hseg) as (_ & _ & _ & _ & ? & ? & Hsum & _). mem_numbers.
  repeat (split; [assumption||lia|]). assumption.
Qed.

(** *** Freeing *)

(** A freed block of size [sz] joined with the block after it, if free. *)
Definition join_next (sz : Z) (b2 : list block) : Z * list block :=
  match b2 with
  | (sz2, false) :: t => (sz + sz2, t)
  | _ => (sz, b2)
  end.

(** And with the block before it. *)
Definition join_prev (b1 : list block) (sz : Z) (b2 : list block) : list block :=
  match rev b1 with
  | (szp, false) :: t => rev t ++ (szp + sz, false) :: b2
  | _ => b1 ++ (sz, false) :: b2
  end.

Definition freed (b1 : list block) (sz : Z) (b2 : list block) : list block :=
  let '(sz', b2') := join_next sz b2 in join_prev b1 sz' b2'.

(** What [plug_holes] relies on: linked headers, holes allowed. *)
Definition linked (s : heap) (bs : list block) : Prop :=
  (exists lv, seg s.(ram) 0 0 bs MEM_SIZE_ALIGNED lv) /\
  (s.(ram) ram_end).(used) = true /\ (s.(ram) ram_end).(next) = ram_end.

(** The forward half of [plug_holes]. *)
Lemma plug_forward s b1 sz b2 n : linked s (b1 ++ (sz, false) :: b2) ->
  let mem := bytes b1 in let nmem := mem + sz in
  n = s.(ram) nmem -> s.(lfree) <> nmem ->
  exists s', (when negb (mem =? nmem) && negb n.(used) && negb (nmem =? ram_end) then (
       do lf <- gets lfree;
       (when lf =? nmem then set_lfree mem) ;;
       set_hdr mem (fun m => m <| next := n.(next) |>) ;;
       set_hdr n.(next) (fun m => m <| prev := mem |>))) s = Ok (tt, s') /\
    linked s' (b1 ++ (fst (join_next sz b2), false) :: snd (join_next sz b2)) /\
    s'.(lfree) = s.(lfree) /\ s'.(st_used) = s.(st_used).
Proof.
  intros [[lv Hseg] [Heu Hen]] mem nmem -> Hlf.
  destruct (seg_mid _ _ _ _ _ _ Hseg) as (pv & H1 & Hp & Hsz & Hb1 & Hb2 & Hsum & H2).
  fold mem in H1, Hp, Hb1, Hsum, H2. fold nmem in Hp, H2. mem_numbers.
  replace (mem =? nmem) with false by (symmetry; apply Z.eqb_neq; unfold nmem; lia).
  destruct b2 as [|[sz2 [|]] b2]; cbn [join_next fst snd seg bytes] in *.
  - destruct H2 as [-> _]. rewrite Heu. cbn [negb andb]. exists s. split; [reflexivity|].
    split; [|now split]. split; [now exists lv|now split].
  - destruct H2 as (Hsz2 & Hn & H2). rewrite Hn. cbn [used negb andb]. exists s. split; [reflexivity|].
    split; [|now split]. split; [now exists lv|now split].
  - destruct H2 as (Hsz2 & Hn & H2). rewrite Hn. cbn [used negb andb next].
    pose proof (seg_bytes _ _ _ _ _ _ H2) as [_ Hb2']. mem_numbers.
    replace (nmem =? 1600) with false by (symmetry; apply Z.eqb_neq; unfold nmem; lia). cbn [negb].
    rewrite bind_gets, (proj2 (Z.eqb_neq _ _) Hlf). unfold set_hdr. rewrite bind_ret, bind_modify.
    unfold modify. eexists. split; [reflexivity|]. cbn [ram lfree st_used with_field].
    split; [|now split]. split; cbn [ram with_field].
    + mem_numbers. replace (sz + sz2) with (nmem + sz2 - mem) by (unfold nmem; lia).
      apply (seg_one (ram s) _ b1 b2 mem pv (nmem + sz2) nmem lv); try assumption; unfold nmem in *; try lia;
        mem_numbers; intros; unfold upd; eqb_cases; rewrite ?Hp; reflexivity.
    + unfold upd. mem_numbers. split; eqb_cases; try reflexivity; subst; try assumption;
        cbn; rewrite ?Heu, ?Hen; congruence.
Qed.

(** The backward half. *)
Lemma plug_backward s b1 sz b2 m p : linked s (b1 ++ (sz, false) :: b2) ->
  let mem := bytes b1 in
  m = s.(ram) mem -> p = s.(ram) m.(prev) ->
  (forall b1' szp, b1 = b1' ++ [(szp, false)] -> s.(lfree) <> mem) ->
  exists s', (when negb (m.(prev) =? mem) && negb p.(used) then (
       do lf <- gets lfree;
       (when lf =? mem then set_lfree m.(prev)) ;;
       set_hdr m.(prev) (fun p => p <| next := m.(next) |>) ;;
       set_hdr m.(next) (fun x => x <| prev := m.(prev) |>))) s = Ok (tt, s') /\
    linked s' (join_prev b1 sz b2) /\ s'.(lfree) = s.(lfree) /\ s'.(st_used) = s.(st_used).
Proof.
  intros [[lv Hseg] [Heu Hen]] mem -> -> Hlf.
  destruct (seg_mid _ _ _ _ _ _ Hseg) as (pv & H1 & Hp & Hsz & Hb1 & Hb2 & Hsum & H2).
  fold mem in H1, Hp, Hb1, Hsum, H2. rewrite Hp. cbn [prev next]. unfold join_prev.
  destruct b1 as [|[szp up] b1 _] using rev_ind.
  - cbn [bytes seg rev] in *. destruct H1 as [_ <-]. unfold mem. change (0 =? 0) with true. cbn [negb andb].
    exists s. split; [reflexivity|]. split; [|now split]. split; [now exists lv|now split].
  - rewrite rev_app_distr. cbn [rev app].
    pose proof (seg_bytes _ _ _ _ _ _ H2) as [_ Hb2'].
    apply seg_app in H1. rewrite Z.add_0_l in H1. destruct H1 as (ppv & H1 & Hszp & Hpp & Hend & <-).
    pose proof (seg_bytes _ _ _ _ _ _ H1) as [_ Hb1'].
    set (pm := bytes b1) in *. assert (Hmem : mem = pm + szp) by (unfold mem; rewrite bytes_app; cbn; lia).
    rewrite Hpp. cbn [used next]. mem_numbers.
    replace (pm =? mem) with false by (symmetry; apply Z.eqb_neq; lia). cbn [negb andb].
    destruct up; cbn [negb].
    + exists s. split; [reflexivity|]. split; [|now split]. split; [now exists lv|now split].
    + rewrite bind_gets, (proj2 (Z.eqb_neq _ _) (Hlf _ _ eq_refl)). unfold set_hdr. rewrite bind_ret, bind_modify.
      unfold modify. eexists. split; [reflexivity|]. cbn [ram lfree st_used with_field].
      split; [|now split]. split; cbn [ram with_field].
      * mem_numbers. rewrite rev_involutive. replace (szp + sz) with (mem + sz - pm) by lia.
        apply (seg_one (ram s) _ b1 b2 pm ppv (mem + sz) mem lv); try assumption; try lia;
          mem_numbers; intros; unfold upd; eqb_cases; rewrite ?Hpp; reflexivity.
      * unfold upd. mem_numbers. split; eqb_cases; try reflexivity; subst; try assumption;
          cbn; rewrite ?Heu, ?Hen; congruence.
Qed.

Lemma join_prev_cases b1 sz b2 :
  (exists b1' szp, b1 = b1' ++ [(szp, false)] /\ join_prev b1 sz b2 = b1' ++ (szp + sz, false) :: b2) \/
  ((forall b1' szp, b1 <> b1' ++ [(szp, false)]) /\ join_prev b1 sz b2 = b1 ++ (sz, false) :: b2).
Proof.
  unfold join_prev. destruct b1 as [|[szp up] b1 _] using rev_ind.
  - right. split; [|reflexivity]. intros b1' szp E. now apply app_cons_not_nil in E.
  - rewrite rev_app_distr. cbn [rev app]. destruct up.
    + right. split; [|reflexivity]. intros b1' szp' E. apply app_inj_tail in E. destruct E. congruence.
    + left. exists b1, szp. now rewrite rev_involutive.
Qed.

Lemma low_free_freed b1 sz b2 :
  low_free 0 (freed b1 sz b2) = low_free 0 (b1 ++ (sz, false) :: b2).
Proof.
  unfold freed. destruct (join_next sz b2) as [sz' b2'].
  destruct (join_prev_cases b1 sz' b2') as [(b1' & szp & -> & ->)|[_ ->]]; rewrite !low_free_app; cbn [low_free].
  - unfold all_used. rewrite forallb_app. cbn [forallb snd andb]. rewrite andb_false_r.
    now destruct (forallb snd b1').
  - reflexivity.
Qed.

Lemma used_bytes_freed b1 sz b2 : used_bytes (freed b1 sz b2) = used_bytes b1 + used_bytes b2.
Proof.
  assert (Hn : used_bytes (snd (join_next sz b2)) = used_bytes b2)
    by (destruct b2 as [|[sz2 []] b2]; reflexivity).
  unfold freed. destruct (join_next sz b2) as [sz' b2']. cbn [snd] in Hn.
  destruct (join_prev_cases b1 sz' b2') as [(b1' & szp & -> & ->)|[_ ->]];
    rewrite !used_bytes_app; cbn [used_bytes]; lia.
Qed.

Lemma no_holes_freed b1 sz b2 : no_holes (b1 ++ (sz, true) :: b2) -> no_holes (freed b1 sz b2).
Proof.
  intros Hn. pose proof (no_holes_tail _ _ Hn) as [_ Hb2].
  assert (Hj : no_holes ((fst (join_next sz b2), false) :: snd (join_next sz b2))).
  { destruct b2 as [|[sz2 []] b2]; cbn [join_next fst snd no_holes starts_free] in *; tauto. }
  unfold freed. destruct (join_next sz b2) as [sz' b2']. cbn [fst snd] in Hj.
  destruct (join_prev_cases b1 sz' b2') as [(b1' & szp & -> & ->)|[Hlast ->]].
  - rewrite <- app_assoc in Hn. apply (no_holes_replace _ _ _ Hn); [reflexivity|exact Hj].
  - destruct b1 as [|[szp up] b1 _] using rev_ind; [exact Hj|].
    rewrite <- app_assoc in *. cbn [app] in *. destruct up; [|now specialize (Hlast b1 szp)].
    apply (no_holes_replace _ _ _ Hn); [discriminate|]. split; [discriminate|exact Hj].
Qed.

Lemma plug_holes_spec s b1 sz b2 : linked s (b1 ++ (sz, false) :: b2) ->
  s.(lfree) = low_free 0 (b1 ++ (sz, false) :: b2) ->
  exists s', plug_holes (bytes b1) s = Ok (tt, s') /\ linked s' (freed b1 sz b2) /\
    s'.(lfree) = s.(lfree) /\ s'.(st_used) = s.(st_used).
Proof.
  intros Hl Hlf. pose proof Hl as [[lv Hseg] _].
  destruct (seg_mid _ _ _ _ _ _ Hseg) as (pv & H1 & Hp & Hsz & Hb1 & Hb2 & Hsum & _).
  destruct (low_free_bound _ _ _ _ _ _ H1) as (Hlb & Hlt & Hle).
  rewrite low_free_app in Hlf. cbn [low_free] in Hlf.
  unfold plug_holes, hdr, Assert. rewrite bind_gets, Hp. cbn [used next]. mem_numbers.
  rewrite !bind_assert by (reflexivity || (apply Z.leb_le; lia) || (apply Z.ltb_lt; lia)).
  rewrite bind_gets.
  destruct (plug_forward s b1 sz b2 _ Hl eq_refl) as (s1 & E1 & Hl1 & Hlf1 & Hu1).
  { destruct (all_used b1); lia. }
  mem_numbers. rewrite (bind_ok _ _ _ _ _ E1), !bind_gets. unfold freed.
  destruct (join_next sz b2) as [sz' b2']. cbn [fst snd] in Hl1.
  destruct (plug_backward s1 b1 sz' b2' _ _ Hl1 eq_refl eq_refl) as (s2 & E2 & Hl2 & Hlf2 & Hu2).
  { intros b1' szp ->. rewrite Hlf1, Hlf. unfold all_used in *. rewrite forallb_app in *.
    cbn [forallb snd andb] in *. rewrite andb_false_r in *. specialize (Hlt eq_refl). lia. }
  exists s2. split; [exact E2|]. split; [assumption|]. now rewrite Hlf2, Hlf1, Hu2, Hu1.
Qed.

(** Clearing the [used] flag of a block keeps the list linked. *)
Lemma linked_unused s s' b1 sz b2 : linked s (b1 ++ (sz, true) :: b2) ->
  s'.(ram) = upd s.(ram) (bytes b1) (fun m => m <| used := false |>) ->
  linked s' (b1 ++ (sz, false) :: b2).
Proof.
  intros [[lv Hseg] [Heu Hen]] Hr. unfold linked. rewrite Hr.
  destruct (seg_mid _ _ _ _ _ _ Hseg) as (pv & H1 & Hp & Hsz & Hb1 & Hb2 & Hsum & H2).
  set (p := bytes b1) in *. mem_numbers. split.
  - assert (Esz : (sz, false) = (p + sz - p, false)) by (f_equal; lia). rewrite Esz. clear Esz.
    apply (seg_one (ram s) _ b1 b2 p pv (p + sz) p lv); try assumption; try lia;
      mem_numbers; intros; unfold upd; eqb_cases; rewrite ?Hp; try reflexivity.
    destruct b2 as [|[sz2 u2] b2']; cbn [seg bytes] in *; [lia|].
    destruct H2 as (_ & -> & _). reflexivity.
  - unfold upd. eqb_cases. now split.
Qed.

(** The lowest free block after a block at [bytes b1] becomes free. *)
Lemma low_free_unused r b1 sz b2 lv :
  seg r 0 0 (b1 ++ (sz, true) :: b2) MEM_SIZE_ALIGNED lv ->
  (if bytes b1 <? low_free 0 (b1 ++ (sz, true) :: b2) then bytes b1
   else low_free 0 (b1 ++ (sz, true) :: b2)) = low_free 0 (b1 ++ (sz, false) :: b2).
Proof.
  intros Hseg. destruct (seg_mid _ _ _ _ _ _ Hseg) as (pv & H1 & _ & Hsz & _ & _ & _ & H2).
  destruct (low_free_bound _ _ _ _ _ _ H1) as (Hlb & Hlt & Hle).
  destruct (low_free_bound _ _ _ _ _ _ H2) as (Hlb2 & _ & _).
  rewrite !low_free_app. cbn [low_free]. rewrite Z.add_0_l. destruct (all_used b1) eqn:Eu.
  - replace (bytes b1 <? _) with true; [reflexivity|symmetry; apply Z.ltb_lt; lia].
  - replace (bytes b1 <? _) with false; [reflexivity|symmetry; apply Z.ltb_ge; lia].
Qed.

(** [if (c) lfree = p;] *)
Lemma when_lfree (c : bool) p s : exists s', (when c then set_lfree p) s = Ok (tt, s') /\
  s'.(ram) = s.(ram) /\ s'.(st_used) = s.(st_used) /\
  s'.(lfree) = if c then p else s.(lfree).
Proof. destruct c; eexists; (split; [reflexivity|]); now repeat split. Qed.

(** [mem_free] of a used block. *)
Lemma mem_free_spec s b1 sz b2 : heap_rep s (b1 ++ (sz, true) :: b2) ->
  exists s', mem_free (Some (bytes b1 + SIZEOF_STRUCT_MEM)) s = Ok (tt, s') /\
    heap_rep s' (freed b1 sz b2) /\ s'.(st_used) = s.(st_used) - sz.
Proof.
  intros [[lv Hseg] [Heu Hen] Hlf Hnh Hu]. pose proof (low_free_unused _ _ _ _ _ Hseg) as Hlow.
  destruct (seg_mid _ _ _ _ _ _ Hseg) as (pv & H1 & Hp & Hsz & Hb1 & Hb2 & Hsum & H2).
  pose proof (used_bytes_bound _ _ _ _ _ _ H1). pose proof (used_bytes_bound _ _ _ _ _ _ H2).
  rewrite used_bytes_app in Hu. cbn [used_bytes] in Hu.
  unfold mem_free, Assert, hdr. mem_numbers.
  rewrite !bind_assert by ((apply Z.eqb_eq, Z.land_0_r) || (apply andb_true_iff; rewrite Z.leb_le, Z.ltb_lt; lia)).
  replace (bytes b1 + 6 - 6) with (bytes b1) by lia.
  rewrite bind_gets, Hp. cbn [used]. rewrite bind_assert by reflexivity.
  unfold set_hdr. rewrite bind_modify, bind_gets.
  set (s0 := s <| ram := upd (ram s) (bytes b1) (fun m => m <| used := false |>) |>).
  destruct (when_lfree (bytes b1 <? lfree s0) (bytes b1) s0) as (s1 & E1 & Hr1 & Hu1 & Hl1).
  change (lfree s0) with (lfree s) in *. change (st_used s0) with (st_used s) in *.
  rewrite Hlf, Hlow in Hl1. rewrite Hlf in *.
  rewrite (bind_ok _ _ _ _ _ E1), bind_gets, Hr1. cbn [ram with_field s0].
  rewrite upd_same, Hp. cbn [next with_field].
  replace (bytes b1 + sz - bytes b1) with sz by lia.
  unfold MEM_STATS_DEC_USED. rewrite bind_modify, (u16_id sz), Hu1, u16_id by word_lia.
  set (s2 := s1 <| st_used := st_used s - sz |>).
  assert (Hl2 : linked s2 (b1 ++ (sz, false) :: b2)) by (apply (linked_unused s); [split; eauto|exact Hr1]).
  destruct (plug_holes_spec s2 b1 sz b2 Hl2 Hl1) as (s3 & E3 & [Hseg3 Hend3] & Hl3 & Hu3).
  exists s3. split; [exact E3|]. split; [|exact Hu3].
  constructor; [assumption|assumption|..].
  - rewrite Hl3, low_free_freed. exact Hl1.
  - now apply no_holes_freed.
  - rewrite Hu3, used_bytes_freed. unfold s2. cbn [st_used with_field]. lia.
Qed.

(** *** Shrinking *)

(** The blocks after the used block of size [sz] is shrunk to [n] data bytes. *)
Definition trimmed (b1 : list block) (sz n : Z) (b2 : list block) : list block :=
  let sz' := n + SIZEOF_STRUCT_MEM in
  if sz' =? sz then b1 ++ (sz, true) :: b2 else
  match b2 with
  | (sz2, false) :: t => b1 ++ (sz', true) :: (sz - sz' + sz2, false) :: t
  | _ => if sz' + SIZEOF_STRUCT_MEM + MIN_SIZE_ALIGNED <=? sz
         then b1 ++ (sz', true) :: (sz - sz', false) :: b2 else b1 ++ (sz, true) :: b2
  end.

(** The header assignments of [mem_trim]: the used block at [p] now ends at
    [p2], where a free block starts that ends at [q]. *)
Lemma trim_headers s b1 b2 p pv nx q x lv p2 d :
  seg s.(ram) 0 0 b1 p pv -> seg s.(ram) q x b2 MEM_SIZE_ALIGNED lv ->
  s.(ram) p = mkMem nx pv true -> p + 18 <= p2 -> p2 + 18 <= q ->
  (s.(ram) ram_end).(used) = true -> (s.(ram) ram_end).(next) = ram_end ->
  exists s', (set_hdr p2 (fun _ => mkMem q p false) ;;
     set_hdr p (fun m => m <| next := p2 |>) ;;
     (when negb (q =? MEM_SIZE_ALIGNED) then set_hdr q (fun m => m <| prev := p2 |>)) ;;
     MEM_STATS_DEC_USED d) s = Ok (tt, s') /\
    linked s' (b1 ++ (p2 - p, true) :: (q - p2, false) :: b2) /\
    s'.(lfree) = s.(lfree) /\ s'.(st_used) = u16 (s.(st_used) - d).
Proof.
  intros H1 H2 Hp Hp2 Hq Heu Hen.
  pose proof (seg_bytes _ _ _ _ _ _ H1). pose proof (seg_bytes _ _ _ _ _ _ H2). mem_numbers.
  unfold set_hdr. rewrite !bind_modify.
  set (r2 := upd (upd (ram s) p2 (fun _ => mkMem q p false)) p (fun m => m <| next := p2 |>)).
  set (r3 := if q =? 1600 then r2 else upd r2 q (fun m => m <| prev := p2 |>)).
  exists (s <| ram := r3 |> <| st_used := u16 (st_used s - d) |>).
  split; [unfold MEM_STATS_DEC_USED, r3; now destruct (q =? 1600)|].
  assert (Hr3 : forall a, r3 a =
    if (a =? q) && negb (a =? 1600) then (ram s a) <| prev := p2 |>
    else if a =? p then mkMem p2 pv true
    else if a =? p2 then mkMem q p false else ram s a).
  { intros a. unfold r3, r2, upd.
    destruct (Z.eqb_spec q 1600), (Z.eqb_spec a q), (Z.eqb_spec a 1600), (Z.eqb_spec a p),
      (Z.eqb_spec a p2); try lia; subst; cbn [andb negb]; eqb_cases; rewrite ?Hp; reflexivity. }
  split; [|now split]. unfold linked. cbn [ram with_field]. split.
  - apply (seg_two (ram s) r3 b1 b2 p pv q x lv); try assumption; try lia;
      mem_numbers; intros; rewrite Hr3; eqb_cases; reflexivity.
  - mem_numbers. rewrite Hr3. eqb_cases; cbn [andb negb]; now split.
Qed.

Lemma heap_rep_linked s bs : linked s bs -> s.(lfree) = low_free 0 bs -> no_holes bs ->
  s.(st_used) = used_bytes bs -> heap_rep s bs.
Proof. intros [? ?]. now constructor. Qed.

(** Both branches of [mem_trim] that give bytes up. *)
Lemma trim_gives_up s b1 b2 pv nx q x lv p2 d (c : bool) : let p := bytes b1 in
  let bs := b1 ++ (p2 - p, true) :: (q - p2, false) :: b2 in
  seg s.(ram) 0 0 b1 p pv -> seg s.(ram) q x b2 MEM_SIZE_ALIGNED lv ->
  s.(ram) p = mkMem nx pv true -> p + 18 <= p2 -> p2 + 18 <= q ->
  (s.(ram) ram_end).(used) = true -> (s.(ram) ram_end).(next) = ram_end ->
  (if c then p2 else s.(lfree)) = low_free 0 bs -> no_holes bs -> u16 (s.(st_used) - d) = used_bytes bs ->
  exists s', ((when c then set_lfree p2) ;;
     set_hdr p2 (fun _ => mkMem q p false) ;;
     set_hdr p (fun m => m <| next := p2 |>) ;;
     (when negb (q =? MEM_SIZE_ALIGNED) then set_hdr q (fun m => m <| prev := p2 |>)) ;;
     MEM_STATS_DEC_USED d) s = Ok (tt, s') /\ heap_rep s' bs.
Proof.
  intros p bs H1 H2 Hp Hp2 Hq Heu Hen Hlf Hnh Hu.
  destruct (when_lfree c p2 s) as (s1 & E1 & Hr1 & Hu1 & Hl1). rewrite <- Hr1 in *. rewrite <- Hu1 in Hu.
  destruct (trim_headers s1 b1 b2 p pv nx q x lv p2 d H1 H2 Hp Hp2 Hq Heu Hen) as (s2 & E2 & Hl2 & Hlf2 & Hu2).
  exists s2. rewrite (bind_ok _ _ _ _ _ E1). split; [exact E2|].
  apply heap_rep_linked; [exact Hl2|congruence|exact Hnh|congruence].
Qed.

(** The header behind a block that no free block follows. *)
Lemma seg_used r p pv bs lv : seg r p pv bs MEM_SIZE_ALIGNED lv ->
  (r ram_end).(used) = true -> starts_free bs = false -> (r p).(used) = true.
Proof.
  destruct bs as [|[sz [|]] t]; cbn [seg starts_free]; [now intros [-> _]|now intros (_ & -> & _)|discriminate].
Qed.

Lemma not_starts_free {A} bs (f : Z -> list block -> A) x : starts_free bs = false ->
  match bs with (sz, false) :: t => f sz t | _ => x end = x.
Proof. now destruct bs as [|[? []] ?]. Qed.

(** [mem_trim] to a size that is not above that of the block. *)
Lemma mem_trim_spec s b1 sz b2 size : heap_rep s (b1 ++ (sz, true) :: b2) ->
  0 <= size < 65536 -> round_size size + SIZEOF_STRUCT_MEM <= sz ->
  exists s', mem_trim (bytes b1 + SIZEOF_STRUCT_MEM) size s =
      Ok (Some (bytes b1 + SIZEOF_STRUCT_MEM), s') /\
    heap_rep s' (trimmed b1 sz (round_size size) b2).
Proof.
  intros Hrep Hs. pose proof Hrep as [[lv Hseg] [Heu Hen] Hlf Hnh Hu].
  pose proof (round_size_range size Hs) as (Hn & _ & _). set (n := round_size size) in *. intros Hfit.
  destruct (seg_mid _ _ _ _ _ _ Hseg) as (pv & H1 & Hp & Hsz & Hb1 & Hb2 & Hsum & H2).
  pose proof (used_bytes_bound _ _ _ _ _ _ H1). pose proof (used_bytes_bound _ _ _ _ _ _ H2).
  destruct (low_free_bound _ _ _ _ _ _ H1) as (Hlb & Hlt & _).
  unfold mem_trim, trimmed, hdr, Assert. fold n. mem_numbers. rewrite Z.gtb_ltb.
  replace (1600 <? n) with false by (symmetry; apply Z.ltb_ge; lia).
  rewrite bind_assert by (apply andb_true_iff; rewrite Z.leb_le, Z.ltb_lt; lia).
  replace (bytes b1 + 6 - 6) with (bytes b1) by lia. rewrite (u16_id (bytes b1)) by word_lia.
  rewrite bind_gets, Hp. cbn [next]. replace (bytes b1 + sz - bytes b1 - 6) with (sz - 6) by lia.
  rewrite (u16_id (sz - 6)), bind_assert by (word_lia || (apply Z.leb_le; lia)).
  destruct (Z.eqb_spec n (sz - 6)) as [En|En], (Z.eqb_spec (n + 6) sz) as [En'|En']; try lia.
  { exists s. split; [reflexivity|assumption]. }
  rewrite bind_gets, (u16_id (bytes b1 + 6 + n)) by word_lia. cbv zeta.
  set (p2 := bytes b1 + 6 + n). rewrite used_bytes_app in Hu. cbn [used_bytes] in Hu.
  rewrite low_free_app in Hlf. cbn [low_free] in Hlf. rewrite Z.add_0_l in Hlf.
  destruct (low_free_bound _ _ _ _ _ _ H2) as (Hlb2 & _ & _).
  replace (n + 6 + 12 <=? sz - 6) with (n + 6 + 6 + 12 <=? sz)
    by (destruct (Z.leb_spec (n + 6 + 12) (sz - 6)), (Z.leb_spec (n + 6 + 6 + 12) sz); lia).
  replace (n + 6) with (p2 - bytes b1) by (unfold p2; lia).
  destruct (starts_free b2) eqn:Esf.
  - destruct b2 as [|[sz2 [|]] t]; try discriminate. cbn [seg bytes used_bytes low_free] in *.
    destruct H2 as (Hsz2 & Hn2 & H2). rewrite Hn2. cbn [used negb next]. mem_numbers.
    replace (sz - (p2 - bytes b1) + sz2) with (bytes b1 + sz + sz2 - p2) by lia.
    edestruct (trim_gives_up s b1 t pv (bytes b1 + sz) (bytes b1 + sz + sz2) (bytes b1 + sz) lv p2 (sz - 6 - n)
      (lfree s =? bytes b1 + sz)) as (s' & E & Hrep'); try assumption; try (unfold p2; lia).
    + rewrite Hlf, low_free_app. cbn [low_free]. unfold p2. destruct (all_used b1); eqb_cases; lia.
    + apply (no_holes_replace _ _ _ Hnh); [discriminate|]. apply no_holes_tail in Hnh. cbn in *. tauto.
    + rewrite used_bytes_app. cbn [used_bytes]. unfold p2. rewrite u16_id by word_lia. lia.
    + mem_numbers. exists s'. split; [|assumption].
      refine (eq_trans (bind_ok _ _ _ _ _ _) _); [exact E|reflexivity].
  - replace (negb (used (ram s (bytes b1 + sz)))) with false.
    2:{ symmetry. apply negb_false_iff, (seg_used _ _ _ _ _ H2 Heu Esf). }
    rewrite (not_starts_free b2 (fun sz2 t => b1 ++ (p2 - bytes b1, true) :: (sz - (p2 - bytes b1) + sz2, false) :: t))
      by assumption.
    destruct (Z.leb_spec (p2 - bytes b1 + 6 + 12) sz); [|exists s; split; [reflexivity|assumption]].
    replace (sz - (p2 - bytes b1)) with (bytes b1 + sz - p2) by lia.
    edestruct (trim_gives_up s b1 b2 pv (bytes b1 + sz) (bytes b1 + sz) (bytes b1) lv p2 (sz - 6 - n)
      (p2 <? lfree s)) as (s' & E & Hrep'); try assumption; try (unfold p2; lia).
    + rewrite Hlf, low_free_app. cbn [low_free]. unfold p2.
      destruct (all_used b1); destruct (Z.ltb_spec (bytes b1 + 6 + n) (low_free (bytes b1 + sz) b2)),
        (Z.ltb_spec (bytes b1 + 6 + n) (low_free 0 b1)); lia.
    + apply (no_holes_replace _ _ _ Hnh); [discriminate|]. apply no_holes_tail in Hnh. cbn in *. tauto.
    + rewrite used_bytes_app. cbn [used_bytes]. unfold p2. rewrite u16_id by word_lia. lia.
    + mem_numbers. exists s'. split; [|assumption].
      refine (eq_trans (bind_ok _ _ _ _ _ _) _); [exact E|reflexivity].
Qed.

(** [mem_free] of a pointer to a used block turns the block free, joins
    it with its free neighbours, and leaves a represented heap: no two
    adjacent free blocks, [lfree] the lowest one, the statistics reduced by
    the size of the block.  Freeing a pointer to a free block fails the
    assertion, and freeing NULL does nothing. *)
Theorem mem_free_releases s b1 sz u b2 : heap_rep s (b1 ++ (sz, u) :: b2) ->
  let r := mem_free (Some (bytes b1 + SIZEOF_STRUCT_MEM)) s in
  (if u then exists s', r = Ok (tt, s') /\
     heap_rep s' (freed b1 sz b2) /\ s'.(st_used) = s.(st_used) - sz
   else r = Halt) /\
  mem_free None s = Ok (tt, s).
Proof.
  intros Hrep r. split; [|reflexivity]. destruct u; [now apply mem_free_spec|].
  destruct Hrep as [[lv Hseg] _ _ _ _].
  destruct (seg_mid _ _ _ _ _ _ Hseg) as (pv & _ & Hp & Hsz & Hb1 & Hb2 & Hsum & _).
  subst r. unfold mem_free, Assert, hdr. mem_numbers.
  rewrite !bind_assert by ((apply Z.eqb_eq, Z.land_0_r) || (apply andb_true_iff; rewrite Z.leb_le, Z.ltb_lt; lia)).
  replace (bytes b1 + 6 - 6) with (bytes b1) by lia. rewrite bind_gets, Hp. reflexivity.
Qed.

(** [mem_trim] of a used block to a size that is not above its own keeps
    the pointer; the bytes it gives up go to the free block behind it, or
    become a free block when there is room for one, or stay with the block;
    the heap is represented again.  A bigger size fails the assertion, or
    gives NULL when it is bigger than the heap. *)
Theorem mem_trim_shrinks s b1 sz b2 size : heap_rep s (b1 ++ (sz, true) :: b2) ->
  0 <= size < 65536 ->
  let n := round_size size in
  let r := mem_trim (bytes b1 + SIZEOF_STRUCT_MEM) size s in
  if n + SIZEOF_STRUCT_MEM <=? sz
  then exists s', r = Ok (Some (bytes b1 + SIZEOF_STRUCT_MEM), s') /\ heap_rep s' (trimmed b1 sz n b2)
  else if n <=? MEM_SIZE_ALIGNED then r = Halt else r = Ok (None, s).
Proof.
  intros Hrep Hs n r. destruct (Z.leb_spec (n + SIZEOF_STRUCT_MEM) sz) as [Hle|Hgt];
    [now apply mem_trim_spec|].
  destruct Hrep as [[lv Hseg] _ _ _ _].
  destruct (seg_mid _ _ _ _ _ _ Hseg) as (pv & _ & Hp & Hsz & Hb1 & Hb2 & Hsum & _).
  subst r. unfold mem_trim, Assert, hdr. fold n. rewrite Z.gtb_ltb, Z.ltb_antisym. mem_numbers.
  destruct (n <=? 1600); [|reflexivity]. cbn [negb].
  rewrite bind_assert by (apply andb_true_iff; rewrite Z.leb_le, Z.ltb_lt; lia).
  replace (bytes b1 + 6 - 6) with (bytes b1) by lia. rewrite (u16_id (bytes b1)) by word_lia.
  rewrite bind_gets, Hp. cbn [next]. replace (bytes b1 + sz - bytes b1 - 6) with (sz - 6) by lia.
  rewrite (u16_id (sz - 6)) by word_lia.
  now replace (n <=? sz - 6) with false by (symmetry; apply Z.leb_gt; lia).
Qed.

(** ** Clients *)

(** What the users of the heap do: the pointers they hold, with the sizes
    they asked for, are a list; an operation on a pointer names its position. *)
Inductive op := Malloc (size : Z) | Free (i : nat) | Trim (i : nat) (newsize : Z).

Definition run_op (o : op) (live : list (Z * Z)) : HM (list (Z * Z)) :=
  match o with
  | Malloc size =>
      do p <- mem_malloc size;
      ret (match p with Some p => (p, size) :: live | None => live end)
  | Free i =>
      match nth_error live i with
      | Some (p, _) => mem_free (Some p) ;; ret (remove_at i live)
      | None => ret live
      end
  | Trim i newsize =>
      match nth_error live i with
      | Some (p, size) =>
          if newsize <=? size then
            do q <- mem_trim p newsize;
            ret (match q with Some q => (q, newsize) :: remove_at i live | None => live end)
          else ret live
      | None => ret live
      end
  end.

Fixpoint run_ops (os : list op) (live : list (Z * Z)) : HM (list (Z * Z)) :=
  match os with
  | [] => ret live
  | o :: os => do live <- run_op o live; run_ops os live
  end.

Definition op_range (o : op) : Prop :=
  match o with Malloc n | Trim _ n => 0 <= n < 65536 | Free _ => True end.

(** The used blocks: their data pointers and capacities. *)
Fixpoint allocs (p : Z) (bs : list block) : list (Z * Z) :=
  match bs with
  | [] => []
  | (sz, u) :: t =>
      (if u : bool then [(p + SIZEOF_STRUCT_MEM, sz - SIZEOF_STRUCT_MEM)] else []) ++ allocs (p + sz) t
  end.

Lemma allocs_app b1 : forall p b2, allocs p (b1 ++ b2) = allocs p b1 ++ allocs (p + bytes b1) b2.
Proof.
  induction b1 as [|[sz u] t IH]; intros p b2; cbn [app allocs bytes]; [now rewrite Z.add_0_r|].
  rewrite IH, <- app_assoc. now replace (p + sz + bytes t) with (p + (sz + bytes t)) by lia.
Qed.

(** A pointer to a used block names the block. *)
Lemma allocs_split bs : forall p q c, In (q, c) (allocs p bs) ->
  exists b1 sz b2, bs = b1 ++ (sz, true) :: b2 /\ q = p + bytes b1 + SIZEOF_STRUCT_MEM /\
                   c = sz - SIZEOF_STRUCT_MEM.
Proof.
  induction bs as [|[sz u] t IH]; intros p q c; cbn [allocs]; [contradiction|].
  rewrite in_app_iff. intros [Hin|Hin].
  - destruct u; [|contradiction]. destruct Hin as [[= <- <-]|[]]. exists [], sz, t.
    repeat split. cbn [bytes]. lia.
  - destruct (IH _ _ _ Hin) as (b1 & sz' & b2 & -> & -> & ->). exists ((sz, u) :: b1), sz', b2.
    repeat split. cbn [bytes]. lia.
Qed.

Lemma allocs_bounds r bs : forall p pv q lv x c, seg r p pv bs q lv -> In (x, c) (allocs p bs) ->
  p + 6 <= x /\ 0 <= c /\ x + c <= q.
Proof.
  intros p pv q lv x c Hs Hin. destruct (allocs_split _ _ _ _ Hin) as (b1 & sz & b2 & -> & -> & ->).
  apply seg_app in Hs. destruct Hs as (lm & H1 & Hsz & _ & H2).
  pose proof (seg_bytes _ _ _ _ _ _ H1). pose proof (seg_bytes _ _ _ _ _ _ H2). mem_numbers. lia.
Qed.

(** Different used blocks do not overlap. *)
Lemma allocs_disjoint r bs : forall p pv q lv x c x' c', seg r p pv bs q lv ->
  In (x, c) (allocs p bs) -> In (x', c') (allocs p bs) -> x <> x' -> x + c <= x' \/ x' + c' <= x.
Proof.
  induction bs as [|[sz u] t IH]; intros p pv q lv x c x' c' Hs H H' Hne; [contradiction|].
  destruct Hs as (Hsz & _ & Hs). cbn [allocs] in H, H'. rewrite in_app_iff in H, H'. mem_numbers.
  assert (Hhd : forall y d, In (y, d) (if u then [(p + 6, sz - 6)] else []) -> y = p + 6 /\ d = sz - 6).
  { destruct u; [|contradiction]. intros y d [[= <- <-]|[]]. now split. }
  destruct H as [[-> ->]%Hhd|H], H' as [[-> ->]%Hhd|H']; try lia.
  - pose proof (allocs_bounds _ _ _ _ _ _ _ _ Hs H'). lia.
  - pose proof (allocs_bounds _ _ _ _ _ _ _ _ Hs H). lia.
  - eapply IH; eassumption.
Qed.

(** The other blocks of a list around one at [bytes b1]. *)
Definition others (b1 : list block) (sz : Z) (b2 : list block) : list (Z * Z) :=
  allocs 0 b1 ++ allocs (bytes b1 + sz) b2.

Lemma allocs_around b1 sz u b2 x c : In (x, c) (allocs 0 (b1 ++ (sz, u) :: b2)) <->
  In (x, c) (others b1 sz b2) \/
  (u = true /\ x = bytes b1 + SIZEOF_STRUCT_MEM /\ c = sz - SIZEOF_STRUCT_MEM).
Proof.
  unfold others. rewrite allocs_app. cbn [allocs]. rewrite Z.add_0_l, !in_app_iff.
  destruct u; cbn [In]; intuition (congruence || eauto).
Qed.

Lemma others_fresh r b1 sz u b2 lv x c : seg r 0 0 (b1 ++ (sz, u) :: b2) MEM_SIZE_ALIGNED lv ->
  In (x, c) (others b1 sz b2) -> x <> bytes b1 + SIZEOF_STRUCT_MEM.
Proof.
  intros Hs Hin. destruct (seg_mid _ _ _ _ _ _ Hs) as (pv & H1 & _ & Hsz & _ & _ & _ & H2). mem_numbers.
  apply in_app_iff in Hin. destruct Hin as [Hin|Hin].
  - pose proof (allocs_bounds _ _ _ _ _ _ _ _ H1 Hin). lia.
  - pose proof (allocs_bounds _ _ _ _ _ _ _ _ H2 Hin). lia.
Qed.

(** A used block with room for [n] bytes at [bytes b1], the others as they were. *)
Definition resized (b1 : list block) (sz n : Z) (b2 bs : list block) : Prop :=
  exists sz' t, bs = b1 ++ (sz', true) :: t /\ n + SIZEOF_STRUCT_MEM <= sz' /\
                others b1 sz' t = others b1 sz b2.

Lemma carve_resized b1 n sz b2 : n + SIZEOF_STRUCT_MEM <= sz ->
  resized b1 sz n b2 (b1 ++ carve n sz ++ b2).
Proof.
  intros Hfit. unfold carve. destruct (_ >=? _); cbn [app]; do 2 eexists;
    (split; [reflexivity|]); (split; [lia|]); [|reflexivity].
  unfold others. cbn [allocs app]. do 2 f_equal. lia.
Qed.

Lemma trimmed_resized b1 sz n b2 : n + SIZEOF_STRUCT_MEM <= sz ->
  resized b1 sz n b2 (trimmed b1 sz n b2).
Proof.
  intros Hfit. unfold trimmed.
  destruct (Z.eqb_spec (n + SIZEOF_STRUCT_MEM) sz); [exists sz, b2; now repeat split|].
  destruct b2 as [|[sz2 [|]] t]; try destruct (_ <=? _); do 2 eexists;
    (split; [reflexivity|]); (split; [lia|]); try reflexivity;
    unfold others; cbn [allocs app]; f_equal; [|f_equal; lia].
  now replace (bytes b1 + _ + (sz - _)) with (bytes b1 + sz) by lia.
Qed.

Lemma allocs_freed b1 sz b2 : allocs 0 (freed b1 sz b2) = others b1 sz b2.
Proof.
  unfold freed, others.
  assert (Hn : allocs (bytes b1 + fst (join_next sz b2)) (snd (join_next sz b2)) = allocs (bytes b1 + sz) b2).
  { destruct b2 as [|[sz2 []] b2]; cbn [join_next fst snd allocs app]; try reflexivity.
    now replace (bytes b1 + (sz + sz2)) with (bytes b1 + sz + sz2) by lia. }
  destruct (join_next sz b2) as [sz' b2']. cbn [fst snd] in Hn. rewrite <- Hn.
  destruct (join_prev_cases b1 sz' b2') as [(b1' & szp & -> & ->)|[_ ->]];
    rewrite !allocs_app; cbn [allocs app]; rewrite ?bytes_app, ?app_nil_r, ?Z.add_0_l; [|reflexivity].
  cbn [bytes]. do 2 f_equal. lia.
Qed.

(** The held pointers [live] are exactly those to the used blocks [al], each
    once, and the blocks are big enough. *)
Definition holds (al live : list (Z * Z)) : Prop :=
  NoDup (map fst live) /\
  (forall p n, In (p, n) live -> 0 <= n < 65536 /\ exists c, round_size n <= c /\ In (p, c) al) /\
  (forall p c, In (p, c) al -> In p (map fst live)).

(** The pointer at position [i], and the list without it. *)
Lemma holds_take al live i p n : holds al live -> nth_error live i = Some (p, n) ->
  (0 <= n < 65536 /\ exists c, round_size n <= c /\ In (p, c) al) /\
  forall al', (forall x c, In (x, c) al' <-> In (x, c) al /\ x <> p) -> holds al' (remove_at i live).
Proof.
  intros (Hnd & Hall & Hex) Hi. split; [exact (Hall _ _ (nth_error_In _ _ Hi))|].
  destruct (remove_at_split _ _ _ Hi) as (l1 & l2 & -> & ->). intros al' Hal'.
  unfold holds. rewrite map_app in *. cbn [map fst] in *.
  pose proof (NoDup_remove_2 _ _ _ Hnd) as Hni. split; [exact (NoDup_remove_1 _ _ _ Hnd)|]. split.
  - intros q m Hq. destruct (Hall q m) as (Hm & c & Hc & Hin); [rewrite in_app_iff in *; cbn; tauto|].
    split; [assumption|]. exists c. split; [assumption|]. apply Hal'. split; [assumption|].
    intros ->. apply Hni. rewrite <- map_app. apply in_map_iff. now exists (p, m).
  - intros q c [Hin Hne]%Hal'. specialize (Hex _ _ Hin). rewrite in_app_iff in *. cbn in Hex. intuition congruence.
Qed.

Lemma holds_add al live al' p n c : holds al live -> (forall d, ~ In (p, d) al) ->
  (forall x d, In (x, d) al' <-> In (x, d) al \/ x = p /\ d = c) ->
  0 <= n < 65536 -> round_size n <= c -> holds al' ((p, n) :: live).
Proof.
  intros (Hnd & Hall & Hex) Hf Hal' Hn Hc. split; [|split].
  - cbn [map fst]. constructor; [|assumption]. rewrite in_map_iff. intros ([q m] & [= ->] & Hin).
    destruct (Hall _ _ Hin) as (_ & d & _ & Hd). now apply (Hf d).
  - intros q m [[= <- <-]|Hin].
    + split; [assumption|]. exists c. split; [assumption|]. apply Hal'. now right.
    + destruct (Hall _ _ Hin) as (Hm & d & Hd & Hin'). split; [assumption|]. exists d.
      split; [assumption|]. apply Hal'. now left.
  - intros q d [Hin|[-> _]]%Hal'; [right; now apply (Hex _ d)|now left].
Qed.

(** Putting a used block of capacity for [n] bytes in place of a block. *)
Lemma holds_resized r b1 sz u b2 lv bs live n :
  seg r 0 0 (b1 ++ (sz, u) :: b2) MEM_SIZE_ALIGNED lv -> holds (others b1 sz b2) live ->
  0 <= n < 65536 -> resized b1 sz (round_size n) b2 bs ->
  holds (allocs 0 bs) ((bytes b1 + SIZEOF_STRUCT_MEM, n) :: live).
Proof.
  intros Hseg Hh Hn (sz' & t & -> & Hsz' & Ho).
  apply (holds_add _ _ _ _ _ (sz' - SIZEOF_STRUCT_MEM) Hh); [|..|lia].
  - intros d Hin. now apply (others_fresh _ _ _ _ _ _ _ _ Hseg) in Hin.
  - intros x d. rewrite allocs_around, Ho. tauto.
  - assumption.
Qed.

(** The blocks of a heap whose pointers are [live]. *)
Definition client_inv (s : heap) (live : list (Z * Z)) : Prop :=
  exists bs, heap_rep s bs /\ holds (allocs 0 bs) live.

Lemma client_take s live i p n : client_inv s live -> nth_error live i = Some (p, n) ->
  exists b1 sz b2, heap_rep s (b1 ++ (sz, true) :: b2) /\ p = bytes b1 + SIZEOF_STRUCT_MEM /\
    0 <= n < 65536 /\ round_size n + SIZEOF_STRUCT_MEM <= sz /\
    holds (others b1 sz b2) (remove_at i live).
Proof.
  intros (bs & Hrep & Hh) Hi. destruct (holds_take _ _ _ _ _ Hh Hi) as ((Hn & c & Hc & Hin) & Hrest).
  destruct (allocs_split _ _ _ _ Hin) as (b1 & sz & b2 & -> & -> & ->). rewrite Z.add_0_l in *.
  pose proof Hrep as [[lv Hseg] _ _ _ _].
  exists b1, sz, b2. split; [assumption|]. split; [reflexivity|]. split; [assumption|]. split; [lia|].
  apply Hrest. intros x c. rewrite allocs_around. split.
  - intros Ho. split; [now left|]. exact (others_fresh _ _ _ _ _ _ _ _ Hseg Ho).
  - intros [[?|(_ & -> & _)] ?]; [assumption|congruence].
Qed.

Lemma client_malloc s live size : client_inv s live -> 0 <= size < 65536 ->
  exists r s', mem_malloc size s = Ok (r, s') /\
    client_inv s' (match r with Some p => (p, size) :: live | None => live end) /\
    (r <> None -> 0 < size).
Proof.
  intros (bs & Hrep & Hh) Hs.
  destruct (mem_malloc_spec s bs size Hrep Hs) as [(Hpos & c1 & sz & c2 & s' & -> & _ & Hfit & E & Hrep')|(_ & s' & E & Hrep')];
    do 2 eexists; (split; [exact E|]).
  - split; [|auto]. eexists. split; [exact Hrep'|]. pose proof Hrep as [[lv Hseg] _ _ _ _].
    apply (holds_resized _ _ _ _ _ _ _ _ _ Hseg); [|assumption|now apply carve_resized].
    replace (others c1 sz c2) with (allocs 0 (c1 ++ (sz, false) :: c2)); [exact Hh|].
    rewrite allocs_app. reflexivity.
  - split; [now exists bs|congruence].
Qed.

Lemma client_free s live i p n : client_inv s live -> nth_error live i = Some (p, n) ->
  exists s', mem_free (Some p) s = Ok (tt, s') /\ client_inv s' (remove_at i live).
Proof.
  intros Hinv Ei. destruct (client_take _ _ _ _ _ Hinv Ei) as (b1 & sz & b2 & Hrep & -> & _ & _ & Hh).
  destruct (mem_free_spec s b1 sz b2 Hrep) as (s' & E & Hrep' & _).
  exists s'. split; [exact E|]. eexists. split; [exact Hrep'|]. now rewrite allocs_freed.
Qed.

Lemma client_trim s live i p n size : client_inv s live -> nth_error live i = Some (p, n) -> 0 <= size <= n ->
  exists s', mem_trim p size s = Ok (Some p, s') /\ client_inv s' ((p, size) :: remove_at i live).
Proof.
  intros Hinv Ei Hle. destruct (client_take _ _ _ _ _ Hinv Ei) as (b1 & sz & b2 & Hrep & -> & Hn & Hc & Hh).
  assert (Ho : 0 <= size < 65536) by lia.
  pose proof (round_size_range size Ho). pose proof (round_size_range n Hn).
  assert (Hfit : round_size size + SIZEOF_STRUCT_MEM <= sz) by lia.
  destruct (mem_trim_spec s b1 sz b2 size Hrep Ho Hfit) as (s' & E & Hrep').
  exists s'. split; [exact E|]. eexists. split; [exact Hrep'|]. pose proof Hrep as [[lv Hseg] _ _ _ _].
  apply (holds_resized _ _ _ _ _ _ _ _ _ Hseg Hh Ho). now apply trimmed_resized.
Qed.

(** The regions the clients hold. *)
Lemma client_bounds s live p n : client_inv s live -> In (p, n) live ->
  SIZEOF_STRUCT_MEM <= p /\ p + n <= MEM_SIZE_ALIGNED /\ 0 <= n.
Proof.
  intros (bs & Hrep & _ & Hall & _) Hin. destruct Hrep as [[lv Hseg] _ _ _ _].
  destruct (Hall _ _ Hin) as (Hn & c & Hc & Hp). pose proof (round_size_range n Hn).
  pose proof (allocs_bounds _ _ _ _ _ _ _ _ Hseg Hp). mem_numbers. lia.
Qed.

Lemma client_apart s live : client_inv s live ->
  ForallOrdPairs (fun x y => fst x + snd x <= fst y \/ fst y + snd y <= fst x) live.
Proof.
  intros (bs & Hrep & Hnd & Hall & _). destruct Hrep as [[lv Hseg] _ _ _ _].
  assert (Hin : forall p n, In (p, n) live -> exists c, n <= c /\ In (p, c) (allocs 0 bs)).
  { intros p n Hp. destruct (Hall _ _ Hp) as (Hn & c & Hc & Hc'). exists c.
    pose proof (round_size_range n Hn). split; [lia|assumption]. }
  clear Hall. induction live as [|[p n] l IH]; constructor.
  - apply Forall_forall. intros [q m] Hq. cbn [fst snd map] in *. apply NoDup_cons_iff in Hnd. destruct Hnd as [Hni _].
    destruct (Hin p n (or_introl eq_refl)) as (c & Hc & Hp), (Hin q m (or_intror Hq)) as (d & Hd & Hq').
    destruct (allocs_disjoint _ _ _ _ _ _ _ _ _ _ Hseg Hp Hq'); try lia.
    intros ->. apply Hni. apply in_map_iff. now exists (q, m).
  - apply IH; [now apply NoDup_cons_iff in Hnd|]. intros. apply Hin. now right.
Qed.

Lemma run_op_inv o s live : client_inv s live -> op_range o ->
  exists live' s', run_op o live s = Ok (live', s') /\ client_inv s' live'.
Proof.
  intros Hinv Ho. destruct o as [size|i|i size]; cbn [run_op op_range] in *.
  - destruct (client_malloc s live size Hinv Ho) as (r & s' & E & Hinv' & _).
    rewrite (bind_ok _ _ _ _ _ E). do 2 eexists. split; [reflexivity|assumption].
  - destruct (nth_error live i) as [[p n]|] eqn:Ei; [|do 2 eexists; split; [reflexivity|assumption]].
    destruct (client_free _ _ _ _ _ Hinv Ei) as (s' & E & Hinv').
    rewrite (bind_ok _ _ _ _ _ E). do 2 eexists. split; [reflexivity|assumption].
  - destruct (nth_error live i) as [[p n]|] eqn:Ei; [|do 2 eexists; split; [reflexivity|assumption]].
    destruct (Z.leb_spec size n) as [Hle|]; [|do 2 eexists; split; [reflexivity|assumption]].
    destruct (client_trim _ _ _ _ _ size Hinv Ei ltac:(lia)) as (s' & E & Hinv').
    rewrite (bind_ok _ _ _ _ _ E). do 2 eexists. split; [reflexivity|assumption].
Qed.

Lemma run_ops_inv os : forall s live, client_inv s live -> Forall op_range os ->
  exists live' s', run_ops os live s = Ok (live', s') /\ client_inv s' live'.
Proof.
  induction os as [|o os IH]; intros s live Hinv Hr; cbn [run_ops]; [do 2 eexists; split; [reflexivity|assumption]|].
  inversion_clear Hr as [|? ? Ho Hos]. destruct (run_op_inv o s live Hinv Ho) as (live1 & s1 & E & Hinv1).
  rewrite (bind_ok _ _ _ _ _ E). now apply IH.
Qed.

Lemma mem_init_rep s : s.(st_used) = 0 ->
  exists s', mem_init s = Ok (tt, s') /\ heap_rep s' [(MEM_SIZE_ALIGNED, false)].
Proof.
  intros Hu. eexists. split; [reflexivity|]. constructor; cbn; try tauto.
  exists 0. mem_numbers. repeat split. lia.
Qed.

(** A heap with nothing in use is one free block. *)
Lemma no_allocs bs p : allocs p bs = [] -> no_holes bs -> bs = [] \/ bs = [(bytes bs, false)].
Proof.
  destruct bs as [|[sz [|]] t]; cbn [allocs app no_holes bytes]; [now left|discriminate|].
  intros Ha [Hst _]. right. specialize (Hst eq_refl).
  destruct t as [|[sz' [|]] t]; cbn in *; [|discriminate..]. now rewrite Z.add_0_r.
Qed.

(** C11: Whatever sequence of allocations, releases and trims the users of a
    freshly initialised heap perform on the pointers they hold, every call
    completes: no assertion fails and no loop runs on.  At the end every
    region a user holds lies inside the heap, different regions do not
    overlap, and when nothing is held the heap is one free block again. *)
Theorem mem_clients_safe os s : s.(st_used) = 0 -> Forall op_range os ->
  exists live s', (mem_init ;; run_ops os []) s = Ok (live, s') /\
    (forall p n, In (p, n) live -> SIZEOF_STRUCT_MEM <= p /\ p + n <= MEM_SIZE_ALIGNED) /\
    (forall i j p n q m, nth_error live i = Some (p, n) -> nth_error live j = Some (q, m) ->
       i <> j -> p + n <= q \/ q + m <= p) /\
    (live = [] -> heap_rep s' [(MEM_SIZE_ALIGNED, false)]).
Proof.
  intros Hu Hos. destruct (mem_init_rep s Hu) as (s0 & E0 & Hrep0). rewrite (bind_ok _ _ _ _ _ E0).
  destruct (run_ops_inv os s0 []) as (live & s' & E & bs & Hrep & Hnd & Hall & Hex); [|assumption|].
  { eexists. split; [exact Hrep0|]. split; [constructor|]. now split. }
  exists live, s'. split; [exact E|]. pose proof Hrep as [[lv Hseg] _ _ Hnh _].
  assert (Hci : client_inv s' live) by (exists bs; split; [assumption|split; [assumption|split; assumption]]).
  split; [|split].
  - intros p n Hp. destruct (client_bounds s' live p n Hci Hp) as (? & ? & _). now split.
  - intros i j p n q m Hi Hj Hij. pose proof (client_apart s' live Hci) as Hap.
    destruct (ForallOrdPairs_nth _ _ Hap _ _ _ _ Hij Hi Hj); cbn [fst snd] in *; tauto.
  - intros ->. destruct (allocs 0 bs) as [|[p c] l] eqn:Ea; [|now destruct (Hex p c); left].
    pose proof (seg_bytes _ _ _ _ _ _ Hseg) as [Hb _].
    destruct (no_allocs _ _ Ea Hnh) as [->|E1]; [discriminate|].
    rewrite E1 in Hrep. now replace MEM_SIZE_ALIGNED with (bytes bs) by lia.
Qed.

(** [mem_calloc] gives NULL, or a pointer to memory it clears; the
    cleared region lies inside the heap exactly when the product of count and
    size fits 16 bits: above that, the size passed to [mem_malloc] is the
    truncated product while the full product is cleared. *)
Theorem mem_calloc_clears s bs count size : heap_rep s bs ->
  0 <= count < 65536 -> 0 <= size < 65536 ->
  exists r s', mem_calloc count size s = Ok (r, s') /\ (exists bs', heap_rep s' bs') /\
    match r with
    | Some (p, n) => n = count * size /\ (p + n <= MEM_SIZE_ALIGNED <-> count * size < 65536)
    | None => True
    end.
Proof.
  intros Hrep Hc Hs. assert (Hn : 0 <= u16 (count * size) < 65536) by (unfold u16; apply Z.mod_pos_bound; lia).
  unfold mem_calloc. pose proof (round_size_range _ Hn) as (_ & Hge & _).
  destruct (mem_malloc_spec s bs _ Hrep Hn) as [(_ & c1 & sz & c2 & s' & -> & _ & Hfit & E & Hrep')|(_ & s' & E & Hrep')];
    rewrite (bind_ok _ _ _ _ _ E); do 2 eexists; (split; [reflexivity|]); (split; [eauto|]); [|exact I].
  split; [reflexivity|]. pose proof Hrep as [[lv Hseg] _ _ _ _].
  destruct (seg_mid _ _ _ _ _ _ Hseg) as (_ & _ & _ & Hsz & Hb1 & Hb2 & Hsum & _). mem_numbers. split.
  - intros Hle. nia.
  - intros Hlt. rewrite u16_id in * by (word_lia || nia). lia.
Qed.

(** A heap that was just initialised, and one with blocks in it. *)
Definition heap0 : heap := mkHeap (fun _ => mkMem 0 0 false) 0 0 0 0 0.

Definition after (m : HM unit) (s : heap) : heap := match m s with Ok (_, s') => s' | _ => s end.
Definition heap1 : heap := after mem_init heap0.
Definition heap2 : heap :=
  after (mem_malloc 100 ;; mem_malloc 200 ;; mem_malloc 300 ;; mem_free (Some 6)) heap1.
Definition blocks2 : list block := [(106, false); (206, true); (306, true); (982, false)].

Lemma heap1_rep : heap_rep heap1 [(MEM_SIZE_ALIGNED, false)].
Proof. destruct (mem_init_rep heap0 eq_refl) as (s' & E & H). unfold heap1, after. now rewrite E. Qed.

Lemma heap2_rep : heap_rep heap2 blocks2.
Proof.
  constructor; try (vm_compute; repeat split; discriminate).
  exists 618. vm_compute. repeat split; discriminate.
Qed.

Lemma mem_malloc_first_fit_witness : exists s', mem_malloc 150 heap2 = Ok (Some (618 + 6), s') /\
  heap_rep s' [(106, false); (206, true); (306, true); (156, true); (826, false)].
Proof.
  destruct (mem_malloc_first_fit heap2 blocks2 150 heap2_rep ltac:(lia))
    as [(_ & c1 & sz & c2 & s' & Hc & Hnf & Hfit & E & _ & Hrep)|([?|Hnf] & _)].
  - assert (Hx : c1 = [(106, false); (206, true); (306, true)] /\ sz = 982 /\ c2 = []).
    { clear E Hrep. destruct c1 as [|? [|? [|? [|? c1]]]]; injection Hc as; subst; try discriminate.
      - now destruct Hfit.
      - now repeat split.
      - now destruct c1. }
    destruct Hx as (-> & -> & ->). exists s'. split; [exact E|exact Hrep].
  - discriminate.
  - exfalso. unfold blocks2, no_fit in Hnf. rewrite !Forall_cons_iff in Hnf.
    destruct Hnf as (_ & _ & _ & Hnf & _). now specialize (Hnf eq_refl).
Defined.

Lemma mem_free_releases_witness : exists s', mem_free (Some (106 + 6)) heap2 = Ok (tt, s') /\
  heap_rep s' [(312, false); (306, true); (982, false)].
Proof.
  destruct (mem_free_releases heap2 [(106, false)] 206 true [(306, true); (982, false)] heap2_rep)
    as [(s' & E & Hrep & _) _].
  exists s'. split; [exact E|exact Hrep].
Defined.

Lemma mem_trim_shrinks_witness : exists s', mem_trim (312 + 6) 20 heap2 = Ok (Some 318, s') /\
  heap_rep s' [(106, false); (206, true); (26, true); (1262, false)].
Proof.
  pose proof (mem_trim_shrinks heap2 [(106, false); (206, true)] 306 [(982, false)] 20 heap2_rep ltac:(lia)) as H.
  destruct H as (s' & E & Hrep). exists s'. split; [exact E|exact Hrep].
Defined.

Lemma mem_clients_safe_witness : exists live s',
  (mem_init ;; run_ops [Malloc 40; Malloc 1400; Malloc 100; Trim 1 20; Malloc 90; Free 2] []) heap0 = Ok (live, s') /\
  (live = [] -> heap_rep s' [(MEM_SIZE_ALIGNED, false)]).
Proof.
  destruct (mem_clients_safe [Malloc 40; Malloc 1400; Malloc 100; Trim 1 20; Malloc 90; Free 2] heap0 eq_refl)
    as (live & s' & E & _ & _ & H).
  - repeat constructor; lia.
  - exists live, s'. split; [exact E|exact H].
Defined.

Lemma mem_calloc_clears_witness : exists p s', mem_calloc 256 257 heap1 = Ok (Some (p, 65792), s') /\
  ~ p + 65792 <= MEM_SIZE_ALIGNED.
Proof.
  destruct (mem_calloc_clears heap1 _ 256 257 heap1_rep ltac:(lia) ltac:(lia)) as (r & s' & E & _ & H).
  destruct r as [[p n]|]; [|vm_compute in E; discriminate]. destruct H as [-> H].
  exists p, s'. split; [exact E|]. intros Hle%H. discriminate.
Defined.
