(* ===== verification/Memp.v ===== *)
(** * Memory pools (lwip/src/core/memp.c)

    The pools in the default configuration (opt.h: no MEMP_MEM_MALLOC, no
    overflow and no sanity checks, MEMP_STATS on).  Addresses are numbers, 0
    is NULL.  The free elements of a pool are linked through their first word,
    [mnext]; [memp_sanity], which the option MEMP_SANITY_CHECK adds, is
    modelled too.  The table of pools, which memp_std.h builds from the
    configuration, is a parameter. *)

From Stdlib Require Import ZArith List Lia Bool Permutation FinFun.
From S2P Require Import Prelude Mem.
Import ListNotations.
Open Scope Z_scope.
Open Scope c_scope.

(** [struct memp_desc]: element size, number of elements, base address *)
Record memp_desc := mkDesc { d_size : Z; d_num : Z; d_base : Z }.

(** [struct stats_mem] *)
Record stats_mem := mkStats { sm_err : Z; sm_avail : Z; sm_used : Z; sm_max : Z }.
#[export] Instance stats_mem_eta : Eta stats_mem := { eta := fun r =>
  mkStats r.(sm_err) r.(sm_avail) r.(sm_used) r.(sm_max) }.

(** The [tab] and [stats] of every pool, and the [next] word of every element. *)
Record memp_state := mkMemp { tab : Z -> Z; mnext : Z -> Z; stats : Z -> stats_mem }.
#[export] Instance memp_state_eta : Eta memp_state := { eta := fun r =>
  mkMemp r.(tab) r.(mnext) r.(stats) }.

Definition PM := M memp_state.

(** Assignment to one entry of a table. *)
Definition set {A} (t : Z -> A) (k : Z) (v : A) : Z -> A := fun a => if a =? k then v else t a.

Definition set_tab (d v : Z) : PM unit := modify (fun s => s <| tab := set s.(tab) d v |>).
Definition set_mnext (p v : Z) : PM unit := modify (fun s => s <| mnext := set s.(mnext) p v |>).
Definition set_stats (d : Z) (f : stats_mem -> stats_mem) : PM unit :=
  modify (fun s => s <| stats := set s.(stats) d (f (s.(stats) d)) |>).

Definition MEMP_SIZE := 0.

(** The cycle test: [t] moves one element and [h] two at a time. *)
Fixpoint sanity_loop (fuel : nat) (nxt : Z -> Z) (t h : Z) : option bool :=
  match fuel with
  | O => None
  | S n =>
      if negb (t =? 0) && negb (h =? 0) then
        if t =? h then Some false
        else sanity_loop n nxt (nxt t) (if negb (nxt h =? 0) then nxt (nxt h) else 0)
      else Some true
  end.

Definition memp_sanity (fuel : nat) (t : Z) (nxt : Z -> Z) : option bool :=
  if negb (t =? 0) then sanity_loop fuel nxt t (nxt t) else Some true.

Section pools.
Variable memp_pools : Z -> memp_desc.
Variable MEMP_MAX : Z.

(** [for (i = 0; i < desc->num; ++i)]: [n] elements are left, the next one is [memp]. *)
Fixpoint link_elements (n : nat) (d memp : Z) : PM unit :=
  match n with
  | O => ret tt
  | S n =>
      do t <- gets (fun s => s.(tab) d);
      set_mnext memp t ;;
      set_tab d memp ;;
      link_elements n d (memp + MEMP_SIZE + (memp_pools d).(d_size))
  end.

Definition memp_init_pool (d : Z) : PM unit :=
  set_tab d 0 ;;
  link_elements (Z.to_nat (memp_pools d).(d_num)) d (memp_pools d).(d_base) ;;
  set_stats d (fun st => st <| sm_avail := (memp_pools d).(d_num) |>).

(** [for (i = 0; i < LWIP_ARRAYSIZE(memp_pools); i++)] *)
Fixpoint init_pools (n : nat) (i : Z) : PM unit :=
  match n with
  | O => ret tt
  | S n => memp_init_pool i ;; init_pools n (i + 1)
  end.

Definition memp_init : PM unit := init_pools (Z.to_nat MEMP_MAX) 0.

Definition do_memp_malloc_pool (d : Z) : PM (option Z) :=
  do memp <- gets (fun s => s.(tab) d);
  if negb (memp =? 0) then
    do nx <- gets (fun s => s.(mnext) memp);
    set_tab d nx ;;
    Xil_Assert (memp mod MEM_ALIGNMENT =? 0) ;;
    set_stats d (fun st =>
      let u := u16 (st.(sm_used) + 1) in
      st <| sm_used := u |> <| sm_max := if st.(sm_max) <? u then u else st.(sm_max) |>) ;;
    ret (Some (memp + MEMP_SIZE))
  else
    set_stats d (fun st => st <| sm_err := u16 (st.(sm_err) + 1) |>) ;;
    ret None.

Definition memp_malloc_pool (desc : option Z) : PM (option Z) :=
  match desc with
  | None => halt
  | Some d => do_memp_malloc_pool d
  end.

Definition memp_malloc (type : Z) : PM (option Z) :=
  Xil_Assert (type <? MEMP_MAX) ;;
  do_memp_malloc_pool type.

Definition do_memp_free_pool (d mem : Z) : PM unit :=
  Xil_Assert (mem mod MEM_ALIGNMENT =? 0) ;;
  let memp := mem - MEMP_SIZE in
  set_stats d (fun st => st <| sm_used := u16 (st.(sm_used) - 1) |>) ;;
  do t <- gets (fun s => s.(tab) d);
  set_mnext memp t ;;
  set_tab d memp.

Definition memp_free_pool (desc : option Z) (mem : Z) : PM unit :=
  match desc with
  | None => halt
  | Some d => if mem =? 0 then ret tt else do_memp_free_pool d mem
  end.

Definition memp_free (type mem : Z) : PM unit :=
  Xil_Assert (type <? MEMP_MAX) ;;
  if mem =? 0 then ret tt else do_memp_free_pool type mem.

(** ** The free lists *)

(** The elements of a pool. *)
Definition element (d : Z) (i : nat) : Z := (memp_pools d).(d_base) + Z.of_nat i * (memp_pools d).(d_size).
Definition elements (d : Z) : list Z := map (element d) (seq 0 (Z.to_nat (memp_pools d).(d_num))).

(** The elements from [t] on are linked in the order of the list. *)
Fixpoint free_list (nxt : Z -> Z) (t : Z) (l : list Z) : Prop :=
  match l with
  | [] => t = 0
  | p :: l => t = p /\ p <> 0 /\ free_list nxt (nxt p) l
  end.

(** Every element of every pool is either on the free list of its pool or
    one of the [live] elements of the pool. *)
Definition pool_rep (s : memp_state) (d : Z) (live : list Z) : Prop :=
  exists free, free_list s.(mnext) (s.(tab) d) free /\ Permutation (free ++ live) (elements d) /\
    (s.(stats) d).(sm_used) = Z.of_nat (length live).

Definition pools_rep (s : memp_state) (live : Z -> list Z) : Prop :=
  forall d, 0 <= d < MEMP_MAX -> pool_rep s d (live d).

(** Pools are arrays of 16-bit length at different places in memory. *)
Hypothesis pools_ok : forall d, 0 <= d < MEMP_MAX ->
  0 < (memp_pools d).(d_base) /\ 0 < (memp_pools d).(d_size) /\ 0 <= (memp_pools d).(d_num) < 65536.
Hypothesis pools_disjoint : forall d d' p, 0 <= d < MEMP_MAX -> 0 <= d' < MEMP_MAX -> d <> d' ->
  In p (elements d) -> ~ In p (elements d').

Lemma elements_length d : length (elements d) = Z.to_nat (memp_pools d).(d_num).
Proof. unfold elements. now rewrite length_map, length_seq. Qed.

Lemma elements_nodup d : 0 <= d < MEMP_MAX -> NoDup (elements d).
Proof.
  intros Hd. destruct (pools_ok d Hd) as (_ & Hs & _).
  apply Injective_map_NoDup; [|apply seq_NoDup].
  intros i j E. unfold element in E. nia.
Qed.

Lemma elements_pos d p : 0 <= d < MEMP_MAX -> In p (elements d) -> 0 < p.
Proof.
  intros Hd Hp. destruct (pools_ok d Hd) as (Hb & Hs & _).
  apply in_map_iff in Hp. destruct Hp as (i & <- & _). unfold element. nia.
Qed.

(** Only the [next] words of the listed elements matter. *)
Lemma free_list_ext nxt nxt' l : forall t, (forall p, In p l -> nxt' p = nxt p) ->
  free_list nxt t l -> free_list nxt' t l.
Proof.
  induction l as [|p l IH]; intros t He; cbn [free_list]; [auto|].
  intros (-> & Hp & Hl). split; [reflexivity|]. split; [assumption|].
  rewrite He by (now left). apply IH; [|assumption]. intros. apply He. now right.
Qed.

Lemma set_same {A} (t : Z -> A) k v : set t k v k = v.
Proof. unfold set. now rewrite Z.eqb_refl. Qed.
Lemma set_other {A} (t : Z -> A) k v a : a <> k -> set t k v a = t a.
Proof. unfold set. now intros ->%Z.eqb_neq. Qed.

Lemma live_bound s live d : pools_rep s live -> 0 <= d < MEMP_MAX ->
  (length (live d) <= Z.to_nat (memp_pools d).(d_num))%nat /\ Z.of_nat (length (live d)) < 65536.
Proof.
  intros Hr Hd. destruct (Hr d Hd) as (free & _ & Hp & _). destruct (pools_ok d Hd) as (_ & _ & Hn).
  apply Permutation_length in Hp. rewrite length_app, elements_length in Hp. lia.
Qed.

Lemma malloc_pool_spec s live d : pools_rep s live -> 0 <= d < MEMP_MAX ->
  (length (live d) = Z.to_nat (memp_pools d).(d_num) /\
     exists s', do_memp_malloc_pool d s = Ok (None, s') /\ pools_rep s' live) \/
  (exists p s', do_memp_malloc_pool d s = Ok (Some p, s') /\ In p (elements d) /\ ~ In p (live d) /\
     pools_rep s' (set live d (p :: live d))).
Proof.
  intros Hr Hd. destruct (Hr d Hd) as ([|p free] & Hl & Hp & Hu); unfold do_memp_malloc_pool;
    rewrite bind_gets; cbn [free_list] in Hl.
  - left. rewrite Hl. cbn [negb Z.eqb]. apply Permutation_length in Hp. rewrite elements_length in Hp.
    split; [exact Hp|]. eexists. split; [reflexivity|].
    intros e He. unfold pool_rep. cbn [tab mnext stats with_field]. destruct (Hr e He) as (fe & ? & ? & Hue). exists fe.
    split; [assumption|]. split; [assumption|]. unfold set. destruct (Z.eqb_spec e d); [subst|]; exact Hue.
  - right. destruct Hl as (Ht & Hp0 & Hl). rewrite Ht, (proj2 (Z.eqb_neq _ _) Hp0). cbn [negb].
    destruct (live_bound s live d Hr Hd) as (_ & Hb).
    assert (Hnd : NoDup ((p :: free) ++ live d))
      by (apply (Permutation_NoDup (Permutation_sym Hp)), elements_nodup, Hd).
    cbn [app] in Hnd, Hp. apply NoDup_cons_iff in Hnd. destruct Hnd as [Hni _].
    assert (Hin : In p (elements d)) by (apply (Permutation_in _ Hp); now left).
    exists p. eexists. split; [|split; [assumption|split]].
    + unfold bind, gets, set_tab, set_stats, modify, Xil_Assert, MEM_ALIGNMENT, MEMP_SIZE.
      rewrite Z.mod_1_r, Z.add_0_r. reflexivity.
    + intros ?. apply Hni, in_app_iff. now right.
    + intros e He. unfold pool_rep. cbn [tab mnext stats with_field]. destruct (Z.eq_dec e d) as [->|Hne].
      * exists free. rewrite !set_same. split; [assumption|]. split.
        -- rewrite <- Hp. apply Permutation_sym, Permutation_middle.
        -- cbn [sm_used with_field length]. rewrite Hu. unfold u16.
           rewrite Z.mod_small; [lia|]. apply Permutation_length in Hp. cbn [length] in Hp.
           rewrite length_app, elements_length in Hp. destruct (pools_ok d Hd). lia.
      * rewrite !set_other by assumption. destruct (Hr e He) as (fe & ? & ? & ?). exists fe. auto.
Qed.

Lemma free_pool_spec s live d p l1 l2 : pools_rep s live -> 0 <= d < MEMP_MAX ->
  live d = l1 ++ p :: l2 ->
  exists s', do_memp_free_pool d p s = Ok (tt, s') /\ pools_rep s' (set live d (l1 ++ l2)).
Proof.
  intros Hr Hd Hlive. unfold do_memp_free_pool. rewrite bind_assert by (apply Z.eqb_eq, Z.mod_1_r).
  eexists. split; [reflexivity|]. intros e He. unfold pool_rep. cbn [tab mnext stats with_field].
  unfold MEMP_SIZE. rewrite !Z.sub_0_r.
  assert (Hp : In p (elements d)).
  { destruct (Hr d Hd) as (free & _ & Hpm & _). apply (Permutation_in _ Hpm), in_app_iff. right.
    rewrite Hlive. apply in_app_iff. right. now left. }
  destruct (live_bound s live d Hr Hd) as (_ & Hb).
  destruct (Z.eq_dec e d) as [->|Hne].
  - destruct (Hr d Hd) as (free & Hl & Hpm & Hu). exists (p :: free). rewrite !set_same. split; [|split].
    + cbn [free_list]. split; [reflexivity|]. split; [pose proof (elements_pos d p Hd Hp); lia|].
      rewrite set_same. apply (free_list_ext s.(mnext)); [|assumption]. intros q Hq. apply set_other.
      intros ->. pose proof (Permutation_NoDup (Permutation_sym Hpm) (elements_nodup d Hd)) as Hnd.
      rewrite Hlive in Hnd. rewrite app_assoc in Hnd. apply NoDup_remove_2 in Hnd. apply Hnd.
      rewrite !in_app_iff. auto.
    + rewrite <- Hpm, Hlive. cbn [app]. rewrite !app_assoc. apply Permutation_middle.
    + cbn [sm_used with_field]. rewrite Hu, Hlive. rewrite Hlive in Hb. rewrite !length_app in *. cbn [length] in *.
      unfold u16. rewrite Z.mod_small by lia. lia.
  - destruct (Hr e He) as (free & Hl & Hpm & Hu). exists free. rewrite !(set_other _ d) by assumption.
    split; [|now split]. apply (free_list_ext s.(mnext)); [|assumption]. intros q Hq. apply set_other.
    intros ->. apply (pools_disjoint d e p Hd He (not_eq_sym Hne) Hp).
    apply (Permutation_in _ Hpm), in_app_iff. now left.
Qed.

(** *** Initialisation *)

Lemma link_elements_spec d n : forall s memp l, 0 < memp -> 0 < (memp_pools d).(d_size) ->
  free_list s.(mnext) (s.(tab) d) l ->
  let es := map (fun i => memp + Z.of_nat i * (memp_pools d).(d_size)) (seq 0 n) in
  (forall p, In p es -> ~ In p l) ->
  exists s', link_elements n d memp s = Ok (tt, s') /\ free_list s'.(mnext) (s'.(tab) d) (rev es ++ l) /\
    (forall e, e <> d -> s'.(tab) e = s.(tab) e) /\ s'.(stats) = s.(stats) /\
    (forall p, ~ In p es -> s'.(mnext) p = s.(mnext) p).
Proof.
  induction n as [|n IH]; intros s memp l Hm Hs Hl es Hes; cbn [link_elements].
  - exists s. split; [reflexivity|]. now split.
  - rewrite bind_gets. unfold set_mnext, set_tab. rewrite !bind_modify. unfold MEMP_SIZE. rewrite Z.add_0_r.
    set (sz := (memp_pools d).(d_size)) in *.
    assert (Ees : es = memp :: map (fun i => memp + sz + Z.of_nat i * sz) (seq 0 n)).
    { unfold es. cbn [seq map]. f_equal; [lia|]. rewrite <- seq_shift, map_map. apply map_ext. intros. lia. }
    rewrite Ees in *. clear Ees es.
    destruct (IH (s <| mnext := set s.(mnext) memp (s.(tab) d) |> <| tab := set s.(tab) d memp |>)
                 (memp + sz) (memp :: l)) as (s' & E & Hl' & Ht & Hst & Hn); fold sz.
    + lia.
    + assumption.
    + cbn [mnext tab with_field free_list]. rewrite !set_same. split; [reflexivity|]. split; [lia|].
      apply (free_list_ext s.(mnext)); [|assumption]. intros q Hq. apply set_other. intros ->.
      apply (Hes memp); [now left|assumption].
    + intros p Hp [<-|Hq]; [|apply (Hes p); [now right|assumption]].
      apply in_map_iff in Hp. destruct Hp as (i & E & _). nia.
    + exists s'. split; [exact E|]. cbn [rev]. rewrite <- app_assoc. cbn [app]. split; [exact Hl'|].
      split; [intros e He; rewrite Ht by assumption; apply set_other, He|].
      split; [exact Hst|]. intros p Hp. rewrite Hn by (intros ?; apply Hp; now right).
      apply set_other. intros ->. apply Hp. now left.
Qed.

Lemma init_pool_spec s d : 0 <= d < MEMP_MAX -> (s.(stats) d).(sm_used) = 0 ->
  exists s', memp_init_pool d s = Ok (tt, s') /\ pool_rep s' d [] /\
    (forall e, (s'.(stats) e).(sm_used) = (s.(stats) e).(sm_used)) /\
    (forall e l, 0 <= e < MEMP_MAX -> e <> d -> pool_rep s e l -> pool_rep s' e l).
Proof.
  intros Hd Hu. unfold memp_init_pool, set_tab. rewrite bind_modify.
  destruct (pools_ok d Hd) as (Hb & Hs & _).
  destruct (link_elements_spec d (Z.to_nat (memp_pools d).(d_num)) (s <| tab := set s.(tab) d 0 |>)
              (memp_pools d).(d_base) []) as (s1 & E & Hl & Ht & Hst & Hn);
    [assumption|assumption|apply set_same|intros ? _ []|].
  rewrite (bind_ok _ _ _ _ _ E). eexists. split; [reflexivity|]. fold (element d) in *. fold (elements d) in *.
  cbn [mnext tab stats with_field] in *. split; [|split].
  - unfold pool_rep. exists (rev (elements d)). rewrite app_nil_r in *. cbn [mnext tab stats with_field]. split; [exact Hl|].
    split; [apply Permutation_sym, Permutation_rev|]. cbn [stats with_field].
    rewrite set_same. cbn [sm_used with_field]. now rewrite Hst.
  - intros e. rewrite Hst. unfold set. destruct (Z.eqb_spec e d); [now subst|reflexivity].
  - intros e l He Hne (free & Hf & Hp & Hue). exists free. cbn [mnext tab stats with_field]. rewrite Ht by assumption.
    rewrite !(set_other _ d) by assumption. rewrite Hst. split; [|now split].
    apply (free_list_ext s.(mnext)); [|assumption]. intros q Hq. apply Hn. intros Hin.
    apply (pools_disjoint d e q Hd He (not_eq_sym Hne) Hin), (Permutation_in _ Hp), in_app_iff. now left.
Qed.

Lemma init_pools_spec n : forall s i, 0 <= i -> i + Z.of_nat n = Z.max i MEMP_MAX ->
  (forall d, 0 <= d < MEMP_MAX -> (s.(stats) d).(sm_used) = 0) ->
  (forall d, 0 <= d < i -> d < MEMP_MAX -> pool_rep s d []) ->
  exists s', init_pools n i s = Ok (tt, s') /\ pools_rep s' (fun _ => []).
Proof.
  induction n as [|n IH]; intros s i Hi Hn Hu Hr; cbn [init_pools].
  - exists s. split; [reflexivity|]. intros d Hd. apply Hr; lia.
  - destruct (init_pool_spec s i) as (s1 & E & Hri & Hu1 & Hre); [lia|apply Hu; lia|].
    rewrite (bind_ok _ _ _ _ _ E). apply IH; [lia|lia|intros; rewrite Hu1; auto|].
    intros d Hd Hm. destruct (Z.eq_dec d i) as [->|Hne]; [assumption|].
    apply Hre; [lia|assumption|]. apply Hr; lia.
Qed.

Lemma memp_init_spec s : (forall d, 0 <= d < MEMP_MAX -> (s.(stats) d).(sm_used) = 0) ->
  exists s', memp_init s = Ok (tt, s') /\ pools_rep s' (fun _ => []).
Proof. intros Hu. apply init_pools_spec; [lia|lia|assumption|]. intros d Hd. lia. Qed.

(** ** Users of the pools *)

Inductive pool_op := Alloc (d : Z) | Release (d : Z) (i : nat).

Definition run_pool_op (o : pool_op) (live : Z -> list Z) : PM (Z -> list Z) :=
  match o with
  | Alloc d =>
      do p <- memp_malloc d;
      ret (match p with Some p => set live d (p :: live d) | None => live end)
  | Release d i =>
      match nth_error (live d) i with
      | Some p => memp_free d p ;; ret (set live d (remove_at i (live d)))
      | None => ret live
      end
  end.

Fixpoint run_pool_ops (os : list pool_op) (live : Z -> list Z) : PM (Z -> list Z) :=
  match os with
  | [] => ret live
  | o :: os => do live <- run_pool_op o live; run_pool_ops os live
  end.

Definition pool_op_range (o : pool_op) : Prop :=
  match o with Alloc d | Release d _ => 0 <= d < MEMP_MAX end.

Lemma run_pool_op_rep o s live : pools_rep s live -> pool_op_range o ->
  exists live' s', run_pool_op o live s = Ok (live', s') /\ pools_rep s' live'.
Proof.
  intros Hr Hd. assert (Hlt : forall d, 0 <= d < MEMP_MAX -> (d <? MEMP_MAX) = true) by (intros; apply Z.ltb_lt; lia).
  destruct o as [d|d i]; cbn [run_pool_op pool_op_range] in *.
  - unfold memp_malloc. destruct (malloc_pool_spec s live d Hr Hd) as [(_ & s' & E & Hr')|(p & s' & E & _ & _ & Hr')];
      do 2 eexists; (split; [unfold bind at 1; rewrite bind_assert, E by auto; reflexivity|assumption]).
  - destruct (nth_error (live d) i) as [p|] eqn:Ei; [|do 2 eexists; split; [reflexivity|assumption]].
    destruct (remove_at_split _ _ _ Ei) as (l1 & l2 & Hl & ->).
    destruct (free_pool_spec s live d p l1 l2 Hr Hd Hl) as (s' & E & Hr').
    assert (Hp : In p (elements d)).
    { destruct (Hr d Hd) as (free & _ & Hpm & _). apply (Permutation_in _ Hpm), in_app_iff. right.
      rewrite Hl. apply in_app_iff. right. now left. }
    do 2 eexists. split; [|exact Hr']. unfold memp_free, bind at 1. rewrite bind_assert by auto.
    replace (p =? 0) with false by (symmetry; apply Z.eqb_neq; pose proof (elements_pos d p Hd Hp); lia).
    now rewrite E.
Qed.

Lemma run_pool_ops_rep os : forall s live, pools_rep s live -> Forall pool_op_range os ->
  exists live' s', run_pool_ops os live s = Ok (live', s') /\ pools_rep s' live'.
Proof.
  induction os as [|o os IH]; intros s live Hr Hos; cbn [run_pool_ops]; [do 2 eexists; split; [reflexivity|assumption]|].
  inversion_clear Hos as [|? ? Ho Hos']. destruct (run_pool_op_rep o s live Hr Ho) as (live1 & s1 & E & Hr1).
  rewrite (bind_ok _ _ _ _ _ E). now apply IH.
Qed.

(** After [memp_init] and any sequence of allocations and releases of
    held elements, no assertion has failed; the elements held of a pool are
    different elements of that pool, at most [num] of them, the statistics
    count them, and the next [memp_malloc] of the pool fails exactly when all
    [num] elements are held. *)
Theorem memp_pools_safe os s : (forall d, 0 <= d < MEMP_MAX -> (s.(stats) d).(sm_used) = 0) ->
  Forall pool_op_range os ->
  exists live s', (memp_init ;; run_pool_ops os (fun _ => [])) s = Ok (live, s') /\
    forall d, 0 <= d < MEMP_MAX ->
      NoDup (live d) /\ incl (live d) (elements d) /\
      (s'.(stats) d).(sm_used) = Z.of_nat (length (live d)) /\
      ((exists s'', memp_malloc d s' = Ok (None, s'')) <-> Z.of_nat (length (live d)) = (memp_pools d).(d_num)).
Proof.
  intros Hu Hos. destruct (memp_init_spec s Hu) as (s0 & E0 & Hr0). rewrite (bind_ok _ _ _ _ _ E0).
  destruct (run_pool_ops_rep os s0 _ Hr0 Hos) as (live & s' & E & Hr). exists live, s'. split; [exact E|].
  intros d Hd. destruct (Hr d Hd) as (free & _ & Hp & Hus).
  pose proof (Permutation_NoDup (Permutation_sym Hp) (elements_nodup d Hd)) as Hnd.
  split; [now apply NoDup_app_remove_l in Hnd|]. split; [|split; [exact Hus|]].
  { intros q Hq. apply (Permutation_in _ Hp), in_app_iff. now right. }
  destruct (pools_ok d Hd) as (_ & _ & Hn).
  unfold memp_malloc. rewrite bind_assert by (apply Z.ltb_lt; lia).
  destruct (malloc_pool_spec s' live d Hr Hd) as [(Hlen & s1 & E1 & _)|(p & s1 & E1 & _ & _ & Hr1)]; rewrite E1.
  - split; [lia|]. intros _. now exists s1.
  - split; [now intros (? & [=])|]. destruct (live_bound _ _ d Hr1 Hd) as [Hb _].
    rewrite set_same in Hb. cbn [length] in Hb. lia.
Qed.
End pools.

(** ** The cycle test *)

Lemma sanity_acyclic nxt : forall fuel t h l1 l2, free_list nxt t (t :: l1 ++ l2) -> free_list nxt h l2 ->
  NoDup (t :: l1 ++ l2) -> (length l2 < fuel)%nat -> sanity_loop fuel nxt t h = Some true.
Proof.
  induction fuel as [|fuel IH]; intros t h l1 l2 Ht Hh Hnd Hf; [lia|]. cbn [sanity_loop].
  destruct Ht as (_ & Ht0 & Ht). rewrite (proj2 (Z.eqb_neq _ _) Ht0). cbn [negb andb].
  destruct l2 as [|h' l2]; cbn [free_list] in Hh; [now rewrite Hh|].
  destruct Hh as (-> & Hh0 & Hh). rewrite (proj2 (Z.eqb_neq _ _) Hh0). cbn [negb].
  apply NoDup_cons_iff in Hnd. destruct Hnd as [Hni Hnd].
  replace (t =? h') with false by (symmetry; apply Z.eqb_neq; intros ->; apply Hni, in_app_iff; right; now left).
  destruct l2 as [|q l2]; cbn [free_list] in Hh.
  - rewrite Hh. change (negb (0 =? 0)) with false. destruct fuel; [cbn in Hf; lia|].
    cbn [sanity_loop]. now rewrite andb_false_r.
  - destruct Hh as (-> & Hq0 & Hh). rewrite (proj2 (Z.eqb_neq _ _) Hq0). cbn [negb].
    assert (Hx : exists l1', l1 ++ h' :: q :: l2 = nxt t :: l1' ++ l2).
    { destruct l1 as [|a l1]; cbn [app free_list] in *; destruct Ht as (Ht & _).
      - exists [q]. now rewrite Ht.
      - exists (l1 ++ [h'; q]). rewrite Ht, <- app_assoc. reflexivity. }
    destruct Hx as (l1' & Hx). rewrite Hx in *. apply (IH _ _ l1' l2); [assumption|assumption|assumption|].
    cbn [length] in Hf. lia.
Qed.

Lemma sanity_meets nxt x : (forall n, Nat.iter n nxt x <> 0) -> forall fuel k,
  (exists j, k <= j < k + fuel /\ Nat.iter j nxt x = Nat.iter (2 * j + 1) nxt x)%nat ->
  sanity_loop fuel nxt (Nat.iter k nxt x) (Nat.iter (2 * k + 1) nxt x) = Some false.
Proof.
  intros H0. induction fuel as [|fuel IH]; intros k (j & Hj & Hm); [lia|]. cbn [sanity_loop].
  rewrite !(proj2 (Z.eqb_neq _ _) (H0 _)). cbn [negb andb].
  destruct (Z.eqb_spec (Nat.iter k nxt x) (Nat.iter (2 * k + 1) nxt x)) as [E|Hne]; [reflexivity|].
  change (nxt (Nat.iter (2 * k + 1) nxt x)) with (Nat.iter (S (2 * k + 1)) nxt x).
  rewrite (proj2 (Z.eqb_neq _ _) (H0 _)). cbn [negb].
  change (nxt (Nat.iter (S (2 * k + 1)) nxt x)) with (Nat.iter (S (S (2 * k + 1))) nxt x).
  replace (S (S (2 * k + 1))) with (2 * S k + 1)%nat by lia.
  apply (IH (S k)). exists j. split; [|assumption].
  assert (j <> k) by (intros ->; contradiction). lia.
Qed.

(** Going round the cycle any number of times. *)
Lemma iter_cycle {A} (f : A -> A) x m c : Nat.iter (m + c) f x = Nat.iter m f x ->
  forall q n, (m <= n)%nat -> Nat.iter (n + q * c) f x = Nat.iter n f x.
Proof.
  intros Hc. assert (H1 : forall n, (m <= n)%nat -> Nat.iter (n + c) f x = Nat.iter n f x).
  { intros n Hn. replace (n + c)%nat with ((n - m) + (m + c))%nat by lia.
    rewrite Nat.iter_add, Hc, <- Nat.iter_add. f_equal. lia. }
  induction q as [|q IH]; intros n Hn; [now rewrite Nat.add_0_r|].
  replace (n + S q * c)%nat with ((n + q * c) + c)%nat by lia. rewrite H1 by lia. now apply IH.
Qed.

(** The cycle test of MEMP_SANITY_CHECK accepts every properly linked
    free list and rejects every list that runs into a cycle, after at most as
    many steps as the list has elements. *)
Theorem memp_sanity_detects nxt t :
  (forall l, free_list nxt t l -> NoDup l -> memp_sanity (S (length l)) t nxt = Some true) /\
  (forall m c, (0 < c)%nat -> (forall n, Nat.iter n nxt t <> 0) -> Nat.iter (m + c) nxt t = Nat.iter m nxt t ->
     memp_sanity (m + c) t nxt = Some false).
Proof.
  unfold memp_sanity. split.
  - intros [|p l] Hl Hnd; cbn [free_list] in Hl; [now rewrite Hl|]. destruct Hl as (-> & Hp & Hl).
    rewrite (proj2 (Z.eqb_neq _ _) Hp). cbn [negb].
    apply (sanity_acyclic nxt _ _ _ [] l); [now repeat split|assumption|assumption|cbn; lia].
  - intros m c Hc H0 Hcyc. pose proof (H0 0%nat) as Ht. cbn in Ht. rewrite (proj2 (Z.eqb_neq _ _) Ht). cbn [negb].
    apply (sanity_meets nxt t H0 (m + c) 0). set (q := (m / c + 1)%nat).
    pose proof (Nat.div_mod m c ltac:(lia)) as Hdm. pose proof (Nat.mod_upper_bound m c ltac:(lia)) as Hmb.
    assert (Hqc : (q * c = c * (m / c) + c)%nat) by (unfold q; lia).
    exists (q * c - 1)%nat. split; [lia|].
    replace (2 * (q * c - 1) + 1)%nat with ((q * c - 1) + q * c)%nat by lia.
    symmetry. apply (iter_cycle nxt t m c Hcyc). lia.
Qed.

(** Two pools in memory. *)
Definition pools2 (d : Z) : memp_desc := if d =? 0 then mkDesc 16 4 1000 else mkDesc 600 3 2000.
Definition memp0 : memp_state := mkMemp (fun _ => 0) (fun _ => 0) (fun _ => mkStats 0 0 0 0).

Lemma memp_pools_safe_witness : exists live s',
  (memp_init pools2 2 ;; run_pool_ops 2 [Alloc 1; Alloc 1; Alloc 0; Release 1 0; Alloc 1; Alloc 1; Alloc 1] (fun _ => [])) memp0
    = Ok (live, s') /\
  ((exists s'', memp_malloc 2 1 s' = Ok (None, s'')) <-> Z.of_nat (length (live 1)) = 3).
Proof.
  destruct (memp_pools_safe pools2 2) with (os := [Alloc 1; Alloc 1; Alloc 0; Release 1 0; Alloc 1; Alloc 1; Alloc 1])
    (s := memp0) as (live & s' & E & H).
  - intros d Hd. unfold pools2. destruct (d =? 0); cbn; lia.
  - intros d d' p Hd Hd' Hne Hp Hp'. assert (Hc : d = 0 /\ d' = 1 \/ d = 1 /\ d' = 0) by lia.
    destruct Hc as [[-> ->]|[-> ->]]; vm_compute in Hp, Hp'; intuition congruence.
  - reflexivity.
  - repeat constructor; cbn; lia.
  - exists live, s'. split; [exact E|]. now destruct (H 1 ltac:(lia)) as (_ & _ & _ & H1).
Defined.

Lemma memp_sanity_detects_witness :
  memp_sanity 3 8 (fun p => if p =? 8 then 4 else 0) = Some true /\
  memp_sanity 3 12 (fun p => if p =? 12 then 8 else if p =? 8 then 4 else 8) = Some false.
Proof.
  split.
  - apply (proj1 (memp_sanity_detects _ _) [8; 4]); [now cbn|].
    repeat constructor; cbn; intuition discriminate.
  - apply (proj2 (memp_sanity_detects _ _) 1%nat 2%nat); [lia| |reflexivity].
    assert (H : forall n, (Nat.iter n (fun p => if p =? 12 then 8 else if p =? 8 then 4 else 8) 12 = 12 \/
                Nat.iter n (fun p => if p =? 12 then 8 else if p =? 8 then 4 else 8) 12 = 8 \/
                Nat.iter n (fun p => if p =? 12 then 8 else if p =? 8 then 4 else 8) 12 = 4)%Z).
    { induction n as [|n IH]; [now left|]. cbn [Nat.iter nat_rect]. fold (Nat.iter n (fun p => if p =? 12 then 8 else if p =? 8 then 4 else 8) 12).
      destruct IH as [->|[->| ->]]; cbn; auto. }
    intros n. specialize (H n). intros E. rewrite E in H. intuition discriminate.
Defined.
