(* ===== verification/PbufMem.v ===== *)
(** * The memory pbufs live in

    What pbuf.c relies on from memp.c and mem.c, as an interface: the
    operations it calls and their laws over the list of outstanding blocks.
    The instance built from the models of the two allocators is in the file
    PbufBoard. *)

From Stdlib Require Import ZArith List Lia Bool Permutation.
From S2P Require Import Prelude.
Import ListNotations.
Open Scope Z_scope.
Open Scope c_scope.

(** The two pools pbuf.c allocates from, and that of the pbufs of ip4_frag.c. *)
Inductive pbuf_pool := MEMP_PBUF | MEMP_PBUF_POOL | MEMP_FRAG_PBUF.

(** Where a block comes from. *)
Inductive origin := Pool (k : pbuf_pool) | Heap.

(** An outstanding block: origin, address, size. *)
Record blk := mkBlk { b_from : origin; b_addr : Z; b_size : Z }.

Definition apart (b c : blk) : Prop :=
  b.(b_addr) + b.(b_size) <= c.(b_addr) \/ c.(b_addr) + c.(b_size) <= b.(b_addr).

(** [pool_size] is the size of the elements of a pool. *)
Class PbufMemory := {
  mst : Type;
  pool_size : pbuf_pool -> Z;
  pool_malloc : pbuf_pool -> M mst (option Z);
  pool_free : pbuf_pool -> Z -> M mst unit;
  heap_malloc : Z -> M mst (option Z);
  heap_free : Z -> M mst unit;
  heap_trim : Z -> Z -> M mst (option Z);
  (** [owns m bs]: the blocks handed out and not returned are [bs] *)
  owns : mst -> list blk -> Prop;
  owns_perm : forall m bs bs', Permutation bs bs' -> owns m bs -> owns m bs';
  owns_apart : forall m bs, owns m bs -> ForallOrdPairs apart bs;
  owns_sane : forall m bs, owns m bs -> Forall (fun b => 0 < b.(b_addr) /\ 0 < b.(b_size)) bs;
  pool_malloc_law : forall m bs k, owns m bs -> exists r m', pool_malloc k m = Ok (r, m') /\
    match r with
    | Some p => owns m' (mkBlk (Pool k) p (pool_size k) :: bs)
    | None => owns m' bs
    end;
  pool_free_law : forall m bs k p n, owns m (mkBlk (Pool k) p n :: bs) ->
    exists m', pool_free k p m = Ok (tt, m') /\ owns m' bs;
  heap_malloc_law : forall m bs n, owns m bs -> 0 <= n < 65536 -> exists r m', heap_malloc n m = Ok (r, m') /\
    match r with
    | Some p => owns m' (mkBlk Heap p n :: bs)
    | None => owns m' bs
    end;
  heap_free_law : forall m bs p n, owns m (mkBlk Heap p n :: bs) ->
    exists m', heap_free p m = Ok (tt, m') /\ owns m' bs;
  heap_trim_law : forall m bs p n n', owns m (mkBlk Heap p n :: bs) -> 0 < n' <= n ->
    exists m', heap_trim p n' m = Ok (Some p, m') /\ owns m' (mkBlk Heap p n' :: bs)
}.
