(* ===== verification/Pbuf.v ===== *)
(** * Packet buffers (lwip/src/core/pbuf.c)

    Addresses are numbers, 0 is NULL.  The structs and the payload bytes are
    two maps over addresses; the allocators are those of the interface
    [PbufMemory].  Loops over a chain take fuel, more than the length of the
    chain is enough.  LWIP_ASSERT and LWIP_ERROR stop the program unless
    LWIP_NOASSERT is configured (the flag [NOASSERT]); then LWIP_ERROR runs its
    handler. *)

From Stdlib Require Import ZArith List Lia Bool Permutation.
From S2P Require Import Prelude Mem PbufMem.
Import ListNotations.
Open Scope Z_scope.
Open Scope c_scope.

(** [pbuf_layer], [pbuf_type] *)
Inductive pbuf_layer := PBUF_TRANSPORT | PBUF_IP | PBUF_LINK | PBUF_RAW_TX | PBUF_RAW.
Inductive pbuf_type := PBUF_RAM | PBUF_ROM | PBUF_REF | PBUF_POOL.

Definition PBUF_TRANSPORT_HLEN := 20.
Definition PBUF_IP_HLEN := 20.
Definition PBUF_LINK_HLEN := 14.
Definition PBUF_LINK_ENCAPSULATION_HLEN := 0.
Definition PBUF_POOL_BUFSIZE := LWIP_MEM_ALIGN_SIZE (536 + 40 + PBUF_LINK_ENCAPSULATION_HLEN + PBUF_LINK_HLEN).
Definition SIZEOF_STRUCT_PBUF := LWIP_MEM_ALIGN_SIZE 16.
Definition PBUF_POOL_BUFSIZE_ALIGNED := LWIP_MEM_ALIGN_SIZE PBUF_POOL_BUFSIZE.
Definition PBUF_FLAG_IS_CUSTOM := 2.
Definition PBUF_FLAG_TCP_FIN := 32.
Definition PBUF_FLAG_LLBCAST := 0x08.
Definition PBUF_FLAG_LLMCAST := 0x10.

Definition pbuf_type_eqb (a b : pbuf_type) : bool :=
  match a, b with
  | PBUF_RAM, PBUF_RAM | PBUF_ROM, PBUF_ROM | PBUF_REF, PBUF_REF | PBUF_POOL, PBUF_POOL => true
  | _, _ => false
  end.

(** [struct pbuf] *)
Record pbuf := mkPbuf {
  next : Z; payload : Z; tot_len : Z; len : Z; type : pbuf_type; flags : Z; ref : Z }.
#[export] Instance pbuf_eta : Eta pbuf := { eta := fun r =>
  mkPbuf r.(next) r.(payload) r.(tot_len) r.(len) r.(type) r.(flags) r.(ref) }.

(** [err_t] *)
Inductive err_t :=
| ERR_OK | ERR_MEM | ERR_BUF | ERR_TIMEOUT | ERR_RTE | ERR_INPROGRESS | ERR_VAL | ERR_WOULDBLOCK | ERR_USE | ERR_ALREADY
| ERR_ISCONN | ERR_CONN | ERR_IF | ERR_ABRT | ERR_RST | ERR_CLSD | ERR_ARG.

Section Pbuf.
Context {PMem : PbufMemory}.

(** The structs, the payload bytes, the allocators and
    [pbuf_free_ooseq_pending] with the callbacks queued for it. *)
Record pst := mkPst {
  structs : Z -> pbuf; data : Z -> Z; mm : mst; ooseq_pending : bool; ooseq_calls : Z }.
#[export] Instance pst_eta : Eta pst := { eta := fun r =>
  mkPst r.(structs) r.(data) r.(mm) r.(ooseq_pending) r.(ooseq_calls) }.

Definition PB := M pst.

(** A call into the allocators. *)
Definition lift {A} (m : M mst A) : PB A := fun s =>
  match m s.(mm) with
  | Ok (a, m') => Ok (a, s <| mm := m' |>)
  | Halt => Halt
  | Hang => Hang
  end.

Definition upd_at {A} (f : Z -> A) (p : Z) (g : A -> A) : Z -> A := fun a => if a =? p then g (f p) else f a.
Definition get (p : Z) : PB pbuf := gets (fun s => s.(structs) p).
Definition upds (p : Z) (f : pbuf -> pbuf) : PB unit := modify (fun s => s <| structs := upd_at s.(structs) p f |>).

(** [MEMCPY] between payloads, and from a buffer of the application. *)
Definition copy_in (dst src n : Z) (d : Z -> Z) : Z -> Z :=
  fun a => if (dst <=? a) && (a <? dst + n) then d (src + (a - dst)) else d a.
Definition store_list (dst : Z) (l : list Z) (d : Z -> Z) : Z -> Z :=
  fun a => if (dst <=? a) && (a <? dst + Z.of_nat (length l)) then nth (Z.to_nat (a - dst)) l 0 else d a.
Definition load_list (d : Z -> Z) (src n : Z) : list Z :=
  map (fun i => d (src + Z.of_nat i)) (seq 0 (Z.to_nat n)).

Variable NOASSERT : bool.
(** A free function of a custom pbuf, and whether the tcpip thread's mailbox
    takes a callback. *)
Variable custom_free_function : Z -> PB unit.
Variable tcpip_callback_ok : pst -> bool.

Definition LWIP_ASSERT (c : bool) : PB unit := if NOASSERT then ret tt else Xil_Assert c.
Definition LWIP_ERROR {A} (c : bool) (handler k : PB A) : PB A :=
  if c then k else if NOASSERT then handler else halt.

(** Queue a call of [pbuf_free_ooseq] if none is pending. *)
Definition pbuf_pool_is_empty : PB unit :=
  do queued <- gets ooseq_pending;
  modify (fun s => s <| ooseq_pending := true |>) ;;
  if negb queued then
    do ok <- gets tcpip_callback_ok;
    if ok : bool then modify (fun s => s <| ooseq_calls := s.(ooseq_calls) + 1 |>)
    else modify (fun s => s <| ooseq_pending := false |>)
  else ret tt.

Definition layer_offset (layer : pbuf_layer) : Z :=
  match layer with
  | PBUF_TRANSPORT => PBUF_LINK_ENCAPSULATION_HLEN + PBUF_LINK_HLEN + PBUF_IP_HLEN + PBUF_TRANSPORT_HLEN
  | PBUF_IP => PBUF_LINK_ENCAPSULATION_HLEN + PBUF_LINK_HLEN + PBUF_IP_HLEN
  | PBUF_LINK => PBUF_LINK_ENCAPSULATION_HLEN + PBUF_LINK_HLEN
  | PBUF_RAW_TX => PBUF_LINK_ENCAPSULATION_HLEN
  | PBUF_RAW => 0
  end.

(** Give the memory of a pbuf back. *)
Definition release (p : Z) (b : pbuf) : PB unit :=
  if negb (b.(flags) .& PBUF_FLAG_IS_CUSTOM =? 0) then custom_free_function p
  else match b.(type) with
       | PBUF_POOL => lift (pool_free MEMP_PBUF_POOL p)
       | PBUF_ROM | PBUF_REF => lift (pool_free MEMP_PBUF p)
       | PBUF_RAM => lift (heap_free p)
       end.

(** The [while] loop of [pbuf_free]. *)
Fixpoint free_loop (fuel : nat) (p count : Z) : PB Z :=
  if p =? 0 then ret count else
  match fuel with
  | O => hang
  | S n =>
      do b <- get p;
      LWIP_ASSERT (b.(ref) >? 0) ;;
      let r := u16 (b.(ref) - 1) in
      upds p (fun b => b <| ref := r |>) ;;
      if r =? 0 then
        release p b ;;
        free_loop n b.(next) (u8 (count + 1))
      else ret count
  end.

Definition pbuf_free (fuel : nat) (p : Z) : PB Z :=
  if p =? 0 then LWIP_ASSERT false ;; ret 0
  else free_loop fuel p 0.

(** The [while (rem_len > 0)] loop of [pbuf_alloc]: [p] is the head of the
    chain and [r] its last pbuf; false if the pool ran empty. *)
Fixpoint alloc_tail (fuel : nat) (p r rem_len : Z) : PB bool :=
  if rem_len >? 0 then
    match fuel with
    | O => hang
    | S n =>
        do q <- lift (pool_malloc MEMP_PBUF_POOL);
        match q with
        | None =>
            pbuf_pool_is_empty ;;
            pbuf_free (S (Z.to_nat 65536)) p ;;
            ret false
        | Some q =>
            upds q (fun b => b <| type := PBUF_POOL |> <| flags := 0 |> <| next := 0 |>) ;;
            upds r (fun b => b <| next := q |>) ;;
            LWIP_ASSERT (rem_len <? 65535) ;;
            let l := Z.min (u16 rem_len) PBUF_POOL_BUFSIZE_ALIGNED in
            upds q (fun b => b <| tot_len := u16 rem_len |> <| len := l |> <| payload := q + SIZEOF_STRUCT_PBUF |>) ;;
            LWIP_ASSERT ((q + SIZEOF_STRUCT_PBUF) mod MEM_ALIGNMENT =? 0) ;;
            do b <- get p;
            LWIP_ASSERT (b.(payload) + b.(len) <=? p + SIZEOF_STRUCT_PBUF + PBUF_POOL_BUFSIZE_ALIGNED) ;;
            upds q (fun b => b <| ref := 1 |>) ;;
            alloc_tail n p q (rem_len - l)
        end
    end
  else ret true.

(** A PBUF_POOL chain; the tail has at most [length] pbufs. *)
Definition alloc_pool (offset length : Z) : PB Z :=
  do p <- lift (pool_malloc MEMP_PBUF_POOL);
  match p with
  | None => pbuf_pool_is_empty ;; ret 0
  | Some p =>
      let l := Z.min length (PBUF_POOL_BUFSIZE_ALIGNED - LWIP_MEM_ALIGN_SIZE offset) in
      let pl := p + (SIZEOF_STRUCT_PBUF + offset) in
      upds p (fun b => b <| type := PBUF_POOL |> <| next := 0 |> <| payload := pl |>
                         <| tot_len := length |> <| len := l |>) ;;
      LWIP_ASSERT (pl mod MEM_ALIGNMENT =? 0) ;;
      LWIP_ASSERT (pl + l <=? p + SIZEOF_STRUCT_PBUF + PBUF_POOL_BUFSIZE_ALIGNED) ;;
      LWIP_ASSERT (PBUF_POOL_BUFSIZE_ALIGNED - LWIP_MEM_ALIGN_SIZE offset >? 0) ;;
      upds p (fun b => b <| ref := 1 |>) ;;
      do ok <- alloc_tail (Z.to_nat length) p p (length - l);
      ret (if ok : bool then p else 0)
  end.

Definition alloc_ram (offset length : Z) : PB Z :=
  do p <- lift (heap_malloc (u16 (LWIP_MEM_ALIGN_SIZE (SIZEOF_STRUCT_PBUF + offset) + LWIP_MEM_ALIGN_SIZE length)));
  match p with
  | None => ret 0
  | Some p =>
      let pl := p + SIZEOF_STRUCT_PBUF + offset in
      upds p (fun b => b <| payload := pl |> <| len := length |> <| tot_len := length |>
                         <| next := 0 |> <| type := PBUF_RAM |>) ;;
      LWIP_ASSERT (pl mod MEM_ALIGNMENT =? 0) ;;
      ret p
  end.

Definition alloc_ref (type' : pbuf_type) (length : Z) : PB Z :=
  do p <- lift (pool_malloc MEMP_PBUF);
  match p with
  | None => ret 0
  | Some p =>
      upds p (fun b => b <| payload := 0 |> <| len := length |> <| tot_len := length |>
                         <| next := 0 |> <| type := type' |>) ;;
      ret p
  end.

Definition pbuf_alloc (layer : pbuf_layer) (length : Z) (type : pbuf_type) : PB Z :=
  let offset := layer_offset layer in
  do p <- match type with
          | PBUF_POOL => alloc_pool offset length
          | PBUF_RAM => alloc_ram offset length
          | PBUF_ROM | PBUF_REF => alloc_ref type length
          end;
  if p =? 0 then ret 0 else
  upds p (fun b => b <| ref := 1 |> <| flags := 0 |>) ;;
  ret p.

Definition pbuf_alloced_custom (l : pbuf_layer) (length : Z) (type' : pbuf_type)
    (p payload_mem payload_mem_len : Z) : PB Z :=
  let offset := layer_offset l in
  if LWIP_MEM_ALIGN_SIZE offset + length >? payload_mem_len then ret 0 else
  upds p (fun b => b <| next := 0 |>
    <| payload := if negb (payload_mem =? 0) then payload_mem + LWIP_MEM_ALIGN_SIZE offset else 0 |>
    <| flags := PBUF_FLAG_IS_CUSTOM |> <| len := length |> <| tot_len := length |>
    <| type := type' |> <| ref := 1 |>) ;;
  ret p.

(** Step over the pbufs that remain; the result is the new last pbuf and the
    length it keeps. *)
Fixpoint realloc_skip (fuel : nat) (q rem_len grow : Z) : PB (Z * Z) :=
  match fuel with
  | O => hang
  | S n =>
      do b <- get q;
      if rem_len >? b.(len) then
        LWIP_ASSERT (grow <? 65535) ;;
        upds q (fun b => b <| tot_len := u16 (b.(tot_len) + u16 grow) |>) ;;
        LWIP_ASSERT (negb (b.(next) =? 0)) ;;
        realloc_skip n b.(next) (u16 (rem_len - b.(len))) grow
      else ret (q, rem_len)
  end.

Definition pbuf_realloc (fuel : nat) (p new_len : Z) : PB unit :=
  LWIP_ASSERT (negb (p =? 0)) ;;
  do b <- get p;
  if new_len >=? b.(tot_len) then ret tt else
  let grow := new_len - b.(tot_len) in
  do r <- realloc_skip fuel p new_len grow;
  let '(q, rem_len) := r in
  do b <- get q;
  do q <-
    (if pbuf_type_eqb b.(type) PBUF_RAM && negb (rem_len =? b.(len)) &&
        (b.(flags) .& PBUF_FLAG_IS_CUSTOM =? 0) then
       do q' <- lift (heap_trim q (u16 (u16 (b.(payload) - q) + rem_len)));
       let q := match q' with Some q => q | None => 0 end in
       LWIP_ASSERT (negb (q =? 0)) ;;
       ret q
     else ret q);
  upds q (fun b => b <| len := rem_len |> <| tot_len := rem_len |>) ;;
  do b <- get q;
  (when negb (b.(next) =? 0) then (pbuf_free fuel b.(next) ;; ret tt)) ;;
  upds q (fun b => b <| next := 0 |>).

(** Zero on success. *)
Definition pbuf_header_impl (p header_size_increment : Z) (force : bool) : PB Z :=
  LWIP_ASSERT (negb (p =? 0)) ;;
  if (header_size_increment =? 0) || (p =? 0) then ret 0 else
  do b <- get p;
  let increment_magnitude := u16 (Z.abs header_size_increment) in
  LWIP_ERROR ((header_size_increment >=? 0) || (increment_magnitude <=? b.(len))) (ret 1) (
  let moved := b.(payload) - header_size_increment in
  let lengths b := b <| len := u16 (b.(len) + header_size_increment) |>
                     <| tot_len := u16 (b.(tot_len) + header_size_increment) |> in
  match b.(type) with
  | PBUF_RAM | PBUF_POOL =>
      if moved <? p + SIZEOF_STRUCT_PBUF then ret 1
      else upds p (fun b => lengths (b <| payload := moved |>)) ;; ret 0
  | PBUF_REF | PBUF_ROM =>
      if ((header_size_increment <? 0) && (increment_magnitude <=? b.(len)))
         || ((header_size_increment >? 0) && force)
      then upds p (fun b => lengths (b <| payload := moved |>)) ;; ret 0
      else ret 1
  end).

Definition pbuf_header (p header_size_increment : Z) : PB Z := pbuf_header_impl p header_size_increment false.
Definition pbuf_header_force (p header_size_increment : Z) : PB Z := pbuf_header_impl p header_size_increment true.

Fixpoint clen_loop (fuel : nat) (p l : Z) : PB Z :=
  if p =? 0 then ret l else
  match fuel with
  | O => hang
  | S n => do b <- get p; clen_loop n b.(next) (u16 (l + 1))
  end.
Definition pbuf_clen (fuel : nat) (p : Z) : PB Z := clen_loop fuel p 0.

Definition pbuf_ref (p : Z) : PB unit :=
  if negb (p =? 0) then upds p (fun b => b <| ref := u16 (b.(ref) + 1) |>) else ret tt.

(** [for (p = h; p->next != NULL; p = p->next)] of [pbuf_cat]: the last pbuf. *)
Fixpoint cat_loop (fuel : nat) (p t : Z) : PB Z :=
  match fuel with
  | O => hang
  | S n =>
      do b <- get p;
      if negb (b.(next) =? 0) then
        do tb <- get t;
        upds p (fun b => b <| tot_len := u16 (b.(tot_len) + tb.(tot_len)) |>) ;;
        cat_loop n b.(next) t
      else ret p
  end.

Definition pbuf_cat (fuel : nat) (h t : Z) : PB unit :=
  LWIP_ERROR (negb (h =? 0) && negb (t =? 0)) (ret tt) (
  do p <- cat_loop fuel h t;
  do b <- get p;
  LWIP_ASSERT (b.(tot_len) =? b.(len)) ;;
  LWIP_ASSERT (b.(next) =? 0) ;;
  do tb <- get t;
  upds p (fun b => b <| tot_len := u16 (b.(tot_len) + tb.(tot_len)) |>) ;;
  upds p (fun b => b <| next := t |>)).

Definition pbuf_chain (fuel : nat) (h t : Z) : PB unit := pbuf_cat fuel h t ;; pbuf_ref t.

Definition pbuf_dechain (fuel : nat) (p : Z) : PB Z :=
  do b <- get p;
  let q := b.(next) in
  do tail_gone <-
    (if negb (q =? 0) then
       do qb <- get q;
       LWIP_ASSERT (qb.(tot_len) =? b.(tot_len) - b.(len)) ;;
       upds q (fun x => x <| tot_len := u16 (b.(tot_len) - b.(len)) |>) ;;
       upds p (fun x => x <| next := 0 |> <| tot_len := x.(len) |>) ;;
       pbuf_free fuel q
     else ret 1);
  do b <- get p;
  LWIP_ASSERT (b.(tot_len) =? b.(len)) ;;
  ret (if tail_gone >? 0 then 0 else q).

(** The [do] loop of [pbuf_copy]. *)
Fixpoint copy_loop (fuel : nat) (p_to p_from offset_to offset_from : Z) : PB err_t :=
  match fuel with
  | O => hang
  | S n =>
      do t <- get p_to;
      do f <- get p_from;
      let l := if t.(len) - offset_to >=? f.(len) - offset_from
               then u16 (f.(len) - offset_from) else u16 (t.(len) - offset_to) in
      modify (fun s => s <| data := copy_in (t.(payload) + offset_to) (f.(payload) + offset_from) l s.(data) |>) ;;
      let offset_to := u16 (offset_to + l) in
      let offset_from := u16 (offset_from + l) in
      LWIP_ASSERT (offset_to <=? t.(len)) ;;
      LWIP_ASSERT (offset_from <=? f.(len)) ;;
      let '(offset_from, p_from) :=
        if offset_from >=? f.(len) then (0, f.(next)) else (offset_from, p_from) in
      let '(offset_to, p_to) :=
        if offset_to =? t.(len) then (0, t.(next)) else (offset_to, p_to) in
      LWIP_ERROR (negb (p_to =? 0) || (p_from =? 0)) (ret ERR_ARG) (
      do f <- get p_from;
      LWIP_ERROR (negb (negb (p_from =? 0) && (f.(len) =? f.(tot_len))) || (f.(next) =? 0)) (ret ERR_VAL) (
      do t <- get p_to;
      LWIP_ERROR (negb (negb (p_to =? 0) && (t.(len) =? t.(tot_len))) || (t.(next) =? 0)) (ret ERR_VAL) (
      if negb (p_from =? 0) then copy_loop n p_to p_from offset_to offset_from else ret ERR_OK)))
  end.

Definition pbuf_copy (fuel : nat) (p_to p_from : Z) : PB err_t :=
  do t <- get p_to;
  do f <- get p_from;
  LWIP_ERROR (negb (p_to =? 0) && negb (p_from =? 0) && (t.(tot_len) >=? f.(tot_len))) (ret ERR_ARG)
    (copy_loop fuel p_to p_from 0 0).

(** The number of bytes copied, and the bytes written to [dataptr]. *)
Fixpoint copy_partial_loop (fuel : nat) (p n offset copied : Z) (out : list Z) : PB (Z * list Z) :=
  if negb (n =? 0) && negb (p =? 0) then
    match fuel with
    | O => hang
    | S fuel =>
        do b <- get p;
        if negb (offset =? 0) && (offset >=? b.(len)) then
          copy_partial_loop fuel b.(next) n (u16 (offset - b.(len))) copied out
        else
          let l := u16 (b.(len) - offset) in
          let l := if l >? n then n else l in
          do d <- gets data;
          copy_partial_loop fuel b.(next) (u16 (n - l)) 0 (u16 (copied + l))
            (out ++ load_list d (b.(payload) + offset) l)
    end
  else ret (copied, out).

Definition pbuf_copy_partial (fuel : nat) (buf : Z) (dataptr_nonnull : bool) (n offset : Z) : PB (Z * list Z) :=
  LWIP_ERROR (negb (buf =? 0)) (ret (0, [])) (
  LWIP_ERROR dataptr_nonnull (ret (0, [])) (
  copy_partial_loop fuel buf n offset 0 [])).

(** Find the end of the first part of a chain of up to 64K bytes: the last
    pbuf of the first part and the first of the rest. *)
Fixpoint split_find (fuel : nat) (tot_len_front i r : Z) : PB (Z * Z) :=
  match fuel with
  | O => hang
  | S n =>
      do b <- get r;
      if negb (r =? 0) && (u16 (tot_len_front + b.(len)) >? tot_len_front)
      then split_find n (u16 (tot_len_front + b.(len))) r b.(next)
      else ret (i, r)
  end.

Fixpoint split_lengths (fuel : nat) (i sub : Z) : PB unit :=
  if i =? 0 then ret tt else
  match fuel with
  | O => hang
  | S n =>
      upds i (fun b => b <| tot_len := u16 (b.(tot_len) - sub) |>) ;;
      do b <- get i;
      LWIP_ASSERT (negb (b.(next) =? 0) || (b.(tot_len) =? b.(len))) ;;
      split_lengths n b.(next) sub
  end.

(** The value stored in [*rest]. *)
Definition pbuf_split_64k (fuel : nat) (p : Z) : PB Z :=
  do b <- get p;
  if negb (p =? 0) && negb (b.(next) =? 0) then
    do ir <- split_find fuel b.(len) p b.(next);
    let '(i, r) := ir in
    upds i (fun b => b <| next := 0 |>) ;;
    if negb (r =? 0) then
      do rb <- get r;
      split_lengths fuel p rb.(tot_len) ;;
      do b <- get p;
      (when negb (b.(flags) .& PBUF_FLAG_TCP_FIN =? 0) then
         upds r (fun x => x <| flags := x.(flags) .| PBUF_FLAG_TCP_FIN |>)) ;;
      ret r
    else ret 0
  else ret 0.

(** The pbuf where the offset lies and the offset in it. *)
Fixpoint pbuf_skip_const (fuel : nat) (q offset_left : Z) : PB (Z * Z) :=
  if q =? 0 then ret (0, offset_left) else
  match fuel with
  | O => hang
  | S n =>
      do b <- get q;
      if b.(len) <=? offset_left
      then pbuf_skip_const n b.(next) (u16 (offset_left - b.(len)))
      else ret (q, offset_left)
  end.
Definition pbuf_skip (fuel : nat) (p in_offset : Z) : PB (Z * Z) := pbuf_skip_const fuel p in_offset.

(** The copy loop of [pbuf_take]: [rest] is what is left of the data. *)
Fixpoint take_loop (fuel : nat) (p total_copy_len : Z) (rest : list Z) : PB unit :=
  if total_copy_len =? 0 then ret tt else
  match fuel with
  | O => hang
  | S n =>
      LWIP_ASSERT (negb (p =? 0)) ;;
      do b <- get p;
      let l := if total_copy_len >? b.(len) then b.(len) else total_copy_len in
      modify (fun s => s <| data := store_list b.(payload) (firstn (Z.to_nat l) rest) s.(data) |>) ;;
      take_loop n b.(next) (u16 (total_copy_len - l)) (skipn (Z.to_nat l) rest)
  end.

(** [dataptr] points to the bytes [bytes]; [len] of them are used. *)
Definition pbuf_take (fuel : nat) (buf : Z) (dataptr : option (list Z)) (n : Z) : PB err_t :=
  do b <- get buf;
  LWIP_ERROR (negb (buf =? 0)) (ret ERR_ARG) (
  match dataptr with
  | None => LWIP_ERROR false (ret ERR_ARG) (ret ERR_ARG)
  | Some bytes =>
      LWIP_ERROR (b.(tot_len) >=? n) (ret ERR_MEM) (
      take_loop fuel buf n bytes ;;
      ret ERR_OK)
  end).

Definition pbuf_take_at (fuel : nat) (buf : Z) (bytes : list Z) (n offset : Z) : PB err_t :=
  do r <- pbuf_skip fuel buf offset;
  let '(q, target_offset) := r in
  do b <- get q;
  if negb (q =? 0) && (b.(tot_len) >=? target_offset + n) then
    let first_copy_len := u16 (Z.min (b.(len) - target_offset) n) in
    modify (fun s => s <| data :=
      store_list (b.(payload) + target_offset) (firstn (Z.to_nat first_copy_len) bytes) s.(data) |>) ;;
    let remaining_len := u16 (n - first_copy_len) in
    if remaining_len >? 0
    then pbuf_take fuel b.(next) (Some (skipn (Z.to_nat first_copy_len) bytes)) remaining_len
    else ret ERR_OK
  else ret ERR_MEM.

Definition pbuf_coalesce (fuel : nat) (p : Z) (layer : pbuf_layer) : PB Z :=
  do b <- get p;
  if b.(next) =? 0 then ret p else
  do q <- pbuf_alloc layer b.(tot_len) PBUF_RAM;
  if q =? 0 then ret p else
  do err <- pbuf_copy fuel q p;
  LWIP_ASSERT (match err with ERR_OK => true | _ => false end) ;;
  pbuf_free fuel p ;;
  ret q.

(** The byte at an offset, or -1. *)
Definition pbuf_try_get_at (fuel : nat) (p offset : Z) : PB Z :=
  do r <- pbuf_skip_const fuel p offset;
  let '(q, q_idx) := r in
  do b <- get q;
  if negb (q =? 0) && (b.(len) >? q_idx) then gets (fun s => s.(data) (b.(payload) + q_idx)) else ret (-1).

Definition pbuf_get_at (fuel : nat) (p offset : Z) : PB Z :=
  do r <- pbuf_try_get_at fuel p offset;
  ret (if r >=? 0 then u8 r else 0).

Definition pbuf_put_at (fuel : nat) (p offset d : Z) : PB unit :=
  do r <- pbuf_skip fuel p offset;
  let '(q, q_idx) := r in
  do b <- get q;
  if negb (q =? 0) && (b.(len) >? q_idx)
  then modify (fun s => s <| data := upd_at s.(data) (b.(payload) + q_idx) (fun _ => d) |>) else ret tt.

Fixpoint memcmp_skip (fuel : nat) (q start : Z) : PB (Z * Z) :=
  if q =? 0 then ret (q, start) else
  match fuel with
  | O => hang
  | S n =>
      do b <- get q;
      if b.(len) <=? start then memcmp_skip n b.(next) (u16 (start - b.(len))) else ret (q, start)
  end.

(** [for (i = 0; i < n; i++)]: the bytes of [s2] from [i] on. *)
Fixpoint memcmp_loop (fuel : nat) (q start i : Z) (s2 : list Z) : PB Z :=
  match s2 with
  | [] => ret 0
  | b :: s2 =>
      do a <- pbuf_get_at fuel q (u16 (start + i));
      if negb (a =? b) then ret (u16 (i + 1)) else memcmp_loop fuel q start (i + 1) s2
  end.

Definition pbuf_memcmp (fuel : nat) (p offset : Z) (s2 : list Z) (n : Z) : PB Z :=
  do b <- get p;
  if b.(tot_len) <? offset + n then ret 65535 else
  do r <- memcmp_skip fuel p offset;
  let '(q, start) := r in
  memcmp_loop fuel q start 0 (firstn (Z.to_nat n) s2).

(** [for (i = start_offset; i <= max; i++)], at most [tries] times *)
Fixpoint memfind_loop (tries : nat) (fuel : nat) (p : Z) (m : list Z) (mem_len i max : Z) : PB Z :=
  if i <=? max then
    match tries with
    | O => hang
    | S tries =>
        do plus <- pbuf_memcmp fuel p i m mem_len;
        if plus =? 0 then ret i else memfind_loop tries fuel p m mem_len (u16 (i + 1)) max
    end
  else ret 65535.

Definition pbuf_memfind (fuel : nat) (p : Z) (m : list Z) (mem_len start_offset : Z) : PB Z :=
  do b <- get p;
  let max := u16 (b.(tot_len) - mem_len) in
  if b.(tot_len) >=? mem_len + start_offset
  then memfind_loop (Z.to_nat 65536) fuel p m mem_len start_offset max
  else ret 65535.

(** [substr] without its terminating zero, [None] for NULL *)
Definition pbuf_strstr (fuel : nat) (p : Z) (substr : option (list Z)) : PB Z :=
  do b <- get p;
  match substr with
  | None | Some [] => ret 65535
  | Some str =>
      if b.(tot_len) =? 65535 then ret 65535 else
      if Z.of_nat (length str) >=? 65535 then ret 65535 else
      pbuf_memfind fuel p str (Z.of_nat (length str)) 0
  end.

(** ** Chains *)

(** The pbufs from [p] on are those of the list. *)
Fixpoint chain (f : Z -> pbuf) (p : Z) (l : list Z) : Prop :=
  match l with
  | [] => p = 0
  | a :: t => p = a /\ a <> 0 /\ chain f (f a).(next) t
  end.

Fixpoint total (f : Z -> pbuf) (l : list Z) : Z :=
  match l with [] => 0 | a :: t => (f a).(len) + total f t end.

(** The length fields: [tot_len] counts the bytes from a pbuf on; [extra]
    bytes are still to come. *)
Fixpoint lengths (f : Z -> pbuf) (extra : Z) (l : list Z) : Prop :=
  match l with
  | [] => True
  | a :: t => 0 <= (f a).(len) /\ (f a).(tot_len) = total f (a :: t) + extra /\ lengths f extra t
  end.

(** The bytes of a packet. *)
Definition content (f : Z -> pbuf) (d : Z -> Z) (l : list Z) : list Z :=
  concat (map (fun a => load_list d (f a).(payload) (f a).(len)) l).

Lemma bind_lwip_assert {A} c (k : unit -> PB A) s : c = true -> bind (LWIP_ASSERT c) k s = k tt s.
Proof. intros ->. unfold LWIP_ASSERT. now destruct NOASSERT. Qed.

Lemma lwip_error_ok {A} c (h k : PB A) : c = true -> LWIP_ERROR c h k = k.
Proof. now intros ->. Qed.

Lemma bind_lift {A B} (m : M mst A) (k : A -> PB B) s a m' : m s.(mm) = Ok (a, m') ->
  bind (lift m) k s = k a (s <| mm := m' |>).
Proof. intros E. unfold bind, lift. now rewrite E. Qed.

Lemma upd_at_same {A} (f : Z -> A) p g : upd_at f p g p = g (f p).
Proof. unfold upd_at. now rewrite Z.eqb_refl. Qed.
Lemma upd_at_other {A} (f : Z -> A) p g a : a <> p -> upd_at f p g a = f a.
Proof. unfold upd_at. now intros ->%Z.eqb_neq. Qed.

(** Only the structs of the chain matter, and of those only some fields. *)
Lemma chain_ext f f' l : forall p, (forall a, In a l -> (f' a).(next) = (f a).(next)) ->
  chain f p l -> chain f' p l.
Proof.
  induction l as [|a t IH]; intros p He; cbn [chain]; [auto|]. intros (-> & Ha & Hc).
  split; [reflexivity|]. split; [assumption|]. rewrite He by (now left). apply IH; [|assumption].
  intros. apply He. now right.
Qed.

Lemma total_ext f f' l : (forall a, In a l -> (f' a).(len) = (f a).(len)) -> total f' l = total f l.
Proof.
  induction l as [|a t IH]; intros He; cbn [total]; [reflexivity|].
  rewrite He by (now left). rewrite IH; [reflexivity|]. intros. apply He. now right.
Qed.

Lemma lengths_ext f f' e l : (forall a, In a l -> (f' a).(len) = (f a).(len) /\ (f' a).(tot_len) = (f a).(tot_len)) ->
  lengths f e l -> lengths f' e l.
Proof.
  induction l as [|a t IH]; intros He; cbn [lengths]; [auto|]. intros (H0 & H1 & H2).
  destruct (He a (or_introl eq_refl)) as [El Et]. rewrite El, Et, (total_ext f f') by (intros; now apply He).
  split; [assumption|]. split; [assumption|]. apply IH; [|assumption]. intros. apply He. now right.
Qed.

Lemma total_app f l1 l2 : total f (l1 ++ l2) = total f l1 + total f l2.
Proof. induction l1 as [|a t IH]; cbn [app total]; lia. Qed.

Lemma chain_app f l1 : forall p l2, chain f p (l1 ++ l2) ->
  exists q, chain f q l2 /\ (l1 = [] -> q = p) /\
            (forall l0 r, l1 = l0 ++ [r] -> (f r).(next) = q).
Proof.
  induction l1 as [|a t IH]; intros p l2; cbn [app chain].
  - intros Hc. exists p. split; [assumption|]. split; [reflexivity|]. intros l0 r E.
    now apply app_cons_not_nil in E.
  - intros (-> & Ha & Hc). destruct (IH _ _ Hc) as (q & Hq & H0 & Hl). exists q. split; [assumption|].
    split; [discriminate|]. intros [|b l0] r E; injection E as ->; [subst; now rewrite H0|].
    now apply (Hl l0).
Qed.

(** ** Freeing *)

Definition origin_of (t : pbuf_type) : origin :=
  match t with
  | PBUF_RAM => Heap
  | PBUF_ROM | PBUF_REF => Pool MEMP_PBUF
  | PBUF_POOL => Pool MEMP_PBUF_POOL
  end.

(** The blocks of the pbufs of a list; [sz] gives their sizes. *)
Definition held (f : Z -> pbuf) (sz : Z -> Z) (l : list Z) : list blk :=
  map (fun a => mkBlk (origin_of (f a).(type)) a (sz a)) l.

Definition not_custom (b : pbuf) : Prop := b.(flags) .& PBUF_FLAG_IS_CUSTOM = 0.

Lemma held_ext f f' sz l : (forall a, In a l -> (f' a).(type) = (f a).(type)) -> held f' sz l = held f sz l.
Proof. intros He. apply map_ext_in. intros a Ha. now rewrite He. Qed.

Lemma release_spec s p b bs n : not_custom b ->
  owns s.(mm) (mkBlk (origin_of b.(type)) p n :: bs) ->
  exists m', release p b s = Ok (tt, s <| mm := m' |>) /\ owns m' bs.
Proof.
  intros Hc Ho. unfold release, not_custom in *. rewrite Hc. change (negb (0 =? 0)) with false. cbv iota.
  destruct b.(type); cbn [origin_of] in Ho;
    [destruct (heap_free_law _ _ _ _ Ho) as (m' & E & Ho')|destruct (pool_free_law _ _ _ _ _ Ho) as (m' & E & Ho')..];
    exists m'; (split; [unfold lift; now rewrite E|assumption]).
Qed.

Lemma chain_nonnull f p l a : chain f p (a :: l) -> p = a /\ (p =? 0) = false.
Proof. cbn. intros (-> & Ha & _). split; [reflexivity|now apply Z.eqb_neq]. Qed.

(** [l1] are the pbufs with one reference at the head of the chain. *)
Lemma free_loop_spec sz bs l2 : forall l1 fuel p count s,
  chain s.(structs) p (l1 ++ l2) -> NoDup (l1 ++ l2) ->
  Forall (fun a => (s.(structs) a).(ref) = 1 /\ not_custom (s.(structs) a)) l1 ->
  match l2 with [] => True | a :: _ => 1 < (s.(structs) a).(ref) < 65536 end ->
  owns s.(mm) (held s.(structs) sz l1 ++ bs) -> (length l1 < fuel)%nat -> 0 <= count < 256 ->
  exists s', free_loop fuel p count s = Ok (u8 (count + Z.of_nat (length l1)), s') /\
    owns s'.(mm) bs /\ s'.(data) = s.(data) /\
    (forall a, ~ In a l1 -> s'.(structs) a =
       match l2 with
       | b :: _ => if a =? b then (s.(structs) a) <| ref := (s.(structs) a).(ref) - 1 |> else s.(structs) a
       | [] => s.(structs) a
       end).
Proof.
  induction l1 as [|a l1 IH]; intros fuel p count s Hc Hnd Hone Hl2 Ho Hf Hcount; cbn [app] in *.
  - cbn [length]. rewrite Z.add_0_r. replace (u8 count) with count by (unfold u8; rewrite Z.mod_small; lia).
    destruct l2 as [|b l2]; cbn [chain] in Hc.
    + exists s. split; [|now split; [|split]]. destruct fuel; cbn [free_loop]; now rewrite Hc.
    + destruct fuel as [|fuel]; [cbn in Hf; lia|]. cbn [free_loop].
      destruct (chain_nonnull s.(structs) p l2 b Hc) as [-> ->].
      unfold get, upds. rewrite bind_gets, bind_lwip_assert by (rewrite Z.gtb_lt; lia). rewrite bind_modify.
      rewrite (u16_id (_ - 1)) by word_lia. replace (_ - 1 =? 0) with false by (symmetry; apply Z.eqb_neq; lia).
      eexists. split; [reflexivity|]. cbn [mm data structs with_field]. split; [assumption|]. split; [reflexivity|].
      intros x _. unfold upd_at. now destruct (Z.eqb_spec x b); [subst|].
  - destruct fuel as [|fuel]; [cbn in Hf; lia|]. cbn [free_loop].
    destruct (chain_nonnull _ _ _ _ Hc) as [-> ->]. destruct Hc as (_ & Ha0 & Hc).
    apply Forall_cons_iff in Hone. destruct Hone as [[Hr1 Hnc] Hone'].
    apply NoDup_cons_iff in Hnd. destruct Hnd as [Hni Hnd'].
    unfold get. rewrite bind_gets, Hr1, bind_lwip_assert by reflexivity.
    change (u16 (1 - 1)) with 0. unfold upds. rewrite bind_modify. change (0 =? 0) with true. cbv iota.
    set (s1 := s <| structs := upd_at (structs s) a (fun b => b <| ref := 0 |>) |>).
    cbn [held map app] in Ho.
    destruct (release_spec s1 a (structs s a) _ _ Hnc Ho) as (m' & E & Ho').
    rewrite (bind_ok _ _ _ _ _ E).
    assert (Hsame : forall x, x <> a -> structs (s1 <| mm := m' |>) x = structs s x)
      by (intros; cbn [structs with_field s1]; now apply upd_at_other).
    assert (Hin : forall x, In x (l1 ++ l2) -> structs (s1 <| mm := m' |>) x = structs s x)
      by (intros; apply Hsame; intros ->; contradiction).
    destruct (IH fuel (next (structs s a)) (u8 (count + 1)) (s1 <| mm := m' |>)) as (s' & E' & Ho1 & Hd & Hs').
    + apply (chain_ext (structs s)); [|assumption]. intros x Hx. now rewrite Hin.
    + assumption.
    + apply Forall_forall. intros x Hx. rewrite Hin by (apply in_app_iff; now left).
      now apply (proj1 (Forall_forall _ _) Hone').
    + destruct l2 as [|b l2]; [exact I|]. rewrite Hin; [assumption|apply in_app_iff; right; now left].
    + cbn [mm with_field]. rewrite (held_ext (structs s)); [exact Ho'|].
      intros x Hx. rewrite Hin; [reflexivity|apply in_app_iff; now left].
    + cbn in Hf. lia.
    + unfold u8. apply Z.mod_pos_bound. lia.
    + exists s'. split.
      * rewrite E'. do 2 f_equal. unfold u8. rewrite Zplus_mod_idemp_l. f_equal. cbn [length]. lia.
      * split; [assumption|]. split; [exact Hd|]. intros x Hx. cbn [In] in Hx.
        rewrite Hs' by tauto. destruct l2 as [|b l2]; [apply Hsame; intros ->; tauto|].
        destruct (Z.eqb_spec x b) as [->|Hne]; rewrite Hsame by (intros ->; tauto); reflexivity.
Qed.

(** ** Allocating from the pool *)

Lemma pool_is_empty_spec s : exists s', pbuf_pool_is_empty s = Ok (tt, s') /\
  s'.(structs) = s.(structs) /\ s'.(data) = s.(data) /\ s'.(mm) = s.(mm).
Proof.
  unfold pbuf_pool_is_empty. rewrite bind_gets, bind_modify. destruct (ooseq_pending s); cbn [negb].
  - eexists. split; [reflexivity|]. now repeat split.
  - rewrite bind_gets. destruct (tcpip_callback_ok _); eexists; (split; [reflexivity|]); now repeat split.
Qed.

(** A pbuf of the pool with one reference, whose payload lies in its block. *)
Definition pool_pbuf (f : Z -> pbuf) (a : Z) : Prop :=
  (f a).(ref) = 1 /\ not_custom (f a) /\ (f a).(type) = PBUF_POOL /\
  a + SIZEOF_STRUCT_PBUF <= (f a).(payload) /\
  (f a).(payload) + (f a).(len) <= a + SIZEOF_STRUCT_PBUF + PBUF_POOL_BUFSIZE_ALIGNED.

Definition pool_blocks (l : list Z) : list blk :=
  map (fun a => mkBlk (Pool MEMP_PBUF_POOL) a (pool_size MEMP_PBUF_POOL)) l.

Lemma held_pool f l : Forall (pool_pbuf f) l -> held f (fun _ => pool_size MEMP_PBUF_POOL) l = pool_blocks l.
Proof.
  intros Hp. apply map_ext_in. intros a Ha. rewrite Forall_forall in Hp.
  destruct (Hp a Ha) as (_ & _ & -> & _). reflexivity.
Qed.

(** Blocks that are handed out at the same time have different addresses. *)
Lemma owns_fresh m b bs : owns m (b :: bs) -> b.(b_addr) <> 0 /\ ~ In b.(b_addr) (map b_addr bs).
Proof.
  intros Ho. pose proof (owns_apart _ _ Ho) as Hap. pose proof (owns_sane _ _ Ho) as Hs.
  apply Forall_cons_iff in Hs. destruct Hs as [Hb Hs]. split; [lia|].
  inversion Hap as [|? ? Hall _]; subst. rewrite in_map_iff. intros (c & E & Hin).
  rewrite Forall_forall in Hall, Hs. destruct (Hall c Hin); specialize (Hs c Hin); lia.
Qed.

Lemma owns_nodup m l bs : owns m (pool_blocks l ++ bs) -> NoDup l.
Proof.
  intros Ho. pose proof (owns_apart _ _ Ho) as Hap. pose proof (owns_sane _ _ Ho) as Hs. clear Ho.
  induction l as [|a l IH]; [constructor|]. cbn [pool_blocks map app] in *.
  apply Forall_cons_iff in Hs. destruct Hs as [Ha Hs]. inversion Hap as [|? ? Hall Hrest]; subst.
  constructor; [|now apply IH]. intros Hin. rewrite Forall_forall in Hall.
  specialize (Hall (mkBlk (Pool MEMP_PBUF_POOL) a (pool_size MEMP_PBUF_POOL))). destruct Hall; cbn in *; try lia.
  apply in_app_iff. left. now apply (in_map (fun a => mkBlk (Pool MEMP_PBUF_POOL) a (pool_size MEMP_PBUF_POOL))).
Qed.

Lemma owns_disjoint m l bs a b : owns m (pool_blocks l ++ bs) -> In a l -> In b bs -> b.(b_addr) <> a.
Proof.
  intros Ho Ha Hb E. apply in_split in Ha. destruct Ha as (l1 & l2 & ->).
  assert (Ho' : owns m (mkBlk (Pool MEMP_PBUF_POOL) a (pool_size MEMP_PBUF_POOL) :: pool_blocks (l1 ++ l2) ++ bs)).
  { eapply owns_perm; [|exact Ho]. unfold pool_blocks. rewrite !map_app, <- !app_assoc. cbn [map app].
    symmetry. apply Permutation_middle. }
  apply owns_fresh in Ho'. destruct Ho' as [_ Hn]. apply Hn. cbn [b_addr].
  rewrite map_app. apply in_app_iff. right. rewrite <- E. now apply in_map.
Qed.

(** Linking a new last pbuf. *)
Lemma chain_snoc f f' r q : (f' r).(next) = q -> q <> 0 -> (f' q).(next) = 0 -> forall l0 p,
  (forall a, In a l0 -> (f' a).(next) = (f a).(next)) -> chain f p (l0 ++ [r]) -> chain f' p ((l0 ++ [r]) ++ [q]).
Proof.
  intros Hr Hq0 Hq. induction l0 as [|a l0 IH]; intros p He; cbn [app chain].
  - intros (-> & Hr0 & _). rewrite Hr, Hq. auto.
  - intros (-> & Ha0 & Hc). split; [reflexivity|]. split; [assumption|]. rewrite He by (now left).
    apply IH; [|assumption]. intros. apply He. now right.
Qed.

Lemma lengths_snoc f f' q e l : (forall a, In a l -> (f' a).(len) = (f a).(len) /\ (f' a).(tot_len) = (f a).(tot_len)) ->
  (f' q).(tot_len) = e -> 0 <= (f' q).(len) ->
  lengths f e l -> lengths f' (e - (f' q).(len)) (l ++ [q]).
Proof.
  intros He Hq Hl. induction l as [|a l IH]; cbn [app lengths].
  - intros _. cbn [total]. split; [assumption|]. split; [lia|exact I].
  - intros (H0 & H1 & H2). destruct (He a (or_introl eq_refl)) as [El Et].
    rewrite El, Et. split; [assumption|]. split.
    + rewrite H1. cbn [total]. rewrite total_app, (total_ext f f'), El by (intros; apply He; now right).
      cbn [total]. lia.
    + apply IH; [|assumption]. intros. apply He. now right.
Qed.

Ltac pbuf_numbers :=
  change SIZEOF_STRUCT_PBUF with 16 in *; change PBUF_POOL_BUFSIZE_ALIGNED with 590 in *.

(** The state while the chain [l] is built: [rem] bytes are still to be allocated. *)
Record building (s : pst) (p r rem : Z) (l : list Z) (bs : list blk) : Prop := {
  bld_chain : chain s.(structs) p l;
  bld_last : exists l0, l = l0 ++ [r];
  bld_lengths : lengths s.(structs) rem l;
  bld_pool : Forall (pool_pbuf s.(structs)) l;
  bld_owns : owns s.(mm) (pool_blocks l ++ bs) }.

(** What the allocation leaves alone. *)
Definition frame (s s' : pst) (bs : list blk) : Prop :=
  s'.(data) = s.(data) /\
  forall b, In b bs -> s'.(structs) b.(b_addr) = s.(structs) b.(b_addr).

Lemma frame_trans s1 s2 s3 bs : frame s1 s2 bs -> frame s2 s3 bs -> frame s1 s3 bs.
Proof. intros [D1 F1] [D2 F2]. split; [congruence|]. intros b Hb. now rewrite F2, F1. Qed.

Lemma structs_set s g : structs (s <| structs := g |>) = g.
Proof. reflexivity. Qed.
Lemma structs_mm s m : structs (s <| mm := m |>) = structs s.
Proof. reflexivity. Qed.

(** One round of the loop: the struct of the new pbuf, linked behind [r]. *)
Definition new_tail (f : Z -> pbuf) (r q rem : Z) (x : Z) : pbuf :=
  if x =? q then mkPbuf 0 (q + SIZEOF_STRUCT_PBUF) rem (Z.min rem PBUF_POOL_BUFSIZE_ALIGNED) PBUF_POOL 0 1
  else if x =? r then (f r) <| next := q |> else f x.

Lemma tail_exec {A} s p r rem q m' (k : unit -> PB A) : p <> q -> r <> q -> 0 < rem < 65535 ->
  (s.(structs) p).(payload) + (s.(structs) p).(len) <= p + SIZEOF_STRUCT_PBUF + PBUF_POOL_BUFSIZE_ALIGNED ->
  exists s',
    (upds q (fun b => b <| type := PBUF_POOL |> <| flags := 0 |> <| next := 0 |>) ;;
     upds r (fun b => b <| next := q |>) ;;
     LWIP_ASSERT (rem <? 65535) ;;
     upds q (fun b => b <| tot_len := u16 rem |> <| len := Z.min (u16 rem) PBUF_POOL_BUFSIZE_ALIGNED |> <| payload := q + SIZEOF_STRUCT_PBUF |>) ;;
     LWIP_ASSERT ((q + SIZEOF_STRUCT_PBUF) mod MEM_ALIGNMENT =? 0) ;;
     do b <- get p;
     LWIP_ASSERT (b.(payload) + b.(len) <=? p + SIZEOF_STRUCT_PBUF + PBUF_POOL_BUFSIZE_ALIGNED) ;;
     upds q (fun b => b <| ref := 1 |>) ;; k tt) (s <| mm := m' |>) = k tt s' /\
    s'.(mm) = m' /\ s'.(data) = s.(data) /\ forall x, s'.(structs) x = new_tail s.(structs) r q rem x.
Proof.
  intros Hpq Hqr Hrem Hpp.
  unfold upds, get. rewrite !bind_modify, bind_lwip_assert by (apply Z.ltb_lt; lia).
  rewrite (u16_id rem) by word_lia.
  rewrite !bind_modify, bind_lwip_assert by (apply Z.eqb_eq, Z.mod_1_r). rewrite bind_gets.
  rewrite !structs_set, structs_mm, (upd_at_other _ q) by assumption.
  assert (Hpf : forall g : pbuf -> Z, (forall b v, g (b <| next := v |>) = g b) ->
    g (upd_at (upd_at (structs s) q (fun b => b <| type := PBUF_POOL |> <| flags := 0 |> <| next := 0 |>)) r
         (fun b => b <| next := q |>) p) = g (structs s p)).
  { intros g Hg. destruct (Z.eq_dec p r) as [->|Hpr].
    - now rewrite upd_at_same, Hg, upd_at_other.
    - now rewrite !upd_at_other. }
  rewrite (Hpf payload), (Hpf len) by reflexivity.
  rewrite bind_lwip_assert by (now apply Z.leb_le). rewrite bind_modify, structs_set.
  eexists. split; [reflexivity|]. split; [reflexivity|]. split; [reflexivity|].
  intros x. rewrite structs_set. unfold new_tail, upd_at. destruct (Z.eqb_spec x q) as [->|?].
  - now rewrite !Z.eqb_refl, (proj2 (Z.eqb_neq q r)) by auto.
  - destruct (Z.eqb_spec x r); [|reflexivity]. subst x. now rewrite (proj2 (Z.eqb_neq r q)) by auto.
Qed.

Lemma new_tail_old f r q rem a : a <> q ->
  new_tail f r q rem a = (f a) <| next := (new_tail f r q rem a).(next) |>.
Proof.
  intros Hne. unfold new_tail. rewrite (proj2 (Z.eqb_neq _ _) Hne).
  destruct (Z.eqb_spec a r) as [->|_]; [reflexivity|now destruct (f a)].
Qed.

Lemma building_snoc s s' p r rem l bs q : building s p r rem l bs -> 0 < rem < 65535 ->
  owns s'.(mm) (mkBlk (Pool MEMP_PBUF_POOL) q (pool_size MEMP_PBUF_POOL) :: pool_blocks l ++ bs) ->
  (forall x, s'.(structs) x = new_tail s.(structs) r q rem x) ->
  building s' p q (rem - Z.min rem PBUF_POOL_BUFSIZE_ALIGNED) (l ++ [q]) bs.
Proof.
  intros [Hc (l0 & Hl) Hlen Hp _] Hrem Ho Hf'. set (lq := Z.min rem PBUF_POOL_BUFSIZE_ALIGNED).
  destruct (owns_fresh _ _ _ Ho) as [Hq0 _]. cbn [b_addr] in *.
  pose proof (owns_nodup _ (q :: l) bs Ho) as Hnd. apply NoDup_cons_iff in Hnd. destruct Hnd as [Hql Hnd].
  assert (Hq : structs s' q = mkPbuf 0 (q + SIZEOF_STRUCT_PBUF) rem lq PBUF_POOL 0 1)
    by (rewrite Hf'; unfold new_tail; now rewrite Z.eqb_refl).
  assert (Hrq : r <> q) by (intros ->; apply Hql; rewrite Hl; apply in_app_iff; right; now left).
  assert (Hold : forall a, In a l -> structs s' a = (structs s a) <| next := (structs s' a).(next) |>)
    by (intros a Ha; rewrite Hf'; apply new_tail_old; intros ->; contradiction).
  constructor.
  - rewrite Hl. apply (chain_snoc (structs s)); [|assumption|now rewrite Hq| |now rewrite <- Hl].
    + rewrite Hf'. unfold new_tail. now rewrite (proj2 (Z.eqb_neq r q)), Z.eqb_refl by auto.
    + intros a Ha. rewrite Hf'. unfold new_tail. assert (Hal : In a l) by (rewrite Hl; apply in_app_iff; now left).
      replace (a =? q) with false by (symmetry; apply Z.eqb_neq; intros ->; contradiction).
      replace (a =? r) with false; [reflexivity|]. symmetry. apply Z.eqb_neq. intros ->.
      rewrite Hl in Hnd. apply NoDup_remove_2 in Hnd. rewrite app_nil_r in Hnd. contradiction.
  - now exists l.
  - replace lq with ((structs s' q).(len)) by now rewrite Hq.
    apply (lengths_snoc (structs s)); [|now rewrite Hq|rewrite Hq; cbn; unfold lq; pbuf_numbers; lia|assumption].
    intros a Ha. rewrite (Hold a Ha). now split.
  - apply Forall_app. split.
    + rewrite Forall_forall in *. intros a Ha. unfold pool_pbuf, not_custom. rewrite (Hold a Ha). exact (Hp a Ha).
    + constructor; [|constructor]. unfold pool_pbuf, not_custom. rewrite Hq. cbn [ref flags type payload len].
      repeat split; unfold lq; pbuf_numbers; lia.
  - unfold pool_blocks. rewrite map_app, <- app_assoc. cbn [map app].
    eapply owns_perm; [|exact Ho]. apply Permutation_middle.
Qed.

(** The fields the caller of the allocation set in the first pbuf. *)
Definition same_data (b b' : pbuf) : Prop :=
  b'.(payload) = b.(payload) /\ b'.(len) = b.(len) /\ b'.(tot_len) = b.(tot_len).

Lemma building_head s p r rem l bs : building s p r rem l bs ->
  In p l /\ (p =? 0) = false /\ In r l.
Proof.
  intros [Hc (l0 & ->) _ _ _]. destruct l0 as [|a l0]; destruct Hc as (-> & Ha & _); cbn [app];
    (split; [now left|]); (split; [now apply Z.eqb_neq|]); [now left|].
  right. apply in_app_iff. right. now left.
Qed.

(** The pool ran empty: the chain built so far is freed. *)
Lemma building_free s p r rem l bs : building s p r rem l bs -> Z.of_nat (length l) <= 65536 ->
  exists n s', pbuf_free (S (Z.to_nat 65536)) p s = Ok (n, s') /\ owns s'.(mm) bs /\ frame s s' bs.
Proof.
  intros Hb Hlen. destruct (building_head _ _ _ _ _ _ Hb) as (_ & Hp0 & _). destruct Hb as [Hc _ _ Hp Ho].
  pose proof (owns_nodup _ _ _ Ho) as Hnd. unfold pbuf_free. rewrite Hp0.
  destruct (free_loop_spec (fun _ => pool_size MEMP_PBUF_POOL) bs [] l (S (Z.to_nat 65536)) p 0 s)
    as (s' & E & Ho' & Hd & Hs); rewrite ?app_nil_r; try assumption; try exact I; try lia.
  - eapply Forall_impl; [|exact Hp]. intros a (H1 & H2 & _). now split.
  - now rewrite held_pool.
  - do 2 eexists. split; [exact E|]. split; [assumption|]. split; [assumption|].
    intros b Hb. apply Hs. intros Hin. exact (owns_disjoint _ _ _ _ _ Ho Hin Hb eq_refl).
Qed.

Lemma alloc_tail_spec fuel : forall s p r rem l bs, building s p r rem l bs -> 0 <= rem < 65535 ->
  (Z.to_nat rem <= fuel)%nat -> Z.of_nat (length l) + rem <= 65536 ->
  exists ok s', alloc_tail fuel p r rem s = Ok (ok, s') /\ frame s s' bs /\
    if ok : bool
    then exists r' l', building s' p r' 0 l' bs /\ same_data (s.(structs) p) (s'.(structs) p)
    else owns s'.(mm) bs.
Proof.
  induction fuel as [|fuel IH]; intros s p r rem l bs Hb Hrem Hf Hlen; cbn [alloc_tail]; rewrite Z.gtb_ltb;
    destruct (Z.ltb_spec 0 rem) as [Hpos|Hz]; try lia;
    try (replace rem with 0 in * by lia; exists true, s; split; [reflexivity|]; split; [now split|];
         exists r, l; split; [assumption|]; now repeat split).
  destruct (pool_malloc_law _ _ MEMP_PBUF_POOL (bld_owns _ _ _ _ _ _ Hb)) as ([q|] & m' & E & Ho);
    rewrite (bind_lift _ _ _ _ _ E).
  - destruct (building_head _ _ _ _ _ _ Hb) as (Hpl & _ & Hrl).
    pose proof (owns_nodup _ (q :: l) bs Ho) as Hnd. apply NoDup_cons_iff in Hnd. destruct Hnd as [Hql _].
    pose proof (bld_pool _ _ _ _ _ _ Hb) as Hp. rewrite Forall_forall in Hp. destruct (Hp p Hpl) as (_ & _ & _ & _ & Hpp).
    destruct (tail_exec s p r rem q m' (fun _ => alloc_tail fuel p q (rem - Z.min (u16 rem) PBUF_POOL_BUFSIZE_ALIGNED)))
      as (s1 & E1 & Hm1 & Hd1 & Hs1); try assumption; try (intros ->; contradiction); [lia|].
    rewrite E1. rewrite (u16_id rem) by word_lia. rewrite <- Hm1 in Ho.
    pose proof (building_snoc s s1 p r rem l bs q Hb ltac:(lia) Ho Hs1) as Hb1.
    assert (Hfr : frame s s1 bs).
    { split; [assumption|]. intros b Hbs. rewrite Hs1. unfold new_tail.
      pose proof (owns_disjoint _ (q :: l) bs q b Ho (or_introl eq_refl) Hbs) as Hbq.
      pose proof (owns_disjoint _ (q :: l) bs r b Ho (or_intror Hrl) Hbs) as Hbr.
      now rewrite (proj2 (Z.eqb_neq _ _) Hbq), (proj2 (Z.eqb_neq _ _) Hbr). }
    pbuf_numbers. destruct (IH s1 p q (rem - Z.min rem 590) (l ++ [q]) bs Hb1) as (ok & s2 & E2 & Hfr2 & H2);
      [lia|lia|rewrite length_app; cbn [length]; lia|].
    exists ok, s2. split; [exact E2|]. split; [exact (frame_trans _ _ _ _ Hfr Hfr2)|].
    destruct ok; [|assumption]. destruct H2 as (r' & l' & Hb2 & Hsd). exists r', l'. split; [assumption|].
    destruct Hsd as (H3 & H4 & H5). rewrite Hs1, new_tail_old in H3, H4, H5 by (intros ->; contradiction).
    now repeat split.
  - destruct (pool_is_empty_spec (s <| mm := m' |>)) as (s1 & E1 & Hs1 & Hd1 & Hm1).
    rewrite (bind_ok _ _ _ _ _ E1).
    assert (Hb1 : building s1 p r rem l bs).
    { destruct Hb as [H1 H2 H3 H4 H5]. constructor; rewrite ?Hs1, ?Hm1; assumption. }
    destruct (building_free _ _ _ _ _ _ Hb1 ltac:(lia)) as (n & s2 & E2 & Ho2 & Hfr2).
    rewrite (bind_ok _ _ _ _ _ E2). exists false, s2. split; [reflexivity|]. split; [|assumption].
    apply (frame_trans s s1); [|assumption]. split; [exact Hd1|]. intros b _. now rewrite Hs1.
Qed.

Lemma layer_offset_range layer : 0 <= layer_offset layer <= 54.
Proof. destruct layer; cbv; split; discriminate. Qed.

Lemma align_id x : 0 <= x < 4294967296 -> LWIP_MEM_ALIGN_SIZE x = x.
Proof.
  intros Hx. unfold LWIP_MEM_ALIGN_SIZE, MEM_ALIGNMENT. rewrite Z.add_simpl_r.
  change (u32 (Z.lnot (1 - 1))) with (Z.ones 32). rewrite Z.land_ones by lia. now apply Z.mod_small.
Qed.

(** The head of the chain, before its tail is allocated. *)
Lemma alloc_head_building s s1 m' p bs n off : 0 <= off <= 54 -> 0 <= n < 65536 ->
  owns m' (mkBlk (Pool MEMP_PBUF_POOL) p (pool_size MEMP_PBUF_POOL) :: bs) ->
  not_custom (s.(structs) p) -> s1.(mm) = m' ->
  s1.(structs) p = (s.(structs) p) <| type := PBUF_POOL |> <| next := 0 |>
    <| payload := p + (SIZEOF_STRUCT_PBUF + off) |> <| tot_len := n |>
    <| len := Z.min n (PBUF_POOL_BUFSIZE_ALIGNED - off) |> <| ref := 1 |> ->
  building s1 p p (n - Z.min n (PBUF_POOL_BUFSIZE_ALIGNED - off)) [p] bs.
Proof.
  intros Hoff Hn Ho Hnc Hm Hs1. destruct (owns_fresh _ _ _ Ho) as [Hp0 _]. cbn [b_addr] in Hp0. pbuf_numbers.
  constructor.
  - cbn [chain]. rewrite Hs1. now repeat split.
  - now exists [].
  - cbn [lengths total]. rewrite Hs1. cbn [len tot_len with_field]. repeat split; lia.
  - constructor; [|constructor]. unfold pool_pbuf, not_custom. rewrite Hs1. pbuf_numbers.
    cbn [ref flags type payload len with_field]. repeat split; [exact Hnc|lia|lia].
  - now rewrite Hm.
Qed.

Lemma alloc_pool_spec s bs n off : owns s.(mm) bs -> 0 <= n < 65536 -> 0 <= off <= 54 ->
  (forall a, ~ In a (map b_addr bs) -> not_custom (s.(structs) a)) ->
  exists p s', alloc_pool off n s = Ok (p, s') /\ frame s s' bs /\
    ((p = 0 /\ owns s'.(mm) bs) \/
     (exists r l, building s' p r 0 l bs /\ (s'.(structs) p).(tot_len) = n /\
        (s'.(structs) p).(payload) = p + (SIZEOF_STRUCT_PBUF + off))).
Proof.
  intros Ho Hn Hoff Hnc. unfold alloc_pool. rewrite (align_id off) by lia.
  destruct (pool_malloc_law _ _ MEMP_PBUF_POOL Ho) as ([p|] & m' & E & Ho'); rewrite (bind_lift _ _ _ _ _ E).
  - destruct (owns_fresh _ _ _ Ho') as [Hp0 Hpf]. cbn [b_addr] in *. specialize (Hnc p Hpf). cbv zeta. unfold upds.
    rewrite bind_modify, !bind_lwip_assert by ((apply Z.eqb_eq, Z.mod_1_r) || (pbuf_numbers; apply Z.leb_le; lia) ||
      (pbuf_numbers; apply Z.gtb_lt; lia)).
    rewrite bind_modify. set (s1 := _ <| structs := upd_at _ p (fun b => b <| ref := 1 |>) |>).
    assert (Hs1 : forall x, x <> p -> structs s1 x = structs s x)
      by (intros x Hx; unfold s1; rewrite structs_set, upd_at_other, structs_set, upd_at_other, structs_mm by assumption; reflexivity).
    pose proof (alloc_head_building s s1 m' p bs n off Hoff Hn Ho' Hnc eq_refl) as Hb.
    assert (Hp1 : structs s1 p = (s.(structs) p) <| type := PBUF_POOL |> <| next := 0 |>
      <| payload := p + (SIZEOF_STRUCT_PBUF + off) |> <| tot_len := n |>
      <| len := Z.min n (PBUF_POOL_BUFSIZE_ALIGNED - off) |> <| ref := 1 |>)
      by (unfold s1; now rewrite structs_set, upd_at_same, structs_set, upd_at_same, structs_mm).
    specialize (Hb Hp1).
    edestruct (alloc_tail_spec (Z.to_nat n)) as (ok & s2 & E2 & Hfr & H2); [exact Hb|pbuf_numbers; lia..|pbuf_numbers; cbn; lia|].
    rewrite (bind_ok _ _ _ _ _ E2). do 2 eexists. split; [reflexivity|].
    split.
    { apply (frame_trans s s1); [|assumption]. split; [reflexivity|]. intros b Hbs. apply Hs1.
      exact (owns_disjoint _ [p] bs p b Ho' (or_introl eq_refl) Hbs). }
    destruct ok; [|left; now split]. right. destruct H2 as (r' & l' & Hb2 & H3 & _ & H5).
    exists r', l'. split; [assumption|]. rewrite H5, H3, Hp1. now split.
  - destruct (pool_is_empty_spec (s <| mm := m' |>)) as (s1 & E1 & Hs1 & Hd1 & Hm1).
    rewrite (bind_ok _ _ _ _ _ E1). do 2 eexists. split; [reflexivity|]. split.
    + split; [exact Hd1|]. intros b _. now rewrite Hs1.
    + left. split; [reflexivity|]. now rewrite Hm1.
Qed.

(** C16: [pbuf_alloc] of type PBUF_POOL, when no free pool element carries a
    stale custom flag: it returns NULL and the memory that was taken is back
    in the pool, or a chain of pool pbufs with one reference each, whose length
    fields add up to the requested length, whose payloads lie in their own
    blocks, and whose first payload leaves room for the headers of the layer.
    Nothing else that is allocated changes. *)
Theorem pbuf_alloc_pool s bs layer n : owns s.(mm) bs -> 0 <= n < 65536 ->
  (forall a, ~ In a (map b_addr bs) -> not_custom (s.(structs) a)) ->
  exists p s', pbuf_alloc layer n PBUF_POOL s = Ok (p, s') /\ frame s s' bs /\
    ((p = 0 /\ owns s'.(mm) bs) \/
     (exists l, chain s'.(structs) p l /\ lengths s'.(structs) 0 l /\ Forall (pool_pbuf s'.(structs)) l /\
        owns s'.(mm) (pool_blocks l ++ bs) /\ (s'.(structs) p).(tot_len) = n /\
        (s'.(structs) p).(payload) = p + SIZEOF_STRUCT_PBUF + layer_offset layer)).
Proof.
  intros Ho Hn Hnc. unfold pbuf_alloc.
  destruct (alloc_pool_spec s bs n _ Ho Hn (layer_offset_range layer) Hnc) as (p & s1 & E & Hfr & H).
  rewrite (bind_ok _ _ _ _ _ E). destruct H as [[-> Ho1]|(r & l & Hb & Ht & Hpl)].
  - do 2 eexists. split; [reflexivity|]. split; [assumption|]. now left.
  - destruct (building_head _ _ _ _ _ _ Hb) as (Hin & -> & _). unfold upds. rewrite bind_modify.
    do 2 eexists. split; [reflexivity|]. destruct Hb as [Hc _ Hl Hp Ho1].
    set (s2 := s1 <| structs := _ |>). change (mm s2) with (mm s1). unfold frame. change (data s2) with (data s1).
    unfold s2. rewrite structs_set.
    assert (Hu : forall x, let b' := upd_at (structs s1) p (fun b => b <| ref := 1 |> <| flags := 0 |>) x in
      b' = (structs s1 x) <| ref := b'.(ref) |> <| flags := b'.(flags) |> /\
      (x = p -> b'.(ref) = 1 /\ b'.(flags) = 0) /\ (x <> p -> b' = structs s1 x)).
    { intros x. unfold upd_at. destruct (Z.eqb_spec x p) as [->|Hne]; cbv zeta; [now repeat split|].
      split; [now destruct (structs s1 x)|]. now split. }
    split; [|right; exists l; repeat split].
    + destruct Hfr as [Hd Hfr]. split; [exact Hd|]. intros b Hbs. rewrite (proj2 (proj2 (Hu _))); [now apply Hfr|].
      intros Hbp. exact (owns_disjoint _ _ _ _ _ Ho1 Hin Hbs Hbp).
    + apply (chain_ext (structs s1)); [|assumption]. intros a _. now rewrite (proj1 (Hu a)).
    + apply (lengths_ext (structs s1)); [|assumption]. intros a _. now rewrite (proj1 (Hu a)).
    + rewrite Forall_forall in *. intros a Ha. destruct (Hp a Ha) as (H1 & H2 & H3 & H4). unfold pool_pbuf, not_custom.
      destruct (Z.eq_dec a p) as [->|Hne]; [|now rewrite (proj2 (proj2 (Hu a)) Hne)].
      destruct (proj1 (proj2 (Hu p)) eq_refl) as [-> ->]. split; [reflexivity|]. split; [reflexivity|].
      rewrite (proj1 (Hu p)). exact (conj H3 H4).
    + assumption.
    + now rewrite (proj1 (Hu p)).
    + rewrite (proj1 (Hu p)). cbn [payload with_field]. rewrite Hpl. lia.
Qed.

(** ** Reference counts *)

(** A chain whose structs changed in other fields only, or elsewhere. *)
Lemma chain_suffix f f' l1 l2 p : chain f p (l1 ++ l2) ->
  (forall a, In a l2 -> (f' a).(next) = (f a).(next)) -> chain f' (hd 0 l2) l2.
Proof.
  intros Hc He. destruct (chain_app f l1 p l2 Hc) as (q & Hq & _).
  replace (hd 0 l2) with q; [now apply (chain_ext f)|].
  destruct l2 as [|b l2]; cbn [chain hd] in *; [assumption|now destruct Hq].
Qed.

(** [pbuf_free] on a chain gives back the memory of exactly the leading
    pbufs that have one reference, takes one reference from the pbuf after
    them, and leaves the rest of the chain linked.  The result is the number
    of freed pbufs modulo 256. *)
Theorem pbuf_free_releases s p l1 l2 sz bs fuel :
  chain s.(structs) p (l1 ++ l2) -> l1 ++ l2 <> [] -> NoDup (l1 ++ l2) ->
  Forall (fun a => (s.(structs) a).(ref) = 1 /\ not_custom (s.(structs) a)) l1 ->
  match l2 with [] => True | a :: _ => 1 < (s.(structs) a).(ref) < 65536 end ->
  owns s.(mm) (held s.(structs) sz l1 ++ bs) -> (length l1 < fuel)%nat ->
  exists s', pbuf_free fuel p s = Ok (Z.of_nat (length l1) mod 256, s') /\
    owns s'.(mm) bs /\ s'.(data) = s.(data) /\ chain s'.(structs) (hd 0 l2) l2 /\
    (forall a, ~ In a l1 -> (s'.(structs) a).(ref) =
       (s.(structs) a).(ref) - if a =? hd 0 l2 then Z.b2z (negb (a =? 0)) else 0).
Proof.
  intros Hc Hne Hnd H1 H2 Ho Hf.
  destruct (free_loop_spec sz bs l2 l1 fuel p 0 s Hc Hnd H1 H2 Ho Hf ltac:(lia)) as (s' & E & Ho' & Hd & Hs).
  exists s'. unfold pbuf_free. replace (p =? 0) with false.
  2:{ destruct l1 as [|a l1]; [destruct l2 as [|a l2]; [contradiction|]|];
        destruct (chain_nonnull _ _ _ _ Hc) as [_ Hp]; now symmetry. }
  split; [exact E|]. split; [assumption|]. split; [assumption|]. split.
  - apply (chain_suffix s.(structs) s'.(structs) l1 l2 p Hc). intros a Ha. rewrite Hs.
    + destruct l2 as [|b l2]; [reflexivity|]. now destruct (a =? b).
    + intros Hin. apply in_split in Ha. destruct Ha as (l3 & l4 & ->). rewrite app_assoc in Hnd.
      apply NoDup_remove_2 in Hnd. apply Hnd. rewrite !in_app_iff. auto.
  - intros a Ha. rewrite (Hs a Ha). destruct l2 as [|b l2]; cbn [hd].
    + destruct (Z.eqb_spec a 0); cbn; lia.
    + destruct (Z.eqb_spec a b) as [->|_]; [|lia].
      destruct (chain_suffix s.(structs) s.(structs) l1 (b :: l2) p Hc (fun _ _ => eq_refl)) as (_ & Hb0 & _).
      rewrite (proj2 (Z.eqb_neq _ _) Hb0). reflexivity.
Qed.

(** The branch of [pbuf_dechain] for a pbuf with a successor. *)
Lemma dechain_tail s p q t l1 l2 sz bs fuel : l1 ++ l2 = q :: t ->
  chain s.(structs) q (q :: t) -> ~ In p (q :: t) -> NoDup (q :: t) ->
  (s.(structs) q).(tot_len) = (s.(structs) p).(tot_len) - (s.(structs) p).(len) ->
  Forall (fun a => (s.(structs) a).(ref) = 1 /\ not_custom (s.(structs) a)) l1 ->
  match l2 with [] => True | a :: _ => 1 < (s.(structs) a).(ref) < 65536 end ->
  owns s.(mm) (held s.(structs) sz l1 ++ bs) -> (length l1 < fuel)%nat ->
  exists s', (do qb <- get q;
     LWIP_ASSERT (qb.(tot_len) =? (s.(structs) p).(tot_len) - (s.(structs) p).(len)) ;;
     upds q (fun x => x <| tot_len := u16 ((s.(structs) p).(tot_len) - (s.(structs) p).(len)) |>) ;;
     upds p (fun x => x <| next := 0 |> <| tot_len := x.(len) |>) ;;
     pbuf_free fuel q) s = Ok (Z.of_nat (length l1) mod 256, s') /\
    owns s'.(mm) bs /\ s'.(data) = s.(data) /\
    s'.(structs) p = (s.(structs) p) <| next := 0 |> <| tot_len := (s.(structs) p).(len) |>.
Proof.
  intros Et Hc Hni Hnd Htq H1 H2 Ho Hf. destruct (chain_nonnull _ _ _ _ Hc) as [_ Hq0].
  set (f2 := upd_at (upd_at (structs s) q (fun x => x <| tot_len := u16 (tot_len (structs s p) - len (structs s p)) |>))
               p (fun x => x <| next := 0 |> <| tot_len := x.(len) |>)).
  assert (Hpq : p <> q) by (intros ->; apply Hni; now left).
  assert (Hf2p : f2 p = (structs s p) <| next := 0 |> <| tot_len := (structs s p).(len) |>)
    by (unfold f2; now rewrite upd_at_same, upd_at_other).
  assert (Hf2 : forall a, a <> p -> f2 a = (structs s a) <| tot_len := (f2 a).(tot_len) |>).
  { intros a Ha. unfold f2. rewrite (upd_at_other _ p) by assumption. unfold upd_at.
    destruct (Z.eqb_spec a q) as [->|_]; [reflexivity|now destruct (structs s a)]. }
  assert (Hin : forall a, In a (q :: t) -> a <> p) by (intros a Ha ->; contradiction).
  destruct (free_loop_spec sz bs l2 l1 fuel q 0 (s <| structs := f2 |>)) as (s3 & E3 & Ho3 & Hd3 & Hs3);
    rewrite ?structs_set, ?Et; try assumption; try lia.
  - apply (chain_ext (structs s)); [|now cbn [chain]]. intros a Ha. now rewrite (Hf2 a (Hin a Ha)).
  - rewrite Forall_forall in *. intros a Ha. unfold not_custom.
    rewrite (Hf2 a) by (apply Hin; rewrite <- Et; apply in_app_iff; now left). exact (H1 a Ha).
  - destruct l2 as [|b l2]; [exact I|].
    rewrite (Hf2 b) by (apply Hin; rewrite <- Et; apply in_app_iff; right; now left). exact H2.
  - rewrite (held_ext (structs s)); [exact Ho|]. intros a Ha.
    now rewrite (Hf2 a) by (apply Hin; rewrite <- Et; apply in_app_iff; now left).
  - assert (Hp3 : structs s3 p = f2 p).
    { rewrite Hs3 by (intros Ha; apply Hni; rewrite <- Et; apply in_app_iff; now left). rewrite structs_set.
      destruct l2 as [|b l2]; [reflexivity|]. replace (p =? b) with false; [reflexivity|].
      symmetry. apply Z.eqb_neq. intros ->. apply Hni. rewrite <- Et. apply in_app_iff. right. now left. }
    exists s3. split; [|split; [assumption|split; [assumption|now rewrite Hp3]]].
    unfold get, upds. rewrite bind_gets, bind_lwip_assert, !bind_modify by (now apply Z.eqb_eq).
    unfold pbuf_free. rewrite Hq0. exact E3.
Qed.

(** [pbuf_dechain] makes the first pbuf a packet of its own and drops its
    reference to the tail.  The result is NULL when pbufs of the tail were
    freed and the tail otherwise, except that the 8-bit count of
    [pbuf_free] wraps: when a multiple of 256 pbufs is freed, a pointer to
    the first of the freed pbufs is returned. *)
Theorem pbuf_dechain_detaches s p l1 l2 sz bs fuel :
  chain s.(structs) p (p :: l1 ++ l2) -> NoDup (p :: l1 ++ l2) ->
  lengths s.(structs) 0 (p :: l1 ++ l2) -> (s.(structs) p).(tot_len) < 65536 ->
  Forall (fun a => (s.(structs) a).(ref) = 1 /\ not_custom (s.(structs) a)) l1 ->
  match l2 with [] => True | a :: _ => 1 < (s.(structs) a).(ref) < 65536 end ->
  owns s.(mm) (held s.(structs) sz l1 ++ bs) -> (length l1 < fuel)%nat ->
  exists s', pbuf_dechain fuel p s =
      Ok (match l1 ++ l2 with
          | q :: _ => if Z.of_nat (length l1) mod 256 =? 0 then q else 0
          | [] => 0
          end, s') /\
    owns s'.(mm) bs /\ chain s'.(structs) p [p] /\ lengths s'.(structs) 0 [p] /\ s'.(data) = s.(data).
Proof.
  intros (_ & Hp0 & Hc) Hnd (Hl0 & Ht & Hl) Htb H1 H2 Ho Hf. unfold pbuf_dechain, get. rewrite bind_gets.
  apply NoDup_cons_iff in Hnd. destruct Hnd as [Hni Hnd].
  destruct (l1 ++ l2) as [|q t] eqn:Et.
  - cbn [chain] in Hc. rewrite Hc. change (negb (0 =? 0)) with false. cbv iota. rewrite bind_ret, bind_gets.
    cbn [total] in Ht. rewrite bind_lwip_assert by (apply Z.eqb_eq; lia).
    apply app_eq_nil in Et. destruct Et as [-> ->]. exists s. split; [reflexivity|].
    split; [exact Ho|]. cbn [chain lengths total]. repeat split; (assumption || lia).
  - destruct (chain_nonnull _ _ _ _ Hc) as [Hq Hq0]. rewrite Hq in *. rewrite Hq0. cbn [negb].
    cbn [lengths] in Hl. destruct Hl as (Hlq & Htq & Hl). cbn [total] in Ht, Htq.
    destruct (dechain_tail s p q t l1 l2 sz bs fuel Et Hc Hni Hnd ltac:(lia) H1 H2 Ho Hf) as (s3 & E3 & Ho3 & Hd3 & Hp3).
    rewrite (bind_ok _ _ _ _ _ E3), bind_gets, Hp3, bind_lwip_assert by (apply Z.eqb_refl). exists s3.
    split; [|split; [assumption|]].
    + unfold ret. rewrite Z.gtb_ltb. pose proof (Z.mod_pos_bound (Z.of_nat (length l1)) 256 ltac:(lia)).
      destruct (Z.eqb_spec (Z.of_nat (length l1) mod 256) 0), (Z.ltb_spec 0 (Z.of_nat (length l1) mod 256)); (reflexivity || lia).
    + cbn [chain lengths total]. rewrite Hp3. cbn [next len tot_len with_field]. repeat split; (assumption || lia).
Qed.

(** ** Allocating from the heap *)

Lemma pbuf_alloc_ram_spec s bs layer n : owns s.(mm) bs -> 0 <= n < 65536 ->
  let size := SIZEOF_STRUCT_PBUF + layer_offset layer + n in
  exists p s', pbuf_alloc layer n PBUF_RAM s = Ok (p, s') /\ frame s s' bs /\
    ((p = 0 /\ owns s'.(mm) bs) \/
     (owns s'.(mm) (mkBlk Heap p (u16 size) :: bs) /\
      s'.(structs) p = mkPbuf 0 (p + SIZEOF_STRUCT_PBUF + layer_offset layer) n n PBUF_RAM 0 1 /\
      ((s'.(structs) p).(payload) + n <= p + u16 size <-> size < 65536))).
Proof.
  intros Ho Hn size. pose proof (layer_offset_range layer) as Hoff. unfold pbuf_alloc, alloc_ram.
  rewrite !align_id by (pbuf_numbers; lia). fold size.
  assert (Hsz : 0 <= u16 size < 65536) by (unfold u16; apply Z.mod_pos_bound; lia).
  destruct (heap_malloc_law _ _ (u16 size) Ho Hsz) as ([p|] & m' & E & Ho').
  - destruct (owns_fresh _ _ _ Ho') as [Hp0 Hpf]. cbn [b_addr] in *.
    rewrite (bind_ok _ _ s p (s <| mm := m' |> <| structs := upd_at (structs s) p (fun b =>
      b <| payload := p + SIZEOF_STRUCT_PBUF + layer_offset layer |> <| len := n |> <| tot_len := n |>
        <| next := 0 |> <| type := PBUF_RAM |>) |>)).
    2:{ rewrite (bind_lift _ _ _ _ _ E). cbv zeta. unfold upds.
        now rewrite bind_modify, bind_lwip_assert by (apply Z.eqb_eq, Z.mod_1_r). }
    rewrite (proj2 (Z.eqb_neq _ _) Hp0). unfold upds. rewrite bind_modify, structs_set.
    do 2 eexists. split; [reflexivity|]. split; [|right; split; [exact Ho'|]].
    + split; [reflexivity|]. intros b Hb. rewrite structs_set. assert (Hbp : b_addr b <> p)
        by (intros E1; apply Hpf; rewrite <- E1; now apply in_map). now rewrite !upd_at_other.
    + rewrite structs_set, !upd_at_same. cbn [payload with_field]. split; [reflexivity|].
      unfold size in *. unfold u16. pbuf_numbers.
      split; intros H; [|rewrite Z.mod_small; lia].
      destruct (Z.lt_ge_cases (16 + layer_offset layer + n) 65536); [assumption|].
      rewrite (Z.mod_eq _ 65536) in H by lia.
      replace ((16 + layer_offset layer + n) / 65536) with 1 in H; [lia|].
      apply (Z.div_unique _ _ _ (16 + layer_offset layer + n - 65536)); lia.
  - rewrite (bind_ok _ _ s 0 (s <| mm := m' |>)) by (now rewrite (bind_lift _ _ _ _ _ E)).
    do 2 eexists. split; [reflexivity|]. split; [now split|]. left. now split.
Qed.

(** [pbuf_alloc] of type PBUF_RAM returns NULL and allocates nothing, or
    a single pbuf of the requested length.  The size asked of the heap is
    truncated to 16 bits, so the payload lies in the allocated block exactly
    when struct, headers and length together are below 65536 bytes. *)
Theorem pbuf_alloc_ram s bs layer n : owns s.(mm) bs -> 0 <= n < 65536 ->
  let size := SIZEOF_STRUCT_PBUF + layer_offset layer + n in
  exists p s', pbuf_alloc layer n PBUF_RAM s = Ok (p, s') /\ frame s s' bs /\
    ((p = 0 /\ owns s'.(mm) bs) \/
     (owns s'.(mm) (mkBlk Heap p (u16 size) :: bs) /\
      s'.(structs) p = mkPbuf 0 (p + SIZEOF_STRUCT_PBUF + layer_offset layer) n n PBUF_RAM 0 1 /\
      ((s'.(structs) p).(payload) + n <= p + u16 size <-> size < 65536))).
Proof. apply pbuf_alloc_ram_spec. Qed.

(** ** The bytes of a packet *)

Lemma load_list_length d p n : length (load_list d p n) = Z.to_nat n.
Proof. unfold load_list. now rewrite length_map, length_seq. Qed.

Lemma nth_load d p n i : nth_error (load_list d p n) i = if (i <? Z.to_nat n)%nat then Some (d (p + Z.of_nat i)) else None.
Proof. unfold load_list. rewrite nth_error_map, nth_error_seq. now destruct (_ <? _)%nat. Qed.

Lemma load_list_part d p off k n : 0 <= off -> 0 <= k -> off + k <= n ->
  load_list d (p + off) k = firstn (Z.to_nat k) (skipn (Z.to_nat off) (load_list d p n)).
Proof.
  intros Ho Hk Hn. apply nth_error_ext. intros i. rewrite nth_error_firstn, nth_error_skipn, !nth_load.
  destruct (Nat.ltb_spec i (Z.to_nat k)); [|reflexivity].
  replace (Z.to_nat off + i <? Z.to_nat n)%nat with true by (symmetry; apply Nat.ltb_lt; lia).
  do 2 f_equal. lia.
Qed.

Lemma content_length f d l : Forall (fun a => 0 <= (f a).(len)) l -> Z.of_nat (length (content f d l)) = total f l.
Proof.
  intros Hl. induction Hl as [|a t Ha _ IH]; [reflexivity|].
  unfold content in *. cbn [map concat total]. rewrite length_app, load_list_length. lia.
Qed.

(** The loop appends the bytes of the slice. *)
Lemma copy_partial_loop_spec s l : forall fuel p n off copied out,
  chain s.(structs) p l -> Forall (fun a => 0 <= (s.(structs) a).(len) < 65536) l ->
  0 <= n -> 0 <= off < 65536 -> 0 <= copied -> copied + n < 65536 -> (length l < fuel)%nat ->
  let bytes := firstn (Z.to_nat n) (skipn (Z.to_nat off) (content s.(structs) s.(data) l)) in
  copy_partial_loop fuel p n off copied out s = Ok ((copied + Z.of_nat (length bytes), out ++ bytes), s).
Proof.
  induction l as [|a l IH]; intros fuel p n off copied out Hc Hl Hn Hoff Hcp Hsum Hf;
    (destruct fuel as [|fuel]; [cbn in Hf; lia|]); cbn [copy_partial_loop].
  - cbn [chain] in Hc. rewrite Hc. change (negb (0 =? 0)) with false. rewrite andb_false_r.
    cbn [content map concat]. unfold content. cbn [map concat]. rewrite skipn_nil, firstn_nil, app_nil_r.
    cbn [length]. now rewrite Z.add_0_r.
  - destruct (Z.eqb_spec n 0) as [->|Hn0]; cbn [negb andb].
    { cbn [firstn Z.to_nat length]. rewrite app_nil_r, Z.add_0_r. reflexivity. }
    destruct (chain_nonnull _ _ _ _ Hc) as [-> ->]. destruct Hc as (_ & _ & Hc). cbn [negb].
    apply Forall_cons_iff in Hl. destruct Hl as [Ha Hl]. unfold get. rewrite bind_gets.
    assert (Hcont : content s.(structs) s.(data) (a :: l) =
      load_list s.(data) (s.(structs) a).(payload) (s.(structs) a).(len) ++ content s.(structs) s.(data) l) by reflexivity.
    set (la := len (structs s a)) in *. set (pa := payload (structs s a)) in *. rewrite Z.geb_leb.
    destruct (negb (off =? 0) && (la <=? off)) eqn:Hskip.
    + apply andb_prop in Hskip. destruct Hskip as [Ho0 Hle]. apply Z.leb_le in Hle.
      rewrite u16_id by word_lia. cbn [length] in Hf.
      rewrite (IH fuel _ n (off - la) copied out Hc Hl Hn ltac:(lia) Hcp Hsum ltac:(lia)).
      rewrite Hcont, skipn_app, load_list_length, (skipn_all2 (load_list (data s) pa la)) by (rewrite load_list_length; lia).
      cbn [app].
      now replace (Z.to_nat off - Z.to_nat la)%nat with (Z.to_nat (off - la)) by lia.
    + assert (Hoa : off < la \/ off = 0).
      { apply andb_false_iff in Hskip. destruct Hskip as [H|H]; [right|left].
        - apply negb_false_iff, Z.eqb_eq in H. exact H.
        - now apply Z.leb_gt in H. }
      rewrite (u16_id (la - off)) by word_lia. cbv zeta. rewrite bind_gets, Z.gtb_ltb.
      set (k := if n <? la - off then n else la - off).
      assert (Hk : k = Z.min n (la - off)) by (unfold k; destruct (Z.ltb_spec n (la - off)); lia).
      rewrite !u16_id by word_lia. cbn [length] in Hf.
      rewrite (IH fuel _ (n - k) 0 (copied + k) _ Hc Hl ltac:(lia) ltac:(lia) ltac:(lia) ltac:(lia) ltac:(lia)).
      rewrite Hcont, skipn_app, firstn_app, length_skipn, load_list_length, <- app_assoc.
      rewrite (load_list_part _ pa off k la) by lia.
      replace (Z.to_nat off - Z.to_nat la)%nat with 0%nat by lia. cbn [skipn Z.to_nat].
      replace (firstn (Z.to_nat n) (skipn (Z.to_nat off) (load_list (data s) pa la)))
        with (firstn (Z.to_nat k) (skipn (Z.to_nat off) (load_list (data s) pa la))).
      2:{ destruct (Z.lt_ge_cases n (la - off)); [f_equal; lia|].
          rewrite !firstn_all2; rewrite ?length_skipn, ?load_list_length; try reflexivity; lia. }
      replace (Z.to_nat n - (Z.to_nat la - Z.to_nat off))%nat with (Z.to_nat (n - k)) by lia.
      change (skipn (Z.to_nat 0) ?x) with x. set (rest := firstn (Z.to_nat (n - k)) _).
      assert (Hlen : length (firstn (Z.to_nat k) (skipn (Z.to_nat off) (load_list (data s) pa la))) = Z.to_nat k)
        by (rewrite length_firstn, length_skipn, load_list_length; lia).
      rewrite length_app, Hlen. do 3 f_equal. lia.
Qed.

(** *** Filling a packet *)

(** [x] lies in the payload of [a]. *)
Definition in_payload (f : Z -> pbuf) (a x : Z) : Prop := (f a).(payload) <= x < (f a).(payload) + (f a).(len).

(** The payloads of the chain do not overlap. *)
Definition payloads_apart (f : Z -> pbuf) : list Z -> Prop :=
  ForallOrdPairs (fun a b => forall x, in_payload f a x -> ~ in_payload f b x).

Lemma load_ext d d' p n : (forall x, p <= x < p + n -> d' x = d x) -> load_list d' p n = load_list d p n.
Proof. intros He. apply map_ext_in. intros i Hi%in_seq. apply He. lia. Qed.

Lemma content_ext f d d' l : (forall a x, In a l -> in_payload f a x -> d' x = d x) ->
  content f d' l = content f d l.
Proof.
  intros He. unfold content. f_equal. apply map_ext_in. intros a Ha. apply load_ext. intros. now apply (He a).
Qed.

Lemma load_store d p l n : Z.of_nat (length l) <= n ->
  load_list (store_list p l d) p n = l ++ skipn (length l) (load_list d p n).
Proof.
  intros Hl. apply nth_error_ext. intros i. rewrite nth_load. unfold store_list.
  replace (p <=? p + Z.of_nat i) with true by (symmetry; apply Z.leb_le; lia). cbn [andb].
  destruct (Nat.ltb_spec i (length l)) as [Hi|Hi].
  - rewrite nth_error_app1 by assumption.
    replace (p + Z.of_nat i <? p + Z.of_nat (length l)) with true by (symmetry; apply Z.ltb_lt; lia).
    replace (i <? Z.to_nat n)%nat with true by (symmetry; apply Nat.ltb_lt; lia).
    replace (Z.to_nat (p + Z.of_nat i - p)) with i by lia. symmetry. now apply nth_error_nth'.
  - rewrite nth_error_app2 by assumption.
    replace (p + Z.of_nat i <? p + Z.of_nat (length l)) with false by (symmetry; apply Z.ltb_ge; lia).
    rewrite nth_error_skipn, nth_load. now replace (length l + (i - length l))%nat with i by lia.
Qed.

Lemma store_other d p l x : ~ p <= x < p + Z.of_nat (length l) -> store_list p l d x = d x.
Proof.
  intros Hx. unfold store_list. destruct (Z.leb_spec p x), (Z.ltb_spec x (p + Z.of_nat (length l))); try reflexivity. lia.
Qed.

(** A store of a list, at one of its positions. *)
Lemma store_at d a l i x : x = a + Z.of_nat i -> (i < length l)%nat -> store_list a l d x = nth i l 0.
Proof.
  intros -> Hi. unfold store_list. rewrite (proj2 (Z.leb_le _ _)), (proj2 (Z.ltb_lt _ _)) by lia. cbn [andb]. f_equal. lia.
Qed.

(** Overwriting a packet whose first pbuf holds [la]: [k] bytes go there, the
    others to the rest [ct]. *)
Lemma take_bytes (la ct bytes : list Z) n k : k = Nat.min n (length la) ->
  (firstn k bytes ++ skipn k la) ++ firstn (n - k) (skipn k bytes) ++ skipn (n - k) ct =
  firstn n bytes ++ skipn n (la ++ ct).
Proof.
  intros ->. rewrite skipn_app, <- app_assoc. destruct (Nat.le_ge_cases n (length la)) as [Hle|Hge].
  - rewrite Nat.min_l by assumption. now replace (n - n)%nat with 0%nat by lia; replace (n - length la)%nat with 0%nat by lia.
  - rewrite Nat.min_r by assumption. rewrite (skipn_all la), (skipn_all2 la) by assumption. cbn [app].
    rewrite app_assoc. f_equal. replace n with (length la + (n - length la))%nat at 2 by lia.
    rewrite <- (firstn_skipn (length la) (firstn (length la + _) bytes)).
    now rewrite firstn_firstn, Nat.min_l, firstn_skipn_comm by lia.
Qed.

Lemma take_loop_spec l : forall s fuel p n bytes,
  chain s.(structs) p l -> Forall (fun a => 0 <= (s.(structs) a).(len) < 65536) l ->
  payloads_apart s.(structs) l -> 0 <= n < 65536 -> n <= total s.(structs) l ->
  n <= Z.of_nat (length bytes) -> (length l < fuel)%nat ->
  exists d', take_loop fuel p n bytes s = Ok (tt, s <| data := d' |>) /\
    content s.(structs) d' l = firstn (Z.to_nat n) bytes ++ skipn (Z.to_nat n) (content s.(structs) s.(data) l) /\
    (forall x, (forall a, In a l -> ~ in_payload s.(structs) a x) -> d' x = s.(data) x).
Proof.
  assert (H0 : forall s : pst, s = s <| data := s.(data) |>) by (now intros []).
  induction l as [|a l IH]; intros s fuel p n bytes Hc Hl Hap Hn Ht Hb Hf;
    (destruct fuel as [|fuel]; [cbn in Hf; lia|]); cbn [take_loop].
  - cbn [total] in Ht. replace n with 0 by lia. exists s.(data). split; [now rewrite <- H0|]. now split.
  - destruct (Z.eqb_spec n 0) as [->|Hn0].
    { exists s.(data). split; [now rewrite <- H0|]. now split. }
    destruct (chain_nonnull _ _ _ _ Hc) as [-> Hp0]. destruct Hc as (_ & _ & Hc). rewrite Hp0.
    rewrite bind_lwip_assert by reflexivity. unfold get. rewrite bind_gets, bind_modify, Z.gtb_ltb.
    apply Forall_cons_iff in Hl. destruct Hl as [Ha Hl]. inversion Hap as [|? ? Hapa Hapl]; subst. rewrite Forall_forall in Hapa.
    set (la := len (structs s a)) in *. set (pa := payload (structs s a)) in *.
    set (k := if la <? n then la else n).
    assert (Hk : k = Z.min n la) by (unfold k; destruct (Z.ltb_spec la n); lia).
    set (d1 := store_list pa (firstn (Z.to_nat k) bytes) (data s)).
    assert (Hfk : length (firstn (Z.to_nat k) bytes) = Z.to_nat k) by (rewrite length_firstn; lia).
    rewrite u16_id by word_lia. cbn [total] in Ht. fold la in Ht. cbn [length] in Hf.
    destruct (IH (s <| data := d1 |>) fuel (next (structs s a)) (n - k) (skipn (Z.to_nat k) bytes))
      as (d' & E & Hcont & Hfr); try assumption; cbn [structs data with_field] in *; try lia.
    { destruct (Z.lt_ge_cases la n); [lia|]. replace (n - k) with 0 by lia.
      clear - Hl. induction l as [|b l IHl]; cbn [total]; [lia|]. apply Forall_cons_iff in Hl. destruct Hl. specialize (IHl H0). lia. }
    { rewrite length_skipn. lia. }
    exists d'. split; [exact E|].
    assert (Hd1 : forall x, ~ in_payload (structs s) a x -> d1 x = data s x).
    { intros x Hx. apply store_other. rewrite Hfk. unfold in_payload in Hx. fold la pa in Hx. lia. }
    assert (Hsplit : content (structs s) d' (a :: l) = load_list d' pa la ++ content (structs s) d' l) by reflexivity.
    assert (Hd'a : load_list d' pa la = firstn (Z.to_nat k) bytes ++ skipn (Z.to_nat k) (load_list (data s) pa la)).
    { rewrite (load_ext d1 d').
      - unfold d1. rewrite load_store by (rewrite Hfk; lia). now rewrite Hfk.
      - intros x Hx. apply Hfr. intros b Hbl Hin. exact (Hapa b Hbl x Hx Hin). }
    rewrite Hsplit, Hd'a, Hcont, (content_ext _ (data s) d1) by (intros b x Hbl Hin; apply Hd1; intros Hx; exact (Hapa b Hbl x Hx Hin)).
    split.
    + replace (Z.to_nat (n - k)) with (Z.to_nat n - Z.to_nat k)%nat by lia.
      apply (take_bytes _ _ _ (Z.to_nat n)). rewrite load_list_length. lia.
    + intros x Hx. rewrite Hfr by (intros b Hbl; apply Hx; now right). apply Hd1, Hx. now left.
Qed.

Lemma lengths_range f a t : lengths f 0 (a :: t) -> (f a).(tot_len) < 65536 ->
  Forall (fun x => 0 <= (f x).(len) < 65536) (a :: t).
Proof.
  intros H Hb. assert (G : forall l, lengths f 0 l -> Forall (fun x => 0 <= (f x).(len) <= total f l) l /\ 0 <= total f l).
  { induction l as [|x l IH]; cbn [lengths total]; [now split|]. intros (H0 & _ & Hl).
    destruct (IH Hl) as [IH1 IH2]. split; [|lia]. constructor; [lia|].
    eapply Forall_impl; [|exact IH1]. cbv beta. intros. lia. }
  destruct (G _ H) as [G1 _]. destruct H as (_ & Ht & _). eapply Forall_impl; [|exact G1]. cbv beta. intros. lia.
Qed.

(** [pbuf_copy_partial] copies the part of the packet that starts at the
    offset and has the requested length, or what there is of it, and returns
    the number of bytes copied. *)
Theorem pbuf_copy_partial_slice s fuel p l n off :
  chain s.(structs) p l -> l <> [] -> Forall (fun a => 0 <= (s.(structs) a).(len) < 65536) l ->
  0 <= n < 65536 -> 0 <= off < 65536 -> (length l < fuel)%nat ->
  let bytes := firstn (Z.to_nat n) (skipn (Z.to_nat off) (content s.(structs) s.(data) l)) in
  pbuf_copy_partial fuel p true n off s = Ok ((Z.of_nat (length bytes), bytes), s).
Proof.
  intros Hc Hne Hl Hn Hoff Hf bytes. unfold pbuf_copy_partial.
  destruct l as [|a l]; [contradiction|]. destruct (chain_nonnull _ _ _ _ Hc) as [_ Hp0].
  rewrite !lwip_error_ok by (now rewrite ?Hp0).
  now rewrite (copy_partial_loop_spec s (a :: l) fuel p n off 0 [] Hc Hl) by (assumption || lia).
Qed.

(** [pbuf_take] writes the data to the front of the packet and leaves
    the rest of it, and every byte outside its payloads, alone; copying the
    same number of bytes back gives the data.  A packet that is too short is
    refused: with assertions the program stops, without them the result is
    ERR_MEM and nothing is written. *)
Theorem pbuf_take_roundtrip s fuel p l data' :
  chain s.(structs) p l -> l <> [] -> lengths s.(structs) 0 l -> (s.(structs) p).(tot_len) < 65536 ->
  payloads_apart s.(structs) l -> (length l < fuel)%nat -> Z.of_nat (length data') < 65536 ->
  let n := Z.of_nat (length data') in
  if n <=? (s.(structs) p).(tot_len)
  then exists s', pbuf_take fuel p (Some data') n s = Ok (ERR_OK, s') /\ s'.(structs) = s.(structs) /\
    content s'.(structs) s'.(data) l = data' ++ skipn (length data') (content s.(structs) s.(data) l) /\
    (forall x, (forall a, In a l -> ~ in_payload s.(structs) a x) -> s'.(data) x = s.(data) x) /\
    pbuf_copy_partial fuel p true n 0 s' = Ok ((n, data'), s')
  else pbuf_take fuel p (Some data') n s = if NOASSERT then Ok (ERR_MEM, s) else Halt.
Proof.
  intros Hc Hne Hlen Hsm Hap Hf Hn n. unfold pbuf_take, get. rewrite bind_gets.
  assert (Hpl : exists a t, l = a :: t) by (destruct l as [|a t]; [contradiction|now exists a, t]).
  destruct Hpl as (a & t & ->). destruct (chain_nonnull _ _ _ _ Hc) as [-> Hp0].
  rewrite lwip_error_ok by (now rewrite Hp0). rewrite Z.geb_leb.
  destruct (Z.leb_spec n (tot_len (structs s a))) as [Hle|Hgt]; [|unfold LWIP_ERROR; now destruct NOASSERT].
  rewrite lwip_error_ok by reflexivity.
  pose proof (lengths_range _ _ _ Hlen Hsm) as Hl. destruct Hlen as (_ & Ht & _).
  destruct (take_loop_spec (a :: t) s fuel a n data' Hc Hl Hap) as (d' & E & Hcont & Hfr); try assumption; try lia.
  rewrite (bind_ok _ _ _ _ _ E). set (s' := s <| data := d' |>). exists s'. split; [reflexivity|].
  change (structs s') with (structs s). change (data s') with d'.
  replace (Z.to_nat n) with (length data') in Hcont by lia. rewrite firstn_all in Hcont.
  split; [reflexivity|]. split; [exact Hcont|]. split; [exact Hfr|].
  unfold pbuf_copy_partial. rewrite !lwip_error_ok by (now rewrite ?Hp0).
  rewrite (copy_partial_loop_spec s' (a :: t) fuel a n 0 0 [] Hc Hl) by lia.
  change (structs s') with (structs s). change (data s') with d'. change (skipn (Z.to_nat 0) ?x) with x. rewrite Hcont.
  replace (Z.to_nat n) with (length data') by lia.
  rewrite firstn_app, Nat.sub_diag, firstn_all, firstn_O, app_nil_r. reflexivity.
Qed.

(** ** What the drivers use *)

(** A pbuf from the pool that holds the request in one piece. *)
Lemma pbuf_alloc_single s bs layer n : owns s.(mm) bs -> 0 <= n -> n + layer_offset layer <= PBUF_POOL_BUFSIZE_ALIGNED ->
  exists p s', pbuf_alloc layer n PBUF_POOL s = Ok (p, s') /\ s'.(data) = s.(data) /\
    ((p = 0 /\ s'.(structs) = s.(structs) /\ owns s'.(mm) bs) \/
     (p <> 0 /\ owns s'.(mm) (mkBlk (Pool MEMP_PBUF_POOL) p (pool_size MEMP_PBUF_POOL) :: bs) /\
      s'.(structs) p = mkPbuf 0 (p + SIZEOF_STRUCT_PBUF + layer_offset layer) n n PBUF_POOL 0 1 /\
      forall a, a <> p -> s'.(structs) a = s.(structs) a)).
Proof.
  intros Ho Hn Hfit. pose proof (layer_offset_range layer) as Hoff. unfold pbuf_alloc, alloc_pool.
  rewrite (align_id (layer_offset layer)) by lia.
  destruct (pool_malloc_law _ _ MEMP_PBUF_POOL Ho) as ([p|] & m' & E & Ho').
  - destruct (owns_fresh _ _ _ Ho') as [Hp0 _]. cbn [b_addr] in Hp0.
    erewrite bind_ok.
    2:{ rewrite (bind_lift _ _ _ _ _ E). cbv zeta. unfold upds. rewrite Z.min_l by lia.
        rewrite bind_modify, !bind_lwip_assert by ((apply Z.eqb_eq, Z.mod_1_r) || (pbuf_numbers; apply Z.leb_le; lia) ||
          (pbuf_numbers; apply Z.gtb_lt; lia)).
        rewrite bind_modify, Z.sub_diag. destruct (Z.to_nat n); reflexivity. }
    rewrite (proj2 (Z.eqb_neq _ _) Hp0). unfold upds. rewrite bind_modify, !structs_set, structs_mm.
    do 2 eexists. split; [reflexivity|]. split; [reflexivity|]. right. split; [assumption|]. split; [exact Ho'|].
    rewrite structs_set. split.
    + rewrite !upd_at_same. now rewrite Z.add_assoc.
    + intros a Ha. now rewrite !upd_at_other.
  - destruct (pool_is_empty_spec (s <| mm := m' |>)) as (s1 & E1 & Hs1 & Hd1 & Hm1).
    rewrite (bind_ok _ _ s 0 s1) by (rewrite (bind_lift _ _ _ _ _ E), (bind_ok _ _ _ _ _ E1); reflexivity).
    do 2 eexists. split; [reflexivity|]. split; [exact Hd1|]. left. split; [reflexivity|]. split; [exact Hs1|]. now rewrite Hm1.
Qed.

(** The loop of [pbuf_cat] adds [n] to the totals of all pbufs but the last. *)
Lemma cat_loop_spec t r l0 : forall fuel s p, chain s.(structs) p (l0 ++ [r]) -> NoDup (l0 ++ [r]) -> ~ In t l0 ->
  (length l0 < fuel)%nat ->
  exists s', cat_loop fuel p t s = Ok (r, s') /\ s'.(mm) = s.(mm) /\ s'.(data) = s.(data) /\
    forall a, s'.(structs) a = if in_dec Z.eq_dec a l0
      then (s.(structs) a) <| tot_len := u16 ((s.(structs) a).(tot_len) + (s.(structs) t).(tot_len)) |>
      else s.(structs) a.
Proof.
  induction l0 as [|b l0 IH]; intros fuel s p Hc Hnd Ht Hf; (destruct fuel as [|fuel]; [lia|]); cbn [cat_loop app] in *;
    destruct Hc as (-> & Hb0 & Hc); unfold get; rewrite bind_gets.
  - cbn [chain] in Hc. rewrite Hc. change (negb (0 =? 0)) with false. cbv iota.
    exists s. now repeat split.
  - assert (Hnx : (next (structs s b) =? 0) = false).
    { destruct l0; cbn [app] in Hc; now destruct (chain_nonnull _ _ _ _ Hc). }
    rewrite Hnx. cbn [negb]. rewrite bind_gets. unfold upds. rewrite bind_modify.
    apply NoDup_cons_iff in Hnd. destruct Hnd as [Hni Hnd].
    set (s1 := s <| structs := upd_at _ b _ |>).
    assert (Hs1 : forall a, a <> b -> structs s1 a = structs s a) by (intros a Ha; unfold s1; rewrite structs_set; now apply upd_at_other).
    assert (Hb1 : structs s1 b = (structs s b) <| tot_len := u16 ((structs s b).(tot_len) + (structs s t).(tot_len)) |>)
      by (unfold s1; rewrite structs_set, upd_at_same; reflexivity).
    destruct (IH fuel s1 (next (structs s b))) as (s' & E & Hm & Hd & Hs').
    + apply (chain_ext (structs s)); [|assumption]. intros a Ha. now rewrite Hs1 by (intros ->; contradiction).
    + assumption.
    + intros Hin. apply Ht. now right.
    + cbn in Hf. lia.
    + exists s'. split; [exact E|]. split; [exact Hm|]. split; [exact Hd|]. intros a. rewrite Hs'.
      rewrite (Hs1 t) by (intros ->; apply Ht; now left).
      destruct (in_dec Z.eq_dec a l0) as [Hin|Hin], (in_dec Z.eq_dec a (b :: l0)) as [Hin'|Hin']; cbn [In] in *; try tauto.
      * rewrite Hs1; [reflexivity|]. intros ->. apply Hni, in_app_iff. now left.
      * destruct Hin' as [<-|?]; [exact Hb1|contradiction].
      * apply Hs1. intros ->. tauto.
Qed.

Lemma chain_join f f' r t lt : (f' r).(next) = t -> chain f' t lt -> forall l0 p,
  (forall a, In a l0 -> (f' a).(next) = (f a).(next)) -> chain f p (l0 ++ [r]) -> chain f' p ((l0 ++ [r]) ++ lt).
Proof.
  intros Hr Ht. induction l0 as [|a l0 IH]; intros p He; cbn [app chain].
  - intros (-> & Hr0 & _). rewrite Hr. auto.
  - intros (-> & Ha0 & Hc). split; [reflexivity|]. split; [assumption|]. rewrite He by (now left).
    apply IH; [|assumption]. intros. apply He. now right.
Qed.

Lemma lengths_join f f' lt l :
  (forall a, In a l -> (f' a).(len) = (f a).(len) /\ (f' a).(tot_len) = (f a).(tot_len) + total f' lt) ->
  lengths f' 0 lt -> lengths f 0 l -> lengths f' 0 (l ++ lt).
Proof.
  intros He Ht. induction l as [|a l IH]; cbn [app lengths]; [trivial|].
  intros (H1 & H2 & H3). destruct (He a (or_introl eq_refl)) as [El Et]. rewrite El, Et. split; [assumption|]. split.
  - rewrite H2. cbn [total]. rewrite total_app, (total_ext f f' l), El by (intros; apply He; now right). lia.
  - apply IH; [|assumption]. intros. apply He. now right.
Qed.

Lemma lengths_le f l : lengths f 0 l -> forall a, In a l -> 0 <= (f a).(len) <= (f a).(tot_len) /\ (f a).(tot_len) <= total f l.
Proof.
  assert (H0 : forall l, lengths f 0 l -> 0 <= total f l).
  { induction l0 as [|a l0 IH]; cbn [lengths total]; [lia|]. intros (? & _ & ?%IH). lia. }
  induction l as [|a l IH]; cbn [lengths total]; [contradiction|]. intros (H1 & H2 & H3) x [<-|Hx].
  - pose proof (H0 _ H3). lia.
  - destruct (IH H3 x Hx). lia.
Qed.

(** Chaining a packet to a packet. *)
Lemma pbuf_cat_spec s h l0 r t lt fuel : chain s.(structs) h (l0 ++ [r]) -> lengths s.(structs) 0 (l0 ++ [r]) ->
  NoDup (l0 ++ [r]) -> (forall a, In a lt -> ~ In a (l0 ++ [r])) -> chain s.(structs) t lt -> lt <> [] ->
  lengths s.(structs) 0 lt -> total s.(structs) (l0 ++ [r]) + total s.(structs) lt < 65536 -> (length l0 < fuel)%nat ->
  exists s', pbuf_cat fuel h t s = Ok (tt, s') /\ s'.(mm) = s.(mm) /\ s'.(data) = s.(data) /\
    chain s'.(structs) h ((l0 ++ [r]) ++ lt) /\ lengths s'.(structs) 0 ((l0 ++ [r]) ++ lt) /\
    (forall a, s'.(structs) a = (s.(structs) a) <| next := (s'.(structs) a).(next) |> <| tot_len := (s'.(structs) a).(tot_len) |>) /\
    (forall a, ~ In a (l0 ++ [r]) -> s'.(structs) a = s.(structs) a).
Proof.
  intros Hc Hl Hnd Ht Hct Hne Hlt Hsum Hf. unfold pbuf_cat.
  assert (Hh : (h =? 0) = false) by (destruct l0; now destruct (chain_nonnull _ _ _ _ Hc)).
  assert (Ht0 : (t =? 0) = false /\ In t lt /\ tot_len (structs s t) = total (structs s) lt).
  { destruct lt as [|t' lt]; [contradiction|]. destruct (chain_nonnull _ _ _ _ Hct) as [-> H0]. split; [assumption|]. split; [now left|].
    destruct Hlt as (_ & -> & _). lia. }
  destruct Ht0 as (Ht0 & Htin & Htt).
  rewrite lwip_error_ok by (rewrite Hh, Ht0; reflexivity).
  destruct (cat_loop_spec t r l0 fuel s h Hc Hnd) as (s1 & E & Hm & Hd & Hs1); [intros ?; apply (Ht t Htin), in_app_iff; now left|assumption|].
  rewrite (bind_ok _ _ _ _ _ E). unfold get, upds. rewrite bind_gets.
  assert (Hr : structs s1 r = structs s r).
  { rewrite Hs1. destruct (in_dec Z.eq_dec r l0); [|reflexivity]. apply NoDup_remove_2 in Hnd. rewrite app_nil_r in Hnd. contradiction. }
  assert (Ht1 : structs s1 t = structs s t).
  { rewrite Hs1. destruct (in_dec Z.eq_dec t l0); [|reflexivity]. exfalso. apply (Ht t Htin), in_app_iff. now left. }
  pose proof (lengths_le _ _ Hl) as Hle.
  assert (Htp : 0 <= total (structs s) lt).
  { destruct lt as [|t' lt]; [contradiction|]. destruct (lengths_le _ _ Hlt t' (or_introl eq_refl)). lia. }
  assert (Hlr : lengths (structs s) 0 [r]).
  { clear - Hl. induction l0 as [|a l0 IH]; [assumption|]. destruct Hl as (_ & _ & Hl). auto. }
  cbn [lengths total] in Hlr. destruct (chain_app _ _ _ _ Hc) as (q & (_ & _ & Hrn) & _). cbn [chain] in Hrn.
  rewrite Hr, !bind_lwip_assert by (apply Z.eqb_eq; lia). rewrite bind_gets, Ht1, !bind_modify. unfold modify. rewrite structs_set.
  eexists. split; [reflexivity|]. rewrite structs_set. split; [exact Hm|]. split; [exact Hd|].
  set (f' := upd_at _ r (fun b => b <| next := t |>)).
  assert (Hf' : forall a, f' a = if in_dec Z.eq_dec a (l0 ++ [r])
    then (structs s a) <| next := if a =? r then t else (structs s a).(next) |> <| tot_len := (structs s a).(tot_len) + total (structs s) lt |>
    else structs s a).
  { intros a. unfold f', upd_at. rewrite !Z.eqb_refl, Hr. destruct (in_dec Z.eq_dec a (l0 ++ [r])) as [Hin|Hin].
    - destruct (Hle a Hin). destruct (Z.eqb_spec a r) as [->|Hne'].
      + rewrite Htt, u16_id by word_lia. reflexivity.
      + rewrite Hs1. apply in_app_iff in Hin. destruct Hin as [Hin|[E'|[]]]; [|congruence].
        destruct (in_dec Z.eq_dec a l0); [|contradiction]. rewrite Htt, u16_id by word_lia. reflexivity.
    - rewrite in_app_iff in Hin. destruct (Z.eqb_spec a r) as [->|Hne']; [exfalso; apply Hin; right; now left|].
      rewrite Hs1. destruct (in_dec Z.eq_dec a l0); [tauto|reflexivity]. }
  clearbody f'.
  assert (Hft : forall a, In a lt -> f' a = structs s a)
    by (intros a Ha; rewrite Hf'; destruct (in_dec Z.eq_dec a (l0 ++ [r])) as [Hin|]; [destruct (Ht a Ha Hin)|reflexivity]).
  assert (Hin : forall a, In a (l0 ++ [r]) -> f' a = (structs s a) <| next := if a =? r then t else (structs s a).(next) |>
      <| tot_len := (structs s a).(tot_len) + total (structs s) lt |>)
    by (intros a Ha; rewrite Hf'; destruct (in_dec Z.eq_dec a (l0 ++ [r])); [reflexivity|contradiction]).
  assert (Htot : total f' lt = total (structs s) lt) by (apply total_ext; intros a Ha; now rewrite Hft).
  split; [|split; [|split]].
  - apply (chain_join (structs s) f' r t).
    + rewrite Hin by (apply in_app_iff; right; now left). cbn [next with_field]. now rewrite Z.eqb_refl.
    + apply (chain_ext (structs s)); [|assumption]. intros a Ha. now rewrite Hft.
    + intros a Ha. rewrite Hin by (apply in_app_iff; now left). cbn [next with_field].
      destruct (Z.eqb_spec a r) as [->|_]; [|reflexivity]. apply NoDup_remove_2 in Hnd. rewrite app_nil_r in Hnd. contradiction.
    + assumption.
  - apply (lengths_join (structs s)); [| |assumption].
    + intros a Ha. rewrite (Hin a Ha), Htot. now split.
    + apply (lengths_ext (structs s)); [|assumption]. intros a Ha. now rewrite Hft.
  - intros a. destruct (in_dec Z.eq_dec a (l0 ++ [r])) as [Ha|Ha]; [now rewrite (Hin a Ha)|].
    rewrite Hf'. destruct (in_dec Z.eq_dec a (l0 ++ [r])); [contradiction|now destruct (structs s a)].
  - intros a Ha. rewrite Hf'. now destruct (in_dec Z.eq_dec a (l0 ++ [r])).
Qed.

Lemma clen_loop_spec s l : forall fuel p n, chain s.(structs) p l -> 0 <= n -> n + Z.of_nat (length l) < 65536 -> (length l < fuel)%nat ->
  clen_loop fuel p n s = Ok (n + Z.of_nat (length l), s).
Proof.
  induction l as [|a l IH]; intros fuel p n Hc Hn Hlt Hf; (destruct fuel as [|fuel]; [lia|]); cbn [clen_loop].
  - cbn in Hc. subst p. cbn [length]. now rewrite Z.add_0_r.
  - destruct (chain_nonnull _ _ _ _ Hc) as [-> H0]. rewrite H0. destruct Hc as (_ & _ & Hc). unfold get. rewrite bind_gets.
    rewrite length_cons_Z in *. rewrite u16_id by word_lia. rewrite IH by (assumption || (cbn in Hf; lia) || lia). now rewrite Z.add_assoc.
Qed.

(** Hiding the first [n] bytes of a packet. *)
Lemma pbuf_header_hide s p n : p <> 0 -> 0 < n <= (s.(structs) p).(len) -> (s.(structs) p).(len) < 65536 ->
  n <= (s.(structs) p).(tot_len) < 65536 -> p + SIZEOF_STRUCT_PBUF <= (s.(structs) p).(payload) + n ->
  exists s', pbuf_header p (- n) s = Ok (0, s') /\ s'.(mm) = s.(mm) /\ s'.(data) = s.(data) /\
    s'.(structs) p = (s.(structs) p) <| payload := (s.(structs) p).(payload) + n |> <| len := (s.(structs) p).(len) - n |>
      <| tot_len := (s.(structs) p).(tot_len) - n |> /\
    forall a, a <> p -> s'.(structs) a = s.(structs) a.
Proof.
  intros Hp Hn Hl Ht Hpay. unfold pbuf_header, pbuf_header_impl. rewrite bind_lwip_assert by (now rewrite (proj2 (Z.eqb_neq _ _) Hp)).
  rewrite (proj2 (Z.eqb_neq (- n) 0)), (proj2 (Z.eqb_neq _ _) Hp) by lia. cbn [orb]. unfold get. rewrite bind_gets.
  rewrite Z.abs_opp, Z.abs_eq, (u16_id n) by word_lia.
  rewrite lwip_error_ok by (rewrite Z.geb_leb, (proj2 (Z.leb_gt 0 (- n))), (proj2 (Z.leb_le _ _)) by lia; reflexivity).
  set (s' := s <| structs := upd_at s.(structs) p (fun b => b <| payload := (structs s p).(payload) - - n |>
      <| len := u16 (b.(len) + - n) |> <| tot_len := u16 (b.(tot_len) + - n) |>) |>).
  assert (Hs' : structs s' p = (structs s p) <| payload := (structs s p).(payload) + n |> <| len := (structs s p).(len) - n |>
      <| tot_len := (structs s p).(tot_len) - n |>).
  { unfold s'. rewrite structs_set, upd_at_same. rewrite !u16_id by word_lia. now rewrite Z.sub_opp_r. }
  exists s'. split; [|split; [reflexivity|split; [reflexivity|split; [exact Hs'|]]]].
  2:{ intros a Ha. unfold s'. rewrite structs_set. now apply upd_at_other. }
  destruct (type (structs s p)).
  1,4: rewrite (proj2 (Z.ltb_ge _ _)) by lia; reflexivity.
  all: rewrite (proj2 (Z.ltb_lt (- n) 0)), (proj2 (Z.leb_le _ _)) by lia; reflexivity.
Qed.

Lemma total_nonneg f l : Forall (fun a => 0 <= (f a).(len)) l -> 0 <= total f l.
Proof. induction 1; cbn [total]; lia. Qed.

Lemma realloc_skip_spec grow r l0 : grow < 65535 -> forall fuel s p rem,
  chain s.(structs) p (l0 ++ [r]) -> NoDup (l0 ++ [r]) -> Forall (fun a => 0 <= (s.(structs) a).(len)) l0 ->
  total s.(structs) l0 < rem < 65536 -> rem - total s.(structs) l0 <= (s.(structs) r).(len) -> (length l0 < fuel)%nat ->
  exists s', realloc_skip fuel p rem grow s = Ok ((r, rem - total s.(structs) l0), s') /\ s'.(mm) = s.(mm) /\
    s'.(data) = s.(data) /\
    forall a, s'.(structs) a = if in_dec Z.eq_dec a l0
      then (s.(structs) a) <| tot_len := u16 ((s.(structs) a).(tot_len) + u16 grow) |> else s.(structs) a.
Proof.
  intros Hg. induction l0 as [|b l0 IH]; intros fuel s p rem Hc Hnd Hl Hrem Hr Hf; (destruct fuel as [|fuel]; [lia|]);
    cbn [realloc_skip app total] in *; destruct Hc as (-> & Hb0 & Hc); unfold get; rewrite bind_gets, Z.gtb_ltb.
  - replace (len (structs s r) <? rem) with false by (symmetry; apply Z.ltb_ge; lia).
    exists s. rewrite Z.sub_0_r. now repeat split.
  - apply Forall_cons_iff in Hl. destruct Hl as [Hlb Hl]. pose proof (total_nonneg _ _ Hl) as Htn.
    replace (len (structs s b) <? rem) with true by (symmetry; apply Z.ltb_lt; lia).
    assert (Hnx : (next (structs s b) =? 0) = false).
    { destruct l0; cbn [app] in Hc; now destruct (chain_nonnull _ _ _ _ Hc). }
    rewrite bind_lwip_assert by (now apply Z.ltb_lt). unfold upds. rewrite bind_modify, bind_lwip_assert by (now rewrite Hnx).
    apply NoDup_cons_iff in Hnd. destruct Hnd as [Hni Hnd]. rewrite u16_id by word_lia.
    set (s1 := s <| structs := upd_at _ b _ |>).
    assert (Hs1 : forall a, a <> b -> structs s1 a = structs s a) by (intros a Ha; unfold s1; rewrite structs_set; now apply upd_at_other).
    assert (Hb1 : structs s1 b = (structs s b) <| tot_len := u16 ((structs s b).(tot_len) + u16 grow) |>)
      by (unfold s1; rewrite structs_set, upd_at_same; reflexivity).
    assert (Hin : forall a, In a (l0 ++ [r]) -> structs s1 a = structs s a) by (intros a Ha; apply Hs1; intros ->; contradiction).
    assert (Hin0 : forall a, In a l0 -> structs s1 a = structs s a) by (intros; apply Hin, in_app_iff; now left).
    assert (Ht : total (structs s1) l0 = total (structs s) l0) by (apply total_ext; intros; now rewrite Hin0).
    destruct (IH fuel s1 (next (structs s b)) (rem - len (structs s b))) as (s' & E & Hm & Hd & Hs'); rewrite ?Ht; try lia.
    + apply (chain_ext (structs s)); [|assumption]. intros a Ha. now rewrite Hin.
    + assumption.
    + rewrite Forall_forall in *. intros a Ha. rewrite Hin0 by assumption. now apply Hl.
    + rewrite Hin by (apply in_app_iff; right; now left). lia.
    + cbn in Hf. lia.
    + exists s'. rewrite E, Ht. split; [do 3 f_equal; lia|]. split; [exact Hm|]. split; [exact Hd|]. intros a. rewrite Hs'.
      destruct (in_dec Z.eq_dec a l0) as [Ha|Ha], (in_dec Z.eq_dec a (b :: l0)) as [Ha'|Ha']; cbn [In] in *; try tauto.
      * now rewrite Hin0.
      * destruct Ha' as [<-|?]; [exact Hb1|contradiction].
      * apply Hs1. intros ->. tauto.
Qed.

Lemma lengths_tail f l0 r : lengths f 0 (l0 ++ [r]) -> (f r).(tot_len) = (f r).(len) /\ 0 <= (f r).(len) /\
  Forall (fun a => 0 <= (f a).(len)) l0.
Proof.
  induction l0 as [|a l0 IH]; cbn [app lengths total].
  - intros (H0 & H1 & _). repeat split; [lia|lia|constructor].
  - intros (H0 & _ & Hl). destruct (IH Hl) as (H1 & H2 & H3). repeat split; [assumption|assumption|]. now constructor.
Qed.

Lemma lengths_tot f l0 r e : forall a, In a l0 -> lengths f e (l0 ++ [r]) ->
  (f r).(len) <= (f a).(tot_len) - e /\ (f a).(tot_len) - e <= total f (l0 ++ [r]).
Proof.
  induction l0 as [|b l0 IH]; [contradiction|]. cbn [app lengths total]. intros a Ha (H0 & H1 & H2).
  assert (Hpos : 0 <= total f l0).
  { clear - H2. induction l0 as [|c l0 IH]; cbn [app lengths total] in *; [lia|]. destruct H2 as (? & _ & H2). specialize (IH H2). lia. }
  rewrite total_app in *. cbn [total] in *. destruct Ha as [<-|Ha]; [lia|]. destruct (IH a Ha H2). lia.
Qed.

Lemma lengths_cut f f' g l0 r : (forall a, In a l0 -> (f' a).(len) = (f a).(len) /\ (f' a).(tot_len) = (f a).(tot_len) + g) ->
  (f' r).(len) = (f r).(len) + g -> 0 <= (f' r).(len) -> (f' r).(tot_len) = (f' r).(len) ->
  lengths f 0 (l0 ++ [r]) -> lengths f' 0 (l0 ++ [r]).
Proof.
  intros He Hr H0 Ht. induction l0 as [|a l0 IH]; cbn [app lengths total].
  - intros _. split; [assumption|]. split; [lia|exact I].
  - intros (H1 & H2 & H3). destruct (He a (or_introl eq_refl)) as [El Et]. rewrite El, Et. split; [assumption|]. split.
    + rewrite H2, !total_app, (total_ext f f') by (intros; apply He; now right). cbn [total]. lia.
    + apply IH; [|assumption]. intros. apply He. now right.
Qed.

(** Cutting the last pbuf of a packet. *)
Lemma pbuf_realloc_last s q l0 r n fuel : chain s.(structs) q (l0 ++ [r]) -> lengths s.(structs) 0 (l0 ++ [r]) ->
  NoDup (l0 ++ [r]) -> (s.(structs) r).(type) = PBUF_POOL ->
  total s.(structs) l0 < n -> n <= total s.(structs) (l0 ++ [r]) -> total s.(structs) (l0 ++ [r]) < 65536 ->
  (length l0 < fuel)%nat ->
  exists s', pbuf_realloc fuel q n s = Ok (tt, s') /\ s'.(mm) = s.(mm) /\ s'.(data) = s.(data) /\
    chain s'.(structs) q (l0 ++ [r]) /\ lengths s'.(structs) 0 (l0 ++ [r]) /\
    (forall a, s'.(structs) a = (s.(structs) a) <| len := (s'.(structs) a).(len) |> <| tot_len := (s'.(structs) a).(tot_len) |>) /\
    (forall a, In a l0 -> (s'.(structs) a).(len) = (s.(structs) a).(len)) /\
    (s'.(structs) r).(len) = n - total s.(structs) l0 /\
    (forall a, ~ In a (l0 ++ [r]) -> s'.(structs) a = s.(structs) a).
Proof.
  intros Hc Hl Hnd Hty Hlo Hhi Hsm Hf. unfold pbuf_realloc.
  destruct (lengths_tail _ _ _ Hl) as (Htr & Hlr & Hl0).
  assert (Hq : (q =? 0) = false) by (destruct l0; now destruct (chain_nonnull _ _ _ _ Hc)).
  assert (Htq : (structs s q).(tot_len) = total (structs s) (l0 ++ [r])).
  { destruct l0 as [|a l0]; cbn [app] in *; destruct Hc as (-> & _); destruct Hl as (_ & Ht & _); rewrite Ht; lia. }
  rewrite bind_lwip_assert by (now rewrite Hq). unfold get. rewrite bind_gets, Z.geb_leb, Htq.
  rewrite total_app in *. cbn [total] in *. rewrite Z.add_0_r in *.
  destruct (Z.leb_spec (total (structs s) l0 + len (structs s r)) n) as [Hge|Hlt].
  { exists s. split; [reflexivity|]. repeat (split; [reflexivity || assumption|]). split; [|split].
    - intros a. now destruct (structs s a).
    - reflexivity.
    - split; [lia|reflexivity]. }
  set (grow := n - (total (structs s) l0 + len (structs s r))).
  destruct (realloc_skip_spec grow r l0 ltac:(unfold grow; lia) fuel s q n Hc Hnd Hl0) as (s1 & E & Hm & Hd & Hs1);
    [split; [assumption|lia]|lia|assumption|].
  rewrite (bind_ok _ _ _ _ _ E). cbv iota beta.
  assert (Hr1 : structs s1 r = structs s r).
  { rewrite Hs1. destruct (in_dec Z.eq_dec r l0); [|reflexivity]. apply NoDup_remove_2 in Hnd. rewrite app_nil_r in Hnd. contradiction. }
  rewrite bind_gets, Hr1, Hty. cbn [pbuf_type_eqb andb]. rewrite bind_ret.
  destruct (chain_app _ _ _ _ Hc) as (q' & (_ & _ & Hrn) & _). cbn [chain] in Hrn.
  unfold upds. rewrite bind_modify, bind_gets, structs_set, upd_at_same, Hr1.
  change (next ((structs s r) <| len := n - total (structs s) l0 |> <| tot_len := n - total (structs s) l0 |>)) with (next (structs s r)).
  rewrite Hrn.
  change (negb (0 =? 0)) with false. cbv iota. rewrite bind_ret. unfold modify. rewrite structs_set.
  eexists. split; [reflexivity|]. rewrite structs_set. split; [exact Hm|]. split; [exact Hd|].
  set (f' := upd_at _ r (fun b => b <| next := 0 |>)). set (n' := n - total (structs s) l0).
  assert (Hf' : forall a, f' a = if a =? r then (structs s r) <| len := n' |> <| tot_len := n' |> else
    if in_dec Z.eq_dec a l0 then (structs s a) <| tot_len := (structs s a).(tot_len) + grow |> else structs s a).
  { intros a. unfold f', upd_at. rewrite !Z.eqb_refl, Hr1. destruct (Z.eqb_spec a r) as [->|Hne].
    - destruct (structs s r) eqn:Es. cbn in Hrn. subst. reflexivity.
    - rewrite Hs1. destruct (in_dec Z.eq_dec a l0) as [Ha|Ha]; [|reflexivity].
      destruct (lengths_tot _ _ _ _ a Ha Hl) as [H1 H2]. rewrite total_app in H2. cbn [total] in H2.
      assert (Hu : u16 (tot_len (structs s a) + u16 grow) = tot_len (structs s a) + grow).
      { unfold u16. rewrite Zplus_mod_idemp_r. apply Z.mod_small. unfold grow. lia. }
      rewrite Hu. reflexivity. }
  clearbody f'.
  assert (Hrf : f' r = (structs s r) <| len := n' |> <| tot_len := n' |>) by (rewrite Hf', Z.eqb_refl; reflexivity).
  assert (H0f : forall a, In a l0 -> f' a = (structs s a) <| tot_len := (structs s a).(tot_len) + grow |>).
  { intros a Ha. rewrite Hf'. destruct (Z.eqb_spec a r) as [->|_].
    - apply NoDup_remove_2 in Hnd. rewrite app_nil_r in Hnd. contradiction.
    - destruct (in_dec Z.eq_dec a l0); [reflexivity|contradiction]. }
  split; [|split; [|split; [|split; [|split]]]].
  - apply (chain_ext (structs s)); [|assumption]. intros a Ha. apply in_app_iff in Ha.
    destruct Ha as [Ha|[<-|[]]]; [now rewrite H0f|now rewrite Hrf].
  - apply (lengths_cut (structs s) f' grow); [|rewrite Hrf; cbn; unfold n', grow; lia|rewrite Hrf; cbn; unfold n'; lia|rewrite Hrf; reflexivity|assumption].
    intros a Ha. rewrite (H0f a Ha). now split.
  - intros a. rewrite Hf'. destruct (Z.eqb_spec a r) as [->|_]; [reflexivity|].
    destruct (in_dec Z.eq_dec a l0); [reflexivity|now destruct (structs s a)].
  - intros a Ha. now rewrite H0f.
  - now rewrite Hrf.
  - intros a Ha. rewrite Hf'. rewrite in_app_iff in Ha. cbn [In] in Ha. destruct (Z.eqb_spec a r) as [->|_]; [tauto|].
    destruct (in_dec Z.eq_dec a l0); [tauto|reflexivity].
Qed.
End Pbuf.
