(* ===== verification/PbufBoard.v ===== *)
(** * The memory of pbufs, built from the allocators

    The interface [PbufMemory] implemented by the pools of memp.c (MEMP_PBUF,
    MEMP_PBUF_POOL and MEMP_FRAG_PBUF with their default sizes, opt.h and
    memp_std.h) and the heap of mem.c.  The four arrays are at addresses the
    linker chooses; they do not overlap. *)

From Stdlib Require Import ZArith List Lia Bool Permutation.
From S2P Require Import Prelude Mem Memp PbufMem Pbuf.
Import ListNotations.
Open Scope Z_scope.
Open Scope c_scope.

Definition MEMP_NUM_PBUF := 16.
Definition PBUF_POOL_SIZE := 16.
Definition MEMP_NUM_FRAG_PBUF := 15.
(** [sizeof(struct pbuf_custom_ref)] *)
Definition SIZEOF_STRUCT_PBUF_CUSTOM_REF := 24.

(** Where the linker put the pools and the heap. *)
Record layout := mkLayout { at_pbuf : Z; at_pool : Z; at_heap : Z; at_frag : Z }.

Definition away (a n b m : Z) : Prop := a + n <= b \/ b + m <= a.

Definition layout_ok (la : layout) : Prop :=
  0 < la.(at_pbuf) /\ 0 < la.(at_pool) /\ 0 < la.(at_heap) /\
  away la.(at_pbuf) 256 la.(at_pool) 9696 /\ away la.(at_pbuf) 256 la.(at_heap) 1600 /\
  away la.(at_pool) 9696 la.(at_heap) 1600 /\
  0 < la.(at_frag) /\ away la.(at_frag) 360 la.(at_pbuf) 256 /\ away la.(at_frag) 360 la.(at_pool) 9696 /\
  away la.(at_frag) 360 la.(at_heap) 1600.

Definition pool_bytes (k : pbuf_pool) : Z :=
  match k with
  | MEMP_PBUF => LWIP_MEM_ALIGN_SIZE SIZEOF_STRUCT_PBUF
  | MEMP_PBUF_POOL => LWIP_MEM_ALIGN_SIZE SIZEOF_STRUCT_PBUF + LWIP_MEM_ALIGN_SIZE PBUF_POOL_BUFSIZE
  | MEMP_FRAG_PBUF => SIZEOF_STRUCT_PBUF_CUSTOM_REF
  end.

(** The positions of the pools in [memp_pools]. *)
Definition pool_no (k : pbuf_pool) : Z := match k with MEMP_PBUF => 0 | MEMP_PBUF_POOL => 1 | MEMP_FRAG_PBUF => 2 end.

Section Board.
Variable la : layout.
Hypothesis la_ok : layout_ok la.

Definition board_pools (d : Z) : memp_desc :=
  if d =? 0 then mkDesc (pool_bytes MEMP_PBUF) MEMP_NUM_PBUF la.(at_pbuf)
  else if d =? 1 then mkDesc (pool_bytes MEMP_PBUF_POOL) PBUF_POOL_SIZE la.(at_pool)
  else mkDesc (pool_bytes MEMP_FRAG_PBUF) MEMP_NUM_FRAG_PBUF la.(at_frag).

Definition board := (memp_state * heap)%type.

Definition in_pools {A} (m : PM A) : M board A := fun s =>
  match m (fst s) with Ok (a, p) => Ok (a, (p, snd s)) | Halt => Halt | Hang => Hang end.
Definition in_heap {A} (m : HM A) : M board A := fun s =>
  match m (snd s) with Ok (a, h) => Ok (a, (fst s, h)) | Halt => Halt | Hang => Hang end.

Definition pool_blk (k : pbuf_pool) (p : Z) : blk := mkBlk (Pool k) p (pool_bytes k).
Definition heap_blk (x : Z * Z) : blk := mkBlk Heap (la.(at_heap) + fst x) (snd x).

(** The outstanding blocks are those of the pools and those of the heap. *)
Definition board_owns (s : board) (bs : list blk) : Prop :=
  exists live hl, pools_rep board_pools 3 (fst s) live /\ client_inv (snd s) hl /\
    Forall (fun x => 0 < snd x) hl /\
    Permutation bs (map (pool_blk MEMP_PBUF) (live 0) ++ map (pool_blk MEMP_PBUF_POOL) (live 1) ++
      map (pool_blk MEMP_FRAG_PBUF) (live 2) ++ map heap_blk hl).

Lemma board_pools_ok d : 0 <= d < 3 ->
  0 < (board_pools d).(d_base) /\ 0 < (board_pools d).(d_size) /\ 0 <= (board_pools d).(d_num) < 65536.
Proof.
  destruct la_ok as (H1 & H2 & _ & _ & _ & _ & H3 & _). intros Hd. unfold board_pools.
  destruct (d =? 0); [|destruct (d =? 1)]; cbn [d_base d_size d_num]; repeat split; (assumption || (vm_compute; congruence)).
Qed.

(** The elements of a pool lie in its array and are a multiple of the element
    size away from its start. *)
Definition pool_base (k : pbuf_pool) : Z :=
  match k with MEMP_PBUF => la.(at_pbuf) | MEMP_PBUF_POOL => la.(at_pool) | MEMP_FRAG_PBUF => la.(at_frag) end.
Definition pool_count (k : pbuf_pool) : Z := match k with MEMP_FRAG_PBUF => 15 | _ => 16 end.

Lemma board_element k p : In p (elements board_pools (pool_no k)) -> exists i, 0 <= i < pool_count k /\
  p = pool_base k + i * pool_bytes k.
Proof.
  intros Hp. apply in_map_iff in Hp. destruct Hp as (i & <- & Hi). apply in_seq in Hi.
  exists (Z.of_nat i). split; [|now destruct k].
  assert (Hn : (i < Z.to_nat (pool_count k))%nat) by (destruct k; exact (proj2 Hi)). destruct k; cbn [pool_count] in *; lia.
Qed.

Ltac board_numbers :=
  change (pool_bytes MEMP_PBUF) with 16 in *; change (pool_bytes MEMP_PBUF_POOL) with 606 in *;
  change (pool_bytes MEMP_FRAG_PBUF) with 24 in *; cbn [pool_base pool_count] in *.

(** The array of a pool, apart from those of the others and from the heap. *)
Definition pool_extent (k : pbuf_pool) : Z := match k with MEMP_PBUF => 256 | MEMP_PBUF_POOL => 9696 | MEMP_FRAG_PBUF => 360 end.

Lemma pools_away k k' : k <> k' -> away (pool_base k) (pool_extent k) (pool_base k') (pool_extent k').
Proof.
  destruct la_ok as (_ & _ & _ & A1 & A2 & A3 & _ & A4 & A5 & A6). unfold away in *.
  destruct k, k'; cbn [pool_base pool_extent]; intros H; try congruence; lia.
Qed.

Lemma heap_away k : away (pool_base k) (pool_extent k) la.(at_heap) 1600.
Proof. destruct la_ok as (_ & _ & _ & A1 & A2 & A3 & _ & A4 & A5 & A6). now destruct k. Qed.

Lemma pool_positive k : 0 < pool_base k.
Proof. destruct la_ok as (? & ? & ? & _ & _ & _ & ? & _). now destruct k. Qed.

Lemma board_inside k p : In p (elements board_pools (pool_no k)) ->
  pool_base k <= p /\ p + pool_bytes k <= pool_base k + pool_extent k /\ 0 < pool_bytes k.
Proof.
  intros Hp. destruct (board_element k p Hp) as (i & Hi & ->). destruct k; board_numbers; cbn [pool_extent]; lia.
Qed.

Lemma pool_no_inv d : 0 <= d < 3 -> exists k, d = pool_no k.
Proof.
  intros Hd. assert (Hc : d = 0 \/ d = 1 \/ d = 2) by lia.
  destruct Hc as [->|[->| ->]]; [now exists MEMP_PBUF|now exists MEMP_PBUF_POOL|now exists MEMP_FRAG_PBUF].
Qed.

Lemma board_pools_disjoint d d' p : 0 <= d < 3 -> 0 <= d' < 3 -> d <> d' ->
  In p (elements board_pools d) -> ~ In p (elements board_pools d').
Proof.
  intros Hd Hd' Hne Hp Hp'. destruct (pool_no_inv d Hd) as [k ->], (pool_no_inv d' Hd') as [k' ->].
  pose proof (pools_away k k' ltac:(congruence)) as Haw. unfold away in Haw.
  pose proof (board_inside k p Hp). pose proof (board_inside k' p Hp'). lia.
Qed.

Lemma pool_no_range k : 0 <= pool_no k < 3.
Proof. destruct k; cbn; lia. Qed.

Lemma apart_sym b c : apart b c -> apart c b.
Proof. unfold apart. tauto. Qed.

(** The elements that are handed out are different elements of the pool. *)
Lemma board_live s live k : pools_rep board_pools 3 s live ->
  NoDup (live (pool_no k)) /\ forall p, In p (live (pool_no k)) -> In p (elements board_pools (pool_no k)).
Proof.
  intros Hr. destruct (Hr _ (pool_no_range k)) as (free & _ & Hp & _).
  pose proof (Permutation_NoDup (Permutation_sym Hp) (elements_nodup _ _ board_pools_ok _ (pool_no_range k))) as Hnd.
  split; [now apply NoDup_app_remove_l in Hnd|]. intros p Hin. apply (Permutation_in _ Hp), in_app_iff. now right.
Qed.

Lemma pool_apart k l : NoDup l -> (forall p, In p l -> In p (elements board_pools (pool_no k))) ->
  ForallOrdPairs apart (map (pool_blk k) l).
Proof.
  induction l as [|p l IH]; intros Hnd Hin; cbn [map]; constructor.
  - apply Forall_forall. intros b Hb. apply in_map_iff in Hb. destruct Hb as (q & <- & Hq).
    apply NoDup_cons_iff in Hnd. destruct Hnd as [Hni _]. assert (Hne : p <> q) by (intros ->; contradiction).
    destruct (board_element k p (Hin p (or_introl eq_refl))) as (i & Hi & Ep).
    destruct (board_element k q (Hin q (or_intror Hq))) as (j & Hj & Eq).
    unfold apart, pool_blk. cbn [b_addr b_size]. assert (Hij : i <> j) by congruence.
    destruct k; board_numbers; lia.
  - apply IH; [now apply NoDup_cons_iff in Hnd|]. intros. apply Hin. now right.
Qed.

(** Elements of different pools, and blocks of the heap, are apart. *)
Lemma pool_pool_apart k k' p q : k <> k' -> In p (elements board_pools (pool_no k)) -> In q (elements board_pools (pool_no k')) ->
  apart (pool_blk k p) (pool_blk k' q).
Proof.
  intros Hne Hp Hq. pose proof (pools_away k k' Hne) as Haw. unfold away in Haw.
  pose proof (board_inside k p Hp). pose proof (board_inside k' q Hq). unfold apart. cbn [pool_blk b_addr b_size]. lia.
Qed.

Lemma pool_heap_apart k p x : In p (elements board_pools (pool_no k)) -> 0 <= fst x -> fst x + snd x <= 1600 ->
  apart (pool_blk k p) (heap_blk x).
Proof.
  intros Hp H1 H2. pose proof (heap_away k) as Haw. unfold away in Haw. pose proof (board_inside k p Hp).
  unfold apart. cbn [pool_blk heap_blk b_addr b_size]. lia.
Qed.

Lemma heap_inside s hl x : client_inv s hl -> In x hl -> 0 <= fst x /\ fst x + snd x <= 1600.
Proof.
  destruct x as [p n]. intros Hc Hx. pose proof (client_bounds _ _ _ _ Hc Hx) as (? & ? & ?). cbn [fst snd]. mem_numbers. lia.
Qed.

(** The blocks of one pool are apart from a list of blocks. *)
Lemma pool_list_apart k l bs : NoDup l -> (forall p, In p l -> In p (elements board_pools (pool_no k))) ->
  ForallOrdPairs apart bs -> (forall p b, In p l -> In b bs -> apart (pool_blk k p) b) -> ForallOrdPairs apart (map (pool_blk k) l ++ bs).
Proof.
  intros Hnd Hin Hbs H. apply ForallOrdPairs_app; [now apply pool_apart|exact Hbs|].
  intros x y Hx Hy. apply in_map_iff in Hx. destruct Hx as (p & <- & Hp). auto.
Qed.

Lemma board_owns_apart s bs : board_owns s bs -> ForallOrdPairs apart bs.
Proof.
  intros (live & hl & Hr & Hc & Hpos & Hp).
  apply (ForallOrdPairs_perm apart _ bs apart_sym (Permutation_sym Hp)).
  destruct (board_live _ _ MEMP_PBUF Hr) as [N1 I1], (board_live _ _ MEMP_PBUF_POOL Hr) as [N2 I2], (board_live _ _ MEMP_FRAG_PBUF Hr) as [N3 I3].
  cbn [pool_no] in *.
  apply (pool_list_apart MEMP_PBUF); auto; [apply (pool_list_apart MEMP_PBUF_POOL); auto; [apply (pool_list_apart MEMP_FRAG_PBUF); auto|]|].
  - pose proof (client_apart _ _ Hc) as Hap. clear - Hap. induction Hap as [|x l Hx _ IH]; cbn [map]; constructor; [|assumption].
    apply Forall_map. eapply Forall_impl; [|exact Hx]. unfold apart, heap_blk. cbn. intros. lia.
  - intros p b Hq Hb. apply in_map_iff in Hb. destruct Hb as (x & <- & Hx). apply pool_heap_apart; auto; now apply (heap_inside _ _ _ Hc).
  - intros p b Hq Hb. rewrite in_app_iff, !in_map_iff in Hb. destruct Hb as [(x & <- & Hx)|(x & <- & Hx)];
      [apply pool_pool_apart; auto; discriminate|apply pool_heap_apart; auto; now apply (heap_inside _ _ _ Hc)].
  - intros p b Hq Hb. rewrite !in_app_iff, !in_map_iff in Hb. destruct Hb as [(x & <- & Hx)|[(x & <- & Hx)|(x & <- & Hx)]];
      [apply pool_pool_apart; auto; discriminate..|apply pool_heap_apart; auto; now apply (heap_inside _ _ _ Hc)].
Qed.

Lemma pool_sane k p : In p (elements board_pools (pool_no k)) -> 0 < (pool_blk k p).(b_addr) /\ 0 < (pool_blk k p).(b_size).
Proof. intros Hp. pose proof (board_inside k p Hp). pose proof (pool_positive k). cbn [pool_blk b_addr b_size]. lia. Qed.

Lemma board_owns_sane s bs : board_owns s bs -> Forall (fun b => 0 < b.(b_addr) /\ 0 < b.(b_size)) bs.
Proof.
  intros (live & hl & Hr & Hc & Hpos & Hp). rewrite Hp. destruct la_ok as (_ & _ & P3 & _).
  destruct (board_live _ _ MEMP_PBUF Hr) as [_ I1], (board_live _ _ MEMP_PBUF_POOL Hr) as [_ I2], (board_live _ _ MEMP_FRAG_PBUF Hr) as [_ I3].
  cbn [pool_no] in *. rewrite !Forall_app, !Forall_map, !Forall_forall in *.
  split; [intros p Hin; now apply pool_sane, I1|]. split; [intros p Hin; now apply pool_sane, I2|]. split; [intros p Hin; now apply pool_sane, I3|].
  intros x Hin. destruct (heap_inside _ _ _ Hc Hin). specialize (Hpos _ Hin). cbn [heap_blk b_addr b_size]. lia.
Qed.

(** ** The operations *)

Definition board_pool_malloc (k : pbuf_pool) : M board (option Z) := in_pools (memp_malloc 3 (pool_no k)).
Definition board_pool_free (k : pbuf_pool) (p : Z) : M board unit := in_pools (memp_free 3 (pool_no k) p).
(** Pointers into the heap are offsets in [Mem] and addresses here. *)
Definition board_heap_malloc (n : Z) : M board (option Z) :=
  in_heap (do p <- mem_malloc n; ret (option_map (Z.add la.(at_heap)) p)).
Definition board_heap_free (p : Z) : M board unit := in_heap (mem_free (Some (p - la.(at_heap)))).
Definition board_heap_trim (p n : Z) : M board (option Z) :=
  in_heap (do q <- mem_trim (p - la.(at_heap)) n; ret (option_map (Z.add la.(at_heap)) q)).

Lemma in_pools_ok {A} (m : PM A) s a p' : m (fst s) = Ok (a, p') -> in_pools m s = Ok (a, (p', snd s)).
Proof. unfold in_pools. now intros ->. Qed.
Lemma in_heap_ok {A} (m : HM A) s a h' : m (snd s) = Ok (a, h') -> in_heap m s = Ok (a, (fst s, h')).
Proof. unfold in_heap. now intros ->. Qed.

(** The canonical order of the outstanding blocks. *)
Definition all_blocks (live : Z -> list Z) (hl : list (Z * Z)) : list blk :=
  map (pool_blk MEMP_PBUF) (live 0) ++ map (pool_blk MEMP_PBUF_POOL) (live 1) ++ map (pool_blk MEMP_FRAG_PBUF) (live 2) ++ map heap_blk hl.

Lemma all_blocks_pool live hl k l : all_blocks (set live (pool_no k) l) hl =
  map (pool_blk MEMP_PBUF) (match k with MEMP_PBUF => l | _ => live 0 end) ++
  map (pool_blk MEMP_PBUF_POOL) (match k with MEMP_PBUF_POOL => l | _ => live 1 end) ++
  map (pool_blk MEMP_FRAG_PBUF) (match k with MEMP_FRAG_PBUF => l | _ => live 2 end) ++ map heap_blk hl.
Proof. now destruct k. Qed.

(** A block among those of a pool. *)
Lemma all_blocks_insert live hl k l1 p l2 : live (pool_no k) = l1 ++ p :: l2 ->
  Permutation (all_blocks live hl) (pool_blk k p :: all_blocks (set live (pool_no k) (l1 ++ l2)) hl).
Proof.
  intros Hl. rewrite all_blocks_pool. unfold all_blocks.
  destruct k; cbn [pool_no] in Hl; rewrite Hl, !map_app; cbn [map]; rewrite <- ?app_assoc; cbn [app].
  - symmetry. apply Permutation_middle.
  - rewrite !(app_assoc (map (pool_blk MEMP_PBUF) (live 0))). symmetry. apply Permutation_middle.
  - rewrite !(app_assoc (map (pool_blk MEMP_PBUF_POOL) (live 1))), !(app_assoc (map (pool_blk MEMP_PBUF) (live 0))). symmetry. apply Permutation_middle.
Qed.

Lemma board_pool_malloc_law s bs k : board_owns s bs -> exists r s', board_pool_malloc k s = Ok (r, s') /\
  match r with
  | Some p => board_owns s' (mkBlk (Pool k) p (pool_bytes k) :: bs)
  | None => board_owns s' bs
  end.
Proof.
  intros (live & hl & Hr & Hc & Hpos & Hp). pose proof (pool_no_range k) as Hk. unfold board_pool_malloc, memp_malloc.
  destruct (malloc_pool_spec board_pools 3 board_pools_ok (fst s) live _ Hr Hk) as [(_ & s' & E & Hr')|(p & s' & E & _ & _ & Hr')];
    do 2 eexists; (split; [apply in_pools_ok; rewrite bind_assert by (apply Z.ltb_lt; lia); exact E|]).
  - now exists live, hl.
  - exists (set live (pool_no k) (p :: live (pool_no k))), hl. split; [assumption|]. split; [assumption|].
    split; [assumption|]. fold (all_blocks live hl) in Hp.
    change (Permutation (pool_blk k p :: bs) (all_blocks (set live (pool_no k) (p :: live (pool_no k))) hl)).
    rewrite Hp. symmetry. rewrite (all_blocks_insert _ hl k [] p (live (pool_no k))) by apply set_same.
    constructor. now destruct k.
Qed.

Lemma board_pool_free_law s bs k p n : board_owns s (mkBlk (Pool k) p n :: bs) ->
  exists s', board_pool_free k p s = Ok (tt, s') /\ board_owns s' bs.
Proof.
  intros (live & hl & Hr & Hc & Hpos & Hp). fold (all_blocks live hl) in Hp. pose proof (pool_no_range k) as Hk.
  assert (Hin : In p (live (pool_no k)) /\ n = pool_bytes k).
  { pose proof (Permutation_in _ Hp (or_introl eq_refl)) as Hin. unfold all_blocks in Hin. rewrite !in_app_iff, !in_map_iff in Hin.
    destruct Hin as [(q & E & Hq)|[(q & E & Hq)|[(q & E & Hq)|(q & E & _)]]]; unfold pool_blk, heap_blk in E; inversion E; subst; now split. }
  destruct Hin as [Hin ->]. destruct (in_split _ _ Hin) as (l1 & l2 & Hl).
  destruct (free_pool_spec board_pools 3 board_pools_ok board_pools_disjoint (fst s) live _ p l1 l2 Hr Hk Hl) as (s' & E & Hr').
  destruct (board_live _ _ k Hr) as [_ He]. pose proof (elements_pos _ _ board_pools_ok _ p Hk (He p Hin)) as Hp0.
  eexists. split.
  - unfold board_pool_free, memp_free. apply in_pools_ok. rewrite bind_assert by (apply Z.ltb_lt; lia).
    replace (p =? 0) with false by (symmetry; apply Z.eqb_neq; lia). exact E.
  - exists (set live (pool_no k) (l1 ++ l2)), hl. split; [assumption|]. split; [assumption|]. split; [assumption|].
    apply (Permutation_cons_inv (a := pool_blk k p)). fold (all_blocks (set live (pool_no k) (l1 ++ l2)) hl).
    rewrite <- (all_blocks_insert live hl k l1 p l2 Hl). exact Hp.
Qed.

Lemma all_blocks_heap live l1 x l2 : Permutation (all_blocks live (l1 ++ x :: l2)) (heap_blk x :: all_blocks live (l1 ++ l2)).
Proof.
  unfold all_blocks. rewrite !map_app. cbn [map]. rewrite !app_assoc. symmetry. apply Permutation_middle.
Qed.

Lemma board_heap_malloc_law s bs n : board_owns s bs -> 0 <= n < 65536 ->
  exists r s', board_heap_malloc n s = Ok (r, s') /\
  match r with
  | Some p => board_owns s' (mkBlk Heap p n :: bs)
  | None => board_owns s' bs
  end.
Proof.
  intros (live & hl & Hr & Hc & Hpos & Hp) Hn.
  destruct (client_malloc (snd s) hl n Hc Hn) as ([p|] & h & E & Hc' & Hnz);
    do 2 eexists; (split; [apply in_heap_ok; rewrite (bind_ok _ _ _ _ _ E); reflexivity|]); cbn [option_map].
  - exists live, ((p, n) :: hl). split; [assumption|]. split; [assumption|].
    split; [constructor; [apply Hnz; discriminate|assumption]|].
    change (Permutation (heap_blk (p, n) :: bs) (all_blocks live ([] ++ (p, n) :: hl))).
    rewrite all_blocks_heap. constructor. exact Hp.
  - now exists live, hl.
Qed.

(** A block of the heap among the outstanding ones. *)
Lemma heap_held live hl p n bs : Permutation (mkBlk Heap p n :: bs) (all_blocks live hl) ->
  exists l1 l2, hl = l1 ++ (p - la.(at_heap), n) :: l2 /\ Permutation bs (all_blocks live (l1 ++ l2)).
Proof.
  intros Hp. pose proof (Permutation_in _ Hp (or_introl eq_refl)) as Hin. unfold all_blocks in Hin.
  rewrite !in_app_iff, !in_map_iff in Hin.
  destruct Hin as [(q & E & _)|[(q & E & _)|[(q & E & _)|([q m] & E & Hq)]]]; unfold pool_blk, heap_blk in E; inversion E; subst.
  cbn [fst snd] in *. replace (at_heap la + q - at_heap la) with q by lia.
  destruct (in_split _ _ Hq) as (l1 & l2 & ->). exists l1, l2. split; [reflexivity|].
  apply (Permutation_cons_inv (a := heap_blk (q, n))). rewrite <- all_blocks_heap. exact Hp.
Qed.

Lemma board_heap_free_law s bs p n : board_owns s (mkBlk Heap p n :: bs) ->
  exists s', board_heap_free p s = Ok (tt, s') /\ board_owns s' bs.
Proof.
  intros (live & hl & Hr & Hc & Hpos & Hp). destruct (heap_held _ _ _ _ _ Hp) as (l1 & l2 & -> & Hbs).
  destruct (client_free _ _ (length l1) _ _ Hc (nth_error_middle _ _ _)) as (h & E & Hc').
  rewrite remove_at_middle in Hc'. eexists. split; [apply in_heap_ok; exact E|].
  exists live, (l1 ++ l2). split; [assumption|]. split; [assumption|]. split; [|exact Hbs].
  rewrite Forall_app in *. destruct Hpos as [? Hpos]. apply Forall_cons_iff in Hpos. tauto.
Qed.

Lemma board_heap_trim_law s bs p n n' : board_owns s (mkBlk Heap p n :: bs) -> 0 < n' <= n ->
  exists s', board_heap_trim p n' s = Ok (Some p, s') /\ board_owns s' (mkBlk Heap p n' :: bs).
Proof.
  intros (live & hl & Hr & Hc & Hpos & Hp) Hn. destruct (heap_held _ _ _ _ _ Hp) as (l1 & l2 & -> & Hbs).
  destruct (client_trim _ _ (length l1) _ _ n' Hc (nth_error_middle _ _ _) ltac:(lia)) as (h & E & Hc').
  rewrite remove_at_middle in Hc'. eexists. split.
  - unfold board_heap_trim. apply in_heap_ok. rewrite (bind_ok _ _ _ _ _ E). cbn [option_map ret].
    now replace (at_heap la + (p - at_heap la)) with p by lia.
  - exists live, ((p - at_heap la, n') :: l1 ++ l2). split; [assumption|]. split; [assumption|]. split.
    + constructor; [cbn; lia|]. rewrite Forall_app in *. destruct Hpos as [? Hpos]. apply Forall_cons_iff in Hpos. tauto.
    + fold (all_blocks live ((p - at_heap la, n') :: l1 ++ l2)).
      change ((p - at_heap la, n') :: l1 ++ l2) with ([] ++ (p - at_heap la, n') :: l1 ++ l2).
      rewrite all_blocks_heap. unfold heap_blk at 1. cbn [fst snd].
      replace (at_heap la + (p - at_heap la)) with p by lia. constructor. exact Hbs.
Qed.

#[export] Instance board_memory : PbufMemory := {
  mst := board; pool_size := pool_bytes;
  pool_malloc := board_pool_malloc; pool_free := board_pool_free;
  heap_malloc := board_heap_malloc; heap_free := board_heap_free; heap_trim := board_heap_trim;
  owns := board_owns;
  owns_perm := fun s bs bs' Hp Ho => match Ho with
    | ex_intro _ live (ex_intro _ hl (conj Hr (conj Hc (conj Hpos Hq)))) =>
        ex_intro _ live (ex_intro _ hl (conj Hr (conj Hc (conj Hpos (perm_trans (Permutation_sym Hp) Hq)))))
    end;
  owns_apart := board_owns_apart; owns_sane := board_owns_sane;
  pool_malloc_law := board_pool_malloc_law; pool_free_law := board_pool_free_law;
  heap_malloc_law := board_heap_malloc_law; heap_free_law := board_heap_free_law;
  heap_trim_law := board_heap_trim_law }.
End Board.

(** ** A board that was just initialised *)

Definition la0 : layout := mkLayout 1000 2000 20000 30000.
Lemma la0_ok : layout_ok la0.
Proof. repeat split; cbn; unfold away; lia. Qed.
Definition mem0 : PbufMemory := board_memory la0 la0_ok.

Definition pools0 : memp_state :=
  match memp_init (board_pools la0) 3 memp0 with Ok (_, s) => s | _ => memp0 end.
Definition board0 : board := (pools0, heap1).

Lemma board0_owns : board_owns la0 board0 [].
Proof.
  exists (fun _ => []), []. split; [|split; [|now split]].
  - destruct (memp_init_spec (board_pools la0) 3 (board_pools_ok la0 la0_ok)
      (board_pools_disjoint la0 la0_ok) memp0) as (s' & E & Hr); [reflexivity|].
    unfold board0, pools0. cbn [fst]. now rewrite E.
  - eexists. split; [exact heap1_rep|]. split; [constructor|]. now split.
Qed.

(** No pbuf is in use; the payload bytes count up. *)
Definition pst0 : @pst mem0 :=
  @mkPst mem0 (fun _ => mkPbuf 0 0 0 0 PBUF_RAM 0 0) (fun a => a mod 256) board0 false 0.

Lemma pbuf_alloc_pool_witness : exists p s',
  @pbuf_alloc mem0 false (fun _ => ret tt) (fun _ => true) PBUF_LINK 1000 PBUF_POOL pst0 = Ok (p, s') /\
  (p = 0 \/ (structs s' p).(tot_len) = 1000).
Proof.
  destruct (@pbuf_alloc_pool mem0 false (fun _ => ret tt) (fun _ => true) pst0 [] PBUF_LINK 1000)
    as (p & s' & E & _ & H).
  - exact board0_owns.
  - lia.
  - reflexivity.
  - exists p, s'. split; [exact E|]. destruct H as [[H _]|(l & _ & _ & _ & _ & H & _)]; [now left|now right].
Defined.

Lemma pbuf_alloc_ram_witness : exists p s',
  @pbuf_alloc mem0 false (fun _ => ret tt) (fun _ => true) PBUF_TRANSPORT 65500 PBUF_RAM pst0 = Ok (p, s') /\
  p <> 0 /\ ~ (structs s' p).(payload) + 65500 <= p + 34.
Proof.
  destruct (@pbuf_alloc_ram mem0 false (fun _ => ret tt) (fun _ => true) pst0 [] PBUF_TRANSPORT 65500)
    as (p & s' & E & _ & H).
  - exact board0_owns.
  - lia.
  - exists p, s'. split; [exact E|].
    assert (Hp : p <> 0).
    { intros ->. assert (Hc : match @pbuf_alloc mem0 false (fun _ => ret tt) (fun _ => true) PBUF_TRANSPORT 65500 PBUF_RAM pst0
        with Ok (q, _) => q =? 0 | _ => true end = false) by (vm_compute; reflexivity).
      rewrite E in Hc. discriminate. }
    split; [exact Hp|]. destruct H as [[H _]|(_ & _ & H)]; [contradiction|].
    intros Hle. apply H in Hle. discriminate.
Defined.

(** A chain of two pool pbufs, allocated as [pbuf_alloc] does. *)
Lemma two_pbufs : exists p q s', p <> q /\ building s' p q 0 [p; q] [] /\
  @alloc_pool mem0 false (fun _ => ret tt) (fun _ => true) 14 1000 pst0 = Ok (p, s').
Proof.
  destruct (@alloc_pool_spec mem0 false (fun _ => ret tt) (fun _ => true) pst0 [] 1000 14 board0_owns)
    as (p & s' & E & _ & H); [lia|lia|reflexivity|].
  assert (Hc : match @alloc_pool mem0 false (fun _ => ret tt) (fun _ => true) 14 1000 pst0
    with Ok (q, s) => negb (q =? 0) && negb ((structs s q).(next) =? 0) && ((structs s (structs s q).(next)).(next) =? 0)
    | _ => false end = true) by (vm_compute; reflexivity).
  rewrite E in Hc. apply andb_prop in Hc. destruct Hc as [Hc H3]. apply andb_prop in Hc. destruct Hc as [H1 H2].
  apply negb_true_iff, Z.eqb_neq in H1, H2. apply Z.eqb_eq in H3.
  destruct H as [[-> _]|(r & l & Hb & _)]; [contradiction|].
  pose proof Hb as [Hch (l0 & Hl) _ _ Ho]. pose proof (owns_nodup _ _ _ Ho) as Hnd.
  destruct l as [|a [|b [|c l]]]; cbn [chain] in Hch.
  - now destruct l0.
  - destruct Hch as (-> & _ & Hn). contradiction.
  - destruct Hch as (-> & _ & Hn & _). exists a, b, s'.
    assert (r = b) as -> by (destruct l0 as [|? [|? [|? ?]]]; inversion Hl; reflexivity).
    split; [|now split]. apply NoDup_cons_iff in Hnd. destruct Hnd as [Hni _]. intros ->. apply Hni. now left.
  - destruct Hch as (-> & _ & Hb1 & _ & Hn & Hc0 & _). rewrite Hb1 in H3. congruence.
Qed.

Lemma pbuf_free_releases_witness : exists p s s',
  @pbuf_free mem0 false (fun _ => ret tt) 3 p s = Ok (2, s') /\ board_owns la0 s'.(mm) [].
Proof.
  destruct two_pbufs as (p & q & s & Hpq & [Hc _ _ Hp Ho] & _).
  destruct (@pbuf_free_releases mem0 false (fun _ => ret tt) (fun _ => true) s p [p; q] [] (fun _ => pool_bytes MEMP_PBUF_POOL) [] 3)
    as (s' & E & Ho' & _).
  - exact Hc.
  - discriminate.
  - exact (owns_nodup _ _ _ Ho).
  - eapply Forall_impl; [|exact Hp]. intros a (H1 & H2 & _). now split.
  - exact I.
  - change (fun _ => pool_bytes MEMP_PBUF_POOL) with (fun _ : Z => @pool_size mem0 MEMP_PBUF_POOL). now rewrite held_pool.
  - cbn. lia.
  - exists p, s, s'. split; [exact E|exact Ho'].
Defined.

Lemma pbuf_dechain_detaches_witness : exists p s s',
  @pbuf_dechain mem0 false (fun _ => ret tt) 3 p s = Ok (0, s') /\ chain s'.(structs) p [p].
Proof.
  destruct two_pbufs as (p & q & s & Hpq & [Hc _ Hl Hp Ho] & E0).
  destruct (@pbuf_dechain_detaches mem0 false (fun _ => ret tt) (fun _ => true) s p [q] [] (fun _ => pool_bytes MEMP_PBUF_POOL)
    (@pool_blocks mem0 [p]) 3) as (s' & E & _ & Hc' & _).
  - exact Hc.
  - exact (owns_nodup _ _ _ Ho).
  - exact Hl.
  - assert (Ht : match @alloc_pool mem0 false (fun _ => ret tt) (fun _ => true) 14 1000 pst0
      with Ok (a, t) => (structs t a).(tot_len) <? 65536 | _ => false end = true) by (vm_compute; reflexivity).
    rewrite E0 in Ht. now apply Z.ltb_lt in Ht.
  - apply Forall_cons_iff in Hp. destruct Hp as [_ Hp].
    eapply Forall_impl; [|exact Hp]. intros a (H1 & H2 & _). now split.
  - exact I.
  - change (fun _ => pool_bytes MEMP_PBUF_POOL) with (fun _ : Z => @pool_size mem0 MEMP_PBUF_POOL).
    apply Forall_cons_iff in Hp. destruct Hp as [_ Hp]. rewrite held_pool by exact Hp.
    exact (owns_perm _ _ _ (perm_swap _ _ _) Ho).
  - cbn. lia.
  - exists p, s, s'. split; [exact E|exact Hc'].
Defined.

(** A packet of two pbufs with payloads of 3 and 4 bytes. *)
Definition packet : Z -> pbuf := fun a =>
  if a =? 100 then mkPbuf 200 500 7 3 PBUF_REF 0 1 else mkPbuf 0 600 4 4 PBUF_REF 0 1.
Definition pst1 : @pst mem0 := @mkPst mem0 packet (fun a => a mod 256) board0 false 0.

Lemma pbuf_copy_partial_slice_witness :
  @pbuf_copy_partial mem0 false 3 100 true 4 1 pst1 = Ok ((4, [245; 246; 88; 89]), pst1).
Proof.
  apply (@pbuf_copy_partial_slice mem0 false pst1 3 100 [100; 200] 4 1);
    [now repeat split|discriminate|repeat constructor; cbn; discriminate|lia|lia|cbn; lia].
Defined.

Lemma pbuf_take_roundtrip_witness : exists s',
  @pbuf_take mem0 false 3 100 (Some [1; 2; 3; 4; 5]) 5 pst1 = Ok (ERR_OK, s') /\
  content s'.(structs) s'.(data) [100; 200] = [1; 2; 3; 4; 5; 90; 91].
Proof.
  destruct (@pbuf_take_roundtrip mem0 false pst1 3 100 [100; 200] [1; 2; 3; 4; 5]) as (s' & E & _ & H & _).
  - now repeat split.
  - discriminate.
  - vm_compute. repeat split; congruence.
  - reflexivity.
  - constructor; [|repeat constructor]. constructor; [|constructor].
    unfold in_payload. intros x. vm_compute (payload _). vm_compute (len _). lia.
  - cbn; lia.
  - reflexivity.
  - exists s'. split; [exact E|exact H].
Defined.
