(* ===== verification/PbufCopy.v ===== *)
(** * Whole packets: copying, freeing, making room for a header

    Lemmas about pbuf.c for the protocols that build and send packets
    (ethernet.c, etharp.c, ip4.c, udp.c). *)

From Stdlib Require Import ZArith List Lia Bool Permutation.
From S2P Require Import Prelude Def Mem PbufMem Pbuf.
Import ListNotations.
Open Scope Z_scope.
Open Scope c_scope.

Lemma put16_htons v : is_u16 v -> put16 (lwip_htons v) = [v / 256; v mod 256].
Proof.
  intros H. unfold put16. rewrite lwip_htons_eq by assumption. f_equal; [word_div|f_equal; word_div].
Qed.

Lemma app_inj_length {A} (a b c d : list A) : length a = length c -> a ++ b = c ++ d -> a = c /\ b = d.
Proof.
  revert c. induction a as [|x a IH]; intros [|y c] Hl E; try discriminate; [now split|]. injection E as -> E. injection Hl as Hl.
  destruct (IH c Hl E) as [-> ->]. now split.
Qed.

Section PbufCopy.
Context {PMem : PbufMemory}.
Variable NOASSERT : bool.
Variable custom_free_function : Z -> PB unit.
Variable tcpip_callback_ok : pst -> bool.

Lemma concat_single {A} (x : list A) : concat [x] = x.
Proof. apply app_nil_r. Qed.

Lemma content_single f d p : content f d [p] = load_list d (f p).(payload) (f p).(len).
Proof. apply concat_single. Qed.

Lemma load_app d a n m : 0 <= n -> 0 <= m -> load_list d a (n + m) = load_list d a n ++ load_list d (a + n) m.
Proof.
  intros Hn Hm. apply nth_error_ext. intros i. rewrite nth_error_app, load_list_length, !nth_load.
  destruct (Nat.ltb_spec i (Z.to_nat n)).
  - destruct (Nat.ltb_spec i (Z.to_nat (n + m))); [reflexivity|lia].
  - replace (i - Z.to_nat n <? Z.to_nat m)%nat with (i <? Z.to_nat (n + m))%nat
      by (destruct (Nat.ltb_spec i (Z.to_nat (n + m))), (Nat.ltb_spec (i - Z.to_nat n) (Z.to_nat m)); (reflexivity || lia)).
    destruct (i <? _)%nat; [|reflexivity]. do 2 f_equal. lia.
Qed.

(** [pbuf_free] of a single pbuf with one reference. *)
Lemma pbuf_free_one s p n bs fuel : p <> 0 -> (s.(structs) p).(next) = 0 -> (s.(structs) p).(ref) = 1 -> not_custom (s.(structs) p) ->
  owns s.(mm) (mkBlk (origin_of (s.(structs) p).(type)) p n :: bs) -> (1 < fuel)%nat ->
  exists s', pbuf_free NOASSERT custom_free_function fuel p s = Ok (1, s') /\ owns s'.(mm) bs /\ s'.(data) = s.(data) /\
    forall a, a <> p -> s'.(structs) a = s.(structs) a.
Proof.
  intros Hp Hn Hr Hc Ho Hf.
  destruct (free_loop_spec NOASSERT custom_free_function tcpip_callback_ok (fun _ => n) bs [] [p] fuel p 0 s) as (s' & E & Ho' & Hd & Hs);
    [now cbn|constructor; [auto|constructor]|constructor; auto|exact I|exact Ho|exact Hf|lia|].
  exists s'. unfold pbuf_free. rewrite (proj2 (Z.eqb_neq _ _) Hp). split; [exact E|]. split; [exact Ho'|]. split; [exact Hd|].
  intros a Ha. apply Hs. intros [->|[]]. congruence.
Qed.

(** Room for a header in front of the payload. *)
Lemma pbuf_header_show s p n : p <> 0 -> 0 < n < 32768 ->
  (s.(structs) p).(type) = PBUF_RAM \/ (s.(structs) p).(type) = PBUF_POOL ->
  0 <= (s.(structs) p).(len) -> (s.(structs) p).(len) + n < 65536 -> 0 <= (s.(structs) p).(tot_len) -> (s.(structs) p).(tot_len) + n < 65536 ->
  p + SIZEOF_STRUCT_PBUF + n <= (s.(structs) p).(payload) ->
  exists s', pbuf_header NOASSERT p n s = Ok (0, s') /\ s'.(mm) = s.(mm) /\ s'.(data) = s.(data) /\
    s'.(structs) p = (s.(structs) p) <| payload := (s.(structs) p).(payload) - n |> <| len := (s.(structs) p).(len) + n |>
      <| tot_len := (s.(structs) p).(tot_len) + n |> /\
    forall a, a <> p -> s'.(structs) a = s.(structs) a.
Proof.
  intros Hp Hn Ht Hl1 Hl2 Ht1 Ht2 Hroom. unfold pbuf_header, pbuf_header_impl. rewrite bind_lwip_assert by (now rewrite (proj2 (Z.eqb_neq _ _) Hp)).
  rewrite (proj2 (Z.eqb_neq n 0)), (proj2 (Z.eqb_neq _ _) Hp) by lia. cbn [orb]. unfold get. rewrite bind_gets.
  rewrite lwip_error_ok by (now rewrite Z.geb_leb, (proj2 (Z.leb_le 0 n)) by lia).
  set (s' := s <| structs := upd_at s.(structs) p (fun b => b <| payload := (structs s p).(payload) - n |>
      <| len := u16 (b.(len) + n) |> <| tot_len := u16 (b.(tot_len) + n) |>) |>).
  exists s'. split; [|split; [reflexivity|split; [reflexivity|split]]].
  - destruct Ht as [->| ->]; rewrite (proj2 (Z.ltb_ge _ _)) by lia; reflexivity.
  - unfold s'. rewrite structs_set, upd_at_same. now rewrite !u16_id by word_lia.
  - intros a Ha. unfold s'. rewrite structs_set. now apply upd_at_other.
Qed.

(** ** Copying a packet into one pbuf *)

Lemma copy_in_at dst src n d x : 0 <= x - dst < n -> copy_in dst src n d x = d (src + (x - dst)).
Proof. intros H. unfold copy_in. now rewrite (proj2 (Z.leb_le _ _)), (proj2 (Z.ltb_lt _ _)) by lia. Qed.
Lemma copy_in_other dst src n d x : ~ dst <= x < dst + n -> copy_in dst src n d x = d x.
Proof.
  intros H. unfold copy_in. destruct (Z.leb_spec dst x), (Z.ltb_spec x (dst + n)); cbn [andb]; try reflexivity. lia.
Qed.

Lemma load_copy_in dst src n d : load_list (copy_in dst src n d) dst n = load_list d src n.
Proof.
  apply map_ext_in. intros i Hi. apply in_seq in Hi. rewrite copy_in_at by lia. f_equal. lia.
Qed.

(** [t] is the pbuf that is filled; [k] bytes of it are. *)
Lemma copy_loop_spec t n l : forall s fuel p k,
  t <> 0 -> (s.(structs) t).(next) = 0 -> (s.(structs) t).(len) = n -> (s.(structs) t).(tot_len) = n -> n < 65536 ->
  chain s.(structs) p l -> l <> [] -> lengths s.(structs) 0 l -> Forall (fun a => 0 < (s.(structs) a).(len)) l ->
  0 <= k -> k + total s.(structs) l = n -> (length l <= fuel)%nat ->
  (forall a x, In a l -> in_payload s.(structs) a x -> ~ (s.(structs) t).(payload) <= x < (s.(structs) t).(payload) + n) ->
  exists d', copy_loop NOASSERT fuel t p k 0 s = Ok (ERR_OK, s <| data := d' |>) /\
    load_list d' ((s.(structs) t).(payload) + k) (n - k) = content s.(structs) s.(data) l /\
    forall x, ~ (s.(structs) t).(payload) + k <= x < (s.(structs) t).(payload) + n -> d' x = s.(data) x.
Proof.
  induction l as [|a l IH]; intros s fuel p k Ht Hnext Hlen Htot Hn Hc Hne Hl Hpos Hk Hsum Hf Hapart; [contradiction|].
  destruct fuel as [|fuel]; [cbn in Hf; lia|]. cbn [copy_loop]. unfold get. rewrite !bind_gets.
  destruct Hc as (-> & Ha0 & Hc). apply Forall_cons_iff in Hpos. destruct Hpos as [Hla Hpos].
  cbn [total lengths] in Hsum, Hl. destruct Hl as (_ & Htl & Hl). cbn [total] in Htl.
  assert (Hrest : 0 <= total s.(structs) l) by (apply total_nonneg; eapply Forall_impl; [|exact Hpos]; cbv beta; intros; lia).
  rewrite Hlen, !Z.sub_0_r, Z.add_0_r. rewrite Z.geb_leb, (proj2 (Z.leb_le _ _)) by lia. rewrite !u16_id by word_lia.
  rewrite bind_modify. cbv zeta. set (P := payload (structs s t)) in *. set (A := payload (structs s a)) in *. set (la := len (structs s a)) in *.
  set (d1 := copy_in (P + k) A la (data s)).
  rewrite ?u16_id by word_lia. rewrite !bind_lwip_assert by (apply Z.leb_le; lia).
  rewrite Z.add_0_l, Z.geb_leb, Z.leb_refl. set (s1 := s <| data := d1 |>).
  assert (Hd1 : load_list d1 (P + k) la = load_list (data s) A la) by apply load_copy_in.
  assert (Hout1 : forall x, ~ P + k <= x < P + k + la -> d1 x = data s x) by (intros; now apply copy_in_other).
  destruct l as [|b l].
  - cbn [chain total] in *. rewrite Hc, (proj2 (Z.eqb_eq (k + la) n)) by lia. rewrite Hnext.
    rewrite !lwip_error_ok, bind_gets, lwip_error_ok by reflexivity. exists d1. split; [reflexivity|]. rewrite content_single. fold A la.
    replace (n - k) with la by lia. split; [exact Hd1|]. intros x Hx. apply Hout1. lia.
  - apply Forall_cons_iff in Hpos as Hpos'. destruct Hpos' as [Hlb Hpos2]. destruct (chain_nonnull _ _ _ _ Hc) as [Hb Hb0].
    cbn [total] in Hrest, Hsum, Htl. assert (Hrest2 : 0 <= total s.(structs) l)
      by (apply total_nonneg; eapply Forall_impl; [|exact Hpos2]; cbv beta; intros; lia).
    rewrite (proj2 (Z.eqb_neq (k + la) n)) by lia. rewrite lwip_error_ok by (now rewrite (proj2 (Z.eqb_neq _ _) Ht)).
    rewrite bind_gets. change (structs s1) with (structs s). rewrite Hb.
    assert (Hb1 : (b =? 0) = false) by (now rewrite <- Hb). rewrite Hb1. cbn [negb andb].
    rewrite lwip_error_ok.
    2:{ destruct Hl as (_ & Htb & _). cbn [total] in Htb. destruct l as [|c l]; [destruct Hc as (_ & _ & Hc); cbn in Hc; rewrite Hc; now rewrite orb_true_r|].
        apply Forall_cons_iff in Hpos2. cbn [total] in Htb, Hrest2. assert (0 <= total s.(structs) l)
          by (apply total_nonneg; eapply Forall_impl; [|exact (proj2 Hpos2)]; cbv beta; intros; lia).
        rewrite (proj2 (Z.eqb_neq (len _) _)) by lia. reflexivity. }
    rewrite bind_gets. change (structs s1) with (structs s). rewrite (proj2 (Z.eqb_neq _ _) Ht), Hnext. cbn [negb andb].
    rewrite lwip_error_ok by (apply orb_true_r).
    destruct (IH s1 fuel b (k + la)) as (d2 & E & Hload & Hout); try assumption; try lia; try discriminate.
    + rewrite Hb in Hc. exact Hc.
    + cbn [total]. change (structs s1) with (structs s). lia.
    + cbn [length] in Hf |- *. lia.
    + intros a' x Ha' Hx. apply (Hapart a'); [now right|exact Hx].
    + change (structs s1) with (structs s) in *. change (data s1) with d1 in *. fold P in Hload, Hout. exists d2. split; [exact E|]. split.
      * replace (n - k) with (la + (n - (k + la))) by lia. rewrite load_app by lia.
        change (content (structs s) (data s) (a :: b :: l)) with (load_list (data s) A la ++ content (structs s) (data s) (b :: l)). f_equal.
        -- rewrite (load_ext d1) by (intros; apply Hout; lia). exact Hd1.
        -- rewrite <- Z.add_assoc, Hload. apply content_ext. intros a' x Ha' Hx. apply Hout1. intros Hin.
           apply (Hapart a' x); [now right|exact Hx|]. fold P. lia.
      * intros x Hx. rewrite Hout by lia. apply Hout1. lia.
Qed.

(** Whole-packet copy into the pbuf [t], whose length is that of the packet. *)
Lemma pbuf_copy_spec s t p l fuel : t <> 0 -> (s.(structs) t).(next) = 0 -> (s.(structs) t).(len) = total s.(structs) l ->
  (s.(structs) t).(tot_len) = total s.(structs) l -> total s.(structs) l < 65536 ->
  chain s.(structs) p l -> l <> [] -> lengths s.(structs) 0 l -> Forall (fun a => 0 < (s.(structs) a).(len)) l -> (length l <= fuel)%nat ->
  (forall a x, In a l -> in_payload s.(structs) a x ->
     ~ (s.(structs) t).(payload) <= x < (s.(structs) t).(payload) + total s.(structs) l) ->
  exists d', pbuf_copy NOASSERT fuel t p s = Ok (ERR_OK, s <| data := d' |>) /\
    load_list d' (s.(structs) t).(payload) (total s.(structs) l) = content s.(structs) s.(data) l /\
    forall x, ~ (s.(structs) t).(payload) <= x < (s.(structs) t).(payload) + total s.(structs) l -> d' x = s.(data) x.
Proof.
  intros Ht Hnext Hlen Htot Hn Hc Hne Hl Hpos Hf Hap. unfold pbuf_copy, get. rewrite !bind_gets.
  destruct l as [|a l]; [contradiction|]. destruct (chain_nonnull _ _ _ _ Hc) as [Hpa Hp0]. pose proof Hl as (_ & Hta & _). rewrite Z.add_0_r in Hta.
  rewrite lwip_error_ok by (rewrite Hp0, (proj2 (Z.eqb_neq _ _) Ht), Hpa, Hta, Htot, Z.geb_leb, Z.leb_refl; reflexivity).
  destruct (copy_loop_spec t (total s.(structs) (a :: l)) (a :: l) s fuel p 0) as (d' & E & H1 & H2); try assumption; try lia.
  rewrite Z.add_0_r, Z.sub_0_r in *. eauto.
Qed.

(** ** Bytes in memory *)

Lemma load_store_exact d a l : load_list (store_list a l d) a (Z.of_nat (length l)) = l.
Proof.
  apply nth_error_ext. intros i. rewrite nth_load, Nat2Z.id. destruct (Nat.ltb_spec i (length l)) as [Hi|Hi].
  - rewrite (store_at d a l i) by lia. symmetry. now apply nth_error_nth'.
  - symmetry. now apply nth_error_None.
Qed.

Lemma load_store_other d a l b n : b + n <= a \/ a + Z.of_nat (length l) <= b -> load_list (store_list a l d) b n = load_list d b n.
Proof. intros H. apply load_ext. intros x Hx. apply store_other. lia. Qed.
(** ** Blocks *)

(** A block and what it holds are as they were. *)
Definition untouched (s s' : pst) (b : blk) : Prop :=
  s'.(structs) b.(b_addr) = s.(structs) b.(b_addr) /\
  forall x, b.(b_addr) <= x < b.(b_addr) + b.(b_size) -> s'.(data) x = s.(data) x.

Lemma untouched_trans s1 s2 s3 b : untouched s1 s2 b -> untouched s2 s3 b -> untouched s1 s3 b.
Proof. intros [A1 A2] [B1 B2]. split; [congruence|]. intros x Hx. now rewrite B2, A2. Qed.

(** Addresses of one block are not addresses of another. *)
Lemma owns_outside m b bs c x : owns m (b :: bs) -> In c bs -> c.(b_addr) <= x < c.(b_addr) + c.(b_size) ->
  ~ b.(b_addr) <= x < b.(b_addr) + b.(b_size).
Proof.
  intros Ho Hc Hx. pose proof (owns_apart _ _ Ho) as Ha. inversion Ha as [|? ? Hall _]; subst.
  rewrite Forall_forall in Hall. destruct (Hall c Hc); lia.
Qed.

Lemma owns_other m b bs c : owns m (b :: bs) -> In c bs -> c.(b_addr) <> b.(b_addr).
Proof. intros Ho Hc E. apply (proj2 (owns_fresh _ _ _ Ho)). rewrite <- E. now apply in_map. Qed.
End PbufCopy.
