(* ===== verification/Slip.v ===== *)
(** * The SLIP interface (lwip/src/netif/slipif.c)

    IP packets over a serial line: [slipif_output] frames and escapes a packet,
    [slipif_rxbyte] assembles one from the line byte by byte in pbufs of the
    pool.  The serial layer (sio.h) and [netif->input] belong to the port and
    to the stack: they are section variables.  Loops take fuel; the endless
    loop of the receive thread is a number of its rounds. *)

From Stdlib Require Import ZArith List Lia Bool Permutation.
From S2P Require Import Prelude Mem PbufMem Pbuf PbufBoard.
Import ListNotations.
Open Scope Z_scope.
Open Scope c_scope.

Definition SLIP_END := 0xC0.
Definition SLIP_ESC := 0xDB.
Definition SLIP_ESC_END := 0xDC.
Definition SLIP_ESC_ESC := 0xDD.
Definition SLIP_MAX_SIZE := 1500.

Inductive slipif_recv_state := SLIP_RECV_NORMAL | SLIP_RECV_ESCAPE.

(** [struct slipif_priv] *)
Record slipif_priv := mkPriv {
  sd : Z; rx_p : Z; rx_q : Z; rx_state : slipif_recv_state; rx_i : Z; rx_recved : Z; rxpackets : Z }.
#[export] Instance slipif_priv_eta : Eta slipif_priv := { eta := fun r =>
  mkPriv r.(sd) r.(rx_p) r.(rx_q) r.(rx_state) r.(rx_i) r.(rx_recved) r.(rxpackets) }.

(** What the driver uses of [struct netif]; [has_output]: [output] points to
    [slipif_output_v4]. *)
Record netif := mkNetif { num : Z; nstate : Z; name : Z * Z; mtu : Z; has_output : bool }.
#[export] Instance netif_eta : Eta netif := { eta := fun r =>
  mkNetif r.(num) r.(nstate) r.(name) r.(mtu) r.(has_output) }.

(** More than the length of any chain: [tot_len] has 16 bits. *)
Definition chain_fuel : nat := S (Z.to_nat 65536).

Section Slip.
Context {PMem : PbufMemory}.
Variable NOASSERT : bool.
Variable custom_free_function : Z -> PB unit.
Variable tcpip_callback_ok : pst -> bool.

(** The state of the serial devices and the functions of sio.h: [sio_open]
    gives a descriptor or NULL; the read functions give the byte they read, or
    nothing when they return 0. *)
Variable sio : Type.
Variable sio_open : Z -> sio -> Z * sio.
Variable sio_send : Z -> Z -> sio -> sio.
Variables sio_read sio_tryread : Z -> sio -> option Z * sio.

(** SLIP_RX_FROM_ISR, SLIP_RX_QUEUE and SLIP_USE_RX_THREAD *)
Variables RX_FROM_ISR RX_QUEUE USE_RX_THREAD : bool.

(** The memory, the driver's data (at the address [nstate] once it is
    initialised), the interface, the serial devices, two of the link statistics
    and the number of receive threads that were started. *)
Record slip := mkSlip {
  mem : pst; priv : slipif_priv; nif : netif; dev : sio; link_recv : Z; link_drop : Z; threads : Z }.
#[export] Instance slip_eta : Eta slip := { eta := fun r =>
  mkSlip r.(mem) r.(priv) r.(nif) r.(dev) r.(link_recv) r.(link_drop) r.(threads) }.

Definition SL := M slip.

(** [netif->input]: whether it returned ERR_OK. *)
Variable input : Z -> SL bool.

Definition pb {A} (m : PB A) : SL A := fun s =>
  match m s.(mem) with
  | Ok (a, m') => Ok (a, s <| mem := m' |>)
  | Halt => Halt
  | Hang => Hang
  end.

Definition set_priv (f : slipif_priv -> slipif_priv) : SL unit := modify (fun s => s <| priv := f s.(priv) |>).
Definition assert (c : bool) : SL unit := pb (LWIP_ASSERT NOASSERT c).
Definition send (c : Z) : SL unit := modify (fun s => s <| dev := sio_send c s.(priv).(sd) s.(dev) |>).

(** A call of one of the read functions. *)
Definition read (f : Z -> sio -> option Z * sio) : SL (option Z) := fun s =>
  let '(c, d) := f s.(priv).(sd) s.(dev) in Ok (c, s <| dev := d |>).

(** ** Sending *)

(** The [switch] on a byte of the packet. *)
Definition send_escaped (c : Z) : SL unit :=
  if c =? SLIP_END then send SLIP_ESC ;; send SLIP_ESC_END
  else if c =? SLIP_ESC then send SLIP_ESC ;; send SLIP_ESC_ESC
  else send c.

(** [for (i = 0; i < q->len; i++)]; [n] bytes are left. *)
Fixpoint output_bytes (n : nat) (q i : Z) : SL unit :=
  match n with
  | O => ret tt
  | S n =>
      do c <- gets (fun s => s.(mem).(data) ((s.(mem).(structs) q).(payload) + i));
      send_escaped c ;;
      output_bytes n q (u16 (i + 1))
  end.

Fixpoint output_chain (fuel : nat) (q : Z) : SL unit :=
  if q =? 0 then ret tt else
  match fuel with
  | O => hang
  | S n =>
      do b <- gets (fun s => s.(mem).(structs) q);
      output_bytes (Z.to_nat b.(len)) q 0 ;;
      output_chain n b.(next)
  end.

Definition slipif_output (p : Z) : SL err_t :=
  do nf <- gets nif;
  assert (negb (nf.(nstate) =? 0)) ;;
  assert (negb (p =? 0)) ;;
  send SLIP_END ;;
  output_chain chain_fuel p ;;
  send SLIP_END ;;
  ret ERR_OK.

Definition slipif_output_v4 (p ipaddr : Z) : SL err_t := slipif_output p.
Definition slipif_output_v6 (p ipaddr : Z) : SL err_t := slipif_output p.

(** ** Receiving *)

Definition LINK_STATS_INC_recv : SL unit := modify (fun s => s <| link_recv := u16 (s.(link_recv) + 1) |>).
Definition LINK_STATS_INC_drop : SL unit := modify (fun s => s <| link_drop := u16 (s.(link_drop) + 1) |>).

(** SLIP_END: the packet is complete unless nothing was received. *)
Definition rx_end : SL Z :=
  do v <- gets priv;
  if v.(rx_recved) >? 0 then
    pb (pbuf_realloc NOASSERT custom_free_function chain_fuel v.(rx_q) v.(rx_recved)) ;;
    LINK_STATS_INC_recv ;;
    do t <- gets (fun s => s.(priv).(rx_q));
    set_priv (fun v => v <| rx_q := 0 |> <| rx_p := 0 |>) ;;
    set_priv (fun v => v <| rx_recved := 0 |> <| rx_i := 0 |>) ;;
    ret t
  else ret 0.

(** [if (priv->p == NULL)]: a new pbuf, chained to the packet; false if there
    was none. *)
Definition rx_alloc : SL bool :=
  do v <- gets priv;
  if v.(rx_p) =? 0 then
    do p <- pb (pbuf_alloc NOASSERT custom_free_function tcpip_callback_ok PBUF_LINK
      (PBUF_POOL_BUFSIZE - PBUF_LINK_HLEN - PBUF_LINK_ENCAPSULATION_HLEN) PBUF_POOL);
    set_priv (fun v => v <| rx_p := p |>) ;;
    if p =? 0 then LINK_STATS_INC_drop ;; ret false
    else
      (if negb (v.(rx_q) =? 0) then pb (pbuf_cat NOASSERT chain_fuel v.(rx_q) p)
       else set_priv (fun v => v <| rx_q := p |>)) ;;
      ret true
  else ret true.

(** [if ((priv->p != NULL) && (priv->recved <= SLIP_MAX_SIZE))] *)
Definition rx_put (c : Z) : SL unit :=
  do v <- gets priv;
  when negb (v.(rx_p) =? 0) && (v.(rx_recved) <=? SLIP_MAX_SIZE) then
    (do b <- gets (fun s => s.(mem).(structs) v.(rx_p));
     modify (fun s => s <| mem := s.(mem) <| data := store_list (b.(payload) + v.(rx_i)) [c] s.(mem).(data) |> |>) ;;
     set_priv (fun v => v <| rx_recved := u16 (v.(rx_recved) + 1) |>) ;;
     set_priv (fun v => v <| rx_i := u16 (v.(rx_i) + 1) |>) ;;
     do i <- gets (fun s => s.(priv).(rx_i));
     when i >=? b.(len) then
       (set_priv (fun v => v <| rx_i := 0 |>) ;;
        do nx <- gets (fun s => s.(mem).(structs) b.(next));
        if negb (b.(next) =? 0) && (nx.(len) >? 0)
        then set_priv (fun v => v <| rx_p := b.(next) |>)
        else set_priv (fun v => v <| rx_p := 0 |>))).

(** Behind the [switch]es: a byte of the packet. *)
Definition rx_data (c : Z) : SL Z :=
  do ok <- rx_alloc;
  if ok : bool then rx_put c ;; ret 0 else ret 0.

(** The packet when SLIP_END is received, NULL before. *)
Definition slipif_rxbyte (c : Z) : SL Z :=
  do nf <- gets nif;
  assert (negb (nf.(nstate) =? 0)) ;;
  do v <- gets priv;
  match v.(rx_state) with
  | SLIP_RECV_NORMAL =>
      if c =? SLIP_END then rx_end
      else if c =? SLIP_ESC then set_priv (fun v => v <| rx_state := SLIP_RECV_ESCAPE |>) ;; ret 0
      else rx_data c
  | SLIP_RECV_ESCAPE =>
      let c := if c =? SLIP_ESC_END then SLIP_END else if c =? SLIP_ESC_ESC then SLIP_ESC else c in
      set_priv (fun v => v <| rx_state := SLIP_RECV_NORMAL |>) ;;
      rx_data c
  end.

(** Hand a packet to the stack; it is freed if the stack does not take it. *)
Definition deliver (p : Z) : SL unit :=
  do ok <- input p;
  if ok : bool then ret tt
  else (pb (pbuf_free NOASSERT custom_free_function chain_fuel p) ;; ret tt).

Definition slipif_rxbyte_input (c : Z) : SL unit :=
  do p <- slipif_rxbyte c;
  when negb (p =? 0) then deliver p.

(** Rounds of the thread's [while (1)]. *)
Fixpoint slipif_loop_thread (rounds : nat) : SL unit :=
  match rounds with
  | O => ret tt
  | S n =>
      do c <- read sio_read;
      match c with Some c => slipif_rxbyte_input c | None => ret tt end ;;
      slipif_loop_thread n
  end.

Fixpoint poll_loop (fuel : nat) : SL unit :=
  match fuel with
  | O => hang
  | S n =>
      do c <- read sio_tryread;
      match c with
      | Some c => slipif_rxbyte_input c ;; poll_loop n
      | None => ret tt
      end
  end.

Definition slipif_poll (fuel : nat) : SL unit :=
  do nf <- gets nif;
  assert (negb (nf.(nstate) =? 0)) ;;
  poll_loop fuel.

(** ** Initialisation *)

(** [sizeof(struct slipif_priv)] *)
Definition sizeof_slipif_priv : Z := if RX_FROM_ISR then 24 else 20.

Definition slipif_init : SL err_t :=
  do p <- pb (lift (heap_malloc sizeof_slipif_priv));
  match p with
  | None => ret ERR_MEM
  | Some a =>
      modify (fun s => s <| nif := s.(nif) <| name := (115, 108) |> <| has_output := true |> <| mtu := SLIP_MAX_SIZE |> |>) ;;
      do sio_num <- gets (fun s => if negb (s.(nif).(nstate) =? 0) then s.(mem).(data) s.(nif).(nstate) else s.(nif).(num));
      do fd <- (fun s => let '(fd, d) := sio_open sio_num s.(dev) in Ok (fd, s <| dev := d |>));
      set_priv (fun v => v <| sd := fd |>) ;;
      if fd =? 0 then pb (lift (heap_free a)) ;; ret ERR_IF
      else
        set_priv (fun v => v <| rx_p := 0 |> <| rx_q := 0 |> <| rx_state := SLIP_RECV_NORMAL |>
                             <| rx_i := 0 |> <| rx_recved := 0 |>) ;;
        (when RX_FROM_ISR then set_priv (fun v => v <| rxpackets := 0 |>)) ;;
        modify (fun s => s <| nif := s.(nif) <| nstate := a |> |>) ;;
        (when USE_RX_THREAD then modify (fun s => s <| threads := s.(threads) + 1 |>)) ;;
        ret ERR_OK
  end.

(** ** The queue filled by the interrupt handler *)

(** The last pbuf of the first packet. *)
Fixpoint packet_end (fuel : nat) (q : Z) : PB Z :=
  match fuel with
  | O => hang
  | S n =>
      do b <- get q;
      if negb (b.(len) =? b.(tot_len)) && negb (b.(next) =? 0) then packet_end n b.(next) else ret q
  end.

Fixpoint slipif_process_rxqueue_loop (fuel : nat) : SL unit :=
  do v <- gets priv;
  let p := v.(rxpackets) in
  if negb (p =? 0) then
    match fuel with
    | O => hang
    | S n =>
        (if RX_QUEUE then
           do q <- pb (packet_end chain_fuel p);
           do b <- pb (get q);
           set_priv (fun v => v <| rxpackets := b.(next) |>) ;;
           pb (upds q (fun b => b <| next := 0 |>))
         else set_priv (fun v => v <| rxpackets := 0 |>)) ;;
        deliver p ;;
        slipif_process_rxqueue_loop n
    end
  else ret tt.

Definition slipif_process_rxqueue (fuel : nat) : SL unit :=
  do nf <- gets nif;
  assert (negb (nf.(nstate) =? 0)) ;;
  slipif_process_rxqueue_loop fuel.

(** [while (q->next != NULL)] *)
Fixpoint chain_end (fuel : nat) (q : Z) : PB Z :=
  match fuel with
  | O => hang
  | S n => do b <- get q; if negb (b.(next) =? 0) then chain_end n b.(next) else ret q
  end.

Definition slipif_rxbyte_enqueue (c : Z) : SL unit :=
  do p <- slipif_rxbyte c;
  when negb (p =? 0) then
    (do v <- gets priv;
     if RX_QUEUE then
       if negb (v.(rxpackets) =? 0) then
         do q <- pb (chain_end chain_fuel p);
         pb (upds q (fun b => b <| next := p |>))
       else set_priv (fun v => v <| rxpackets := p |>)
     else
       (when negb (v.(rxpackets) =? 0) then
          (pb (pbuf_free NOASSERT custom_free_function chain_fuel v.(rxpackets)) ;; ret tt)) ;;
       set_priv (fun v => v <| rxpackets := p |>)).

Definition slipif_received_byte (c : Z) : SL unit :=
  do nf <- gets nif;
  assert (negb (nf.(nstate) =? 0)) ;;
  slipif_rxbyte_enqueue c.

(** [for (i = 0; i < len; i++, rxdata++)] over the [len] bytes. *)
Fixpoint received_loop (l : list Z) : SL unit :=
  match l with
  | [] => ret tt
  | c :: l => slipif_rxbyte_enqueue c ;; received_loop l
  end.

Definition slipif_received_bytes (l : list Z) : SL unit :=
  do nf <- gets nif;
  assert (negb (nf.(nstate) =? 0)) ;;
  received_loop l.

(** ** The framing *)

(** The bytes sent for a byte of a packet, and for the packet. *)
Definition escape (c : Z) : list Z :=
  if c =? SLIP_END then [SLIP_ESC; SLIP_ESC_END] else if c =? SLIP_ESC then [SLIP_ESC; SLIP_ESC_ESC] else [c].
Definition slip_encode (w : list Z) : list Z := SLIP_END :: concat (map escape w) ++ [SLIP_END].

(** The bytes are given to [sio_send] one after the other. *)
Definition sends (fd : Z) (l : list Z) (d : sio) : sio := fold_left (fun d c => sio_send c fd d) l d.
Definition sent (l : list Z) (s : slip) : slip := s <| dev := sends s.(priv).(sd) l s.(dev) |>.

Lemma sent_app l1 l2 s : sent (l1 ++ l2) s = sent l2 (sent l1 s).
Proof. unfold sent, sends. cbn. now rewrite fold_left_app. Qed.

Lemma send_escaped_spec c s : send_escaped c s = Ok (tt, sent (escape c) s).
Proof. unfold send_escaped, escape. destruct (c =? SLIP_END), (c =? SLIP_ESC); reflexivity. Qed.

Lemma sent_mem l s : (sent l s).(mem) = s.(mem).
Proof. reflexivity. Qed.

Lemma load_list_cons d p n : load_list d p (Z.of_nat (S n)) = d p :: load_list d (p + 1) (Z.of_nat n).
Proof.
  unfold load_list. rewrite !Nat2Z.id. cbn [seq map]. rewrite Z.add_0_r, <- seq_shift, map_map. f_equal.
  apply map_ext. intros j. f_equal. lia.
Qed.

Lemma output_bytes_spec n : forall q i s, 0 <= i -> i + Z.of_nat n < 65536 ->
  output_bytes n q i s = Ok (tt, sent (concat (map escape
    (load_list s.(mem).(data) ((s.(mem).(structs) q).(payload) + i) (Z.of_nat n)))) s).
Proof.
  induction n as [|n IH]; intros q i s Hi Hn; [now destruct s|]. cbn [output_bytes].
  rewrite bind_gets, (bind_ok _ _ _ _ _ (send_escaped_spec _ _)), IH by (rewrite ?u16_id by word_lia; lia).
  rewrite sent_mem, u16_id, <- sent_app, load_list_cons, Z.add_assoc by word_lia. reflexivity.
Qed.

Lemma output_chain_spec l : forall fuel q s, chain s.(mem).(structs) q l ->
  Forall (fun a => 0 <= (s.(mem).(structs) a).(len) < 65536) l -> (length l < fuel)%nat ->
  output_chain fuel q s = Ok (tt, sent (concat (map escape (content s.(mem).(structs) s.(mem).(data) l))) s).
Proof.
  induction l as [|a l IH]; intros fuel q s Hc Hl Hf; (destruct fuel as [|fuel]; [lia|]); cbn [output_chain].
  - cbn in Hc. subst. now destruct s.
  - destruct (chain_nonnull _ _ _ _ Hc) as [-> H0]. rewrite H0. destruct Hc as (_ & _ & Hc).
    apply Forall_cons_iff in Hl. destruct Hl as [Ha Hl]. rewrite bind_gets.
    rewrite (bind_ok _ _ _ _ _ (output_bytes_spec (Z.to_nat (len (structs (mem s) a))) a 0 s ltac:(lia) ltac:(lia))).
    rewrite Z2Nat.id, Z.add_0_r by lia.
    rewrite IH by (rewrite ?sent_mem; (assumption || (cbn in Hf; lia))). rewrite sent_mem, <- sent_app.
    unfold content. cbn [map concat]. now rewrite map_app, concat_app.
Qed.

Lemma bind_assert_ok {A} c (k : unit -> SL A) s : c = true -> bind (assert c) k s = k tt s.
Proof. intros ->. destruct s. unfold assert, pb, bind, LWIP_ASSERT. now destruct NOASSERT. Qed.

Lemma slipif_output_spec s p l : chain s.(mem).(structs) p l -> l <> [] -> s.(nif).(nstate) <> 0 ->
  Forall (fun a => 0 <= (s.(mem).(structs) a).(len) < 65536) l -> Z.of_nat (length l) <= 65536 ->
  slipif_output p s = Ok (ERR_OK, sent (slip_encode (content s.(mem).(structs) s.(mem).(data) l)) s).
Proof.
  intros Hc Hne Hs Hl Hlen. unfold slipif_output. rewrite bind_gets.
  rewrite bind_assert_ok by (now rewrite (proj2 (Z.eqb_neq _ _) Hs)).
  rewrite bind_assert_ok by (destruct l; [contradiction|]; now destruct (chain_nonnull _ _ _ _ Hc) as [_ ->]).
  unfold send at 1. rewrite bind_modify. fold (sent [SLIP_END] s).
  change (s <| dev := sio_send SLIP_END (sd (priv s)) (dev s) |>) with (sent [SLIP_END] s).
  rewrite (bind_ok _ _ _ _ _ (output_chain_spec l chain_fuel p (sent [SLIP_END] s) Hc Hl ltac:(unfold chain_fuel; lia))).
  rewrite sent_mem. unfold send. rewrite bind_modify. unfold ret. do 2 f_equal.
  unfold slip_encode. change (SLIP_END :: ?x) with ([SLIP_END] ++ x). now rewrite !sent_app.
Qed.

(** ** Assembling a packet *)

(** The payload bytes of a pbuf the driver allocates. *)
Definition RX_LEN := PBUF_POOL_BUFSIZE - PBUF_LINK_HLEN - PBUF_LINK_ENCAPSULATION_HLEN.

(** An element of the pool has room for the struct and the payload
    (memp_std.h). *)
Hypothesis pool_room : SIZEOF_STRUCT_PBUF + PBUF_POOL_BUFSIZE_ALIGNED <= pool_size MEMP_PBUF_POOL.

Definition rx_pbuf (f : Z -> pbuf) (a : Z) : Prop :=
  pool_pbuf f a /\ (f a).(len) = RX_LEN /\ (f a).(payload) = a + SIZEOF_STRUCT_PBUF + PBUF_LINK_HLEN.

(** The pbufs of the packet, beside the blocks [bs] of others. *)
Record packet (m : pst) (q : Z) (l : list Z) (bs : list blk) : Prop := {
  pk_chain : chain m.(structs) q l;
  pk_lengths : lengths m.(structs) 0 l;
  pk_rx : Forall (rx_pbuf m.(structs)) l;
  pk_owns : owns m.(mm) (pool_blocks l ++ bs) }.

(** Every pbuf is full: the bytes received so far are [w]. *)
Definition full (s : slip) (bs : list blk) (w : list Z) (l : list Z) : Prop :=
  packet s.(mem) s.(priv).(rx_q) l bs /\ s.(priv).(rx_p) = 0 /\ s.(priv).(rx_i) = 0 /\
  w = content s.(mem).(structs) s.(mem).(data) l.

(** The last pbuf holds [rx_i] bytes. *)
Definition filling (s : slip) (bs : list blk) (w : list Z) (l : list Z) : Prop :=
  packet s.(mem) s.(priv).(rx_q) (l ++ [s.(priv).(rx_p)]) bs /\ 0 <= s.(priv).(rx_i) < RX_LEN /\
  w = content s.(mem).(structs) s.(mem).(data) l ++
      load_list s.(mem).(data) (s.(priv).(rx_p) + SIZEOF_STRUCT_PBUF + PBUF_LINK_HLEN) s.(priv).(rx_i).

Definition counted (s : slip) (w : list Z) : Prop :=
  s.(priv).(rx_recved) = Z.of_nat (length w) /\ Z.of_nat (length w) <= SLIP_MAX_SIZE + 1.

Definition receiving (s : slip) (bs : list blk) (w : list Z) : Prop :=
  counted s w /\ exists l, full s bs w l \/ (filling s bs w l /\ 0 < s.(priv).(rx_i)).

(** What receiving a byte leaves alone. *)
Definition others (m m' : pst) (bs : list blk) : Prop :=
  forall b, In b bs -> m'.(structs) b.(b_addr) = m.(structs) b.(b_addr) /\
    forall x, b.(b_addr) <= x < b.(b_addr) + b.(b_size) -> m'.(data) x = m.(data) x.

Record keeps (s s' : slip) (bs : list blk) : Prop := {
  kp_nif : s'.(nif) = s.(nif);
  kp_dev : s'.(dev) = s.(dev);
  kp_sd : s'.(priv).(sd) = s.(priv).(sd);
  kp_state : s'.(priv).(rx_state) = s.(priv).(rx_state);
  kp_queue : s'.(priv).(rxpackets) = s.(priv).(rxpackets);
  kp_threads : s'.(threads) = s.(threads);
  kp_recv : s'.(link_recv) = s.(link_recv);
  kp_others : others s.(mem) s'.(mem) bs }.

Lemma others_refl m bs : others m m bs.
Proof. now split. Qed.
Lemma others_trans m1 m2 m3 bs : others m1 m2 bs -> others m2 m3 bs -> others m1 m3 bs.
Proof.
  intros H1 H2 b Hb. destruct (H1 b Hb) as [A1 B1], (H2 b Hb) as [A2 B2].
  split; [congruence|]. intros x Hx. now rewrite B2, B1.
Qed.

Lemma keeps_refl s bs : keeps s s bs.
Proof. constructor; (reflexivity || apply others_refl). Qed.
Lemma keeps_trans s1 s2 s3 bs : keeps s1 s2 bs -> keeps s2 s3 bs -> keeps s1 s3 bs.
Proof. intros [] []. constructor; try congruence. eapply others_trans; eassumption. Qed.

Ltac slip_numbers := change RX_LEN with 576 in *; change PBUF_LINK_HLEN with 14 in *;
  change SIZEOF_STRUCT_PBUF with 16 in *; change PBUF_POOL_BUFSIZE_ALIGNED with 590 in *; change SLIP_MAX_SIZE with 1500 in *.

Lemma content_app f d l1 l2 : content f d (l1 ++ l2) = content f d l1 ++ content f d l2.
Proof. unfold content. now rewrite map_app, concat_app. Qed.

Lemma content_structs f f' d l : (forall a, In a l -> (f' a).(payload) = (f a).(payload) /\ (f' a).(len) = (f a).(len)) ->
  content f' d l = content f d l.
Proof. intros He. unfold content. f_equal. apply map_ext_in. intros a Ha. now destruct (He a Ha) as [-> ->]. Qed.

Lemma rx_total f l : Forall (rx_pbuf f) l -> total f l = RX_LEN * Z.of_nat (length l).
Proof.
  induction 1 as [|a l (_ & Hl & _) _ IH]; [reflexivity|]. cbn [total]. rewrite Hl, IH, length_cons_Z. lia.
Qed.

Lemma rx_content_length f d l : Forall (rx_pbuf f) l -> Z.of_nat (length (content f d l)) = RX_LEN * Z.of_nat (length l).
Proof.
  intros Hr. rewrite content_length; [now apply rx_total|].
  eapply Forall_impl; [|exact Hr]. intros a (_ & -> & _). slip_numbers. lia.
Qed.

Lemma bind_pb {A B} (m : PB A) (k : A -> SL B) s a m' : m s.(mem) = Ok (a, m') ->
  bind (pb m) k s = k a (s <| mem := m' |>).
Proof. intros E. unfold bind, pb. now rewrite E. Qed.

(** Two blocks handed out at the same time. *)
Lemma pool_others m l bs a b : owns m (pool_blocks l ++ bs) -> In a l -> In b bs ->
  apart (mkBlk (Pool MEMP_PBUF_POOL) a (pool_size MEMP_PBUF_POOL)) b \/
  apart b (mkBlk (Pool MEMP_PBUF_POOL) a (pool_size MEMP_PBUF_POOL)).
Proof.
  intros Ho Ha Hb. pose proof (owns_apart _ _ Ho) as Hap. clear Ho. induction l as [|x l IH]; [contradiction|].
  cbn [pool_blocks map app] in Hap. inversion Hap as [|? ? Hx Hr]; subst. destruct Ha as [->|Ha].
  - left. rewrite Forall_forall in Hx. apply Hx, in_app_iff. now right.
  - now apply IH.
Qed.

(** A store into the payload of the packet's last pbuf reaches nothing else. *)
Lemma store_last m q l0 r bs i c : packet m q (l0 ++ [r]) bs -> 0 <= i < RX_LEN ->
  let d := store_list (r + SIZEOF_STRUCT_PBUF + PBUF_LINK_HLEN + i) [c] m.(data) in
  content m.(structs) d l0 = content m.(structs) m.(data) l0 /\
  forall b, In b bs -> forall x, b.(b_addr) <= x < b.(b_addr) + b.(b_size) -> d x = m.(data) x.
Proof.
  intros [_ _ Hr Ho] Hi d. pose proof pool_room as Hroom. slip_numbers.
  assert (Hother : forall b, In b (pool_blocks l0 ++ bs) -> forall x, b.(b_addr) <= x < b.(b_addr) + b.(b_size) -> d x = m.(data) x).
  { intros b Hb x Hx. apply store_other. cbn [length].
    destruct (pool_others m.(mm) [r] (pool_blocks l0 ++ bs) r b) as [H|H]; [|now left|assumption|..].
    - eapply owns_perm; [|exact Ho]. unfold pool_blocks. rewrite map_app, <- app_assoc. cbn [map app].
      symmetry. apply Permutation_middle.
    - destruct H; cbn [b_addr b_size] in *; lia.
    - destruct H; cbn [b_addr b_size] in *; lia. }
  split; [|intros b Hb; apply Hother, in_app_iff; now right].
  apply content_ext. intros a x Ha Hx. apply (Hother (mkBlk (Pool MEMP_PBUF_POOL) a (pool_size MEMP_PBUF_POOL))).
  - apply in_app_iff. left. now apply (in_map (fun a => mkBlk (Pool MEMP_PBUF_POOL) a (pool_size MEMP_PBUF_POOL))).
  - cbn [b_addr b_size]. apply Forall_app in Hr. destruct Hr as [Hr _]. rewrite Forall_forall in Hr.
    destruct (Hr a Ha) as (_ & Hlen & Hpay). unfold in_payload in Hx. rewrite Hlen, Hpay in Hx. slip_numbers. lia.
Qed.

(** The bytes of the last pbuf with one more stored behind [i] of them. *)
Lemma load_store_snoc d p i c : 0 <= i -> load_list (store_list (p + i) [c] d) p (i + 1) = load_list d p i ++ [c].
Proof.
  intros Hi. unfold load_list. replace (Z.to_nat (i + 1)) with (Z.to_nat i + 1)%nat by lia.
  rewrite seq_app, map_app. f_equal.
  - apply map_ext_in. intros j Hj%in_seq. apply store_other. cbn [length]. lia.
  - cbn [seq map]. f_equal. unfold store_list. cbn [length].
    replace (p + Z.of_nat (0 + Z.to_nat i)) with (p + i) by lia.
    now rewrite (proj2 (Z.leb_le _ _)), (proj2 (Z.ltb_lt _ _)), Z.sub_diag by lia.
Qed.

Lemma chain_last f q l0 r : chain f q (l0 ++ [r]) -> r <> 0 /\ (f r).(next) = 0.
Proof. intros Hc. destruct (chain_app _ _ _ _ Hc) as (q' & (_ & Hr & Hn) & _). split; [assumption|exact Hn]. Qed.

Lemma filling_length s bs w l : filling s bs w l -> Z.of_nat (length w) = RX_LEN * Z.of_nat (length l) + s.(priv).(rx_i).
Proof.
  intros ([_ _ Hr _] & Hi & ->). apply Forall_app in Hr. destruct Hr as [Hr _].
  rewrite length_app, load_list_length, Nat2Z.inj_add, rx_content_length by assumption. lia.
Qed.

(** The packet after one more byte, or as it was when it is too long. *)
Definition put (w : list Z) (c : Z) : list Z := if Z.of_nat (length w) <=? SLIP_MAX_SIZE then w ++ [c] else w.

Lemma rx_put_spec s bs w l c : filling s bs w l -> counted s w ->
  exists s', rx_put c s = Ok (tt, s') /\ keeps s s' bs /\ s'.(link_drop) = s.(link_drop) /\ receiving s' bs (put w c).
Proof.
  intros Hf [Hn Hmax]. pose proof (filling_length _ _ _ _ Hf) as Hlen. pose proof Hf as (Hpk & Hi & Hw).
  destruct (chain_last _ _ _ _ (pk_chain _ _ _ _ Hpk)) as [Hp0 Hnx].
  pose proof (pk_rx _ _ _ _ Hpk) as Hr. apply Forall_app in Hr. destruct Hr as [Hrl Hr].
  apply Forall_inv in Hr. destruct Hr as (_ & Hl & Hpay).
  unfold rx_put, put. rewrite bind_gets, (proj2 (Z.eqb_neq _ _) Hp0), Hn. cbn [negb andb].
  destruct (Z.leb_spec (Z.of_nat (length w)) SLIP_MAX_SIZE) as [Hle|Hgt].
  2:{ exists s. split; [reflexivity|]. split; [apply keeps_refl|]. split; [reflexivity|].
      split; [now split|]. exists l. right. split; [assumption|]. slip_numbers. lia. }
  rewrite bind_gets, bind_modify. unfold set_priv. rewrite !bind_modify, bind_gets, Hl, Hnx, Hpay.
  set (m' := (mem s) <| data := _ |>). cbn [priv with_field rx_i rx_recved].
  destruct (store_last _ _ _ _ _ _ c Hpk Hi) as [Hc Ho]. fold m'.(data) in Hc, Ho.
  change (store_list _ _ _) with (data m') in Hc, Ho.
  assert (Hpk' : packet m' (rx_q (priv s)) (l ++ [rx_p (priv s)]) bs) by (destruct Hpk; now constructor).
  assert (Hoth : others (mem s) m' bs) by (intros b Hb; split; [reflexivity|now apply Ho]).
  assert (Hld := load_store_snoc (data (mem s)) (rx_p (priv s) + SIZEOF_STRUCT_PBUF + PBUF_LINK_HLEN) (rx_i (priv s)) c ltac:(lia)).
  change (store_list _ _ _) with (data m') in Hld. change (structs (mem s)) with (structs m') in *.
  rewrite (u16_id (rx_i (priv s) + 1)) by (slip_numbers; word_lia). rewrite Hn, u16_id by (slip_numbers; word_lia).
  assert (Hw' : w ++ [c] = content (structs m') (data m') l ++
    load_list (data m') (rx_p (priv s) + SIZEOF_STRUCT_PBUF + PBUF_LINK_HLEN) (rx_i (priv s) + 1)).
  { rewrite Hc, Hld, app_assoc. now rewrite <- Hw. }
  assert (Hcnt : Z.of_nat (length (w ++ [c])) = Z.of_nat (length w) + 1) by (rewrite length_app; cbn [length]; lia).
  rewrite Z.geb_leb. clearbody m'. destruct (Z.leb_spec RX_LEN (rx_i (priv s) + 1)) as [Hend|Hend].
  - rewrite bind_modify, bind_gets. change (negb (0 =? 0)) with false. cbn [andb]. unfold modify.
    eexists. split; [reflexivity|]. split; [now constructor|]. split; [reflexivity|].
    split; [split; cbn [priv with_field rx_recved]; [now rewrite Hcnt|lia]|].
    exists (l ++ [rx_p (priv s)]). left. split; [exact Hpk'|]. split; [reflexivity|]. split; [reflexivity|].
    cbn [mem with_field]. rewrite content_app. change (content ?f ?d [?a]) with (load_list d (f a).(payload) (f a).(len) ++ []).
    rewrite app_nil_r, Hpay, Hl. replace RX_LEN with (rx_i (priv s) + 1) by lia. exact Hw'.
  - eexists. split; [reflexivity|]. split; [now constructor|]. split; [reflexivity|].
    split; [split; cbn [priv with_field rx_recved]; [now rewrite Hcnt|lia]|].
    exists l. right. split; [|cbn [priv with_field rx_i]; lia]. split; [exact Hpk'|].
    split; [cbn [priv with_field rx_i]; lia|exact Hw'].
Qed.

Definition rx_alloc_post (s s' : slip) (bs : list blk) (w : list Z) (ok : bool) : Prop :=
  keeps s s' bs /\
  if ok then s'.(link_drop) = s.(link_drop) /\ counted s' w /\ exists l, filling s' bs w l
  else s'.(link_drop) = u16 (s.(link_drop) + 1) /\ receiving s' bs w.

(** A packet whose structs are those of another state, up to the links. *)
Lemma rx_pbuf_ext f f' a : f' a = (f a) <| next := (f' a).(next) |> <| tot_len := (f' a).(tot_len) |> ->
  rx_pbuf f a -> rx_pbuf f' a.
Proof. intros He (H1 & H2 & H3). unfold rx_pbuf, pool_pbuf, not_custom in *. rewrite He. now repeat split. Qed.

(** The new pbuf [p] of the state [m1] behind the packet. *)
Lemma packet_new m m1 q l bs p : packet m q l bs -> Z.of_nat (length l) <= 2 -> p <> 0 ->
  owns m1.(mm) (mkBlk (Pool MEMP_PBUF_POOL) p (pool_size MEMP_PBUF_POOL) :: pool_blocks l ++ bs) ->
  m1.(structs) p = mkPbuf 0 (p + SIZEOF_STRUCT_PBUF + PBUF_LINK_HLEN) RX_LEN RX_LEN PBUF_POOL 0 1 ->
  (forall a, a <> p -> m1.(structs) a = m.(structs) a) -> m1.(data) = m.(data) ->
  exists m2 q', (if negb (q =? 0) then pbuf_cat NOASSERT chain_fuel q p m1 = Ok (tt, m2) /\ q' = q else m2 = m1 /\ q' = p) /\
    packet m2 q' (l ++ [p]) bs /\ m2.(data) = m.(data) /\ others m m2 bs /\
    content m2.(structs) m2.(data) l = content m.(structs) m.(data) l.
Proof.
  intros [Hc Hl Hr Ho] Hlen Hp0 Ho1 Hp Hother Hd.
  destruct (owns_fresh _ _ _ Ho1) as [_ Hfr]. cbn [b_addr] in Hfr.
  assert (Hpl : ~ In p l).
  { intros Hin. apply Hfr, in_map_iff. exists (mkBlk (Pool MEMP_PBUF_POOL) p (pool_size MEMP_PBUF_POOL)). split; [reflexivity|].
    apply in_app_iff. left. now apply (in_map (fun a => mkBlk (Pool MEMP_PBUF_POOL) a (pool_size MEMP_PBUF_POOL))). }
  assert (Hbs : forall b, In b bs -> b.(b_addr) <> p).
  { intros b Hb E. apply Hfr. rewrite map_app. apply in_app_iff. right. rewrite <- E. now apply in_map. }
  assert (Hsame : forall a, In a l -> structs m1 a = structs m a) by (intros a Ha; apply Hother; intros ->; contradiction).
  assert (Howns : owns (mm m1) (pool_blocks (l ++ [p]) ++ bs)).
  { eapply owns_perm; [|exact Ho1]. unfold pool_blocks. rewrite map_app, <- app_assoc. apply Permutation_middle. }
  assert (Hrp : rx_pbuf (structs m1) p).
  { unfold rx_pbuf, pool_pbuf, not_custom. rewrite Hp. cbn [ref flags type payload len]. slip_numbers.
    repeat split; (reflexivity || lia). }
  assert (Hr1 : Forall (rx_pbuf (structs m1)) l).
  { rewrite Forall_forall in *. intros a Ha. unfold rx_pbuf, pool_pbuf, not_custom. rewrite Hsame by assumption. now apply Hr. }
  destruct l as [|a l] using rev_ind; [|clear IHl].
  - cbn in Hc. subst q. exists m1, p. split; [now split|]. split; [|split; [assumption|split]].
    + constructor; [now cbn; rewrite Hp|cbn; rewrite Hp; cbn; slip_numbers; lia|now constructor|exact Howns].
    + intros b Hb. split; [apply Hother; now apply Hbs|intros; now rewrite Hd].
    + reflexivity.
  - assert (Hq : (q =? 0) = false) by (destruct l; now destruct (chain_nonnull _ _ _ _ Hc)).
    rewrite Hq. cbn [negb].
    destruct (pbuf_cat_spec NOASSERT custom_free_function tcpip_callback_ok m1 q l a p [p] chain_fuel) as
      (m2 & E & Hm & Hd2 & Hc2 & Hl2 & Hs2 & Hs2').
    + apply (chain_ext (structs m)); [|assumption]. intros x Hx. now rewrite Hsame.
    + apply (lengths_ext (structs m)); [|assumption]. intros x Hx. now rewrite Hsame.
    + exact (owns_nodup _ _ _ Ho).
    + intros x [<-|[]]. assumption.
    + cbn. now rewrite Hp.
    + discriminate.
    + cbn. rewrite Hp. cbn. slip_numbers. lia.
    + rewrite (rx_total _ _ Hr1). cbn [total]. rewrite Hp. cbn [len]. slip_numbers. lia.
    + rewrite length_app in Hlen. cbn [length] in Hlen. unfold chain_fuel. lia.
    + exists m2, q. split; [now split|]. split; [|split; [congruence|split]].
      * constructor; [assumption|assumption| |now rewrite Hm].
        apply Forall_app. split; [|constructor; [|constructor]].
        -- eapply Forall_impl; [|exact Hr1]. intros x. apply rx_pbuf_ext, Hs2.
        -- apply (rx_pbuf_ext (structs m1)); [apply Hs2|assumption].
      * intros b Hb. split; [|intros; now rewrite Hd2, Hd].
        rewrite Hs2'; [apply Hother; now apply Hbs|]. intros Hin. exact (owns_disjoint _ _ _ _ _ Ho Hin Hb eq_refl).
      * rewrite Hd2, Hd. apply content_structs. intros x Hx. rewrite Hs2. cbn [payload len with_field].
        now rewrite Hsame.
Qed.

Lemma rx_alloc_spec s bs w : receiving s bs w -> exists ok s', rx_alloc s = Ok (ok, s') /\ rx_alloc_post s s' bs w ok.
Proof.
  intros (Hcnt & l & [Hf|[Hf Hi]]); unfold rx_alloc; rewrite bind_gets.
  - destruct Hf as (Hpk & Hp & Hi & Hw). rewrite Hp. change (0 =? 0) with true. cbv iota. fold RX_LEN.
    destruct (pbuf_alloc_single NOASSERT custom_free_function tcpip_callback_ok (mem s) _ PBUF_LINK RX_LEN
      (pk_owns _ _ _ _ Hpk)) as (p & m1 & E & Hd & [(-> & Hs & Ho)|(Hp0 & Ho & Hsp & Hother)]);
      [slip_numbers; lia|vm_compute; congruence|..]; rewrite (bind_pb _ _ _ _ _ E); unfold set_priv; rewrite bind_modify.
    + change (0 =? 0) with true. cbv iota. unfold LINK_STATS_INC_drop. rewrite bind_modify.
      do 2 eexists. split; [reflexivity|]. split; [|split; [reflexivity|]].
      * constructor; try reflexivity. intros b _. cbn [mem with_field]. now rewrite Hs, Hd.
      * split; [exact Hcnt|]. exists l. left. split; [|split; [reflexivity|split; [exact Hi|]]].
        -- cbn [mem priv with_field rx_q]. destruct Hpk. constructor; now rewrite ?Hs.
        -- cbn [mem with_field]. now rewrite Hs, Hd.
    + rewrite (proj2 (Z.eqb_neq _ _) Hp0).
      assert (Hl2 : Z.of_nat (length l) <= 2).
      { destruct Hcnt as [_ Hmax]. rewrite Hw, rx_content_length in Hmax by apply Hpk. slip_numbers. lia. }
      destruct (packet_new _ _ _ _ _ _ Hpk Hl2 Hp0 Ho Hsp Hother Hd) as (m2 & q' & Hcat & Hpk2 & Hd2 & Hoth & Hct).
      set (s1 := _ <| priv := _ |>).
      assert (Hrun : exists s2, (if negb (rx_q (priv s) =? 0) then pb (pbuf_cat NOASSERT chain_fuel (rx_q (priv s)) p)
        else modify (fun s => s <| priv := (priv s) <| rx_q := p |> |>)) s1 = Ok (tt, s2) /\
        s2 = s <| mem := m2 |> <| priv := (priv s) <| rx_p := p |> <| rx_q := q' |> |>).
      { destruct (negb (rx_q (priv s) =? 0)).
        - destruct Hcat as [Hcat ->]. eexists. split; [unfold pb; change (mem s1) with m1; rewrite Hcat; reflexivity|].
          unfold s1. destruct s as [? [] ? ? ? ? ?]. reflexivity.
        - destruct Hcat as [-> ->]. eexists. split; [reflexivity|]. reflexivity. }
      destruct Hrun as (s2 & Hrun & Hs2). rewrite (bind_ok _ _ _ _ _ Hrun), Hs2. clear s1 Hrun Hs2 Hcat.
      do 2 eexists. split; [reflexivity|]. split; [now constructor|]. split; [reflexivity|]. split; [exact Hcnt|].
      exists l. split; [exact Hpk2|]. cbn [mem priv with_field rx_i rx_p]. rewrite Hi, Hct. split; [slip_numbers; lia|].
      cbn [load_list seq map Z.to_nat]. unfold load_list. cbn [Z.to_nat seq map]. now rewrite app_nil_r.
  - pose proof Hf as (Hpk & _). destruct (chain_last _ _ _ _ (pk_chain _ _ _ _ Hpk)) as [Hp0 _].
    rewrite (proj2 (Z.eqb_neq _ _) Hp0). exists true, s. split; [reflexivity|]. split; [apply keeps_refl|].
    split; [reflexivity|]. split; [assumption|]. now exists l.
Qed.

(** A byte of the packet is stored, unless the packet is too long, or dropped. *)
Definition byte_post (s s' : slip) (bs : list blk) (w : list Z) (c : Z) : Prop :=
  keeps s s' bs /\
  ((s'.(link_drop) = s.(link_drop) /\ receiving s' bs (put w c)) \/
   (s'.(link_drop) = u16 (s.(link_drop) + 1) /\ receiving s' bs w)).

Lemma rx_data_spec s bs w c : receiving s bs w -> exists s', rx_data c s = Ok (0, s') /\ byte_post s s' bs w c.
Proof.
  intros Hr. destruct (rx_alloc_spec s bs w Hr) as ([] & s1 & E & Hk & H); unfold rx_data; rewrite (bind_ok _ _ _ _ _ E).
  - destruct H as (Hd & Hcnt & l & Hf). destruct (rx_put_spec s1 bs w l c Hf Hcnt) as (s2 & E2 & Hk2 & Hd2 & Hr2).
    rewrite (bind_ok _ _ _ _ _ E2). exists s2. split; [reflexivity|]. split; [eapply keeps_trans; eassumption|].
    left. split; [congruence|assumption].
  - exists s1. split; [reflexivity|]. split; [assumption|]. now right.
Qed.

(** A receiver between two bytes of a packet. *)
Definition waiting (s : slip) (bs : list blk) (w : list Z) : Prop :=
  receiving s bs w /\ s.(priv).(rx_state) = SLIP_RECV_NORMAL /\ s.(nif).(nstate) <> 0.

Lemma waiting_post s s' bs w w' : waiting s bs w -> keeps s s' bs -> receiving s' bs w' -> waiting s' bs w'.
Proof. intros (_ & Hs & Hn) [] Hr. split; [assumption|]. split; congruence. Qed.

(** The receiver's state when only the driver's data and the device changed. *)
Lemma receiving_ext s s' bs w : s'.(mem) = s.(mem) -> s'.(priv).(rx_p) = s.(priv).(rx_p) -> s'.(priv).(rx_q) = s.(priv).(rx_q) ->
  s'.(priv).(rx_i) = s.(priv).(rx_i) -> s'.(priv).(rx_recved) = s.(priv).(rx_recved) -> receiving s bs w -> receiving s' bs w.
Proof.
  intros E1 E2 E3 E4 E5 (Hc & l & Hf). unfold receiving, counted, full, filling in *. rewrite E1, E2, E3, E4, E5.
  split; [assumption|]. now exists l.
Qed.

(** One call of [sio_tryread] that returns a byte, and [slipif_rxbyte] on it. *)
Definition reads1 (s : slip) (c : Z) (s' : slip) : Prop :=
  exists d, sio_tryread s.(priv).(sd) s.(dev) = (Some c, d) /\ slipif_rxbyte c (s <| dev := d |>) = Ok (0, s').

Lemma poll_reads1 n s c s' : reads1 s c s' -> poll_loop (S n) s = poll_loop n s'.
Proof.
  intros (d & E & Ex). cbn [poll_loop]. rewrite (bind_ok _ _ s (Some c) (s <| dev := d |>)) by (unfold read; now rewrite E).
  rewrite (bind_ok (slipif_rxbyte_input c) _ (s <| dev := d |>) tt s') by (unfold slipif_rxbyte_input; now rewrite (bind_ok _ _ _ _ _ Ex)).
  reflexivity.
Qed.

(** The line gives the bytes one after the other. *)
Fixpoint gives (fd : Z) (d : sio) (l : list Z) (d' : sio) : Prop :=
  match l with
  | [] => d' = d
  | c :: l => exists d1, sio_tryread fd d = (Some c, d1) /\ gives fd d1 l d'
  end.

Lemma gives_app fd l1 l2 : forall d d', gives fd d (l1 ++ l2) d' -> exists d1, gives fd d l1 d1 /\ gives fd d1 l2 d'.
Proof.
  induction l1 as [|c l1 IH]; intros d d' H; [now exists d|]. destruct H as (d1 & E & H).
  destruct (IH _ _ H) as (d2 & H1 & H2). exists d2. split; [now exists d1|assumption].
Qed.

Lemma rxbyte_normal s c : s.(nif).(nstate) <> 0 -> s.(priv).(rx_state) = SLIP_RECV_NORMAL -> slipif_rxbyte c s =
  (if c =? SLIP_END then rx_end else if c =? SLIP_ESC
   then set_priv (fun v => v <| rx_state := SLIP_RECV_ESCAPE |>) ;; ret 0 else rx_data c) s.
Proof.
  intros Hn Hs. unfold slipif_rxbyte. rewrite bind_gets, bind_assert_ok by (now rewrite (proj2 (Z.eqb_neq _ _) Hn)).
  now rewrite bind_gets, Hs.
Qed.

Lemma rxbyte_escaped s c : s.(nif).(nstate) <> 0 -> s.(priv).(rx_state) = SLIP_RECV_ESCAPE -> slipif_rxbyte c s =
  rx_data (if c =? SLIP_ESC_END then SLIP_END else if c =? SLIP_ESC_ESC then SLIP_ESC else c)
    (s <| priv := (s.(priv)) <| rx_state := SLIP_RECV_NORMAL |> |>).
Proof.
  intros Hn Hs. unfold slipif_rxbyte. rewrite bind_gets, bind_assert_ok by (now rewrite (proj2 (Z.eqb_neq _ _) Hn)).
  now rewrite bind_gets, Hs.
Qed.

(** Reading one byte of a packet as it was escaped. *)
Lemma poll_escape s bs w c d' : waiting s bs w -> gives s.(priv).(sd) s.(dev) (escape c) d' ->
  exists s', (forall n, poll_loop (length (escape c) + n) s = poll_loop n s') /\ byte_post (s <| dev := d' |>) s' bs w c.
Proof.
  intros (Hr & Hs & Hn) Hg.
  assert (Hr' : receiving (s <| dev := d' |>) bs w) by now apply (receiving_ext s).
  destruct (rx_data_spec _ _ _ c Hr') as (s' & E & Hpost). exists s'. split; [|assumption].
  assert (Hesc : forall e d1, sio_tryread (sd (priv s)) (dev s) = (Some SLIP_ESC, d1) ->
    sio_tryread (sd (priv s)) d1 = (Some e, d') -> c = (if e =? SLIP_ESC_END then SLIP_END else if e =? SLIP_ESC_ESC then SLIP_ESC else e) ->
    forall n, poll_loop (2 + n) s = poll_loop n s').
  { intros e d1 E1 E2 Hc n. set (s1 := (s <| dev := d1 |>) <| priv := (priv s) <| rx_state := SLIP_RECV_ESCAPE |> |>).
    cbn [plus]. rewrite (poll_reads1 _ s SLIP_ESC s1).
    - apply (poll_reads1 _ s1 e). exists d'. split; [exact E2|]. rewrite rxbyte_escaped by (exact Hn || reflexivity).
      rewrite <- Hc, <- E. f_equal. unfold s1. destruct s as [? [] ? ? ? ? ?]. cbn in Hs. now subst.
    - exists d1. split; [assumption|]. now rewrite rxbyte_normal. }
  unfold escape in *. destruct (Z.eqb_spec c SLIP_END) as [->|Hc1]; [|destruct (Z.eqb_spec c SLIP_ESC) as [->|Hc2]].
  - destruct Hg as (d1 & E1 & d2 & E2 & <-). cbn [length]. now apply (Hesc SLIP_ESC_END d1).
  - destruct Hg as (d1 & E1 & d2 & E2 & <-). cbn [length]. now apply (Hesc SLIP_ESC_ESC d1).
  - destruct Hg as (d1 & E1 & <-). cbn [length]. intros n. apply (poll_reads1 _ s c). exists d'. split; [assumption|].
    rewrite rxbyte_normal by assumption. apply Z.eqb_neq in Hc1, Hc2. now rewrite Hc1, Hc2.
Qed.

Lemma keeps_dev s s' d bs : keeps (s <| dev := s'.(dev) |>) s' bs -> keeps (s <| dev := d |>) (s' <| dev := d |>) bs.
Proof. intros []. now constructor. Qed.

Lemma u16_add_l x y : u16 (u16 x + y) = u16 (x + y).
Proof. apply Zplus_mod_idemp_l. Qed.

(** The bytes of a packet: [k] of them are dropped. *)
Lemma poll_bytes ws : forall s bs w d', waiting s bs w -> is_u16 s.(link_drop) ->
  gives s.(priv).(sd) s.(dev) (concat (map escape ws)) d' ->
  exists s' k w', (forall n, poll_loop (length (concat (map escape ws)) + n) s = poll_loop n s') /\
    keeps (s <| dev := d' |>) s' bs /\ waiting s' bs w' /\
    0 <= k <= Z.of_nat (length ws) /\ s'.(link_drop) = u16 (s.(link_drop) + k) /\ (k = 0 -> w' = fold_left put ws w).
Proof.
  induction ws as [|c ws IH]; intros s bs w d' Hw Hu Hg; cbn [map concat] in *.
  - cbn in Hg. subst d'. exists s, 0, w. split; [reflexivity|]. split; [destruct s; apply keeps_refl|]. split; [assumption|].
    split; [cbn; lia|]. split; [now rewrite Z.add_0_r, u16_id|reflexivity].
  - destruct (gives_app _ _ _ _ _ Hg) as (d1 & Hg1 & Hg2).
    destruct (poll_escape s bs w c d1 Hw Hg1) as (s1 & Ep & Hk & Hpost). pose proof Hk as [_ Hdev Hsd _ _ _ _ _]. cbn in Hdev, Hsd.
    assert (Hnext : exists k1 w1, waiting s1 bs w1 /\ 0 <= k1 <= 1 /\ link_drop s1 = u16 (link_drop s + k1) /\ (k1 = 0 -> w1 = put w c)).
    { assert (Hws : waiting (s <| dev := d1 |>) bs w) by (destruct Hw as (? & ? & ?); split; [now apply (receiving_ext s)|now split]).
      destruct Hpost as [[Hd Hr]|[Hd Hr]]; cbn in Hd.
      - exists 0, (put w c). split; [eapply waiting_post; eassumption|]. split; [lia|]. split; [|reflexivity].
        now rewrite Z.add_0_r, u16_id.
      - exists 1, w. split; [eapply waiting_post; eassumption|]. split; [lia|]. split; [assumption|lia]. }
    destruct Hnext as (k1 & w1 & Hw1 & Hk1 & Hd1 & Heq). rewrite <- Hdev, <- Hsd in Hg2.
    destruct (IH s1 bs w1 d' Hw1 ltac:(rewrite Hd1; apply u16_ok) Hg2) as (s2 & k2 & w2 & Ep2 & Hkp & Hw2 & Hk2 & Hd2 & Heq2).
    exists s2, (k1 + k2), w2. split; [|split; [|split; [assumption|split; [rewrite length_cons_Z; lia|split]]]].
    + intros n. rewrite length_app, <- Nat.add_assoc, Ep. apply Ep2.
    + eapply keeps_trans; [|exact Hkp]. apply keeps_dev. now rewrite Hdev.
    + rewrite Hd2, Hd1, u16_add_l. f_equal. lia.
    + intros Hz. cbn [fold_left]. rewrite <- Heq by lia. apply Heq2. lia.
Qed.

Lemma put_clip ws : forall w, Z.of_nat (length w) <= SLIP_MAX_SIZE + 1 -> fold_left put ws w = firstn 1501 (w ++ ws).
Proof.
  change SLIP_MAX_SIZE with 1500. induction ws as [|c ws IH]; intros w Hw; cbn [fold_left].
  - rewrite app_nil_r, firstn_all2 by lia. reflexivity.
  - unfold put. change SLIP_MAX_SIZE with 1500. destruct (Z.leb_spec (Z.of_nat (length w)) 1500).
    + rewrite IH by (rewrite length_app; cbn [length]; lia). now rewrite <- app_assoc.
    + rewrite IH by lia. replace 1501%nat with (length w + 0)%nat at 1 2 by lia. now rewrite !firstn_app_2.
Qed.

(** ** The end of a packet *)

(** A receiver between two packets. *)
Record idle (s : slip) (bs : list blk) : Prop := {
  id_fields : s.(priv).(rx_p) = 0 /\ s.(priv).(rx_q) = 0 /\ s.(priv).(rx_i) = 0 /\ s.(priv).(rx_recved) = 0;
  id_owns : owns s.(mem).(mm) bs }.

(** A packet of the pool, ready for the stack. *)
Record delivered (m : pst) (q : Z) (w : list Z) (l : list Z) (bs : list blk) : Prop := {
  dl_chain : chain m.(structs) q l;
  dl_lengths : lengths m.(structs) 0 l;
  dl_pool : Forall (pool_pbuf m.(structs)) l;
  dl_owns : owns m.(mm) (pool_blocks l ++ bs);
  dl_content : content m.(structs) m.(data) l = w }.

Lemma idle_receiving s bs : idle s bs -> receiving s bs [].
Proof.
  intros [(H1 & H2 & H3 & H4) Ho]. split; [split; [assumption|cbn; slip_numbers; lia]|]. exists []. left.
  split; [now constructor|]. now repeat split.
Qed.

Lemma receiving_idle s bs : receiving s bs [] -> idle s bs.
Proof.
  intros ([Hn _] & l & [(Hpk & Hp & Hi & Hw)|[Hf Hi]]).
  - pose proof (rx_content_length _ (data (mem s)) _ (pk_rx _ _ _ _ Hpk)) as Hlen. rewrite <- Hw in Hlen.
    destruct l; [|exfalso; rewrite length_cons_Z in Hlen; cbn [length] in Hlen; slip_numbers; lia].
    destruct Hpk as [Hc _ _ Ho]. constructor; [|exact Ho]. now repeat split.
  - apply filling_length in Hf. cbn [length] in Hf. slip_numbers. lia.
Qed.

Lemma packet_last m q l r bs : packet m q (l ++ [r]) bs -> Forall (rx_pbuf m.(structs)) l /\ rx_pbuf m.(structs) r.
Proof. intros [_ _ Hr _]. apply Forall_app in Hr. destruct Hr as [Hl Hr]. split; [assumption|]. now apply Forall_inv in Hr. Qed.

(** The last pbuf of a packet holds [j] of its bytes. *)
Lemma receiving_last s bs w : receiving s bs w -> w <> [] -> exists l r j,
  packet s.(mem) s.(priv).(rx_q) (l ++ [r]) bs /\ 0 < j <= RX_LEN /\
  w = content s.(mem).(structs) s.(mem).(data) l ++ load_list s.(mem).(data) (s.(mem).(structs) r).(payload) j.
Proof.
  intros (_ & l & [(Hpk & _ & _ & Hw)|[(Hpk & Hi & Hw) Hi']]) Hne.
  - destruct l as [|r l] using rev_ind; [now subst|]. clear IHl. exists l, r, RX_LEN. split; [assumption|].
    split; [slip_numbers; lia|]. rewrite Hw, content_app. f_equal. cbn. rewrite app_nil_r. f_equal.
    now destruct (packet_last _ _ _ _ _ Hpk) as (_ & _ & -> & _).
  - exists l, (rx_p (priv s)), (rx_i (priv s)). split; [assumption|]. split; [lia|]. rewrite Hw. do 2 f_equal.
    now destruct (packet_last _ _ _ _ _ Hpk) as (_ & _ & _ & ->).
Qed.

(** What the end of a packet leaves alone. *)
Definition end_post (s s' : slip) (bs : list blk) (w : list Z) (q : Z) : Prop :=
  s'.(nif) = s.(nif) /\ s'.(dev) = s.(dev) /\ s'.(priv).(sd) = s.(priv).(sd) /\ s'.(priv).(rx_state) = s.(priv).(rx_state) /\
  s'.(link_drop) = s.(link_drop) /\ s'.(link_recv) = (if q =? 0 then s.(link_recv) else u16 (s.(link_recv) + 1)) /\
  others s.(mem) s'.(mem) bs /\
  exists l, idle s' (pool_blocks l ++ bs) /\ delivered s'.(mem) q w l bs.

Lemma rx_end_spec s bs w : receiving s bs w -> exists q s', rx_end s = Ok (q, s') /\ end_post s s' bs w q.
Proof.
  intros Hr. pose proof Hr as ([Hn Hmax] & _). unfold rx_end. rewrite bind_gets, Hn. destruct w as [|c w].
  { exists 0, s. split; [reflexivity|]. repeat (split; [reflexivity|]). split; [apply others_refl|]. exists [].
    destruct (receiving_idle _ _ Hr) as [Hf Ho]. split; now constructor. }
  rewrite (proj2 (Z.gtb_lt _ _)) by (rewrite length_cons_Z; lia).
  destruct (receiving_last s bs _ Hr) as (l & r & j & Hpk & Hj & Hw); [discriminate|].
  destruct (packet_last _ _ _ _ _ Hpk) as [Hrl Hrr]. pose proof Hpk as [Hc Hl Hrx Ho].
  assert (Hlen : Z.of_nat (length (c :: w)) = RX_LEN * Z.of_nat (length l) + j).
  { rewrite Hw, length_app, load_list_length, Nat2Z.inj_add, rx_content_length by assumption. lia. }
  set (n := Z.of_nat (length (c :: w))) in *.
  destruct (pbuf_realloc_last NOASSERT custom_free_function tcpip_callback_ok (mem s) (rx_q (priv s)) l r n chain_fuel Hc Hl)
    as (m' & E & Hm & Hd & Hc' & Hl' & Hs' & Hls & Hlr & Hso).
  - exact (owns_nodup _ _ _ Ho).
  - apply Hrr.
  - rewrite (rx_total _ _ Hrl). lia.
  - rewrite (rx_total _ _ Hrx), length_app. cbn [length]. lia.
  - rewrite (rx_total _ _ Hrx), length_app. cbn [length]. slip_numbers. lia.
  - slip_numbers. unfold chain_fuel. lia.
  - rewrite (bind_pb _ _ _ _ _ E). unfold LINK_STATS_INC_recv, set_priv. rewrite bind_modify, bind_gets, !bind_modify.
    do 2 eexists. split; [reflexivity|]. unfold end_post. cbn [nif dev priv with_field sd rx_state link_drop link_recv mem rx_q].
    rewrite (rx_total _ _ Hrl) in Hlr. replace (n - _) with j in Hlr by lia.
    assert (Hq : (rx_q (priv s) =? 0) = false) by (destruct l; now destruct (chain_nonnull _ _ _ _ Hc)). rewrite Hq.
    repeat (split; [reflexivity|]). split.
    { intros b Hb. rewrite Hd. split; [|reflexivity]. apply Hso. intros Hin. exact (owns_disjoint _ _ _ _ _ Ho Hin Hb eq_refl). }
    exists (l ++ [r]). split; [constructor; [now repeat split|cbn [mem with_field]; now rewrite Hm]|].
    constructor; [assumption|assumption| |now rewrite Hm|].
    + apply Forall_forall. intros a Ha. rewrite Forall_forall in Hrx. destruct (Hrx a Ha) as ((P1 & P2 & P3 & P4 & P5) & Hal & _).
      assert (len (structs m' a) <= RX_LEN).
      { apply in_app_iff in Ha. destruct Ha as [Ha|[<-|[]]]; [rewrite (Hls a Ha); lia|lia]. }
      unfold pool_pbuf, not_custom. rewrite Hs'. cbn [ref flags type payload len with_field]. repeat (split; [assumption|]). lia.
    + rewrite Hd, content_app, Hw. f_equal.
      * apply content_structs. intros a Ha. split; [now rewrite Hs'|now apply Hls].
      * cbn. rewrite app_nil_r, Hlr. f_equal. now rewrite Hs'.
Qed.

(** SLIP_END on the line. *)
Lemma poll_end s bs w d' : waiting s bs w -> gives s.(priv).(sd) s.(dev) [SLIP_END] d' ->
  exists q s', (forall n, poll_loop (1 + n) s = ((when negb (q =? 0) then deliver q) ;; poll_loop n) s') /\
    end_post (s <| dev := d' |>) s' bs w q.
Proof.
  intros (Hr & Hs & Hn) (d1 & E & ->).
  destruct (rx_end_spec (s <| dev := d1 |>) bs w) as (q & s' & Ee & Hpost); [now apply (receiving_ext s)|].
  exists q, s'. split; [|assumption]. intros n. cbn [plus poll_loop].
  rewrite (bind_ok _ _ s (Some SLIP_END) (s <| dev := d1 |>)) by (unfold read; now rewrite E).
  unfold slipif_rxbyte_input. rewrite bind_assoc.
  rewrite (bind_ok _ _ _ q s') by (rewrite rxbyte_normal by assumption; exact Ee). reflexivity.
Qed.

(** A framed packet on the line of an idle receiver. *)
Lemma poll_packet r bs w d' : idle r bs -> r.(priv).(rx_state) = SLIP_RECV_NORMAL -> r.(nif).(nstate) <> 0 ->
  is_u16 r.(link_drop) -> Z.of_nat (length w) < 65536 -> gives r.(priv).(sd) r.(dev) (slip_encode w) d' ->
  exists q r1 l w',
    (forall n, slipif_poll (length (slip_encode w) + n) r = ((when negb (q =? 0) then deliver q) ;; poll_loop n) r1) /\
    r1.(dev) = d' /\ r1.(priv).(rx_state) = SLIP_RECV_NORMAL /\ r1.(nif) = r.(nif) /\
    idle r1 (pool_blocks l ++ bs) /\ delivered r1.(mem) q w' l bs /\ others r.(mem) r1.(mem) bs /\
    (r1.(link_drop) = r.(link_drop) -> w' = firstn 1501 w).
Proof.
  intros Hid Hst Hn Hu Hlen Hg. unfold slip_encode in *. change (SLIP_END :: ?x) with ([SLIP_END] ++ x) in *.
  destruct (gives_app _ _ _ _ _ Hg) as (d1 & Hg1 & Hg'). destruct (gives_app _ _ _ _ _ Hg') as (d2 & Hg2 & Hg3).
  assert (Hr0 : waiting r bs []) by (split; [now apply idle_receiving|now split]).
  assert (Hr1 : waiting (r <| dev := d1 |>) bs []) by (split; [apply (receiving_ext r); try reflexivity; now apply idle_receiving|now split]).
  assert (E0 : forall n, poll_loop (1 + n) r = poll_loop n (r <| dev := d1 |>)).
  { intros n. destruct Hg1 as (d & E & <-). apply (poll_reads1 _ r SLIP_END). exists d1. split; [assumption|].
    rewrite rxbyte_normal by assumption. change (SLIP_END =? SLIP_END) with true. cbv iota. unfold rx_end.
    rewrite bind_gets. cbn [priv with_field]. destruct Hid as [(_ & _ & _ & ->) _]. reflexivity. }
  destruct (poll_bytes w (r <| dev := d1 |>) bs [] d2 Hr1 Hu Hg2) as (r2 & k & w' & E1 & Hk & Hw & Hkr & Hd & Heq).
  pose proof Hk as [Kn Kd Ks Kst _ _ _ Ko]. cbn in Kn, Kd, Ks, Kst, Ko. rewrite <- Kd, <- Ks in Hg3.
  destruct (poll_end r2 bs w' d' Hw Hg3) as (q & r3 & E2 & (Pn & Pd & Ps & Pst & Pdr & _ & Po & l & Pi & Pl)).
  cbn in Pn, Pd, Ps, Pst, Pdr, Po. cbn in Hd.
  exists q, r3, l, w'. split; [|split; [assumption|split; [congruence|split; [congruence|split; [assumption|split; [assumption|split]]]]]].
  - intros n. unfold slipif_poll. rewrite bind_gets, bind_assert_ok by (now rewrite (proj2 (Z.eqb_neq _ _) Hn)).
    rewrite length_app, <- Nat.add_assoc. change (length [SLIP_END]) with 1%nat. rewrite E0, length_app, <- Nat.add_assoc, E1. apply E2.
  - eapply others_trans; eassumption.
  - intros Hsame. rewrite Heq; [apply put_clip; cbn; slip_numbers; lia|]. rewrite Pdr, Hd in Hsame. unfold u16, is_u16 in *.
    pose proof (Z.div_mod (link_drop r + k) 65536 ltac:(lia)). nia.
Qed.

(** C19: Round trip over the serial line.  [slipif_output] of a packet sends
    some bytes [ws]; when these arrive at an idle receiver, whatever it holds
    allocated, [slipif_poll] reads them all and is then between two packets
    again.  Unless the drop counter moved it has passed a packet to
    [netif->input] (if the packet has any bytes): a chain of pool pbufs with
    consistent lengths whose content is what was sent, cut after 1501 bytes.
    Nothing else that is allocated changes. *)
Theorem slip_roundtrip s p lp :
  chain s.(mem).(structs) p lp -> lp <> [] -> s.(nif).(nstate) <> 0 ->
  Forall (fun a => 0 <= (s.(mem).(structs) a).(len) < 65536) lp -> Z.of_nat (length lp) <= 65536 ->
  let w := content s.(mem).(structs) s.(mem).(data) lp in Z.of_nat (length w) < 65536 ->
  exists ws, slipif_output p s = Ok (ERR_OK, sent ws s) /\
  forall r bs d', idle r bs -> r.(priv).(rx_state) = SLIP_RECV_NORMAL -> r.(nif).(nstate) <> 0 ->
  is_u16 r.(link_drop) -> gives r.(priv).(sd) r.(dev) ws d' ->
  exists q r1 l w',
    (forall n, slipif_poll (length ws + n) r = ((when negb (q =? 0) then deliver q) ;; poll_loop n) r1) /\
    r1.(dev) = d' /\ idle r1 (pool_blocks l ++ bs) /\ delivered r1.(mem) q w' l bs /\ others r.(mem) r1.(mem) bs /\
    (r1.(link_drop) = r.(link_drop) -> w' = firstn 1501 w).
Proof.
  intros Hc Hne Hn Hl Hlen w Hw. exists (slip_encode w). split; [now apply slipif_output_spec|].
  intros r bs d' Hid Hst Hrn Hu Hg.
  destruct (poll_packet r bs w d' Hid Hst Hrn Hu Hw Hg) as (q & r1 & l & w' & E & H1 & _ & _ & H2 & H3 & H4 & H5).
  now exists q, r1, l, w'.
Qed.

(** ** The queue of the interrupt handler *)

Lemma chain_end_spec m r : forall l0 fuel q, chain m.(structs) q (l0 ++ [r]) -> (length l0 < fuel)%nat ->
  chain_end fuel q m = Ok (r, m).
Proof.
  induction l0 as [|a l0 IH]; intros fuel q Hc Hf; (destruct fuel as [|fuel]; [lia|]); cbn [chain_end app] in *;
    destruct Hc as (-> & _ & Hc); unfold get; rewrite bind_gets.
  - cbn in Hc. now rewrite Hc.
  - assert (Hnx : (next (structs m a) =? 0) = false) by (destruct l0; now destruct (chain_nonnull _ _ _ _ Hc)).
    rewrite Hnx. cbn [negb]. apply IH; [assumption|cbn in Hf; lia].
Qed.

(** With SLIP_RX_QUEUE a packet that is complete while another one waits is
    linked to itself, and the queue does not change: the packet is lost. *)
Theorem enqueue_second_packet_lost s c p s1 l0 r : RX_QUEUE = true -> slipif_rxbyte c s = Ok (p, s1) ->
  s1.(priv).(rxpackets) <> 0 -> chain s1.(mem).(structs) p (l0 ++ [r]) -> Z.of_nat (length l0) < 65536 ->
  exists s2, slipif_rxbyte_enqueue c s = Ok (tt, s2) /\ s2.(priv).(rxpackets) = s1.(priv).(rxpackets) /\
    (s2.(mem).(structs) r).(next) = p /\ forall a, a <> r -> s2.(mem).(structs) a = s1.(mem).(structs) a.
Proof.
  intros Hq E Hx Hc Hlen. unfold slipif_rxbyte_enqueue. rewrite (bind_ok _ _ _ _ _ E).
  assert (Hp : (p =? 0) = false) by (destruct l0; now destruct (chain_nonnull _ _ _ _ Hc)).
  rewrite Hp. cbn [negb]. rewrite bind_gets, Hq, (proj2 (Z.eqb_neq _ _) Hx). cbn [negb].
  rewrite (bind_pb _ _ _ _ _ (chain_end_spec _ _ _ chain_fuel _ Hc ltac:(unfold chain_fuel; lia))).
  unfold pb, upds, modify. set (m2 := _ <| structs := _ |>). eexists. split; [reflexivity|]. split; [reflexivity|].
  cbn [mem with_field]. unfold m2. rewrite structs_set. split.
  - now rewrite upd_at_same.
  - intros a Ha. now rewrite upd_at_other.
Qed.

End Slip.
Arguments mem {PMem sio} _.
Arguments priv {PMem sio} _.
Arguments nif {PMem sio} _.
Arguments dev {PMem sio} _.
Arguments link_recv {PMem sio} _.
Arguments link_drop {PMem sio} _.
Arguments threads {PMem sio} _.

(** ** A concrete line *)

(** The device is the list of the bytes on the line. *)
Definition line := list Z.
Definition line_send (c fd : Z) (d : line) : line := d ++ [c].
Definition line_read (fd : Z) (d : line) : option Z * line :=
  match d with [] => (None, []) | c :: d => (Some c, d) end.

(** A packet with bytes that are escaped, to be sent; an idle receiver. *)
Definition slip0 (m : @pst mem0) (d : line) : @slip mem0 line :=
  mkSlip line m (mkPriv 1 0 0 SLIP_RECV_NORMAL 0 0 0) (mkNetif 0 7 (115, 108) 1500 true) d 0 0 0.
Definition pst2 : @pst mem0 := @mkPst mem0 PbufBoard.packet
  (fun a => if a =? 501 then 0xC0 else if a =? 601 then 0xDB else a mod 256) board0 false 0.
Definition ws0 : list Z := [0xC0; 244; 0xDB; 0xDC; 246; 88; 0xDB; 0xDD; 90; 91; 0xC0].

Lemma line_gives fd l : forall rest, gives line line_read fd (l ++ rest) l rest.
Proof. induction l as [|c l IH]; intros rest; cbn [app gives]; [reflexivity|]. exists (l ++ rest). split; [reflexivity|apply IH]. Qed.

Lemma line_sends fd l : forall d, sends line line_send fd l d = d ++ l.
Proof.
  induction l as [|c l IH]; intros d; unfold sends in *; cbn [fold_left]; [now rewrite app_nil_r|].
  rewrite IH. unfold line_send. now rewrite <- app_assoc.
Qed.

(** The receiver takes the packet without dropping a byte. *)
Lemma poll0_runs : match @slipif_poll mem0 false (fun _ => ret tt) (fun _ => true) line line_read (fun _ => ret true) 12 (slip0 pst0 ws0)
  with Ok (_, s) => s.(link_drop) =? 0 | _ => false end = true.
Proof. vm_compute. reflexivity. Qed.

Lemma slip_roundtrip_witness : exists q r1 l,
  @slipif_poll mem0 false (fun _ => ret tt) (fun _ => true) line line_read (fun _ => ret true) 12 (slip0 pst0 ws0) = Ok (tt, r1) /\
  @delivered mem0 r1.(mem) q [244; 0xC0; 246; 88; 0xDB; 90; 91] l [].
Proof.
  destruct (@slip_roundtrip mem0 false (fun _ => ret tt) (fun _ => true) line line_send line_read (fun _ => ret true)
    ltac:(vm_compute; congruence) (slip0 pst2 []) 100 [100; 200]) as (ws & E & H).
  - now repeat split.
  - discriminate.
  - discriminate.
  - do 2 (constructor; [vm_compute; split; congruence|]). constructor.
  - cbn; lia.
  - vm_compute. reflexivity.
  - assert (Hws : ws = ws0).
    { apply (f_equal (fun x => match x with Ok (_, s) => s.(dev) | _ => [] end)) in E.
      unfold sent in E. cbn [dev with_field] in E. rewrite line_sends in E. cbn [slip0 dev app] in E. rewrite <- E. vm_compute. reflexivity. }
    subst ws. destruct (H (slip0 pst0 ws0) [] []) as (q & r1 & l & w' & Ep & Hdev & _ & Hd & _ & Hw).
    + constructor; [now repeat split|exact board0_owns].
    + reflexivity.
    + discriminate.
    + vm_compute. split; congruence.
    + exact (line_gives 1 ws0 []).
    + specialize (Ep 1%nat). pose proof poll0_runs as Hrun. change (length ws0 + 1)%nat with 12%nat in Ep. rewrite Ep in Hrun |- *.
      assert (Hfin : forall m : SL line unit, m = ret tt \/ m = deliver false (fun _ => ret tt) line (fun _ => ret true) q ->
        (m ;; poll_loop false (fun _ => ret tt) (fun _ => true) line line_read (fun _ => ret true) 1) r1 = Ok (tt, r1)).
      { intros m Hm. assert (m r1 = Ok (tt, r1)) as Em by (destruct Hm as [->| ->]; reflexivity). rewrite (bind_ok _ _ _ _ _ Em).
        cbn [poll_loop]. unfold read, bind. rewrite Hdev. cbn. rewrite <- Hdev. now destruct r1. }
      rewrite Hfin in Hrun |- * by (destruct (negb (q =? 0)); auto). apply Z.eqb_eq in Hrun.
      exists q, r1, l. split; [reflexivity|]. rewrite (Hw Hrun) in Hd. exact Hd.
Defined.
