(* ===== verification/Ip4Frag.v ===== *)
(** * IPv4 fragmentation and reassembly (lwip/src/core/ipv4/ip4_frag.c)

    Fragments are packet buffers in the memory of Pbuf.v; while a fragment is
    queued the first eight bytes of its IP header hold a [struct
    ip_reass_helper], written and read here byte by byte.  The list
    [reassdatagrams] is a list of structs, a struct of it is named by its
    position; MEMP_REASSDATA is the number of its free elements.
    [icmp_time_exceeded] is a section variable; icmp.c provides it.  Loops take fuel: the queue of a datagram
    is shorter than the limit on queued pbufs. *)

From Stdlib Require Import ZArith List Lia Bool Permutation.
From S2P Require Import Prelude Def Chksum Mem PbufMem Pbuf.
Import ListNotations.
Open Scope Z_scope.
Open Scope c_scope.

Definition IP_HLEN := 20.
Definition IP_MF := 0x2000.
Definition IP_OFFMASK := 0x1fff.
Definition IP_REASS_FLAG_LASTFRAG := 0x01.
Definition IP_REASS_MAXAGE := 3.
Definition IP_REASS_MAX_PBUFS := 10.
Definition MEMP_NUM_REASSDATA : nat := 5.

(** ** The IP header

    A header is the list of its 20 bytes; 16-bit fields are read as the
    processor reads them (little endian), [lwip_ntohs] turns them around. *)

Definition field16 (h : list Z) (i : nat) : Z := le16 (nth i h 0) (nth (i + 1) h 0).
Definition IPH_HL (h : list Z) : Z := nth 0 h 0 .& 0x0f.
Definition IPH_LEN (h : list Z) : Z := field16 h 2.
Definition IPH_ID (h : list Z) : Z := field16 h 4.
Definition IPH_OFFSET (h : list Z) : Z := field16 h 6.
Definition iph_src (h : list Z) : Z := le32 (nth 12 h 0) (nth 13 h 0) (nth 14 h 0) (nth 15 h 0).
Definition iph_dest (h : list Z) : Z := le32 (nth 16 h 0) (nth 17 h 0) (nth 18 h 0) (nth 19 h 0).

Definition IP_ADDRESSES_AND_ID_MATCH (a b : list Z) : bool :=
  (iph_src a =? iph_src b) && (iph_dest a =? iph_dest b) && (IPH_ID a =? IPH_ID b).

(** [struct ip_reass_helper] *)
Record ip_reass_helper := mkHelper { next_pbuf : Z; h_start : Z; h_end : Z }.
Definition read_helper (d : Z -> Z) (a : Z) : ip_reass_helper :=
  mkHelper (le32 (d a) (d (a + 1)) (d (a + 2)) (d (a + 3))) (le16 (d (a + 4)) (d (a + 5))) (le16 (d (a + 6)) (d (a + 7))).

(** [struct ip_reassdata] *)
Record ip_reassdata := mkRd { rd_p : Z; iphdr : list Z; datagram_len : Z; rd_flags : Z; timer : Z }.
#[export] Instance ip_reassdata_eta : Eta ip_reassdata := { eta := fun r =>
  mkRd r.(rd_p) r.(iphdr) r.(datagram_len) r.(rd_flags) r.(timer) }.

(** [lwip_stats.ip_frag]; its counter [xmit] is in the file Ip4Out. *)
Record ipfrag_stats := mkStats { recv : Z; drop : Z; memerr : Z; err : Z; cachehit : Z }.
#[export] Instance ipfrag_stats_eta : Eta ipfrag_stats := { eta := fun r =>
  mkStats r.(recv) r.(drop) r.(memerr) r.(err) r.(cachehit) }.

(** The state of the rest of the stack, which icmp.c changes. *)
Class Surroundings := { Env : Type }.

Section Reass.
Context {PMem : PbufMemory}.
Variable NOASSERT : bool.
Variable custom_free_function : Z -> PB unit.
Context {Sur : Surroundings}.
(** [icmp_time_exceeded(p, ICMP_TE_FRAG)] *)
Variable icmp_time_exceeded : Z -> M (pst * Env) unit.

(** The pbufs and the statics of ip4_frag.c; [reass_avail] elements of
    MEMP_REASSDATA are free. *)
Record rst := mkRst {
  pm : pst; reassdatagrams : list ip_reassdata; ip_reass_pbufcount : Z; reass_avail : nat; stats : ipfrag_stats; env : Env }.
#[export] Instance rst_eta : Eta rst := { eta := fun r =>
  mkRst r.(pm) r.(reassdatagrams) r.(ip_reass_pbufcount) r.(reass_avail) r.(stats) r.(env) }.

Definition RM := M rst.

Definition pb {A} (m : PB A) : RM A := fun s =>
  match m s.(pm) with
  | Ok (a, m') => Ok (a, s <| pm := m' |>)
  | Halt => Halt
  | Hang => Hang
  end.

Definition outside {A} (m : M (pst * Env) A) : RM A := fun s =>
  match m (s.(pm), s.(env)) with
  | Ok (a, (m', e')) => Ok (a, s <| pm := m' |> <| env := e' |>)
  | Halt => Halt
  | Hang => Hang
  end.

(** More than the pbufs of any chain and the fragments of any queue. *)
Definition loop_fuel : nat := S (Z.to_nat 65536).

Definition assert (c : bool) : RM unit := pb (LWIP_ASSERT NOASSERT c).
Definition payload_of (p : Z) : RM Z := gets (fun s => (s.(pm).(structs) p).(payload)).
Definition load (a n : Z) : RM (list Z) := gets (fun s => load_list s.(pm).(data) a n).
Definition store (a : Z) (l : list Z) : RM unit :=
  modify (fun s => s <| pm := s.(pm) <| data := store_list a l s.(pm).(data) |> |>).
Definition helper (a : Z) : RM ip_reass_helper := gets (fun s => read_helper s.(pm).(data) a).
Definition set_next_pbuf (a v : Z) : RM unit := store a (put32 v).
Definition set_start (a v : Z) : RM unit := store (a + 4) (put16 v).
Definition set_end (a v : Z) : RM unit := store (a + 6) (put16 v).

Definition entry (i : nat) : RM ip_reassdata := fun s =>
  match nth_error s.(reassdatagrams) i with Some e => Ok (e, s) | None => Halt end.
Definition set_entry (i : nat) (f : ip_reassdata -> ip_reassdata) : RM unit := modify (fun s =>
  s <| reassdatagrams := match nth_error s.(reassdatagrams) i with
                         | Some e => firstn i s.(reassdatagrams) ++ f e :: skipn (S i) s.(reassdatagrams)
                         | None => s.(reassdatagrams)
                         end |>).
Definition stat (f : ipfrag_stats -> ipfrag_stats) : RM unit := modify (fun s => s <| stats := f s.(stats) |>).
Definition set_pbufcount (f : Z -> Z) : RM unit :=
  modify (fun s => s <| ip_reass_pbufcount := u16 (f s.(ip_reass_pbufcount)) |>).

Definition clen (p : Z) : RM Z := pb (pbuf_clen loop_fuel p).
Definition free (p : Z) : RM unit := pb (pbuf_free NOASSERT custom_free_function loop_fuel p) ;; ret tt.

(** ** The list of datagrams *)

(** Unlink the struct and give it back to the pool. *)
Definition ip_reass_dequeue_datagram (i : nat) : RM unit :=
  modify (fun s => s <| reassdatagrams := remove_at i s.(reassdatagrams) |> <| reass_avail := S s.(reass_avail) |>).

(** Free the queued fragments from [p] on; [freed] pbufs were freed so far. *)
Fixpoint free_fragments (fuel : nat) (p freed : Z) : RM Z :=
  if p =? 0 then ret freed else
  match fuel with
  | O => hang
  | S n =>
      do a <- payload_of p;
      do h <- helper a;
      do c <- clen p;
      assert (freed + c <=? 0xffff) ;;
      free p ;;
      free_fragments n h.(next_pbuf) (u16 (freed + c))
  end.

(** The first fragment, if it is there, is sent back with its header and freed. *)
Definition free_first (i : nat) : RM Z :=
  do ipr <- entry i;
  do a <- payload_of ipr.(rd_p);
  do h <- helper a;
  if h.(h_start) =? 0 then
    let p := ipr.(rd_p) in
    set_entry i (fun e => e <| rd_p := h.(next_pbuf) |>) ;;
    store a ipr.(iphdr) ;;
    outside (icmp_time_exceeded p) ;;
    do c <- clen p;
    assert (c <=? 0xffff) ;;
    free p ;;
    ret (u16 c)
  else ret 0.

Definition ip_reass_free_complete_datagram (i : nat) : RM Z :=
  do freed <- free_first i;
  do ipr <- entry i;
  do freed <- free_fragments loop_fuel ipr.(rd_p) freed;
  ip_reass_dequeue_datagram i ;;
  do n <- gets ip_reass_pbufcount;
  assert (n >=? freed) ;;
  set_pbufcount (fun n => n - freed) ;;
  ret freed.

(** Positions in the list with their timers; a timed-out struct is freed. *)
Fixpoint tmr_loop (fuel : nat) (i : nat) : RM unit :=
  do l <- gets reassdatagrams;
  match nth_error l i with
  | None => ret tt
  | Some r =>
      match fuel with
      | O => hang
      | S n =>
          if r.(timer) >? 0 then
            set_entry i (fun e => e <| timer := u8 (e.(timer) - 1) |>) ;;
            tmr_loop n (S i)
          else
            ip_reass_free_complete_datagram i ;;
            tmr_loop n i
      end
  end.

Definition ip_reass_tmr : RM unit :=
  do l <- gets reassdatagrams;
  tmr_loop (length l) 0.

(** The oldest of the datagrams that do not match [fraghdr] (the last one of
    those with the smallest timer), with their number. *)
Fixpoint oldest_scan (fraghdr : list Z) (l : list ip_reassdata) (i : nat) (oldest : option (nat * Z)) (others : Z)
    : option (nat * Z) * Z :=
  match l with
  | [] => (oldest, others)
  | r :: l =>
      if negb (IP_ADDRESSES_AND_ID_MATCH r.(iphdr) fraghdr) then
        let o := match oldest with
                 | None => Some (i, r.(timer))
                 | Some (j, t) => if r.(timer) <=? t then Some (i, r.(timer)) else oldest
                 end in
        oldest_scan fraghdr l (S i) o (others + 1)
      else oldest_scan fraghdr l (S i) oldest others
  end.

(** The [do ... while] loop; every turn but the last frees a datagram. *)
Fixpoint remove_oldest_loop (fuel : nat) (fraghdr : list Z) (pbufs_needed pbufs_freed : Z) : RM Z :=
  match fuel with
  | O => hang
  | S n =>
      do l <- gets reassdatagrams;
      let '(oldest, other_datagrams) := oldest_scan fraghdr l 0 None 0 in
      do freed <- match oldest with
                  | Some (i, _) => ip_reass_free_complete_datagram i
                  | None => ret 0
                  end;
      let pbufs_freed := pbufs_freed + freed in
      if (pbufs_freed <? pbufs_needed) && (other_datagrams >? 1)
      then remove_oldest_loop n fraghdr pbufs_needed pbufs_freed
      else ret pbufs_freed
  end.

Definition ip_reass_remove_oldest_datagram (fraghdr : list Z) (pbufs_needed : Z) : RM Z :=
  do l <- gets reassdatagrams;
  remove_oldest_loop (S (length l)) fraghdr pbufs_needed 0.

(** [memp_malloc(MEMP_REASSDATA)] *)
Definition reass_malloc : RM bool := fun s =>
  match s.(reass_avail) with
  | O => Ok (false, s)
  | S n => Ok (true, s <| reass_avail := n |>)
  end.

(** The new struct is the first of the list; false if there is none. *)
Definition ip_reass_enqueue_new_datagram (fraghdr : list Z) (needed : Z) : RM bool :=
  do ok <- reass_malloc;
  do ok <- (if ok : bool then ret true
            else do freed <- ip_reass_remove_oldest_datagram fraghdr needed;
                 if freed >=? needed then reass_malloc else ret false);
  if ok : bool then
    modify (fun s => s <| reassdatagrams := mkRd 0 fraghdr 0 0 IP_REASS_MAXAGE :: s.(reassdatagrams) |>) ;;
    ret true
  else
    stat (fun t => t <| memerr := u16 (t.(memerr) + 1) |>) ;;
    ret false.

(** ** Inserting a fragment *)

(** Where the [for] loop ends: [goto freepbuf], or behind the helper [prev]
    (0 if none) and before the pbuf [q] (0 at the end), with [valid]. *)
Inductive scan_result := ScanFree | ScanAt (prev q : Z) (valid : bool).

Fixpoint scan_queue (fuel : nat) (start end_ iprh q prev : Z) (valid : bool) : RM scan_result :=
  if q =? 0 then ret (ScanAt prev 0 valid) else
  match fuel with
  | O => hang
  | S n =>
      do tmp <- payload_of q;
      do t <- helper tmp;
      if start <? t.(h_start) then
        set_next_pbuf iprh q ;;
        if negb (prev =? 0) then
          do pv <- helper prev;
          if (start <? pv.(h_end)) || (end_ >? t.(h_start)) then ret ScanFree
          else ret (ScanAt prev q valid)
        else ret (ScanAt prev q valid)
      else if start =? t.(h_start) then ret ScanFree
      else if start <? t.(h_end) then ret ScanFree
      else
        do valid <-
          (if negb (prev =? 0) then
             do pv <- helper prev;
             ret (if negb (pv.(h_end) =? t.(h_start)) then false else valid)
           else ret valid);
        scan_queue n start end_ iprh t.(next_pbuf) tmp valid
  end.

(** No holes from the helper [prev] on; the last helper. *)
Fixpoint check_rest (fuel : nat) (prev q : Z) : RM (bool * Z) :=
  if q =? 0 then ret (true, prev) else
  match fuel with
  | O => hang
  | S n =>
      do a <- payload_of q;
      do pv <- helper prev;
      do t <- helper a;
      if negb (pv.(h_end) =? t.(h_start)) then ret (false, a)
      else check_rest n a t.(next_pbuf)
  end.

(** The validation part: [iprh] is the helper of the new fragment. *)
Definition validate (i : nat) (iprh : Z) (valid : bool) : RM bool :=
  do ipr <- entry i;
  if negb (ipr.(rd_flags) .& IP_REASS_FLAG_LASTFRAG =? 0) then
    if valid then
      do first <- payload_of ipr.(rd_p);
      do f <- helper first;
      if (ipr.(rd_p) =? 0) || negb (f.(h_start) =? 0) then ret false
      else
        do h <- helper iprh;
        do r <- check_rest loop_fuel iprh h.(next_pbuf);
        let '(valid, last) := r in
        (when valid then
           (assert (negb (ipr.(rd_p) =? 0)) ;;
            assert (negb (first =? last)) ;;
            do l <- helper last;
            assert (l.(next_pbuf) =? 0) ;;
            assert (l.(h_end) =? ipr.(datagram_len)))) ;;
        ret valid
    else ret false
  else ret false.

(** Link the new fragment behind the helper [prev] and before [q]. *)
Definition place_frag (i : nat) (new_p offset prev q : Z) (valid : bool) : RM bool :=
  if negb (q =? 0) then
    (if negb (prev =? 0) then set_next_pbuf prev new_p
     else set_entry i (fun e => e <| rd_p := new_p |>)) ;;
    ret valid
  else if negb (prev =? 0) then
    do pv <- helper prev;
    assert (pv.(h_end) <=? offset) ;;
    set_next_pbuf prev new_p ;;
    ret (if negb (pv.(h_end) =? offset) then false else valid)
  else
    do ipr <- entry i;
    assert (ipr.(rd_p) =? 0) ;;
    set_entry i (fun e => e <| rd_p := new_p |>) ;;
    ret valid.

Definition ip_reass_chain_frag_into_datagram_and_validate (i : nat) (new_p : Z) : RM bool :=
  do iprh <- payload_of new_p;
  do fraghdr <- load iprh IP_HLEN;
  let len := u16 (lwip_htons (IPH_LEN fraghdr) - IPH_HL fraghdr * 4) in
  let offset := u16 ((lwip_htons (IPH_OFFSET fraghdr) .& IP_OFFMASK) * 8) in
  set_next_pbuf iprh 0 ;;
  set_start iprh offset ;;
  set_end iprh (u16 (offset + len)) ;;
  do ipr <- entry i;
  do r <- scan_queue loop_fuel offset (u16 (offset + len)) iprh ipr.(rd_p) 0 true;
  match r with
  | ScanFree =>
      do c <- clen new_p;
      set_pbufcount (fun n => n - c) ;;
      free new_p ;;
      ret false
  | ScanAt prev q valid =>
      do valid <- place_frag i new_p offset prev q valid;
      validate i iprh valid
  end.

(** ** A fragment arrives *)

Fixpoint find_datagram (fraghdr : list Z) (l : list ip_reassdata) (i : nat) : option nat :=
  match l with
  | [] => None
  | r :: l => if IP_ADDRESSES_AND_ID_MATCH r.(iphdr) fraghdr then Some i else find_datagram fraghdr l (S i)
  end.

(** Chain the fragments from [r] on behind [p], without their headers. *)
Fixpoint chain_fragments (fuel : nat) (p r : Z) : RM unit :=
  if r =? 0 then ret tt else
  match fuel with
  | O => hang
  | S n =>
      do a <- payload_of r;
      pb (pbuf_header NOASSERT r (- IP_HLEN)) ;;
      pb (pbuf_cat NOASSERT loop_fuel p r) ;;
      do h <- helper a;
      chain_fragments n p h.(next_pbuf)
  end.

(** All fragments are there: the datagram. *)
Definition complete_datagram (i : nat) : RM Z :=
  set_entry i (fun e => e <| datagram_len := u16 (e.(datagram_len) + IP_HLEN) |>) ;;
  do ipr <- entry i;
  do a <- payload_of ipr.(rd_p);
  do h <- helper a;
  let r := h.(next_pbuf) in
  store a ipr.(iphdr) ;;
  store (a + 2) (put16 (lwip_htons ipr.(datagram_len))) ;;
  store (a + 6) (put16 0) ;;
  store (a + 10) (put16 0) ;;
  do hdr <- load a IP_HLEN;
  store (a + 10) (put16 (inet_chksum a hdr)) ;;
  let p := ipr.(rd_p) in
  chain_fragments loop_fuel p r ;;
  ip_reass_dequeue_datagram i ;;
  do c <- clen p;
  set_pbufcount (fun n => n - c) ;;
  ret p.

(** [goto nullreturn] *)
Definition nullreturn (p : Z) : RM Z :=
  stat (fun t => t <| drop := u16 (t.(drop) + 1) |>) ;;
  free p ;;
  ret 0.

(** The datagram's position in the list; [None] if there is no room for it. *)
Definition find_or_enqueue (fraghdr : list Z) (c : Z) : RM (option nat) :=
  do l <- gets reassdatagrams;
  match find_datagram fraghdr l 0 with
  | None => do ok <- ip_reass_enqueue_new_datagram fraghdr c; ret (if ok : bool then Some O else None)
  | Some i =>
      stat (fun t => t <| cachehit := u16 (t.(cachehit) + 1) |>) ;;
      (set_entry i (fun e =>
         if (lwip_htons (IPH_OFFSET fraghdr) .& IP_OFFMASK =? 0) &&
            negb (lwip_htons (IPH_OFFSET e.(iphdr)) .& IP_OFFMASK =? 0)
         then e <| iphdr := fraghdr |> else e)) ;;
      ret (Some i)
  end.

Definition ip4_reass (p : Z) : RM Z :=
  stat (fun t => t <| recv := u16 (t.(recv) + 1) |>) ;;
  do a <- payload_of p;
  do fraghdr <- load a IP_HLEN;
  if negb (IPH_HL fraghdr * 4 =? IP_HLEN) then
    stat (fun t => t <| err := u16 (t.(err) + 1) |>) ;; nullreturn p
  else
  let offset := u16 ((lwip_htons (IPH_OFFSET fraghdr) .& IP_OFFMASK) * 8) in
  let len := u16 (lwip_htons (IPH_LEN fraghdr) - IPH_HL fraghdr * 4) in
  do c <- clen p;
  do n <- gets ip_reass_pbufcount;
  do room <-
    (if n + c >? IP_REASS_MAX_PBUFS then
       do freed <- ip_reass_remove_oldest_datagram fraghdr c;
       do n <- gets ip_reass_pbufcount;
       ret (negb ((freed =? 0) || (n + c >? IP_REASS_MAX_PBUFS)))
     else ret true);
  if negb room then
    stat (fun t => t <| memerr := u16 (t.(memerr) + 1) |>) ;; nullreturn p
  else
  do found <- find_or_enqueue fraghdr c;
  match found with
  | None => nullreturn p
  | Some i =>
      set_pbufcount (fun n => n + c) ;;
      (when IPH_OFFSET fraghdr .& PP_HTONS IP_MF =? 0 then
         set_entry i (fun e => e <| rd_flags := e.(rd_flags) .| IP_REASS_FLAG_LASTFRAG |>
                                 <| datagram_len := u16 (offset + len) |>)) ;;
      do complete <- ip_reass_chain_frag_into_datagram_and_validate i p;
      if complete : bool then complete_datagram i else ret 0
  end.
End Reass.
