(* ===== verification/Ip4Reass.v ===== *)
(** * Reassembly of IPv4 datagrams

    What the queue of a datagram looks like in memory, what inserting a
    fragment does to it, and when the fragments of a datagram come out of
    [ip4_reass] as that datagram. *)

From Stdlib Require Import ZArith List Lia Bool Permutation Sorted.
From S2P Require Import Prelude Def Chksum Mem PbufMem Pbuf PbufBoard Ip4Frag.
Import ListNotations.
Open Scope Z_scope.
Open Scope c_scope.

(** ** Words in memory *)

(** The helper at [a] after a store into one of its fields. *)
Lemma read_set_next d a v : is_u32 v -> read_helper (store_list a (put32 v) d) a =
  mkHelper v (read_helper d a).(h_start) (read_helper d a).(h_end).
Proof.
  intros Hv. unfold read_helper. cbn [h_start h_end].
  rewrite (store_at _ _ _ 0 a), (store_at _ _ _ 1 (a + 1)), (store_at _ _ _ 2 (a + 2)), (store_at _ _ _ 3 (a + 3)) by (cbn; lia).
  rewrite !(store_other d a _ (a + _)) by (cbn; lia). cbn [put32 nth]. now rewrite le32_put32.
Qed.

Lemma read_set_start d a v : is_u16 v -> read_helper (store_list (a + 4) (put16 v) d) a =
  mkHelper (read_helper d a).(next_pbuf) v (read_helper d a).(h_end).
Proof.
  intros Hv. unfold read_helper. cbn [next_pbuf h_end].
  rewrite (store_at _ _ _ 0 (a + 4)), (store_at _ _ _ 1 (a + 5)) by (cbn; lia).
  rewrite !(store_other d (a + 4) _ _) by (cbn; lia). cbn [put16 nth]. now rewrite le16_put16.
Qed.

Lemma read_set_end d a v : is_u16 v -> read_helper (store_list (a + 6) (put16 v) d) a =
  mkHelper (read_helper d a).(next_pbuf) (read_helper d a).(h_start) v.
Proof.
  intros Hv. unfold read_helper. cbn [next_pbuf h_start].
  rewrite (store_at _ _ _ 0 (a + 6)), (store_at _ _ _ 1 (a + 7)) by (cbn; lia).
  rewrite !(store_other d (a + 6) _ _) by (cbn; lia). cbn [put16 nth]. now rewrite le16_put16.
Qed.

Lemma read_helper_ext d d' a : (forall x, a <= x < a + 8 -> d' x = d x) -> read_helper d' a = read_helper d a.
Proof. intros He. unfold read_helper. now rewrite !He by lia. Qed.

(** ** The queue of a datagram *)

(** A queued fragment: its pbufs, the first of which is [f_p], and the part of
    the datagram it holds. *)
Record frag := mkFrag { f_l : list Z; f_start : Z; f_end : Z }.
Definition f_p (g : frag) : Z := hd 0 g.(f_l).

Definition nxt (q : list frag) : Z := match q with [] => 0 | g :: _ => f_p g end.

Section Queue.
Context {PMem : PbufMemory}.
Variable NOASSERT : bool.
Variable custom_free_function : Z -> PB unit.
Context {Sur : Surroundings}.
Variable icmp_time_exceeded : Z -> M (pst * Env) unit.

(** Where the IP header, then the helper, of a fragment is. *)
Definition ha (f : Z -> pbuf) (g : frag) : Z := (f (f_p g)).(payload).

(** A fragment that can be queued: a pbuf at an address the processor has. *)
Definition addr_ok (f : Z -> pbuf) (g : frag) : Prop := f_p g <> 0 /\ is_u32 (f_p g) /\ ha f g <> 0.

(** The fragments are linked through their helpers. *)
Fixpoint queue (f : Z -> pbuf) (d : Z -> Z) (q : list frag) : Prop :=
  match q with
  | [] => True
  | g :: r => addr_ok f g /\ read_helper d (ha f g) = mkHelper (nxt r) g.(f_start) g.(f_end) /\ queue f d r
  end.

(** The header areas of two fragments are apart. *)
Definition hdr_apart (f : Z -> pbuf) (g h : frag) : Prop :=
  ha f g + IP_HLEN <= ha f h \/ ha f h + IP_HLEN <= ha f g.

Definition prev_addr (f : Z -> pbuf) (o : option frag) : Z := match o with None => 0 | Some h => ha f h end.
Fixpoint last_of (o : option frag) (q : list frag) : option frag :=
  match q with [] => o | h :: r => last_of (Some h) r end.

(** No hole between the fragments, nor before the first of them and behind [o]. *)
Fixpoint contig (o : option frag) (q : list frag) : bool :=
  match q with
  | [] => true
  | h :: r => (match o with Some p => p.(f_end) =? h.(f_start) | None => true end) && contig (Some h) r
  end.

(** The fragment ends before the other one starts. *)
Definition before (g h : frag) : Prop := g.(f_start) < g.(f_end) /\ g.(f_end) <= h.(f_start).

Lemma queue_ext f d d' q : (forall g x, In g q -> ha f g <= x < ha f g + 8 -> d' x = d x) -> queue f d q -> queue f d' q.
Proof.
  induction q as [|g q IH]; intros He; cbn [queue]; [trivial|]. intros (Hok & Hh & Hq). split; [assumption|]. split.
  - rewrite <- Hh. apply read_helper_ext. intros x Hx. apply (He g); [now left|assumption].
  - apply IH; [|assumption]. intros h x Hin. apply He. now right.
Qed.

Lemma queue_app f d q1 q2 : queue f d (q1 ++ q2) -> queue f d q2.
Proof. induction q1 as [|g q1 IH]; [trivial|]. intros (_ & _ & H). now apply IH. Qed.

(** The state after the link of the helper at [a] was set. *)
Definition linked (a v : Z) (s : rst) : rst := s <| pm := s.(pm) <| data := store_list a (put32 v) s.(pm).(data) |> |>.

Lemma set_next_pbuf_eq a v s : set_next_pbuf a v s = Ok (tt, linked a v s).
Proof. reflexivity. Qed.

(** The pointer [iprh->next_pbuf] is only written when a successor is found. *)
Definition link_next (a : Z) (q : list frag) (s : rst) : rst := match q with [] => s | h :: _ => linked a (f_p h) s end.

Lemma scan_queue_spec f g : forall q1 q2 fuel o valid s, let d := s.(pm).(data) in
  s.(pm).(structs) = f -> queue f d (q1 ++ q2) ->
  (forall h, o = Some h -> ha f h <> 0 /\ (read_helper d (ha f h)).(h_end) = h.(f_end) /\ h.(f_end) <= g.(f_start) /\ hdr_apart f g h) ->
  Forall (fun h => before h g /\ hdr_apart f g h) q1 ->
  match q2 with [] => True | h :: _ => before g h end -> (length q1 < fuel)%nat ->
  scan_queue fuel g.(f_start) g.(f_end) (ha f g) (nxt (q1 ++ q2)) (prev_addr f o) valid s =
  Ok (ScanAt (prev_addr f (last_of o q1)) (nxt q2) (valid && contig o q1), link_next (ha f g) q2 s).
Proof.
  induction q1 as [|h q1 IH]; intros q2 fuel o valid s d Hf Hq Ho H1 H2 Hfu; (destruct fuel as [|fuel]; [lia|]);
    cbn [app last_of contig scan_queue].
  - rewrite andb_true_r. destruct q2 as [|h q2]; [reflexivity|]. destruct Hq as ((Hp & _) & Hh & _). cbn [nxt] in *.
    rewrite (proj2 (Z.eqb_neq _ _) Hp). unfold payload_of, helper. rewrite !bind_gets, Hf. fold d. fold (ha f h). rewrite Hh. cbn [h_start].
    destruct H2 as [Hne Hle]. rewrite (proj2 (Z.ltb_lt _ _)) by lia. rewrite (bind_ok _ _ _ _ _ (set_next_pbuf_eq _ _ _)).
    destruct o as [p|]; [|reflexivity]. destruct (Ho p eq_refl) as (Hp0 & He & Hpl & Hap). cbn [prev_addr].
    rewrite (proj2 (Z.eqb_neq _ _) Hp0). cbn [negb]. rewrite bind_gets.
    assert (Hr : h_end (read_helper (data (pm (linked (ha f g) (f_p h) s))) (ha f p)) = f_end p).
    { rewrite <- He. f_equal. apply read_helper_ext. intros x Hx. apply store_other. cbn. unfold hdr_apart, IP_HLEN in Hap. lia. }
    rewrite Hr, (proj2 (Z.ltb_ge _ _)) by lia. rewrite Z.gtb_ltb, (proj2 (Z.ltb_ge _ _)) by lia. reflexivity.
  - destruct Hq as ((Hp & _ & Hha) & Hh & Hq). cbn [nxt] in *. rewrite (proj2 (Z.eqb_neq _ _) Hp).
    apply Forall_cons_iff in H1. destruct H1 as [[[Hne Hle] Hap] H1].
    unfold payload_of, helper. rewrite !bind_gets, Hf. fold d. fold (ha f h). rewrite Hh. cbn [h_start h_end next_pbuf].
    rewrite (proj2 (Z.ltb_ge _ _)), (proj2 (Z.eqb_neq _ _)), (proj2 (Z.ltb_ge _ _)) by lia.
    set (ok := match o with Some p => f_end p =? f_start h | None => true end).
    rewrite (bind_ok _ _ s (valid && ok) s).
    + rewrite andb_assoc. apply (IH q2 fuel (Some h) (valid && ok) s); try assumption; [|cbn in Hfu; lia].
      intros p [= <-]. split; [assumption|]. fold d. rewrite Hh. cbn [h_end]. now split.
    + unfold ok. destruct o as [p|]; [|now rewrite andb_true_r].
      destruct (Ho p eq_refl) as (Hp0 & He & _). cbn [prev_addr]. rewrite (proj2 (Z.eqb_neq _ _) Hp0). cbn [negb].
      rewrite bind_gets. fold d. rewrite He. unfold ret. destruct (f_end p =? f_start h); cbn [negb]; now rewrite ?andb_true_r, ?andb_false_r.
Qed.

(** The check of the fragments behind the new one. *)
Lemma check_rest_spec f : forall q fuel o s, let d := s.(pm).(data) in
  s.(pm).(structs) = f -> queue f d q -> (read_helper d (ha f o)).(h_end) = o.(f_end) -> (length q < fuel)%nat ->
  exists last, check_rest fuel (ha f o) (nxt q) s = Ok ((contig (Some o) q, last), s) /\
    (contig (Some o) q = true -> Some last = option_map (ha f) (last_of (Some o) q)).
Proof.
  induction q as [|h q IH]; intros fuel o s d Hf Hq Ho Hfu; (destruct fuel as [|fuel]; [lia|]); cbn [check_rest contig last_of].
  - exists (ha f o). now split.
  - destruct Hq as ((Hp & _) & Hh & Hq). cbn [nxt]. rewrite (proj2 (Z.eqb_neq _ _) Hp).
    unfold payload_of, helper. rewrite !bind_gets, Hf. fold d. fold (ha f h). rewrite Ho, Hh. cbn [h_start next_pbuf].
    destruct (f_end o =? f_start h); cbn [negb andb].
    + apply (IH fuel h s); try assumption; [|cbn in Hfu; lia]. fold d. now rewrite Hh.
    + exists (ha f h). split; [reflexivity|discriminate].
Qed.

(** The fragments of [q], the last of them linked to [v]. *)
Fixpoint qseg (f : Z -> pbuf) (d : Z -> Z) (q : list frag) (v : Z) : Prop :=
  match q with
  | [] => True
  | g :: r => addr_ok f g /\ read_helper d (ha f g) = mkHelper (match r with [] => v | h :: _ => f_p h end) g.(f_start) g.(f_end) /\
      qseg f d r v
  end.

Lemma queue_split f d q1 q2 : queue f d (q1 ++ q2) <-> qseg f d q1 (nxt q2) /\ queue f d q2.
Proof.
  induction q1 as [|g q1 IH]; cbn [app queue qseg]; [tauto|]. rewrite IH.
  assert (nxt (q1 ++ q2) = match q1 with [] => nxt q2 | h :: _ => f_p h end) as -> by now destruct q1. tauto.
Qed.

Lemma qseg_snoc f d q p v : qseg f d (q ++ [p]) v <->
  qseg f d q (f_p p) /\ addr_ok f p /\ read_helper d (ha f p) = mkHelper v p.(f_start) p.(f_end).
Proof.
  induction q as [|g q IH]; cbn [app qseg]; [tauto|]. rewrite IH.
  assert ((match q ++ [p] with [] => v | h :: _ => f_p h end) = match q with [] => f_p p | h :: _ => f_p h end) as -> by now destruct q.
  tauto.
Qed.

Lemma qseg_ext f d d' q v : (forall g x, In g q -> ha f g <= x < ha f g + 8 -> d' x = d x) -> qseg f d q v -> qseg f d' q v.
Proof.
  induction q as [|g q IH]; intros He; cbn [qseg]; [trivial|]. intros (Hok & Hh & Hq). split; [assumption|]. split.
  - rewrite <- Hh. apply read_helper_ext. intros x Hx. apply (He g); [now left|assumption].
  - apply IH; [|assumption]. intros h x Hin. apply He. now right.
Qed.

Lemma last_of_app o q p : last_of o (q ++ [p]) = Some p.
Proof. revert o. induction q as [|h q IH]; intros o; cbn; [reflexivity|apply IH]. Qed.

(** Link the last fragment of [q1] to [v]. *)
Definition relink (f : Z -> pbuf) (q1 : list frag) (v : Z) (d : Z -> Z) : Z -> Z :=
  match last_of None q1 with Some p => store_list (ha f p) (put32 v) d | None => d end.

Lemma relink_queue f d q1 q2 g : queue f d (q1 ++ q2) -> addr_ok f g ->
  read_helper d (ha f g) = mkHelper (nxt q2) g.(f_start) g.(f_end) ->
  ForallOrdPairs (hdr_apart f) (q1 ++ q2) -> Forall (hdr_apart f g) (q1 ++ q2) ->
  queue f (relink f q1 (f_p g) d) (q1 ++ g :: q2).
Proof.
  intros Hq Hg Hh Hap Hga. destruct q1 as [|p q1 _] using rev_ind; [exact (conj Hg (conj Hh Hq))|].
  unfold relink. rewrite last_of_app. apply queue_split in Hq. destruct Hq as [Hs Hq]. apply qseg_snoc in Hs.
  destruct Hs as (Hs & Hp & Hph). set (d' := store_list _ _ _).
  assert (Hoff : forall h, hdr_apart f p h -> forall x, ha f h <= x < ha f h + 8 -> d' x = d x).
  { intros h Hh' x Hx. apply store_other. cbn. unfold hdr_apart, IP_HLEN in Hh'. lia. }
  assert (Hsym : forall a b, hdr_apart f a b -> hdr_apart f b a) by (unfold hdr_apart; tauto).
  rewrite <- app_assoc in Hap, Hga. cbn [app] in Hap, Hga.
  assert (Hpa : forall h, In h (q1 ++ q2) -> hdr_apart f p h).
  { assert (Hpp : Permutation (q1 ++ p :: q2) (p :: q1 ++ q2)) by (symmetry; apply Permutation_middle).
    apply (ForallOrdPairs_perm _ _ _ Hsym Hpp) in Hap. inversion Hap as [|? ? Hall _]; subst. now apply Forall_forall. }
  assert (Hpg : hdr_apart f p g).
  { apply Hsym. rewrite Forall_forall in Hga. apply Hga, in_app_iff. right. now left. }
  apply queue_split. split.
  - apply qseg_snoc. split; [|split; [assumption|]].
    + apply (qseg_ext f d); [|assumption]. intros h x Hin. apply Hoff, Hpa, in_app_iff. now left.
    + unfold d'. rewrite read_set_next, Hph by apply Hg. reflexivity.
  - cbn [queue]. split; [assumption|]. split; [rewrite <- Hh; apply read_helper_ext, Hoff, Hpg|].
    apply (queue_ext f d); [|assumption]. intros h x Hin. apply Hoff, Hpa, in_app_iff. now right.
Qed.

(** *** Accessors *)

Lemma reass_assert_ok {A} c (k : unit -> RM A) s : c = true -> bind (assert NOASSERT c) k s = k tt s.
Proof. intros ->. destruct s. unfold assert, pb, bind, LWIP_ASSERT. now destruct NOASSERT. Qed.

Lemma reass_pb {A B} (m : PB A) (k : A -> RM B) s a m' : m s.(pm) = Ok (a, m') ->
  bind (pb m) k s = k a (s <| pm := m' |>).
Proof. intros E. unfold bind, pb. now rewrite E. Qed.

Lemma bind_entry {B} (k : ip_reassdata -> RM B) s l1 e l2 : s.(reassdatagrams) = l1 ++ e :: l2 ->
  bind (entry (length l1)) k s = k e s.
Proof. intros E. unfold bind, entry. now rewrite E, nth_error_middle. Qed.

Lemma set_entry_eq F s l1 e l2 : s.(reassdatagrams) = l1 ++ e :: l2 ->
  set_entry (length l1) F s = Ok (tt, s <| reassdatagrams := l1 ++ F e :: l2 |>).
Proof.
  intros E. unfold set_entry, modify. rewrite E, nth_error_middle, firstn_app, firstn_all, Nat.sub_diag, skipn_app, skipn_all2 by lia.
  replace (S (length l1) - length l1)%nat with 1%nat by lia. cbn [firstn skipn app]. now rewrite app_nil_r.
Qed.

Definition with_data (d : Z -> Z) (s : rst) : rst := s <| pm := s.(pm) <| data := d |> |>.

Lemma with_data_structs d s : (with_data d s).(pm).(structs) = s.(pm).(structs).
Proof. reflexivity. Qed.
Lemma with_data_data d s : (with_data d s).(pm).(data) = d.
Proof. reflexivity. Qed.
Lemma with_data_rds d s : (with_data d s).(reassdatagrams) = s.(reassdatagrams).
Proof. reflexivity. Qed.

(** *** The verdict *)

(** What the code takes for a complete datagram when [g] was put between [q1]
    and [q2]: a hole right before [g] counts only if [g] is the last. *)
Definition completes (e : ip_reassdata) (q1 : list frag) (g : frag) (q2 : list frag) : bool :=
  negb (e.(rd_flags) .& IP_REASS_FLAG_LASTFRAG =? 0) &&
  (contig None q1 && match q2, last_of None q1 with [], Some p => p.(f_end) =? g.(f_start) | _, _ => true end) &&
  ((hd g q1).(f_start) =? 0) && contig (Some g) q2.

Lemma last_of_In o q z : last_of o q = Some z -> q <> [] -> In z q.
Proof.
  revert o. induction q as [|h q IH]; intros o Hl Hne; [contradiction|]. cbn in Hl. destruct q as [|h' q].
  - injection Hl as <-. now left.
  - right. now apply (IH (Some h)).
Qed.

Lemma queue_last f d q z : forall o, queue f d q -> q <> [] -> last_of o q = Some z -> read_helper d (ha f z) = mkHelper 0 z.(f_start) z.(f_end).
Proof.
  induction q as [|h q IH]; intros o Hq Hne Hl; [contradiction|]. destruct Hq as (_ & Hh & Hq). cbn in Hl. destruct q as [|h' q].
  - injection Hl as <-. exact Hh.
  - apply (IH (Some h)); [assumption|discriminate|assumption].
Qed.

Lemma validate_spec s f l1 e l2 q1 g q2 valid : s.(pm).(structs) = f -> s.(reassdatagrams) = l1 ++ e :: l2 ->
  e.(rd_p) = nxt (q1 ++ g :: q2) -> queue f s.(pm).(data) (q1 ++ g :: q2) -> ForallOrdPairs (hdr_apart f) (q1 ++ g :: q2) ->
  Z.of_nat (length q2) <= 65536 ->
  let ok := negb (e.(rd_flags) .& IP_REASS_FLAG_LASTFRAG =? 0) && valid && ((hd g q1).(f_start) =? 0) && contig (Some g) q2 in
  (ok = true -> (q1 <> [] \/ q2 <> []) /\ forall z, last_of (Some g) q2 = Some z -> z.(f_end) = e.(datagram_len)) ->
  validate NOASSERT (length l1) (ha f g) valid s = Ok (ok, s).
Proof.
  intros Hf Hl Hp Hq Hap Hlen ok Hfin. unfold validate. rewrite (bind_entry _ _ _ _ _ Hl). subst ok.
  destruct (negb (rd_flags e .& IP_REASS_FLAG_LASTFRAG =? 0)); [|reflexivity]. destruct valid; [|reflexivity]. cbn [andb] in *.
  assert (Hhead : exists r, q1 ++ g :: q2 = hd g q1 :: r) by (destruct q1; eexists; reflexivity). destruct Hhead as (r & Hhead).
  rewrite Hp, Hhead in *. cbn [nxt] in *. pose proof Hq as ((Hp0 & _) & Hh & _). unfold payload_of, helper.
  rewrite !bind_gets, Hf. fold (ha f (hd g q1)). rewrite Hh, (proj2 (Z.eqb_neq _ _) Hp0). cbn [h_start orb].
  destruct (f_start (hd g q1) =? 0); [|reflexivity]. cbn [negb andb] in *. rewrite bind_gets.
  rewrite <- Hhead in Hq, Hap. pose proof (proj1 (queue_split f (data (pm s)) q1 (g :: q2)) Hq) as [_ (Hgok & Hgh & Hq2)].
  rewrite Hgh. cbn [next_pbuf].
  destruct (check_rest_spec f q2 loop_fuel g s Hf Hq2) as (last & Er & Hlast); [now rewrite Hgh|unfold loop_fuel; lia|].
  rewrite (bind_ok _ _ _ _ _ Er). cbv iota beta. destruct (contig (Some g) q2) eqn:Ec; [|reflexivity].
  destruct (Hfin eq_refl) as [Htwo Hend]. specialize (Hlast eq_refl).
  destruct (last_of (Some g) q2) as [z|] eqn:Ez; [|discriminate]. injection Hlast as ->. specialize (Hend z eq_refl).
  assert (Hzh : read_helper (data (pm s)) (ha f z) = mkHelper 0 (f_start z) (f_end z)).
  { destruct q2 as [|h q2]; [injection Ez as <-; exact Hgh|]. apply (queue_last f _ (h :: q2) z (Some g)); [assumption|discriminate|assumption]. }
  assert (Hne : ha f (hd g q1) <> ha f z).
  { assert (Hin : forall l x y, ForallOrdPairs (hdr_apart f) (x :: l) -> In y l -> ha f x <> ha f y).
    { intros l x y Hf' Hy. inversion Hf' as [|? ? Hx _]; subst. rewrite Forall_forall in Hx. specialize (Hx y Hy).
      unfold hdr_apart, IP_HLEN in Hx. lia. }
    destruct q1 as [|x q1]; cbn [hd app] in *.
    - apply (Hin q2); [assumption|]. apply (last_of_In (Some g)); [assumption|]. now destruct Htwo.
    - apply (Hin (q1 ++ g :: q2)); [assumption|]. apply in_app_iff. right. destruct q2 as [|h q2]; [injection Ez as <-; now left|].
      right. apply (last_of_In (Some g)); [assumption|discriminate]. }
  erewrite bind_ok; [reflexivity|]. rewrite !reass_assert_ok by (reflexivity || (apply negb_true_iff, Z.eqb_neq; assumption) || (now rewrite (proj2 (Z.eqb_neq _ _) Hp0))).
  rewrite bind_gets, Hzh. cbn [next_pbuf h_end]. rewrite !reass_assert_ok by reflexivity. rewrite Hend, Z.eqb_refl.
  destruct s. unfold assert, pb, LWIP_ASSERT. now destruct NOASSERT.
Qed.

(** *** Inserting a fragment *)

(** The header of a fragment gives its place in the datagram. *)
Definition placed (hdr : list Z) (g : frag) : Prop :=
  u16 ((lwip_htons (IPH_OFFSET hdr) .& IP_OFFMASK) * 8) = g.(f_start) /\
  u16 (g.(f_start) + u16 (lwip_htons (IPH_LEN hdr) - IPH_HL hdr * 4)) = g.(f_end).

(** The bytes outside the helpers of [q] are the same. *)
Definition helpers_only (f : Z -> pbuf) (q : list frag) (d d' : Z -> Z) : Prop :=
  forall x, (forall h, In h q -> ~ ha f h <= x < ha f h + 8) -> d' x = d x.

(** The new helper is written, and linked to the fragments behind it. *)
Definition new_helper (f : Z -> pbuf) (g : frag) (q2 : list frag) (d : Z -> Z) : Z -> Z :=
  let d := store_list (ha f g) (put32 0) d in
  let d := store_list (ha f g + 4) (put16 g.(f_start)) d in
  let d := store_list (ha f g + 6) (put16 g.(f_end)) d in
  match q2 with [] => d | h :: _ => store_list (ha f g) (put32 (f_p h)) d end.

Lemma new_helper_read f g q2 d : is_u16 g.(f_start) -> is_u16 g.(f_end) -> is_u32 (nxt q2) ->
  read_helper (new_helper f g q2 d) (ha f g) = mkHelper (nxt q2) g.(f_start) g.(f_end).
Proof.
  intros Hs He Hn. unfold new_helper. destruct q2 as [|h q2]; [|rewrite read_set_next by exact Hn];
    rewrite read_set_end, read_set_start, read_set_next by (assumption || word_lia); reflexivity.
Qed.

Lemma new_helper_off f g q2 d x : ~ ha f g <= x < ha f g + 8 -> new_helper f g q2 d x = d x.
Proof. intros Hx. unfold new_helper. destruct q2; rewrite !store_other; cbn; lia || reflexivity. Qed.

Lemma relink_off f q1 v d x : (forall h, In h q1 -> ~ ha f h <= x < ha f h + 8) -> relink f q1 v d x = d x.
Proof.
  intros Hx. unfold relink. destruct (last_of None q1) as [p|] eqn:E; [|reflexivity]. apply store_other. cbn.
  assert (Hp : In p q1) by (apply (last_of_In None); [assumption|now destruct q1]). specialize (Hx p Hp). lia.
Qed.

Lemma queue_addr f d q g : queue f d q -> In g q -> addr_ok f g.
Proof. induction q as [|h q IH]; [contradiction|]. intros (Hok & _ & Hq) [<-|Hin]; [assumption|now apply IH]. Qed.

Lemma place_frag_spec s d f l1 e l2 q1 g q2 : s.(reassdatagrams) = l1 ++ e :: l2 -> e.(rd_p) = nxt (q1 ++ q2) ->
  queue f d (q1 ++ q2) -> Forall (fun h => before h g) q1 ->
  place_frag NOASSERT (length l1) (f_p g) g.(f_start) (prev_addr f (last_of None q1)) (nxt q2) (contig None q1) (with_data d s) =
  Ok (contig None q1 && match q2, last_of None q1 with [], Some p => p.(f_end) =? g.(f_start) | _, _ => true end,
      (with_data (relink f q1 (f_p g) d) s) <| reassdatagrams := l1 ++ (e <| rd_p := nxt (q1 ++ g :: q2) |>) :: l2 |>).
Proof.
  intros Hl Hp Hq H1. unfold place_frag, relink. destruct q1 as [|p q1 _] using rev_ind; cbn [last_of prev_addr app contig andb].
  - change (negb (0 =? 0)) with false. cbv iota.
    assert (Hset : set_entry (length l1) (fun e => e <| rd_p := f_p g |>) (with_data d s) =
      Ok (tt, (with_data d s) <| reassdatagrams := l1 ++ (e <| rd_p := nxt (g :: q2) |>) :: l2 |>)) by now apply set_entry_eq.
    destruct q2 as [|h q2]; cbn [nxt].
    + change (negb (0 =? 0)) with false. cbv iota. rewrite (bind_entry _ (with_data d s) _ _ _ Hl), Hp. cbn [app nxt].
      rewrite reass_assert_ok by reflexivity. now rewrite (bind_ok _ _ _ _ _ Hset).
    + destruct Hq as ((Hh0 & _) & _). rewrite (proj2 (Z.eqb_neq _ _) Hh0). cbn [negb]. now rewrite (bind_ok _ _ _ _ _ Hset).
  - rewrite last_of_app. cbn [prev_addr].
    assert (Hpa : ha f p <> 0 /\ h_end (read_helper d (ha f p)) = f_end p).
    { apply queue_split in Hq. destruct Hq as [Hs _]. apply qseg_snoc in Hs. destruct Hs as (_ & (_ & _ & H0) & Hh). split; [assumption|]. now rewrite Hh. }
    destruct Hpa as [Hp0 Hpe].
    assert (Hbp : before p g) by (apply Forall_app in H1; destruct H1 as [_ H1]; now apply Forall_inv in H1). destruct Hbp as [_ Hle].
    assert (He : e <| rd_p := nxt ((q1 ++ [p]) ++ g :: q2) |> = e).
    { replace (nxt ((q1 ++ [p]) ++ g :: q2)) with (rd_p e) by (rewrite Hp; now destruct q1). now destruct e. }
    rewrite He, <- Hl. assert (Hs : (with_data (store_list (ha f p) (put32 (f_p g)) d) s) <| reassdatagrams := reassdatagrams s |> =
      linked (ha f p) (f_p g) (with_data d s)) by now destruct s.
    rewrite Hs, (proj2 (Z.eqb_neq _ _) Hp0). cbn [negb]. destruct q2 as [|h q2]; cbn [nxt].
    + change (negb (0 =? 0)) with false. cbv iota. unfold helper. rewrite bind_gets, with_data_data, Hpe.
      rewrite reass_assert_ok by (apply Z.leb_le; lia). rewrite (bind_ok _ _ _ _ _ (set_next_pbuf_eq _ _ _)).
      unfold ret. destruct (f_end p =? f_start g); cbn [negb]; now rewrite ?andb_true_r, ?andb_false_r.
    + apply queue_app in Hq. destruct Hq as ((Hh0 & _) & _). rewrite (proj2 (Z.eqb_neq _ _) Hh0). cbn [negb].
      rewrite (bind_ok _ _ _ _ _ (set_next_pbuf_eq _ _ _)). now rewrite andb_true_r.
Qed.

Lemma chain_frag_spec s f l1 e l2 q1 g q2 : s.(pm).(structs) = f -> s.(reassdatagrams) = l1 ++ e :: l2 ->
  e.(rd_p) = nxt (q1 ++ q2) -> queue f s.(pm).(data) (q1 ++ q2) -> addr_ok f g ->
  ForallOrdPairs (hdr_apart f) (q1 ++ q2) -> Forall (hdr_apart f g) (q1 ++ q2) ->
  placed (load_list s.(pm).(data) (ha f g) IP_HLEN) g -> is_u16 g.(f_start) -> is_u16 g.(f_end) ->
  Forall (fun h => before h g) q1 -> match q2 with [] => True | h :: _ => before g h end ->
  Z.of_nat (length (q1 ++ q2)) < 65536 ->
  (completes e q1 g q2 = true -> (q1 <> [] \/ q2 <> []) /\ forall z, last_of (Some g) q2 = Some z -> z.(f_end) = e.(datagram_len)) ->
  exists d', ip_reass_chain_frag_into_datagram_and_validate NOASSERT custom_free_function (length l1) (f_p g) s =
      Ok (completes e q1 g q2, (with_data d' s) <| reassdatagrams := l1 ++ (e <| rd_p := nxt (q1 ++ g :: q2) |>) :: l2 |>) /\
    queue f d' (q1 ++ g :: q2) /\ helpers_only f (q1 ++ g :: q2) s.(pm).(data) d'.
Proof.
  intros Hf Hl Hp Hq Hg Hap Hga [Hps Hpe] Hus Hue H1 H2 Hlen Hfin.
  unfold ip_reass_chain_frag_into_datagram_and_validate, payload_of, load. rewrite !bind_gets, Hf. fold (ha f g).
  rewrite Hps, Hpe. unfold set_next_pbuf at 1, set_start, set_end, store. rewrite !bind_modify.
  set (d1 := new_helper f g [] (data (pm s))).
  match goal with |- exists d', bind (entry (length l1)) ?k ?st = _ /\ _ => change (bind (entry (length l1)) k st) with (bind (entry (length l1)) k (with_data d1 s)) end.
  rewrite (bind_entry _ (with_data d1 s) l1 e l2) by exact Hl. rewrite Hp.
  assert (Hoff : forall q2' h x, In h (q1 ++ q2) -> ha f h <= x < ha f h + 8 -> new_helper f g q2' (data (pm s)) x = data (pm s) x).
  { intros q2' h x Hin Hx. apply new_helper_off. rewrite Forall_forall in Hga. specialize (Hga h Hin). unfold hdr_apart, IP_HLEN in Hga. lia. }
  rewrite (bind_ok _ _ _ _ _ (scan_queue_spec f g q1 q2 loop_fuel None true (with_data d1 s) Hf
    (queue_ext f _ d1 _ (Hoff []) Hq) ltac:(discriminate)
    ltac:(apply Forall_app in Hga; apply Forall_and; [exact H1|apply Hga])
    H2 ltac:(rewrite length_app in Hlen; unfold loop_fuel; lia))). cbv iota beta. cbn [andb].
  set (d2 := new_helper f g q2 (data (pm s))).
  assert (Es2 : link_next (ha f g) q2 (with_data d1 s) = with_data d2 s) by (destruct q2; reflexivity). rewrite Es2. clear Es2.
  assert (Hu : is_u32 (nxt q2)).
  { destruct q2 as [|h q2]; [cbn; word_lia|]. apply (queue_addr f _ _ h) in Hq; [apply Hq|]. apply in_app_iff. right. now left. }
  assert (Hq2 : queue f d2 (q1 ++ q2)) by (apply (queue_ext f (data (pm s))); [apply Hoff|assumption]).
  assert (Hgh : read_helper d2 (ha f g) = mkHelper (nxt q2) (f_start g) (f_end g)) by now apply new_helper_read.
  set (d3 := relink f q1 (f_p g) d2).
  assert (Hq3 : queue f d3 (q1 ++ g :: q2)) by now apply relink_queue.
  assert (Hap3 : ForallOrdPairs (hdr_apart f) (q1 ++ g :: q2)).
  { apply (ForallOrdPairs_perm _ (g :: q1 ++ q2)); [unfold hdr_apart; tauto|apply Permutation_middle|now constructor]. }
  set (s3 := (with_data d3 s) <| reassdatagrams := l1 ++ (e <| rd_p := nxt (q1 ++ g :: q2) |>) :: l2 |>).
  set (valid := contig None q1 && match q2, last_of None q1 with [], Some p => f_end p =? f_start g | _, _ => true end).
  exists d3. split; [|split; [assumption|]].
  2:{ intros x Hx. unfold d3. rewrite relink_off by (intros h Hin; apply Hx, in_app_iff; now left).
      apply new_helper_off, Hx, in_app_iff. right. now left. }
  rewrite (bind_ok _ _ _ _ _ (place_frag_spec s d2 f l1 e l2 q1 g q2 Hl Hp Hq2 H1)).
  fold d3. fold s3. fold valid.
  assert (Hv := fun H => validate_spec s3 f l1 (e <| rd_p := nxt (q1 ++ g :: q2) |>) l2 q1 g q2 valid Hf eq_refl eq_refl Hq3 Hap3 H Hfin).
  apply Hv. rewrite length_app in Hlen. lia.
Qed.

(** ** A fragment arrives *)

(** The state up to the statistics. *)
Record same_state (s : rst) (m : pst) (l : list ip_reassdata) (n : Z) (a : nat) : Prop := {
  st_pm : s.(pm) = m; st_rds : s.(reassdatagrams) = l; st_count : s.(ip_reass_pbufcount) = n; st_avail : s.(reass_avail) = a }.

(** The struct of the datagram the fragment belongs to, once it is found. *)
Definition refreshed (hdr : list Z) (e : ip_reassdata) : ip_reassdata :=
  if (lwip_htons (IPH_OFFSET hdr) .& IP_OFFMASK =? 0) && negb (lwip_htons (IPH_OFFSET e.(iphdr)) .& IP_OFFMASK =? 0)
  then e <| iphdr := hdr |> else e.

(** ... and with the length, if the fragment is the last one. *)
Definition flagged (hdr : list Z) (e : ip_reassdata) : ip_reassdata :=
  if IPH_OFFSET hdr .& PP_HTONS IP_MF =? 0
  then e <| rd_flags := e.(rd_flags) .| IP_REASS_FLAG_LASTFRAG |>
         <| datagram_len := u16 (u16 ((lwip_htons (IPH_OFFSET hdr) .& IP_OFFMASK) * 8) + u16 (lwip_htons (IPH_LEN hdr) - IPH_HL hdr * 4)) |>
  else e.

(** [ip4_reass] until the fragment is inserted: [found] is the struct at the
    head of the list, [None] when the datagram is new. *)
Lemma reass_front s p l found L : let hdr := load_list s.(pm).(data) (s.(pm).(structs) p).(payload) IP_HLEN in
  IPH_HL hdr * 4 = IP_HLEN -> chain s.(pm).(structs) p l ->
  0 <= s.(ip_reass_pbufcount) -> s.(ip_reass_pbufcount) + Z.of_nat (length l) <= IP_REASS_MAX_PBUFS ->
  match found with
  | None => s.(reassdatagrams) = L /\ Forall (fun e => IP_ADDRESSES_AND_ID_MATCH e.(iphdr) hdr = false) L /\ (0 < s.(reass_avail))%nat
  | Some e => s.(reassdatagrams) = e :: L /\ IP_ADDRESSES_AND_ID_MATCH e.(iphdr) hdr = true
  end ->
  exists s1, ip4_reass NOASSERT custom_free_function icmp_time_exceeded p s =
    (do complete <- ip_reass_chain_frag_into_datagram_and_validate NOASSERT custom_free_function 0 p;
     if complete : bool then complete_datagram NOASSERT 0 else ret 0) s1 /\
    same_state s1 s.(pm)
      (flagged hdr (match found with None => mkRd 0 hdr 0 0 IP_REASS_MAXAGE | Some e => refreshed hdr e end) :: L)
      (s.(ip_reass_pbufcount) + Z.of_nat (length l))
      (match found with None => pred s.(reass_avail) | Some _ => s.(reass_avail) end).
Proof.
  intros hdr Hhl Hc Hn Hroom Hfound. unfold IP_REASS_MAX_PBUFS in *. unfold ip4_reass, stat, payload_of, load. rewrite bind_modify, !bind_gets.
  set (s0 := s <| stats := _ |>). change (pm s0) with (pm s). fold hdr. rewrite Hhl, Z.eqb_refl. cbn [negb].
  unfold clen, pbuf_clen.
  rewrite (reass_pb _ _ s0 _ (pm s) (clen_loop_spec (pm s) l loop_fuel p 0 Hc ltac:(lia) ltac:(lia) ltac:(unfold loop_fuel; lia))).
  replace (s0 <| pm := pm s |>) with s0 by (subst s0; now destruct s). rewrite bind_gets, Z.add_0_l.
  change (ip_reass_pbufcount s0) with (ip_reass_pbufcount s). unfold IP_REASS_MAX_PBUFS.
  rewrite Z.gtb_ltb, (proj2 (Z.ltb_ge _ _)) by lia. rewrite bind_ret. cbn [negb].
  assert (Hfe : exists s1, find_or_enqueue NOASSERT custom_free_function icmp_time_exceeded hdr (Z.of_nat (length l)) s0 = Ok (Some O, s1) /\
    same_state s1 (pm s) ((match found with None => mkRd 0 hdr 0 0 IP_REASS_MAXAGE | Some e => refreshed hdr e end) :: L)
      (ip_reass_pbufcount s) (match found with None => pred (reass_avail s) | Some _ => reass_avail s end)).
  { unfold find_or_enqueue. rewrite bind_gets. change (reassdatagrams s0) with (reassdatagrams s). destruct found as [e|].
    - destruct Hfound as [Hl Hm]. rewrite Hl. cbn [find_datagram]. rewrite Hm. unfold stat. rewrite bind_modify.
      erewrite bind_ok; [|apply (set_entry_eq _ _ [] e L); exact Hl]. eexists. split; [reflexivity|]. now constructor.
    - destruct Hfound as (Hl & Hno & Hav).
      assert (Hfd : forall l i, Forall (fun e => IP_ADDRESSES_AND_ID_MATCH (iphdr e) hdr = false) l -> find_datagram hdr l i = None).
      { induction l0 as [|e l0 IH]; intros i Hf; cbn [find_datagram]; [reflexivity|]. apply Forall_cons_iff in Hf. destruct Hf as [-> Hf]. now apply IH. }
      rewrite Hl, (Hfd L 0%nat Hno). unfold ip_reass_enqueue_new_datagram.
      destruct (reass_avail s) as [|a] eqn:Ea; [lia|].
      erewrite bind_ok; [|erewrite bind_ok; [|unfold reass_malloc; change (reass_avail s0) with (reass_avail s); rewrite Ea; reflexivity]; reflexivity].
      eexists. split; [reflexivity|]. constructor; try reflexivity. cbn. now rewrite Hl. }
  destruct Hfe as (s1 & E1 & [Hm1 Hl1 Hn1 Ha1]). rewrite (bind_ok _ _ _ _ _ E1). unfold set_pbufcount. rewrite bind_modify.
  set (e0 := match found with None => _ | Some e => refreshed hdr e end) in *.
  rewrite Hn1, (u16_id (ip_reass_pbufcount s + _)) by word_lia. unfold flagged. destruct (IPH_OFFSET hdr .& PP_HTONS IP_MF =? 0).
  - erewrite bind_ok; [|apply (set_entry_eq _ _ [] e0 L); exact Hl1]. eexists. split; [reflexivity|].
    constructor; cbn; congruence || reflexivity.
  - rewrite bind_ret. eexists. split; [reflexivity|]. constructor; cbn; congruence.
Qed.

(** ** The bytes of the fragments *)

(** A fragment in memory: a packet whose first pbuf holds the IP header. *)
Record intact (f : Z -> pbuf) (g : frag) : Prop := {
  it_chain : chain f (f_p g) g.(f_l);
  it_ne : g.(f_l) <> [];
  it_lengths : lengths f 0 g.(f_l);
  it_hdr : IP_HLEN <= (f (f_p g)).(len);
  it_room : f_p g + SIZEOF_STRUCT_PBUF <= ha f g + IP_HLEN;
  it_addr : addr_ok f g;
  it_nodup : NoDup g.(f_l);
  it_apart : payloads_apart f g.(f_l);
  it_total : total f g.(f_l) = IP_HLEN + (g.(f_end) - g.(f_start)) }.

(** The bytes behind the header. *)
Definition body (f : Z -> pbuf) (d : Z -> Z) (g : frag) : list Z :=
  load_list d (ha f g + IP_HLEN) ((f (f_p g)).(len) - IP_HLEN) ++ content f d (tl g.(f_l)).

Lemma f_l_cons g : g.(f_l) <> [] -> g.(f_l) = f_p g :: tl g.(f_l).
Proof. unfold f_p. now destruct (f_l g). Qed.

Lemma load_list_split d p n k : 0 <= k <= n -> load_list d p n = load_list d p k ++ load_list d (p + k) (n - k).
Proof.
  intros Hk. apply nth_error_ext. intros i. rewrite nth_load. destruct (Nat.ltb_spec i (Z.to_nat k)) as [Hi|Hi].
  - rewrite nth_error_app1, nth_load by (now rewrite load_list_length). rewrite !(proj2 (Nat.ltb_lt _ _)) by lia. reflexivity.
  - rewrite nth_error_app2, nth_load, load_list_length by (now rewrite load_list_length).
    destruct (Nat.ltb_spec i (Z.to_nat n)), (Nat.ltb_spec (i - Z.to_nat k) (Z.to_nat (n - k))); try lia; [|reflexivity].
    do 2 f_equal. lia.
Qed.

Lemma content_body f d g : intact f g -> content f d g.(f_l) = load_list d (ha f g) IP_HLEN ++ body f d g.
Proof.
  intros [Hc Hne _ Hh _ _ _ _]. unfold content, body. rewrite (f_l_cons g Hne) at 1. cbn [map concat].
  rewrite (load_list_split d _ _ IP_HLEN), <- app_assoc by (unfold IP_HLEN in *; lia). reflexivity.
Qed.

(** No byte belongs to the payloads of two fragments. *)
Definition frag_apart (f : Z -> pbuf) (g h : frag) : Prop :=
  forall a b x, In a g.(f_l) -> In b h.(f_l) -> in_payload f a x -> in_payload f b x -> False.

Lemma header_payload f g x : intact f g -> ha f g <= x < ha f g + IP_HLEN -> In (f_p g) g.(f_l) /\ in_payload f (f_p g) x.
Proof.
  intros [_ Hne _ Hh _ _ _ _ _] Hx. split; [rewrite (f_l_cons g Hne); now left|].
  unfold in_payload. fold (ha f g). lia.
Qed.

Lemma frag_hdr_apart f g h : intact f g -> intact f h -> frag_apart f g h -> hdr_apart f g h.
Proof.
  intros Hg Hh Hap. unfold hdr_apart. destruct (Z_le_dec (ha f g + IP_HLEN) (ha f h)); [now left|].
  destruct (Z_le_dec (ha f h + IP_HLEN) (ha f g)); [now right|]. exfalso. unfold IP_HLEN in *.
  set (x := Z.max (ha f g) (ha f h)).
  destruct (header_payload f g x Hg) as [H1 H2]; [unfold x, IP_HLEN; lia|].
  destruct (header_payload f h x Hh) as [H3 H4]; [unfold x, IP_HLEN; lia|]. exact (Hap _ _ _ H1 H3 H2 H4).
Qed.

Lemma body_ext f d d' g : intact f g ->
  (forall a x, In a g.(f_l) -> in_payload f a x -> ~ ha f g <= x < ha f g + IP_HLEN -> d' x = d x) -> body f d' g = body f d g.
Proof.
  intros [_ Hne _ Hh _ _ _ Hap _] He. unfold body. f_equal.
  - apply load_ext. intros x Hx. apply (He (f_p g)); [rewrite (f_l_cons g Hne); now left| |lia]. unfold in_payload. fold (ha f g).
    unfold IP_HLEN in *. lia.
  - apply content_ext. intros a x Ha Hx. apply (He a); [rewrite (f_l_cons g Hne); now right|assumption|].
    intros Hin. rewrite (f_l_cons g Hne) in Hap. inversion Hap as [|? ? Hall _]; subst. rewrite Forall_forall in Hall.
    apply (Hall a Ha x); [|assumption]. unfold in_payload. fold (ha f g). lia.
Qed.

(** Writing helpers of [q] leaves the bodies of all fragments, and the headers
    of the others. *)
Lemma helpers_body f q d d' g : helpers_only f q d d' -> intact f g -> Forall (intact f) q ->
  (forall h, In h q -> h = g \/ frag_apart f g h) -> body f d' g = body f d g.
Proof.
  intros Ho Hg Hq Hap. apply body_ext; [assumption|]. intros a x Ha Hx Hout. apply Ho. intros h Hh Hin.
  rewrite Forall_forall in Hq. destruct (Hap h Hh) as [->|Hah]; [unfold IP_HLEN in Hout; lia|].
  destruct (header_payload f h x (Hq h Hh)) as [H1 H2]; [unfold IP_HLEN; lia|]. exact (Hah _ _ _ Ha H1 Hx H2).
Qed.

Lemma helpers_header f q d d' g : helpers_only f q d d' -> intact f g -> Forall (intact f) q ->
  (forall h, In h q -> frag_apart f g h) -> load_list d' (ha f g) IP_HLEN = load_list d (ha f g) IP_HLEN.
Proof.
  intros Ho Hg Hq Hap. apply load_ext. intros x Hx. apply Ho. intros h Hh Hin. rewrite Forall_forall in Hq.
  pose proof (frag_hdr_apart f g h Hg (Hq h Hh) (Hap h Hh)) as Hha. unfold hdr_apart, IP_HLEN in *. lia.
Qed.

(** Structs that changed elsewhere. *)
Lemma intact_ext f f' g : (forall a, In a g.(f_l) -> f' a = f a) -> intact f g -> intact f' g /\ ha f' g = ha f g /\
  forall d, body f' d g = body f d g.
Proof.
  intros He Hi. pose proof Hi as [Hc Hne Hl Hh Hr Ha Hnd Hap Ht].
  assert (Hp : f' (f_p g) = f (f_p g)) by (apply He; rewrite (f_l_cons g Hne); now left).
  assert (Hha : ha f' g = ha f g) by (unfold ha; now rewrite Hp). split; [|split; [assumption|]].
  - constructor; try assumption; rewrite ?Hha, ?Hp; try assumption.
    + apply (chain_ext f); [|assumption]. intros a Hin. now rewrite He.
    + apply (lengths_ext f); [|assumption]. intros a Hin. now rewrite He.
    + unfold addr_ok in *. now rewrite Hha.
    + clear - He Hap. induction Hap as [|a l Ha _ IH]; constructor.
      * rewrite Forall_forall in *. intros b Hb x. unfold in_payload. rewrite (He a (or_introl eq_refl)), (He b (or_intror Hb)). now apply Ha.
      * apply IH. intros a' Hin. apply He. now right.
    + rewrite <- Ht. apply total_ext. intros a Hin. now rewrite He.
  - intros d. unfold body. rewrite Hha, Hp. f_equal. unfold content. f_equal. apply map_ext_in. intros a Ha'.
    rewrite He; [reflexivity|]. rewrite (f_l_cons g Hne). now right.
Qed.

(** ** Chaining the fragments *)

(** A fragment whose header is hidden. *)
Lemma hide_header m g : intact m.(structs) g -> total m.(structs) g.(f_l) < 65536 ->
  exists m', pbuf_header NOASSERT (f_p g) (- IP_HLEN) m = Ok (0, m') /\ m'.(mm) = m.(mm) /\ m'.(data) = m.(data) /\
    chain m'.(structs) (f_p g) g.(f_l) /\ lengths m'.(structs) 0 g.(f_l) /\ total m'.(structs) g.(f_l) = g.(f_end) - g.(f_start) /\
    content m'.(structs) m.(data) g.(f_l) = body m.(structs) m.(data) g /\
    forall a, a <> f_p g -> m'.(structs) a = m.(structs) a.
Proof.
  intros Hi Hlt. pose proof Hi as [Hc Hne Hl Hh Hr (Hp0 & _) Hnd _ Ht]. pose proof (f_l_cons g Hne) as El.
  set (p := f_p g) in *. set (r := tl (f_l g)) in *. rewrite El in Hc, Hl, Hnd, Ht, Hlt. cbn [lengths total chain] in *.
  destruct Hl as (Hl0 & Htot & Hl). destruct Hc as (_ & _ & Hc). apply NoDup_cons_iff in Hnd. destruct Hnd as [Hni _].
  assert (Hr0 : 0 <= total (structs m) r).
  { destruct r as [|b r']; [cbn; lia|]. destruct (lengths_le _ _ Hl b (or_introl eq_refl)). lia. }
  destruct (pbuf_header_hide NOASSERT m p IP_HLEN) as (m' & E & Hm & Hd & Hs & Ho);
    [assumption|unfold IP_HLEN in *; lia|unfold IP_HLEN in *; lia|unfold IP_HLEN in *; lia|exact Hr|].
  assert (Hor : forall a, In a r -> structs m' a = structs m a) by (intros a Ha; apply Ho; intros ->; contradiction).
  assert (Htr : total (structs m') r = total (structs m) r) by (apply total_ext; intros a Ha; now rewrite Hor).
  exists m'. rewrite El. split; [exact E|]. split; [assumption|]. split; [assumption|].
  cbn [chain lengths total]. rewrite Hs. cbn [next len tot_len with_field]. rewrite Htr. repeat split; try assumption; try lia.
  - apply (chain_ext (structs m)); [|assumption]. intros a Ha. now rewrite Hor.
  - apply (lengths_ext (structs m)); [|assumption]. intros a Ha. now rewrite Hor.
  - unfold content, body. cbn [map concat]. rewrite Hs. cbn [payload len with_field]. f_equal. unfold content. f_equal.
    apply map_ext_in. intros a Ha. now rewrite Hor.
Qed.

Lemma queue_structs f f' d q : (forall g, In g q -> ha f' g = ha f g) -> queue f d q -> queue f' d q.
Proof.
  induction q as [|g q IH]; intros He; cbn [queue]; [trivial|]. intros (Hok & Hh & Hq). unfold addr_ok in *.
  rewrite !(He g (or_introl eq_refl)). split; [assumption|]. split; [assumption|]. apply IH; [|assumption]. intros h Hin. apply He. now right.
Qed.

Definition pbufs (q : list frag) : list Z := concat (map f_l q).

(** One fragment is chained to the packet [L]. *)
Lemma chain_one m g p L : let f := m.(structs) in
  chain f p L -> L <> [] -> lengths f 0 L -> intact f g -> NoDup (L ++ g.(f_l)) -> g.(f_start) <= g.(f_end) ->
  IP_HLEN <= total f L -> total f L + (g.(f_end) - g.(f_start)) < 65536 -> Z.of_nat (length L) <= 65536 ->
  exists m1 m2, pbuf_header NOASSERT (f_p g) (- IP_HLEN) m = Ok (0, m1) /\ pbuf_cat NOASSERT loop_fuel p (f_p g) m1 = Ok (tt, m2) /\
    m2.(data) = m.(data) /\ m2.(mm) = m.(mm) /\ chain m2.(structs) p (L ++ g.(f_l)) /\ lengths m2.(structs) 0 (L ++ g.(f_l)) /\
    total m2.(structs) (L ++ g.(f_l)) = total f L + (g.(f_end) - g.(f_start)) /\
    content m2.(structs) m.(data) (L ++ g.(f_l)) = content f m.(data) L ++ body f m.(data) g /\
    forall a, ~ In a (L ++ g.(f_l)) -> m2.(structs) a = f a.
Proof.
  intros f Hc HL Hl Hg Hnd Hgp HtL Hsum Hlen.
  destruct (hide_header m g Hg) as (m1 & E1 & Hm1 & Hd1 & Hc1 & Hl1 & Ht1 & Hb1 & Ho1).
  { fold f. rewrite (it_total _ _ Hg). lia. }
  pose proof (f_l_cons g (it_ne _ _ Hg)) as El.
  assert (HoL : forall a, In a L -> structs m1 a = f a).
  { intros a Ha. apply Ho1. intros ->. apply (NoDup_app_disjoint _ _ (f_p g) Hnd Ha). rewrite El. now left. }
  assert (HtL1 : total (structs m1) L = total f L) by (apply total_ext; intros a Ha; now rewrite HoL).
  destruct (exists_last HL) as (L0 & b & ->).
  destruct (pbuf_cat_spec NOASSERT custom_free_function (fun _ => true) m1 p L0 b (f_p g) (f_l g) loop_fuel)
    as (m2 & E2 & Hm2 & Hd2 & Hc2 & Hl2 & Hs2 & Ho2).
  - apply (chain_ext f); [|assumption]. intros a Ha. now rewrite HoL.
  - apply (lengths_ext f); [|assumption]. intros a Ha. now rewrite HoL.
  - now apply NoDup_app_remove_r in Hnd.
  - intros a Ha Hin. exact (NoDup_app_disjoint _ _ a Hnd Hin Ha).
  - exact Hc1.
  - apply Hg.
  - exact Hl1.
  - rewrite HtL1, Ht1. lia.
  - rewrite length_app in Hlen. cbn [length] in Hlen. unfold loop_fuel. lia.
  - assert (Hfields : forall a, (structs m2 a).(payload) = (structs m1 a).(payload) /\ (structs m2 a).(len) = (structs m1 a).(len))
      by (intros a; now rewrite Hs2).
    exists m1, m2. split; [exact E1|]. split; [exact E2|]. split; [congruence|]. split; [congruence|]. split; [assumption|]. split; [assumption|].
    split; [|split].
    + rewrite total_app, !(total_ext (structs m1) (structs m2)) by (intros a _; apply Hfields). now rewrite HtL1, Ht1.
    + fold f in Hb1. rewrite <- Hb1. unfold content. rewrite map_app, concat_app. f_equal; f_equal; apply map_ext_in; intros a Ha;
        destruct (Hfields a) as [-> ->]; (reflexivity || now rewrite HoL by assumption).
    + intros a Ha. rewrite in_app_iff in Ha. rewrite Ho2 by tauto. apply Ho1. intros ->. apply Ha. right. rewrite El. now left.
Qed.

Lemma pbufs_In q g a : In g q -> In a g.(f_l) -> In a (pbufs q).
Proof. intros Hg Ha. unfold pbufs. apply in_concat. exists (f_l g). split; [now apply in_map|assumption]. Qed.

Definition sizes (q : list frag) : Z := fold_right (fun g n => g.(f_end) - g.(f_start) + n) 0 q.

Lemma sizes_nonneg q : Forall (fun g => g.(f_start) <= g.(f_end)) q -> 0 <= sizes q.
Proof. unfold sizes. induction 1; cbn [fold_right]; lia. Qed.

Lemma chain_fragments_spec r : forall fuel s p L, let f := s.(pm).(structs) in let d := s.(pm).(data) in
  chain f p L -> L <> [] -> lengths f 0 L -> Forall (intact f) r -> queue f d r -> NoDup (L ++ pbufs r) ->
  IP_HLEN <= total f L -> total f L + sizes r < 65536 -> Forall (fun g => g.(f_start) <= g.(f_end)) r ->
  Z.of_nat (length (L ++ pbufs r)) <= 65536 -> (length r < fuel)%nat ->
  exists m', chain_fragments NOASSERT fuel p (nxt r) s = Ok (tt, s <| pm := m' |>) /\ m'.(data) = d /\ m'.(mm) = s.(pm).(mm) /\
    chain m'.(structs) p (L ++ pbufs r) /\ lengths m'.(structs) 0 (L ++ pbufs r) /\
    content m'.(structs) d (L ++ pbufs r) = content f d L ++ concat (map (body f d) r) /\
    forall a, ~ In a (L ++ pbufs r) -> m'.(structs) a = f a.
Proof.
  induction r as [|g r IH]; intros fuel s p L f d Hc HL Hl Hi Hq Hnd HtL Hsum Hpos Hlen Hfu; (destruct fuel as [|fuel]; [lia|]); cbn [chain_fragments nxt].
  - exists (pm s). unfold pbufs in *. cbn [map concat] in *. rewrite !app_nil_r in *. split; [now destruct s|]. now repeat split.
  - destruct Hq as (Hok & Hh & Hq). apply Forall_cons_iff in Hi, Hpos. destruct Hi as [Hg Hi], Hpos as [Hgp Hpos]. cbn [sizes fold_right] in Hsum.
    fold (sizes r) in Hsum. pose proof (sizes_nonneg r Hpos).
    unfold pbufs in Hnd, Hlen |- *. cbn [map concat] in Hnd, Hlen |- *. fold (pbufs r) in Hnd, Hlen |- *. rewrite app_assoc in *.
    destruct (chain_one (pm s) g p L Hc HL Hl Hg (NoDup_app_remove_r _ _ Hnd) Hgp) as (m1 & m2 & E1 & E2 & Hd & Hm & Hc2 & Hl2 & Ht2 & Hb2 & Ho2);
      [fold f; lia|fold f; lia|rewrite !length_app in Hlen; lia|].
    rewrite (proj2 (Z.eqb_neq _ _) (proj1 Hok)). unfold payload_of. rewrite bind_gets. fold f. fold (ha f g).
    rewrite (reass_pb _ _ _ _ _ E1). set (s1 := s <| pm := m1 |>). rewrite (reass_pb (pbuf_cat NOASSERT loop_fuel p (f_p g)) _ s1 tt m2 E2).
    replace (s1 <| pm := m2 |>) with (s <| pm := m2 |>) by (unfold s1; now destruct s). clear s1 E1 E2.
    unfold helper. rewrite bind_gets. cbn [pm with_field]. rewrite Hd. fold d in Hh |- *. rewrite Hh. cbn [next_pbuf].
    assert (Hrest : forall h a, In h r -> In a (f_l h) -> structs m2 a = f a).
    { intros h a Hin Ha. apply Ho2. intros Hin'. exact (NoDup_app_disjoint _ _ a Hnd Hin' (pbufs_In r h a Hin Ha)). }
    rewrite Forall_forall in Hi.
    assert (Hext : forall h, In h r -> intact (structs m2) h /\ ha (structs m2) h = ha f h /\ forall d, body (structs m2) d h = body f d h)
      by (intros h Hin; apply (intact_ext f); [intros a; now apply Hrest|now apply Hi]).
    destruct (IH fuel (s <| pm := m2 |>) p (L ++ f_l g)) as (m3 & E3 & Hd3 & Hm3 & Hc3 & Hl3 & Hcon & Ho3); cbn [pm with_field];
      [assumption|now destruct L|assumption|apply Forall_forall; intros h Hin; now apply Hext| |assumption|rewrite Ht2; fold f; lia|rewrite Ht2; fold f; lia|assumption|assumption|cbn in Hfu; lia|].
    + rewrite Hd. apply (queue_structs f); [|assumption]. intros h Hin. now apply Hext.
    + cbn [pm with_field] in *. rewrite Hd in *. fold d in Hcon, Hb2, Hd3 |- *. exists m3.
      split; [rewrite E3; now destruct s|]. split; [assumption|]. split; [congruence|]. split; [assumption|]. split; [assumption|]. split.
      * rewrite Hcon, Hb2, app_assoc. f_equal. f_equal. apply map_ext_in. intros h Hin. now apply Hext.
      * intros a Ha. rewrite Ho3 by assumption. apply Ho2. intros Hin. apply Ha, in_app_iff. now left.
Qed.

(** ** The datagram *)

(** The header of the whole datagram: the first fragment's with the length,
    no offset and a new checksum. *)
Definition whole_header (a : Z) (h : list Z) (n : Z) : list Z :=
  let pre := firstn 2 h ++ put16 (lwip_htons n) ++ firstn 2 (skipn 4 h) ++ [0; 0] ++ firstn 2 (skipn 8 h) in
  let post := skipn 12 h in
  pre ++ put16 (inet_chksum a (pre ++ [0; 0] ++ post)) ++ post.

Definition splice (i : nat) (l x : list Z) : list Z := firstn i x ++ l ++ skipn (i + length l) x.

Lemma load_splice d a n i l : (i + length l <= n)%nat ->
  load_list (store_list (a + Z.of_nat i) l d) a (Z.of_nat n) = splice i l (load_list d a (Z.of_nat n)).
Proof.
  intros Hn. apply nth_error_ext. intros j. unfold splice. rewrite nth_load, Nat2Z.id.
  assert (Hlen : length (firstn i (load_list d a (Z.of_nat n))) = i) by (rewrite firstn_length_le; [reflexivity|rewrite load_list_length, Nat2Z.id; lia]).
  destruct (Nat.lt_ge_cases j i).
  - rewrite nth_error_app1, nth_error_firstn, nth_load, Nat2Z.id by lia. rewrite !(proj2 (Nat.ltb_lt _ _)) by lia.
    f_equal. apply store_other. lia.
  - rewrite nth_error_app2, Hlen by lia. destruct (Nat.lt_ge_cases (j - i) (length l)).
    + rewrite nth_error_app1 by assumption. rewrite (proj2 (Nat.ltb_lt _ _)) by lia.
      rewrite (store_at _ _ _ (j - i)) by lia. symmetry. now apply nth_error_nth'.
    + rewrite nth_error_app2, nth_error_skipn, nth_load, Nat2Z.id by assumption.
      replace (i + length l + (j - i - length l))%nat with j by lia. destruct (j <? n)%nat; [|reflexivity].
      f_equal. apply store_other. lia.
Qed.

(** The stores of [complete_datagram] into the header at [a]. *)
Definition write_header (a : Z) (h : list Z) (n : Z) (d : Z -> Z) : Z -> Z :=
  let d := store_list a h d in
  let d := store_list (a + 2) (put16 (lwip_htons n)) d in
  let d := store_list (a + 6) (put16 0) d in
  let d := store_list (a + 10) (put16 0) d in
  store_list (a + 10) (put16 (inet_chksum a (load_list d a IP_HLEN))) d.

Lemma write_header_off a h n d x : length h = 20%nat -> ~ a <= x < a + IP_HLEN -> write_header a h n d x = d x.
Proof. intros Hh Hx. unfold write_header, IP_HLEN in *. rewrite !store_other; rewrite ?Hh; cbn; lia || reflexivity. Qed.

Lemma list_20 (h : list Z) : length h = 20%nat -> exists b0 b1 b2 b3 b4 b5 b6 b7 b8 b9 b10 b11 b12 b13 b14 b15 b16 b17 b18 b19,
  h = [b0; b1; b2; b3; b4; b5; b6; b7; b8; b9; b10; b11; b12; b13; b14; b15; b16; b17; b18; b19].
Proof.
  intros Hh. do 20 (destruct h as [|? h]; [discriminate|]). destruct h; [|discriminate]. repeat eexists.
Qed.

Lemma write_header_load a h n d : length h = 20%nat -> load_list (write_header a h n d) a IP_HLEN = whole_header a h n.
Proof.
  intros Hh. unfold write_header. change IP_HLEN with (Z.of_nat 20). set (c := inet_chksum _ _).
  rewrite (load_splice _ a 20 10), (load_splice _ a 20 10), (load_splice _ a 20 6), (load_splice _ a 20 2) by (cbn; lia).
  assert (H0 : load_list (store_list a h d) a (Z.of_nat 20) = h).
  { rewrite <- (Z.add_0_r a) at 1. rewrite (load_splice _ a 20 0) by lia. unfold splice.
    rewrite skipn_all2 by (rewrite load_list_length; cbn; lia). cbn [firstn app]. apply app_nil_r. }
  assert (Hc : c = inet_chksum a (splice 10 (put16 0) (splice 6 (put16 0) (splice 2 (put16 (lwip_htons n)) h)))).
  { unfold c. f_equal. rewrite (load_splice _ a 20 10), (load_splice _ a 20 6), (load_splice _ a 20 2), H0 by (cbn; lia). reflexivity. }
  rewrite H0, Hc. clear H0 Hc c. destruct (list_20 h Hh) as (b0 & b1 & b2 & b3 & b4 & b5 & b6 & b7 & b8 & b9 & b10 & b11 & b12 & b13 & b14 & b15 & b16 & b17 & b18 & b19 & ->).
  reflexivity.
Qed.

(** The fragments of [q] as they are in memory when the datagram is complete. *)
Record assembled (f : Z -> pbuf) (d : Z -> Z) (q : list frag) : Prop := {
  as_intact : Forall (intact f) q;
  as_queue : queue f d q;
  as_nodup : NoDup (pbufs q);
  as_apart : ForallOrdPairs (frag_apart f) q;
  as_size : IP_HLEN + sizes q < 65536;
  as_pos : Forall (fun g => g.(f_start) <= g.(f_end)) q;
  as_count : Z.of_nat (length (pbufs q)) <= 65535;
  as_len : Z.of_nat (length q) <= 65536 }.

Lemma frag_apart_sym f g h : frag_apart f g h -> frag_apart f h g.
Proof. intros H a b x Ha Hb Hx Hy. exact (H b a x Hb Ha Hy Hx). Qed.

(** Writing the header of [g] leaves the other fragments of the queue. *)
Lemma header_leaves f d d1 g r : intact f g -> Forall (intact f) r -> Forall (frag_apart f g) r ->
  (forall x, ~ ha f g <= x < ha f g + IP_HLEN -> d1 x = d x) -> queue f d r ->
  queue f d1 r /\ forall h, In h r -> body f d1 h = body f d h.
Proof.
  intros Hg Hi Hap Hoff Hq. rewrite Forall_forall in Hi, Hap. split.
  - apply (queue_ext f d); [|assumption]. intros h x Hh Hx. apply Hoff. intros Hx'.
    pose proof (frag_hdr_apart f g h Hg (Hi h Hh) (Hap h Hh)) as H. unfold hdr_apart, IP_HLEN in *. lia.
  - intros h Hh. apply body_ext; [now apply Hi|]. intros a x Ha Hx _. apply Hoff. intros Hx'.
    destruct (header_payload f g x Hg Hx') as [H1 H2]. exact (Hap h Hh _ _ _ H1 Ha H2 Hx).
Qed.

Lemma complete_datagram_spec s e L g r : let f := s.(pm).(structs) in let d := s.(pm).(data) in let q := g :: r in
  s.(reassdatagrams) = e :: L -> e.(rd_p) = f_p g -> length e.(iphdr) = 20%nat -> assembled f d q ->
  Z.of_nat (length (pbufs q)) <= s.(ip_reass_pbufcount) < 65536 ->
  exists m', complete_datagram NOASSERT 0 s = Ok (f_p g,
      s <| pm := m' |> <| reassdatagrams := L |> <| reass_avail := S s.(reass_avail) |>
        <| ip_reass_pbufcount := s.(ip_reass_pbufcount) - Z.of_nat (length (pbufs q)) |>) /\
    chain m'.(structs) (f_p g) (pbufs q) /\ lengths m'.(structs) 0 (pbufs q) /\ m'.(mm) = s.(pm).(mm) /\
    content m'.(structs) m'.(data) (pbufs q) =
      whole_header (ha f g) e.(iphdr) (u16 (e.(datagram_len) + IP_HLEN)) ++ concat (map (body f d) q) /\
    (forall a, ~ In a (pbufs q) -> m'.(structs) a = f a) /\
    (forall x, ~ ha f g <= x < ha f g + IP_HLEN -> m'.(data) x = d x).
Proof.
  intros f d q Hl Hp Hh [Hi Hq Hnd Hap Hsz Hpos Hcnt Hlen] Hpc. unfold complete_datagram.
  rewrite (bind_ok _ _ _ _ _ (set_entry_eq _ s [] e L Hl)). cbn [app length].
  set (n := u16 (datagram_len e + IP_HLEN)). set (e' := e <| datagram_len := n |>). set (s1 := s <| reassdatagrams := e' :: L |>).
  rewrite (bind_entry _ s1 [] e' L) by reflexivity. unfold payload_of, helper, load, store. rewrite !bind_gets.
  change (rd_p e') with (rd_p e). rewrite Hp. fold (ha f g). pose proof Hq as (Hok & Hgh & Hqr).
  change (data (pm s1)) with d. change (structs (pm s1) (f_p g)) with (f (f_p g)). fold (ha f g). rewrite Hgh. cbn [next_pbuf].
  rewrite !bind_modify, bind_gets, bind_modify.
  set (d1 := write_header (ha f g) (iphdr e) n d).
  match goal with |- exists m', bind (chain_fragments ?x ?y ?z ?w) ?k ?st = _ /\ _ =>
    change (bind (chain_fragments x y z w) k st) with (bind (chain_fragments x y z w) k (with_data d1 s1)) end.
  apply Forall_cons_iff in Hi, Hpos. destruct Hi as [Hg Hir], Hpos as [Hgp Hpr]. pose proof (it_ne _ _ Hg) as Hne.
  inversion Hap as [|? ? Hgr Hapr]; subst.
  assert (Hoff : forall x, ~ ha f g <= x < ha f g + IP_HLEN -> d1 x = d x) by (intros x Hx; apply write_header_off; assumption).
  destruct (header_leaves f d d1 g r Hg Hir Hgr Hoff Hqr) as [Hqd Hbody].
  assert (Hsr := sizes_nonneg r Hpr).
  destruct (chain_fragments_spec r loop_fuel (with_data d1 s1) (f_p g) (f_l g)) as (m' & E & Hd' & Hm' & Hc' & Hl' & Hcon & Ho').
  - apply Hg.
  - exact Hne.
  - apply Hg.
  - exact Hir.
  - exact Hqd.
  - exact Hnd.
  - change (structs (pm (with_data d1 s1))) with f. rewrite (it_total _ _ Hg). lia.
  - change (structs (pm (with_data d1 s1))) with f. rewrite (it_total _ _ Hg). unfold q, sizes in *. cbn [fold_right] in Hsz. lia.
  - exact Hpr.
  - unfold pbufs, q in *. cbn [map concat] in Hcnt. lia.
  - unfold q in Hlen. rewrite length_cons_Z in Hlen. unfold loop_fuel. lia.
  - rewrite (bind_ok _ _ _ _ _ E). unfold ip_reass_dequeue_datagram. rewrite bind_modify. unfold clen, pbuf_clen.
    change (f_l g ++ pbufs r) with (pbufs q) in *.
    match goal with |- exists m0, bind (pb ?c) ?k ?st = _ /\ _ => set (s2 := st) end.
    rewrite (reass_pb (clen_loop loop_fuel (f_p g) 0) _ s2 (0 + Z.of_nat (length (pbufs q))) m').
    2:{ change (pm s2) with m'. apply (clen_loop_spec m' (pbufs q)); [assumption|lia|lia|unfold loop_fuel; lia]. }
    unfold set_pbufcount. rewrite bind_modify. exists m'. split.
    { unfold ret. change (ip_reass_pbufcount (s2 <| pm := m' |>)) with (ip_reass_pbufcount s).
      rewrite Z.add_0_l, (u16_id (ip_reass_pbufcount s - Z.of_nat (length (pbufs q)))) by (unfold is_u16; lia). reflexivity. }
    split; [assumption|]. split; [assumption|]. split; [exact Hm'|]. split; [|split].
    + rewrite Hd'. change (data (pm (with_data d1 s1))) with d1 in *. change (structs (pm (with_data d1 s1))) with f in *. rewrite Hcon.
      rewrite (content_body f d1 g Hg). unfold d1 at 1. rewrite write_header_load by assumption. rewrite <- app_assoc. f_equal.
      unfold q. cbn [map concat]. f_equal.
      * apply body_ext; [assumption|]. intros a x _ _ Hx. now apply Hoff.
      * f_equal. apply map_ext_in. exact Hbody.
    + exact Ho'.
    + rewrite Hd'. exact Hoff.
Qed.

(** ** Fragments of one datagram *)

(** A fragment with its header and its data. *)
Record piece := mkPiece { pg : frag; ph : list Z; pw : list Z }.

(** Its header fits its place; [last]: MF is not set. *)
Record piece_ok (f : Z -> pbuf) (key : list Z) (last : bool) (k : piece) : Prop := {
  po_intact : intact f k.(pg);
  po_hdr : length k.(ph) = 20%nat;
  po_hl : IPH_HL k.(ph) * 4 = IP_HLEN;
  po_key : IP_ADDRESSES_AND_ID_MATCH key k.(ph) = true;
  po_last : (IPH_OFFSET k.(ph) .& PP_HTONS IP_MF =? 0) = last;
  po_placed : placed k.(ph) k.(pg);
  po_range : 0 <= k.(pg).(f_start) < k.(pg).(f_end) /\ k.(pg).(f_end) < 65536 }.

(** The piece is in memory as it was received. *)
Definition received (f : Z -> pbuf) (d : Z -> Z) (k : piece) : Prop :=
  load_list d (ha f k.(pg)) IP_HLEN = k.(ph) /\ body f d k.(pg) = k.(pw).

Definition before_p (k k' : piece) : Prop := before k.(pg) k'.(pg).

Lemma match_trans a b c : IP_ADDRESSES_AND_ID_MATCH a b = true -> IP_ADDRESSES_AND_ID_MATCH a c = IP_ADDRESSES_AND_ID_MATCH b c.
Proof.
  unfold IP_ADDRESSES_AND_ID_MATCH. intros H. bool_to_prop. congruence.
Qed.

Lemma match_sym a b : IP_ADDRESSES_AND_ID_MATCH a b = IP_ADDRESSES_AND_ID_MATCH b a.
Proof. unfold IP_ADDRESSES_AND_ID_MATCH. now rewrite (Z.eqb_sym (iph_src a)), (Z.eqb_sym (iph_dest a)), (Z.eqb_sym (IPH_ID a)). Qed.

(** The offset field is 0 exactly in the first fragment. *)
Lemma placed_first h g : placed h g -> (lwip_htons (IPH_OFFSET h) .& IP_OFFMASK =? 0) = (g.(f_start) =? 0).
Proof.
  intros [Hs _]. unfold IP_OFFMASK in *. set (x := lwip_htons (IPH_OFFSET h) .& 0x1fff) in *.
  assert (Hx : 0 <= x < 8192) by (unfold x; rewrite (land_mask _ 13) by lia; apply Z.mod_pos_bound; lia).
  rewrite u16_id in Hs by word_lia. destruct (Z.eqb_spec x 0), (Z.eqb_spec (f_start g) 0); lia || reflexivity.
Qed.

(** ** Collecting the fragments *)

Section Collect.
Variables (f : Z -> pbuf) (key : list Z) (L : list ip_reassdata) (n0 : Z) (a0 : nat).
Hypothesis no_other : Forall (fun e => IP_ADDRESSES_AND_ID_MATCH e.(iphdr) key = false) L.

(** [qk] has arrived, sorted; [ks] is still to come.  Before the first arrival
    the list has no struct for the datagram. *)
Record collecting (s : rst) (qk ks : list piece) : Prop := {
  co_structs : s.(pm).(structs) = f;
  co_ok : Forall (fun k => exists last, piece_ok f key last k) (qk ++ ks);
  co_apart : ForallOrdPairs (frag_apart f) (map pg (qk ++ ks));
  co_queue : queue f s.(pm).(data) (map pg qk);
  co_sorted : StronglySorted before_p qk;
  co_bodies : Forall (fun k => body f s.(pm).(data) k.(pg) = k.(pw)) qk;
  co_fresh : Forall (received f s.(pm).(data)) ks;
  co_count : s.(ip_reass_pbufcount) = n0 + Z.of_nat (length (pbufs (map pg qk)));
  co_list : match qk with
    | [] => s.(reassdatagrams) = L /\ s.(reass_avail) = S a0
    | _ :: _ => exists e, s.(reassdatagrams) = e :: L /\ s.(reass_avail) = a0 /\ e.(rd_p) = nxt (map pg qk) /\
        e.(rd_flags) .& IP_REASS_FLAG_LASTFRAG = 0 /\ IP_ADDRESSES_AND_ID_MATCH e.(iphdr) key = true /\
        (forall k, In k qk -> k.(pg).(f_start) = 0 -> e.(iphdr) = k.(ph)) /\
        ((lwip_htons (IPH_OFFSET e.(iphdr)) .& IP_OFFMASK =? 0) = false \/ exists k, In k qk /\ k.(pg).(f_start) = 0)
    end }.

(** The struct of the datagram before the fragment [k] is inserted. *)
Record ready (e : ip_reassdata) (qk : list piece) (k : piece) : Prop := {
  rdy_p : e.(rd_p) = nxt (map pg qk);
  rdy_flags : e.(rd_flags) .& IP_REASS_FLAG_LASTFRAG = 0;
  rdy_key : IP_ADDRESSES_AND_ID_MATCH e.(iphdr) key = true;
  rdy_first : forall k', In k' (k :: qk) -> k'.(pg).(f_start) = 0 -> e.(iphdr) = k'.(ph);
  rdy_none : (lwip_htons (IPH_OFFSET e.(iphdr)) .& IP_OFFMASK =? 0) = false \/ exists k', In k' (k :: qk) /\ k'.(pg).(f_start) = 0 }.

Lemma refreshed_ready e qk k last : piece_ok f key last k -> Forall (fun k' => before_p k' k \/ before_p k k') qk ->
  Forall (fun k' => exists last, piece_ok f key last k') qk ->
  e.(rd_p) = nxt (map pg qk) -> e.(rd_flags) .& IP_REASS_FLAG_LASTFRAG = 0 -> IP_ADDRESSES_AND_ID_MATCH e.(iphdr) key = true ->
  (forall k', In k' qk -> k'.(pg).(f_start) = 0 -> e.(iphdr) = k'.(ph)) ->
  ((lwip_htons (IPH_OFFSET e.(iphdr)) .& IP_OFFMASK =? 0) = false \/ exists k', In k' qk /\ k'.(pg).(f_start) = 0) ->
  ready (refreshed k.(ph) e) qk k.
Proof.
  intros Hk Hcmp Hoks Hp Hfl Hkey Hfirst Hnone. unfold refreshed. rewrite (placed_first _ _ (po_placed _ _ _ _ Hk)).
  assert (Hone : forall k', In k' qk -> f_start (pg k') = 0 -> f_start (pg k) = 0 -> False).
  { intros k' Hin H1 H2. rewrite Forall_forall in Hcmp, Hoks. destruct (Hoks k' Hin) as (? & Hok'). destruct (po_range _ _ _ _ Hk), (po_range _ _ _ _ Hok').
    destruct (Hcmp k' Hin) as [[? ?]|[? ?]]; lia. }
  destruct (Z.eqb_spec (f_start (pg k)) 0) as [H0|H0]; cbn [andb].
  - assert (Hoff : (lwip_htons (IPH_OFFSET (iphdr e)) .& IP_OFFMASK =? 0) = false)
      by (destruct Hnone as [?|(k' & Hin & H')]; [assumption|destruct (Hone k' Hin H' H0)]).
    rewrite Hoff. cbn [negb]. constructor; cbn [rd_p rd_flags iphdr with_field]; try assumption.
    + rewrite match_sym. apply (po_key _ _ _ _ Hk).
    + intros k' [<-|Hin] H'; [reflexivity|destruct (Hone k' Hin H' H0)].
    + right. exists k. split; [now left|assumption].
  - constructor; try assumption.
    + intros k' [<-|Hin] H'; [contradiction|now apply Hfirst].
    + destruct Hnone as [?|(k' & Hin & H')]; [now left|right; exists k'; split; [now right|assumption]].
Qed.

Lemma arrive_front s qk k ks last : collecting s qk (k :: ks) -> piece_ok f key last k ->
  Forall (fun k' => before_p k' k \/ before_p k k') qk ->
  0 <= s.(ip_reass_pbufcount) -> s.(ip_reass_pbufcount) + Z.of_nat (length k.(pg).(f_l)) <= IP_REASS_MAX_PBUFS ->
  exists s1 e, ip4_reass NOASSERT custom_free_function icmp_time_exceeded (f_p k.(pg)) s =
    (do complete <- ip_reass_chain_frag_into_datagram_and_validate NOASSERT custom_free_function 0 (f_p k.(pg));
     if complete : bool then complete_datagram NOASSERT 0 else ret 0) s1 /\
    same_state s1 s.(pm) (flagged k.(ph) e :: L) (s.(ip_reass_pbufcount) + Z.of_nat (length k.(pg).(f_l))) a0 /\ ready e qk k.
Proof.
  intros [Hf Hoks Hap Hq Hsort Hb Hfr Hcnt Hlist] Hk Hcmp Hn Hroom.
  apply Forall_inv in Hfr. destruct Hfr as [Hh _]. apply Forall_app in Hoks. destruct Hoks as [Hoks _].
  pose proof (it_chain _ _ (po_intact _ _ _ _ Hk)) as Hc.
  set (found := match qk with [] => None | _ => hd_error (reassdatagrams s) end).
  destruct (reass_front s (f_p (pg k)) (f_l (pg k)) found L) as (s1 & E & Hs1).
  - rewrite Hf. fold (ha f (pg k)). rewrite Hh. apply Hk.
  - rewrite Hf. exact Hc.
  - exact Hn.
  - exact Hroom.
  - rewrite Hf. fold (ha f (pg k)). rewrite Hh. unfold found. destruct qk as [|k0 qk].
    + destruct Hlist as [-> ->]. split; [reflexivity|]. split; [|lia]. eapply Forall_impl; [|exact no_other]. cbn beta. intros e He.
      rewrite match_sym, <- (match_trans _ _ _ (po_key _ _ _ _ Hk)), match_sym. exact He.
    + destruct Hlist as (e & -> & _ & _ & _ & He & _). cbn [hd_error]. split; [reflexivity|].
      rewrite match_sym, <- (match_trans _ _ _ (po_key _ _ _ _ Hk)), match_sym. exact He.
  - rewrite Hf in Hs1. fold (ha f (pg k)) in Hs1. rewrite Hh in Hs1. unfold found in Hs1. destruct qk as [|k0 qk].
    + destruct Hlist as [Hl Ha]. exists s1, (mkRd 0 (ph k) 0 0 IP_REASS_MAXAGE). split; [exact E|]. split.
      * destruct Hs1 as [H1 H2 H3 H4]. rewrite Ha in H4. now constructor.
      * constructor; cbn [rd_p rd_flags iphdr map nxt]; try reflexivity.
        -- rewrite match_sym. apply Hk.
        -- now intros k' [<-|[]] _.
        -- rewrite (placed_first _ _ (po_placed _ _ _ _ Hk)). destruct (Z.eqb_spec (f_start (pg k)) 0); [right; exists k; split; [now left|assumption]|now left].
    + destruct Hlist as (e & Hl & Ha & Hp & Hfl & Hkey & Hfirst & Hnone). rewrite Hl in Hs1. cbn [hd_error] in Hs1.
      exists s1, (refreshed (ph k) e). split; [exact E|]. split; [destruct Hs1 as [H1 H2 H3 H4]; rewrite Ha in H4; now constructor|].
      now apply (refreshed_ready e (k0 :: qk) k last).
Qed.

(** The state when the fragment is in its place. *)
Record inserted (s s2 : rst) (e : ip_reassdata) (q1 : list piece) (k : piece) (q2 ks : list piece) : Prop := {
  in_structs : s2.(pm).(structs) = f;
  in_mm : s2.(pm).(mm) = s.(pm).(mm);
  in_list : s2.(reassdatagrams) = (flagged k.(ph) e) <| rd_p := nxt (map pg (q1 ++ k :: q2)) |> :: L;
  in_count : s2.(ip_reass_pbufcount) = s.(ip_reass_pbufcount) + Z.of_nat (length k.(pg).(f_l));
  in_avail : s2.(reass_avail) = a0;
  in_queue : queue f s2.(pm).(data) (map pg (q1 ++ k :: q2));
  in_bodies : Forall (fun k => body f s2.(pm).(data) k.(pg) = k.(pw)) (q1 ++ k :: q2);
  in_fresh : Forall (received f s2.(pm).(data)) ks;
  in_data : helpers_only f (map pg (q1 ++ k :: q2)) s.(pm).(data) s2.(pm).(data) }.

Lemma before_asym a b : before_p a b -> before_p b a -> False.
Proof. unfold before_p, before. lia. Qed.
Lemma before_trans a b c : before_p a b -> before_p b c -> before_p a c.
Proof. unfold before_p, before. lia. Qed.

(** Inserting the fragment writes only into helpers: the bytes of all fragments
    and the headers of those still to come are as before. *)
Lemma inserted_bytes d d' q1 k q2 ks : Forall (intact f) (map pg (q1 ++ k :: q2)) -> Forall (intact f) (map pg ks) ->
  ForallOrdPairs (frag_apart f) (map pg (q1 ++ k :: q2)) ->
  (forall g h, In g (map pg (q1 ++ k :: q2)) -> In h (map pg ks) -> frag_apart f g h) ->
  helpers_only f (map pg (q1 ++ k :: q2)) d d' ->
  Forall (fun k => body f d k.(pg) = k.(pw)) (q1 ++ k :: q2) -> Forall (received f d) ks ->
  Forall (fun k => body f d' k.(pg) = k.(pw)) (q1 ++ k :: q2) /\ Forall (received f d') ks.
Proof.
  intros Hall Hiks Hord Hx Hho Hb Hfr. rewrite !Forall_forall in Hb, Hfr. split; apply Forall_forall; intros k' Hk'.
  - rewrite <- (Hb k' Hk'). apply (helpers_body f (map pg (q1 ++ k :: q2))); [assumption|rewrite Forall_forall in Hall; now apply Hall, in_map|assumption|].
    intros h Hh. destruct (ForallOrdPairs_In Hord (pg k') h (in_map pg _ _ Hk') Hh) as [->|[H|H]]; [now left|now right|right; now apply frag_apart_sym].
  - destruct (Hfr k' Hk') as [Hh' Hb']. rewrite Forall_forall in Hiks.
    assert (Hk'i : intact f (pg k')) by now apply Hiks, in_map.
    assert (Hk'a : forall h, In h (map pg (q1 ++ k :: q2)) -> frag_apart f (pg k') h) by (intros h Hh; apply frag_apart_sym, Hx; [assumption|now apply in_map]).
    split; [rewrite <- Hh'; now apply (helpers_header f (map pg (q1 ++ k :: q2)))|].
    rewrite <- Hb'. apply (helpers_body f (map pg (q1 ++ k :: q2))); try assumption. intros h Hh. right. now apply Hk'a.
Qed.

Lemma arrive s qk k ks last : collecting s qk (k :: ks) -> piece_ok f key last k ->
  Forall (fun k' => before_p k' k \/ before_p k k') qk ->
  0 <= s.(ip_reass_pbufcount) -> s.(ip_reass_pbufcount) + Z.of_nat (length k.(pg).(f_l)) <= IP_REASS_MAX_PBUFS ->
  Z.of_nat (length qk) < 65536 ->
  (forall e q1 q2, ready e qk k -> qk = q1 ++ q2 -> Forall (before_p k) q2 ->
     completes (flagged k.(ph) e) (map pg q1) k.(pg) (map pg q2) = true ->
     qk <> [] /\ forall z, last_of (Some k.(pg)) (map pg q2) = Some z -> z.(f_end) = (flagged k.(ph) e).(datagram_len)) ->
  exists s2 e q1 q2, qk = q1 ++ q2 /\ Forall (fun k' => before_p k' k) q1 /\ Forall (before_p k) q2 /\ ready e qk k /\
    ip4_reass NOASSERT custom_free_function icmp_time_exceeded (f_p k.(pg)) s =
      (if completes (flagged k.(ph) e) (map pg q1) k.(pg) (map pg q2) then complete_datagram NOASSERT 0 else ret 0) s2 /\
    inserted s s2 e q1 k q2 ks.
Proof.
  intros Hco Hk Hcmp Hn Hroom Hlen Hfin.
  destruct (arrive_front s qk k ks last Hco Hk Hcmp Hn Hroom) as (s1 & e & E & [Hm1 Hl1 Hc1 Ha1] & Hrdy).
  destruct Hco as [Hf Hoks Hap Hq Hsort Hb Hfr _ _].
  destruct (sorted_place before_p k qk before_asym before_trans Hsort Hcmp) as (q1 & q2 & Eq & H1 & H2).
  subst qk. apply Forall_cons_iff in Hfr. destruct Hfr as [[Hkh Hkb] Hfr].
  assert (Hi : Forall (intact f) (map pg ((q1 ++ q2) ++ k :: ks))).
  { apply Forall_map. eapply Forall_impl; [|exact Hoks]. intros k' (l & Hk'). apply Hk'. }
  rewrite map_app in Hap, Hi. cbn [map] in Hap, Hi. destruct (ForallOrdPairs_app_inv _ _ _ Hap) as (Hapq & Hapk & Hapx).
  inversion Hapk as [|? ? Hkks Hapks]; subst. apply Forall_app in Hi. destruct Hi as [Hiq Hi]. apply Forall_cons_iff in Hi. destruct Hi as [Hik Hiks].
  assert (Hkq : forall g, In g (map pg (q1 ++ q2)) -> frag_apart f (pg k) g) by (intros g Hg; apply frag_apart_sym, Hapx; [assumption|now left]).
  rewrite Forall_forall in Hiq.
  destruct (chain_frag_spec s1 f [] (flagged (ph k) e) L (map pg q1) (pg k) (map pg q2)) as (d' & Ech & Hq' & Hho).
  - now rewrite Hm1.
  - exact Hl1.
  - rewrite <- map_app. transitivity (rd_p e); [|apply Hrdy]. unfold flagged. now destruct (_ =? 0).
  - rewrite Hm1, <- map_app. exact Hq.
  - apply Hik.
  - rewrite <- map_app. clear - Hapq Hiq. induction Hapq as [|g l Hg _ IH]; constructor.
    + rewrite Forall_forall in *. intros h Hh. apply frag_hdr_apart; [apply Hiq; now left|apply Hiq; now right|now apply Hg].
    + apply IH. intros x Hx. apply Hiq. now right.
  - rewrite <- map_app. apply Forall_forall. intros g Hg. apply frag_hdr_apart; [assumption|now apply Hiq|now apply Hkq].
  - rewrite Hm1, Hkh. apply Hk.
  - destruct (po_range _ _ _ _ Hk). word_lia.
  - destruct (po_range _ _ _ _ Hk). word_lia.
  - apply Forall_map. exact H1.
  - destruct q2; [exact I|]. now apply Forall_inv in H2.
  - rewrite <- map_app, length_map. exact Hlen.
  - intros Hc. destruct (Hfin e q1 q2 Hrdy eq_refl H2 Hc) as [Hne Hz]. split; [|exact Hz].
    destruct q1; [right; destruct q2; [contradiction|discriminate]|left; discriminate].
  - change (pg k :: map pg q2) with (map pg (k :: q2)) in Ech, Hq', Hho.
    rewrite <- (map_app pg q1 (k :: q2)) in Ech, Hq', Hho. rewrite (bind_ok _ _ _ _ _ Ech) in E.
    eexists. exists e, q1, q2. split; [reflexivity|]. split; [assumption|]. split; [assumption|]. split; [assumption|]. split; [exact E|].
    rewrite Hm1 in Hho.
    assert (Hperm : Permutation (pg k :: map pg (q1 ++ q2)) (map pg (q1 ++ k :: q2))) by (rewrite !map_app; apply Permutation_middle).
    assert (Hpermp : Permutation (k :: q1 ++ q2) (q1 ++ k :: q2)) by apply Permutation_middle.
    destruct (inserted_bytes (data (pm s)) d' q1 k q2 ks) as [Hb' Hfr']; try assumption.
    + apply (Permutation_Forall Hperm). constructor; [assumption|now apply Forall_forall].
    + apply (ForallOrdPairs_perm _ _ _ (frag_apart_sym f) Hperm). constructor; [now apply Forall_forall|assumption].
    + intros g h Hg Hh. apply (Permutation_in _ (Permutation_sym Hperm)) in Hg. destruct Hg as [<-|Hg]; [rewrite Forall_forall in Hkks; now apply Hkks|].
      apply Hapx; [assumption|now right].
    + apply (Permutation_Forall Hpermp). now constructor.
    + constructor; try assumption; try reflexivity; cbn [pm with_field with_data reass_avail]; [now rewrite <- Hm1 in Hf|exact (f_equal mm Hm1)].
Qed.
(** ** All but the last fragment, in any order *)

Definition cmp (a b : piece) : Prop := before_p a b \/ before_p b a.
Definition addr (k : piece) : Z := f_p k.(pg).

(** [ip4_reass] on one fragment after the other. *)
Fixpoint reass_all (ps : list Z) : @RM PMem Sur (list Z) :=
  match ps with
  | [] => ret []
  | p :: ps =>
      do r <- ip4_reass NOASSERT custom_free_function icmp_time_exceeded p;
      do rs <- reass_all ps;
      ret (r :: rs)
  end.

Lemma flagged_more h e : (IPH_OFFSET h .& PP_HTONS IP_MF =? 0) = false -> flagged h e = e.
Proof. unfold flagged. now intros ->. Qed.

Lemma pbufs_app q r : pbufs (q ++ r) = pbufs q ++ pbufs r.
Proof. unfold pbufs. now rewrite map_app, concat_app. Qed.

Lemma pbufs_insert q1 k q2 : length (pbufs (map pg (q1 ++ k :: q2))) = (length (pbufs (map pg (q1 ++ q2))) + length k.(pg).(f_l))%nat.
Proof. rewrite !map_app, !pbufs_app. unfold pbufs. cbn [map concat]. rewrite !length_app. lia. Qed.

Lemma collect_step s qk k ks : collecting s qk (k :: ks) -> ForallOrdPairs cmp (qk ++ k :: ks) -> piece_ok f key false k -> 0 <= n0 ->
  s.(ip_reass_pbufcount) + Z.of_nat (length k.(pg).(f_l)) <= IP_REASS_MAX_PBUFS -> Z.of_nat (length qk) < 65536 ->
  exists s' qk', ip4_reass NOASSERT custom_free_function icmp_time_exceeded (addr k) s = Ok (0, s') /\
    collecting s' qk' ks /\ Permutation (k :: qk) qk' /\ s'.(pm).(mm) = s.(pm).(mm).
Proof.
  intros Hco Hcmp Hk Hn0 Hroom Hlen. pose proof Hco as [Hf Hoks Hap Hq Hsort Hb Hfr Hcnt _].
  assert (Hkq : Forall (fun k' => before_p k' k \/ before_p k k') qk).
  { apply Forall_forall. intros k' Hk'. destruct (ForallOrdPairs_app_inv _ _ _ Hcmp) as (_ & _ & H). apply H; [assumption|now left]. }
  assert (Hnc : forall e q1 q2, ready e qk k -> completes (flagged k.(ph) e) (map pg q1) k.(pg) (map pg q2) = false).
  { intros e q1 q2 Hr. unfold completes. rewrite (flagged_more _ _ (po_last _ _ _ _ Hk)), (rdy_flags _ _ _ Hr). reflexivity. }
  destruct (arrive s qk k ks false Hco Hk Hkq) as (s2 & e & q1 & q2 & Eq & H1 & H2 & Hrdy & E & Hin);
    [lia|assumption|assumption|intros e q1 q2 Hr _ _ Hc; rewrite (Hnc e q1 q2 Hr) in Hc; discriminate|].
  rewrite (Hnc e q1 q2 Hrdy) in E. destruct Hin as [Is Im Il Ic Ia Iq Ib Ifr _]. rewrite (flagged_more _ _ (po_last _ _ _ _ Hk)) in Il.
  assert (HP : Permutation (k :: qk) (q1 ++ k :: q2)) by (subst qk; apply Permutation_middle).
  assert (HP' : Permutation (qk ++ k :: ks) ((q1 ++ k :: q2) ++ ks)) by (rewrite <- HP; apply Permutation_sym, Permutation_middle).
  exists s2, (q1 ++ k :: q2). split; [exact E|]. split; [|split; [assumption|assumption]]. constructor; try assumption.
  - exact (Permutation_Forall HP' Hoks).
  - apply (ForallOrdPairs_perm _ _ _ (frag_apart_sym f) (Permutation_map pg HP')). exact Hap.
  - subst qk. now apply sorted_insert.
  - rewrite Ic, Hcnt, pbufs_insert, Eq. lia.
  - assert (Hne : exists k0 r, q1 ++ k :: q2 = k0 :: r) by (destruct q1; eexists; eexists; reflexivity).
    destruct Hne as (k0 & r & Hne). rewrite Hne. rewrite <- Hne. eexists. split; [exact Il|]. split; [assumption|].
    destruct Hrdy as [Rp Rf Rk Rfi Rn]. split; [reflexivity|]. split; [exact Rf|]. split; [exact Rk|]. split.
    + intros k' Hk'. apply Rfi. now apply (Permutation_in _ (Permutation_sym HP)).
    + destruct Rn as [Rn|(k' & Hk' & Hz)]; [now left|right; exists k'; split; [now apply (Permutation_in _ HP)|assumption]].
Qed.

Lemma pbufs_count qk ks : Forall (fun k => exists last, piece_ok f key last k) (qk ++ ks) -> (length qk <= length (pbufs (map pg qk)))%nat.
Proof.
  intros Hok. apply Forall_app in Hok. destruct Hok as [Hok _]. induction Hok as [|k qk (l & Hk) _ IH]; [cbn; lia|].
  unfold pbufs in *. cbn [map concat]. rewrite length_app. pose proof (it_ne _ _ (po_intact _ _ _ _ Hk)) as Hne.
  destruct (f_l (pg k)); [contradiction|]. cbn [length]. lia.
Qed.

Lemma collect_all arr : forall s qk ks, collecting s qk (arr ++ ks) -> ForallOrdPairs cmp (qk ++ arr ++ ks) ->
  Forall (piece_ok f key false) arr -> 0 <= n0 ->
  s.(ip_reass_pbufcount) + Z.of_nat (length (pbufs (map pg arr))) <= IP_REASS_MAX_PBUFS ->
  exists s' qk', reass_all (map addr arr) s = Ok (repeat 0 (length arr), s') /\
    collecting s' qk' ks /\ Permutation (arr ++ qk) qk' /\ s'.(pm).(mm) = s.(pm).(mm) /\
    s'.(ip_reass_pbufcount) = s.(ip_reass_pbufcount) + Z.of_nat (length (pbufs (map pg arr))).
Proof.
  induction arr as [|k arr IH]; intros s qk ks Hco Hcmp Hok Hn0 Hroom; cbn [map reass_all app].
  - exists s, qk. split; [reflexivity|]. split; [assumption|]. split; [reflexivity|]. split; [reflexivity|]. cbn. lia.
  - apply Forall_cons_iff in Hok. destruct Hok as [Hk Hok]. unfold pbufs in Hroom |- *. cbn [map concat] in Hroom |- *.
    fold (pbufs (map pg arr)) in Hroom |- *. rewrite length_app in Hroom |- *.
    pose proof (pbufs_count _ _ (co_ok _ _ _ Hco)) as Hqn. pose proof (co_count _ _ _ Hco) as Hc0. unfold IP_REASS_MAX_PBUFS in *.
    destruct (collect_step s qk k (arr ++ ks) Hco Hcmp Hk Hn0) as (s1 & qk1 & E1 & Hco1 & HP1 & Hm1); [unfold IP_REASS_MAX_PBUFS; lia|lia|].
    assert (Hc1 : ip_reass_pbufcount s1 = ip_reass_pbufcount s + Z.of_nat (length (f_l (pg k)))).
    { rewrite (co_count _ _ _ Hco1), Hc0, <- Z.add_assoc, <- Nat2Z.inj_add. do 2 f_equal. unfold pbufs.
      rewrite <- !flat_map_concat_map, <- (Permutation_length (Permutation_flat_map f_l (Permutation_map pg HP1))). cbn [map flat_map]. rewrite length_app. lia. }
    destruct (IH s1 qk1 ks Hco1) as (s2 & qk2 & E2 & Hco2 & HP2 & Hm2 & Hc2); [|assumption|assumption|lia|].
    + apply (ForallOrdPairs_perm _ (qk ++ k :: arr ++ ks)); [unfold cmp; tauto| |exact Hcmp].
      rewrite <- HP1. apply Permutation_sym, Permutation_middle.
    + exists s2, qk2. rewrite (bind_ok _ _ _ _ _ E1), (bind_ok _ _ _ _ _ E2). split; [reflexivity|]. split; [assumption|].
      split; [rewrite <- HP2, <- HP1; apply Permutation_middle|]. split; [congruence|]. lia.
Qed.
End Collect.
(** ** The whole datagram *)

(** The fragments of [q] follow one another from the byte [n] on. *)
Fixpoint tiles (n : Z) (q : list frag) : Prop :=
  match q with
  | [] => True
  | g :: r => g.(f_start) = n /\ n < g.(f_end) /\ tiles g.(f_end) r
  end.

Lemma tiles_later n q g : tiles n q -> In g q -> n <= g.(f_start).
Proof.
  revert n. induction q as [|h q IH]; intros n; [contradiction|]. intros (Hs & Hlt & Hq) [<-|Hin]; [lia|]. specialize (IH _ Hq Hin). lia.
Qed.

Lemma tiles_sorted ks : forall n, tiles n (map pg ks) -> StronglySorted before_p ks.
Proof.
  induction ks as [|k ks IH]; intros n; [constructor|]. intros (Hs & Hlt & Hq). constructor; [now apply (IH _ Hq)|].
  apply Forall_forall. intros k' Hk'. split; [lia|]. apply (tiles_later _ _ _ Hq). now apply in_map.
Qed.

Lemma tiles_contig q : forall n o, tiles n q -> match o with Some p => p.(f_end) = n | None => True end -> contig o q = true.
Proof.
  induction q as [|g q IH]; intros n o; [reflexivity|]. intros (Hs & Hlt & Hq) Ho. cbn [contig].
  rewrite (IH _ (Some g) Hq eq_refl), andb_true_r. destruct o as [p|]; [apply Z.eqb_eq; lia|reflexivity].
Qed.

Lemma tiles_app n q g : tiles n (q ++ [g]) -> match last_of None q with Some p => p.(f_end) = g.(f_start) | None => n = g.(f_start) end.
Proof.
  assert (H : forall q n o, tiles n (q ++ [g]) -> (match o with Some p => p.(f_end) = n | None => q <> [] end) ->
    exists p, last_of o q = Some p /\ p.(f_end) = g.(f_start)).
  { clear. induction q as [|h q IH]; intros n o; cbn [app tiles last_of].
    - intros (Hs & _) Ho. destruct o as [p|]; [exists p; split; [reflexivity|lia]|contradiction].
    - intros (_ & _ & Hq) _. now apply (IH _ (Some h) Hq). }
  intros Ht. destruct q as [|h q]; [symmetry; apply Ht|]. destruct (H _ _ None Ht) as (p & -> & E); [discriminate|assumption].
Qed.

Lemma tiles_sizes q g : forall n, tiles n (q ++ [g]) -> sizes (q ++ [g]) = g.(f_end) - n.
Proof.
  induction q as [|h q IH]; intros n; cbn [app tiles sizes fold_right]; [lia|].
  intros (Hs & _ & Hq). fold (sizes (q ++ [g])). rewrite (IH _ Hq). lia.
Qed.

Lemma tiles_prefix n q r : tiles n (q ++ r) -> tiles n q.
Proof. revert n. induction q as [|g q IH]; intros n; [exact (fun _ => I)|]. intros (Hs & Hlt & Hq). now repeat split; [..|apply IH]. Qed.

Lemma sorted_pairs {A} (R : A -> A -> Prop) l : StronglySorted R l -> ForallOrdPairs R l.
Proof. now induction 1; constructor. Qed.

(** The fragments [ks] and, behind them, [kl] are those of one datagram, as the
    device stored them. *)
Record datagram (f : Z -> pbuf) (d : Z -> Z) (key : list Z) (ks : list piece) (kl : piece) : Prop := {
  dg_two : ks <> [];
  dg_more : Forall (piece_ok f key false) ks;
  dg_last : piece_ok f key true kl;
  dg_tiles : tiles 0 (map pg (ks ++ [kl]));
  dg_apart : ForallOrdPairs (frag_apart f) (map pg (ks ++ [kl]));
  dg_nodup : NoDup (pbufs (map pg (ks ++ [kl])));
  dg_received : Forall (received f d) (ks ++ [kl]);
  dg_size : IP_HLEN + kl.(pg).(f_end) < 65536 }.

Lemma flagged_last f key k e : piece_ok f key true k -> (flagged k.(ph) e).(rd_flags) = e.(rd_flags) .| IP_REASS_FLAG_LASTFRAG /\
  (flagged k.(ph) e).(datagram_len) = k.(pg).(f_end) /\ (flagged k.(ph) e).(iphdr) = e.(iphdr).
Proof.
  intros Hk. unfold flagged. rewrite (po_last _ _ _ _ Hk). destruct (po_placed _ _ _ _ Hk) as [Hs He]. rewrite Hs, He. now repeat split.
Qed.

(** When the last fragment comes last, the datagram is complete. *)
Lemma last_completes f key ks kl e : ks <> [] -> tiles 0 (map pg (ks ++ [kl])) -> piece_ok f key true kl ->
  completes (flagged kl.(ph) e) (map pg ks) kl.(pg) [] = true.
Proof.
  intros Hne Ht Hk. destruct (flagged_last f key kl e Hk) as (Hfl & _). unfold completes. rewrite Hfl, map_app in *. cbn [map] in Ht.
  assert (Hb : ((rd_flags e .| IP_REASS_FLAG_LASTFRAG) .& IP_REASS_FLAG_LASTFRAG =? 0) = false).
  { rewrite Z.land_comm, Z.land_lor_distr_r, Z.land_diag, Z.eqb_neq. intros H. apply Z.lor_eq_0_iff in H. destruct H; discriminate. }
  rewrite Hb, (tiles_contig _ 0 None (tiles_prefix _ _ _ Ht) I). apply tiles_app in Ht as Hj. destruct ks as [|k ks]; [contradiction|].
  destruct Ht as (Hs & _). cbn [map hd app contig negb andb] in *. rewrite Hs, andb_true_r, Z.eqb_refl, andb_true_r.
  destruct (last_of None (pg k :: map pg ks)) as [p|]; [now apply Z.eqb_eq|reflexivity].
Qed.

Lemma whole_header_chksum a h n : length h = 20%nat -> bytes_ok h -> is_u16 n -> inet_chksum a (whole_header a h n) = 0.
Proof.
  intros Hl Hb Hn. destruct (list_20 h Hl) as (b0 & b1 & b2 & b3 & b4 & b5 & b6 & b7 & b8 & b9 & b10 & b11 & b12 & b13 & b14 & b15 & b16 & b17 & b18 & b19 & ->).
  unfold whole_header. cbn [firstn skipn]. set (pre := _ ++ _ ++ _ ++ _ ++ _). set (post := [_; _; _; _; _; _; _; _]).
  assert (Hpre : bytes_ok pre /\ bytes_ok post).
  { unfold bytes_ok in *. rewrite Forall_forall in Hb. split; apply Forall_forall; unfold pre, post, put16; cbn [app In]; intros x Hx;
      repeat destruct Hx as [<-|Hx]; try contradiction; try (apply Hb; cbn [In]; tauto); try word_lia; word_div. }
  unfold put16. rewrite (Z.mod_small (inet_chksum _ _ / 256)).
  - apply inet_chksum_fills; [apply Hpre|apply Hpre|reflexivity|cbn; lia].
  - pose proof (u16_ok (Z.lnot (LWIP_CHKSUM a (pre ++ [0; 0] ++ post)))) as Hr. fold (inet_chksum a (pre ++ [0; 0] ++ post)) in Hr. word_div.
Qed.

Lemma reass_all_app ps qs s rs s1 : reass_all ps s = Ok (rs, s1) ->
  reass_all (ps ++ qs) s = (do rs' <- reass_all qs; ret (rs ++ rs')) s1.
Proof.
  revert s rs. induction ps as [|p ps IH]; intros s rs; cbn [reass_all app].
  - intros [= <- <-]. unfold bind. now destruct (reass_all qs s) as [[? ?]| |].
  - unfold bind at 1. destruct (ip4_reass _ _ _ p s) as [[r s0]| |] eqn:E; [|discriminate|discriminate].
    unfold bind at 1. destruct (reass_all ps s0) as [[rs0 s0']| |] eqn:E0; [|discriminate|discriminate].
    intros [= <- <-]. rewrite (bind_ok _ _ _ _ _ E). specialize (IH s0 rs0 E0). unfold bind in IH |- *. rewrite IH.
    now destruct (reass_all qs s0') as [[? ?]| |].
Qed.

(** The state before the first fragment. *)
Lemma collecting_start s key ks kl arr : let f := s.(pm).(structs) in
  datagram f s.(pm).(data) key ks kl -> Permutation arr ks -> (0 < s.(reass_avail))%nat ->
  collecting f key s.(reassdatagrams) s.(ip_reass_pbufcount) (pred s.(reass_avail)) s [] (arr ++ [kl]).
Proof.
  intros f [Hne Hmore Hlast Ht Hap Hnd Hrec Hsz] HP Hav.
  assert (HP' : Permutation (ks ++ [kl]) (arr ++ [kl])) by now rewrite HP.
  constructor; cbn [app map queue length pbufs concat Z.of_nat].
  - reflexivity.
  - apply (Permutation_Forall HP'), Forall_app. split; [|constructor; [now exists true|constructor]].
    eapply Forall_impl; [|exact Hmore]. intros k Hk. now exists false.
  - now apply (ForallOrdPairs_perm _ _ _ (frag_apart_sym f) (Permutation_map pg HP')).
  - exact I.
  - constructor.
  - constructor.
  - exact (Permutation_Forall HP' Hrec).
  - cbn. lia.
  - split; [reflexivity|lia].
Qed.

(** All fragments have arrived: what [complete_datagram] needs. *)
Lemma datagram_assembled f d d' key ks kl n0 : datagram f d key ks kl -> 0 <= n0 ->
  n0 + Z.of_nat (length (pbufs (map pg (ks ++ [kl])))) <= IP_REASS_MAX_PBUFS ->
  queue f d' (map pg (ks ++ [kl])) -> assembled f d' (map pg (ks ++ [kl])).
Proof.
  intros [Hne Hmore Hlast Ht Hap Hnd Hrec Hsz] Hn0 Hroom Hq.
  assert (Hoks : Forall (fun k => exists last, piece_ok f key last k) (ks ++ [kl])).
  { apply Forall_app. split; [eapply Forall_impl; [|exact Hmore]; intros k Hk; now exists false|constructor; [now exists true|constructor]]. }
  assert (Hcnt : (length (ks ++ [kl]) <= length (pbufs (map pg (ks ++ [kl]))))%nat) by (apply (pbufs_count f key _ []); now rewrite app_nil_r).
  unfold IP_REASS_MAX_PBUFS in *. constructor; try assumption.
  - apply Forall_map. eapply Forall_impl; [|exact Hoks]. intros k (l & Hk). apply Hk.
  - rewrite map_app in *. cbn [map] in *. rewrite (tiles_sizes _ _ _ Ht), Z.sub_0_r. exact Hsz.
  - apply Forall_map. eapply Forall_impl; [|exact Hoks]. intros k (l & Hk). destruct (po_range _ _ _ _ Hk). lia.
  - lia.
  - rewrite length_map. lia.
Qed.

(** The last fragment arrives when all others are queued. *)
Lemma last_arrives f d0 key L n0 a0 s ks kl k1 : Forall (fun e => IP_ADDRESSES_AND_ID_MATCH e.(iphdr) key = false) L ->
  collecting f key L n0 a0 s ks [kl] -> datagram f d0 key ks kl -> hd_error ks = Some k1 -> 0 <= n0 ->
  let q := map pg (ks ++ [kl]) in n0 + Z.of_nat (length (pbufs q)) <= IP_REASS_MAX_PBUFS ->
  exists s', ip4_reass NOASSERT custom_free_function icmp_time_exceeded (addr kl) s = Ok (addr k1, s') /\
    chain s'.(pm).(structs) (addr k1) (pbufs q) /\ lengths s'.(pm).(structs) 0 (pbufs q) /\
    content s'.(pm).(structs) s'.(pm).(data) (pbufs q) =
      whole_header (ha f k1.(pg)) k1.(ph) (kl.(pg).(f_end) + IP_HLEN) ++ concat (map pw (ks ++ [kl])) /\
    s'.(reassdatagrams) = L /\ s'.(reass_avail) = S a0 /\ s'.(ip_reass_pbufcount) = n0 /\ s'.(pm).(mm) = s.(pm).(mm).
Proof.
  intros Hno Hco Hdg Hk1 Hn0 q Hroom. pose proof Hdg as [Hne Hmore Hlast Ht _ _ _ Hsz].
  assert (Hbef : forall k, In k ks -> before_p k kl).
  { assert (Hs := tiles_sorted _ _ Ht). apply sorted_pairs, ForallOrdPairs_app_inv in Hs. intros k Hk. apply Hs; [assumption|now left]. }
  assert (Hq2 : forall q1 q2, ks = q1 ++ q2 -> Forall (before_p kl) q2 -> q2 = []).
  { intros q1 q2 E H2. destruct q2 as [|k q2]; [reflexivity|]. exfalso. apply (before_asym k kl); [apply Hbef; rewrite E, in_app_iff; right; now left|now apply Forall_inv in H2]. }
  pose proof (pbufs_count f key _ _ (co_ok _ _ _ _ _ _ _ _ Hco)) as Hqn. pose proof (co_count _ _ _ _ _ _ _ _ Hco) as Hc0.
  assert (Hpl : length (pbufs q) = (length (pbufs (map pg ks)) + length (f_l (pg kl)))%nat).
  { unfold q. rewrite map_app, pbufs_app, length_app. unfold pbufs at 2. cbn [map concat]. now rewrite app_nil_r. }
  rewrite Hpl in Hroom. unfold IP_REASS_MAX_PBUFS in Hroom.
  destruct (arrive f key L n0 a0 Hno s ks kl [] true Hco Hlast) as (s2 & e & q1 & q2 & Eq & H1 & H2 & Hrdy & E & Hin).
  - apply Forall_forall. intros k Hk. left. now apply Hbef.
  - lia.
  - unfold IP_REASS_MAX_PBUFS. lia.
  - lia.
  - intros e q1 q2 _ Eq H2 _. split; [assumption|]. rewrite (Hq2 q1 q2 Eq H2). intros z [= <-]. symmetry. apply (flagged_last f key kl e Hlast).
  - assert (q2 = []) as -> by exact (Hq2 q1 q2 Eq H2). rewrite app_nil_r in Eq. subst q1.
    cbn [map] in E. rewrite (last_completes f key ks kl e Hne Ht Hlast) in E. destruct Hin as [Is Im Il Ic Ia Iq Ib _ _].
    destruct ks as [|k ks]; [contradiction|]. injection Hk1 as ->. set (e' := _ <| rd_p := _ |>) in Il. cbn [app map] in *.
    assert (Hh : iphdr e = ph k1) by (apply (rdy_first _ _ _ _ Hrdy); [right; now left|apply Ht]).
    destruct (flagged_last f key kl e Hlast) as (_ & Hdl & Hih).
    destruct (complete_datagram_spec s2 e' L (pg k1) (map pg (ks ++ [kl]))) as (m' & E' & Hc' & Hl' & Hm' & Hcon & _).
    + exact Il.
    + reflexivity.
    + change (iphdr e') with (iphdr (flagged (ph kl) e)). rewrite Hih, Hh. apply Forall_inv in Hmore. apply Hmore.
    + rewrite Is. refine (datagram_assembled f d0 _ key (k1 :: ks) kl n0 Hdg Hn0 _ Iq). change (map pg ((k1 :: ks) ++ [kl])) with q. rewrite Hpl. exact Hroom.
    + fold q. rewrite Ic, Hc0, Hpl. lia.
    + fold q in E', Hc', Hl', Hcon. eexists. split; [exact (eq_trans E E')|]. cbn [pm with_field reassdatagrams reass_avail ip_reass_pbufcount].
      split; [exact Hc'|]. split; [exact Hl'|]. split; [|split; [reflexivity|split; [congruence|split; [rewrite Ic, Hc0, Hpl; lia|congruence]]]].
      rewrite Hcon, Is. change (iphdr e') with (iphdr (flagged (ph kl) e)). change (datagram_len e') with (datagram_len (flagged (ph kl) e)).
      rewrite Hih, Hh, Hdl, u16_id by (destruct (po_range _ _ _ _ Hlast); unfold IP_HLEN in *; word_lia). f_equal.
      change q with (map pg (k1 :: ks ++ [kl])). rewrite map_map. f_equal. apply (map_ext_in _ pw (k1 :: ks ++ [kl])). intros k Hk.
      rewrite Forall_forall in Ib. now apply Ib.
Qed.

(** All fragments of a datagram, the last one last. *)
Lemma reass_datagram s key ks kl arr k1 : let f := s.(pm).(structs) in let q := map pg (ks ++ [kl]) in
  datagram f s.(pm).(data) key ks kl -> hd_error ks = Some k1 -> bytes_ok k1.(ph) -> Permutation arr ks ->
  Forall (fun e => IP_ADDRESSES_AND_ID_MATCH e.(iphdr) key = false) s.(reassdatagrams) -> (0 < s.(reass_avail))%nat ->
  0 <= s.(ip_reass_pbufcount) -> s.(ip_reass_pbufcount) + Z.of_nat (length (pbufs q)) <= IP_REASS_MAX_PBUFS ->
  let hdr := whole_header (ha f k1.(pg)) k1.(ph) (kl.(pg).(f_end) + IP_HLEN) in
  exists s', reass_all (map addr (arr ++ [kl])) s = Ok (repeat 0 (length arr) ++ [addr k1], s') /\
    chain s'.(pm).(structs) (addr k1) (pbufs q) /\ lengths s'.(pm).(structs) 0 (pbufs q) /\
    content s'.(pm).(structs) s'.(pm).(data) (pbufs q) = hdr ++ concat (map pw (ks ++ [kl])) /\
    inet_chksum (ha f k1.(pg)) hdr = 0 /\
    s'.(reassdatagrams) = s.(reassdatagrams) /\ s'.(reass_avail) = s.(reass_avail) /\
    s'.(ip_reass_pbufcount) = s.(ip_reass_pbufcount) /\ s'.(pm).(mm) = s.(pm).(mm).
Proof.
  intros f q Hdg Hk1 Hbytes HP Hno Hav Hn0 Hroom hdr. pose proof Hdg as [Hne Hmore Hlast Ht Hap Hnd Hrec Hsz].
  assert (Hsort : StronglySorted before_p (ks ++ [kl])) by now apply (tiles_sorted _ 0).
  assert (Hcmp : ForallOrdPairs cmp (arr ++ [kl])).
  { apply (ForallOrdPairs_perm _ (ks ++ [kl])); [unfold cmp; tauto|now rewrite HP|]. clear - Hsort.
    induction Hsort as [|a l _ IH Ha]; constructor; [|assumption]. eapply Forall_impl; [|exact Ha]. intros b Hb. now left. }
  unfold q in Hroom. rewrite map_app, pbufs_app, length_app, Nat2Z.inj_add in Hroom.
  assert (Hpl : length (pbufs (map pg arr)) = length (pbufs (map pg ks))).
  { unfold pbufs. rewrite <- !flat_map_concat_map. apply Permutation_length, Permutation_flat_map. now apply Permutation_map. }
  destruct (collect_all f key _ _ _ Hno arr s [] [kl] (collecting_start s key ks kl arr Hdg HP Hav) Hcmp) as (s1 & qk & E1 & Hco & HPq & Hm1 & Hc1);
    [now apply (Permutation_Forall (Permutation_sym HP))|assumption|lia|].
  assert (qk = ks) as ->.
  { apply (sorted_unique before_p); [exact before_asym|apply Hco| |rewrite <- HPq, app_nil_r; exact HP].
    apply (tiles_sorted _ 0). rewrite map_app in Ht. now apply tiles_prefix in Ht. }
  destruct (last_arrives f (data (pm s)) key _ _ _ s1 ks kl k1 Hno Hco Hdg Hk1 Hn0) as (s2 & E2 & Hc & Hl & Hcon & Hrd & Ha & Hct & Hmm).
  { rewrite map_app, pbufs_app, length_app. lia. }
  exists s2. split; [|repeat split; try assumption; [|lia|congruence]].
  - rewrite map_app. cbn [map]. rewrite (reass_all_app _ [addr kl] s _ _ E1). cbn [reass_all]. unfold bind. now rewrite E2.
  - apply whole_header_chksum; [|assumption|destruct (po_range _ _ _ _ Hlast); unfold IP_HLEN in *; word_lia].
    destruct ks as [|k ks]; [discriminate|]. injection Hk1 as ->. apply Forall_inv in Hmore. apply Hmore.
Qed.

(** C15: the fragments of a datagram, all but the last in any order and the
    last one last, come out of [ip4_reass] as that datagram: every call but the
    last takes its fragment; the last returns the first fragment's pbuf, whose
    chain is all the pbufs with right lengths, and holds the first header (with
    the length of the whole, no fragment offset and a valid checksum) and then
    the data of all fragments in order.  The struct is back in the pool and the
    count of queued pbufs is as before. *)
Theorem ip4_reass_roundtrip s key ks kl arr k1 : let f := s.(pm).(structs) in let q := map pg (ks ++ [kl]) in
  datagram f s.(pm).(data) key ks kl -> hd_error ks = Some k1 -> bytes_ok k1.(ph) -> Permutation arr ks ->
  Forall (fun e => IP_ADDRESSES_AND_ID_MATCH e.(iphdr) key = false) s.(reassdatagrams) -> (0 < s.(reass_avail))%nat ->
  0 <= s.(ip_reass_pbufcount) -> s.(ip_reass_pbufcount) + Z.of_nat (length (pbufs q)) <= IP_REASS_MAX_PBUFS ->
  let hdr := whole_header (ha f k1.(pg)) k1.(ph) (kl.(pg).(f_end) + IP_HLEN) in
  exists s', reass_all (map addr (arr ++ [kl])) s = Ok (repeat 0 (length arr) ++ [addr k1], s') /\
    chain s'.(pm).(structs) (addr k1) (pbufs q) /\ lengths s'.(pm).(structs) 0 (pbufs q) /\
    content s'.(pm).(structs) s'.(pm).(data) (pbufs q) = hdr ++ concat (map pw (ks ++ [kl])) /\
    inet_chksum (ha f k1.(pg)) hdr = 0 /\
    s'.(reassdatagrams) = s.(reassdatagrams) /\ s'.(reass_avail) = s.(reass_avail) /\
    s'.(ip_reass_pbufcount) = s.(ip_reass_pbufcount) /\ s'.(pm).(mm) = s.(pm).(mm).
Proof. apply reass_datagram. Qed.

(** The bytes of the fragments. *)
Definition span (q : list frag) : Z := fold_right (fun g n => g.(f_end) - g.(f_start) + n) 0 q.

Lemma span_app q1 q2 : span (q1 ++ q2) = span q1 + span q2.
Proof. induction q1 as [|g q1 IH]; [reflexivity|]. cbn [app span fold_right]. fold (span (q1 ++ q2)) (span q1). lia. Qed.
Lemma contig_span q : forall o z, contig (Some o) q = true -> last_of (Some o) q = Some z -> o.(f_end) + span q = z.(f_end).
Proof.
  induction q as [|h q IH]; intros o z Hc Hl; cbn [contig last_of span fold_right] in *; [injection Hl as <-; lia|]. apply andb_true_iff in Hc. destruct Hc as [Hh Hc]. apply Z.eqb_eq in Hh.
  specialize (IH h z Hc Hl). fold (span q). lia.
Qed.

(** C38: a fragment [g] that is put before one that is queued already is not
    compared with the end of its predecessor: whatever the queue, if the fragments
    up to [pv] start at 0 and have no hole, [g] and those behind it have none and
    end the datagram, and there is a hole between [pv] and [g], then the datagram
    is taken for complete, although the fragments have fewer bytes than it by the
    size of the hole. *)
Theorem ip4_reass_misses_hole s l1 e l2 q1 pv g q2 z : let f := s.(pm).(structs) in s.(reassdatagrams) = l1 ++ e :: l2 ->
  e.(rd_p) = nxt (q1 ++ q2) -> queue f s.(pm).(data) (q1 ++ q2) -> addr_ok f g ->
  ForallOrdPairs (hdr_apart f) (q1 ++ q2) -> Forall (hdr_apart f g) (q1 ++ q2) ->
  placed (load_list s.(pm).(data) (ha f g) IP_HLEN) g -> is_u16 g.(f_start) -> is_u16 g.(f_end) -> Z.of_nat (length (q1 ++ q2)) < 65536 ->
  Forall (fun h => before h g) q1 -> contig None q1 = true -> (hd g q1).(f_start) = 0 -> last_of None q1 = Some pv -> pv.(f_end) < g.(f_start) ->
  (exists h r, q2 = h :: r /\ before g h) -> contig (Some g) q2 = true -> last_of (Some g) q2 = Some z -> z.(f_end) = e.(datagram_len) ->
  e.(rd_flags) .& IP_REASS_FLAG_LASTFRAG <> 0 ->
  exists s', ip_reass_chain_frag_into_datagram_and_validate NOASSERT custom_free_function (length l1) (f_p g) s = Ok (true, s') /\
    s'.(reassdatagrams) = l1 ++ (e <| rd_p := nxt (q1 ++ g :: q2) |>) :: l2 /\ queue f s'.(pm).(data) (q1 ++ g :: q2) /\
    span (q1 ++ g :: q2) = e.(datagram_len) - (g.(f_start) - pv.(f_end)).
Proof.
  intros f Hl Hp Hq Hg Hap Hga Hpl Hs He Hlen H1 Hc1 H0 Hpv Hhole (h & r & -> & Hb) Hc2 Hz Hend Hfl.
  assert (Hdone : completes e q1 g (h :: r) = true) by (unfold completes; now rewrite (proj2 (Z.eqb_neq _ _) Hfl), Hc1, H0, Hc2).
  destruct (chain_frag_spec s f l1 e l2 q1 g (h :: r) eq_refl Hl Hp Hq Hg Hap Hga Hpl Hs He H1 Hb Hlen) as (d' & E & Hq' & _).
  { intros _. split; [right; discriminate|]. intros z' Hz'. congruence. }
  rewrite Hdone in E. eexists. split; [exact E|]. split; [reflexivity|]. split; [exact Hq'|].
  rewrite span_app. pose proof (contig_span (h :: r) g z Hc2 Hz) as S2. destruct q1 as [|a q1]; [discriminate Hpv|]. pose proof (contig_span q1 a pv Hc1 Hpv) as S1. cbn [hd] in H0.
  change (span (a :: q1)) with (f_end a - f_start a + span q1). change (span (g :: h :: r)) with (f_end g - f_start g + span (h :: r)). lia.
Qed.
End Queue.

(** ** Four fragments of 8 bytes *)

(** The [i]th fragment: header and data of a datagram from 10.0.0.1 to 10.0.0.2. *)
Definition frag_header (i : Z) (mf : bool) : list Z :=
  [0x45; 0; 0; 28; 0; 7; (if mf then 0x20 else 0); i - 1; 64; 17; 0; 0; 10; 0; 0; 1; 10; 0; 0; 2].
Definition frag_data (i : Z) : list Z := map (fun j => 8 * (i - 1) + Z.of_nat j) (seq 0 8).

(** The pbuf at address 100 * i holds it behind its struct; the [last]th has no MF. *)
Definition structs1 (a : Z) : pbuf := mkPbuf 0 (a + 16) 28 28 PBUF_POOL 0 1.
Definition data1 (last a : Z) : Z :=
  nth (Z.to_nat (a mod 100 - 16)) (frag_header (a / 100) (negb (a / 100 =? last)) ++ frag_data (a / 100)) 0.
(** No other part of the stack. *)
Definition nothing_else : Surroundings := {| Env := unit |}.
Definition rst1 (last : Z) : @rst mem0 nothing_else := @mkRst mem0 nothing_else (@mkPst mem0 structs1 (data1 last) board0 false 0) [] 0 5 (mkStats 0 0 0 0 0) tt.
Definition piece1 (last i : Z) : piece :=
  mkPiece (mkFrag [100 * i] (8 * (i - 1)) (8 * i)) (frag_header i (negb (i =? last))) (frag_data i).

Lemma piece1_ok i : In i [1; 2; 3] -> piece_ok structs1 (frag_header 1 true) (i =? 3) (piece1 3 i) /\ received structs1 (data1 3) (piece1 3 i).
Proof.
  intros Hi. assert (Hr : 1 <= i <= 3) by (cbn [In] in Hi; lia). split.
  - assert (Hp : f_p (pg (piece1 3 i)) = 100 * i) by reflexivity.
    constructor; try (cbn [In] in Hi; decompose [or] Hi; subst; (reflexivity || contradiction || now split)).
    constructor; unfold addr_ok, ha; rewrite ?Hp; unfold SIZEOF_STRUCT_PBUF, IP_HLEN, is_u32;
      cbn [piece1 pg f_l f_start f_end structs1 payload next len tot_len lengths chain total]; try lia.
    + discriminate.
    + change (LWIP_MEM_ALIGN_SIZE 16) with 16. lia.
    + constructor; [intros []|constructor].
    + repeat constructor.
  - split; cbn [In] in Hi; decompose [or] Hi; subst; (contradiction || reflexivity).
Qed.

Lemma pieces1 : datagram structs1 (data1 3) (frag_header 1 true) [piece1 3 1; piece1 3 2] (piece1 3 3).
Proof.
  destruct (piece1_ok 1) as [H1 R1]; [cbn; tauto|]. destruct (piece1_ok 2) as [H2 R2]; [cbn; tauto|]. destruct (piece1_ok 3) as [H3 R3]; [cbn; tauto|].
  assert (Hap : forall i j, 0 < i < j -> frag_apart structs1 (pg (piece1 3 i)) (pg (piece1 3 j))).
  { intros i j Hij a b x [<-|[]] [<-|[]]. unfold in_payload. cbn [structs1 payload len]. lia. }
  constructor; [discriminate|now repeat constructor|assumption|cbn; lia| | |now repeat constructor|reflexivity].
  - repeat constructor; apply Hap; lia.
  - unfold pbufs. cbn. repeat constructor; cbn; lia.
Qed.

Definition no_free (p : Z) : @PB mem0 unit := ret tt.
Definition no_message (p : Z) : M (@pst mem0 * @Env nothing_else) unit := ret tt.

Lemma ip4_reass_roundtrip_witness : exists s',
  reass_all false no_free no_message [200; 100; 300] (rst1 3) = Ok ([0; 0; 100], s') /\
  content s'.(pm).(structs) s'.(pm).(data) [100; 200; 300] =
    whole_header 116 (frag_header 1 true) 44 ++ map (fun j => Z.of_nat j) (seq 0 24).
Proof.
  destruct (ip4_reass_roundtrip false no_free no_message (rst1 3) (frag_header 1 true) [piece1 3 1; piece1 3 2] (piece1 3 3)
    [piece1 3 2; piece1 3 1] (piece1 3 1) pieces1 eq_refl) as (s' & E & _ & _ & Hc & _).
  - apply bytes_okb_spec. reflexivity.
  - apply perm_swap.
  - constructor.
  - cbn. lia.
  - cbn. lia.
  - cbn. unfold IP_REASS_MAX_PBUFS. lia.
  - exists s'. split; [exact E|]. etransitivity; [exact Hc|]. reflexivity.
Defined.

(** Of the four fragments the first, the last and then the third arrive:
    [ip4_reass] returns a datagram whose header says 52 bytes, but that has 44. *)
Example reass_with_hole :
  match reass_all false no_free no_message [100; 400; 300] (rst1 4) with
  | Ok (rs, s) => rs = [0; 0; 100] /\
      lwip_htons (IPH_LEN (load_list s.(pm).(data) 116 IP_HLEN)) = 52 /\
      (s.(pm).(structs) 100).(tot_len) = 44 /\
      content s.(pm).(structs) s.(pm).(data) [100; 300; 400] =
        whole_header 116 (frag_header 1 true) 52 ++ frag_data 1 ++ frag_data 3 ++ frag_data 4
  | _ => False
  end.
Proof. vm_compute. repeat split. Qed.

(** The queue with the first and the last fragment. *)
Definition two_queued : @rst mem0 nothing_else := match reass_all false no_free no_message [100; 400] (rst1 4) with Ok (_, s) => s | _ => rst1 4 end.
Definition first_queued : ip_reassdata := hd (mkRd 0 [] 0 0 0) two_queued.(reassdatagrams).

Lemma ip4_reass_misses_hole_witness : exists s', ip_reass_chain_frag_into_datagram_and_validate false no_free 0 300 two_queued = Ok (true, s') /\
  span (map pg [piece1 4 1; piece1 4 3; piece1 4 4]) = first_queued.(datagram_len) - 8.
Proof.
  destruct (ip4_reass_misses_hole false no_free no_message two_queued [] first_queued [] [pg (piece1 4 1)] (pg (piece1 4 1)) (pg (piece1 4 3)) [pg (piece1 4 4)] (pg (piece1 4 4))) as (s' & E & _ & _ & S).
  - vm_compute. reflexivity.
  - vm_compute. reflexivity.
  - split; [vm_compute; repeat split; discriminate|]. split; [vm_compute; reflexivity|]. split; [vm_compute; repeat split; discriminate|]. split; [vm_compute; reflexivity|exact I].
  - vm_compute. repeat split; discriminate.
  - constructor; [|constructor; constructor]. constructor; [left; vm_compute; discriminate|constructor].
  - constructor; [right; vm_compute; discriminate|]. constructor; [left; vm_compute; discriminate|constructor].
  - split; vm_compute; reflexivity.
  - cbn. word_lia.
  - cbn. word_lia.
  - cbn. lia.
  - constructor; [split; cbn; lia|constructor].
  - reflexivity.
  - reflexivity.
  - reflexivity.
  - reflexivity.
  - eexists _, _. split; [reflexivity|]. split; cbn; lia.
  - reflexivity.
  - reflexivity.
  - vm_compute. reflexivity.
  - vm_compute. discriminate.
  - exists s'. split; [exact E|exact S].
Defined.
