(* ===== verification/Ip4ReassTmr.v ===== *)
(** * The reassembly timer

    [ip_reass_tmr] drops the datagrams whose fragments do not all arrive: what
    one call does to the queued fragments and their memory, and that after at
    most IP_REASS_MAXAGE + 1 calls nothing is left of them.  And that the
    statics of ip4_frag.c keep their types whatever arrives. *)

From Stdlib Require Import ZArith List Lia Bool Permutation.
From S2P Require Import Prelude Def Chksum Mem PbufMem Pbuf PbufBoard Ip4Frag Ip4Reass.
Import ListNotations.
Open Scope Z_scope.
Open Scope c_scope.

Section Tmr.
Context {PMem : PbufMemory}.
Variable NOASSERT : bool.
Variable custom_free_function : Z -> PB unit.
Context {Sur : Surroundings}.
Variable icmp_time_exceeded : Z -> M (pst * Env) unit.
(** The size of the block a pbuf is in. *)
Variable sz : Z -> Z.

(** icmp.c allocates, sends and frees a packet of its own: the blocks that are
    outstanding stay so, and what is in them stays. *)
Definition icmp_sends : Prop := forall p m e bs, owns m.(mm) bs ->
  exists m' e', icmp_time_exceeded p (m, e) = Ok (tt, (m', e')) /\ owns m'.(mm) bs /\
    (forall b, In b bs -> m'.(structs) b.(b_addr) = m.(structs) b.(b_addr)) /\
    (forall b x, In b bs -> b.(b_addr) <= x < b.(b_addr) + b.(b_size) -> m'.(data) x = m.(data) x).

(** A queued fragment: nobody else refers to its pbufs, and its header is in
    the block of the first of them. *)
Record frag_held (f : Z -> pbuf) (g : frag) : Prop := {
  fh_chain : chain f (f_p g) g.(f_l);
  fh_ne : g.(f_l) <> [];
  fh_ref : Forall (fun a => (f a).(ref) = 1 /\ not_custom (f a)) g.(f_l);
  fh_block : f_p g <= ha f g /\ ha f g + IP_HLEN <= f_p g + sz (f_p g) }.

Lemma held_nodup m f l bs : owns m (held f sz l ++ bs) -> NoDup l.
Proof.
  intros Ho. pose proof (owns_apart _ _ Ho) as Hap. pose proof (owns_sane _ _ Ho) as Hs. clear Ho.
  induction l as [|a l IH]; [constructor|]. cbn [held map app] in *.
  apply Forall_cons_iff in Hs. destruct Hs as [Ha Hs]. inversion Hap as [|? ? Hall Hrest]; subst.
  constructor; [|now apply IH]. intros Hin. rewrite Forall_forall in Hall, Hs.
  set (b := mkBlk (origin_of (type (f a))) a (sz a)).
  assert (Hb : In b (map (fun a => mkBlk (origin_of (type (f a))) a (sz a)) l ++ bs)) by (apply in_app_iff; left; apply in_map_iff; now exists a).
  destruct (Hall b Hb); cbn in *; lia.
Qed.

Lemma held_app f l r : held f sz (l ++ r) = held f sz l ++ held f sz r.
Proof. apply map_app. Qed.

(** The bytes of two held pbufs are apart. *)
Lemma held_apart m f l bs a b x : owns m (held f sz l ++ bs) -> In a l -> In b l -> a <> b ->
  a <= x < a + sz a -> ~ b <= x < b + sz b.
Proof.
  intros Ho Ha Hb Hne Hx Hy. pose proof (owns_apart _ _ Ho) as Hap. apply ForallOrdPairs_app_inv in Hap. destruct Hap as [Hap _].
  set (blk_of := fun a => mkBlk (origin_of (type (f a))) a (sz a)).
  destruct (ForallOrdPairs_In Hap (blk_of a) (blk_of b) (in_map blk_of _ _ Ha) (in_map blk_of _ _ Hb)) as [E|[H|H]].
  - injection E. contradiction.
  - destruct H; cbn in *; lia.
  - destruct H; cbn in *; lia.
Qed.

(** Fragments are as before when their structs are, and linked as before when
    their blocks are. *)
Lemma frag_held_ext f f' g : (forall a, In a g.(f_l) -> f' a = f a) -> frag_held f g -> frag_held f' g /\ ha f' g = ha f g.
Proof.
  intros Hin [Hc Hne Hr Hb].
  assert (Hha : ha f' g = ha f g) by (unfold ha; rewrite Hin; [reflexivity|rewrite (f_l_cons g Hne); now left]).
  split; [|assumption]. constructor; [|assumption| |now rewrite Hha].
  - apply (chain_ext f); [|assumption]. intros a Ha. now rewrite Hin.
  - rewrite Forall_forall in *. intros a Ha. rewrite Hin by assumption. now apply Hr.
Qed.

Lemma frags_ext f f' d d' q : (forall a, In a (pbufs q) -> f' a = f a) ->
  (forall a x, In a (pbufs q) -> a <= x < a + sz a -> d' x = d x) ->
  Forall (frag_held f) q -> queue f d q -> Forall (frag_held f') q /\ queue f' d' q.
Proof.
  intros Hf Hd Hh Hq. rewrite Forall_forall in Hh.
  assert (He : forall g, In g q -> frag_held f' g /\ ha f' g = ha f g).
  { intros g Hg. apply frag_held_ext; [|now apply Hh]. intros a Ha. now apply Hf, (pbufs_In q g). }
  split; [apply Forall_forall; intros g Hg; now apply He|].
  apply (queue_structs f f'); [intros g Hg; now apply He|]. apply (queue_ext f d); [|assumption].
  intros g x Hg Hx. destruct (Hh g Hg) as [_ Hne _ Hb].
  apply (Hd (f_p g)); [apply (pbufs_In q g); [assumption|rewrite (f_l_cons g Hne); now left]|]. unfold IP_HLEN in Hb. lia.
Qed.

(** ** Freeing queued fragments *)

(** [pbuf_free] on a fragment. *)
Lemma free_frag s g bs : let f := s.(pm).(structs) in frag_held f g -> owns s.(pm).(mm) (held f sz g.(f_l) ++ bs) ->
  Z.of_nat (length g.(f_l)) < 65536 ->
  exists m', free NOASSERT custom_free_function (f_p g) s = Ok (tt, s <| pm := m' |>) /\ owns m'.(mm) bs /\ m'.(data) = s.(pm).(data) /\
    forall a, ~ In a g.(f_l) -> m'.(structs) a = f a.
Proof.
  intros f [Hc Hne Hr _] Ho Hlen. pose proof (held_nodup _ _ _ _ Ho) as Hnd.
  destruct (free_loop_spec NOASSERT custom_free_function (fun _ => true) sz bs [] (f_l g) loop_fuel (f_p g) 0 (pm s)) as (m' & E & Ho' & Hd & Hs).
  - now rewrite app_nil_r.
  - now rewrite app_nil_r.
  - exact Hr.
  - exact I.
  - exact Ho.
  - unfold loop_fuel. lia.
  - lia.
  - exists m'. split; [|split; [exact Ho'|split; [exact Hd|exact Hs]]].
    unfold free. rewrite (reass_pb _ _ s (u8 (0 + Z.of_nat (length (f_l g)))) m'); [reflexivity|].
    unfold pbuf_free. rewrite (f_l_cons g Hne) in Hc. destruct Hc as (_ & Hp & _). now rewrite (proj2 (Z.eqb_neq _ _) Hp).
Qed.

Lemma clen_frag s g : frag_held s.(pm).(structs) g -> Z.of_nat (length g.(f_l)) < 65536 ->
  clen (f_p g) s = Ok (Z.of_nat (length g.(f_l)), s).
Proof.
  intros Hg Hlen. unfold clen, pb, pbuf_clen.
  rewrite (clen_loop_spec (pm s) (f_l g)) by (apply Hg || lia || (unfold loop_fuel; lia)). now destruct s.
Qed.

Lemma free_fragments_spec q : forall fuel freed s bs, let f := s.(pm).(structs) in let n := Z.of_nat (length (pbufs q)) in
  Forall (frag_held f) q -> queue f s.(pm).(data) q -> owns s.(pm).(mm) (held f sz (pbufs q) ++ bs) ->
  0 <= freed -> freed + n < 65536 -> (length q < fuel)%nat ->
  exists m', free_fragments NOASSERT custom_free_function fuel (nxt q) freed s = Ok (freed + n, s <| pm := m' |>) /\
    owns m'.(mm) bs /\ m'.(data) = s.(pm).(data) /\ forall a, ~ In a (pbufs q) -> m'.(structs) a = f a.
Proof.
  induction q as [|g q IH]; intros fuel freed s bs f n Hh Hq Ho Hf0 Hn Hfu; (destruct fuel as [|fuel]; [lia|]); cbn [free_fragments nxt].
  - exists (pm s). unfold n. cbn. rewrite Z.add_0_r. split; [now destruct s|]. now split.
  - subst n. unfold pbufs in Hn, Ho |- *. cbn [map concat] in Hn, Ho |- *. fold (pbufs q) in Hn, Ho |- *. rewrite length_app in Hn |- *.
    apply Forall_cons_iff in Hh. destruct Hh as [Hg Hh]. destruct Hq as (Hok & Hgh & Hq). rewrite (proj2 (Z.eqb_neq _ _) (proj1 Hok)).
    unfold payload_of, helper. rewrite !bind_gets. fold f. fold (ha f g). rewrite Hgh. cbn [next_pbuf].
    rewrite (bind_ok _ _ _ _ _ (clen_frag s g Hg ltac:(lia))), reass_assert_ok by (apply Z.leb_le; lia).
    pose proof (held_nodup _ _ _ _ Ho) as Hnd. rewrite held_app, <- app_assoc in Ho.
    destruct (free_frag s g _ Hg Ho ltac:(lia)) as (m1 & E1 & Ho1 & Hd1 & Hs1). rewrite (bind_ok _ _ _ _ _ E1).
    rewrite (u16_id (freed + _)) by word_lia.
    assert (Hsq : forall a, In a (pbufs q) -> structs m1 a = f a) by (intros a Ha; apply Hs1; intros Hin; exact (NoDup_app_disjoint _ _ a Hnd Hin Ha)).
    destruct (frags_ext f (structs m1) (data (pm s)) (data m1) q) as (Hh1 & Hq1); try assumption.
    + intros a x _ _. now rewrite Hd1.
    + destruct (IH fuel (freed + Z.of_nat (length (f_l g))) (s <| pm := m1 |>) bs) as (m2 & E2 & Ho2 & Hd2 & Hs2);
        [exact Hh1|exact Hq1|cbn [pm with_field]; rewrite (held_ext f) by (intros a Ha; now rewrite Hsq); exact Ho1|lia|lia|cbn in Hfu; lia|].
      exists m2. rewrite E2. split; [do 2 f_equal; lia|]. split; [assumption|]. split; [cbn in Hd2; congruence|].
      intros a Ha. rewrite in_app_iff in Ha. rewrite Hs2 by tauto. cbn [pm with_field]. apply Hs1. tauto.
Qed.

(** ** Dropping a datagram *)

(** A held pbuf and another outstanding block. *)
Lemma held_rest m f l rest a b : owns m (held f sz l ++ rest) -> In a l -> In b rest ->
  a <> b.(b_addr) /\ forall x, a <= x < a + sz a -> ~ b.(b_addr) <= x < b.(b_addr) + b.(b_size).
Proof.
  intros Ho Ha Hb. pose proof (owns_sane _ _ Ho) as Hs. pose proof (owns_apart _ _ Ho) as Hap.
  apply ForallOrdPairs_app_inv in Hap. destruct Hap as (_ & _ & Hx).
  specialize (Hx (mkBlk (origin_of (type (f a))) a (sz a)) b (in_map (fun a => mkBlk (origin_of (type (f a))) a (sz a)) _ _ Ha) Hb).
  rewrite Forall_forall in Hs. specialize (Hs b (proj2 (in_app_iff _ _ _) (or_intror Hb))) as Hsb.
  specialize (Hs (mkBlk (origin_of (type (f a))) a (sz a))). cbn in Hs.
  assert (0 < sz a) by (apply Hs, in_app_iff; left; apply in_map_iff; now exists a).
  destruct Hx; cbn in *; split; lia.
Qed.

(** What the other outstanding blocks hold is left alone. *)
Definition leaves (rest : list blk) (m m' : pst) : Prop := forall b, In b rest ->
  m'.(structs) b.(b_addr) = m.(structs) b.(b_addr) /\
  forall x, b.(b_addr) <= x < b.(b_addr) + b.(b_size) -> m'.(data) x = m.(data) x.

(** [r1] are the fragments of the queue that are still to free. *)
Record freeing (s s1 : rst) (L1 : list ip_reassdata) (e1 : ip_reassdata) (L2 : list ip_reassdata) (r1 : list frag) (rest : list blk) : Prop := {
  fr_list : s1.(reassdatagrams) = L1 ++ e1 :: L2;
  fr_p : e1.(rd_p) = nxt r1;
  fr_held : Forall (frag_held s1.(pm).(structs)) r1;
  fr_queue : queue s1.(pm).(structs) s1.(pm).(data) r1;
  fr_owns : owns s1.(pm).(mm) (held s1.(pm).(structs) sz (pbufs r1) ++ rest);
  fr_leaves : leaves rest s.(pm) s1.(pm);
  fr_count : s1.(ip_reass_pbufcount) = s.(ip_reass_pbufcount);
  fr_avail : s1.(reass_avail) = s.(reass_avail) }.

Lemma reass_outside {A B} (m : M (pst * Env) A) (k : A -> RM B) s a m' e' : m (s.(pm), s.(env)) = Ok (a, (m', e')) ->
  bind (outside m) k s = k a (s <| pm := m' |> <| env := e' |>).
Proof. intros E. unfold bind, outside. now rewrite E. Qed.

(** The header is put back into the first fragment and the message is sent. *)
Lemma sent_back m ev hdr g r rest : icmp_sends -> length hdr = 20%nat -> let f := m.(structs) in
  Forall (frag_held f) (g :: r) -> queue f m.(data) r -> owns m.(mm) (held f sz (pbufs (g :: r)) ++ rest) ->
  exists m2 ev2, icmp_time_exceeded (f_p g) (m <| data := store_list (ha f g) hdr m.(data) |>, ev) = Ok (tt, (m2, ev2)) /\
    Forall (frag_held m2.(structs)) (g :: r) /\ queue m2.(structs) m2.(data) r /\
    owns m2.(mm) (held m2.(structs) sz (pbufs (g :: r)) ++ rest) /\ leaves rest m m2.
Proof.
  intros Hicmp Hh f Hhe Hq Ho. apply Forall_cons_iff in Hhe as Hhe'. destruct Hhe' as [[_ Hne _ Hblk] Hhr].
  assert (Hpb : pbufs (g :: r) = f_l g ++ pbufs r) by reflexivity. set (bs := held f sz (pbufs (g :: r)) ++ rest) in *.
  set (m1 := m <| data := store_list (ha f g) hdr (data m) |>). destruct (Hicmp (f_p g) m1 ev bs Ho) as (m2 & ev2 & E2 & Ho2 & Hs2 & Hd2).
  exists m2, ev2. split; [exact E2|]. change (structs m1) with f in Hs2. change (data m1) with (store_list (ha f g) hdr (data m)) in Hd2.
  assert (Hgin : In (f_p g) (pbufs (g :: r))) by (rewrite Hpb, (f_l_cons g Hne); now left).
  assert (Hin : forall a, In a (pbufs (g :: r)) -> In (mkBlk (origin_of (type (f a))) a (sz a)) bs)
    by (intros a Ha; apply in_app_iff; left; apply in_map_iff; now exists a).
  assert (Hsa : forall a, In a (pbufs (g :: r)) -> structs m2 a = f a) by (intros a Ha; exact (Hs2 _ (Hin a Ha))).
  assert (Hd1 : forall x, ~ f_p g <= x < f_p g + sz (f_p g) -> store_list (ha f g) hdr (data m) x = data m x)
    by (intros x Hx; apply store_other; rewrite Hh; unfold IP_HLEN in Hblk; lia).
  pose proof (held_nodup _ _ _ _ Ho) as Hnd.
  split; [|split; [|split]].
  - rewrite Forall_forall in *. intros h Hh'. apply (frag_held_ext f); [|now apply Hhe]. intros a Ha. now apply Hsa, (pbufs_In (g :: r) h).
  - apply (frags_ext f (structs m2) (data m) (data m2) r); try assumption.
    + intros a Ha. apply Hsa. rewrite Hpb. apply in_app_iff. now right.
    + intros a x Ha Hx. assert (Ha' : In a (pbufs (g :: r))) by (rewrite Hpb; apply in_app_iff; now right).
      rewrite (Hd2 _ x (Hin a Ha') Hx). apply Hd1. refine (held_apart _ _ _ _ _ _ x Ho Ha' Hgin _ Hx).
      intros ->. rewrite Hpb in Hnd. apply (NoDup_app_disjoint _ _ (f_p g) Hnd); [rewrite (f_l_cons g Hne); now left|assumption].
  - rewrite (held_ext f) by (intros a Ha; now rewrite Hsa). exact Ho2.
  - intros b Hb. destruct (held_rest _ _ _ _ _ b Ho Hgin Hb) as [_ Hx]. assert (Hb' : In b bs) by (apply in_app_iff; now right).
    split; [now apply Hs2|]. intros x Hxb. rewrite (Hd2 b x Hb' Hxb). apply Hd1. intros Hin'. exact (Hx x Hin' Hxb).
Qed.

Lemma leaves_trans rest m m1 m2 : leaves rest m m1 -> leaves rest m1 m2 -> leaves rest m m2.
Proof. intros H1 H2 b Hb. destruct (H1 b Hb) as [E1 Hx], (H2 b Hb) as [E2 Hy]. split; [congruence|]. intros x Hxb. now rewrite Hy, Hx. Qed.

(** Freeing held pbufs [l] touches no other block. *)
Lemma freed_leaves m m' l rest : owns m.(mm) (held m.(structs) sz l ++ rest) -> m'.(data) = m.(data) ->
  (forall a, ~ In a l -> m'.(structs) a = m.(structs) a) -> leaves rest m m'.
Proof.
  intros Ho Hd Hs b Hb. split; [|now rewrite Hd]. apply Hs. intros Hin. now destruct (held_rest _ _ _ _ _ b Ho Hin Hb).
Qed.

Lemma free_first_spec s L1 e L2 g r rest : icmp_sends -> length e.(iphdr) = 20%nat ->
  freeing s s L1 e L2 (g :: r) rest -> Z.of_nat (length (pbufs (g :: r))) < 65536 ->
  exists s1 e1 r1, free_first NOASSERT custom_free_function icmp_time_exceeded (length L1) s =
      Ok (Z.of_nat (length (pbufs (g :: r))) - Z.of_nat (length (pbufs r1)), s1) /\
    freeing s s1 L1 e1 L2 r1 rest /\ (length r1 <= S (length r))%nat /\ (length (pbufs r1) <= length (pbufs (g :: r)))%nat.
Proof.
  intros Hicmp Hh Hfr Hn. pose proof Hfr as [Hl Hp Hhe Hq Ho _ _ _]. unfold free_first. rewrite (bind_entry _ _ _ _ _ Hl), Hp. cbn [nxt].
  set (f := structs (pm s)) in *. pose proof Hq as (Hok & Hgh & Hqr).
  unfold payload_of, helper. rewrite !bind_gets. fold f. fold (ha f g). rewrite Hgh. cbn [h_start next_pbuf].
  destruct (f_start g =? 0).
  2:{ exists s, e, (g :: r). split; [unfold ret; do 2 f_equal; lia|]. split; [assumption|cbn; lia]. }
  rewrite (bind_ok _ _ _ _ _ (set_entry_eq _ _ _ _ _ Hl)). unfold store. rewrite bind_modify.
  set (s0 := s <| reassdatagrams := _ |>). destruct (sent_back (pm s) (env s) (iphdr e) g r rest Hicmp Hh Hhe Hqr Ho) as (m2 & ev2 & E2 & Hh2 & Hq2 & Ho2 & Hlv).
  match goal with |- context [bind (outside (icmp_time_exceeded _)) ?k ?st] => set (s1 := st); rewrite (reass_outside _ k s1 tt m2 ev2 E2) end.
  set (s2 := s1 <| pm := m2 |> <| env := ev2 |>). assert (Hpb : pbufs (g :: r) = f_l g ++ pbufs r) by reflexivity. rewrite Hpb, length_app in Hn.
  apply Forall_cons_iff in Hh2. destruct Hh2 as [Hg2 Hh2]. rewrite Hpb, held_app, <- app_assoc in Ho2.
  rewrite (bind_ok _ _ _ _ _ (clen_frag s2 g Hg2 ltac:(lia))), reass_assert_ok by (apply Z.leb_le; lia).
  destruct (free_frag s2 g _ Hg2 Ho2 ltac:(lia)) as (m3 & E3 & Ho3 & Hd3 & Hs3). rewrite (bind_ok _ _ _ _ _ E3).
  change (structs (pm s2)) with (structs m2) in Hs3. change (data (pm s2)) with (data m2) in Hd3.
  rewrite app_assoc, <- held_app in Ho2. pose proof (held_nodup _ _ _ _ Ho2) as Hnd.
  assert (Hsr : forall a, In a (pbufs r) -> structs m3 a = structs m2 a)
    by (intros a Ha; apply Hs3; intros Hin; exact (NoDup_app_disjoint _ _ a Hnd Hin Ha)).
  destruct (frags_ext (structs m2) (structs m3) (data m2) (data m3) r Hsr) as (Hh3 & Hq3); [intros a x _ _; now rewrite Hd3|assumption|assumption|].
  exists (s2 <| pm := m3 |>), (e <| rd_p := nxt r |>), r. split.
  { unfold ret. do 2 f_equal. rewrite u16_id, Hpb, length_app by word_lia. lia. }
  split; [|rewrite Hpb, length_app; lia]. constructor; try assumption; try reflexivity; cbn [pm with_field].
  - rewrite (held_ext (structs m2)) by (intros a Ha; now rewrite Hsr). exact Ho3.
  - apply (leaves_trans rest _ m2); [assumption|]. apply (freed_leaves m2 m3 (f_l g ++ pbufs r)); [assumption|assumption|].
    intros a Ha. apply Hs3. rewrite in_app_iff in Ha. tauto.
Qed.

(** The datagrams that wait for fragments: each struct with its queue. *)
Definition entries := list (ip_reassdata * list frag).
Definition queued (es : entries) : list frag := concat (map snd es).

Record waiting (s : rst) (es : entries) (bs : list blk) : Prop := {
  wa_list : s.(reassdatagrams) = map fst es;
  wa_entry : Forall (fun x => (fst x).(rd_p) = nxt (snd x) /\ snd x <> [] /\ length (fst x).(iphdr) = 20%nat /\
               queue s.(pm).(structs) s.(pm).(data) (snd x)) es;
  wa_held : Forall (frag_held s.(pm).(structs)) (queued es);
  wa_owns : owns s.(pm).(mm) (held s.(pm).(structs) sz (pbufs (queued es)) ++ bs);
  wa_count : s.(ip_reass_pbufcount) = Z.of_nat (length (pbufs (queued es)));
  wa_u16 : s.(ip_reass_pbufcount) < 65536 }.

Lemma queued_app l r : queued (l ++ r) = queued l ++ queued r.
Proof. unfold queued. now rewrite map_app, concat_app. Qed.

Lemma pbufs_perm q q' : Permutation q q' -> Permutation (pbufs q) (pbufs q').
Proof. intros HP. unfold pbufs. rewrite <- !flat_map_concat_map. now apply Permutation_flat_map. Qed.

Lemma frags_count f q : Forall (frag_held f) q -> (length q <= length (pbufs q))%nat.
Proof.
  induction 1 as [|g q Hg _ IH]; [cbn; lia|]. unfold pbufs in *. cbn [map concat length]. rewrite length_app.
  pose proof (fh_ne _ _ Hg). destruct (f_l g); [contradiction|]. cbn [length]. lia.
Qed.

(** The datagrams whose blocks are left alone still wait. *)
Lemma others_wait s s' es bs : let f := s.(pm).(structs) in
  Forall (fun x => (fst x).(rd_p) = nxt (snd x) /\ snd x <> [] /\ length (fst x).(iphdr) = 20%nat /\
    queue f s.(pm).(data) (snd x)) es -> Forall (frag_held f) (queued es) ->
  leaves (held f sz (pbufs (queued es)) ++ bs) s.(pm) s'.(pm) -> owns s'.(pm).(mm) (held f sz (pbufs (queued es)) ++ bs) ->
  s'.(reassdatagrams) = map fst es -> s'.(ip_reass_pbufcount) = Z.of_nat (length (pbufs (queued es))) -> s'.(ip_reass_pbufcount) < 65536 ->
  waiting s' es bs.
Proof.
  intros f He Hh Hlv Ho Hl Hc Hu.
  assert (Hb : forall a, In a (pbufs (queued es)) -> structs (pm s') a = f a /\ forall x, a <= x < a + sz a -> data (pm s') x = data (pm s) x).
  { intros a Ha. apply (Hlv (mkBlk (origin_of (type (f a))) a (sz a))). apply in_app_iff. left. apply in_map_iff. now exists a. }
  constructor; try assumption.
  - rewrite Forall_forall in *. intros x Hx. destruct (He x Hx) as (H1 & H2 & H3 & H4). repeat (split; [assumption|]).
    assert (Hin : forall g, In g (snd x) -> In g (queued es)) by (intros g Hg; apply in_concat; exists (snd x); split; [now apply in_map|assumption]).
    assert (Hsub : forall a, In a (pbufs (snd x)) -> In a (pbufs (queued es))).
    { intros a Ha. apply in_concat in Ha. destruct Ha as (l & Hl' & Ha). apply in_map_iff in Hl'. destruct Hl' as (g & <- & Hg). apply (pbufs_In _ g); [now apply Hin|assumption]. }
    apply (frags_ext f (structs (pm s')) (data (pm s)) (data (pm s')) (snd x)); [|intros a y Ha; now apply Hb, Hsub| |assumption].
    + intros a Ha. now apply Hb, Hsub.
    + apply Forall_forall. intros g Hg. now apply Hh, Hin.
  - rewrite Forall_forall in *. intros g Hg. apply (frag_held_ext f); [|now apply Hh]. intros a Ha. now apply Hb, (pbufs_In _ g).
  - rewrite (held_ext f) by (intros a Ha; now rewrite (proj1 (Hb a Ha))). exact Ho.
Qed.

Lemma free_complete_spec s l1 e q l2 bs : icmp_sends -> waiting s (l1 ++ (e, q) :: l2) bs ->
  exists s', ip_reass_free_complete_datagram NOASSERT custom_free_function icmp_time_exceeded (length l1) s =
      Ok (Z.of_nat (length (pbufs q)), s') /\
    waiting s' (l1 ++ l2) bs /\ s'.(reass_avail) = S s.(reass_avail).
Proof.
  intros Hicmp [Hl He Hh Ho Hc Hu]. set (f := structs (pm s)) in *. set (rest := held f sz (pbufs (queued (l1 ++ l2))) ++ bs).
  assert (HP : Permutation (pbufs (queued (l1 ++ (e, q) :: l2))) (pbufs q ++ pbufs (queued (l1 ++ l2)))).
  { rewrite <- pbufs_app. apply pbufs_perm. rewrite !queued_app. change (queued ((e, q) :: l2)) with (q ++ queued l2).
    rewrite !app_assoc. apply Permutation_app_tail, Permutation_app_comm. }
  pose proof (Permutation_length HP) as HPl. rewrite length_app in HPl.
  assert (Ho' : owns (mm (pm s)) (held f sz (pbufs q) ++ rest)).
  { unfold rest. rewrite app_assoc, <- held_app. eapply owns_perm; [|exact Ho]. apply Permutation_app_tail, Permutation_map, HP. }
  apply Forall_app in He. destruct He as [He1 He2]. apply Forall_cons_iff in He2. destruct He2 as [(Hp & Hne & Hih & Hq) He2]. cbn [fst snd] in *.
  rewrite queued_app in Hh. change (queued ((e, q) :: l2)) with (q ++ queued l2) in Hh.
  apply Forall_app in Hh. destruct Hh as [Hh1 Hh2]. apply Forall_app in Hh2. destruct Hh2 as [Hhq Hh2].
  destruct q as [|g r]; [contradiction|]. rewrite map_app in Hl. cbn [map fst] in Hl.
  assert (Hfr : freeing s s (map fst l1) e (map fst l2) (g :: r) rest) by (constructor; try assumption; try reflexivity; now intros b _).
  destruct (free_first_spec s _ e _ g r rest Hicmp Hih Hfr ltac:(lia)) as (s1 & e1 & r1 & E1 & [Il Ip Ih Iq Io Iv Ic Ia] & Hlen1 & Hpb1).
  rewrite length_map in E1. unfold ip_reass_free_complete_datagram. rewrite (bind_ok _ _ _ _ _ E1).
  rewrite <- (length_map fst l1), (bind_entry _ _ _ _ _ Il), Ip.
  pose proof (frags_count _ _ Ih) as Hfc.
  destruct (free_fragments_spec r1 loop_fuel (Z.of_nat (length (pbufs (g :: r))) - Z.of_nat (length (pbufs r1))) s1 rest) as (m2 & E2 & Ho2 & Hd2 & Hs2);
    [assumption|assumption|assumption|lia|lia|unfold loop_fuel; lia|].
  rewrite (bind_ok _ _ _ _ _ E2). unfold ip_reass_dequeue_datagram, set_pbufcount. rewrite bind_modify, bind_gets.
  cbn [ip_reass_pbufcount with_field]. rewrite Ic, reass_assert_ok by (apply Z.geb_le; lia). rewrite bind_modify.
  eexists. split; [unfold ret; do 2 f_equal; lia|]. cbn [reass_avail with_field]. rewrite Ia. split; [|reflexivity].
  apply (others_wait s); cbn [pm reassdatagrams ip_reass_pbufcount with_field].
  - apply Forall_app. now split.
  - rewrite queued_app. apply Forall_app. now split.
  - apply (leaves_trans _ _ (pm s1)); [exact Iv|]. now apply (freed_leaves _ _ (pbufs r1)).
  - exact Ho2.
  - rewrite Il, remove_at_middle. now rewrite map_app.
  - rewrite u16_id by word_lia. lia.
  - rewrite u16_id by word_lia. lia.
Qed.

(** ** A call of the timer *)

Definition aged (e : ip_reassdata) : ip_reassdata := e <| timer := e.(timer) - 1 |>.
Definition live (e : ip_reassdata) : bool := e.(timer) >? 0.

(** What one call leaves: the datagrams whose timer is not 0, one second older. *)
Definition survivors (es : entries) : entries :=
  map (fun x => (aged (fst x), snd x)) (filter (fun x => live (fst x)) es).

Lemma waiting_entry s l1 e e' q l2 bs : waiting s (l1 ++ (e, q) :: l2) bs -> e'.(rd_p) = e.(rd_p) -> e'.(iphdr) = e.(iphdr) ->
  waiting (s <| reassdatagrams := map fst l1 ++ e' :: map fst l2 |>) (l1 ++ (e', q) :: l2) bs.
Proof.
  intros [Hl He Hh Ho Hc Hu] Hp Hi.
  assert (Hq : queued (l1 ++ (e', q) :: l2) = queued (l1 ++ (e, q) :: l2)) by now rewrite !queued_app.
  constructor; cbn [pm reassdatagrams ip_reass_pbufcount with_field]; rewrite ?Hq; try assumption.
  - now rewrite map_app.
  - apply Forall_app in He. destruct He as [H1 H2]. apply Forall_app. split; [assumption|]. apply Forall_cons_iff in H2. destruct H2 as [H2 H3].
    constructor; [|assumption]. cbn [fst snd] in *. now rewrite Hp, Hi.
Qed.

Lemma tmr_loop_spec l2 : forall fuel l1 s bs, icmp_sends -> waiting s (l1 ++ l2) bs ->
  Forall (fun x => 0 <= (fst x).(timer) < 256) l2 -> (length l2 <= fuel)%nat ->
  exists s', tmr_loop NOASSERT custom_free_function icmp_time_exceeded fuel (length l1) s = Ok (tt, s') /\
    waiting s' (l1 ++ survivors l2) bs /\
    (s'.(reass_avail) + length (survivors l2) = s.(reass_avail) + length l2)%nat.
Proof.
  induction l2 as [|[e q] l2 IH]; intros fuel l1 s bs Hicmp Hw Ht Hfu.
  - exists s. rewrite app_nil_r in Hw. unfold survivors. cbn [filter map length]. rewrite app_nil_r. split; [|now split].
    destruct fuel; cbn [tmr_loop]; rewrite bind_gets, (wa_list _ _ _ Hw), (proj2 (nth_error_None _ _)) by (rewrite length_map; lia); reflexivity.
  - cbn [length] in Hfu. destruct fuel as [|fuel]; [lia|]. apply Forall_cons_iff in Ht. destruct Ht as [He Ht]. cbn [fst] in He.
    pose proof (wa_list _ _ _ Hw) as Hl. rewrite map_app in Hl. cbn [map fst] in Hl. cbn [tmr_loop]. rewrite bind_gets, Hl.
    rewrite <- (length_map fst l1), nth_error_middle. unfold survivors. cbn [filter fst]. fold (live e). destruct (live e) eqn:Elive.
    + unfold live in Elive. rewrite (bind_ok _ _ _ _ _ (set_entry_eq _ _ _ _ _ Hl)).
      replace (u8 (timer e - 1)) with (timer e - 1) by (symmetry; apply u8_id; unfold is_u8; apply Z.gtb_lt in Elive; lia).
      fold (aged e). pose proof (waiting_entry _ _ _ (aged e) _ _ _ Hw eq_refl eq_refl) as Hw'.
      replace (S (length (map fst l1))) with (length (l1 ++ [(aged e, q)])) by (rewrite length_app, length_map; cbn; lia).
      replace (l1 ++ (aged e, q) :: l2) with ((l1 ++ [(aged e, q)]) ++ l2) in Hw' by now rewrite <- app_assoc.
      destruct (IH fuel (l1 ++ [(aged e, q)]) _ bs Hicmp Hw' Ht ltac:(lia)) as (s' & E & Hws & Ha). exists s'. split; [exact E|].
      cbn [map fst snd length]. rewrite <- app_assoc in Hws. split; [exact Hws|]. cbn [reass_avail with_field] in Ha.
      unfold survivors in Ha. lia.
    + rewrite length_map. destruct (free_complete_spec s l1 e q l2 bs Hicmp Hw) as (s1 & E1 & Hw1 & Ha1). rewrite (bind_ok _ _ _ _ _ E1).
      destruct (IH fuel l1 s1 bs Hicmp Hw1 Ht ltac:(lia)) as (s' & E & Hws & Ha). exists s'. split; [exact E|]. split; [exact Hws|].
      unfold survivors in Ha. cbn [length]. lia.
Qed.

Lemma tmr_spec s es bs : icmp_sends -> waiting s es bs -> Forall (fun x => 0 <= (fst x).(timer) < 256) es ->
  exists s', ip_reass_tmr NOASSERT custom_free_function icmp_time_exceeded s = Ok (tt, s') /\ waiting s' (survivors es) bs /\
    (s'.(reass_avail) + length (survivors es) = s.(reass_avail) + length es)%nat.
Proof.
  intros Hicmp Hw Ht. unfold ip_reass_tmr. rewrite bind_gets, (wa_list _ _ _ Hw), length_map.
  apply (tmr_loop_spec es (length es) [] s bs Hicmp Hw Ht). lia.
Qed.

(** [n] calls of the timer and no fragment in between. *)
Fixpoint ticks (n : nat) : @RM PMem Sur unit :=
  match n with
  | O => ret tt
  | S n => ip_reass_tmr NOASSERT custom_free_function icmp_time_exceeded ;; ticks n
  end.

Lemma survivors_timer n es : Forall (fun x => 0 <= (fst x).(timer) < n + 1) es -> Forall (fun x => 0 <= (fst x).(timer) < n) (survivors es).
Proof.
  unfold survivors. induction 1 as [|x es Hx _ IH]; cbn [filter map]; [constructor|]. destruct (live (fst x)) eqn:E; [|assumption].
  constructor; [|assumption]. unfold live in E. apply Z.gtb_lt in E. cbn. lia.
Qed.

(** C24: no datagram is kept forever.  Whatever incomplete datagrams are queued,
    IP_REASS_MAXAGE + 1 calls of [ip_reass_tmr] without a new fragment drop them
    all: the list is empty, all pbufs of the fragments went back to where they
    came from, the count of queued pbufs is 0 and the structs are back in their
    pool. *)
Theorem ip_reass_tmr_drains s es bs : icmp_sends -> waiting s es bs ->
  Forall (fun x => 0 <= (fst x).(timer) <= IP_REASS_MAXAGE) es ->
  exists s', ticks (S (Z.to_nat IP_REASS_MAXAGE)) s = Ok (tt, s') /\
    s'.(reassdatagrams) = [] /\ s'.(ip_reass_pbufcount) = 0 /\ owns s'.(pm).(mm) bs /\
    s'.(reass_avail) = (s.(reass_avail) + length es)%nat.
Proof.
  intros Hicmp.
  assert (Hn : forall n s es, Z.of_nat n < 256 -> waiting s es bs -> Forall (fun x => 0 <= (fst x).(timer) < Z.of_nat n) es ->
    exists s', ticks n s = Ok (tt, s') /\ waiting s' [] bs /\ (s'.(reass_avail) = s.(reass_avail) + length es)%nat).
  { clear s es. induction n as [|n IH]; intros s es Hn Hw Ht.
    - exists s. destruct es as [|x es]; [split; [reflexivity|]; split; [assumption|cbn; lia]|]. apply Forall_inv in Ht. lia.
    - cbn [ticks]. destruct (tmr_spec s es bs Hicmp Hw) as (s1 & E1 & Hw1 & Ha1); [eapply Forall_impl; [|exact Ht]; cbn beta; intros x Hx; lia|].
      rewrite (bind_ok _ _ _ _ _ E1). destruct (IH s1 (survivors es) ltac:(lia) Hw1) as (s2 & E2 & Hw2 & Ha2).
      { apply survivors_timer. eapply Forall_impl; [|exact Ht]. cbn beta. intros x Hx. lia. }
      exists s2. split; [exact E2|]. split; [assumption|]. lia. }
  intros Hw Ht. destruct (Hn (S (Z.to_nat IP_REASS_MAXAGE)) s es) as (s' & E & [Hl _ _ Ho Hc _] & Ha); [reflexivity|assumption| |].
  - eapply Forall_impl; [|exact Ht]. cbn beta. unfold IP_REASS_MAXAGE. intros x Hx. cbn. lia.
  - exists s'. split; [exact E|]. now repeat split.
Qed.
End Tmr.

(** A packet of two pool pbufs is the only fragment of a datagram. *)
Lemma ip_reass_tmr_drains_witness : exists p q (s s' : @rst mem0 nothing_else), s.(ip_reass_pbufcount) = 2 /\
  (s.(pm).(structs) p).(next) = q /\ q <> 0 /\
  ticks false (fun _ => ret tt) no_message 4 s = Ok (tt, s') /\
  s'.(reassdatagrams) = [] /\ board_owns la0 s'.(pm).(mm) [].
Proof.
  destruct two_pbufs as (p & q & m & Hpq & [Hc _ Hl Hp Ho] & E0).
  assert (Ht : match @alloc_pool mem0 false (fun _ => ret tt) (fun _ => true) 14 1000 pst0
    with Ok (a, t) => (a <? 4294967296) && (IP_HLEN <=? (structs t a).(len)) | _ => false end = true) by (vm_compute; reflexivity).
  rewrite E0 in Ht. apply andb_prop in Ht. destruct Ht as [Ht1 Ht2]. apply Z.ltb_lt in Ht1. apply Z.leb_le in Ht2.
  set (g := mkFrag [p; q] 0 980). set (d := new_helper (structs m) g [] (data m)).
  set (e := mkRd p (repeat 0 20) 0 0 IP_REASS_MAXAGE).
  set (s := @mkRst mem0 nothing_else (m <| data := d |>) [e] 2 4 (mkStats 0 0 0 0 0) tt).
  assert (Hpos : 0 < p) by (pose proof (owns_sane _ _ Ho) as Hs; apply Forall_inv in Hs; cbn in Hs; lia).
  assert (Hpp : p <= ha (structs m) g /\ ha (structs m) g + IP_HLEN <= p + pool_bytes MEMP_PBUF_POOL).
  { apply Forall_inv in Hp. destruct Hp as (_ & _ & _ & H1 & H2). unfold ha, f_p. cbn [g f_l hd].
    change (pool_bytes MEMP_PBUF_POOL) with (SIZEOF_STRUCT_PBUF + PBUF_POOL_BUFSIZE_ALIGNED). change SIZEOF_STRUCT_PBUF with 16 in *. lia. }
  assert (Hh : held (structs m) (fun _ => pool_bytes MEMP_PBUF_POOL) [p; q] = @pool_blocks mem0 [p; q]).
  { change (fun _ => pool_bytes MEMP_PBUF_POOL) with (fun _ : Z => @pool_size mem0 MEMP_PBUF_POOL). now apply held_pool. }
  assert (Hw : waiting (fun _ => pool_bytes MEMP_PBUF_POOL) s [(e, [g])] []).
  { constructor; cbn [map fst snd].
    - reflexivity.
    - constructor; [|constructor]. split; [reflexivity|]. split; [discriminate|]. split; [reflexivity|].
      split; [|split; [|exact I]].
      + split; [cbn; lia|]. split; [unfold is_u32; cbn; lia|]. change (structs (pm s)) with (structs m). lia.
      + exact (new_helper_read (structs m) g [] (data m) ltac:(unfold is_u16; cbn; lia) ltac:(unfold is_u16; cbn; lia) ltac:(unfold is_u32; cbn; lia)).
    - constructor; [|constructor]. constructor; [exact Hc|discriminate| |exact Hpp].
      eapply Forall_impl; [|exact Hp]. intros a (H1 & H2 & _). now split.
    - change (pbufs (queued [(e, [g])])) with [p; q]. change (structs (pm s)) with (structs m). rewrite Hh. exact Ho.
    - reflexivity.
    - reflexivity. }
  destruct (ip_reass_tmr_drains false (fun _ => ret tt) no_message (fun _ => pool_bytes MEMP_PBUF_POOL) s [(e, [g])] []) as (s' & E & Hr & _ & Ho' & _).
  - intros p' m' [] bs Hb. exists m', tt. now repeat split.
  - exact Hw.
  - constructor; [|constructor]. cbn. unfold IP_REASS_MAXAGE. lia.
  - exists p, q, s, s'. split; [reflexivity|]. destruct Hc as (_ & _ & Hn & Hq0 & _). split; [exact Hn|]. split; [assumption|]. change (S (Z.to_nat IP_REASS_MAXAGE)) with 4%nat in E. split; [exact E|]. split; [exact Hr|exact Ho'].
Defined.
