(* ===== verification/Ip4ReassType.v ===== *)
(** * The statics of ip4_frag.c keep their types

    Whatever fragments arrive, in whatever memory, the fields of ip4_frag.c stay
    within the types the C code gives them, and no struct ip_reassdata is lost:
    the list and the pool together always have MEMP_NUM_REASSDATA of them. *)

From Stdlib Require Import ZArith List Lia Bool.
From S2P Require Import Prelude Def Chksum Mem PbufMem Pbuf PbufBoard Ip4Frag Ip4Reass.
Import ListNotations.
Open Scope Z_scope.
Open Scope c_scope.

(** [struct ip_reassdata]: the header is 20 bytes, of [flags] only LASTFRAG is
    used and the timer never grows. *)
Record rd_typed (e : ip_reassdata) : Prop := {
  rt_hdr : length e.(iphdr) = 20%nat;
  rt_len : is_u16 e.(datagram_len);
  rt_flags : e.(rd_flags) = 0 \/ e.(rd_flags) = IP_REASS_FLAG_LASTFRAG;
  rt_timer : 0 <= e.(timer) <= IP_REASS_MAXAGE }.

(** [STAT_COUNTER] is a u16_t. *)
Definition stats_typed (t : ipfrag_stats) : Prop :=
  is_u16 t.(recv) /\ is_u16 t.(drop) /\ is_u16 t.(memerr) /\ is_u16 t.(err) /\ is_u16 t.(cachehit).

Section Types.
Context {PMem : PbufMemory}.
Variable NOASSERT : bool.
Variable custom_free_function : Z -> PB unit.
Context {Sur : Surroundings}.
Variable icmp_time_exceeded : Z -> M (pst * Env) unit.

(** At least [n] datagrams are in the list. *)
Record typed (n : nat) (s : rst) : Prop := {
  ty_pool : (length s.(reassdatagrams) + s.(reass_avail) = MEMP_NUM_REASSDATA)%nat;
  ty_list : Forall rd_typed s.(reassdatagrams);
  ty_count : is_u16 s.(ip_reass_pbufcount);
  ty_stats : stats_typed s.(stats);
  ty_least : (n <= length s.(reassdatagrams))%nat }.

Lemma typed_less n n' s : (n' <= n)%nat -> typed n s -> typed n' s.
Proof. intros Hn [H1 H2 H3 H4 H5]. constructor; try assumption. lia. Qed.

(** *** The parts *)

Lemma safe_pb {A} n (m : PB A) : safe (typed n) (pb m) (fun _ => typed n).
Proof.
  intros s a s' [H1 H2 H3 H4 H5] E. unfold pb in E. destruct (m (pm s)) as [[b m']| |]; [|discriminate|discriminate].
  injection E as <- <-. now constructor.
Qed.

Lemma safe_outside {A} n (m : M (pst * Env) A) : safe (typed n) (outside m) (fun _ => typed n).
Proof.
  intros s a s' [H1 H2 H3 H4 H5] E. unfold outside in E. destruct (m _) as [[b [m' e']]| |]; [|discriminate|discriminate].
  injection E as <- <-. now constructor.
Qed.

Lemma safe_get {A} n (f : rst -> A) : safe (typed n) (gets f) (fun _ => typed n).
Proof. apply safe_gets. auto. Qed.

Lemma safe_entry n i : safe (typed n) (entry i) (fun e s => rd_typed e /\ typed (max n (S i)) s).
Proof.
  intros s e s' [H1 H2 H3 H4 H5] E. unfold entry in E. destruct (nth_error (reassdatagrams s) i) as [e'|] eqn:Ei; [|discriminate].
  injection E as <- <-. split; [rewrite Forall_forall in H2; apply H2, (nth_error_In _ _ Ei)|]. constructor; try assumption.
  assert (i < length (reassdatagrams s))%nat by (apply nth_error_Some; now rewrite Ei). lia.
Qed.

(** The struct at position [i] is replaced. *)
Lemma safe_set_at n i F : safe (fun s => typed n s /\ forall e, nth_error s.(reassdatagrams) i = Some e -> rd_typed (F e))
  (set_entry i F) (fun _ => typed n).
Proof.
  intros s a s' [Hs HF] E. destruct (nth_error (reassdatagrams s) i) as [e|] eqn:Ei.
  - specialize (HF e eq_refl). destruct (nth_error_split _ _ Ei) as (l1 & l2 & El & <-). rewrite (set_entry_eq F s l1 e l2 El) in E. injection E as <- <-.
    destruct Hs as [H1 H2 H3 H4 H5]. rewrite El in *. rewrite length_app in *. cbn [length] in *. apply Forall_app in H2. destruct H2 as [H2 H6].
    apply Forall_cons_iff in H6. constructor; cbn [reassdatagrams reass_avail ip_reass_pbufcount stats with_field]; try assumption; rewrite ?length_app; cbn [length]; try assumption.
    apply Forall_app. split; [assumption|]. constructor; [assumption|apply H6].
  - assert (s' = s) as -> by (unfold set_entry, modify in E; rewrite Ei in E; injection E as _ <-; now destruct s). exact Hs.
Qed.

Lemma safe_set_entry n i F : (forall e, rd_typed e -> rd_typed (F e)) -> safe (typed n) (set_entry i F) (fun _ => typed n).
Proof.
  intros HF. eapply safe_pre; [apply safe_set_at|]. intros s Hs. split; [assumption|]. intros e He. apply HF.
  pose proof (ty_list _ _ Hs) as H. rewrite Forall_forall in H. apply H, (nth_error_In _ _ He).
Qed.

Lemma safe_stat n F : (forall t, stats_typed t -> stats_typed (F t)) -> safe (typed n) (stat F) (fun _ => typed n).
Proof. intros HF. apply safe_modify. intros s [H1 H2 H3 H4 H5]. constructor; try assumption. now apply HF. Qed.

Lemma safe_set_pbufcount n F : safe (typed n) (set_pbufcount F) (fun _ => typed n).
Proof. apply safe_modify. intros s [H1 H2 H3 H4 H5]. constructor; try assumption. apply u16_ok. Qed.

Lemma safe_store n a l : safe (typed n) (store a l) (fun _ => typed n).
Proof. apply safe_modify. intros s [H1 H2 H3 H4 H5]. now constructor. Qed.

Lemma safe_free n p : safe (typed n) (free NOASSERT custom_free_function p) (fun _ => typed n).
Proof. eapply safe_bind; [apply safe_pb|]. intros ?. apply safe_ret. auto. Qed.

Lemma safe_dequeue i : safe (typed (S i)) (ip_reass_dequeue_datagram i) (fun _ => typed 0).
Proof.
  apply safe_modify. intros s [H1 H2 H3 H4 H5]. destruct (nth_error (reassdatagrams s) i) as [e|] eqn:Ei.
  - destruct (remove_at_split _ _ _ Ei) as (l1 & l2 & El & Er). constructor; cbn [reassdatagrams reass_avail ip_reass_pbufcount stats with_field]; try assumption; rewrite Er.
    + rewrite El in H1. rewrite length_app in *. cbn [length] in H1. lia.
    + rewrite El in H2. apply Forall_app in H2. destruct H2 as [H2 H6]. apply Forall_cons_iff in H6. apply Forall_app. now split.
    + lia.
  - apply nth_error_None in Ei. lia.
Qed.

Hint Resolve safe_pb safe_outside safe_get safe_set_pbufcount safe_store safe_free : safe.

(** Run through a body: calls that keep [typed n], then the rest. *)
Ltac step := eapply safe_seq; [solve [eauto with safe]|intros ?].

Lemma safe_entry_then {B} n i (k : ip_reassdata -> @RM PMem Sur B) Q : (forall e, rd_typed e -> safe (typed (max n (S i))) (k e) Q) ->
  safe (typed n) (bind (entry i) k) Q.
Proof.
  intros Hk. eapply safe_bind; [apply safe_entry|]. intros e s b s' [He Hs]. now apply Hk.
Qed.

Lemma safe_done {A} n n' (a : A) : (n' <= n)%nat -> safe (typed n) (ret a) (fun _ => typed n').
Proof. intros Hn. apply safe_ret. intros s. now apply typed_less. Qed.

Lemma safe_weak {A} n n' (m : @RM PMem Sur A) Q : (n' <= n)%nat -> safe (typed n') m Q -> safe (typed n) m Q.
Proof. intros Hn Hm. eapply safe_pre; [exact Hm|]. intros s. now apply typed_less. Qed.

Lemma safe_clen n p : safe (typed n) (clen p) (fun _ => typed n).
Proof. apply safe_pb. Qed.
Lemma safe_assert n c : safe (typed n) (assert NOASSERT c) (fun _ => typed n).
Proof. apply safe_pb. Qed.
Hint Resolve safe_clen safe_assert : safe.

Lemma safe_free_fragments n : forall fuel p freed, safe (typed n) (free_fragments NOASSERT custom_free_function fuel p freed) (fun _ => typed n).
Proof.
  induction fuel as [|fuel IH]; intros p freed; cbn [free_fragments]; (destruct (p =? 0); [now apply safe_done|]); [apply safe_hang|].
  unfold payload_of, helper. do 5 step. apply IH.
Qed.
Hint Resolve safe_free_fragments : safe.

Lemma safe_free_first n i : safe (typed n) (free_first NOASSERT custom_free_function icmp_time_exceeded i) (fun _ => typed (max n (S i))).
Proof.
  apply safe_entry_then. intros e He. unfold payload_of, helper. do 2 step. destruct (_ =? 0); [|now apply safe_done].
  eapply safe_seq; [apply safe_set_entry; intros x [? ? ? ?]; now constructor|]. intros ?. do 5 step. now apply safe_done.
Qed.

Lemma safe_free_complete n i : safe (typed n) (ip_reass_free_complete_datagram NOASSERT custom_free_function icmp_time_exceeded i) (fun _ => typed 0).
Proof.
  eapply safe_bind; [apply safe_free_first|]. intros freed. apply safe_entry_then. intros e He. step.
  eapply safe_bind; [apply (safe_weak _ (S i)); [lia|apply safe_dequeue]|]. intros ?. do 3 step. now apply safe_done.
Qed.

Lemma aged_typed e : rd_typed e -> (e.(timer) >? 0) = true -> rd_typed (e <| timer := u8 (e.(timer) - 1) |>).
Proof.
  intros [H1 H2 H3 H4] Ht. apply Z.gtb_lt in Ht. constructor; cbn [iphdr datagram_len rd_flags timer with_field]; try assumption.
  unfold IP_REASS_MAXAGE in *. rewrite u8_id by (unfold is_u8; lia). lia.
Qed.

Lemma safe_tmr_loop fuel : forall i, safe (typed 0) (tmr_loop NOASSERT custom_free_function icmp_time_exceeded fuel i) (fun _ => typed 0).
Proof.
  induction fuel as [|fuel IH]; intros i; cbn [tmr_loop];
    (eapply (safe_bind _ _ _ (fun l s => typed 0 s /\ l = s.(reassdatagrams))); [apply safe_gets; now split|]); intros l;
    destruct (nth_error l i) as [r|] eqn:Er; try (apply safe_ret; now intros s [Hs _]); [apply safe_hang|].
  destruct (timer r >? 0) eqn:Et.
  - eapply safe_bind; [|intros ?; apply IH]. eapply safe_pre; [apply safe_set_at|]. intros s [Hs ->]. split; [assumption|].
    intros e He. rewrite Er in He. injection He as <-. apply aged_typed; [|assumption].
    pose proof (ty_list _ _ Hs) as H. rewrite Forall_forall in H. apply H, (nth_error_In _ _ Er).
  - eapply safe_bind; [|intros ?; apply IH]. eapply safe_pre; [apply (safe_free_complete 0)|]. now intros s [Hs _].
Qed.

Lemma safe_tmr : safe (typed 0) (ip_reass_tmr NOASSERT custom_free_function icmp_time_exceeded) (fun _ => typed 0).
Proof. unfold ip_reass_tmr. step. apply safe_tmr_loop. Qed.

Lemma safe_remove_loop fuel hdr need : forall freed,
  safe (typed 0) (remove_oldest_loop NOASSERT custom_free_function icmp_time_exceeded fuel hdr need freed) (fun _ => typed 0).
Proof.
  induction fuel as [|fuel IH]; intros freed; cbn [remove_oldest_loop]; [apply safe_hang|]. step. destruct (oldest_scan _ _ _ _ _) as [o n].
  eapply safe_seq; [destruct o as [[i t]|]; [apply safe_free_complete|now apply safe_done]|]. intros x.
  destruct (_ && _); [apply IH|now apply safe_done].
Qed.

Lemma safe_remove_oldest hdr need :
  safe (typed 0) (ip_reass_remove_oldest_datagram NOASSERT custom_free_function icmp_time_exceeded hdr need) (fun _ => typed 0).
Proof. unfold ip_reass_remove_oldest_datagram. step. apply safe_remove_loop. Qed.
Hint Resolve safe_remove_oldest : safe.

(** A struct taken from the pool is in no list yet. *)
Definition taken (ok : bool) (s : @rst PMem Sur) : Prop :=
  if ok then forall e, rd_typed e -> typed 1 (s <| reassdatagrams := e :: s.(reassdatagrams) |>) else typed 0 s.

Lemma safe_malloc : safe (typed 0) reass_malloc taken.
Proof.
  intros s ok s' Hs E. unfold reass_malloc in E. destruct (reass_avail s) as [|a] eqn:Ea; injection E as <- <-; [exact Hs|].
  destruct Hs as [H1 H2 H3 H4 H5]. intros e He. constructor; cbn [reassdatagrams reass_avail ip_reass_pbufcount stats with_field length]; try assumption; try lia.
  now constructor.
Qed.

Ltac stats_step := eapply safe_seq; [apply safe_stat; intros t (? & ? & ? & ? & ?); unfold stats_typed; cbn [recv drop memerr err cachehit with_field]; auto 10 using u16_ok|intros ?].

Lemma safe_enqueue hdr need : length hdr = 20%nat ->
  safe (typed 0) (ip_reass_enqueue_new_datagram NOASSERT custom_free_function icmp_time_exceeded hdr need) (fun _ => typed 0).
Proof.
  intros Hh. unfold ip_reass_enqueue_new_datagram. eapply safe_bind; [apply safe_malloc|]. intros ok.
  eapply (safe_bind _ _ _ taken).
  - destruct ok; [apply safe_ret; auto|]. cbn [taken]. step. destruct (_ >=? need); [apply safe_malloc|apply safe_ret; auto].
  - clear ok. intros [|]; cbn [taken].
    + eapply (safe_bind _ _ _ (fun _ => typed 0)); [|intros ?; now apply safe_done]. apply safe_modify. intros s Hs.
      apply (typed_less 1); [lia|]. apply Hs. constructor; cbn; [assumption|word_lia|now left|unfold IP_REASS_MAXAGE; lia].
    + stats_step. now apply safe_done.
Qed.

(** *** A fragment arrives *)

Lemma safe_scan n : forall fuel a b h q prev valid, safe (typed n) (scan_queue fuel a b h q prev valid) (fun _ => typed n).
Proof.
  induction fuel as [|fuel IH]; intros a b h q prev valid; cbn [scan_queue]; (destruct (q =? 0); [now apply safe_done|]); [apply safe_hang|].
  unfold payload_of, helper, set_next_pbuf. do 2 step. destruct (a <? _).
  - step. destruct (negb (prev =? 0)); [|now apply safe_done]. step. destruct (_ || _); now apply safe_done.
  - destruct (a =? _); [now apply safe_done|]. destruct (a <? _); [now apply safe_done|].
    eapply safe_seq; [destruct (negb (prev =? 0)); [step|]; now apply safe_done|]. intros v. apply IH.
Qed.

Lemma safe_check_rest n : forall fuel prev q, safe (typed n) (check_rest fuel prev q) (fun _ => typed n).
Proof.
  induction fuel as [|fuel IH]; intros prev q; cbn [check_rest]; (destruct (q =? 0); [now apply safe_done|]); [apply safe_hang|].
  unfold payload_of, helper. do 3 step. destruct (negb _); [now apply safe_done|apply IH].
Qed.
Hint Resolve safe_scan safe_check_rest : safe.

Lemma safe_validate i h valid : safe (typed 0) (validate NOASSERT i h valid) (fun _ => typed 0).
Proof.
  apply safe_entry_then. intros e He. apply (safe_weak _ 0); [lia|]. destruct (negb _); [|now apply safe_done]. destruct valid; [|now apply safe_done].
  unfold payload_of, helper. do 2 step. destruct (_ || _); [now apply safe_done|]. do 2 step. destruct a2 as [ok last].
  eapply safe_seq; [destruct ok; [do 4 step; apply safe_assert|now apply safe_done]|]. intros ?. now apply safe_done.
Qed.

Lemma link_typed e v : rd_typed e -> rd_typed (e <| rd_p := v |>).
Proof. intros [H1 H2 H3 H4]. now constructor. Qed.

Lemma safe_place i p off prev q valid : safe (typed 0) (place_frag NOASSERT i p off prev q valid) (fun _ => typed 0).
Proof.
  assert (Hset : safe (typed 0) (set_entry i (fun e => e <| rd_p := p |>)) (fun _ => typed 0)) by (apply safe_set_entry; intros e; apply link_typed).
  unfold place_frag, helper, set_next_pbuf. destruct (negb (q =? 0)).
  - eapply safe_seq; [destruct (negb _); [apply safe_store|exact Hset]|]. intros ?. now apply safe_done.
  - destruct (negb (prev =? 0)); [do 3 step; now apply safe_done|]. apply safe_entry_then. intros e He. apply (safe_weak _ 0); [lia|].
    step. eapply safe_seq; [exact Hset|]. intros ?. now apply safe_done.
Qed.

Lemma safe_chain_frag i p :
  safe (typed 0) (ip_reass_chain_frag_into_datagram_and_validate NOASSERT custom_free_function i p) (fun _ => typed 0).
Proof.
  unfold ip_reass_chain_frag_into_datagram_and_validate, payload_of, load, set_next_pbuf, set_start, set_end. do 5 step.
  apply safe_entry_then. intros e He. apply (safe_weak _ 0); [lia|]. step. destruct a4 as [|prev q valid].
  - do 3 step. now apply safe_done.
  - eapply safe_seq; [apply safe_place|]. intros ok. apply safe_validate.
Qed.

Lemma safe_chain_fragments n : forall fuel p r, safe (typed n) (chain_fragments NOASSERT fuel p r) (fun _ => typed n).
Proof.
  induction fuel as [|fuel IH]; intros p r; cbn [chain_fragments]; (destruct (r =? 0); [now apply safe_done|]); [apply safe_hang|].
  unfold payload_of, helper. do 4 step. apply IH.
Qed.
Hint Resolve safe_chain_fragments : safe.

Lemma safe_complete i : safe (typed 0) (complete_datagram NOASSERT i) (fun _ => typed 0).
Proof.
  unfold complete_datagram, payload_of, helper, load.
  eapply safe_seq; [apply safe_set_entry; intros e [H1 H2 H3 H4]; constructor; cbn; try assumption; apply u16_ok|]. intros ?.
  apply safe_entry_then. intros e He. do 9 step.
  eapply safe_bind; [apply (safe_weak _ (S i)); [lia|apply safe_dequeue]|]. intros ?. do 2 step. now apply safe_done.
Qed.

Lemma safe_nullreturn n p : safe (typed n) (nullreturn NOASSERT custom_free_function p) (fun _ => typed n).
Proof. unfold nullreturn. stats_step. step. now apply safe_done. Qed.

Lemma safe_find hdr c : length hdr = 20%nat ->
  safe (typed 0) (find_or_enqueue NOASSERT custom_free_function icmp_time_exceeded hdr c) (fun _ => typed 0).
Proof.
  intros Hh. unfold find_or_enqueue. step. destruct (find_datagram hdr a 0) as [i|].
  - stats_step. eapply safe_seq; [|intros ?; now apply safe_done]. apply safe_set_entry. intros e He. destruct (_ && _); [|assumption].
    destruct He as [H1 H2 H3 H4]. now constructor.
  - eapply safe_seq; [now apply safe_enqueue|]. intros ok. now apply safe_done.
Qed.

Lemma safe_ip4_reass p : safe (typed 0) (ip4_reass NOASSERT custom_free_function icmp_time_exceeded p) (fun _ => typed 0).
Proof.
  unfold ip4_reass, payload_of, load. stats_step. step.
  eapply (safe_bind _ _ _ (fun h s => length h = 20%nat /\ typed 0 s)); [apply safe_gets; intros s Hs; split; [now rewrite load_list_length|assumption]|].
  intros hdr s r s' [Hh Hs]. revert s r s' Hs. apply (safe_weak 0 0); [lia|]. destruct (negb _).
  { stats_step. apply safe_nullreturn. }
  do 2 step. eapply safe_seq; [destruct (_ >? _); [do 2 step|]; now apply safe_done|]. intros room. destruct (negb room).
  { stats_step. apply safe_nullreturn. }
  eapply safe_seq; [now apply safe_find|]. intros [i|]; [|apply safe_nullreturn]. step.
  eapply safe_seq; [destruct (_ =? 0); [|now apply safe_done]|].
  - apply safe_set_entry. intros e [H1 H2 H3 H4]. constructor; cbn; try assumption; [apply u16_ok|].
    unfold IP_REASS_FLAG_LASTFRAG in *. right. destruct H3 as [-> | ->]; reflexivity.
  - intros ?. eapply safe_seq; [apply safe_chain_frag|]. intros [|]; [apply safe_complete|now apply safe_done].
Qed.

(** ** What can happen *)

(** A fragment arrives, the timer ticks, or another part of the stack runs. *)
Inductive reass_step (s : rst) : rst -> Prop :=
  | step_reass p q s' : ip4_reass NOASSERT custom_free_function icmp_time_exceeded p s = Ok (q, s') -> reass_step s s'
  | step_tmr s' : ip_reass_tmr NOASSERT custom_free_function icmp_time_exceeded s = Ok (tt, s') -> reass_step s s'
  | step_other m e : reass_step s (s <| pm := m |> <| env := e |>).

(** After start-up. *)
Definition reass_init (m : pst) (e : Env) : rst := mkRst m [] 0 MEMP_NUM_REASSDATA (mkStats 0 0 0 0 0) e.

Inductive reachable : rst -> Prop :=
  | reach_init m e : reachable (reass_init m e)
  | reach_step s s' : reachable s -> reass_step s s' -> reachable s'.

(** C25: in every state the reassembly can reach, whatever arrived, the structs
    in the list and the free ones are together MEMP_NUM_REASSDATA, every struct
    has a 20 byte header, a length that fits u16_t, LASTFRAG as its only flag and
    a timer of at most IP_REASS_MAXAGE, and the counters fit u16_t. *)
Theorem reass_state_typed s : reachable s ->
  (length s.(reassdatagrams) + s.(reass_avail) = MEMP_NUM_REASSDATA)%nat /\
  Forall rd_typed s.(reassdatagrams) /\ is_u16 s.(ip_reass_pbufcount) /\ stats_typed s.(stats).
Proof.
  intros Hr. cut (typed 0 s); [intros [H1 H2 H3 H4 _]; auto|]. induction Hr as [m e|s s' _ IH Hst].
  - constructor; cbn; [reflexivity|constructor|word_lia|unfold stats_typed; cbn; unfold is_u16; lia|lia].
  - inversion Hst as [p q s1 E|s1 E|m e]; subst.
    + exact (safe_ip4_reass p s q s' IH E).
    + exact (safe_tmr s tt s' IH E).
    + destruct IH. now constructor.
Qed.
End Types.

(** After the first fragment of a datagram. *)
Lemma reass_state_typed_witness : exists s, reachable false no_free no_message s /\ length s.(reassdatagrams) = 1%nat /\ s.(reass_avail) = 4%nat.
Proof.
  assert (Hl : match ip4_reass false no_free no_message 100 (rst1 3) with Ok (_, s) => length s.(reassdatagrams) | _ => 0%nat end = 1%nat) by (vm_compute; reflexivity).
  destruct (ip4_reass false no_free no_message 100 (rst1 3)) as [[q s]| |] eqn:E; [|discriminate|discriminate].
  exists s.
  assert (Hr : reachable false no_free no_message s).
  { eapply reach_step; [apply (@reach_init mem0 false no_free nothing_else no_message (pm (rst1 3)) tt)|]. now apply (step_reass _ _ _ _ 100 q). }
  split; [exact Hr|]. destruct (reass_state_typed false no_free no_message s Hr) as [H _].
  unfold MEMP_NUM_REASSDATA in H. split; [exact Hl|lia].
Defined.
