(* ===== verification/Etharp.v ===== *)
(** * ARP and Ethernet (lwip/src/core/ipv4/etharp.c, lwip/src/netif/ethernet.c)

    The ARP table is the list of its entries; packets are the packet buffers of
    Pbuf.v, whose headers are read and written byte by byte.  A network
    interface is named by its address.  [netif->linkoutput] belongs to the
    driver and [ip4_input] to the layer above: they are section variables.
    Configuration: ARP_QUEUEING, LWIP_AUTOIP, LWIP_DHCP, ETHARP_SUPPORT_VLAN and
    LWIP_NETIF_HWADDRHINT are 0, as in opt.h; ETHARP_SUPPORT_STATIC_ENTRIES and
    ETHARP_TABLE_MATCH_NETIF are variables. *)

From Stdlib Require Import ZArith List Lia Bool Permutation.
From S2P Require Import Prelude Def Ip4Addr Mem PbufMem Pbuf.
Import ListNotations.
Open Scope Z_scope.
Open Scope c_scope.

Definition ARP_TABLE_SIZE : nat := 10.
Definition ARP_MAXAGE := 300.
Definition ARP_AGE_REREQUEST_USED_UNICAST := ARP_MAXAGE - 30.
Definition ARP_AGE_REREQUEST_USED_BROADCAST := ARP_MAXAGE - 15.
Definition ARP_MAXPENDING := 5.
Definition ETHARP_FLAG_TRY_HARD := 1.
Definition ETHARP_FLAG_FIND_ONLY := 2.
Definition ETHARP_FLAG_STATIC_ENTRY := 4.
Definition ETH_HWADDR_LEN := 6.
Definition SIZEOF_ETH_HDR := 14.
Definition SIZEOF_ETHARP_HDR := 28.
Definition ETHTYPE_IP := 0x0800.
Definition ETHTYPE_ARP := 0x0806.
Definition HWTYPE_ETHERNET := 1.
Definition ARP_REQUEST := 1.
Definition ARP_REPLY := 2.
Definition NETIF_FLAG_ETHARP := 0x08.
Definition ethbroadcast : list Z := [0xff; 0xff; 0xff; 0xff; 0xff; 0xff].
Definition ethzero : list Z := [0; 0; 0; 0; 0; 0].

(** [enum etharp_state] *)
Inductive etharp_state :=
| ETHARP_STATE_EMPTY | ETHARP_STATE_PENDING | ETHARP_STATE_STABLE
| ETHARP_STATE_STABLE_REREQUESTING_1 | ETHARP_STATE_STABLE_REREQUESTING_2 | ETHARP_STATE_STATIC.

Definition etharp_state_eqb (a b : etharp_state) : bool :=
  match a, b with
  | ETHARP_STATE_EMPTY, ETHARP_STATE_EMPTY | ETHARP_STATE_PENDING, ETHARP_STATE_PENDING
  | ETHARP_STATE_STABLE, ETHARP_STATE_STABLE
  | ETHARP_STATE_STABLE_REREQUESTING_1, ETHARP_STATE_STABLE_REREQUESTING_1
  | ETHARP_STATE_STABLE_REREQUESTING_2, ETHARP_STATE_STABLE_REREQUESTING_2
  | ETHARP_STATE_STATIC, ETHARP_STATE_STATIC => true
  | _, _ => false
  end.
(** [state >= ETHARP_STATE_STABLE] *)
Definition stable_up (st : etharp_state) : bool :=
  match st with ETHARP_STATE_EMPTY | ETHARP_STATE_PENDING => false | _ => true end.

(** [struct etharp_entry] *)
Record etharp_entry := mkEntry { q : Z; ipaddr : Z; e_netif : Z; ethaddr : list Z; ctime : Z; st : etharp_state }.
#[export] Instance etharp_entry_eta : Eta etharp_entry := { eta := fun r =>
  mkEntry r.(q) r.(ipaddr) r.(e_netif) r.(ethaddr) r.(ctime) r.(st) }.

(** The fields of [struct netif] used here. *)
Record eth_netif := mkEthNetif { n4 : netif4; gw : Z; hwaddr : list Z; hwaddr_len : Z }.

(** [lwip_stats.etharp] *)
Record etharp_stats := mkArpStats {
  a_xmit : Z; a_recv : Z; a_drop : Z; a_lenerr : Z; a_memerr : Z; a_proterr : Z; a_err : Z; a_cachehit : Z }.
#[export] Instance etharp_stats_eta : Eta etharp_stats := { eta := fun r =>
  mkArpStats r.(a_xmit) r.(a_recv) r.(a_drop) r.(a_lenerr) r.(a_memerr) r.(a_proterr) r.(a_err) r.(a_cachehit) }.

(** A pointer to a [struct eth_addr]: into a packet, or to one of the addresses
    outside the packets, of which it is the value. *)
Inductive eth_ptr := InPacket (a : Z) | Value (l : list Z).

(** The candidates [etharp_find_entry] remembers in its sweep; an index of
    ARP_TABLE_SIZE means there is none yet. *)
Record search := mkSearch {
  empty : nat; old_stable : nat; old_pending : nat; old_queue : nat;
  age_stable : Z; age_pending : Z; age_queue : Z }.
#[export] Instance search_eta : Eta search := { eta := fun r =>
  mkSearch r.(empty) r.(old_stable) r.(old_pending) r.(old_queue) r.(age_stable) r.(age_pending) r.(age_queue) }.
Definition search_start : search :=
  mkSearch ARP_TABLE_SIZE ARP_TABLE_SIZE ARP_TABLE_SIZE ARP_TABLE_SIZE 0 0 0.

Section Etharp.
Context {PMem : PbufMemory}.
Variable NOASSERT : bool.
Variable custom_free_function : Z -> PB unit.
Variable tcpip_callback_ok : pst -> bool.
(** ETHARP_SUPPORT_STATIC_ENTRIES, ETHARP_TABLE_MATCH_NETIF *)
Variables SUPPORT_STATIC_ENTRIES TABLE_MATCH_NETIF : bool.

(** The packets, the statics of etharp.c, the interfaces, the statistics and
    the frames on the links: the interface and the bytes. *)
Record ast := mkAst {
  pm : pst; arp_table : list etharp_entry; etharp_cached_entry : Z; netifs : Z -> eth_netif;
  astats : etharp_stats; link_lenerr : Z; wire : list (Z * list Z) }.
#[export] Instance ast_eta : Eta ast := { eta := fun r =>
  mkAst r.(pm) r.(arp_table) r.(etharp_cached_entry) r.(netifs) r.(astats) r.(link_lenerr) r.(wire) }.

Definition AM := M ast.

(** [netif->linkoutput(netif, p)], [ip4_input(p, netif)], [ip4_route(dest)] *)
Variable linkoutput : Z -> Z -> AM err_t.
Variable ip4_input : Z -> Z -> AM unit.
Variable ip4_route : Z -> AM Z.

Definition pb {A} (m : PB A) : AM A := fun s =>
  match m s.(pm) with
  | Ok (a, m') => Ok (a, s <| pm := m' |>)
  | Halt => Halt
  | Hang => Hang
  end.

(** More than the pbufs of any chain. *)
Definition loop_fuel : nat := S (Z.to_nat 65536).

Definition assert (c : bool) : AM unit := pb (LWIP_ASSERT NOASSERT c).
Definition error_unless {A} (c : bool) (handler k : AM A) : AM A :=
  if c then k else if NOASSERT then handler else halt.
Definition pbuf_at (p : Z) : AM pbuf := gets (fun s => s.(pm).(structs) p).
Definition load (a n : Z) : AM (list Z) := gets (fun s => load_list s.(pm).(data) a n).
Definition load8 (a : Z) : AM Z := gets (fun s => s.(pm).(data) a).
Definition load16 (a : Z) : AM Z := gets (fun s => le16 (s.(pm).(data) a) (s.(pm).(data) (a + 1))).
Definition load32 (a : Z) : AM Z := gets (fun s =>
  le32 (s.(pm).(data) a) (s.(pm).(data) (a + 1)) (s.(pm).(data) (a + 2)) (s.(pm).(data) (a + 3))).
Definition store (a : Z) (l : list Z) : AM unit :=
  modify (fun s => s <| pm := s.(pm) <| data := store_list a l s.(pm).(data) |> |>).
Definition free (p : Z) : AM unit := pb (pbuf_free NOASSERT custom_free_function loop_fuel p) ;; ret tt.
Definition alloc (layer : pbuf_layer) (n : Z) (t : pbuf_type) : AM Z :=
  pb (pbuf_alloc NOASSERT custom_free_function tcpip_callback_ok layer n t).

(** [arp_table[i]]; there is no entry outside the table. *)
Definition entry (i : nat) : AM etharp_entry := fun s =>
  match nth_error s.(arp_table) i with Some e => Ok (e, s) | None => Halt end.
Definition set_entry (i : nat) (f : etharp_entry -> etharp_entry) : AM unit :=
  modify (fun s => s <| arp_table := alter_at i f s.(arp_table) |>).
Definition netif_at (n : Z) : AM eth_netif := gets (fun s => s.(netifs) n).
Definition stat (f : etharp_stats -> etharp_stats) : AM unit := modify (fun s => s <| astats := f s.(astats) |>).

Definition STATS_drop : AM unit := stat (fun x => x <| a_drop := u16 (x.(a_drop) + 1) |>).
Definition STATS_proterr : AM unit := stat (fun x => x <| a_proterr := u16 (x.(a_proterr) + 1) |>).
Definition STATS_memerr : AM unit := stat (fun x => x <| a_memerr := u16 (x.(a_memerr) + 1) |>).

(** ** ethernet.c: sending *)

(** The six bytes a pointer points to. *)
Definition deref_eth (a : eth_ptr) : AM (list Z) :=
  match a with
  | InPacket a => load a ETH_HWADDR_LEN
  | Value l => ret (firstn (Z.to_nat ETH_HWADDR_LEN) l)
  end.
(** [ETHADDR16_COPY], [ETHADDR32_COPY] into a packet. *)
Definition ETHADDR_COPY (dst : Z) (src : eth_ptr) : AM unit := do l <- deref_eth src; store dst l.

Definition ethernet_output (n p : Z) (src dst : eth_ptr) (eth_type : Z) : AM err_t :=
  let eth_type_be := lwip_htons eth_type in
  do r <- pb (pbuf_header NOASSERT p SIZEOF_ETH_HDR);
  if negb (r =? 0) then
    modify (fun s => s <| link_lenerr := u16 (s.(link_lenerr) + 1) |>) ;; ret ERR_BUF
  else
    do b <- pbuf_at p;
    let ethhdr := b.(payload) in
    store (ethhdr + 12) (put16 eth_type_be) ;;
    ETHADDR_COPY ethhdr dst ;;
    ETHADDR_COPY (ethhdr + 6) src ;;
    do nf <- netif_at n;
    assert (nf.(hwaddr_len) =? ETH_HWADDR_LEN) ;;
    linkoutput n p.

(** ** ARP packets *)

Definition etharp_raw (n : Z) (ethsrc_addr ethdst_addr hwsrc_addr : eth_ptr) (ipsrc_addr : Z)
    (hwdst_addr : eth_ptr) (ipdst_addr opcode : Z) : AM err_t :=
  assert (negb (n =? 0)) ;;
  do p <- alloc PBUF_LINK SIZEOF_ETHARP_HDR PBUF_RAM;
  if p =? 0 then STATS_memerr ;; ret ERR_MEM else
  do b <- pbuf_at p;
  assert (b.(len) >=? SIZEOF_ETHARP_HDR) ;;
  let hdr := b.(payload) in
  store (hdr + 6) (put16 (lwip_htons opcode)) ;;
  do nf <- netif_at n;
  assert (nf.(hwaddr_len) =? ETH_HWADDR_LEN) ;;
  ETHADDR_COPY (hdr + 8) hwsrc_addr ;;
  ETHADDR_COPY (hdr + 18) hwdst_addr ;;
  store (hdr + 14) (put32 ipsrc_addr) ;;
  store (hdr + 24) (put32 ipdst_addr) ;;
  store hdr (put16 (PP_HTONS HWTYPE_ETHERNET)) ;;
  store (hdr + 2) (put16 (PP_HTONS ETHTYPE_IP)) ;;
  store (hdr + 4) [ETH_HWADDR_LEN] ;;
  store (hdr + 5) [4] ;;
  ethernet_output n p ethsrc_addr ethdst_addr ETHTYPE_ARP ;;
  stat (fun x => x <| a_xmit := u16 (x.(a_xmit) + 1) |>) ;;
  free p ;;
  ret ERR_OK.

Definition etharp_request_dst (n ip : Z) (hw_dst_addr : eth_ptr) : AM err_t :=
  do nf <- netif_at n;
  etharp_raw n (Value nf.(hwaddr)) hw_dst_addr (Value nf.(hwaddr)) nf.(n4).(ip_addr) (Value ethzero) ip ARP_REQUEST.

Definition etharp_request (n ip : Z) : AM err_t := etharp_request_dst n ip (Value ethbroadcast).

(** ** The table *)

Definition etharp_free_entry (i : nat) : AM unit :=
  do e <- entry i;
  (when negb (e.(q) =? 0) then (free e.(q) ;; set_entry i (fun e => e <| q := 0 |>))) ;;
  set_entry i (fun e => e <| st := ETHARP_STATE_EMPTY |>).

(** One round of the loop of [etharp_tmr]. *)
Definition tmr_entry (i : nat) : AM unit :=
  do e <- entry i;
  if negb (etharp_state_eqb e.(st) ETHARP_STATE_EMPTY)
     && negb (SUPPORT_STATIC_ENTRIES && etharp_state_eqb e.(st) ETHARP_STATE_STATIC) then
    set_entry i (fun e => e <| ctime := u16 (e.(ctime) + 1) |>) ;;
    do e <- entry i;
    if (e.(ctime) >=? ARP_MAXAGE)
       || (etharp_state_eqb e.(st) ETHARP_STATE_PENDING && (e.(ctime) >=? ARP_MAXPENDING)) then etharp_free_entry i
    else match e.(st) with
         | ETHARP_STATE_STABLE_REREQUESTING_1 => set_entry i (fun e => e <| st := ETHARP_STATE_STABLE_REREQUESTING_2 |>)
         | ETHARP_STATE_STABLE_REREQUESTING_2 => set_entry i (fun e => e <| st := ETHARP_STATE_STABLE |>)
         | ETHARP_STATE_PENDING => etharp_request e.(e_netif) e.(ipaddr) ;; ret tt
         | _ => ret tt
         end
  else ret tt.

(** The entries from [i] on, [n] of them. *)
Fixpoint tmr_entries (n i : nat) : AM unit :=
  match n with
  | O => ret tt
  | S n => tmr_entry i ;; tmr_entries n (S i)
  end.
Definition etharp_tmr : AM unit := tmr_entries ARP_TABLE_SIZE 0.

(** The test for the address in [etharp_find_entry]. *)
Definition is_match (ip n : Z) (e : etharp_entry) : bool :=
  (ip =? e.(ipaddr)) && (negb TABLE_MATCH_NETIF || ((n =? 0) || (n =? e.(e_netif)))).

(** An entry that does not match, as a candidate for recycling. *)
Definition consider (i : nat) (e : etharp_entry) (c : search) : search :=
  if (c.(empty) =? ARP_TABLE_SIZE)%nat && etharp_state_eqb e.(st) ETHARP_STATE_EMPTY then c <| empty := i |>
  else match e.(st) with
       | ETHARP_STATE_EMPTY => c
       | ETHARP_STATE_PENDING =>
           if negb (e.(q) =? 0) then
             if e.(ctime) >=? c.(age_queue) then c <| old_queue := i |> <| age_queue := e.(ctime) |> else c
           else
             if e.(ctime) >=? c.(age_pending) then c <| old_pending := i |> <| age_pending := e.(ctime) |> else c
       | _ =>
           if SUPPORT_STATIC_ENTRIES && etharp_state_eqb e.(st) ETHARP_STATE_STATIC then c
           else if e.(ctime) >=? c.(age_stable) then c <| old_stable := i |> <| age_stable := e.(ctime) |> else c
       end.

(** The sweep from entry [i] on: the index of a match, or the candidates.  (The
    assertion in it, that a state other than EMPTY is PENDING or at least
    STABLE, holds of every state.) *)
Fixpoint sweep (ip n : Z) (i : nat) (l : list etharp_entry) (c : search) : nat + search :=
  match l with
  | [] => inr c
  | e :: l =>
      if negb (etharp_state_eqb e.(st) ETHARP_STATE_EMPTY) && is_match ip n e then inl i
      else sweep ip n (S i) l (consider i e c)
  end.

(** The entry to use for a new address, freed; None if there is none. *)
Definition choose (c : search) : AM (option nat) :=
  if (c.(empty) <? ARP_TABLE_SIZE)%nat then ret (Some c.(empty)) else
  do r <-
    (if (c.(old_stable) <? ARP_TABLE_SIZE)%nat then
       do e <- entry c.(old_stable);
       assert (e.(q) =? 0) ;;
       ret (Some c.(old_stable))
     else if (c.(old_pending) <? ARP_TABLE_SIZE)%nat then ret (Some c.(old_pending))
     else if (c.(old_queue) <? ARP_TABLE_SIZE)%nat then ret (Some c.(old_queue))
     else ret None);
  match r with
  | None => ret None
  | Some i => assert (i <? ARP_TABLE_SIZE)%nat ;; etharp_free_entry i ;; ret (Some i)
  end.

(** The index, or None for ERR_MEM. *)
Definition etharp_find_entry (ip flags n : Z) : AM (option nat) :=
  do t <- gets arp_table;
  match sweep ip n 0 t search_start with
  | inl i => ret (Some i)
  | inr c =>
      if negb (flags .& ETHARP_FLAG_FIND_ONLY =? 0)
         || ((c.(empty) =? ARP_TABLE_SIZE)%nat && (flags .& ETHARP_FLAG_TRY_HARD =? 0)) then ret None
      else
        do r <- choose c;
        match r with
        | None => ret None
        | Some i =>
            assert (i <? ARP_TABLE_SIZE)%nat ;;
            do e <- entry i;
            assert (etharp_state_eqb e.(st) ETHARP_STATE_EMPTY) ;;
            set_entry i (fun e => e <| ipaddr := ip |>) ;;
            set_entry i (fun e => e <| ctime := 0 |>) ;;
            (when TABLE_MATCH_NETIF then set_entry i (fun e => e <| e_netif := n |>)) ;;
            ret (Some i)
        end
  end.

(** The end of [etharp_update_arp_entry]: record the address and send the packet
    that waits for it. *)
Definition record_entry (i : nat) (n : Z) (addr : eth_ptr) (st' : etharp_state) : AM err_t :=
  set_entry i (fun e => e <| st := st' |>) ;;
  set_entry i (fun e => e <| e_netif := n |>) ;;
  do a <- deref_eth addr;
  set_entry i (fun e => e <| ethaddr := a |>) ;;
  set_entry i (fun e => e <| ctime := 0 |>) ;;
  do e <- entry i;
  (when negb (e.(q) =? 0) then
    (let p := e.(q) in
     set_entry i (fun e => e <| q := 0 |>) ;;
     do nf <- netif_at n;
     ethernet_output n p (Value nf.(hwaddr)) addr ETHTYPE_IP ;;
     free p)) ;;
  ret ERR_OK.

Definition etharp_update_arp_entry (n ip : Z) (addr : eth_ptr) (flags : Z) : AM err_t :=
  do nf <- netif_at n;
  assert (nf.(hwaddr_len) =? ETH_HWADDR_LEN) ;;
  if ip4_addr_isany_val ip || negb (ip4_addr_isbroadcast_u32 ip nf.(n4) =? 0) || ip4_addr_ismulticast ip then ret ERR_ARG
  else
  do r <- etharp_find_entry ip flags n;
  match r with
  | None => ret ERR_MEM
  | Some i =>
      do e <- entry i;
      if SUPPORT_STATIC_ENTRIES && negb (flags .& ETHARP_FLAG_STATIC_ENTRY =? 0) then record_entry i n addr ETHARP_STATE_STATIC
      else if SUPPORT_STATIC_ENTRIES && etharp_state_eqb e.(st) ETHARP_STATE_STATIC then ret ERR_VAL
      else record_entry i n addr ETHARP_STATE_STABLE
  end.

Definition etharp_add_static_entry (ip : Z) (addr : eth_ptr) : AM err_t :=
  do n <- ip4_route ip;
  if n =? 0 then ret ERR_RTE
  else etharp_update_arp_entry n ip addr (ETHARP_FLAG_TRY_HARD .| ETHARP_FLAG_STATIC_ENTRY).

Definition etharp_remove_static_entry (ip : Z) : AM err_t :=
  do r <- etharp_find_entry ip ETHARP_FLAG_FIND_ONLY 0;
  match r with
  | None => ret ERR_MEM
  | Some i =>
      do e <- entry i;
      if negb (etharp_state_eqb e.(st) ETHARP_STATE_STATIC) then ret ERR_ARG
      else etharp_free_entry i ;; ret ERR_OK
  end.

Fixpoint cleanup_entries (k i : nat) (n : Z) : AM unit :=
  match k with
  | O => ret tt
  | S k =>
      do e <- entry i;
      (when negb (etharp_state_eqb e.(st) ETHARP_STATE_EMPTY) && (e.(e_netif) =? n) then etharp_free_entry i) ;;
      cleanup_entries k (S i) n
  end.
Definition etharp_cleanup_netif (n : Z) : AM unit := cleanup_entries ARP_TABLE_SIZE 0 n.

(** The index with the addresses, or None for -1. *)
Definition etharp_find_addr (n ip : Z) : AM (option (nat * list Z * Z)) :=
  do r <- etharp_find_entry ip ETHARP_FLAG_FIND_ONLY n;
  match r with
  | None => ret None
  | Some i => do e <- entry i; ret (if stable_up e.(st) then Some (i, e.(ethaddr), e.(ipaddr)) else None)
  end.

(** What is returned through the pointers, or None for 0. *)
Definition etharp_get_entry (i : nat) : AM (option (Z * Z * list Z)) :=
  if (i <? ARP_TABLE_SIZE)%nat then
    do e <- entry i; ret (if stable_up e.(st) then Some (e.(ipaddr), e.(e_netif), e.(ethaddr)) else None)
  else ret None.

(** ** Incoming ARP packets *)

(** The request in [p] becomes the reply to it. *)
Definition arp_reply (p n hdr : Z) : AM unit :=
  store (hdr + 6) (put16 (lwip_htons ARP_REPLY)) ;;
  do sip <- load (hdr + 14) 4;
  store (hdr + 24) sip ;;
  do nf <- netif_at n;
  store (hdr + 14) (put32 nf.(n4).(ip_addr)) ;;
  assert (nf.(hwaddr_len) =? ETH_HWADDR_LEN) ;;
  ETHADDR_COPY (hdr + 18) (InPacket (hdr + 8)) ;;
  ETHADDR_COPY (hdr + 8) (Value nf.(hwaddr)) ;;
  ethernet_output n p (InPacket (hdr + 8)) (InPacket (hdr + 18)) ETHTYPE_ARP ;;
  ret tt.

Definition etharp_input (p n : Z) : AM unit :=
  error_unless (negb (n =? 0)) (ret tt) (
  do b <- pbuf_at p;
  let hdr := b.(payload) in
  do hwtype <- load16 hdr;
  do hwlen <- load8 (hdr + 4);
  do protolen <- load8 (hdr + 5);
  do proto <- load16 (hdr + 2);
  if negb (hwtype =? PP_HTONS HWTYPE_ETHERNET) || negb (hwlen =? ETH_HWADDR_LEN) || negb (protolen =? 4)
     || negb (proto =? PP_HTONS ETHTYPE_IP) then
    STATS_proterr ;; STATS_drop ;; free p
  else
  stat (fun x => x <| a_recv := u16 (x.(a_recv) + 1) |>) ;;
  do sipaddr <- load32 (hdr + 14);
  do dipaddr <- load32 (hdr + 24);
  do nf <- netif_at n;
  let for_us := if ip4_addr_isany_val nf.(n4).(ip_addr) then false else dipaddr =? nf.(n4).(ip_addr) in
  etharp_update_arp_entry n sipaddr (InPacket (hdr + 8))
    (if for_us then ETHARP_FLAG_TRY_HARD else ETHARP_FLAG_FIND_ONLY) ;;
  do opcode <- load16 (hdr + 6);
  (if opcode =? PP_HTONS ARP_REQUEST then (when for_us then arp_reply p n hdr)
   else if opcode =? PP_HTONS ARP_REPLY then ret tt
   else stat (fun x => x <| a_err := u16 (x.(a_err) + 1) |>)) ;;
  free p).

(** ** Outgoing IP packets *)

Definition etharp_output_to_arp_index (n p : Z) (arp_idx : nat) : AM err_t :=
  do e <- entry arp_idx;
  assert (stable_up e.(st)) ;;
  (when etharp_state_eqb e.(st) ETHARP_STATE_STABLE then
    (if e.(ctime) >=? ARP_AGE_REREQUEST_USED_BROADCAST then
       do r <- etharp_request n e.(ipaddr);
       match r with
       | ERR_OK => set_entry arp_idx (fun e => e <| st := ETHARP_STATE_STABLE_REREQUESTING_1 |>)
       | _ => ret tt
       end
     else if e.(ctime) >=? ARP_AGE_REREQUEST_USED_UNICAST then
       do r <- etharp_request_dst n e.(ipaddr) (Value e.(ethaddr));
       match r with
       | ERR_OK => set_entry arp_idx (fun e => e <| st := ETHARP_STATE_STABLE_REREQUESTING_1 |>)
       | _ => ret tt
       end
     else ret tt)) ;;
  do nf <- netif_at n;
  do e <- entry arp_idx;
  ethernet_output n p (Value nf.(hwaddr)) (Value e.(ethaddr)) ETHTYPE_IP.

(** The pbuf at which the loop over the packet stops: the first that is not
    PBUF_ROM, or 0. *)
Fixpoint copy_scan (fuel : nat) (p : Z) : AM Z :=
  if p =? 0 then ret 0 else
  match fuel with
  | O => hang
  | S fuel =>
      do b <- pbuf_at p;
      assert (negb (b.(len) =? b.(tot_len)) || (b.(next) =? 0)) ;;
      if negb (pbuf_type_eqb b.(type) PBUF_ROM) then ret p else copy_scan fuel b.(next)
  end.

(** The packet that is put on the queue: a copy of [p0], or [p0] itself with a
    reference more; 0 if it could not be copied. *)
Definition take_over (p0 : Z) : AM Z :=
  do p <- copy_scan loop_fuel p0;
  if negb (p =? 0) then
    do b <- pbuf_at p;
    do c <- alloc PBUF_LINK b.(tot_len) PBUF_RAM;
    if negb (c =? 0) then
      do r <- pb (pbuf_copy NOASSERT loop_fuel c p0);
      match r with
      | ERR_OK => ret c
      | _ => free c ;; ret 0
      end
    else ret 0
  else pb (pbuf_ref p0) ;; ret p0.

(** Queue a packet on the entry, in place of one that is there. *)
Definition queue_packet (i : nat) (p0 : Z) : AM err_t :=
  do p <- take_over p0;
  if negb (p =? 0) then
    do e <- entry i;
    (when negb (e.(q) =? 0) then free e.(q)) ;;
    set_entry i (fun e => e <| q := p |>) ;;
    ret ERR_OK
  else STATS_memerr ;; ret ERR_MEM.

(** [p0] is 0 when there is no packet. *)
Definition etharp_query (n ip p0 : Z) : AM err_t :=
  do nf <- netif_at n;
  if negb (ip4_addr_isbroadcast_u32 ip nf.(n4) =? 0) || ip4_addr_ismulticast ip || ip4_addr_isany_val ip then ret ERR_ARG
  else
  do r <- etharp_find_entry ip ETHARP_FLAG_TRY_HARD n;
  match r with
  | None => (when negb (p0 =? 0) then STATS_memerr) ;; ret ERR_MEM
  | Some i =>
      do e <- entry i;
      let is_new_entry := etharp_state_eqb e.(st) ETHARP_STATE_EMPTY in
      (when is_new_entry then
        (set_entry i (fun e => e <| st := ETHARP_STATE_PENDING |>) ;; set_entry i (fun e => e <| e_netif := n |>))) ;;
      do e <- entry i;
      assert (etharp_state_eqb e.(st) ETHARP_STATE_PENDING || stable_up e.(st)) ;;
      do result <- (if is_new_entry || (p0 =? 0) then etharp_request n ip else ret ERR_MEM);
      if p0 =? 0 then ret result else
      assert (negb (p0 =? 0)) ;;
      do e <- entry i;
      if stable_up e.(st) then
        modify (fun s => s <| etharp_cached_entry := u8 (Z.of_nat i) |>) ;;
        do nf <- netif_at n;
        ethernet_output n p0 (Value nf.(hwaddr)) (Value e.(ethaddr)) ETHTYPE_IP
      else if etharp_state_eqb e.(st) ETHARP_STATE_PENDING then queue_packet i p0
      else ret result
  end.

(** The test for a usable entry in [etharp_output]. *)
Definition usable (n ip : Z) (e : etharp_entry) : bool :=
  stable_up e.(st) && (negb TABLE_MATCH_NETIF || (e.(e_netif) =? n)) && (ip =? e.(ipaddr)).

Fixpoint find_stable (n ip : Z) (i : nat) (l : list etharp_entry) : option nat :=
  match l with
  | [] => None
  | e :: l => if usable n ip e then Some i else find_stable n ip (S i) l
  end.

(** The multicast address is hashed to a MAC address. *)
Definition mcastaddr (ip : Z) : list Z :=
  [0x01; 0x00; 0x5e; byte_of ip 1 .& 0x7f; byte_of ip 2; byte_of ip 3].

Definition output_unicast (n p dst_addr : Z) : AM err_t :=
  do cached <- gets etharp_cached_entry;
  do e <- entry (Z.to_nat cached);
  if usable n dst_addr e then
    stat (fun x => x <| a_cachehit := u16 (x.(a_cachehit) + 1) |>) ;;
    etharp_output_to_arp_index n p (Z.to_nat cached)
  else
    do t <- gets arp_table;
    match find_stable n dst_addr 0 t with
    | Some i =>
        modify (fun s => s <| etharp_cached_entry := u8 (Z.of_nat i) |>) ;;
        etharp_output_to_arp_index n p i
    | None => etharp_query n dst_addr p
    end.

Definition etharp_output (n p ip : Z) : AM err_t :=
  assert (negb (n =? 0)) ;;
  assert (negb (p =? 0)) ;;
  do nf <- netif_at n;
  if negb (ip4_addr_isbroadcast_u32 ip nf.(n4) =? 0) then
    ethernet_output n p (Value nf.(hwaddr)) (Value ethbroadcast) ETHTYPE_IP
  else if ip4_addr_ismulticast ip then
    ethernet_output n p (Value nf.(hwaddr)) (Value (mcastaddr ip)) ETHTYPE_IP
  else if negb (ip4_addr_netcmp ip nf.(n4).(ip_addr) nf.(n4).(netmask)) && negb (ip4_addr_islinklocal ip) then
    if negb (ip4_addr_isany_val nf.(gw)) then output_unicast n p nf.(gw) else ret ERR_RTE
  else output_unicast n p ip.

(** ** ethernet.c: receiving *)

(** Mark a packet to a multicast or broadcast address. *)
Definition mark_cast (p ethhdr : Z) : AM unit :=
  do d <- load ethhdr ETH_HWADDR_LEN;
  if negb (nth 0 d 0 .& 1 =? 0) then
    if nth 0 d 0 =? 0x01 then
      (when (nth 1 d 0 =? 0x00) && (nth 2 d 0 =? 0x5e) then
        pb (upds p (fun b => b <| flags := b.(flags) .| PBUF_FLAG_LLMCAST |>)))
    else (when forallb (fun x => x =? 0xff) d then
        pb (upds p (fun b => b <| flags := b.(flags) .| PBUF_FLAG_LLBCAST |>)))
  else ret tt.

Definition ethernet_input (p n : Z) : AM err_t :=
  do b <- pbuf_at p;
  if b.(len) <=? SIZEOF_ETH_HDR then STATS_proterr ;; STATS_drop ;; free p ;; ret ERR_OK else
  let ethhdr := b.(payload) in
  do ethtype <- load16 (ethhdr + 12);
  mark_cast p ethhdr ;;
  do nf <- netif_at n;
  do b <- pbuf_at p;
  let arp_off := nf.(n4).(Ip4Addr.flags) .& NETIF_FLAG_ETHARP =? 0 in
  if ethtype =? PP_HTONS ETHTYPE_IP then
    if arp_off then free p ;; ret ERR_OK else
    do r <- (if b.(len) <? SIZEOF_ETH_HDR then ret 1 else pb (pbuf_header NOASSERT p (- SIZEOF_ETH_HDR)));
    if negb (r =? 0) then free p ;; ret ERR_OK else ip4_input p n ;; ret ERR_OK
  else if ethtype =? PP_HTONS ETHTYPE_ARP then
    if arp_off then free p ;; ret ERR_OK else
    do r <- (if b.(len) <? SIZEOF_ETH_HDR then ret 1 else pb (pbuf_header NOASSERT p (- SIZEOF_ETH_HDR)));
    if negb (r =? 0) then
      stat (fun x => x <| a_lenerr := u16 (x.(a_lenerr) + 1) |>) ;; STATS_drop ;; free p ;; ret ERR_OK
    else etharp_input p n ;; ret ERR_OK
  else STATS_proterr ;; STATS_drop ;; free p ;; ret ERR_OK.
End Etharp.
