(* ===== verification/EtharpInv.v ===== *)
(** * The ARP table: invariant and search

    What holds of the table in every reachable state, and which entry
    [etharp_find_entry] chooses. *)

From Stdlib Require Import ZArith List Lia Bool Permutation.
From S2P Require Import Prelude Def Ip4Addr Mem PbufMem Pbuf Etharp.
Import ListNotations.
Open Scope Z_scope.
Open Scope c_scope.

Lemma etharp_state_eqb_spec a b : reflect (a = b) (etharp_state_eqb a b).
Proof. destruct a, b; constructor; congruence. Qed.

(** ** Candidates *)

Section Search.
Variables SUPPORT_STATIC_ENTRIES TABLE_MATCH_NETIF : bool.
Abbreviation consider := (consider SUPPORT_STATIC_ENTRIES).
Abbreviation sweep := (sweep SUPPORT_STATIC_ENTRIES TABLE_MATCH_NETIF).
Abbreviation is_match := (is_match TABLE_MATCH_NETIF).

(** The classes of entries that may be recycled. *)
Definition old_entry (e : etharp_entry) : bool :=
  stable_up e.(st) && negb (SUPPORT_STATIC_ENTRIES && etharp_state_eqb e.(st) ETHARP_STATE_STATIC).
Definition pending_entry (e : etharp_entry) : bool := etharp_state_eqb e.(st) ETHARP_STATE_PENDING && (e.(q) =? 0).
Definition queueing_entry (e : etharp_entry) : bool := etharp_state_eqb e.(st) ETHARP_STATE_PENDING && negb (e.(q) =? 0).
Definition empty_entry (e : etharp_entry) : bool := etharp_state_eqb e.(st) ETHARP_STATE_EMPTY.

(** No entry of a class. *)
Definition none_of (P : etharp_entry -> bool) (t : list etharp_entry) : Prop := forall e, In e t -> P e = false.

(** [i] is an entry of the class, and none of the class is older. *)
Definition oldest (P : etharp_entry -> bool) (t : list etharp_entry) (i : nat) : Prop :=
  exists e, nth_error t i = Some e /\ P e = true /\ forall e', In e' t -> P e' = true -> e'.(ctime) <= e.(ctime).

(** [i] is the first entry of the class. *)
Definition first_of (P : etharp_entry -> bool) (t : list etharp_entry) (i : nat) : Prop :=
  exists e, nth_error t i = Some e /\ P e = true /\ none_of P (firstn i t).

(** What a candidate with its age says about the entries seen so far. *)
Definition remembers (P : etharp_entry -> bool) (t : list etharp_entry) (i : nat) (age : Z) : Prop :=
  (i = ARP_TABLE_SIZE /\ age = 0 /\ none_of P t) \/
  (oldest P t i /\ exists e, nth_error t i = Some e /\ e.(ctime) = age).

Record seen (t : list etharp_entry) (c : search) : Prop := {
  seen_empty : (c.(empty) = ARP_TABLE_SIZE /\ none_of empty_entry t) \/ first_of empty_entry t c.(empty);
  seen_stable : remembers old_entry t c.(old_stable) c.(age_stable);
  seen_pending : remembers pending_entry t c.(old_pending) c.(age_pending);
  seen_queue : remembers queueing_entry t c.(old_queue) c.(age_queue) }.

Lemma none_of_snoc P t e : none_of P t -> P e = false -> none_of P (t ++ [e]).
Proof. intros Ht He x Hx. apply in_app_iff in Hx. destruct Hx as [Hx|[<-|[]]]; auto. Qed.

Lemma remembers_skip P t i age e : remembers P t i age -> P e = false -> remembers P (t ++ [e]) i age.
Proof.
  intros [(-> & -> & Hn)|((e0 & Hi & HP & Ho) & e1 & Hi1 & Ha)] He; [left; auto using none_of_snoc|right].
  assert (Hi' : nth_error (t ++ [e]) i = Some e0) by (rewrite nth_error_app1; [assumption|apply nth_error_Some; congruence]).
  split; [|exists e0; split; [assumption|congruence]]. exists e0. split; [assumption|]. split; [assumption|].
  intros x Hx Px. apply in_app_iff in Hx. destruct Hx as [Hx|[<-|[]]]; [auto|congruence].
Qed.

Lemma remembers_take P t i age e : remembers P t i age -> P e = true -> 0 <= e.(ctime) ->
  if e.(ctime) >=? age then remembers P (t ++ [e]) (length t) e.(ctime) else remembers P (t ++ [e]) i age.
Proof.
  intros H He Hc. assert (Hlast : nth_error (t ++ [e]) (length t) = Some e)
    by (rewrite nth_error_app2, Nat.sub_diag by lia; reflexivity).
  rewrite Z.geb_leb. destruct (Z.leb_spec age e.(ctime)) as [Hle|Hgt].
  - right. split; [|now exists e]. exists e. split; [assumption|]. split; [assumption|].
    intros x Hx Px. apply in_app_iff in Hx. destruct Hx as [Hx|[<-|[]]]; [|lia].
    destruct H as [(_ & _ & Hn)|((e0 & Hi & _ & Ho) & e1 & Hi1 & Ha)]; [rewrite (Hn x Hx) in Px; discriminate|].
    specialize (Ho x Hx Px). replace e1 with e0 in Ha by congruence. lia.
  - destruct H as [(_ & -> & _)|((e0 & Hi & HP & Ho) & e1 & Hi1 & Ha)]; [lia|right].
    replace e1 with e0 in * by congruence.
    assert (Hi' : nth_error (t ++ [e]) i = Some e0) by (rewrite nth_error_app1; [assumption|apply nth_error_Some; congruence]).
    split; [|now exists e0]. exists e0. split; [assumption|]. split; [assumption|].
    intros x Hx Px. apply in_app_iff in Hx. destruct Hx as [Hx|[<-|[]]]; [auto|lia].
Qed.

Lemma first_of_snoc P t i e : first_of P t i -> first_of P (t ++ [e]) i.
Proof.
  intros (e0 & Hi & HP & Hn). assert (Hlt : (i < length t)%nat) by (apply nth_error_Some; congruence).
  exists e0. rewrite nth_error_app1, firstn_app by assumption. replace (i - length t)%nat with 0%nat by lia.
  cbn [firstn]. rewrite app_nil_r. auto.
Qed.

(** [consider] by class. *)
Lemma consider_class i e c : consider i e c =
  if empty_entry e then (if (c.(empty) =? ARP_TABLE_SIZE)%nat then c <| empty := i |> else c)
  else if queueing_entry e then (if e.(ctime) >=? c.(age_queue) then c <| old_queue := i |> <| age_queue := e.(ctime) |> else c)
  else if pending_entry e then (if e.(ctime) >=? c.(age_pending) then c <| old_pending := i |> <| age_pending := e.(ctime) |> else c)
  else if old_entry e then (if e.(ctime) >=? c.(age_stable) then c <| old_stable := i |> <| age_stable := e.(ctime) |> else c)
  else c.
Proof.
  unfold Etharp.consider, empty_entry, queueing_entry, pending_entry, old_entry.
  destruct e.(st), (c.(empty) =? ARP_TABLE_SIZE)%nat, (e.(q) =? 0), SUPPORT_STATIC_ENTRIES; reflexivity.
Qed.

Lemma classes_disjoint e :
  (empty_entry e = true -> queueing_entry e = false /\ pending_entry e = false /\ old_entry e = false) /\
  (queueing_entry e = true -> pending_entry e = false /\ old_entry e = false) /\
  (pending_entry e = true -> old_entry e = false).
Proof.
  unfold empty_entry, queueing_entry, pending_entry, old_entry.
  destruct e.(st), (e.(q) =? 0); cbn; repeat split; intros; congruence.
Qed.

(** One more entry of the sweep. *)
Lemma seen_snoc t c e : (length t < ARP_TABLE_SIZE)%nat -> 0 <= e.(ctime) -> seen t c -> seen (t ++ [e]) (consider (length t) e c).
Proof.
  intros Hlen Hc [H1 H2 H3 H4]. rewrite consider_class. destruct (classes_disjoint e) as (D1 & D2 & D3).
  assert (Hempty : empty_entry e = false \/ c.(empty) <> ARP_TABLE_SIZE ->
    (c.(empty) = ARP_TABLE_SIZE /\ none_of empty_entry (t ++ [e])) \/ first_of empty_entry (t ++ [e]) c.(empty)).
  { intros Hor. destruct H1 as [[E Hn]|Hf]; [|right; now apply first_of_snoc]. left. split; [assumption|].
    apply none_of_snoc; [assumption|]. now destruct Hor. }
  destruct (empty_entry e) eqn:E1.
  - destruct (D1 eq_refl) as (E2 & E3 & E4).
    destruct (Nat.eqb_spec c.(empty) ARP_TABLE_SIZE) as [He|He]; split; try (apply remembers_skip; assumption); [|now auto].
    right. exists e. cbn [empty with_field]. rewrite nth_error_app2, Nat.sub_diag by lia. split; [reflexivity|]. split; [assumption|].
    rewrite firstn_app, Nat.sub_diag, firstn_all. cbn [firstn]. rewrite app_nil_r. destruct H1 as [[_ H]|(x & Hx & _)]; [assumption|].
    rewrite He in Hx. pose proof (proj1 (nth_error_Some t ARP_TABLE_SIZE) ltac:(congruence)). lia.
  - destruct (queueing_entry e) eqn:E2; [destruct (D2 eq_refl) as (E3 & E4)|destruct (pending_entry e) eqn:E3; [pose proof (D3 eq_refl) as E4|destruct (old_entry e) eqn:E4]].
    + pose proof (remembers_take _ _ _ _ e H4 E2 Hc) as H. destruct (_ >=? _); split;
        cbn [empty old_stable old_pending old_queue age_stable age_pending age_queue with_field]; auto using remembers_skip.
    + pose proof (remembers_take _ _ _ _ e H3 E3 Hc) as H. destruct (_ >=? _); split;
        cbn [empty old_stable old_pending old_queue age_stable age_pending age_queue with_field]; auto using remembers_skip.
    + pose proof (remembers_take _ _ _ _ e H2 E4 Hc) as H. destruct (_ >=? _); split;
        cbn [empty old_stable old_pending old_queue age_stable age_pending age_queue with_field]; auto using remembers_skip.
    + split; auto using remembers_skip.
Qed.

Lemma seen_start : seen [] search_start.
Proof. split; left; repeat split; intros e []. Qed.

(** The sweep stops at the first match or sees the whole table. *)
Lemma sweep_spec ip n l : forall pre c, seen pre c -> (length pre + length l <= ARP_TABLE_SIZE)%nat ->
  Forall (fun e => 0 <= e.(ctime)) l -> let hit e := negb (empty_entry e) && is_match ip n e in
  match sweep ip n (length pre) l c with
  | inl i => exists e l1 l2, l = l1 ++ e :: l2 /\ i = (length pre + length l1)%nat /\ hit e = true /\ none_of hit l1
  | inr c => none_of hit l /\ seen (pre ++ l) c
  end.
Proof.
  induction l as [|e l IH]; intros pre c Hs Hlen Hc hit; cbn [Etharp.sweep].
  - rewrite app_nil_r. split; [intros x []|assumption].
  - apply Forall_cons_iff in Hc. destruct Hc as [He Hc]. fold (empty_entry e). fold (hit e). destruct (hit e) eqn:Eh.
    + exists e, [], l. cbn [length app]. rewrite Nat.add_0_r. repeat split; [assumption|]. intros x [].
    + cbn [length] in Hlen. specialize (IH (pre ++ [e]) (consider (length pre) e c)).
      rewrite length_app in IH. cbn [length] in IH. replace (length pre + 1)%nat with (S (length pre)) in IH by lia.
      specialize (IH (seen_snoc pre c e ltac:(lia) He Hs) ltac:(lia) Hc). cbv zeta in IH. fold hit in IH.
      destruct (sweep _ _ _ _ _) as [i|c'].
      * destruct IH as (e0 & l1 & l2 & -> & -> & Hh & Hn). exists e0, (e :: l1), l2. cbn [length app].
        split; [reflexivity|]. split; [lia|]. split; [assumption|]. intros x [<-|Hx]; auto.
      * destruct IH as [Hn Hs']. rewrite <- app_assoc in Hs'. split; [|exact Hs']. intros x [<-|Hx]; auto.
Qed.
End Search.

(** ** The invariant of the table *)

(** Only a pending entry has a packet; ages are below their limits. *)
Record entry_ok (e : etharp_entry) : Prop := {
  eo_queue : e.(st) <> ETHARP_STATE_PENDING -> e.(q) = 0;
  eo_addr : length e.(ethaddr) = 6%nat;
  eo_ctime : 0 <= e.(ctime);
  eo_age : e.(st) <> ETHARP_STATE_EMPTY -> e.(ctime) < ARP_MAXAGE;
  eo_pending : e.(st) = ETHARP_STATE_PENDING -> e.(ctime) < ARP_MAXPENDING }.

Section Table.
Context {PMem : PbufMemory}.
Variable NOASSERT : bool.
Variable custom_free_function : Z -> PB unit.
Variable tcpip_callback_ok : pst -> bool.
Variables SUPPORT_STATIC_ENTRIES TABLE_MATCH_NETIF : bool.
Variable linkoutput : Z -> Z -> AM err_t.
Variable ip4_input : Z -> Z -> AM unit.
Variable ip4_route : Z -> AM Z.

Abbreviation free_entry := (etharp_free_entry NOASSERT custom_free_function).
Abbreviation find_entry := (etharp_find_entry NOASSERT custom_free_function SUPPORT_STATIC_ENTRIES TABLE_MATCH_NETIF).
Abbreviation old_entry := (old_entry SUPPORT_STATIC_ENTRIES).

(** The entry is for the address (and, if configured, the interface). *)
Definition has_key (ip n : Z) (e : etharp_entry) : Prop :=
  e.(ipaddr) = ip /\ (TABLE_MATCH_NETIF = true -> e.(e_netif) = n).

(** No other entry in use is for the address. *)
Definition alone (i : nat) (ip n : Z) (t : list etharp_entry) : Prop := forall j e,
  j <> i -> nth_error t j = Some e -> e.(st) <> ETHARP_STATE_EMPTY -> ~ has_key ip n e.

Record table_ok (t : list etharp_entry) : Prop := {
  to_length : length t = ARP_TABLE_SIZE;
  to_entries : Forall entry_ok t;
  to_unique : forall i e, nth_error t i = Some e -> e.(st) <> ETHARP_STATE_EMPTY -> alone i e.(ipaddr) e.(e_netif) t }.

(** ** What [etharp_find_entry] does *)

Inductive decision := Use (i : nat) | Refuse | Fresh (i : nat) | Recycle (i : nat).

Definition hit (ip n : Z) (e : etharp_entry) : bool := negb (empty_entry e) && is_match TABLE_MATCH_NETIF ip n e.

(** The entry that is chosen: one that matches, else the first empty one, else
    the oldest stable one, the oldest pending one without a packet, the oldest
    pending one. *)
Inductive selects (t : list etharp_entry) (ip flags n : Z) : decision -> Prop :=
| sel_match i : first_of (hit ip n) t i -> selects t ip flags n (Use i)
| sel_find_only : none_of (hit ip n) t -> flags .& ETHARP_FLAG_FIND_ONLY <> 0 -> selects t ip flags n Refuse
| sel_empty i : none_of (hit ip n) t -> flags .& ETHARP_FLAG_FIND_ONLY = 0 -> first_of empty_entry t i ->
    selects t ip flags n (Fresh i)
| sel_full : none_of (hit ip n) t -> none_of empty_entry t -> flags .& ETHARP_FLAG_TRY_HARD = 0 -> selects t ip flags n Refuse
| sel_recycle (P : etharp_entry -> bool) i : none_of (hit ip n) t -> flags .& ETHARP_FLAG_FIND_ONLY = 0 -> flags .& ETHARP_FLAG_TRY_HARD <> 0 ->
    none_of empty_entry t -> oldest P t i ->
    P = old_entry \/ (none_of old_entry t /\ (P = pending_entry \/ (none_of pending_entry t /\ P = queueing_entry))) ->
    selects t ip flags n (Recycle i)
| sel_static : none_of (hit ip n) t -> none_of empty_entry t -> none_of old_entry t -> none_of pending_entry t ->
    none_of queueing_entry t -> selects t ip flags n Refuse.

(** A fresh entry for an address. *)
Definition init_entry (ip n : Z) (e : etharp_entry) : etharp_entry :=
  e <| ipaddr := ip |> <| ctime := 0 |> <| e_netif := if TABLE_MATCH_NETIF then n else e.(e_netif) |>.

Definition set_fresh (i : nat) (ip n : Z) : AM (option nat) :=
  modify (fun s => s <| arp_table := alter_at i (init_entry ip n) s.(arp_table) |>) ;; ret (Some i).

Definition perform (ip n : Z) (d : decision) : AM (option nat) :=
  match d with
  | Use i => ret (Some i)
  | Refuse => ret None
  | Fresh i => set_fresh i ip n
  | Recycle i => free_entry i ;; set_fresh i ip n
  end.

Lemma pb_inv {A} (m : PB A) (s : ast) a s' : pb m s = Ok (a, s') -> exists m', m s.(pm) = Ok (a, m') /\ s' = s <| pm := m' |>.
Proof. unfold pb. destruct (m s.(pm)) as [[x m']| |]; intros [= <- <-]; eauto. Qed.

Lemma bind_pb_assert {A} c (k : unit -> AM A) s : c = true -> bind (assert NOASSERT c) k s = k tt s.
Proof. intros ->. unfold assert, LWIP_ASSERT, bind, pb. destruct NOASSERT; cbn; now destruct s. Qed.

Lemma bind_arp_entry {A} i e (k : etharp_entry -> AM A) s : nth_error s.(arp_table) i = Some e -> bind (entry i) k s = k e s.
Proof. intros E. unfold bind, entry. now rewrite E. Qed.

(** Freeing an entry frees its packet and clears it. *)
Lemma free_entry_eq i e s : nth_error s.(arp_table) i = Some e -> free_entry i s =
  ((when negb (e.(q) =? 0) then free NOASSERT custom_free_function e.(q)) ;;
   modify (fun s => s <| arp_table := alter_at i (fun e => e <| q := 0 |> <| st := ETHARP_STATE_EMPTY |>) s.(arp_table) |>)) s.
Proof.
  intros E. unfold etharp_free_entry. rewrite (bind_arp_entry _ _ _ _ E). destruct (Z.eqb_spec e.(q) 0) as [Hq|Hq]; cbn [negb].
  - rewrite !bind_ret. unfold set_entry, modify.
    now rewrite (alter_ext i _ (fun e => e <| q := 0 |> <| st := ETHARP_STATE_EMPTY |>))
      by (intros x Hx; replace x with e by congruence; destruct e; cbn in *; now subst).
  - unfold bind. destruct (free NOASSERT custom_free_function e.(q) s) as [[[] s1]| |]; try reflexivity. unfold set_entry, modify. cbn.
    now rewrite alter_alter.
Qed.

Lemma first_of_nth P t i : first_of P t i -> exists e, nth_error t i = Some e /\ P e = true.
Proof. intros (e & Hi & HP & _). eauto. Qed.

Lemma nth_error_table s i e : table_ok s.(arp_table) -> nth_error s.(arp_table) i = Some e -> (i < ARP_TABLE_SIZE)%nat.
Proof. intros H Hi. rewrite <- (to_length _ H). apply nth_error_Some. congruence. Qed.

Lemma ltb_size i : (i < ARP_TABLE_SIZE)%nat -> (i <? ARP_TABLE_SIZE)%nat = true /\ (i =? ARP_TABLE_SIZE)%nat = false.
Proof. intros H. split; [now apply Nat.ltb_lt|apply Nat.eqb_neq; lia]. Qed.

(** The entry that was chosen is set up. *)
Lemma fresh_eq i ip n e (s : ast) : (i < ARP_TABLE_SIZE)%nat -> nth_error s.(arp_table) i = Some e -> e.(st) = ETHARP_STATE_EMPTY ->
  (assert NOASSERT (i <? ARP_TABLE_SIZE)%nat ;;
   do e <- entry i;
   assert NOASSERT (etharp_state_eqb e.(st) ETHARP_STATE_EMPTY) ;;
   set_entry i (fun e => e <| ipaddr := ip |>) ;;
   set_entry i (fun e => e <| ctime := 0 |>) ;;
   (when TABLE_MATCH_NETIF then set_entry i (fun e => e <| e_netif := n |>)) ;;
   ret (Some i)) s = set_fresh i ip n s.
Proof.
  intros Hi E Est. rewrite bind_pb_assert by (now apply ltb_size). rewrite (bind_arp_entry _ _ _ _ E), bind_pb_assert by (now rewrite Est).
  unfold set_fresh, set_entry. rewrite !bind_modify. unfold init_entry.
  destruct TABLE_MATCH_NETIF; rewrite ?bind_modify, ?bind_ret; unfold ret; cbn; now rewrite ?alter_alter.
Qed.

Lemma free_keeps p (s : ast) s' : free NOASSERT custom_free_function p s = Ok (tt, s') -> arp_table s' = arp_table s /\ etharp_cached_entry s' = etharp_cached_entry s.
Proof.
  intros E. apply bind_inv in E. destruct E as (c & s1 & E & [= ->]). apply pb_inv in E. destruct E as (m' & _ & ->). now split.
Qed.

(** Recycling an entry. *)
Lemma recycle_eq i ip n (s : ast) : table_ok s.(arp_table) -> (exists e, nth_error s.(arp_table) i = Some e) ->
  (do r <- (assert NOASSERT (i <? ARP_TABLE_SIZE)%nat ;; free_entry i ;; ret (Some i));
   match r with
   | None => ret None
   | Some i =>
       assert NOASSERT (i <? ARP_TABLE_SIZE)%nat ;;
       do e <- entry i;
       assert NOASSERT (etharp_state_eqb e.(st) ETHARP_STATE_EMPTY) ;;
       set_entry i (fun e => e <| ipaddr := ip |>) ;;
       set_entry i (fun e => e <| ctime := 0 |>) ;;
       (when TABLE_MATCH_NETIF then set_entry i (fun e => e <| e_netif := n |>)) ;;
       ret (Some i)
   end) s = perform ip n (Recycle i) s.
Proof.
  intros Ht [e Hi]. pose proof (nth_error_table _ _ _ Ht Hi) as Hlt. rewrite !bind_assoc, bind_pb_assert by (now apply ltb_size).
  rewrite bind_assoc. cbn [perform]. apply bind_cong. intros [] s1 E. rewrite bind_ret. rewrite (free_entry_eq _ _ _ Hi) in E.
  apply bind_inv in E. destruct E as ([] & s2 & E1 & [= <-]).
  assert (Hs2 : arp_table s2 = arp_table s) by (destruct (negb (q e =? 0)); [now apply free_keeps in E1|now injection E1 as <-]).
  eapply fresh_eq; [assumption|cbn [arp_table with_field]; rewrite nth_error_alter, Nat.eqb_refl, Hs2, Hi; reflexivity|reflexivity].
Qed.

(** Which class the search found a candidate in. *)
Lemma remembers_cases P t i age : length t = ARP_TABLE_SIZE -> remembers P t i age ->
  (i = ARP_TABLE_SIZE /\ (i <? ARP_TABLE_SIZE)%nat = false /\ none_of P t) \/
  ((i <? ARP_TABLE_SIZE)%nat = true /\ oldest P t i).
Proof.
  intros Hlen [(-> & _ & Hn)|[Ho _]]; [left; auto|right]. split; [|assumption]. destruct Ho as (e & Hi & _).
  apply Nat.ltb_lt. rewrite <- Hlen. apply nth_error_Some. congruence.
Qed.

Lemma oldest_nth P t i : oldest P t i -> exists e, nth_error t i = Some e /\ P e = true.
Proof. intros (e & Hi & HP & _). eauto. Qed.

Lemma find_entry_selects s ip flags n : table_ok s.(arp_table) ->
  exists d, selects s.(arp_table) ip flags n d /\ find_entry ip flags n s = perform ip n d s.
Proof.
  intros Ht. pose proof Ht as [Hlen Hent _]. unfold etharp_find_entry. rewrite bind_gets.
  assert (Hct : Forall (fun e => 0 <= ctime e) (arp_table s)) by (eapply Forall_impl; [|exact Hent]; intros e He; apply He).
  pose proof (sweep_spec SUPPORT_STATIC_ENTRIES TABLE_MATCH_NETIF ip n _ [] search_start (seen_start _) ltac:(rewrite Hlen; cbn; lia) Hct) as Hsw.
  cbn [length] in Hsw. cbv zeta in Hsw. fold (hit ip n) in Hsw.
  destruct (Etharp.sweep _ _ _ _ _ _ _) as [i|c].
  - destruct Hsw as (e & l1 & l2 & Ht12 & -> & Hh & Hn). exists (Use (length l1)). split; [|reflexivity].
    apply sel_match. exists e. rewrite Ht12. split; [apply nth_error_middle|]. split; [assumption|].
    rewrite firstn_app, Nat.sub_diag, firstn_all. cbn [firstn]. now rewrite app_nil_r.
  - destruct Hsw as [Hn [H1 H2 H3 H4]]. cbn [app] in *.
    destruct (Z.eqb_spec (flags .& ETHARP_FLAG_FIND_ONLY) 0) as [Hfo|Hfo]; cbn [negb orb];
      [|exists Refuse; split; [now apply sel_find_only|reflexivity]].
    destruct H1 as [[He Hne]|Hf].
    2:{ destruct (first_of_nth _ _ _ Hf) as (e & Hi & HP). pose proof (nth_error_table _ _ _ Ht Hi) as Hlt.
        destruct (ltb_size _ Hlt) as [L1 L2]. rewrite L2. cbn [andb]. exists (Fresh c.(empty)). split; [now apply sel_empty|].
        unfold choose. rewrite L1, bind_ret. eapply fresh_eq; [assumption|exact Hi|].
        unfold empty_entry in HP. now destruct (etharp_state_eqb_spec e.(st) ETHARP_STATE_EMPTY). }
    rewrite He, Nat.eqb_refl. cbn [andb]. destruct (Z.eqb_spec (flags .& ETHARP_FLAG_TRY_HARD) 0) as [Hth|Hth];
      [exists Refuse; split; [now apply sel_full|reflexivity]|].
    unfold choose. rewrite He, Nat.ltb_irrefl.
    destruct (remembers_cases _ _ _ _ Hlen H2) as [(_ & -> & N2)|[-> O2]].
    2:{ destruct (oldest_nth _ _ _ O2) as (e & Hi & HP). exists (Recycle c.(old_stable)). split; [eapply sel_recycle; eauto|].
        rewrite !bind_assoc, (bind_arp_entry _ _ _ _ Hi), bind_assoc, bind_pb_assert; [rewrite bind_ret; apply (recycle_eq _ _ _ _ Ht); eauto|].
        apply Z.eqb_eq. rewrite Forall_forall in Hent. apply (Hent e (nth_error_In _ _ Hi)). intros E. unfold EtharpInv.old_entry in HP. rewrite E in HP. discriminate. }
    destruct (remembers_cases _ _ _ _ Hlen H3) as [(_ & -> & N3)|[-> O3]].
    2:{ exists (Recycle c.(old_pending)). split; [eapply sel_recycle; eauto|].
        destruct (oldest_nth _ _ _ O3) as (e & Hi & HP). rewrite bind_assoc, bind_ret. apply (recycle_eq _ _ _ _ Ht). eauto. }
    destruct (remembers_cases _ _ _ _ Hlen H4) as [(_ & -> & N4)|[-> O4]].
    2:{ exists (Recycle c.(old_queue)). split; [eapply sel_recycle; eauto|].
        destruct (oldest_nth _ _ _ O4) as (e & Hi & HP). rewrite bind_assoc, bind_ret. apply (recycle_eq _ _ _ _ Ht). eauto. }
    exists Refuse. split; [now apply sel_static|reflexivity].
Qed.

(** [etharp_find_entry] uses the entry of the address if there is one;
    otherwise, unless it may only search, it sets up the first empty entry, or,
    if it may recycle and the table is full, frees and sets up the oldest stable
    entry, else the oldest pending entry without a packet, else the oldest
    pending entry.  Static entries are never recycled. *)
Theorem etharp_find_entry_selects s ip flags n : table_ok s.(arp_table) ->
  exists d, selects s.(arp_table) ip flags n d /\ find_entry ip flags n s = perform ip n d s.
Proof. apply find_entry_selects. Qed.

Lemma first_of_inj P t i j : first_of P t i -> first_of P t j -> i = j.
Proof.
  assert (H : forall i j, first_of P t i -> first_of P t j -> (i < j)%nat -> False).
  { intros a b (e & Ha & HP & _) (_ & _ & _ & Hn) Hlt. rewrite (Hn e) in HP; [discriminate|].
    apply nth_error_In with (n := a). now rewrite nth_error_firstn, (proj2 (Nat.ltb_lt _ _) Hlt). }
  intros Hi Hj. destruct (Nat.lt_trichotomy i j) as [Hlt|[E|Hlt]]; [exfalso; eauto|assumption|exfalso; eauto].
Qed.

Lemma first_not_none P t i : first_of P t i -> ~ none_of P t.
Proof. intros (e & Hi & HP & _) Hn. rewrite (Hn e) in HP; [discriminate|eapply nth_error_In; eauto]. Qed.

(** The two outcomes in which nothing is recycled. *)
Lemma find_hit s ip flags n i : table_ok s.(arp_table) -> first_of (hit ip n) s.(arp_table) i -> find_entry ip flags n s = Ok (Some i, s).
Proof.
  intros Ht Hf. pose proof (first_not_none _ _ _ Hf) as Hnn. destruct (find_entry_selects s ip flags n Ht) as (d & Hd & ->).
  destruct Hd as [j Hj| | | | | ]; try contradiction. now rewrite (first_of_inj _ _ _ _ Hf Hj).
Qed.

Lemma find_fresh s ip flags n i : table_ok s.(arp_table) -> none_of (hit ip n) s.(arp_table) -> first_of empty_entry s.(arp_table) i ->
  flags .& ETHARP_FLAG_FIND_ONLY = 0 -> find_entry ip flags n s = set_fresh i ip n s.
Proof.
  intros Ht Hn Hf Hfl. pose proof (first_not_none _ _ _ Hf) as Hnn. destruct (find_entry_selects s ip flags n Ht) as (d & Hd & ->).
  destruct Hd as [j Hj|? ?|j ? ? Hj| | | ]; try contradiction; [exfalso; exact (first_not_none _ _ _ Hj Hn)|].
  now rewrite (first_of_inj _ _ _ _ Hf Hj).
Qed.

(** ** Code that leaves the table alone *)

Definition kept (s s' : ast) : Prop :=
  s'.(arp_table) = s.(arp_table) /\ s'.(etharp_cached_entry) = s.(etharp_cached_entry).
Definition keeps {A} (m : AM A) : Prop := forall s a s', m s = Ok (a, s') -> kept s s'.

Lemma table_keeps_ret {A} (a : A) : keeps (ret a).
Proof. intros s b s' [= _ <-]. now split. Qed.
Lemma table_keeps_gets {A} (f : ast -> A) : keeps (gets f).
Proof. intros s b s' [= _ <-]. now split. Qed.
Lemma table_keeps_halt {A} : keeps (@halt ast A).
Proof. intros s b s' E. discriminate. Qed.
Lemma table_keeps_hang {A} : keeps (@hang ast A).
Proof. intros s b s' E. discriminate. Qed.
Lemma keeps_pb {A} (m : PB A) : keeps (pb m).
Proof. intros s a s' E. apply pb_inv in E. destruct E as (m' & _ & ->). now split. Qed.
Lemma table_keeps_bind {A B} (m : AM A) (k : A -> AM B) : keeps m -> (forall a, keeps (k a)) -> keeps (bind m k).
Proof.
  intros Hm Hk s b s' E. apply bind_inv in E. destruct E as (a & s1 & E1 & E2).
  destruct (Hm _ _ _ E1) as [H1 H2], (Hk _ _ _ _ E2) as [H3 H4]. split; congruence.
Qed.
Lemma keeps_stat f : keeps (stat f).
Proof. intros s a s' [= _ <-]. now split. Qed.
Lemma table_keeps_store a l : keeps (store a l).
Proof. intros s b s' [= _ <-]. now split. Qed.
Lemma keeps_lenerr : keeps (modify (fun s : ast => s <| link_lenerr := u16 (s.(link_lenerr) + 1) |>)).
Proof. intros s b s' [= _ <-]. now split. Qed.
Lemma keeps_entry i : keeps (entry i).
Proof. intros s e s'. unfold entry. destruct (nth_error _ _); intros [= _ <-]. now split. Qed.

Create HintDb keeps.
#[local] Hint Resolve table_keeps_ret table_keeps_gets table_keeps_halt table_keeps_hang keeps_pb keeps_stat table_keeps_store keeps_lenerr keeps_entry : keeps.
(** Split the code into its steps. *)
Ltac keeps_step :=
  match goal with
  | |- keeps (bind _ _) => apply table_keeps_bind; [|intros]
  | |- keeps (if ?c then _ else _) => destruct c
  | |- keeps (match ?c with _ => _ end) => destruct c
  | |- keeps (let _ := _ in _) => cbv zeta
  | _ => solve [eauto with keeps]
  end.
Ltac keeps_auto := repeat keeps_step.

(** The driver and the routing table do not touch the ARP table. *)
Hypothesis link_keeps : forall n p, keeps (linkoutput n p).
Hypothesis route_keeps : forall ip, keeps (ip4_route ip).
#[local] Hint Resolve link_keeps route_keeps : keeps.

Lemma keeps_deref a : keeps (deref_eth a).
Proof. destruct a; apply table_keeps_gets || apply table_keeps_ret. Qed.
#[local] Hint Resolve keeps_deref : keeps.
Lemma keeps_free p : keeps (free NOASSERT custom_free_function p).
Proof. unfold free. keeps_auto. Qed.
#[local] Hint Resolve keeps_free : keeps.
Lemma keeps_copy_eth dst src : keeps (ETHADDR_COPY dst src).
Proof. unfold ETHADDR_COPY. keeps_auto. Qed.
#[local] Hint Resolve keeps_copy_eth : keeps.

Abbreviation output := (ethernet_output NOASSERT linkoutput).
Abbreviation request := (etharp_request NOASSERT custom_free_function tcpip_callback_ok linkoutput).

Lemma keeps_output n p src dst ty : keeps (output n p src dst ty).
Proof. unfold ethernet_output, netif_at, pbuf_at. keeps_auto. Qed.
#[local] Hint Resolve keeps_output : keeps.
Lemma keeps_request_dst n ip dst : keeps (etharp_request_dst NOASSERT custom_free_function tcpip_callback_ok linkoutput n ip dst).
Proof. unfold etharp_request_dst, etharp_raw, netif_at, pbuf_at, alloc, STATS_memerr, assert. keeps_auto. Qed.
#[local] Hint Resolve keeps_request_dst : keeps.
Lemma keeps_request n ip : keeps (request n ip).
Proof. unfold etharp_request. keeps_auto. Qed.
#[local] Hint Resolve keeps_request : keeps.
Lemma keeps_scan fuel : forall p, keeps (copy_scan NOASSERT fuel p).
Proof. induction fuel as [|fuel IH]; intros p; cbn [copy_scan]; unfold pbuf_at, assert; keeps_auto. Qed.
#[local] Hint Resolve keeps_scan : keeps.
Lemma keeps_take_over p : keeps (take_over NOASSERT custom_free_function tcpip_callback_ok p).
Proof. unfold take_over, pbuf_at, alloc. keeps_auto. Qed.
#[local] Hint Resolve keeps_take_over : keeps.
Lemma keeps_reply p n h : keeps (arp_reply NOASSERT linkoutput p n h).
Proof. unfold arp_reply, netif_at, load, assert. keeps_auto. Qed.
Lemma keeps_mark p h : keeps (mark_cast p h).
Proof. unfold mark_cast, load. keeps_auto. Qed.
#[local] Hint Resolve keeps_reply keeps_mark : keeps.

(** ** Code that changes the table *)

Definition inv (s : ast) : Prop := table_ok s.(arp_table) /\ 0 <= s.(etharp_cached_entry) < Z.of_nat ARP_TABLE_SIZE.
Definition preserves {A} (m : AM A) : Prop := forall s a s', inv s -> m s = Ok (a, s') -> inv s'.

Lemma kept_inv s s' : kept s s' -> inv s -> inv s'.
Proof. unfold inv. intros [-> ->]. auto. Qed.
Lemma keeps_preserves {A} (m : AM A) : keeps m -> preserves m.
Proof. intros Hm s a s' Hs E. exact (kept_inv _ _ (Hm _ _ _ E) Hs). Qed.
Lemma preserves_bind {A B} (m : AM A) (k : A -> AM B) : preserves m -> (forall a, preserves (k a)) -> preserves (bind m k).
Proof. intros Hm Hk s b s' Hs E. apply bind_inv in E. destruct E as (a & s1 & E1 & E2). eapply Hk; [|exact E2]. eapply Hm; eauto. Qed.

Lemma entry_ok_at t i e : table_ok t -> nth_error t i = Some e -> entry_ok e.
Proof. intros H Hi. pose proof (to_entries _ H) as Hf. rewrite Forall_forall in Hf. apply Hf. eapply nth_error_In; eauto. Qed.

(** Changing one entry. *)
Lemma table_put t i f e : table_ok t -> nth_error t i = Some e -> entry_ok (f e) ->
  ((f e).(st) <> ETHARP_STATE_EMPTY -> alone i (f e).(ipaddr) (f e).(e_netif) t) -> table_ok (alter_at i f t).
Proof.
  intros Ht Hi He Hal. assert (Hnth : forall j x, nth_error (alter_at i f t) j = Some x -> (j = i /\ x = f e) \/ (j <> i /\ nth_error t j = Some x)).
  { intros j x. rewrite nth_error_alter. destruct (Nat.eqb_spec j i) as [->|Hne]; [rewrite Hi; cbn; intros [= <-]; auto|auto]. }
  split.
  - rewrite length_alter. apply Ht.
  - apply Forall_forall. intros x Hx. apply In_nth_error in Hx. destruct Hx as [j Hj].
    destruct (Hnth j x Hj) as [[_ ->]|[_ Hj']]; [assumption|]. exact (entry_ok_at _ _ _ Ht Hj').
  - intros j x Hj Hx k y Hk Hy Hne Hkey.
    destruct (Hnth j x Hj) as [[-> ->]|[Hji Hj']], (Hnth k y Hy) as [[-> ->]|[Hki Hk']]; [congruence| | |].
    + exact (Hal Hx k y Hki Hk' Hne Hkey).
    + destruct Hkey as [K1 K2]. apply (Hal Hne j x ltac:(congruence) Hj' Hx). split; [congruence|]. intros Em. symmetry. auto.
    + exact (to_unique _ Ht j x Hj' Hx k y Hk Hk' Hne Hkey).
Qed.

Lemma alone_alter i ip n f t : alone i ip n (alter_at i f t) <-> alone i ip n t.
Proof.
  unfold alone. assert (E : forall j, j <> i -> nth_error (alter_at i f t) j = nth_error t j)
    by (intros j Hj; rewrite nth_error_alter; now destruct (Nat.eqb_spec j i)).
  split; intros H j e Hj Hn; apply (H j e Hj); [rewrite E by assumption|rewrite <- E by assumption]; exact Hn.
Qed.

(** Clearing an entry. *)
Lemma free_entry_clears i e s s' : nth_error s.(arp_table) i = Some e -> free_entry i s = Ok (tt, s') ->
  arp_table s' = alter_at i (fun e => e <| q := 0 |> <| st := ETHARP_STATE_EMPTY |>) s.(arp_table) /\
  etharp_cached_entry s' = etharp_cached_entry s.
Proof.
  intros Hi E. rewrite (free_entry_eq _ _ _ Hi) in E. apply bind_inv in E. destruct E as ([] & s1 & E1 & [= <-]).
  assert (K : kept s s1) by (destruct (negb _); [exact (keeps_free _ _ _ _ E1)|exact (table_keeps_ret _ _ _ _ E1)]).
  destruct K as [<- <-]. now split.
Qed.

Lemma entry_inv i s e s' : entry i s = Ok (e, s') -> s' = s /\ nth_error (arp_table s) i = Some e.
Proof. unfold entry. destruct (nth_error _ _) eqn:E; intros [= <- <-]. now split. Qed.

Lemma cleared_ok t i f e : table_ok t -> nth_error t i = Some e -> 0 <= (f e).(ctime) -> (f e).(ethaddr) = e.(ethaddr) ->
  table_ok (alter_at i (fun e => e <| q := 0 |> <| st := ETHARP_STATE_EMPTY |>) (alter_at i f t)).
Proof.
  intros Ht Hi Hc Ha. rewrite alter_alter. apply (table_put _ _ _ _ Ht Hi); cbn; [|congruence].
  destruct (entry_ok_at _ _ _ Ht Hi). split; cbn; auto; congruence.
Qed.

Lemma free_entry_preserves i : preserves (free_entry i).
Proof.
  intros s [] s' [Ht Hc] E. assert (Hi : exists e, nth_error (arp_table s) i = Some e).
  { pose proof E as E'. apply bind_inv in E'. destruct E' as (e & s1 & E1 & _). apply entry_inv in E1. destruct E1. eauto. }
  destruct Hi as [e Hi]. destruct (free_entry_clears _ _ _ _ Hi E) as [K1 K2]. unfold inv. rewrite K1, K2. split; [|assumption].
  replace (arp_table s) with (alter_at i (fun e => e) (arp_table s)) at 1.
  - apply (cleared_ok _ _ _ e Ht Hi); [apply (entry_ok_at _ _ _ Ht Hi)|reflexivity].
  - clear. generalize (arp_table s). intros t. revert i. induction t as [|x t IH]; intros [|i]; cbn; [reflexivity..|now rewrite IH].
Qed.

Lemma hit_key ip n e : n <> 0 -> hit ip n e = true -> e.(st) <> ETHARP_STATE_EMPTY /\ has_key ip n e.
Proof.
  intros Hn H. apply andb_prop in H. destruct H as [H1 H2]. unfold empty_entry, is_match in *.
  destruct (etharp_state_eqb_spec e.(st) ETHARP_STATE_EMPTY); [discriminate|]. apply andb_prop in H2. destruct H2 as [H2 H3].
  apply Z.eqb_eq in H2. rewrite (proj2 (Z.eqb_neq _ _) Hn) in H3. cbn [orb] in H3.
  split; [assumption|]. split; [easy|]. intros Em. rewrite Em in H3. cbn in H3. apply Z.eqb_eq in H3. easy.
Qed.

Lemma key_hit ip n e : e.(st) <> ETHARP_STATE_EMPTY -> has_key ip n e -> hit ip n e = true.
Proof.
  intros Hne [H1 H2]. unfold hit, empty_entry, is_match. destruct (etharp_state_eqb_spec e.(st) ETHARP_STATE_EMPTY); [contradiction|].
  rewrite H1, Z.eqb_refl. cbn. destruct TABLE_MATCH_NETIF; [|reflexivity]. rewrite H2, Z.eqb_refl by reflexivity. apply orb_true_r.
Qed.

Lemma none_alone i ip n t : none_of (hit ip n) t -> alone i ip n t.
Proof. intros H j e _ Hj Hne Hk. apply nth_error_In in Hj. specialize (H e Hj). rewrite key_hit in H; [discriminate|assumption..]. Qed.

(** The entry that was found or set up is the only one for the address. *)
Definition found (i : nat) (ip n : Z) (s : ast) : Prop :=
  inv s /\ alone i ip n s.(arp_table) /\ exists e, nth_error s.(arp_table) i = Some e /\ e.(ipaddr) = ip /\
    (e.(st) = ETHARP_STATE_EMPTY -> e.(ctime) = 0).

Lemma set_fresh_found i ip n s r s' : inv s -> none_of (hit ip n) s.(arp_table) ->
  (exists e, nth_error s.(arp_table) i = Some e /\ e.(st) = ETHARP_STATE_EMPTY) ->
  set_fresh i ip n s = Ok (r, s') -> r = Some i /\ found i ip n s'.
Proof.
  intros [Ht Hc] Hn (e & Hi & He). unfold set_fresh. rewrite bind_modify. intros [= <- <-]. split; [reflexivity|].
  unfold found, inv. cbn [arp_table etharp_cached_entry with_field]. split; [split; [|assumption]|].
  - apply (table_put _ _ _ _ Ht Hi); [|cbn; congruence]. destruct (entry_ok_at _ _ _ Ht Hi). split; cbn; auto; try lia; congruence.
  - split; [now apply alone_alter, none_alone|]. rewrite nth_error_alter, Nat.eqb_refl, Hi. now eexists.
Qed.

Lemma find_entry_found ip flags n s r s' : n <> 0 -> inv s -> find_entry ip flags n s = Ok (r, s') ->
  match r with Some i => found i ip n s' | None => s' = s end.
Proof.
  intros Hn0 Hs E. destruct (find_entry_selects s ip flags n (proj1 Hs)) as (d & Hd & E'). rewrite E' in E.
  assert (Hemp : forall i, first_of empty_entry (arp_table s) i -> exists e, nth_error (arp_table s) i = Some e /\ st e = ETHARP_STATE_EMPTY).
  { intros i Hf. destruct (first_of_nth _ _ _ Hf) as (e & Hi & He). exists e. split; [assumption|].
    unfold empty_entry in He. now destruct (etharp_state_eqb_spec e.(st) ETHARP_STATE_EMPTY). }
  destruct Hd as [i Hf|_ _|i Hn _ Hf|_ _ _|P i Hn _ _ _ Ho _|_ _ _ _ _]; cbn [perform] in E; try (injection E as <- <-; reflexivity).
  - injection E as <- <-. destruct (first_of_nth _ _ _ Hf) as (e & Hi & Hh). destruct (hit_key _ _ _ Hn0 Hh) as [Hne [K1 K2]].
    split; [assumption|]. split; [|now exists e]. intros j x Hj Hx Hxe [K3 K4].
    apply (to_unique _ (proj1 Hs) i e Hi Hne j x Hj Hx Hxe). split; [congruence|]. intros Em. rewrite K2, K4; auto.
  - destruct (set_fresh_found _ _ _ _ _ _ Hs Hn (Hemp i Hf) E) as [-> H]. exact H.
  - apply bind_inv in E. destruct E as ([] & s1 & E1 & E2). pose proof (free_entry_preserves i _ _ _ Hs E1) as Hs1.
    destruct (oldest_nth _ _ _ Ho) as (e & Hi & _). destruct (free_entry_clears _ _ _ _ Hi E1) as [K _].
    destruct (set_fresh_found i ip n _ r s' Hs1) as [-> H]; [| |exact E2|exact H]; rewrite K.
    + intros x Hx. apply In_nth_error in Hx. destruct Hx as [j Hj]. rewrite nth_error_alter in Hj.
      destruct (Nat.eqb_spec j i) as [Eji|Eji]; [rewrite Eji, Hi in Hj; injection Hj as <-; reflexivity|].
      apply Hn. eapply nth_error_In; eauto.
    + rewrite nth_error_alter, Nat.eqb_refl, Hi. now eexists.
Qed.

(** A pointer to six bytes. *)
Definition eth_ok (a : eth_ptr) : Prop := match a with InPacket _ => True | Value l => (6 <= length l)%nat end.

Lemma deref_length a s l s' : eth_ok a -> deref_eth a s = Ok (l, s') -> length l = 6%nat.
Proof.
  destruct a as [a|x]; unfold eth_ok, deref_eth, load, gets, ret; intros Hok E.
  - replace l with (load_list (data (pm s)) a ETH_HWADDR_LEN) by congruence. now rewrite load_list_length.
  - replace l with (firstn (Z.to_nat ETH_HWADDR_LEN) x) by congruence. rewrite length_firstn. change (Z.to_nat ETH_HWADDR_LEN) with 6%nat. lia.
Qed.

Abbreviation record := (record_entry NOASSERT custom_free_function linkoutput).
Abbreviation update := (etharp_update_arp_entry NOASSERT custom_free_function SUPPORT_STATIC_ENTRIES TABLE_MATCH_NETIF linkoutput).

Lemma record_preserves i ip n addr st' s r s' : eth_ok addr -> stable_up st' = true -> found i ip n s ->
  record i n addr st' s = Ok (r, s') -> inv s'.
Proof.
  intros Ha Hst ([Ht Hc] & Hal & e & Hi & He & _) E. unfold record_entry, set_entry in E. rewrite !bind_modify in E.
  apply bind_inv in E. destruct E as (a & s1 & E1 & E). pose proof (deref_length _ _ _ _ Ha E1) as Hlen.
  apply keeps_deref in E1. destruct E1 as [K1 K2]. cbn [arp_table etharp_cached_entry with_field] in K1, K2. rewrite !bind_modify in E.
  set (new := fun e0 => mkEntry (q e0) (ipaddr e0) n a 0 st').
  assert (Hnew : forall t : list etharp_entry, alter_at i (fun e0 => e0 <| ctime := 0 |>) (alter_at i (fun e0 => e0 <| ethaddr := a |>)
      (alter_at i (fun e0 => e0 <| e_netif := n |>) (alter_at i (fun e0 => e0 <| st := st' |>) t))) = alter_at i new t)
    by (intros t; rewrite !alter_alter; reflexivity).
  assert (Hput : forall s2, arp_table s2 = alter_at i (fun e0 => e0 <| q := 0 |>) (alter_at i new (arp_table s)) ->
      etharp_cached_entry s2 = etharp_cached_entry s -> inv s2).
  { intros s2 H1 H2. split; [|now rewrite H2]. rewrite H1, alter_alter.
    apply (table_put _ _ _ _ Ht Hi); cbn; [|intros _; rewrite He; exact Hal].
    split; cbn; try reflexivity; lia. }
  cbn [arp_table with_field] in E. rewrite K1, Hnew in E. clear Hnew.
  rewrite (bind_arp_entry i (new e)) in E by (cbn [arp_table with_field]; now rewrite nth_error_alter, Nat.eqb_refl, Hi).
  cbn [new q] in E. destruct (Z.eqb_spec e.(q) 0) as [Hq|Hq]; cbn [negb] in E.
  - injection E as <- <-. apply Hput; [|assumption]. cbn [arp_table with_field]. rewrite alter_alter. apply alter_ext.
    intros x Hx. replace x with e by congruence. unfold new. cbn. now rewrite Hq.
  - assert (Kt : keeps (do nf <- netif_at n; output n (q e) (Value (hwaddr nf)) addr ETHTYPE_IP ;; free NOASSERT custom_free_function (q e)))
      by (unfold netif_at; keeps_auto).
    cbv zeta in E. rewrite bind_assoc, bind_modify in E. apply bind_inv in E. destruct E as ([] & s2 & E & [= <- <-]).
    apply Kt in E. destruct E as [K3 K4]. apply Hput; [exact K3|]. rewrite K4. exact K2.
Qed.

Lemma update_preserves n ip addr flags : n <> 0 -> eth_ok addr -> preserves (update n ip addr flags).
Proof.
  intros Hn Ha s r s' Hs E. unfold etharp_update_arp_entry, netif_at in E. rewrite bind_gets in E.
  apply bind_inv in E. destruct E as ([] & s1 & E1 & E). apply keeps_pb in E1. pose proof (kept_inv _ _ E1 Hs) as Hs1. clear E1.
  destruct (_ || _ || _); [injection E as <- <-; assumption|]. apply bind_inv in E. destruct E as (f & s2 & E2 & E).
  pose proof (find_entry_found _ _ _ _ _ _ Hn Hs1 E2) as Hf. destruct f as [i|]; [|injection E as <- <-; now subst].
  apply bind_inv in E. destruct E as (e & s3 & E3 & E). assert (s3 = s2) as -> by (unfold entry in E3; destruct (nth_error _ _); congruence).
  destruct (_ && negb _); [exact (record_preserves _ _ _ _ ETHARP_STATE_STATIC _ _ _ Ha eq_refl Hf E)|].
  destruct (_ && _); [injection E as <- <-; apply Hf|exact (record_preserves _ _ _ _ ETHARP_STATE_STABLE _ _ _ Ha eq_refl Hf E)].
Qed.

Lemma static_preserves ip addr : eth_ok addr ->
  preserves (etharp_add_static_entry NOASSERT custom_free_function SUPPORT_STATIC_ENTRIES TABLE_MATCH_NETIF linkoutput ip4_route ip addr).
Proof.
  intros Ha. apply preserves_bind; [apply keeps_preserves, route_keeps|]. intros n. destruct (Z.eqb_spec n 0); [apply keeps_preserves, table_keeps_ret|].
  now apply update_preserves.
Qed.

(** A search that creates nothing. *)
Lemma find_only ip n s r s' : inv s -> find_entry ip ETHARP_FLAG_FIND_ONLY n s = Ok (r, s') -> s' = s.
Proof.
  intros Hs E. destruct (find_entry_selects s ip ETHARP_FLAG_FIND_ONLY n (proj1 Hs)) as (d & Hd & E'). rewrite E' in E.
  destruct Hd; cbn [perform] in E; try (injection E as <- <-; reflexivity); discriminate.
Qed.

Lemma remove_static_preserves ip :
  preserves (etharp_remove_static_entry NOASSERT custom_free_function SUPPORT_STATIC_ENTRIES TABLE_MATCH_NETIF ip).
Proof.
  intros s r s' Hs E. apply bind_inv in E. destruct E as (f & s1 & E1 & E). apply find_only in E1; [subst s1|assumption].
  destruct f as [i|]; [|now injection E as <- <-]. apply bind_inv in E. destruct E as (e & s2 & E2 & E).
  apply entry_inv in E2. destruct E2 as [-> _]. destruct (negb _); [now injection E as <- <-|].
  apply bind_inv in E. destruct E as ([] & s3 & E3 & [= <- <-]). exact (free_entry_preserves _ _ _ _ Hs E3).
Qed.

Lemma cleanup_preserves n k : forall i, preserves (cleanup_entries NOASSERT custom_free_function k i n).
Proof.
  induction k as [|k IH]; intros i; cbn [cleanup_entries]; [apply keeps_preserves, table_keeps_ret|].
  apply preserves_bind; [apply keeps_preserves, keeps_entry|]. intros e. apply preserves_bind; [|intros []; apply IH].
  destruct (_ && _); [apply free_entry_preserves|apply keeps_preserves, table_keeps_ret].
Qed.

Abbreviation tick := (tmr_entry NOASSERT custom_free_function tcpip_callback_ok SUPPORT_STATIC_ENTRIES linkoutput).

Lemma tmr_entry_preserves i : preserves (tick i).
Proof.
  intros s [] s' [Ht Hc] E. apply bind_inv in E. destruct E as (e & s1 & E1 & E). apply entry_inv in E1. destruct E1 as [-> Hi].
  destruct (_ && _); [|injection E as <-; now split]. unfold set_entry in E. rewrite bind_modify in E.
  destruct (entry_ok_at _ _ _ Ht Hi) as [O1 O2 O3 O4 O5].
  rewrite (bind_arp_entry i (e <| ctime := u16 (e.(ctime) + 1) |>)) in E
    by (cbn [arp_table with_field]; now rewrite nth_error_alter, Nat.eqb_refl, Hi).
  cbn [ctime st e_netif ipaddr with_field] in E.
  assert (Hct : 0 <= u16 (e.(ctime) + 1)) by (unfold u16; apply Z.mod_pos_bound; lia).
  destruct (_ || _) eqn:Eold.
  - eapply free_entry_clears in E; [|cbn [arp_table with_field]; rewrite nth_error_alter, Nat.eqb_refl, Hi; reflexivity].
    destruct E as [K1 K2]. unfold inv. rewrite K1, K2. split; [|exact Hc]. cbn [arp_table with_field].
    now apply (cleared_ok _ _ _ e Ht Hi).
  - apply orb_false_elim in Eold. destruct Eold as [Y1 Y2]. rewrite Z.geb_leb in Y1, Y2. apply Z.leb_gt in Y1.
    assert (Hs1 : inv (s <| arp_table := alter_at i (fun e0 => e0 <| ctime := u16 (e0.(ctime) + 1) |>) (arp_table s) |>)).
    { split; [|exact Hc]. cbn [arp_table with_field]. apply (table_put _ _ _ _ Ht Hi); cbn; [|apply (to_unique _ Ht _ _ Hi)].
      split; cbn; auto. intros Ep. rewrite Ep in Y2. cbn in Y2. now apply Z.leb_gt in Y2. }
    assert (Hset : forall st' s1, stable_up e.(st) = true -> stable_up st' = true -> arp_table s1 =
        alter_at i (fun e0 => e0 <| st := st' |>) (alter_at i (fun e0 => e0 <| ctime := u16 (e0.(ctime) + 1) |>) (arp_table s)) ->
        etharp_cached_entry s1 = etharp_cached_entry s -> inv s1).
    { intros st' s1 S1 S2 H1 H2. split; [|now rewrite H2]. rewrite H1, alter_alter. apply (table_put _ _ _ _ Ht Hi); cbn.
      - split; cbn; auto; [|intros ->; discriminate]. intros _. apply O1. intros Ep. rewrite Ep in S1. discriminate.
      - intros _. apply (to_unique _ Ht _ _ Hi). intros Ep. rewrite Ep in S1. discriminate. }
    destruct e.(st) eqn:Est; try (injection E as <-; exact Hs1).
    + apply bind_inv in E. destruct E as (x & s2 & E2 & [= <-]). apply keeps_request in E2. exact (kept_inv _ _ E2 Hs1).
    + injection E as <-. now apply (Hset ETHARP_STATE_STABLE_REREQUESTING_2).
    + injection E as <-. now apply (Hset ETHARP_STATE_STABLE).
Qed.

Lemma tmr_preserves k : forall i, preserves (tmr_entries NOASSERT custom_free_function tcpip_callback_ok SUPPORT_STATIC_ENTRIES linkoutput k i).
Proof.
  induction k as [|k IH]; intros i; cbn [tmr_entries]; [apply keeps_preserves, table_keeps_ret|].
  apply preserves_bind; [apply tmr_entry_preserves|intros []; apply IH].
Qed.

Lemma input_preserves p n : preserves (etharp_input NOASSERT custom_free_function SUPPORT_STATIC_ENTRIES TABLE_MATCH_NETIF linkoutput p n).
Proof.
  unfold etharp_input, error_unless. destruct (Z.eqb_spec n 0) as [Hn|Hn]; cbn [negb].
  { destruct NOASSERT; apply keeps_preserves; [apply table_keeps_ret|apply table_keeps_halt]. }
  repeat (apply preserves_bind; [apply keeps_preserves, table_keeps_gets|intros]).
  destruct (_ || _ || _ || _); [apply keeps_preserves; unfold STATS_proterr, STATS_drop; keeps_auto|].
  apply preserves_bind; [apply keeps_preserves, keeps_stat|intros _].
  repeat (apply preserves_bind; [apply keeps_preserves, table_keeps_gets|intros]). cbv zeta.
  apply preserves_bind; [now apply update_preserves|intros _]. apply keeps_preserves. unfold load16. keeps_auto.
Qed.

Lemma queue_preserves i s r s' : inv s -> (exists e, nth_error s.(arp_table) i = Some e /\ e.(st) = ETHARP_STATE_PENDING) -> forall p,
  queue_packet NOASSERT custom_free_function tcpip_callback_ok i p s = Ok (r, s') -> inv s'.
Proof.
  intros Hs (e & Hi & He) p E. apply bind_inv in E. destruct E as (c & s1 & E1 & E). apply keeps_take_over in E1.
  pose proof (kept_inv _ _ E1 Hs) as Hs1. destruct E1 as [K1 _]. rewrite <- K1 in Hi.
  destruct (c =? 0); cbn [negb] in E; [injection E as <- <-; exact Hs1|]. rewrite (bind_arp_entry _ _ _ _ Hi) in E.
  apply bind_inv in E. destruct E as ([] & s2 & E2 & [= <- <-]).
  assert (K : kept s1 s2) by (destruct (negb _); [exact (keeps_free _ _ _ _ E2)|exact (table_keeps_ret _ _ _ _ E2)]).
  pose proof (kept_inv _ _ K Hs1) as [Ht Hc]. destruct K as [K2 _]. rewrite <- K2 in Hi. split; [|exact Hc]. cbn [arp_table with_field].
  apply (table_put _ _ _ _ Ht Hi); cbn; [|apply (to_unique _ Ht _ _ Hi)].
  destruct (entry_ok_at _ _ _ Ht Hi). split; cbn; auto. congruence.
Qed.

Abbreviation query := (etharp_query NOASSERT custom_free_function tcpip_callback_ok SUPPORT_STATIC_ENTRIES TABLE_MATCH_NETIF linkoutput).

(** A fresh entry becomes pending. *)
Lemma pending_preserves i ip n e s : found i ip n s -> nth_error s.(arp_table) i = Some e -> e.(st) = ETHARP_STATE_EMPTY ->
  let s' := s <| arp_table := alter_at i (fun e => e <| e_netif := n |>) (alter_at i (fun e => e <| st := ETHARP_STATE_PENDING |>) s.(arp_table)) |> in
  inv s' /\ nth_error s'.(arp_table) i = Some (e <| st := ETHARP_STATE_PENDING |> <| e_netif := n |>).
Proof.
  intros ([Ht Hc] & Hal & e' & Hi & He & Hct) Hi' Hem. replace e' with e in * by congruence. unfold inv. cbn [arp_table etharp_cached_entry with_field].
  rewrite alter_alter, nth_error_alter, Nat.eqb_refl, Hi. split; [|reflexivity]. split; [|assumption].
  apply (table_put _ _ _ _ Ht Hi); cbn; [|rewrite He; auto]. specialize (Hct Hem). destruct (entry_ok_at _ _ _ Ht Hi).
  split; cbn; auto; try congruence; intros; rewrite Hct; reflexivity.
Qed.

(** The part of [etharp_query] that sends or queues the packet. *)
Lemma send_or_queue_preserves i n p r0 s r s' : inv s -> (i < ARP_TABLE_SIZE)%nat ->
  (do e <- entry i;
   if stable_up e.(st) then
     modify (fun s => s <| etharp_cached_entry := u8 (Z.of_nat i) |>) ;;
     do nf <- netif_at n;
     output n p (Value nf.(hwaddr)) (Value e.(ethaddr)) ETHTYPE_IP
   else if etharp_state_eqb e.(st) ETHARP_STATE_PENDING then queue_packet NOASSERT custom_free_function tcpip_callback_ok i p
   else ret r0) s = Ok (r, s') -> inv s'.
Proof.
  intros Hs Hi E. apply bind_inv in E. destruct E as (e & s1 & E1 & E). apply entry_inv in E1. destruct E1 as [-> He].
  destruct (stable_up e.(st)).
  - rewrite bind_modify in E. unfold netif_at in E. rewrite bind_gets in E. apply keeps_output in E. apply (kept_inv _ _ E).
    split; [apply Hs|]. cbn [etharp_cached_entry with_field]. rewrite u8_id by (unfold is_u8, ARP_TABLE_SIZE in *; lia). lia.
  - destruct (etharp_state_eqb_spec e.(st) ETHARP_STATE_PENDING); [|now injection E as <- <-].
    eapply queue_preserves; [exact Hs| |exact E]. eauto.
Qed.

Lemma query_preserves n ip p : n <> 0 -> preserves (query n ip p).
Proof.
  intros Hn s r s' Hs E. unfold etharp_query, netif_at in E. rewrite bind_gets in E.
  destruct (_ || _ || _); [now injection E as <- <-|]. apply bind_inv in E. destruct E as (f & s1 & E1 & E).
  pose proof (find_entry_found _ _ _ _ _ _ Hn Hs E1) as Hf. destruct f as [i|].
  2:{ subst s1. assert (K : keeps ((when negb (p =? 0) then STATS_memerr) ;; ret ERR_MEM)) by (unfold STATS_memerr; keeps_auto).
      apply K in E. exact (kept_inv _ _ E Hs). }
  apply bind_inv in E. destruct E as (e & s2 & E2 & E). apply entry_inv in E2. destruct E2 as [-> Hi].
  cbv zeta in E. apply bind_inv in E. destruct E as ([] & s2 & E2 & E).
  assert (Hs2 : inv s2).
  { destruct (etharp_state_eqb_spec e.(st) ETHARP_STATE_EMPTY) as [Hem|Hem]; [|injection E2 as <-; apply Hf].
    unfold set_entry in E2. rewrite bind_modify in E2. injection E2 as <-. exact (proj1 (pending_preserves _ _ _ _ _ Hf Hi Hem)). }
  assert (Hlt : (i < ARP_TABLE_SIZE)%nat) by (eapply nth_error_table; [apply Hf|exact Hi]).
  apply bind_inv in E. destruct E as (e2 & s3 & E3 & E). apply entry_inv in E3. destruct E3 as [-> _].
  apply bind_inv in E. destruct E as ([] & s3 & E3 & E). apply keeps_pb in E3. pose proof (kept_inv _ _ E3 Hs2) as Hs3.
  apply bind_inv in E. destruct E as (r1 & s4 & E4 & E).
  assert (Hs4 : inv s4) by (destruct (_ || _); [apply keeps_request in E4; exact (kept_inv _ _ E4 Hs3)|now injection E4 as <- <-]).
  destruct (p =? 0); [now injection E as <- <-|]. apply bind_inv in E. destruct E as ([] & s5 & E5 & E).
  apply keeps_pb in E5. exact (send_or_queue_preserves _ _ _ _ _ _ _ (kept_inv _ _ E5 Hs4) Hlt E).
Qed.

Abbreviation to_index := (etharp_output_to_arp_index NOASSERT custom_free_function tcpip_callback_ok linkoutput).

(** A stable entry is marked as asked for again. *)
Lemma rerequest_preserves i s e r m s' (K : keeps m) : inv s -> nth_error s.(arp_table) i = Some e -> stable_up e.(st) = true ->
  (do r <- m;
   match r with
   | ERR_OK => set_entry i (fun e => e <| st := ETHARP_STATE_STABLE_REREQUESTING_1 |>)
   | _ => ret tt
   end) s = Ok (r, s') -> inv s'.
Proof.
  intros Hs Hi Hst E. apply bind_inv in E. destruct E as (x & s1 & E1 & E). apply K in E1. pose proof (kept_inv _ _ E1 Hs) as Hs1.
  destruct E1 as [K1 _]. rewrite <- K1 in Hi. destruct x; try (injection E as <- <-; exact Hs1). injection E as <- <-.
  destruct Hs1 as [Ht Hc]. split; [|exact Hc]. cbn [arp_table with_field]. destruct (entry_ok_at _ _ _ Ht Hi).
  assert (Hne : st e <> ETHARP_STATE_EMPTY /\ st e <> ETHARP_STATE_PENDING) by (split; intros Ee; rewrite Ee in Hst; discriminate).
  apply (table_put _ _ _ _ Ht Hi); cbn; [|intros _; now apply (to_unique _ Ht _ _ Hi)].
  split; cbn; [now intros _; apply eo_queue0|assumption|assumption|now intros _; apply eo_age0|discriminate].
Qed.

Lemma to_index_preserves n p i s r s' e : inv s -> nth_error s.(arp_table) i = Some e -> stable_up e.(st) = true ->
  to_index n p i s = Ok (r, s') -> inv s'.
Proof.
  intros Hs Hi Hst E. unfold etharp_output_to_arp_index in E. rewrite (bind_arp_entry _ _ _ _ Hi), bind_pb_assert in E by assumption.
  apply bind_inv in E. destruct E as ([] & s1 & E1 & E).
  assert (Hs1 : inv s1).
  { destruct (etharp_state_eqb _ _); [|now injection E1 as <-].
    destruct (_ >=? _); [eapply rerequest_preserves; [apply keeps_request|eassumption..]|].
    destruct (_ >=? _); [eapply rerequest_preserves; [apply keeps_request_dst|eassumption..]|now injection E1 as <-]. }
  assert (K : keeps (do nf <- netif_at n; do e <- entry i; output n p (Value nf.(hwaddr)) (Value e.(ethaddr)) ETHTYPE_IP))
    by (unfold netif_at; keeps_auto).
  apply K in E. exact (kept_inv _ _ E Hs1).
Qed.

Lemma find_stable_spec n ip l : forall k i, find_stable TABLE_MATCH_NETIF n ip k l = Some i ->
  exists e, nth_error l (i - k) = Some e /\ (k <= i)%nat /\ usable TABLE_MATCH_NETIF n ip e = true.
Proof.
  induction l as [|e l IH]; intros k i; cbn [find_stable]; [discriminate|]. destruct (usable _ n ip e) eqn:Eu.
  - intros [= ->]. exists e. rewrite Nat.sub_diag. auto.
  - intros E. destruct (IH _ _ E) as (x & Hx & Hle & Hu). exists x. replace (i - k)%nat with (S (i - S k)) by lia. auto with arith.
Qed.

Lemma usable_stable n ip e : usable TABLE_MATCH_NETIF n ip e = true -> stable_up e.(st) = true.
Proof. unfold usable. now destruct (stable_up _). Qed.

Lemma unicast_preserves n p ip : n <> 0 ->
  preserves (output_unicast NOASSERT custom_free_function tcpip_callback_ok SUPPORT_STATIC_ENTRIES TABLE_MATCH_NETIF linkoutput n p ip).
Proof.
  intros Hn s r s' Hs E. unfold output_unicast in E. rewrite bind_gets in E. apply bind_inv in E. destruct E as (e & s1 & E1 & E).
  apply entry_inv in E1. destruct E1 as [-> Hi]. destruct (usable _ n ip e) eqn:Eu.
  - apply bind_inv in E. destruct E as ([] & s1 & [= <-] & E). refine (to_index_preserves n p _ _ r s' e _ _ _ E); [exact Hs|exact Hi|exact (usable_stable _ _ _ Eu)].
  - rewrite bind_gets in E. destruct (find_stable _ _ _ _ _) as [i|] eqn:Ef; [|exact (query_preserves _ _ _ Hn _ _ _ Hs E)].
    destruct (find_stable_spec _ _ _ _ _ Ef) as (x & Hx & _ & Hu). rewrite Nat.sub_0_r in Hx. rewrite bind_modify in E.
    refine (to_index_preserves n p _ _ r s' x _ _ _ E); [|exact Hx|exact (usable_stable _ _ _ Hu)]. split; [apply Hs|]. cbn [etharp_cached_entry with_field].
    pose proof (nth_error_table _ _ _ (proj1 Hs) Hx). rewrite u8_id by (unfold is_u8, ARP_TABLE_SIZE in *; lia). lia.
Qed.

Lemma output_preserves n p ip : n <> 0 ->
  preserves (etharp_output NOASSERT custom_free_function tcpip_callback_ok SUPPORT_STATIC_ENTRIES TABLE_MATCH_NETIF linkoutput n p ip).
Proof.
  intros Hn. unfold etharp_output. do 2 (apply preserves_bind; [apply keeps_preserves, keeps_pb|intros _]).
  apply preserves_bind; [apply keeps_preserves, table_keeps_gets|]. intros nf.
  repeat (match goal with |- preserves (if ?c then _ else _) => destruct c end);
    first [now apply unicast_preserves | apply keeps_preserves; keeps_auto].
Qed.

(** ** Reachable states *)

(** The stack calls etharp.c and ethernet.c in any order; between the calls
    anything but the table and the cached index may change. *)
Inductive arp_step : ast -> ast -> Prop :=
| step_env s s' : kept s s' -> arp_step s s'
| step_tmr s s' : etharp_tmr NOASSERT custom_free_function tcpip_callback_ok SUPPORT_STATIC_ENTRIES linkoutput s = Ok (tt, s') -> arp_step s s'
| step_input p n s s' : etharp_input NOASSERT custom_free_function SUPPORT_STATIC_ENTRIES TABLE_MATCH_NETIF linkoutput p n s = Ok (tt, s') -> arp_step s s'
| step_output n p ip r s s' : n <> 0 ->
    etharp_output NOASSERT custom_free_function tcpip_callback_ok SUPPORT_STATIC_ENTRIES TABLE_MATCH_NETIF linkoutput n p ip s = Ok (r, s') -> arp_step s s'
| step_query n p ip r s s' : n <> 0 -> query n ip p s = Ok (r, s') -> arp_step s s'
| step_cleanup n s s' : etharp_cleanup_netif NOASSERT custom_free_function n s = Ok (tt, s') -> arp_step s s'
| step_add ip addr r s s' : eth_ok addr ->
    etharp_add_static_entry NOASSERT custom_free_function SUPPORT_STATIC_ENTRIES TABLE_MATCH_NETIF linkoutput ip4_route ip addr s = Ok (r, s') -> arp_step s s'
| step_remove ip r s s' :
    etharp_remove_static_entry NOASSERT custom_free_function SUPPORT_STATIC_ENTRIES TABLE_MATCH_NETIF ip s = Ok (r, s') -> arp_step s s'.

Inductive arp_steps : ast -> ast -> Prop :=
| steps_refl s : arp_steps s s
| steps_next s1 s2 s3 : arp_steps s1 s2 -> arp_step s2 s3 -> arp_steps s1 s3.

Lemma arp_step_inv s s' : arp_step s s' -> inv s -> inv s'.
Proof.
  intros H Hs. destruct H as [s s' K|s s' E|p n s s' E|n p ip r s s' Hn E|n p ip r s s' Hn E|n s s' E|ip addr r s s' Ha E|ip r s s' E].
  - exact (kept_inv _ _ K Hs).
  - exact (tmr_preserves _ _ _ _ _ Hs E).
  - exact (input_preserves _ _ _ _ _ Hs E).
  - exact (output_preserves _ _ _ Hn _ _ _ Hs E).
  - exact (query_preserves _ _ _ Hn _ _ _ Hs E).
  - exact (cleanup_preserves _ _ _ _ _ _ Hs E).
  - exact (static_preserves _ _ Ha _ _ _ Hs E).
  - exact (remove_static_preserves _ _ _ _ Hs E).
Qed.

Lemma arp_steps_inv s s' : arp_steps s s' -> inv s -> inv s'.
Proof. induction 1; eauto using arp_step_inv. Qed.

(** Frames from the link too; [ip4_input] acts on the table by the steps above. *)
Abbreviation frame_in := (ethernet_input NOASSERT custom_free_function SUPPORT_STATIC_ENTRIES TABLE_MATCH_NETIF linkoutput ip4_input).

Inductive net_steps : ast -> ast -> Prop :=
| net_refl s : net_steps s s
| net_arp s1 s2 s3 : net_steps s1 s2 -> arp_step s2 s3 -> net_steps s1 s3
| net_frame p n r s1 s2 s3 : net_steps s1 s2 -> frame_in p n s2 = Ok (r, s3) -> net_steps s1 s3.

Hypothesis ip4_input_steps : forall p n s r s', ip4_input p n s = Ok (r, s') -> arp_steps s s'.

Lemma frame_in_preserves p n : preserves (frame_in p n).
Proof.
  unfold ethernet_input, pbuf_at, load16, netif_at, STATS_proterr, STATS_drop. apply preserves_bind; [apply keeps_preserves, table_keeps_gets|]. intros b.
  destruct (_ <=? _); [apply keeps_preserves; keeps_auto|]. cbv zeta.
  apply preserves_bind; [apply keeps_preserves, table_keeps_gets|intros ty]. apply preserves_bind; [apply keeps_preserves, keeps_mark|intros _].
  apply preserves_bind; [apply keeps_preserves, table_keeps_gets|intros nf]. apply preserves_bind; [apply keeps_preserves, table_keeps_gets|intros b'].
  destruct (ty =? _); [|destruct (ty =? _); [|apply keeps_preserves; keeps_auto]].
  - destruct (_ =? 0); [apply keeps_preserves; keeps_auto|]. apply preserves_bind; [apply keeps_preserves; keeps_auto|intros r].
    destruct (negb _); [apply keeps_preserves; keeps_auto|]. apply preserves_bind; [|intros; apply keeps_preserves, table_keeps_ret].
    intros s x s' Hs E. exact (arp_steps_inv _ _ (ip4_input_steps _ _ _ _ _ E) Hs).
  - destruct (_ =? 0); [apply keeps_preserves; keeps_auto|]. apply preserves_bind; [apply keeps_preserves; keeps_auto|intros r].
    destruct (negb _); [apply keeps_preserves; keeps_auto|]. apply preserves_bind; [apply input_preserves|intros; apply keeps_preserves, table_keeps_ret].
Qed.

(** [arp_table] and [etharp_cached_entry] are statics, zero at the start. *)
Definition entry0 : etharp_entry := mkEntry 0 0 0 ethzero 0 ETHARP_STATE_EMPTY.

Lemma table0_ok : table_ok (repeat entry0 ARP_TABLE_SIZE).
Proof.
  split; [reflexivity| |].
  - apply Forall_forall. intros e He. apply repeat_spec in He. subst e. split; cbn; congruence || lia.
  - intros i e Hi Hne. apply nth_error_In, repeat_spec in Hi. subst e. now contradiction Hne.
Qed.

(** C20: Whatever sequence of calls the stack makes (timer, incoming frames and
    ARP packets, outgoing packets, queries, clean-up, static entries), with any
    arguments and in any order, the ARP table keeps its invariant: no two entries
    in use are for the same address, only a pending entry has a packet waiting, a
    pending entry is younger than 5 and any entry in use younger than 300 calls of
    the timer, addresses have six bytes, and the cached index is in the table. *)
Theorem arp_table_invariant s s' : s.(arp_table) = repeat entry0 ARP_TABLE_SIZE -> s.(etharp_cached_entry) = 0 -> net_steps s s' ->
  table_ok s'.(arp_table) /\ 0 <= s'.(etharp_cached_entry) < Z.of_nat ARP_TABLE_SIZE.
Proof.
  intros Ht Hc H. change (inv s'). assert (Hs : inv s) by (split; [rewrite Ht; exact table0_ok|rewrite Hc; unfold ARP_TABLE_SIZE; lia]).
  clear Ht Hc. induction H as [s|s1 s2 s3 _ IH Hst|p n r s1 s2 s3 _ IH E]; [exact Hs|exact (arp_step_inv _ _ Hst (IH Hs))|].
  exact (frame_in_preserves _ _ _ _ _ (IH Hs) E).
Qed.
End Table.
