(* ===== verification/EtharpProto.v ===== *)
(** * The ARP protocol

    What goes over the link: the frames [ethernet_output] and [etharp_raw]
    build, the packet that waits for an address and leaves when the address is
    known, the answer to a request.  The link is a driver that sends every
    frame; memory is that of PbufMem.v. *)

From Stdlib Require Import ZArith List Lia Bool Permutation.
From S2P Require Import Prelude Def Ip4Addr Mem PbufMem Pbuf PbufCopy Etharp EtharpInv.
Import ListNotations.
Open Scope Z_scope.
Open Scope c_scope.

(** The header of an Ethernet frame, and an ARP packet. *)
Definition eth_header (dst src : list Z) (ty : Z) : list Z := dst ++ src ++ [ty / 256; ty mod 256].
Definition arp_bytes (op : Z) (sha : list Z) (sip : Z) (tha : list Z) (tip : Z) : list Z :=
  [0; 1; 8; 0; 6; 4] ++ [op / 256; op mod 256] ++ sha ++ put32 sip ++ tha ++ put32 tip.

Section Proto.
Context {PMem : PbufMemory}.

Variable NOASSERT : bool.
Variable custom_free_function : Z -> PB unit.
Variable tcpip_callback_ok : pst -> bool.
Variables SUPPORT_STATIC_ENTRIES TABLE_MATCH_NETIF : bool.
Variable linkoutput : Z -> Z -> AM err_t.
Variable ip4_route : Z -> AM Z.

(** The driver sends the packet as it is; no packet has more pbufs than the
    16-bit lengths allow bytes. *)
Hypothesis link_sends : forall n p l s, chain s.(pm).(structs) p l -> (length l <= loop_fuel)%nat ->
  linkoutput n p s = Ok (ERR_OK, s <| wire := s.(wire) ++ [(n, content s.(pm).(structs) s.(pm).(data) l)] |>).

(** ** Sending a frame *)

(** The value behind a pointer, at a place the header at [h] does not cover. *)
Definition points_to (d : Z -> Z) (h : Z) (a : eth_ptr) (v : list Z) : Prop :=
  length v = 6%nat /\
  match a with
  | Value l => l = v
  | InPacket x => load_list d x 6 = v /\ (x + 6 <= h \/ h + 14 <= x)
  end.

(** The state but for the packets and the link. *)
Definition same_rest (s s' : ast) : Prop :=
  s'.(arp_table) = s.(arp_table) /\ s'.(etharp_cached_entry) = s.(etharp_cached_entry) /\ s'.(netifs) = s.(netifs).

Lemma same_rest_trans s1 s2 s3 : same_rest s1 s2 -> same_rest s2 s3 -> same_rest s1 s3.
Proof. unfold same_rest. intros (-> & -> & ->) (-> & -> & ->). auto. Qed.

Lemma bind_packets {A B} (m : PB A) (k : A -> AM B) (s : ast) a m' : m s.(pm) = Ok (a, m') -> bind (pb m) k s = k a (s <| pm := m' |>).
Proof. intros E. unfold bind, pb. now rewrite E. Qed.

(** The state with other packet bytes. *)
Definition with_data (s : ast) (d : Z -> Z) : ast := s <| pm := s.(pm) <| data := d |> |>.
Lemma with_data_twice s d d' : with_data (with_data s d) d' = with_data s d'.
Proof. reflexivity. Qed.
Lemma data_with_data s d : (with_data s d).(pm).(data) = d.
Proof. reflexivity. Qed.

Lemma bind_store a v {A} (k : unit -> AM A) (s : ast) : bind (store a v) k s = k tt (with_data s (store_list a v s.(pm).(data))).
Proof. reflexivity. Qed.

Lemma copy_value dst v {A} (k : unit -> AM A) (s : ast) : length v = 6%nat ->
  bind (ETHADDR_COPY dst (Value v)) k s = k tt (with_data s (store_list dst v s.(pm).(data))).
Proof.
  intros Hl. unfold ETHADDR_COPY. rewrite bind_assoc. cbn [deref_eth]. rewrite bind_ret. change (Z.to_nat ETH_HWADDR_LEN) with 6%nat.
  rewrite <- Hl, firstn_all. reflexivity.
Qed.

Lemma copy_eth dst src v (d : Z -> Z) h {A} (k : unit -> AM A) (s : ast) : points_to d h src v ->
  (forall x, x < h \/ h + 14 <= x -> s.(pm).(data) x = d x) ->
  bind (ETHADDR_COPY dst src) k s = k tt (with_data s (store_list dst v s.(pm).(data))).
Proof.
  intros [Hl Hv] Hd. destruct src as [x|l]; [|subst l; now apply copy_value]. unfold ETHADDR_COPY. rewrite bind_assoc. cbn [deref_eth].
  unfold load. rewrite bind_gets. destruct Hv as [Hv Hx]. change ETH_HWADDR_LEN with 6.
  rewrite (load_ext d), Hv by (intros; apply Hd; lia). reflexivity.
Qed.

Lemma fuel_pos : (0 < loop_fuel)%nat.
Proof. unfold loop_fuel. lia. Qed.

(** The bytes of a header written as [ethernet_output] writes it. *)
Lemma header_bytes d h dl sl ty : length dl = 6%nat -> length sl = 6%nat -> is_u16 ty ->
  load_list (store_list (h + 6) sl (store_list h dl (store_list (h + 12) (put16 (lwip_htons ty)) d))) h 14 = eth_header dl sl ty.
Proof.
  intros Hd Hs Hty. unfold eth_header. rewrite <- put16_htons by assumption. set (e := put16 (lwip_htons ty)).
  change 14 with (6 + (6 + 2)). rewrite !load_app by lia. repeat f_equal.
  - rewrite load_store_other by (rewrite Hs; lia). replace 6 with (Z.of_nat (length dl)) at 1 by (now rewrite Hd). apply load_store_exact.
  - replace 6 with (Z.of_nat (length sl)) at 3 by (now rewrite Hs). apply load_store_exact.
  - replace (h + 6 + 6) with (h + 12) by lia. rewrite !load_store_other by (rewrite ?Hs, ?Hd; lia). apply (load_store_exact _ _ e).
Qed.

(** A packet whose first pbuf has room for the header. *)
Record sendable (m : pst) (p : Z) (l : list Z) : Prop := {
  sd_chain : chain m.(structs) p (p :: l);
  sd_fresh : ~ In p l;
  sd_short : (length l < loop_fuel)%nat;
  sd_type : (m.(structs) p).(type) = PBUF_RAM \/ (m.(structs) p).(type) = PBUF_POOL;
  sd_len : 0 <= (m.(structs) p).(len) /\ (m.(structs) p).(len) + 14 < 65536;
  sd_tot : 0 <= (m.(structs) p).(tot_len) /\ (m.(structs) p).(tot_len) + 14 < 65536;
  sd_room : p + SIZEOF_STRUCT_PBUF + 14 <= (m.(structs) p).(payload);
  sd_apart : forall a x, In a l -> in_payload m.(structs) a x ->
    ~ (m.(structs) p).(payload) - 14 <= x < (m.(structs) p).(payload) }.

Abbreviation output := (ethernet_output NOASSERT linkoutput).

(** [ethernet_output] puts the packet on the link behind an Ethernet header. *)
Lemma output_sends (s : ast) n p l src dst sl dl ty : sendable s.(pm) p l -> is_u16 ty ->
  let h := (s.(pm).(structs) p).(payload) - 14 in
  points_to s.(pm).(data) h dst dl -> points_to s.(pm).(data) h src sl -> (s.(netifs) n).(hwaddr_len) = 6 ->
  exists s', output n p src dst ty s = Ok (ERR_OK, s') /\ same_rest s s' /\
    s'.(wire) = s.(wire) ++ [(n, eth_header dl sl ty ++ content s.(pm).(structs) s.(pm).(data) (p :: l))] /\
    s'.(pm).(mm) = s.(pm).(mm) /\
    (exists pl ln tl, s'.(pm).(structs) p = (s.(pm).(structs) p) <| payload := pl |> <| len := ln |> <| tot_len := tl |>) /\
    (forall a, a <> p -> s'.(pm).(structs) a = s.(pm).(structs) a) /\
    (forall x, ~ h <= x < h + 14 -> s'.(pm).(data) x = s.(pm).(data) x).
Proof.
  intros [Hc Hni Hsh Ht Hl Htot Hroom Hap] Hty h Hdst Hsrc Hhw. unfold ethernet_output.
  destruct (chain_nonnull _ _ _ _ Hc) as [_ Hp0]. apply Z.eqb_neq in Hp0.
  destruct (pbuf_header_show NOASSERT s.(pm) p SIZEOF_ETH_HDR) as (m1 & E & Hm & Hd & Hs & Ho);
    try (unfold SIZEOF_ETH_HDR; assumption || lia).
  rewrite (bind_packets _ _ _ _ _ E). change (negb (0 =? 0)) with false. cbv iota. set (s1 := s <| pm := m1 |>).
  unfold pbuf_at. rewrite bind_gets. change (structs (pm s1)) with (structs m1). rewrite Hs. cbn [payload with_field]. change (payload (structs (pm s) p) - SIZEOF_ETH_HDR) with h.
  pose proof (proj1 Hdst) as Ldl. pose proof (proj1 Hsrc) as Lsl.
  assert (Lty : length (put16 (lwip_htons ty)) = 2%nat) by reflexivity.
  assert (Hd1 : data (pm s1) = data (pm s)) by exact Hd. rewrite bind_store, Hd1.
  rewrite (copy_eth h dst dl _ h _ _ Hdst) by (intros x Hx; rewrite data_with_data; apply store_other; rewrite Lty; lia).
  rewrite with_data_twice, data_with_data, (copy_eth (h + 6) src sl _ h _ _ Hsrc)
    by (intros x Hx; rewrite data_with_data, !store_other by (rewrite ?Lty, ?Ldl; lia); reflexivity).
  rewrite with_data_twice, data_with_data. unfold netif_at. rewrite bind_gets. change (netifs (with_data s1 _)) with (netifs s).
  rewrite Hhw, bind_pb_assert by reflexivity. set (d3 := store_list (h + 6) sl _).
  assert (Hd3 : forall x, ~ h <= x < h + 14 -> d3 x = data (pm s) x) by (intros x Hx; unfold d3; rewrite !store_other by (rewrite ?Lty, ?Ldl, ?Lsl; lia); reflexivity).
  assert (Hc' : chain (structs m1) p (p :: l)).
  { apply (chain_ext (structs (pm s))); [|assumption]. intros a _. destruct (Z.eq_dec a p) as [->|Hne]; [rewrite Hs|rewrite Ho by assumption]; reflexivity. }
  rewrite (link_sends n p (p :: l)) by (exact Hc' || (cbn [length]; lia)). eexists. split; [reflexivity|].
  split; [now repeat split|]. split; [|repeat split; [exact Hm|do 3 eexists; exact Hs|exact Ho|exact Hd3]].
  change (wire s ++ [(n, content (structs m1) d3 (p :: l))] = wire s ++ [(n, eth_header dl sl ty ++ content (structs (pm s)) (data (pm s)) (p :: l))]).
  do 3 f_equal. change (content (structs m1) d3 (p :: l)) with (load_list d3 (structs m1 p).(payload) (structs m1 p).(len) ++ content (structs m1) d3 l).
  change (content (structs (pm s)) (data (pm s)) (p :: l)) with
    (load_list (data (pm s)) (structs (pm s) p).(payload) (structs (pm s) p).(len) ++ content (structs (pm s)) (data (pm s)) l).
  rewrite Hs. cbn [payload len with_field]. change (payload (structs (pm s) p) - SIZEOF_ETH_HDR) with h. change SIZEOF_ETH_HDR with 14.
  rewrite (Z.add_comm _ 14), load_app, <- !app_assoc by lia. unfold d3 at 1. rewrite header_bytes by assumption. f_equal. f_equal.
  - replace (h + 14) with (payload (structs (pm s) p)) by (unfold h; lia). apply load_ext. intros x Hx. apply Hd3. unfold h. lia.
  - unfold content. f_equal. apply map_ext_in. intros a Ha. rewrite Ho by (intros ->; contradiction). apply load_ext.
    intros x Hx. apply Hd3. intros Hin. apply (Hap a x Ha Hx). unfold h in Hin. lia.
Qed.

(** Freeing a single pbuf gives its block back. *)
Lemma free_sends (s : ast) p k bs : p <> 0 -> (s.(pm).(structs) p).(next) = 0 -> (s.(pm).(structs) p).(ref) = 1 ->
  not_custom (s.(pm).(structs) p) -> owns s.(pm).(mm) (mkBlk (origin_of (s.(pm).(structs) p).(type)) p k :: bs) ->
  exists m', free NOASSERT custom_free_function p s = Ok (tt, s <| pm := m' |>) /\ owns m'.(mm) bs /\ Forall (untouched s.(pm) m') bs.
Proof.
  intros Hp Hn Hr Hc Ho.
  destruct (pbuf_free_one NOASSERT custom_free_function tcpip_callback_ok s.(pm) p k bs loop_fuel) as (m' & E & Ho' & Hd & Hs); auto.
  { unfold loop_fuel. lia. }
  exists m'. split; [unfold free; now rewrite (bind_packets _ _ _ _ _ E)|]. split; [exact Ho'|].
  apply Forall_forall. intros b Hb. split; [apply Hs; exact (owns_other _ _ _ _ Ho Hb)|]. intros x _. now rewrite Hd.
Qed.

(** The fields of an ARP packet, in the order [etharp_raw] stores them. *)
Lemma arp_fields d h op hs hd ips ipd : length hs = 6%nat -> length hd = 6%nat -> is_u16 op ->
  load_list (store_list (h + 5) [4] (store_list (h + 4) [ETH_HWADDR_LEN] (store_list (h + 2) (put16 (PP_HTONS ETHTYPE_IP))
    (store_list h (put16 (PP_HTONS HWTYPE_ETHERNET)) (store_list (h + 24) (put32 ipd) (store_list (h + 14) (put32 ips)
    (store_list (h + 18) hd (store_list (h + 8) hs (store_list (h + 6) (put16 (lwip_htons op)) d))))))))) h 28 =
  arp_bytes op hs ips hd ipd.
Proof.
  intros H1 H2 Hop. unfold arp_bytes. rewrite <- put16_htons by assumption.
  assert (L16 : forall v, length (put16 v) = 2%nat) by reflexivity. assert (L32 : forall v, length (put32 v) = 4%nat) by reflexivity.
  assert (Hex : forall a l d0 n, n = Z.of_nat (length l) -> load_list (store_list a l d0) a n = l) by (intros; subst; apply load_store_exact).
  change 28 with (2 + (2 + (1 + (1 + (2 + (6 + (4 + (6 + 4)))))))). rewrite !load_app by lia.
  replace (h + 2 + 2) with (h + 4) by lia. replace (h + 4 + 1) with (h + 5) by lia. replace (h + 5 + 1) with (h + 6) by lia.
  replace (h + 6 + 2) with (h + 8) by lia. replace (h + 8 + 6) with (h + 14) by lia. replace (h + 14 + 4) with (h + 18) by lia.
  replace (h + 18 + 6) with (h + 24) by lia.
  change [0; 1; 8; 0; 6; 4] with (put16 (PP_HTONS HWTYPE_ETHERNET) ++ put16 (PP_HTONS ETHTYPE_IP) ++ [ETH_HWADDR_LEN] ++ [4]).
  rewrite <- !app_assoc.
  repeat match goal with |- load_list _ _ _ ++ _ = _ ++ _ => f_equal end;
    rewrite ?load_store_other by (rewrite ?L16, ?L32, ?H1, ?H2; cbn [length]; lia); apply Hex; rewrite ?L16, ?L32, ?H1, ?H2; reflexivity.
Qed.

Abbreviation raw := (etharp_raw NOASSERT custom_free_function tcpip_callback_ok linkoutput).

(** There is memory for the pbuf of an ARP packet. *)
Definition room_for_arp (m : pst) : bool :=
  match pbuf_alloc NOASSERT custom_free_function tcpip_callback_ok PBUF_LINK SIZEOF_ETHARP_HDR PBUF_RAM m with Ok (p, _) => negb (p =? 0) | _ => false end.

(** An ARP packet is sent if there is memory for it. *)
Lemma raw_sends (s : ast) bs n es ed hs ips hd ipd op : owns s.(pm).(mm) bs -> n <> 0 -> (s.(netifs) n).(hwaddr_len) = 6 ->
  length es = 6%nat -> length ed = 6%nat -> length hs = 6%nat -> length hd = 6%nat -> is_u16 op ->
  exists r s', raw n (Value es) (Value ed) (Value hs) ips (Value hd) ipd op s = Ok (r, s') /\ same_rest s s' /\
    owns s'.(pm).(mm) bs /\ Forall (untouched s.(pm) s'.(pm)) bs /\
    r = (if room_for_arp s.(pm) then ERR_OK else ERR_MEM) /\
    s'.(wire) = s.(wire) ++ (if room_for_arp s.(pm) then [(n, eth_header ed es ETHTYPE_ARP ++ arp_bytes op hs ips hd ipd)] else []).
Proof.
  intros Ho Hn Hhw Les Led Lhs Lhd Hop. unfold etharp_raw.
  rewrite bind_pb_assert by (now rewrite (proj2 (Z.eqb_neq _ _) Hn)).
  destruct (pbuf_alloc_ram_spec NOASSERT custom_free_function tcpip_callback_ok s.(pm) bs PBUF_LINK SIZEOF_ETHARP_HDR Ho) as (p & m1 & E & [Hd1 Hf1] & H);
    [unfold SIZEOF_ETHARP_HDR; lia|]. unfold alloc. rewrite (bind_packets _ _ _ _ _ E). unfold room_for_arp. rewrite E. clear E.
  destruct H as [[-> Ho1]|(Ho1 & Hs1 & _)].
  { change (0 =? 0) with true. cbv iota. eexists _, _. split; [reflexivity|]. split; [now repeat split|]. split; [exact Ho1|]. split; [|split; [reflexivity|]; cbn; now rewrite app_nil_r].
    apply Forall_forall. intros b Hb. split; [now apply Hf1|]. intros x _. cbn [pm with_field]. now rewrite Hd1. }
  change (u16 (SIZEOF_STRUCT_PBUF + layer_offset PBUF_LINK + SIZEOF_ETHARP_HDR)) with 58 in Ho1.
  change (p + SIZEOF_STRUCT_PBUF + layer_offset PBUF_LINK) with (p + 16 + 14) in Hs1.
  destruct (owns_fresh _ _ _ Ho1) as [Hp0 _]. cbn [b_addr] in Hp0. rewrite !(proj2 (Z.eqb_neq _ _) Hp0). cbn [negb]. set (s0 := s <| pm := m1 |>).
  unfold pbuf_at. rewrite bind_gets. change (structs (pm s0)) with (structs m1). rewrite Hs1. cbn [payload len]. rewrite bind_pb_assert by reflexivity. set (h := p + 16 + 14) in *.
  rewrite bind_store. unfold netif_at. rewrite bind_gets. change (netifs (with_data s0 _)) with (netifs s). rewrite Hhw, bind_pb_assert by reflexivity.
  rewrite copy_value, with_data_twice, data_with_data, copy_value, with_data_twice, data_with_data by assumption.
  do 6 (rewrite bind_store, with_data_twice, data_with_data). change (data (pm s0)) with (data m1). set (D := store_list (h + 5) _ _).
  pose proof (arp_fields m1.(data) h op hs hd ips ipd Lhs Lhd Hop) as HD. fold D in HD.
  assert (HD2 : forall x, ~ h <= x < h + 28 -> D x = m1.(data) x) by (intros x Hx; unfold D; rewrite !store_other by (cbn [length put16 put32]; lia); reflexivity).
  set (s1 := with_data s0 D). clearbody D.
  destruct (output_sends s1 n p [] (Value es) (Value ed) es ed ETHTYPE_ARP) as (s2 & E2 & R2 & W2 & M2 & (pl & ln & tl & S2) & O2 & D2);
    [|unfold is_u16, ETHTYPE_ARP; lia|now split|now split|exact Hhw|].
  { assert (Hsp : structs (pm s1) p = mkPbuf 0 h SIZEOF_ETHARP_HDR SIZEOF_ETHARP_HDR PBUF_RAM 0 1) by exact Hs1.
    pose proof fuel_pos. split; rewrite ?Hsp; cbn [type len tot_len payload]; unfold SIZEOF_ETHARP_HDR; try lia; auto; [|unfold SIZEOF_STRUCT_PBUF; change (LWIP_MEM_ALIGN_SIZE 16) with 16; unfold h; lia].
    cbn [chain]. now rewrite Hsp. }
  assert (Hsp2 : structs (pm s1) p = mkPbuf 0 h SIZEOF_ETHARP_HDR SIZEOF_ETHARP_HDR PBUF_RAM 0 1) by exact Hs1.
  rewrite Hsp2 in S2, D2. cbn [payload with_field] in S2, D2.
  rewrite (bind_ok _ _ _ _ _ E2). unfold stat. rewrite bind_modify. set (s3 := s2 <| astats := _ |>).
  destruct (free_sends s3 p 58 bs) as (m4 & E4 & O4 & U4); change (pm s3) with (pm s2) in *; rewrite ?S2; auto; [reflexivity|now rewrite M2|].
  rewrite (bind_ok _ _ _ _ _ E4). eexists _, _. split; [reflexivity|]. split; [exact R2|].
  cbn [pm with_field wire]. split; [exact O4|]. split.
  - apply Forall_forall. intros b Hb. rewrite Forall_forall in U4. apply (untouched_trans _ (pm s2)); [|now apply U4].
    pose proof (owns_other _ _ _ _ Ho1 Hb) as Hne. cbn [b_addr] in Hne. split; [rewrite O2 by assumption; now apply Hf1|].
    intros x Hx. pose proof (owns_outside _ _ _ _ _ Ho1 Hb Hx) as Hout. cbn [b_addr b_size] in Hout.
    rewrite D2, HD2 by (unfold h in *; lia). now rewrite Hd1.
  - split; [reflexivity|]. change (wire s3) with (wire s2). rewrite W2, content_single, Hsp2. cbn [payload len].
    change (data (pm s1)) with D. now rewrite <- HD.
Qed.

(** ** The packet that waits for an address *)

(** A copy of a packet, as [etharp_query] queues it, with its block. *)
Record waiting (m : pst) (p : Z) (bytes : list Z) : Prop := {
  wt_struct : m.(structs) p = mkPbuf 0 (p + 30) (Z.of_nat (length bytes)) (Z.of_nat (length bytes)) PBUF_RAM 0 1;
  wt_bytes : load_list m.(data) (p + 30) (Z.of_nat (length bytes)) = bytes;
  wt_small : Z.of_nat (length bytes) + 30 < 65536 }.
Definition waiting_blk (p : Z) (bytes : list Z) : blk := mkBlk Heap p (30 + Z.of_nat (length bytes)).

(** What the queue pointer of an entry stands for. *)
Definition holds (m : pst) (p : Z) (o : option (list Z)) : Prop :=
  match o with None => p = 0 | Some bytes => waiting m p bytes end.
Definition queue_blks (p : Z) (o : option (list Z)) : list blk :=
  match o with None => [] | Some bytes => [waiting_blk p bytes] end.

Lemma waiting_untouched m m' p bytes : waiting m p bytes -> untouched m m' (waiting_blk p bytes) -> waiting m' p bytes.
Proof.
  intros [H1 H2 H3] [U1 U2]. cbn [b_addr b_size waiting_blk] in *. split; [congruence| |assumption].
  rewrite (load_ext m.(data)); [assumption|]. intros x Hx. apply U2. lia.
Qed.

Lemma holds_untouched m m' p o : holds m p o -> Forall (untouched m m') (queue_blks p o) -> holds m' p o.
Proof. destruct o as [bytes|]; cbn; [|auto]. intros H HF. apply Forall_inv in HF. now apply (waiting_untouched m). Qed.

(** A packet that lies in blocks of [bs] and may be copied. *)
Record stored (m : pst) (bs : list blk) (p : Z) (l : list Z) : Prop := {
  so_chain : chain m.(structs) p l;
  so_nonempty : l <> [];
  so_lengths : lengths m.(structs) 0 l;
  so_pos : Forall (fun a => 0 < (m.(structs) a).(len)) l;
  so_small : total m.(structs) l + 30 < 65536;
  so_short : (length l <= loop_fuel)%nat;
  so_structs : Forall (fun a => In a (map b_addr bs)) l;
  so_payload : forall a x, In a l -> in_payload m.(structs) a x -> exists b, In b bs /\ b.(b_addr) <= x < b.(b_addr) + b.(b_size) }.

Lemma stored_struct m m' bs p l a : stored m bs p l -> Forall (untouched m m') bs -> In a l -> m'.(structs) a = m.(structs) a.
Proof.
  intros Hst HF Ha. pose proof (so_structs _ _ _ _ Hst) as Hin. rewrite Forall_forall in Hin, HF. specialize (Hin a Ha).
  apply in_map_iff in Hin. destruct Hin as (b & <- & Hb). now apply HF.
Qed.

Lemma stored_untouched m m' bs p l : stored m bs p l -> Forall (untouched m m') bs ->
  stored m' bs p l /\ content m'.(structs) m'.(data) l = content m.(structs) m.(data) l /\
  (m'.(structs) p).(type) = (m.(structs) p).(type).
Proof.
  intros Hst HF. pose proof (fun a => stored_struct _ _ _ _ _ a Hst HF) as Hs.
  assert (Hd : forall a x, In a l -> in_payload m.(structs) a x -> m'.(data) x = m.(data) x).
  { intros a x Ha Hx. destruct (so_payload _ _ _ _ Hst a x Ha Hx) as (b & Hb & Hbx). rewrite Forall_forall in HF. now apply (HF b Hb). }
  split; [|split].
  - destruct Hst. split; try assumption.
    + apply (chain_ext m.(structs)); [|assumption]. intros a Ha. now rewrite Hs.
    + apply (lengths_ext m.(structs)); [|assumption]. intros a Ha. now rewrite Hs.
    + rewrite Forall_forall in *. intros a Ha. rewrite Hs by assumption. auto.
    + rewrite (total_ext m.(structs)); [assumption|]. intros a Ha. now rewrite Hs.
    + intros a x Ha Hx. unfold in_payload in Hx. rewrite Hs in Hx by assumption. eauto.
  - unfold content. apply (f_equal (@concat Z)), map_ext_in. intros a Ha. rewrite Hs by assumption. apply load_ext. intros x Hx. now apply (Hd a).
  - destruct l as [|a l]; [now contradiction (so_nonempty _ _ _ _ Hst)|]. destruct (chain_nonnull _ _ _ _ (so_chain _ _ _ _ Hst)) as [-> _].
    rewrite Hs by (now left). reflexivity.
Qed.

Abbreviation take := (take_over NOASSERT custom_free_function tcpip_callback_ok).

Lemma stored_content_length m bs p l : stored m bs p l -> Z.of_nat (length (content m.(structs) m.(data) l)) = total m.(structs) l.
Proof. intros H. apply content_length. eapply Forall_impl; [|apply H]. cbv beta. intros. lia. Qed.

(** The loop of [etharp_query] over the packet stops at its head unless that is
    PBUF_ROM. *)
Lemma scan_head (s : ast) bs p l : stored s.(pm) bs p l -> (s.(pm).(structs) p).(type) <> PBUF_ROM ->
  copy_scan NOASSERT loop_fuel p s = Ok (p, s).
Proof.
  intros [Hc Hne Hl Hpos _ _ _ _] Ht. destruct l as [|a l]; [contradiction|]. unfold loop_fuel. generalize (Z.to_nat 65536). intros fuel.
  cbn [copy_scan].
  destruct (chain_nonnull _ _ _ _ Hc) as [-> ->]. unfold pbuf_at. rewrite bind_gets. rewrite bind_pb_assert.
  - destruct (type (structs (pm s) a)); try reflexivity. now contradiction Ht.
  - destruct Hl as (_ & Htl & _). cbn [total] in Htl. apply Forall_cons_iff in Hpos. destruct Hpos as [_ Hpos].
    destruct l as [|b l]; [destruct Hc as (_ & _ & Hc); cbn in Hc; rewrite Hc; apply orb_true_r|].
    apply Forall_cons_iff in Hpos. cbn [total] in Htl. assert (0 <= total (structs (pm s)) l)
      by (apply total_nonneg; eapply Forall_impl; [|exact (proj2 Hpos)]; cbv beta; intros; lia).
    rewrite (proj2 (Z.eqb_neq (len _) _)) by lia. reflexivity.
Qed.

(** The packet is copied, or there is no memory for the copy. *)
Lemma take_over_copies (s : ast) bs p l : owns s.(pm).(mm) bs -> stored s.(pm) bs p l -> (s.(pm).(structs) p).(type) <> PBUF_ROM ->
  let bytes := content s.(pm).(structs) s.(pm).(data) l in
  exists c s', take p s = Ok (c, s') /\ same_rest s s' /\ s'.(wire) = s.(wire) /\ Forall (untouched s.(pm) s'.(pm)) bs /\
    ((c = 0 /\ owns s'.(pm).(mm) bs) \/ (c <> 0 /\ owns s'.(pm).(mm) (waiting_blk c bytes :: bs) /\ waiting s'.(pm) c bytes)).
Proof.
  intros Ho Hst Ht bytes. unfold take_over. rewrite (bind_ok _ _ _ _ _ (scan_head s bs p l Hst Ht)).
  pose proof (stored_content_length _ _ _ _ Hst) as HL. fold bytes in HL. destruct Hst as [Hc Hne Hl Hpos Hsm Hsh Hin Hpay].
  assert (Hp : (p =? 0) = false) by (destruct l as [|a l]; [contradiction|]; apply (chain_nonnull _ _ _ _ Hc)).
  rewrite Hp. cbn [negb]. unfold pbuf_at. rewrite bind_gets.
  assert (Htot : (structs (pm s) p).(tot_len) = total (structs (pm s)) l)
    by (destruct l as [|a l]; [contradiction|]; destruct (chain_nonnull _ _ _ _ Hc) as [-> _]; destruct Hl as (_ & Hl & _); now rewrite Hl, Z.add_0_r).
  rewrite Htot. set (L := total (structs (pm s)) l) in *. assert (HL0 : 0 <= L) by lia.
  destruct (pbuf_alloc_ram_spec NOASSERT custom_free_function tcpip_callback_ok s.(pm) bs PBUF_LINK L Ho) as (c & m1 & E & [Hd1 Hf1] & H); [lia|].
  unfold alloc. rewrite (bind_packets _ _ _ _ _ E). clear E. destruct H as [[-> Ho1]|(Ho1 & Hs1 & _)].
  { eexists _, _. split; [reflexivity|]. split; [now repeat split|]. split; [reflexivity|]. split; [|left; now split].
    apply Forall_forall. intros b Hb. split; [now apply Hf1|]. intros x _. cbn [pm with_field]. now rewrite Hd1. }
  change (SIZEOF_STRUCT_PBUF + layer_offset PBUF_LINK) with 30 in Ho1. rewrite (u16_id (30 + L)) in Ho1 by word_lia.
  replace (c + SIZEOF_STRUCT_PBUF + layer_offset PBUF_LINK) with (c + 30) in Hs1
    by (change SIZEOF_STRUCT_PBUF with 16; change (layer_offset PBUF_LINK) with 14; lia).
  destruct (owns_fresh _ _ _ Ho1) as [Hc0 Hcf]. cbn [b_addr] in Hc0, Hcf. rewrite (proj2 (Z.eqb_neq _ _) Hc0). cbn [negb].
  assert (Hsame : forall a, In a l -> structs m1 a = structs (pm s) a).
  { intros a Ha. rewrite Forall_forall in Hin. specialize (Hin a Ha). apply in_map_iff in Hin. destruct Hin as (b & <- & Hb). now apply Hf1. }
  assert (Htl1 : total (structs m1) l = L) by (apply total_ext; intros a Ha; now rewrite Hsame).
  assert (Hct1 : content (structs m1) (data m1) l = bytes).
  { unfold bytes, content. rewrite Hd1. apply (f_equal (@concat Z)), map_ext_in. intros a Ha. now rewrite Hsame. }
  destruct (pbuf_copy_spec NOASSERT m1 c p l loop_fuel) as (d2 & E2 & Hb2 & Ho2); rewrite ?Hs1, ?Htl1; cbn [next len tot_len payload]; auto; try lia.
  { apply (chain_ext (structs (pm s))); [|assumption]. intros a Ha. now rewrite Hsame. }
  { apply (lengths_ext (structs (pm s))); [|assumption]. intros a Ha. now rewrite Hsame. }
  { rewrite Forall_forall in *. intros a Ha. rewrite Hsame by assumption. auto. }
  { intros a x Ha Hx. unfold in_payload in Hx. rewrite Hsame in Hx by assumption. destruct (Hpay a x Ha Hx) as (b & Hb & Hbx).
    pose proof (owns_outside _ _ _ _ _ Ho1 Hb Hbx) as Hout. cbn [b_addr b_size] in Hout. lia. }
  rewrite Hs1 in Hb2, Ho2. cbn [payload] in Hb2, Ho2. rewrite Htl1 in *. rewrite Hct1 in Hb2.
  set (s1 := s <| pm := m1 |>). rewrite (bind_packets _ _ s1 _ _ E2). eexists _, _. split; [reflexivity|].
  split; [now repeat split|]. split; [reflexivity|]. split.
  - apply Forall_forall. intros b Hb. split; [now apply Hf1|]. intros x Hx. pose proof (owns_outside _ _ _ _ _ Ho1 Hb Hx) as Hout. cbn [b_addr b_size] in Hout.
    change (d2 x = data (pm s) x). rewrite Ho2 by lia. now rewrite Hd1.
  - right. split; [assumption|]. unfold waiting_blk. rewrite HL. split; [exact Ho1|]. split; [rewrite HL; exact Hs1|rewrite HL; exact Hb2|lia].
Qed.

(** ** Learning an address *)

(** An Ethernet address in a block of [bs], or outside the packets. *)
Definition eth_in (m : pst) (bs : list blk) (a : eth_ptr) (v : list Z) : Prop :=
  length v = 6%nat /\
  match a with
  | Value l => l = v
  | InPacket x => load_list m.(data) x 6 = v /\ exists b, In b bs /\ b.(b_addr) <= x /\ x + 6 <= b.(b_addr) + b.(b_size)
  end.

Lemma eth_in_untouched m m' bs a v : eth_in m bs a v -> Forall (untouched m m') bs -> eth_in m' bs a v.
Proof.
  intros [Hl H] HF. split; [assumption|]. destruct a as [x|l]; [|assumption]. destruct H as [Hv (b & Hb & H1 & H2)].
  split; [|eauto]. rewrite Forall_forall in HF. destruct (HF b Hb) as [_ HU]. rewrite (load_ext m.(data)); [assumption|]. intros y Hy. apply HU. lia.
Qed.

Lemma deref_in (s : ast) bs a v {A} (k : list Z -> AM A) : eth_in s.(pm) bs a v -> bind (deref_eth a) k s = k v s.
Proof.
  intros [Hl H]. destruct a as [x|l]; cbn [deref_eth].
  - unfold load. rewrite bind_gets. change ETH_HWADDR_LEN with 6. now destruct H as [-> _].
  - subst l. rewrite bind_ret. change (Z.to_nat ETH_HWADDR_LEN) with 6%nat. now rewrite <- Hl, firstn_all.
Qed.

(** What leaves when the address [mac] is known. *)
Definition released (n : Z) (mac hw : list Z) (o : option (list Z)) : list (Z * list Z) :=
  match o with None => [] | Some bytes => [(n, eth_header mac hw ETHTYPE_IP ++ bytes)] end.

(** The waiting packet is sent and freed. *)
Lemma waiting_leaves (s : ast) bs n p bytes addr mac : waiting s.(pm) p bytes -> owns s.(pm).(mm) (waiting_blk p bytes :: bs) ->
  eth_in s.(pm) bs addr mac -> (s.(netifs) n).(hwaddr_len) = 6 -> length (s.(netifs) n).(hwaddr) = 6%nat ->
  exists s', (do nf <- netif_at n; output n p (Value nf.(hwaddr)) addr ETHTYPE_IP ;; free NOASSERT custom_free_function p) s = Ok (tt, s') /\
    same_rest s s' /\ owns s'.(pm).(mm) bs /\ Forall (untouched s.(pm) s'.(pm)) bs /\
    s'.(wire) = s.(wire) ++ released n mac (s.(netifs) n).(hwaddr) (Some bytes).
Proof.
  intros [Hs Hb Hsm] Ho Hin Hhw Lhw. unfold netif_at. rewrite bind_gets. set (hw := hwaddr (netifs s n)) in *.
  destruct (owns_fresh _ _ _ Ho) as [Hp0 _]. cbn [b_addr waiting_blk] in Hp0.
  destruct (output_sends s n p [] (Value hw) addr hw mac ETHTYPE_IP) as (s1 & E1 & R1 & W1 & M1 & (pl & ln & tl & S1) & O1 & D1);
    [|unfold is_u16, ETHTYPE_IP; lia| |now split|exact Hhw|].
  { pose proof fuel_pos. split; rewrite ?Hs; cbn [type len tot_len payload]; try lia; auto; [cbn [chain]; now rewrite Hs|].
    change SIZEOF_STRUCT_PBUF with 16. lia. }
  { rewrite Hs. cbn [payload]. destruct Hin as [Hl Hin]. split; [assumption|]. destruct addr as [x|l]; [|assumption]. destruct Hin as [Hv (b & Hbb & H1 & H2)].
    split; [assumption|]. pose proof (owns_apart _ _ Ho) as Ha. inversion Ha as [|? ? Hall _]; subst. rewrite Forall_forall in Hall.
    destruct (Hall b Hbb) as [H|H]; cbn [b_addr b_size waiting_blk] in H; lia. }
  rewrite Hs in S1, D1. cbn [payload with_field] in S1, D1. rewrite (bind_ok _ _ _ _ _ E1).
  destruct (free_sends s1 p (30 + Z.of_nat (length bytes)) bs) as (m2 & E2 & O2 & U2); rewrite ?S1; auto; [reflexivity|rewrite M1; exact Ho|].
  rewrite E2. eexists. split; [reflexivity|]. split; [exact R1|]. split; [exact O2|]. split.
  - apply Forall_forall. intros b Hb'. rewrite Forall_forall in U2. apply (untouched_trans _ (pm s1)); [|now apply U2].
    pose proof (owns_other _ _ _ _ Ho Hb') as Hne. cbn [b_addr waiting_blk] in Hne. split; [now rewrite O1|]. intros x Hx.
    pose proof (owns_outside _ _ _ _ _ Ho Hb' Hx) as Hout. cbn [b_addr b_size waiting_blk] in Hout. apply D1. lia.
  - change (wire s1 = wire s ++ released n mac hw (Some bytes)). rewrite W1, content_single, Hs. cbn [payload len]. now rewrite Hb.
Qed.

Abbreviation record := (record_entry NOASSERT custom_free_function linkoutput).

(** The entry is marked and what waits for it leaves. *)
Lemma record_sends (s : ast) bs i e n addr mac st' o : nth_error s.(arp_table) i = Some e -> holds s.(pm) e.(q) o ->
  owns s.(pm).(mm) (queue_blks e.(q) o ++ bs) -> eth_in s.(pm) bs addr mac ->
  (s.(netifs) n).(hwaddr_len) = 6 -> length (s.(netifs) n).(hwaddr) = 6%nat ->
  exists s', record i n addr st' s = Ok (ERR_OK, s') /\
    s'.(arp_table) = alter_at i (fun e => mkEntry 0 e.(ipaddr) n mac 0 st') s.(arp_table) /\
    s'.(etharp_cached_entry) = s.(etharp_cached_entry) /\ s'.(netifs) = s.(netifs) /\
    owns s'.(pm).(mm) bs /\ Forall (untouched s.(pm) s'.(pm)) bs /\
    s'.(wire) = s.(wire) ++ released n mac (s.(netifs) n).(hwaddr) o.
Proof.
  intros Hi Hq Ho Hin Hhw Lhw. unfold record_entry, set_entry. rewrite !bind_modify, (deref_in _ bs addr mac), !bind_modify by exact Hin.
  set (s1 := _ <| arp_table := alter_at i (fun e0 => e0 <| ctime := 0 |>) _ |>).
  assert (Ht1 : arp_table s1 = alter_at i (fun e0 => mkEntry e0.(q) e0.(ipaddr) n mac 0 st') (arp_table s))
    by (unfold s1; cbn [arp_table with_field]; rewrite !alter_alter; reflexivity).
  assert (Hs1 : pm s1 = pm s /\ etharp_cached_entry s1 = etharp_cached_entry s /\ netifs s1 = netifs s /\ wire s1 = wire s) by (now repeat split).
  clearbody s1. destruct Hs1 as (P1 & C1 & N1 & W1).
  rewrite (bind_arp_entry i (mkEntry e.(q) e.(ipaddr) n mac 0 st')) by (now rewrite Ht1, nth_error_alter, Nat.eqb_refl, Hi). cbn [q].
  destruct o as [bytes|]; cbn [holds queue_blks app] in Hq, Ho.
  - assert (Hq0 : (e.(q) =? 0) = false) by (apply Z.eqb_neq; apply (owns_fresh _ _ _ Ho)). rewrite Hq0. cbn [negb].
    rewrite bind_assoc, bind_modify. set (s2 := s1 <| arp_table := _ |>).
    destruct (waiting_leaves s2 bs n e.(q) bytes addr mac) as (s3 & E3 & (R1 & R2 & R3) & O3 & U3 & W3); change (netifs s2) with (netifs s1); change (pm s2) with (pm s1) in *; rewrite ?P1, ?N1; try assumption.
    rewrite (bind_ok _ _ _ _ _ E3). exists s3. split; [reflexivity|]. rewrite R1, R2, R3, W3. change (netifs s2) with (netifs s1). change (wire s2) with (wire s1).
    rewrite N1, W1. rewrite P1 in U3. split; [|now repeat split]. unfold s2. cbn [arp_table with_field]. rewrite Ht1, alter_alter. reflexivity.
  - rewrite Hq. cbn [negb Z.eqb]. change (negb (0 =? 0)) with false. cbv iota. rewrite bind_ret. exists s1. split; [reflexivity|].
    rewrite Ht1, P1, W1. cbn [released]. rewrite app_nil_r. split; [|repeat split; try assumption; apply Forall_forall; now split].
    apply alter_ext. intros x Hx. replace x with e by congruence. now rewrite Hq.
Qed.

(** ** Asking for an address *)

(** An address that may be resolved on the interface. *)
Definition unicast (s : ast) (n ip : Z) : Prop :=
  ip4_addr_isbroadcast_u32 ip (s.(netifs) n).(n4) = 0 /\ ip4_addr_ismulticast ip = false /\ ip4_addr_isany_val ip = false.

Definition eth_iface (s : ast) (n : Z) : Prop :=
  n <> 0 /\ (s.(netifs) n).(hwaddr_len) = 6 /\ length (s.(netifs) n).(hwaddr) = 6%nat.

Abbreviation hit := (hit TABLE_MATCH_NETIF).
Abbreviation query := (etharp_query NOASSERT custom_free_function tcpip_callback_ok SUPPORT_STATIC_ENTRIES TABLE_MATCH_NETIF linkoutput).

(** The request for [ip] that the interface broadcasts. *)
Definition request_frame (s : ast) (n ip : Z) : list Z :=
  let nf := s.(netifs) n in
  eth_header ethbroadcast nf.(hwaddr) ETHTYPE_ARP ++ arp_bytes ARP_REQUEST nf.(hwaddr) nf.(n4).(ip_addr) ethzero ip.

(** The packet is put on the queue of a pending entry that has none. *)
Lemma queue_sends (s : ast) bs i e p l : nth_error s.(arp_table) i = Some e -> e.(q) = 0 ->
  owns s.(pm).(mm) bs -> stored s.(pm) bs p l -> (s.(pm).(structs) p).(type) <> PBUF_ROM ->
  let bytes := content s.(pm).(structs) s.(pm).(data) l in
  exists r c o s', queue_packet NOASSERT custom_free_function tcpip_callback_ok i p s = Ok (r, s') /\
    s'.(arp_table) = alter_at i (fun e => e <| q := c |>) s.(arp_table) /\ s'.(etharp_cached_entry) = s.(etharp_cached_entry) /\
    s'.(netifs) = s.(netifs) /\ s'.(wire) = s.(wire) /\ Forall (untouched s.(pm) s'.(pm)) bs /\
    holds s'.(pm) c o /\ owns s'.(pm).(mm) (queue_blks c o ++ bs) /\
    ((r = ERR_OK /\ o = Some bytes) \/ (r = ERR_MEM /\ o = None)).
Proof.
  intros Hi Hq Ho Hst Ht bytes. destruct (take_over_copies s bs p l Ho Hst Ht) as (c & s1 & E1 & (R1 & R2 & R3) & W1 & U1 & H). fold bytes in H.
  unfold queue_packet. rewrite (bind_ok _ _ _ _ _ E1). destruct H as [[-> Ho1]|(Hc & Ho1 & Hw)].
  - change (negb (0 =? 0)) with false. cbv iota. exists ERR_MEM, 0, None. eexists. split; [reflexivity|].
    split; [|do 4 (split; [assumption|]); split; [reflexivity|]; split; [assumption|]; now right]. change (arp_table s1 = alter_at i (fun e => e <| q := 0 |>) (arp_table s)). rewrite R1.
    clear - Hi Hq. revert i Hi. generalize (arp_table s). intros t. induction t as [|x t IH]; intros [|i]; cbn; try congruence.
    + intros [= ->]. destruct e. cbn in *. now subst.
    + intros Hi. now rewrite <- IH.
  - rewrite (proj2 (Z.eqb_neq _ _) Hc). cbn [negb]. rewrite (bind_arp_entry i e) by (now rewrite R1). rewrite Hq. change (negb (0 =? 0)) with false.
    cbv iota. rewrite bind_ret. unfold set_entry. rewrite bind_modify. exists ERR_OK, c, (Some bytes). eexists. split; [reflexivity|].
    cbn [arp_table etharp_cached_entry netifs wire pm with_field]. rewrite R1. do 5 (split; [first [assumption|reflexivity]|]). split; [assumption|]. split; [assumption|]. now left.
Qed.

(** For an address that is not in the table a fresh entry becomes pending and a
    request is broadcast, if there is memory for it, before the packet is queued. *)
Lemma query_reaches (s : ast) bs n ip p i : table_ok TABLE_MATCH_NETIF s.(arp_table) -> eth_iface s n -> unicast s n ip ->
  owns s.(pm).(mm) bs -> p <> 0 -> none_of (hit ip n) s.(arp_table) -> first_of empty_entry s.(arp_table) i ->
  exists s', query n ip p s = queue_packet NOASSERT custom_free_function tcpip_callback_ok i p s' /\
    s'.(arp_table) = alter_at i (fun e => mkEntry 0 ip n e.(ethaddr) 0 ETHARP_STATE_PENDING) s.(arp_table) /\
    s'.(etharp_cached_entry) = s.(etharp_cached_entry) /\ s'.(netifs) = s.(netifs) /\
    s'.(wire) = s.(wire) ++ (if room_for_arp s.(pm) then [(n, request_frame s n ip)] else []) /\
    Forall (untouched s.(pm) s'.(pm)) bs /\ owns s'.(pm).(mm) bs.
Proof.
  intros Ht (Hn & Hhw & Lhw) (Hb & Hm & Ha) Ho Hp Hnh Hf. unfold etharp_query, netif_at. rewrite bind_gets, Hb, Hm, Ha.
  change (negb (0 =? 0) || false || false) with false. cbv iota.
  destruct (first_of_nth _ _ _ Hf) as (e & Hi & He). unfold empty_entry in He.
  destruct (etharp_state_eqb_spec e.(st) ETHARP_STATE_EMPTY) as [Hem|]; [|discriminate].
  pose proof (entry_ok_at _ _ _ _ Ht Hi) as Hok. assert (Hq0 : e.(q) = 0) by (apply Hok; congruence).
  rewrite (bind_ok _ _ _ (Some i) (s <| arp_table := alter_at i (init_entry TABLE_MATCH_NETIF ip n) (arp_table s) |>))
    by (rewrite (find_fresh _ _ _ _ _ _ _ _ _ Ht Hnh Hf); reflexivity).
  set (s1 := s <| arp_table := _ |>).
  rewrite (bind_arp_entry i (init_entry TABLE_MATCH_NETIF ip n e)) by (unfold s1; cbn [arp_table with_field]; now rewrite nth_error_alter, Nat.eqb_refl, Hi).
  cbv zeta. change (st (init_entry TABLE_MATCH_NETIF ip n e)) with (st e). rewrite Hem. cbn [etharp_state_eqb].
  unfold set_entry. rewrite bind_assoc, !bind_modify. set (s2 := _ <| arp_table := alter_at i (fun e0 => e0 <| e_netif := n |>) _ |>).
  set (new := fun e0 => mkEntry 0 ip n e0.(ethaddr) 0 ETHARP_STATE_PENDING).
  assert (T2 : arp_table s2 = alter_at i new (arp_table s))
    by (unfold s2, s1; cbn [arp_table with_field]; rewrite !alter_alter; apply alter_ext; intros x Hx; replace x with e by congruence; unfold new, init_entry; cbn; now rewrite Hq0).
  assert (Hs2 : pm s2 = pm s /\ etharp_cached_entry s2 = etharp_cached_entry s /\ netifs s2 = netifs s /\ wire s2 = wire s) by (now repeat split).
  clearbody s2. clear s1. destruct Hs2 as (P2 & C2 & N2 & W2).
  assert (I2 : nth_error (arp_table s2) i = Some (new e)) by (now rewrite T2, nth_error_alter, Nat.eqb_refl, Hi).
  rewrite (bind_arp_entry _ _ _ _ I2), bind_pb_assert by reflexivity. cbn [orb].
  rewrite <- P2 in Ho. unfold etharp_request, etharp_request_dst, netif_at. rewrite bind_assoc, bind_gets.
  destruct (raw_sends s2 bs n (hwaddr (netifs s2 n)) ethbroadcast (hwaddr (netifs s2 n)) (ip_addr (n4 (netifs s2 n))) ethzero ip ARP_REQUEST Ho Hn)
    as (r3 & s3 & E3 & (R31 & R32 & R33) & O3 & U3 & _ & W3); rewrite ?N2; try assumption; try reflexivity; [unfold is_u16, ARP_REQUEST; lia|].
  rewrite N2 in E3, W3. rewrite (bind_ok _ _ _ _ _ E3), (proj2 (Z.eqb_neq _ _) Hp), bind_pb_assert by reflexivity. rewrite P2 in U3.
  rewrite (bind_arp_entry i (new e)) by (now rewrite R31). cbn [new st stable_up etharp_state_eqb].
  exists s3. split; [reflexivity|]. rewrite R31, T2, R32, C2, R33, N2. do 3 (split; [reflexivity|]). split; [|now split].
  rewrite W3, W2, P2. reflexivity.
Qed.

Lemma stored_nonnull m bs p l : stored m bs p l -> p <> 0.
Proof. intros [Hc Hne _ _ _ _ _ _]. destruct l as [|a l]; [contradiction|]. apply Z.eqb_neq, (chain_nonnull _ _ _ _ Hc). Qed.

(** The packet waits in the fresh entry. *)
Lemma query_queues (s : ast) bs n ip p l i : table_ok TABLE_MATCH_NETIF s.(arp_table) -> eth_iface s n -> unicast s n ip ->
  owns s.(pm).(mm) bs -> stored s.(pm) bs p l -> (s.(pm).(structs) p).(type) <> PBUF_ROM ->
  none_of (hit ip n) s.(arp_table) -> first_of empty_entry s.(arp_table) i ->
  let bytes := content s.(pm).(structs) s.(pm).(data) l in
  exists r c o s', query n ip p s = Ok (r, s') /\
    s'.(arp_table) = alter_at i (fun e => mkEntry c ip n e.(ethaddr) 0 ETHARP_STATE_PENDING) s.(arp_table) /\
    s'.(wire) = s.(wire) ++ (if room_for_arp s.(pm) then [(n, request_frame s n ip)] else []) /\
    holds s'.(pm) c o /\ owns s'.(pm).(mm) (queue_blks c o ++ bs) /\
    ((r = ERR_OK /\ o = Some bytes) \/ (r = ERR_MEM /\ o = None)).
Proof.
  intros Ht Hif Huni Ho Hst Hty Hnh Hf bytes.
  destruct (query_reaches s bs n ip p i Ht Hif Huni Ho (stored_nonnull _ _ _ _ Hst) Hnh Hf) as (s3 & E3 & T3 & C3 & N3 & W3 & U3 & O3).
  destruct (stored_untouched _ _ _ _ _ Hst U3) as (Hst3 & Hct & Hty3). fold bytes in Hct. rewrite <- Hty3 in Hty.
  destruct (first_of_nth _ _ _ Hf) as (e & Hi & _).
  destruct (queue_sends s3 bs i (mkEntry 0 ip n e.(ethaddr) 0 ETHARP_STATE_PENDING) p l) as (r & c & o & s4 & E4 & T4 & C4 & N4 & W4 & U4 & Hh & O4 & Hr);
    try assumption; try reflexivity; [now rewrite T3, nth_error_alter, Nat.eqb_refl, Hi|].
  exists r, c, o, s4. rewrite E3. split; [exact E4|]. rewrite Hct in Hr. rewrite T4, T3, alter_alter, W4. auto.
Qed.

(** A packet that starts in read-only memory and goes on in RAM: the copy is made
    too small. *)
Lemma take_over_rom (s : ast) bs a b t : owns s.(pm).(mm) bs -> stored s.(pm) bs a (a :: b :: t) ->
  (s.(pm).(structs) a).(type) = PBUF_ROM -> (s.(pm).(structs) b).(type) <> PBUF_ROM ->
  match take a s with
  | Ok (c, s') => c = 0 /\ owns s'.(pm).(mm) bs
  | Halt => NOASSERT = false
  | Hang => False
  end.
Proof.
  intros Ho Hst Ha Hb. pose proof Hst as [Hc _ Hl Hpos Hsm _ Hin _]. destruct Hc as (_ & Ha0 & Hc). destruct (chain_nonnull _ _ _ _ Hc) as [Hn Hn0].
  destruct Hl as (_ & Hta & _ & Htb & _). cbn [total] in Hta, Htb, Hsm. apply Forall_cons_iff in Hpos. destruct Hpos as [Hla Hpos]. apply Forall_cons_iff in Hpos. destruct Hpos as [Hlb Hpos].
  assert (Hrest : 0 <= total (structs (pm s)) t) by (apply total_nonneg; eapply Forall_impl; [|exact Hpos]; cbv beta; intros; lia).
  assert (Hscan : copy_scan NOASSERT loop_fuel a s = Ok (b, s)).
  { unfold loop_fuel. change (S (Z.to_nat 65536)) with (S (S (Z.to_nat 65535))). generalize (Z.to_nat 65535). intros fuel. cbn [copy_scan]. rewrite (proj2 (Z.eqb_neq _ _) Ha0). unfold pbuf_at. rewrite bind_gets.
    rewrite bind_pb_assert by (rewrite (proj2 (Z.eqb_neq (len _) _)) by lia; reflexivity). rewrite Ha. cbn [pbuf_type_eqb negb]. rewrite Hn, <- Hn, Hn0, Hn, bind_gets.
    rewrite bind_pb_assert.
    - destruct (type (structs (pm s) b)); try reflexivity. now contradiction Hb.
    - destruct t as [|c t]; [destruct Hc as (_ & _ & Hc); cbn in Hc; rewrite Hc; apply orb_true_r|]. apply Forall_cons_iff in Hpos. cbn [total] in Htb, Hrest.
      assert (0 <= total (structs (pm s)) t) by (apply total_nonneg; eapply Forall_impl; [|exact (proj2 Hpos)]; cbv beta; intros; lia).
      rewrite (proj2 (Z.eqb_neq (len _) _)) by lia. reflexivity. }
  unfold take_over. rewrite (bind_ok _ _ _ _ _ Hscan). rewrite <- Hn, Hn0, Hn. cbn [negb]. unfold pbuf_at. rewrite bind_gets.
  set (L := tot_len (structs (pm s) b)) in *.
  destruct (pbuf_alloc_ram_spec NOASSERT custom_free_function tcpip_callback_ok s.(pm) bs PBUF_LINK L Ho) as (c & m1 & E & [Hd1 Hf1] & H); [lia|].
  unfold alloc. rewrite (bind_packets _ _ _ _ _ E). clear E. destruct H as [[-> Ho1]|(Ho1 & Hs1 & _)]; [now split|].
  destruct (owns_fresh _ _ _ Ho1) as [Hc0 _]. cbn [b_addr] in Hc0. rewrite (proj2 (Z.eqb_neq _ _) Hc0). cbn [negb]. set (s1 := s <| pm := m1 |>).
  assert (Ha1 : structs m1 a = structs (pm s) a).
  { apply Forall_inv in Hin. apply in_map_iff in Hin. destruct Hin as (x & Hxa & Hx). rewrite <- Hxa. now apply Hf1. }
  assert (Hcopy : pbuf_copy NOASSERT loop_fuel c a m1 = if NOASSERT then Ok (ERR_ARG, m1) else Halt).
  { unfold pbuf_copy, get. rewrite !bind_gets, Hs1, Ha1. cbn [tot_len]. unfold LWIP_ERROR. rewrite Z.geb_leb, (proj2 (Z.leb_gt _ _)) by lia.
    rewrite andb_false_r. now destruct NOASSERT. }
  unfold bind at 1, pb. change (pm s1) with m1. rewrite Hcopy. destruct NOASSERT eqn:En; [|reflexivity].
  change (s1 <| pm := m1 |>) with s1. rewrite <- En.
  destruct (free_sends s1 c (u16 (SIZEOF_STRUCT_PBUF + layer_offset PBUF_LINK + L)) bs) as (m2 & E2 & O2 & _); change (pm s1) with m1; rewrite ?Hs1; try reflexivity; try assumption.
  rewrite (bind_ok _ _ _ _ _ E2). now split.
Qed.

(** ** Incoming packets *)

Abbreviation update := (etharp_update_arp_entry NOASSERT custom_free_function SUPPORT_STATIC_ENTRIES TABLE_MATCH_NETIF linkoutput).

(** The entry that takes the address of a sender: its own, or the first empty
    one when entries may be made. *)
Definition entry_for (t : list etharp_entry) (ip n flags : Z) (i : nat) : Prop :=
  first_of (hit ip n) t i \/
  (none_of (hit ip n) t /\ first_of empty_entry t i /\ flags .& ETHARP_FLAG_FIND_ONLY = 0).

Lemma update_learns (s : ast) bs n ip addr mac flags i e o : table_ok TABLE_MATCH_NETIF s.(arp_table) -> eth_iface s n -> unicast s n ip ->
  entry_for s.(arp_table) ip n flags i -> nth_error s.(arp_table) i = Some e -> e.(st) <> ETHARP_STATE_STATIC -> flags .& ETHARP_FLAG_STATIC_ENTRY = 0 ->
  holds s.(pm) e.(q) o -> owns s.(pm).(mm) (queue_blks e.(q) o ++ bs) -> eth_in s.(pm) bs addr mac ->
  exists s', update n ip addr flags s = Ok (ERR_OK, s') /\
    s'.(arp_table) = alter_at i (fun _ => mkEntry 0 ip n mac 0 ETHARP_STATE_STABLE) s.(arp_table) /\
    s'.(etharp_cached_entry) = s.(etharp_cached_entry) /\ s'.(netifs) = s.(netifs) /\
    owns s'.(pm).(mm) bs /\ Forall (untouched s.(pm) s'.(pm)) bs /\
    s'.(wire) = s.(wire) ++ released n mac (s.(netifs) n).(hwaddr) o.
Proof.
  intros Ht (Hn & Hhw & Lhw) (Hb & Hm & Ha) Hfor Hi Hst Hfl Hq Ho Hin. unfold etharp_update_arp_entry, netif_at. rewrite bind_gets, Hhw, bind_pb_assert by reflexivity.
  rewrite Hb, Hm, Ha. change (false || negb (0 =? 0) || false) with false. cbv iota.
  assert (Hfound : exists s1 e1, etharp_find_entry NOASSERT custom_free_function SUPPORT_STATIC_ENTRIES TABLE_MATCH_NETIF ip flags n s = Ok (Some i, s1) /\
    nth_error s1.(arp_table) i = Some e1 /\ e1.(q) = e.(q) /\ e1.(st) = e.(st) /\ e1.(ipaddr) = ip /\
    (forall f, alter_at i (fun _ => f) s1.(arp_table) = alter_at i (fun _ => f) s.(arp_table)) /\
    pm s1 = pm s /\ etharp_cached_entry s1 = etharp_cached_entry s /\ netifs s1 = netifs s /\ wire s1 = wire s).
  { destruct Hfor as [Hf|(Hnh & Hf & Hfo)].
    - exists s, e. rewrite (find_hit _ _ _ _ _ _ _ _ _ Ht Hf). destruct (first_of_nth _ _ _ Hf) as (e' & Hi' & Hh). replace e' with e in Hh by congruence.
      destruct (hit_key _ _ _ _ Hn Hh) as [_ [Hk _]]. now repeat split.
    - rewrite (find_fresh _ _ _ _ _ _ _ _ _ Ht Hnh Hf Hfo). unfold set_fresh. rewrite bind_modify.
      do 2 eexists. split; [reflexivity|]. cbn [arp_table with_field]. rewrite nth_error_alter, Nat.eqb_refl, Hi. split; [reflexivity|].
      repeat split. intros f. now rewrite alter_alter. }
  destruct Hfound as (s1 & e1 & E1 & Hi1 & Hq1 & Hst1 & Hip1 & Halt & P1 & C1 & N1 & W1).
  rewrite (bind_ok _ _ _ _ _ E1), (bind_arp_entry _ _ _ _ Hi1), Hfl. change (negb (0 =? 0)) with false. rewrite andb_false_r. cbv iota.
  rewrite Hst1. replace (etharp_state_eqb e.(st) ETHARP_STATE_STATIC) with false by (destruct e.(st); try reflexivity; now contradiction Hst).
  rewrite andb_false_r.
  destruct (record_sends s1 bs i e1 n addr mac ETHARP_STATE_STABLE o) as (s2 & E2 & T2 & C2 & N2 & O2 & U2 & W2);
    rewrite ?Hq1, ?P1, ?N1; try assumption.
  exists s2. split; [exact E2|]. rewrite T2, C2, C1, N2, N1, W2, W1, N1. rewrite P1 in U2. split; [|auto].
  rewrite <- Halt. apply alter_ext. intros x Hx. replace x with e1 by congruence. now rewrite Hip1.
Qed.

(** A pbuf with an ARP packet, in a block of [size] bytes, with room in front for
    the header that was removed.  The 28 bytes of the ARP header are in memory; the
    length of the pbuf, which [etharp_input] does not look at, may be smaller, but
    for a request, which is answered in place. *)
Record arp_packet (m : pst) (p size op : Z) (sha : list Z) (sip : Z) (tha : list Z) (tip : Z) : Prop := {
  ap_next : (m.(structs) p).(next) = 0;
  ap_ref : (m.(structs) p).(ref) = 1;
  ap_custom : not_custom (m.(structs) p);
  ap_type : (m.(structs) p).(type) = PBUF_RAM \/ (m.(structs) p).(type) = PBUF_POOL;
  ap_len : 0 <= (m.(structs) p).(len) /\ (m.(structs) p).(len) + 14 < 65536;
  ap_req : op = ARP_REQUEST -> 28 <= (m.(structs) p).(len);
  ap_tot : 0 <= (m.(structs) p).(tot_len) /\ (m.(structs) p).(tot_len) + 14 < 65536;
  ap_room : p + SIZEOF_STRUCT_PBUF + 14 <= (m.(structs) p).(payload);
  ap_inside : (m.(structs) p).(payload) + Z.max 28 (m.(structs) p).(len) <= p + size;
  ap_bytes : load_list m.(data) (m.(structs) p).(payload) 28 = arp_bytes op sha sip tha tip;
  ap_sha : length sha = 6%nat;
  ap_tha : length tha = 6%nat;
  ap_op : is_u16 op;
  ap_sip : is_u32 sip;
  ap_tip : is_u32 tip }.

Definition arp_blk (m : pst) (p size : Z) : blk := mkBlk (origin_of (m.(structs) p).(type)) p size.

Lemma arp_packet_untouched m m' p size op sha sip tha tip : arp_packet m p size op sha sip tha tip ->
  untouched m m' (arp_blk m p size) -> arp_packet m' p size op sha sip tha tip.
Proof.
  intros H [U1 U2]. cbn [b_addr b_size arp_blk] in U1, U2. destruct H. split; rewrite ?U1; try assumption.
  rewrite (load_ext m.(data)); [assumption|]. intros x Hx. apply U2. change SIZEOF_STRUCT_PBUF with 16 in *. lia.
Qed.

(** The fields of the packet. *)
Lemma app_split {A} (a b c d : list A) : length a = length c -> a ++ b = c ++ d -> a = c /\ b = d.
Proof. intros Hl H. apply app_eq_app in H. destruct H as [l [[-> ->]|[-> ->]]]; rewrite length_app in Hl; (destruct l; [now rewrite ?app_nil_r|cbn in Hl; lia]). Qed.

Lemma arp_loads d h op sha sip tha tip : load_list d h 28 = arp_bytes op sha sip tha tip -> length sha = 6%nat -> length tha = 6%nat ->
  load_list d h 6 = [0; 1; 8; 0; 6; 4] /\ load_list d (h + 6) 2 = [op / 256; op mod 256] /\ load_list d (h + 8) 6 = sha /\
  load_list d (h + 14) 4 = put32 sip /\ load_list d (h + 18) 6 = tha /\ load_list d (h + 24) 4 = put32 tip.
Proof.
  intros H Ls Lt. unfold arp_bytes in H. change 28 with (6 + (2 + (6 + (4 + (6 + 4))))) in H. rewrite !load_app in H by lia.
  replace (h + 6 + 2) with (h + 8) in H by lia. replace (h + 8 + 6) with (h + 14) in H by lia. replace (h + 14 + 4) with (h + 18) in H by lia.
  replace (h + 18 + 6) with (h + 24) in H by lia.
  apply app_split in H; [|reflexivity]. destruct H as [H1 H]. apply app_split in H; [|reflexivity]. destruct H as [H2 H].
  apply app_split in H; [|now rewrite load_list_length, Ls]. destruct H as [H3 H]. apply app_split in H; [|reflexivity]. destruct H as [H4 H].
  apply app_split in H; [|now rewrite load_list_length, Lt]. destruct H as [H5 H]. auto 6.
Qed.

(** Words read from loaded bytes. *)
Lemma load_unfold d a n : load_list d a (Z.of_nat n) = map (fun i => d (a + Z.of_nat i)) (seq 0 n).
Proof. unfold load_list. now rewrite Nat2Z.id. Qed.

Ltac unload n H :=
  rewrite (load_unfold _ _ n) in H; cbn [seq map] in H;
  change (Z.of_nat 0) with 0 in H; change (Z.of_nat 1) with 1 in H; change (Z.of_nat 2) with 2 in H;
  change (Z.of_nat 3) with 3 in H; change (Z.of_nat 4) with 4 in H; change (Z.of_nat 5) with 5 in H; rewrite Z.add_0_r in H.

Lemma load16_at d a x y : load_list d a 2 = [x; y] -> le16 (d a) (d (a + 1)) = le16 x y.
Proof. intros H. unload 2%nat H. now injection H as -> ->. Qed.
Lemma load32_at d a v : is_u32 v -> load_list d a 4 = put32 v -> le32 (d a) (d (a + 1)) (d (a + 2)) (d (a + 3)) = v.
Proof. intros Hv H. unload 4%nat H. injection H as -> -> -> ->. now apply le32_put32. Qed.

(** The frame that answers a request, with the bytes behind the packet. *)
Definition reply_frame (nf : eth_netif) (sha : list Z) (sip : Z) (rest : list Z) : list Z :=
  eth_header sha nf.(hwaddr) ETHTYPE_ARP ++ arp_bytes ARP_REPLY nf.(hwaddr) nf.(n4).(ip_addr) sha sip ++ rest.

Definition trailer (m : pst) (p : Z) : list Z := load_list m.(data) ((m.(structs) p).(payload) + 28) ((m.(structs) p).(len) - 28).

(** The fields after [etharp_input] made a reply of the request. *)
Lemma reply_fields d h sha sip tha tip hw ip : load_list d h 28 = arp_bytes ARP_REQUEST sha sip tha tip -> length sha = 6%nat -> length tha = 6%nat -> length hw = 6%nat ->
  load_list (store_list (h + 8) hw (store_list (h + 18) sha (store_list (h + 14) (put32 ip) (store_list (h + 24) (put32 sip)
    (store_list (h + 6) (put16 (lwip_htons ARP_REPLY)) d))))) h 28 = arp_bytes ARP_REPLY hw ip sha sip.
Proof.
  intros H Ls Lt Lh. destruct (arp_loads _ _ _ _ _ _ _ H Ls Lt) as (H1 & _). unfold arp_bytes.
  assert (L16 : forall v, length (put16 v) = 2%nat) by reflexivity. assert (L32 : forall v, length (put32 v) = 4%nat) by reflexivity.
  assert (Hex : forall a l d0 n, n = Z.of_nat (length l) -> load_list (store_list a l d0) a n = l) by (intros; subst; apply load_store_exact).
  change [ARP_REPLY / 256; ARP_REPLY mod 256] with (put16 (lwip_htons ARP_REPLY)). rewrite <- H1.
  change 28 with (6 + (2 + (6 + (4 + (6 + 4))))). rewrite !load_app by lia.
  replace (h + 6 + 2) with (h + 8) by lia. replace (h + 8 + 6) with (h + 14) by lia. replace (h + 14 + 4) with (h + 18) by lia.
  replace (h + 18 + 6) with (h + 24) by lia.
  f_equal; [now rewrite !load_store_other by (rewrite ?L16, ?L32, ?Ls, ?Lh; cbn [length]; lia)|].
  repeat match goal with |- load_list _ _ _ ++ _ = _ ++ _ => f_equal end;
    rewrite ?load_store_other by (rewrite ?L16, ?L32, ?Ls, ?Lh; cbn [length]; lia); apply Hex; rewrite ?L16, ?L32, ?Ls, ?Lh; reflexivity.
Qed.

Lemma reply_sends (s : ast) n p size sha sip tha tip : arp_packet s.(pm) p size ARP_REQUEST sha sip tha tip -> p <> 0 -> eth_iface s n ->
  exists s', arp_reply NOASSERT linkoutput p n (s.(pm).(structs) p).(payload) s = Ok (tt, s') /\ same_rest s s' /\
    s'.(wire) = s.(wire) ++ [(n, reply_frame (s.(netifs) n) sha sip (trailer s.(pm) p))] /\ s'.(pm).(mm) = s.(pm).(mm) /\
    (exists pl ln tl, s'.(pm).(structs) p = (s.(pm).(structs) p) <| payload := pl |> <| len := ln |> <| tot_len := tl |>) /\
    (forall a, a <> p -> s'.(pm).(structs) a = s.(pm).(structs) a) /\
    (forall x, ~ p <= x < p + size -> s'.(pm).(data) x = s.(pm).(data) x).
Proof.
  intros [Hn Hr Hc Hty Hl Hreq Ht Hroom Hins Hby Ls Lt _ _ _] Hp0 (_ & Hhw & Lhw). specialize (Hreq eq_refl). set (h := payload (structs (pm s) p)) in *.
  destruct (arp_loads _ _ _ _ _ _ _ Hby Ls Lt) as (_ & _ & F3 & F4 & _). set (hw := hwaddr (netifs s n)) in *.
  unfold arp_reply. rewrite bind_store. set (d1 := store_list (h + 6) _ _). unfold load. rewrite bind_gets, data_with_data.
  assert (L16 : forall v, length (put16 v) = 2%nat) by reflexivity. assert (L32 : forall v, length (put32 v) = 4%nat) by reflexivity.
  replace (load_list d1 (h + 14) 4) with (put32 sip) by (unfold d1; rewrite load_store_other by (rewrite L16; lia); now rewrite F4).
  rewrite bind_store, with_data_twice, data_with_data. unfold netif_at. rewrite bind_gets. change (netifs (with_data s _)) with (netifs s).
  rewrite bind_store, with_data_twice, data_with_data, Hhw, bind_pb_assert by reflexivity.
  rewrite (copy_eth (h + 18) (InPacket (h + 8)) sha d1 (h + 14)).
  2:{ split; [exact Ls|]. split; [|lia]. unfold d1. rewrite load_store_other by (rewrite L16; lia). exact F3. }
  2:{ intros x Hx. now rewrite data_with_data, !store_other by (rewrite ?L32; lia). }
  rewrite with_data_twice, data_with_data, copy_value, with_data_twice, data_with_data by exact Lhw. unfold d1. clear d1. fold hw.
  pose proof (reply_fields _ h sha sip tha tip hw (ip_addr (n4 (netifs s n))) Hby Ls Lt Lhw) as HD. set (D := store_list (h + 8) hw _) in *.
  assert (HD2 : forall x, ~ h <= x < h + 28 -> D x = data (pm s) x)
    by (intros x Hx; unfold D; rewrite !store_other by (rewrite ?L16, ?L32, ?Ls, ?Lhw; lia); reflexivity). clearbody D.
  destruct (arp_loads _ _ _ _ _ _ _ HD Lhw Ls) as (_ & _ & G3 & _ & G5 & _).
  set (s1 := with_data s D). assert (Hstr : structs (pm s1) = structs (pm s)) by reflexivity.
  change SIZEOF_STRUCT_PBUF with 16 in *.
  destruct (output_sends s1 n p [] (InPacket (h + 8)) (InPacket (h + 18)) hw sha ETHTYPE_ARP) as (s2 & E2 & R2 & W2 & M2 & S2 & O2 & D2);
    rewrite ?Hstr; fold h; [|unfold is_u16, ETHTYPE_ARP; lia|split; [exact Ls|split; [exact G5|lia]]|split; [exact Lhw|split; [exact G3|lia]]|exact Hhw|].
  { pose proof fuel_pos. split; rewrite ?Hstr; fold h; try assumption; try lia; auto. cbn [chain]. now rewrite Hn. }
  rewrite Hstr in *. fold h in D2. rewrite (bind_ok _ _ _ _ _ E2). exists s2. split; [reflexivity|]. split; [exact R2|].
  split; [|split; [exact M2|split; [exact S2|split; [exact O2|]]]].
  - rewrite W2. change (wire s1) with (wire s). change (data (pm s1)) with D. do 3 f_equal. unfold reply_frame. fold hw. f_equal.
    rewrite content_single. fold h. replace (len (structs (pm s) p)) with (28 + (len (structs (pm s) p) - 28)) by lia.
    rewrite load_app, HD by lia. f_equal. unfold trailer. fold h. apply load_ext. intros x Hx. apply HD2. lia.
  - intros x Hx. rewrite D2 by lia. apply HD2. lia.
Qed.

(** The packet is freed, whatever was made of it. *)
Lemma packet_freed (s s1 : ast) bs p size op sha sip tha tip : arp_packet s.(pm) p size op sha sip tha tip ->
  owns s.(pm).(mm) (arp_blk s.(pm) p size :: bs) -> same_rest s s1 -> s1.(pm).(mm) = s.(pm).(mm) ->
  (exists pl ln tl, s1.(pm).(structs) p = (s.(pm).(structs) p) <| payload := pl |> <| len := ln |> <| tot_len := tl |>) ->
  (forall a, a <> p -> s1.(pm).(structs) a = s.(pm).(structs) a) -> (forall x, ~ p <= x < p + size -> s1.(pm).(data) x = s.(pm).(data) x) ->
  exists s', free NOASSERT custom_free_function p s1 = Ok (tt, s') /\ same_rest s s' /\ s'.(wire) = s1.(wire) /\
    owns s'.(pm).(mm) bs /\ Forall (untouched s.(pm) s'.(pm)) bs.
Proof.
  intros Hap Ho R M (pl & ln & tl & S) Hs D. destruct (owns_fresh _ _ _ Ho) as [Hp0 _]. cbn [b_addr arp_blk] in Hp0.
  destruct (free_sends s1 p size bs) as (m' & E & O & U); rewrite ?S; [exact Hp0|apply Hap|apply Hap|apply Hap|rewrite M; exact Ho|].
  eexists. split; [exact E|]. split; [exact R|]. split; [reflexivity|]. split; [exact O|].
  apply Forall_forall. intros b Hb. rewrite Forall_forall in U. apply (untouched_trans _ (pm s1)); [|now apply U].
  pose proof (owns_other _ _ _ _ Ho Hb) as Hne. split; [now apply Hs|]. intros x Hx. apply D. exact (owns_outside _ _ _ _ _ Ho Hb Hx).
Qed.

(** The end of [etharp_input]: a request for the interface is answered, and the
    packet is freed. *)
Lemma answer_sends (s : ast) bs n p size op sha sip tha tip (us : bool) : eth_iface s n -> op = ARP_REQUEST \/ op = ARP_REPLY ->
  arp_packet s.(pm) p size op sha sip tha tip -> owns s.(pm).(mm) (arp_blk s.(pm) p size :: bs) ->
  let h := (s.(pm).(structs) p).(payload) in
  exists s', (do opcode <- load16 (h + 6);
    (if opcode =? PP_HTONS ARP_REQUEST then (when us then arp_reply NOASSERT linkoutput p n h)
     else if opcode =? PP_HTONS ARP_REPLY then ret tt
     else stat (fun x => x <| a_err := u16 (x.(a_err) + 1) |>)) ;; free NOASSERT custom_free_function p) s = Ok (tt, s') /\
    same_rest s s' /\ owns s'.(pm).(mm) bs /\ Forall (untouched s.(pm) s'.(pm)) bs /\
    s'.(wire) = s.(wire) ++ (if (op =? ARP_REQUEST) && us then [(n, reply_frame (s.(netifs) n) sha sip (trailer s.(pm) p))] else []).
Proof.
  intros Hif Hop Hap Ho h. destruct (owns_fresh _ _ _ Ho) as [Hp0 _]. cbn [b_addr arp_blk] in Hp0.
  destruct (arp_loads _ _ _ _ _ _ _ (ap_bytes _ _ _ _ _ _ _ _ Hap) (ap_sha _ _ _ _ _ _ _ _ Hap) (ap_tha _ _ _ _ _ _ _ _ Hap)) as (_ & G2 & _).
  fold h in G2. unfold load16. rewrite bind_gets, (load16_at _ _ _ _ G2).
  assert (Hkeep : exists s', free NOASSERT custom_free_function p s = Ok (tt, s') /\ same_rest s s' /\ owns s'.(pm).(mm) bs /\
      Forall (untouched s.(pm) s'.(pm)) bs /\ s'.(wire) = s.(wire) ++ []).
  { destruct (packet_freed s s bs p size op sha sip tha tip Hap Ho) as (s' & E & R & W & O & U); try reflexivity; [now repeat split| |].
    - exists (payload (structs (pm s) p)), (len (structs (pm s) p)), (tot_len (structs (pm s) p)). now destruct (structs (pm s) p).
    - exists s'. rewrite app_nil_r. auto. }
  destruct Hop as [-> | ->].
  - change (le16 (ARP_REQUEST / 256) (ARP_REQUEST mod 256) =? PP_HTONS ARP_REQUEST) with true. change (ARP_REQUEST =? ARP_REQUEST) with true.
    cbv iota. cbn [andb]. destruct us; [|exact Hkeep].
    destruct (reply_sends s n p size sha sip tha tip Hap Hp0 Hif) as (s1 & E1 & R1 & W1 & M1 & S1 & O1 & D1). fold h in E1.
    rewrite (bind_ok _ _ _ _ _ E1). destruct (packet_freed s s1 bs _ _ _ _ _ _ _ Hap Ho R1 M1 S1 O1 D1) as (s' & E & R & W & O & U).
    exists s'. rewrite W, W1. auto.
  - change (le16 (ARP_REPLY / 256) (ARP_REPLY mod 256) =? PP_HTONS ARP_REQUEST) with false. change (le16 (ARP_REPLY / 256) (ARP_REPLY mod 256) =? PP_HTONS ARP_REPLY) with true.
    change (ARP_REPLY =? ARP_REQUEST) with false. cbv iota. cbn [andb]. exact Hkeep.
Qed.

Abbreviation input := (etharp_input NOASSERT custom_free_function SUPPORT_STATIC_ENTRIES TABLE_MATCH_NETIF linkoutput).

(** The packet is for the interface. *)
Definition to_us (s : ast) (n tip : Z) : bool :=
  negb (ip4_addr_isany_val (s.(netifs) n).(n4).(ip_addr)) && (tip =? (s.(netifs) n).(n4).(ip_addr)).

(** A request or reply from a host that has an entry, or for the interface when
    there is an empty entry: the address is learned, the packet that waits for it
    leaves, and a request for the interface is answered. *)
Lemma input_learns (s : ast) bs n p size op sha sip tha tip i e o :
  table_ok TABLE_MATCH_NETIF s.(arp_table) -> eth_iface s n -> unicast s n sip ->
  op = ARP_REQUEST \/ op = ARP_REPLY -> arp_packet s.(pm) p size op sha sip tha tip ->
  let flags := if to_us s n tip then ETHARP_FLAG_TRY_HARD else ETHARP_FLAG_FIND_ONLY in
  entry_for s.(arp_table) sip n flags i -> nth_error s.(arp_table) i = Some e -> e.(st) <> ETHARP_STATE_STATIC ->
  holds s.(pm) e.(q) o -> owns s.(pm).(mm) (queue_blks e.(q) o ++ arp_blk s.(pm) p size :: bs) ->
  exists s', input p n s = Ok (tt, s') /\
    s'.(arp_table) = alter_at i (fun _ => mkEntry 0 sip n sha 0 ETHARP_STATE_STABLE) s.(arp_table) /\
    s'.(etharp_cached_entry) = s.(etharp_cached_entry) /\ s'.(netifs) = s.(netifs) /\
    owns s'.(pm).(mm) bs /\ Forall (untouched s.(pm) s'.(pm)) bs /\
    s'.(wire) = s.(wire) ++ released n sha (s.(netifs) n).(hwaddr) o ++
      (if (op =? ARP_REQUEST) && to_us s n tip then [(n, reply_frame (s.(netifs) n) sha sip (trailer s.(pm) p))] else []).
Proof.
  intros Ht Hif Huni Hop Hap flags Hfor Hi Hst Hq Ho. pose proof Hif as (Hn0 & _ & _).
  unfold etharp_input, error_unless. rewrite (proj2 (Z.eqb_neq _ _) Hn0). cbn [negb].
  unfold pbuf_at, load16, load8, load32, netif_at. rewrite !bind_gets. set (h := payload (structs (pm s) p)) in *.
  destruct (arp_loads _ _ _ _ _ _ _ (ap_bytes _ _ _ _ _ _ _ _ Hap) (ap_sha _ _ _ _ _ _ _ _ Hap) (ap_tha _ _ _ _ _ _ _ _ Hap)) as (F1 & F2 & F3 & F4 & F5 & F6).
  fold h in F1, F2, F3, F4, F5, F6.
  assert (B : le16 (data (pm s) h) (data (pm s) (h + 1)) = 256 /\ data (pm s) (h + 4) = 6 /\ data (pm s) (h + 5) = 4 /\
      le16 (data (pm s) (h + 2)) (data (pm s) (h + 2 + 1)) = 8).
  { clear - F1. unload 6%nat F1. injection F1 as -> -> -> E3 -> ->.
    replace (h + 2 + 1) with (h + 3) by lia. now rewrite E3. }
  destruct B as (-> & -> & -> & ->). cbn [negb orb].
  change (negb (256 =? PP_HTONS HWTYPE_ETHERNET) || negb (6 =? ETH_HWADDR_LEN) || negb (4 =? 4) || negb (8 =? PP_HTONS ETHTYPE_IP)) with false. cbv iota.
  unfold stat. rewrite bind_modify. set (s0 := s <| astats := _ |>). rewrite !bind_gets. change (pm s0) with (pm s). change (netifs s0) with (netifs s).
  rewrite (load32_at _ _ _ (ap_sip _ _ _ _ _ _ _ _ Hap) F4).
  replace (le32 (data (pm s) (h + 24)) (data (pm s) (h + 24 + 1)) (data (pm s) (h + 24 + 2)) (data (pm s) (h + 24 + 3))) with tip
    by (symmetry; apply load32_at; [apply Hap|exact F6]).
  cbv zeta. replace (if ip4_addr_isany_val (ip_addr (n4 (netifs s n))) then false else tip =? ip_addr (n4 (netifs s n))) with (to_us s n tip)
    by (unfold to_us; now destruct (ip4_addr_isany_val _)).
  fold flags.
  destruct (update_learns s0 (arp_blk (pm s) p size :: bs) n sip (InPacket (h + 8)) sha flags i e o) as (s1 & E1 & T1 & C1 & N1 & O1 & U1 & W1);
    try assumption; [unfold flags; now destruct (to_us s n tip)| |].
  { split; [apply Hap|]. split; [exact F3|]. exists (arp_blk (pm s) p size). cbn [arp_blk b_addr b_size]. split; [now left|].
    pose proof (ap_room _ _ _ _ _ _ _ _ Hap). pose proof (ap_inside _ _ _ _ _ _ _ _ Hap). pose proof (ap_len _ _ _ _ _ _ _ _ Hap).
    change SIZEOF_STRUCT_PBUF with 16 in *. fold h in H, H0. lia. }
  rewrite (bind_ok _ _ _ _ _ E1). pose proof U1 as U1'. apply Forall_cons_iff in U1'. destruct U1' as [U1p U1b].
  pose proof (arp_packet_untouched _ _ _ _ _ _ _ _ _ Hap U1p) as Hap1. assert (Hstr : structs (pm s1) p = structs (pm s) p) by apply U1p.
  assert (Hrest : trailer (pm s1) p = trailer (pm s) p).
  { unfold trailer. rewrite Hstr. apply load_ext. intros x Hx. apply (proj2 U1p). cbn [arp_blk b_addr b_size].
    pose proof (ap_room _ _ _ _ _ _ _ _ Hap). pose proof (ap_inside _ _ _ _ _ _ _ _ Hap). change SIZEOF_STRUCT_PBUF with 16 in *. lia. }
  assert (Hif1 : eth_iface s1 n) by (unfold eth_iface; rewrite N1; exact Hif).
  assert (Ho1 : owns (mm (pm s1)) (arp_blk (pm s1) p size :: bs)) by (unfold arp_blk; rewrite Hstr; exact O1).
  destruct (answer_sends s1 bs n p size op sha sip tha tip (to_us s n tip) Hif1 Hop Hap1 Ho1) as (s2 & E2 & (R1 & R2 & R3) & O2 & U2 & W2).
  rewrite Hstr in E2. fold h in E2. exists s2. split; [exact E2|]. rewrite R1, T1, R2, C1, R3, N1, W2, W1, Hrest, N1, <- app_assoc.
  do 3 (split; [reflexivity|]). split; [exact O2|]. split; [|reflexivity].
  apply Forall_forall. intros b Hb. rewrite Forall_forall in U1b, U2. apply (untouched_trans _ (pm s1)); auto.
Qed.

(** ** The protocol *)

(** The entry of an address is the first that matches it. *)
Lemma own_entry t i e ip n : table_ok TABLE_MATCH_NETIF t -> n <> 0 -> nth_error t i = Some e -> e.(st) <> ETHARP_STATE_EMPTY ->
  e.(ipaddr) = ip -> e.(e_netif) = n -> first_of (hit ip n) t i.
Proof.
  intros Ht Hn Hi Hne Hip Hnet. assert (He : hit ip n e = true) by (apply key_hit; [assumption|now split]).
  exists e. split; [assumption|]. split; [assumption|]. intros x Hx. apply In_nth_error in Hx. destruct Hx as [j Hj].
  rewrite nth_error_firstn in Hj. destruct (Nat.ltb_spec j i) as [Hlt|]; [|discriminate].
  destruct (hit ip n x) eqn:Eh; [|reflexivity]. destruct (hit_key _ _ _ _ Hn Eh) as [Hxe Hxk].
  exfalso. apply (to_unique _ _ Ht i e Hi Hne j x ltac:(lia) Hj Hxe). now rewrite Hip, Hnet.
Qed.

(** C17: A host that answers gets the packet: [etharp_query] for an address that is
    not in the table broadcasts a request exactly if there is memory for it, and either
    queues a copy of the packet or reports that there was no memory; when a reply
    from that address arrives while the entry is pending, [etharp_input] sends
    exactly the bytes of the packet to the hardware address of the reply and gives
    the memory of the copy and of the reply back. *)
Theorem arp_resolution (s : ast) bs n ip p l i : table_ok TABLE_MATCH_NETIF s.(arp_table) -> eth_iface s n -> unicast s n ip ->
  owns s.(pm).(mm) bs -> stored s.(pm) bs p l -> (s.(pm).(structs) p).(type) <> PBUF_ROM ->
  none_of (hit ip n) s.(arp_table) -> first_of empty_entry s.(arp_table) i ->
  let bytes := content s.(pm).(structs) s.(pm).(data) l in
  exists r s1, query n ip p s = Ok (r, s1) /\ (r = ERR_OK \/ r = ERR_MEM) /\
    s1.(wire) = s.(wire) ++ (if room_for_arp s.(pm) then [(n, request_frame s n ip)] else []) /\
    (r = ERR_OK -> exists c, owns s1.(pm).(mm) (waiting_blk c bytes :: bs) /\
      (exists mac, nth_error s1.(arp_table) i = Some (mkEntry c ip n mac 0 ETHARP_STATE_PENDING)) /\
      forall s2 bs2 p2 size mac tha tip e, table_ok TABLE_MATCH_NETIF s2.(arp_table) -> s2.(netifs) = s.(netifs) ->
        nth_error s2.(arp_table) i = Some e -> e.(st) = ETHARP_STATE_PENDING -> e.(q) = c -> e.(ipaddr) = ip -> e.(e_netif) = n ->
        untouched s1.(pm) s2.(pm) (waiting_blk c bytes) -> arp_packet s2.(pm) p2 size ARP_REPLY mac ip tha tip ->
        owns s2.(pm).(mm) (waiting_blk c bytes :: arp_blk s2.(pm) p2 size :: bs2) ->
        exists s3, input p2 n s2 = Ok (tt, s3) /\ owns s3.(pm).(mm) bs2 /\
          s3.(wire) = s2.(wire) ++ [(n, eth_header mac (s.(netifs) n).(hwaddr) ETHTYPE_IP ++ bytes)]).
Proof.
  intros Ht Hif Huni Ho Hst Hty Hnh Hf bytes.
  destruct (query_queues s bs n ip p l i Ht Hif Huni Ho Hst Hty Hnh Hf) as (r & c & o & s1 & E & T & W & Hh & Ho1 & Hr). fold bytes in Hr.
  exists r, s1. split; [exact E|]. split; [destruct Hr as [[-> _]|[-> _]]; auto|]. split; [exact W|].
  intros ->. destruct Hr as [[_ ->]|[Hr _]]; [|discriminate]. exists c. split; [exact Ho1|]. cbn [holds] in Hh. split.
  { destruct (first_of_nth _ _ _ Hf) as (e & Hi & _). exists (ethaddr e). now rewrite T, nth_error_alter, Nat.eqb_refl, Hi. }
  intros s2 bs2 p2 size mac tha tip e Ht2 N2 Hi Hpend Hq Hip Hnet HU Hap Ho2.
  assert (Hif2 : eth_iface s2 n) by (unfold eth_iface; now rewrite N2). assert (Huni2 : unicast s2 n ip) by (unfold unicast; now rewrite N2).
  destruct (input_learns s2 bs2 n p2 size ARP_REPLY mac ip tha tip i e (Some bytes)) as (s3 & E3 & _ & _ & _ & O3 & _ & W3); auto.
  - left. apply (own_entry _ _ e); auto; [apply Hif|congruence].
  - congruence.
  - rewrite Hq. exact (waiting_untouched _ _ _ _ Hh HU).
  - now rewrite Hq.
  - exists s3. split; [exact E3|]. split; [exact O3|]. rewrite W3, N2. cbn [released]. now rewrite app_nil_r.
Qed.

(** A request or reply from a host that has an entry, or one for the
    interface's address when there is an empty entry: [etharp_input] records the
    sender's addresses in that entry and in no other, sends the packet that
    waited for them, answers a request for the interface's own address with a
    reply to the sender, and gives the memory of the packets back. *)
Theorem etharp_input_learns (s : ast) bs n p size op sha sip tha tip i e o :
  table_ok TABLE_MATCH_NETIF s.(arp_table) -> eth_iface s n -> unicast s n sip ->
  op = ARP_REQUEST \/ op = ARP_REPLY -> arp_packet s.(pm) p size op sha sip tha tip ->
  let flags := if to_us s n tip then ETHARP_FLAG_TRY_HARD else ETHARP_FLAG_FIND_ONLY in
  entry_for s.(arp_table) sip n flags i -> nth_error s.(arp_table) i = Some e -> e.(st) <> ETHARP_STATE_STATIC ->
  holds s.(pm) e.(q) o -> owns s.(pm).(mm) (queue_blks e.(q) o ++ arp_blk s.(pm) p size :: bs) ->
  exists s', input p n s = Ok (tt, s') /\
    s'.(arp_table) = alter_at i (fun _ => mkEntry 0 sip n sha 0 ETHARP_STATE_STABLE) s.(arp_table) /\
    owns s'.(pm).(mm) bs /\ Forall (untouched s.(pm) s'.(pm)) bs /\
    s'.(wire) = s.(wire) ++ released n sha (s.(netifs) n).(hwaddr) o ++
      (if (op =? ARP_REQUEST) && to_us s n tip then [(n, reply_frame (s.(netifs) n) sha sip (trailer s.(pm) p))] else []).
Proof.
  intros Ht Hif Huni Hop Hap flags Hfor Hi Hst Hq Ho.
  destruct (input_learns s bs n p size op sha sip tha tip i e o Ht Hif Huni Hop Hap Hfor Hi Hst Hq Ho) as (s' & E & T & _ & _ & H).
  exists s'. auto.
Qed.

(** C40: [etharp_input] reads the 28 bytes of an ARP header whatever the length of
    the packet.  When the first eight bytes in memory are those of a reply and the
    packet is at most that long, the addresses that it enters into the table are
    bytes behind the end of the packet, left there by whatever was in the buffer
    before. *)
Theorem etharp_input_reads_stale_bytes (s : ast) bs n p size sha sip tha tip i e :
  table_ok TABLE_MATCH_NETIF s.(arp_table) -> eth_iface s n -> unicast s n sip ->
  arp_packet s.(pm) p size ARP_REPLY sha sip tha tip -> (s.(pm).(structs) p).(len) <= 8 -> owns s.(pm).(mm) (arp_blk s.(pm) p size :: bs) ->
  entry_for s.(arp_table) sip n (if to_us s n tip then ETHARP_FLAG_TRY_HARD else ETHARP_FLAG_FIND_ONLY) i ->
  nth_error s.(arp_table) i = Some e -> e.(st) <> ETHARP_STATE_STATIC -> e.(q) = 0 ->
  let after := (s.(pm).(structs) p).(payload) + 8 in
  exists s', input p n s = Ok (tt, s') /\ (s.(pm).(structs) p).(payload) + (s.(pm).(structs) p).(len) <= after /\
    s'.(arp_table) = alter_at i (fun _ => mkEntry 0 (le32 (s.(pm).(data) (after + 6)) (s.(pm).(data) (after + 7)) (s.(pm).(data) (after + 8)) (s.(pm).(data) (after + 9))) n
      (load_list s.(pm).(data) after 6) 0 ETHARP_STATE_STABLE) s.(arp_table).
Proof.
  intros Ht Hif Huni Hap Hl Ho Hfor Hi Hst Hq after.
  destruct (input_learns s bs n p size ARP_REPLY sha sip tha tip i e None) as (s' & E & T & _); auto; try (rewrite Hq; auto; reflexivity).
  exists s'. split; [exact E|]. split; [unfold after; lia|].
  destruct (arp_loads _ _ _ _ _ _ _ (ap_bytes _ _ _ _ _ _ _ _ Hap) (ap_sha _ _ _ _ _ _ _ _ Hap) (ap_tha _ _ _ _ _ _ _ _ Hap)) as (_ & _ & F3 & F4 & _). fold after in F3. rewrite F3.
  replace (le32 _ _ _ _) with sip; [exact T|]. symmetry. replace (after + 7) with (after + 6 + 1) by lia. replace (after + 8) with (after + 6 + 2) by lia. replace (after + 9) with (after + 6 + 3) by lia.
  apply load32_at; [apply Hap|]. now replace (after + 6) with (payload (structs (pm s) p) + 14) by (unfold after; lia).
Qed.

(** C39: A packet whose first pbuf is PBUF_ROM and whose second is not is never
    queued for an address that has to be resolved: the copy is allocated with the
    length of the packet from the second pbuf on, so that [pbuf_copy] stops the
    program, or, without assertions, fails, and the result is ERR_MEM. *)
Theorem etharp_query_loses_rom (s : ast) bs n ip a b t i : table_ok TABLE_MATCH_NETIF s.(arp_table) -> eth_iface s n -> unicast s n ip ->
  owns s.(pm).(mm) bs -> stored s.(pm) bs a (a :: b :: t) ->
  (s.(pm).(structs) a).(type) = PBUF_ROM -> (s.(pm).(structs) b).(type) <> PBUF_ROM ->
  none_of (hit ip n) s.(arp_table) -> first_of empty_entry s.(arp_table) i ->
  match query n ip a s with
  | Ok (r, s') => r = ERR_MEM /\ owns s'.(pm).(mm) bs
  | Halt => NOASSERT = false
  | Hang => False
  end.
Proof.
  intros Ht Hif Huni Ho Hst Ha Hb Hnh Hf.
  destruct (query_reaches s bs n ip a i Ht Hif Huni Ho (stored_nonnull _ _ _ _ Hst) Hnh Hf) as (s3 & -> & _ & _ & _ & _ & U3 & O3).
  destruct (stored_untouched _ _ _ _ _ Hst U3) as (Hst3 & _ & Hty3). pose proof (stored_struct _ _ _ _ _ b Hst U3 ltac:(right; now left)) as Hsb.
  pose proof (take_over_rom s3 bs a b t O3 Hst3 ltac:(congruence) ltac:(congruence)) as H. unfold queue_packet, bind at 1.
  destruct (take a s3) as [[c s4]| |]; [|exact H|exact H]. destruct H as [-> H]. now split.
Qed.
End Proto.
