(* ===== verification/EtharpTmr.v ===== *)
(** * The ARP timer

    [etharp_tmr], called once a second: every entry that is not static expires
    in a bounded number of calls and the packets that waited are freed. *)

From Stdlib Require Import ZArith List Lia Bool Permutation.
From S2P Require Import Prelude Def Ip4Addr Mem PbufMem Pbuf PbufCopy Etharp EtharpInv EtharpProto.
Import ListNotations.
Open Scope Z_scope.
Open Scope c_scope.

Section Timer.
Context {PMem : PbufMemory}.
Variable NOASSERT : bool.
Variable custom_free_function : Z -> PB unit.
Variable tcpip_callback_ok : pst -> bool.
Variables SUPPORT_STATIC_ENTRIES TABLE_MATCH_NETIF : bool.
Variable linkoutput : Z -> Z -> AM err_t.
Hypothesis link_sends : forall n p l s, chain s.(pm).(structs) p l -> (length l <= loop_fuel)%nat ->
  linkoutput n p s = Ok (ERR_OK, s <| wire := s.(wire) ++ [(n, content s.(pm).(structs) s.(pm).(data) l)] |>).
Hypothesis link_keeps : forall n p, keeps (linkoutput n p).

Abbreviation inv := (inv TABLE_MATCH_NETIF).
Abbreviation tick := (tmr_entry NOASSERT custom_free_function tcpip_callback_ok SUPPORT_STATIC_ENTRIES linkoutput).
Abbreviation tmr := (etharp_tmr NOASSERT custom_free_function tcpip_callback_ok SUPPORT_STATIC_ENTRIES linkoutput).

(** ** The packets that wait *)

(** [os] gives the bytes that wait in each entry. *)
Fixpoint table_blks (k : nat) (t : list etharp_entry) (os : nat -> option (list Z)) : list blk :=
  match t with [] => [] | e :: t => queue_blks e.(q) (os k) ++ table_blks (S k) t os end.

Definition queues_ok (s : ast) (os : nat -> option (list Z)) (bs : list blk) : Prop :=
  (forall i e, nth_error s.(arp_table) i = Some e -> holds s.(pm) e.(q) (os i)) /\
  owns s.(pm).(mm) (table_blks 0 s.(arp_table) os ++ bs).

(** The entry at [i] apart from the others. *)
Lemma table_blks_at t : forall k i e os, nth_error t i = Some e ->
  Permutation (table_blks k t os) (queue_blks e.(q) (os (k + i)%nat) ++ table_blks k (alter_at i (fun e => e <| q := 0 |> <| st := ETHARP_STATE_EMPTY |>) t)
    (fun j => if (j =? k + i)%nat then None else os j)).
Proof.
  induction t as [|x t IH]; intros k [|i] e os Hi; cbn [nth_error] in Hi; try discriminate; cbn [alter_at table_blks].
  - injection Hi as ->. rewrite Nat.add_0_r, Nat.eqb_refl. cbn [queue_blks app]. apply Permutation_app_head.
    assert (H : forall t j, (k < j)%nat -> table_blks j t os = table_blks j t (fun j => if (j =? k)%nat then None else os j)).
    { clear. induction t as [|x t IH]; intros j Hj; cbn; [reflexivity|]. rewrite (IH (S j)) by lia. now replace (j =? k)%nat with false by (symmetry; apply Nat.eqb_neq; lia). }
    rewrite (H t (S k)) by lia. reflexivity.
  - replace (k =? k + S i)%nat with false by (symmetry; apply Nat.eqb_neq; lia). rewrite (IH (S k) i e os Hi).
    replace (S k + i)%nat with (k + S i)%nat by lia. apply Permutation_app_swap_app.
Qed.

(** Blocks only depend on the queue pointers. *)
Lemma table_blks_ext t t' os : forall k, map q t' = map q t -> table_blks k t' os = table_blks k t os.
Proof.
  revert t'. induction t as [|x t IH]; intros [|y t'] k; cbn; try discriminate; [reflexivity|]. intros [= Hq Ht]. now rewrite Hq, (IH t').
Qed.

Lemma table_blks_in t os : forall k i e, nth_error t i = Some e -> incl (queue_blks e.(q) (os (k + i)%nat)) (table_blks k t os).
Proof.
  induction t as [|x t IH]; intros k [|i] e; cbn [nth_error table_blks]; try discriminate.
  - intros [= ->]. rewrite Nat.add_0_r. apply incl_appl, incl_refl.
  - intros Hi. replace (k + S i)%nat with (S k + i)%nat by lia. apply incl_appr. now apply IH.
Qed.

(** Work elsewhere leaves the queues as they are. *)
Lemma queues_kept s s' os bs : queues_ok s os bs -> map q s'.(arp_table) = map q s.(arp_table) ->
  owns s'.(pm).(mm) (table_blks 0 s.(arp_table) os ++ bs) -> Forall (untouched s.(pm) s'.(pm)) (table_blks 0 s.(arp_table) os ++ bs) ->
  queues_ok s' os bs.
Proof.
  intros [Hh Ho] Hq Ho' HU. split; [|now rewrite (table_blks_ext (arp_table s))].
  intros i e' Hi'. assert (Hi : exists e, nth_error (arp_table s) i = Some e /\ q e = q e').
  { assert (H : nth_error (map q (arp_table s)) i = Some (q e')) by (rewrite <- Hq, nth_error_map, Hi'; reflexivity).
    rewrite nth_error_map in H. destruct (nth_error (arp_table s) i) as [e|]; [|discriminate]. injection H as H. eauto. }
  destruct Hi as (e & Hi & Hqe). rewrite <- Hqe. apply (holds_untouched s.(pm)); [now apply Hh|].
  apply Forall_forall. intros b Hb. rewrite Forall_forall in HU. apply HU, in_app_iff. left. exact (table_blks_in _ _ 0 i e Hi b Hb).
Qed.

(** ** One entry *)

Definition frozen (e : etharp_entry) : bool :=
  etharp_state_eqb e.(st) ETHARP_STATE_EMPTY || (SUPPORT_STATIC_ENTRIES && etharp_state_eqb e.(st) ETHARP_STATE_STATIC).

(** The calls after which an entry is empty. *)
Definition ticks_left (e : etharp_entry) : Z :=
  if frozen e then 0
  else if etharp_state_eqb e.(st) ETHARP_STATE_PENDING then ARP_MAXPENDING - e.(ctime) else ARP_MAXAGE - e.(ctime).

(** Freeing an entry gives the memory of its packet back. *)
Lemma free_entry_sends s os bs i e : queues_ok s os bs -> nth_error s.(arp_table) i = Some e ->
  exists s', etharp_free_entry NOASSERT custom_free_function i s = Ok (tt, s') /\ s'.(netifs) = s.(netifs) /\
    s'.(arp_table) = alter_at i (fun e => e <| q := 0 |> <| st := ETHARP_STATE_EMPTY |>) s.(arp_table) /\
    queues_ok s' (fun j => if (j =? i)%nat then None else os j) bs.
Proof.
  intros [Hh Ho] Hi. rewrite (free_entry_eq _ _ _ _ _ Hi). set (clear := fun e0 : etharp_entry => e0 <| q := 0 |> <| st := ETHARP_STATE_EMPTY |>).
  set (os' := fun j => if (j =? i)%nat then None else os j). pose proof (table_blks_at _ 0 i e os Hi) as HP. cbn [Nat.add] in HP. fold clear os' in HP.
  set (t' := alter_at i clear (arp_table s)) in *.
  assert (Ho1 : owns s.(pm).(mm) (queue_blks e.(q) (os i) ++ (table_blks 0 t' os' ++ bs)))
    by (apply (owns_perm _ (table_blks 0 (arp_table s) os ++ bs)); [rewrite app_assoc; now apply Permutation_app_tail|exact Ho]).
  assert (Hfin : forall m', owns m'.(mm) (table_blks 0 t' os' ++ bs) -> Forall (untouched s.(pm) m') (table_blks 0 t' os' ++ bs) ->
    queues_ok (s <| pm := m' |> <| arp_table := t' |>) os' bs).
  { intros m' Hm HU. split; [|exact Hm]. intros j x Hj. change (nth_error t' j = Some x) in Hj. unfold t' in Hj. rewrite nth_error_alter in Hj.
    change (holds m' (q x) (os' j)). unfold os' at 1. destruct (Nat.eqb_spec j i) as [Eji|Eji].
    - rewrite Eji, Hi in Hj. injection Hj as <-. reflexivity.
    - apply (holds_untouched s.(pm)); [now apply Hh|]. apply Forall_forall. intros b Hb. rewrite Forall_forall in HU. apply HU, in_app_iff. left.
      apply (table_blks_in t' os' 0 j x); [unfold t'; rewrite nth_error_alter; now rewrite (proj2 (Nat.eqb_neq _ _) Eji)|].
      cbn [Nat.add]. unfold os'. now rewrite (proj2 (Nat.eqb_neq _ _) Eji). }
  specialize (Hh i e Hi). destruct (os i) as [bytes|]; cbn [holds queue_blks app] in Hh, Ho1.
  - rewrite (proj2 (Z.eqb_neq _ _)) by (apply (owns_fresh _ _ _ Ho1)). cbn [negb].
    destruct (free_sends NOASSERT custom_free_function tcpip_callback_ok s e.(q) (30 + Z.of_nat (length bytes)) (table_blks 0 t' os' ++ bs)) as (m' & E & O & U);
      rewrite ?(wt_struct _ _ _ Hh); try reflexivity; [apply (owns_fresh _ _ _ Ho1)|exact Ho1|].
    rewrite (bind_ok _ _ _ _ _ E). eexists. split; [reflexivity|]. split; [reflexivity|]. split; [reflexivity|]. now apply Hfin.
  - rewrite Hh. change (negb (0 =? 0)) with false. cbv iota. rewrite bind_ret. eexists. split; [reflexivity|]. split; [reflexivity|]. split; [reflexivity|].
    pose proof (Hfin s.(pm) Ho1 (proj2 (Forall_forall _ _) (fun _ _ => conj eq_refl (fun _ _ => eq_refl)))) as H. now destruct s.
Qed.

(** The requests of the timer go to interfaces that are set up. *)
Definition ifaces_ok (s : ast) : Prop := forall i e, nth_error s.(arp_table) i = Some e -> e.(st) = ETHARP_STATE_PENDING -> eth_iface s e.(e_netif).

(** What a call does to an entry. *)
Definition aged (e e' : etharp_entry) : Prop :=
  ticks_left e' = Z.max 0 (ticks_left e - 1) /\ e'.(e_netif) = e.(e_netif) /\ (e'.(st) = ETHARP_STATE_PENDING -> e.(st) = ETHARP_STATE_PENDING).

Lemma ticks_left_range e : entry_ok e -> 0 <= ticks_left e <= ARP_MAXAGE /\ (ticks_left e = 0 <-> frozen e = true).
Proof.
  intros [_ _ H1 H2 H3]. unfold ticks_left. destruct (frozen e) eqn:Ef; [now repeat split|]. unfold frozen in Ef. apply orb_false_elim in Ef. destruct Ef as [Ef _].
  destruct (etharp_state_eqb_spec e.(st) ETHARP_STATE_EMPTY) as [|Hne]; [discriminate|]. specialize (H2 Hne).
  destruct (etharp_state_eqb_spec e.(st) ETHARP_STATE_PENDING) as [Hp|_]; [specialize (H3 Hp)|]; unfold ARP_MAXAGE, ARP_MAXPENDING in *; split; try lia; split; try discriminate; lia.
Qed.

(** The request sent for a pending entry. *)
Lemma request_sends s os bs n ip : queues_ok s os bs -> eth_iface s n ->
  exists r s', etharp_request NOASSERT custom_free_function tcpip_callback_ok linkoutput n ip s = Ok (r, s') /\ same_rest s s' /\ queues_ok s' os bs.
Proof.
  intros Hq (Hn & Hhw & Lhw). unfold etharp_request, etharp_request_dst, netif_at. rewrite bind_gets.
  destruct (raw_sends NOASSERT custom_free_function tcpip_callback_ok linkoutput link_sends s (table_blks 0 s.(arp_table) os ++ bs) n (hwaddr (netifs s n)) ethbroadcast
    (hwaddr (netifs s n)) (ip_addr (n4 (netifs s n))) ethzero ip ARP_REQUEST) as (r & s' & E & R & O & U & _);
    try assumption; try reflexivity; [apply Hq|unfold is_u16, ARP_REQUEST; lia|].
  exists r, s'. split; [exact E|]. split; [exact R|]. apply (queues_kept s); try assumption. now rewrite (proj1 R).
Qed.

Lemma map_q_alter i f (t : list etharp_entry) : (forall e, q (f e) = q e) -> map q (alter_at i f t) = map q t.
Proof. intros Hf. revert i. induction t as [|x t IH]; intros [|i]; cbn; [reflexivity..|now rewrite Hf|now rewrite IH]. Qed.

(** A change of the table that keeps the queues. *)
Lemma queues_alter s os bs i f : queues_ok s os bs -> (forall e, q (f e) = q e) ->
  queues_ok (s <| arp_table := alter_at i f s.(arp_table) |>) os bs.
Proof.
  intros Hq Hf. apply (queues_kept s); [exact Hq|now apply map_q_alter|apply Hq|apply Forall_forall; now split].
Qed.

(** The result of a call for one entry. *)
Definition ticked (s s' : ast) (bs : list blk) (i : nat) (e e' : etharp_entry) : Prop :=
  s'.(netifs) = s.(netifs) /\ s'.(arp_table) = alter_at i (fun _ => e') s.(arp_table) /\ aged e e' /\ exists os, queues_ok s' os bs.

Lemma tick_sends s os bs i e : inv s -> queues_ok s os bs -> ifaces_ok s -> nth_error s.(arp_table) i = Some e ->
  exists s' e', tick i s = Ok (tt, s') /\ ticked s s' bs i e e'.
Proof.
  intros [Ht Hc] Hq Hifs Hi. pose proof (entry_ok_at _ _ _ _ Ht Hi) as Hok. pose proof (ticks_left_range _ Hok) as [Hrange Hfro].
  unfold tmr_entry. rewrite (bind_arp_entry _ _ _ _ Hi).
  assert (Hself : alter_at i (fun _ => e) (arp_table s) = arp_table s).
  { clear - Hi. revert i Hi. generalize (arp_table s). intros t. induction t as [|x t IH]; intros [|i] Hi; cbn in *; try discriminate; [congruence|now rewrite IH]. }
  replace (negb _ && negb _) with (negb (frozen e)) by (unfold frozen; apply negb_orb).
  destruct (frozen e) eqn:Ef; cbn [negb].
  { exists s, e. split; [reflexivity|]. split; [reflexivity|]. split; [now symmetry|]. split; [|eauto]. split; [|now split].
    rewrite (proj2 Hfro eq_refl). reflexivity. }
  unfold set_entry at 1. rewrite bind_modify. set (e1 := e <| ctime := u16 (e.(ctime) + 1) |>). set (s1 := s <| arp_table := _ |>).
  assert (Hi1 : nth_error (arp_table s1) i = Some e1) by (unfold s1; cbn [arp_table with_field]; now rewrite nth_error_alter, Nat.eqb_refl, Hi).
  assert (Hq1 : queues_ok s1 os bs) by (now apply queues_alter). rewrite (bind_arp_entry _ _ _ _ Hi1).
  assert (Hne : e.(st) <> ETHARP_STATE_EMPTY) by (intros E; unfold frozen in Ef; rewrite E in Ef; discriminate).
  assert (Hct : e1.(ctime) = e.(ctime) + 1)
    by (destruct Hok as [_ _ O3 O4 _]; specialize (O4 Hne); unfold e1; cbn [ctime with_field]; apply u16_id; unfold ARP_MAXAGE in *; word_lia).
  assert (Halt : forall f e', f e1 = e' -> alter_at i f (arp_table s1) = alter_at i (fun _ => e') (arp_table s))
    by (intros f e' <-; unfold s1; cbn [arp_table with_field]; rewrite alter_alter; apply alter_ext; intros x Hx; now replace x with e by congruence).
  assert (Hleft : ticks_left e = (if etharp_state_eqb e.(st) ETHARP_STATE_PENDING then ARP_MAXPENDING else ARP_MAXAGE) - e.(ctime))
    by (unfold ticks_left; rewrite Ef; now destruct (etharp_state_eqb _ _)).
  rewrite Hct, Z.geb_leb, Z.geb_leb. change (st e1) with (st e). change (e_netif e1) with (e_netif e). change (ipaddr e1) with (ipaddr e).
  destruct (_ || _) eqn:Eold.
  { destruct (free_entry_sends s1 os bs i e1 Hq1 Hi1) as (s2 & E2 & N2 & T2 & Q2). exists s2, (e1 <| q := 0 |> <| st := ETHARP_STATE_EMPTY |>).
    split; [exact E2|]. split; [exact N2|]. split; [rewrite T2; now apply Halt|]. split; [|eauto]. split; [|split; [reflexivity|discriminate]].
    change (ticks_left _) with 0 at 1. rewrite Hleft. apply orb_prop in Eold.
    destruct (etharp_state_eqb e.(st) ETHARP_STATE_PENDING); cbn [andb] in Eold; unfold ARP_MAXAGE, ARP_MAXPENDING in *; destruct Eold as [E|E]; try discriminate; apply Z.leb_le in E; lia. }
  apply orb_false_elim in Eold. destruct Eold as [Y1 Y2]. apply Z.leb_gt in Y1.
  assert (Hstay : forall s2 e2, arp_table s2 = alter_at i (fun _ => e2) (arp_table s) -> netifs s2 = netifs s -> (exists os, queues_ok s2 os bs) ->
    ctime e2 = ctime e1 -> e_netif e2 = e_netif e -> frozen e2 = false ->
    etharp_state_eqb (st e2) ETHARP_STATE_PENDING = etharp_state_eqb (st e) ETHARP_STATE_PENDING -> ticked s s2 bs i e e2).
  { intros s2 e2 T2 N2 Q2 C2 I2 F2 P2. split; [exact N2|]. split; [exact T2|]. split; [|exact Q2]. split; [|split; [exact I2|]].
    - rewrite Hleft. unfold ticks_left. rewrite F2, P2, C2, Hct.
      destruct (etharp_state_eqb e.(st) ETHARP_STATE_PENDING); cbn [andb] in Y2; [apply Z.leb_gt in Y2|]; lia.
    - intros E. rewrite E in P2. now destruct (etharp_state_eqb_spec e.(st) ETHARP_STATE_PENDING). }
  assert (Hsame : arp_table s1 = alter_at i (fun _ => e1) (arp_table s))
    by (unfold s1; cbn [arp_table with_field]; apply alter_ext; intros x Hx; now replace x with e by congruence).
  destruct e.(st) eqn:Est; [congruence| | | | |].
  - destruct (request_sends s1 os bs (e_netif e) (ipaddr e) Hq1) as (r & s2 & E2 & (R1 & R2 & R3) & Q2); [exact (Hifs i e Hi Est)|].
    rewrite (bind_ok _ _ _ _ _ E2). exists s2, e1. split; [reflexivity|].
    refine (Hstay s2 e1 _ R3 (ex_intro _ os Q2) eq_refl eq_refl _ _); [now rewrite R1|..]; unfold frozen, e1; cbn [st with_field]; rewrite Est; [apply andb_false_r|reflexivity].
  - exists s1, e1. split; [reflexivity|].
    refine (Hstay s1 e1 Hsame eq_refl (ex_intro _ os Hq1) eq_refl eq_refl _ _); unfold frozen, e1; cbn [st with_field]; rewrite Est; [apply andb_false_r|reflexivity].
  - exists (s1 <| arp_table := alter_at i (fun e0 => e0 <| st := ETHARP_STATE_STABLE_REREQUESTING_2 |>) (arp_table s1) |>), (e1 <| st := ETHARP_STATE_STABLE_REREQUESTING_2 |>).
    split; [reflexivity|]. apply Hstay; [now apply Halt|reflexivity|exists os; now apply queues_alter|reflexivity|reflexivity|apply andb_false_r|reflexivity].
  - exists (s1 <| arp_table := alter_at i (fun e0 => e0 <| st := ETHARP_STATE_STABLE |>) (arp_table s1) |>), (e1 <| st := ETHARP_STATE_STABLE |>).
    split; [reflexivity|]. apply Hstay; [now apply Halt|reflexivity|exists os; now apply queues_alter|reflexivity|reflexivity|apply andb_false_r|reflexivity].
  - exists s1, e1. split; [reflexivity|].
    refine (Hstay s1 e1 Hsame eq_refl (ex_intro _ os Hq1) eq_refl eq_refl _ _); [exact Ef|]. unfold e1. cbn [st with_field]. now rewrite Est.
Qed.

(** ** The whole table *)

Record ready (s : ast) (bs : list blk) : Prop := {
  rd_inv : inv s;
  rd_queues : exists os, queues_ok s os bs;
  rd_ifaces : ifaces_ok s }.

Lemma tick_ready s bs i e : ready s bs -> nth_error s.(arp_table) i = Some e ->
  exists s' e', tick i s = Ok (tt, s') /\ ready s' bs /\ aged e e' /\ s'.(arp_table) = alter_at i (fun _ => e') s.(arp_table).
Proof.
  intros [Hinv [os Hq] Hifs] Hi. destruct (tick_sends s os bs i e Hinv Hq Hifs Hi) as (s' & e' & E & N & T & A & Q).
  exists s', e'. split; [exact E|]. split; [|now split]. split; [|exact Q|].
  - eapply tmr_entry_preserves; [exact link_keeps|exact Hinv|exact E].
  - intros j x Hj Hp. rewrite T, nth_error_alter in Hj. unfold eth_iface. rewrite N. destruct (Nat.eqb_spec j i) as [Eji|Eji].
    + rewrite Eji, Hi in Hj. injection Hj as <-. destruct A as (_ & A1 & A2). rewrite A1. exact (Hifs i e Hi (A2 Hp)).
    + exact (Hifs j x Hj Hp).
Qed.

Lemma entries_ready bs : forall k i s, ready s bs -> (i + k = ARP_TABLE_SIZE)%nat ->
  exists s', tmr_entries NOASSERT custom_free_function tcpip_callback_ok SUPPORT_STATIC_ENTRIES linkoutput k i s = Ok (tt, s') /\ ready s' bs /\
    forall j e, nth_error s.(arp_table) j = Some e -> exists e', nth_error s'.(arp_table) j = Some e' /\ if (i <=? j)%nat then aged e e' else e' = e.
Proof.
  induction k as [|k IH]; intros i s Hs Hik; cbn [tmr_entries].
  - exists s. split; [reflexivity|]. split; [exact Hs|]. intros j e Hj. exists e. split; [exact Hj|].
    destruct (Nat.leb_spec i j); [|reflexivity]. pose proof (nth_error_table _ _ _ _ (proj1 (rd_inv _ _ Hs)) Hj). lia.
  - destruct (nth_error (arp_table s) i) as [e|] eqn:Hi.
    2:{ apply nth_error_None in Hi. rewrite (to_length _ _ (proj1 (rd_inv _ _ Hs))) in Hi. lia. }
    destruct (tick_ready s bs i e Hs Hi) as (s1 & e1 & E1 & H1 & A1 & T1). rewrite (bind_ok _ _ _ _ _ E1).
    destruct (IH (S i) s1 H1 ltac:(lia)) as (s2 & E2 & H2 & A2). exists s2. split; [exact E2|]. split; [exact H2|]. intros j x Hj.
    destruct (Nat.eqb_spec j i) as [->|Hji].
    + destruct (A2 i e1) as (e2 & Hn & He2); [now rewrite T1, nth_error_alter, Nat.eqb_refl, Hi|].
      replace (S i <=? i)%nat with false in He2 by (symmetry; apply Nat.leb_gt; lia). subst e2. exists e1. rewrite Nat.leb_refl.
      split; [exact Hn|]. now replace x with e by congruence.
    + destruct (A2 j x) as (e2 & Hn & He2); [rewrite T1, nth_error_alter; now rewrite (proj2 (Nat.eqb_neq _ _) Hji)|]. exists e2. split; [exact Hn|].
      destruct (Nat.leb_spec (S i) j), (Nat.leb_spec i j); try assumption; lia.
Qed.

Lemma tmr_ready s bs : ready s bs -> exists s', tmr s = Ok (tt, s') /\ ready s' bs /\
  forall j e, nth_error s.(arp_table) j = Some e -> exists e', nth_error s'.(arp_table) j = Some e' /\ aged e e'.
Proof.
  intros Hs. destruct (entries_ready bs ARP_TABLE_SIZE 0 s Hs eq_refl) as (s' & E & H & A). exists s'. split; [exact E|]. split; [exact H|exact A].
Qed.

(** [n] calls of the timer. *)
Fixpoint calls (n : nat) : AM unit := match n with O => ret tt | S n => tmr ;; calls n end.

(** A table whose entries are empty or static holds no packets. *)
Lemma frozen_no_queues s os bs : inv s -> queues_ok s os bs -> (forall i e, nth_error s.(arp_table) i = Some e -> frozen e = true) ->
  owns s.(pm).(mm) bs.
Proof.
  intros [Ht _] [Hh Ho] Hf. replace bs with (table_blks 0 (arp_table s) os ++ bs); [exact Ho|].
  enough (H : forall t k, (forall i e, nth_error t i = Some e -> queue_blks e.(q) (os (k + i)%nat) = []) -> table_blks k t os = []).
  { rewrite H; [reflexivity|]. intros i e Hi. cbn [Nat.add]. specialize (Hh i e Hi). destruct (os i) as [bytes|] eqn:Eo; [|reflexivity]. exfalso.
    assert (Hq : q e = 0) by (apply (entry_ok_at _ _ _ _ Ht Hi); intros E; specialize (Hf i e Hi); unfold frozen in Hf; rewrite E, andb_false_r in Hf; discriminate).
    pose proof (owns_sane _ _ Ho) as Hsane. rewrite Forall_forall in Hsane.
    assert (Hin : In (waiting_blk (q e) bytes) (table_blks 0 (arp_table s) os ++ bs)).
    { apply in_app_iff. left. apply (table_blks_in _ _ 0 i e Hi). cbn [Nat.add]. rewrite Eo. now left. }
    destruct (Hsane _ Hin) as [Hpos _]. cbn [waiting_blk b_addr] in Hpos. lia. }
  clear. induction t as [|x t IH]; intros k H; cbn [table_blks]; [reflexivity|].
  rewrite (IH (S k)), app_nil_r; [specialize (H 0%nat x eq_refl); now rewrite Nat.add_0_r in H|].
  intros i e Hi. specialize (H (S i) e Hi). now replace (S k + i)%nat with (k + S i)%nat by lia.
Qed.

(** C22: The ARP timer always comes to an end, and every call brings each entry
    that is in use and not static one call closer to its end: a pending entry is
    empty after at most 5 calls and a stable one after at most 300.  After 300
    calls no packet waits any more and its memory is given back. *)
Theorem etharp_tmr_expires s bs n : ready s bs ->
  exists s', calls n s = Ok (tt, s') /\ ready s' bs /\
    (forall i e, nth_error s.(arp_table) i = Some e -> exists e', nth_error s'.(arp_table) i = Some e' /\
       ticks_left e' = Z.max 0 (ticks_left e - Z.of_nat n) /\ (ticks_left e <= Z.of_nat n -> frozen e' = true)) /\
    ((300 <= n)%nat -> owns s'.(pm).(mm) bs).
Proof.
  intros Hs. assert (H : exists s', calls n s = Ok (tt, s') /\ ready s' bs /\ forall i e, nth_error s.(arp_table) i = Some e ->
      exists e', nth_error s'.(arp_table) i = Some e' /\ ticks_left e' = Z.max 0 (ticks_left e - Z.of_nat n)).
  { revert s Hs. induction n as [|n IH]; intros s Hs; cbn [calls].
    - exists s. split; [reflexivity|]. split; [exact Hs|]. intros i e Hi. exists e. split; [exact Hi|].
      destruct (ticks_left_range e (entry_ok_at _ _ _ _ (proj1 (rd_inv _ _ Hs)) Hi)). lia.
    - destruct (tmr_ready s bs Hs) as (s1 & E1 & H1 & A1). rewrite (bind_ok _ _ _ _ _ E1). destruct (IH s1 H1) as (s2 & E2 & H2 & A2).
      exists s2. split; [exact E2|]. split; [exact H2|]. intros i e Hi. destruct (A1 i e Hi) as (e1 & Hi1 & L1 & _). destruct (A2 i e1 Hi1) as (e2 & Hi2 & L2).
      exists e2. split; [exact Hi2|]. lia. }
  destruct H as (s' & E & H & A). exists s'. split; [exact E|]. split; [exact H|].
  assert (Hfz : forall i e e', nth_error s.(arp_table) i = Some e -> nth_error s'.(arp_table) i = Some e' -> ticks_left e <= Z.of_nat n -> frozen e' = true).
  { intros i e e' Hi Hi' Hle. destruct (A i e Hi) as (x & Hx & Lx). replace x with e' in Lx by congruence.
    apply (ticks_left_range e' (entry_ok_at _ _ _ _ (proj1 (rd_inv _ _ H)) Hi')). lia. }
  split.
  - intros i e Hi. destruct (A i e Hi) as (e' & Hi' & L). exists e'. split; [exact Hi'|]. split; [exact L|]. eauto.
  - intros Hn. destruct (rd_queues _ _ H) as [os Hq]. apply (frozen_no_queues s' os); [apply H|exact Hq|]. intros i e' Hi'.
    destruct (nth_error (arp_table s) i) as [e|] eqn:Hi.
    + apply (Hfz i e e' Hi Hi'). destruct (ticks_left_range e (entry_ok_at _ _ _ _ (proj1 (rd_inv _ _ Hs)) Hi)). unfold ARP_MAXAGE in *. lia.
    + apply nth_error_None in Hi. rewrite (to_length _ _ (proj1 (rd_inv _ _ Hs))) in Hi.
      pose proof (nth_error_table _ _ _ _ (proj1 (rd_inv _ _ H)) Hi'). lia.
Qed.
End Timer.
