(* ===== verification/EtharpBoard.v ===== *)
(** * ARP on the board

    A link that takes every frame, interfaces and memory of a board that was just
    initialised: the hypotheses of the theorems about ARP hold there, and a short
    frame shows what [etharp_input] reads. *)

From Stdlib Require Import ZArith List Lia Bool Permutation.
From S2P Require Import Prelude Def Ip4Addr Mem PbufMem Pbuf PbufBoard PbufCopy Etharp EtharpInv EtharpProto EtharpTmr.
Import ListNotations.
Open Scope Z_scope.
Open Scope c_scope.

(** ** A link *)

Section Link.
Context {PMem : PbufMemory}.

(** The bytes of the packet, pbuf by pbuf. *)
Fixpoint gather (fuel : nat) (p : Z) (m : pst) : option (list Z) :=
  if p =? 0 then Some [] else
  match fuel with
  | O => None
  | S fuel =>
      let b := m.(structs) p in
      match gather fuel b.(next) m with
      | Some rest => Some (load_list m.(data) b.(payload) b.(len) ++ rest)
      | None => None
      end
  end.

(** A [linkoutput] that sends at once. *)
Definition wire_link (n p : Z) : AM err_t := fun s =>
  match gather loop_fuel p s.(pm) with
  | Some bytes => Ok (ERR_OK, s <| wire := s.(wire) ++ [(n, bytes)] |>)
  | None => Hang
  end.

Lemma gather_chain m l : forall fuel p, chain m.(structs) p l -> (length l <= fuel)%nat -> gather fuel p m = Some (content m.(structs) m.(data) l).
Proof.
  induction l as [|a l IH]; intros fuel p Hc Hf; destruct fuel as [|fuel]; cbn [gather chain length] in *; try lia; try (now rewrite Hc).
  destruct (chain_nonnull _ _ _ _ Hc) as [-> ->]. destruct Hc as (_ & _ & Hc). rewrite (IH fuel) by (assumption || lia). reflexivity.
Qed.

Lemma wire_link_sends n p l (s : ast) : chain s.(pm).(structs) p l -> (length l <= loop_fuel)%nat ->
  wire_link n p s = Ok (ERR_OK, s <| wire := s.(wire) ++ [(n, content s.(pm).(structs) s.(pm).(data) l)] |>).
Proof. intros Hc Hf. unfold wire_link. now rewrite (gather_chain _ l). Qed.

Lemma wire_link_keeps n p : keeps (wire_link n p).
Proof. intros s r s'. unfold wire_link. destruct (gather _ _ _); intros [= _ <-]. now split. Qed.
End Link.

(** ** The board *)

(** Address 10.0.0.1/24, gateway 10.0.0.254 (little-endian words). *)
Definition nif1 : eth_netif := mkEthNetif (mk_netif4 (NETIF_FLAG_BROADCAST .| NETIF_FLAG_ETHARP) 0x0100000a 0x00ffffff) 0xfe00000a [2; 0; 0; 0; 0; 1] 6.
Definition ip_2 : Z := 0x0200000a.

Definition ast_of (m : @pst mem0) : @ast mem0 :=
  @mkAst mem0 m (repeat entry0 ARP_TABLE_SIZE) 0 (fun _ => nif1) (mkArpStats 0 0 0 0 0 0 0 0) 0 [].

Abbreviation no_custom := (fun _ => ret tt).
Abbreviation any_mbox := (fun _ => true).

(** What a driver does with a frame from the link: a pbuf of the pool, the bytes
    copied into it, [ethernet_input]. *)
Definition receive (frame : list Z) : @AM mem0 err_t :=
  do p <- alloc false no_custom any_mbox PBUF_RAW (Z.of_nat (length frame)) PBUF_POOL;
  do b <- pbuf_at p;
  store b.(payload) frame ;;
  ethernet_input false no_custom false false wire_link (fun p _ => free false no_custom p) p 1.

(** The states of the entries afterwards. *)
Definition states_after (frame : list Z) (m : @pst mem0) : option (list etharp_state) :=
  match receive frame (ast_of m) with
  | Ok (_, s) => Some (map st s.(arp_table))
  | _ => None
  end.

(** What an earlier packet can leave in a buffer of the pool: an ARP reply. *)
Definition stale : list Z := eth_header [2; 0; 0; 0; 0; 1] [2; 0; 0; 0; 0; 2] ETHTYPE_ARP ++
  arp_bytes ARP_REPLY [2; 0; 0; 0; 0; 2] ip_2 [2; 0; 0; 0; 0; 1] 0x0100000a.

(** Memory of the board after two blocks of the heap and one of the pool of pbuf
    structs were handed out. *)
Definition take {A} (m : M board (option A)) (b : board) : board := match m b with Ok (_, b') => b' | _ => b end.
Definition mm1 : board := take (board_heap_malloc la0 100) board0.
Definition mm2 : board := take (board_heap_malloc la0 100) mm1.
Definition mm3 : board := take (board_pool_malloc MEMP_PBUF) mm2.

Abbreviation blk1 := (mkBlk Heap 20006 100).
Abbreviation blk2 := (mkBlk Heap 20112 100).
Abbreviation blk3 := (mkBlk (Pool MEMP_PBUF) 1240 16).

Lemma take_ok {A} (m : M board (option A)) b r b' : m b = Ok (r, b') -> take m b = b'.
Proof. unfold take. now intros ->. Qed.

Lemma heap_take b bs n p : board_owns la0 b bs -> 0 <= n < 65536 ->
  match board_heap_malloc la0 n b with Ok (Some q, _) => q =? p | _ => false end = true ->
  board_owns la0 (take (board_heap_malloc la0 n) b) (mkBlk Heap p n :: bs).
Proof.
  intros Ho Hn Hc. destruct (board_heap_malloc_law la0 b bs n Ho Hn) as (r & b' & E & H). rewrite (take_ok _ _ _ _ E).
  rewrite E in Hc. destruct r as [q|]; [|discriminate]. apply Z.eqb_eq in Hc. now subst q.
Qed.

Lemma mm2_owns : board_owns la0 mm2 [blk2; blk1].
Proof. apply heap_take; [apply heap_take; [exact board0_owns|lia|vm_compute; reflexivity]|lia|vm_compute; reflexivity]. Qed.

Lemma mm3_owns : board_owns la0 mm3 [blk3; blk2; blk1].
Proof.
  destruct (board_pool_malloc_law la0 la0_ok mm2 _ MEMP_PBUF mm2_owns) as (r & b' & E & H). unfold mm3. rewrite (take_ok _ _ _ _ E).
  assert (Hc : match board_pool_malloc MEMP_PBUF mm2 with Ok (Some q, _) => q =? 1240 | _ => false end = true) by (vm_compute; reflexivity).
  rewrite E in Hc. destruct r as [q|]; [|discriminate]. apply Z.eqb_eq in Hc. now subst q.
Qed.

(** A packet of 70 bytes in the first block, an ARP packet in the second, and a
    pbuf of read-only data, kept in the second, in front of the first. *)
Definition packets (a : Z) : pbuf :=
  if a =? 1240 then mkPbuf 20006 20150 90 20 PBUF_ROM 0 1
  else if a =? 20006 then mkPbuf 0 20036 70 70 PBUF_RAM 0 1
  else mkPbuf 0 20142 28 28 PBUF_RAM 0 1.
Definition arp_data (op : Z) : Z -> Z :=
  store_list 20142 (arp_bytes op [2; 0; 0; 0; 0; 2] ip_2 [2; 0; 0; 0; 0; 1] 0x0100000a) (fun a => a mod 256).
Definition board_state (op : Z) (b : board) (t : list etharp_entry) : @ast mem0 :=
  (ast_of (@mkPst mem0 packets (arp_data op) b false 0)) <| arp_table := t |>.
Definition some_bytes : list Z := load_list (arp_data ARP_REQUEST) 20036 70.

(** The table with one pending entry. *)
Definition pending_table : list etharp_entry :=
  mkEntry 20006 ip_2 1 ethzero 3 ETHARP_STATE_PENDING :: repeat entry0 9.

Lemma pending_table_ok : table_ok false pending_table.
Proof.
  split; [reflexivity| |].
  - constructor; [split; cbn; intros; unfold ARP_MAXAGE, ARP_MAXPENDING; congruence || lia || reflexivity|]. apply Forall_forall. intros e He. apply repeat_spec in He. subst e. split; cbn; congruence || lia.
  - intros i e Hi Hne j e' Hj Hi' Hne' _. unfold pending_table in *.
    destruct i as [|i], j as [|j]; cbn [nth_error] in Hi, Hi'; [now contradiction Hj| | |];
      match goal with H : nth_error (repeat _ _) _ = Some ?x |- _ => apply nth_error_In, repeat_spec in H; subst x end; (now contradiction Hne) || (now contradiction Hne').
Qed.

Lemma nif1_iface op b t : eth_iface (board_state op b t) 1.
Proof. split; [discriminate|now split]. Qed.
Lemma ip_2_unicast op b t : unicast (board_state op b t) 1 ip_2.
Proof. split; [reflexivity|now split]. Qed.

(** The packet of one pbuf and that of two. *)
Lemma short_chain {A} (l : list A) : (length l <= 2)%nat -> (length l <= loop_fuel)%nat.
Proof. unfold loop_fuel. intros H. lia. Qed.

Lemma packet_stored : stored (board_state ARP_REPLY mm2 []).(pm) [blk2; blk1] 20006 [20006].
Proof.
  split.
  - now repeat split.
  - discriminate.
  - vm_compute. repeat split; congruence.
  - now constructor.
  - reflexivity.
  - apply short_chain. cbn. lia.
  - constructor; [cbn; tauto|constructor].
  - intros a x [<-|[]] Hx. change (20036 <= x < 20036 + 70) in Hx. exists blk1. split; [right; now left|]. cbn. lia.
Qed.
Lemma rom_stored : stored (board_state ARP_REPLY mm3 []).(pm) [blk3; blk2; blk1] 1240 [1240; 20006].
Proof.
  split.
  - now repeat split.
  - discriminate.
  - vm_compute. repeat split; congruence.
  - repeat constructor.
  - reflexivity.
  - apply short_chain. cbn. lia.
  - constructor; [cbn; tauto|]. constructor; [cbn; tauto|constructor].
  - intros a x [<-|[<-|[]]] Hx.
    + change (20150 <= x < 20150 + 20) in Hx. exists blk2. split; [cbn; tauto|]. cbn. lia.
    + change (20036 <= x < 20036 + 70) in Hx. exists blk1. split; [cbn; tauto|]. cbn. lia.
Qed.

Lemma reply_packet op t : op = ARP_REQUEST \/ op = ARP_REPLY ->
  arp_packet (board_state op mm2 t).(pm) 20112 100 op [2; 0; 0; 0; 0; 2] ip_2 [2; 0; 0; 0; 0; 1] 0x0100000a.
Proof.
  intros [-> | ->]; split; cbn; try change (packets 20112) with (mkPbuf 0 20142 28 28 PBUF_RAM 0 1); cbn; try reflexivity; try (now left); try (unfold is_u16, is_u32, SIZEOF_STRUCT_PBUF, ip_2, ARP_REQUEST, ARP_REPLY; lia).
Qed.

Lemma packet_waits op t : waiting (board_state op mm2 t).(pm) 20006 some_bytes.
Proof.
  split; [reflexivity| |vm_compute; reflexivity]. change (Z.of_nat (length some_bytes)) with 70. unfold some_bytes.
  apply load_ext. intros x Hx. change (arp_data op x = arp_data ARP_REQUEST x). unfold arp_data.
  rewrite !store_other by (cbn; lia). reflexivity.
Qed.

Lemma fresh_table ip n : none_of (hit false ip n) (repeat entry0 ARP_TABLE_SIZE) /\ first_of empty_entry (repeat entry0 ARP_TABLE_SIZE) 0.
Proof.
  split; [intros e He; apply repeat_spec in He; now subst e|]. exists entry0. split; [reflexivity|]. split; [reflexivity|]. intros e [].
Qed.

(** ** The theorems on the board *)

(** A frame of 15 bytes whose pool buffer held an ARP reply before. *)
Definition pool_state (d : Z -> Z) : @pst mem0 := @mkPst mem0 (structs pst0) d board0 false 0.

(** A frame of 15 bytes, the Ethernet header of an ARP packet and one byte, enters
    a host into the table or does not, depending on what an earlier packet left in
    the buffer. *)
Example stale_bytes_learned : let frame := firstn 15 stale in
  option_map (fun l => nth 0 l ETHARP_STATE_STATIC) (states_after frame (pool_state (store_list 11106 stale (fun _ => 0)))) = Some ETHARP_STATE_STABLE /\
  states_after frame (pool_state (fun _ => 0)) = Some (repeat ETHARP_STATE_EMPTY ARP_TABLE_SIZE).
Proof. split; vm_compute; reflexivity. Qed.

Lemma etharp_find_entry_selects_witness : table_ok false pending_table /\
  exists d, selects true false pending_table ip_2 ETHARP_FLAG_TRY_HARD 1 d /\
    @etharp_find_entry mem0 false no_custom true false ip_2 ETHARP_FLAG_TRY_HARD 1 (board_state ARP_REPLY mm2 pending_table) =
    perform false no_custom false ip_2 1 d (board_state ARP_REPLY mm2 pending_table).
Proof.
  split; [exact pending_table_ok|].
  exact (@etharp_find_entry_selects mem0 false no_custom true false (board_state ARP_REPLY mm2 pending_table) ip_2 ETHARP_FLAG_TRY_HARD 1 pending_table_ok).
Defined.

Lemma arp_table_invariant_witness : exists s',
  @etharp_tmr mem0 false no_custom any_mbox true wire_link (board_state ARP_REPLY mm2 (repeat entry0 ARP_TABLE_SIZE)) = Ok (tt, s') /\
  table_ok false s'.(arp_table).
Proof.
  eexists. split; [reflexivity|]. refine (proj1 (@arp_table_invariant mem0 false no_custom any_mbox true false wire_link (fun _ _ => ret tt) (fun _ => ret 1)
    wire_link_keeps _ _ (board_state ARP_REPLY mm2 (repeat entry0 ARP_TABLE_SIZE)) _ _ _ _)); [| |reflexivity|reflexivity|].
  - intros ip s r s' [= _ <-]. now split.
  - intros p n s r s' [= _ <-]. apply steps_refl.
  - eapply net_arp; [apply net_refl|]. apply step_tmr. reflexivity.
Defined.

Abbreviation fresh_state b := (board_state ARP_REPLY b (repeat entry0 ARP_TABLE_SIZE)).

Lemma arp_resolution_witness : exists s1 c,
  @etharp_query mem0 false no_custom any_mbox true false wire_link 1 ip_2 20006 (fresh_state mm2) = Ok (ERR_OK, s1) /\
  s1.(wire) = [(1, request_frame (fresh_state mm2) 1 ip_2)] /\
  board_owns la0 s1.(pm).(mm) [waiting_blk c (load_list (arp_data ARP_REPLY) 20036 70); blk2; blk1].
Proof.
  destruct (@arp_resolution mem0 false no_custom any_mbox true false wire_link wire_link_sends (fresh_state mm2) [blk2; blk1] 1 ip_2 20006 [20006] 0)
    as (r & s1 & E & _ & W & H).
  - exact (table0_ok false).
  - apply nif1_iface.
  - apply ip_2_unicast.
  - exact mm2_owns.
  - exact packet_stored.
  - discriminate.
  - apply fresh_table.
  - apply (fresh_table ip_2 1).
  - assert (Hr : match @etharp_query mem0 false no_custom any_mbox true false wire_link 1 ip_2 20006 (fresh_state mm2)
      with Ok (ERR_OK, _) => true | _ => false end = true) by (vm_compute; reflexivity).
    rewrite E in Hr. destruct r; try discriminate Hr. destruct (H eq_refl) as (c & Ho & _). exists s1, c. split; [exact E|].
    split; [refine (eq_trans W _); vm_compute; reflexivity|]. rewrite content_single in Ho. exact Ho.
Defined.

(** The packet of the reply, cut to one byte. *)
Definition short_state : @ast mem0 :=
  (ast_of (@mkPst mem0 (fun a => (packets a) <| len := 1 |> <| tot_len := 1 |>) (arp_data ARP_REPLY) mm2 false 0)).
Lemma short_packet : arp_packet short_state.(pm) 20112 100 ARP_REPLY [2; 0; 0; 0; 0; 2] ip_2 [2; 0; 0; 0; 0; 1] 0x0100000a.
Proof. split; cbn; try change (packets 20112) with (mkPbuf 0 20142 28 28 PBUF_RAM 0 1); cbn; try reflexivity; try discriminate; try (now left); try (unfold is_u16, is_u32, SIZEOF_STRUCT_PBUF, ip_2, ARP_REPLY; lia). Qed.

Lemma etharp_input_reads_stale_bytes_witness : exists s', @etharp_input mem0 false no_custom true false wire_link 20112 1 short_state = Ok (tt, s') /\ 20142 + 1 <= 20150 /\
  s'.(arp_table) = alter_at 0 (fun _ => mkEntry 0 (le32 (arp_data ARP_REPLY (20150 + 6)) (arp_data ARP_REPLY (20150 + 7)) (arp_data ARP_REPLY (20150 + 8)) (arp_data ARP_REPLY (20150 + 9))) 1
    (load_list (arp_data ARP_REPLY) 20150 6) 0 ETHARP_STATE_STABLE) (repeat entry0 ARP_TABLE_SIZE).
Proof.
  apply (@etharp_input_reads_stale_bytes mem0 false no_custom any_mbox true false wire_link wire_link_sends short_state [blk1] 1 20112 100 [2; 0; 0; 0; 0; 2] ip_2 [2; 0; 0; 0; 0; 1] 0x0100000a 0 entry0).
  - exact (table0_ok false).
  - apply (nif1_iface ARP_REPLY mm2 []).
  - apply (ip_2_unicast ARP_REPLY mm2 []).
  - exact short_packet.
  - cbn. lia.
  - exact mm2_owns.
  - right. split; [apply fresh_table|]. split; [apply (fresh_table ip_2 1)|reflexivity].
  - reflexivity.
  - discriminate.
  - reflexivity.
Defined.

Lemma etharp_input_learns_witness : exists s',
  @etharp_input mem0 false no_custom true false wire_link 20112 1 (board_state ARP_REQUEST mm2 pending_table) = Ok (tt, s') /\
  board_owns la0 s'.(pm).(mm) [].
Proof.
  destruct (@etharp_input_learns mem0 false no_custom any_mbox true false wire_link wire_link_sends (board_state ARP_REQUEST mm2 pending_table) []
    1 20112 100 ARP_REQUEST [2; 0; 0; 0; 0; 2] ip_2 [2; 0; 0; 0; 0; 1] 0x0100000a 0 (mkEntry 20006 ip_2 1 ethzero 3 ETHARP_STATE_PENDING) (Some some_bytes))
    as (s' & E & _ & Ho & _).
  - exact pending_table_ok.
  - apply nif1_iface.
  - apply ip_2_unicast.
  - now left.
  - apply reply_packet. now left.
  - left. eexists. split; [reflexivity|]. split; [reflexivity|]. intros e [].
  - reflexivity.
  - discriminate.
  - apply packet_waits.
  - exact (@owns_perm mem0 mm2 _ _ (perm_swap _ _ _) mm2_owns).
  - exists s'. split; [exact E|exact Ho].
Defined.

Lemma etharp_query_loses_rom_witness :
  match @etharp_query mem0 true no_custom any_mbox true false wire_link 1 ip_2 1240 (fresh_state mm3) with
  | Ok (r, s') => r = ERR_MEM /\ board_owns la0 s'.(pm).(mm) [blk3; blk2; blk1]
  | Halt => true = false
  | Hang => False
  end.
Proof.
  apply (@etharp_query_loses_rom mem0 true no_custom any_mbox true false wire_link wire_link_sends (fresh_state mm3) [blk3; blk2; blk1] 1 ip_2 1240 20006 [] 0).
  - exact (table0_ok false).
  - apply nif1_iface.
  - apply ip_2_unicast.
  - exact mm3_owns.
  - exact rom_stored.
  - reflexivity.
  - discriminate.
  - apply fresh_table.
  - apply (fresh_table ip_2 1).
Defined.

Lemma pending_ready : ready false (board_state ARP_REPLY mm2 pending_table) [blk2].
Proof.
  split.
  - split; [exact pending_table_ok|]. vm_compute. split; congruence.
  - exists (fun i => match i with O => Some some_bytes | _ => None end). split.
    + intros [|i] e Hi; [injection Hi as <-; apply packet_waits|]. cbn [nth_error pending_table] in Hi.
      apply nth_error_In, repeat_spec in Hi. now subst e.
    + exact (@owns_perm mem0 mm2 _ _ (perm_swap _ _ _) mm2_owns).
  - intros [|i] e Hi He; [injection Hi as <-; apply nif1_iface|].
    cbn [nth_error board_state arp_table with_field pending_table] in Hi. apply nth_error_In, repeat_spec in Hi. now subst e.
Qed.

Lemma etharp_tmr_expires_witness : exists s',
  @calls mem0 false no_custom any_mbox true wire_link 300 (board_state ARP_REPLY mm2 pending_table) = Ok (tt, s') /\
  board_owns la0 s'.(pm).(mm) [blk2].
Proof.
  destruct (@etharp_tmr_expires mem0 false no_custom any_mbox true false wire_link wire_link_sends wire_link_keeps
    (board_state ARP_REPLY mm2 pending_table) [blk2] 300 pending_ready) as (s' & E & _ & _ & Ho).
  exists s'. split; [exact E|apply Ho, le_n].
Defined.
