(* ===== verification/UdpPcb.v ===== *)
(** * UDP control blocks (lwip/src/core/udp.c)

    The list [udp_pcbs] is the list of the addresses of its elements, in order;
    the structs are a function from addresses; MEMP_UDP_PCB is the list of its
    free elements.  Configuration of opt.h: IPv4 only, SO_REUSE, LWIP_UDPLITE,
    IP_SOF_BROADCAST and LWIP_MULTICAST_TX_OPTIONS are 0.  Sending and receiving
    are in the file Udp. *)

From Stdlib Require Import ZArith List Lia Bool Permutation.
From S2P Require Import Prelude Ip4Addr Mem PbufMem Pbuf.
Import ListNotations.
Open Scope Z_scope.
Open Scope c_scope.

Definition UDP_LOCAL_PORT_RANGE_START := 0xc000.
Definition UDP_LOCAL_PORT_RANGE_END := 0xffff.
Definition UDP_FLAGS_NOCHKSUM := 0x01.
Definition UDP_FLAGS_CONNECTED := 0x04.
Definition UDP_TTL := 255.
Definition MEMP_NUM_UDP_PCB : nat := 4.

(** [struct udp_pcb]; [recv] is 0 when there is no callback. *)
Record udp_pcb := mkUdpPcb {
  local_ip : Z; remote_ip : Z; so_options : Z; tos : Z; ttl : Z; uflags : Z; local_port : Z; remote_port : Z; recv : Z; recv_arg : Z }.
#[export] Instance udp_pcb_eta : Eta udp_pcb := { eta := fun r =>
  mkUdpPcb r.(local_ip) r.(remote_ip) r.(so_options) r.(tos) r.(ttl) r.(uflags) r.(local_port) r.(remote_port) r.(recv) r.(recv_arg) }.

(** The statics of udp.c and the pool. *)
Record ust := mkUst { udp_pcbs : list Z; pcbs : Z -> udp_pcb; udp_port : Z; pcb_avail : list Z }.
#[export] Instance ust_eta : Eta ust := { eta := fun r => mkUst r.(udp_pcbs) r.(pcbs) r.(udp_port) r.(pcb_avail) }.

Definition UM := M ust.

Definition pcb_at (p : Z) : UM udp_pcb := gets (fun s => s.(pcbs) p).
Definition set_pcb (p : Z) (f : udp_pcb -> udp_pcb) : UM unit :=
  modify (fun s => s <| pcbs := fun a => if a =? p then f (s.(pcbs) p) else s.(pcbs) a |>).
Definition set_pcbs (f : list Z -> list Z) : UM unit := modify (fun s => s <| udp_pcbs := f s.(udp_pcbs) |>).

(** ** Ports *)

(** [n] ports were found in use so far. *)
Fixpoint new_port (fuel : nat) (n : Z) : UM Z :=
  match fuel with
  | O => hang
  | S fuel =>
      modify (fun s => s <| udp_port :=
        if s.(udp_port) =? UDP_LOCAL_PORT_RANGE_END then UDP_LOCAL_PORT_RANGE_START else u16 (s.(udp_port) + 1) |>) ;;
      do s <- gets (fun s => s);
      if existsb (fun p => (s.(pcbs) p).(local_port) =? s.(udp_port)) s.(udp_pcbs) then
        let n := u16 (n + 1) in
        if n >? UDP_LOCAL_PORT_RANGE_END - UDP_LOCAL_PORT_RANGE_START then ret 0 else new_port fuel n
      else ret s.(udp_port)
  end.

(** More rounds than there are ports. *)
Definition udp_new_port : UM Z := new_port (S (Z.to_nat 16384)) 0.

(** ** Operations *)

(** [ipaddr] is None for NULL. *)
Definition udp_bind (pcb : Z) (ipaddr : option Z) (port : Z) : UM err_t :=
  let ipaddr := match ipaddr with Some a => a | None => IPADDR_ANY end in
  if pcb =? 0 then ret ERR_VAL else
  do l <- gets udp_pcbs;
  let rebind := existsb (fun ipcb => pcb =? ipcb) l in
  do r <-
    (if port =? 0 then
       do port <- udp_new_port;
       ret (if port =? 0 then None else Some port)
     else
       do f <- gets pcbs;
       ret (if existsb (fun ipcb => negb (pcb =? ipcb) && (((f ipcb).(local_port) =? port) && ((f ipcb).(local_ip) =? ipaddr))) l
            then None else Some port));
  match r with
  | None => ret ERR_USE
  | Some port =>
      set_pcb pcb (fun b => b <| local_ip := ipaddr |>) ;;
      set_pcb pcb (fun b => b <| local_port := port |>) ;;
      (when negb rebind then set_pcbs (cons pcb)) ;;
      ret ERR_OK
  end.

Definition udp_connect (pcb : Z) (ipaddr : option Z) (port : Z) : UM err_t :=
  match ipaddr with
  | None => ret ERR_VAL
  | Some ipaddr =>
      if pcb =? 0 then ret ERR_VAL else
      do b <- pcb_at pcb;
      do err <- (if b.(local_port) =? 0 then udp_bind pcb (Some b.(local_ip)) b.(local_port) else ret ERR_OK);
      match err with
      | ERR_OK =>
          set_pcb pcb (fun b => b <| remote_ip := ipaddr |>) ;;
          set_pcb pcb (fun b => b <| remote_port := port |>) ;;
          set_pcb pcb (fun b => b <| uflags := b.(uflags) .| UDP_FLAGS_CONNECTED |>) ;;
          do l <- gets udp_pcbs;
          if existsb (fun ipcb => pcb =? ipcb) l then ret ERR_OK
          else set_pcbs (cons pcb) ;; ret ERR_OK
      | _ => ret err
      end
  end.

Definition udp_disconnect (pcb : Z) : UM unit :=
  set_pcb pcb (fun b => b <| remote_ip := IPADDR_ANY |>) ;;
  set_pcb pcb (fun b => b <| remote_port := 0 |>) ;;
  set_pcb pcb (fun b => b <| uflags := b.(uflags) .& u8 (Z.lnot UDP_FLAGS_CONNECTED) |>).

Definition udp_recv (pcb fn arg : Z) : UM unit :=
  set_pcb pcb (fun b => b <| recv := fn |>) ;;
  set_pcb pcb (fun b => b <| recv_arg := arg |>).

(** Take the element out of the list. *)
Fixpoint unlink (pcb : Z) (l : list Z) : list Z :=
  match l with
  | [] => []
  | a :: t => if a =? pcb then t else a :: unlink pcb t
  end.

Definition udp_remove (pcb : Z) : UM unit :=
  set_pcbs (unlink pcb) ;;
  modify (fun s => s <| pcb_avail := pcb :: s.(pcb_avail) |>).

(** 0 if there is no free element. *)
Definition udp_new : UM Z := fun s =>
  match s.(pcb_avail) with
  | [] => Ok (0, s)
  | pcb :: avail =>
      (set_pcb pcb (fun _ => mkUdpPcb 0 0 0 0 0 0 0 0 0 0) ;;
       set_pcb pcb (fun b => b <| ttl := UDP_TTL |>) ;;
       ret pcb) (s <| pcb_avail := avail |>)
  end.

Definition udp_new_ip_type (type : Z) : UM Z := udp_new.

(** The loop of [udp_netif_ip_addr_changed]. *)
Fixpoint move_addrs (l : list Z) (old_addr new_addr : Z) : UM unit :=
  match l with
  | [] => ret tt
  | upcb :: l =>
      do b <- pcb_at upcb;
      (when b.(local_ip) =? old_addr then set_pcb upcb (fun b => b <| local_ip := new_addr |>)) ;;
      move_addrs l old_addr new_addr
  end.

Definition udp_netif_ip_addr_changed (old_addr new_addr : Z) : UM unit :=
  if negb (ip4_addr_isany_val old_addr) && negb (ip4_addr_isany_val new_addr) then
    do l <- gets udp_pcbs; move_addrs l old_addr new_addr
  else ret tt.

(** ** Choosing a port *)

Definition in_range (q : Z) : Prop := UDP_LOCAL_PORT_RANGE_START <= q <= UDP_LOCAL_PORT_RANGE_END.
Definition port_used (s : ust) (q : Z) : Prop := exists p, In p s.(udp_pcbs) /\ (s.(pcbs) p).(local_port) = q.

(** The [i]th port after the [b]th of the range. *)
Definition port_after (b i : Z) : Z := UDP_LOCAL_PORT_RANGE_START + (b + i) mod 16384.

Ltac port_numbers := unfold in_range, port_after, UDP_LOCAL_PORT_RANGE_START, UDP_LOCAL_PORT_RANGE_END in *.

Lemma port_after_range b i : in_range (port_after b i).
Proof. port_numbers. pose proof (Z.mod_pos_bound (b + i) 16384). lia. Qed.

Lemma port_after_next b i : (if port_after b i =? UDP_LOCAL_PORT_RANGE_END then UDP_LOCAL_PORT_RANGE_START else u16 (port_after b i + 1)) = port_after b (i + 1).
Proof.
  pose proof (port_after_range b i). port_numbers. rewrite Z.add_assoc. pose proof (Z.div_mod (b + i) 16384 ltac:(lia)).
  destruct (Z.eqb_spec (49152 + (b + i) mod 16384) 65535).
  - rewrite <- (Z.mod_unique_pos (b + i + 1) 16384 ((b + i) / 16384 + 1) 0); lia.
  - rewrite u16_id by word_lia. rewrite <- (Z.mod_unique_pos (b + i + 1) 16384 ((b + i) / 16384) ((b + i) mod 16384 + 1)); lia.
Qed.

(** Every port of the range comes within one turn. *)
Lemma port_after_all b q : in_range q -> exists i, 1 <= i <= 16384 /\ q = port_after b i.
Proof.
  intros Hq. exists ((q - UDP_LOCAL_PORT_RANGE_START - b - 1) mod 16384 + 1).
  pose proof (Z.mod_pos_bound (q - UDP_LOCAL_PORT_RANGE_START - b - 1) 16384). split; [lia|]. port_numbers.
  set (k := q - 49152 - b - 1) in *. pose proof (Z.div_mod k 16384 ltac:(lia)).
  rewrite <- (Z.mod_unique_pos (b + (k mod 16384 + 1)) 16384 (- (k / 16384)) (q - 49152)); lia.
Qed.

Lemma existsb_used (s : ust) q : existsb (fun p => (s.(pcbs) p).(local_port) =? q) s.(udp_pcbs) = true <-> port_used s q.
Proof.
  rewrite existsb_exists. unfold port_used. split; intros (p & Hp & H); exists p; (split; [assumption|]); now apply Z.eqb_eq.
Qed.

Lemma new_port_spec s b : forall fuel n s0, 0 <= n < 16384 -> (16384 < Z.of_nat fuel + n) ->
  s0 = s <| udp_port := port_after b n |> -> (forall i, 1 <= i <= n -> port_used s (port_after b i)) ->
  exists r q, new_port fuel n s0 = Ok (r, s <| udp_port := q |>) /\ in_range q /\
    ((r = q /\ ~ port_used s q) \/ (r = 0 /\ forall q, in_range q -> port_used s q)).
Proof.
  induction fuel as [|fuel IH]; intros n s0 Hn Hf -> Hu; [lia|]. cbn [new_port]. rewrite bind_modify, bind_gets. cbn [udp_port udp_pcbs pcbs with_field].
  rewrite port_after_next. destruct (existsb _ _) eqn:E.
  - apply (existsb_used s) in E. rewrite u16_id by word_lia.
    assert (Hu' : forall i, 1 <= i <= n + 1 -> port_used s (port_after b i)).
    { intros i Hi. destruct (Z.eq_dec i (n + 1)) as [->|]; [assumption|]. apply Hu. lia. }
    destruct (Z.gtb_spec (n + 1) (UDP_LOCAL_PORT_RANGE_END - UDP_LOCAL_PORT_RANGE_START)) as [Hg|Hg].
    + eexists _, _. split; [reflexivity|]. split; [apply port_after_range|]. right. split; [reflexivity|]. intros q Hq.
      destruct (port_after_all b q Hq) as (i & Hi & ->). apply Hu'. port_numbers. lia.
    + apply IH; try reflexivity; try assumption; port_numbers; lia.
  - eexists _, _. split; [reflexivity|]. split; [apply port_after_range|]. left. split; [reflexivity|].
    rewrite <- (existsb_used s). change (udp_pcbs s) with (udp_pcbs (s <| udp_port := 0 |>)). cbn [udp_pcbs with_field]. congruence.
Qed.

Lemma udp_new_port_spec s : in_range s.(udp_port) -> exists r q, udp_new_port s = Ok (r, s <| udp_port := q |>) /\ in_range q /\
  ((r = q /\ ~ port_used s q) \/ (r = 0 /\ forall q, in_range q -> port_used s q)).
Proof.
  intros Hr. unfold udp_new_port. apply (new_port_spec s (s.(udp_port) - UDP_LOCAL_PORT_RANGE_START) _ 0); try lia.
  destruct s as [l f q a]. cbn [udp_port with_field udp_pcbs pcbs pcb_avail] in *. f_equal. port_numbers. rewrite Z.add_0_r, Z.mod_small by lia. lia.
Qed.

(** [udp_new_port] always ends, with a port of the local range that no
    control block in the list uses, or with 0 exactly when all 16384 ports of
    the range are in use. *)
Theorem udp_new_port_free s : in_range s.(udp_port) -> exists r s', udp_new_port s = Ok (r, s') /\
  s'.(udp_pcbs) = s.(udp_pcbs) /\ s'.(pcbs) = s.(pcbs) /\ in_range s'.(udp_port) /\
  (r = 0 <-> forall q, in_range q -> port_used s q) /\ (r <> 0 -> in_range r /\ ~ port_used s r).
Proof.
  intros Hr. destruct (udp_new_port_spec s Hr) as (r & q & E & Hq & H). exists r, (s <| udp_port := q |>). split; [exact E|].
  do 2 (split; [reflexivity|]). split; [exact Hq|]. destruct H as [[-> Hn]|[-> Ha]].
  - split; [|now split]. split; [intros ->; port_numbers; lia|]. intros Ha. now destruct (Hn (Ha q Hq)).
  - split; [tauto|]. now intros [].
Qed.

(** ** The invariant of the control blocks *)

Section Pool.
(** The elements of MEMP_UDP_PCB. *)
Variable pool : list Z.
Hypothesis pool_nodup : NoDup pool.
Hypothesis pool_nonnull : ~ In 0 pool.

(** A control block the application has. *)
Definition live (s : ust) (p : Z) : Prop := In p pool /\ ~ In p s.(pcb_avail).

Record pcbs_ok (s : ust) : Prop := {
  po_list : NoDup s.(udp_pcbs);
  po_avail : NoDup s.(pcb_avail);
  po_pool : incl s.(pcb_avail) pool;
  po_live : forall p, In p s.(udp_pcbs) -> live s p;
  po_bound : forall p, In p s.(udp_pcbs) -> 0 < (s.(pcbs) p).(local_port) < 65536;
  po_fresh : forall p, live s p -> ~ In p s.(udp_pcbs) -> (s.(pcbs) p).(local_port) = 0;
  po_unique : forall p q, In p s.(udp_pcbs) -> In q s.(udp_pcbs) -> (s.(pcbs) p).(local_port) = (s.(pcbs) q).(local_port) ->
    (s.(pcbs) p).(local_ip) = (s.(pcbs) q).(local_ip) -> p = q;
  po_port : in_range s.(udp_port) }.

Lemma existsb_eqb p l : existsb (fun x => p =? x) l = true <-> In p l.
Proof.
  rewrite existsb_exists. split; [intros (x & Hx & E); apply Z.eqb_eq in E; now subst|].
  intros H. exists p. split; [assumption|apply Z.eqb_refl].
Qed.

Lemma set_pcb_eq p f (s : ust) : set_pcb p f s = Ok (tt, s <| pcbs := fun a => if a =? p then f (s.(pcbs) p) else s.(pcbs) a |>).
Proof. reflexivity. Qed.

(** The addresses and ports of the control blocks are what the invariant is about. *)
Lemma pcbs_ok_ext s f : (forall a, (f a).(local_ip) = (s.(pcbs) a).(local_ip) /\ (f a).(local_port) = (s.(pcbs) a).(local_port)) ->
  pcbs_ok s -> pcbs_ok (s <| pcbs := f |>).
Proof.
  intros Hf [H1 H2 H3 H4 H5 H6 H7 H8]. split; cbn [udp_pcbs pcbs udp_port pcb_avail with_field]; try assumption.
  - intros p Hp. rewrite (proj2 (Hf p)). auto.
  - intros p Hp. rewrite (proj2 (Hf p)). auto.
  - intros p q Hp Hq. rewrite (proj1 (Hf p)), (proj1 (Hf q)), (proj2 (Hf p)), (proj2 (Hf q)). auto.
Qed.

Lemma set_pcb_other s p g : (forall b, (g b).(local_ip) = b.(local_ip) /\ (g b).(local_port) = b.(local_port)) ->
  pcbs_ok s -> pcbs_ok (s <| pcbs := fun a => if a =? p then g (s.(pcbs) p) else s.(pcbs) a |>).
Proof. intros Hg. apply pcbs_ok_ext. intros a. destruct (Z.eqb_spec a p) as [->|]; auto. Qed.

Lemma set_pcb_keeps s p g : pcbs_ok s -> (forall b, (g b).(local_ip) = b.(local_ip) /\ (g b).(local_port) = b.(local_port)) ->
  exists s', set_pcb p g s = Ok (tt, s') /\ pcbs_ok s' /\ s'.(udp_pcbs) = s.(udp_pcbs).
Proof. intros Hs Hg. eexists. split; [apply set_pcb_eq|]. split; [now apply set_pcb_other|reflexivity]. Qed.

(** A control block gets an address and port that no other one in the list has. *)
Lemma bound_ok s p ip port : pcbs_ok s -> live s p -> 0 < port < 65536 ->
  (forall q, In q s.(udp_pcbs) -> q <> p -> (s.(pcbs) q).(local_port) = port -> (s.(pcbs) q).(local_ip) <> ip) ->
  pcbs_ok (s <| pcbs := fun a => if a =? p then (s.(pcbs) p) <| local_ip := ip |> <| local_port := port |> else s.(pcbs) a |>
             <| udp_pcbs := if existsb (fun x => p =? x) s.(udp_pcbs) then s.(udp_pcbs) else p :: s.(udp_pcbs) |>).
Proof.
  intros [H1 H2 H3 H4 H5 H6 H7 H8] Hl Hp Hu. set (l := if existsb _ _ then _ else _).
  assert (Hin : forall q, In q l <-> q = p \/ In q s.(udp_pcbs)).
  { intros q. subst l. destruct (existsb _ _) eqn:E; [apply existsb_eqb in E|]; cbn; intuition congruence. }
  split; cbn [udp_pcbs pcbs udp_port pcb_avail with_field]; try assumption.
  - subst l. destruct (existsb _ _) eqn:E; [assumption|]. constructor; [|assumption]. rewrite <- existsb_eqb. congruence.
  - intros q [->|Hq]%Hin; [assumption|now apply H4].
  - intros q [->|Hq]%Hin; [rewrite Z.eqb_refl; cbn; assumption|]. destruct (Z.eqb_spec q p); [cbn; assumption|auto].
  - intros q Hq Hn. rewrite Hin in Hn. destruct (Z.eqb_spec q p) as [->|]; [tauto|]. apply H6; tauto.
  - intros q q' Hq Hq'. apply Hin in Hq, Hq'. destruct (Z.eqb_spec q p) as [->|Hqp], (Z.eqb_spec q' p) as [->|Hqp']; cbn [local_ip local_port with_field].
    + auto.
    + intros E1 E2. destruct Hq' as [|Hq']; [contradiction|]. now destruct (Hu q' Hq' Hqp' (eq_sym E1)).
    + intros E1 E2. destruct Hq as [|Hq]; [contradiction|]. now destruct (Hu q Hq Hqp E1).
    + destruct Hq, Hq'; try contradiction. auto.
Qed.

(** The result of binding to an address and a port. *)
Definition bound (s : ust) (p ip port : Z) : ust :=
  s <| pcbs := fun a => if a =? p then (s.(pcbs) p) <| local_ip := ip |> <| local_port := port |> else s.(pcbs) a |>
    <| udp_pcbs := if existsb (fun x => p =? x) s.(udp_pcbs) then s.(udp_pcbs) else p :: s.(udp_pcbs) |>.

(** [bound] for functions: two updates of a struct are one. *)
Definition agrees (s s' : ust) : Prop :=
  s'.(udp_pcbs) = s.(udp_pcbs) /\ (forall a, s'.(pcbs) a = s.(pcbs) a) /\ s'.(udp_port) = s.(udp_port) /\ s'.(pcb_avail) = s.(pcb_avail).

Lemma agrees_ok s s' : agrees s s' -> pcbs_ok s -> pcbs_ok s'.
Proof.
  intros (E1 & E2 & E3 & E4) [H1 H2 H3 H4 H5 H6 H7 H8]. unfold live in *.
  split; unfold live; rewrite ?E1, ?E3, ?E4; try assumption; intros p; rewrite ?E2; try (now apply H5); try (now apply H6).
  intros q. rewrite !E2. now apply H7.
Qed.

Lemma bind_finish s p ip port : p <> 0 -> exists s',
  (set_pcb p (fun b => b <| local_ip := ip |>) ;; set_pcb p (fun b => b <| local_port := port |>) ;;
   (when negb (existsb (fun x => p =? x) s.(udp_pcbs)) then set_pcbs (cons p)) ;; ret ERR_OK) s = Ok (ERR_OK, s') /\ agrees (bound s p ip port) s'.
Proof.
  intros Hp. rewrite (bind_ok _ _ _ _ _ (set_pcb_eq _ _ _)), (bind_ok _ _ _ _ _ (set_pcb_eq _ _ _)).
  destruct (existsb _ _) eqn:E; cbn [negb]; eexists; (split; [reflexivity|]); unfold agrees, bound; rewrite E; cbn [udp_pcbs pcbs udp_port pcb_avail with_field];
    (split; [reflexivity|]); (split; [|now split]); intros a; destruct (Z.eqb_spec a p) as [->|]; try reflexivity; now rewrite Z.eqb_refl.
Qed.

Lemma udp_bind_spec s p ipaddr port : pcbs_ok s -> live s p -> 0 <= port < 65536 ->
  let ip := match ipaddr with Some a => a | None => IPADDR_ANY end in
  exists r s', udp_bind p ipaddr port s = Ok (r, s') /\ pcbs_ok s' /\
    (exists q, agrees (s <| udp_port := q |>) s' /\ r = ERR_USE /\
       ((port = 0 /\ forall q, in_range q -> port_used s q) \/
        (port <> 0 /\ exists q, In q s.(udp_pcbs) /\ q <> p /\ (s.(pcbs) q).(local_port) = port /\ (s.(pcbs) q).(local_ip) = ip)) \/
     r = ERR_OK /\ exists port', (port <> 0 -> port' = port) /\ agrees (bound (s <| udp_port := q |>) p ip port') s').
Proof.
  intros Hs Hl Hport ip. assert (Hp : p <> 0) by (intros ->; now destruct Hl). unfold udp_bind. fold ip.
  rewrite (proj2 (Z.eqb_neq _ _) Hp), bind_gets. destruct (Z.eqb_spec port 0) as [->|Hne].
  - destruct (udp_new_port_spec s (po_port _ Hs)) as (r & q & E & Hq & H). rewrite bind_assoc, (bind_ok _ _ _ _ _ E), bind_ret.
    assert (Hs' : pcbs_ok (s <| udp_port := q |>)) by (destruct Hs; now split).
    destruct (Z.eqb_spec r 0) as [->|Hr].
    + destruct H as [[Hr0 Hn]|[_ Ha]]; [port_numbers; lia|]. eexists _, _. split; [reflexivity|]. split; [exact Hs'|].
      exists q. left. split; [|tauto]. now repeat split.
    + destruct H as [[-> Hn]|[-> _]]; [|contradiction].
      destruct (bind_finish (s <| udp_port := q |>) p ip q Hp) as (s' & E' & Ha). exists ERR_OK, s'. split; [exact E'|]. split.
      * apply (agrees_ok _ _ Ha), bound_ok; auto; [port_numbers; lia|]. intros x Hx Hxp Hxq. exfalso. apply Hn. now exists x.
      * exists q. right. split; [reflexivity|]. exists q. split; [now intros []|exact Ha].
  - rewrite bind_assoc, bind_gets, bind_ret. destruct (existsb _ _) eqn:E.
    + eexists _, _. split; [reflexivity|]. split; [exact Hs|]. exists s.(udp_port). left. split; [now repeat split|]. split; [reflexivity|]. right. split; [assumption|].
      apply existsb_exists in E. destruct E as (q & Hq & E). apply andb_prop in E. destruct E as [E1 E2]. apply andb_prop in E2. destruct E2 as [E2 E3].
      apply negb_true_iff, Z.eqb_neq in E1. apply Z.eqb_eq in E2, E3. exists q. auto.
    + destruct (bind_finish s p ip port Hp) as (s' & E' & Ha). exists ERR_OK, s'. split; [exact E'|]. split.
      * apply (agrees_ok _ _ Ha), bound_ok; auto; [lia|]. intros x Hx Hxp Hxq Hxi.
        enough (true = false) by discriminate. rewrite <- E. symmetry. apply existsb_exists. exists x. split; [assumption|].
        rewrite Hxq, Hxi, !Z.eqb_refl, (proj2 (Z.eqb_neq _ _) (not_eq_sym Hxp)). reflexivity.
      * exists s.(udp_port). right. split; [reflexivity|]. exists port. split; [reflexivity|exact Ha].
Qed.

Lemma bound_listed s p ip port : In p (bound s p ip port).(udp_pcbs).
Proof. cbn. destruct (existsb _ _) eqn:E; [now apply existsb_eqb|now left]. Qed.

(** [connect] without its binding. *)
Lemma connect_finish s p ip port : pcbs_ok s -> In p s.(udp_pcbs) -> exists s',
  (set_pcb p (fun b => b <| remote_ip := ip |>) ;; set_pcb p (fun b => b <| remote_port := port |>) ;;
   set_pcb p (fun b => b <| uflags := b.(uflags) .| UDP_FLAGS_CONNECTED |>) ;;
   do l <- gets udp_pcbs; if existsb (fun x => p =? x) l then ret ERR_OK else set_pcbs (cons p) ;; ret ERR_OK) s = Ok (ERR_OK, s') /\ pcbs_ok s'.
Proof.
  intros Hs Hp. destruct (set_pcb_keeps s p (fun b => b <| remote_ip := ip |>) Hs) as (s1 & E1 & H1 & L1); [now split|].
  destruct (set_pcb_keeps s1 p (fun b => b <| remote_port := port |>) H1) as (s2 & E2 & H2 & L2); [now split|].
  destruct (set_pcb_keeps s2 p (fun b => b <| uflags := b.(uflags) .| UDP_FLAGS_CONNECTED |>) H2) as (s3 & E3 & H3 & L3); [now split|].
  rewrite (bind_ok _ _ _ _ _ E1), (bind_ok _ _ _ _ _ E2), (bind_ok _ _ _ _ _ E3), bind_gets, L3, L2, L1.
  rewrite (proj2 (existsb_eqb p s.(udp_pcbs)) Hp). exists s3. now split.
Qed.

Lemma udp_connect_ok s p ipaddr port : pcbs_ok s -> live s p -> exists r s', udp_connect p ipaddr port s = Ok (r, s') /\ pcbs_ok s'.
Proof.
  intros Hs Hl. assert (Hp : p <> 0) by (intros ->; now destruct Hl). unfold udp_connect.
  destruct ipaddr as [ip|]; [|exists ERR_VAL, s; now split]. rewrite (proj2 (Z.eqb_neq _ _) Hp). unfold pcb_at. rewrite bind_gets.
  destruct (Z.eqb_spec (s.(pcbs) p).(local_port) 0) as [E0|Hne].
  - rewrite E0. destruct (udp_bind_spec s p (Some (s.(pcbs) p).(local_ip)) 0 Hs Hl ltac:(lia)) as (r & s1 & E1 & H1 & q & Hr).
    rewrite (bind_ok _ _ _ _ _ E1). destruct Hr as [(_ & -> & _)|(-> & port' & _ & Ha)]; [exists ERR_USE, s1; now split|].
    destruct (connect_finish s1 p ip port H1) as (s2 & E2 & H2); [|exists ERR_OK, s2; now split].
    rewrite (proj1 Ha). apply (bound_listed (s <| udp_port := q |>)).
  - rewrite bind_ret. destruct (connect_finish s p ip port Hs) as (s2 & E2 & H2); [|exists ERR_OK, s2; now split].
    destruct (in_dec Z.eq_dec p s.(udp_pcbs)) as [Hin|Hni]; [assumption|]. now apply (po_fresh _ Hs) in Hni.
Qed.

Lemma disconnect_keeps s p : pcbs_ok s -> forall s', udp_disconnect p s = Ok (tt, s') -> pcbs_ok s' /\ s'.(udp_pcbs) = s.(udp_pcbs).
Proof.
  intros Hs s'. unfold udp_disconnect. destruct (set_pcb_keeps s p (fun b => b <| remote_ip := IPADDR_ANY |>) Hs) as (s1 & E1 & H1 & L1); [now split|].
  destruct (set_pcb_keeps s1 p (fun b => b <| remote_port := 0 |>) H1) as (s2 & E2 & H2 & L2); [now split|].
  destruct (set_pcb_keeps s2 p (fun b => b <| uflags := b.(uflags) .& u8 (Z.lnot UDP_FLAGS_CONNECTED) |>) H2) as (s3 & E3 & H3 & L3); [now split|].
  rewrite (bind_ok _ _ _ _ _ E1), (bind_ok _ _ _ _ _ E2), E3. intros [= <-]. split; [assumption|congruence].
Qed.

Lemma recv_keeps s p fn arg : pcbs_ok s -> forall s', udp_recv p fn arg s = Ok (tt, s') -> pcbs_ok s' /\ s'.(udp_pcbs) = s.(udp_pcbs).
Proof.
  intros Hs s'. unfold udp_recv. destruct (set_pcb_keeps s p (fun b => b <| recv := fn |>) Hs) as (s1 & E1 & H1 & L1); [now split|].
  destruct (set_pcb_keeps s1 p (fun b => b <| recv_arg := arg |>) H1) as (s2 & E2 & H2 & L2); [now split|].
  rewrite (bind_ok _ _ _ _ _ E1), E2. intros [= <-]. split; [assumption|congruence].
Qed.

Lemma In_unlink p q l : NoDup l -> In q (unlink p l) <-> In q l /\ q <> p.
Proof.
  induction 1 as [|a l Ha _ IH]; cbn [unlink In]; [tauto|]. destruct (Z.eqb_spec a p) as [->|Hne]; [|cbn [In]; rewrite IH; intuition congruence].
  split; [intros Hq; split; [now right|congruence]|intuition congruence].
Qed.

Lemma unlink_nodup p l : NoDup l -> NoDup (unlink p l).
Proof.
  induction 1 as [|a l Ha Hl IH]; cbn [unlink]; [constructor|]. destruct (a =? p); [assumption|]. constructor; [|assumption].
  rewrite In_unlink by assumption. tauto.
Qed.

Lemma udp_remove_ok s p : pcbs_ok s -> live s p -> exists s', udp_remove p s = Ok (tt, s') /\ pcbs_ok s'.
Proof.
  intros [H1 H2 H3 H4 H5 H6 H7 H8] [Hp Ha]. eexists. split; [reflexivity|].
  split; unfold live; cbn [udp_pcbs pcbs udp_port pcb_avail with_field]; try assumption.
  - now apply unlink_nodup.
  - now constructor.
  - intros x [<-|Hx]; auto.
  - intros q Hq. apply In_unlink in Hq; [|assumption]. destruct Hq as [Hq Hne]. destruct (H4 q Hq) as [Hl Hna]. split; [assumption|]. intros [E|]; [congruence|contradiction].
  - intros q Hq. apply H5. now apply In_unlink in Hq.
  - intros q [Hq Hna] Hn. rewrite In_unlink in Hn by assumption. apply H6; [split; [assumption|]|]; cbn in Hna; intuition congruence.
  - intros q q' Hq Hq'. apply In_unlink in Hq, Hq'; try assumption. now apply H7.
Qed.

Lemma udp_new_ok s : pcbs_ok s -> exists p s', udp_new s = Ok (p, s') /\ pcbs_ok s' /\ (p <> 0 -> live s' p).
Proof.
  intros [H1 H2 H3 H4 H5 H6 H7 H8]. unfold udp_new. destruct (pcb_avail s) as [|a avail] eqn:E.
  - exists 0, s. split; [reflexivity|]. split; [|now intros []]. split; try assumption; rewrite E; assumption.
  - do 2 rewrite (bind_ok _ _ _ _ _ (set_pcb_eq _ _ _)). eexists _, _. split; [reflexivity|]. apply NoDup_cons_iff in H2. destruct H2 as [Ha Hav].
    assert (Hnl : ~ In a s.(udp_pcbs)) by (intros Hin; destruct (H4 a Hin) as [_ Hx]; rewrite E in Hx; apply Hx; now left).
    assert (Hlv : forall p, live s p -> In p pool /\ ~ In p avail) by (intros p [Hx Hy]; rewrite E in Hy; cbn in Hy; tauto).
    split.
    + split; unfold live; cbn [udp_pcbs pcbs udp_port pcb_avail with_field]; try assumption.
      * intros x Hx. apply H3. now right.
      * intros p Hp. now apply Hlv, H4.
      * intros p Hp. destruct (Z.eqb_spec p a) as [->|]; [contradiction|]. now apply H5.
      * intros p [Hp Hn] Hni. destruct (Z.eqb_spec p a) as [->|Hne]; [now rewrite Z.eqb_refl|]. apply H6; [split; [assumption|]|assumption].
        rewrite E. cbn. intuition congruence.
      * intros p q Hp Hq. destruct (Z.eqb_spec p a) as [->|]; [contradiction|]. destruct (Z.eqb_spec q a) as [->|]; [contradiction|]. now apply H7.
    + intros _. split; cbn [pcb_avail with_field]; [|assumption]. apply H3. now left.
Qed.

(** What an application can do with the control blocks it has. *)
Inductive udp_step (s s' : ust) : Prop :=
| u_new p : udp_new s = Ok (p, s') -> udp_step s s'
| u_bind p ip port r : live s p -> 0 <= port < 65536 -> udp_bind p ip port s = Ok (r, s') -> udp_step s s'
| u_connect p ip port r : live s p -> udp_connect p ip port s = Ok (r, s') -> udp_step s s'
| u_disconnect p : live s p -> udp_disconnect p s = Ok (tt, s') -> udp_step s s'
| u_recv p fn arg : live s p -> udp_recv p fn arg s = Ok (tt, s') -> udp_step s s'
| u_remove p : live s p -> udp_remove p s = Ok (tt, s') -> udp_step s s'.

(** After start-up: no control blocks, the pool full. *)
Definition udp_start (s : ust) : Prop := s.(udp_pcbs) = [] /\ s.(pcb_avail) = pool /\ s.(udp_port) = UDP_LOCAL_PORT_RANGE_START.

Inductive udp_reachable : ust -> Prop :=
| ur_start s : udp_start s -> udp_reachable s
| ur_step s s' : udp_reachable s -> udp_step s s' -> udp_reachable s'.

Lemma udp_step_ok s s' : pcbs_ok s -> udp_step s s' -> pcbs_ok s'.
Proof.
  intros Hs H. destruct H as [p E|p ip port r Hl Hp E|p ip port r Hl E|p Hl E|p fn arg Hl E|p Hl E].
  - destruct (udp_new_ok s Hs) as (q & s1 & E1 & H1 & _). congruence.
  - destruct (udp_bind_spec s p ip port Hs Hl Hp) as (r1 & s1 & E1 & H1 & _). congruence.
  - destruct (udp_connect_ok s p ip port Hs Hl) as (r1 & s1 & E1 & H1). congruence.
  - exact (proj1 (disconnect_keeps s p Hs s' E)).
  - exact (proj1 (recv_keeps s p fn arg Hs s' E)).
  - destruct (udp_remove_ok s p Hs Hl) as (s1 & E1 & H1). congruence.
Qed.

Lemma udp_start_ok s : udp_start s -> pcbs_ok s.
Proof.
  intros (El & Ea & Ep). split; unfold live; rewrite ?El, ?Ea, ?Ep; try (now intros p []); try assumption.
  - constructor.
  - apply incl_refl.
  - port_numbers. lia.
Qed.

Lemma udp_reachable_ok s : udp_reachable s -> pcbs_ok s.
Proof. induction 1; eauto using udp_step_ok, udp_start_ok. Qed.

(** C31: Whatever an application does with its control blocks (new, bind, connect,
    disconnect, recv, remove, in any order), every control block in the list is
    allocated, is in it once and is bound to a port, and no two of them have the
    same local address and port; a control block that is not in the list is not
    bound.  So a datagram for an address and port has at most one receiver bound
    to exactly that address. *)
Theorem udp_bindings_unique s : udp_reachable s ->
  NoDup s.(udp_pcbs) /\ (forall p, In p s.(udp_pcbs) -> live s p /\ 0 < (s.(pcbs) p).(local_port) < 65536) /\
  (forall p q, In p s.(udp_pcbs) -> In q s.(udp_pcbs) -> (s.(pcbs) p).(local_port) = (s.(pcbs) q).(local_port) ->
     (s.(pcbs) p).(local_ip) = (s.(pcbs) q).(local_ip) -> p = q) /\
  (forall p, live s p -> ~ In p s.(udp_pcbs) -> (s.(pcbs) p).(local_port) = 0).
Proof.
  intros H. destruct (udp_reachable_ok s H) as [H1 H2 H3 H4 H5 H6 H7 H8]. split; [assumption|]. split; [auto|]. split; assumption.
Qed.
End Pool.

(** ** Four control blocks *)

Definition pool4 : list Z := [100; 200; 300; 400].
Definition ust0 : ust := mkUst [] (fun _ => mkUdpPcb 0 0 0 0 0 0 0 0 0 0) UDP_LOCAL_PORT_RANGE_START pool4.

Lemma pool4_nodup : NoDup pool4.
Proof. repeat constructor; cbn; lia. Qed.
Lemma pool4_nonnull : ~ In 0 pool4.
Proof. cbn. lia. Qed.

Lemma udp_new_port_free_witness : in_range ust0.(udp_port) /\ exists r s', udp_new_port ust0 = Ok (r, s') /\ in_range s'.(udp_port).
Proof.
  assert (H : in_range ust0.(udp_port)) by (split; discriminate). split; [exact H|].
  destruct (udp_new_port_free ust0 H) as (r & s' & E & _ & _ & Hr & _). exists r, s'. split; [exact E|exact Hr].
Defined.

(** Two control blocks, bound to port 80 and to a port of the local range. *)
Lemma udp_bindings_unique_witness : exists s, udp_reachable pool4 s /\ length s.(udp_pcbs) = 1%nat /\ NoDup s.(udp_pcbs).
Proof.
  destruct (udp_new ust0) as [[p s1]| |] eqn:E1; [|discriminate E1|discriminate E1].
  assert (R1 : udp_reachable pool4 s1) by (apply (ur_step _ ust0); [apply ur_start; now repeat split|now apply (u_new _ _ _ p)]).
  destruct (udp_bind p None 80 s1) as [[r s2]| |] eqn:E2; [|vm_compute in E1; injection E1 as <- <-; discriminate E2..].
  assert (R2 : udp_reachable pool4 s2).
  { apply (ur_step _ s1 _ R1). apply (u_bind _ _ _ p None 80 r); [|lia|exact E2].
    injection E1 as <- <-. split; [now left|]. cbn. lia. }
  exists s2. split; [exact R2|].
  assert (Hl : match (do p <- udp_new; udp_bind p None 80) ust0 with Ok (_, s) => length s.(udp_pcbs) | _ => 0%nat end = 1%nat) by (vm_compute; reflexivity).
  unfold bind in Hl at 1. rewrite E1, E2 in Hl. split; [exact Hl|]. exact (proj1 (udp_bindings_unique pool4 pool4_nodup pool4_nonnull s2 R2)).
Defined.

(** Two control blocks on port 80 of two addresses, then the first address
    becomes the second. *)
Definition renumbered : UM (Z * Z) :=
  do p <- udp_new; udp_bind p (Some 0x0100000a) 80 ;;
  do q <- udp_new; udp_bind q (Some 0x0200000a) 80 ;;
  udp_netif_ip_addr_changed 0x0100000a 0x0200000a ;;
  ret (p, q).

(** [udp_netif_ip_addr_changed] does not check whether another control block
    is bound to the new address: afterwards two control blocks in the list have
    the same address and port, which [udp_bind] refuses with ERR_USE. *)
Theorem udp_addr_change_clashes :
  match renumbered ust0 with
  | Ok ((p, q), s) => p <> q /\ In p s.(udp_pcbs) /\ In q s.(udp_pcbs) /\
      (s.(pcbs) p).(local_port) = (s.(pcbs) q).(local_port) /\ (s.(pcbs) p).(local_ip) = (s.(pcbs) q).(local_ip)
  | _ => False
  end.
Proof. vm_compute. repeat split; try (intros; discriminate); auto. Qed.
