(* ===== verification/Ip4Out.v ===== *)
(** * Sending IPv4 packets (lwip/src/core/ipv4/ip4.c, ip4_frag.c)

    The state the layers above the drivers share, [ip4_route], the output
    functions of ip4.c and [ip4_frag], which sends a packet in fragments.  A
    network interface is named by its address; the driver's [netif->output] is a
    section variable, its state and that of the application is the type [Drv].
    Configuration of opt.h: IPv4 only, IP_FRAG, LWIP_NETIF_TX_SINGLE_PBUF 0,
    CHECKSUM_GEN_IP computed inline, ENABLE_LOOPBACK, IP_OPTIONS_SEND,
    LWIP_MULTICAST_TX_OPTIONS and LWIP_NETIF_HWADDRHINT 0. *)

From Stdlib Require Import ZArith List Lia Bool Permutation.
From S2P Require Import Prelude Def Chksum Ip4Addr Mem PbufMem Pbuf Ip4Frag UdpPcb.
Import ListNotations.
Open Scope Z_scope.
Open Scope c_scope.

Definition NETIF_FLAG_UP := 0x01.
Definition NETIF_FLAG_LINK_UP := 0x04.
Definition IP_PROTO_ICMP := 1.
Definition IP_PROTO_UDP := 17.
Definition IP_PROTO_TCP := 6.

(** The fields of [struct netif] used here. *)
Record netif := mkNetif { if4 : netif4; if_gw : Z; if_mtu : Z }.
Definition netif_is_up (nf : netif) : bool := negb (nf.(if4).(Ip4Addr.flags) .& NETIF_FLAG_UP =? 0).
Definition netif_is_link_up (nf : netif) : bool := negb (nf.(if4).(Ip4Addr.flags) .& NETIF_FLAG_LINK_UP =? 0).
Definition netif_ip4_addr (nf : netif) : Z := nf.(if4).(ip_addr).
Definition netif_ip4_netmask (nf : netif) : Z := nf.(if4).(netmask).

(** [struct stats_proto] *)
Record stats_proto := mkProto {
  s_xmit : Z; s_recv : Z; s_fw : Z; s_drop : Z; s_chkerr : Z; s_lenerr : Z; s_memerr : Z; s_rterr : Z; s_proterr : Z;
  s_opterr : Z; s_err : Z; s_cachehit : Z }.
#[export] Instance stats_proto_eta : Eta stats_proto := { eta := fun r =>
  mkProto r.(s_xmit) r.(s_recv) r.(s_fw) r.(s_drop) r.(s_chkerr) r.(s_lenerr) r.(s_memerr) r.(s_rterr) r.(s_proterr)
    r.(s_opterr) r.(s_err) r.(s_cachehit) }.
Definition inc_xmit (t : stats_proto) : stats_proto := t <| s_xmit := u16 (t.(s_xmit) + 1) |>.
Definition inc_recv (t : stats_proto) : stats_proto := t <| s_recv := u16 (t.(s_recv) + 1) |>.
Definition inc_fw (t : stats_proto) : stats_proto := t <| s_fw := u16 (t.(s_fw) + 1) |>.
Definition inc_drop (t : stats_proto) : stats_proto := t <| s_drop := u16 (t.(s_drop) + 1) |>.
Definition inc_chkerr (t : stats_proto) : stats_proto := t <| s_chkerr := u16 (t.(s_chkerr) + 1) |>.
Definition inc_lenerr (t : stats_proto) : stats_proto := t <| s_lenerr := u16 (t.(s_lenerr) + 1) |>.
Definition inc_rterr (t : stats_proto) : stats_proto := t <| s_rterr := u16 (t.(s_rterr) + 1) |>.
Definition inc_proterr (t : stats_proto) : stats_proto := t <| s_proterr := u16 (t.(s_proterr) + 1) |>.
Definition inc_err (t : stats_proto) : stats_proto := t <| s_err := u16 (t.(s_err) + 1) |>.
Definition inc_cachehit (t : stats_proto) : stats_proto := t <| s_cachehit := u16 (t.(s_cachehit) + 1) |>.

(** [struct ip_globals] *)
Record ip_globals := mkGlobals {
  current_netif : Z; current_input_netif : Z; current_ip4_header : Z; current_ip_header_tot_len : Z;
  current_iphdr_src : Z; current_iphdr_dest : Z }.
#[export] Instance ip_globals_eta : Eta ip_globals := { eta := fun r =>
  mkGlobals r.(current_netif) r.(current_input_netif) r.(current_ip4_header) r.(current_ip_header_tot_len)
    r.(current_iphdr_src) r.(current_iphdr_dest) }.

(** The state of the drivers and of the application. *)
Class World := { Drv : Type }.

(** [LWIP_MAKE_U16] on a little-endian processor. *)
Definition LWIP_MAKE_U16 (a b : Z) : Z := (a << 8) .| b.

Section Net.
Context {PMem : PbufMemory} {W : World}.

(** The statics of netif.c, ip4.c, ip.c and udp.c, the statistics, and the rest
    of the world. *)
Record net := mkNet {
  netif_tab : Z -> netif; netif_list : list Z; netif_default : Z; ip_id : Z; ip_data : ip_globals;
  ip_stats : stats_proto; icmp_stats : stats_proto; udp_stats : stats_proto; ip_frag_xmit : Z; udp : ust; drv : Drv }.
#[export] Instance net_eta : Eta net := { eta := fun r =>
  mkNet r.(netif_tab) r.(netif_list) r.(netif_default) r.(ip_id) r.(ip_data) r.(ip_stats) r.(icmp_stats) r.(udp_stats)
    r.(ip_frag_xmit) r.(udp) r.(drv) }.

(** With the packets. *)
Record nst := mkNst { pk : pst; nt : net }.
#[export] Instance nst_eta : Eta nst := { eta := fun r => mkNst r.(pk) r.(nt) }.

Definition NM := M nst.

Variable NOASSERT : bool.
(** The address of [ipfrag_free_pbuf_custom], and the free functions of other
    custom pbufs: address of the function, pbuf. *)
Variable IPFRAG_FREE : Z.
Variable other_free : Z -> Z -> PB unit.
Variable tcpip_callback_ok : pst -> bool.
(** [netif->output(netif, p, ipaddr)] *)
Variable netif_output : Z -> Z -> Z -> NM err_t.

(** More than the pbufs of any chain and the fragments of any packet. *)
Definition loop_fuel : nat := S (Z.to_nat 65536).

(** ** The pbufs of fragments

    [struct pbuf_custom_ref] is the pbuf, at offset 16 the free function and at
    offset 20 the pointer to the pbuf it refers to. *)

Definition load32 (a : Z) : PB Z := gets (fun s =>
  le32 (s.(data) a) (s.(data) (a + 1)) (s.(data) (a + 2)) (s.(data) (a + 3))).
Definition store_bytes (a : Z) (l : list Z) : PB unit := modify (fun s => s <| data := store_list a l s.(data) |>).

Definition ip_frag_alloc_pbuf_custom_ref : PB (option Z) := lift (pool_malloc MEMP_FRAG_PBUF).
Definition ip_frag_free_pbuf_custom_ref (p : Z) : PB unit :=
  Pbuf.LWIP_ASSERT NOASSERT (negb (p =? 0)) ;; lift (pool_free MEMP_FRAG_PBUF p).

(** [p->custom_free_function(p)]; [depth] bounds the fragments of fragments. *)
Fixpoint custom_free (depth : nat) (p : Z) : PB unit :=
  do f <- load32 (p + 16);
  if f =? IPFRAG_FREE then
    match depth with
    | O => hang
    | S d =>
        (** [ipfrag_free_pbuf_custom] *)
        Pbuf.LWIP_ASSERT NOASSERT (negb (p =? 0)) ;;
        do original <- load32 (p + 20);
        (when negb (original =? 0) then (pbuf_free NOASSERT (custom_free d) loop_fuel original ;; ret tt)) ;;
        ip_frag_free_pbuf_custom_ref p
    end
  else other_free f p.

(** More than the pbufs there are. *)
Definition custom_free_function : Z -> PB unit := custom_free (Z.to_nat 65536).

(** ** Access to the state *)

Definition pb {A} (m : PB A) : NM A := fun s =>
  match m s.(pk) with
  | Ok (a, m') => Ok (a, s <| pk := m' |>)
  | Halt => Halt
  | Hang => Hang
  end.
Definition onet {A} (f : net -> A) : NM A := gets (fun s => f s.(nt)).
Definition mnet (f : net -> net) : NM unit := modify (fun s => s <| nt := f s.(nt) |>).

Definition assert (c : bool) : NM unit := pb (Pbuf.LWIP_ASSERT NOASSERT c).
Definition error_unless {A} (c : bool) (handler k : NM A) : NM A :=
  if c then k else if NOASSERT then handler else halt.
Definition pbuf_at (p : Z) : NM pbuf := gets (fun s => s.(pk).(structs) p).
Definition load (a n : Z) : NM (list Z) := gets (fun s => load_list s.(pk).(data) a n).
Definition load8 (a : Z) : NM Z := gets (fun s => s.(pk).(data) a).
Definition load16 (a : Z) : NM Z := gets (fun s => le16 (s.(pk).(data) a) (s.(pk).(data) (a + 1))).
Definition store (a : Z) (l : list Z) : NM unit := pb (store_bytes a l).
Definition free (p : Z) : NM unit := pb (pbuf_free NOASSERT custom_free_function loop_fuel p) ;; ret tt.
Definition alloc (layer : pbuf_layer) (n : Z) (t : pbuf_type) : NM Z :=
  pb (pbuf_alloc NOASSERT custom_free_function tcpip_callback_ok layer n t).
Definition netif_at (n : Z) : NM netif := onet (fun e => e.(netif_tab) n).
Definition IP_STATS (f : stats_proto -> stats_proto) : NM unit := mnet (fun e => e <| ip_stats := f e.(ip_stats) |>).
Definition ICMP_STATS (f : stats_proto -> stats_proto) : NM unit := mnet (fun e => e <| icmp_stats := f e.(icmp_stats) |>).
Definition UDP_STATS (f : stats_proto -> stats_proto) : NM unit := mnet (fun e => e <| udp_stats := f e.(udp_stats) |>).

(** A chain as the checksum functions read it. *)
Fixpoint segs (fuel : nat) (p : Z) : NM (list Chksum.seg) :=
  if p =? 0 then ret [] else
  match fuel with
  | O => hang
  | S n =>
      do b <- pbuf_at p;
      do l <- load b.(payload) b.(len);
      do rest <- segs n b.(next);
      ret (mk_seg b.(payload) l :: rest)
  end.

(** ** Routing *)

(** Whether a packet for [dest] leaves through the interface. *)
Definition route_match (dest : Z) (nf : netif) : bool :=
  netif_is_up nf && netif_is_link_up nf && negb (ip4_addr_isany_val (netif_ip4_addr nf)) &&
  (ip4_addr_netcmp dest (netif_ip4_addr nf) (netif_ip4_netmask nf) ||
   ((nf.(if4).(Ip4Addr.flags) .& NETIF_FLAG_BROADCAST =? 0) && (dest =? nf.(if_gw)))).

(** The interface, or 0. *)
Definition ip4_route (dest : Z) : NM Z :=
  do e <- onet (fun e => e);
  match find (fun n => route_match dest (e.(netif_tab) n)) e.(netif_list) with
  | Some n => ret n
  | None =>
      let d := e.(netif_default) in
      let nf := e.(netif_tab) d in
      if (d =? 0) || negb (netif_is_up nf) || negb (netif_is_link_up nf) || ip4_addr_isany_val (netif_ip4_addr nf) then
        IP_STATS inc_rterr ;; ret 0
      else ret d
  end.

(** ** Fragmentation *)

(** The inner loop of [ip4_frag]: pbufs that refer to the next [left_to_copy]
    bytes, from offset [poff] of [p] on, behind [rambuf].  The result is the
    pbuf and the offset reached with the length of the last new pbuf; None for
    [goto memerr]. *)
Fixpoint mirror (fuel : nat) (rambuf p poff left_to_copy newpbuflen : Z) : NM (option (Z * Z * Z)) :=
  if left_to_copy =? 0 then ret (Some (p, poff, newpbuflen)) else
  match fuel with
  | O => hang
  | S n =>
      do b <- pbuf_at p;
      let plen := u16 (b.(len) - poff) in
      let newpbuflen := Z.min left_to_copy plen in
      if newpbuflen =? 0 then mirror n rambuf b.(next) 0 left_to_copy newpbuflen else
      do pcr <- pb ip_frag_alloc_pbuf_custom_ref;
      match pcr with
      | None => free rambuf ;; ret None
      | Some pcr =>
          do newpbuf <- pb (pbuf_alloced_custom PBUF_RAW newpbuflen PBUF_REF pcr (b.(payload) + poff) newpbuflen);
          if newpbuf =? 0 then
            pb (ip_frag_free_pbuf_custom_ref pcr) ;; free rambuf ;; ret None
          else
            pb (pbuf_ref p) ;;
            store (pcr + 20) (put32 p) ;;
            store (pcr + 16) (put32 IPFRAG_FREE) ;;
            pb (pbuf_cat NOASSERT loop_fuel rambuf newpbuf) ;;
            let left_to_copy := u16 (left_to_copy - newpbuflen) in
            if negb (left_to_copy =? 0) then
              do b <- pbuf_at p; mirror n rambuf b.(next) 0 left_to_copy newpbuflen
            else mirror n rambuf p poff left_to_copy newpbuflen
      end
  end.

(** The outer loop: the next fragment starts at offset [poff] of [p]. *)
Fixpoint frag_loop (fuel : nat) (n dest mtu original_iphdr p poff left ofo : Z) : NM err_t :=
  if left =? 0 then ret ERR_OK else
  match fuel with
  | O => hang
  | S k =>
      let nfb := u16 (Z.quot (mtu - IP_HLEN) 8) in
      let fragsize := u16 (Z.min left (nfb * 8)) in
      do rambuf <- alloc PBUF_LINK IP_HLEN PBUF_RAM;
      if rambuf =? 0 then ret ERR_MEM else
      do b <- pbuf_at p;
      assert (b.(len) >=? IP_HLEN) ;;
      do rb <- pbuf_at rambuf;
      let iphdr := rb.(payload) in
      do h <- load original_iphdr IP_HLEN;
      store iphdr h ;;
      do r <- mirror loop_fuel rambuf p poff fragsize 0;
      match r with
      | None => ret ERR_MEM
      | Some (p, poff, newpbuflen) =>
          let poff := u16 (poff + newpbuflen) in
          let last := left <=? mtu - IP_HLEN in
          let tmp := IP_OFFMASK .& ofo in
          let tmp := if last then tmp else tmp .| IP_MF in
          store (iphdr + 6) (put16 (lwip_htons tmp)) ;;
          store (iphdr + 2) (put16 (lwip_htons (fragsize + IP_HLEN))) ;;
          store (iphdr + 10) (put16 0) ;;
          do h <- load iphdr IP_HLEN;
          store (iphdr + 10) (put16 (inet_chksum iphdr h)) ;;
          netif_output n rambuf dest ;;
          mnet (fun e => e <| ip_frag_xmit := u16 (e.(ip_frag_xmit) + 1) |>) ;;
          free rambuf ;;
          frag_loop k n dest mtu original_iphdr p poff (u16 (left - fragsize)) (u16 (ofo + nfb))
      end
  end.

Definition ip4_frag (p n dest : Z) : NM err_t :=
  do nf <- netif_at n;
  do b <- pbuf_at p;
  let original_iphdr := b.(payload) in
  do h <- load original_iphdr IP_HLEN;
  error_unless (IPH_HL h * 4 =? IP_HLEN) (ret ERR_VAL) (
  let tmp := lwip_htons (IPH_OFFSET h) in
  let ofo := tmp .& IP_OFFMASK in
  error_unless (tmp .& IP_MF =? 0) (ret ERR_VAL) (
  let left := u16 (b.(tot_len) - IP_HLEN) in
  frag_loop loop_fuel n dest nf.(if_mtu) original_iphdr p IP_HLEN left ofo)).

(** ** Output *)

(** The sum of the header fields as [ip4_output_if_src] adds them up. *)
Definition header_sum (tos len id ttl proto src dest : Z) : Z :=
  let chk_sum := LWIP_MAKE_U16 proto ttl in
  let chk_sum := u32 (chk_sum + (dest .& 0xffff)) in
  let chk_sum := u32 (chk_sum + (dest >> 16)) in
  let chk_sum := u32 (chk_sum + LWIP_MAKE_U16 tos (u8 ((4 << 4) .| (IP_HLEN / 4)))) in
  let chk_sum := u32 (chk_sum + lwip_htons len) in
  let chk_sum := u32 (chk_sum + lwip_htons id) in
  let chk_sum := u32 (chk_sum + (src .& 0xffff)) in
  let chk_sum := u32 (chk_sum + (src >> 16)) in
  let chk_sum := u32 ((chk_sum >> 16) + (chk_sum .& 0xffff)) in
  let chk_sum := u32 ((chk_sum >> 16) + chk_sum) in
  u32 (Z.lnot chk_sum).

(** The end of [ip4_output_if_src]. *)
Definition transmit (p n dest : Z) : NM err_t :=
  IP_STATS inc_xmit ;;
  do nf <- netif_at n;
  do b <- pbuf_at p;
  if negb (nf.(if_mtu) =? 0) && (b.(tot_len) >? nf.(if_mtu)) then ip4_frag p n dest
  else netif_output n p dest.

(** [src] is None for NULL, [dest] is None for LWIP_IP_HDRINCL. *)
Definition ip4_output_if_src (p : Z) (src dest : option Z) (ttl tos proto n : Z) : NM err_t :=
  do b <- pbuf_at p;
  assert (b.(ref) =? 1) ;;
  match dest with
  | Some dest =>
      do r <- pb (pbuf_header NOASSERT p IP_HLEN);
      if negb (r =? 0) then IP_STATS inc_err ;; ret ERR_BUF else
      do b <- pbuf_at p;
      let iphdr := b.(payload) in
      assert (b.(len) >=? IP_HLEN) ;;
      store (iphdr + 8) [ttl] ;;
      store (iphdr + 9) [proto] ;;
      store (iphdr + 16) (put32 dest) ;;
      store iphdr [u8 ((4 << 4) .| (IP_HLEN / 4))] ;;
      store (iphdr + 1) [tos] ;;
      store (iphdr + 2) (put16 (lwip_htons b.(tot_len))) ;;
      store (iphdr + 6) (put16 0) ;;
      do id <- onet ip_id;
      store (iphdr + 4) (put16 (lwip_htons id)) ;;
      mnet (fun e => e <| ip_id := u16 (e.(ip_id) + 1) |>) ;;
      let src := match src with Some a => a | None => IPADDR_ANY end in
      store (iphdr + 12) (put32 src) ;;
      store (iphdr + 10) (put16 (u16 (header_sum tos b.(tot_len) id ttl proto src dest))) ;;
      transmit p n dest
  | None =>
      do h <- load b.(payload) IP_HLEN;
      transmit p n (iph_dest h)
  end.

Definition ip4_output_if (p : Z) (src dest : option Z) (ttl tos proto n : Z) : NM err_t :=
  do nf <- netif_at n;
  let src_used :=
    match dest with
    | Some _ =>
        match src with
        | Some a => if ip4_addr_isany_val a then Some (netif_ip4_addr nf) else src
        | None => Some (netif_ip4_addr nf)
        end
    | None => src
    end in
  ip4_output_if_src p src_used dest ttl tos proto n.

(** [dest] must not be LWIP_IP_HDRINCL here. *)
Definition ip4_output (p : Z) (src : option Z) (dest ttl tos proto : Z) : NM err_t :=
  do b <- pbuf_at p;
  assert (b.(ref) =? 1) ;;
  do n <- ip4_route dest;
  if n =? 0 then IP_STATS inc_rterr ;; ret ERR_RTE
  else ip4_output_if p src (Some dest) ttl tos proto n.
End Net.
