(* ===== verification/Packet.v ===== *)
(** * Packets that come in

    The pbufs and the bytes of a packet, hiding a header, and the packet as the
    checksum functions read it. *)

From Stdlib Require Import ZArith List Lia Bool Permutation.
From S2P Require Import Prelude Def Chksum Mem PbufMem Pbuf PbufCopy Ip4Out.
Import ListNotations.
Open Scope Z_scope.
Open Scope c_scope.

(** Memory holds bytes. *)
Definition bytes_in {PMem : PbufMemory} (m : pst) : Prop := forall x, is_u8 (m.(data) x).

Lemma store_bytes_ok d a l : (forall x, is_u8 (d x)) -> bytes_ok l -> forall x, is_u8 (store_list a l d x).
Proof.
  intros Hd Hl x. unfold store_list. destruct (_ && _) eqn:E; [|apply Hd]. bool_to_prop. apply Forall_nth; [exact Hl|]. lia.
Qed.

Lemma load_bytes_ok d a n : (forall x, is_u8 (d x)) -> bytes_ok (load_list d a n).
Proof. intros Hd. apply Forall_forall. intros x Hx. apply in_map_iff in Hx. destruct Hx as (i & <- & _). apply Hd. Qed.

Lemma nth_loaded d a n i : Z.of_nat i < n -> nth i (load_list d a n) 0 = d (a + Z.of_nat i).
Proof.
  intros Hi. apply nth_error_nth. rewrite nth_load. destruct (Nat.ltb_spec i (Z.to_nat n)); [reflexivity|lia].
Qed.

Lemma load_stored d a l n : n = Z.of_nat (length l) -> load_list (store_list a l d) a n = l.
Proof. intros ->. apply load_store_exact. Qed.

(** A store into bytes that are loaded again. *)
Lemma load_patch d a n i v : 0 <= i -> i + Z.of_nat (length v) <= n ->
  load_list (store_list (a + i) v d) a n =
  firstn (Z.to_nat i) (load_list d a n) ++ v ++ skipn (Z.to_nat i + length v) (load_list d a n).
Proof.
  intros Hi Hn. replace n with (i + (Z.of_nat (length v) + (n - i - Z.of_nat (length v)))) by lia. rewrite !load_app by lia.
  rewrite load_store_other, load_stored, load_store_other by (reflexivity || lia).
  rewrite firstn_app, load_list_length, Nat.sub_diag, firstn_all2, firstn_O, app_nil_r by (rewrite load_list_length; lia). do 2 f_equal.
  rewrite skipn_app, skipn_all2, load_list_length by (rewrite load_list_length; lia).
  replace (Z.to_nat i + length v - Z.to_nat i)%nat with (length v) by lia.
  rewrite skipn_app, skipn_all2, load_list_length by (rewrite load_list_length; lia).
  replace (length v - Z.to_nat (Z.of_nat (length v)))%nat with 0%nat by lia. reflexivity.
Qed.

Lemma content_total f d l : lengths f 0 l -> Z.of_nat (length (content f d l)) = total f l.
Proof.
  intros Hl. apply content_length. apply Forall_forall. intros a Ha. now destruct (lengths_le f l Hl a Ha).
Qed.

(** A packet that came in: its pbufs and its bytes. *)
Record packet {PMem : PbufMemory} (m : pst) (p : Z) (l bytes : list Z) : Prop := {
  pa_chain : chain m.(structs) p (p :: l);
  pa_fresh : ~ In p l;
  pa_lengths : lengths m.(structs) 0 (p :: l);
  pa_short : (length l < loop_fuel)%nat;
  pa_small : total m.(structs) (p :: l) < 65536;
  pa_place : p + SIZEOF_STRUCT_PBUF <= (m.(structs) p).(payload);
  pa_content : content m.(structs) m.(data) (p :: l) = bytes }.

Section Packet.
Context {PMem : PbufMemory}.
Variable NOASSERT : bool.

Lemma packet_nonnull m p l bytes : packet m p l bytes -> p <> 0.
Proof. intros [(_ & H & _)]. exact H. Qed.

Lemma packet_tot_len m p l bytes : packet m p l bytes -> (m.(structs) p).(tot_len) = Z.of_nat (length bytes).
Proof.
  intros [Hc Hf Hl Hs Ht Hp Hb]. rewrite <- Hb, (content_total _ _ _ Hl). destruct Hl as (_ & E & _). lia.
Qed.

Lemma packet_len m p l bytes : packet m p l bytes -> 0 <= (m.(structs) p).(len) <= (m.(structs) p).(tot_len) /\ (m.(structs) p).(tot_len) < 65536.
Proof.
  intros [Hc Hf Hl Hs Ht Hp Hb]. pose proof Hl as (H0 & E & _). destruct (lengths_le _ _ Hl p (or_introl eq_refl)) as [H1 H2]. lia.
Qed.

Lemma content_bytes_ok f d l : (forall x, is_u8 (d x)) -> bytes_ok (content f d l).
Proof. intros Hd. apply Forall_concat, Forall_map, Forall_forall. intros x _. now apply load_bytes_ok. Qed.

Lemma packet_bytes_ok m p l bytes : packet m p l bytes -> bytes_in m -> bytes_ok bytes.
Proof. intros Hp Hb. rewrite <- (pa_content _ _ _ _ Hp). now apply content_bytes_ok. Qed.

(** The first bytes, when they are all in the first pbuf. *)
Lemma packet_front m p l pre bytes k : packet m p l (pre ++ bytes) -> k = Z.of_nat (length pre) -> k <= (m.(structs) p).(len) ->
  load_list m.(data) (m.(structs) p).(payload) k = pre.
Proof.
  intros [Hc Hf Hl Hs Ht Hp Hb] -> Hk.
  change (content (structs m) (data m) (p :: l)) with (load_list m.(data) (m.(structs) p).(payload) (m.(structs) p).(len) ++ content m.(structs) m.(data) l) in Hb.
  replace (len (structs m p)) with (Z.of_nat (length pre) + (len (structs m p) - Z.of_nat (length pre))) in Hb by lia.
  rewrite load_app, <- app_assoc in Hb by lia. apply app_inj_length in Hb; [tauto|rewrite load_list_length; lia].
Qed.

(** New bytes in the place of the first ones. *)
Lemma packet_patch m p l pre bytes d k : packet m p l (pre ++ bytes) -> k = Z.of_nat (length pre) -> k <= (m.(structs) p).(len) ->
  (forall a x, In a l -> in_payload m.(structs) a x -> ~ in_payload m.(structs) p x) ->
  (forall x, ~ (m.(structs) p).(payload) <= x < (m.(structs) p).(payload) + k -> d x = m.(data) x) ->
  packet (m <| data := d |>) p l (load_list d (m.(structs) p).(payload) k ++ bytes).
Proof.
  intros Hpk Hk Hl Hap Hd. pose proof Hpk as [Hc Hf Hlen Hs Ht Hp Hb]. split; auto. cbn [structs data with_field].
  change (content (structs m) d (p :: l)) with (load_list d (m.(structs) p).(payload) (m.(structs) p).(len) ++ content m.(structs) d l).
  change (content (structs m) (data m) (p :: l)) with (load_list m.(data) (m.(structs) p).(payload) (m.(structs) p).(len) ++ content m.(structs) m.(data) l) in Hb.
  replace (len (structs m p)) with (k + (len (structs m p) - k)) in Hb |- * by lia. rewrite load_app, <- app_assoc in Hb |- * by lia. f_equal.
  apply app_inj_length in Hb; [|rewrite load_list_length; lia]. destruct Hb as [_ <-]. f_equal.
  - apply load_ext. intros x Hx. apply Hd. lia.
  - apply content_ext. intros a x Ha Hx. apply Hd. intros Hin. apply (Hap a x Ha Hx). unfold in_payload. lia.
Qed.

(** Hiding a header. *)
Lemma packet_hide m p l pre bytes k : packet m p l (pre ++ bytes) -> k = Z.of_nat (length pre) -> 0 < k <= (m.(structs) p).(len) ->
  exists m', pbuf_header NOASSERT p (- k) m = Ok (0, m') /\ packet m' p l bytes /\ m'.(mm) = m.(mm) /\ m'.(data) = m.(data) /\
    m'.(structs) p = (m.(structs) p) <| payload := (m.(structs) p).(payload) + k |> <| len := (m.(structs) p).(len) - k |>
      <| tot_len := (m.(structs) p).(tot_len) - k |> /\
    (forall a, a <> p -> m'.(structs) a = m.(structs) a).
Proof.
  intros Hpk Hk Hlen. pose proof (packet_nonnull _ _ _ _ Hpk) as Hp0. pose proof (packet_len _ _ _ _ Hpk) as [H1 H2]. pose proof Hpk as [Hc Hf Hl Hs Ht Hp Hb].
  destruct (pbuf_header_hide NOASSERT m p k Hp0 Hlen) as (m' & E & Hm & Hd & Hsp & Ho); [lia|lia|lia|].
  exists m'. split; [exact E|]. split; [|now repeat split].
  assert (Htail : total (structs m') l = total (structs m) l) by (apply total_ext; intros a Ha; rewrite Ho by (intros ->; contradiction); reflexivity).
  split; auto.
  - apply (chain_ext (structs m)); [|assumption]. intros a _. destruct (Z.eq_dec a p) as [->|Hne]; [rewrite Hsp|rewrite Ho by assumption]; reflexivity.
  - destruct Hl as (L0 & L1 & L2). cbn [lengths total] in *. rewrite Hsp, Htail. cbn [len tot_len with_field]. split; [lia|]. split; [lia|].
    apply (lengths_ext (structs m)); [|assumption]. intros a Ha. rewrite Ho by (intros ->; contradiction). auto.
  - cbn [total] in *. rewrite Hsp, Htail. cbn [len with_field]. lia.
  - rewrite Hsp. cbn [payload with_field]. lia.
  - change (content (structs m') (data m') (p :: l)) with (load_list m'.(data) (m'.(structs) p).(payload) (m'.(structs) p).(len) ++ content m'.(structs) m'.(data) l).
    change (content (structs m) (data m) (p :: l)) with (load_list m.(data) (m.(structs) p).(payload) (m.(structs) p).(len) ++ content m.(structs) m.(data) l) in Hb.
    replace (content (structs m') (data m') l) with (content (structs m) (data m) l)
      by (rewrite Hd; unfold content; f_equal; apply map_ext_in; intros a Ha; rewrite Ho by (intros ->; contradiction); reflexivity).
    rewrite Hd, Hsp. cbn [payload len with_field].
    replace (len (structs m p)) with (k + (len (structs m p) - k)) in Hb by lia. rewrite load_app, <- app_assoc in Hb by lia.
    apply app_inj_length in Hb; [tauto|rewrite load_list_length; lia].
Qed.

(** Showing the [k] bytes in front of the payload. *)
Lemma packet_show m p l bytes k : packet m p l bytes -> 0 < k < 32768 ->
  (m.(structs) p).(type) = PBUF_RAM \/ (m.(structs) p).(type) = PBUF_POOL ->
  p + SIZEOF_STRUCT_PBUF + k <= (m.(structs) p).(payload) -> (m.(structs) p).(tot_len) + k < 65536 ->
  exists m', pbuf_header NOASSERT p k m = Ok (0, m') /\ packet m' p l (load_list m.(data) ((m.(structs) p).(payload) - k) k ++ bytes) /\
    m'.(mm) = m.(mm) /\ m'.(data) = m.(data) /\
    m'.(structs) p = (m.(structs) p) <| payload := (m.(structs) p).(payload) - k |> <| len := (m.(structs) p).(len) + k |>
      <| tot_len := (m.(structs) p).(tot_len) + k |> /\
    (forall a, a <> p -> m'.(structs) a = m.(structs) a).
Proof.
  intros Hpk Hk Ht Hroom Htot. pose proof (packet_nonnull _ _ _ _ Hpk) as Hp0. pose proof (packet_len _ _ _ _ Hpk) as [H1 H2]. pose proof Hpk as [Hc Hf Hl Hs Htl Hp Hb].
  destruct (pbuf_header_show NOASSERT m p k Hp0 Hk Ht) as (m' & E & Hm & Hd & Hsp & Ho); try lia.
  exists m'. split; [exact E|]. split; [|now repeat split].
  assert (Htail : total (structs m') l = total (structs m) l) by (apply total_ext; intros a Ha; rewrite Ho by (intros ->; contradiction); reflexivity).
  split; auto.
  - apply (chain_ext (structs m)); [|assumption]. intros a _. destruct (Z.eq_dec a p) as [->|Hne]; [rewrite Hsp|rewrite Ho by assumption]; reflexivity.
  - destruct Hl as (L0 & L1 & L2). cbn [lengths total] in *. rewrite Hsp, Htail. cbn [len tot_len with_field]. split; [lia|]. split; [lia|].
    apply (lengths_ext (structs m)); [|assumption]. intros a Ha. rewrite Ho by (intros ->; contradiction). auto.
  - destruct Hl as (L0 & L1 & L2). cbn [total] in *. rewrite Hsp, Htail. cbn [len with_field]. lia.
  - rewrite Hsp. cbn [payload with_field]. lia.
  - rewrite <- Hb. change (content (structs m') (data m') (p :: l)) with (load_list m'.(data) (m'.(structs) p).(payload) (m'.(structs) p).(len) ++ content m'.(structs) m'.(data) l).
    change (content (structs m) (data m) (p :: l)) with (load_list m.(data) (m.(structs) p).(payload) (m.(structs) p).(len) ++ content m.(structs) m.(data) l).
    replace (content (structs m') (data m') l) with (content (structs m) (data m) l)
      by (rewrite Hd; unfold content; f_equal; apply map_ext_in; intros a Ha; rewrite Ho by (intros ->; contradiction); reflexivity).
    rewrite Hd, Hsp. cbn [payload len with_field]. rewrite (Z.add_comm _ k), load_app, <- app_assoc by lia. do 3 f_equal. lia.
Qed.

(** ** The checksum functions *)

Context {W : World}.

Lemma segs_spec (s : nst) l : forall fuel p, chain s.(pk).(structs) p l -> (length l <= fuel)%nat ->
  segs fuel p s = Ok (map (fun a => mk_seg (s.(pk).(structs) a).(payload)
    (load_list s.(pk).(data) (s.(pk).(structs) a).(payload) (s.(pk).(structs) a).(len))) l, s).
Proof.
  induction l as [|a l IH]; intros fuel p Hc Hf; cbn [chain] in Hc.
  - subst p. destruct fuel; reflexivity.
  - destruct Hc as (-> & Hp & Hn). destruct fuel as [|fuel]; [cbn in Hf; lia|]. cbn [segs]. rewrite (proj2 (Z.eqb_neq _ _) Hp).
    unfold pbuf_at, load. rewrite !bind_gets. rewrite (bind_ok _ _ _ _ _ (IH fuel _ Hn ltac:(cbn in Hf; lia))). reflexivity.
Qed.

Lemma segs_bytes (f : Z -> pbuf) d l : chain_bytes (map (fun a => mk_seg (f a).(payload) (load_list d (f a).(payload) (f a).(len))) l) = content f d l.
Proof. unfold chain_bytes, content. rewrite map_map. reflexivity. Qed.

Lemma segs_ok (f : Z -> pbuf) d l : (forall x, is_u8 (d x)) -> Forall (fun a => is_u16 (f a).(len)) l ->
  Forall seg_ok (map (fun a => mk_seg (f a).(payload) (load_list d (f a).(payload) (f a).(len))) l).
Proof.
  intros Hd Hl. apply Forall_map. eapply Forall_impl; [|exact Hl]. intros a Ha. split; [now apply load_bytes_ok|].
  unfold seg_len. cbn [payload_bytes]. rewrite load_list_length. word_lia.
Qed.
End Packet.
