(* ===== verification/Ip4Send.v ===== *)
(** * What leaves the host as IPv4 packets

    The header [ip4_output_if_src] builds and its checksum, computed while the
    fields are stored; one packet on the link for one call.  The driver is one
    that sends every packet and may use the room in front of it for its own
    header. *)

From Stdlib Require Import ZArith List Lia Bool Permutation.
From S2P Require Import Prelude Def Chksum Ip4Addr Mem PbufMem Pbuf PbufCopy Ip4Frag UdpPcb Ip4Out Packet.
Import ListNotations.
Open Scope Z_scope.
Open Scope c_scope.

(** ** The header *)

(** An IP header without options; [off] is the field with the flags. *)
Definition ip_hdr (tos len id off ttl proto chk src dest : Z) : list Z :=
  [0x45; tos; len / 256; len mod 256; id / 256; id mod 256; off / 256; off mod 256; ttl; proto] ++ put16 chk ++ put32 src ++ put32 dest.
(** With its checksum. *)
Definition ip_header (tos len id off ttl proto src dest : Z) : list Z :=
  ip_hdr tos len id off ttl proto (rfc1071_field (ip_hdr tos len id off ttl proto 0 src dest)) src dest.

Lemma put16_ok v : bytes_ok (put16 v).
Proof. unfold put16. repeat constructor; apply Z.mod_pos_bound; lia. Qed.
Lemma put32_ok v : bytes_ok (put32 v).
Proof. unfold put32. repeat constructor; apply Z.mod_pos_bound; lia. Qed.

Lemma rfc1071_field_u16 l : is_u16 (rfc1071_field l).
Proof. unfold rfc1071_field, rfc1071. pose proof (oc_norm_range (word_sum l)). word_lia. Qed.

Section Header.
Variables tos len id off ttl proto src dest : Z.
Hypotheses (Htos : is_u8 tos) (Hlen : is_u16 len) (Hid : is_u16 id) (Hoff : is_u16 off) (Httl : is_u8 ttl) (Hproto : is_u8 proto).

Lemma ip_hdr_ok chk : bytes_ok (ip_hdr tos len id off ttl proto chk src dest).
Proof.
  unfold ip_hdr. apply bytes_ok_app. split; [repeat constructor; word_div|]. apply bytes_ok_app. split; [apply put16_ok|].
  apply bytes_ok_app. split; apply put32_ok.
Qed.

Lemma ip_header_length : length (ip_header tos len id off ttl proto src dest) = 20%nat.
Proof. reflexivity. Qed.

(** A receiver finds the checksum right. *)
Lemma ip_header_valid a : inet_chksum a (ip_header tos len id off ttl proto src dest) = 0.
Proof.
  unfold ip_header at 1. set (z := ip_hdr _ _ _ _ _ _ 0 _ _).
  set (pre := [0x45; tos; len / 256; len mod 256; id / 256; id mod 256; off / 256; off mod 256; ttl; proto]).
  assert (Hpre : bytes_ok pre) by (unfold pre; repeat constructor; word_div).
  assert (Hpost : bytes_ok (put32 src ++ put32 dest)) by (apply bytes_ok_app; split; apply put32_ok).
  pose proof (inet_chksum_fills a pre (put32 src ++ put32 dest) Hpre Hpost eq_refl ltac:(vm_compute; discriminate)) as H.
  cbv zeta in H. change (pre ++ [0; 0] ++ put32 src ++ put32 dest) with z in H.
  rewrite (inet_chksum_rfc1071 a z) in H by (apply ip_hdr_ok || (vm_compute; discriminate)).
  pose proof (rfc1071_field_u16 z) as Hc. unfold ip_hdr. fold pre.
  replace (put16 (rfc1071_field z)) with [rfc1071_field z mod 256; rfc1071_field z / 256]; [exact H|].
  unfold put16. do 2 f_equal. word_div.
Qed.
End Header.

(** *** Its fields *)

Section Fields.
Variables tos len id off ttl proto chk src dest : Z.
Hypotheses (Hlen : is_u16 len) (Hoff : is_u16 off) (Hsrc : is_u32 src) (Hdest : is_u32 dest).
Let h := ip_hdr tos len id off ttl proto chk src dest.

Lemma hdr_src : iph_src h = src.
Proof. exact (le32_put32 src Hsrc). Qed.
Lemma hdr_dest : iph_dest h = dest.
Proof. exact (le32_put32 dest Hdest). Qed.
Lemma hdr_len : lwip_htons (IPH_LEN h) = len.
Proof using Hlen.
  clear Hoff Hsrc Hdest.
  unfold IPH_LEN, field16, h. cbn [nth Nat.add ip_hdr app]. rewrite lwip_htons_eq by (unfold le16; word_div). unfold le16. word_div.
Qed.
Lemma hdr_hl : IPH_HL h = 5.
Proof. reflexivity. Qed.
Lemma hdr_offset : IPH_OFFSET h = lwip_htons off.
Proof using Hoff. clear Hlen Hsrc Hdest. rewrite lwip_htons_eq by assumption. unfold IPH_OFFSET, field16, le16, h. cbn [nth Nat.add ip_hdr app]. lia. Qed.
End Fields.

(** Folding twice as [ip4_output_if_src] does it. *)
Lemma fold_inline s : 0 <= s <= 0x100000 ->
  let c := u32 ((s >> 16) + (s .& 0xffff)) in u16 (u32 (Z.lnot (u32 ((c >> 16) + c)))) = 65535 - oc_norm s.
Proof.
  intros Hs c. assert (Ec : c = s / 65536 + s mod 65536) by (unfold c; cbits; change (2 ^ 16) with 65536; word_div).
  assert (Hc : 0 <= c <= 65551) by (rewrite Ec; word_div).
  assert (Hn : oc_norm s = oc_norm c).
  { rewrite <- (FOLD_U32T_eq s) in Ec. rewrite Ec. symmetry. apply oc_norm_proper, FOLD_U32T_oc. lia. }
  rewrite Hn. clearbody c. clear Ec Hn. unfold Z.lnot. cbits. change (2 ^ 16) with 65536.
  unfold oc_norm. destruct (Z.eqb_spec c 0) as [->|Hne]; [reflexivity|]. word_div.
Qed.

(** The sum kept while the fields are stored is the checksum of the header. *)
Lemma header_sum_field tos len id ttl proto src dest : is_u8 tos -> is_u16 len -> is_u16 id -> is_u8 ttl -> is_u8 proto ->
  is_u32 src -> is_u32 dest ->
  u16 (header_sum tos len id ttl proto src dest) = rfc1071_field (ip_hdr tos len id 0 ttl proto 0 src dest).
Proof.
  intros Htos Hlen Hid Httl Hproto Hsrc Hdest.
  set (w := word_sum (ip_hdr tos len id 0 ttl proto 0 src dest)).
  assert (Hw : w = (ttl + 256 * proto) + (dest mod 65536) + dest / 65536 + (69 + 256 * tos) + (len / 256 + 256 * (len mod 256)) +
    (id / 256 + 256 * (id mod 256)) + src mod 65536 + src / 65536).
  { unfold w, ip_hdr, put16, put32. cbn [word_sum app]. unfold le16. change (0 / 256) with 0. change (0 mod 256) with 0.
    change (0 / 256 mod 256) with 0. word_div. }
  assert (Hb : 0 <= w <= 0x100000) by (rewrite Hw; word_div).
  unfold rfc1071_field, rfc1071. fold w. rewrite <- (fold_inline w Hb). unfold header_sum, LWIP_MAKE_U16.
  rewrite !lwip_htons_eq by assumption. change (u8 ((4 << 4) .| (IP_HLEN / 4))) with 69.
  rewrite (lor_add ttl (proto << 8) 8), (lor_add 69 (tos << 8) 8); try lia; try (cbits; change (2 ^ 8) with 256; word_div).
  set (c := u32 (_ + (src >> 16))). assert (c = w) as ->; [|reflexivity].
  unfold c. rewrite Hw. cbits. change (2 ^ 16) with 65536. change (2 ^ 8) with 256.
  repeat (rewrite u32_id; [|word_div]). lia.
Qed.

(** ** Packets on the link *)

Section Send.
Context {PMem : PbufMemory} {W : World}.

(** What sending a packet leaves as it was: the memory, all pbufs but for the
    payload pointer and the lengths of the first one, all bytes but those in
    front of its payload. *)
Record touches (m : pst) (p : Z) (m' : pst) : Prop := {
  to_mm : m'.(mm) = m.(mm);
  to_first : exists pl ln tl, m'.(structs) p = (m.(structs) p) <| payload := pl |> <| len := ln |> <| tot_len := tl |>;
  to_other : forall a, a <> p -> m'.(structs) a = m.(structs) a;
  to_data : forall x, ~ p + SIZEOF_STRUCT_PBUF <= x < (m.(structs) p).(payload) -> m'.(data) x = m.(data) x }.

(** The parts of the stack's state that sending does not change. *)
Definition kept (e e' : net) : Prop :=
  e'.(netif_tab) = e.(netif_tab) /\ e'.(netif_list) = e.(netif_list) /\ e'.(netif_default) = e.(netif_default) /\
  e'.(ip_data) = e.(ip_data) /\ e'.(udp) = e.(udp).

Lemma kept_refl e : kept e e.
Proof. now repeat split. Qed.
Lemma kept_trans e1 e2 e3 : kept e1 e2 -> kept e2 e3 -> kept e1 e3.
Proof. unfold kept. intros (-> & -> & -> & -> & ->) (-> & -> & -> & -> & ->). auto. Qed.

(** The interface [ip4_route] chooses, 0 if there is none. *)
Definition route (e : net) (dest : Z) : Z :=
  match find (fun n => route_match dest (e.(netif_tab) n)) e.(netif_list) with
  | Some n => n
  | None =>
      let nf := e.(netif_tab) e.(netif_default) in
      if (e.(netif_default) =? 0) || negb (netif_is_up nf) || negb (netif_is_link_up nf) || ip4_addr_isany_val (netif_ip4_addr nf) then 0
      else e.(netif_default)
  end.

Lemma ip4_route_found s dest : route s.(nt) dest <> 0 -> ip4_route dest s = Ok (route s.(nt) dest, s).
Proof.
  unfold ip4_route, route, onet. rewrite bind_gets. destruct (find _ _); [reflexivity|]. cbv zeta. destruct (_ || _ || _ || _); [now intros []|reflexivity].
Qed.

Lemma ip4_route_none s dest : route s.(nt) dest = 0 -> exists s', ip4_route dest s = Ok (0, s') /\ s'.(pk) = s.(pk) /\ kept s.(nt) s'.(nt) /\
  s'.(nt).(drv) = s.(nt).(drv) /\ s'.(nt).(ip_id) = s.(nt).(ip_id).
Proof.
  unfold ip4_route, route, onet. rewrite bind_gets. destruct (find _ _); [intros ->; exists s; repeat split|]. cbv zeta.
  destruct (_ || _ || _ || _); [|intros ->; exists s; repeat split]. intros _. eexists. split; [reflexivity|]. now repeat split.
Qed.

(** A packet with room for [k] bytes in front of its first pbuf. *)
Record outgoing (k : Z) (m : pst) (p : Z) (l : list Z) : Prop := {
  og_chain : chain m.(structs) p (p :: l);
  og_fresh : ~ In p l;
  og_short : (length l < loop_fuel)%nat;
  og_type : (m.(structs) p).(type) = PBUF_RAM \/ (m.(structs) p).(type) = PBUF_POOL;
  og_ref : (m.(structs) p).(ref) = 1;
  og_len : 0 <= (m.(structs) p).(len) /\ (m.(structs) p).(len) + k < 65536;
  og_tot : 0 <= (m.(structs) p).(tot_len) /\ (m.(structs) p).(tot_len) + k < 65536;
  og_room : p + SIZEOF_STRUCT_PBUF + k <= (m.(structs) p).(payload);
  og_apart : forall a x, In a l -> in_payload m.(structs) a x -> ~ (m.(structs) p).(payload) - k <= x < (m.(structs) p).(payload) }.

Variable NOASSERT : bool.
Variable IPFRAG_FREE : Z.
Variable other_free : Z -> Z -> PB unit.
Variable tcpip_callback_ok : pst -> bool.
Variable netif_output : Z -> Z -> Z -> NM err_t.
(** The packets a driver has sent: interface, next hop or destination, bytes. *)
Variable sent : Drv -> list (Z * Z * list Z).

(** The driver sends the packet. *)
Hypothesis link_sends : forall n p l dest s, chain s.(pk).(structs) p (p :: l) -> (length l < loop_fuel)%nat ->
  (s.(pk).(structs) p).(type) = PBUF_RAM \/ (s.(pk).(structs) p).(type) = PBUF_POOL ->
  exists s' w, netif_output n p dest s = Ok (ERR_OK, s') /\ touches s.(pk) p s'.(pk) /\ s'.(nt) = s.(nt) <| drv := w |> /\
    sent w = sent s.(nt).(drv) ++ [(n, dest, content s.(pk).(structs) s.(pk).(data) (p :: l))].

Abbreviation output_if_src := (ip4_output_if_src NOASSERT IPFRAG_FREE other_free tcpip_callback_ok netif_output).

Lemma net_pb {A B} (m : PB A) (k : A -> NM B) (s : nst) a m' : m s.(pk) = Ok (a, m') -> bind (pb m) k s = k a (s <| pk := m' |>).
Proof. intros E. unfold bind, pb. now rewrite E. Qed.

Lemma net_assert {A} c (k : unit -> NM A) (s : nst) : c = true -> bind (assert NOASSERT c) k s = k tt s.
Proof. intros ->. unfold assert, bind, pb, Pbuf.LWIP_ASSERT. destruct s. now destruct NOASSERT. Qed.

(** The state with other packet bytes. *)
Definition net_data (s : nst) (d : Z -> Z) : nst := s <| pk := s.(pk) <| data := d |> |>.
Lemma net_data_twice s d d' : net_data (net_data s d) d' = net_data s d'.
Proof. reflexivity. Qed.
Lemma data_net_data s d : (net_data s d).(pk).(data) = d.
Proof. reflexivity. Qed.
Lemma net_data_same s : net_data s s.(pk).(data) = s.
Proof. destruct s as [[] ?]. reflexivity. Qed.
Lemma net_store a v {A} (k : unit -> NM A) (s : nst) : bind (store a v) k s = k tt (net_data s (store_list a v s.(pk).(data))).
Proof. reflexivity. Qed.

(** The stores of [ip4_output_if_src], in their order. *)
Lemma header_stored d h tos len id ttl proto chk src dest : is_u16 len -> is_u16 id ->
  load_list (store_list (h + 10) (put16 chk) (store_list (h + 12) (put32 src) (store_list (h + 4) (put16 (lwip_htons id))
    (store_list (h + 6) (put16 0) (store_list (h + 2) (put16 (lwip_htons len)) (store_list (h + 1) [tos] (store_list h [69]
    (store_list (h + 16) (put32 dest) (store_list (h + 9) [proto] (store_list (h + 8) [ttl] d)))))))))) h 20 =
  ip_hdr tos len id 0 ttl proto chk src dest.
Proof.
  intros Hl Hi. unfold ip_hdr. change (0 / 256 :: 0 mod 256 :: ttl :: [proto]) with (put16 0 ++ [ttl] ++ [proto]).
  change (?a :: ?b :: ?c :: ?d :: ?e :: ?f :: ?l) with ([a] ++ [b] ++ [c; d] ++ [e; f] ++ l).
  rewrite <- !put16_htons by assumption. rewrite <- !app_assoc.
  assert (L16 : forall v, length (put16 v) = 2%nat) by reflexivity. assert (L32 : forall v, length (put32 v) = 4%nat) by reflexivity.
  change 20 with (1 + (1 + (2 + (2 + (2 + (1 + (1 + (2 + (4 + 4))))))))). rewrite !load_app by lia.
  replace (h + 1 + 1) with (h + 2) by lia. replace (h + 2 + 2) with (h + 4) by lia. replace (h + 4 + 2) with (h + 6) by lia.
  replace (h + 6 + 2) with (h + 8) by lia. replace (h + 8 + 1) with (h + 9) by lia. replace (h + 9 + 1) with (h + 10) by lia.
  replace (h + 10 + 2) with (h + 12) by lia. replace (h + 12 + 4) with (h + 16) by lia.
  repeat match goal with |- load_list _ _ _ ++ _ = _ ++ _ => f_equal end;
    rewrite ?load_store_other by (rewrite ?L16, ?L32; cbn [length]; lia); apply load_stored; rewrite ?L16, ?L32; reflexivity.
Qed.

(** The bytes of a packet that got a header of [k] bytes. *)
Lemma content_prepend k m p l f1 d : 0 <= k -> outgoing k m p l ->
  (f1 p).(payload) = (m.(structs) p).(payload) - k -> (f1 p).(len) = (m.(structs) p).(len) + k ->
  (forall a, a <> p -> f1 a = m.(structs) a) ->
  (forall x, ~ (m.(structs) p).(payload) - k <= x < (m.(structs) p).(payload) -> d x = m.(data) x) ->
  content f1 d (p :: l) = load_list d ((m.(structs) p).(payload) - k) k ++ content m.(structs) m.(data) (p :: l).
Proof.
  intros Hk [Hc Hni Hsh Ht Hr [Hl0 Hl] Htot Hroom Hap] Ep El Ho Hd.
  change (content f1 d (p :: l)) with (load_list d (f1 p).(payload) (f1 p).(len) ++ content f1 d l).
  change (content m.(structs) m.(data) (p :: l)) with
    (load_list m.(data) (m.(structs) p).(payload) (m.(structs) p).(len) ++ content m.(structs) m.(data) l).
  rewrite Ep, El, (Z.add_comm _ k), load_app, <- app_assoc by lia. f_equal. f_equal.
  - replace (payload (structs m p) - k + k) with (payload (structs m p)) by lia. apply load_ext. intros x Hx. apply Hd. lia.
  - unfold content. f_equal. apply map_ext_in. intros a Ha. rewrite Ho by (intros ->; contradiction). apply load_ext.
    intros x Hx. apply Hd. exact (Hap a x Ha Hx).
Qed.

Lemma outgoing_less k k' m p l : k' <= k -> outgoing k m p l -> outgoing k' m p l.
Proof.
  intros Hk [H1 H2 H3 H4 H5 H6 H7 H8 H9]. split; auto; try lia. intros a x Ha Hx Hin. apply (H9 a x Ha Hx). lia.
Qed.

(** With [j] of the [k + j] bytes of room used for a header. *)
Lemma outgoing_header k j m p l m1 d : 0 <= j -> outgoing (k + j) m p l ->
  m1.(structs) p = (m.(structs) p) <| payload := (m.(structs) p).(payload) - j |> <| len := (m.(structs) p).(len) + j |>
      <| tot_len := (m.(structs) p).(tot_len) + j |> ->
  (forall a, a <> p -> m1.(structs) a = m.(structs) a) -> outgoing k (m1 <| data := d |>) p l.
Proof.
  intros Hj [H1 H2 H3 H4 H5 H6 H7 H8 H9] Hs Ho. split; cbn [structs with_field]; rewrite ?Hs; cbn [type ref len tot_len payload with_field]; auto; try lia.
  - apply (chain_ext (structs m)); [|assumption]. intros a _. destruct (Z.eq_dec a p) as [->|Hne]; [rewrite Hs|rewrite Ho by assumption]; reflexivity.
  - intros a x Ha Hx Hin. unfold in_payload in Hx. rewrite Ho in Hx by (intros ->; contradiction). apply (H9 a x Ha Hx). lia.
Qed.

Lemma touches_trans m p m1 m2 k : touches m p m1 -> touches m1 p m2 ->
  (m1.(structs) p).(payload) = (m.(structs) p).(payload) - k -> 0 <= k -> touches m p m2.
Proof.
  intros [A1 (a & b & c & A2) A3 A4] [B1 (d & e & g & B2) B3 B4] Hk H0. split.
  - congruence.
  - exists d, e, g. rewrite B2, A2. reflexivity.
  - intros x Hx. rewrite B3, A3; auto.
  - intros x Hx. rewrite B4, A4; [reflexivity|exact Hx|lia].
Qed.

(** Writing into the room in front of the payload. *)
Lemma touches_header m p m1 d k : m1.(mm) = m.(mm) -> 0 <= k -> p + SIZEOF_STRUCT_PBUF + k <= (m.(structs) p).(payload) ->
  m1.(structs) p = (m.(structs) p) <| payload := (m.(structs) p).(payload) - k |> <| len := (m.(structs) p).(len) + k |>
      <| tot_len := (m.(structs) p).(tot_len) + k |> ->
  (forall a, a <> p -> m1.(structs) a = m.(structs) a) ->
  (forall x, ~ (m.(structs) p).(payload) - k <= x < (m.(structs) p).(payload) -> d x = m.(data) x) ->
  touches m p (m1 <| data := d |>).
Proof.
  intros Hm Hk Hr Hs Ho Hd. split; [exact Hm|do 3 eexists; exact Hs|exact Ho|]. intros x Hx. apply Hd. lia.
Qed.

(** The end of the output functions, when the packet fits. *)
Lemma transmit_sends s p l n dest : chain s.(pk).(structs) p (p :: l) -> (length l < loop_fuel)%nat ->
  (s.(pk).(structs) p).(type) = PBUF_RAM \/ (s.(pk).(structs) p).(type) = PBUF_POOL ->
  (s.(nt).(netif_tab) n).(if_mtu) = 0 \/ (s.(pk).(structs) p).(tot_len) <= (s.(nt).(netif_tab) n).(if_mtu) ->
  exists s', transmit NOASSERT IPFRAG_FREE other_free tcpip_callback_ok netif_output p n dest s = Ok (ERR_OK, s') /\
    touches s.(pk) p s'.(pk) /\ kept s.(nt) s'.(nt) /\ s'.(nt).(ip_id) = s.(nt).(ip_id) /\
    sent s'.(nt).(drv) = sent s.(nt).(drv) ++ [(n, dest, content s.(pk).(structs) s.(pk).(data) (p :: l))].
Proof.
  intros Hc Hsh Ht Hm. unfold transmit, IP_STATS, mnet. rewrite bind_modify. set (s1 := s <| nt := _ |>).
  unfold netif_at, onet, pbuf_at. rewrite !bind_gets. change (netif_tab (nt s1)) with (netif_tab (nt s)). change (pk s1) with (pk s).
  replace (_ && _) with false.
  2:{ symmetry. apply andb_false_iff. destruct Hm as [->|Hm]; [now left|right]. rewrite Z.gtb_ltb. now apply Z.ltb_ge. }
  destruct (link_sends n p l dest s1 Hc Hsh Ht) as (s' & w & E & Htc & Hn & Hs). exists s'. split; [exact E|].
  split; [exact Htc|]. rewrite Hn. split; [now repeat split|]. split; [reflexivity|]. exact Hs.
Qed.

(** [ip4_output_if_src] puts the packet on the link behind an IP header. *)
Lemma output_if_src_sends s p l src dest ttl tos proto n : outgoing 20 s.(pk) p l ->
  is_u8 tos -> is_u8 ttl -> is_u8 proto -> is_u32 src -> is_u32 dest -> is_u16 s.(nt).(ip_id) ->
  (s.(nt).(netif_tab) n).(if_mtu) = 0 \/ (s.(pk).(structs) p).(tot_len) + 20 <= (s.(nt).(netif_tab) n).(if_mtu) ->
  exists s', output_if_src p (Some src) (Some dest) ttl tos proto n s = Ok (ERR_OK, s') /\
    touches s.(pk) p s'.(pk) /\ kept s.(nt) s'.(nt) /\ s'.(nt).(ip_id) = u16 (s.(nt).(ip_id) + 1) /\
    sent s'.(nt).(drv) = sent s.(nt).(drv) ++
      [(n, dest, ip_header tos ((s.(pk).(structs) p).(tot_len) + 20) s.(nt).(ip_id) 0 ttl proto src dest ++
                 content s.(pk).(structs) s.(pk).(data) (p :: l))].
Proof.
  intros Hout Htos Httl Hproto Hsrc Hdest Hid Hmtu. pose proof Hout as [Hc Hni Hsh Ht Hr Hl Htot Hroom Hap].
  destruct (chain_nonnull _ _ _ _ Hc) as [_ Hp0]. apply Z.eqb_neq in Hp0. unfold ip4_output_if_src, pbuf_at. rewrite bind_gets.
  rewrite net_assert by (now rewrite Hr).
  destruct (pbuf_header_show NOASSERT s.(pk) p IP_HLEN) as (m1 & E & Hm & Hd & Hs & Ho); try (unfold IP_HLEN; assumption || lia).
  rewrite (net_pb _ _ _ _ _ E). change (negb (0 =? 0)) with false. cbv iota. set (s1 := s <| pk := m1 |>). rewrite bind_gets.
  change (pk s1) with m1. rewrite Hs. cbn [payload len tot_len with_field]. set (h := payload (structs (pk s) p) - IP_HLEN). set (T := tot_len (structs (pk s) p) + IP_HLEN).
  rewrite net_assert by (apply Z.geb_le; unfold IP_HLEN; lia). change (u8 ((4 << 4) .| (IP_HLEN / 4))) with 69.
  do 7 (rewrite net_store, ?net_data_twice, ?data_net_data). unfold onet. rewrite bind_gets.
  change (nt (net_data s1 _)) with (nt s). rewrite net_store, net_data_twice, data_net_data. unfold mnet. rewrite bind_modify.
  set (s2 := _ <| nt := _ |>). rewrite net_store. change (data (pk s2)) with
    (store_list (h + 4) (put16 (lwip_htons (ip_id (nt s)))) (store_list (h + 6) (put16 0) (store_list (h + 2) (put16 (lwip_htons T)) (store_list (h + 1) [tos] (store_list h [69]
    (store_list (h + 16) (put32 dest) (store_list (h + 9) [proto] (store_list (h + 8) [ttl] m1.(data))))))))).
  rewrite net_store, net_data_twice, data_net_data. assert (HT : is_u16 T) by (unfold T, IP_HLEN; word_lia).
  rewrite header_sum_field by assumption. set (D := store_list (h + 10) _ _).
  assert (HD : load_list D h 20 = ip_header tos T (ip_id (nt s)) 0 ttl proto src dest) by (apply header_stored; assumption).
  assert (HD2 : forall x, ~ h <= x < h + 20 -> D x = (pk s).(data) x) by (intros x Hx; unfold D; rewrite !store_other by (cbn [length put16 put32]; lia); now rewrite Hd).
  clearbody D. assert (Hh : h = payload (structs (pk s) p) - 20) by reflexivity.
  destruct (transmit_sends (net_data s2 D) p l n dest) as (s' & E' & Htc & Hk & Hi & Hsent).
  - apply (chain_ext (structs (pk s))); [|assumption]. intros a _. change (structs (pk (net_data s2 D))) with (structs m1).
    destruct (Z.eq_dec a p) as [->|Hne]; [rewrite Hs|rewrite Ho by assumption]; reflexivity.
  - exact Hsh.
  - change (structs (pk (net_data s2 D))) with (structs m1). rewrite Hs. exact Ht.
  - change (structs (pk (net_data s2 D))) with (structs m1). rewrite Hs. exact Hmtu.
  - exists s'. split; [exact E'|]. change (pk (net_data s2 D)) with (m1 <| data := D |>) in *.
    split; [|split; [|split; [exact Hi|]]].
    + apply (touches_trans (pk s) p (m1 <| data := D |>) (pk s') 20); [|exact Htc| |lia].
      * apply (touches_header _ _ _ _ 20); auto; [lia|]. intros x Hx. apply HD2. rewrite Hh. lia.
      * cbn [structs with_field]. now rewrite Hs.
    + exact Hk.
    + rewrite Hsent. change (drv (nt (net_data s2 D))) with (drv (nt s)). do 3 f_equal. cbn [structs data with_field].
      rewrite (content_prepend 20 (pk s) p l m1.(structs) D); [|lia|exact Hout|now rewrite Hs|now rewrite Hs|exact Ho|intros x Hx; apply HD2; rewrite Hh; lia].
      rewrite <- Hh, HD. reflexivity.
Qed.
End Send.
