(* ===== verification/Icmp.v ===== *)
(** * ICMP (lwip/src/core/ipv4/icmp.c)

    Echo requests are answered in the buffer they came in, or in a copy with
    room for the link header; the error messages quote the packet they are
    about.  Configuration of opt.h: LWIP_MULTICAST_PING and LWIP_BROADCAST_PING
    are 0, LWIP_ICMP_ECHO_CHECK_INPUT_PBUF_LEN is 1. *)

From Stdlib Require Import ZArith List Lia Bool Permutation.
From S2P Require Import Prelude Def Chksum Ip4Addr Mem PbufMem Pbuf Ip4Frag UdpPcb Ip4Out.
Import ListNotations.
Open Scope Z_scope.
Open Scope c_scope.

Definition ICMP_ER := 0.
Definition ICMP_DUR := 3.
Definition ICMP_ECHO := 8.
Definition ICMP_TE := 11.
Definition ICMP_TTL := 255.
Definition SIZEOF_ICMP_ECHO_HDR := 8.
Definition ICMP_DEST_UNREACH_DATASIZE := 8.

(** [enum icmp_dur_type] and [enum icmp_te_type] *)
Inductive icmp_dur_type :=
| ICMP_DUR_NET | ICMP_DUR_HOST | ICMP_DUR_PROTO | ICMP_DUR_PORT | ICMP_DUR_FRAG | ICMP_DUR_SR.
Inductive icmp_te_type := ICMP_TE_TTL | ICMP_TE_FRAG.
Definition dur_code (t : icmp_dur_type) : Z :=
  match t with
  | ICMP_DUR_NET => 0 | ICMP_DUR_HOST => 1 | ICMP_DUR_PROTO => 2 | ICMP_DUR_PORT => 3 | ICMP_DUR_FRAG => 4 | ICMP_DUR_SR => 5
  end.
Definition te_code (t : icmp_te_type) : Z := match t with ICMP_TE_TTL => 0 | ICMP_TE_FRAG => 1 end.

Section Icmp.
Context {PMem : PbufMemory} {W : World}.
Variable NOASSERT : bool.
Variable IPFRAG_FREE : Z.
Variable other_free : Z -> Z -> PB unit.
Variable tcpip_callback_ok : pst -> bool.
Variable netif_output : Z -> Z -> Z -> NM err_t.

Abbreviation assert := (assert NOASSERT).
Abbreviation free := (free NOASSERT IPFRAG_FREE other_free).
Abbreviation alloc := (alloc NOASSERT IPFRAG_FREE other_free tcpip_callback_ok).
Abbreviation ip4_output_if := (ip4_output_if NOASSERT IPFRAG_FREE other_free tcpip_callback_ok netif_output).

(** ** Error messages *)

Definition icmp_send_response (p type code : Z) : NM unit :=
  do q <- alloc PBUF_IP (SIZEOF_ICMP_ECHO_HDR + IP_HLEN + ICMP_DEST_UNREACH_DATASIZE) PBUF_RAM;
  if q =? 0 then ret tt else
  do qb <- pbuf_at q;
  assert (qb.(len) >=? SIZEOF_ICMP_ECHO_HDR + IP_HLEN + ICMP_DEST_UNREACH_DATASIZE) ;;
  do b <- pbuf_at p;
  let iphdr := b.(payload) in
  let icmphdr := qb.(payload) in
  store icmphdr [type] ;;
  store (icmphdr + 1) [code] ;;
  store (icmphdr + 4) (put16 0) ;;
  store (icmphdr + 6) (put16 0) ;;
  do quoted <- load iphdr (IP_HLEN + ICMP_DEST_UNREACH_DATASIZE);
  store (icmphdr + SIZEOF_ICMP_ECHO_HDR) quoted ;;
  do h <- load iphdr IP_HLEN;
  let iphdr_src := iph_src h in
  do n <- ip4_route iphdr_src;
  (when negb (n =? 0) then
    (store (icmphdr + 2) (put16 0) ;;
     do l <- load icmphdr qb.(len);
     store (icmphdr + 2) (put16 (inet_chksum icmphdr l)) ;;
     ICMP_STATS inc_xmit ;;
     ip4_output_if q None (Some iphdr_src) ICMP_TTL 0 IP_PROTO_ICMP n ;; ret tt)) ;;
  free q.

Definition icmp_dest_unreach (p : Z) (t : icmp_dur_type) : NM unit := icmp_send_response p ICMP_DUR (dur_code t).
Definition icmp_time_exceeded (p : Z) (t : icmp_te_type) : NM unit := icmp_send_response p ICMP_TE (te_code t).

(** ** Input *)

Definition lenerr (p : Z) : NM unit := free p ;; ICMP_STATS inc_lenerr.
Definition icmperr (p : Z) : NM unit := free p ;; ICMP_STATS inc_err.

(** The request moved to a buffer with room for the link header; None after
    [goto icmperr]. *)
Definition room_for_link (p iphdr_in hlen : Z) : NM (option Z) :=
  do r <- pb (pbuf_header NOASSERT p (hlen + PBUF_LINK_HLEN + PBUF_LINK_ENCAPSULATION_HLEN));
  if negb (r =? 0) then
    do b <- pbuf_at p;
    do r <- alloc PBUF_LINK (u16 (b.(tot_len) + hlen)) PBUF_RAM;
    if r =? 0 then icmperr p ;; ret None else
    do rb <- pbuf_at r;
    if rb.(len) <? hlen + SIZEOF_ICMP_ECHO_HDR then free r ;; icmperr p ;; ret None else
    do h <- load iphdr_in hlen;
    store rb.(payload) h ;;
    do e <- pb (pbuf_header NOASSERT r (- hlen));
    if negb (e =? 0) then assert false ;; free r ;; icmperr p ;; ret None else
    do e <- pb (pbuf_copy NOASSERT loop_fuel r p);
    match e with
    | ERR_OK => free p ;; ret (Some r)
    | _ => free r ;; icmperr p ;; ret None
    end
  else
    do e <- pb (pbuf_header NOASSERT p (- (hlen + PBUF_LINK_HLEN + PBUF_LINK_ENCAPSULATION_HLEN)));
    if negb (e =? 0) then assert false ;; icmperr p ;; ret None else ret (Some p).

(** The answer in place of the request. *)
Definition echo_reply (p hlen src inp : Z) : NM unit :=
  do b <- pbuf_at p;
  let iecho := b.(payload) in
  do r <- pb (pbuf_header NOASSERT p hlen);
  if negb (r =? 0) then ret tt else
  do b <- pbuf_at p;
  let iphdr := b.(payload) in
  store (iphdr + 12) (put32 src) ;;
  do g <- onet ip_data;
  store (iphdr + 16) (put32 g.(current_iphdr_src)) ;;
  store iecho [ICMP_ER] ;;
  do c <- load16 (iecho + 2);
  (if c >? PP_HTONS (0xffff - (ICMP_ECHO << 8)) then store (iecho + 2) (put16 (u16 (c + (PP_HTONS (ICMP_ECHO << 8) + 1))))
   else store (iecho + 2) (put16 (u16 (c + PP_HTONS (ICMP_ECHO << 8))))) ;;
  store (iphdr + 8) [ICMP_TTL] ;;
  store (iphdr + 10) (put16 0) ;;
  do h <- load iphdr hlen;
  store (iphdr + 10) (put16 (inet_chksum iphdr h)) ;;
  ICMP_STATS inc_xmit ;;
  ip4_output_if p (Some src) None ICMP_TTL 0 IP_PROTO_ICMP inp ;;
  ret tt.

(** The case ICMP_ECHO. *)
Definition icmp_echo (p inp iphdr_in hlen : Z) : NM unit :=
  do g <- onet ip_data;
  let src := g.(current_iphdr_dest) in
  if ip4_addr_ismulticast src then icmperr p else
  do nf <- netif_at g.(current_netif);
  if negb (ip4_addr_isbroadcast_u32 src nf.(if4) =? 0) then icmperr p else
  do b <- pbuf_at p;
  if b.(tot_len) <? SIZEOF_ICMP_ECHO_HDR then lenerr p else
  do l <- segs loop_fuel p;
  if negb (inet_chksum_pbuf l =? 0) then free p ;; ICMP_STATS inc_chkerr else
  do r <- room_for_link p iphdr_in hlen;
  match r with
  | None => ret tt
  | Some p => echo_reply p hlen src inp ;; free p
  end.

Definition icmp_input (p inp : Z) : NM unit :=
  ICMP_STATS inc_recv ;;
  do g <- onet ip_data;
  let iphdr_in := g.(current_ip4_header) in
  do v <- load8 iphdr_in;
  let hlen := (v .& 0x0f) * 4 in
  if hlen <? IP_HLEN then lenerr p else
  do b <- pbuf_at p;
  if b.(len) <? 4 then lenerr p else
  do type <- load8 b.(payload);
  if type =? ICMP_ER then free p
  else if type =? ICMP_ECHO then icmp_echo p inp iphdr_in hlen
  else
    ICMP_STATS inc_proterr ;;
    ICMP_STATS inc_drop ;;
    free p.
End Icmp.
