(* ===== verification/Udp.v ===== *)
(** * UDP: sending and receiving (lwip/src/core/udp.c)

    On the control blocks of UdpPcb.v and the output functions of Ip4Out.v.  The
    [recv] callback of a control block is a section variable.  Configuration of
    opt.h: IPv4 only, LWIP_UDPLITE, SO_REUSE, IP_SOF_BROADCAST,
    IP_SOF_BROADCAST_RECV, LWIP_IGMP, LWIP_MULTICAST_TX_OPTIONS and
    LWIP_CHECKSUM_ON_COPY are 0, checksums are generated and checked. *)

From Stdlib Require Import ZArith List Lia Bool Permutation.
From S2P Require Import Prelude Def Chksum Ip4Addr Mem PbufMem Pbuf Ip4Frag UdpPcb Ip4Out Icmp.
Import ListNotations.
Open Scope Z_scope.
Open Scope c_scope.

Definition UDP_HLEN := 8.

(** An [ip_addr_t] of the IPv4-only configuration, for the checksum functions. *)
Definition v4 (a : Z) : ip_addr_t := mk_ip_addr [a] 0.

Section Udp.
Context {PMem : PbufMemory} {W : World}.
Variable NOASSERT : bool.
Variable IPFRAG_FREE : Z.
Variable other_free : Z -> Z -> PB unit.
Variable tcpip_callback_ok : pst -> bool.
Variable netif_output : Z -> Z -> Z -> NM err_t.
(** [pcb->recv(recv_arg, pcb, p, addr, port)]; the first argument is [recv]. *)
Variable recv_callback : Z -> Z -> Z -> Z -> Z -> Z -> NM unit.

Abbreviation assert := (assert NOASSERT).
Abbreviation free := (free NOASSERT IPFRAG_FREE other_free).
Abbreviation alloc := (alloc NOASSERT IPFRAG_FREE other_free tcpip_callback_ok).
Abbreviation ip4_output_if_src := (ip4_output_if_src NOASSERT IPFRAG_FREE other_free tcpip_callback_ok netif_output).
Abbreviation icmp_dest_unreach := (icmp_dest_unreach NOASSERT IPFRAG_FREE other_free tcpip_callback_ok netif_output).

(** An operation of UdpPcb.v. *)
Definition up {A} (m : UM A) : NM A := fun s =>
  match m s.(nt).(udp) with
  | Ok (a, u) => Ok (a, s <| nt := s.(nt) <| udp := u |> |>)
  | Halt => Halt
  | Hang => Hang
  end.

(** ** Input *)

(** [dest] is the destination of the current packet, [mask] the netmask of the
    interface it came in through. *)
Definition udp_input_local_match (b : udp_pcb) (dest mask : Z) (broadcast : bool) : bool :=
  if broadcast then
    ip4_addr_isany_val b.(local_ip) || (dest =? IPADDR_BROADCAST) || ip4_addr_netcmp b.(local_ip) dest mask
  else ip4_addr_isany_val b.(local_ip) || (b.(local_ip) =? dest).

(** The loop over the control blocks: those in [seen] (the last one first) were
    passed; the result is the control block for the packet, 0 if there is none.
    A fully matching one moves to the front of the list. *)
Fixpoint demux (l seen : list Z) (uncon_pcb src dest dest_ip src_ip mask : Z) (broadcast : bool) : NM Z :=
  match l with
  | [] => ret uncon_pcb
  | pcb :: rest =>
      do b <- up (pcb_at pcb);
      if (b.(local_port) =? dest) && udp_input_local_match b dest_ip mask broadcast then
        let uncon_pcb := if (b.(uflags) .& UDP_FLAGS_CONNECTED =? 0) && (uncon_pcb =? 0) then pcb else uncon_pcb in
        if (b.(remote_port) =? src) && (ip4_addr_isany_val b.(remote_ip) || (b.(remote_ip) =? src_ip)) then
          (match seen with
           | [] => UDP_STATS inc_cachehit
           | _ => up (set_pcbs (fun _ => pcb :: rev seen ++ rest))
           end) ;;
          ret pcb
        else demux rest (pcb :: seen) uncon_pcb src dest dest_ip src_ip mask broadcast
      else demux rest (pcb :: seen) uncon_pcb src dest dest_ip src_ip mask broadcast
  end.

(** No control block, but the packet is for the interface. *)
Definition no_port (p : Z) (broadcast : bool) : NM unit :=
  do g <- onet ip_data;
  (when negb broadcast && negb (ip4_addr_ismulticast g.(current_iphdr_dest)) then
    (pb (pbuf_header_force NOASSERT p (g.(current_ip_header_tot_len) + UDP_HLEN)) ;;
     icmp_dest_unreach p ICMP_DUR_PORT)) ;;
  UDP_STATS inc_proterr ;;
  UDP_STATS inc_drop ;;
  free p.

(** The packet without its header to the control block. *)
Definition deliver (pcb p src : Z) (broadcast : bool) : NM unit :=
  do r <- pb (pbuf_header NOASSERT p (- UDP_HLEN));
  if negb (r =? 0) then assert false ;; UDP_STATS inc_drop ;; free p else
  if negb (pcb =? 0) then
    do b <- up (pcb_at pcb);
    do g <- onet ip_data;
    if negb (b.(recv) =? 0) then recv_callback b.(recv) b.(recv_arg) pcb p g.(current_iphdr_src) src
    else free p
  else no_port p broadcast.

Definition udp_input (p inp : Z) : NM unit :=
  UDP_STATS inc_recv ;;
  do b <- pbuf_at p;
  if b.(len) <? UDP_HLEN then UDP_STATS inc_lenerr ;; UDP_STATS inc_drop ;; free p else
  let udphdr := b.(payload) in
  do g <- onet ip_data;
  do cur <- netif_at g.(current_netif);
  let broadcast := negb (ip4_addr_isbroadcast_u32 g.(current_iphdr_dest) cur.(if4) =? 0) in
  do src <- load16 udphdr;
  do dest <- load16 (udphdr + 2);
  let src := lwip_htons src in
  let dest := lwip_htons dest in
  do nf <- netif_at inp;
  do l <- onet (fun e => e.(udp).(udp_pcbs));
  do pcb <- demux l [] 0 src dest g.(current_iphdr_dest) g.(current_iphdr_src) (netif_ip4_netmask nf) broadcast;
  let for_us := negb (pcb =? 0) || (netif_ip4_addr nf =? g.(current_iphdr_dest)) in
  if for_us then
    do chksum <- load16 (udphdr + 6);
    do ok <-
      (if negb (chksum =? 0) then
         do l <- segs loop_fuel p;
         do b <- pbuf_at p;
         ret (ip_chksum_pseudo l IP_PROTO_UDP b.(tot_len) (v4 g.(current_iphdr_src)) (v4 g.(current_iphdr_dest)) =? 0)
       else ret true);
    if negb ok then UDP_STATS inc_chkerr ;; UDP_STATS inc_drop ;; free p
    else deliver pcb p src broadcast
  else free p.

(** ** Output *)

(** Checksum and IP: [q] holds the header, filled in but for the checksum. *)
Definition send_datagram (pcb q udphdr n src_ip dst_ip : Z) : NM err_t :=
  do b <- up (pcb_at pcb);
  (when b.(uflags) .& UDP_FLAGS_NOCHKSUM =? 0 then
    (do l <- segs loop_fuel q;
     do qb <- pbuf_at q;
     let udpchksum := ip_chksum_pseudo l IP_PROTO_UDP qb.(tot_len) (v4 src_ip) (v4 dst_ip) in
     store (udphdr + 6) (put16 (if udpchksum =? 0 then 0xffff else udpchksum)))) ;;
  ip4_output_if_src q (Some src_ip) (Some dst_ip) b.(ttl) b.(tos) IP_PROTO_UDP n.

(** [dst_ip] is None for NULL. *)
Definition udp_sendto_if_src (pcb p : Z) (dst_ip : option Z) (dst_port n src_ip : Z) : NM err_t :=
  match dst_ip with
  | None => ret ERR_VAL
  | Some dst_ip =>
      if pcb =? 0 then ret ERR_VAL else
      do b <- up (pcb_at pcb);
      do err <- (if b.(local_port) =? 0 then up (udp_bind pcb (Some b.(local_ip)) b.(local_port)) else ret ERR_OK);
      match err with
      | ERR_OK =>
          do r <- pb (pbuf_header NOASSERT p UDP_HLEN);
          do q <-
            (if negb (r =? 0) then
               do q <- alloc PBUF_IP UDP_HLEN PBUF_RAM;
               if q =? 0 then ret 0 else
               do b <- pbuf_at p;
               (when negb (b.(tot_len) =? 0) then pb (pbuf_chain NOASSERT loop_fuel q p)) ;;
               ret q
             else ret p);
          if q =? 0 then ret ERR_MEM else
          do qb <- pbuf_at q;
          assert (qb.(len) >=? UDP_HLEN) ;;
          let udphdr := qb.(payload) in
          do b <- up (pcb_at pcb);
          store udphdr (put16 (lwip_htons b.(local_port))) ;;
          store (udphdr + 2) (put16 (lwip_htons dst_port)) ;;
          store (udphdr + 6) (put16 0) ;;
          store (udphdr + 4) (put16 (lwip_htons qb.(tot_len))) ;;
          do err <- send_datagram pcb q udphdr n src_ip dst_ip;
          (when negb (q =? p) then free q) ;;
          UDP_STATS inc_xmit ;;
          ret err
      | _ => ret err
      end
  end.

Definition udp_sendto_if (pcb p : Z) (dst_ip : option Z) (dst_port n : Z) : NM err_t :=
  match dst_ip with
  | None => ret ERR_VAL
  | Some _ =>
      if pcb =? 0 then ret ERR_VAL else
      do b <- up (pcb_at pcb);
      do nf <- netif_at n;
      if ip4_addr_isany_val b.(local_ip) || ip4_addr_ismulticast b.(local_ip) then
        udp_sendto_if_src pcb p dst_ip dst_port n (netif_ip4_addr nf)
      else if negb (b.(local_ip) =? netif_ip4_addr nf) then ret ERR_VAL
      else udp_sendto_if_src pcb p dst_ip dst_port n b.(local_ip)
  end.

Definition udp_sendto (pcb p : Z) (dst_ip : option Z) (dst_port : Z) : NM err_t :=
  match dst_ip with
  | None => ret ERR_VAL
  | Some d =>
      if pcb =? 0 then ret ERR_VAL else
      do n <- ip4_route d;
      if n =? 0 then UDP_STATS inc_rterr ;; ret ERR_RTE
      else udp_sendto_if pcb p dst_ip dst_port n
  end.

Definition udp_send (pcb p : Z) : NM err_t :=
  if pcb =? 0 then ret ERR_VAL else
  do b <- up (pcb_at pcb);
  udp_sendto pcb p (Some b.(remote_ip)) b.(remote_port).
End Udp.
