(* ===== verification/UdpProto.v ===== *)
(** * UDP datagrams from host to host

    Which control block gets a datagram; the packet [udp_sendto] puts on the
    link; what [ip4_input] and [udp_input] make of such a packet. *)

From Stdlib Require Import ZArith List Lia Bool Permutation.
From S2P Require Import Prelude Def Chksum Ip4Addr Mem PbufMem Pbuf PbufCopy Ip4Frag UdpPcb Ip4Out Packet Ip4Send Icmp Udp.
Import ListNotations.
Open Scope Z_scope.
Open Scope c_scope.

Section Demux.
Context {PMem : PbufMemory} {W : World}.

Variables (src dest dest_ip src_ip mask : Z) (broadcast : bool).

(** The control block is bound to the destination; it is also connected to the
    source. *)
Definition bound_to (b : udp_pcb) : bool := (b.(local_port) =? dest) && udp_input_local_match b dest_ip mask broadcast.
Definition full_match (b : udp_pcb) : bool :=
  bound_to b && ((b.(remote_port) =? src) && (ip4_addr_isany_val b.(remote_ip) || (b.(remote_ip) =? src_ip))).
Definition unconnected (b : udp_pcb) : bool := bound_to b && (b.(uflags) .& UDP_FLAGS_CONNECTED =? 0).

(** The receiver: the first full match, else the first control block that is
    not connected, else none. *)
Definition receiver (f : Z -> udp_pcb) (l : list Z) : Z :=
  match find (fun p => full_match (f p)) l with
  | Some p => p
  | None => match find (fun p => unconnected (f p)) l with Some p => p | None => 0 end
  end.
(** The list afterwards: a full match is at the front. *)
Definition list_after (f : Z -> udp_pcb) (l : list Z) : list Z :=
  match find (fun p => full_match (f p)) l with
  | Some p => p :: unlink p l
  | None => l
  end.

(** What [demux] may change: the order of the list, a statistic. *)
Definition after_demux (s s' : nst) (l : list Z) : Prop :=
  s'.(pk) = s.(pk) /\ exists t, s'.(nt) = s.(nt) <| udp := s.(nt).(udp) <| udp_pcbs := l |> |> <| udp_stats := t |>.

Lemma unlink_app p l1 l2 : ~ In p l1 -> unlink p (l1 ++ p :: l2) = l1 ++ l2.
Proof.
  induction l1 as [|a l1 IH]; intros H; cbn [app unlink]; [now rewrite Z.eqb_refl|].
  destruct (Z.eqb_spec a p) as [->|]; [exfalso; apply H; now left|]. f_equal. apply IH. intros Hi. apply H. now right.
Qed.

Lemma demux_step (f : Z -> udp_pcb) pcb l seen u (s : nst) : f = s.(nt).(udp).(pcbs) ->
  demux (pcb :: l) seen u src dest dest_ip src_ip mask broadcast s =
  let u' := if unconnected (f pcb) && (u =? 0) then pcb else u in
  if full_match (f pcb) then
    ((match seen with [] => UDP_STATS inc_cachehit | _ => up (set_pcbs (fun _ => pcb :: rev seen ++ l)) end) ;; ret pcb) s
  else demux l (pcb :: seen) u' src dest dest_ip src_ip mask broadcast s.
Proof.
  intros ->. cbn [demux]. assert (Hup : up (pcb_at pcb) s = Ok (s.(nt).(udp).(pcbs) pcb, s)) by (destruct s as [m []]; reflexivity).
  rewrite (bind_ok _ _ _ _ _ Hup). unfold unconnected, full_match. fold (bound_to (pcbs (udp (nt s)) pcb)).
  destruct (bound_to _); cbn [andb]; [|reflexivity]. destruct ((remote_port _ =? src) && _); reflexivity.
Qed.

Lemma demux_from (f : Z -> udp_pcb) (s : nst) : f = s.(nt).(udp).(pcbs) -> forall l seen u, ~ In 0 l ->
  s.(nt).(udp).(udp_pcbs) = rev seen ++ l -> exists s',
  demux l seen u src dest dest_ip src_ip mask broadcast s =
    Ok (match find (fun p => full_match (f p)) l with
        | Some p => p
        | None => if u =? 0 then match find (fun p => unconnected (f p)) l with Some p => p | None => 0 end else u
        end, s') /\
  after_demux s s' (match find (fun p => full_match (f p)) l with
                    | Some p => p :: rev seen ++ unlink p l
                    | None => rev seen ++ l
                    end).
Proof.
  intros Hf l. assert (Hsame : forall s0 : nst, after_demux s0 s0 s0.(nt).(udp).(udp_pcbs)).
  { intros s0. split; [reflexivity|]. exists s0.(nt).(udp_stats). destruct s0 as [m [? ? ? ? ? ? ? ? ? [] ?]]. reflexivity. }
  induction l as [|pcb l IH]; intros seen u H0 Hl.
  - exists s. cbn [demux find]. specialize (Hsame s). rewrite Hl in Hsame. split; [|exact Hsame]. unfold ret. destruct (Z.eqb_spec u 0) as [->|]; reflexivity.
  - rewrite (demux_step f) by assumption. cbn [find]. cbv zeta. destruct (full_match (f pcb)) eqn:Efull.
    + cbn [unlink]. rewrite Z.eqb_refl. destruct seen as [|x seen].
      * eexists. split; [reflexivity|]. split; [reflexivity|]. exists (inc_cachehit s.(nt).(udp_stats)). cbn [rev app] in *. rewrite <- Hl.
        destruct s as [m [? ? ? ? ? ? ? ? ? [] ?]]. reflexivity.
      * eexists. split; [reflexivity|]. split; [reflexivity|]. exists s.(nt).(udp_stats). destruct s as [m [? ? ? ? ? ? ? ? ? [] ?]]. reflexivity.
    + destruct (IH (pcb :: seen) (if unconnected (f pcb) && (u =? 0) then pcb else u)) as (s' & E & Ha).
      { intros Hi. apply H0. now right. } { rewrite Hl. cbn [rev]. now rewrite <- app_assoc. }
      exists s'. rewrite E. cbn [rev] in Ha. split.
      * destruct (find (fun p => full_match (f p)) l); [reflexivity|]. destruct (unconnected (f pcb)) eqn:Eu; cbn [andb]; [|reflexivity].
        destruct (Z.eqb_spec u 0) as [->|Hu]; [|now rewrite (proj2 (Z.eqb_neq _ _) Hu)].
        rewrite (proj2 (Z.eqb_neq pcb 0)) by (intros ->; apply H0; now left). reflexivity.
      * destruct (find (fun p => full_match (f p)) l) as [q|] eqn:Eq; rewrite <- !app_assoc in Ha; cbn [app] in Ha; [|exact Ha].
        cbn [unlink]. apply find_some in Eq. destruct (Z.eqb_spec pcb q) as [->|]; [rewrite Efull in Eq; now destruct Eq|]. exact Ha.
Qed.

(** C32: [udp_input] gives a datagram to the control block the rule names: the
    first one in the list that is connected to the sender, else the first
    unconnected one, else none.  A full match moves to the front; the list keeps
    its elements and the control blocks do not change. *)
Theorem udp_demux_selects (s : nst) : ~ In 0 s.(nt).(udp).(udp_pcbs) -> NoDup s.(nt).(udp).(udp_pcbs) ->
  let f := s.(nt).(udp).(pcbs) in let l := s.(nt).(udp).(udp_pcbs) in
  exists s', demux l [] 0 src dest dest_ip src_ip mask broadcast s = Ok (receiver f l, s') /\
    s'.(nt).(udp).(udp_pcbs) = list_after f l /\ Permutation (list_after f l) l /\
    s'.(nt).(udp).(pcbs) = f /\ s'.(pk) = s.(pk) /\
    (receiver f l <> 0 <-> exists p, In p l /\ (full_match (f p) = true \/ unconnected (f p) = true)).
Proof.
  intros H0 Hnd f l. destruct (demux_from f s eq_refl l [] 0 H0 eq_refl) as (s' & E & Hp & t & Ht). exists s'. split; [exact E|].
  rewrite Ht. cbn [udp udp_pcbs pcbs with_field]. split; [unfold list_after; now destruct (find _ l)|]. split; [|split; [reflexivity|split; [exact Hp|]]].
  - unfold list_after. destruct (find _ l) as [p|] eqn:Ef; [|reflexivity]. apply find_some in Ef. destruct Ef as [Hin _].
    destruct (in_split _ _ Hin) as (l1 & l2 & El). rewrite El, unlink_app; [apply Permutation_middle|].
    fold l in Hnd. rewrite El in Hnd. apply NoDup_remove_2 in Hnd. intros Hi. apply Hnd, in_or_app. now left.
  - unfold receiver. assert (Hne : forall p, In p l -> p <> 0) by (intros p Hi ->; now apply H0).
    destruct (find (fun p => full_match (f p)) l) as [p|] eqn:Ef.
    + apply find_some in Ef. split; [intros _; exists p; tauto|intros _; now apply Hne].
    + destruct (find (fun p => unconnected (f p)) l) as [p|] eqn:Eu.
      * apply find_some in Eu. split; [intros _; exists p; tauto|intros _; now apply Hne].
      * split; [now intros []|]. intros (p & Hin & [Hfm|Hu]); [now rewrite (find_none _ _ Ef p Hin) in Hfm|now rewrite (find_none _ _ Eu p Hin) in Hu].
Qed.
End Demux.

(** ** A datagram on the link *)

(** A UDP header, and the checksum of a datagram (0 is sent as 0xffff). *)
Definition udp_hdr (sport dport len chk : Z) : list Z :=
  [sport / 256; sport mod 256; dport / 256; dport mod 256; len / 256; len mod 256] ++ put16 chk.
Definition udp_field (src dst sport dport : Z) (bytes : list Z) : Z :=
  let len := 8 + Z.of_nat (length bytes) in
  rfc1071_field (pseudo_header src dst IP_PROTO_UDP len ++ udp_hdr sport dport len 0 ++ bytes).
Definition udp_chk (flags src dst sport dport : Z) (bytes : list Z) : Z :=
  if flags .& UDP_FLAGS_NOCHKSUM =? 0 then
    let c := udp_field src dst sport dport bytes in if c =? 0 then 0xffff else c
  else 0.
(** The packet with both headers. *)
Definition udp_packet (tos id ttl flags src dst sport dport : Z) (bytes : list Z) : list Z :=
  let len := 8 + Z.of_nat (length bytes) in
  ip_header tos (20 + len) id 0 ttl IP_PROTO_UDP src dst ++ udp_hdr sport dport len (udp_chk flags src dst sport dport bytes) ++ bytes.

Section Sending.
Context {PMem : PbufMemory} {W : World}.
Variable NOASSERT : bool.
Variable IPFRAG_FREE : Z.
Variable other_free : Z -> Z -> PB unit.
Variable tcpip_callback_ok : pst -> bool.
Variable netif_output : Z -> Z -> Z -> NM err_t.
Variable sent : Drv -> list (Z * Z * list Z).
Hypothesis link_sends : forall n p l dest s, chain s.(pk).(structs) p (p :: l) -> (length l < loop_fuel)%nat ->
  (s.(pk).(structs) p).(type) = PBUF_RAM \/ (s.(pk).(structs) p).(type) = PBUF_POOL ->
  exists s' w, netif_output n p dest s = Ok (ERR_OK, s') /\ touches s.(pk) p s'.(pk) /\ s'.(nt) = s.(nt) <| drv := w |> /\
    sent w = sent s.(nt).(drv) ++ [(n, dest, content s.(pk).(structs) s.(pk).(data) (p :: l))].

Lemma bind_pcb_at {A} pcb (k : udp_pcb -> NM A) (s : nst) : bind (up (pcb_at pcb)) k s = k (s.(nt).(udp).(pcbs) pcb) s.
Proof. destruct s as [m []]. reflexivity. Qed.

(** The stores of [udp_sendto_if_src]. *)
Lemma udp_fields_stored d h sport dport ln : is_u16 sport -> is_u16 dport -> is_u16 ln ->
  load_list (store_list (h + 4) (put16 (lwip_htons ln)) (store_list (h + 6) (put16 0) (store_list (h + 2) (put16 (lwip_htons dport))
    (store_list h (put16 (lwip_htons sport)) d)))) h 8 = udp_hdr sport dport ln 0.
Proof.
  intros Hs Hd Hl. unfold udp_hdr. change (?a :: ?b :: ?c :: ?d :: ?l) with ([a; b] ++ [c; d] ++ l). rewrite <- !put16_htons, <- !app_assoc by assumption.
  assert (L16 : forall v, length (put16 v) = 2%nat) by reflexivity.
  change 8 with (2 + (2 + (2 + 2))). rewrite !load_app by lia.
  replace (h + 2 + 2) with (h + 4) by lia. replace (h + 4 + 2) with (h + 6) by lia.
  repeat match goal with |- load_list _ _ _ ++ _ = _ ++ _ => f_equal end;
    rewrite ?load_store_other by (rewrite ?L16; lia); apply load_stored; reflexivity.
Qed.
Lemma udp_chk_stored d h sport dport ln c : load_list d h 8 = udp_hdr sport dport ln 0 ->
  load_list (store_list (h + 6) (put16 c) d) h 8 = udp_hdr sport dport ln c.
Proof.
  unfold udp_hdr. change 8 with (6 + 2). rewrite !load_app, load_store_other, (load_stored d (h + 6)) by (reflexivity || lia).
  intros E. assert (E6 : firstn 6 (load_list d h 6 ++ load_list d (h + 6) 2) = load_list d h 6).
  { rewrite firstn_app, load_list_length, firstn_all2, app_nil_r by (rewrite load_list_length; reflexivity). reflexivity. }
  rewrite <- E6, E. reflexivity.
Qed.

Abbreviation sendto_if_src := (udp_sendto_if_src NOASSERT IPFRAG_FREE other_free tcpip_callback_ok netif_output).

(** The checksum and the rest of the way: [h] is the header in front of the
    bytes of the packet as [m] holds it. *)
Lemma send_datagram_sends (s : nst) m pcb p l n src dst sport dport : let bytes := content m.(structs) m.(data) (p :: l) in
  let b := s.(nt).(udp).(pcbs) pcb in let h := (m.(structs) p).(payload) - 8 in
  outgoing 28 m p l -> lengths m.(structs) 0 (p :: l) -> bytes_in m -> s.(pk).(mm) = m.(mm) ->
  s.(pk).(structs) p = (m.(structs) p) <| payload := h |> <| len := (m.(structs) p).(len) + 8 |> <| tot_len := (m.(structs) p).(tot_len) + 8 |> ->
  (forall a, a <> p -> s.(pk).(structs) a = m.(structs) a) ->
  (forall x, ~ h <= x < h + 8 -> s.(pk).(data) x = m.(data) x) -> bytes_in s.(pk) ->
  load_list s.(pk).(data) h 8 = udp_hdr sport dport (8 + Z.of_nat (length bytes)) 0 ->
  is_u8 b.(tos) -> is_u8 b.(ttl) -> is_u32 src -> is_u32 dst -> is_u16 s.(nt).(ip_id) ->
  (s.(nt).(netif_tab) n).(if_mtu) = 0 \/ (m.(structs) p).(tot_len) + 28 <= (s.(nt).(netif_tab) n).(if_mtu) ->
  exists s', send_datagram NOASSERT IPFRAG_FREE other_free tcpip_callback_ok netif_output pcb p h n src dst s = Ok (ERR_OK, s') /\
    touches m p s'.(pk) /\ kept s.(nt) s'.(nt) /\ s'.(nt).(ip_id) = u16 (s.(nt).(ip_id) + 1) /\
    sent s'.(nt).(drv) = sent s.(nt).(drv) ++
      [(n, dst, udp_packet b.(tos) s.(nt).(ip_id) b.(ttl) b.(uflags) src dst sport dport bytes)].
Proof.
  intros bytes b h Hout Hlen Hbm Hmm Hs Ho Hd Hb Hh Htos Httl Hsrc Hdst Hid Hmtu. pose proof Hout as [Hc Hni Hsh Ht Hr Hl Htot Hroom Hap].
  pose proof (content_total _ m.(data) _ Hlen) as Hn. fold bytes in Hn.
  assert (Htl : (m.(structs) p).(tot_len) = Z.of_nat (length bytes)) by (rewrite Hn; destruct Hlen as (_ & E & _); now rewrite Z.add_0_r in E).
  set (T := 8 + Z.of_nat (length bytes)) in *.
  assert (Hch : chain (structs (pk s)) p (p :: l)).
  { apply (chain_ext (structs m)); [|assumption]. intros a _. destruct (Z.eq_dec a p) as [->|Hne]; [rewrite Hs|rewrite Ho by assumption]; reflexivity. }
  assert (Hcon : forall d, (forall x, ~ h <= x < h + 8 -> d x = m.(data) x) -> content (structs (pk s)) d (p :: l) = load_list d h 8 ++ bytes).
  { intros d Hdd. apply (content_prepend 8 m p l); [lia|now apply (outgoing_less 28); [lia|]|now rewrite Hs|now rewrite Hs|exact Ho|]. intros x Hx. apply Hdd. unfold h in *. lia. }
  set (c := udp_chk b.(uflags) src dst sport dport bytes).
  enough (H : forall d, (forall x, ~ h <= x < h + 8 -> d x = m.(data) x) -> load_list d h 8 = udp_hdr sport dport T c ->
    exists s', ip4_output_if_src NOASSERT IPFRAG_FREE other_free tcpip_callback_ok netif_output p (Some src) (Some dst) b.(ttl) b.(tos) IP_PROTO_UDP n (net_data s d) = Ok (ERR_OK, s') /\
    touches m p s'.(pk) /\ kept s.(nt) s'.(nt) /\ s'.(nt).(ip_id) = u16 (s.(nt).(ip_id) + 1) /\
    sent s'.(nt).(drv) = sent s.(nt).(drv) ++ [(n, dst, udp_packet b.(tos) s.(nt).(ip_id) b.(ttl) b.(uflags) src dst sport dport bytes)]).
  { unfold send_datagram. rewrite bind_pcb_at. fold b. unfold c, udp_chk in H. destruct (uflags b .& UDP_FLAGS_NOCHKSUM =? 0) eqn:Ef.
    - rewrite bind_assoc, (bind_ok _ _ _ _ _ (segs_spec s (p :: l) loop_fuel p Hch ltac:(cbn [length]; lia))). unfold pbuf_at. rewrite bind_assoc, bind_gets.
      assert (HT : tot_len (structs (pk s) p) = T) by (rewrite Hs; cbn [tot_len with_field]; unfold T; lia). rewrite HT.
      unfold ip_chksum_pseudo. cbn [IP_IS_V6 v4 ip_2_ip4 u_addr hd Chksum.type]. change (0 =? IPADDR_TYPE_V6) with false. cbv iota.
      rewrite inet_chksum_pseudo_rfc1071; [|apply segs_ok; [exact Hb|]|unfold IP_PROTO_UDP; word_lia|unfold T; word_lia|assumption|assumption].
      2:{ apply Forall_forall. intros a Ha. destruct (Z.eq_dec a p) as [->|Hne]; [rewrite Hs; cbn [len with_field]; unfold is_u16; lia|].
          rewrite Ho by assumption. destruct (lengths_le _ _ Hlen a Ha) as [H1 H2]. rewrite Hn in Htl. unfold is_u16. lia. }
      rewrite segs_bytes, (Hcon _ Hd), Hh. change (rfc1071_field (pseudo_header src dst IP_PROTO_UDP T ++ udp_hdr sport dport T 0 ++ bytes)) with (udp_field src dst sport dport bytes).
      rewrite net_store. apply H; [|now apply udp_chk_stored]. intros x Hx. rewrite store_other by (cbn [length put16]; lia). now apply Hd.
    - rewrite bind_ret. specialize (H _ Hd Hh). rewrite net_data_same in H. exact H. }
  intros d Hdd Hhd. destruct (output_if_src_sends NOASSERT IPFRAG_FREE other_free tcpip_callback_ok netif_output sent link_sends (net_data s d) p l src dst b.(ttl) b.(tos) IP_PROTO_UDP n)
    as (s' & E & Htc & Hk & Hi & Hsent); try assumption.
  - apply (outgoing_header 20 8 m p l (pk s) d); [lia|exact Hout|exact Hs|exact Ho].
  - unfold IP_PROTO_UDP. word_lia.
  - cbn [pk net_data with_field structs]. rewrite Hs. cbn [tot_len with_field]. destruct Hmtu; [now left|right]. cbn [nt net_data with_field]. lia.
  - exists s'. split; [exact E|]. split; [|split; [exact Hk|split; [exact Hi|]]].
    + apply (touches_trans m p ((pk s) <| data := d |>) (pk s') 8); [|exact Htc|cbn [structs with_field]; now rewrite Hs|lia].
      apply (touches_header _ _ _ _ 8); auto; try lia. intros x Hx. apply Hdd. unfold h in *. lia.
    + rewrite Hsent. cbn [pk nt net_data with_field structs data]. do 3 f_equal. unfold udp_packet. fold T c.
      rewrite (Hcon d Hdd), Hhd, Hs. cbn [tot_len with_field]. do 2 f_equal. unfold T. lia.
Qed.

(** What a datagram needs: room for both headers, a bound control block, an
    interface it fits. *)
Record datagram_ready (s : nst) (pcb p : Z) (l : list Z) (n : Z) : Prop := {
  dg_out : outgoing 28 s.(pk) p l;
  dg_lengths : lengths s.(pk).(structs) 0 (p :: l);
  dg_bytes : bytes_in s.(pk);
  dg_pcb : pcb <> 0;
  dg_port : 0 < (s.(nt).(udp).(pcbs) pcb).(local_port) < 65536;
  dg_tos : is_u8 (s.(nt).(udp).(pcbs) pcb).(tos);
  dg_ttl : is_u8 (s.(nt).(udp).(pcbs) pcb).(ttl);
  dg_id : is_u16 s.(nt).(ip_id);
  dg_mtu : (s.(nt).(netif_tab) n).(if_mtu) = 0 \/ (s.(pk).(structs) p).(tot_len) + 28 <= (s.(nt).(netif_tab) n).(if_mtu) }.

Lemma sendto_if_src_sends (s : nst) pcb p l n src dst dport : let b := s.(nt).(udp).(pcbs) pcb in
  datagram_ready s pcb p l n -> is_u16 dport -> is_u32 src -> is_u32 dst ->
  exists s', sendto_if_src pcb p (Some dst) dport n src s = Ok (ERR_OK, s') /\
    touches s.(pk) p s'.(pk) /\ kept s.(nt) s'.(nt) /\ s'.(nt).(ip_id) = u16 (s.(nt).(ip_id) + 1) /\
    sent s'.(nt).(drv) = sent s.(nt).(drv) ++ [(n, dst, udp_packet b.(tos) s.(nt).(ip_id) b.(ttl) b.(uflags) src dst b.(local_port) dport
       (content s.(pk).(structs) s.(pk).(data) (p :: l)))].
Proof.
  intros b [Hout Hlen Hbm Hpcb Hport Htos Httl Hid Hmtu] Hdp Hsrc Hdst. pose proof Hout as [Hc Hni Hsh Ht Hr Hl Htot Hroom Hap].
  destruct (chain_nonnull _ _ _ _ Hc) as [_ Hp0]. apply Z.eqb_neq in Hp0.
  unfold udp_sendto_if_src. rewrite (proj2 (Z.eqb_neq _ _) Hpcb), bind_pcb_at. fold b. rewrite (proj2 (Z.eqb_neq (local_port b) 0)) by (unfold b; lia).
  rewrite bind_ret. destruct (pbuf_header_show NOASSERT s.(pk) p UDP_HLEN) as (m1 & E & Hm & Hd & Hs & Ho); try (unfold UDP_HLEN; assumption || lia).
  rewrite (net_pb _ _ _ _ _ E). change (negb (0 =? 0)) with false. cbv iota. rewrite bind_ret. rewrite (proj2 (Z.eqb_neq _ _) Hp0).
  set (s1 := s <| pk := m1 |>). unfold pbuf_at. rewrite bind_gets. change (pk s1) with m1. rewrite Hs. cbn [payload len tot_len with_field]. unfold UDP_HLEN in *.
  rewrite net_assert by (apply Z.geb_le; lia). rewrite bind_pcb_at. change (pcbs (udp (nt s1)) pcb) with b. set (h := payload (structs (pk s) p) - 8). fold h in Hs.
  do 4 (rewrite net_store, ?net_data_twice, ?data_net_data). change (data (pk s1)) with (data m1). rewrite Hd.
  set (T := tot_len (structs (pk s) p) + 8) in *. assert (HT : is_u16 T) by (unfold T; word_lia). assert (Hlp : is_u16 (local_port b)) by (unfold b; word_lia).
  pose proof (udp_fields_stored (data (pk s)) h (local_port b) dport T Hlp Hdp HT) as HD. set (D := store_list (h + 4) _ _) in *.
  assert (HD2 : forall x, ~ h <= x < h + 8 -> D x = data (pk s) x) by (intros x Hx; unfold D; rewrite !store_other by (cbn [length put16]; lia); reflexivity).
  assert (HDb : forall x, is_u8 (D x)) by (unfold D; repeat (apply store_bytes_ok; [|apply put16_ok]); exact Hbm).
  clearbody D. set (bytes := content (structs (pk s)) (data (pk s)) (p :: l)).
  assert (HTn : T = 8 + Z.of_nat (length bytes)).
  { unfold T, bytes. rewrite (content_total _ _ _ Hlen). destruct Hlen as (_ & E0 & _). rewrite Z.add_0_r in E0. lia. }
  destruct (send_datagram_sends (net_data s1 D) (pk s) pcb p l n src dst (local_port b) dport) as (s2 & E2 & Htc & Hk & Hi & Hsent);
    try assumption; try (rewrite HTn in HD; exact HD); try exact Hm; try exact HDb.
  rewrite (bind_ok _ _ _ _ _ E2), Z.eqb_refl. cbn [negb]. rewrite bind_ret. unfold UDP_STATS, mnet. rewrite bind_modify.
  eexists. split; [reflexivity|]. cbn [pk nt with_field]. split; [exact Htc|]. split; [exact Hk|]. split; [exact Hi|]. exact Hsent.
Qed.

(** The source address of a datagram through the interface [n]. *)
Definition source_ip (e : net) (pcb n : Z) : Z :=
  let ip := (e.(udp).(pcbs) pcb).(local_ip) in
  if ip4_addr_isany_val ip || ip4_addr_ismulticast ip then netif_ip4_addr (e.(netif_tab) n) else ip.

Lemma sendto_sends (s : nst) pcb p l dst dport : let b := s.(nt).(udp).(pcbs) pcb in
  let n := route s.(nt) dst in let src := source_ip s.(nt) pcb n in
  n <> 0 -> datagram_ready s pcb p l n -> is_u16 dport -> is_u32 src -> is_u32 dst ->
  src = netif_ip4_addr (s.(nt).(netif_tab) n) ->
  exists s', udp_sendto NOASSERT IPFRAG_FREE other_free tcpip_callback_ok netif_output pcb p (Some dst) dport s = Ok (ERR_OK, s') /\
    touches s.(pk) p s'.(pk) /\ kept s.(nt) s'.(nt) /\ s'.(nt).(ip_id) = u16 (s.(nt).(ip_id) + 1) /\
    sent s'.(nt).(drv) = sent s.(nt).(drv) ++ [(n, dst, udp_packet b.(tos) s.(nt).(ip_id) b.(ttl) b.(uflags) src dst b.(local_port) dport
       (content s.(pk).(structs) s.(pk).(data) (p :: l)))].
Proof.
  intros b n src Hn Hr Hdp Hsrc Hdst Hip. pose proof (dg_pcb _ _ _ _ _ Hr) as Hpcb.
  destruct (sendto_if_src_sends s pcb p l n src dst dport Hr Hdp Hsrc Hdst) as (s' & E & H). exists s'. split; [|exact H].
  unfold udp_sendto. rewrite (proj2 (Z.eqb_neq _ _) Hpcb), (bind_ok _ _ _ _ _ (ip4_route_found s dst Hn)). fold n. rewrite (proj2 (Z.eqb_neq _ _) Hn).
  unfold udp_sendto_if. rewrite (proj2 (Z.eqb_neq _ _) Hpcb), bind_pcb_at. unfold netif_at, onet. rewrite bind_gets. unfold src, source_ip in E, Hip.
  destruct (_ || _); [exact E|]. rewrite (proj2 (Z.eqb_eq _ _) Hip). exact E.
Qed.
End Sending.

(** ** A datagram that arrives *)

(** The checksum a sender fills in is accepted, and is not 0. *)
Lemma udp_chk_valid flags src dst sport dport bytes : is_u32 src -> is_u32 dst -> is_u16 sport -> is_u16 dport -> bytes_ok bytes ->
  8 + Z.of_nat (length bytes) < 65536 -> let len := 8 + Z.of_nat (length bytes) in let c := udp_chk flags src dst sport dport bytes in
  is_u16 c /\ (c = 0 \/ rfc1071_field (pseudo_header src dst IP_PROTO_UDP len ++ udp_hdr sport dport len c ++ bytes) = 0).
Proof.
  intros Hs Hd Hsp Hdp Hb Hn len c. unfold c, udp_chk. destruct (_ =? 0) eqn:Ef; [|split; [word_lia|now left]]. clear c Ef. unfold udp_field. fold len.
  set (pre := pseudo_header src dst IP_PROTO_UDP len ++ [sport / 256; sport mod 256; dport / 256; dport mod 256; len / 256; len mod 256]).
  assert (Hw : forall v, is_u16 v -> word_sum (pseudo_header src dst IP_PROTO_UDP len ++ udp_hdr sport dport len v ++ bytes) = word_sum pre + word_sum bytes + v).
  { intros v Hv. unfold udp_hdr. rewrite <- !app_assoc, app_assoc. fold pre. rewrite word_sum_app_even by reflexivity.
    rewrite (word_sum_app_even (put16 v)) by reflexivity. replace (word_sum (put16 v)) with v; [lia|]. unfold put16. cbn [word_sum]. rewrite le16_put16 by assumption. lia. }
  assert (Hpre : bytes_ok pre).
  { unfold pre, pseudo_header. repeat (apply bytes_ok_app; split); try (now apply addr_bytes_ok); repeat constructor; unfold IP_PROTO_UDP, len; word_div. }
  pose proof (word_sum_nonneg _ Hpre). pose proof (word_sum_nonneg _ Hb). set (S := word_sum pre + word_sum bytes) in *.
  assert (Ec : rfc1071_field (pseudo_header src dst IP_PROTO_UDP len ++ udp_hdr sport dport len 0 ++ bytes) = 65535 - oc_norm S).
  { unfold rfc1071_field, rfc1071. rewrite Hw by word_lia. now rewrite Z.add_0_r. }
  rewrite Ec. pose proof (oc_norm_range S) as Hr. pose proof (field_completes S ltac:(lia)) as Hf.
  destruct (Z.eqb_spec (65535 - oc_norm S) 0) as [E|E].
  - split; [word_lia|right]. unfold rfc1071_field, rfc1071. rewrite Hw by word_lia.
    replace (oc_norm (S + 65535)) with (oc_norm S); [lia|]. apply oc_norm_proper. unfold oc_eq. repeat split; try lia.
    + assert (S <> 0) by (intros HS; rewrite HS in E; discriminate E). lia.
    + rewrite <- (Z.mod_add S 1 65535) by lia. f_equal.
  - split; [word_lia|right]. unfold rfc1071_field, rfc1071. rewrite Hw by word_lia. rewrite Hf. lia.
Qed.

Section Receiving.
Context {PMem : PbufMemory} {W : World}.
Variable NOASSERT : bool.
Variable IPFRAG_FREE : Z.
Variable other_free : Z -> Z -> PB unit.
Variable tcpip_callback_ok : pst -> bool.
Variable netif_output : Z -> Z -> Z -> NM err_t.
Variable recv_callback : Z -> Z -> Z -> Z -> Z -> Z -> NM unit.

Abbreviation input := (udp_input NOASSERT IPFRAG_FREE other_free tcpip_callback_ok netif_output recv_callback).

(** Whether the current packet was broadcast, and who gets it. *)
Definition is_broadcast (e : net) : bool :=
  negb (ip4_addr_isbroadcast_u32 e.(ip_data).(current_iphdr_dest) (e.(netif_tab) e.(ip_data).(current_netif)).(if4) =? 0).
Definition receiver_of (e : net) (inp sport dport : Z) : Z :=
  receiver sport dport e.(ip_data).(current_iphdr_dest) e.(ip_data).(current_iphdr_src) (netif_ip4_netmask (e.(netif_tab) inp)) (is_broadcast e)
    e.(udp).(pcbs) e.(udp).(udp_pcbs).

(** A field of a header at the start of a packet. *)
Lemma bind_load16 {A} a (f : Z -> NM A) (s : nst) h0 k h i : load_list s.(pk).(data) h0 k = h -> a = h0 + Z.of_nat i -> Z.of_nat (i + 1) < k ->
  bind (load16 a) f s = f (field16 h i) s.
Proof.
  intros <- -> Hi. unfold load16. rewrite bind_gets. unfold field16, le16. rewrite !nth_loaded by lia.
  replace (h0 + Z.of_nat i + 1) with (h0 + Z.of_nat (i + 1)) by lia. reflexivity.
Qed.

Lemma udp_hdr_src sport dport len chk : is_u16 sport -> lwip_htons (field16 (udp_hdr sport dport len chk) 0) = sport.
Proof. intros H. unfold field16. cbn [nth Nat.add udp_hdr app]. rewrite lwip_htons_eq by (unfold le16; word_div). unfold le16. word_div. Qed.
Lemma udp_hdr_dest sport dport len chk : is_u16 dport -> lwip_htons (field16 (udp_hdr sport dport len chk) 2) = dport.
Proof. intros H. unfold field16. cbn [nth Nat.add udp_hdr app]. rewrite lwip_htons_eq by (unfold le16; word_div). unfold le16. word_div. Qed.
Lemma udp_hdr_chk sport dport len chk : is_u16 chk -> field16 (udp_hdr sport dport len chk) 6 = chk.
Proof. intros H. exact (le16_put16 chk H). Qed.

Lemma udp_input_delivers (s : nst) p l inp sport dport chk bytes : let e := s.(nt) in let g := e.(ip_data) in
  let len := 8 + Z.of_nat (length bytes) in let pcb := receiver_of e inp sport dport in let b := e.(udp).(pcbs) pcb in
  packet s.(pk) p l (udp_hdr sport dport len chk ++ bytes) -> 8 <= (s.(pk).(structs) p).(Pbuf.len) -> bytes_in s.(pk) ->
  is_u16 sport -> is_u16 dport -> is_u16 chk -> is_u32 g.(current_iphdr_src) -> is_u32 g.(current_iphdr_dest) ->
  ~ In 0 e.(udp).(udp_pcbs) -> pcb <> 0 -> b.(recv) <> 0 ->
  chk = 0 \/ rfc1071_field (pseudo_header g.(current_iphdr_src) g.(current_iphdr_dest) IP_PROTO_UDP len ++ udp_hdr sport dport len chk ++ bytes) = 0 ->
  exists s1, input p inp s = recv_callback b.(recv) b.(recv_arg) pcb p g.(current_iphdr_src) sport s1 /\
    packet s1.(pk) p l bytes /\ s1.(pk).(mm) = s.(pk).(mm) /\ s1.(pk).(data) = s.(pk).(data) /\
    s1.(pk).(structs) p = (s.(pk).(structs) p) <| payload := (s.(pk).(structs) p).(payload) + 8 |>
      <| Pbuf.len := (s.(pk).(structs) p).(Pbuf.len) - 8 |> <| tot_len := (s.(pk).(structs) p).(tot_len) - 8 |> /\
    (forall a, a <> p -> s1.(pk).(structs) a = s.(pk).(structs) a) /\
    exists u t, s1.(nt) = e <| udp := u |> <| udp_stats := t |> /\ u.(pcbs) = e.(udp).(pcbs) /\ u.(pcb_avail) = e.(udp).(pcb_avail).
Proof.
  intros e g len pcb b Hpk H8 Hb Hsp Hdp Hchk Hsrc Hdst H0 Hpcb Hrecv Hsum. pose proof (packet_tot_len _ _ _ _ Hpk) as Htot.
  pose proof (packet_len _ _ _ _ Hpk) as [Hl1 Hl2]. rewrite length_app in Htot. change (length (udp_hdr sport dport len chk)) with 8%nat in Htot.
  set (h := payload (structs (pk s) p)). pose proof (packet_front _ _ _ _ _ 8 Hpk eq_refl H8) as Hh. fold h in Hh.
  unfold udp_input, UDP_STATS, mnet. rewrite bind_modify. set (s0 := s <| nt := _ |>). unfold pbuf_at at 1. rewrite bind_gets. change (pk s0) with (pk s).
  unfold UDP_HLEN at 1. rewrite (proj2 (Z.ltb_ge _ _) H8). unfold onet at 1. rewrite bind_gets. change (ip_data (nt s0)) with g.
  unfold netif_at, onet at 1. rewrite bind_gets. fold h.
  rewrite (bind_load16 _ _ s0 h 8 _ 0 Hh), (bind_load16 _ _ s0 h 8 _ 2 Hh), udp_hdr_src, udp_hdr_dest by (assumption || (cbn; lia)).
  unfold onet at 1 2. rewrite !bind_gets. change (netif_tab (nt s0)) with (netif_tab e). change (udp (nt s0)) with (udp e). fold (is_broadcast e).
  destruct (demux_from sport dport (current_iphdr_dest g) (current_iphdr_src g) (netif_ip4_netmask (netif_tab e inp)) (is_broadcast e) _ s0 eq_refl _ [] 0 H0 eq_refl)
    as (s1 & E1 & Hp1 & t & Ht1).
  change (demux (udp_pcbs (udp e)) [] 0 sport dport (current_iphdr_dest g) (current_iphdr_src g) (netif_ip4_netmask (netif_tab e inp)) (is_broadcast e) s0 = Ok (pcb, s1)) in E1.
  rewrite (bind_ok _ _ _ _ _ E1), (proj2 (Z.eqb_neq _ _) Hpcb). cbn [negb orb]. clear E1. set (u := _ <| udp_pcbs := _ |>) in Ht1.
  assert (Hg1 : ip_data (nt s1) = g) by (now rewrite Ht1). assert (Hu1 : udp (nt s1) = u) by (now rewrite Ht1). assert (Hub : pcbs u pcb = b) by reflexivity.
  assert (Hu : pcbs u = pcbs (udp e) /\ pcb_avail u = pcb_avail (udp e)) by (split; reflexivity). assert (He1 : nt s1 = e <| udp := u |> <| udp_stats := t |>) by exact Ht1.
  clearbody u. clear Ht1. change (pk s0) with (pk s) in Hp1. clearbody s0. rewrite <- Hp1 in Hh, Hpk, Hb, Hl1, Hl2, H8, Htot.
  rewrite (bind_load16 _ _ s1 h 8 _ 6 Hh), udp_hdr_chk by (assumption || (cbn; lia)).
  match goal with |- context [bind ?m ?k s1] => assert (Eok : m s1 = Ok (true, s1)) end.
  { destruct (Z.eqb_spec chk 0) as [->|Hc]; [reflexivity|]. destruct Hsum as [|Hsum]; [contradiction|]. pose proof Hpk as [Pc Pf Pl Ps Pt Pp Pb]. cbn [negb].
    rewrite (bind_ok _ _ _ _ _ (segs_spec s1 (p :: l) loop_fuel p Pc ltac:(cbn [length]; lia))). unfold pbuf_at. rewrite bind_gets.
    unfold ip_chksum_pseudo. cbn [IP_IS_V6 v4 ip_2_ip4 u_addr hd Chksum.type]. change (0 =? IPADDR_TYPE_V6) with false. cbv iota.
    rewrite Htot, inet_chksum_pseudo_rfc1071; [|apply segs_ok; [exact Hb|]|unfold IP_PROTO_UDP; word_lia|word_lia|assumption|assumption].
    - rewrite segs_bytes, Pb. replace (Z.of_nat (8 + length bytes)) with len by (unfold len; lia). now rewrite Hsum.
    - apply Forall_forall. intros a Ha. destruct (lengths_le _ _ Pl a Ha). unfold is_u16. lia. }
  rewrite (bind_ok _ _ _ _ _ Eok). cbn [negb]. clear Eok. unfold deliver.
  destruct (packet_hide NOASSERT (pk s1) p l _ bytes 8 Hpk eq_refl ltac:(lia)) as (m2 & E2 & Hpk2 & Hm2 & Hd2 & Hs2 & Ho2). change UDP_HLEN with 8.
  rewrite (net_pb _ _ _ _ _ E2). change (negb (0 =? 0)) with false. cbv iota. rewrite (proj2 (Z.eqb_neq _ _) Hpcb). cbn [negb].
  set (s2 := s1 <| pk := m2 |>). rewrite bind_pcb_at. change (nt s2) with (nt s1). rewrite Hu1, Hub. unfold onet. rewrite bind_gets. change (nt s2) with (nt s1).
  rewrite Hg1, (proj2 (Z.eqb_neq _ _) Hrecv). cbn [negb]. exists s2. split; [reflexivity|]. change (pk s2) with m2. rewrite <- Hp1.
  split; [exact Hpk2|]. split; [exact Hm2|]. split; [exact Hd2|]. split; [|split; [exact Ho2|]].
  - rewrite Hs2. unfold h. now rewrite <- Hp1.
  - exists u, t. split; [exact He1|exact Hu].
Qed.
End Receiving.
