(* ===== verification/Ip4In.v ===== *)
(** * Receiving IPv4 packets (lwip/src/core/ipv4/ip4.c)

    [ip4_input] runs on the state of the reassembly (Ip4Frag.v), whose
    surroundings are the state of the stack (Ip4Out.v).  [tcp_input] and the
    [recv] callbacks are section variables; IP_FORWARD, which opt.h turns off,
    and IP_FORWARD_ALLOW_TX_ON_RX_NETIF are variables too.  Configuration of
    opt.h: LWIP_RAW, LWIP_IGMP, LWIP_DHCP, LWIP_AUTOIP and LWIP_NETIF_LOOPBACK
    are 0, IP_REASSEMBLY and IP_OPTIONS_ALLOWED are 1. *)

From Stdlib Require Import ZArith List Lia Bool Permutation.
From S2P Require Import Prelude Def Chksum Ip4Addr Mem PbufMem Pbuf Ip4Frag UdpPcb Ip4Out Icmp Udp.
Import ListNotations.
Open Scope Z_scope.
Open Scope c_scope.

Definition IP_DF := 0x4000.
Definition IP_LOOPBACKNET := 127.
Definition IP_CLASSA_NET := 0xff000000.
Definition IP_CLASSA_NSHIFT := 24.
Definition IP_CLASSA (a : Z) : bool := a .& 0x80000000 =? 0.
Definition IP_MULTICAST (a : Z) : bool := a .& 0xf0000000 =? 0xe0000000.
Definition IP_EXPERIMENTAL (a : Z) : bool := a .& 0xf0000000 =? 0xf0000000.
Definition IPH_V (h : list Z) : Z := nth 0 h 0 >> 4.
Definition IPH_PROTO (h : list Z) : Z := nth 9 h 0.

Section Ip4In.
Context {PMem : PbufMemory} {W : World}.
#[export] Instance stack_surroundings : Surroundings := { Env := net }.

Variable NOASSERT : bool.
Variable IPFRAG_FREE : Z.
Variable other_free : Z -> Z -> PB unit.
Variable tcpip_callback_ok : pst -> bool.
Variables IP_FORWARD ALLOW_TX_ON_RX_NETIF : bool.
Variable netif_output : Z -> Z -> Z -> NM err_t.
Variable recv_callback : Z -> Z -> Z -> Z -> Z -> Z -> NM unit.
Variable tcp_input : Z -> Z -> NM unit.

Abbreviation free := (Ip4Out.free NOASSERT IPFRAG_FREE other_free).
Abbreviation icmp_time_exceeded := (icmp_time_exceeded NOASSERT IPFRAG_FREE other_free tcpip_callback_ok netif_output).
Abbreviation icmp_dest_unreach := (icmp_dest_unreach NOASSERT IPFRAG_FREE other_free tcpip_callback_ok netif_output).
Abbreviation icmp_input := (icmp_input NOASSERT IPFRAG_FREE other_free tcpip_callback_ok netif_output).
Abbreviation udp_input := (udp_input NOASSERT IPFRAG_FREE other_free tcpip_callback_ok netif_output recv_callback).
Abbreviation ip4_frag := (ip4_frag NOASSERT IPFRAG_FREE other_free tcpip_callback_ok netif_output).

(** ** Forwarding *)

Definition ip4_canforward (p : Z) : NM bool :=
  do g <- onet ip_data;
  let addr := lwip_htonl g.(current_iphdr_dest) in
  do b <- pbuf_at p;
  ret (if negb (b.(flags) .& PBUF_FLAG_LLBCAST =? 0) then false
       else if negb (b.(flags) .& PBUF_FLAG_LLMCAST =? 0) && negb (IP_MULTICAST addr) then false
       else if IP_EXPERIMENTAL addr then false
       else if IP_CLASSA addr then
         let net := addr .& IP_CLASSA_NET in
         negb ((net =? 0) || (net =? u32 (IP_LOOPBACKNET << IP_CLASSA_NSHIFT)))
       else true).

(** The interface is chosen: TTL, checksum, sending. *)
Definition forward_to (p iphdr n : Z) : NM unit :=
  do ttl <- load8 (iphdr + 8);
  store (iphdr + 8) [u8 (ttl - 1)] ;;
  do ttl <- load8 (iphdr + 8);
  if ttl =? 0 then
    do proto <- load8 (iphdr + 9);
    (when negb (proto =? IP_PROTO_ICMP) then icmp_time_exceeded p ICMP_TE_TTL)
  else
  do c <- load16 (iphdr + 10);
  (if c >=? PP_HTONS (0xffff - 0x100) then store (iphdr + 10) (put16 (u16 (c + PP_HTONS 0x100 + 1)))
   else store (iphdr + 10) (put16 (u16 (c + PP_HTONS 0x100)))) ;;
  IP_STATS inc_fw ;;
  IP_STATS inc_xmit ;;
  do nf <- netif_at n;
  do b <- pbuf_at p;
  do g <- onet ip_data;
  if negb (nf.(if_mtu) =? 0) && (b.(tot_len) >? nf.(if_mtu)) then
    do off <- load16 (iphdr + 6);
    if off .& PP_HTONS IP_DF =? 0 then ip4_frag p n g.(current_iphdr_dest) ;; ret tt
    else icmp_dest_unreach p ICMP_DUR_FRAG
  else netif_output n p g.(current_iphdr_dest) ;; ret tt.

Definition ip4_forward (p iphdr inp : Z) : NM unit :=
  do ok <- ip4_canforward p;
  if negb ok then ret tt else
  do g <- onet ip_data;
  if ip4_addr_islinklocal g.(current_iphdr_dest) then ret tt else
  do n <- ip4_route g.(current_iphdr_dest);
  if n =? 0 then ret tt
  else if negb ALLOW_TX_ON_RX_NETIF && (n =? inp) then ret tt
  else forward_to p iphdr n.

(** ** Input *)

(** Does a packet for [dest] belong to the interface? *)
Definition accepts (dest : Z) (nf : netif) : bool :=
  netif_is_up nf && negb (ip4_addr_isany_val (netif_ip4_addr nf)) &&
  ((dest =? netif_ip4_addr nf) || negb (ip4_addr_isbroadcast_u32 dest nf.(if4) =? 0)).

(** The interface the packet is for, 0 if it is not for this host: the one it
    came in through is tried first. *)
Definition input_netif (e : net) (dest inp : Z) : Z :=
  if ip4_addr_ismulticast dest then
    let nf := e.(netif_tab) inp in
    if netif_is_up nf && negb (ip4_addr_isany_val (netif_ip4_addr nf)) then inp else 0
  else
    match find (fun n => accepts dest (e.(netif_tab) n)) (inp :: unlink inp e.(netif_list)) with
    | Some n => n
    | None => 0
    end.

(** An operation of the stack, from the reassembly's point of view. *)
Definition stack {A} (m : NM A) : M (pst * Env) A := fun s =>
  match m (mkNst (fst s) (snd s)) with
  | Ok (a, s') => Ok (a, (s'.(pk), s'.(nt)))
  | Halt => Halt
  | Hang => Hang
  end.
Definition nm {A} (m : NM A) : RM A := outside (stack m).

Definition reass (p : Z) : RM Z :=
  ip4_reass NOASSERT (custom_free_function NOASSERT IPFRAG_FREE other_free) (fun p => stack (icmp_time_exceeded p ICMP_TE_FRAG)) p.

(** The packet to the layer above; [n] is the interface it is for. *)
Definition pass_up (p iphdr iphdr_hlen n inp : Z) : NM unit :=
  do v <- load8 iphdr;
  mnet (fun e => e <| ip_data := (e.(ip_data)) <| current_netif := n |> <| current_input_netif := inp |>
    <| current_ip4_header := iphdr |> <| current_ip_header_tot_len := (v .& 0x0f) * 4 |> |>) ;;
  pb (pbuf_header NOASSERT p (- iphdr_hlen)) ;;
  do proto <- load8 (iphdr + 9);
  (if proto =? IP_PROTO_UDP then udp_input p inp
   else if proto =? IP_PROTO_TCP then tcp_input p inp
   else if proto =? IP_PROTO_ICMP then icmp_input p inp
   else
     do g <- onet ip_data;
     do nf <- netif_at n;
     (when (ip4_addr_isbroadcast_u32 g.(current_iphdr_dest) nf.(if4) =? 0) && negb (ip4_addr_ismulticast g.(current_iphdr_dest)) then
       (pb (pbuf_header_force NOASSERT p iphdr_hlen) ;;
        pb (upds p (fun b => b <| payload := iphdr |>)) ;;
        icmp_dest_unreach p ICMP_DUR_PROTO)) ;;
     free p ;;
     IP_STATS inc_proterr ;;
     IP_STATS inc_drop) ;;
  mnet (fun e => e <| ip_data := mkGlobals 0 0 0 0 IPADDR_ANY IPADDR_ANY |>).

(** The header is valid, the addresses are copied. *)
Definition input_checked (p iphdr iphdr_hlen inp : Z) : RM err_t :=
  do e <- nm (onet (fun e => e));
  let dest := e.(ip_data).(current_iphdr_dest) in
  let src := e.(ip_data).(current_iphdr_src) in
  let n := input_netif e dest inp in
  if negb (ip4_addr_isbroadcast_u32 src (e.(netif_tab) inp).(if4) =? 0) || ip4_addr_ismulticast src then
    nm (free p) ;; nm (IP_STATS inc_drop) ;; ret ERR_OK
  else if n =? 0 then
    nm (when IP_FORWARD && (ip4_addr_isbroadcast_u32 dest (e.(netif_tab) inp).(if4) =? 0) then ip4_forward p iphdr inp) ;;
    nm (free p) ;; ret ERR_OK
  else
    do off <- nm (load16 (iphdr + 6));
    if negb (off .& PP_HTONS (IP_OFFMASK .| IP_MF) =? 0) then
      do p <- reass p;
      if p =? 0 then ret ERR_OK else
      do iphdr <- payload_of p;
      nm (pass_up p iphdr iphdr_hlen n inp) ;; ret ERR_OK
    else nm (pass_up p iphdr iphdr_hlen n inp) ;; ret ERR_OK.

Definition ip4_input (p inp : Z) : RM err_t :=
  nm (IP_STATS inc_recv) ;;
  do iphdr <- payload_of p;
  do h <- Ip4Frag.load iphdr IP_HLEN;
  if negb (IPH_V h =? 4) then
    nm (free p) ;; nm (IP_STATS inc_err) ;; nm (IP_STATS inc_drop) ;; ret ERR_OK
  else
  let iphdr_hlen := IPH_HL h * 4 in
  let iphdr_len := lwip_htons (IPH_LEN h) in
  do b <- nm (pbuf_at p);
  (when iphdr_len <? b.(tot_len) then
     nm (pb (pbuf_realloc NOASSERT (custom_free_function NOASSERT IPFRAG_FREE other_free) loop_fuel p iphdr_len))) ;;
  do b <- nm (pbuf_at p);
  if (iphdr_hlen >? b.(len)) || (iphdr_len >? b.(tot_len)) || (iphdr_hlen <? IP_HLEN) then
    nm (free p) ;; nm (IP_STATS inc_lenerr) ;; nm (IP_STATS inc_drop) ;; ret ERR_OK
  else
  do hb <- Ip4Frag.load iphdr iphdr_hlen;
  if negb (inet_chksum iphdr hb =? 0) then
    nm (free p) ;; nm (IP_STATS inc_chkerr) ;; nm (IP_STATS inc_drop) ;; ret ERR_OK
  else
  nm (mnet (fun e => e <| ip_data := (e.(ip_data)) <| current_iphdr_dest := iph_dest h |> <| current_iphdr_src := iph_src h |> |>)) ;;
  input_checked p iphdr iphdr_hlen inp.
End Ip4In.
