(* ===== verification/Ip4Recv.v ===== *)
(** * What arrives as IPv4 packets

    [ip4_input] passes a valid packet for this host up, with its addresses in
    [ip_data], and drops what is not valid or not for this host. *)

From Stdlib Require Import ZArith List Lia Bool Permutation.
From S2P Require Import Prelude Def Chksum Ip4Addr Mem PbufMem Pbuf PbufCopy Ip4Frag UdpPcb Ip4Out Packet Ip4Send Icmp Udp UdpProto Ip4In.
Import ListNotations.
Open Scope Z_scope.
Open Scope c_scope.

Lemma hdr_version tos len id off ttl proto chk src dest : IPH_V (ip_hdr tos len id off ttl proto chk src dest) = 4.
Proof. reflexivity. Qed.
Lemma hdr_proto tos len id off ttl proto chk src dest : IPH_PROTO (ip_hdr tos len id off ttl proto chk src dest) = proto.
Proof. reflexivity. Qed.

Section Recv.
Context {PMem : PbufMemory} {W : World}.
Variable NOASSERT : bool.
Variable IPFRAG_FREE : Z.
Variable other_free : Z -> Z -> PB unit.
Variable tcpip_callback_ok : pst -> bool.
Variables IP_FORWARD ALLOW_TX_ON_RX_NETIF : bool.
Variable netif_output : Z -> Z -> Z -> NM err_t.
Variable recv_callback : Z -> Z -> Z -> Z -> Z -> Z -> NM unit.
Variable tcp_input : Z -> Z -> NM unit.

Abbreviation input := (ip4_input NOASSERT IPFRAG_FREE other_free tcpip_callback_ok IP_FORWARD ALLOW_TX_ON_RX_NETIF netif_output recv_callback tcp_input).
Abbreviation checked := (input_checked NOASSERT IPFRAG_FREE other_free tcpip_callback_ok IP_FORWARD ALLOW_TX_ON_RX_NETIF netif_output recv_callback tcp_input).
Abbreviation up_from := (pass_up NOASSERT IPFRAG_FREE other_free tcpip_callback_ok netif_output recv_callback tcp_input).

(** The state of the stack in that of the reassembly. *)
Definition ns (s : rst) : nst := mkNst s.(pm) s.(env).
Definition put (s : rst) (n : nst) : rst := s <| pm := n.(pk) |> <| env := n.(nt) |>.
Lemma ns_put s n : ns (put s n) = n.
Proof. now destruct n. Qed.
Lemma put_put s n n' : put (put s n) n' = put s n'.
Proof. reflexivity. Qed.

Lemma nm_run {A} (m : NM A) s : nm m s = match m (ns s) with Ok (a, n) => Ok (a, put s n) | Halt => Halt | Hang => Hang end.
Proof. unfold nm, outside, stack, ns. cbn [fst snd]. now destruct (m _) as [[a n]| |]. Qed.

Lemma bind_nm {A B} (m : NM A) (k : A -> RM B) s a n : m (ns s) = Ok (a, n) -> bind (nm m) k s = k a (put s n).
Proof. intros E. unfold bind. now rewrite nm_run, E. Qed.

Lemma nm_load16 {B} a (k : Z -> RM B) s : bind (nm (load16 a)) k s = k (le16 (s.(pm).(data) a) (s.(pm).(data) (a + 1))) s.
Proof. rewrite (bind_nm _ _ s (le16 (s.(pm).(data) a) (s.(pm).(data) (a + 1))) (ns s)) by reflexivity. now destruct s. Qed.
Lemma nm_pbuf_at {B} p (k : pbuf -> RM B) s : bind (nm (pbuf_at p)) k s = k (s.(pm).(structs) p) s.
Proof. rewrite (bind_nm _ _ s (s.(pm).(structs) p) (ns s)) by reflexivity. now destruct s. Qed.
Lemma nm_net {B} (k : net -> RM B) s : bind (nm (onet (fun e => e))) k s = k s.(env) s.
Proof. rewrite (bind_nm _ _ s s.(env) (ns s)) by reflexivity. now destruct s. Qed.

(** The stack with the addresses of the current packet. *)
Definition addressed (e : net) (src dest : Z) : net :=
  e <| ip_stats := inc_recv e.(ip_stats) |> <| ip_data := (e.(ip_data)) <| current_iphdr_dest := dest |> <| current_iphdr_src := src |> |>.

(** A packet whose header is right, in the first pbuf. *)
Record valid_packet (m : pst) (p : Z) (h : list Z) : Prop := {
  vp_header : load_list m.(data) (m.(structs) p).(payload) IP_HLEN = h;
  vp_version : IPH_V h = 4;
  vp_hlen : IP_HLEN <= IPH_HL h * 4 <= (m.(structs) p).(len);
  vp_len : lwip_htons (IPH_LEN h) = (m.(structs) p).(tot_len);
  vp_chksum : inet_chksum (m.(structs) p).(payload) (load_list m.(data) (m.(structs) p).(payload) (IPH_HL h * 4)) = 0 }.

(** The header checks of [ip4_input]. *)
Lemma input_valid s p inp h : valid_packet s.(pm) p h ->
  input p inp s = checked p (s.(pm).(structs) p).(payload) (IPH_HL h * 4) inp (put s (mkNst s.(pm) (addressed s.(env) (iph_src h) (iph_dest h)))).
Proof.
  intros [Hh Hv Hl Ht Hc]. unfold ip4_input. erewrite bind_nm by reflexivity. set (s1 := put s _).
  unfold payload_of. rewrite bind_gets. change (pm s1) with (pm s). unfold Ip4Frag.load at 1. rewrite bind_gets. change (pm s1) with (pm s). rewrite Hh.
  rewrite Hv. change (negb (4 =? 4)) with false. cbv iota zeta. rewrite nm_pbuf_at. change (pm s1) with (pm s). rewrite Ht, Z.ltb_irrefl, bind_ret, nm_pbuf_at.
  change (pm s1) with (pm s). replace (_ || _ || _) with false.
  2:{ symmetry. rewrite !Z.gtb_ltb, Z.ltb_irrefl. apply orb_false_iff. split; [apply orb_false_iff; split; [apply Z.ltb_ge; lia|reflexivity]|apply Z.ltb_ge; lia]. }
  unfold Ip4Frag.load. rewrite bind_gets. change (pm s1) with (pm s). rewrite Hc. change (negb (0 =? 0)) with false. cbv iota.
  erewrite bind_nm by reflexivity. reflexivity.
Qed.

(** A whole packet for this host. *)
Lemma input_passes_up s p inp h : valid_packet s.(pm) p h -> let n := input_netif s.(env) (iph_dest h) inp in n <> 0 ->
  ip4_addr_isbroadcast_u32 (iph_src h) (s.(env).(netif_tab) inp).(if4) = 0 -> ip4_addr_ismulticast (iph_src h) = false ->
  IPH_OFFSET h .& PP_HTONS (IP_OFFMASK .| IP_MF) = 0 ->
  input p inp s = (nm (up_from p (s.(pm).(structs) p).(payload) (IPH_HL h * 4) n inp) ;; ret ERR_OK)
    (put s (mkNst s.(pm) (addressed s.(env) (iph_src h) (iph_dest h)))).
Proof.
  intros Hv n Hn Hb Hm Hoff. rewrite (input_valid s p inp h Hv). unfold input_checked. rewrite nm_net. set (s1 := put s _).
  change (current_iphdr_src (ip_data (env s1))) with (iph_src h). change (current_iphdr_dest (ip_data (env s1))) with (iph_dest h). change (netif_tab (env s1)) with (netif_tab (env s)).
  rewrite Hb, Hm. change (negb (0 =? 0) || false) with false. cbv iota. change (input_netif _ (iph_dest h) inp) with n. rewrite (proj2 (Z.eqb_neq _ _) Hn).
  rewrite nm_load16. change (pm s1) with (pm s). set (a := payload (structs (pm s) p)).
  assert (Eo : le16 (data (pm s) (a + 6)) (data (pm s) (a + 6 + 1)) = IPH_OFFSET h).
  { unfold IPH_OFFSET, field16. rewrite <- (vp_header _ _ _ Hv). fold a. rewrite !nth_loaded by (unfold IP_HLEN; lia). unfold le16.
    change (Z.of_nat 6) with 6. change (Z.of_nat (6 + 1)) with 7. replace (a + 6 + 1) with (a + 7) by lia. reflexivity. }
  rewrite Eo, Hoff. reflexivity.
Qed.

(** The header of an incoming packet is that of a sender. *)
Lemma packet_valid m p l tos id ttl proto src dest bytes : let len := 20 + Z.of_nat (length bytes) in
  packet m p l (ip_header tos len id 0 ttl proto src dest ++ bytes) -> 20 <= (m.(structs) p).(Pbuf.len) ->
  is_u8 tos -> is_u16 id -> is_u8 ttl -> is_u8 proto ->
  valid_packet m p (ip_header tos len id 0 ttl proto src dest).
Proof.
  intros len Hp Hl Htos Hid Httl Hproto. pose proof (packet_tot_len _ _ _ _ Hp) as Ht. pose proof (packet_len _ _ _ _ Hp) as [H1 H2]. rewrite length_app in Ht.
  change (length (ip_header tos len id 0 ttl proto src dest)) with 20%nat in Ht.
  pose proof (packet_front _ _ _ _ _ 20 Hp eq_refl Hl) as Hh. assert (Hlen : is_u16 len) by (unfold len; word_lia). split.
  - exact Hh.
  - apply hdr_version.
  - unfold ip_header. rewrite hdr_hl. unfold IP_HLEN. lia.
  - unfold ip_header at 1. rewrite hdr_len by assumption. unfold len. lia.
  - unfold ip_header at 1. rewrite hdr_hl. change (5 * 4) with 20. rewrite Hh. apply ip_header_valid; try assumption. word_lia.
Qed.

(** [pass_up] without the protocols: the packet [p] is without its IP header. *)
Definition current (e : net) (n inp iphdr : Z) : net :=
  e <| ip_data := (e.(ip_data)) <| current_netif := n |> <| current_input_netif := inp |> <| current_ip4_header := iphdr |> <| current_ip_header_tot_len := 20 |> |>.
Definition no_packet : NM unit := mnet (fun e => e <| ip_data := mkGlobals 0 0 0 0 IPADDR_ANY IPADDR_ANY |>).

Lemma pass_up_hides (s : nst) p l h bytes n inp : packet s.(pk) p l (h ++ bytes) -> length h = 20%nat -> 20 <= (s.(pk).(structs) p).(Pbuf.len) -> IPH_HL h = 5 ->
  let a := (s.(pk).(structs) p).(payload) in
  exists m', packet m' p l bytes /\ m'.(mm) = s.(pk).(mm) /\ m'.(data) = s.(pk).(data) /\
    m'.(structs) p = (s.(pk).(structs) p) <| payload := a + 20 |> <| Pbuf.len := (s.(pk).(structs) p).(Pbuf.len) - 20 |>
      <| tot_len := (s.(pk).(structs) p).(tot_len) - 20 |> /\
    (forall x, x <> p -> m'.(structs) x = s.(pk).(structs) x) /\
    forall k, (k = udp_input NOASSERT IPFRAG_FREE other_free tcpip_callback_ok netif_output recv_callback p inp /\ IPH_PROTO h = IP_PROTO_UDP \/
               k = icmp_input NOASSERT IPFRAG_FREE other_free tcpip_callback_ok netif_output p inp /\ IPH_PROTO h = IP_PROTO_ICMP) ->
      up_from p a 20 n inp s = (k ;; no_packet) (mkNst m' (current s.(nt) n inp a)).
Proof.
  intros Hp Hlh Hl Hhl a. destruct (packet_hide NOASSERT s.(pk) p l h bytes 20 Hp ltac:(now rewrite Hlh) ltac:(lia)) as (m' & E & Hp' & Hm & Hd & Hs & Ho).
  exists m'. split; [exact Hp'|]. split; [exact Hm|]. split; [exact Hd|]. split; [exact Hs|]. split; [exact Ho|]. intros k Hk.
  pose proof (packet_front _ _ _ _ _ 20 Hp ltac:(now rewrite Hlh) Hl) as Hh. fold a in Hh.
  assert (H9 : data (pk s) (a + 9) = IPH_PROTO h) by (unfold IPH_PROTO; rewrite <- Hh, nth_loaded by (cbn; lia); reflexivity).
  assert (H00 : data (pk s) a .& 15 = 5) by (rewrite <- Hhl; unfold IPH_HL; rewrite <- Hh, nth_loaded by (cbn; lia); change (Z.of_nat 0) with 0; now rewrite Z.add_0_r).
  unfold pass_up, load8, mnet. rewrite bind_gets, bind_modify, H00. change (5 * 4) with 20. set (s1 := s <| nt := _ |>).
  change 20 with (Z.of_nat 20) in E. rewrite (net_pb _ _ s1 0 m' E), bind_gets. cbn [pk with_field]. rewrite Hd, H9.
  unfold no_packet, mnet. destruct Hk as [[-> ->]|[-> ->]]; reflexivity.
Qed.
End Recv.

(** ** UDP from host to host *)

Section RoundTrip.
Context {PMem : PbufMemory} {W : World}.
Variable NOASSERT : bool.
Variable IPFRAG_FREE : Z.
Variable other_free : Z -> Z -> PB unit.
Variable tcpip_callback_ok : pst -> bool.
Variables IP_FORWARD ALLOW_TX_ON_RX_NETIF : bool.
(** The driver of the sender, the driver and the callbacks of the receiver. *)
Variables netif_output netif_output' : Z -> Z -> Z -> NM err_t.
Variable recv_callback : Z -> Z -> Z -> Z -> Z -> Z -> NM unit.
Variable tcp_input : Z -> Z -> NM unit.
Variable sent : Drv -> list (Z * Z * list Z).
Hypothesis link_sends : forall n p l dest s, chain s.(pk).(structs) p (p :: l) -> (length l < loop_fuel)%nat ->
  (s.(pk).(structs) p).(type) = PBUF_RAM \/ (s.(pk).(structs) p).(type) = PBUF_POOL ->
  exists s' w, netif_output n p dest s = Ok (ERR_OK, s') /\ touches s.(pk) p s'.(pk) /\ s'.(nt) = s.(nt) <| drv := w |> /\
    sent w = sent s.(nt).(drv) ++ [(n, dest, content s.(pk).(structs) s.(pk).(data) (p :: l))].

Abbreviation input := (ip4_input NOASSERT IPFRAG_FREE other_free tcpip_callback_ok IP_FORWARD ALLOW_TX_ON_RX_NETIF netif_output' recv_callback tcp_input).
Abbreviation sendto := (udp_sendto NOASSERT IPFRAG_FREE other_free tcpip_callback_ok netif_output).

(** The control block that gets a datagram accepted by the interface [n]. *)
Definition listener (e : net) (n inp src dst sport dport : Z) : Z :=
  receiver sport dport dst src (netif_ip4_netmask (e.(netif_tab) inp))
    (negb (ip4_addr_isbroadcast_u32 dst (e.(netif_tab) n).(if4) =? 0)) e.(udp).(pcbs) e.(udp).(udp_pcbs).

(** A host that takes packets from [src] to [dst] and has a listener for them. *)
Record listening (e : net) (inp src dst sport dport : Z) : Prop := {
  li_accepts : input_netif e dst inp <> 0;
  li_source : ip4_addr_isbroadcast_u32 src (e.(netif_tab) inp).(if4) = 0 /\ ip4_addr_ismulticast src = false;
  li_pcbs : ~ In 0 e.(udp).(udp_pcbs);
  li_pcb : listener e (input_netif e dst inp) inp src dst sport dport <> 0;
  li_recv : (e.(udp).(pcbs) (listener e (input_netif e dst inp) inp src dst sport dport)).(recv) <> 0 }.

(** A UDP packet goes to the callback, without its headers. *)
Lemma input_udp r q lq inp tos id ttl flags src dst sport dport bytes :
  packet r.(pm) q lq (udp_packet tos id ttl flags src dst sport dport bytes) -> 28 <= (r.(pm).(structs) q).(Pbuf.len) -> bytes_in r.(pm) ->
  is_u8 tos -> is_u16 id -> is_u8 ttl -> is_u32 src -> is_u32 dst -> is_u16 sport -> is_u16 dport -> bytes_ok bytes ->
  listening r.(env) inp src dst sport dport ->
  let pcb := listener r.(env) (input_netif r.(env) dst inp) inp src dst sport dport in
  exists r1, input q inp r =
      (nm (recv_callback (r.(env).(udp).(pcbs) pcb).(recv) (r.(env).(udp).(pcbs) pcb).(recv_arg) pcb q src sport ;; no_packet) ;; ret ERR_OK) r1 /\
    packet r1.(pm) q lq bytes /\ r1.(pm).(mm) = r.(pm).(mm) /\ r1.(pm).(data) = r.(pm).(data) /\
    (forall a, a <> q -> r1.(pm).(structs) a = r.(pm).(structs) a) /\
    r1.(env).(udp).(pcbs) = r.(env).(udp).(pcbs) /\ r1.(env).(drv) = r.(env).(drv) /\
    r1.(env).(ip_data).(current_iphdr_src) = src /\ r1.(env).(ip_data).(current_iphdr_dest) = dst.
Proof.
  intros Hp Hl Hb Htos Hid Httl Hsrc Hdst Hsp Hdp Hbo [La [Ls1 Ls2] Lp Lr Lc] pcb. unfold udp_packet in Hp.
  set (ulen := 8 + Z.of_nat (length bytes)) in *. set (c := udp_chk flags src dst sport dport bytes) in *. set (ub := udp_hdr sport dport ulen c ++ bytes) in *.
  assert (Eu : 20 + ulen = 20 + Z.of_nat (length ub)) by (unfold ub, ulen; rewrite length_app; change (length (udp_hdr sport dport _ c)) with 8%nat; lia).
  rewrite Eu in Hp. set (h := ip_header tos (20 + Z.of_nat (length ub)) id 0 ttl IP_PROTO_UDP src dst) in *.
  pose proof (packet_tot_len _ _ _ _ Hp) as Htot. pose proof (packet_len _ _ _ _ Hp) as [_ Htl]. rewrite length_app in Htot. change (length h) with 20%nat in Htot.
  assert (Hn : ulen < 65536) by lia.
  assert (Hv : valid_packet r.(pm) q h) by (apply (packet_valid _ _ lq); auto; [lia|unfold IP_PROTO_UDP; word_lia]).
  assert (Hhs : iph_src h = src) by (now apply hdr_src). assert (Hhd : iph_dest h = dst) by (now apply hdr_dest).
  rewrite (input_passes_up NOASSERT IPFRAG_FREE other_free tcpip_callback_ok IP_FORWARD ALLOW_TX_ON_RX_NETIF netif_output' recv_callback tcp_input r q inp h Hv);
    [|now rewrite Hhd|now rewrite Hhs|now rewrite Hhs|reflexivity]. rewrite Hhs, Hhd. change (IPH_HL h * 4) with 20.
  set (n := input_netif (env r) dst inp) in *. set (e1 := addressed (env r) src dst).
  destruct (pass_up_hides NOASSERT IPFRAG_FREE other_free tcpip_callback_ok netif_output' recv_callback tcp_input (mkNst r.(pm) e1) q lq h ub n inp) as (m1 & Hp1 & Hm1 & Hd1 & Hs1 & Ho1 & E1);
    [exact Hp|reflexivity|cbn [pk]; lia|reflexivity|]. cbn [pk nt] in *. specialize (E1 _ (or_introl (conj eq_refl eq_refl))).
  set (a := payload (structs (pm r) q)) in *. set (s1 := mkNst m1 (current e1 n inp a)) in *.
  destruct (udp_chk_valid flags src dst sport dport bytes Hsrc Hdst Hsp Hdp Hbo Hn) as [Hcu Hcv].
  destruct (udp_input_delivers NOASSERT IPFRAG_FREE other_free tcpip_callback_ok netif_output' recv_callback s1 q lq inp sport dport c bytes) as (s2 & E2 & Hp2 & Hm2 & Hd2 & _ & Ho2 & u & t & He2 & Hu1 & Hu2);
    try assumption.
  - cbn [pk s1]. rewrite Hs1. cbn [Pbuf.len with_field]. lia.
  - intros x. cbn [pk s1]. rewrite Hd1. apply Hb.
  - exists (put r s2). split.
    + unfold bind. rewrite !nm_run, !ns_put, E1. unfold bind. rewrite E2.
      change (receiver_of (nt s1) inp sport dport) with pcb. change (pcbs (udp (nt s1))) with (pcbs (udp (env r))). change (current_iphdr_src (ip_data (nt s1))) with src.
      now destruct (recv_callback _ _ _ _ _ _ s2) as [[x s3]| |].
    + cbn [pm env put with_field]. split; [exact Hp2|]. split; [exact (eq_trans Hm2 Hm1)|]. split; [exact (eq_trans Hd2 Hd1)|]. split; [intros x Hx; rewrite Ho2 by assumption; now apply Ho1|].
      rewrite He2. cbn [udp drv ip_data with_field]. now repeat split.
Qed.

(** C13: What one host sends with [udp_sendto] the other one gets: the call puts
    one packet on the link of the interface [ip4_route] chooses, and when that
    packet comes in through [ip4_input] of a host that has a listener for it,
    the listener's [recv] function is called with exactly the bytes that were
    sent, the source address and the source port; [ip4_input] does nothing else
    but clear the addresses of the current packet. *)
Theorem udp_roundtrip (s : nst) pcb p l dst dport : let b := s.(nt).(udp).(pcbs) pcb in
  let n := route s.(nt) dst in let src := source_ip s.(nt) pcb n in let bytes := content s.(pk).(structs) s.(pk).(data) (p :: l) in
  n <> 0 -> datagram_ready s pcb p l n -> is_u16 dport -> is_u32 src -> is_u32 dst -> src = netif_ip4_addr (s.(nt).(netif_tab) n) ->
  exists s' frame, sendto pcb p (Some dst) dport s = Ok (ERR_OK, s') /\ sent s'.(nt).(drv) = sent s.(nt).(drv) ++ [(n, dst, frame)] /\
    s'.(pk).(mm) = s.(pk).(mm) /\
    forall r q lq inp, packet r.(pm) q lq frame -> 28 <= (r.(pm).(structs) q).(Pbuf.len) -> bytes_in r.(pm) ->
      listening r.(env) inp src dst b.(local_port) dport ->
      let pcb' := listener r.(env) (input_netif r.(env) dst inp) inp src dst b.(local_port) dport in
      exists r1, input q inp r =
          (nm (recv_callback (r.(env).(udp).(pcbs) pcb').(recv) (r.(env).(udp).(pcbs) pcb').(recv_arg) pcb' q src b.(local_port) ;; no_packet) ;; ret ERR_OK) r1 /\
        packet r1.(pm) q lq bytes /\ r1.(pm).(mm) = r.(pm).(mm) /\ r1.(env).(udp).(pcbs) = r.(env).(udp).(pcbs) /\ r1.(env).(drv) = r.(env).(drv).
Proof.
  intros b n src bytes Hn Hr Hdp Hsrc Hdst Hip.
  destruct (sendto_sends NOASSERT IPFRAG_FREE other_free tcpip_callback_ok netif_output sent link_sends s pcb p l dst dport Hn Hr Hdp Hsrc Hdst Hip) as (s' & E & Ht & _ & _ & Hs).
  eexists s', _. split; [exact E|]. split; [exact Hs|]. split; [apply Ht|]. intros r q lq inp Hp Hl Hb Hli pcb'.
  destruct Hr as [Ho Hlen Hbm Hpcb Hport Htos Httl Hid Hmtu]. pose proof Ho as [_ _ _ _ _ _ Htot _ _].
  destruct (input_udp r q lq inp _ _ _ _ _ _ _ _ bytes Hp Hl Hb Htos Hid Httl Hsrc Hdst) as (r1 & E1 & H1 & H2 & H3 & H4 & H5 & H6 & _); try assumption.
  - unfold b. word_lia.
  - now apply content_bytes_ok.
  - exists r1. auto.
Qed.
End RoundTrip.
