(* ===== verification/IcmpProto.v ===== *)
(** * ICMP messages

    The answer to an echo request, with its checksum updated in place, and the
    error messages, which quote 28 bytes of a packet. *)

From Stdlib Require Import ZArith List Lia Bool Permutation.
From S2P Require Import Prelude Def Chksum Ip4Addr Mem PbufMem Pbuf PbufCopy Ip4Frag UdpPcb Ip4Out Packet Ip4Send Icmp Udp UdpProto Ip4In Ip4Recv.
Import ListNotations.
Open Scope Z_scope.
Open Scope c_scope.

(** A message with its type, code and checksum, and the checksum of the answer
    to an echo request. *)
Definition icmp_msg (type code chk : Z) (rest : list Z) : list Z := [type; code] ++ put16 chk ++ rest.
Definition reply_chk (c : Z) : Z := if c >? 0xfff7 then u16 (c + 9) else u16 (c + 8).

Lemma reply_chk_u16 c : is_u16 (reply_chk c).
Proof. unfold reply_chk. destruct (c >? 65527); apply u16_ok. Qed.

(** The message with the new type and checksum is as valid as the old one. *)
Lemma reply_chk_valid code c rest : is_u8 code -> is_u16 c -> bytes_ok rest -> rfc1071_field (icmp_msg ICMP_ECHO code c rest) = 0 ->
  rfc1071_field (icmp_msg ICMP_ER code (reply_chk c) rest) = 0.
Proof.
  intros Hcode Hc Hr. pose proof (word_sum_nonneg _ Hr) as Hw.
  assert (Hs : forall t v, is_u16 v -> word_sum (icmp_msg t code v rest) = t + 256 * code + v + word_sum rest).
  { intros t v Hv. unfold icmp_msg, put16. cbn [app word_sum]. rewrite le16_put16 by assumption. unfold le16. lia. }
  unfold rfc1071_field, rfc1071. rewrite !Hs by (assumption || apply reply_chk_u16). unfold ICMP_ECHO, ICMP_ER, reply_chk.
  set (S := 8 + 256 * code + c + word_sum rest). intros H.
  replace (oc_norm (0 + 256 * code + (if c >? 65527 then u16 (c + 9) else u16 (c + 8)) + word_sum rest)) with (oc_norm S); [exact H|].
  rewrite Z.gtb_ltb. destruct (Z.ltb_spec 65527 c) as [Hlt|Hge].
  - replace (u16 (c + 9)) with (c + 9 - 65536) by word_div. apply oc_norm_proper, (oc_eq_diff _ _ 1); unfold S; word_lia.
  - rewrite u16_id by word_lia. f_equal. unfold S. lia.
Qed.

Section Echo.
Context {PMem : PbufMemory} {W : World}.
Variable NOASSERT : bool.
Variable IPFRAG_FREE : Z.
Variable other_free : Z -> Z -> PB unit.
Variable tcpip_callback_ok : pst -> bool.
Variables IP_FORWARD ALLOW_TX_ON_RX_NETIF : bool.
Variable netif_output : Z -> Z -> Z -> NM err_t.
Variable recv_callback : Z -> Z -> Z -> Z -> Z -> Z -> NM unit.
Variable tcp_input : Z -> Z -> NM unit.
Variable sent : Drv -> list (Z * Z * list Z).
Hypothesis link_sends : forall n p l dest s, chain s.(pk).(structs) p (p :: l) -> (length l < loop_fuel)%nat ->
  (s.(pk).(structs) p).(type) = PBUF_RAM \/ (s.(pk).(structs) p).(type) = PBUF_POOL ->
  exists s' w, netif_output n p dest s = Ok (ERR_OK, s') /\ touches s.(pk) p s'.(pk) /\ s'.(nt) = s.(nt) <| drv := w |> /\
    sent w = sent s.(nt).(drv) ++ [(n, dest, content s.(pk).(structs) s.(pk).(data) (p :: l))].

Abbreviation reply := (echo_reply NOASSERT IPFRAG_FREE other_free tcpip_callback_ok netif_output).
Abbreviation input := (ip4_input NOASSERT IPFRAG_FREE other_free tcpip_callback_ok IP_FORWARD ALLOW_TX_ON_RX_NETIF netif_output recv_callback tcp_input).

(** A request in a buffer with room for the link header in front of it; [a] is
    its IP header, which the payload pointer is behind. *)
Record echo_buffer (m : pst) (p : Z) (l : list Z) (a : Z) : Prop := {
  eb_type : (m.(structs) p).(type) = PBUF_RAM \/ (m.(structs) p).(type) = PBUF_POOL;
  eb_ref : (m.(structs) p).(ref) = 1;
  eb_at : (m.(structs) p).(payload) = a + 20;
  eb_room : p + SIZEOF_STRUCT_PBUF + 14 <= a;
  eb_len : 4 <= (m.(structs) p).(len) /\ (m.(structs) p).(len) + 34 < 65536;
  eb_tot : (m.(structs) p).(tot_len) + 34 < 65536;
  eb_apart : forall x y, In x l -> in_payload m.(structs) x y -> ~ a <= y < a + 20 + (m.(structs) p).(len) }.

(** The bytes of header and message after the stores of [echo_reply]. *)
Lemma reply_stored d a tos len id off ttl proto chk src dst x y code c cf : is_u16 c ->
  load_list d a 24 = ip_hdr tos len id off ttl proto chk src dst ++ [ICMP_ECHO; code] ++ put16 c ->
  load_list (store_list (a + 10) (put16 cf) (store_list (a + 8) [ICMP_TTL] (store_list (a + 22) (put16 (reply_chk c))
    (store_list (a + 20) [ICMP_ER] (store_list (a + 16) (put32 y) (store_list (a + 12) (put32 x) d)))))) a 24 =
  ip_hdr tos len id off ICMP_TTL proto cf x y ++ [ICMP_ER; code] ++ put16 (reply_chk c).
Proof. intros Hc H. do 6 (rewrite load_patch by (cbn [length put16 put32]; lia)). rewrite H. reflexivity. Qed.

(** What answering changes: the lengths and the payload pointer of the first
    pbuf, the bytes in front of the message and its first four. *)
Record answered (m : pst) (p a : Z) (m' : pst) : Prop := {
  an_mm : m'.(mm) = m.(mm);
  an_first : exists pl ln tl, m'.(structs) p = (m.(structs) p) <| payload := pl |> <| len := ln |> <| tot_len := tl |>;
  an_other : forall x, x <> p -> m'.(structs) x = m.(structs) x;
  an_data : forall x, ~ p + SIZEOF_STRUCT_PBUF <= x < a + 24 -> m'.(data) x = m.(data) x }.

Lemma echo_reply_sends (s : nst) p l a n tos T id off ttl proto chk s0 d0 code c rest my peer :
  packet s.(pk) p l (icmp_msg ICMP_ECHO code c rest) -> echo_buffer s.(pk) p l a ->
  load_list s.(pk).(data) a 20 = ip_hdr tos T id off ttl proto chk s0 d0 ->
  is_u8 tos -> is_u16 T -> is_u16 id -> is_u16 off -> is_u8 proto -> is_u16 c -> is_u32 peer ->
  s.(nt).(ip_data).(current_iphdr_src) = peer ->
  (s.(nt).(netif_tab) n).(if_mtu) = 0 \/ (s.(pk).(structs) p).(tot_len) + 20 <= (s.(nt).(netif_tab) n).(if_mtu) ->
  exists s', reply p 20 my n s = Ok (tt, s') /\ answered s.(pk) p a s'.(pk) /\ kept s.(nt) s'.(nt) /\ s'.(nt).(ip_id) = s.(nt).(ip_id) /\
    sent s'.(nt).(drv) = sent s.(nt).(drv) ++
      [(n, peer, ip_header tos T id off ICMP_TTL proto my peer ++ icmp_msg ICMP_ER code (reply_chk c) rest)].
Proof.
  intros Hpk [Bt Br Bat Broom Bl Btot Bap] Hh Htos HT Hid Hoff Hproto Hc Hpeer Hcur Hmtu. pose proof (packet_len _ _ _ _ Hpk) as [L1 L2].
  destruct (packet_show NOASSERT s.(pk) p l _ 20 Hpk ltac:(lia) Bt ltac:(lia) ltac:(lia)) as (m1 & E1 & Hpk1 & Hm1 & Hd1 & Hs1 & Ho1).
  rewrite Bat in Hpk1, Hs1. replace (a + 20 - 20) with a in * by lia. rewrite Hh in Hpk1. unfold icmp_msg in Hpk1.
  rewrite !app_assoc in Hpk1. rewrite <- (app_assoc _ [ICMP_ECHO; code]) in Hpk1. set (pre := ip_hdr _ _ _ _ _ _ _ _ _ ++ _ ++ _) in Hpk1.
  assert (H24 : load_list (data m1) a 24 = pre).
  { replace a with (payload (structs m1 p)) by (now rewrite Hs1). apply (packet_front m1 p l pre rest 24 Hpk1 eq_refl). rewrite Hs1. cbn [len with_field]. lia. }
  unfold echo_reply, pbuf_at. rewrite bind_gets, Bat, (net_pb _ _ _ _ _ E1). change (negb (0 =? 0)) with false. cbv iota. set (s1 := s <| pk := m1 |>).
  rewrite bind_gets. change (pk s1) with m1. rewrite Hs1. cbn [payload with_field]. rewrite net_store. unfold onet. rewrite bind_gets.
  change (nt (net_data s1 _)) with (nt s). rewrite Hcur. do 2 (rewrite net_store, net_data_twice, data_net_data). change (data (pk s1)) with (data m1).
  set (d3 := store_list (a + 20) _ _). replace (a + 20 + 2) with (a + 22) by lia.
  rewrite (bind_load16 _ _ _ a 24 _ 22 eq_refl) by (cbn; lia). rewrite data_net_data.
  replace (field16 (load_list d3 a 24) 22) with c.
  2:{ unfold d3. do 3 (rewrite load_patch by (cbn [length put32]; lia)). rewrite H24. symmetry. exact (le16_put16 c Hc). }
  match goal with |- context [bind (if ?b then ?x else ?y) ?k ?st] =>
    assert (Ec : (if b then x else y) st = Ok (tt, net_data s1 (store_list (a + 22) (put16 (reply_chk c)) d3))) end.
  { unfold reply_chk. change (PP_HTONS (65535 - (ICMP_ECHO << 8))) with 65527. destruct (c >? 65527); reflexivity. }
  rewrite (bind_ok _ _ _ _ _ Ec). clear Ec. do 2 (rewrite net_store, ?net_data_twice, ?data_net_data). unfold load. rewrite bind_gets, data_net_data.
  set (d6 := store_list (a + 10) (put16 0) _).
  assert (H6 : load_list d6 a 24 = ip_hdr tos T id off ICMP_TTL proto 0 my peer ++ [ICMP_ER; code] ++ put16 (reply_chk c))
    by (unfold d6, d3; eapply reply_stored; [exact Hc|exact H24]).
  assert (H620 : load_list d6 a 20 = ip_hdr tos T id off ICMP_TTL proto 0 my peer).
  { change 24 with (20 + 4) in H6. rewrite load_app in H6 by lia. apply app_inj_length in H6; [tauto|]. reflexivity. }
  rewrite H620, inet_chksum_rfc1071; [|apply ip_hdr_ok; try assumption; unfold ICMP_TTL; word_lia|vm_compute; discriminate].
  set (cf := rfc1071_field _). rewrite net_store, net_data_twice, data_net_data. set (D := store_list (a + 10) (put16 cf) d6).
  assert (HD : load_list D a 24 = ip_header tos T id off ICMP_TTL proto my peer ++ [ICMP_ER; code] ++ put16 (reply_chk c)).
  { unfold D. rewrite load_patch by (cbn [length put16]; lia). rewrite H6. reflexivity. }
  assert (HD2 : forall x, ~ a <= x < a + 24 -> D x = data (pk s) x).
  { intros x Hx. unfold D, d6, d3. rewrite !store_other by (cbn [length put16 put32]; lia). now rewrite Hd1. }
  clearbody D. clear d6 H6 H620 d3. unfold ICMP_STATS, mnet. rewrite bind_modify. set (s2 := _ <| nt := _ |>).
  unfold ip4_output_if, netif_at, onet. rewrite bind_assoc, bind_gets. unfold ip4_output_if_src, pbuf_at. rewrite bind_assoc, bind_gets.
  assert (Hs2 : structs (pk s2) = structs m1) by reflexivity. rewrite Hs2, Hs1. cbn [ref payload with_field].
  rewrite bind_assoc, net_assert by (now rewrite Br). unfold load. rewrite bind_assoc, bind_gets. change (data (pk s2)) with D.
  assert (HD20 : load_list D a IP_HLEN = ip_header tos T id off ICMP_TTL proto my peer).
  { change 24 with (20 + 4) in HD. rewrite load_app in HD by lia. apply app_inj_length in HD; [tauto|]. reflexivity. }
  rewrite HD20. unfold ip_header at 1. rewrite hdr_dest by assumption.
  assert (Hpk2 : packet (m1 <| data := D |>) p l (load_list D (structs m1 p).(payload) 24 ++ rest)).
  { apply (packet_patch m1 p l pre rest D 24 Hpk1); [reflexivity| | |]; rewrite ?Hs1; cbn [len payload with_field]; [lia| |].
    - intros x y Hx Hy Hin. unfold in_payload in *. rewrite Hs1 in Hin. cbn [len payload with_field] in Hin.
      rewrite Ho1 in Hy by (intros ->; exact (pa_fresh _ _ _ _ Hpk Hx)). apply (Bap x y Hx Hy). lia.
    - intros x Hx. rewrite Hd1. now apply HD2. }
  rewrite Hs1 in Hpk2. cbn [payload with_field] in Hpk2. rewrite HD in Hpk2. destruct Hpk2 as [Pc Pf Pl Ps Pt Pp Pb].
  destruct (transmit_sends NOASSERT IPFRAG_FREE other_free tcpip_callback_ok netif_output sent link_sends s2 p l n peer) as (s' & E' & Htc & Hk & Hi & Hsent).
  - exact Pc.
  - exact Ps.
  - rewrite Hs2, Hs1. exact Bt.
  - rewrite Hs2, Hs1. cbn [tot_len with_field]. exact Hmtu.
  - rewrite (bind_ok _ _ _ _ _ E'). exists s'. split; [reflexivity|]. split; [|split; [exact Hk|split; [exact Hi|]]].
    + destruct Htc as [T1 (x1 & x2 & x3 & T2) T3 T4]. split.
      * rewrite T1. exact Hm1.
      * exists x1, x2, x3. rewrite T2, Hs2, Hs1. reflexivity.
      * intros x Hx. rewrite T3, Hs2 by assumption. now apply Ho1.
      * intros x Hx. rewrite Hs2, Hs1 in T4. cbn [payload with_field] in T4. rewrite T4 by lia. apply HD2. lia.
    + rewrite Hsent. change (drv (nt s2)) with (drv (nt s)). do 3 f_equal. refine (eq_trans Pb _). rewrite <- !app_assoc. reflexivity.
Qed.

(** The buffer the request came in is used for the answer. *)
Lemma room_in_place (s : nst) p l a bytes : packet s.(pk) p l bytes -> echo_buffer s.(pk) p l a ->
  exists m', room_for_link NOASSERT IPFRAG_FREE other_free tcpip_callback_ok p a 20 s = Ok (Some p, s <| pk := m' |>) /\
    packet m' p l bytes /\ m'.(mm) = s.(pk).(mm) /\ m'.(data) = s.(pk).(data) /\ forall x, m'.(structs) x = s.(pk).(structs) x.
Proof.
  intros Hpk [Bt Br Bat Broom Bl Btot Bap]. unfold room_for_link. change (20 + PBUF_LINK_HLEN + PBUF_LINK_ENCAPSULATION_HLEN) with 34.
  destruct (packet_show NOASSERT s.(pk) p l bytes 34 Hpk ltac:(lia) Bt ltac:(lia) ltac:(lia)) as (m1 & E1 & Hpk1 & Hm1 & Hd1 & Hs1 & Ho1).
  rewrite (net_pb _ _ _ _ _ E1). change (negb (0 =? 0)) with false. cbv iota. set (s1 := s <| pk := m1 |>).
  destruct (packet_hide NOASSERT m1 p l _ bytes 34 Hpk1) as (m2 & E2 & Hpk2 & Hm2 & Hd2 & Hs2 & Ho2).
  { now rewrite load_list_length. } { rewrite Hs1. cbn [len with_field]. lia. }
  rewrite (net_pb _ _ s1 _ _ E2). change (negb (0 =? 0)) with false. cbv iota. exists m2. split; [reflexivity|].
  split; [exact Hpk2|]. split; [congruence|]. split; [congruence|]. intros x. destruct (Z.eq_dec x p) as [->|Hne]; [|now rewrite Ho2, Ho1].
  rewrite Hs2, Hs1. destruct (structs (pk s) p) as [b1 b2 b3 b4 b5 b6 b7]. cbn [payload len tot_len next type flags ref with_field]. f_equal; lia.
Qed.

Lemma echo_buffer_ext m m' p l a : (forall x, m'.(structs) x = m.(structs) x) -> echo_buffer m p l a -> echo_buffer m' p l a.
Proof.
  intros H [Bt Br Bat Broom Bl Btot Bap]. split; rewrite ?H; auto. intros x y Hx. unfold in_payload. rewrite H. exact (Bap x y Hx).
Qed.

Abbreviation icmp_in := (icmp_input NOASSERT IPFRAG_FREE other_free tcpip_callback_ok netif_output).

(** All of the packet's pbufs are this packet's only. *)
Definition sole (f : Z -> pbuf) (l : list Z) : Prop := Forall (fun a => (f a).(ref) = 1 /\ not_custom (f a)) l.

(** Freeing a packet gives all its memory back. *)
Lemma free_packet (s : nst) p l sz bs : chain s.(pk).(structs) p (p :: l) -> NoDup (p :: l) -> (length l < loop_fuel - 1)%nat -> sole s.(pk).(structs) (p :: l) ->
  owns s.(pk).(mm) (held s.(pk).(structs) sz (p :: l) ++ bs) ->
  exists m', Ip4Out.free NOASSERT IPFRAG_FREE other_free p s = Ok (tt, s <| pk := m' |>) /\ owns m'.(mm) bs /\ m'.(data) = s.(pk).(data) /\
    forall x, ~ In x (p :: l) -> m'.(structs) x = s.(pk).(structs) x.
Proof.
  intros Hc Hnd Hf Hone Ho. destruct (chain_nonnull _ _ _ _ Hc) as [_ Hp0].
  destruct (free_loop_spec NOASSERT (custom_free_function NOASSERT IPFRAG_FREE other_free) tcpip_callback_ok sz bs [] (p :: l) loop_fuel p 0 s.(pk)) as (m' & E & Ho' & Hd & Hs);
    rewrite ?app_nil_r; auto; [cbn [length]; lia|lia|].
  exists m'. split; [|auto]. unfold Ip4Out.free. unfold pbuf_free. rewrite Hp0. now rewrite (net_pb _ _ _ _ _ E).
Qed.

(** [icmp_input] with an echo request. *)
Lemma icmp_input_echo (s : nst) p l a n inp tos T id off ttl chk src dst code c rest sz bs :
  packet s.(pk) p l (icmp_msg ICMP_ECHO code c rest) -> echo_buffer s.(pk) p l a -> bytes_in s.(pk) ->
  load_list s.(pk).(data) a 20 = ip_hdr tos T id off ttl IP_PROTO_ICMP chk src dst ->
  is_u8 tos -> is_u16 T -> is_u16 id -> is_u16 off -> is_u16 c -> is_u32 src ->
  rfc1071_field (icmp_msg ICMP_ECHO code c rest) = 0 -> (4 <= length rest)%nat ->
  s.(nt).(ip_data) = mkGlobals n inp a 20 src dst -> ip4_addr_ismulticast dst = false -> ip4_addr_isbroadcast_u32 dst (s.(nt).(netif_tab) n).(if4) = 0 ->
  (s.(nt).(netif_tab) inp).(if_mtu) = 0 \/ (s.(pk).(structs) p).(tot_len) + 20 <= (s.(nt).(netif_tab) inp).(if_mtu) ->
  NoDup (p :: l) -> (length l < loop_fuel - 1)%nat -> sole s.(pk).(structs) (p :: l) -> owns s.(pk).(mm) (held s.(pk).(structs) sz (p :: l) ++ bs) ->
  exists s', icmp_in p inp s = Ok (tt, s') /\ owns s'.(pk).(mm) bs /\ kept s.(nt) s'.(nt) /\
    sent s'.(nt).(drv) = sent s.(nt).(drv) ++
      [(inp, src, ip_header tos T id off ICMP_TTL IP_PROTO_ICMP dst src ++ icmp_msg ICMP_ER code (reply_chk c) rest)].
Proof.
  intros Hpk Hbuf Hb Hh Htos HT Hid Hoff Hc Hsrc Hval Hrest Hg Hm Hbc Hmtu Hnd Hf Hone Ho. pose proof Hbuf as [Bt Br Bat Broom Bl Btot Bap].
  pose proof (packet_len _ _ _ _ Hpk) as [L1 L2]. pose proof (packet_tot_len _ _ _ _ Hpk) as Ht.
  assert (H20 : data (pk s) (a + 20) = ICMP_ECHO).
  { pose proof (packet_front _ _ _ [ICMP_ECHO] _ 1 Hpk eq_refl ltac:(lia)) as H1. rewrite Bat in H1. assert (E : nth 0 (load_list (data (pk s)) (a + 20) 1) 0 = ICMP_ECHO) by now rewrite H1.
    rewrite nth_loaded in E by (cbn; lia). change (Z.of_nat 0) with 0 in E. now rewrite Z.add_0_r in E. }
  assert (H00 : data (pk s) a = 69).
  { assert (E : nth 0 (load_list (data (pk s)) a 20) 0 = 69) by now rewrite Hh. rewrite nth_loaded in E by (cbn; lia). change (Z.of_nat 0) with 0 in E. now rewrite Z.add_0_r in E. }
  unfold icmp_input, ICMP_STATS, mnet. rewrite bind_modify. set (s1 := s <| nt := _ |>). unfold onet. rewrite bind_gets. change (ip_data (nt s1)) with (ip_data (nt s)). rewrite Hg. cbn [current_ip4_header].
  unfold load8. rewrite bind_gets. change (pk s1) with (pk s). rewrite H00. change ((69 .& 15) * 4) with 20. change (20 <? IP_HLEN) with false. cbv iota.
  unfold pbuf_at. rewrite bind_gets. change (pk s1) with (pk s). rewrite (proj2 (Z.ltb_ge (len (structs (pk s) p)) 4)) by lia. rewrite bind_gets. change (pk s1) with (pk s). rewrite Bat, H20.
  change (ICMP_ECHO =? ICMP_ER) with false. change (ICMP_ECHO =? ICMP_ECHO) with true. cbv iota.
  unfold icmp_echo, onet. rewrite bind_gets. change (ip_data (nt s1)) with (ip_data (nt s)). rewrite Hg. cbn [current_iphdr_dest current_netif]. rewrite Hm.
  unfold netif_at, onet. rewrite bind_gets. change (netif_tab (nt s1)) with (netif_tab (nt s)). rewrite Hbc. change (negb (0 =? 0)) with false. cbv iota.
  unfold pbuf_at. rewrite bind_gets. change (pk s1) with (pk s). rewrite (proj2 (Z.ltb_ge (tot_len (structs (pk s) p)) SIZEOF_ICMP_ECHO_HDR))
    by (rewrite Ht; unfold icmp_msg, SIZEOF_ICMP_ECHO_HDR; rewrite !length_app; cbn [length put16]; lia).
  rewrite (bind_ok _ _ _ _ _ (segs_spec s1 (p :: l) loop_fuel p (pa_chain _ _ _ _ Hpk) ltac:(pose proof (pa_short _ _ _ _ Hpk); cbn [length]; lia))).
  change (pk s1) with (pk s). rewrite inet_chksum_pbuf_rfc1071, segs_bytes, (pa_content _ _ _ _ Hpk), Hval.
  2:{ apply segs_ok; [exact Hb|]. apply Forall_forall. intros x Hx. destruct (lengths_le _ _ (pa_lengths _ _ _ _ Hpk) x Hx). pose proof (pa_small _ _ _ _ Hpk). unfold is_u16. lia. }
  change (negb (0 =? 0)) with false. cbv iota.
  destruct (room_in_place s1 p l a _ Hpk Hbuf) as (m2 & E2 & Hpk2 & Hm2 & Hd2 & Hs2). rewrite (bind_ok _ _ _ _ _ E2). set (s2 := s1 <| pk := m2 |>).
  destruct (echo_reply_sends s2 p l a inp tos T id off ttl IP_PROTO_ICMP chk src dst code c rest dst src) as (s3 & E3 & Han & Hk3 & _ & Hsent); try assumption.
  - now apply (echo_buffer_ext (pk s)).
  - change (load_list (data m2) a 20 = ip_hdr tos T id off ttl IP_PROTO_ICMP chk src dst). rewrite Hd2. exact Hh.
  - unfold IP_PROTO_ICMP. word_lia.
  - change (ip_data (nt s2)) with (ip_data (nt s)). now rewrite Hg.
  - change (structs (pk s2) p) with (structs m2 p). rewrite Hs2. exact Hmtu.
  - rewrite (bind_ok _ _ _ _ _ E3). destruct Han as [A1 (x1 & x2 & x3 & A2) A3 A4].
    assert (Hst : forall x, next (structs (pk s3) x) = next (structs (pk s) x) /\ type (structs (pk s3) x) = type (structs (pk s) x) /\
      flags (structs (pk s3) x) = flags (structs (pk s) x) /\ ref (structs (pk s3) x) = ref (structs (pk s) x)).
    { intros x. destruct (Z.eq_dec x p) as [->|Hne]; [rewrite A2|rewrite A3 by assumption]; change (structs (pk s2)) with (structs m2); rewrite Hs2; repeat split. }
    destruct (free_packet s3 p l sz bs) as (m4 & E4 & Ho4 & _); auto.
    + apply (chain_ext (structs (pk s))); [intros x _; apply Hst|apply (pa_chain _ _ _ _ Hpk)].
    + eapply Forall_impl; [|exact Hone]. intros x [Hr Hn]. unfold not_custom in *. destruct (Hst x) as (_ & _ & -> & ->). auto.
    + rewrite A1. change (mm (pk s2)) with (mm m2). rewrite Hm2. rewrite (held_ext (structs (pk s))); [exact Ho|]. intros x _. apply Hst.
    + rewrite E4. eexists. split; [reflexivity|]. cbn [pk nt with_field]. split; [exact Ho4|]. split; [exact Hk3|exact Hsent].
Qed.

(** An echo request to this host as it comes in: the packet, in buffers of its
    own with room for a link header in front. *)
Record echo_request (r : rst) (q : Z) (lq : list Z) (inp tos id ttl src dst code c : Z) (rest : list Z) : Prop := {
  er_packet : packet r.(pm) q lq (ip_header tos (24 + Z.of_nat (length rest)) id 0 ttl IP_PROTO_ICMP src dst ++ icmp_msg ICMP_ECHO code c rest);
  er_bytes : bytes_in r.(pm);
  er_fields : is_u8 tos /\ is_u16 id /\ is_u8 ttl /\ is_u32 src /\ is_u32 dst /\ is_u16 c;
  er_valid : rfc1071_field (icmp_msg ICMP_ECHO code c rest) = 0;
  er_header : (4 <= length rest)%nat;
  er_type : (r.(pm).(structs) q).(type) = PBUF_RAM \/ (r.(pm).(structs) q).(type) = PBUF_POOL;
  er_room : q + SIZEOF_STRUCT_PBUF + 14 <= (r.(pm).(structs) q).(payload);
  er_len : 24 <= (r.(pm).(structs) q).(len);
  er_tot : (r.(pm).(structs) q).(tot_len) + 14 < 65536;
  er_apart : forall x y, In x lq -> in_payload r.(pm).(structs) x y -> ~ in_payload r.(pm).(structs) q y;
  er_nodup : NoDup (q :: lq);
  er_short : (length lq < loop_fuel - 1)%nat;
  er_sole : sole r.(pm).(structs) (q :: lq);
  er_for_us : input_netif r.(env) dst inp <> 0;
  er_unicast : ip4_addr_ismulticast dst = false /\ ip4_addr_isbroadcast_u32 dst (r.(env).(netif_tab) (input_netif r.(env) dst inp)).(if4) = 0;
  er_source : ip4_addr_isbroadcast_u32 src (r.(env).(netif_tab) inp).(if4) = 0 /\ ip4_addr_ismulticast src = false;
  er_mtu : (r.(env).(netif_tab) inp).(if_mtu) = 0 \/ (r.(pm).(structs) q).(tot_len) <= (r.(env).(netif_tab) inp).(if_mtu) }.

(** C18: [ip4_input] answers an echo request to this host: exactly one packet
    goes back through the interface, from the address that was asked to the one
    that asked, with the same identifier, sequence number and data, a time to
    live of 255, a valid header checksum and a valid ICMP checksum (which the
    code does not recompute but adjusts); all memory of the request is given
    back, and interfaces, control blocks and reassembly are as they were. *)
Theorem icmp_echo_answered r q lq inp tos id ttl src dst code c rest sz bs : echo_request r q lq inp tos id ttl src dst code c rest ->
  owns r.(pm).(mm) (held r.(pm).(structs) sz (q :: lq) ++ bs) ->
  let hdr := ip_header tos (24 + Z.of_nat (length rest)) id 0 ICMP_TTL IP_PROTO_ICMP dst src in
  let msg := icmp_msg ICMP_ER code (reply_chk c) rest in
  exists r', input q inp r = Ok (ERR_OK, r') /\
    sent r'.(env).(drv) = sent r.(env).(drv) ++ [(inp, src, hdr ++ msg)] /\
    (forall a, inet_chksum a hdr = 0) /\ rfc1071_field msg = 0 /\
    owns r'.(pm).(mm) bs /\ r'.(env).(netif_tab) = r.(env).(netif_tab) /\ r'.(env).(udp) = r.(env).(udp) /\
    r'.(reassdatagrams) = r.(reassdatagrams) /\ r'.(ip_reass_pbufcount) = r.(ip_reass_pbufcount).
Proof.
  intros [Hp Hb (Htos & Hid & Httl & Hsrc & Hdst & Hc) Hval Hrest Ht Hroom Hl Htot Hap Hnd Hf Hone Hus [Hu1 Hu2] [Hs1 Hs2] Hmtu] Ho hdr msg.
  set (T := 24 + Z.of_nat (length rest)) in *. set (w := icmp_msg ICMP_ECHO code c rest) in *.
  assert (ET : T = 20 + Z.of_nat (length w)) by (unfold T, w, icmp_msg; rewrite !length_app; cbn [length put16]; lia).
  pose proof (packet_tot_len _ _ _ _ Hp) as Htl. pose proof (packet_len _ _ _ _ Hp) as [L1 L2]. rewrite length_app in Htl. change (length (ip_header tos T id 0 ttl IP_PROTO_ICMP src dst)) with 20%nat in Htl.
  assert (HT : is_u16 T) by (rewrite ET; word_lia).
  set (h := ip_header tos T id 0 ttl IP_PROTO_ICMP src dst) in *.
  assert (Hv : valid_packet r.(pm) q h) by (unfold h; rewrite ET; apply (packet_valid _ _ lq); rewrite <- ?ET; auto; [lia|unfold IP_PROTO_ICMP; word_lia]).
  assert (Hhs : iph_src h = src) by (now apply hdr_src). assert (Hhd : iph_dest h = dst) by (now apply hdr_dest).
  rewrite (input_passes_up NOASSERT IPFRAG_FREE other_free tcpip_callback_ok IP_FORWARD ALLOW_TX_ON_RX_NETIF netif_output recv_callback tcp_input r q inp h Hv);
    [|now rewrite Hhd|now rewrite Hhs|now rewrite Hhs|reflexivity]. rewrite Hhs, Hhd. change (IPH_HL h * 4) with 20.
  set (n := input_netif (env r) dst inp) in *. set (e1 := addressed (env r) src dst).
  destruct (pass_up_hides NOASSERT IPFRAG_FREE other_free tcpip_callback_ok netif_output recv_callback tcp_input (mkNst r.(pm) e1) q lq h w n inp) as (m1 & Hp1 & Hm1 & Hd1 & Hst1 & Ho1 & E1);
    [exact Hp|reflexivity|cbn [pk]; lia|reflexivity|]. cbn [pk nt] in *. specialize (E1 _ (or_intror (conj eq_refl eq_refl))).
  set (a := payload (structs (pm r) q)) in *. set (s1 := mkNst m1 (current e1 n inp a)) in *.
  assert (Hst : forall x, type (structs m1 x) = type (structs (pm r) x) /\ flags (structs m1 x) = flags (structs (pm r) x) /\ ref (structs m1 x) = ref (structs (pm r) x)).
  { intros x. destruct (Z.eq_dec x q) as [->|Hne]; [rewrite Hst1|rewrite Ho1 by assumption]; repeat split. }
  destruct (icmp_input_echo s1 q lq a n inp tos T id 0 ttl (rfc1071_field (ip_hdr tos T id 0 ttl IP_PROTO_ICMP 0 src dst)) src dst code c rest sz bs) as (s2 & E2 & Ho2 & Hk2 & Hsent2);
    try assumption; try word_lia.
  - split; cbn [pk s1]; rewrite ?Hst1; cbn [payload len tot_len type ref with_field]; auto; try lia; try (now apply Forall_inv in Hone; apply Hone).
    intros x y Hx Hy Hin. assert (Hne : x <> q) by (intros ->; apply NoDup_cons_iff in Hnd; tauto). unfold in_payload in Hy. rewrite Ho1 in Hy by assumption.
    apply (Hap x y Hx Hy). unfold in_payload. fold a. lia.
  - intros x. cbn [pk s1]. rewrite Hd1. apply Hb.
  - cbn [pk s1]. rewrite Hd1. unfold a. apply (packet_front _ _ _ h w 20 Hp eq_refl). lia.
  - reflexivity.
  - cbn [nt s1 pk]. rewrite Hst1. cbn [tot_len with_field]. destruct Hmtu as [Hz|Hz]; [left; exact Hz|right]. change (netif_tab (current e1 n inp a)) with (netif_tab (env r)). lia.
  - eapply Forall_impl; [|exact Hone]. intros x [Hr Hn]. unfold not_custom in *. cbn [pk s1]. destruct (Hst x) as (_ & -> & ->). auto.
  - cbn [pk s1]. rewrite Hm1, (held_ext (structs (pm r))); [exact Ho|]. intros x _. apply Hst.
  - unfold bind at 1. rewrite nm_run, ns_put, E1, (bind_ok _ _ _ _ _ E2). eexists. split; [reflexivity|].
    destruct Hk2 as (K1 & K2 & K3 & K4 & K5). cbn [env put nt pm pk with_field drv netif_tab udp reassdatagrams ip_reass_pbufcount].
    split; [exact Hsent2|]. split; [intros x; apply ip_header_valid; try assumption; unfold ICMP_TTL, IP_PROTO_ICMP; word_lia|]. split.
    + assert (Hbw : bytes_ok w) by (apply (packet_bytes_ok m1 q lq); [exact Hp1|intros x; rewrite Hd1; apply Hb]). apply reply_chk_valid; try assumption.
      * unfold w, icmp_msg in Hbw. cbn [app] in Hbw. apply Forall_inv_tail in Hbw. now apply Forall_inv in Hbw.
      * unfold w, icmp_msg in Hbw. now apply bytes_ok_app in Hbw as [_ [_ H]%bytes_ok_app].
    + split; [exact Ho2|]. split; [exact K1|]. split; [exact K5|]. now split.
Qed.
End Echo.
