(* ===== verification/NetBoard.v ===== *)
(** * Two hosts

    A driver that logs the packets it sends, a callback that logs what it gets,
    and two hosts with the memory of a board that was just initialised: the
    hypotheses of the theorems about IP, UDP and ICMP hold there. *)

From Stdlib Require Import ZArith List Lia Bool Permutation.
From S2P Require Import Prelude Def Chksum Ip4Addr Mem PbufMem Pbuf PbufBoard PbufCopy Etharp EtharpProto EtharpBoard.
From S2P Require Import Ip4Frag UdpPcb Ip4Out Packet Ip4Send Icmp Udp UdpProto Ip4In Ip4Recv IcmpProto.
Import ListNotations.
Open Scope Z_scope.
Open Scope c_scope.

(** ** A driver and an application *)

(** The packets sent and the datagrams received. *)
Record log := mkLog { l_sent : list (Z * Z * list Z); l_heard : list (Z * list Z * Z * Z) }.
#[export] Instance log_eta : Eta log := { eta := fun r => mkLog r.(l_sent) r.(l_heard) }.
#[export] Instance log_world : World := { Drv := log }.

Section Driver.
Context {PMem : PbufMemory}.

Definition log_output (n p dest : Z) : NM err_t :=
  do l <- segs loop_fuel p;
  mnet (fun e => e <| drv := (e.(drv) : log) <| l_sent := l_sent e.(drv) ++ [(n, dest, chain_bytes l)] |> |>) ;;
  ret ERR_OK.

Lemma log_output_sends n p l dest (s : nst) : chain s.(pk).(structs) p (p :: l) -> (length l < loop_fuel)%nat ->
  (s.(pk).(structs) p).(type) = PBUF_RAM \/ (s.(pk).(structs) p).(type) = PBUF_POOL ->
  exists s' w, log_output n p dest s = Ok (ERR_OK, s') /\ touches s.(pk) p s'.(pk) /\ s'.(nt) = s.(nt) <| drv := w |> /\
    l_sent w = l_sent s.(nt).(drv) ++ [(n, dest, content s.(pk).(structs) s.(pk).(data) (p :: l))].
Proof.
  intros Hc Hf _. unfold log_output. rewrite (bind_ok _ _ _ _ _ (segs_spec s (p :: l) loop_fuel p Hc ltac:(cbn [length]; lia))).
  unfold mnet. rewrite bind_modify. eexists _, _. split; [reflexivity|]. split; [|split; [reflexivity|]].
  - split; try reflexivity; intros; try reflexivity. exists (s.(pk).(structs) p).(payload), (s.(pk).(structs) p).(len), (s.(pk).(structs) p).(tot_len).
    cbn [pk with_field]. destruct (structs (pk s) p) as [b1 b2 b3 b4 b5 b6 b7]. reflexivity.
  - cbn [l_sent with_field]. now rewrite segs_bytes.
Qed.

Definition log_recv (fn arg pcb p addr port : Z) : NM unit :=
  do l <- segs loop_fuel p;
  mnet (fun e => e <| drv := (e.(drv) : log) <| l_heard := l_heard e.(drv) ++ [(pcb, chain_bytes l, addr, port)] |> |>) ;;
  Ip4Out.free false 0 (fun _ _ => ret tt) p.
End Driver.

(** ** The hosts *)

(** 10.0.0.1/24 and 10.0.0.2/24. *)
Definition iface (addr : Z) : netif := mkNetif (mk_netif4 0x07 addr 0x00ffffff) 0xfe00000a 1500.
Definition ip_one : Z := 0x0100000a.
Definition ip_two : Z := 0x0200000a.

(** One interface, one control block, bound to a port of every address. *)
Definition pcb_on (port : Z) : udp_pcb := mkUdpPcb 0 0 0 0 UDP_TTL 0 port 0 77 78.
Definition host (addr port : Z) : @net log_world :=
  mkNet (fun _ => iface addr) [1] 1 7 (mkGlobals 0 0 0 0 0 0) (mkProto 0 0 0 0 0 0 0 0 0 0 0 0) (mkProto 0 0 0 0 0 0 0 0 0 0 0 0)
    (mkProto 0 0 0 0 0 0 0 0 0 0 0 0) 0 (mkUst [500] (fun _ => pcb_on port) UDP_LOCAL_PORT_RANGE_START [600]) (mkLog [] []).

(** A packet in one pbuf at [p], its bytes at [a]. *)
Definition holding (p a : Z) (bytes : list Z) (b : board) : @pst mem0 :=
  let n := Z.of_nat (length bytes) in
  @mkPst mem0 (fun _ => mkPbuf 0 a n n PBUF_RAM 0 1) (store_list a bytes (fun x => x mod 256)) b false 0.

Lemma holding_bytes p a bytes b : bytes_ok bytes -> bytes_in (holding p a bytes b).
Proof. intros H. refine (store_bytes_ok _ a bytes _ H). intros x. unfold is_u8. apply Z.mod_pos_bound. lia. Qed.

Lemma holding_packet p a bytes b : p <> 0 -> p + 16 <= a -> Z.of_nat (length bytes) < 65536 -> packet (holding p a bytes b) p [] bytes.
Proof.
  intros Hp Ha Hn. split; cbn [structs data holding].
  - now repeat split.
  - intros [].
  - cbn [lengths total len tot_len]. lia.
  - unfold loop_fuel. cbn [length]. lia.
  - cbn [total len]. lia.
  - exact Ha.
  - rewrite content_single. apply load_store_exact.
Qed.

Definition hello : list Z := [104; 101; 108; 108; 111].
Definition sender : @nst mem0 log_world := @mkNst mem0 log_world (holding 1000 1060 hello board0) (host ip_one 4711).
Definition receiver_host (frame : list Z) : @rst mem0 stack_surroundings :=
  @mkRst mem0 stack_surroundings (holding 5000 5030 frame board0) [] 0 5 (mkStats 0 0 0 0 0) (host ip_two 80).

Abbreviation no_free := (fun _ _ => ret tt).
Abbreviation no_tcp := (fun _ _ => ret tt).

(** The frame [udp_sendto] puts on the link. *)
Definition hello_frame : list Z := udp_packet 0 7 255 0 ip_one ip_two 4711 80 hello.

Lemma sender_ready : datagram_ready sender 500 1000 [] 1.
Proof.
  pose proof (holding_packet 1000 1060 hello board0 ltac:(lia) ltac:(lia) ltac:(cbn; lia)) as [Pc Pf Pl Ps Pt Pp Pb].
  split; try (cbn; lia); try (cbn; word_lia).
  - split; try assumption; try (cbn; lia); try reflexivity; try (now left); intros a x [].
  - apply holding_bytes. solve_Forall.
  - vm_compute. split; [discriminate|reflexivity].
Qed.

Lemma listening_two : listening (host ip_two 80) 1 ip_one ip_two 4711 80.
Proof. split; [vm_compute; discriminate|split; reflexivity|cbn; lia|vm_compute; discriminate|vm_compute; discriminate]. Qed.

Lemma udp_roundtrip_witness : exists s' r1,
  udp_sendto false 0 no_free (fun _ => true) log_output 500 1000 (Some ip_two) 80 sender = Ok (ERR_OK, s') /\
  l_sent s'.(nt).(drv) = [(1, ip_two, hello_frame)] /\ @packet mem0 r1.(Ip4Frag.pm) 5000 [] hello.
Proof.
  destruct (@udp_roundtrip mem0 log_world false 0 no_free (fun _ => true) false false log_output log_output log_recv no_tcp l_sent log_output_sends
    sender 500 1000 [] ip_two 80) as (s' & frame & E & Hs & _ & H).
  - vm_compute. discriminate.
  - exact sender_ready.
  - word_lia.
  - vm_compute. now split.
  - vm_compute. now split.
  - reflexivity.
  - assert (Hf : frame = hello_frame).
    { assert (Hc : match udp_sendto false 0 no_free (fun _ => true) log_output 500 1000 (Some ip_two) 80 sender with
                   | Ok (_, x) => l_sent x.(nt).(drv) | _ => [] end = [(1, ip_two, hello_frame)]) by (vm_compute; reflexivity).
      rewrite E in Hc. rewrite Hs in Hc. now injection Hc. }
    subst frame. destruct (H (receiver_host hello_frame) 5000 [] 1) as (r1 & _ & Hp & _).
    + apply holding_packet; [lia|lia|vm_compute; reflexivity].
    + vm_compute. discriminate.
    + apply holding_bytes. vm_compute. repeat constructor; discriminate.
    + exact listening_two.
    + exists s', r1. split; [exact E|]. split; [exact Hs|exact Hp].
Defined.

Lemma udp_demux_selects_witness : exists s', demux [500] [] 0 80 4711 ip_one ip_two 0x00ffffff false sender = Ok (500, s').
Proof.
  destruct (udp_demux_selects 80 4711 ip_one ip_two 0x00ffffff false sender) as (s' & E & _).
  - cbn. lia.
  - repeat constructor. intros [].
  - exists s'. exact E.
Defined.

(** ** A ping *)

(** Identifier 1, sequence number 2, four bytes of data. *)
Definition ping_rest : list Z := [0; 1; 0; 2; 97; 98; 99; 100].
Definition ping_chk : Z := rfc1071_field (icmp_msg ICMP_ECHO 0 0 ping_rest).
Definition ping : list Z := ip_header 0 32 9 0 64 IP_PROTO_ICMP ip_one ip_two ++ icmp_msg ICMP_ECHO 0 ping_chk ping_rest.
Definition pinged : @rst mem0 stack_surroundings :=
  @mkRst mem0 stack_surroundings (holding 20006 20036 ping mm1) [] 0 5 (mkStats 0 0 0 0 0) (host ip_two 80).

Lemma ping_request : echo_request pinged 20006 [] 1 0 9 64 ip_one ip_two 0 ping_chk ping_rest.
Proof.
  split.
  - apply (holding_packet 20006 20036 ping mm1); [lia|lia|vm_compute; reflexivity].
  - apply holding_bytes. vm_compute. repeat constructor; discriminate.
  - repeat split; (vm_compute; (reflexivity || discriminate)).
  - vm_compute. reflexivity.
  - cbn [length ping_rest]. lia.
  - now left.
  - vm_compute. discriminate.
  - vm_compute. discriminate.
  - vm_compute. reflexivity.
  - intros x y [].
  - repeat constructor. intros [].
  - unfold loop_fuel. cbn [length]. lia.
  - repeat constructor.
  - vm_compute. discriminate.
  - now split.
  - now split.
  - right. vm_compute. discriminate.
Qed.

Lemma mm1_owns : board_owns la0 mm1 [blk1].
Proof. apply heap_take; [exact board0_owns|lia|vm_compute; reflexivity]. Qed.

Lemma icmp_echo_answered_witness : exists r',
  ip4_input false 0 no_free (fun _ => true) false false log_output log_recv no_tcp 20006 1 pinged = Ok (ERR_OK, r') /\
  l_sent r'.(env).(drv) = [(1, ip_one, ip_header 0 32 9 0 255 1 ip_two ip_one ++ icmp_msg ICMP_ER 0 (reply_chk ping_chk) ping_rest)] /\
  board_owns la0 r'.(Ip4Frag.pm).(mm) [].
Proof.
  destruct (@icmp_echo_answered mem0 log_world false 0 no_free (fun _ => true) false false log_output log_recv no_tcp l_sent log_output_sends
    pinged 20006 [] 1 0 9 64 ip_one ip_two 0 ping_chk ping_rest (fun _ => 100) []) as (r' & E & Hs & _ & _ & Ho & _).
  - exact ping_request.
  - exact mm1_owns.
  - exists r'. split; [exact E|]. split; [exact Hs|exact Ho].
Defined.
