(* ===== verification/FragSend.v ===== *)
(** * What [ip4_frag] puts on the link

    A fragment is a chain: a pbuf of the heap with the header, and pbufs of
    MEMP_FRAG_PBUF that refer to a part of the packet and hold a reference to
    its pbuf.  The chain is built, sent and freed in each round of the loop;
    after it the packet and the memory are as they were. *)

From Stdlib Require Import ZArith List Lia Bool Permutation.
From S2P Require Import Prelude Def Chksum Ip4Addr Mem PbufMem Pbuf PbufCopy Ip4Frag UdpPcb Ip4Out Packet Ip4Send.
Import ListNotations.
Open Scope Z_scope.
Open Scope c_scope.

Lemma owns_addrs {PMem : PbufMemory} m bs : owns m bs -> NoDup (map b_addr bs).
Proof.
  intros Ho. pose proof (owns_apart _ _ Ho) as Ha. pose proof (owns_sane _ _ Ho) as Hs. clear Ho.
  induction Ha as [|b bs Hb Ha IH]; cbn [map]; constructor.
  - intros Hin. apply in_map_iff in Hin. destruct Hin as (c & E & Hc). rewrite Forall_forall in Hb. apply Forall_cons_iff in Hs.
    destruct Hs as [[_ Hs] Hall]. rewrite Forall_forall in Hall. destruct (Hall c Hc). destruct (Hb c Hc); lia.
  - apply IH. now apply Forall_inv_tail in Hs.
Qed.

(** The fuel, without its value. *)
Lemma loop_fuel_S : exists k, loop_fuel = S k /\ Z.of_nat k = 65536.
Proof. exists (Z.to_nat 65536). split; [reflexivity|lia]. Qed.

Section FragSend.
Context {PMem : PbufMemory} {W : World}.
Variable NOASSERT : bool.
Variable IPFRAG_FREE : Z.
Variable other_free : Z -> Z -> PB unit.
Variable tcpip_callback_ok : pst -> bool.
Hypothesis free_fits : is_u32 IPFRAG_FREE.

Abbreviation custom_ff := (custom_free_function NOASSERT IPFRAG_FREE other_free).

(** ** The pbufs of a fragment *)

Definition frag_blk (a : Z) : blk := mkBlk (Pool MEMP_FRAG_PBUF) a (pool_size MEMP_FRAG_PBUF).

(** The fields of [struct pbuf_custom_ref] behind the pbuf. *)
Definition names (m : pst) (a o : Z) : Prop :=
  load_list m.(data) (a + 16) 4 = put32 IPFRAG_FREE /\ load_list m.(data) (a + 20) 4 = put32 o /\ o <> 0 /\ is_u32 o.
(** [a] is a pbuf that holds a reference to [o]. *)
Definition refers (m : pst) (ao : Z * Z) : Prop :=
  let b := m.(structs) (fst ao) in (b.(type) = PBUF_REF /\ b.(flags) = PBUF_FLAG_IS_CUSTOM /\ b.(ref) = 1) /\ names m (fst ao) (snd ao).

(** The references of a pbuf to others, counted. *)
Definition times (os : list Z) (a : Z) : Z := Z.of_nat (count_occ Z.eq_dec os a).
Definition more_refs (b : pbuf) (n : Z) : pbuf := b <| ref := b.(ref) + n |>.

Lemma load_word d a v : is_u32 v -> load_list d a 4 = put32 v -> le32 (d a) (d (a + 1)) (d (a + 2)) (d (a + 3)) = v.
Proof.
  intros Hv E. unfold load_list in E. change (Z.to_nat 4) with 4%nat in E. cbn [seq map Z.of_nat] in E. rewrite Z.add_0_r in E.
  injection E as E0 E1 E2 E3. change (Z.of_nat 1) with 1 in *. change (Z.of_nat 2) with 2 in *. change (Z.of_nat 3) with 3 in *.
  rewrite E0, E1, E2, E3. now apply le32_put32.
Qed.

Lemma more_refs_0 b n : n = 0 -> more_refs b n = b.
Proof. intros ->. unfold more_refs. rewrite Z.add_0_r. now destruct b. Qed.
Lemma more_refs_add b n k : more_refs (more_refs b n) k = more_refs b (n + k).
Proof. unfold more_refs. cbn [ref with_field]. now rewrite Z.add_assoc. Qed.

Lemma times_cons o os a : times (o :: os) a = times [o] a + times os a.
Proof. unfold times. cbn [count_occ]. destruct (Z.eq_dec o a); lia. Qed.
Lemma times_app os os' a : times (os ++ os') a = times os a + times os' a.
Proof. unfold times. rewrite count_occ_app. lia. Qed.
Lemma times_self o : times [o] o = 1.
Proof. unfold times. cbn [count_occ]. now destruct (Z.eq_dec o o). Qed.
Lemma times_other o a : a <> o -> times [o] a = 0.
Proof. unfold times. cbn [count_occ]. destruct (Z.eq_dec o a) as [->|]; [contradiction|reflexivity]. Qed.
Lemma times_bound os a : 0 <= times os a <= Z.of_nat (length os).
Proof. unfold times. pose proof (count_occ_bound Z.eq_dec a os). lia. Qed.

(** Giving up one reference of several. *)
Lemma pbuf_free_shared cf fuel m o : o <> 0 -> 1 < (m.(structs) o).(ref) < 65536 ->
  exists m', pbuf_free NOASSERT cf (S fuel) o m = Ok (0, m') /\ m'.(mm) = m.(mm) /\ m'.(data) = m.(data) /\
    forall x, m'.(structs) x = more_refs (m.(structs) x) (- times [o] x).
Proof.
  intros Ho Hr. unfold pbuf_free. cbn [free_loop]. rewrite (proj2 (Z.eqb_neq _ _) Ho). unfold get, upds.
  rewrite bind_gets, bind_lwip_assert by (rewrite Z.gtb_lt; lia). rewrite bind_modify, u16_id by word_lia.
  replace (_ - 1 =? 0) with false by (symmetry; apply Z.eqb_neq; lia). eexists. split; [reflexivity|].
  split; [reflexivity|]. split; [reflexivity|]. intros x. rewrite structs_set. unfold upd_at. destruct (Z.eqb_spec x o) as [->|Hx].
  - rewrite times_self. reflexivity.
  - now rewrite times_other, more_refs_0.
Qed.

(** [ipfrag_free_pbuf_custom] *)
Lemma custom_frees m a o rest : owns m.(mm) (frag_blk a :: rest) -> names m a o -> 1 < (m.(structs) o).(ref) < 65536 ->
  exists m', custom_ff a m = Ok (tt, m') /\ owns m'.(mm) rest /\ m'.(data) = m.(data) /\
    forall x, m'.(structs) x = more_refs (m.(structs) x) (- times [o] x).
Proof.
  intros Ho (Hf & Hp & Ho0 & Hou) Hr. unfold custom_free_function. replace (Z.to_nat 65536) with (S (Z.to_nat 65535)) by lia.
  cbn [custom_free]. unfold load32. rewrite bind_gets, (load_word _ _ _ free_fits) by exact Hf. rewrite Z.eqb_refl.
  destruct (owns_fresh _ _ _ Ho) as [Ha0 _]. cbn [frag_blk b_addr] in Ha0.
  rewrite bind_lwip_assert by (apply negb_true_iff; now apply Z.eqb_neq). rewrite bind_gets.
  rewrite (load_word _ (a + 20) o Hou Hp). rewrite (proj2 (Z.eqb_neq _ _) Ho0). cbn [negb].
  destruct (pbuf_free_shared (custom_free NOASSERT IPFRAG_FREE other_free (Z.to_nat 65535)) (Z.to_nat 65536) m o Ho0 Hr) as (m1 & E1 & Hm1 & Hd1 & Hs1).
  rewrite bind_assoc. unfold loop_fuel. rewrite (bind_ok _ _ _ _ _ E1), bind_ret.
  unfold ip_frag_free_pbuf_custom_ref. rewrite bind_lwip_assert by (apply negb_true_iff; now apply Z.eqb_neq).
  rewrite <- Hm1 in Ho. destruct (pool_free_law _ _ _ _ _ Ho) as (mm' & E & Hm'). exists (m1 <| mm := mm' |>).
  split; [unfold lift; now rewrite E|]. split; [exact Hm'|]. split; [exact Hd1|exact Hs1].
Qed.

(** Freeing the pbufs [ps] of a fragment, given with what they refer to. *)
Lemma free_refs rest : forall ps fuel p count m, chain m.(structs) p (map fst ps) -> owns m.(mm) (map frag_blk (map fst ps) ++ rest) ->
  Forall (refers m) ps -> Forall (fun ao => In (snd ao) (map b_addr rest)) ps ->
  Forall (fun ao => times (map snd ps) (snd ao) < (m.(structs) (snd ao)).(ref) < 65536) ps -> (length ps < fuel)%nat -> 0 <= count < 256 ->
  exists n m', free_loop NOASSERT custom_ff fuel p count m = Ok (n, m') /\ owns m'.(mm) rest /\ m'.(data) = m.(data) /\
    forall x, In x (map b_addr rest) -> m'.(structs) x = more_refs (m.(structs) x) (- times (map snd ps) x).
Proof.
  induction ps as [|[a o] ps IH]; intros fuel p count m Hc Ho Hr Hin Hn Hf Hcount; cbn [map fst snd app] in *.
  - cbn [chain] in Hc. subst p. exists count, m. split; [destruct fuel; reflexivity|]. split; [exact Ho|]. split; [reflexivity|].
    intros x _. now rewrite more_refs_0.
  - destruct fuel as [|fuel]; [lia|]. cbn [free_loop]. destruct Hc as (-> & Ha0 & Hc). rewrite (proj2 (Z.eqb_neq _ _) Ha0).
    apply Forall_cons_iff in Hr, Hin, Hn. destruct Hr as [Ra Hr], Hin as [Oin Hin], Hn as [On Hn]. cbn [snd] in Oin, On.
    pose proof Ra as ((Ht & Hfl & Href) & _). cbn [fst] in Ht, Hfl, Href. unfold get. rewrite bind_gets, Href, bind_lwip_assert by reflexivity.
    change (u16 (1 - 1)) with 0. unfold upds. rewrite bind_modify. change (0 =? 0) with true. cbv iota.
    set (m1 := m <| structs := upd_at (structs m) a (fun b => b <| ref := 0 |>) |>).
    assert (Hm1 : forall x, x <> a -> structs m1 x = structs m x) by (intros x Hx; unfold m1; rewrite structs_set; now apply upd_at_other).
    pose proof (owns_addrs _ _ Ho) as Hnd. rewrite map_cons, map_app, map_map in Hnd. cbn [frag_blk b_addr] in Hnd. rewrite map_id in Hnd.
    apply NoDup_cons_iff in Hnd. destruct Hnd as [Hni _]. rewrite in_app_iff in Hni.
    assert (Hoa : o <> a) by (intros ->; tauto).
    unfold release. rewrite Hfl. change (negb (_ =? 0)) with true. cbv iota.
    assert (Ho1 : 1 <= times (o :: map snd ps) o) by (rewrite times_cons, times_self; pose proof (times_bound (map snd ps) o); lia).
    destruct (custom_frees m1 a o (map frag_blk (map fst ps) ++ rest)) as (m2 & E2 & Ho2 & Hd2 & Hs2); [exact Ho|exact (proj2 Ra)|rewrite Hm1 by assumption; lia|].
    rewrite (bind_ok _ _ _ _ _ E2).
    assert (Hs : forall x, x <> a -> structs m2 x = more_refs (structs m x) (- times [o] x)) by (intros x Hx; now rewrite Hs2, Hm1).
    assert (Hps : forall b, In b (map fst ps) -> b <> a /\ structs m2 b = structs m b).
    { intros b Hb. assert (b <> a) by (intros ->; tauto). split; [assumption|]. rewrite Hs by assumption. apply more_refs_0. rewrite times_other; [reflexivity|].
      intros ->. apply (owns_addrs _ _) in Ho2. rewrite map_app, map_map in Ho2. cbn [frag_blk b_addr] in Ho2. rewrite map_id in Ho2.
      exact (NoDup_app_disjoint _ _ o Ho2 Hb Oin). }
    destruct (IH fuel (next (structs m a)) (u8 (count + 1)) m2) as (n & m' & E & Ho' & Hd' & Hs').
    + apply (chain_ext (structs m)); [|assumption]. intros b Hb. now rewrite (proj2 (Hps b Hb)).
    + exact Ho2.
    + rewrite Forall_forall in Hr |- *. intros [b ob] Hb. destruct (Hr _ Hb) as [R1 R2]. cbn [fst snd] in *.
      unfold refers, names in *. cbn [fst snd]. rewrite (proj2 (Hps b (in_map fst _ _ Hb))), Hd2. now split.
    + exact Hin.
    + rewrite Forall_forall in Hn, Hin |- *. intros [b ob] Hb. specialize (Hn _ Hb). cbn [snd] in *. rewrite (times_cons o (map snd ps)) in Hn.
      rewrite Hs by (intros ->; specialize (Hin _ Hb); tauto). unfold more_refs. cbn [ref with_field]. pose proof (times_bound [o] ob). pose proof (times_bound (map snd ps) ob). lia.
    + cbn [length] in Hf. lia.
    + unfold u8. apply Z.mod_pos_bound. lia.
    + exists n, m'. split; [exact E|]. split; [exact Ho'|]. split; [now rewrite Hd', Hd2|]. intros x Hx.
      rewrite Hs', Hs, more_refs_add, (times_cons o (map snd ps)) by (assumption || (intros ->; tauto)). f_equal. lia.
Qed.

(** The fragment at [rb], a block of [size] bytes of the heap, with the pbufs
    [ps] behind it.  [m0] is the state before it was built, [bs] are the blocks
    outstanding then; [cap] bounds the pbufs. *)
Record frag_chain (m0 : pst) (bs : list blk) (rb size cap : Z) (m : pst) (ps : list (Z * Z)) : Prop := {
  fc_chain : chain m.(structs) rb (rb :: map fst ps);
  fc_head : (m.(structs) rb).(type) = PBUF_RAM /\ (m.(structs) rb).(flags) = 0 /\ (m.(structs) rb).(ref) = 1;
  fc_owns : owns m.(mm) (map frag_blk (map fst ps) ++ mkBlk Heap rb size :: bs);
  fc_refs : Forall (refers m) ps;
  fc_old : Forall (fun ao => In (snd ao) (map b_addr bs) /\ 0 < (m0.(structs) (snd ao)).(ref) /\ (m0.(structs) (snd ao)).(ref) + cap < 65536) ps;
  fc_cap : Z.of_nat (length ps) <= cap;
  fc_structs : forall b, In b bs -> m.(structs) b.(b_addr) = more_refs (m0.(structs) b.(b_addr)) (times (map snd ps) b.(b_addr));
  fc_data : forall b x, In b bs -> b.(b_addr) <= x < b.(b_addr) + b.(b_size) -> m.(data) x = m0.(data) x }.

(** Changes of the first pbuf's payload and of the bytes in its block do not matter. *)
Lemma frag_chain_write m0 bs rb size cap m ps m' : frag_chain m0 bs rb size cap m ps -> 24 <= pool_size MEMP_FRAG_PBUF -> m'.(mm) = m.(mm) ->
  (exists pl ln tl, m'.(structs) rb = (m.(structs) rb) <| payload := pl |> <| len := ln |> <| tot_len := tl |>) ->
  (forall a, a <> rb -> m'.(structs) a = m.(structs) a) -> (forall x, ~ rb <= x < rb + size -> m'.(data) x = m.(data) x) ->
  frag_chain m0 bs rb size cap m' ps.
Proof.
  intros [H1 H2 H3 H4 H5 H6 H7 H8] H24 T1 (pl & ln & tl & T2) T3 T4.
  pose proof (owns_addrs _ _ H3) as Hnd. rewrite map_app, map_map in Hnd. cbn [frag_blk b_addr map] in Hnd. rewrite map_id in Hnd.
  assert (Hps : forall a, In a (map fst ps) -> a <> rb) by (intros a Ha ->; apply (NoDup_app_disjoint _ _ rb Hnd Ha); now left).
  assert (Hbs : forall b, In b bs -> b_addr b <> rb).
  { intros b Hb E. apply NoDup_app_remove_l in Hnd. apply NoDup_cons_iff in Hnd. apply (proj1 Hnd). rewrite <- E. now apply in_map. }
  assert (Hout : forall c, In c (map frag_blk (map fst ps) ++ bs) -> forall x, b_addr c <= x < b_addr c + b_size c -> data m' x = data m x).
  { intros c Hc x Hx. apply T4. assert (Ho : owns (mm m) (mkBlk Heap rb size :: map frag_blk (map fst ps) ++ bs)).
    { revert H3. apply owns_perm. symmetry. apply Permutation_middle. }
    pose proof (owns_outside _ _ _ c x Ho Hc Hx) as Hn. exact Hn. }
  split; try assumption.
  - apply (chain_ext (structs m)); [|assumption]. intros a _. destruct (Z.eq_dec a rb) as [->|Ha]; [now rewrite T2|now rewrite T3].
  - rewrite T2. exact H2.
  - now rewrite T1.
  - rewrite Forall_forall in H4 |- *. intros [a o] Ha. destruct (H4 _ Ha) as [R1 (R2 & R3 & R4)]. unfold refers, names. cbn [fst snd] in *.
    pose proof (in_map fst _ _ Ha) as Ha'. cbn [fst] in Ha'. rewrite T3 by (now apply Hps).
    assert (Hin : In (frag_blk a) (map frag_blk (map fst ps) ++ bs)) by (apply in_app_iff; left; now apply in_map).
    split; [exact R1|]. rewrite <- R2, <- R3. split; [|split; [|exact R4]]; apply load_ext; intros x Hx; apply (Hout _ Hin); cbn [frag_blk b_addr b_size]; lia.
  - intros b Hb. rewrite T3 by (now apply Hbs). now apply H7.
  - intros b x Hb Hx. rewrite (Hout b) by (assumption || (apply in_app_iff; now right)). now apply (H8 b).
Qed.

Lemma frag_chain_sent m0 bs rb size cap m ps m' : frag_chain m0 bs rb size cap m ps -> 24 <= pool_size MEMP_FRAG_PBUF ->
  (m.(structs) rb).(payload) <= rb + size -> touches m rb m' -> frag_chain m0 bs rb size cap m' ps.
Proof.
  intros Hf H24 Hpl [T1 T2 T3 T4]. apply (frag_chain_write _ _ _ _ _ m); auto. intros x Hx. apply T4. change SIZEOF_STRUCT_PBUF with 16. lia.
Qed.

(** Freeing a fragment gives all of its memory back and takes the references away. *)
Lemma frag_chain_free m0 bs rb size cap m ps : frag_chain m0 bs rb size cap m ps -> cap <= 65535 ->
  exists n m', pbuf_free NOASSERT custom_ff loop_fuel rb m = Ok (n, m') /\ owns m'.(mm) bs /\ Forall (untouched m0 m') bs.
Proof.
  intros [H1 (Ht & Hfl & Hr) H3 H4 H5 H6 H7 H8] Hcap. unfold pbuf_free. destruct H1 as (_ & Hrb & Hc). rewrite (proj2 (Z.eqb_neq _ _) Hrb).
  destruct loop_fuel_S as (k & -> & Hk). cbn [free_loop]. rewrite (proj2 (Z.eqb_neq _ _) Hrb). unfold get. rewrite bind_gets, Hr, bind_lwip_assert by reflexivity.
  change (u16 (1 - 1)) with 0. unfold upds. rewrite bind_modify. change (0 =? 0) with true. cbv iota.
  set (m1 := m <| structs := upd_at (structs m) rb (fun b => b <| ref := 0 |>) |>).
  pose proof (owns_addrs _ _ H3) as Hnd. rewrite map_app, map_map in Hnd. cbn [frag_blk b_addr map] in Hnd. rewrite map_id in Hnd.
  assert (Hps : forall a, In a (map fst ps) -> a <> rb) by (intros a Ha ->; apply (NoDup_app_disjoint _ _ rb Hnd Ha); now left).
  assert (Hbs : forall a, In a (map b_addr bs) -> a <> rb).
  { intros a Ha ->. apply NoDup_app_remove_l in Hnd. now apply NoDup_cons_iff in Hnd. }
  assert (Hm1 : forall a, a <> rb -> structs m1 a = structs m a) by (intros a Ha; unfold m1; rewrite structs_set; now apply upd_at_other).
  assert (Ho : owns (mm m1) (mkBlk Heap rb size :: map frag_blk (map fst ps) ++ bs)) by (revert H3; apply owns_perm; symmetry; apply Permutation_middle).
  destruct (release_spec custom_ff m1 rb (structs m rb) (map frag_blk (map fst ps) ++ bs) size) as (mm' & E & Ho');
    [unfold not_custom; now rewrite Hfl|rewrite Ht; exact Ho|].
  rewrite (bind_ok _ _ _ _ _ E).
  destruct (free_refs bs ps k (next (structs m rb)) (u8 (0 + 1)) (m1 <| mm := mm' |>)) as (n & m' & E' & Ho2 & Hd & Hs).
  - apply (chain_ext (structs m)); [|assumption]. intros a Ha. cbn [structs with_field]. now rewrite Hm1 by (now apply Hps).
  - exact Ho'.
  - rewrite Forall_forall in H4 |- *. intros [a o] Ha. destruct (H4 _ Ha) as [R1 R2]. split; [|exact R2]. cbn [fst structs with_field].
    rewrite Hm1 by (apply Hps; exact (in_map fst _ _ Ha)). exact R1.
  - eapply Forall_impl; [|exact H5]. intros a Ha. apply Ha.
  - eapply Forall_impl; [|exact H5]. intros [a o] (Hin & Hr0 & Hr1). cbn [snd structs with_field] in *. rewrite Hm1 by (now apply Hbs).
    apply in_map_iff in Hin. destruct Hin as (b & <- & Hb). rewrite H7 by assumption. unfold more_refs. cbn [ref with_field].
    pose proof (times_bound (map snd ps) (b_addr b)). rewrite length_map in *. lia.
  - lia.
  - unfold u8. apply Z.mod_pos_bound. lia.
  - exists n, m'. split; [exact E'|]. split; [exact Ho2|]. apply Forall_forall. intros b Hb. pose proof (in_map b_addr _ _ Hb) as Hb'. split.
    + rewrite Hs by assumption. cbn [structs with_field]. rewrite Hm1 by (now apply Hbs). rewrite H7, more_refs_add by assumption. apply more_refs_0. lia.
    + intros x Hx. rewrite Hd. now apply (H8 b).
Qed.

(** ** Building a fragment *)

(** The payload of a pbuf lies in one of the blocks. *)
Definition within (bs : list blk) (b : pbuf) : Prop :=
  exists c, In c bs /\ c.(b_addr) <= b.(payload) /\ b.(payload) + b.(len) <= c.(b_addr) + c.(b_size).

(** A pbuf of the packet. *)
Record source (m0 : pst) (bs : list blk) (cap o : Z) : Prop := {
  so_block : In o (map b_addr bs);
  so_within : within bs (m0.(structs) o);
  so_addr : is_u32 o;
  so_ref : 0 < (m0.(structs) o).(ref) /\ (m0.(structs) o).(ref) + cap < 65536;
  so_len : 0 <= (m0.(structs) o).(len) < 65536 }.

(** The fragment as it stands when [bytes] are in it; [m1] is the state before
    the first of them. *)
Record built (m0 : pst) (bs : list blk) (rb size cap : Z) (m1 m : pst) (ps : list (Z * Z)) (bytes : list Z) : Prop := {
  bu_chain : frag_chain m0 bs rb size cap m ps;
  bu_lengths : lengths m.(structs) 0 (rb :: map fst ps);
  bu_within : Forall (fun a => within bs (m.(structs) a)) (map fst ps);
  bu_bytes : content m.(structs) m.(data) (map fst ps) = bytes;
  bu_head : (m.(structs) rb).(payload) = (m1.(structs) rb).(payload) /\ (m.(structs) rb).(len) = (m1.(structs) rb).(len);
  bu_data : forall x, rb <= x < rb + size -> m.(data) x = m1.(data) x }.

(** The struct of a new pbuf. *)
Lemma alloced_custom_raw m a n pl : 0 < n -> 0 < pl -> exists m', pbuf_alloced_custom PBUF_RAW n PBUF_REF a pl n m = Ok (a, m') /\
  m'.(mm) = m.(mm) /\ m'.(data) = m.(data) /\ m'.(structs) a = mkPbuf 0 pl n n PBUF_REF PBUF_FLAG_IS_CUSTOM 1 /\
  forall x, x <> a -> m'.(structs) x = m.(structs) x.
Proof.
  intros Hn Hpl. unfold pbuf_alloced_custom. change (LWIP_MEM_ALIGN_SIZE (layer_offset PBUF_RAW)) with 0. rewrite Z.gtb_ltb.
  replace (n <? 0 + n) with false by (symmetry; apply Z.ltb_ge; lia). unfold upds. rewrite bind_modify. eexists. split; [reflexivity|].
  split; [reflexivity|]. split; [reflexivity|]. rewrite structs_set. split.
  - rewrite upd_at_same. replace (negb (pl =? 0)) with true by (symmetry; apply negb_true_iff, Z.eqb_neq; lia). rewrite Z.add_0_r. reflexivity.
  - intros x Hx. now rewrite upd_at_other.
Qed.

(** Taking another reference. *)
Lemma pbuf_ref_more m o : o <> 0 -> 0 <= (m.(structs) o).(ref) < 65535 -> exists m', pbuf_ref o m = Ok (tt, m') /\
  m'.(mm) = m.(mm) /\ m'.(data) = m.(data) /\ forall x, m'.(structs) x = more_refs (m.(structs) x) (times [o] x).
Proof.
  intros Ho Hr. unfold pbuf_ref. rewrite (proj2 (Z.eqb_neq _ _) Ho). cbn [negb]. eexists. split; [reflexivity|].
  split; [reflexivity|]. split; [reflexivity|]. intros x. rewrite structs_set. unfold upd_at. destruct (Z.eqb_spec x o) as [->|Hx].
  - rewrite times_self, u16_id by word_lia. reflexivity.
  - now rewrite times_other, more_refs_0.
Qed.

(** The pbuf [a] of MEMP_FRAG_PBUF, about to be filled in. *)
Section Piece.
Variables (m0 : pst) (bs : list blk) (rb size cap : Z) (m1 m : pst) (ps : list (Z * Z)) (bytes : list Z).
Variables (a o poff n : Z) (mm' : mst).
Hypotheses (H24 : 24 <= pool_size MEMP_FRAG_PBUF) (Hb : built m0 bs rb size cap m1 m ps bytes).
Hypothesis Ho : owns mm' (frag_blk a :: map frag_blk (map fst ps) ++ mkBlk Heap rb size :: bs).
Hypotheses (Hs : source m0 bs cap o) (Hoff : 0 <= poff) (Hn : 0 < n) (Hfit : poff + n <= (m0.(structs) o).(len)).
Hypotheses (Hcap : Z.of_nat (length ps) + 1 <= cap) (Htot : total m.(structs) (rb :: map fst ps) + n < 65536).

Lemma piece_fresh : a <> 0 /\ a <> rb /\ ~ In a (map fst ps) /\ ~ In a (map b_addr bs).
Proof.
  destruct (owns_fresh _ _ _ Ho) as [H0 H1]. cbn [frag_blk b_addr] in *. rewrite map_app, map_map in H1. cbn [b_addr map frag_blk] in H1.
  rewrite map_id, in_app_iff in H1. cbn [In] in H1. split; [assumption|]. split; [intros E; apply H1; right; now left|split; intros Hx; tauto].
Qed.

Lemma piece_source : o <> 0 /\ o <> a /\ o <> rb /\ ~ In o (map fst ps) /\ 0 < (m0.(structs) o).(payload) /\
  m.(structs) o = more_refs (m0.(structs) o) (times (map snd ps) o).
Proof.
  destruct Hs as [S1 (c & C1 & C2 & C3) S3 S4 S5]. pose proof piece_fresh as (_ & _ & _ & Ha). pose proof (owns_addrs _ _ Ho) as Hnd.
  cbn [map] in Hnd. rewrite map_app, map_map in Hnd. cbn [b_addr map frag_blk] in Hnd. rewrite map_id in Hnd. apply NoDup_cons_iff in Hnd. destruct Hnd as [_ Hnd].
  pose proof (owns_sane _ _ Ho) as Hsane. rewrite Forall_forall in Hsane. apply in_map_iff in S1. destruct S1 as (b & E & Hin).
  assert (In o (map b_addr bs)) as S1 by (rewrite <- E; now apply in_map).
  split; [|split; [|split; [|split; [|split]]]].
  - intros Hz. rewrite Hz in E. destruct (Hsane b); [|lia]. right. apply in_app_iff. right. now right.
  - intros ->. contradiction.
  - intros ->. apply NoDup_app_remove_l in Hnd. now apply NoDup_cons_iff in Hnd.
  - intros Hx. apply (NoDup_app_disjoint _ _ o Hnd Hx). now right.
  - destruct (Hsane c); [|lia]. right. apply in_app_iff. right. now right.
  - rewrite <- E. now apply (fc_structs _ _ _ _ _ _ _ (bu_chain _ _ _ _ _ _ _ _ _ Hb)).
Qed.

(** What the new pbuf refers to. *)
Let pl := (m0.(structs) o).(payload) + poff.
Let blocks := map frag_blk (map fst ps) ++ mkBlk Heap rb size :: bs.

(** The pbuf filled in, with its reference taken. *)
Record prepared (m4 : pst) : Prop := {
  pr_mm : m4.(mm) = mm';
  pr_new : m4.(structs) a = mkPbuf 0 pl n n PBUF_REF PBUF_FLAG_IS_CUSTOM 1;
  pr_old : forall x, x <> a -> m4.(structs) x = more_refs (m.(structs) x) (times [o] x);
  pr_names : names m4 a o;
  pr_keep : forall b x, In b blocks -> b.(b_addr) <= x < b.(b_addr) + b.(b_size) -> m4.(data) x = m.(data) x }.

Lemma piece_prepared : exists m2 m3, pbuf_alloced_custom PBUF_RAW n PBUF_REF a pl n (m <| mm := mm' |>) = Ok (a, m2) /\ pbuf_ref o m2 = Ok (tt, m3) /\
  prepared (m3 <| data := store_list (a + 16) (put32 IPFRAG_FREE) (store_list (a + 20) (put32 o) m3.(data)) |>).
Proof.
  pose proof piece_source as (Ho0 & Hoa & _ & _ & Hpl & Em). destruct Hs as [_ _ S3 [S4 S4'] _].
  destruct (alloced_custom_raw (m <| mm := mm' |>) a n pl) as (m2 & E2 & M2 & D2 & A2 & O2); [lia|unfold pl; lia|].
  assert (Er : structs m2 o = more_refs (structs m0 o) (times (map snd ps) o)) by (rewrite O2 by assumption; exact Em).
  pose proof (times_bound (map snd ps) o) as Htb. rewrite length_map in Htb.
  destruct (pbuf_ref_more m2 o Ho0) as (m3 & E3 & M3 & D3 & A3); [rewrite Er; unfold more_refs; cbn [ref with_field]; lia|].
  exists m2, m3. split; [exact E2|]. split; [exact E3|]. split; cbn [mm structs data with_field].
  - now rewrite M3, M2.
  - rewrite A3, times_other by congruence. now rewrite A2, more_refs_0.
  - intros x Hx. now rewrite A3, O2.
  - unfold names. cbn [data with_field]. rewrite load_stored, load_store_other, load_stored by (reflexivity || (cbn [length put32]; lia)). auto.
  - intros b x Hin Hx. pose proof (owns_outside _ _ _ b x Ho Hin Hx) as H. cbn [frag_blk b_addr b_size] in H.
    rewrite !store_other by (cbn [length put32]; lia). now rewrite D3, D2.
Qed.

(** The pbuf behind the others. *)
Record appended (m5 : pst) : Prop := {
  ap_mm : m5.(mm) = mm';
  ap_chain : chain m5.(structs) rb ((rb :: map fst ps) ++ [a]);
  ap_lengths : lengths m5.(structs) 0 ((rb :: map fst ps) ++ [a]);
  ap_new : exists nx tl, m5.(structs) a = mkPbuf nx pl tl n PBUF_REF PBUF_FLAG_IS_CUSTOM 1;
  ap_chained : forall x, In x (rb :: map fst ps) -> exists nx tl, m5.(structs) x = (m.(structs) x) <| next := nx |> <| tot_len := tl |>;
  ap_old : forall b, In b bs -> m5.(structs) b.(b_addr) = more_refs (m.(structs) b.(b_addr)) (times [o] b.(b_addr));
  ap_names : names m5 a o;
  ap_keep : forall b x, In b blocks -> b.(b_addr) <= x < b.(b_addr) + b.(b_size) -> m5.(data) x = m.(data) x }.

Lemma piece_appended m4 : prepared m4 -> exists m5, pbuf_cat NOASSERT loop_fuel rb a m4 = Ok (tt, m5) /\ appended m5.
Proof.
  intros [P1 P2 P3 P4 P5]. pose proof piece_fresh as (Ha0 & Harb & Haps & Habs). pose proof piece_source as (_ & _ & Horb & Hops & _).
  destruct Hb as [[F1 _ F3 _ _ F6 _ _] Hlen _ _ _ _]. set (l := rb :: map fst ps) in *.
  assert (Hal : ~ In a l) by (intros [E|Hx]; [congruence|contradiction]).
  assert (Hl4 : forall x, In x l -> structs m4 x = structs m x).
  { intros x Hx. assert (x <> o) by (destruct Hx as [<-|Hx]; [congruence|intros ->; contradiction]). rewrite P3, times_other by (congruence || (intros ->; contradiction)). now apply more_refs_0. }
  assert (Hnd : NoDup (l ++ map b_addr bs)).
  { apply owns_addrs in F3. rewrite map_app, map_map in F3. cbn [b_addr map frag_blk] in F3. rewrite map_id in F3.
    exact (Permutation_NoDup (Permutation_sym (Permutation_middle _ _ _)) F3). }
  destruct (exists_last (l := l)) as (l0 & r & El); [discriminate|].
  destruct (pbuf_cat_spec NOASSERT custom_ff tcpip_callback_ok m4 rb l0 r a [a] loop_fuel) as (m5 & E5 & M5 & D5 & C5 & L5 & A5 & O5); rewrite <- ?El.
  - apply (chain_ext (structs m)); [|exact F1]. intros x Hx. now rewrite Hl4.
  - apply (lengths_ext (structs m)); [|exact Hlen]. intros x Hx. now rewrite Hl4.
  - exact (NoDup_app_remove_r _ _ Hnd).
  - intros x [<-|[]]. exact Hal.
  - cbn [chain]. rewrite P2. auto.
  - discriminate.
  - cbn [lengths total]. rewrite P2. cbn [len tot_len]. lia.
  - cbn [total]. rewrite P2, (total_ext (structs m)) by (intros x Hx; now rewrite Hl4). cbn [len]. lia.
  - pose proof (so_ref _ _ _ _ Hs). destruct loop_fuel_S as (k & -> & Hk). assert ((length l0 + 1)%nat = S (length ps)) by (rewrite <- (length_map fst ps); change (S (length (map fst ps))) with (length l); rewrite El, length_app; reflexivity). lia.
  - exists m5. rewrite <- El in C5, L5, O5. split; [exact E5|]. split; try assumption.
    + now rewrite M5.
    + rewrite A5, P2. do 2 eexists. reflexivity.
    + intros x Hx. rewrite A5, Hl4 by assumption. do 2 eexists. reflexivity.
    + intros b Hin. rewrite O5, P3; [reflexivity| |].
      * intros E. apply Habs. rewrite <- E. now apply in_map.
      * intros Hx. exact (NoDup_app_disjoint _ _ _ Hnd Hx (in_map b_addr _ _ Hin)).
    + unfold names in *. now rewrite D5.
    + intros b x Hin Hx. rewrite D5. now apply (P5 b).
Qed.

Lemma appended_chain m5 : appended m5 -> frag_chain m0 bs rb size cap m5 (ps ++ [(a, o)]).
Proof.
  intros [Q1 Q2 Q3 (nx & tl & Q4) Q5 Q6 Q7 Q8]. destruct Hb as [[F1 F2 F3 F4 F5 F6 F7 F8] _ _ _ _ _]. pose proof Hs as [S1 _ _ S4 _].
  assert (Hfst : map fst (ps ++ [(a, o)]) = map fst ps ++ [a]) by (rewrite map_app; reflexivity).
  split; rewrite ?Hfst.
  - exact Q2.
  - destruct (Q5 rb (or_introl eq_refl)) as (x & y & ->). exact F2.
  - rewrite Q1. revert Ho. apply owns_perm. rewrite map_app, <- app_assoc. apply Permutation_middle.
  - apply Forall_app. split; [|constructor; [|constructor]; split; [cbn [fst]; rewrite Q4; auto|exact Q7]].
    rewrite Forall_forall in F4 |- *. intros [b ob] Hin. destruct (F4 _ Hin) as [R1 (R2 & R3 & R4)]. cbn [fst snd] in *.
    pose proof (in_map fst _ _ Hin : In b (map fst ps)) as Hin'. unfold refers, names. cbn [fst snd]. destruct (Q5 b (or_intror Hin')) as (x & y & ->).
    split; [exact R1|]. rewrite <- R2, <- R3. assert (Hbl : In (frag_blk b) blocks) by (apply in_app_iff; left; now apply in_map).
    split; [|split; [|exact R4]]; apply load_ext; intros z Hz; apply (Q8 _ _ Hbl); cbn [frag_blk b_addr b_size]; lia.
  - apply Forall_app. split; [exact F5|]. constructor; [|constructor]. cbn [snd]. auto.
  - rewrite length_app. cbn [length]. lia.
  - intros b Hin. rewrite Q6, F7, more_refs_add, map_app, times_app by assumption. reflexivity.
  - intros b x Hin Hx. rewrite (Q8 b) by (assumption || (apply in_app_iff; right; now right)). now apply (F8 b).
Qed.

(** One round of the inner loop: the steps, with the states between them. *)
Lemma piece_added : exists m2 m3 m5, pbuf_alloced_custom PBUF_RAW n PBUF_REF a pl n (m <| mm := mm' |>) = Ok (a, m2) /\ pbuf_ref o m2 = Ok (tt, m3) /\
    pbuf_cat NOASSERT loop_fuel rb a (m3 <| data := store_list (a + 16) (put32 IPFRAG_FREE) (store_list (a + 20) (put32 o) m3.(data)) |>) = Ok (tt, m5) /\
    built m0 bs rb size cap m1 m5 (ps ++ [(a, o)]) (bytes ++ load_list m0.(data) pl n).
Proof.
  destruct piece_prepared as (m2 & m3 & E2 & E3 & Hp). destruct (piece_appended _ Hp) as (m5 & E5 & Hap).
  exists m2, m3, m5. split; [exact E2|]. split; [exact E3|]. split; [exact E5|]. pose proof (appended_chain _ Hap) as Hfc. destruct Hap as [_ _ Q3 (nx & tl & Q4) Q5 _ _ Q8].
  destruct Hb as [[_ _ _ _ _ _ _ F8] _ Hwith Hby Hhead Hdata]. pose proof Hs as [_ (c & C1 & C2 & C3) _ _ _].
  assert (Hin : forall e, In e bs -> In e blocks) by (intros e He; apply in_app_iff; right; now right). rewrite Forall_forall in Hwith.
  split; rewrite ?map_app; cbn [map fst].
  - exact Hfc.
  - exact Q3.
  - apply Forall_app. split.
    + apply Forall_forall. intros x Hx. destruct (Q5 x (or_intror Hx)) as (y & z & ->). exact (Hwith x Hx).
    + constructor; [|constructor]. rewrite Q4. exists c. cbn [payload len]. unfold pl. split; [exact C1|lia].
  - unfold content. rewrite map_app, concat_app. cbn [map concat]. rewrite app_nil_r, Q4. cbn [payload len]. f_equal.
    + rewrite <- Hby. unfold content. f_equal. apply map_ext_in. intros x Hx. destruct (Q5 x (or_intror Hx)) as (y & z & ->). cbn [payload len with_field].
      destruct (Hwith x Hx) as (e & I1 & I2 & I3). apply load_ext. intros w Hw. apply (Q8 e); [now apply Hin|lia].
    + apply load_ext. intros y Hy. rewrite (Q8 c) by (now apply Hin || (unfold pl in Hy; lia)). apply (F8 c); [exact C1|unfold pl in Hy; lia].
  - destruct (Q5 rb (or_introl eq_refl)) as (y & z & ->). exact Hhead.
  - intros x Hx. rewrite (Q8 (mkBlk Heap rb size)); [now apply Hdata|apply in_app_iff; right; now left|exact Hx].
Qed.
End Piece.

(** ** The inner loop *)

Lemma net_free (s : nst) p n m' : pbuf_free NOASSERT custom_ff loop_fuel p s.(pk) = Ok (n, m') ->
  Ip4Out.free NOASSERT IPFRAG_FREE other_free p s = Ok (tt, s <| pk := m' |>).
Proof. intros E. unfold Ip4Out.free. now rewrite (net_pb _ _ _ _ _ E). Qed.

(** The bytes of the packet that are still to be sent, from offset [poff] of the
    first of the pbufs [l] on. *)
Definition rest (m0 : pst) (l : list Z) (poff : Z) : list Z := skipn (Z.to_nat poff) (content m0.(structs) m0.(data) l).

Section Mirror.
Variables (m0 : pst) (bs : list blk) (rb size cap : Z) (m1 : pst).
Hypotheses (H24 : 24 <= pool_size MEMP_FRAG_PBUF) (Hcap : cap <= 65535).

(** The state when the loop gave up. *)
Definition given_up (m : pst) : Prop := owns m.(mm) bs /\ Forall (untouched m0 m) bs.

Lemma built_gives_up (s : nst) ps bytes : built m0 bs rb size cap m1 s.(pk) ps bytes ->
  exists s', Ip4Out.free NOASSERT IPFRAG_FREE other_free rb s = Ok (tt, s') /\ s'.(nt) = s.(nt) /\ given_up s'.(pk).
Proof.
  intros [Hb _ _ _ _ _]. destruct (frag_chain_free _ _ _ _ _ _ _ Hb Hcap) as (n & m' & E & Ho & Hu).
  exists (s <| pk := m' |>). split; [exact (net_free s rb n m' E)|]. now split.
Qed.

Lemma built_mm (m : pst) ps bytes mm' : built m0 bs rb size cap m1 m ps bytes ->
  owns mm' (map frag_blk (map fst ps) ++ mkBlk Heap rb size :: bs) -> built m0 bs rb size cap m1 (m <| mm := mm' |>) ps bytes.
Proof. intros [[H1 H2 H3 H4 H5 H6 H7 H8] Hl Hw Hb Hh Hd] Ho. split; auto. split; auto. Qed.

(** The pbufs a round of the loop of [ip4_frag] reads are those of the packet. *)
Lemma built_source (m : pst) ps bytes o : built m0 bs rb size cap m1 m ps bytes -> source m0 bs cap o ->
  let b := m.(structs) o in let b0 := m0.(structs) o in b.(len) = b0.(len) /\ b.(payload) = b0.(payload) /\ b.(next) = b0.(next).
Proof.
  intros [[_ _ _ _ _ _ H7 _] _ _ _ _ _] [H _ _ _ _]. apply in_map_iff in H. destruct H as (b & <- & Hb). cbv zeta. rewrite H7 by assumption. auto.
Qed.

Definition mirror' := mirror NOASSERT IPFRAG_FREE other_free.

(** What the inner loop leaves behind. *)
Definition mirror_post (s : nst) (bytes : list Z) (l : list Z) (poff k : Z) (r : option (Z * Z * Z)) (s' : nst) : Prop :=
  s'.(nt) = s.(nt) /\
  match r with
  | None => given_up s'.(pk)
  | Some (p', poff', nb) => exists l1 l2 ps', l = l1 ++ p' :: l2 /\ 0 <= poff' /\ 0 <= nb /\ poff' + nb <= (m0.(structs) p').(len) /\
      built m0 bs rb size cap m1 s'.(pk) ps' (bytes ++ firstn (Z.to_nat k) (rest m0 l poff)) /\
      rest m0 (p' :: l2) (poff' + nb) = skipn (Z.to_nat k) (rest m0 l poff)
  end.

Lemma rest_next a l : 0 <= (m0.(structs) a).(len) -> rest m0 (a :: l) (m0.(structs) a).(len) = rest m0 l 0.
Proof.
  intros Ha. unfold rest, content. cbn [map concat]. rewrite skipn_app, skipn_all2 by (rewrite load_list_length; lia). now rewrite load_list_length, Nat.sub_diag.
Qed.

Lemma rest_first a l poff n : 0 <= poff -> 0 <= n -> poff + n <= (m0.(structs) a).(len) ->
  rest m0 (a :: l) poff = load_list m0.(data) ((m0.(structs) a).(payload) + poff) n ++ rest m0 (a :: l) (poff + n).
Proof.
  intros H0 Hn Hl. unfold rest. replace (Z.to_nat (poff + n)) with (Z.to_nat n + Z.to_nat poff)%nat by lia. rewrite <- skipn_skipn.
  rewrite <- (firstn_skipn (Z.to_nat n) (skipn (Z.to_nat poff) _)) at 1. f_equal.
  change (content (structs m0) (data m0) (a :: l)) with (load_list m0.(data) (m0.(structs) a).(payload) (m0.(structs) a).(len) ++ content m0.(structs) m0.(data) l).
  rewrite skipn_app, firstn_app, length_skipn, load_list_length.
  replace (Z.to_nat n - (Z.to_nat (len (structs m0 a)) - Z.to_nat poff))%nat with 0%nat by lia. rewrite firstn_O, app_nil_r. symmetry.
  apply load_list_part; lia.
Qed.

Lemma built_total (m : pst) ps bytes : built m0 bs rb size cap m1 m ps bytes ->
  total m.(structs) (rb :: map fst ps) = (m1.(structs) rb).(len) + Z.of_nat (length bytes).
Proof.
  intros [_ (_ & _ & Hl) _ Hb [_ Hh] _]. cbn [total]. rewrite Hh, <- Hb. f_equal. symmetry. now apply content_total.
Qed.

Lemma mirror_post_cons (s s0 : nst) bytes bytes' a l poff k k' r s' : s0.(nt) = s.(nt) ->
  bytes ++ firstn (Z.to_nat k) (rest m0 (a :: l) poff) = bytes' ++ firstn (Z.to_nat k') (rest m0 l 0) ->
  skipn (Z.to_nat k) (rest m0 (a :: l) poff) = skipn (Z.to_nat k') (rest m0 l 0) ->
  mirror_post s0 bytes' l 0 k' r s' -> mirror_post s bytes (a :: l) poff k r s'.
Proof.
  intros Hn E1 E2 [Hnt Hp]. split; [congruence|]. destruct r as [[[p' poff'] nb']|]; [|exact Hp].
  destruct Hp as (l1 & l2 & ps' & -> & H0 & H1 & H2 & H3 & H4). exists (a :: l1), l2, ps'. rewrite E1, E2. auto 7.
Qed.

(** The loop ends with the next [k] bytes in the fragment, or gives up when
    there is no pbuf left for them. *)
Lemma mirror_spec : forall l fuel (s : nst) p poff k nb ps bytes, built m0 bs rb size cap m1 s.(pk) ps bytes -> chain m0.(structs) p l ->
  Forall (source m0 bs cap) l -> match l with [] => True | a :: _ => 0 <= poff <= (m0.(structs) a).(len) end ->
  0 < k <= Z.of_nat (length (rest m0 l poff)) -> (m1.(structs) rb).(len) + Z.of_nat (length bytes) + k < 65536 -> 0 <= (m1.(structs) rb).(len) ->
  Z.of_nat (length ps) + Z.of_nat (length l) <= cap -> (length l <= fuel)%nat ->
  exists r s', mirror' fuel rb p poff k nb s = Ok (r, s') /\ mirror_post s bytes l poff k r s'.
Proof.
  induction l as [|a l IH]; intros fuel s p poff k nb ps bytes Hb Hc Hs Hoff Hk Htot Hlen Hcnt Hf.
  - exfalso. unfold rest in Hk. cbn in Hk. rewrite skipn_nil in Hk. cbn in Hk. lia.
  - destruct fuel as [|fuel]; [cbn in Hf; lia|]. unfold mirror' in *. cbn [mirror]. rewrite (proj2 (Z.eqb_neq k 0)) by lia.
    destruct Hc as (-> & Ha0 & Hc). apply Forall_cons_iff in Hs. destruct Hs as [Sa Hs].
    destruct (built_source _ _ _ _ Hb Sa) as (El & Ep & En). unfold pbuf_at. rewrite bind_gets, El, Ep, En.
    pose proof (so_len _ _ _ _ Sa) as Hla. cbn [length] in Hcnt, Hf. rewrite u16_id by word_lia. set (n := Z.min k (len (structs m0 a) - poff)).
    assert (Hnext : forall fuel s bytes ps k, (length l <= fuel)%nat -> built m0 bs rb size cap m1 s.(pk) ps bytes -> 0 < k <= Z.of_nat (length (rest m0 l 0)) ->
      (m1.(structs) rb).(len) + Z.of_nat (length bytes) + k < 65536 -> Z.of_nat (length ps) + Z.of_nat (length l) <= cap -> forall nb,
      exists r s', mirror NOASSERT IPFRAG_FREE other_free fuel rb (next (structs m0 a)) 0 k nb s = Ok (r, s') /\ mirror_post s bytes l 0 k r s').
    { intros. eapply IH; eauto. destruct l as [|b l]; [exact I|]. apply Forall_inv in Hs. pose proof (so_len _ _ _ _ Hs). lia. }
    destruct (Z.eqb_spec n 0) as [Hn0|Hn0].
    + assert (poff = len (structs m0 a)) as -> by lia. rewrite rest_next in Hk by lia.
      destruct (Hnext fuel s bytes ps k ltac:(lia) Hb Hk Htot ltac:(lia) n) as (r & s' & E & Hp). exists r, s'. split; [exact E|].
      apply (mirror_post_cons s s bytes bytes a l _ k k); rewrite ?(rest_next a l) by lia; auto.
    + assert (Hn : 0 < n) by lia. pose proof (rest_first a l poff n ltac:(lia) ltac:(lia) ltac:(lia)) as Erest.
      set (piece := load_list (data m0) (payload (structs m0 a) + poff) n) in *. assert (Lp : length piece = Z.to_nat n) by apply load_list_length.
      destruct (pool_malloc_law _ _ MEMP_FRAG_PBUF (fc_owns _ _ _ _ _ _ _ (bu_chain _ _ _ _ _ _ _ _ _ Hb))) as ([x|] & mm' & E & Ho).
      2:{ rewrite (net_pb _ _ s None (s.(pk) <| mm := mm' |>)) by (unfold ip_frag_alloc_pbuf_custom_ref, lift; now rewrite E).
          set (s1 := s <| pk := _ |>). destruct (built_gives_up s1 ps bytes (built_mm _ _ _ _ Hb Ho)) as (s' & E' & Hnt & Hgu).
          rewrite (bind_ok _ _ _ _ _ E'). exists None, s'. split; [reflexivity|]. split; [exact Hnt|exact Hgu]. }
      rewrite (net_pb _ _ s (Some x) (s.(pk) <| mm := mm' |>)) by (unfold ip_frag_alloc_pbuf_custom_ref, lift; now rewrite E).
      destruct (piece_added m0 bs rb size cap m1 s.(pk) ps bytes x a poff n mm' H24 Hb Ho Sa) as (m2 & m3 & m5 & E2 & E3 & E5 & Hb5);
        [lia|lia|lia|lia|rewrite (built_total _ _ _ Hb); lia|]. fold piece in Hb5.
      destruct (owns_fresh _ _ _ Ho) as [Hx0 _]. cbn [b_addr] in Hx0.
      erewrite net_pb by exact E2. rewrite (proj2 (Z.eqb_neq _ _) Hx0). erewrite net_pb by exact E3. rewrite !net_store, net_data_twice.
      erewrite net_pb by exact E5. set (s5 := _ <| pk := m5 |>). rewrite u16_id by word_lia. destruct (Z.eqb_spec (k - n) 0) as [Hkn|Hkn]; cbn [negb].
      * assert (Ek : mirror NOASSERT IPFRAG_FREE other_free fuel rb a poff (k - n) n s5 = Ok (Some (a, poff, n), s5)) by (rewrite Hkn; destruct fuel; reflexivity).
        exists (Some (a, poff, n)), s5. split; [exact Ek|]. split; [reflexivity|]. exists [], l, (ps ++ [(x, a)]). replace k with n by lia.
        split; [reflexivity|]. split; [lia|]. split; [lia|]. split; [lia|]. rewrite Erest, firstn_app, skipn_app, Lp, Nat.sub_diag, firstn_O, app_nil_r, firstn_all2, skipn_all2 by (rewrite Lp; lia).
        split; [exact Hb5|reflexivity].
      * assert (n = len (structs m0 a) - poff) as En' by lia. replace (poff + n) with (len (structs m0 a)) in Erest by lia. rewrite rest_next in Erest by lia.
        rewrite Erest, length_app, Lp in Hk. destruct (built_source _ _ _ _ Hb5 Sa) as (_ & _ & En5). rewrite bind_gets. change (structs (pk s5) a) with (structs m5 a). rewrite En5.
        destruct (Hnext fuel s5 (bytes ++ piece) (ps ++ [(x, a)]) (k - n) ltac:(lia) Hb5) with (nb := n) as (r & s' & E' & Hp);
          [lia|rewrite length_app, Lp; lia|rewrite length_app; cbn [length]; lia|]. exists r, s'. split; [exact E'|].
        apply (mirror_post_cons s s5 bytes (bytes ++ piece) a l _ k (k - n)); [reflexivity| | |exact Hp]; rewrite Erest.
        -- rewrite firstn_app, firstn_all2, Lp, <- app_assoc by (rewrite Lp; lia). do 3 f_equal. lia.
        -- rewrite skipn_app, skipn_all2, Lp by (rewrite Lp; lia). cbn [app]. f_equal. lia.
Qed.
End Mirror.

(** ** The headers *)

Lemma store_twice d a l l' x : length l' = length l -> store_list a l (store_list a l' d) x = store_list a l d x.
Proof. intros E. unfold store_list. rewrite E. now destruct (_ && _). Qed.

(** The stores of [ip4_frag] into a copy of the packet's header. *)
Lemma frag_header_stored D a tos len0 len id off0 off ttl proto chk0 chk src dest : is_u16 len -> is_u16 off ->
  load_list D a 20 = ip_hdr tos len0 id off0 ttl proto chk0 src dest ->
  load_list (store_list (a + 10) (put16 chk) (store_list (a + 2) (put16 (lwip_htons len)) (store_list (a + 6) (put16 (lwip_htons off)) D))) a 20 =
  ip_hdr tos len id off ttl proto chk src dest.
Proof.
  intros Hl Ho Hh. rewrite !put16_htons by assumption. unfold ip_hdr at 1.
  change (?a1 :: ?a2 :: ?a3 :: ?a4 :: ?a5 :: ?a6 :: ?a7 :: ?a8 :: [?a9; ?a10]) with ([a1; a2] ++ [a3; a4] ++ [a5; a6] ++ [a7; a8] ++ [a9; a10]).
  rewrite <- !app_assoc. assert (HD : forall k n, 0 <= k -> 0 <= n -> k + n <= 20 ->
    load_list D (a + k) n = firstn (Z.to_nat n) (skipn (Z.to_nat k) (ip_hdr tos len0 id off0 ttl proto chk0 src dest)))
    by (intros k n Hk Hn Hkn; rewrite <- Hh; now apply load_list_part). clear Hh.
  pose proof (HD 0 2 ltac:(lia) ltac:(lia) ltac:(lia)) as HD0. rewrite Z.add_0_r in HD0. assert (L16 : forall v, length (put16 v) = 2%nat) by reflexivity.
  change 20 with (2 + (2 + (2 + (2 + (2 + (2 + 8)))))). rewrite !load_app by lia.
  replace (a + 2 + 2) with (a + 4) by lia. replace (a + 4 + 2) with (a + 6) by lia. replace (a + 6 + 2) with (a + 8) by lia.
  replace (a + 8 + 2) with (a + 10) by lia. replace (a + 10 + 2) with (a + 12) by lia.
  repeat match goal with |- load_list _ _ _ ++ _ = _ ++ _ => f_equal end;
    rewrite ?load_store_other by (rewrite ?L16; cbn [length]; lia); try (apply load_stored; reflexivity); (rewrite HD0 || rewrite HD by lia); reflexivity.
Qed.

(** ** The outer loop *)

(** A fragment before its data: the first pbuf, fresh from the heap. *)
Lemma built_start m0 bs rb size cap m d : owns m.(mm) (mkBlk Heap rb size :: bs) -> Forall (untouched m0 m) bs -> 0 <= cap ->
  m.(structs) rb = mkPbuf 0 (rb + 30) 20 20 PBUF_RAM 0 1 -> (forall x, ~ rb <= x < rb + size -> d x = m.(data) x) ->
  let m1 := m <| data := d |> in built m0 bs rb size cap m1 m1 [] [].
Proof.
  intros Ho Hu Hcap Hs Hd m1. destruct (owns_fresh _ _ _ Ho) as [Hrb Hni]. cbn [b_addr] in *. rewrite Forall_forall in Hu.
  split; [|now cbn [map lengths total m1 structs with_field]; rewrite Hs|constructor|reflexivity|now split|reflexivity].
  split; cbn [map app chain m1 structs data mm with_field]; rewrite ?Hs; cbn [next type flags ref]; auto.
  - intros b Hb. rewrite (proj1 (Hu b Hb)). symmetry. now apply more_refs_0.
  - intros b x Hb Hx. rewrite Hd by (exact (owns_outside _ _ _ b x Ho Hb Hx)). now apply (Hu b Hb).
Qed.

(** The bytes of a finished fragment, with new bytes in the block of its first pbuf. *)
Lemma built_content m0 bs rb size cap m1 m ps bytes d : built m0 bs rb size cap m1 m ps bytes ->
  (forall x, ~ rb <= x < rb + size -> d x = m.(data) x) ->
  content m.(structs) d (rb :: map fst ps) = load_list d (m1.(structs) rb).(payload) (m1.(structs) rb).(len) ++ bytes.
Proof.
  intros [Hf _ Hw Hb [Hp Hl] _] Hd. change (content (structs m) d (rb :: map fst ps)) with
    (load_list d (m.(structs) rb).(payload) (m.(structs) rb).(len) ++ content m.(structs) d (map fst ps)). rewrite Hp, Hl. f_equal. rewrite <- Hb.
  apply content_ext. intros a x Ha Hx. apply Hd. rewrite Forall_forall in Hw. destruct (Hw a Ha) as (c & Hc & H1 & H2). unfold in_payload in Hx.
  assert (Ho : owns (mm m) (mkBlk Heap rb size :: map frag_blk (map fst ps) ++ bs)).
  { generalize (fc_owns _ _ _ _ _ _ _ Hf). apply owns_perm. symmetry. apply Permutation_middle. }
  apply (owns_outside _ _ _ c x Ho); [apply in_app_iff; now right|lia].
Qed.

(** The fragments of [bytes] as the code cuts them for the given MTU, each with
    its offset field: the test for the last one compares with the room, which is
    not rounded to a multiple of 8. *)
Fixpoint fragments (fuel : nat) (mtu ofo : Z) (bytes : list Z) : list (Z * list Z) :=
  match fuel, bytes with
  | S k, _ :: _ =>
      let nfb := (mtu - IP_HLEN) / 8 in
      let n := Z.to_nat (8 * nfb) in
      (ofo + (if Z.of_nat (length bytes) <=? mtu - IP_HLEN then 0 else IP_MF), firstn n bytes) :: fragments k mtu (ofo + nfb) (skipn n bytes)
  | _, _ => []
  end.

Lemma fragments_cons j mtu ofo bytes : bytes <> [] -> let n := Z.to_nat (8 * ((mtu - IP_HLEN) / 8)) in
  fragments (S j) mtu ofo bytes = (ofo + (if Z.of_nat (length bytes) <=? mtu - IP_HLEN then 0 else IP_MF), firstn n bytes) ::
    fragments j mtu (ofo + (mtu - IP_HLEN) / 8) (skipn n bytes).
Proof. destruct bytes; [contradiction|reflexivity]. Qed.

(** Data that fits the room, but not the room rounded down. *)
Lemma fragments_two mtu bytes : let nfb := (mtu - IP_HLEN) / 8 in let k := Z.to_nat (8 * nfb) in
  28 <= mtu -> 8 * nfb < Z.of_nat (length bytes) <= mtu - IP_HLEN -> fragments (length bytes) mtu 0 bytes = [(0, firstn k bytes); (nfb, skipn k bytes)].
Proof.
  intros nfb k Hm Hl. assert (Hnp : 1 <= nfb) by (apply Z.div_le_lower_bound; unfold IP_HLEN; lia).
  assert (Hn8 : mtu - IP_HLEN < 8 * nfb + 8) by (unfold nfb; pose proof (Z.div_mod (mtu - IP_HLEN) 8); pose proof (Z.mod_pos_bound (mtu - IP_HLEN) 8); lia).
  assert (Hsk : length (skipn k bytes) = (length bytes - k)%nat) by apply length_skipn.
  replace (length bytes) with (S (S (length bytes - 2))) by lia.
  rewrite fragments_cons by (intros ->; cbn [length] in Hl; lia). rewrite fragments_cons by (fold nfb k; intros E; rewrite E in Hsk; cbn [length] in Hsk; lia).
  fold nfb k. rewrite !(proj2 (Z.leb_le _ _)) by lia. rewrite (firstn_all2 (skipn k bytes)), (skipn_all2 (skipn k bytes)) by lia. rewrite !Z.add_0_r. now destruct (length bytes - 2)%nat.
Qed.

(** The fragments of RFC 791: pieces of [8 * nfb] bytes, MF in all of them that
    have data behind them. *)
Fixpoint rfc791_fragments (fuel : nat) (nfb ofo : Z) (bytes : list Z) : list (Z * list Z) :=
  match fuel, bytes with
  | S k, _ :: _ =>
      let rest := skipn (Z.to_nat (8 * nfb)) bytes in
      (ofo + (match rest with [] => 0 | _ => IP_MF end), firstn (Z.to_nat (8 * nfb)) bytes) :: rfc791_fragments k nfb (ofo + nfb) rest
  | _, _ => []
  end.

(** The last piece does not fit into the bytes that rounding takes from the room. *)
Definition no_short_tail (mtu L : Z) : Prop :=
  let u := 8 * ((mtu - IP_HLEN) / 8) in L <= u \/ L mod u = 0 \/ mtu - IP_HLEN < u + L mod u.

Lemma fragments_rfc791 mtu : 28 <= mtu -> forall j ofo bytes, no_short_tail mtu (Z.of_nat (length bytes)) -> fragments j mtu ofo bytes = rfc791_fragments j ((mtu - IP_HLEN) / 8) ofo bytes.
Proof.
  intros Hm. set (u := 8 * ((mtu - IP_HLEN) / 8)). assert (Hu : 8 <= u) by (assert (1 <= (mtu - IP_HLEN) / 8) by (apply Z.div_le_lower_bound; unfold IP_HLEN; lia); unfold u; lia).
  assert (Hr : u <= mtu - IP_HLEN < u + 8) by (unfold u; pose proof (Z.div_mod (mtu - IP_HLEN) 8); pose proof (Z.mod_pos_bound (mtu - IP_HLEN) 8); lia).
  induction j as [|j IH]; intros ofo bytes H; [reflexivity|]. destruct bytes as [|b t] eqn:Eb; [reflexivity|]. rewrite fragments_cons by discriminate. cbn [rfc791_fragments]. rewrite <- Eb in *. fold u.
  assert (Hsk : length (skipn (Z.to_nat u) bytes) = (length bytes - Z.to_nat u)%nat) by apply length_skipn. unfold no_short_tail in H, IH. fold u in H, IH. destruct (Z.leb_spec (Z.of_nat (length bytes)) u) as [Hl|Hl].
  - rewrite (skipn_all2 bytes) by lia. rewrite (proj2 (Z.leb_le _ _)) by lia. f_equal. rewrite IH; [reflexivity|left; cbn [length]; lia].
  - assert (Hmod : (Z.of_nat (length bytes) - u) mod u = Z.of_nat (length bytes) mod u) by (rewrite <- (Z_mod_plus_full (Z.of_nat (length bytes) - u) 1 u); f_equal; lia).
    pose proof (Z.mod_pos_bound (Z.of_nat (length bytes)) u ltac:(lia)) as Hb. pose proof (Z.mod_le (Z.of_nat (length bytes) - u) u ltac:(lia) ltac:(lia)) as Hle. rewrite Hmod in Hle.
    assert (Hbig : mtu - IP_HLEN < Z.of_nat (length bytes)) by (destruct H as [H|[H|H]]; [lia| |lia]; assert (Z.of_nat (length bytes) = u * (Z.of_nat (length bytes) / u)) by (apply Z_div_exact_full_2; lia); assert (1 < Z.of_nat (length bytes) / u) by nia; nia).
    rewrite (proj2 (Z.leb_gt _ _)) by lia. destruct (skipn (Z.to_nat u) bytes) as [|x r] eqn:Es; [cbn [length] in Hsk; lia|]. rewrite <- Es in *. f_equal. apply IH. replace (Z.of_nat (length (skipn (Z.to_nat u) bytes))) with (Z.of_nat (length bytes) - u) by lia. rewrite Hmod. destruct H as [H|H]; [lia|now right].
Qed.

Variable netif_output : Z -> Z -> Z -> NM err_t.
Variable sent : Drv -> list (Z * Z * list Z).
(** The driver sends the packet. *)
Hypothesis link_sends : forall n p l dest s, chain s.(pk).(structs) p (p :: l) -> (length l < loop_fuel)%nat ->
  (s.(pk).(structs) p).(type) = PBUF_RAM \/ (s.(pk).(structs) p).(type) = PBUF_POOL ->
  exists s' w, netif_output n p dest s = Ok (ERR_OK, s') /\ touches s.(pk) p s'.(pk) /\ s'.(nt) = s.(nt) <| drv := w |> /\
    sent w = sent s.(nt).(drv) ++ [(n, dest, content s.(pk).(structs) s.(pk).(data) (p :: l))].

Section Loop.
Variables (m0 : pst) (bs : list blk) (cap n next_hop mtu orig : Z).
Hypotheses (H24 : 24 <= pool_size MEMP_FRAG_PBUF) (Hcap : 0 <= cap <= 65535) (Hmtu : 28 <= mtu < 65536).
Variables tos len0 id off0 ttl proto chk0 src dest : Z.
Hypotheses (Htos : is_u8 tos) (Hid : is_u16 id) (Httl : is_u8 ttl) (Hproto : is_u8 proto).
Hypothesis Horig : load_list m0.(data) orig 20 = ip_hdr tos len0 id off0 ttl proto chk0 src dest.
Hypothesis Horig_in : exists c, In c bs /\ c.(b_addr) <= orig /\ orig + 20 <= c.(b_addr) + c.(b_size).

(** A fragment on the link. *)
Definition frag_packet (fr : Z * list Z) : list Z :=
  ip_header tos (Z.of_nat (length (snd fr)) + 20) id (fst fr) ttl proto src dest ++ snd fr.

Definition frag_loop' := frag_loop NOASSERT IPFRAG_FREE other_free tcpip_callback_ok netif_output.
Abbreviation nfb := ((mtu - IP_HLEN) / 8).

(** A new header pbuf, with the packet's header in it. *)
Lemma header_pbuf (s : nst) : given_up m0 bs s.(pk) -> exists rb m, pbuf_alloc NOASSERT custom_ff tcpip_callback_ok PBUF_LINK IP_HLEN PBUF_RAM s.(pk) = Ok (rb, m) /\
  ((rb = 0 /\ given_up m0 bs m) \/
   (rb <> 0 /\ (m.(structs) rb).(payload) = rb + 30 /\ (m.(structs) rb).(len) = 20 /\ (forall o, source m0 bs cap o -> m.(structs) o = m0.(structs) o) /\
    load_list m.(data) orig 20 = ip_hdr tos len0 id off0 ttl proto chk0 src dest /\
    forall d, (forall x, ~ rb + 30 <= x < rb + 50 -> d x = m.(data) x) -> built m0 bs rb 50 cap (m <| data := d |>) (m <| data := d |>) [] [])).
Proof.
  intros [Ho Hu]. destruct (pbuf_alloc_ram_spec NOASSERT custom_ff tcpip_callback_ok s.(pk) bs PBUF_LINK IP_HLEN Ho) as (rb & m & E & [Hd Hs] & Hr); [unfold IP_HLEN; lia|].
  exists rb, m. split; [exact E|]. assert (Hu' : Forall (untouched m0 m) bs).
  { rewrite Forall_forall in Hu |- *. intros b Hb. destruct (Hu b Hb) as [U1 U2]. split; [now rewrite Hs|]. intros x Hx. rewrite Hd. now apply U2. }
  destruct Hr as [[-> Ho']|(Ho' & Hrb & _)]; [left; now split|right]. change (u16 _) with 50 in Ho'.
  change (rb + SIZEOF_STRUCT_PBUF + layer_offset PBUF_LINK) with (rb + 16 + 14) in Hrb. replace (rb + 16 + 14) with (rb + 30) in Hrb by lia.
  destruct (owns_fresh _ _ _ Ho') as [Hrb0 _]. split; [exact Hrb0|]. split; [now rewrite Hrb|]. split; [now rewrite Hrb|]. rewrite Forall_forall in Hu'. split; [|split].
  - intros o [So _ _ _ _]. apply in_map_iff in So. destruct So as (b & <- & Hb). now apply Hu'.
  - rewrite <- Horig. destruct Horig_in as (c & Hc & H1 & H2). apply load_ext. intros x Hx. apply (Hu' c Hc). lia.
  - intros d Hdd. apply built_start; auto; [now apply Forall_forall|lia|]. intros x Hx. apply Hdd. lia.
Qed.

(** The second half of a round: the header is corrected, the fragment sent and freed. *)
Lemma fragment_sent (s : nst) rb m1 ps bytes off fragsize : built m0 bs rb 50 cap m1 s.(pk) ps bytes -> (m1.(structs) rb).(payload) = rb + 30 ->
  (m1.(structs) rb).(len) = 20 -> load_list m1.(data) (rb + 30) 20 = ip_hdr tos len0 id off0 ttl proto chk0 src dest -> is_u16 off ->
  fragsize = Z.of_nat (length bytes) -> fragsize + 20 < 65536 ->
  exists s' w, given_up m0 bs s'.(pk) /\ s'.(nt) = s.(nt) <| drv := w |> <| ip_frag_xmit := u16 (s.(nt).(ip_frag_xmit) + 1) |> /\
    sent w = sent s.(nt).(drv) ++ [(n, next_hop, frag_packet (off, bytes))] /\
    forall K : NM err_t,
      (store (rb + 30 + 6) (put16 (lwip_htons off)) ;;
       store (rb + 30 + 2) (put16 (lwip_htons (fragsize + IP_HLEN))) ;;
       store (rb + 30 + 10) (put16 0) ;;
       do h <- load (rb + 30) IP_HLEN;
       store (rb + 30 + 10) (put16 (inet_chksum (rb + 30) h)) ;;
       netif_output n rb next_hop ;;
       mnet (fun e => e <| ip_frag_xmit := u16 (e.(ip_frag_xmit) + 1) |>) ;;
       Ip4Out.free NOASSERT IPFRAG_FREE other_free rb ;; K) s = K s'.
Proof.
  intros Hb Hpl Hlen Hh Hoff -> Hsz. pose proof Hb as [Hfc _ _ _ _ Hdata]. set (L := Z.of_nat (length bytes) + 20) in *.
  assert (HL : is_u16 L) by (unfold L; word_lia). set (h := rb + 30) in *. set (D0 := s.(pk).(data)) in *.
  set (D3 := store_list (h + 10) (put16 0) (store_list (h + 2) (put16 (lwip_htons L)) (store_list (h + 6) (put16 (lwip_htons off)) D0))).
  assert (Hgen : forall chk, load_list (store_list (h + 10) (put16 chk) (store_list (h + 2) (put16 (lwip_htons L)) (store_list (h + 6) (put16 (lwip_htons off)) D0))) h 20 =
    ip_hdr tos L id off ttl proto chk src dest).
  { intros chk. apply (frag_header_stored D0 h tos len0 L id off0 off ttl proto chk0 chk src dest HL Hoff). rewrite <- Hh. apply load_ext.
    intros x Hx. apply Hdata. unfold h in Hx. lia. }
  set (D4 := store_list (h + 10) (put16 (rfc1071_field (ip_hdr tos L id off ttl proto 0 src dest))) D3).
  assert (HD4 : load_list D4 h 20 = ip_header tos L id off ttl proto src dest).
  { unfold ip_header. rewrite <- Hgen. unfold D4, D3. apply load_ext. intros x Hx. now apply store_twice. }
  assert (HDx : forall x, ~ rb <= x < rb + 50 -> D4 x = D0 x) by (intros x Hx; unfold D4, D3, h; rewrite !store_other by (cbn [length put16]; lia); reflexivity).
  set (s4 := net_data s D4).
  assert (Hfc4 : frag_chain m0 bs rb 50 cap s4.(pk) ps).
  { apply (frag_chain_write _ _ _ _ _ _ _ _ Hfc H24); [reflexivity| |reflexivity|exact HDx].
    exists (payload (structs (pk s) rb)), (len (structs (pk s) rb)), (tot_len (structs (pk s) rb)). cbn [s4 net_data pk structs with_field].
    destruct (structs (pk s) rb) as [f1 f2 f3 f4 f5 f6 f7]. reflexivity. }
  assert (Hc4 : content s4.(pk).(structs) s4.(pk).(data) (rb :: map fst ps) = frag_packet (off, bytes)).
  { change (pk s4) with ((pk s) <| data := D4 |>). cbn [structs data with_field]. rewrite (built_content _ _ _ _ _ _ _ _ _ D4 Hb HDx), Hpl, Hlen, HD4. reflexivity. }
  destruct (link_sends n rb (map fst ps) next_hop s4) as (s5 & w & E5 & Ht5 & Hn5 & Hw5).
  { exact (fc_chain _ _ _ _ _ _ _ Hfc4). }
  { destruct loop_fuel_S as (k & -> & Hk). rewrite length_map. pose proof (fc_cap _ _ _ _ _ _ _ Hfc4). lia. }
  { left. apply (fc_head _ _ _ _ _ _ _ Hfc4). }
  rewrite Hc4 in Hw5. set (s6 := s5 <| nt := (nt s5) <| ip_frag_xmit := u16 ((nt s5).(ip_frag_xmit) + 1) |> |>).
  assert (Hfc6 : frag_chain m0 bs rb 50 cap s6.(pk) ps).
  { apply (frag_chain_sent _ _ _ _ _ _ _ _ Hfc4 H24); [|exact Ht5]. change (payload (structs (pk s4) rb)) with (payload (structs (pk s) rb)).
    rewrite (proj1 (bu_head _ _ _ _ _ _ _ _ _ Hb)), Hpl. unfold h. lia. }
  destruct (frag_chain_free _ _ _ _ _ _ _ Hfc6 (proj2 Hcap)) as (c & m' & E & Ho & Hu).
  exists (s6 <| pk := m' |>), w. split; [now split|]. split; [|split; [exact Hw5|]].
  { change (nt (s6 <| pk := m' |>)) with ((nt s5) <| ip_frag_xmit := u16 ((nt s5).(ip_frag_xmit) + 1) |>). now rewrite Hn5. }
  intros K. rewrite !net_store, !net_data_twice, !data_net_data. unfold load. rewrite bind_gets. change (data (pk (net_data s _))) with D3.
  change IP_HLEN with 20. fold D0 L D3. rewrite (Hgen 0 : load_list D3 h 20 = _), inet_chksum_rfc1071 by ((apply ip_hdr_ok; assumption) || (cbn [ip_hdr length app put16 put32]; lia)).
  rewrite net_store, net_data_twice, data_net_data. fold D4 s4.
  rewrite (bind_ok _ _ _ _ _ E5). unfold mnet. rewrite bind_modify. fold s6. now rewrite (bind_ok _ _ _ _ _ (net_free s6 rb c m' E)).
Qed.

(** The offset field of a fragment. *)
Lemma offset_field ofo (b : bool) : 0 <= ofo < 8192 ->
  (if b then IP_OFFMASK .& ofo else (IP_OFFMASK .& ofo) .| IP_MF) = ofo + (if b then 0 else IP_MF).
Proof.
  intros Ho. change IP_OFFMASK with (Z.ones 13). rewrite Z.land_comm, Z.land_ones, Z.mod_small by lia.
  destruct b; [lia|]. rewrite Z.lor_comm, (lor_add ofo IP_MF 13) by (reflexivity || lia). lia.
Qed.

(** What one round does: it gives up with nothing sent, or sends the next
    fragment and goes on behind it. *)
Lemma frag_round fuel (s : nst) p l poff left ofo : let bytes := rest m0 (p :: l) poff in let k := Z.min left (8 * nfb) in
  given_up m0 bs s.(pk) -> chain m0.(structs) p (p :: l) -> Forall (source m0 bs cap) (p :: l) -> 20 <= (m0.(structs) p).(len) ->
  0 <= poff <= (m0.(structs) p).(len) -> left = Z.of_nat (length bytes) -> 0 < left -> left + 20 < 65536 -> 0 <= ofo -> 8 * ofo + left <= 65535 ->
  Z.of_nat (length (p :: l)) <= cap ->
  (exists s', frag_loop' (S fuel) n next_hop mtu orig p poff left ofo s = Ok (ERR_MEM, s') /\ given_up m0 bs s'.(pk) /\ s'.(nt) = s.(nt)) \/
  (exists s' w l1 p' l' poff', p :: l = l1 ++ p' :: l' /\
    frag_loop' (S fuel) n next_hop mtu orig p poff left ofo s = frag_loop' fuel n next_hop mtu orig p' poff' (left - k) (u16 (ofo + nfb)) s' /\
    given_up m0 bs s'.(pk) /\ s'.(nt) = s.(nt) <| drv := w |> <| ip_frag_xmit := u16 (s.(nt).(ip_frag_xmit) + 1) |> /\
    sent w = sent s.(nt).(drv) ++ [(n, next_hop, frag_packet (ofo + (if left <=? mtu - IP_HLEN then 0 else IP_MF), firstn (Z.to_nat k) bytes))] /\
    0 <= poff' <= (m0.(structs) p').(len) /\ rest m0 (p' :: l') poff' = skipn (Z.to_nat k) bytes).
Proof.
  intros bytes k Hgu Hc Hsrc Hlen Hpoff Hleft Hpos Hsz Hofo Hrange Hcnt. unfold frag_loop'. cbn [frag_loop]. rewrite (proj2 (Z.eqb_neq left 0)) by lia.
  assert (Hnfb : 1 <= nfb <= 8191) by (unfold IP_HLEN; split; [apply Z.div_le_lower_bound; lia|apply Z.lt_succ_r, Z.div_lt_upper_bound; lia]).
  rewrite Z.quot_div_nonneg by (unfold IP_HLEN; lia). rewrite (u16_id nfb) by word_lia. rewrite (Z.mul_comm nfb 8). fold k. rewrite (u16_id k) by (unfold k; word_lia).
  destruct (header_pbuf s Hgu) as (rb & m & E & [[-> Hgm]|(Hrb & Hpl & Hln & Hold & Horig' & Hstart)]).
  - left. unfold alloc. erewrite net_pb by exact E. eexists. split; [reflexivity|]. split; [exact Hgm|reflexivity].
  - unfold alloc. erewrite net_pb by exact E. rewrite (proj2 (Z.eqb_neq _ _) Hrb). set (s1 := s <| pk := m |>).
    pose proof (Forall_inv Hsrc) as Sp. unfold pbuf_at. rewrite !bind_gets. change (structs (pk s1)) with (structs m).
    rewrite net_assert by (rewrite (Hold p Sp); apply Z.geb_le; unfold IP_HLEN; lia). unfold load. rewrite !bind_gets.
    change (pk s1) with m. rewrite Hpl. change IP_HLEN with 20. rewrite Horig', net_store.
    set (hd0 := ip_hdr tos len0 id off0 ttl proto chk0 src dest). set (d1 := store_list (rb + 30) hd0 (data m)). set (s2 := net_data s1 d1).
    assert (Hb : built m0 bs rb 50 cap (pk s2) (pk s2) [] []).
    { apply Hstart. intros x Hx. apply store_other. change (Z.of_nat (length hd0)) with 20. lia. }
    assert (Hpl2 : payload (structs (pk s2) rb) = rb + 30) by exact Hpl.
    destruct (mirror_spec m0 bs rb 50 cap (pk s2) H24 (proj2 Hcap) (p :: l) loop_fuel s2 p poff k 0 [] [] Hb Hc Hsrc Hpoff) as (r & s3 & E3 & Hnt3 & Hr).
    + fold bytes. unfold k. lia.
    + change (structs (pk s2)) with (structs m). rewrite Hln. cbn [length Z.of_nat]. unfold k. lia.
    + change (structs (pk s2)) with (structs m). rewrite Hln. lia.
    + cbn [length]. cbn [length] in Hcnt. lia.
    + destruct loop_fuel_S as (j & -> & Hj). lia.
    + unfold mirror' in E3. rewrite (bind_ok _ _ _ _ _ E3). destruct r as [[[p' poff'] nb]|].
      2:{ left. exists s3. split; [reflexivity|]. split; [exact Hr|exact Hnt3]. }
      right. destruct Hr as (l1 & l2 & ps & El & Hp0 & Hnb & Hfit & Hb3 & Erest). fold bytes in Hb3, Erest. cbn [app] in Hb3.
      assert (Hk : Z.of_nat (length (firstn (Z.to_nat k) bytes)) = k) by (rewrite length_firstn; unfold k in *; lia).
      assert (Hofo' : ofo < 8192) by lia. pose proof (offset_field ofo (left <=? mtu - 20) (conj Hofo Hofo')) as Eo.
      destruct (fragment_sent s3 rb (pk s2) ps (firstn (Z.to_nat k) bytes) (ofo + (if left <=? mtu - 20 then 0 else IP_MF)) k Hb3 Hpl2 Hln) as (s4 & w & Hgu4 & Hnt4 & Hw4 & E4).
      * apply load_stored. reflexivity.
      * unfold IP_MF. destruct (left <=? mtu - 20); word_lia.
      * now symmetry.
      * unfold k. lia.
      * exists s4, w, l1, p', l2, (poff' + nb). split; [exact El|]. pose proof Hsrc as Hsrc'. rewrite El in Hsrc'. apply Forall_app in Hsrc'. destruct Hsrc' as [_ Hs2].
        apply Forall_inv in Hs2. pose proof (so_len _ _ _ _ Hs2) as Hlp. split; [|split; [exact Hgu4|split; [rewrite Hnt4, Hnt3; reflexivity|split; [rewrite Hw4, Hnt3; reflexivity|split; [lia|exact Erest]]]]].
        cbv beta iota zeta. rewrite Eo. rewrite (u16_id (poff' + nb)) by word_lia. rewrite (u16_id (left - k)) by (unfold k; word_lia).
        exact (E4 _).
Qed.

(** What the loop puts on the link: the fragments, up to the first for which
    there is no memory. *)
Definition frags_sent (frs : list (Z * list Z)) (s : nst) (r : err_t) (s' : nst) : Prop :=
  exists k w, (r = ERR_OK /\ k = length frs \/ r = ERR_MEM /\ (k < length frs)%nat) /\ given_up m0 bs s'.(pk) /\
    s'.(nt) = s.(nt) <| drv := w |> <| ip_frag_xmit := u16 (s.(nt).(ip_frag_xmit) + Z.of_nat k) |> /\
    sent w = sent s.(nt).(drv) ++ map (fun fr => (n, next_hop, frag_packet fr)) (firstn k frs).

Lemma frags_sent_none frs r (s s' : nst) : (r = ERR_OK /\ 0%nat = length frs \/ r = ERR_MEM /\ (0 < length frs)%nat) -> is_u16 s.(nt).(ip_frag_xmit) ->
  given_up m0 bs s'.(pk) -> s'.(nt) = s.(nt) -> frags_sent frs s r s'.
Proof.
  intros Hr Hx Hg Hn. exists 0%nat, (drv (nt s)). split; [exact Hr|]. split; [exact Hg|]. split; [|now rewrite app_nil_r].
  rewrite Hn, Z.add_0_r, u16_id by exact Hx. now destruct (nt s).
Qed.

Lemma frags_sent_cons fr frs r (s s1 s' : nst) w : s1.(nt) = s.(nt) <| drv := w |> <| ip_frag_xmit := u16 (s.(nt).(ip_frag_xmit) + 1) |> ->
  sent w = sent s.(nt).(drv) ++ [(n, next_hop, frag_packet fr)] -> frags_sent frs s1 r s' -> frags_sent (fr :: frs) s r s'.
Proof.
  intros Hn Hw (k & w' & Hr & Hg & Hn' & Hw'). exists (S k), w'. split; [cbn [length]; destruct Hr as [[-> ->]|[-> Hk]]; [now left|right; split; [reflexivity|lia]]|].
  split; [exact Hg|]. rewrite Hn', Hw', Hn. cbn [drv ip_frag_xmit with_field]. split.
  - destruct (nt s) as [g1 g2 g3 g4 g5 g6 g7 g8 g9 g10 g11]. cbn [ip_frag_xmit]. unfold with_field. cbn. f_equal.
    unfold u16. rewrite Zplus_mod_idemp_l. f_equal. lia.
  - rewrite Hw, <- app_assoc. reflexivity.
Qed.

Lemma frag_loop_sends : forall j fuel (s : nst) p l poff left ofo, let bytes := rest m0 l poff in
  given_up m0 bs s.(pk) -> chain m0.(structs) p l -> Forall (source m0 bs cap) l -> Forall (fun a => 20 <= (m0.(structs) a).(len)) l ->
  match l with [] => True | a :: _ => 0 <= poff <= (m0.(structs) a).(len) end -> left = Z.of_nat (length bytes) -> left + 20 < 65536 ->
  0 <= ofo -> 8 * ofo + left <= 65535 -> Z.of_nat (length l) <= cap -> is_u16 s.(nt).(ip_frag_xmit) -> (length bytes <= j)%nat -> (length bytes <= fuel)%nat ->
  exists r s', frag_loop' fuel n next_hop mtu orig p poff left ofo s = Ok (r, s') /\ frags_sent (fragments j mtu ofo bytes) s r s'.
Proof.
  induction j as [|j IH]; intros fuel s p l poff left ofo bytes Hgu Hc Hsrc H20 Hpoff Hleft Hsz Hofo Hrange Hcnt Hx Hj Hf; cbv zeta in *; fold bytes in Hleft, Hj, Hf.
  { exists ERR_OK, s. assert (left = 0) as -> by lia. split; [destruct fuel; reflexivity|]. apply frags_sent_none; auto. }
  destruct bytes as [|b0 bt] eqn:Eb.
  { cbn [length Z.of_nat] in Hleft. subst left. exists ERR_OK, s. split; [destruct fuel; reflexivity|]. apply frags_sent_none; auto. }
  cbn [fragments]. rewrite <- Eb in *. set (m := Z.to_nat (8 * nfb)). rewrite <- Hleft. destruct l as [|a l].
  { exfalso. unfold bytes, rest in Eb. cbn in Eb. rewrite skipn_nil in Eb. discriminate. }
  assert (Hpos : 0 < left) by (rewrite Hleft, Eb; cbn [length]; lia). destruct (chain_nonnull _ _ _ _ Hc) as [-> _].
  destruct fuel as [|fuel]; [lia|]. assert (Hnfb : 1 <= nfb) by (unfold IP_HLEN; apply Z.div_le_lower_bound; lia).
  destruct (frag_round fuel s a l poff left ofo Hgu Hc Hsrc (Forall_inv H20) Hpoff Hleft Hpos Hsz Hofo Hrange Hcnt)
    as [(s' & E & Hg & Hn)|(s1 & w & l1 & p' & l' & poff' & El & E & Hg & Hn & Hw & Hp' & Er)].
  - exists ERR_MEM, s'. split; [exact E|]. apply frags_sent_none; auto. right. split; [reflexivity|]. cbn [length]. lia.
  - fold bytes in Hw, Er. set (k := Z.min left (8 * nfb)) in *.
    assert (Ek : firstn (Z.to_nat k) bytes = firstn m bytes /\ skipn (Z.to_nat k) bytes = skipn m bytes).
    { unfold k, m. destruct (Z.min_spec left (8 * nfb)) as [[Hlt ->]|[Hle ->]]; [|now split].
      rewrite !firstn_all2, !skipn_all2 by lia. now split. }
    destruct Ek as [Ek1 Ek2]. rewrite Ek1 in Hw. rewrite Ek2 in Er.
    assert (Hlen' : Z.of_nat (length (rest m0 (p' :: l') poff')) = left - k) by (rewrite Er, <- Ek2, length_skipn; unfold k; lia).
    rewrite El in Hsrc, H20, Hcnt, Hc. apply Forall_app in Hsrc, H20. rewrite length_app in Hcnt. cbn [length] in Hcnt.
    destruct (Z.lt_ge_cases (8 * nfb) left) as [Hlt|Hge].
    + destruct (IH fuel s1 p' (p' :: l') poff' (left - k) (ofo + nfb)) as (r & s' & E' & Hs'); try (unfold k in *; (lia || tauto)).
      * now apply (chain_suffix (structs m0) (structs m0) l1 (p' :: l') a).
      * cbn [length]. lia.
      * rewrite Hn. cbn [ip_frag_xmit with_field]. unfold u16. split; apply Z.mod_pos_bound; lia.
      * exists r, s'. rewrite E, u16_id by word_lia. split; [exact E'|]. rewrite <- Er. exact (frags_sent_cons _ _ _ _ _ _ w Hn Hw Hs').
    + assert (left - k = 0) as Hz by (unfold k; lia). rewrite Er in Hlen'. destruct (skipn m bytes) as [|c cs] eqn:Es; [|cbn [length] in Hlen'; lia].
      exists ERR_OK, s1. rewrite E, Hz. split; [destruct fuel; reflexivity|].
      apply (frags_sent_cons _ _ _ _ _ _ w Hn Hw). apply frags_sent_none; auto; [left; destruct j; now split|].
      rewrite Hn. cbn [ip_frag_xmit with_field]. unfold u16. split; apply Z.mod_pos_bound; lia.
Qed.
End Loop.

(** ** The whole packet *)

(** A packet in memory that can be fragmented: its pbufs are outstanding blocks
    and hold at least the size of a header each. *)
Record fragmentable (m : pst) (bs : list blk) (p : Z) (l hdr bytes : list Z) : Prop := {
  fm_owns : owns m.(mm) bs;
  fm_chain : chain m.(structs) p (p :: l);
  fm_lengths : lengths m.(structs) 0 (p :: l);
  fm_small : total m.(structs) (p :: l) < 65536;
  fm_source : Forall (source m bs (Z.of_nat (length (p :: l)))) (p :: l);
  fm_long : Forall (fun a => 20 <= (m.(structs) a).(len)) (p :: l);
  fm_content : content m.(structs) m.(data) (p :: l) = hdr ++ bytes }.

Lemma total_long f l : Forall (fun a => 20 <= (f a).(len)) l -> Z.of_nat (length l) <= total f l.
Proof. induction 1; cbn [total length]; lia. Qed.

(** [ip4_frag] sends the fragments of the packet. *)
Lemma ip4_frag_spec (s : nst) bs p l n next_hop tos len0 id off0 ttl proto chk0 src dest bytes :
  let mtu := (s.(nt).(netif_tab) n).(if_mtu) in let ofo := off0 .& IP_OFFMASK in
  fragmentable s.(pk) bs p l (ip_hdr tos len0 id off0 ttl proto chk0 src dest) bytes -> 24 <= pool_size MEMP_FRAG_PBUF ->
  28 <= mtu < 65536 -> is_u8 tos -> is_u16 id -> is_u16 off0 -> is_u8 ttl -> is_u8 proto -> off0 .& IP_MF = 0 -> 8 * ofo + Z.of_nat (length bytes) <= 65535 ->
  is_u16 s.(nt).(ip_frag_xmit) ->
  exists r s', ip4_frag NOASSERT IPFRAG_FREE other_free tcpip_callback_ok netif_output p n next_hop s = Ok (r, s') /\
    frags_sent s.(pk) bs n next_hop tos id ttl proto src dest (fragments (length bytes) mtu ofo bytes) s r s'.
Proof.
  intros mtu ofo [Ho Hc Hl Hs Hsrc Hlong Hcon] H24 Hmtu Htos Hid Hoff Httl Hproto Hmf Hrange Hx. set (hdr := ip_hdr _ _ _ _ _ _ _ _ _) in *.
  set (m0 := s.(pk)) in *. pose proof (Forall_inv Hlong) as H20. cbn beta in H20. pose proof Hl as (_ & Ht & _). pose proof (total_long _ _ Hlong) as Hcnt.
  assert (Hlb : total (structs m0) (p :: l) = 20 + Z.of_nat (length bytes)).
  { rewrite <- (content_total _ (data m0) _ Hl), Hcon, length_app. change (length hdr) with 20%nat. lia. }
  assert (Hh : load_list (data m0) (payload (structs m0 p)) 20 = hdr).
  { change (content (structs m0) (data m0) (p :: l)) with (load_list m0.(data) (m0.(structs) p).(payload) (m0.(structs) p).(len) ++ content m0.(structs) m0.(data) l) in Hcon.
    replace (len (structs m0 p)) with (20 + (len (structs m0 p) - 20)) in Hcon by lia. rewrite load_app, <- app_assoc in Hcon by lia.
    apply app_inj_length in Hcon; [tauto|rewrite load_list_length; reflexivity]. }
  unfold ip4_frag, netif_at, onet, pbuf_at, load. rewrite !bind_gets. fold m0. change IP_HLEN with 20. rewrite Hh.
  unfold hdr at 1. rewrite hdr_hl. change (5 * 4 =? 20) with true. unfold error_unless at 1.
  unfold hdr. rewrite hdr_offset, lwip_htons_involutive, Hmf by assumption. change (0 =? 0) with true. cbv beta iota zeta. unfold error_unless.
  fold mtu ofo. rewrite Ht, Z.add_0_r, Hlb, u16_id by word_lia. replace (20 + Z.of_nat (length bytes) - 20) with (Z.of_nat (length bytes)) by lia.
  assert (Er : rest m0 (p :: l) 20 = bytes) by (unfold rest; rewrite Hcon; change (Z.to_nat 20) with (length hdr); rewrite skipn_app, skipn_all, Nat.sub_diag; reflexivity).
  assert (Hofo : 0 <= ofo) by (apply Z.land_nonneg; left; word_lia).
  destruct (frag_loop_sends m0 bs (Z.of_nat (length (p :: l))) n next_hop mtu (payload (structs m0 p)) H24) with
    (tos := tos) (len0 := len0) (id := id) (off0 := off0) (ttl := ttl) (proto := proto) (chk0 := chk0) (src := src) (dest := dest)
    (j := length bytes) (fuel := loop_fuel) (s := s) (p := p) (l := p :: l) (poff := 20) (left := Z.of_nat (length bytes)) (ofo := ofo) as (r & s' & E & Hsent);
    rewrite ?Er; try (assumption || lia || reflexivity).
  - destruct (so_within _ _ _ _ (Forall_inv Hsrc)) as (c & C1 & C2 & C3). exists c. split; [exact C1|lia].
  - split; [exact Ho|]. apply Forall_forall. intros b _. now split.
  - destruct loop_fuel_S as (k & -> & Hk). lia.
  - rewrite Er in Hsent. exists r, s'. split; [exact E|exact Hsent].
Qed.

(** C14: for an MTU of at least 28 and a packet in pbufs of at least 20 bytes
    each, whose last piece is not so short that it would fit into the bytes lost by
    rounding (the next theorem is about those), [ip4_frag] returns: it sends the fragments of RFC
    791 in order, each with the header of the packet, its own length and offset, MF
    if data follows, and a valid checksum, and returns ERR_OK, or ERR_MEM behind
    those for which there was memory.  All pbufs of the fragments are given back, and the packet with its
    reference counts is as before. *)
Theorem ip4_frag_sends (s : nst) bs p l n next_hop tos len0 id off0 ttl proto chk0 src dest bytes :
  let mtu := (s.(nt).(netif_tab) n).(if_mtu) in let ofo := off0 .& IP_OFFMASK in
  fragmentable s.(pk) bs p l (ip_hdr tos len0 id off0 ttl proto chk0 src dest) bytes -> 24 <= pool_size MEMP_FRAG_PBUF ->
  28 <= mtu < 65536 -> is_u8 tos -> is_u16 id -> is_u16 off0 -> is_u8 ttl -> is_u8 proto -> off0 .& IP_MF = 0 -> 8 * ofo + Z.of_nat (length bytes) <= 65535 ->
  is_u16 s.(nt).(ip_frag_xmit) -> no_short_tail mtu (Z.of_nat (length bytes)) ->
  let frs := rfc791_fragments (length bytes) ((mtu - IP_HLEN) / 8) ofo bytes in
  exists r s' k, ip4_frag NOASSERT IPFRAG_FREE other_free tcpip_callback_ok netif_output p n next_hop s = Ok (r, s') /\
    (r = ERR_OK /\ k = length frs \/ r = ERR_MEM /\ (k < length frs)%nat) /\
    sent s'.(nt).(drv) = sent s.(nt).(drv) ++ map (fun fr => (n, next_hop, frag_packet tos id ttl proto src dest fr)) (firstn k frs) /\
    s'.(nt).(ip_frag_xmit) = u16 (s.(nt).(ip_frag_xmit) + Z.of_nat k) /\
    owns s'.(pk).(mm) bs /\ Forall (untouched s.(pk) s'.(pk)) bs.
Proof.
  intros mtu ofo Hf H24 Hm Htos Hid Hoff Httl Hpr Hmf Hr Hx Ht frs.
  destruct (ip4_frag_spec s bs p l n next_hop tos len0 id off0 ttl proto chk0 src dest bytes) as (r & s' & E & k & w & Hk & [Ho Hu] & Hn & Hw); try assumption.
  fold mtu ofo in Hk, Hw. rewrite fragments_rfc791 in Hk, Hw by (assumption || apply Hm). exists r, s', k. rewrite Hn. cbn [drv ip_frag_xmit with_field]. auto 8.
Qed.

(** C37: when the room for data is not a multiple of 8 and the data just fits
    it, [ip4_frag] sends two fragments and neither has the flag MF: the test for
    the last fragment compares with the room, the size is rounded down. *)
Theorem ip4_frag_two_last (s : nst) bs p l n next_hop tos len0 id ttl proto chk0 src dest bytes :
  let mtu := (s.(nt).(netif_tab) n).(if_mtu) in let nfb := (mtu - IP_HLEN) / 8 in let k := Z.to_nat (8 * nfb) in
  fragmentable s.(pk) bs p l (ip_hdr tos len0 id 0 ttl proto chk0 src dest) bytes -> 24 <= pool_size MEMP_FRAG_PBUF ->
  28 <= mtu < 65516 -> is_u8 tos -> is_u16 id -> is_u8 ttl -> is_u8 proto -> is_u16 s.(nt).(ip_frag_xmit) ->
  8 * nfb < Z.of_nat (length bytes) <= mtu - IP_HLEN ->
  exists r s', ip4_frag NOASSERT IPFRAG_FREE other_free tcpip_callback_ok netif_output p n next_hop s = Ok (r, s') /\
    (r = ERR_MEM \/ r = ERR_OK /\ sent s'.(nt).(drv) = sent s.(nt).(drv) ++
      [(n, next_hop, frag_packet tos id ttl proto src dest (0, firstn k bytes)); (n, next_hop, frag_packet tos id ttl proto src dest (nfb, skipn k bytes))]).
Proof.
  intros mtu nfb k Hf H24 Hm Htos Hid Httl Hpr Hx Hl.
  destruct (ip4_frag_spec s bs p l n next_hop tos len0 id 0 ttl proto chk0 src dest bytes) as (r & s' & E & j & w & Hk & _ & Hn & Hw); try (assumption || reflexivity || lia).
  { word_lia. }
  { change (8 * (0 .& IP_OFFMASK)) with 0. unfold IP_HLEN in Hl. lia. }
  exists r, s'. split; [exact E|]. destruct Hk as [[-> ->]|[-> _]]; [right; split; [reflexivity|]|now left]. rewrite Hn. cbn [drv with_field]. rewrite Hw, firstn_all.
  change (0 .& IP_OFFMASK) with 0. fold mtu. rewrite (fragments_two mtu bytes) by (assumption || lia). reflexivity.
Qed.
End FragSend.
