(* ===== verification/FragReass.v ===== *)
(** * Fragmentation and reassembly

    The fragments [ip4_frag] sends come out of [ip4_reass] on the other host as
    the packet they were made from. *)

From Stdlib Require Import ZArith List Lia Bool Permutation.
From S2P Require Import Prelude Def Chksum Ip4Addr Mem PbufMem Pbuf PbufCopy Ip4Frag Ip4Reass UdpPcb Ip4Out Packet Ip4Send FragSend.
Import ListNotations.
Open Scope Z_scope.
Open Scope c_scope.

(** ** The fragments as a sequence *)

(** The first byte of a fragment. *)
Definition start_of (fr : Z * list Z) : Z := 8 * (fst fr .& IP_OFFMASK).
Definition more_follow (fr : Z * list Z) : bool := negb (fst fr .& IP_MF =? 0).

(** The fragments follow one another from [ofo] on, all but the last with MF. *)
Fixpoint in_sequence (ofo : Z) (frs : list (Z * list Z)) : Prop :=
  match frs with
  | [] => False
  | [fr] => fst fr = ofo /\ snd fr <> []
  | fr :: r => fst fr = ofo + IP_MF /\ snd fr <> [] /\ exists k, Z.of_nat (length (snd fr)) = 8 * k /\ in_sequence (ofo + k) r
  end.

Lemma offset_bits ofo (b : bool) : 0 <= ofo < 8192 ->
  (ofo + (if b then IP_MF else 0)) .& IP_OFFMASK = ofo /\ negb ((ofo + (if b then IP_MF else 0)) .& IP_MF =? 0) = b.
Proof.
  intros Ho. change IP_OFFMASK with (Z.ones 13). rewrite Z.land_ones by lia. change (2 ^ 13) with 8192. split.
  - destruct b; unfold IP_MF; [|rewrite Z.add_0_r; now apply Z.mod_small]. replace (ofo + 8192) with (ofo + 1 * 8192) by lia.
    rewrite Z.mod_add by lia. now apply Z.mod_small.
  - assert (Hl : ofo .& IP_MF = 0).
    { change IP_MF with (2 ^ 13). apply Z.bits_inj'. intros i Hi. rewrite Z.land_spec, Z.bits_0, Z.pow2_bits_eqb by lia.
      destruct (Z.eqb_spec 13 i) as [<-|]; [|apply andb_false_r]. rewrite andb_true_r. apply Z.bits_above_log2; [lia|].
      destruct (Z.eq_dec ofo 0) as [->|]; [reflexivity|]. apply Z.log2_lt_pow2; lia. }
    destruct b; [|now rewrite Z.add_0_r, Hl]. rewrite Z.add_comm, <- (lor_add ofo IP_MF 13) by (reflexivity || lia).
    rewrite Z.land_lor_distr_l, Hl, Z.land_diag. reflexivity.
Qed.

(** With a multiple of 8 for the data of a fragment. *)
Lemma fragments_in_sequence mtu : 28 <= mtu -> (mtu - IP_HLEN) mod 8 = 0 -> forall j ofo bytes, (length bytes <= j)%nat -> bytes <> [] ->
  in_sequence ofo (fragments j mtu ofo bytes) /\ concat (map snd (fragments j mtu ofo bytes)) = bytes.
Proof.
  intros Hm H8. assert (E8 : mtu - IP_HLEN = 8 * ((mtu - IP_HLEN) / 8)) by (rewrite (Z.div_mod (mtu - IP_HLEN) 8) at 1; lia).
  induction j as [|j IH]; intros ofo bytes Hj Hne; [destruct bytes; [contradiction|cbn in Hj; lia]|].
  destruct bytes as [|b bt] eqn:Eb; [contradiction|]. cbn [fragments]. rewrite <- Eb in *. set (nfb := (mtu - IP_HLEN) / 8) in *.
  assert (Hn : 1 <= nfb) by (unfold IP_HLEN in *; lia).
  destruct (Z.leb_spec (Z.of_nat (length bytes)) (mtu - IP_HLEN)) as [Hle|Hgt].
  - rewrite firstn_all2, skipn_all2 by lia. replace (fragments j mtu (ofo + nfb) []) with (@nil (Z * list Z)) by (now destruct j).
    cbn [in_sequence map concat snd fst app]. rewrite app_nil_r. split; [split; [lia|exact Hne]|reflexivity].
  - destruct (IH (ofo + nfb) (skipn (Z.to_nat (8 * nfb)) bytes)) as [H1 H2].
    + rewrite length_skipn. lia.
    + intros E. apply (f_equal (@length Z)) in E. rewrite length_skipn in E. cbn in E. lia.
    + cbn [map concat snd]. rewrite H2, firstn_skipn. split; [|reflexivity].
      destruct (fragments j mtu (ofo + nfb) (skipn (Z.to_nat (8 * nfb)) bytes)) as [|fr r]; [destruct H1|]. cbn [in_sequence fst snd].
      split; [reflexivity|]. split.
      * intros E. apply (f_equal (@length Z)) in E. rewrite length_firstn in E. cbn in E. lia.
      * exists nfb. split; [rewrite length_firstn; lia|exact H1].
Qed.

(** The flag in network byte order. *)
Lemma mf_bit off : is_u16 off -> (lwip_htons off .& PP_HTONS IP_MF =? 0) = (off .& IP_MF =? 0).
Proof.
  intros Ho. rewrite lwip_htons_eq by assumption. change (PP_HTONS IP_MF) with (2 ^ 5). change IP_MF with (2 ^ 13).
  assert (H : forall x n, 0 <= n -> (x .& 2 ^ n =? 0) = negb (Z.testbit x n)).
  { intros x n Hn. replace (x .& 2 ^ n) with (if Z.testbit x n then 2 ^ n else 0).
    - destruct (Z.testbit x n); [|reflexivity]. apply Z.eqb_neq. pose proof (Z.pow_pos_nonneg 2 n). lia.
    - apply Z.bits_inj'. intros i Hi. rewrite Z.land_spec, Z.pow2_bits_eqb by lia. destruct (Z.eqb_spec n i) as [->|Hne].
      + rewrite andb_true_r. destruct (Z.testbit x i); [now rewrite Z.pow2_bits_true|apply Z.bits_0].
      + rewrite andb_false_r. destruct (Z.testbit x n); [now apply Z.pow2_bits_false|apply Z.bits_0]. }
  rewrite !H by lia. f_equal. unfold is_u16 in Ho.
  rewrite <- (Z.mod_pow2_bits_low (off mod 256 * 256 + off / 256) 8 5) by lia. change (2 ^ 8) with 256.
  rewrite Z.add_comm, Z.mod_add, (Z.mod_small (off / 256)) by word_div. change 256 with (2 ^ 8). rewrite <- Z.shiftr_div_pow2, Z.shiftr_spec by lia. reflexivity.
Qed.

Section Pieces.
Variables tos id ttl proto src dest : Z.
Hypotheses (Htos : is_u8 tos) (Hid : is_u16 id) (Httl : is_u8 ttl) (Hproto : is_u8 proto) (Hsrc : is_u32 src) (Hdest : is_u32 dest).

Definition frag_hdr (fr : Z * list Z) : list Z := ip_header tos (Z.of_nat (length (snd fr)) + 20) id (fst fr) ttl proto src dest.

(** A fragment that was received into the pbufs [l]. *)
Definition piece_of (x : (Z * list Z) * list Z) : piece :=
  let '(fr, l) := x in mkPiece (mkFrag l (start_of fr) (start_of fr + Z.of_nat (length (snd fr)))) (frag_hdr fr) (snd fr).
Definition arrived (f : Z -> pbuf) (d : Z -> Z) (x : (Z * list Z) * list Z) : Prop :=
  intact f (pg (piece_of x)) /\ content f d (snd x) = frag_packet tos id ttl proto src dest (fst x).

Lemma arrived_received f d x : arrived f d x -> received f d (piece_of x).
Proof.
  destruct x as [fr l]. intros [Hi Hc]. cbn [fst snd] in Hc. pose proof (content_body f d _ Hi) as Hb. cbn [piece_of pg f_l] in Hb. rewrite Hc in Hb.
  apply app_inj_length in Hb; [|rewrite load_list_length; reflexivity]. destruct Hb as [H1 H2]. split; symmetry; assumption.
Qed.

Lemma piece_of_ok f d ofo (b : bool) key x : fst (fst x) = ofo + (if b then IP_MF else 0) -> 0 <= ofo < 8192 -> snd (fst x) <> [] ->
  8 * ofo + Z.of_nat (length (snd (fst x))) + 20 < 65536 -> iph_src key = src -> iph_dest key = dest -> IPH_ID key = IPH_ID (ip_hdr tos 0 id 0 ttl proto 0 src dest) ->
  arrived f d x -> piece_ok f key (negb b) (piece_of x).
Proof.
  destruct x as [fr l]. cbn [fst snd]. intros Hfr Ho Hne Hr Ks Kd Ki [Hi _]. destruct (offset_bits ofo b Ho) as [B1 B2]. rewrite <- Hfr in B1, B2.
  assert (Hou : is_u16 (fst fr)) by (rewrite Hfr; unfold IP_MF; destruct b; word_lia).
  assert (Hpos : 0 < Z.of_nat (length (snd fr))) by (destruct (snd fr); [contradiction|cbn [length]; lia]).
  assert (Hlu : is_u16 (Z.of_nat (length (snd fr)) + 20)) by word_lia.
  split; cbn [piece_of ph pg].
  - exact Hi.
  - reflexivity.
  - reflexivity.
  - unfold IP_ADDRESSES_AND_ID_MATCH, frag_hdr, ip_header. rewrite hdr_src, hdr_dest, Ks, Kd, Ki, !Z.eqb_refl by assumption. reflexivity.
  - unfold frag_hdr, ip_header. rewrite hdr_offset, mf_bit by assumption. rewrite <- B2. now rewrite negb_involutive.
  - unfold placed, frag_hdr, ip_header, start_of. cbn [f_start f_end]. rewrite hdr_offset, lwip_htons_involutive, hdr_len, hdr_hl, B1 by assumption.
    rewrite (u16_id (ofo * 8)) by word_lia. split; [lia|]. rewrite (u16_id (_ - 5 * 4)) by word_lia. rewrite u16_id by word_lia. lia.
  - unfold start_of. cbn [f_start f_end]. rewrite B1. lia.
Qed.

Lemma pieces_in_sequence f d key : iph_src key = src -> iph_dest key = dest -> IPH_ID key = IPH_ID (ip_hdr tos 0 id 0 ttl proto 0 src dest) ->
  forall xs ofo, let bytes := concat (map snd (map fst xs)) in in_sequence ofo (map fst xs) -> 0 <= ofo -> 8 * ofo + Z.of_nat (length bytes) + 20 < 65536 ->
  Forall (arrived f d) xs -> exists ks kl, map piece_of xs = ks ++ [kl] /\ Forall (piece_ok f key false) ks /\ piece_ok f key true kl /\
    tiles (8 * ofo) (map pg (map piece_of xs)) /\ kl.(pg).(f_end) = 8 * ofo + Z.of_nat (length bytes).
Proof.
  intros Ks Kd Ki. induction xs as [|x xs IH]; intros ofo bytes Hseq Ho Hr Ha; [destruct Hseq|].
  apply Forall_cons_iff in Ha. destruct Ha as [Hx Ha]. destruct x as [fr l]. cbn [map fst snd] in Hseq. subst bytes. cbn [map fst snd concat] in Hr |- *. rewrite length_app in Hr |- *.
  destruct xs as [|y xs].
  - cbn [map in_sequence] in Hseq. destruct Hseq as [Hf Hne]. cbn [map concat length] in Hr |- *.
    assert (Hst : start_of fr = 8 * ofo) by (unfold start_of; rewrite Hf; f_equal; rewrite <- (Z.add_0_r ofo) at 1; apply (offset_bits ofo false); lia).
    exists [], (piece_of (fr, l)). split; [reflexivity|]. split; [constructor|]. split.
    + apply (piece_of_ok f d ofo false); cbn [fst snd]; try (assumption || lia).
    + cbn [tiles piece_of pg f_start f_end]. assert (0 < Z.of_nat (length (snd fr))) by (destruct (snd fr); [contradiction|cbn [length]; lia]). lia.
  - cbn [map] in Hseq. destruct Hseq as (Hf & Hne & k & Hk & Hseq). change (map fst (y :: xs)) with (fst y :: map fst xs) in *.
    assert (Hpos : 0 < Z.of_nat (length (snd fr))) by (destruct (snd fr); [contradiction|cbn [length]; lia]).
    destruct (IH (ofo + k) Hseq) as (ks & kl & E & H1 & H2 & H3 & H4); [lia|change (map fst (y :: xs)) with (fst y :: map fst xs); lia|assumption|].
    assert (Hst : start_of fr = 8 * ofo) by (unfold start_of; rewrite Hf; f_equal; apply (offset_bits ofo true); lia).
    exists (piece_of (fr, l) :: ks), kl. split; [rewrite <- app_comm_cons, <- E; reflexivity|]. split; [constructor; [|exact H1]|].
    + apply (piece_of_ok f d ofo true); cbn [fst snd]; try (assumption || lia).
    + split; [exact H2|]. rewrite H4. split; [|change (map fst (y :: xs)) with (fst y :: map fst xs); lia]. cbn [map tiles] in H3 |- *. cbn [piece_of pg f_start f_end].
      split; [exact Hst|]. split; [lia|]. replace (start_of fr + Z.of_nat (length (snd fr))) with (8 * (ofo + k)) by lia. exact H3.
Qed.

(** The header of the whole, from that of the first fragment. *)
Lemma whole_header_frag a off len n : is_u16 n -> whole_header a (ip_header tos len id off ttl proto src dest) n = ip_header tos n id 0 ttl proto src dest.
Proof.
  intros Hn. unfold whole_header. rewrite put16_htons by assumption. unfold ip_header. set (c := rfc1071_field (ip_hdr tos len id off ttl proto 0 src dest)).
  set (h := ip_hdr tos len id off ttl proto c src dest). cbv zeta. set (pre := firstn 2 h ++ _).
  change (pre ++ [0; 0] ++ skipn 12 h) with (ip_hdr tos n id 0 ttl proto 0 src dest). rewrite inet_chksum_rfc1071; [reflexivity| |cbn [ip_hdr length app put16 put32]; lia].
  apply ip_hdr_ok; assumption || (unfold is_u16; lia).
Qed.
End Pieces.

(** ** The two hosts together *)

(** Packets in memory as a device stores them: header in the first pbuf, no
    memory shared. *)
Record buffers (f : Z -> pbuf) (ls : list (list Z)) : Prop := {
  bf_intact : Forall (fun l => intact f (mkFrag l 0 (total f l - IP_HLEN))) ls;
  bf_apart : ForallOrdPairs (fun l l' => frag_apart f (mkFrag l 0 0) (mkFrag l' 0 0)) ls;
  bf_nodup : NoDup (concat ls) }.

Section Together.
Variables tos id ttl proto src dest : Z.
Hypotheses (Htos : is_u8 tos) (Hid : is_u16 id) (Httl : is_u8 ttl) (Hproto : is_u8 proto) (Hsrc : is_u32 src) (Hdest : is_u32 dest).
Abbreviation pkt := (frag_packet tos id ttl proto src dest).
Abbreviation pieces xs := (map (piece_of tos id ttl proto src dest) xs).

Lemma buffers_arrived f d frs : forall ls, Forall (fun l => intact f (mkFrag l 0 (total f l - IP_HLEN))) ls -> map (content f d) ls = map pkt frs ->
  map fst (combine frs ls) = frs /\ map snd (combine frs ls) = ls /\ Forall (arrived tos id ttl proto src dest f d) (combine frs ls).
Proof.
  induction frs as [|fr frs IH]; intros [|l ls] Hi E; try discriminate; [now repeat split|]. injection E as E1 E2. apply Forall_cons_iff in Hi. destruct Hi as [Hl Hi].
  destruct (IH ls Hi E2) as (H1 & H2 & H3). cbn [combine map fst snd]. rewrite H1, H2. split; [reflexivity|]. split; [reflexivity|]. constructor; [|exact H3].
  split; [|exact E1]. destruct Hl as [I1 I2 I3 I4 I5 I6 I7 I8 I9]. split; try assumption. cbn [piece_of pg f_l f_start f_end] in *.
  pose proof (content_total f d l I3) as Ht. rewrite E1 in Ht. unfold frag_packet in Ht. rewrite length_app, ip_header_length in Ht. unfold IP_HLEN in *. lia.
Qed.

Lemma pieces_pbufs xs : pbufs (map pg (pieces xs)) = concat (map snd xs).
Proof. unfold pbufs. rewrite !map_map. f_equal. apply map_ext. intros [fr l]. reflexivity. Qed.

Lemma pieces_apart f xs : ForallOrdPairs (fun l l' => frag_apart f (mkFrag l 0 0) (mkFrag l' 0 0)) (map snd xs) -> ForallOrdPairs (frag_apart f) (map pg (pieces xs)).
Proof.
  induction xs as [|[fr l] xs IH]; cbn [map snd]; [constructor|]. intros H. inversion H as [|? ? Ha Hr]; subst. constructor; [|now apply IH].
  rewrite Forall_forall in Ha |- *. intros g Hg. apply in_map_iff in Hg. destruct Hg as (k & <- & Hk). apply in_map_iff in Hk. destruct Hk as ([fr' l'] & <- & Hx).
  exact (Ha l' (in_map snd _ _ Hx)).
Qed.

Lemma pieces_words xs : map pw (pieces xs) = map snd (map fst xs).
Proof. rewrite !map_map. apply map_ext. now intros [fr l]. Qed.

(** The buffers of a sequence of fragments are a datagram for the reassembly. *)
Lemma buffers_datagram f d frs ls key : buffers f ls -> map (content f d) ls = map pkt frs -> in_sequence 0 frs -> (2 <= length frs)%nat ->
  Z.of_nat (length (concat (map snd frs))) + 20 < 65536 -> iph_src key = src -> iph_dest key = dest ->
  IPH_ID key = IPH_ID (ip_hdr tos 0 id 0 ttl proto 0 src dest) ->
  exists ks kl, pieces (combine frs ls) = ks ++ [kl] /\ datagram f d key ks kl /\ kl.(pg).(f_end) = Z.of_nat (length (concat (map snd frs))).
Proof.
  intros [Hi Ha Hn] E Hseq H2 Hsz Ks Kd Ki. destruct (buffers_arrived f d frs ls Hi E) as (E1 & E2 & Harr).
  destruct (pieces_in_sequence tos id ttl proto src dest Hsrc Hdest f d key Ks Kd Ki (combine frs ls) 0) as (ks & kl & Ep & O1 & O2 & Ht & Hend);
    rewrite ?E1; try (assumption || lia). rewrite E1 in Hend. exists ks, kl. split; [exact Ep|]. split; [|lia].
  assert (Hlen : length (ks ++ [kl]) = length frs) by (rewrite <- Ep, length_map, <- (length_map fst), E1; reflexivity).
  split; rewrite <- ?Ep; try assumption.
  - intros ->. cbn in Hlen. lia.
  - apply pieces_apart. now rewrite E2.
  - now rewrite pieces_pbufs, E2.
  - apply Forall_map. eapply Forall_impl; [|exact Harr]. intros x Hx. now apply arrived_received.
  - unfold IP_HLEN. rewrite Hend. lia.
Qed.
End Together.

Section Roundtrip.
Context {PMem : PbufMemory} {W : World} {Sur : Surroundings}.
Variable NOASSERT : bool.
Variable IPFRAG_FREE : Z.
Variable other_free : Z -> Z -> PB unit.
Variable tcpip_callback_ok : pst -> bool.
Hypothesis free_fits : is_u32 IPFRAG_FREE.
Variable netif_output : Z -> Z -> Z -> NM err_t.
Variable sent : Drv -> list (Z * Z * list Z).
(** The driver sends the packet. *)
Hypothesis link_sends : forall n p l dest s, chain s.(pk).(structs) p (p :: l) -> (length l < loop_fuel)%nat ->
  (s.(pk).(structs) p).(type) = PBUF_RAM \/ (s.(pk).(structs) p).(type) = PBUF_POOL ->
  exists s' w, netif_output n p dest s = Ok (ERR_OK, s') /\ touches s.(pk) p s'.(pk) /\ s'.(nt) = s.(nt) <| drv := w |> /\
    sent w = sent s.(nt).(drv) ++ [(n, dest, content s.(pk).(structs) s.(pk).(data) (p :: l))].
(** Of the receiving host. *)
Variable custom_free_function : Z -> PB unit.
Variable icmp_time_exceeded : Z -> M (pst * Env) unit.

(** The packets [pkts] give [whole] when they come in, the last one last. *)
Definition reassembles (key : list Z) (pkts : list (list Z)) (whole : list Z) : Prop :=
  forall (s : rst) ls0 ll arr, let ls := ls0 ++ [ll] in let f := s.(Ip4Frag.pm).(structs) in
    buffers f ls -> map (content f s.(Ip4Frag.pm).(data)) ls = pkts -> Permutation arr ls0 ->
    Forall (fun e => IP_ADDRESSES_AND_ID_MATCH e.(iphdr) key = false) s.(reassdatagrams) -> (0 < s.(reass_avail))%nat ->
    0 <= s.(ip_reass_pbufcount) -> s.(ip_reass_pbufcount) + Z.of_nat (length (concat ls)) <= IP_REASS_MAX_PBUFS ->
    exists s', reass_all NOASSERT custom_free_function icmp_time_exceeded (map (hd 0) (arr ++ [ll])) s = Ok (repeat 0 (length arr) ++ [hd 0 (hd [] ls0)], s') /\
      chain s'.(Ip4Frag.pm).(structs) (hd 0 (hd [] ls0)) (concat ls) /\ lengths s'.(Ip4Frag.pm).(structs) 0 (concat ls) /\
      content s'.(Ip4Frag.pm).(structs) s'.(Ip4Frag.pm).(data) (concat ls) = whole /\
      s'.(reassdatagrams) = s.(reassdatagrams) /\ s'.(ip_reass_pbufcount) = s.(ip_reass_pbufcount) /\ s'.(Ip4Frag.pm).(mm) = s.(Ip4Frag.pm).(mm).

Lemma sequence_reassembles tos id ttl proto src dest frs : is_u8 tos -> is_u16 id -> is_u8 ttl -> is_u8 proto -> is_u32 src -> is_u32 dest ->
  let n := Z.of_nat (length (concat (map snd frs))) in
  in_sequence 0 frs -> (2 <= length frs)%nat -> n + 20 < 65536 ->
  reassembles (ip_header tos (n + 20) id 0 ttl proto src dest) (map (frag_packet tos id ttl proto src dest) frs)
    (ip_header tos (n + 20) id 0 ttl proto src dest ++ concat (map snd frs)).
Proof.
  intros Htos Hid Httl Hproto Hsrc Hdest n Hseq H2 Hn s ls0 ll arr ls f Hbuf E HP Hno Hav Hn0 Hroom. set (key := ip_header _ _ _ _ _ _ _ _) in *.
  destruct (buffers_datagram tos id ttl proto src dest Hsrc Hdest f _ frs ls key Hbuf E Hseq H2 Hn) as (ks & kl & Ep & Hdg & Hend);
    [apply hdr_src; assumption|apply hdr_dest; assumption|reflexivity|].
  destruct (buffers_arrived tos id ttl proto src dest f _ frs ls (bf_intact _ _ Hbuf) E) as (E1 & E2 & _).
  assert (Epb : map (fun k => f_l (pg k)) (ks ++ [kl]) = ls).
  { rewrite <- Ep, map_map. transitivity (map snd (combine frs ls)); [|exact E2]. apply map_ext. now intros [fr l]. }
  unfold ls in Epb. rewrite map_app in Epb. apply app_inj_tail in Epb. destruct Epb as [Eks Ekl].
  rewrite <- Eks in HP. destruct (Permutation_map_inv _ _ HP) as (arr' & -> & HP').
  assert (Epw : concat (map pw (ks ++ [kl])) = concat (map snd frs)) by (rewrite <- Ep, pieces_words, E1; reflexivity).
  assert (Hpb : pbufs (map pg (ks ++ [kl])) = concat ls) by (rewrite <- Ep, pieces_pbufs, E2; reflexivity).
  destruct frs as [|fr frs]; [cbn in H2; lia|]. destruct ks as [|k1 ks]; [now destruct (dg_two _ _ _ _ _ Hdg)|].
  assert (Ek1 : ph k1 = frag_hdr tos id ttl proto src dest fr).
  { destruct ls as [|l1 lr]; [discriminate|]. cbn [combine map app] in Ep. injection Ep as <- _. reflexivity. }
  assert (Hu : is_u16 (n + 20)) by word_lia. assert (Hfu : is_u16 (Z.of_nat (length (snd fr)) + 20)).
  { unfold n in Hn. cbn [map concat] in Hn. rewrite length_app in Hn. word_lia. }
  destruct (reass_datagram NOASSERT custom_free_function icmp_time_exceeded s key (k1 :: ks) kl arr' k1 Hdg eq_refl) as (s' & E' & Hc & Hl & Hcon & _ & R1 & R2 & R3 & R4).
  - rewrite Ek1. unfold frag_hdr, ip_header. apply ip_hdr_ok; try assumption. pose proof (dg_more _ _ _ _ _ Hdg) as Hm. apply Forall_inv in Hm.
    destruct frs as [|fr2 frs]; [cbn in H2; lia|]. destruct Hseq as (-> & _). unfold IP_MF. word_lia.
  - now symmetry.
  - exact Hno.
  - exact Hav.
  - exact Hn0.
  - rewrite Hpb. exact Hroom.
  - exists s'. assert (Ha1 : addr k1 = hd 0 (hd [] ls0)) by (rewrite <- Eks; reflexivity).
    rewrite Hpb, Epw, Ek1, Hend, Ha1 in *. rewrite length_map. split.
    + rewrite <- E', <- Ekl. f_equal. rewrite !map_app, map_map. reflexivity.
    + split; [exact Hc|]. split; [exact Hl|]. split; [|auto]. rewrite Hcon. f_equal. apply whole_header_frag; assumption.
Qed.

Lemma two_fragments mtu bytes : 28 <= mtu -> (mtu - IP_HLEN) mod 8 = 0 -> mtu - IP_HLEN < Z.of_nat (length bytes) ->
  (2 <= length (fragments (length bytes) mtu 0 bytes))%nat.
Proof.
  intros Hm H8 Hl. assert (E8 : mtu - IP_HLEN = 8 * ((mtu - IP_HLEN) / 8)) by (rewrite (Z.div_mod (mtu - IP_HLEN) 8) at 1; lia).
  unfold IP_HLEN in *. destruct (length bytes) as [|[|j]] eqn:E; [lia|lia|]. rewrite fragments_cons by (intros ->; discriminate).
  rewrite fragments_cons; [cbn [length]; lia|]. intros En. apply (f_equal (@length Z)) in En. rewrite length_skipn in En. cbn [length] in En. unfold IP_HLEN in En. lia.
Qed.

(** C12: what one host sends as fragments, the other puts together: for an MTU
    whose room for data is a multiple of 8, the packets [ip4_frag] puts on the
    link when it returns ERR_OK come out of [ip4_reass] as the packet that was
    to be sent, byte for byte, if the last fragment comes last, whatever the
    order of the others. *)
Theorem ip4_frag_reass_roundtrip (s : nst) bs p l n next_hop tos id ttl proto src dest bytes :
  let mtu := (s.(nt).(netif_tab) n).(if_mtu) in let hdr := ip_header tos (Z.of_nat (length bytes) + 20) id 0 ttl proto src dest in
  fragmentable s.(pk) bs p l hdr bytes -> 24 <= pool_size MEMP_FRAG_PBUF ->
  28 <= mtu -> (mtu - IP_HLEN) mod 8 = 0 -> mtu < Z.of_nat (length bytes) + 20 < 65536 -> is_u8 tos -> is_u16 id -> is_u8 ttl -> is_u8 proto ->
  is_u32 src -> is_u32 dest -> is_u16 s.(nt).(ip_frag_xmit) ->
  exists r s' pkts, ip4_frag NOASSERT IPFRAG_FREE other_free tcpip_callback_ok netif_output p n next_hop s = Ok (r, s') /\
    sent s'.(nt).(drv) = sent s.(nt).(drv) ++ map (fun b => (n, next_hop, b)) pkts /\
    (r = ERR_OK /\ reassembles hdr pkts (hdr ++ bytes) \/ r = ERR_MEM).
Proof.
  intros mtu hdr Hf H24 Hm H8 Hl Htos Hid Httl Hpr Hsrc Hdest Hx.
  destruct (ip4_frag_spec NOASSERT IPFRAG_FREE other_free tcpip_callback_ok free_fits netif_output sent link_sends s bs p l n next_hop
    tos (Z.of_nat (length bytes) + 20) id 0 ttl proto (rfc1071_field (ip_hdr tos (Z.of_nat (length bytes) + 20) id 0 ttl proto 0 src dest)) src dest bytes)
    as (r & s' & E & k & w & Hk & _ & Hn & Hw); try (assumption || reflexivity || lia).
  { word_lia. }
  { change (8 * (0 .& IP_OFFMASK)) with 0. lia. }
  change (0 .& IP_OFFMASK) with 0 in *. fold mtu in Hk, Hw. set (frs := fragments (length bytes) mtu 0 bytes) in *.
  exists r, s', (map (frag_packet tos id ttl proto src dest) (firstn k frs)). split; [exact E|]. rewrite Hn, map_map. cbn [drv with_field]. split; [exact Hw|].
  destruct Hk as [[-> ->]|[-> _]]; [left; split; [reflexivity|]|now right]. rewrite firstn_all.
  destruct (fragments_in_sequence mtu Hm H8 (length bytes) 0 bytes) as [Hs Hc]; [lia|intros ->; cbn [length] in Hl; lia|]. fold frs in Hs, Hc.
  pose proof (sequence_reassembles tos id ttl proto src dest frs Htos Hid Httl Hpr Hsrc Hdest Hs) as Hr. rewrite Hc in Hr. apply Hr; [|lia].
  apply two_fragments; [exact Hm|exact H8|unfold IP_HLEN; lia].
Qed.
End Roundtrip.
