(* ===== verification/FragBoard.v ===== *)
(** * Fragments between two hosts

    A host that has to send 44 bytes over a link with an MTU of 28, and one that
    received the fragments: the hypotheses of the theorems on fragmentation hold
    there. *)

From Stdlib Require Import ZArith List Lia Bool Permutation.
From S2P Require Import Prelude Def Chksum Ip4Addr Mem PbufMem Pbuf PbufBoard PbufCopy Etharp EtharpProto EtharpBoard.
From S2P Require Import Ip4Frag Ip4Reass UdpPcb Ip4Out Packet Ip4Send Icmp Udp UdpProto Ip4In Ip4Recv IcmpProto NetBoard FragSend FragReass.
Import ListNotations.
Open Scope Z_scope.
Open Scope c_scope.

(** A host with one interface of the given MTU, and a packet to send. *)
Definition narrow (mtu : Z) : @net log_world :=
  (host ip_one 4711) <| netif_tab := fun _ => mkNetif (mk_netif4 0x07 ip_one 0x00ffffff) 0xfe00000a mtu |>.
Definition some_bytes (n : nat) : list Z := map Z.of_nat (seq 0 n).
Definition long_header (n : nat) : list Z := ip_header 0 (Z.of_nat n + 20) 7 0 64 17 ip_one ip_two.
Definition frag_sender (mtu : Z) (n : nat) : @nst mem0 log_world :=
  @mkNst mem0 log_world (holding 20006 20036 (long_header n ++ some_bytes n) mm1) (narrow mtu).

Lemma holding_fragmentable n : (n < 40)%nat ->
  fragmentable (frag_sender 28 n).(pk) [blk1] 20006 [] (long_header n) (some_bytes n).
Proof.
  intros Hn. assert (Hl : Z.of_nat (length (long_header n ++ some_bytes n)) = 20 + Z.of_nat n)
    by (rewrite length_app; change (length (long_header n)) with 20%nat; unfold some_bytes; rewrite length_map, length_seq; lia).
  destruct (holding_packet 20006 20036 (long_header n ++ some_bytes n) mm1) as [Pc Pf Pl Ps Pt Pp Pb]; [lia|lia|lia|].
  split; try assumption.
  - exact mm1_owns.
  - constructor; [|constructor]. split; cbn [pk frag_sender holding structs len ref payload]; try (cbn [length]; lia); try word_lia.
    + now left.
    + exists blk1. split; [now left|]. cbn [b_addr b_size payload len structs holding]. lia.
  - constructor; [|constructor]. cbn [pk frag_sender holding structs len]. lia.
Qed.

Lemma ip4_frag_sends_witness : exists r s' k,
  ip4_frag false 0 no_free (fun _ => true) log_output 20006 1 ip_two (frag_sender 28 24) = Ok (r, s') /\
  l_sent s'.(nt).(drv) = map (fun fr => (1, ip_two, frag_packet 0 7 64 17 ip_one ip_two fr)) (firstn k (rfc791_fragments 24 1 0 (some_bytes 24))).
Proof.
  destruct (@ip4_frag_sends mem0 log_world false 0 no_free (fun _ => true) ltac:(word_lia) log_output l_sent log_output_sends (frag_sender 28 24) [blk1] 20006 [] 1 ip_two
    0 44 7 0 64 17 (rfc1071_field (ip_hdr 0 44 7 0 64 17 0 ip_one ip_two)) ip_one ip_two (some_bytes 24)) as (r & s' & k & E & _ & Hs & _).
  - apply (holding_fragmentable 24). lia.
  - vm_compute. discriminate.
  - cbn. lia.
  - word_lia.
  - word_lia.
  - word_lia.
  - word_lia.
  - word_lia.
  - reflexivity.
  - vm_compute. discriminate.
  - cbn. word_lia.
  - right. left. reflexivity.
  - exists r, s', k. split; [exact E|exact Hs].
Defined.

(** What is on the link after the call. *)
Definition frames (mtu : Z) (n : nat) : option (err_t * list (Z * Z * list Z)) :=
  match ip4_frag false 0 no_free (fun _ => true) log_output 20006 1 ip_two (frag_sender mtu n) with
  | Ok (r, s') => Some (r, l_sent s'.(nt).(drv))
  | _ => None
  end.

Lemma frames_of mtu n r s' : ip4_frag false 0 no_free (fun _ => true) log_output 20006 1 ip_two (frag_sender mtu n) = Ok (r, s') ->
  frames mtu n = Some (r, l_sent s'.(nt).(drv)).
Proof. intros E. unfold frames. now rewrite E. Qed.

Lemma ip4_frag_two_last_witness :
  frames 30 10 = Some (ERR_OK, [(1, ip_two, frag_packet 0 7 64 17 ip_one ip_two (0, some_bytes 8)); (1, ip_two, frag_packet 0 7 64 17 ip_one ip_two (1, [8; 9]))]).
Proof.
  assert (Hok : match frames 30 10 with Some (r, _) => r | None => ERR_ARG end = ERR_OK) by (vm_compute; reflexivity).
  destruct (@ip4_frag_two_last mem0 log_world false 0 no_free (fun _ => true) ltac:(word_lia) log_output l_sent log_output_sends (frag_sender 30 10) [blk1] 20006 [] 1 ip_two
    0 30 7 64 17 (rfc1071_field (ip_hdr 0 30 7 0 64 17 0 ip_one ip_two)) ip_one ip_two (some_bytes 10)) as (r & s' & E & H).
  - apply (holding_fragmentable 10). lia.
  - vm_compute. discriminate.
  - cbn. lia.
  - word_lia.
  - word_lia.
  - word_lia.
  - word_lia.
  - cbn. word_lia.
  - vm_compute. split; [reflexivity|discriminate].
  - rewrite (frames_of _ _ _ _ E) in *. subst r. destruct H as [H|[_ H]]; [discriminate H|]. rewrite H. reflexivity.
Defined.

(** ** The receiver *)

(** The [i]th fragment in a pbuf at 100 * i, behind its struct. *)
Definition three_frames : list (list Z) := map (frag_packet 0 7 64 17 ip_one ip_two) (fragments 24 28 0 (some_bytes 24)).
Definition stored_frames (x : Z) : Z := nth (Z.to_nat (x mod 100 - 16)) (nth (Z.to_nat (x / 100 - 1)) three_frames []) 0.
Definition frag_receiver : @rst mem0 nothing_else :=
  @mkRst mem0 nothing_else (@mkPst mem0 structs1 stored_frames board0 false 0) [] 0 5 (mkStats 0 0 0 0 0) tt.

Lemma receiver_buffers : buffers structs1 ([[100]; [200]] ++ [[300]]).
Proof.
  split.
  - assert (H : forall i, 1 <= i <= 3 -> intact structs1 (mkFrag [100 * i] 0 (total structs1 [100 * i] - IP_HLEN))).
    { intros i Hi. assert (Hp : f_p (mkFrag [100 * i] 0 (total structs1 [100 * i] - IP_HLEN)) = 100 * i) by reflexivity.
      constructor; unfold addr_ok, ha; rewrite ?Hp; change SIZEOF_STRUCT_PBUF with 16; unfold IP_HLEN, is_u32;
        cbn [f_l f_start f_end structs1 payload next len tot_len lengths chain total]; try lia; try discriminate.
      - constructor; [intros []|constructor].
      - repeat constructor. }
    constructor; [apply (H 1); lia|]. constructor; [apply (H 2); lia|]. constructor; [apply (H 3); lia|constructor].
  - assert (H : forall i j, 0 < i < j -> frag_apart structs1 (mkFrag [100 * i] 0 0) (mkFrag [100 * j] 0 0)).
    { intros i j Hij a b x [<-|[]] [<-|[]]. unfold in_payload. cbn [structs1 payload len]. lia. }
    constructor; [constructor; [apply (H 1 2); lia|constructor; [apply (H 1 3); lia|constructor]]|].
    constructor; [constructor; [apply (H 2 3); lia|constructor]|]. constructor; [constructor|constructor].
  - cbn. repeat constructor; cbn; lia.
Qed.

Lemma sender_frames : frames 28 24 = Some (ERR_OK, map (fun b => (1, ip_two, b)) three_frames).
Proof. vm_compute. reflexivity. Qed.

Lemma frames_stored : map (content structs1 stored_frames) ([[100]; [200]] ++ [[300]]) = three_frames.
Proof. vm_compute. reflexivity. Qed.

Lemma sender_log r s' pkts : ip4_frag false 0 no_free (fun _ => true) log_output 20006 1 ip_two (frag_sender 28 24) = Ok (r, s') ->
  l_sent s'.(nt).(drv) = map (fun b => (1, ip_two, b)) pkts -> r = ERR_OK /\ pkts = three_frames.
Proof.
  intros E Hs. pose proof sender_frames as Hf. rewrite (frames_of _ _ _ _ E), Hs in Hf. injection Hf as -> Hl. split; [reflexivity|].
  apply (f_equal (map snd)) in Hl. now rewrite !map_map, !map_id in Hl.
Qed.

Lemma ip4_frag_reass_roundtrip_witness : frames 28 24 = Some (ERR_OK, map (fun b => (1, ip_two, b)) three_frames) /\
  exists s', reass_all false Ip4Reass.no_free no_message [200; 100; 300] frag_receiver = Ok ([0; 0; 100], s') /\
    content s'.(Ip4Frag.pm).(structs) s'.(Ip4Frag.pm).(data) [100; 200; 300] = long_header 24 ++ some_bytes 24.
Proof.
  split; [exact sender_frames|].
  destruct (@ip4_frag_reass_roundtrip mem0 log_world nothing_else false 0 no_free (fun _ => true) ltac:(word_lia) log_output l_sent log_output_sends Ip4Reass.no_free no_message
    (frag_sender 28 24) [blk1] 20006 [] 1 ip_two 0 7 64 17 ip_one ip_two (some_bytes 24)) as (r & s' & pkts & E & Hs & H).
  - apply (holding_fragmentable 24). lia.
  - vm_compute. discriminate.
  - cbn. lia.
  - reflexivity.
  - split; vm_compute; (reflexivity || discriminate).
  - word_lia.
  - word_lia.
  - word_lia.
  - word_lia.
  - split; vm_compute; (reflexivity || discriminate).
  - split; vm_compute; (reflexivity || discriminate).
  - cbn. word_lia.
  - destruct (sender_log r s' pkts E Hs) as [-> ->]. destruct H as [[_ H]|H]; [|discriminate H].
    destruct (H frag_receiver [[100]; [200]] [300] [[200]; [100]]) as (s2 & E2 & _ & _ & Hc & _).
    + exact receiver_buffers.
    + exact frames_stored.
    + apply perm_swap.
    + constructor.
    + cbn. lia.
    + cbn. lia.
    + cbn. unfold IP_REASS_MAX_PBUFS. lia.
    + exists s2. split; [exact E2|exact Hc].
Defined.
