(* ===== verification/TcpIn.v ===== *)
(** * Receiving TCP segments (lwip/src/core/tcp_in.c, [tcp_receive])

    [tcp_receive] with everything it calls: processing of acknowledgements,
    window, congestion and round-trip time, in-sequence data, the queue of
    out-of-sequence segments ([tcp_oos_insert_segment]), and from tcp.c and
    tcp_out.c [tcp_update_rcv_ann_wnd], [tcp_seg_copy], [tcp_seg_free],
    [tcp_rexmit], [tcp_rexmit_fast] and [tcp_send_empty_ack].

    A pbuf chain is the list of its payloads; the functions of pbuf.c used here are
    functions on such lists.  A queue of segments is a list; a segment carries
    the fields of its TCP header that are used, in host byte order.  The pool
    of segments is the number of its free elements.  Whether an empty ACK can be
    allocated and sent is an argument.  The configuration is that of opt.h: no
    window scaling, no time stamps, no limits on the queue. *)

From Stdlib Require Import ZArith List Lia Bool.
From S2P Require Import Prelude Pbuf.
Import ListNotations.
Open Scope Z_scope.
Open Scope c_scope.

(** ** Constants *)
Definition TCP_FIN := 0x01.
Definition TCP_SYN := 0x02.
Definition TCP_RST := 0x04.
Definition TCP_ACK := 0x10.
Definition TF_ACK_DELAY := 0x01.
Definition TF_ACK_NOW := 0x02.
Definition TF_INFR := 0x04.
Definition TF_RXCLOSED := 0x10.
Definition TF_FIN := 0x20.
Definition TF_NODELAY := 0x40.
Definition TF_NAGLEMEMERR := 0x80.
(** [recv_flags] *)
Definition TF_RESET := 0x08.
Definition TF_CLOSED := 0x10.
Definition TF_GOT_FIN := 0x20.
Definition TCP_MSS := 536.
Definition TCP_WND := 4 * TCP_MSS.
Definition TCP_WND_UPDATE_THRESHOLD := Z.min (TCP_WND / 4) (TCP_MSS * 4).

Inductive tcp_state :=
| CLOSED | LISTEN | SYN_SENT | SYN_RCVD | ESTABLISHED | FIN_WAIT_1 | FIN_WAIT_2 | CLOSE_WAIT | CLOSING | LAST_ACK | TIME_WAIT.
Definition state_num (s : tcp_state) : Z :=
  match s with
  | CLOSED => 0 | LISTEN => 1 | SYN_SENT => 2 | SYN_RCVD => 3 | ESTABLISHED => 4 | FIN_WAIT_1 => 5 | FIN_WAIT_2 => 6
  | CLOSE_WAIT => 7 | CLOSING => 8 | LAST_ACK => 9 | TIME_WAIT => 10
  end.

(** ** Sequence numbers *)
Definition TCP_SEQ_LT (a b : Z) : bool := s32 (a - b) <? 0.
Definition TCP_SEQ_LEQ (a b : Z) : bool := s32 (a - b) <=? 0.
Definition TCP_SEQ_GT (a b : Z) : bool := s32 (a - b) >? 0.
Definition TCP_SEQ_GEQ (a b : Z) : bool := s32 (a - b) >=? 0.
Definition TCP_SEQ_BETWEEN (a b c : Z) : bool := TCP_SEQ_GEQ a b && TCP_SEQ_LEQ a c.

Definition s16 (x : Z) : Z := let y := u16 x in if y <? 32768 then y else y - 65536.
Definition on (x mask : Z) : bool := negb (x .& mask =? 0).
(** [x & ~mask] *)
Definition off_bits (x mask : Z) : Z := Z.ldiff x mask.

(** ** Chains of pbufs *)

Definition chain := list (list Z).
Definition tot_len (p : chain) : Z := Z.of_nat (length (concat p)).
Definition len_of (b : list Z) : Z := Z.of_nat (length b).
Definition pbuf_clen (p : chain) : Z := Z.of_nat (length p).

(** pbuf.c, [pbuf_realloc]: keeps the first [new_len] bytes. *)
Fixpoint cut (rem_len : Z) (p : chain) : chain :=
  match p with
  | [] => []
  | b :: t => if rem_len >? len_of b then b :: cut (rem_len - len_of b) t else [firstn (Z.to_nat rem_len) b]
  end.
Definition pbuf_realloc (p : chain) (new_len : Z) : chain := if new_len >=? tot_len p then p else cut new_len p.

(** pbuf.c, [pbuf_header(p, -off)]: [None] when the first pbuf is too short. *)
Definition pbuf_header (p : chain) (off : Z) : option chain :=
  match p with
  | [] => None
  | b :: t => if off >? len_of b then None else Some (skipn (Z.to_nat off) b :: t)
  end.

(** ** Data *)

(** [struct tcp_seg]; [hseq] and [hflags] are fields of [tcphdr]. *)
Record tcp_seg := mkSeg { sp : chain; slen : Z; hseq : Z; hflags : Z }.
#[export] Instance tcp_seg_eta : Eta tcp_seg := { eta := fun r => mkSeg r.(sp) r.(slen) r.(hseq) r.(hflags) }.

Definition TCP_TCPLEN (seg : tcp_seg) : Z := seg.(slen) + (if on seg.(hflags) (TCP_FIN .| TCP_SYN) then 1 else 0).

(** The fields of [struct tcp_pcb] other than addresses, ports and callbacks. *)
Record tcp_pcb := mkPcb {
  state : tcp_state; flags : Z; polltmr : Z;
  rcv_nxt : Z; rcv_wnd : Z; rcv_ann_wnd : Z; rcv_ann_right_edge : Z;
  rtime : Z; mss : Z; rttest : Z; rtseq : Z; sa : Z; sv : Z; rto : Z; nrtx : Z;
  dupacks : Z; lastack : Z; cwnd : Z; ssthresh : Z;
  snd_nxt : Z; snd_wl1 : Z; snd_wl2 : Z; snd_wnd : Z; snd_wnd_max : Z; snd_buf : Z; snd_queuelen : Z; unsent_oversize : Z;
  unsent : list tcp_seg; unacked : list tcp_seg; ooseq : list tcp_seg; persist_cnt : Z; persist_backoff : Z;
  tmr : Z; keep_cnt_sent : Z; snd_lbb : Z; pollinterval : Z; so_options : Z; keep_idle : Z }.
#[export] Instance tcp_pcb_eta : Eta tcp_pcb := { eta := fun r => mkPcb
  r.(state) r.(flags) r.(polltmr) r.(rcv_nxt) r.(rcv_wnd) r.(rcv_ann_wnd) r.(rcv_ann_right_edge)
  r.(rtime) r.(mss) r.(rttest) r.(rtseq) r.(sa) r.(sv) r.(rto) r.(nrtx) r.(dupacks) r.(lastack) r.(cwnd) r.(ssthresh)
  r.(snd_nxt) r.(snd_wl1) r.(snd_wl2) r.(snd_wnd) r.(snd_wnd_max) r.(snd_buf) r.(snd_queuelen) r.(unsent_oversize)
  r.(unsent) r.(unacked) r.(ooseq) r.(persist_cnt) r.(persist_backoff) r.(tmr) r.(keep_cnt_sent)
  r.(snd_lbb) r.(pollinterval) r.(so_options) r.(keep_idle) }.

(** The statics of tcp_in.c, the control block, [tcp_ticks], the free elements
    of the pool MEMP_TCP_SEG, the empty ACKs sent (number, window) and the
    segments sent (with number and window); [input_pcb] tells whether
    [tcp_input_pcb] is the control block, [inseg_p] whether [inseg.p] is still ours. *)
Record tcp_st := mkTcp {
  inseg : tcp_seg; inseg_p : bool; seqno : Z; ackno : Z; tcplen : Z; hdr_flags : Z; hdr_wnd : Z;
  recv_acked : Z; recv_flags : Z; recv_data : option chain;
  pcb : tcp_pcb; tcp_ticks : Z; seg_free : Z; acks : list (Z * Z);
  xmit : list (tcp_seg * Z * Z); input_pcb : bool }.
#[export] Instance tcp_st_eta : Eta tcp_st := { eta := fun r => mkTcp
  r.(inseg) r.(inseg_p) r.(seqno) r.(ackno) r.(tcplen) r.(hdr_flags) r.(hdr_wnd) r.(recv_acked) r.(recv_flags) r.(recv_data)
  r.(pcb) r.(tcp_ticks) r.(seg_free) r.(acks) r.(xmit) r.(input_pcb) }.

Definition TM := M tcp_st.
Definition pget {A} (f : tcp_pcb -> A) : TM A := gets (fun s => f s.(pcb)).
Definition pset (f : tcp_pcb -> tcp_pcb) : TM unit := modify (fun s => s <| pcb := f s.(pcb) |>).
Definition set_inseg (f : tcp_seg -> tcp_seg) : TM unit := modify (fun s => s <| inseg := f s.(inseg) |>).

Section TcpIn.
(** Without assertions the build defines LWIP_NOASSERT. *)
Context (NOASSERT : bool).
(** The outcome of an empty ACK: [None] if there is no pbuf for it, else the
    result of sending it. *)
Context (ack_out : tcp_pcb -> option err_t).

Definition LWIP_ASSERT (c : bool) : TM unit := if NOASSERT then ret tt else Xil_Assert c.

(** ** tcp_priv.h, tcp.c, tcp_out.c *)

Definition tcp_ack : TM unit :=
  pset (fun c => if on c.(flags) TF_ACK_DELAY then c <| flags := off_bits c.(flags) TF_ACK_DELAY .| TF_ACK_NOW |>
    else c <| flags := c.(flags) .| TF_ACK_DELAY |>).
Definition tcp_ack_now : TM unit := pset (fun c => c <| flags := c.(flags) .| TF_ACK_NOW |>).

Definition tcp_seg_free : TM unit := modify (fun s => s <| seg_free := s.(seg_free) + 1 |>).
Fixpoint tcp_segs_free (l : list tcp_seg) : TM unit :=
  match l with [] => ret tt | _ :: t => tcp_seg_free ;; tcp_segs_free t end.
(** [memp_malloc] fails when the pool is empty. *)
Definition tcp_seg_copy (seg : tcp_seg) : TM (option tcp_seg) :=
  do n <- gets seg_free;
  if n =? 0 then ret None
  else modify (fun s => s <| seg_free := s.(seg_free) - 1 |>) ;; ret (Some seg).

Definition tcp_update_rcv_ann_wnd : TM Z :=
  do c <- pget (fun c => c);
  let new_right_edge := u32 (c.(rcv_nxt) + c.(rcv_wnd)) in
  if TCP_SEQ_GEQ new_right_edge (c.(rcv_ann_right_edge) + Z.min (TCP_WND / 2) c.(mss)) then
    pset (fun c => c <| rcv_ann_wnd := c.(rcv_wnd) |>) ;;
    ret (u32 (new_right_edge - c.(rcv_ann_right_edge)))
  else
    (if TCP_SEQ_GT c.(rcv_nxt) c.(rcv_ann_right_edge) then pset (fun c => c <| rcv_ann_wnd := 0 |>)
     else
       let new_rcv_ann_wnd := u32 (c.(rcv_ann_right_edge) - c.(rcv_nxt)) in
       LWIP_ASSERT (new_rcv_ann_wnd <=? 0xffff) ;;
       pset (fun c => c <| rcv_ann_wnd := u16 new_rcv_ann_wnd |>)) ;;
    ret 0.

(** The right edge is announced by every header that is built
    ([tcp_output_alloc_header]). *)
Definition tcp_send_empty_ack : TM unit :=
  do c <- pget (fun c => c);
  match ack_out c with
  | None => pset (fun c => c <| flags := c.(flags) .| (TF_ACK_DELAY .| TF_ACK_NOW) |>)
  | Some err =>
      pset (fun c => c <| rcv_ann_right_edge := u32 (c.(rcv_nxt) + c.(rcv_ann_wnd)) |>) ;;
      match err with
      | ERR_OK =>
          modify (fun s => s <| acks := s.(acks) ++ [(s.(pcb).(rcv_nxt), s.(pcb).(rcv_ann_wnd))] |>) ;;
          pset (fun c => c <| flags := off_bits c.(flags) (TF_ACK_DELAY .| TF_ACK_NOW) |>)
      | _ => pset (fun c => c <| flags := c.(flags) .| (TF_ACK_DELAY .| TF_ACK_NOW) |>)
      end
  end.

(** The place of a segment in the queue of unsent ones. *)
Fixpoint insert_unsent (seg : tcp_seg) (l : list tcp_seg) : list tcp_seg :=
  match l with
  | [] => [seg]
  | x :: t => if TCP_SEQ_LT x.(hseq) seg.(hseq) then x :: insert_unsent seg t else seg :: l
  end.
Fixpoint goes_last (seg : tcp_seg) (l : list tcp_seg) : bool :=
  match l with [] => true | x :: t => TCP_SEQ_LT x.(hseq) seg.(hseq) && goes_last seg t end.

Definition tcp_rexmit : TM unit := pset (fun c =>
  match c.(unacked) with
  | [] => c
  | seg :: rest =>
      let c := c <| unacked := rest |> in
      let c := (if goes_last seg c.(unsent) then c <| unsent_oversize := 0 |> else c) <| unsent := insert_unsent seg c.(unsent) |> in
      c <| nrtx := u8 (c.(nrtx) + 1) |> <| rttest := 0 |>
  end).

Definition tcp_rexmit_fast : TM unit :=
  do c <- pget (fun c => c);
  match c.(unacked) with
  | [] => ret tt
  | _ =>
    when negb (on c.(flags) TF_INFR) then
      (tcp_rexmit ;;
       pset (fun c => c <| ssthresh := if c.(cwnd) >? c.(snd_wnd) then c.(snd_wnd) / 2 else c.(cwnd) / 2 |>) ;;
       pset (fun c => if c.(ssthresh) <? 2 * c.(mss) then c <| ssthresh := u16 (2 * c.(mss)) |> else c) ;;
       pset (fun c => c <| cwnd := u16 (c.(ssthresh) + 3 * c.(mss)) |> <| flags := c.(flags) .| TF_INFR |> <| rtime := 0 |>))
  end.

(** ** The acknowledgement *)

Definition update_window : TM unit :=
  do s <- gets (fun s => s);
  let c := s.(pcb) in
  when TCP_SEQ_LT c.(snd_wl1) s.(seqno) || ((c.(snd_wl1) =? s.(seqno)) && TCP_SEQ_LT c.(snd_wl2) s.(ackno)) ||
       ((c.(snd_wl2) =? s.(ackno)) && (s.(hdr_wnd) >? c.(snd_wnd))) then
    (pset (fun c => c <| snd_wnd := s.(hdr_wnd) |>) ;;
     pset (fun c => if c.(snd_wnd_max) <? c.(snd_wnd) then c <| snd_wnd_max := c.(snd_wnd) |> else c) ;;
     pset (fun c => c <| snd_wl1 := s.(seqno) |> <| snd_wl2 := s.(ackno) |>) ;;
     pset (fun c =>
       if c.(snd_wnd) =? 0 then (if c.(persist_backoff) =? 0 then c <| persist_cnt := 0 |> <| persist_backoff := 1 |> else c)
       else if c.(persist_backoff) >? 0 then c <| persist_backoff := 0 |> else c)).

Definition duplicate_ack (right_wnd_edge : Z) : TM unit :=
  do s <- gets (fun s => s);
  let c := s.(pcb) in
  if (s.(tcplen) =? 0) && (u32 (c.(snd_wl2) + c.(snd_wnd)) =? right_wnd_edge) && (c.(rtime) >=? 0) && (c.(lastack) =? s.(ackno)) then
    (when u8 (c.(dupacks) + 1) >? c.(dupacks) then pset (fun c => c <| dupacks := c.(dupacks) + 1 |>)) ;;
    do d <- pget dupacks;
    if d >? 3 then
      pset (fun c => if u16 (c.(cwnd) + c.(mss)) >? c.(cwnd) then c <| cwnd := u16 (c.(cwnd) + c.(mss)) |> else c)
    else when d =? 3 then tcp_rexmit_fast
  else pset (fun c => c <| dupacks := 0 |>).

(** Removing the acknowledged segments from the front of a queue. *)
Definition free_acked (next : tcp_seg) : TM unit :=
  do c <- pget (fun c => c);
  LWIP_ASSERT (c.(snd_queuelen) >=? pbuf_clen next.(sp)) ;;
  pset (fun c => c <| snd_queuelen := u16 (c.(snd_queuelen) - pbuf_clen next.(sp)) |>) ;;
  modify (fun s => s <| recv_acked := u16 (s.(recv_acked) + next.(slen)) |>) ;;
  tcp_seg_free ;;
  do c <- pget (fun c => c);
  when negb (c.(snd_queuelen) =? 0) then
    LWIP_ASSERT (negb (match c.(unacked), c.(unsent) with [], [] => true | _, _ => false end)).

Fixpoint ack_unacked (l : list tcp_seg) : TM unit :=
  match l with
  | [] => ret tt
  | next :: rest =>
      do a <- gets ackno;
      when TCP_SEQ_LEQ (u32 (next.(hseq) + TCP_TCPLEN next)) a then
        (pset (fun c => c <| unacked := rest |>) ;;
         free_acked next ;;
         ack_unacked rest)
  end.

Fixpoint ack_unsent (l : list tcp_seg) : TM unit :=
  match l with
  | [] => ret tt
  | next :: rest =>
      do a <- gets ackno;
      do n <- pget snd_nxt;
      when TCP_SEQ_BETWEEN a (u32 (next.(hseq) + TCP_TCPLEN next)) n then
        (pset (fun c => c <| unsent := rest |>) ;;
         (match rest with [] => pset (fun c => c <| unsent_oversize := 0 |>) | _ => ret tt end) ;;
         free_acked next ;;
         ack_unsent rest)
  end.

(** Slow start and congestion avoidance; a window of 0 divides by 0. *)
Definition grow_cwnd : TM unit :=
  do c <- pget (fun c => c);
  when state_num c.(state) >=? state_num ESTABLISHED then
    (if c.(cwnd) <? c.(ssthresh) then
       pset (fun c => if u16 (c.(cwnd) + c.(mss)) >? c.(cwnd) then c <| cwnd := u16 (c.(cwnd) + c.(mss)) |> else c)
     else if c.(cwnd) =? 0 then halt
     else
       let new_cwnd := u16 (c.(cwnd) + c.(mss) * c.(mss) / c.(cwnd)) in
       pset (fun c => if new_cwnd >? c.(cwnd) then c <| cwnd := new_cwnd |> else c)).

Definition new_ack : TM unit :=
  pset (fun c => if on c.(flags) TF_INFR then c <| flags := off_bits c.(flags) TF_INFR |> <| cwnd := c.(ssthresh) |> else c) ;;
  do a <- gets ackno;
  pset (fun c => c <| nrtx := 0 |> <| rto := s16 ((c.(sa) >> 3) + c.(sv)) |> <| dupacks := 0 |> <| lastack := a |>) ;;
  grow_cwnd ;;
  do l <- pget unacked;
  ack_unacked l ;;
  pset (fun c => c <| rtime := match c.(unacked) with [] => -1 | _ => 0 end |> <| polltmr := 0 |>).

(** Van Jacobson's estimator, in [s16_t]. *)
Definition estimate_rtt : TM unit :=
  do s <- gets (fun s => s);
  let c := s.(pcb) in
  when negb (c.(rttest) =? 0) && TCP_SEQ_LT c.(rtseq) s.(ackno) then
    (let m := s16 (s.(tcp_ticks) - c.(rttest)) in
     let m := s16 (m - (c.(sa) >> 3)) in
     let sa' := s16 (c.(sa) + m) in
     let m := if m <? 0 then s16 (- m) else m in
     let m := s16 (m - (c.(sv) >> 2)) in
     let sv' := s16 (c.(sv) + m) in
     pset (fun c => c <| sa := sa' |> <| sv := sv' |> <| rto := s16 ((sa' >> 3) + sv') |> <| rttest := 0 |>)).

Definition receive_ack : TM unit :=
  do c <- pget (fun c => c);
  let right_wnd_edge := u32 (c.(snd_wnd) + c.(snd_wl2)) in
  update_window ;;
  do s <- gets (fun s => s);
  (if TCP_SEQ_LEQ s.(ackno) s.(pcb).(lastack) then duplicate_ack right_wnd_edge
   else if TCP_SEQ_BETWEEN s.(ackno) (u32 (s.(pcb).(lastack) + 1)) s.(pcb).(snd_nxt) then new_ack
   else tcp_send_empty_ack) ;;
  do l <- pget unsent;
  ack_unsent l ;;
  do r <- gets recv_acked;
  pset (fun c => c <| snd_buf := u16 (c.(snd_buf) + r) |>) ;;
  estimate_rtt.
(** ** The data *)

(** The bytes in front of [off] are dropped; the emptied pbufs stay in the
    chain.  [None]: the walk left the chain. *)
Fixpoint skip_front (off : Z) (p : chain) : option chain :=
  match p with
  | [] => None
  | b :: t => if len_of b <? off then option_map (cons []) (skip_front (off - len_of b) t) else pbuf_header p off
  end.

(** Trimming the first edge of the incoming segment. *)
Definition trim_front : TM unit :=
  do s <- gets (fun s => s);
  let c := s.(pcb) in
  let off := s32 (c.(rcv_nxt) - s.(seqno)) in
  LWIP_ASSERT (off <? 0x7fff) ;;
  LWIP_ASSERT (off <=? tot_len s.(inseg).(sp)) ;;
  match skip_front off s.(inseg).(sp) with
  | None => halt
  | Some p =>
      set_inseg (fun g => g <| sp := p |> <| slen := u16 (g.(slen) - u16 (c.(rcv_nxt) - s.(seqno))) |> <| hseq := c.(rcv_nxt) |>) ;;
      modify (fun s => s <| seqno := c.(rcv_nxt) |>)
  end.

(** [tcplen = TCP_TCPLEN(&inseg)] *)
Definition set_tcplen : TM unit := modify (fun s => s <| tcplen := u16 (TCP_TCPLEN s.(inseg)) |>).

(** Cutting the incoming segment to [n] bytes of data, less one for a SYN. *)
Definition cut_inseg (n : Z) : TM unit :=
  set_inseg (fun g => g <| slen := u16 n |>) ;;
  set_inseg (fun g => if on g.(hflags) TCP_SYN then g <| slen := u16 (g.(slen) - 1) |> else g) ;;
  set_inseg (fun g => g <| sp := pbuf_realloc g.(sp) g.(slen) |>) ;;
  set_tcplen.

(** The segment must not be longer than the window. *)
Definition trim_to_window : TM unit :=
  do s <- gets (fun s => s);
  let c := s.(pcb) in
  when s.(tcplen) >? c.(rcv_wnd) then
    ((when on s.(inseg).(hflags) TCP_FIN then set_inseg (fun g => g <| hflags := off_bits g.(hflags) TCP_FIN |>)) ;;
     cut_inseg c.(rcv_wnd) ;;
     do s <- gets (fun s => s);
     LWIP_ASSERT (u32 (s.(seqno) + s.(tcplen)) =? u32 (c.(rcv_nxt) + c.(rcv_wnd)))).

(** Segments of the queue that the incoming segment covers are removed; a FIN
    among them is taken over. *)
Fixpoint drop_covered (l : list tcp_seg) : TM (list tcp_seg) :=
  match l with
  | [] => ret []
  | next :: rest =>
      do s <- gets (fun s => s);
      if TCP_SEQ_GEQ (u32 (s.(seqno) + s.(tcplen))) (u32 (next.(hseq) + next.(slen))) then
        (when on next.(hflags) TCP_FIN && negb (on s.(inseg).(hflags) TCP_SYN) then
           (set_inseg (fun g => g <| hflags := g.(hflags) .| TCP_FIN |>) ;; set_tcplen)) ;;
        tcp_seg_free ;;
        drop_covered rest
      else ret l
  end.

(** What the in-sequence segment does to the queue. *)
Definition adjust_ooseq : TM unit :=
  do s <- gets (fun s => s);
  match s.(pcb).(ooseq) with
  | [] => ret tt
  | l =>
    if on s.(inseg).(hflags) TCP_FIN then
      tcp_segs_free l ;; pset (fun c => c <| ooseq := [] |>)
    else
      do l' <- drop_covered l;
      (match l' with
       | [] => ret tt
       | next :: _ =>
           do s <- gets (fun s => s);
           when TCP_SEQ_GT (u32 (s.(seqno) + s.(tcplen))) next.(hseq) then
             (cut_inseg (next.(hseq) - s.(seqno)) ;;
              do s <- gets (fun s => s);
              LWIP_ASSERT (u32 (s.(seqno) + s.(tcplen)) =? next.(hseq)))
       end) ;;
      pset (fun c => c <| ooseq := l' |>)
  end.

(** Segments of the queue that are now in sequence. *)
Fixpoint dequeue (l : list tcp_seg) : TM unit :=
  match l with
  | [] => ret tt
  | cseg :: rest =>
      do n <- pget rcv_nxt;
      when cseg.(hseq) =? n then
        (modify (fun s => s <| seqno := cseg.(hseq) |>) ;;
         pset (fun c => c <| rcv_nxt := u32 (c.(rcv_nxt) + TCP_TCPLEN cseg) |>) ;;
         do w <- pget rcv_wnd;
         LWIP_ASSERT (w >=? TCP_TCPLEN cseg) ;;
         pset (fun c => c <| rcv_wnd := u16 (c.(rcv_wnd) - TCP_TCPLEN cseg) |>) ;;
         tcp_update_rcv_ann_wnd ;;
         (when tot_len cseg.(sp) >? 0 then
            modify (fun s => s <| recv_data := match s.(recv_data) with Some d => Some (d ++ cseg.(sp)) | None => Some cseg.(sp) end |>)) ;;
         (when on cseg.(hflags) TCP_FIN then
            (modify (fun s => s <| recv_flags := s.(recv_flags) .| TF_GOT_FIN |>) ;;
             pset (fun c => match c.(state) with ESTABLISHED => c <| state := CLOSE_WAIT |> | _ => c end))) ;;
         pset (fun c => c <| ooseq := rest |>) ;;
         tcp_seg_free ;;
         dequeue rest)
  end.

Definition receive_in_sequence : TM unit :=
  set_tcplen ;;
  trim_to_window ;;
  adjust_ooseq ;;
  do s <- gets (fun s => s);
  pset (fun c => c <| rcv_nxt := u32 (s.(seqno) + s.(tcplen)) |>) ;;
  LWIP_ASSERT (s.(pcb).(rcv_wnd) >=? s.(tcplen)) ;;
  pset (fun c => c <| rcv_wnd := u16 (c.(rcv_wnd) - s.(tcplen)) |>) ;;
  tcp_update_rcv_ann_wnd ;;
  (when tot_len s.(inseg).(sp) >? 0 then modify (fun s => s <| recv_data := Some s.(inseg).(sp) |> <| inseg_p := false |>)) ;;
  (when on s.(inseg).(hflags) TCP_FIN then modify (fun s => s <| recv_flags := s.(recv_flags) .| TF_GOT_FIN |>)) ;;
  do l <- pget ooseq;
  dequeue l ;;
  tcp_ack.

(** The segments behind [cseg] that it covers are removed, and its tail that
    overlaps the next one; the result is the queue from [cseg] on. *)
Fixpoint oos_covered (cseg : tcp_seg) (l : list tcp_seg) : TM (list tcp_seg) :=
  match l with
  | [] => ret [cseg]
  | next :: rest =>
      do q <- gets seqno;
      if TCP_SEQ_GEQ (u32 (q + cseg.(slen))) (u32 (next.(hseq) + next.(slen))) then
        let cseg := if on next.(hflags) TCP_FIN then cseg <| hflags := cseg.(hflags) .| TCP_FIN |> else cseg in
        tcp_seg_free ;;
        oos_covered cseg rest
      else if TCP_SEQ_GT (u32 (q + cseg.(slen))) next.(hseq) then
        let n := u16 (next.(hseq) - q) in
        ret (cseg <| slen := n |> <| sp := pbuf_realloc cseg.(sp) n |> :: l)
      else ret (cseg :: l)
  end.

Definition tcp_oos_insert_segment (cseg : tcp_seg) (next : list tcp_seg) : TM (list tcp_seg) :=
  if on cseg.(hflags) TCP_FIN then tcp_segs_free next ;; ret [cseg]
  else oos_covered cseg next.

(** Cutting a queued segment that reaches behind [q]. *)
Definition cut_seg (g : tcp_seg) (q : Z) : tcp_seg :=
  if TCP_SEQ_GT (u32 (g.(hseq) + g.(slen))) q then
    let n := u16 (q - g.(hseq)) in g <| slen := n |> <| sp := pbuf_realloc g.(sp) n |>
  else g.

(** The incoming segment at the end of the queue must not reach behind the
    window. *)
Definition oos_window (cseg : tcp_seg) : TM tcp_seg :=
  do s <- gets (fun s => s);
  let c := s.(pcb) in
  if TCP_SEQ_GT (u32 (s.(tcplen) + s.(seqno))) (u32 (c.(rcv_nxt) + c.(rcv_wnd))) then
    let cseg := if on cseg.(hflags) TCP_FIN then cseg <| hflags := off_bits cseg.(hflags) TCP_FIN |> else cseg in
    let n := u16 (c.(rcv_nxt) + c.(rcv_wnd) - s.(seqno)) in
    let cseg := cseg <| slen := n |> <| sp := pbuf_realloc cseg.(sp) n |> in
    modify (fun s => s <| tcplen := u16 (TCP_TCPLEN cseg) |>) ;;
    do t <- gets tcplen;
    LWIP_ASSERT (u32 (s.(seqno) + t) =? u32 (c.(rcv_nxt) + c.(rcv_wnd))) ;;
    ret cseg
  else ret cseg.

(** The walk through the queue: the segment before the place reached and the
    queue from there on, as they are after the insertion. *)
Fixpoint oos_walk (prev : option tcp_seg) (l : list tcp_seg) : TM (option tcp_seg * list tcp_seg) :=
  match l with
  | [] => ret (prev, [])
  | next :: rest =>
      do s <- gets (fun s => s);
      let q := s.(seqno) in
      if q =? next.(hseq) then
        if s.(inseg).(slen) >? next.(slen) then
          do cseg <- tcp_seg_copy s.(inseg);
          match cseg with
          | Some cseg => do l' <- tcp_oos_insert_segment cseg l; ret (prev, l')
          | None => ret (prev, l)
          end
        else ret (prev, l)
      else
        let here := match prev with
          | None => TCP_SEQ_LT q next.(hseq)
          | Some pv => TCP_SEQ_BETWEEN q (u32 (pv.(hseq) + 1)) (u32 (next.(hseq) - 1))
          end in
        if here : bool then
          do cseg <- tcp_seg_copy s.(inseg);
          match cseg with
          | Some cseg => do l' <- tcp_oos_insert_segment cseg l; ret (option_map (fun pv => cut_seg pv q) prev, l')
          | None => ret (prev, l)
          end
        else if match rest with [] => TCP_SEQ_GT q next.(hseq) | _ => false end then
          if on next.(hflags) TCP_FIN then ret (prev, l)
          else
            do cseg <- tcp_seg_copy s.(inseg);
            match cseg with
            | Some cseg => do cseg <- oos_window cseg; ret (prev, [cut_seg next q; cseg])
            | None => ret (prev, l)
            end
        else
          do r <- oos_walk (Some next) rest;
          let '(next', rest') := r in
          ret (prev, match next' with Some n => n :: rest' | None => rest' end)
  end.

Definition receive_out_of_sequence : TM unit :=
  tcp_send_empty_ack ;;
  do s <- gets (fun s => s);
  match s.(pcb).(ooseq) with
  | [] =>
      do cseg <- tcp_seg_copy s.(inseg);
      pset (fun c => c <| ooseq := match cseg with Some cseg => [cseg] | None => [] end |>)
  | l =>
      do r <- oos_walk None l;
      pset (fun c => c <| ooseq := snd r |>)
  end.

Definition receive_data : TM unit :=
  do s <- gets (fun s => s);
  let c := s.(pcb) in
  (if TCP_SEQ_BETWEEN c.(rcv_nxt) (u32 (s.(seqno) + 1)) (u32 (s.(seqno) + s.(tcplen) - 1)) then trim_front
   else when TCP_SEQ_LT s.(seqno) c.(rcv_nxt) then tcp_ack_now) ;;
  do q <- gets seqno;
  if TCP_SEQ_BETWEEN q c.(rcv_nxt) (u32 (c.(rcv_nxt) + c.(rcv_wnd) - 1)) then
    if c.(rcv_nxt) =? q then receive_in_sequence else receive_out_of_sequence
  else tcp_send_empty_ack.

Definition tcp_receive : TM unit :=
  do s <- gets (fun s => s);
  LWIP_ASSERT (state_num s.(pcb).(state) >=? state_num ESTABLISHED) ;;
  (when on s.(hdr_flags) TCP_ACK then receive_ack) ;;
  do s <- gets (fun s => s);
  let c := s.(pcb) in
  if (s.(tcplen) >? 0) && (state_num c.(state) <? state_num CLOSE_WAIT) then receive_data
  else when negb (TCP_SEQ_BETWEEN s.(seqno) c.(rcv_nxt) (u32 (c.(rcv_nxt) + c.(rcv_wnd) - 1))) then tcp_ack_now.

End TcpIn.
