(* ===== verification/TcpOut.v ===== *)
(** * Sending TCP segments (lwip/src/core/tcp_out.c, [tcp_output])

    [tcp_output] and [tcp_output_segment], the retransmission of everything
    ([tcp_rexmit_rto]) and, from tcp.c, [tcp_recved], which opens the window and
    may send an update of it.

    What the layer below does with a segment is an argument: [seg_out] is [None]
    while the driver still holds the pbuf, else the result of [ip_output_if];
    [route] is the MTU of the interface the route leads to, if there is a route.
    Addresses are not part of the control block: with IPv4 an unspecified local
    address can always be filled in. *)

From Stdlib Require Import ZArith List Lia Bool.
From S2P Require Import Prelude Pbuf TcpIn.
Import ListNotations.
Open Scope Z_scope.
Open Scope c_scope.

Definition TCP_SND_BUF := 2 * TCP_MSS.
Definition TCP_SND_QUEUELEN := (4 * TCP_SND_BUF + (TCP_MSS - 1)) / TCP_MSS.

(** Whether Nagle's algorithm lets the next segment go. *)
Definition tcp_do_output_nagle (c : tcp_pcb) : bool :=
  match c.(unacked) with [] => true | _ => false end ||
  on c.(flags) (TF_NODELAY .| TF_INFR) ||
  match c.(unsent) with [] => false | seg :: rest => match rest with [] => seg.(slen) >=? c.(mss) | _ => true end end ||
  ((c.(snd_buf) =? 0) || (c.(snd_queuelen) >=? TCP_SND_QUEUELEN)).

Definition is_syn_sent (st : tcp_state) : bool := match st with SYN_SENT => true | _ => false end.
Definition LWIP_TCP_OPT_LEN_MSS := 4.
Definition is_empty {A} (l : list A) : bool := match l with [] => true | _ => false end.
Definition err_is_ok (e : err_t) : bool := match e with ERR_OK => true | _ => false end.

(** The place of a segment that was sent: behind the last one that is not
    acknowledged, or in order. *)
Definition put_unacked (seg : tcp_seg) (l : list tcp_seg) : list tcp_seg :=
  match l with
  | [] => [seg]
  | x :: t => if TCP_SEQ_LT seg.(hseq) (last l x).(hseq) then insert_unsent seg l else l ++ [seg]
  end.

Section TcpOut.
Context (NOASSERT : bool) (ack_out : tcp_pcb -> option err_t).
Context (route : option Z) (seg_out : tcp_pcb -> tcp_seg -> option err_t).

Definition tcp_output_segment (seg : tcp_seg) : TM err_t :=
  do c <- pget (fun c => c);
  match seg_out c seg with
  | None => ret ERR_OK
  | Some err =>
      pset (fun c => c <| rcv_ann_right_edge := u32 (c.(rcv_nxt) + c.(rcv_ann_wnd)) |>) ;;
      pset (fun c => if c.(rtime) <? 0 then c <| rtime := 0 |> else c) ;;
      do t <- gets tcp_ticks;
      pset (fun c => if c.(rttest) =? 0 then c <| rttest := t |> <| rtseq := seg.(hseq) |> else c) ;;
      modify (fun s => s <| xmit := s.(xmit) ++ [(seg, s.(pcb).(rcv_nxt), s.(pcb).(rcv_ann_wnd))] |>) ;;
      ret err
  end.

(** The end of [tcp_output]. *)
Definition output_done : TM err_t :=
  pset (fun c => match c.(unsent) with [] => c <| unsent_oversize := 0 |> | _ => c end) ;;
  pset (fun c => c <| flags := off_bits c.(flags) TF_NAGLEMEMERR |>) ;;
  ret ERR_OK.

(** A segment that was sent leaves the queue. *)
Definition segment_sent (seg : tcp_seg) (rest : list tcp_seg) : TM unit :=
  pset (fun c => c <| unsent := rest |>) ;;
  pset (fun c => if is_syn_sent c.(state) then c else c <| flags := off_bits c.(flags) (TF_ACK_DELAY .| TF_ACK_NOW) |>) ;;
  let nxt := u32 (seg.(hseq) + TCP_TCPLEN seg) in
  pset (fun c => if TCP_SEQ_LT c.(snd_nxt) nxt then c <| snd_nxt := nxt |> else c) ;;
  if TCP_TCPLEN seg >? 0 then pset (fun c => c <| unacked := put_unacked seg c.(unacked) |>)
  else tcp_seg_free.

(** The loop of [tcp_output] over the queue. *)
Fixpoint output_segs (wnd : Z) (l : list tcp_seg) : TM err_t :=
  match l with
  | [] => output_done
  | seg :: rest =>
      do c <- pget (fun c => c);
      if u32 (seg.(hseq) - c.(lastack) + seg.(slen)) <=? wnd then
        LWIP_ASSERT NOASSERT (negb (on seg.(hflags) TCP_RST)) ;;
        if negb (tcp_do_output_nagle c) && negb (on c.(flags) (TF_NAGLEMEMERR .| TF_FIN)) then output_done
        else
          let seg := if is_syn_sent c.(state) then seg else seg <| hflags := seg.(hflags) .| TCP_ACK |> in
          pset (fun c => c <| unsent := seg :: rest |>) ;;
          do err <- tcp_output_segment seg;
          if err_is_ok err then
            segment_sent seg rest ;;
            output_segs wnd rest
          else
            pset (fun c => c <| flags := c.(flags) .| TF_NAGLEMEMERR |>) ;;
            ret err
      else output_done
  end.

Definition tcp_output : TM err_t :=
  do s <- gets (fun s => s);
  let c := s.(pcb) in
  LWIP_ASSERT NOASSERT (match c.(state) with LISTEN => false | _ => true end) ;;
  if s.(input_pcb) then ret ERR_OK
  else
    let wnd := Z.min c.(snd_wnd) c.(cwnd) in
    if on c.(flags) TF_ACK_NOW &&
       match c.(unsent) with [] => true | seg :: _ => u32 (seg.(hseq) - c.(lastack) + seg.(slen)) >? wnd end then
      tcp_send_empty_ack ack_out ;;
      ret (match ack_out c with None => ERR_BUF | Some err => err end)
    else
      match route with
      | None => ret ERR_RTE
      | Some _ => output_segs wnd c.(unsent)
      end.

Definition tcp_rexmit_rto : TM unit :=
  do c <- pget (fun c => c);
  match c.(unacked) with
  | [] => ret tt
  | l =>
      pset (fun c => c <| unsent := l ++ c.(unsent) |> <| unacked := [] |> <| nrtx := u8 (c.(nrtx) + 1) |> <| rttest := 0 |>) ;;
      tcp_output ;;
      ret tt
  end.

Definition tcp_recved (len : Z) : TM unit :=
  do st <- pget state;
  LWIP_ASSERT NOASSERT (negb (match st with LISTEN => true | _ => false end)) ;;
  pset (fun c => c <| rcv_wnd := u16 (c.(rcv_wnd) + len) |>) ;;
  do c <- pget (fun c => c);
  (if c.(rcv_wnd) >? TCP_WND then pset (fun c => c <| rcv_wnd := TCP_WND |>)
   else when c.(rcv_wnd) =? 0 then
     match c.(state) with
     | CLOSE_WAIT | LAST_ACK => pset (fun c => c <| rcv_wnd := TCP_WND |>)
     | _ => LWIP_ASSERT NOASSERT false
     end) ;;
  do wnd_inflation <- tcp_update_rcv_ann_wnd NOASSERT;
  when s32 wnd_inflation >=? TCP_WND_UPDATE_THRESHOLD then
    (tcp_ack_now ;;
     tcp_output ;;
     ret tt).
End TcpOut.
