(* ===== verification/TcpWrite.v ===== *)
(** * Queueing data (lwip/src/core/tcp_out.c, [tcp_write])

    [tcp_write] with its three phases (the room behind the last pbuf, a new pbuf on
    the last segment, new segments), [tcp_enqueue_flags], [tcp_send_fin], and the
    probes of the slow timer.

    The chain of a segment that is sent is the list of the parts of its data; the
    headers in front of them and the MSS option of a SYN are left out.  Whether
    there is memory for the n-th pbuf that a call asks for is an argument.  Data
    that is not copied is taken for what it is at the call: the application must
    leave it alone until it is acknowledged. *)

From Stdlib Require Import ZArith List Lia Bool.
From S2P Require Import Prelude Mem Pbuf TcpIn TcpOut.
Import ListNotations.
Open Scope Z_scope.
Open Scope c_scope.

Definition TCP_PSH := 0x08.
Definition TCP_WRITE_FLAG_COPY := 0x01.
Definition TCP_WRITE_FLAG_MORE := 0x02.
Definition TCP_OVERSIZE := TCP_MSS.
Definition TCP_SNDQUEUELEN_OVERFLOW := 0xffff - 3.
Definition TCP_OVERSIZE_CALC_LENGTH (length : Z) : Z := length + TCP_OVERSIZE.

(** The MSS option is in every SYN and in no other segment. *)
Definition LWIP_TCP_OPT_LENGTH (seg : tcp_seg) : Z := if on seg.(hflags) TCP_SYN then LWIP_TCP_OPT_LEN_MSS else 0.

(** The last segment, and the queue with another one in its place. *)
Fixpoint last_seg (l : list tcp_seg) : option tcp_seg :=
  match l with [] => None | [g] => Some g | _ :: t => last_seg t end.
Fixpoint on_last {A} (f : A -> A) (l : list A) : list A :=
  match l with [] => [] | [g] => [f g] | g :: t => g :: on_last f t end.

(** The largest segment: half of the largest window seen, at most. *)
Definition mss_local (c : tcp_pcb) : Z :=
  let m := Z.min c.(mss) (c.(snd_wnd_max) / 2) in if m =? 0 then c.(mss) else m.

(** The spare room of a pbuf that was allocated; [None] without memory. *)
Definition tcp_pbuf_prealloc (ok : bool) (len max_length : Z) (c : tcp_pcb) (apiflags : Z) (first_seg : bool) : option Z :=
  let alloc :=
    if (len <? max_length) &&
       (on apiflags TCP_WRITE_FLAG_MORE ||
        (negb (on c.(flags) TF_NODELAY) && (negb first_seg || negb (is_empty c.(unsent)) || negb (is_empty c.(unacked)))))
    then Z.min max_length (LWIP_MEM_ALIGN_SIZE (TCP_OVERSIZE_CALC_LENGTH len))
    else len in
  if ok then Some (u16 (u16 alloc - len)) else None.

(** The bytes from [pos] on. *)
Definition bytes (arg : list Z) (pos n : Z) : list Z := firstn (Z.to_nat n) (skipn (Z.to_nat pos) arg).

(** The local variables of [tcp_write]; [w_touched] tells whether [seg] is
    [last_unsent], [w_n] counts the pbufs asked for. *)
Record wvars := mkW {
  w_pos : Z; w_oversize : Z; w_used : Z; w_touched : bool; w_concat : option (list Z); w_queuelen : Z; w_queue : list tcp_seg; w_n : nat }.

Section TcpWrite.
Context (NOASSERT : bool).
Abbreviation LWIP_ASSERT := (TcpIn.LWIP_ASSERT NOASSERT).

Definition nagle_memerr : TM unit := pset (fun c => c <| flags := c.(flags) .| TF_NAGLEMEMERR |>).

Definition tcp_write_checks (len : Z) : TM err_t :=
  do c <- pget (fun c => c);
  match c.(state) with
  | ESTABLISHED | CLOSE_WAIT | SYN_SENT | SYN_RCVD =>
      if len =? 0 then ret ERR_OK
      else if len >? c.(snd_buf) then nagle_memerr ;; ret ERR_MEM
      else if (c.(snd_queuelen) >=? TCP_SND_QUEUELEN) || (c.(snd_queuelen) >? TCP_SNDQUEUELEN_OVERFLOW) then nagle_memerr ;; ret ERR_MEM
      else
        (if negb (c.(snd_queuelen) =? 0) then LWIP_ASSERT (negb (is_empty c.(unacked)) || negb (is_empty c.(unsent)))
         else LWIP_ASSERT (is_empty c.(unacked) && is_empty c.(unsent))) ;;
        ret ERR_OK
  | _ => ret ERR_CONN
  end.

Definition tcp_create_segment (p : chain) (flags seqno : Z) : TM (option tcp_seg) :=
  do n <- gets seg_free;
  if n =? 0 then ret None
  else
    modify (fun s => s <| seg_free := s.(seg_free) - 1 |>) ;;
    ret (Some (mkSeg p (tot_len p) (u32 seqno) flags)).

(** Phases 1 and 2; [false] stands for the jump to [memerr]. *)
Definition write_tail (room : nat -> bool) (arg : list Z) (apiflags mss_l : Z) (c : tcp_pcb) : TM (bool * wvars) :=
  let len := len_of arg in
  match last_seg c.(unsent) with
  | None =>
      LWIP_ASSERT (c.(unsent_oversize) =? 0) ;;
      ret (true, mkW 0 0 0 false None c.(snd_queuelen) [] 0)
  | Some last_unsent =>
      let unsent_optlen := LWIP_TCP_OPT_LENGTH last_unsent in
      LWIP_ASSERT (mss_l >=? last_unsent.(slen) + unsent_optlen) ;;
      let space := u16 (mss_l - (last_unsent.(slen) + unsent_optlen)) in
      let oversize := c.(unsent_oversize) in
      let touched := oversize >? 0 in
      let used := if touched then Z.min space (Z.min oversize len) else 0 in
      let oversize := u16 (oversize - used) in
      let space := u16 (space - used) in
      LWIP_ASSERT ((oversize =? 0) || (used =? len)) ;;
      if (used <? len) && (space >? 0) && (last_unsent.(slen) >? 0) then
        let seglen := if space <? len - used then space else len - used in
        let new_pbuf oversize := (true, mkW (used + seglen) oversize used true (Some (bytes arg used seglen)) (u16 (c.(snd_queuelen) + 1)) [] 1) in
        if on apiflags TCP_WRITE_FLAG_COPY then
          match tcp_pbuf_prealloc (room 0%nat) seglen space c apiflags true with
          | None => ret (false, mkW used oversize used touched None c.(snd_queuelen) [] 1)
          | Some oversize => ret (new_pbuf oversize)
          end
        else if room 0%nat then ret (new_pbuf oversize)
        else ret (false, mkW used oversize used touched None c.(snd_queuelen) [] 1)
      else ret (true, mkW used oversize used touched None c.(snd_queuelen) [] 0)
  end.

(** Phase 3. *)
Fixpoint write_segs (fuel : nat) (room : nat -> bool) (arg : list Z) (apiflags mss_l : Z) (c : tcp_pcb) (w : wvars) : TM (bool * wvars) :=
  match fuel with
  | O => hang
  | S fuel =>
      let len := len_of arg in
      if w.(w_pos) <? len then
        let left := len - w.(w_pos) in
        let seglen := if left >? mss_l then mss_l else left in
        do pw <- (if on apiflags TCP_WRITE_FLAG_COPY then
                    ret (match tcp_pbuf_prealloc (room w.(w_n)) seglen mss_l c apiflags (is_empty w.(w_queue)) with
                         | None => None
                         | Some oversize => Some ([bytes arg w.(w_pos) seglen], oversize, S w.(w_n))
                         end)
                  else
                    LWIP_ASSERT (w.(w_oversize) =? 0) ;;
                    ret (if room w.(w_n) && room (S w.(w_n)) then Some ([[]; bytes arg w.(w_pos) seglen], w.(w_oversize), S (S w.(w_n))) else None));
        match pw with
        | None => ret (false, w)
        | Some (p, oversize, n) =>
            let queuelen := u16 (w.(w_queuelen) + pbuf_clen p) in
            if (queuelen >? TCP_SND_QUEUELEN) || (queuelen >? TCP_SNDQUEUELEN_OVERFLOW) then ret (false, w)
            else
              do seg <- tcp_create_segment p 0 (c.(snd_lbb) + w.(w_pos));
              match seg with
              | None => ret (false, w)
              | Some seg => write_segs fuel room arg apiflags mss_l c
                  (mkW (w.(w_pos) + seglen) oversize w.(w_used) w.(w_touched) w.(w_concat) queuelen (w.(w_queue) ++ [seg]) n)
              end
        end
      else ret (true, w)
  end.

(** The last unsent segment with what the first two phases have added. *)
Definition extend (arg : list Z) (w : wvars) (g : tcp_seg) : tcp_seg :=
  let g := if w.(w_used) >? 0 then
      g <| sp := on_last (fun b => b ++ bytes arg 0 w.(w_used)) g.(sp) |> <| slen := u16 (g.(slen) + w.(w_used)) |>
    else g in
  match w.(w_concat) with
  | Some b => g <| sp := g.(sp) ++ [b] |> <| slen := u16 (g.(slen) + len_of b) |>
  | None => g
  end.

Definition push (g : tcp_seg) : tcp_seg := g <| hflags := g.(hflags) .| TCP_PSH |>.

(** The new queue: PSH is set in the segment that was written last. *)
Definition new_unsent (arg : list Z) (apiflags : Z) (w : wvars) (unsent : list tcp_seg) : list tcp_seg :=
  let more := on apiflags TCP_WRITE_FLAG_MORE in
  match w.(w_queue) with
  | [] => on_last (fun g => let g := extend arg w g in if w.(w_touched) && negb more then push g else g) unsent
  | queue => on_last (extend arg w) unsent ++ (if more then queue else on_last push queue)
  end.

Definition queues_used : TM unit :=
  do c <- pget (fun c => c);
  when negb (c.(snd_queuelen) =? 0) then LWIP_ASSERT (negb (is_empty c.(unacked)) || negb (is_empty c.(unsent))).

(** Committing the transaction. *)
Definition write_commit (arg : list Z) (apiflags : Z) (w : wvars) : TM err_t :=
  pset (fun c => c <| unsent_oversize := w.(w_oversize) |> <| unsent := new_unsent arg apiflags w c.(unsent) |>
    <| snd_lbb := u32 (c.(snd_lbb) + len_of arg) |> <| snd_buf := u16 (c.(snd_buf) - len_of arg) |> <| snd_queuelen := w.(w_queuelen) |>) ;;
  queues_used ;;
  ret ERR_OK.

Definition write_memerr (w : wvars) : TM err_t :=
  nagle_memerr ;;
  tcp_segs_free w.(w_queue) ;;
  queues_used ;;
  ret ERR_MEM.

(** The parts after the checks. *)
Definition write_body (room : nat -> bool) (arg : list Z) (apiflags : Z) : TM err_t :=
  do c <- pget (fun c => c);
  do w <- write_tail room arg apiflags (mss_local c) c;
  if fst w then
    do w <- write_segs (S (length arg)) room arg apiflags (mss_local c) c (snd w);
    if fst w then write_commit arg apiflags (snd w) else write_memerr (snd w)
  else write_memerr (snd w).

Definition tcp_write (room : nat -> bool) (arg : option (list Z)) (apiflags : Z) : TM err_t :=
  match arg with
  | None => ret ERR_ARG
  | Some arg =>
      do err <- tcp_write_checks (len_of arg);
      if err_is_ok err then write_body room arg apiflags else ret err
  end.

(** ** Flags *)

Definition tcp_enqueue_flags (ok : bool) (flags : Z) : TM err_t :=
  LWIP_ASSERT (on flags (TCP_SYN .| TCP_FIN)) ;;
  do c <- pget (fun c => c);
  if ((c.(snd_queuelen) >=? TCP_SND_QUEUELEN) || (c.(snd_queuelen) >? TCP_SNDQUEUELEN_OVERFLOW)) && negb (on flags TCP_FIN) then
    nagle_memerr ;; ret ERR_MEM
  else if negb ok then nagle_memerr ;; ret ERR_MEM
  else
    do seg <- tcp_create_segment [[]] flags c.(snd_lbb);
    match seg with
    | None => nagle_memerr ;; ret ERR_MEM
    | Some seg =>
        LWIP_ASSERT (seg.(slen) =? 0) ;;
        pset (fun c => c <| unsent := c.(unsent) ++ [seg] |> <| unsent_oversize := 0 |>) ;;
        (when on flags TCP_SYN || on flags TCP_FIN then pset (fun c => c <| snd_lbb := u32 (c.(snd_lbb) + 1) |>)) ;;
        (when on flags TCP_FIN then pset (fun c => c <| TcpIn.flags := c.(TcpIn.flags) .| TF_FIN |>)) ;;
        pset (fun c => c <| snd_queuelen := u16 (c.(snd_queuelen) + pbuf_clen seg.(sp)) |>) ;;
        queues_used ;;
        ret ERR_OK
    end.

Definition tcp_send_fin (ok : bool) : TM err_t :=
  do l <- pget unsent;
  match last_seg l with
  | Some last_unsent =>
      if negb (on last_unsent.(hflags) (TCP_SYN .| TCP_FIN .| TCP_RST)) then
        pset (fun c => c <| unsent := on_last (fun g => g <| hflags := g.(hflags) .| TCP_FIN |>) c.(unsent) |> <| flags := c.(flags) .| TF_FIN |>) ;;
        ret ERR_OK
      else tcp_enqueue_flags ok TCP_FIN
  | None => tcp_enqueue_flags ok TCP_FIN
  end.

(** ** Probes

    What is sent carries the current acknowledgement and window; [out] is the
    outcome, [None] without memory. *)

Definition send_probe (out : option err_t) (seg : tcp_seg) : TM unit :=
  pset (fun c => c <| rcv_ann_right_edge := u32 (c.(rcv_nxt) + c.(rcv_ann_wnd)) |>) ;;
  when (match out with Some ERR_RTE => false | _ => true end) then
    modify (fun s => s <| xmit := s.(xmit) ++ [(seg, s.(pcb).(rcv_nxt), s.(pcb).(rcv_ann_wnd))] |>).

Definition tcp_keepalive (out : option err_t) : TM err_t :=
  do c <- pget (fun c => c);
  match out with
  | None => ret ERR_MEM
  | Some err => send_probe out (mkSeg [[]] 0 (u32 (c.(snd_nxt) - 1)) TCP_ACK) ;; ret err
  end.

(** A probe has the first byte of the first segment, or its FIN.  Nothing is
    copied from a segment without data: the byte of the new pbuf is then what its
    memory held, [stale]. *)
Definition probe_of (stale : Z) (seg : tcp_seg) : tcp_seg :=
  if on seg.(hflags) TCP_FIN && (seg.(slen) =? 0) then mkSeg [[]] 0 seg.(hseq) (TCP_ACK .| TCP_FIN)
  else mkSeg [[hd stale (concat seg.(sp))]] 1 seg.(hseq) TCP_ACK.

Definition tcp_zero_window_probe (out : option err_t) (stale : Z) : TM err_t :=
  do c <- pget (fun c => c);
  match hd_error (c.(unacked) ++ c.(unsent)) with
  | None => ret ERR_OK
  | Some seg =>
      match out with
      | None => ret ERR_MEM
      | Some err =>
          let snd_nxt := u32 (seg.(hseq) + 1) in
          pset (fun c => if TCP_SEQ_LT c.(TcpIn.snd_nxt) snd_nxt then c <| TcpIn.snd_nxt := snd_nxt |> else c) ;;
          send_probe out (probe_of stale seg) ;;
          ret err
      end
  end.
End TcpWrite.
