(* ===== verification/TcpConn.v ===== *)
(** * A TCP connection (lwip/src/core/tcp_in.c, [tcp_process], and tcp.c)

    The state machine of a connection: [tcp_process] in every state with
    [tcp_parseopt], the part of [tcp_input] that follows the search for the
    control block (refused data, the callbacks of the application, the end of the
    stream), [tcp_timewait_input], and from tcp.c [tcp_process_refused_data],
    [tcp_pcb_purge], [tcp_pcb_remove], [tcp_abandon] and what [tcp_fasttmr] does
    for a connection.

    A connection is the state of [TcpIn], the data that the application has
    refused, the list its control block is on, the resets sent and what the
    application was told.  The callbacks are arguments; they may use every
    operation.  Reading an option reads memory: the bytes at the options' address
    are a function, since [tcp_parseopt] does not stop at their end. *)

From Stdlib Require Import ZArith List Lia Bool.
From S2P Require Import Prelude Pbuf TcpIn TcpOut.
Import ListNotations.
Open Scope Z_scope.
Open Scope c_scope.

Definition LWIP_TCP_OPT_EOL := 0.
Definition LWIP_TCP_OPT_NOP := 1.
Definition LWIP_TCP_OPT_MSS := 2.
Definition IP_HLEN := 20.
Definition TCP_HLEN := 20.

(** The list that holds the control block, or the pool. *)
Inductive pcb_place := Active | TimeWait | Removed | Freed.

(** What the application was told. *)
Inductive event := Recv (p : chain) (err : err_t) | Closed | Sent (n : Z) | Connected | Accepted | Error (err : err_t).

Record conn := mkConn {
  st : tcp_st; refused_data : option (chain * bool); place : pcb_place; rsts : list (Z * Z); log : list event }.
#[export] Instance conn_eta : Eta conn := { eta := fun r => mkConn r.(st) r.(refused_data) r.(place) r.(rsts) r.(log) }.

Definition CM := M conn.

(** Code of the layer below. *)
Definition lift {A} (m : TM A) : CM A := fun k =>
  match m k.(st) with Ok (a, s) => Ok (a, k <| st := s |>) | Halt => Halt | Hang => Hang end.
Definition cget {A} (f : tcp_pcb -> A) : CM A := gets (fun k => f k.(st).(pcb)).
Definition cset (f : tcp_pcb -> tcp_pcb) : CM unit := lift (pset f).

(** The options of the segment: the memory at their two parts, the length of
    the first part and of all. *)
Record options := mkOpts { opt1 : Z -> Z; opt1len : Z; opt2 : option (Z -> Z); optlen : Z }.

(** The callbacks of the application; a listener that is gone has no [accept]. *)
Record callbacks := mkCb {
  on_recv : option chain -> CM err_t; on_sent : Z -> CM err_t; on_connected : CM err_t; on_accept : option (CM err_t); on_err : err_t -> CM unit }.

Definition is_abrt (e : err_t) : bool := match e with ERR_ABRT => true | _ => false end.
Definition state_is (x y : tcp_state) : bool := state_num x =? state_num y.

(** ** Options *)

Definition tcp_getoptbyte (o : options) (idx : Z) : Z :=
  match o.(opt2) with
  | Some m => if idx <? o.(opt1len) then o.(opt1) idx else m (u8 (idx - o.(opt1len)))
  | None => o.(opt1) idx
  end.

(** The loop of [tcp_parseopt] from [tcp_optidx = idx]: the MSS of the control
    block afterwards; [None] when the fuel is used up. *)
Fixpoint parse_opts (fuel : nat) (o : options) (idx : Z) (mss : Z) : option Z :=
  match fuel with
  | O => None
  | S fuel =>
      if idx <? o.(optlen) then
        let opt := tcp_getoptbyte o idx in
        let idx := u16 (idx + 1) in
        if opt =? LWIP_TCP_OPT_EOL then Some mss
        else if opt =? LWIP_TCP_OPT_NOP then parse_opts fuel o idx mss
        else if opt =? LWIP_TCP_OPT_MSS then
          let len := tcp_getoptbyte o idx in
          let idx := u16 (idx + 1) in
          if negb (len =? LWIP_TCP_OPT_LEN_MSS) || (idx - 2 + LWIP_TCP_OPT_LEN_MSS >? o.(optlen)) then Some mss
          else
            let m := u16 (tcp_getoptbyte o idx << 8) .| tcp_getoptbyte o (u16 (idx + 1)) in
            parse_opts fuel o (u16 (idx + 2)) (if (m >? TCP_MSS) || (m =? 0) then TCP_MSS else m)
        else
          let data := tcp_getoptbyte o idx in
          let idx := u16 (idx + 1) in
          if data <? 2 then Some mss else parse_opts fuel o (u16 (idx + (data - 2))) mss
      else Some mss
  end.

Definition opts_fuel (o : options) : nat := S (Z.to_nat o.(optlen)).
Definition tcp_parseopt (o : options) : CM unit :=
  do m <- cget mss;
  match parse_opts (opts_fuel o) o 0 m with Some m => cset (fun c => c <| mss := m |>) | None => hang end.

(** [tcp_eff_send_mss]: the MTU limits the MSS. *)
Definition tcp_eff_send_mss (route : option Z) (sendmss : Z) : Z :=
  match route with
  | None => sendmss
  | Some mtu => if negb (s16 mtu =? 0) then Z.min sendmss (u16 (s16 mtu - IP_HLEN - TCP_HLEN)) else sendmss
  end.

Definition LWIP_TCP_CALC_INITIAL_CWND (mss : Z) : Z := Z.min (4 * mss) (Z.max (2 * mss) 4380).

Section TcpConn.
Context (NOASSERT : bool) (ack_out : tcp_pcb -> option err_t) (route : option Z) (seg_out : tcp_pcb -> tcp_seg -> option err_t).
(** Whether there is a pbuf for a reset. *)
Context (rst_out : bool) (cb : callbacks).

Abbreviation LWIP_ASSERT := (TcpIn.LWIP_ASSERT NOASSERT).
Abbreviation tcp_output := (TcpOut.tcp_output NOASSERT ack_out route seg_out).
Abbreviation tcp_rexmit_rto := (TcpOut.tcp_rexmit_rto NOASSERT ack_out route seg_out).
Abbreviation tcp_receive := (TcpIn.tcp_receive NOASSERT ack_out).

Definition note (e : event) : CM unit := modify (fun k => k <| log := k.(log) ++ [e] |>).
Definition TCP_EVENT_RECV (p : chain) : CM err_t := do err <- cb.(on_recv) (Some p); note (Recv p err) ;; ret err.
Definition TCP_EVENT_CLOSED : CM err_t := note Closed ;; cb.(on_recv) None.
Definition TCP_EVENT_SENT (n : Z) : CM err_t := note (Sent n) ;; cb.(on_sent) n.
Definition TCP_EVENT_CONNECTED : CM err_t := note Connected ;; cb.(on_connected).
Definition TCP_EVENT_ERR (err : err_t) : CM unit := note (Error err) ;; cb.(on_err) err.

Definition tcp_rst (seqno ackno : Z) : CM unit :=
  when rst_out then modify (fun k => k <| rsts := k.(rsts) ++ [(u32 seqno, u32 ackno)] |>).

(** ** tcp.c *)

Definition tcp_pcb_purge : CM unit :=
  do c <- cget (fun c => c);
  when negb (state_is c.(state) CLOSED || state_is c.(state) TIME_WAIT || state_is c.(state) LISTEN) then
    (modify (fun k => k <| refused_data := None |>) ;;
     lift (tcp_segs_free c.(ooseq)) ;;
     cset (fun c => c <| ooseq := [] |> <| rtime := -1 |>) ;;
     lift (tcp_segs_free c.(unsent)) ;;
     lift (tcp_segs_free c.(unacked)) ;;
     cset (fun c => c <| unacked := [] |> <| unsent := [] |> <| unsent_oversize := 0 |>)).

Definition tcp_pcb_remove : CM unit :=
  modify (fun k => k <| place := Removed |>) ;;
  tcp_pcb_purge ;;
  do c <- cget (fun c => c);
  (when negb (state_is c.(state) TIME_WAIT) && negb (state_is c.(state) LISTEN) && on c.(flags) TF_ACK_DELAY then
     (cset (fun c => c <| flags := c.(flags) .| TF_ACK_NOW |>) ;;
      lift tcp_output ;;
      ret tt)) ;;
  (when negb (state_is c.(state) LISTEN) then
     do c <- cget (fun c => c);
     lift (LWIP_ASSERT (is_empty c.(unsent))) ;;
     lift (LWIP_ASSERT (is_empty c.(unacked))) ;;
     lift (LWIP_ASSERT (is_empty c.(ooseq)))) ;;
  cset (fun c => c <| state := CLOSED |>).

Definition memp_free_pcb : CM unit := modify (fun k => k <| place := Freed |>).

Definition tcp_abandon (reset : bool) : CM unit :=
  do c <- cget (fun c => c);
  lift (LWIP_ASSERT (negb (state_is c.(state) LISTEN))) ;;
  if state_is c.(state) TIME_WAIT then tcp_pcb_remove ;; memp_free_pcb
  else
    let closed := state_is c.(state) CLOSED in
    (if closed then modify (fun k => k <| place := Removed |>) else tcp_pcb_remove) ;;
    do c' <- cget (fun c => c);
    lift (tcp_segs_free c'.(unacked)) ;;
    lift (tcp_segs_free c'.(unsent)) ;;
    lift (tcp_segs_free c'.(ooseq)) ;;
    (when negb closed && reset then tcp_rst c.(snd_nxt) c.(rcv_nxt)) ;;
    memp_free_pcb ;;
    TCP_EVENT_ERR ERR_ABRT.

(** The application does not report the FIN's sequence number as read. *)
Definition correct_rcv_wnd : CM unit := cset (fun c => if c.(rcv_wnd) =? TCP_WND then c else c <| rcv_wnd := u16 (c.(rcv_wnd) + 1) |>).

Definition tcp_process_refused_data : CM err_t :=
  do r <- gets refused_data;
  match r with
  | None => ret ERR_OK
  | Some (p, fin) =>
      modify (fun k => k <| refused_data := None |>) ;;
      do err <- TCP_EVENT_RECV p;
      match err with
      | ERR_OK =>
          if fin : bool then
            correct_rcv_wnd ;;
            do err <- TCP_EVENT_CLOSED;
            ret (if is_abrt err then ERR_ABRT else ERR_OK)
          else ret ERR_OK
      | ERR_ABRT => ret ERR_ABRT
      | _ => modify (fun k => k <| refused_data := Some (p, fin) |>) ;; ret ERR_INPROGRESS
      end
  end.

(** ** tcp_process *)

(** A reset: whether it is acceptable. *)
Definition rst_acceptable : CM bool :=
  do s <- gets st;
  let c := s.(pcb) in
  if state_is c.(state) SYN_SENT then ret (s.(ackno) =? c.(snd_nxt))
  else if s.(seqno) =? c.(rcv_nxt) then ret true
  else
    (when TCP_SEQ_BETWEEN s.(seqno) c.(rcv_nxt) (u32 (c.(rcv_nxt) + c.(rcv_wnd))) then lift tcp_ack_now) ;;
    ret false.

Definition process_rst : CM err_t :=
  do acceptable <- rst_acceptable;
  if acceptable : bool then
    do c <- cget (fun c => c);
    lift (LWIP_ASSERT (negb (state_is c.(state) CLOSED))) ;;
    lift (modify (fun s => s <| recv_flags := s.(recv_flags) .| TF_RESET |>)) ;;
    cset (fun c => c <| flags := off_bits c.(flags) TF_ACK_DELAY |>) ;;
    ret ERR_RST
  else ret ERR_OK.

(** The SYN of an active open has been acknowledged: its segment is freed. *)
Definition free_syn : CM unit :=
  do c <- cget (fun c => c);
  match c.(unacked), c.(unsent) with
  | _ :: rest, _ => cset (fun c => c <| unacked := rest |>) ;; lift tcp_seg_free
  | [], _ :: rest => cset (fun c => c <| unsent := rest |>) ;; lift tcp_seg_free
  | [], [] => halt
  end.

(** The updates of the control block when an active open succeeds. *)
Definition synced_pcb (s : tcp_st) (c : tcp_pcb) : tcp_pcb := c <| rcv_nxt := u32 (s.(seqno) + 1) |> <| rcv_ann_right_edge := u32 (s.(seqno) + 1) |> <| lastack := s.(ackno) |>
  <| snd_wnd := s.(hdr_wnd) |> <| snd_wnd_max := s.(hdr_wnd) |> <| snd_wl1 := u32 (s.(seqno) - 1) |> <| state := ESTABLISHED |>.
Definition eff_mss (c : tcp_pcb) : tcp_pcb := c <| mss := tcp_eff_send_mss route c.(mss) |>.
Definition first_cwnd (c : tcp_pcb) : tcp_pcb := c <| ssthresh := c.(snd_wnd) |> <| cwnd := u16 (LWIP_TCP_CALC_INITIAL_CWND c.(mss)) |>.
Definition one_less (c : tcp_pcb) : tcp_pcb := c <| snd_queuelen := u16 (c.(snd_queuelen) - 1) |>.
Definition restart (c : tcp_pcb) : tcp_pcb := match c.(unacked) with [] => c <| rtime := -1 |> | _ => c <| rtime := 0 |> <| nrtx := 0 |> end.

Definition process_syn_sent : CM err_t :=
  do s <- gets st;
  if on s.(hdr_flags) TCP_ACK && on s.(hdr_flags) TCP_SYN && (s.(ackno) =? u32 (s.(pcb).(lastack) + 1)) then
    cset (synced_pcb s) ;;
    cset eff_mss ;;
    cset first_cwnd ;;
    do n <- cget snd_queuelen;
    lift (LWIP_ASSERT (n >? 0)) ;;
    cset one_less ;;
    free_syn ;;
    cset restart ;;
    do err <- TCP_EVENT_CONNECTED;
    if is_abrt err then ret ERR_ABRT
    else lift tcp_ack_now ;; ret ERR_OK
  else
    (when on s.(hdr_flags) TCP_ACK then
       (tcp_rst s.(ackno) (s.(seqno) + s.(tcplen)) ;;
        cset (fun c => c <| rtime := 0 |>) ;;
        lift tcp_rexmit_rto)) ;;
    ret ERR_OK.

Definition got_fin_then (m : CM unit) : CM unit :=
  do r <- gets (fun k => k.(st).(recv_flags));
  when on r TF_GOT_FIN then m.
Definition to_state (x : tcp_state) : CM unit := cset (fun c => c <| state := x |>).

Definition process_syn_rcvd : CM err_t :=
  do s <- gets st;
  if on s.(hdr_flags) TCP_ACK then
    if TCP_SEQ_BETWEEN s.(ackno) (u32 (s.(pcb).(lastack) + 1)) s.(pcb).(snd_nxt) then
      to_state ESTABLISHED ;;
      do err <- (match cb.(on_accept) with None => ret ERR_VAL | Some accept => note Accepted ;; accept end);
      if negb (err_is_ok err) then
        (when negb (is_abrt err) then tcp_abandon true) ;;
        ret ERR_ABRT
      else
        lift tcp_receive ;;
        cset (fun c => c <| ssthresh := c.(snd_wnd) |>) ;;
        lift (modify (fun s => if s.(recv_acked) =? 0 then s else s <| recv_acked := s.(recv_acked) - 1 |>)) ;;
        cset (fun c => c <| cwnd := u16 (LWIP_TCP_CALC_INITIAL_CWND c.(mss)) |>) ;;
        got_fin_then (lift tcp_ack_now ;; to_state CLOSE_WAIT) ;;
        ret ERR_OK
    else tcp_rst s.(ackno) (s.(seqno) + s.(tcplen)) ;; ret ERR_OK
  else
    (when on s.(hdr_flags) TCP_SYN && (s.(seqno) =? u32 (s.(pcb).(rcv_nxt) - 1)) then lift tcp_rexmit) ;;
    ret ERR_OK.

(** Everything that was sent is acknowledged, our FIN included. *)
Definition fin_acked (s : tcp_st) : bool := on s.(hdr_flags) TCP_ACK && (s.(ackno) =? s.(pcb).(snd_nxt)) && is_empty s.(pcb).(unsent).

Definition enter_time_wait : CM unit :=
  tcp_pcb_purge ;;
  to_state TIME_WAIT ;;
  modify (fun k => k <| place := TimeWait |>).

Definition process_fin_wait_1 : CM unit :=
  lift tcp_receive ;;
  do s <- gets st;
  if on s.(recv_flags) TF_GOT_FIN then
    lift tcp_ack_now ;;
    if fin_acked s then enter_time_wait else to_state CLOSING
  else when fin_acked s then to_state FIN_WAIT_2.

Definition process_state : CM err_t :=
  do x <- cget state;
  match x with
  | SYN_SENT => process_syn_sent
  | SYN_RCVD => process_syn_rcvd
  | CLOSE_WAIT | ESTABLISHED =>
      lift tcp_receive ;; got_fin_then (lift tcp_ack_now ;; to_state CLOSE_WAIT) ;; ret ERR_OK
  | FIN_WAIT_1 => process_fin_wait_1 ;; ret ERR_OK
  | FIN_WAIT_2 =>
      lift tcp_receive ;; got_fin_then (lift tcp_ack_now ;; enter_time_wait) ;; ret ERR_OK
  | CLOSING =>
      lift tcp_receive ;; do s <- gets st; (when fin_acked s then enter_time_wait) ;; ret ERR_OK
  | LAST_ACK =>
      lift tcp_receive ;; do s <- gets st;
      (when fin_acked s then lift (modify (fun s => s <| recv_flags := s.(recv_flags) .| TF_CLOSED |>))) ;; ret ERR_OK
  | CLOSED | LISTEN | TIME_WAIT => ret ERR_OK
  end.

Definition tcp_process (o : options) : CM err_t :=
  do s <- gets st;
  let x := s.(pcb).(state) in
  if on s.(hdr_flags) TCP_RST then process_rst
  else if on s.(hdr_flags) TCP_SYN && negb (state_is x SYN_SENT) && negb (state_is x SYN_RCVD) then lift tcp_ack_now ;; ret ERR_OK
  else
    cset (fun c => if on c.(flags) TF_RXCLOSED then c else c <| tmr := s.(tcp_ticks) |>) ;;
    cset (fun c => c <| keep_cnt_sent := 0 |>) ;;
    tcp_parseopt o ;;
    process_state.

(** ** tcp_input, for the connection a segment belongs to *)

(** The header in host byte order and the data. *)
Record segment := mkSegment { s_p : chain; s_seq : Z; s_ack : Z; s_wnd : Z; s_flags : Z; s_opts : options }.

Definition setup_inseg (g : segment) : TM unit := modify (fun s => s
  <| inseg := mkSeg g.(s_p) (tot_len g.(s_p)) g.(s_seq) g.(s_flags) |> <| inseg_p := true |>
  <| seqno := g.(s_seq) |> <| ackno := g.(s_ack) |> <| hdr_wnd := g.(s_wnd) |> <| hdr_flags := g.(s_flags) |>
  <| tcplen := u16 (tot_len g.(s_p) + (if on g.(s_flags) (TCP_FIN .| TCP_SYN) then 1 else 0)) |>
  <| recv_data := None |> <| recv_flags := 0 |> <| recv_acked := 0 |>).

Definition set_input (b : bool) : CM unit := lift (modify (fun s => s <| input_pcb := b |>)).

(** The parts of the processing after [tcp_process]; [true] stands for the jump
    to [aborted]. *)
Definition input_sent : CM bool :=
  do n <- gets (fun k => k.(st).(recv_acked));
  if n >? 0 then
    do err <- TCP_EVENT_SENT n;
    if is_abrt err then ret true
    else lift (modify (fun s => s <| recv_acked := 0 |>)) ;; ret false
  else ret false.

Definition input_closed : CM bool :=
  do s <- gets st;
  if on s.(recv_flags) TF_CLOSED then
    (when negb (on s.(pcb).(flags) TF_RXCLOSED) then TCP_EVENT_ERR ERR_CLSD) ;;
    tcp_pcb_remove ;;
    memp_free_pcb ;;
    ret true
  else ret false.

Definition input_data : CM bool :=
  do k <- gets (fun k => k);
  match k.(st).(recv_data) with
  | None => ret false
  | Some p =>
      lift (LWIP_ASSERT (match k.(refused_data) with None => true | Some _ => false end)) ;;
      if on k.(st).(pcb).(flags) TF_RXCLOSED then tcp_abandon true ;; ret true
      else
        do err <- TCP_EVENT_RECV p;
        if is_abrt err then ret true
        else
          (when negb (err_is_ok err) then modify (fun k => k <| refused_data := Some (p, false) |>)) ;;
          ret false
  end.

Definition input_fin : CM bool :=
  do k <- gets (fun k => k);
  if on k.(st).(recv_flags) TF_GOT_FIN then
    match k.(refused_data) with
    | Some (p, _) => modify (fun k => k <| refused_data := Some (p, true) |>) ;; ret false
    | None =>
        correct_rcv_wnd ;;
        do err <- TCP_EVENT_CLOSED;
        ret (is_abrt err)
    end
  else ret false.

(** The next part, unless the connection was aborted. *)
Definition unless_aborted (m k : CM bool) : CM bool := do a <- m; if a : bool then ret true else k.

Definition input_events : CM bool :=
  unless_aborted input_sent (unless_aborted input_closed (unless_aborted input_data (unless_aborted input_fin
    (set_input false ;; lift tcp_output ;; ret false)))).

Definition input_processed (err : err_t) : CM unit :=
  if is_abrt err then ret tt
  else
    do r <- gets (fun k => k.(st).(recv_flags));
    if on r TF_RESET then
      TCP_EVENT_ERR ERR_RST ;;
      tcp_pcb_remove ;;
      memp_free_pcb
    else input_events ;; ret tt.

(** Data that was refused is offered again; a segment with data is dropped
    while it is refused. *)
Definition input_refused : CM bool :=
  do r <- gets refused_data;
  match r with
  | None => ret false
  | Some _ =>
      do err <- tcp_process_refused_data;
      if is_abrt err then ret true
      else
        do k <- gets (fun k => k);
        ret (match k.(refused_data) with None => false | Some _ => k.(st).(tcplen) >? 0 end)
  end.

Definition tcp_input (g : segment) : CM unit :=
  lift (setup_inseg g) ;;
  do dropped <- input_refused;
  (if dropped : bool then ret tt
   else
     set_input true ;;
     do err <- tcp_process g.(s_opts);
     input_processed err) ;;
  set_input false ;;
  lift (modify (fun s => s <| recv_data := None |> <| inseg_p := false |>)).

(** ** Others *)

Definition tcp_timewait_input : CM unit :=
  do s <- gets st;
  let c := s.(pcb) in
  if on s.(hdr_flags) TCP_RST then ret tt
  else if on s.(hdr_flags) TCP_SYN && TCP_SEQ_BETWEEN s.(seqno) c.(rcv_nxt) (u32 (c.(rcv_nxt) + c.(rcv_wnd))) then
    tcp_rst s.(ackno) (s.(seqno) + s.(tcplen))
  else
    (when negb (on s.(hdr_flags) TCP_SYN) && on s.(hdr_flags) TCP_FIN then cset (fun c => c <| tmr := s.(tcp_ticks) |>)) ;;
    when s.(tcplen) >? 0 then
      (cset (fun c => c <| flags := c.(flags) .| TF_ACK_NOW |>) ;;
       lift tcp_output ;;
       ret tt).

(** What [tcp_fasttmr] does for a connection. *)
Definition tcp_fasttmr : CM unit :=
  do c <- cget (fun c => c);
  (when on c.(flags) TF_ACK_DELAY then
     (lift tcp_ack_now ;;
      lift tcp_output ;;
      cset (fun c => c <| flags := off_bits c.(flags) (TF_ACK_DELAY .| TF_ACK_NOW) |>))) ;;
  do r <- gets refused_data;
  match r with
  | None => ret tt
  | Some _ => tcp_process_refused_data ;; ret tt
  end.
End TcpConn.
