(* ===== verification/TcpStream.v ===== *)
(** * The TCP receiver delivers the stream

    A sender cuts a stream of bytes, which may end in a FIN, into segments; they
    arrive in any order, overlapping and more than once.  [rx] relates the state
    of the receiver to the position in the stream it has reached. *)

From Stdlib Require Import ZArith List Lia Bool.
From S2P Require Import Prelude Pbuf TcpIn.
Import ListNotations.
Open Scope Z_scope.
Open Scope c_scope.

(** ** Bits *)

Lemma on_bit n x : 0 <= n -> on x (2 ^ n) = Z.testbit x n.
Proof. intros Hn. unfold on. rewrite land_pow2 by assumption. destruct (Z.testbit x n); [|reflexivity]. now rewrite (proj2 (Z.eqb_neq _ _)) by (apply Z.pow_nonzero; lia). Qed.

Lemma on_lor n x y : 0 <= n -> on (x .| y) (2 ^ n) = on x (2 ^ n) || Z.testbit y n.
Proof. intros Hn. rewrite !on_bit by assumption. apply Z.lor_spec. Qed.

Lemma on_off n x y : 0 <= n -> on (off_bits x y) (2 ^ n) = on x (2 ^ n) && negb (Z.testbit y n).
Proof. intros Hn. rewrite !on_bit by assumption. apply Z.ldiff_spec. Qed.

(** FIN and SYN. *)
Lemma on_fin_syn f : on f (TCP_FIN .| TCP_SYN) = on f TCP_FIN || on f TCP_SYN.
Proof.
  unfold on. rewrite Z.land_lor_distr_r. destruct (Z.eqb_spec (f .& TCP_FIN) 0) as [E1|E1], (Z.eqb_spec (f .& TCP_SYN) 0) as [E2|E2]; cbn [negb orb].
  - now rewrite E1, E2.
  - apply negb_true_iff, Z.eqb_neq. intros E. now apply Z.lor_eq_0_iff in E.
  - apply negb_true_iff, Z.eqb_neq. intros E. now apply Z.lor_eq_0_iff in E.
  - apply negb_true_iff, Z.eqb_neq. intros E. now apply Z.lor_eq_0_iff in E.
Qed.

(** ** Chains *)

Lemma concat_cut p : forall n, concat (cut n p) = firstn (Z.to_nat n) (concat p).
Proof.
  induction p as [|b t IH]; intros n; cbn [cut concat]; [now rewrite firstn_nil|]. unfold len_of. rewrite firstn_app. destruct (Z.gtb_spec n (Z.of_nat (length b))) as [Hl|Hl].
  - cbn [concat]. rewrite IH, (firstn_all2 b) by lia. do 2 f_equal. lia.
  - cbn [concat]. rewrite app_nil_r. replace (Z.to_nat n - length b)%nat with 0%nat by lia. now rewrite app_nil_r.
Qed.

Lemma concat_realloc p n : concat (pbuf_realloc p n) = firstn (Z.to_nat n) (concat p).
Proof. unfold pbuf_realloc, tot_len. destruct (Z.geb_spec n (Z.of_nat (length (concat p)))); [now rewrite firstn_all2 by lia|apply concat_cut]. Qed.

Lemma skip_front_spec p : forall off, 0 <= off <= tot_len p -> p <> [] -> exists p', skip_front off p = Some p' /\ concat p' = skipn (Z.to_nat off) (concat p).
Proof.
  unfold tot_len. induction p as [|b t IH]; intros off Ho Hp; [contradiction|]. cbn [skip_front concat pbuf_header] in *. rewrite length_app in Ho. unfold len_of.
  rewrite skipn_app. destruct (Z.ltb_spec (Z.of_nat (length b)) off) as [Hl|Hl].
  - destruct t as [|b2 t]; [cbn [concat length] in Ho; lia|]. destruct (IH (off - Z.of_nat (length b))) as (p' & E & C); [lia|discriminate|]. rewrite E. eexists. split; [reflexivity|].
    cbn [concat app]. rewrite C, (skipn_all2 b) by lia. cbn [app]. f_equal. lia.
  - destruct (Z.gtb_spec off (Z.of_nat (length b))); [lia|]. eexists. split; [reflexivity|]. cbn [concat]. f_equal.
    replace (Z.to_nat off - length b)%nat with 0%nat by lia. reflexivity.
Qed.

(** ** Positions and sequence numbers *)

Lemma s32_eq x d : (x - d) mod 4294967296 = 0 -> -2147483648 <= d < 2147483648 -> s32 x = d.
Proof.
  intros Hm Hd. unfold s32, u32. apply Z.mod_divide in Hm; [|lia]. destruct Hm as [k Hk]. replace x with (d + k * 4294967296) by lia. rewrite Z_mod_plus_full.
  destruct (Z.ltb_spec d 0) as [Hn|Hn].
  - replace (d mod 4294967296) with (d + 4294967296) by (apply (Z.mod_unique _ _ (-1)); lia). destruct (Z.ltb_spec (d + 4294967296) 2147483648); lia.
  - rewrite Z.mod_small by lia. destruct (Z.ltb_spec d 2147483648); lia.
Qed.

Section Stream.
Context (isn : Z) (data : list Z).

(** The sequence number of a position. *)
Definition q (a : Z) : Z := u32 (isn + a).
Definition total : Z := Z.of_nat (length data).
Definition slice (a n : Z) : list Z := firstn (Z.to_nat n) (skipn (Z.to_nat a) data).

Lemma q_add a n : u32 (q a + n) = q (a + n).
Proof. unfold q, u32. rewrite Zplus_mod_idemp_l. f_equal. lia. Qed.
Lemma q_sub a n : u32 (q a - n) = q (a - n).
Proof. rewrite <- Z.add_opp_r. apply q_add. Qed.
Lemma q_u32 a : u32 (q a) = q a.
Proof. apply u32_id, u32_ok. Qed.
Lemma q_diff a b : -2147483648 <= a - b < 2147483648 -> s32 (q a - q b) = a - b.
Proof.
  intros H. apply s32_eq; [|exact H]. unfold q, u32. pose proof (Z.div_mod (isn + a) 4294967296 ltac:(lia)). pose proof (Z.div_mod (isn + b) 4294967296 ltac:(lia)).
  apply Z.mod_divide; [lia|]. exists ((isn + b) / 4294967296 - (isn + a) / 4294967296). lia.
Qed.
Lemma q_inj a b : -2147483648 <= a - b < 2147483648 -> (q a =? q b) = (a =? b).
Proof.
  intros H. destruct (Z.eqb_spec a b) as [->|Hn]; [apply Z.eqb_refl|]. apply Z.eqb_neq. intros E. pose proof (q_diff a b H) as Hd. rewrite E, Z.sub_diag in Hd. change (s32 0) with 0 in Hd. lia.
Qed.
Lemma q_sub_q a b : 0 <= a - b < 4294967296 -> u32 (q a - q b) = a - b.
Proof.
  intros H. unfold q, u32. rewrite Zminus_mod_idemp_l, Zminus_mod_idemp_r. replace (isn + a - (isn + b)) with (a - b) by lia. apply Z.mod_small. lia.
Qed.
Lemma u16_diff a b : 0 <= a - b < 65536 -> u16 (q a - q b) = a - b.
Proof.
  intros H. unfold u16, q, u32. rewrite <- (Z.mod_small (a - b) 65536 H). rewrite Zminus_mod, !(Z.mod_mod_divide _ 4294967296 65536) by (now exists 65536).
  rewrite <- Zminus_mod. f_equal. lia.
Qed.
Lemma u16_q a b n : n - (a - b) = 0 -> 0 <= a - b < 65536 -> u16 (q a - q b) = n.
Proof. intros E H. rewrite u16_diff by exact H. lia. Qed.

Definition near (a b : Z) : Prop := -1073741824 <= a - b <= 1073741824.

Lemma seq_lt a b : near a b -> TCP_SEQ_LT (q a) (q b) = (a <? b).
Proof. unfold near, TCP_SEQ_LT. intros H. rewrite q_diff by lia. destruct (Z.ltb_spec a b), (Z.ltb_spec (a - b) 0); reflexivity || lia. Qed.
Lemma seq_leq a b : near a b -> TCP_SEQ_LEQ (q a) (q b) = (a <=? b).
Proof. unfold near, TCP_SEQ_LEQ. intros H. rewrite q_diff by lia. destruct (Z.leb_spec a b), (Z.leb_spec (a - b) 0); reflexivity || lia. Qed.
Lemma seq_gt a b : near a b -> TCP_SEQ_GT (q a) (q b) = (b <? a).
Proof. unfold near, TCP_SEQ_GT. intros H. rewrite q_diff by lia. destruct (Z.ltb_spec b a), (Z.gtb_spec (a - b) 0); reflexivity || lia. Qed.
Lemma seq_geq a b : near a b -> TCP_SEQ_GEQ (q a) (q b) = (b <=? a).
Proof. unfold near, TCP_SEQ_GEQ. intros H. rewrite q_diff by lia. destruct (Z.leb_spec b a), (Z.geb_spec (a - b) 0); reflexivity || lia. Qed.
Lemma seq_between a b c : near a b -> near a c -> TCP_SEQ_BETWEEN (q a) (q b) (q c) = (b <=? a) && (a <=? c).
Proof. intros H1 H2. unfold TCP_SEQ_BETWEEN. now rewrite seq_geq, seq_leq. Qed.

(** *** Slices *)

Lemma firstn_add {A} n k : forall l : list A, firstn (n + k) l = firstn n l ++ firstn k (skipn n l).
Proof. induction n as [|n IH]; intros [|x l]; cbn [firstn skipn Nat.add app]; rewrite ?firstn_nil; [reflexivity..|]. now rewrite IH. Qed.

Lemma slice_length a n : 0 <= a -> 0 <= n -> a + n <= total -> Z.of_nat (length (slice a n)) = n.
Proof. unfold slice, total. intros. rewrite length_firstn, length_skipn. lia. Qed.
Lemma slice_firstn a n k : 0 <= k <= n -> firstn (Z.to_nat k) (slice a n) = slice a k.
Proof. unfold slice. intros. rewrite firstn_firstn. f_equal. lia. Qed.
Lemma slice_skipn a n k : 0 <= a -> 0 <= k <= n -> skipn (Z.to_nat k) (slice a n) = slice (a + k) (n - k).
Proof. unfold slice. intros. rewrite skipn_firstn_comm, skipn_skipn. f_equal; [lia|]. f_equal. lia. Qed.
Lemma slice_app a n k : 0 <= a -> 0 <= n -> 0 <= k -> slice a n ++ slice (a + n) k = slice a (n + k).
Proof.
  unfold slice. intros. replace (Z.to_nat (n + k)) with (Z.to_nat n + Z.to_nat k)%nat by lia. rewrite firstn_add, skipn_skipn. do 3 f_equal. lia.
Qed.
Lemma slice_0 a : slice a 0 = [].
Proof. reflexivity. Qed.
(** ** Segments of the stream *)

Definition fin (g : tcp_seg) : bool := on g.(hflags) TCP_FIN.

(** [g] holds the bytes of the stream from position [a] on; a FIN is behind the
    last byte. *)
Record seg_at (g : tcp_seg) (a : Z) : Prop := {
  sg_pos : 0 <= a;
  sg_seq : g.(hseq) = q a;
  sg_len : 0 <= g.(slen) < 32767;
  sg_end : a + g.(slen) <= total;
  sg_data : concat g.(sp) = slice a g.(slen);
  sg_fin : fin g = true -> a + g.(slen) = total;
  sg_syn : on g.(hflags) TCP_SYN = false }.

Lemma seg_at_unique g a b : total <= 536870912 -> seg_at g a -> seg_at g b -> a = b.
Proof.
  intros Hs [A1 A2 A3 A4 _ _ _] [B1 B2 B3 B4 _ _ _]. assert (E : (q a =? q b) = true) by (rewrite <- A2, <- B2; apply Z.eqb_refl). rewrite q_inj in E by lia. now apply Z.eqb_eq.
Qed.

Lemma tcplen_eq g : on g.(hflags) TCP_SYN = false -> TCP_TCPLEN g = g.(slen) + (if fin g then 1 else 0).
Proof. intros Hs. unfold TCP_TCPLEN. rewrite on_fin_syn, Hs, orb_false_r. reflexivity. Qed.

Lemma seg_tcplen g a : seg_at g a -> TCP_TCPLEN g = g.(slen) + (if fin g then 1 else 0).
Proof. intros H. apply tcplen_eq, (sg_syn _ _ H). Qed.

Lemma seg_tot g a : seg_at g a -> tot_len g.(sp) = g.(slen).
Proof. intros [H1 _ H2 H3 H4 _ _]. unfold tot_len. rewrite H4. apply slice_length; lia. Qed.

(** Keeping the first [n] bytes of a segment without FIN. *)
Lemma seg_cut g a n : seg_at g a -> 0 <= n <= g.(slen) -> fin g = false -> seg_at (g <| slen := n |> <| sp := pbuf_realloc g.(sp) n |>) a.
Proof.
  intros [H1 H2 H3 H4 H5 H6 H7] Hn Hf. split; cbn [hseq slen sp hflags with_field]; try assumption; try lia.
  - rewrite concat_realloc, H5, slice_firstn by lia. reflexivity.
  - unfold fin in *. cbn [hflags with_field]. rewrite Hf. discriminate.
Qed.

Lemma fin_on g : fin (g <| hflags := g.(hflags) .| TCP_FIN |>) = true.
Proof. unfold fin. cbn [hflags with_field]. change TCP_FIN with (2 ^ 0). rewrite on_lor by lia. apply orb_true_r. Qed.
Lemma seg_add_fin g a : seg_at g a -> a + g.(slen) = total -> seg_at (g <| hflags := g.(hflags) .| TCP_FIN |>) a.
Proof.
  intros [H1 H2 H3 H4 H5 H6 H7] Hn. split; cbn [hseq slen sp hflags with_field]; try assumption; [now intros _|].
  change TCP_SYN with (2 ^ 1) in *. rewrite on_lor, H7 by lia. reflexivity.
Qed.
Lemma seg_del_fin g a : seg_at g a -> seg_at (g <| hflags := off_bits g.(hflags) TCP_FIN |>) a /\ fin (g <| hflags := off_bits g.(hflags) TCP_FIN |>) = false.
Proof.
  intros [H1 H2 H3 H4 H5 H6 H7].
  assert (Hf : fin (g <| hflags := off_bits g.(hflags) TCP_FIN |>) = false).
  { unfold fin. cbn [hflags with_field]. change TCP_FIN with (2 ^ 0). rewrite on_off by lia. apply andb_false_r. }
  split; [|exact Hf]. split; try assumption; [rewrite Hf; discriminate|]. cbn [hflags with_field]. change TCP_SYN with (2 ^ 1) in *. now rewrite on_off, H7 by lia.
Qed.

(** A queue of segments between two positions: in order, without overlap, only
    the last one with FIN. *)
Fixpoint queue (lo hi : Z) (l : list tcp_seg) : Prop :=
  match l with
  | [] => True
  | g :: t => exists a, lo <= a /\ seg_at g a /\ 0 < TCP_TCPLEN g /\ a + TCP_TCPLEN g <= hi /\ (fin g = true -> t = []) /\ queue (a + g.(slen)) hi t
  end.

Lemma queue_weaken l : forall lo hi lo' hi', queue lo hi l -> lo' <= lo -> hi <= hi' -> queue lo' hi' l.
Proof.
  induction l as [|g t IH]; intros lo hi lo' hi' Hq Hl Hh; [exact I|]. destruct Hq as (a & H1 & H2 & H3 & H4 & H5 & H6). exists a. split; [lia|]. split; [exact H2|]. split; [exact H3|]. split; [lia|]. split; [exact H5|].
  eapply IH; [exact H6|lia|exact Hh].
Qed.

(** ** The receiver *)

(** The stream is shorter than half a gigabyte, so that positions compare as
    sequence numbers; the first of them is arbitrary. *)
Hypothesis Hsize : total <= 536870912.

Record rx (N : Z) (c : tcp_pcb) : Prop := {
  rx_pos : 0 <= N <= total + 1;
  rx_nxt : c.(rcv_nxt) = q N;
  rx_wnd : 0 <= c.(rcv_wnd) < 65536;
  rx_q : queue (N + 1) (N + c.(rcv_wnd)) c.(ooseq);
  rx_edge : exists E, c.(rcv_ann_right_edge) = q E /\ 0 <= E <= N + c.(rcv_wnd);
  rx_ann : 0 <= c.(rcv_ann_wnd) <= c.(rcv_wnd);
  rx_mss : 0 < c.(mss) < 65536 }.

(** The sender's side of the control block. *)
Definition txv (c : tcp_pcb) := (c.(snd_queuelen), c.(unacked), c.(unsent), c.(cwnd), c.(mss), c.(ssthresh), c.(snd_wnd), c.(snd_buf), c.(snd_nxt), c.(lastack), on c.(flags) TF_INFR).

Ltac seqs := rewrite ?q_add, ?q_sub, ?q_u32; rewrite ?seq_between, ?seq_lt, ?seq_leq, ?seq_gt, ?seq_geq by (unfold near; lia).

Context (NOASSERT : bool) (ack_out : tcp_pcb -> option err_t).
Abbreviation LWIP_ASSERT := (LWIP_ASSERT NOASSERT).

Lemma bind_lassert {B} c (k : unit -> TM B) s : c = true -> bind (LWIP_ASSERT c) k s = k tt s.
Proof. intros ->. unfold TcpIn.LWIP_ASSERT. now destruct NOASSERT. Qed.

(** What [tcp_update_rcv_ann_wnd] may change. *)
Lemma update_ann_spec N s E : s.(pcb).(rcv_nxt) = q N -> s.(pcb).(rcv_ann_right_edge) = q E -> 0 <= N <= total + 1 -> 0 <= s.(pcb).(rcv_wnd) < 65536 ->
  0 <= E <= N + s.(pcb).(rcv_wnd) -> 0 < s.(pcb).(mss) < 65536 ->
  exists v w, tcp_update_rcv_ann_wnd NOASSERT s = Ok (v, s <| pcb := s.(pcb) <| rcv_ann_wnd := w |> |>) /\ 0 <= w <= s.(pcb).(rcv_wnd).
Proof.
  intros Hn He HN Hw HE Hm. unfold tcp_update_rcv_ann_wnd, pget, pset. rewrite bind_gets. cbv zeta. set (c := pcb s) in *. rewrite Hn, He, q_add.
  assert (Hmin : 0 < Z.min (TCP_WND / 2) (mss c) < 65536) by (change (TCP_WND / 2) with 1072; lia). set (m := Z.min (TCP_WND / 2) (mss c)) in *.
  replace (TCP_SEQ_GEQ (q (N + rcv_wnd c)) (q E + m)) with (E + m <=? N + rcv_wnd c).
  2:{ rewrite <- seq_geq by (unfold near; lia). unfold TCP_SEQ_GEQ. rewrite <- (q_add E). f_equal. unfold s32, u32. now rewrite Zminus_mod_idemp_r. }
  destruct (Z.leb_spec (E + m) (N + rcv_wnd c)).
  - eexists _, (rcv_wnd c). split; [reflexivity|lia].
  - rewrite seq_gt by (unfold near; lia). destruct (Z.ltb_spec E N).
    + eexists _, 0. split; [reflexivity|lia].
    + rewrite q_sub_q by lia. rewrite bind_assoc, bind_lassert by (apply Z.leb_le; lia). rewrite u16_id by word_lia. eexists _, (E - N). split; [reflexivity|lia].
Qed.

(** An empty ACK. *)
Lemma empty_ack_spec N s : rx N s.(pcb) -> exists s', tcp_send_empty_ack ack_out s = Ok (tt, s') /\ rx N s'.(pcb) /\ txv s'.(pcb) = txv s.(pcb) /\
  s'.(pcb).(state) = s.(pcb).(state) /\ s'.(pcb).(ooseq) = s.(pcb).(ooseq) /\ s'.(pcb).(rcv_wnd) = s.(pcb).(rcv_wnd) /\
  s'.(inseg) = s.(inseg) /\ s'.(seqno) = s.(seqno) /\ s'.(tcplen) = s.(tcplen) /\ s'.(recv_data) = s.(recv_data) /\ s'.(recv_flags) = s.(recv_flags) /\ s'.(seg_free) = s.(seg_free).
Proof.
  intros [X1 X2 X3 X4 (E & X5 & X6) X7 X8]. unfold tcp_send_empty_ack, pget, pset. rewrite bind_gets.
  assert (Hl : on (s.(pcb).(flags) .| (TF_ACK_DELAY .| TF_ACK_NOW)) TF_INFR = on s.(pcb).(flags) TF_INFR) by (change TF_INFR with (2 ^ 2); rewrite on_lor by lia; apply orb_false_r).
  assert (Ho : on (off_bits s.(pcb).(flags) (TF_ACK_DELAY .| TF_ACK_NOW)) TF_INFR = on s.(pcb).(flags) TF_INFR) by (change TF_INFR with (2 ^ 2); rewrite on_off by lia; apply andb_true_r).
  assert (HE : exists E0, u32 (rcv_nxt (pcb s) + rcv_ann_wnd (pcb s)) = q E0 /\ 0 <= E0 <= N + rcv_wnd (pcb s)) by (exists (N + rcv_ann_wnd (pcb s)); rewrite X2, q_add; split; [reflexivity|lia]).
  destruct (ack_out (pcb s)) as [[]|]; rewrite ?bind_modify;
    (eexists; split; [reflexivity|]; split; [split; try assumption; now exists E|]; split; [unfold txv; cbn [pcb flags snd_queuelen unacked unsent cwnd mss ssthresh with_field]; now rewrite ?Hl, ?Ho|]; repeat split).
Qed.
(** *** In sequence *)

(** The incoming segment is [g], at position [N]. *)
Record incoming (N : Z) (s : tcp_st) : Prop := {
  in_seg : seg_at s.(inseg) N;
  in_len : 0 < TCP_TCPLEN s.(inseg);
  in_tcplen : s.(tcplen) = TCP_TCPLEN s.(inseg);
  in_seqno : s.(seqno) = q N }.

(** Nothing changed but the incoming segment and the free elements. *)
Record only_seg (s s' : tcp_st) (k : Z) : Prop := {
  os_pcb : s'.(pcb) = s.(pcb);
  os_data : s'.(recv_data) = s.(recv_data);
  os_flags : s'.(recv_flags) = s.(recv_flags);
  os_free : s'.(seg_free) = s.(seg_free) + k }.

Lemma only_seg_trans s1 s2 s3 k k' : only_seg s1 s2 k -> only_seg s2 s3 k' -> only_seg s1 s3 (k + k').
Proof. intros [A1 A2 A3 A4] [B1 B2 B3 B4]. split; congruence || lia. Qed.

Lemma tcplen_u16 g a : seg_at g a -> u16 (TCP_TCPLEN g) = TCP_TCPLEN g.
Proof. intros H. apply u16_id. rewrite (seg_tcplen _ _ H). pose proof (sg_len _ _ H). destruct (fin g); word_lia. Qed.

(** Cutting the incoming segment, which has no FIN. *)
Lemma cut_inseg_spec N s n : incoming N s -> fin s.(inseg) = false -> 0 < n <= s.(inseg).(slen) ->
  exists s', cut_inseg n s = Ok (tt, s') /\ incoming N s' /\ only_seg s s' 0 /\ s'.(tcplen) = n /\ fin s'.(inseg) = false.
Proof.
  intros [A1 A2 A3 A4] Hf Hn. pose proof (sg_len _ _ A1) as Hl. pose proof (seg_cut (inseg s) N n A1 ltac:(lia) Hf) as Hc. set (g' := (inseg s) <| slen := n |> <| sp := _ |>) in Hc.
  assert (Ht : TCP_TCPLEN g' = n) by (rewrite (seg_tcplen _ _ Hc); unfold fin, g' in *; cbn [hflags slen with_field]; rewrite Hf; lia).
  assert (E : cut_inseg n s = Ok (tt, s <| inseg := g' |> <| tcplen := u16 (TCP_TCPLEN g') |>)).
  { unfold g', cut_inseg, set_inseg, set_tcplen, bind, modify. rewrite (u16_id n) by word_lia. pose proof (sg_syn _ _ A1) as Hy.
    destruct s as [[p0 l0 h0 f0] ? ? ? ? ? ? ? ? ? ? ? ? ?]. cbn [inseg hflags slen sp hseq with_field] in *. rewrite Hy. reflexivity. }
  eexists. split; [exact E|]. split; [|split; [split; cbn; lia || reflexivity|]].
  - split; cbn [inseg tcplen seqno with_field]; [exact Hc|lia|exact (tcplen_u16 _ _ Hc)|exact A4].
  - split; [cbn [tcplen with_field]; now rewrite (tcplen_u16 _ _ Hc)|exact Hf].
Qed.

Lemma trim_window_spec N s : incoming N s -> s.(pcb).(rcv_nxt) = q N -> 0 < s.(pcb).(rcv_wnd) < 65536 ->
  exists s', trim_to_window NOASSERT s = Ok (tt, s') /\ incoming N s' /\ only_seg s s' 0 /\ s'.(tcplen) = Z.min s.(tcplen) s.(pcb).(rcv_wnd).
Proof.
  intros A Hn Hw. unfold trim_to_window. rewrite bind_gets. cbv zeta. destruct (Z.gtb_spec (tcplen s) (rcv_wnd (pcb s))) as [Hg|Hg].
  2:{ exists s. split; [reflexivity|]. split; [exact A|]. split; [split; lia || reflexivity|lia]. }
  pose proof (in_tcplen _ _ A) as Ht. pose proof (seg_tcplen _ _ (in_seg _ _ A)) as Htl.
  assert (Hs1 : exists s1, (when on (hflags (inseg s)) TCP_FIN then set_inseg (fun g => g <| hflags := off_bits g.(hflags) TCP_FIN |>)) s = Ok (tt, s1) /\
    incoming N (s1 <| tcplen := TCP_TCPLEN s1.(inseg) |>) /\ only_seg s s1 0 /\ fin s1.(inseg) = false /\ s1.(inseg).(slen) = s.(inseg).(slen)).
  { destruct A as [A1 A2 A3 A4]. pose proof (sg_len _ _ A1) as Hl. unfold fin in *. destruct (on (hflags (inseg s)) TCP_FIN) eqn:Ef.
    - eexists. split; [reflexivity|]. destruct (seg_del_fin _ _ A1) as [D1 D2]. split; [|split; [split; cbn; lia || reflexivity|split; [exact D2|reflexivity]]].
      split; [exact D1| |reflexivity|exact A4]. change (0 < TCP_TCPLEN ((inseg s) <| hflags := off_bits (hflags (inseg s)) TCP_FIN |>)). rewrite (seg_tcplen _ _ D1), D2. cbn [slen with_field]. lia.
    - exists s. split; [reflexivity|]. split; [|split; [split; lia || reflexivity|split; [exact Ef|reflexivity]]]. now split. }
  destruct Hs1 as (s1 & E1 & A1 & O1 & F1 & L1). rewrite (bind_ok _ _ _ _ _ E1).
  destruct (cut_inseg_spec N (s1 <| tcplen := TCP_TCPLEN s1.(inseg) |>) (rcv_wnd (pcb s)) A1 F1) as (s2 & E2 & A2 & O2 & T2 & F2); [cbn [inseg with_field]; rewrite L1; destruct (fin (inseg s)); lia|].
  assert (E2' : cut_inseg (rcv_wnd (pcb s)) s1 = Ok (tt, s2)) by exact E2. rewrite (bind_ok _ _ _ _ _ E2'), bind_gets. unfold TcpIn.LWIP_ASSERT.
  exists s2. split; [|split; [exact A2|split; [|lia]]].
  - rewrite (in_seqno _ _ A2), T2, Hn, Z.eqb_refl. now destruct NOASSERT.
  - destruct O1 as [O1 O1' O1'' O1'''], O2 as [O2 O2' O2'' O2''']. cbn in O2, O2', O2'', O2'''. split; congruence || lia.
Qed.

(** Segments covered by the incoming one leave the queue; what is left begins
    with one that reaches further. *)
Lemma drop_covered_spec N hi l : forall s lo, incoming N s -> queue lo hi l -> N < lo -> hi - N < 65536 -> N + TCP_TCPLEN s.(inseg) <= hi -> (fin s.(inseg) = true -> l = []) ->
  exists s' l', drop_covered l s = Ok (l', s') /\ incoming N s' /\ only_seg s s' (Z.of_nat (length l) - Z.of_nat (length l')) /\
    queue lo hi l' /\ N + TCP_TCPLEN s'.(inseg) <= hi /\ TCP_TCPLEN s.(inseg) <= TCP_TCPLEN s'.(inseg) /\ (fin s'.(inseg) = true -> l' = []) /\
    match l' with [] => True | next :: _ => exists b, seg_at next b /\ N < b /\ N + TCP_TCPLEN s'.(inseg) < b + next.(slen) end.
Proof.
  induction l as [|next rest IH]; intros s lo A Hq Hlo Hhi Hle Hfin; cbn [drop_covered].
  { exists s, []. split; [reflexivity|]. split; [exact A|]. split; [split; cbn; lia || reflexivity|]. split; [exact I|]. split; [exact Hle|]. split; [lia|]. now split. }
  rewrite bind_gets. pose proof Hq as Hq0. destruct Hq as (b & Hb & Hs & Hl & Hbh & Hlast & Hrest). pose proof (in_tcplen _ _ A) as Ht. pose proof (seg_tcplen _ _ (in_seg _ _ A)) as Htl. pose proof (seg_tcplen _ _ Hs) as Hnl.
  pose proof (sg_len _ _ (in_seg _ _ A)) as Hg. pose proof (sg_len _ _ Hs) as Hgn. pose proof (sg_end _ _ (in_seg _ _ A)) as Hge.
  rewrite (in_seqno _ _ A), (sg_seq _ _ Hs), Ht. rewrite !q_add, seq_geq by (unfold near; destruct (fin next), (fin (inseg s)); lia).
  assert (Hf : fin (inseg s) = false) by (destruct (fin (inseg s)); [specialize (Hfin eq_refl); discriminate Hfin|reflexivity]). rewrite Hf in Htl.
  destruct (Z.leb_spec (b + slen next) (N + TCP_TCPLEN (inseg s))) as [Hc|Hc].
  2:{ exists s, (next :: rest). split; [reflexivity|]. split; [exact A|]. split; [split; lia || reflexivity|]. split; [exact Hq0|]. split; [exact Hle|]. split; [lia|].
      split; [rewrite Hf; discriminate|]. exists b. split; [exact Hs|lia]. }
  rewrite (sg_syn _ _ (in_seg _ _ A)), andb_true_r. fold (fin next). destruct (fin next) eqn:Efn.
  - specialize (Hlast eq_refl). subst rest. pose proof (sg_fin _ _ Hs Efn) as Hend. unfold set_inseg, set_tcplen, tcp_seg_free. rewrite bind_assoc, !bind_modify. cbn [drop_covered].
    pose proof (seg_add_fin _ _ (in_seg _ _ A) ltac:(lia)) as Ha. set (g' := (inseg s) <| hflags := _ |>) in Ha.
    assert (Hgl : TCP_TCPLEN g' = slen (inseg s) + 1) by (rewrite (seg_tcplen _ _ Ha); unfold g'; now rewrite fin_on).
    exists (s <| inseg := g' |> <| tcplen := u16 (TCP_TCPLEN g') |> <| seg_free := seg_free s + 1 |>), []. split; [reflexivity|].
    split; [split; [exact Ha|change (0 < TCP_TCPLEN g'); lia|exact (tcplen_u16 _ _ Ha)|exact (in_seqno _ _ A)]|]. split; [split; reflexivity|]. split; [exact I|].
    split; [change (N + TCP_TCPLEN g' <= hi); lia|]. split; [change (TCP_TCPLEN (inseg s) <= TCP_TCPLEN g'); lia|]. now split.
  - rewrite bind_ret. unfold tcp_seg_free. rewrite bind_modify. set (s1 := s <| seg_free := _ |>). assert (A1 : incoming N s1) by (destruct A; now split).
    destruct (IH s1 (b + slen next) A1 Hrest) as (s' & l' & E & A' & O & Q & H1 & H2 & H3 & H4); [lia|exact Hhi|exact Hle|unfold s1; cbn [inseg with_field]; rewrite Hf; discriminate|].
    exists s', l'. split; [exact E|]. split; [exact A'|]. split; [destruct O as [O1 O2 O3 O4]; unfold s1 in *; cbn [pcb recv_data recv_flags seg_free with_field] in *; split; try assumption; cbn [length]; lia|].
    split; [eapply queue_weaken; [exact Q|lia|lia]|]. split; [exact H1|]. split; [exact H2|]. now split.
Qed.
Lemma segs_free_spec l : forall s, exists s', tcp_segs_free l s = Ok (tt, s') /\ s' = s <| seg_free := s.(seg_free) + Z.of_nat (length l) |>.
Proof.
  induction l as [|g l IH]; intros s; cbn [tcp_segs_free].
  - exists s. split; [reflexivity|]. destruct s. cbn. now rewrite Z.add_0_r.
  - unfold tcp_seg_free. rewrite bind_modify. destruct (IH (s <| seg_free := seg_free s + 1 |>)) as (s' & E & ->). eexists. split; [exact E|]. replace (seg_free s + Z.of_nat (length (g :: l))) with (seg_free s + 1 + Z.of_nat (length l)) by (cbn [length]; lia). reflexivity.
Qed.

Lemma adjust_spec N hi s : incoming N s -> queue (N + 1) hi s.(pcb).(ooseq) -> hi - N < 65536 -> N + TCP_TCPLEN s.(inseg) <= hi ->
  exists s' l', adjust_ooseq NOASSERT s = Ok (tt, s') /\ incoming N s' /\ s'.(pcb) = s.(pcb) <| ooseq := l' |> /\ s'.(recv_data) = s.(recv_data) /\ s'.(recv_flags) = s.(recv_flags) /\
    s'.(seg_free) + Z.of_nat (length l') = s.(seg_free) + Z.of_nat (length s.(pcb).(ooseq)) /\
    N + TCP_TCPLEN s'.(inseg) <= hi /\ queue (N + TCP_TCPLEN s'.(inseg)) hi l' /\ (fin s'.(inseg) = true -> l' = []) /\
    (TCP_TCPLEN s.(inseg) <= TCP_TCPLEN s'.(inseg) \/ exists next rest, l' = next :: rest /\ next.(hseq) = q (N + TCP_TCPLEN s'.(inseg)) /\
      TCP_TCPLEN s.(inseg) < TCP_TCPLEN s'.(inseg) + next.(slen)).
Proof.
  intros A Hq Hhi Hle. unfold adjust_ooseq, pset. rewrite bind_gets. cbv zeta. destruct (ooseq (pcb s)) as [|g0 t0] eqn:Eq.
  { exists s, []. split; [reflexivity|]. split; [exact A|]. split; [destruct s as [? ? ? ? ? ? ? ? ? ? c ? ? ?]; destruct c; cbn in Eq |- *; now rewrite Eq|].
    split; [reflexivity|]. split; [reflexivity|]. split; [reflexivity|]. split; [exact Hle|]. split; [exact I|]. split; [reflexivity|left; lia]. }
  rewrite <- Eq in *. clear Eq g0 t0. set (l := ooseq (pcb s)) in *. destruct (on (hflags (inseg s)) TCP_FIN) eqn:Ef.
  { destruct (segs_free_spec l s) as (s1 & E1 & Es1). rewrite (bind_ok _ _ _ _ _ E1). eexists _, []. split; [reflexivity|]. subst s1. cbn [inseg pcb recv_data recv_flags seg_free with_field length].
    split; [destruct A; now split|]. split; [reflexivity|]. split; [reflexivity|]. split; [reflexivity|]. split; [lia|]. split; [exact Hle|]. split; [exact I|]. split; [reflexivity|left; lia]. }
  destruct (drop_covered_spec N hi l s (N + 1) A Hq ltac:(lia) Hhi Hle) as (s1 & l' & E1 & A1 & O1 & Q1 & Hle1 & Hge1 & Hf1 & Hb); [unfold fin; rewrite Ef; discriminate|].
  rewrite (bind_ok _ _ _ _ _ E1). destruct l' as [|next rest].
  { rewrite bind_ret. eexists _, []. split; [reflexivity|]. destruct O1 as [O1 O2 O3 O4]. cbn [inseg pcb recv_data recv_flags seg_free with_field length] in *.
    split; [destruct A1; now split|]. rewrite O1. split; [reflexivity|]. split; [exact O2|]. split; [exact O3|]. split; [lia|]. split; [exact Hle1|]. split; [exact I|]. split; [reflexivity|left; lia]. }
  destruct Hb as (b & Eb & Hnb & Hreach). destruct Q1 as (b' & Hb' & Hs & Hl & Hbh & Hlast & Hrest).
  rewrite (seg_at_unique _ _ _ Hsize Eb Hs) in *. clear b Eb. rename b' into b. pose proof (sg_seq _ _ Hs) as Eb. pose proof (sg_pos _ _ (in_seg _ _ A)) as HN. pose proof (sg_end _ _ Hs) as Hend.
  rewrite bind_assoc, bind_gets, (in_seqno _ _ A1), (in_tcplen _ _ A1), Eb, q_add. assert (Hf1' : fin (inseg s1) = false) by (destruct (fin (inseg s1)); [specialize (Hf1 eq_refl); discriminate Hf1|reflexivity]).
  pose proof (seg_tcplen _ _ (in_seg _ _ A1)) as Ht1. rewrite Hf1' in Ht1. pose proof (sg_len _ _ (in_seg _ _ A1)) as HL1. pose proof (sg_end _ _ (in_seg _ _ A1)) as HE1. pose proof (sg_len _ _ Hs) as HLn. rewrite seq_gt by (unfold near; lia). destruct (Z.ltb_spec b (N + TCP_TCPLEN (inseg s1))) as [Hov|Hov].
  - assert (Hcut : u16 (q b - q N) = b - N) by (apply u16_diff; lia).
    destruct (cut_inseg_spec N s1 (b - N) A1 Hf1' ltac:(lia)) as (s2 & E2 & A2 & O2 & T2 & F2).
    assert (E2' : cut_inseg (q b - q N) s1 = Ok (tt, s2)).
    { rewrite <- E2. unfold cut_inseg, set_inseg. rewrite !bind_modify. rewrite Hcut, (u16_id (b - N)) by word_lia. reflexivity. }
    rewrite bind_assoc, (bind_ok _ _ _ _ _ E2'), bind_assoc, bind_gets. rewrite bind_lassert by (rewrite (in_seqno _ _ A2), T2, q_add; replace (N + (b - N)) with b by lia; apply Z.eqb_refl).
    eexists _, (next :: rest). split; [reflexivity|]. pose proof (in_tcplen _ _ A2) as T2'. rewrite T2 in T2'. destruct O1 as [O1 O1' O1'' O1'''], O2 as [O2 O2' O2'' O2'''].
    cbn [inseg pcb recv_data recv_flags seg_free with_field] in *. rewrite <- T2'. replace (N + (b - N)) with b by lia.
    split; [destruct A2; now split|]. rewrite O2, O1. split; [reflexivity|]. split; [congruence|]. split; [congruence|]. split; [lia|]. split; [lia|].
    split; [exists b; split; [lia|]; split; [exact Hs|]; split; [exact Hl|]; split; [exact Hbh|]; split; [exact Hlast|exact Hrest]|]. split; [rewrite F2; discriminate|]. right. exists next, rest. split; [reflexivity|]. split; [exact Eb|lia].
  - rewrite bind_ret. eexists _, (next :: rest). split; [reflexivity|]. destruct O1 as [O1 O1' O1'' O1''']. cbn [inseg pcb recv_data recv_flags seg_free with_field] in *.
    split; [destruct A1; now split|]. rewrite O1. split; [reflexivity|]. split; [congruence|]. split; [congruence|]. split; [lia|]. split; [exact Hle1|].
    split; [exists b; split; [lia|]; split; [exact Hs|]; split; [exact Hl|]; split; [exact Hbh|]; split; [exact Hlast|exact Hrest]|]. split; [exact Hf1|left; lia].
Qed.
Definition bytes_of (s : tcp_st) : list Z := match s.(recv_data) with Some d => concat d | None => [] end.
Definition got_fin (s : tcp_st) : bool := on s.(recv_flags) TF_GOT_FIN.

(** The bytes of the stream before a position: a FIN takes a position, but is
    no byte. *)
Definition upto (N : Z) : Z := Z.min N total.

(** The part of [rx] that holds while the queue is worked off. *)
Record rx_at (N hi : Z) (c : tcp_pcb) : Prop := {
  ra_pos : 0 <= N <= total + 1;
  ra_nxt : c.(rcv_nxt) = q N;
  ra_wnd : 0 <= c.(rcv_wnd) < 65536 /\ N + c.(rcv_wnd) = hi;
  ra_edge : exists E, c.(rcv_ann_right_edge) = q E /\ 0 <= E <= hi;
  ra_ann : 0 <= c.(rcv_ann_wnd) <= c.(rcv_wnd);
  ra_mss : 0 < c.(mss) < 65536 }.

Lemma fin_lor x : on (x .| TF_GOT_FIN) TF_GOT_FIN = true.
Proof. change TF_GOT_FIN with (2 ^ 5). rewrite on_lor by lia. apply orb_true_r. Qed.

(** Taking one segment that is in sequence. *)
Lemma take_segment N hi g s : rx_at N hi s.(pcb) -> seg_at g N -> 0 < TCP_TCPLEN g -> N + TCP_TCPLEN g <= hi ->
  exists v w, let c' := s.(pcb) <| rcv_nxt := q (N + TCP_TCPLEN g) |> <| rcv_wnd := s.(pcb).(rcv_wnd) - TCP_TCPLEN g |> <| rcv_ann_wnd := w |> in
    rx_at (N + TCP_TCPLEN g) hi c' /\
    tcp_update_rcv_ann_wnd NOASSERT (s <| pcb := s.(pcb) <| rcv_nxt := q (N + TCP_TCPLEN g) |> <| rcv_wnd := s.(pcb).(rcv_wnd) - TCP_TCPLEN g |> |>) = Ok (v, s <| pcb := c' |>).
Proof.
  intros [X1 X2 [X3 X3'] (E & X4 & X5) X6 X7] Hs Hl Hle. pose proof (seg_tcplen _ _ Hs) as Ht. pose proof (sg_end _ _ Hs) as He. pose proof (sg_len _ _ Hs) as Hlen. pose proof (sg_fin _ _ Hs) as Hf.
  assert (HN : N + TCP_TCPLEN g <= total + 1) by (destruct (fin g); [specialize (Hf eq_refl)|]; lia).
  set (s1 := s <| pcb := _ |>). destruct (update_ann_spec (N + TCP_TCPLEN g) s1 E) as (v & w & Eu & Hw); unfold s1; cbn [pcb rcv_nxt rcv_ann_right_edge rcv_wnd mss with_field]; try assumption; try lia; try reflexivity.
  exists v, w. cbv zeta. split.
  - unfold s1 in Hw. cbn [pcb rcv_wnd with_field] in Hw. split; cbn [rcv_nxt rcv_wnd rcv_ann_right_edge rcv_ann_wnd mss with_field]; try assumption; try lia; try reflexivity. now exists E.
  - exact Eu.
Qed.

Lemma upto_slice l N n M N' : 0 <= N -> upto M = N + n -> 0 <= n -> N + n <= total -> M <= N' -> (l ++ slice N n) ++ slice (upto M) (upto N' - upto M) = l ++ slice (upto N) (upto N' - upto N).
Proof.
  intros H1 H2 H3 H4 H5. assert (E : upto N = N) by (unfold upto; lia). rewrite E, H2, <- app_assoc, slice_app by (unfold upto in *; lia). do 2 f_equal. lia.
Qed.

(** The data and the FIN of a queued segment go to the application. *)
Lemma deliver_spec N g s : seg_at g N -> exists s1 s2,
  (when tot_len g.(sp) >? 0 then modify (fun s => s <| recv_data := match s.(recv_data) with Some d => Some (d ++ g.(sp)) | None => Some g.(sp) end |>)) s = Ok (tt, s1) /\
  (when on g.(hflags) TCP_FIN then (modify (fun s => s <| recv_flags := s.(recv_flags) .| TF_GOT_FIN |>) ;;
     modify (fun s => s <| pcb := match s.(pcb).(state) with ESTABLISHED => s.(pcb) <| state := CLOSE_WAIT |> | _ => s.(pcb) end |>))) s1 = Ok (tt, s2) /\
  bytes_of s2 = bytes_of s ++ slice N g.(slen) /\ got_fin s2 = got_fin s || fin g /\ s2.(seg_free) = s.(seg_free) /\
  exists st, s2.(pcb) = s.(pcb) <| state := st |> /\ (fin g = false -> st = s.(pcb).(state)).
Proof.
  intros Hs. rewrite (seg_tot _ _ Hs). pose proof (sg_len _ _ Hs) as Hl.
  assert (H1 : exists s1, (when slen g >? 0 then modify (fun s => s <| recv_data := match s.(recv_data) with Some d => Some (d ++ g.(sp)) | None => Some g.(sp) end |>)) s = Ok (tt, s1) /\
    bytes_of s1 = bytes_of s ++ slice N (slen g) /\ recv_flags s1 = recv_flags s /\ seg_free s1 = seg_free s /\ pcb s1 = pcb s).
  { destruct (Z.gtb_spec (slen g) 0) as [Hg|Hg].
    - eexists. split; [reflexivity|]. split; [|repeat split]. unfold bytes_of. cbn [recv_data with_field]. destruct (recv_data s); cbn [concat]; rewrite ?concat_app, (sg_data _ _ Hs); reflexivity.
    - exists s. split; [reflexivity|]. replace (slen g) with 0 by lia. rewrite slice_0, app_nil_r. repeat split. }
  destruct H1 as (s1 & E1 & B1 & F1 & S1 & P1). exists s1. fold (fin g). destruct (fin g) eqn:Ef.
  - eexists. split; [exact E1|]. split; [reflexivity|]. split; [exact B1|]. split; [unfold got_fin; cbn [recv_flags with_field]; rewrite fin_lor; now rewrite orb_true_r|]. split; [exact S1|].
    cbn [pcb with_field]. rewrite P1. exists (match state (pcb s) with ESTABLISHED => CLOSE_WAIT | x => x end). split; [destruct (pcb s) as [[] ? ? ? ? ? ? ? ? ? ? ? ? ? ? ? ? ? ? ? ? ? ? ? ? ? ? ? ? ? ? ?]; reflexivity|discriminate].
  - exists s1. split; [exact E1|]. split; [reflexivity|]. split; [exact B1|]. split; [unfold got_fin; rewrite F1; now rewrite orb_false_r|]. split; [exact S1|]. exists (state (pcb s)). rewrite P1.
    split; [now destruct (pcb s)|reflexivity].
Qed.

Lemma dequeue_spec hi l : forall s N, rx_at N hi s.(pcb) -> s.(pcb).(ooseq) = l -> queue N hi l ->
  exists s' N', dequeue NOASSERT l s = Ok (tt, s') /\ rx_at N' hi s'.(pcb) /\ queue (N' + 1) hi s'.(pcb).(ooseq) /\ N <= N' /\
    bytes_of s' = bytes_of s ++ slice (upto N) (upto N' - upto N) /\ got_fin s' = got_fin s || ((N <=? total) && (total <? N')) /\
    (N' <= total -> s'.(pcb).(state) = s.(pcb).(state)) /\ txv s'.(pcb) = txv s.(pcb) /\ s'.(seg_free) + Z.of_nat (length s'.(pcb).(ooseq)) = s.(seg_free) + Z.of_nat (length l) /\
    match l with [] => True | next :: _ => next.(hseq) = q N -> N + TCP_TCPLEN next <= N' end.
Proof.
  induction l as [|g rest IH]; intros s N X Ho Hq; cbn [dequeue].
  { exists s, N. rewrite Ho, Z.sub_diag, slice_0, app_nil_r. split; [reflexivity|]. split; [exact X|]. split; [exact I|]. split; [lia|]. split; [reflexivity|].
    split; [|split; [reflexivity|split; [reflexivity|split; [reflexivity|exact I]]]]. destruct (Z.leb_spec N total), (Z.ltb_spec total N); try lia; now rewrite orb_false_r. }
  pose proof Hq as Hq0. destruct Hq as (a & Ha & Hs & Hl & Hah & Hlast & Hrest). unfold pget at 1. rewrite bind_gets, (ra_nxt _ _ _ X), (sg_seq _ _ Hs).
  pose proof (ra_pos _ _ _ X) as HN. pose proof (sg_end _ _ Hs) as He. pose proof (sg_len _ _ Hs) as Hlen. rewrite q_inj by lia. destruct (Z.eqb_spec a N) as [->|Hne].
  2:{ exists s, N. rewrite Ho, Z.sub_diag, slice_0, app_nil_r. split; [reflexivity|]. split; [exact X|]. split; [exists a; split; [lia|exact (proj2 (conj I (proj2 (conj I (conj Hs (conj Hl (conj Hah (conj Hlast Hrest)))))))) ]|].
      split; [lia|]. split; [reflexivity|]. split; [destruct (Z.leb_spec N total), (Z.ltb_spec total N); try lia; now rewrite orb_false_r|]. split; [reflexivity|]. split; [reflexivity|]. split; [reflexivity|].
      intros E. exfalso. assert (Hb : (q a =? q N) = true) by (rewrite E; apply Z.eqb_refl). rewrite q_inj in Hb by lia. apply Z.eqb_eq in Hb. lia. }
  set (s0 := s <| seqno := q N |>). destruct (take_segment N hi g s0 X Hs Hl Hah) as (v & w & X1 & Eu). cbv zeta in X1. set (c' := (pcb s0) <| rcv_nxt := _ |> <| rcv_wnd := _ |> <| rcv_ann_wnd := w |>) in *.
  unfold pset, pget. rewrite !bind_modify, bind_gets. destruct (ra_wnd _ _ _ X) as [Hw Hw']. rewrite bind_lassert by (cbn [pcb rcv_wnd with_field]; apply Z.geb_le; lia). rewrite bind_modify.
  match goal with |- context [bind (tcp_update_rcv_ann_wnd _) _ ?x] => replace x with (s0 <| pcb := (pcb s0) <| rcv_nxt := q (N + TCP_TCPLEN g) |> <| rcv_wnd := rcv_wnd (pcb s0) - TCP_TCPLEN g |> |>) end.
  2:{ cbn [pcb rcv_wnd rcv_nxt with_field]. rewrite (ra_nxt _ _ _ X), q_add, u16_id by (word_lia). reflexivity. }
  rewrite (bind_ok _ _ _ _ _ Eu).
  destruct (deliver_spec N g (s0 <| pcb := c' |>) Hs) as (t1 & t2 & E1 & E2 & D1 & D2 & D3 & st & D4 & D5). rewrite (bind_ok _ _ _ _ _ E1), (bind_ok _ _ _ _ _ E2). unfold tcp_seg_free. rewrite !bind_modify.
  match goal with |- context [dequeue _ rest ?x] => set (t3 := x) end. pose proof (sg_fin _ _ Hs) as Hfin. pose proof (seg_tcplen _ _ Hs) as Ht.
  destruct (IH t3 (N + TCP_TCPLEN g)) as (s' & N' & E & X' & Q' & H1 & H2 & H3 & H4 & H5 & H6 & _).
  { unfold t3. cbn [pcb with_field]. rewrite D4. destruct X1. now split. }
  { reflexivity. }
  { destruct (fin g) eqn:Ef; [now rewrite (Hlast eq_refl)|]. rewrite Ht, Z.add_0_r. exact Hrest. }
  exists s', N'. split; [exact E|]. split; [exact X'|]. split; [exact Q'|]. split; [lia|].
  change (bytes_of t3) with (bytes_of t2) in H2. change (got_fin t3) with (got_fin t2) in H3. change (state (pcb t3)) with (state (pcb t2)) in H4. change (txv (pcb t3)) with (txv (pcb t2)) in H5.
  change (seg_free t3) with (seg_free t2 + 1) in H6. rewrite D1 in H2. rewrite D2 in H3. rewrite D4 in H4, H5. rewrite D3 in H6.
  change (bytes_of (s0 <| pcb := c' |>)) with (bytes_of s) in H2. change (got_fin (s0 <| pcb := c' |>)) with (got_fin s) in H3.
  assert (Hup : upto (N + TCP_TCPLEN g) = N + slen g) by (unfold upto; destruct (fin g); [specialize (Hfin eq_refl)|]; lia).
  split; [rewrite H2; apply upto_slice; lia|].
  split; [rewrite H3; destruct (fin g), (got_fin s); cbn [orb]; try reflexivity; destruct (Z.leb_spec N total), (Z.ltb_spec total N'), (Z.leb_spec (N + TCP_TCPLEN g) total); try reflexivity; exfalso; try specialize (Hfin eq_refl); lia|].
  split; [intros Hle; rewrite (H4 Hle); apply D5; destruct (fin g); [specialize (Hfin eq_refl); lia|reflexivity]|].
  split; [rewrite H5; reflexivity|]. split; [rewrite H6; cbn [length]; change (seg_free (s0 <| pcb := c' |>)) with (seg_free s); lia|]. intros _. lia.
Qed.

Lemma rx_of N hi c : rx_at N hi c -> queue (N + 1) hi c.(ooseq) -> rx N c.
Proof. intros [X1 X2 [X3 X3'] (E & X4 & X5) X6 X7] Hq. subst hi. split; try assumption. exists E. now split. Qed.

Lemma ack_bits c : on (if on c.(flags) TF_ACK_DELAY then off_bits c.(flags) TF_ACK_DELAY .| TF_ACK_NOW else c.(flags) .| TF_ACK_DELAY) TF_INFR = on c.(flags) TF_INFR.
Proof. change TF_INFR with (2 ^ 2). destruct (on (flags c) TF_ACK_DELAY); rewrite ?on_lor, ?on_off by lia; cbn [negb]; now rewrite ?andb_true_r, ?orb_false_r. Qed.

Lemma tcp_ack_spec s : exists f, tcp_ack s = Ok (tt, s <| pcb := s.(pcb) <| flags := f |> |>) /\ txv (s.(pcb) <| flags := f |>) = txv s.(pcb).
Proof.
  eexists. split; [|unfold txv; cbn [flags snd_queuelen unacked unsent cwnd mss ssthresh with_field]; rewrite ack_bits; reflexivity].
  unfold tcp_ack, pset, modify. destruct (on (flags (pcb s)) TF_ACK_DELAY); reflexivity.
Qed.

(** The segment that comes first in the window, without its queue. *)
Lemma first_segment N hi s : rx_at N hi s.(pcb) -> incoming N s -> N + TCP_TCPLEN s.(inseg) <= hi -> s.(recv_data) = None -> s.(recv_flags) = 0 ->
  exists s', (forall B (k : TM B), (pset (fun c => c <| rcv_nxt := u32 (s.(seqno) + s.(tcplen)) |>) ;; LWIP_ASSERT (s.(pcb).(rcv_wnd) >=? s.(tcplen)) ;;
      pset (fun c => c <| rcv_wnd := u16 (c.(rcv_wnd) - s.(tcplen)) |>) ;; tcp_update_rcv_ann_wnd NOASSERT ;;
      (when tot_len s.(inseg).(sp) >? 0 then modify (fun s => s <| recv_data := Some s.(inseg).(sp) |> <| inseg_p := false |>)) ;;
      (when on s.(inseg).(hflags) TCP_FIN then modify (fun s => s <| recv_flags := s.(recv_flags) .| TF_GOT_FIN |>)) ;; k) s = k s') /\
    rx_at (N + TCP_TCPLEN s.(inseg)) hi s'.(pcb) /\ bytes_of s' = slice N s.(inseg).(slen) /\ got_fin s' = fin s.(inseg) /\
    s'.(pcb).(ooseq) = s.(pcb).(ooseq) /\ s'.(pcb).(state) = s.(pcb).(state) /\ txv s'.(pcb) = txv s.(pcb) /\ s'.(seg_free) = s.(seg_free).
Proof.
  intros X [A1 A2 A3 A4] Hle Hd Hf. destruct (ra_wnd _ _ _ X) as [X3 X3'].
  destruct (take_segment N _ (inseg s) s X A1 A2 Hle) as (v & w & X' & Eu). cbv zeta in X'. set (c' := (pcb s) <| rcv_nxt := _ |> <| rcv_wnd := _ |> <| rcv_ann_wnd := w |>) in *.
  assert (Hc : forall B (k : Z -> TM B), (pset (fun c => c <| rcv_nxt := u32 (s.(seqno) + s.(tcplen)) |>) ;; LWIP_ASSERT (s.(pcb).(rcv_wnd) >=? s.(tcplen)) ;;
      pset (fun c => c <| rcv_wnd := u16 (c.(rcv_wnd) - s.(tcplen)) |>) ;; bind (tcp_update_rcv_ann_wnd NOASSERT) k) s = k v (s <| pcb := c' |>)).
  { intros B k. unfold pset. rewrite bind_modify, A4, A3, q_add, bind_lassert by (apply Z.geb_le; lia). rewrite bind_modify.
    match goal with |- bind (tcp_update_rcv_ann_wnd _) _ ?x = _ => replace x with (s <| pcb := (pcb s) <| rcv_nxt := q (N + TCP_TCPLEN (inseg s)) |> <| rcv_wnd := rcv_wnd (pcb s) - TCP_TCPLEN (inseg s) |> |>) end.
    - apply (bind_ok _ _ _ _ _ Eu).
    - cbn [pcb rcv_wnd rcv_nxt with_field]. rewrite u16_id by word_lia. reflexivity. }
  rewrite (seg_tot _ _ A1). fold (fin (inseg s)). pose proof (sg_len _ _ A1) as Hl.
  assert (B : bytes_of s = []) by (unfold bytes_of; now rewrite Hd). assert (G : got_fin s = false) by (unfold got_fin; now rewrite Hf).
  assert (D : concat (sp (inseg s)) = slice N (slen (inseg s))) by exact (sg_data _ _ A1).
  destruct (Z.gtb_spec (slen (inseg s)) 0) as [Hg|Hg]; [|replace (slen (inseg s)) with 0 by lia]; rewrite ?slice_0;
    (destruct (fin (inseg s)); (eexists; split; [intros T k; rewrite Hc; rewrite ?bind_modify, ?bind_ret; reflexivity|]; split; [exact X'|]; split; [exact D || exact B|]; split; [exact G || exact (fin_lor _)|]; repeat split)).
Qed.

Lemma in_sequence_spec N s : rx N s.(pcb) -> seg_at s.(inseg) N -> 0 < TCP_TCPLEN s.(inseg) -> s.(seqno) = q N -> s.(recv_data) = None -> s.(recv_flags) = 0 -> 0 < s.(pcb).(rcv_wnd) ->
  exists s' N', receive_in_sequence NOASSERT s = Ok (tt, s') /\ rx N' s'.(pcb) /\ N' + s'.(pcb).(rcv_wnd) = N + s.(pcb).(rcv_wnd) /\
    N + Z.min (TCP_TCPLEN s.(inseg)) s.(pcb).(rcv_wnd) <= N' /\ bytes_of s' = slice (upto N) (upto N' - upto N) /\ got_fin s' = (total <? N') /\
    (N' <= total -> s'.(pcb).(state) = s.(pcb).(state)) /\ txv s'.(pcb) = txv s.(pcb) /\
    s'.(seg_free) + Z.of_nat (length s'.(pcb).(ooseq)) = s.(seg_free) + Z.of_nat (length s.(pcb).(ooseq)).
Proof.
  intros X Hs Hl Hq Hd Hf Hw. pose proof (rx_wnd _ _ X) as Hwnd. unfold receive_in_sequence, set_tcplen. rewrite bind_modify. set (s0 := s <| tcplen := _ |>).
  assert (A0 : incoming N s0) by (split; [exact Hs|exact Hl|exact (tcplen_u16 _ _ Hs)|exact Hq]).
  destruct (trim_window_spec N s0 A0 (rx_nxt _ _ X) ltac:(change (pcb s0) with (pcb s); lia)) as (s1 & E1 & A1 & O1 & T1). rewrite (bind_ok _ _ _ _ _ E1).
  pose proof (in_tcplen _ _ A1) as T1'. change (pcb s0) with (pcb s) in T1. change (tcplen s0) with (u16 (TCP_TCPLEN (inseg s))) in T1. rewrite (tcplen_u16 _ _ Hs) in T1.
  destruct O1 as [O1 O1' O1'' O1''']. change (pcb s0) with (pcb s) in O1. change (recv_data s0) with (recv_data s) in O1'. change (recv_flags s0) with (recv_flags s) in O1''. change (seg_free s0) with (seg_free s) in O1'''.
  destruct (adjust_spec N (N + rcv_wnd (pcb s)) s1 A1) as (s2 & l' & E2 & A2 & P2 & D2 & F2 & S2 & Hle2 & Q2 & Hfin2 & Hprog); [rewrite O1; exact (rx_q _ _ X)|lia|lia|].
  rewrite (bind_ok _ _ _ _ _ E2), bind_gets. rewrite O1 in P2, S2.
  assert (X2 : rx_at N (N + rcv_wnd (pcb s)) (pcb s2)) by (rewrite P2; destruct X; split; try assumption; split; [assumption|reflexivity]).
  destruct (first_segment N _ s2 X2 A2 Hle2) as (s3 & E3 & X3 & B3 & G3 & Q3 & St3 & Tx3 & S3); [congruence|congruence|]. rewrite E3.
  unfold pget. rewrite bind_gets, Q3. replace (ooseq (pcb s2)) with l' by now rewrite P2.
  destruct (dequeue_spec _ l' s3 _ X3) as (s4 & N' & E4 & X4 & Q4 & H1 & H2 & H3 & H4 & H5 & H6 & H7); [now rewrite Q3, P2|exact Q2|]. rewrite (bind_ok _ _ _ _ _ E4).
  destruct (tcp_ack_spec s4) as (f & E5 & Tx5). rewrite E5. eexists _, N'. split; [reflexivity|]. cbn [pcb seg_free with_field].
  pose proof (in_seg _ _ A2) as Hs2. pose proof (seg_tcplen _ _ Hs2) as Ht2. pose proof (sg_end _ _ Hs2) as He2. pose proof (sg_len _ _ Hs2) as Hl2. pose proof (sg_fin _ _ Hs2) as Hf2. pose proof (sg_pos _ _ Hs2) as Hp2.
  assert (Hup : upto (N + TCP_TCPLEN (inseg s2)) = N + slen (inseg s2)) by (unfold upto; destruct (fin (inseg s2)); [specialize (Hf2 eq_refl)|]; lia).
  split; [pose proof (rx_of _ _ _ X4 Q4) as Xr; destruct Xr; now split|]. split; [exact (proj2 (ra_wnd _ _ _ X4))|].
  split; [destruct Hprog as [Hprog|(next & rest & -> & Eb & Hprog)]; [lia|]; specialize (H7 Eb); destruct Q2 as (b & _ & Hsn & _); pose proof (seg_tcplen _ _ Hsn); destruct (fin next); lia|].
  split; [change (bytes_of _) with (bytes_of s4); rewrite H2, B3; apply (upto_slice []); lia|].
  split; [change (got_fin _) with (got_fin s4); rewrite H3, G3; destruct (fin (inseg s2)); cbn [orb]; [specialize (Hf2 eq_refl)|]; destruct (Z.ltb_spec total N'), (Z.leb_spec (N + TCP_TCPLEN (inseg s2)) total); try reflexivity; exfalso; lia|].
  split; [intros Hle; cbn [state with_field]; rewrite (H4 Hle), St3, P2; reflexivity|]. split; [refine (eq_trans Tx5 _); rewrite H5, Tx3, P2; reflexivity|]. cbn [ooseq with_field]. lia.
Qed.

(** *** Out of sequence *)

Definition with_free (s : tcp_st) (k : Z) : tcp_st := s <| seg_free := s.(seg_free) + k |>.

Lemma with_free_0 s : with_free s 0 = s.
Proof. unfold with_free. rewrite Z.add_0_r. now destruct s. Qed.
Lemma with_free_free s k k' : with_free (with_free s k) k' = with_free s (k + k').
Proof. unfold with_free. cbn [seg_free with_field]. rewrite Z.add_assoc. now destruct s. Qed.

Lemma queue_cons a hi g t : seg_at g a -> 0 < TCP_TCPLEN g -> a + TCP_TCPLEN g <= hi -> (fin g = true -> t = []) -> queue (a + g.(slen)) hi t -> queue a hi (g :: t).
Proof. intros H1 H2 H3 H4 H5. exists a. split; [lia|]. split; [exact H1|]. split; [exact H2|]. split; [exact H3|]. split; [exact H4|exact H5]. Qed.

(** The segment with what follows it in the queue. *)
Lemma oos_covered_spec hi a l : forall s lo cseg, seg_at cseg a -> 0 < TCP_TCPLEN cseg -> a + TCP_TCPLEN cseg <= hi -> queue lo hi l -> a < lo -> s.(seqno) = q a -> (fin cseg = true -> l = []) ->
  exists l', oos_covered cseg l s = Ok (l', with_free s (Z.of_nat (length l) + 1 - Z.of_nat (length l'))) /\ queue a hi l' /\ l' <> [].
Proof.
  induction l as [|next rest IH]; intros s lo cseg Hs Hl Hh Hq Hlo Hn Hf; cbn [oos_covered].
  { exists [cseg]. cbn [length]. rewrite with_free_0. split; [reflexivity|]. split; [|discriminate]. exact (queue_cons a hi cseg [] Hs Hl Hh (fun _ => eq_refl) I). }
  rewrite bind_gets, Hn. pose proof Hq as Hq0. destruct Hq as (b & Hb & Hsn & Hln & Hbh & Hlast & Hrest).
  pose proof (sg_len _ _ Hs) as L1. pose proof (sg_end _ _ Hs) as L2. pose proof (sg_pos _ _ Hs) as L3. pose proof (sg_len _ _ Hsn) as L4. pose proof (sg_end _ _ Hsn) as L5.
  assert (Hfc : fin cseg = false) by (destruct (fin cseg); [specialize (Hf eq_refl); discriminate Hf|reflexivity]). pose proof (seg_tcplen _ _ Hs) as Ht. rewrite Hfc in Ht.
  rewrite (sg_seq _ _ Hsn), !q_add, seq_geq, seq_gt by (unfold near; lia). destruct (Z.leb_spec (b + slen next) (a + slen cseg)) as [Hc|Hc].
  - unfold tcp_seg_free. rewrite bind_modify. change (s <| seg_free := seg_free s + 1 |>) with (with_free s 1). fold (fin next). destruct (fin next) eqn:Efn.
    + specialize (Hlast eq_refl). subst rest. cbn [oos_covered]. pose proof (sg_fin _ _ Hsn Efn) as He. pose proof (seg_add_fin _ _ Hs ltac:(lia)) as Ha. exists [cseg <| hflags := hflags cseg .| TCP_FIN |>]. split; [reflexivity|]. split; [|discriminate].
      pose proof (seg_tcplen _ _ Hsn) as Htn. rewrite Efn in Htn. pose proof (seg_tcplen _ _ Ha) as Hta. rewrite fin_on in Hta. change (slen (cseg <| hflags := hflags cseg .| TCP_FIN |>)) with (slen cseg) in Hta.
      apply queue_cons; [exact Ha|lia|lia|now intros _|exact I].
    + destruct (IH (with_free s 1) (b + slen next) cseg Hs Hl Hh Hrest ltac:(lia) Hn) as (l' & E & Q & Hne); [rewrite Hfc; discriminate|]. exists l'. rewrite E, with_free_free.
      split; [do 3 f_equal; cbn [length]; lia|]. now split.
  - destruct (Z.ltb_spec b (a + slen cseg)) as [Ho|Ho].
    + rewrite u16_diff by lia. pose proof (seg_cut cseg a (b - a) Hs ltac:(lia) Hfc) as Hcut. exists (cseg <| slen := b - a |> <| sp := pbuf_realloc (sp cseg) (b - a) |> :: next :: rest).
      split; [unfold ret; cbn [length]; rewrite <- (with_free_0 s) at 1; do 3 f_equal; lia|]. split; [|discriminate].
      assert (Hfc' : fin (cseg <| slen := b - a |> <| sp := pbuf_realloc (sp cseg) (b - a) |>) = false) by exact Hfc. pose proof (seg_tcplen _ _ Hcut) as Hct. rewrite Hfc' in Hct.
      change (slen (cseg <| slen := b - a |> <| sp := pbuf_realloc (sp cseg) (b - a) |>)) with (b - a) in Hct. apply queue_cons; [exact Hcut|lia|lia|rewrite Hfc'; discriminate|].
      change (slen (cseg <| slen := b - a |> <| sp := pbuf_realloc (sp cseg) (b - a) |>)) with (b - a). replace (a + (b - a)) with b by lia. exists b. split; [lia|]. exact (proj2 (conj I (conj Hsn (conj Hln (conj Hbh (conj Hlast Hrest)))))).
    + exists (cseg :: next :: rest). split; [unfold ret; cbn [length]; rewrite <- (with_free_0 s) at 1; do 3 f_equal; lia|]. split; [|discriminate]. apply queue_cons; [exact Hs|exact Hl|exact Hh|rewrite Hfc; discriminate|].
      exists b. split; [lia|]. exact (proj2 (conj I (conj Hsn (conj Hln (conj Hbh (conj Hlast Hrest)))))).
Qed.

(** Inserting before a queue that begins behind the segment, or at the same
    position with fewer bytes. *)
Lemma oos_insert_spec hi a l lo s cseg : seg_at cseg a -> 0 < TCP_TCPLEN cseg -> a + TCP_TCPLEN cseg <= hi -> queue lo hi l -> s.(seqno) = q a ->
  a < lo \/ (exists next rest, l = next :: rest /\ seg_at next a /\ next.(slen) < cseg.(slen)) ->
  exists l', tcp_oos_insert_segment cseg l s = Ok (l', with_free s (Z.of_nat (length l) + 1 - Z.of_nat (length l'))) /\ queue a hi l' /\ l' <> [].
Proof.
  intros Hs Hl Hh Hq Hn Hw. unfold tcp_oos_insert_segment. destruct (on (hflags cseg) TCP_FIN) eqn:Ef.
  { destruct (segs_free_spec l s) as (s' & E & ->). rewrite (bind_ok _ _ _ _ _ E). exists [cseg].
    split; [replace (Z.of_nat (length l) + 1 - Z.of_nat (length [cseg])) with (Z.of_nat (length l)) by (cbn [length]; lia); reflexivity|]. split; [|discriminate].
    exact (queue_cons a hi cseg [] Hs Hl Hh (fun _ => eq_refl) I). }
  destruct Hw as [Hw|(next & rest & -> & Hsn & Hlt)]; [apply (oos_covered_spec hi a l s lo cseg); try assumption; unfold fin; rewrite Ef; discriminate|].
  destruct Hq as (b & Hb & Hsn' & Hln & Hbh & Hlast & Hrest). rewrite (seg_at_unique _ _ _ Hsize Hsn' Hsn) in *. clear b Hsn'.
  cbn [oos_covered]. rewrite bind_gets, Hn, (sg_seq _ _ Hsn), !q_add. pose proof (sg_len _ _ Hs) as L1. pose proof (sg_len _ _ Hsn) as L4. pose proof (sg_end _ _ Hs) as L2.
  rewrite seq_geq by (unfold near; lia). rewrite (proj2 (Z.leb_le _ _)) by lia. unfold tcp_seg_free. rewrite bind_modify. change (s <| seg_free := seg_free s + 1 |>) with (with_free s 1). fold (fin next).
  destruct (fin next) eqn:Efn; [exfalso; pose proof (sg_fin _ _ Hsn Efn); lia|]. pose proof (seg_tcplen _ _ Hsn) as Htn. rewrite Efn in Htn.
  destruct (oos_covered_spec hi a rest (with_free s 1) (a + slen next) cseg Hs Hl Hh Hrest ltac:(lia) Hn) as (l' & E & Q & Hne); [unfold fin; rewrite Ef; discriminate|].
  exists l'. rewrite E, with_free_free. split; [do 3 f_equal; cbn [length]; lia|]. now split.
Qed.
(** A queued segment cut where the next one begins. *)
Lemma cut_seg_spec g b a hi : seg_at g b -> fin g = false -> 0 < TCP_TCPLEN g -> b + TCP_TCPLEN g <= hi -> b < a -> a <= total -> exists n, 0 < n <= g.(slen) /\ b + n <= a /\
  seg_at (cut_seg g (q a)) b /\ fin (cut_seg g (q a)) = false /\ (cut_seg g (q a)).(slen) = n /\ TCP_TCPLEN (cut_seg g (q a)) = n.
Proof.
  intros Hs Hf Hl Hh Hlt Ha. pose proof (seg_tcplen _ _ Hs) as Ht. rewrite Hf in Ht. pose proof (sg_len _ _ Hs) as L1. pose proof (sg_end _ _ Hs) as L2. pose proof (sg_pos _ _ Hs) as L3.
  unfold cut_seg. rewrite (sg_seq _ _ Hs), q_add, seq_gt by (unfold near; lia). destruct (Z.ltb_spec a (b + slen g)) as [Hc|Hc].
  - rewrite u16_diff by lia. pose proof (seg_cut g b (a - b) Hs ltac:(lia) Hf) as Hcut. assert (Hf' : fin (g <| slen := a - b |> <| sp := pbuf_realloc (sp g) (a - b) |>) = false) by exact Hf.
    exists (a - b). split; [lia|]. split; [lia|]. split; [exact Hcut|]. split; [exact Hf'|]. split; [reflexivity|]. rewrite (seg_tcplen _ _ Hcut), Hf'. cbn [slen with_field]. lia.
  - exists (slen g). split; [lia|]. split; [lia|]. split; [exact Hs|]. split; [exact Hf|]. split; [reflexivity|lia].
Qed.

Definition pre (prev : option tcp_seg) (l : list tcp_seg) : list tcp_seg := match prev with Some pv => pv :: l | None => l end.

(** The incoming segment is at [a], behind what is expected, and fits. *)
Record outside (a hi : Z) (s : tcp_st) : Prop := {
  ot_seg : seg_at s.(inseg) a;
  ot_len : 0 < TCP_TCPLEN s.(inseg);
  ot_hi : a + TCP_TCPLEN s.(inseg) <= hi;
  ot_seqno : s.(seqno) = q a;
  ot_tcplen : s.(tcplen) = TCP_TCPLEN s.(inseg);
  ot_wnd : exists N, s.(pcb).(rcv_nxt) = q N /\ N + s.(pcb).(rcv_wnd) = hi /\ 0 <= N <= total + 1 /\ 0 <= s.(pcb).(rcv_wnd) < 65536 }.

Lemma outside_free a hi s k : outside a hi s -> outside a hi (with_free s k).
Proof. intros [H1 H2 H3 H4 H5 H6]. now split. Qed.

Lemma oos_window_spec a hi s : outside a hi s -> oos_window NOASSERT s.(inseg) s = Ok (s.(inseg), s).
Proof.
  intros [H1 H2 H3 H4 H5 (N & H6 & H7 & H8 & H9)]. unfold oos_window. rewrite bind_gets. cbv zeta. pose proof (sg_pos _ _ H1). pose proof (sg_end _ _ H1). pose proof (sg_len _ _ H1). pose proof (seg_tcplen _ _ H1) as Ht.
  rewrite H5, H4, H6, Z.add_comm, !q_add, H7, seq_gt by (unfold near; destruct (fin (inseg s)); lia). now rewrite (proj2 (Z.ltb_ge _ _)) by lia.
Qed.

(** What an insertion leaves: the queue with one segment more, less what it
    covers. *)
Definition inserted (lo hi : Z) (prev : option tcp_seg) (l : list tcp_seg) (s : tcp_st) (r : res (option tcp_seg * list tcp_seg * tcp_st)) : Prop :=
  exists prev' l' k, r = Ok ((prev', l'), with_free s k) /\ queue lo hi (pre prev' l') /\ (prev' = None <-> prev = None) /\
    Z.of_nat (length (pre prev' l')) + k = Z.of_nat (length (pre prev l)) /\ l' <> [].

Lemma inserted_same lo hi prev l s : queue lo hi (pre prev l) -> l <> [] -> inserted lo hi prev l s (Ok ((prev, l), s)).
Proof. intros Hq Hl. exists prev, l, 0. rewrite with_free_0. split; [reflexivity|]. split; [exact Hq|]. split; [now split|]. split; [lia|exact Hl]. Qed.

(** Inserting the incoming segment in front of [l]. *)
Lemma insert_here a hi lo prev l s f : outside a hi s -> queue lo hi (pre prev l) -> l <> [] ->
  (forall l' : list tcp_seg, queue a hi l' -> queue lo hi (pre (f prev) l')) -> (f prev = None <-> prev = None) ->
  (exists lo', queue lo' hi l /\ (a < lo' \/ exists next rest, l = next :: rest /\ seg_at next a /\ next.(slen) < s.(inseg).(slen))) ->
  inserted lo hi prev l s ((do cseg <- tcp_seg_copy s.(inseg);
    match cseg with Some cseg => do l' <- tcp_oos_insert_segment cseg l; ret (f prev, l') | None => ret (prev, l) end) s).
Proof.
  intros O Hq Hl Hpre Hf (lo' & Hq' & Hw). unfold tcp_seg_copy. rewrite bind_assoc, bind_gets. destruct (seg_free s =? 0).
  - rewrite bind_ret. now apply inserted_same.
  - rewrite bind_assoc, bind_modify, bind_ret. change (s <| seg_free := seg_free s - 1 |>) with (with_free s (-1)).
    destruct (oos_insert_spec hi a l lo' (with_free s (-1)) (inseg s) (ot_seg _ _ _ O) (ot_len _ _ _ O) (ot_hi _ _ _ O) Hq' (ot_seqno _ _ _ O) Hw) as (l' & E & Q & Hne).
    rewrite (bind_ok _ _ _ _ _ E), with_free_free. eexists _, l', _. split; [reflexivity|]. split; [exact (Hpre l' Q)|]. split; [exact Hf|]. split; [|exact Hne].
    clear Hpre. set (p' := f prev) in *. clearbody p'. destruct prev, p'; cbn [pre length]; try lia; exfalso; destruct Hf as [Hf1 Hf2]; try (specialize (Hf1 eq_refl); discriminate Hf1); try (specialize (Hf2 eq_refl); discriminate Hf2).
Qed.
(** The segment before the place reached: it begins before [a] and ends before
    the next one, at [b]. *)
Definition before (lo hi a b : Z) (prev : option tcp_seg) : Prop :=
  match prev with
  | None => lo <= b
  | Some pv => exists ap, lo <= ap /\ seg_at pv ap /\ 0 < TCP_TCPLEN pv /\ ap + TCP_TCPLEN pv <= hi /\ fin pv = false /\ ap + slen pv <= b /\ ap < a
  end.
Definition passed (lo a : Z) (prev : option tcp_seg) : Prop := match prev with Some pv => exists ap, seg_at pv ap /\ ap < a | None => lo <= a end.

Lemma before_pre lo hi a b prev l : before lo hi a b prev -> queue b hi l -> queue lo hi (pre prev l).
Proof.
  intros Hb Q. destruct prev as [pv|]; cbn [pre before] in *; [|eapply queue_weaken; [exact Q|lia|lia]]. destruct Hb as (ap & P1 & P2 & P3 & P4 & P5 & P6 & P7).
  eapply queue_weaken; [apply (queue_cons ap hi pv _ P2 P3 P4)|lia|lia]; [rewrite P5; discriminate|]. eapply queue_weaken; [exact Q|lia|lia].
Qed.

Lemma before_cut lo hi a b prev l : before lo hi a b prev -> passed lo a prev -> a <= total -> queue a hi l -> queue lo hi (pre (option_map (fun pv => cut_seg pv (q a)) prev) l).
Proof.
  intros Hb Hp Ha Q. destruct prev as [pv|]; cbn [pre option_map before passed] in *; [|eapply queue_weaken; [exact Q|lia|lia]]. destruct Hb as (ap & P1 & P2 & P3 & P4 & P5 & P6 & P7).
  destruct (cut_seg_spec pv ap a hi P2 P5 P3 P4 P7 Ha) as (n & C1 & C2 & C3 & C4 & C5 & C6). pose proof (seg_tcplen _ _ P2) as Htp. rewrite P5 in Htp.
  eapply queue_weaken; [apply (queue_cons ap hi _ l C3)|lia|lia]; [lia|lia|rewrite C4; discriminate|]. rewrite C5. eapply queue_weaken; [exact Q|lia|lia].
Qed.

Lemma queue_next lo hi a prev next rest : queue lo hi (pre prev (next :: rest)) -> passed lo a prev ->
  exists b, seg_at next b /\ 0 < TCP_TCPLEN next /\ b + TCP_TCPLEN next <= hi /\ (fin next = true -> rest = []) /\ queue (b + slen next) hi rest /\ before lo hi a b prev.
Proof.
  intros Hq Hp. destruct prev as [pv|]; cbn [pre passed before] in *.
  - destruct Hq as (ap & P1 & P2 & P3 & P4 & P5 & b & P6 & P7 & P8 & P9 & P10 & P11). destruct Hp as (ap' & P12 & P13). rewrite (seg_at_unique _ _ _ Hsize P12 P2) in P13.
    exists b. split; [exact P7|]. split; [exact P8|]. split; [exact P9|]. split; [exact P10|]. split; [exact P11|]. exists ap. split; [exact P1|]. split; [exact P2|]. split; [exact P3|]. split; [exact P4|].
    split; [destruct (fin pv); [specialize (P5 eq_refl); discriminate P5|reflexivity]|]. now split.
  - destruct Hq as (b & P6 & P7 & P8 & P9 & P10 & P11). exists b. split; [exact P7|]. split; [exact P8|]. split; [exact P9|]. split; [exact P10|]. split; [exact P11|exact P6].
Qed.

(** Whether the place is before the segment at [b]. *)
Lemma here_spec lo hi a b prev : before lo hi a b prev -> 0 <= a <= total -> 0 <= b <= total -> a <> b ->
  match prev with None => TCP_SEQ_LT (q a) (q b) | Some pv => TCP_SEQ_BETWEEN (q a) (u32 (hseq pv + 1)) (u32 (q b - 1)) end = (a <? b).
Proof.
  intros Hb Ha Hbt Hne. destruct prev as [pv|]; cbn [before] in Hb; [|now rewrite seq_lt by (unfold near; lia)]. destruct Hb as (ap & P1 & P2 & _ & _ & _ & P6 & P7). pose proof (sg_pos _ _ P2). pose proof (sg_len _ _ P2).
  rewrite (sg_seq _ _ P2), q_add, q_sub, seq_between by (unfold near; lia). rewrite (proj2 (Z.leb_le (ap + 1) a)) by lia. cbn [andb]. destruct (Z.leb_spec a (b - 1)), (Z.ltb_spec a b); reflexivity || lia.
Qed.

(** The incoming segment behind the last one. *)
Lemma append_spec lo hi a b prev next s : outside a hi s -> seg_at next b -> 0 < TCP_TCPLEN next -> b + TCP_TCPLEN next <= hi -> before lo hi a b prev -> b < a -> queue lo hi (pre prev [next]) ->
  inserted lo hi prev [next] s ((if on next.(hflags) TCP_FIN then ret (prev, [next]) else do cseg <- tcp_seg_copy s.(inseg);
    match cseg with Some cseg => do cseg <- oos_window NOASSERT cseg; ret (prev, [cut_seg next (q a); cseg]) | None => ret (prev, [next]) end) s).
Proof.
  intros O Hsn Hln Hbh Hb Hba Hq. fold (fin next). destruct (fin next) eqn:Efn; [now apply inserted_same|]. unfold tcp_seg_copy. rewrite bind_assoc, bind_gets. destruct (seg_free s =? 0); [rewrite bind_ret; now apply inserted_same|].
  rewrite bind_assoc, bind_modify, bind_ret. change (s <| seg_free := seg_free s - 1 |>) with (with_free s (-1)). pose proof (oos_window_spec a hi _ (outside_free _ _ _ (-1) O)) as Ew.
  change (inseg (with_free s (-1))) with (inseg s) in Ew. rewrite (bind_ok _ _ _ _ _ Ew). pose proof (sg_end _ _ (ot_seg _ _ _ O)) as G2. pose proof (sg_len _ _ (ot_seg _ _ _ O)) as G3.
  destruct (cut_seg_spec next b a hi Hsn Efn Hln Hbh Hba ltac:(lia)) as (n & C1 & C2 & C3 & C4 & C5 & C6). pose proof (seg_tcplen _ _ Hsn) as Htn. rewrite Efn in Htn.
  eexists prev, _, (-1). split; [reflexivity|]. split; [|split; [now split|split; [destruct prev; cbn [pre length]; lia|discriminate]]].
  apply (before_pre lo hi a b prev _ Hb). apply (queue_cons b hi _ _ C3); [lia|lia|rewrite C4; discriminate|]. rewrite C5. exists a. split; [lia|].
  split; [exact (ot_seg _ _ _ O)|]. split; [exact (ot_len _ _ _ O)|]. split; [exact (ot_hi _ _ _ O)|]. now split.
Qed.

Lemma oos_walk_spec a hi l : forall prev lo s, outside a hi s -> queue lo hi (pre prev l) -> l <> [] -> passed lo a prev -> inserted lo hi prev l s (oos_walk NOASSERT prev l s).
Proof.
  induction l as [|next rest IH]; intros prev lo s O Hq Hne Hprev; [contradiction|]. cbn [oos_walk]. rewrite bind_gets. cbv zeta.
  pose proof (ot_seg _ _ _ O) as Hg. pose proof (sg_pos _ _ Hg) as G1. pose proof (sg_end _ _ Hg) as G2. pose proof (sg_len _ _ Hg) as G3.
  destruct (queue_next _ _ a _ _ _ Hq Hprev) as (b & Hsn & Hln & Hbh & Hlast & Hrest & Hpv). pose proof (sg_pos _ _ Hsn) as N1. pose proof (sg_end _ _ Hsn) as N2. pose proof (sg_len _ _ Hsn) as N3.
  assert (Hqb : queue b hi (next :: rest)) by (apply queue_cons; assumption). rewrite (ot_seqno _ _ _ O), (sg_seq _ _ Hsn), q_inj by lia. destruct (Z.eqb_spec a b) as [Eab|Nab].
  - subst b. destruct (Z.gtb_spec (slen (inseg s)) (slen next)) as [Hgt|Hle]; [|now apply inserted_same].
    apply (insert_here a hi lo prev (next :: rest) s (fun p => p)); try assumption; [|now split|exists a; split; [exact Hqb|right; now exists next, rest]]. intros l' Q. exact (before_pre _ _ _ _ _ _ Hpv Q).
  - rewrite (here_spec lo hi a b prev Hpv ltac:(lia) ltac:(lia) Nab). destruct (Z.ltb_spec a b) as [Hab|Hba].
    + apply (insert_here a hi lo prev (next :: rest) s (option_map (fun pv => cut_seg pv (q a)))); try assumption; [|destruct prev; now split|exists b; split; [exact Hqb|left; exact Hab]].
      intros l' Q. apply (before_cut lo hi a b); try assumption. lia.
    + rewrite seq_gt, (proj2 (Z.ltb_lt b a)) by (unfold near; lia). destruct rest as [|next2 rest2]; [apply (append_spec lo hi a b); try assumption; lia|].
      destruct (IH (Some next) b s O Hqb ltac:(discriminate)) as (prev' & l' & k & E & Q & Hp & Hk & Hl'); [exists b; split; [exact Hsn|lia]|]. rewrite (bind_ok _ _ _ _ _ E).
      destruct prev' as [next'|]; [|exfalso; destruct Hp as [Hp _]; specialize (Hp eq_refl); discriminate Hp]. cbn [pre] in Q, Hk.
      exists prev, (next' :: l'), k. split; [reflexivity|]. split; [|split; [now split|split; [destruct prev; cbn [pre length] in *; lia|discriminate]]]. exact (before_pre _ _ _ _ _ _ Hpv Q).
Qed.

Lemma out_of_sequence_spec N a s : rx N s.(pcb) -> N < a -> outside a (N + s.(pcb).(rcv_wnd)) s -> s.(recv_data) = None ->
  exists s', receive_out_of_sequence NOASSERT ack_out s = Ok (tt, s') /\ rx N s'.(pcb) /\ s'.(pcb).(rcv_wnd) = s.(pcb).(rcv_wnd) /\ s'.(recv_data) = None /\ s'.(recv_flags) = s.(recv_flags) /\
    s'.(pcb).(state) = s.(pcb).(state) /\ txv s'.(pcb) = txv s.(pcb) /\ s'.(seg_free) + Z.of_nat (length s'.(pcb).(ooseq)) = s.(seg_free) + Z.of_nat (length s.(pcb).(ooseq)).
Proof.
  intros X HN O Hd. unfold receive_out_of_sequence. destruct (empty_ack_spec N s X) as (s1 & E1 & X1 & T1 & St1 & Q1 & W1 & I1 & S1 & L1 & D1 & F1 & Fr1). rewrite (bind_ok _ _ _ _ _ E1), bind_gets.
  assert (O1 : outside a (N + rcv_wnd (pcb s)) s1).
  { destruct O as [H1 H2 H3 H4 H5 _]. split; rewrite ?I1, ?S1, ?L1; try assumption. exists N. split; [exact (rx_nxt _ _ X1)|]. rewrite W1. split; [reflexivity|]. split; [exact (rx_pos _ _ X1)|exact (rx_wnd _ _ X)]. }
  pose proof (rx_q _ _ X1) as Hq. rewrite W1 in Hq.
  assert (Hfin : forall l' k, queue (N + 1) (N + rcv_wnd (pcb s)) l' -> Z.of_nat (length l') + k = Z.of_nat (length (ooseq (pcb s1))) ->
    let s' := (with_free s1 k) <| pcb := (pcb s1) <| ooseq := l' |> |> in rx N s'.(pcb) /\ s'.(pcb).(rcv_wnd) = s.(pcb).(rcv_wnd) /\ s'.(recv_data) = None /\ s'.(recv_flags) = s.(recv_flags) /\
    s'.(pcb).(state) = s.(pcb).(state) /\ txv s'.(pcb) = txv s.(pcb) /\ s'.(seg_free) + Z.of_nat (length s'.(pcb).(ooseq)) = s.(seg_free) + Z.of_nat (length s.(pcb).(ooseq))).
  { intros l' k Q Hk. cbv zeta. unfold with_free. cbn [pcb rcv_wnd recv_data recv_flags state seg_free ooseq with_field]. rewrite <- W1 in Q. rewrite Q1 in Hk. split; [destruct X1; now split|]. split; [exact W1|]. split; [congruence|]. split; [exact F1|]. split; [exact St1|].
    split; [exact T1|lia]. }
  destruct (ooseq (pcb s1)) as [|g0 t0] eqn:Eo.
  - unfold tcp_seg_copy, pset. rewrite bind_assoc, bind_gets. destruct (seg_free s1 =? 0).
    + rewrite bind_ret. eexists. split; [reflexivity|]. rewrite <- (with_free_0 s1). apply Hfin; [exact I|reflexivity].
    + rewrite bind_assoc, bind_modify, bind_ret. eexists. split; [reflexivity|]. apply (Hfin [inseg s1] (-1)); [|reflexivity]. destruct O1 as [H1 H2 H3 _ _ _]. exists a. split; [lia|]. split; [exact H1|]. split; [exact H2|]. split; [exact H3|]. now split.
  - destruct (oos_walk_spec a (N + rcv_wnd (pcb s)) (g0 :: t0) None (N + 1) s1 O1 Hq ltac:(discriminate)) as (prev' & l' & k & E & Q & Hp & Hk & _); [cbn; lia|].
    rewrite (bind_ok _ _ _ _ _ E). rewrite (proj2 Hp eq_refl) in *. cbn [pre snd] in *. eexists. split; [reflexivity|]. apply Hfin; assumption.
Qed.

(** *** The data of a segment *)

Lemma skip_front_seg g a n p : seg_at g a -> skip_front n g.(sp) = Some p -> concat p = skipn (Z.to_nat n) (concat g.(sp)) -> 0 <= n <= g.(slen) ->
  seg_at (g <| sp := p |> <| slen := g.(slen) - n |> <| hseq := q (a + n) |>) (a + n).
Proof.
  intros [H1 H2 H3 H4 H5 H6 H7] E C Hn. split; cbn [hseq slen sp hflags with_field]; try lia; try reflexivity; try assumption.
  - rewrite C, H5, slice_skipn by lia. reflexivity.
  - intros Hf. change (fin g = true) in Hf. specialize (H6 Hf). lia.
Qed.

Lemma trim_front_spec N a s : seg_at s.(inseg) a -> s.(inseg).(sp) <> [] -> s.(seqno) = q a -> s.(pcb).(rcv_nxt) = q N -> a < N < a + TCP_TCPLEN s.(inseg) ->
  exists s', trim_front NOASSERT s = Ok (tt, s') /\ seg_at s'.(inseg) N /\ TCP_TCPLEN s'.(inseg) = TCP_TCPLEN s.(inseg) - (N - a) /\ s'.(seqno) = q N /\ s'.(pcb) = s.(pcb) /\
    s'.(recv_data) = s.(recv_data) /\ s'.(recv_flags) = s.(recv_flags) /\ s'.(seg_free) = s.(seg_free).
Proof.
  intros Hs Hp Hq Hn Ha. unfold trim_front. rewrite bind_gets. cbv zeta. pose proof (sg_len _ _ Hs) as L1. pose proof (sg_end _ _ Hs) as L2. pose proof (sg_pos _ _ Hs) as L3. pose proof (seg_tcplen _ _ Hs) as Ht.
  assert (Ho : 0 <= N - a <= slen (inseg s)) by (destruct (fin (inseg s)); lia). rewrite Hq, Hn, q_diff, u16_diff by lia. rewrite !bind_lassert by (rewrite ?(seg_tot _ _ Hs); first [apply Z.ltb_lt|apply Z.leb_le]; lia).
  destruct (skip_front_spec (sp (inseg s)) (N - a)) as (p & Ep & Cp); [rewrite (seg_tot _ _ Hs); lia|exact Hp|]. rewrite Ep. pose proof (skip_front_seg _ a (N - a) p Hs Ep Cp Ho) as Hs'. replace (a + (N - a)) with N in Hs' by lia.
  unfold set_inseg. rewrite bind_modify. eexists. split; [reflexivity|]. cbn [inseg seqno pcb recv_data recv_flags seg_free with_field]. rewrite u16_id by (cbn [slen with_field]; word_lia).
  split; [exact Hs'|]. split; [|repeat split]. match goal with |- TCP_TCPLEN ?g = _ => change g with ((inseg s) <| sp := p |> <| slen := slen (inseg s) - (N - a) |> <| hseq := q N |>) end.
  rewrite (seg_tcplen _ _ Hs'), Ht. change (fin _) with (fin (inseg s)) at 1. cbn [slen with_field]. lia.
Qed.

(** A segment of the stream at [a] that keeps to the window. *)
Record arrived (N a : Z) (s : tcp_st) : Prop := {
  av_seg : seg_at s.(inseg) a;
  av_chain : s.(inseg).(sp) <> [];
  av_len : 0 < TCP_TCPLEN s.(inseg);
  av_tcplen : s.(tcplen) = TCP_TCPLEN s.(inseg);
  av_seqno : s.(seqno) = q a;
  av_fits : N < a < N + s.(pcb).(rcv_wnd) -> a + TCP_TCPLEN s.(inseg) <= N + s.(pcb).(rcv_wnd);
  av_data : s.(recv_data) = None;
  av_flags : s.(recv_flags) = 0 }.

(** What the receiver has done with a segment: it is at [N'] and the bytes up
    to there are with the application. *)
Record advanced (N N' : Z) (s s' : tcp_st) : Prop := {
  ad_rx : rx N' s'.(pcb);
  ad_le : N <= N';
  ad_edge : N' + s'.(pcb).(rcv_wnd) = N + s.(pcb).(rcv_wnd);
  ad_bytes : bytes_of s' = slice (upto N) (upto N' - upto N);
  ad_fin : got_fin s' = (total <? N');
  ad_state : N' <= total -> s'.(pcb).(state) = s.(pcb).(state);
  ad_tx : txv s'.(pcb) = txv s.(pcb);
  ad_free : s'.(seg_free) + Z.of_nat (length s'.(pcb).(ooseq)) = s.(seg_free) + Z.of_nat (length s.(pcb).(ooseq)) }.

Lemma advanced_same N s s' : N <= total -> rx N s'.(pcb) -> s'.(pcb).(rcv_wnd) = s.(pcb).(rcv_wnd) -> s'.(recv_data) = None -> s'.(recv_flags) = 0 -> s'.(pcb).(state) = s.(pcb).(state) -> txv s'.(pcb) = txv s.(pcb) ->
  s'.(seg_free) + Z.of_nat (length s'.(pcb).(ooseq)) = s.(seg_free) + Z.of_nat (length s.(pcb).(ooseq)) -> advanced N N s s'.
Proof.
  intros H0 H1 H2 H3 H4 H5 H6 H7. split; try assumption; try lia.
  - unfold bytes_of. now rewrite H3, Z.sub_diag, slice_0.
  - unfold got_fin. rewrite H4. symmetry. now apply Z.ltb_ge.
  - now intros _.
Qed.

Lemma ack_now_spec N s : rx N s.(pcb) -> exists s', tcp_ack_now s = Ok (tt, s') /\ rx N s'.(pcb) /\ txv s'.(pcb) = txv s.(pcb) /\ s'.(pcb).(state) = s.(pcb).(state) /\ s'.(pcb).(ooseq) = s.(pcb).(ooseq) /\
  s'.(pcb).(rcv_wnd) = s.(pcb).(rcv_wnd) /\ s'.(seqno) = s.(seqno) /\ s'.(recv_data) = s.(recv_data) /\ s'.(recv_flags) = s.(recv_flags) /\ s'.(seg_free) = s.(seg_free).
Proof.
  intros [X1 X2 X3 X4 X5 X6 X7]. eexists. split; [reflexivity|]. split; [now split|]. split; [|repeat split]. unfold txv. cbn [pcb flags snd_queuelen unacked unsent cwnd mss ssthresh with_field].
  change TF_INFR with (2 ^ 2). rewrite on_lor by lia. now rewrite orb_false_r.
Qed.

Lemma receive_data_spec N a s : rx N s.(pcb) -> N <= total -> arrived N a s ->
  exists s' N', receive_data NOASSERT ack_out s = Ok (tt, s') /\ advanced N N' s s' /\ (a <= N -> N + Z.min (a + TCP_TCPLEN s.(inseg) - N) s.(pcb).(rcv_wnd) <= N').
Proof.
  intros X HN [A1 A2 A3 A4 A5 A6 A7 A8]. unfold receive_data. rewrite bind_gets. cbv zeta. pose proof (rx_pos _ _ X) as P. pose proof (rx_wnd _ _ X) as W. pose proof (sg_pos _ _ A1) as L3. pose proof (sg_end _ _ A1) as L2. pose proof (sg_len _ _ A1) as L1.
  pose proof (seg_tcplen _ _ A1) as Ht. assert (Hle : TCP_TCPLEN (inseg s) <= 32767) by (destruct (fin (inseg s)); lia). rewrite A5, A4, (rx_nxt _ _ X).
  rewrite <- (Z.add_opp_r (q a + _)), <- Z.add_assoc, !q_add, seq_between, seq_lt by (unfold near; lia).
  destruct (Z.ltb_spec a N) as [Han|Han]; [destruct (Z.ltb_spec N (a + TCP_TCPLEN (inseg s))) as [Hov|Hov]|].
  - (* the first edge is trimmed *)
    rewrite (proj2 (Z.leb_le _ _)), (proj2 (Z.leb_le _ _)) by lia. cbn [andb].
    destruct (trim_front_spec N a s A1 A2 A5 (rx_nxt _ _ X) ltac:(lia)) as (s1 & E1 & G1 & T1 & Q1 & P1 & D1 & F1 & S1). rewrite (bind_ok _ _ _ _ _ E1), bind_gets, Q1.
    rewrite <- (Z.add_opp_r (q N + _)), <- Z.add_assoc, q_add, seq_between, Z.leb_refl, Z.eqb_refl by (unfold near; lia). cbn [andb]. destruct (Z.leb_spec N (N + (rcv_wnd (pcb s) + - (1)))) as [Hw|Hw].
    + destruct (in_sequence_spec N s1) as (s' & N' & E & R1 & R2 & R3 & R4 & R5 & R6 & R7 & R8); try rewrite P1; try assumption; try lia; try congruence. rewrite P1, T1, S1 in *. exists s', N'. split; [exact E|]. split; [split; try assumption; lia|]. intros _. lia.
    + rewrite <- P1 in X. destruct (empty_ack_spec N s1 X) as (s' & E & R1 & R2 & R3 & R4 & R5 & _ & _ & _ & R9 & R10 & R11). exists s', N. rewrite P1 in *. split; [exact E|]. split; [apply advanced_same; try congruence; try lia; rewrite R11, R4, S1; reflexivity|]. intros _. lia.
  - (* old *)
    rewrite (proj2 (Z.leb_gt _ (a + _))), andb_false_r by lia. destruct (ack_now_spec N s X) as (s1 & E1 & X1 & T1 & St1 & O1 & W1 & Q1 & D1 & F1 & S1). rewrite (bind_ok _ _ _ _ _ E1), bind_gets, Q1, A5.
    rewrite <- (Z.add_opp_r (q N + _)), <- Z.add_assoc, q_add, seq_between by (unfold near; lia). rewrite (proj2 (Z.leb_gt N a)) by lia. cbn [andb].
    destruct (empty_ack_spec N s1 X1) as (s' & E & R1 & R2 & R3 & R4 & R5 & _ & _ & _ & R9 & R10 & R11). exists s', N. split; [exact E|]. split; [apply advanced_same; try congruence; try lia; rewrite R11, R4, O1, S1; reflexivity|]. intros _. lia.
  - rewrite (proj2 (Z.leb_gt (a + 1) N)) by lia. cbn [andb]. rewrite bind_ret, bind_gets, A5. rewrite <- (Z.add_opp_r (q N + _)), <- Z.add_assoc, q_add, seq_between by (unfold near; lia). rewrite (proj2 (Z.leb_le N a)), q_inj by lia. cbn [andb].
    destruct (Z.leb_spec a (N + (rcv_wnd (pcb s) + - (1)))) as [Hw|Hw].
    + destruct (Z.eqb_spec N a) as [->|Hne].
      * destruct (in_sequence_spec a s X A1 A3 A5 A7 A8 ltac:(lia)) as (s' & N' & E & R1 & R2 & R3 & R4 & R5 & R6 & R7 & R8). exists s', N'. split; [exact E|]. split; [split; try assumption; lia|]. intros _. lia.
      * assert (O : outside a (N + rcv_wnd (pcb s)) s) by (split; try assumption; [apply A6; lia|exists N; split; [exact (rx_nxt _ _ X)|]; split; [reflexivity|]; now split]).
        destruct (out_of_sequence_spec N a s X ltac:(lia) O A7) as (s' & E & R1 & R2 & R3 & R4 & R5 & R6 & R7). exists s', N. split; [exact E|]. split; [apply advanced_same; try assumption; congruence|]. lia.
    + destruct (empty_ack_spec N s X) as (s' & E & R1 & R2 & R3 & R4 & R5 & _ & _ & _ & R9 & R10 & R11). exists s', N. split; [exact E|]. split; [apply advanced_same; try congruence; try lia; rewrite R11, R4; reflexivity|]. lia.
Qed.
End Stream.
