(* ===== verification/TcpAck.v ===== *)
(** * Acknowledgements

    What [tcp_receive] does with an acknowledgement, on the sender's side of the
    control block: the queues give up the segments that are acknowledged, and what
    they hold, the pool of segments and the counters stay in agreement. *)

From Stdlib Require Import ZArith List Lia Bool.
From S2P Require Import Prelude Pbuf TcpIn TcpStream.
Import ListNotations.
Open Scope Z_scope.
Open Scope c_scope.

(** ** The queues *)

Definition sum (f : tcp_seg -> Z) (l : list tcp_seg) : Z := fold_right (fun g n => f g + n) 0 l.
Definition pbufs : list tcp_seg -> Z := sum (fun g => pbuf_clen g.(sp)).
Definition lens : list tcp_seg -> Z := sum slen.

(** A segment to be sent occupies sequence numbers and is no reset. *)
Definition seg_ok (g : tcp_seg) : Prop := g.(sp) <> [] /\ 0 <= g.(slen) /\ 0 < TCP_TCPLEN g /\ on g.(hflags) TCP_RST = false.

(** The segments of both queues, their pbufs and their bytes. *)
Definition queued (c : tcp_pcb) : Z := Z.of_nat (length c.(unacked)) + Z.of_nat (length c.(unsent)).
Definition in_flight (c : tcp_pcb) : Z := lens c.(unacked) + lens c.(unsent).

Record tx_ok (c : tcp_pcb) : Prop := {
  tx_pbufs : c.(snd_queuelen) = pbufs c.(unacked) + pbufs c.(unsent);
  tx_max : c.(snd_queuelen) < 65536;
  tx_unacked : Forall seg_ok c.(unacked);
  tx_unsent : Forall seg_ok c.(unsent);
  tx_cwnd : 0 < c.(cwnd) < 65536;
  tx_mss : 0 < c.(mss) <= TCP_MSS;
  tx_ssthresh : 0 <= c.(ssthresh) < 65536;
  tx_wnd : 0 <= c.(snd_wnd) < 65536;
  tx_infr : on c.(flags) TF_INFR = true -> 0 < c.(ssthresh) }.

Lemma pbufs_pos l : Forall seg_ok l -> 0 <= pbufs l /\ (l <> [] -> 0 < pbufs l).
Proof.
  induction 1 as [|g l [Hg _] _ IH]; [split; [cbn; lia|contradiction]|]. unfold pbufs in *. cbn [sum fold_right]. fold (sum (fun g => pbuf_clen g.(sp)) l).
  assert (0 < pbuf_clen (sp g)) by (unfold pbuf_clen; destruct (sp g); [contradiction|cbn [length]; lia]). split; [lia|intros _; lia].
Qed.

Lemma sum_cons f g l : sum f (g :: l) = f g + sum f l.
Proof. reflexivity. Qed.

(** *** Taking the acknowledged segments from the front *)

Fixpoint drop_while (p : tcp_seg -> bool) (l : list tcp_seg) : list tcp_seg :=
  match l with [] => [] | g :: t => if p g then drop_while p t else l end.

Lemma drop_while_Forall p (Q : tcp_seg -> Prop) l : Forall Q l -> Forall Q (drop_while p l).
Proof. induction 1 as [|g l Hg Hl IH]; cbn [drop_while]; [constructor|]. destruct (p g); [exact IH|now constructor]. Qed.

Lemma u16_acc a b : u16 (u16 a + b) = u16 (a + b).
Proof. apply Zplus_mod_idemp_l. Qed.

Lemma bind_pset {B} f (k : unit -> TM B) s : bind (pset f) k s = k tt (s <| pcb := f s.(pcb) |>).
Proof. reflexivity. Qed.
Lemma pset_pset f g s : (pset f ;; pset g) s = pset (fun c => g (f c)) s.
Proof. reflexivity. Qed.

Section Ack.
Context (isn : Z) (data : list Z) (Hsize : total data <= 536870912) (NOASSERT : bool) (ack_out : tcp_pcb -> option err_t).
Abbreviation rx := (rx isn data).

(** What a part of the processing may do: the receiver's side keeps its
    meaning, the segment at hand is untouched, and segments that leave the queues
    are counted. *)
Record ack_step (s s' : tcp_st) : Prop := {
  as_rx : forall N, rx N s.(pcb) -> rx N s'.(pcb);
  as_same : s'.(pcb).(state) = s.(pcb).(state) /\ s'.(pcb).(ooseq) = s.(pcb).(ooseq) /\ s'.(pcb).(rcv_wnd) = s.(pcb).(rcv_wnd);
  as_seg : s'.(inseg) = s.(inseg) /\ s'.(seqno) = s.(seqno) /\ s'.(tcplen) = s.(tcplen) /\ s'.(ackno) = s.(ackno) /\ s'.(hdr_wnd) = s.(hdr_wnd) /\ s'.(hdr_flags) = s.(hdr_flags);
  as_recv : s'.(recv_data) = s.(recv_data) /\ s'.(recv_flags) = s.(recv_flags);
  as_free : s'.(seg_free) + queued s'.(pcb) = s.(seg_free) + queued s.(pcb);
  as_acked : s'.(recv_acked) = u16 (s.(recv_acked) + (in_flight s.(pcb) - in_flight s'.(pcb)));
  as_buf : s'.(pcb).(snd_buf) = s.(pcb).(snd_buf);
  as_nxt : s'.(pcb).(snd_nxt) = s.(pcb).(snd_nxt) }.

Lemma ack_step_refl s : is_u16 s.(recv_acked) -> ack_step s s.
Proof. intros H. split; [auto|repeat split..|reflexivity|rewrite Z.sub_diag, Z.add_0_r; symmetry; now apply u16_id|reflexivity|reflexivity]. Qed.

Lemma ack_step_trans s1 s2 s3 : ack_step s1 s2 -> ack_step s2 s3 -> ack_step s1 s3.
Proof.
  intros [A1 (A2 & A2' & A2'') (A3 & A4 & A5 & A6 & A7 & A7') [A8 A9] A10 A11 A12 A13] [B1 (B2 & B2' & B2'') (B3 & B4 & B5 & B6 & B7 & B7') [B8 B9] B10 B11 B12 B13]. split.
  - auto.
  - repeat split; congruence.
  - repeat split; congruence.
  - split; congruence.
  - lia.
  - rewrite B11, A11, u16_acc. f_equal. lia.
  - congruence.
  - congruence.
Qed.

(** Code that is such a part, from states that satisfy [P]. *)
Definition part (P : tcp_st -> Prop) (m : TM unit) : Prop := forall s, tx_ok s.(pcb) -> is_u16 s.(recv_acked) -> P s ->
  exists s', m s = Ok (tt, s') /\ ack_step s s' /\ tx_ok s'.(pcb) /\ is_u16 s'.(recv_acked).

Definition kept (P : tcp_st -> Prop) : Prop := forall s s', ack_step s s' -> P s -> P s'.

Lemma part_bind (P : tcp_st -> Prop) m k : kept P -> part P m -> part P k -> part P (m ;; k).
Proof.
  intros Hk Hm Hn s Ht Hr Hp. destruct (Hm s Ht Hr Hp) as (s1 & E1 & S1 & T1 & R1). destruct (Hn s1 T1 R1 (Hk _ _ S1 Hp)) as (s2 & E2 & S2 & T2 & R2).
  exists s2. rewrite (bind_ok _ _ _ _ _ E1). split; [exact E2|]. split; [exact (ack_step_trans _ _ _ S1 S2)|]. now split.
Qed.

Lemma part_ret P : part P (ret tt).
Proof. intros s Ht Hr _. exists s. split; [reflexivity|]. split; [now apply ack_step_refl|]. now split. Qed.

Lemma part_when P (b : bool) m : (b = true -> part P m) -> part P (when b then m).
Proof. intros H. destruct b; [auto|apply part_ret]. Qed.

Lemma part_gets {B} (P : tcp_st -> Prop) (f : tcp_st -> B) k : (forall s, P s -> tx_ok s.(pcb) -> part P (k (f s))) -> part P (bind (gets f) k).
Proof. intros H s Ht Hr Hp. rewrite bind_gets. exact (H s Hp Ht s Ht Hr Hp). Qed.

Lemma part_ext P m m' : (forall s, m s = m' s) -> part P m' -> part P m.
Proof. intros E H s Ht Hr Hp. rewrite E. exact (H s Ht Hr Hp). Qed.

(** Fields that only the sender's side uses. *)
Record side (c c' : tcp_pcb) : Prop := {
  sd_rx : (c'.(state), c'.(rcv_nxt), c'.(rcv_wnd), c'.(rcv_ann_wnd), c'.(rcv_ann_right_edge), c'.(mss), c'.(ooseq)) =
          (c.(state), c.(rcv_nxt), c.(rcv_wnd), c.(rcv_ann_wnd), c.(rcv_ann_right_edge), c.(mss), c.(ooseq));
  sd_queues : queued c' = queued c /\ in_flight c' = in_flight c;
  sd_buf : c'.(snd_buf) = c.(snd_buf) /\ c'.(snd_nxt) = c.(snd_nxt) }.

Lemma rx_side N c c' : side c c' -> rx N c -> rx N c'.
Proof. intros [E _ _] [X1 X2 X3 X4 X5 X6 X7]. injection E as E1 E2 E3 E4 E5 E6 E7. split; rewrite ?E2, ?E3, ?E4, ?E5, ?E6, ?E7; assumption. Qed.

Lemma part_pset P f : (forall s, P s -> tx_ok s.(pcb) -> side s.(pcb) (f s.(pcb)) /\ tx_ok (f s.(pcb))) -> part P (pset f).
Proof.
  intros H s Ht Hr Hp. destruct (H s Hp Ht) as [Hs Ht']. eexists. split; [reflexivity|]. split; [|split; [exact Ht'|exact Hr]]. pose proof Hs as [E [Q1 Q2] [Q3 Q4]]. injection E as E1 E2 E3 E4 E5 E6 E7.
  split; cbn [pcb inseg seqno tcplen ackno hdr_wnd hdr_flags recv_data recv_flags seg_free recv_acked with_field]; auto.
  - intros N. now apply rx_side.
  - repeat split.
  - lia.
  - rewrite Q2, Z.sub_diag, Z.add_0_r. symmetry. now apply u16_id.
Qed.

(** [side], and the condition of [part_pset], for updates of the sender's fields. *)
Ltac is_side := split; [reflexivity|split; reflexivity|split; reflexivity].
Ltac tx_side := split; [is_side|].

(** The header field of the window is a 16-bit word. *)
Definition hdr_ok (s : tcp_st) : Prop := 0 <= s.(hdr_wnd) < 65536.
Lemma hdr_kept : kept hdr_ok.
Proof. intros s s' S. unfold hdr_ok. now rewrite (proj1 (proj2 (proj2 (proj2 (proj2 (as_seg _ _ S)))))). Qed.

Lemma insert_sum f seg l : sum f (insert_unsent seg l) = f seg + sum f l.
Proof. induction l as [|x t IH]; cbn [insert_unsent]; [reflexivity|]. destruct (TCP_SEQ_LT (hseq x) (hseq seg)); rewrite ?sum_cons, ?IH; lia. Qed.
Lemma insert_length seg l : length (insert_unsent seg l) = S (length l).
Proof. induction l as [|x t IH]; cbn [insert_unsent]; [reflexivity|]. destruct (TCP_SEQ_LT (hseq x) (hseq seg)); cbn [length]; now rewrite ?IH. Qed.
Lemma insert_Forall (P : tcp_seg -> Prop) seg l : P seg -> Forall P l -> Forall P (insert_unsent seg l).
Proof. intros Hs. induction 1 as [|x t Hx Ht IH]; cbn [insert_unsent]; [now constructor|]. destruct (TCP_SEQ_LT (hseq x) (hseq seg)); constructor; auto. Qed.

(** The control block after [tcp_rexmit]. *)
Definition rexmitted (c : tcp_pcb) : tcp_pcb :=
  match c.(unacked) with
  | [] => c
  | seg :: rest =>
      let c := c <| unacked := rest |> in
      let c := (if goes_last seg c.(unsent) then c <| unsent_oversize := 0 |> else c) <| unsent := insert_unsent seg c.(unsent) |> in
      c <| nrtx := u8 (c.(nrtx) + 1) |> <| rttest := 0 |>
  end.

Lemma rexmitted_side c : tx_ok c -> side c (rexmitted c) /\ tx_ok (rexmitted c) /\ (rexmitted c).(flags) = c.(flags) /\ (rexmitted c).(cwnd) = c.(cwnd) /\ (rexmitted c).(snd_wnd) = c.(snd_wnd) /\ (rexmitted c).(mss) = c.(mss).
Proof.
  intros T. unfold rexmitted. destruct (unacked c) as [|seg rest] eqn:Eu; [split; [is_side|split; [exact T|repeat split]]|]. cbv zeta.
  destruct T as [T1 T2 T3 T4 T5 T6 T7 T8 T9]. rewrite Eu in T1, T3. pose proof (Forall_inv T3) as Hs. apply Forall_inv_tail in T3.
  destruct (goes_last seg (unsent (c <| unacked := rest |>))); (split; [split; [reflexivity| |split; reflexivity]|split; [split; cbn [snd_queuelen unacked unsent cwnd mss ssthresh snd_wnd flags with_field]; try assumption|now repeat split]]);
    try (unfold queued, in_flight, lens; cbn [unacked unsent with_field]; rewrite insert_length, insert_sum, Eu, sum_cons; cbn [length]; split; lia);
    try (unfold pbufs in *; rewrite insert_sum, sum_cons in *; lia); now apply insert_Forall.
Qed.

Lemma side_trans c1 c2 c3 : side c1 c2 -> side c2 c3 -> side c1 c3.
Proof. intros [A1 [A2 A3] [A4 A5]] [B1 [B2 B3] [B4 B5]]. split; [congruence|split; congruence|split; congruence]. Qed.

Lemma set_ssthresh_ok c v : tx_ok c -> 0 < v < 65536 -> tx_ok (c <| ssthresh := v |>) /\ side c (c <| ssthresh := v |>).
Proof. intros T Hv. split; [|is_side]. destruct T. split; cbn [snd_queuelen unacked unsent cwnd mss ssthresh snd_wnd flags with_field]; try assumption; lia. Qed.

Lemma set_recovery_ok c v f : tx_ok c -> 0 < v < 65536 -> 0 < c.(ssthresh) -> tx_ok (c <| cwnd := v |> <| flags := f |> <| rtime := 0 |>) /\ side c (c <| cwnd := v |> <| flags := f |> <| rtime := 0 |>).
Proof. intros T Hv Hs. split; [|is_side]. destruct T. split; cbn [snd_queuelen unacked unsent cwnd mss ssthresh snd_wnd flags with_field]; try assumption; lia. Qed.

Lemma rexmit_fast_part P : part P tcp_rexmit_fast.
Proof.
  unfold tcp_rexmit_fast, pget. apply part_gets. intros s0 _ _. destruct (unacked (pcb s0)) eqn:Eu0; [apply part_ret|]. apply part_when. intros Hf0.
  change tcp_rexmit with (pset rexmitted). match goal with |- part _ (_ ;; pset ?f ;; pset ?g ;; pset ?h) => apply (part_ext _ _ (pset (fun c => h (g (f (rexmitted c)))))); [reflexivity|] end.
  apply part_pset. intros s _ T. destruct (rexmitted_side _ T) as (S1 & T1 & F1 & C1 & W1 & M1). set (c := rexmitted (pcb s)) in *. clearbody c. pose proof (tx_cwnd _ T1). pose proof (tx_wnd _ T1). pose proof (tx_mss _ T1) as T6. unfold TCP_MSS in T6.
  set (h := if cwnd c >? snd_wnd c then _ else _). assert (Hh : 0 <= h <= 32767) by (unfold h; destruct (cwnd c >? snd_wnd c); (split; [apply Z.div_pos; lia|apply Z.lt_succ_r, Z.div_lt_upper_bound; lia])). clearbody h.
  change (ssthresh (c <| ssthresh := h |>)) with h. change (mss (c <| ssthresh := h |>)) with (mss c).
  assert (Hss : exists c', (if h <? 2 * mss c then (c <| ssthresh := h |>) <| ssthresh := u16 (2 * mss c) |> else c <| ssthresh := h |>) = c <| ssthresh := c' |> /\ 0 < c' <= 32767).
  { destruct (Z.ltb_spec h (2 * mss c)); [exists (u16 (2 * mss c)); rewrite u16_id by word_lia|exists h]; (split; [reflexivity|lia]). }
  destruct Hss as (c' & Ec & Hc). rewrite Ec. clear Ec. destruct (set_ssthresh_ok c c' T1 ltac:(lia)) as [T2 S2]. set (c2 := c <| ssthresh := c' |>) in *.
  assert (H2 : ssthresh c2 = c' /\ mss c2 = mss c) by (now split). destruct H2 as [H2 H3]. clearbody c2. rewrite H2, H3, u16_id by word_lia.
  destruct (set_recovery_ok c2 (c' + 3 * mss c) (flags c2 .| TF_INFR) T2 ltac:(lia) ltac:(lia)) as [T3 S3]. split; [exact (side_trans _ _ _ S1 (side_trans _ _ _ S2 S3))|exact T3].
Qed.

Lemma duplicate_ack_part edge : part hdr_ok (duplicate_ack edge).
Proof.
  unfold duplicate_ack. apply part_gets. intros s0 _ _. cbv zeta. destruct (_ && _ && _ && _); [|apply part_pset; intros s _ T; tx_side; destruct T; now split].
  apply part_bind; [exact hdr_kept|apply part_when; intros _; apply part_pset; intros s _ T; tx_side; destruct T; now split|]. unfold pget. apply part_gets. intros s1 _ _.
  destruct (dupacks (pcb s1) >? 3); [|apply part_when; intros _; apply rexmit_fast_part]. apply part_pset. intros s _ T.
  destruct (Z.gtb_spec (u16 (cwnd (pcb s) + mss (pcb s))) (cwnd (pcb s))) as [Hg|_]; [|now split; [is_side|]].
  tx_side. destruct T. split; cbn [snd_queuelen unacked unsent cwnd mss ssthresh snd_wnd flags with_field]; try assumption. pose proof (u16_ok (cwnd (pcb s) + mss (pcb s))) as Hu. unfold is_u16 in Hu. lia.
Qed.


(** *** Freeing the acknowledged segments *)

(** [next] has left the queues of [c]. *)
Record fewer (next : tcp_seg) (c c' : tcp_pcb) : Prop := {
  fw_rx : (c'.(state), c'.(rcv_nxt), c'.(rcv_wnd), c'.(rcv_ann_wnd), c'.(rcv_ann_right_edge), c'.(mss), c'.(ooseq)) =
          (c.(state), c.(rcv_nxt), c.(rcv_wnd), c.(rcv_ann_wnd), c.(rcv_ann_right_edge), c.(mss), c.(ooseq));
  fw_tx : (c'.(cwnd), c'.(ssthresh), c'.(snd_wnd), c'.(flags), c'.(snd_queuelen), c'.(snd_buf), c'.(snd_nxt)) =
          (c.(cwnd), c.(ssthresh), c.(snd_wnd), c.(flags), c.(snd_queuelen), c.(snd_buf), c.(snd_nxt));
  fw_pbufs : pbufs c'.(unacked) + pbufs c'.(unsent) + pbuf_clen next.(sp) = pbufs c.(unacked) + pbufs c.(unsent);
  fw_queued : queued c' + 1 = queued c;
  fw_len : in_flight c' + next.(slen) = in_flight c;
  fw_unacked : Forall seg_ok c'.(unacked);
  fw_unsent : Forall seg_ok c'.(unsent) }.

Lemma fewer_unacked c next rest : tx_ok c -> c.(unacked) = next :: rest -> fewer next c (c <| unacked := rest |>).
Proof.
  intros T E. pose proof (tx_unacked _ T) as F. rewrite E in F. apply Forall_inv_tail in F. split; try reflexivity; try assumption; try exact (tx_unsent _ T).
  - cbn [unacked unsent with_field]. rewrite E. unfold pbufs. rewrite sum_cons. lia.
  - unfold queued. cbn [unacked unsent with_field]. rewrite E. cbn [length]. lia.
  - unfold in_flight, lens. cbn [unacked unsent with_field]. rewrite E, sum_cons. lia.
Qed.

Lemma fewer_unsent c next rest o : tx_ok c -> c.(unsent) = next :: rest -> fewer next c (c <| unsent := rest |> <| unsent_oversize := o |>).
Proof.
  intros T E. pose proof (tx_unsent _ T) as F. rewrite E in F. apply Forall_inv_tail in F. split; try reflexivity; try assumption; try exact (tx_unacked _ T).
  - cbn [unacked unsent with_field]. rewrite E. unfold pbufs. rewrite sum_cons. lia.
  - unfold queued. cbn [unacked unsent with_field]. rewrite E. cbn [length]. lia.
  - unfold in_flight, lens. cbn [unacked unsent with_field]. rewrite E, sum_cons. lia.
Qed.

Lemma bind_lassert' {B} c (k : unit -> TM B) s : c = true -> bind (LWIP_ASSERT NOASSERT c) k s = k tt s.
Proof. intros ->. unfold LWIP_ASSERT. now destruct NOASSERT. Qed.

Lemma free_acked_spec next c s : tx_ok s.(pcb) -> fewer next s.(pcb) c ->
  exists s', free_acked NOASSERT next (s <| pcb := c |>) = Ok (tt, s') /\ ack_step s s' /\ tx_ok s'.(pcb) /\ is_u16 s'.(recv_acked) /\ s'.(pcb).(unacked) = c.(unacked) /\ s'.(pcb).(unsent) = c.(unsent).
Proof.
  intros [T1 T2 _ _ T5 T6 T7 T8 T9] [F1 F2 F3 F4 F5 F6 F7]. injection F1 as R1 R2 R3 R4 R5 R6 R7. injection F2 as X1 X2 X3 X4 X5 X6 X7.
  pose proof (proj1 (pbufs_pos _ F6)). pose proof (proj1 (pbufs_pos _ F7)). assert (0 <= pbuf_clen (sp next)) by (unfold pbuf_clen; lia).
  unfold free_acked, pget, pset, tcp_seg_free. rewrite bind_gets. cbn [pcb with_field]. rewrite bind_lassert' by (apply Z.geb_le; lia). rewrite !bind_modify, bind_gets. cbn [pcb snd_queuelen unacked unsent with_field]. rewrite u16_id by word_lia.
  match goal with |- exists s', ?m ?st = _ /\ _ => set (s' := st) end. exists s'. split; [|split; [|split; [|split; [|split; reflexivity]]]].
  - destruct (Z.eqb_spec (snd_queuelen c - pbuf_clen (sp next)) 0); [reflexivity|]. cbn [negb]. unfold LWIP_ASSERT. destruct NOASSERT; [reflexivity|].
    destruct (unacked c), (unsent c); try reflexivity. cbn in F3. lia.
  - subst s'. split; cbn [pcb inseg seqno tcplen ackno hdr_wnd hdr_flags recv_data recv_flags seg_free recv_acked state ooseq rcv_wnd snd_buf snd_nxt with_field]; try assumption; try (now repeat split).
    + intros N [Y1 Y2 Y3 Y4 Y5 Y6 Y7]. split; cbn [rcv_nxt rcv_wnd ooseq rcv_ann_right_edge rcv_ann_wnd mss with_field]; rewrite ?R2, ?R3, ?R4, ?R5, ?R6, ?R7; assumption.
    + unfold queued in *. cbn [unacked unsent with_field]. lia.
    + f_equal. unfold in_flight in *. cbn [unacked unsent with_field]. lia.
  - subst s'. split; cbn [pcb snd_queuelen unacked unsent cwnd mss ssthresh snd_wnd flags with_field]; rewrite ?X1, ?X2, ?X3, ?X4, ?R6; try assumption; lia.
  - apply u16_ok.
Qed.

(** Which segments the acknowledgement covers. *)
Definition covered (a : Z) (g : tcp_seg) : bool := TCP_SEQ_LEQ (u32 (g.(hseq) + TCP_TCPLEN g)) a.

Lemma ack_unacked_spec l : forall s, tx_ok s.(pcb) -> is_u16 s.(recv_acked) -> s.(pcb).(unacked) = l ->
  exists s', ack_unacked NOASSERT l s = Ok (tt, s') /\ ack_step s s' /\ tx_ok s'.(pcb) /\ is_u16 s'.(recv_acked) /\ s'.(pcb).(unacked) = drop_while (covered s.(ackno)) l.
Proof.
  induction l as [|next rest IH]; intros s T R E; cbn [ack_unacked drop_while]; [exists s; split; [reflexivity|split; [now apply ack_step_refl|now split]]|].
  rewrite bind_gets. fold (covered (ackno s) next). destruct (covered (ackno s) next); [|exists s; split; [reflexivity|split; [now apply ack_step_refl|now split]]].
  unfold pset. rewrite bind_modify. destruct (free_acked_spec next _ s T (fewer_unacked _ _ _ T E)) as (s1 & E1 & S1 & T1 & R1 & U1 & _). rewrite (bind_ok _ _ _ _ _ E1).
  destruct (IH s1 T1 R1 U1) as (s2 & E2 & S2 & T2 & R2 & U2). exists s2. split; [exact E2|]. split; [exact (ack_step_trans _ _ _ S1 S2)|]. split; [exact T2|]. split; [exact R2|].
  now rewrite U2, (proj1 (proj2 (proj2 (proj2 (as_seg _ _ S1))))).
Qed.

Lemma ack_unsent_spec l : forall s, tx_ok s.(pcb) -> is_u16 s.(recv_acked) -> s.(pcb).(unsent) = l ->
  exists s', ack_unsent NOASSERT l s = Ok (tt, s') /\ ack_step s s' /\ tx_ok s'.(pcb) /\ is_u16 s'.(recv_acked) /\ s'.(pcb).(unacked) = s.(pcb).(unacked).
Proof.
  induction l as [|next rest IH]; intros s T R E; cbn [ack_unsent]; [exists s; split; [reflexivity|split; [now apply ack_step_refl|now split]]|].
  rewrite bind_gets. unfold pget. rewrite bind_gets. destruct (TCP_SEQ_BETWEEN _ _ _); [|exists s; split; [reflexivity|split; [now apply ack_step_refl|now split]]].
  unfold pset. rewrite bind_modify. set (o := match rest with [] => 0 | _ => unsent_oversize (pcb s) end).
  assert (Eo : forall k : unit -> TM unit, bind (match rest with [] => modify (fun s => s <| pcb := (pcb s) <| unsent_oversize := 0 |> |>) | _ => ret tt end) k (s <| pcb := (pcb s) <| unsent := rest |> |>) =
    k tt (s <| pcb := (pcb s) <| unsent := rest |> <| unsent_oversize := o |> |>)) by (intros k; subst o; destruct rest; reflexivity).
  rewrite Eo. destruct (free_acked_spec next _ s T (fewer_unsent _ _ _ o T E)) as (s1 & E1 & S1 & T1 & R1 & U1 & V1). rewrite (bind_ok _ _ _ _ _ E1).
  destruct (IH s1 T1 R1 V1) as (s2 & E2 & S2 & T2 & R2 & U2). exists s2. split; [exact E2|]. split; [exact (ack_step_trans _ _ _ S1 S2)|]. split; [exact T2|]. split; [exact R2|]. rewrite U2. exact U1.
Qed.

(** *** A new acknowledgement *)

Definition infr_done (c : tcp_pcb) : tcp_pcb := if on c.(flags) TF_INFR then c <| flags := off_bits c.(flags) TF_INFR |> <| cwnd := c.(ssthresh) |> else c.
Definition acked_at (a : Z) (c : tcp_pcb) : tcp_pcb := c <| nrtx := 0 |> <| rto := s16 ((c.(sa) >> 3) + c.(sv)) |> <| dupacks := 0 |> <| lastack := a |>.

(** Updates that leave the queues alone. *)
Definition quiet (c c' : tcp_pcb) : Prop := side c c' /\ tx_ok c' /\ c'.(unacked) = c.(unacked) /\ c'.(unsent) = c.(unsent).

Lemma quiet_trans c1 c2 c3 : quiet c1 c2 -> quiet c2 c3 -> quiet c1 c3.
Proof.
  intros ([A1 [A2 A3] [A4 A5]] & _ & A6 & A7) ([B1 [B2 B3] [B4 B5]] & B8 & B6 & B7). split; [split; [congruence|split; congruence|split; congruence]|]. split; [exact B8|]. split; congruence.
Qed.

Lemma infr_done_quiet c : tx_ok c -> quiet c (infr_done c).
Proof.
  intros T. unfold infr_done. destruct (on (flags c) TF_INFR) eqn:Ei; [|split; [is_side|split; [exact T|split; reflexivity]]].
  split; [is_side|]. split; [|split; reflexivity]. pose proof (tx_infr _ T Ei). destruct T. split; cbn [snd_queuelen unacked unsent cwnd mss ssthresh snd_wnd flags with_field]; try assumption; [lia|].
  change TF_INFR with (2 ^ 2). rewrite on_off by lia. rewrite andb_false_r. discriminate.
Qed.

Lemma acked_at_quiet a c : tx_ok c -> quiet c (acked_at a c).
Proof. intros T. split; [is_side|]. split; [destruct T; now split|split; reflexivity]. Qed.

Lemma set_cwnd_quiet c w : tx_ok c -> w > c.(cwnd) -> w < 65536 -> quiet c (c <| cwnd := w |>).
Proof. intros T Hw Hb. split; [is_side|]. split; [|split; reflexivity]. destruct T. split; cbn [snd_queuelen unacked unsent cwnd mss ssthresh snd_wnd flags with_field]; try assumption. lia. Qed.

Lemma quiet_refl c : tx_ok c -> quiet c c.
Proof. intros T. split; [is_side|]. split; [exact T|split; reflexivity]. Qed.

Lemma grow_cwnd_quiet s : tx_ok s.(pcb) -> exists c, grow_cwnd s = Ok (tt, s <| pcb := c |>) /\ quiet s.(pcb) c.
Proof.
  intros T. unfold grow_cwnd, pget. rewrite bind_gets. destruct (_ >=? _); [|exists (pcb s); split; [now destruct s|now apply quiet_refl]].
  assert (G : forall w, is_u16 w -> exists c, pset (fun c => if w >? cwnd (pcb s) then c <| cwnd := w |> else c) s = Ok (tt, s <| pcb := c |>) /\ quiet (pcb s) c).
  { intros w Hw. unfold pset, modify. destruct (Z.gtb_spec w (cwnd (pcb s))); eexists; (split; [reflexivity|]); [apply set_cwnd_quiet; [exact T|lia|apply Hw]|now apply quiet_refl]. }
  destruct (cwnd (pcb s) <? ssthresh (pcb s)); [exact (G _ (u16_ok _))|]. pose proof (tx_cwnd _ T). rewrite (proj2 (Z.eqb_neq _ _)) by lia. exact (G _ (u16_ok _)).
Qed.

Lemma quiet_step s c : is_u16 s.(recv_acked) -> quiet s.(pcb) c -> ack_step s (s <| pcb := c |>).
Proof.
  intros Hr (Hs & _ & _ & _). pose proof Hs as [E [Q1 Q2] [Q3 Q4]]. injection E as E1 E2 E3 E4 E5 E6 E7.
  split; cbn [pcb inseg seqno tcplen ackno hdr_wnd hdr_flags recv_data recv_flags seg_free recv_acked with_field]; auto.
  - intros N. now apply rx_side.
  - repeat split.
  - lia.
  - rewrite Q2, Z.sub_diag, Z.add_0_r. symmetry. now apply u16_id.
Qed.

Lemma new_ack_spec s : tx_ok s.(pcb) -> is_u16 s.(recv_acked) ->
  exists s', new_ack NOASSERT s = Ok (tt, s') /\ ack_step s s' /\ tx_ok s'.(pcb) /\ is_u16 s'.(recv_acked) /\ s'.(pcb).(unacked) = drop_while (covered s.(ackno)) s.(pcb).(unacked).
Proof.
  intros T R. unfold new_ack, pget. change (pset (fun c => if on (flags c) TF_INFR then _ else _)) with (pset infr_done). rewrite bind_pset, bind_gets. pose proof (infr_done_quiet _ T) as Q1. set (c1 := infr_done (pcb s)) in *. clearbody c1.
  change (ackno (s <| pcb := c1 |>)) with (ackno s). rewrite bind_pset. fold (acked_at (ackno s) (pcb (s <| pcb := c1 |>))). change (pcb (s <| pcb := c1 |>)) with c1. pose proof (acked_at_quiet (ackno s) _ (proj1 (proj2 Q1))) as Q2. set (c2 := acked_at _ _) in *. clearbody c2.
  pose proof (quiet_trans _ _ _ Q1 Q2) as Q3. assert (T2 : tx_ok (pcb (s <| pcb := c2 |>))) by exact (proj1 (proj2 Q2)). destruct (grow_cwnd_quiet _ T2) as (c3 & E3 & Q4). cbn [pcb with_field] in Q4.
  change (bind grow_cwnd ?k _) with (bind grow_cwnd k (s <| pcb := c2 |>)). rewrite (bind_ok _ _ _ _ _ E3). pose proof (quiet_trans _ _ _ Q3 Q4) as Q.
  rewrite bind_gets. cbn [pcb with_field]. pose proof Q as (_ & T3 & U3 & _). rewrite U3.
  assert (H3 : tx_ok (pcb (s <| pcb := c3 |>)) /\ is_u16 (recv_acked (s <| pcb := c3 |>)) /\ unacked (pcb (s <| pcb := c3 |>)) = unacked (pcb s)) by (split; [exact T3|split; [exact R|exact U3]]).
  destruct H3 as (H3 & H4 & H5). destruct (ack_unacked_spec _ _ H3 H4 H5) as (s1 & E1 & S1 & T1 & R1 & U1).
  change (bind (ack_unacked ?N ?l) ?k _) with (bind (ack_unacked N l) k (s <| pcb := c3 |>)). rewrite (bind_ok _ _ _ _ _ E1). eexists. split; [reflexivity|].
  assert (Q5 : quiet (pcb s1) ((pcb s1) <| rtime := match unacked (pcb s1) with [] => -1 | _ => 0 end |> <| polltmr := 0 |>)) by (split; [is_side|split; [destruct T1; now split|split; reflexivity]]).
  split; [exact (ack_step_trans _ _ _ (ack_step_trans _ _ _ (quiet_step _ _ R Q) S1) (quiet_step _ _ R1 Q5))|]. split; [exact (proj1 (proj2 Q5))|]. split; [exact R1|]. exact U1.
Qed.

Lemma estimate_rtt_spec s : tx_ok s.(pcb) -> exists c, estimate_rtt s = Ok (tt, s <| pcb := c |>) /\ quiet s.(pcb) c.
Proof.
  intros T. unfold estimate_rtt. rewrite bind_gets. cbv zeta. destruct (_ && _); [|exists (pcb s); split; [now destruct s|now apply quiet_refl]].
  eexists. split; [reflexivity|]. split; [is_side|split; [destruct T; now split|split; reflexivity]].
Qed.

(** *** An acknowledgement of data that was not sent *)

Lemma set_flags_quiet c e f : tx_ok c -> on f TF_INFR = on c.(flags) TF_INFR -> tx_ok (c <| rcv_ann_right_edge := e |> <| flags := f |>) /\ tx_ok (c <| flags := f |>).
Proof. intros T Hf. destruct T; split; split; cbn [snd_queuelen unacked unsent cwnd mss ssthresh snd_wnd flags with_field]; try assumption; rewrite Hf; assumption. Qed.

Lemma infr_lor f : on (f .| (TF_ACK_DELAY .| TF_ACK_NOW)) TF_INFR = on f TF_INFR.
Proof. change TF_INFR with (2 ^ 2). rewrite on_lor by lia. apply orb_false_r. Qed.
Lemma infr_off f : on (off_bits f (TF_ACK_DELAY .| TF_ACK_NOW)) TF_INFR = on f TF_INFR.
Proof. change TF_INFR with (2 ^ 2). rewrite on_off by lia. apply andb_true_r. Qed.

Lemma empty_ack_step s : tx_ok s.(pcb) -> is_u16 s.(recv_acked) ->
  exists s', tcp_send_empty_ack ack_out s = Ok (tt, s') /\ ack_step s s' /\ tx_ok s'.(pcb) /\ is_u16 s'.(recv_acked) /\ s'.(pcb).(unacked) = s.(pcb).(unacked).
Proof.
  intros T R. assert (Hrx : forall s', tcp_send_empty_ack ack_out s = Ok (tt, s') -> forall N, rx N s.(pcb) -> rx N s'.(pcb)).
  { intros s' E N X. destruct (empty_ack_spec isn data ack_out N s X) as (s'' & E' & X' & _). rewrite E in E'. injection E' as ->. exact X'. }
  assert (Hz : recv_acked s = u16 (recv_acked s + (in_flight (pcb s) - in_flight (pcb s)))) by (rewrite Z.sub_diag, Z.add_0_r; symmetry; now apply u16_id).
  pose proof (set_flags_quiet _ (u32 (rcv_nxt (pcb s) + rcv_ann_wnd (pcb s))) _ T (infr_lor (flags (pcb s)))) as [H1 H2]. pose proof (set_flags_quiet _ (u32 (rcv_nxt (pcb s) + rcv_ann_wnd (pcb s))) _ T (infr_off (flags (pcb s)))) as [H3 _].
  revert Hrx. unfold tcp_send_empty_ack, pget, pset. rewrite bind_gets. destruct (ack_out (pcb s)) as [[]|]; rewrite ?bind_modify; intros Hrx;
    (eexists; split; [reflexivity|]; split; [split; [exact (Hrx _ eq_refl)|repeat split|repeat split|repeat split|reflexivity|exact Hz|reflexivity|reflexivity]|split; [first [exact H1|exact H2|exact H3]|split; [exact R|reflexivity]]]).
Qed.

(** ** The whole acknowledgement *)

(** The acknowledgement is new: behind the last one, for data that was sent. *)
Definition is_new (s : tcp_st) : bool := negb (TCP_SEQ_LEQ s.(ackno) s.(pcb).(lastack)) && TCP_SEQ_BETWEEN s.(ackno) (u32 (s.(pcb).(lastack) + 1)) s.(pcb).(snd_nxt).

Record acked (s s' : tcp_st) : Prop := {
  ak_rx : forall N, rx N s.(pcb) -> rx N s'.(pcb);
  ak_same : s'.(pcb).(state) = s.(pcb).(state) /\ s'.(pcb).(ooseq) = s.(pcb).(ooseq) /\ s'.(pcb).(rcv_wnd) = s.(pcb).(rcv_wnd);
  ak_seg : s'.(inseg) = s.(inseg) /\ s'.(seqno) = s.(seqno) /\ s'.(tcplen) = s.(tcplen);
  ak_recv : s'.(recv_data) = s.(recv_data) /\ s'.(recv_flags) = s.(recv_flags);
  ak_tx : tx_ok s'.(pcb);
  ak_free : s'.(seg_free) + queued s'.(pcb) = s.(seg_free) + queued s.(pcb);
  ak_acked : s'.(recv_acked) = u16 (in_flight s.(pcb) - in_flight s'.(pcb));
  ak_buf : s'.(pcb).(snd_buf) = u16 (s.(pcb).(snd_buf) + (in_flight s.(pcb) - in_flight s'.(pcb)));
  ak_new : is_new s = true -> s'.(pcb).(unacked) = drop_while (covered s.(ackno)) s.(pcb).(unacked) }.

(** An update that is quiet from every good state. *)
Definition quiet_set (f : tcp_pcb -> tcp_pcb) : Prop := forall c, tx_ok c -> quiet c (f c) /\ (f c).(lastack) = c.(lastack).

Lemma quiet_compose f g : quiet_set f -> quiet_set g -> quiet_set (fun c => g (f c)).
Proof. intros Hf Hg c T. destruct (Hf c T) as [Q1 L1]. destruct (Hg _ (proj1 (proj2 Q1))) as [Q2 L2]. split; [exact (quiet_trans _ _ _ Q1 Q2)|congruence]. Qed.

Lemma quiet_if (b : tcp_pcb -> bool) f g : quiet_set f -> quiet_set g -> quiet_set (fun c => if b c then f c else g c).
Proof. intros Hf Hg c T. destruct (b c); [exact (Hf c T)|exact (Hg c T)]. Qed.

Lemma quiet_id : quiet_set (fun c => c).
Proof. intros c T. split; [now apply quiet_refl|reflexivity]. Qed.

Ltac is_quiet := intros c T; split; [split; [is_side|split; [destruct T; now split|split; reflexivity]]|reflexivity].

Lemma update_window_quiet s : tx_ok s.(pcb) -> hdr_ok s -> exists c, update_window s = Ok (tt, s <| pcb := c |>) /\ quiet s.(pcb) c /\ c.(lastack) = s.(pcb).(lastack).
Proof.
  intros T H. unfold update_window, hdr_ok in *. rewrite bind_gets. cbv zeta. destruct (_ || _ || _); [|exists (pcb s); split; [now destruct s|split; [now apply quiet_refl|reflexivity]]].
  match goal with |- exists c, (pset ?f1 ;; pset ?f2 ;; pset ?f3 ;; pset ?f4) s = _ /\ _ => exists (f4 (f3 (f2 (f1 (pcb s))))); split; [reflexivity|]; revert T; change (tx_ok (pcb s) -> (fun c => quiet (pcb s) c /\ c.(lastack) = (pcb s).(lastack)) ((fun c => f4 (f3 (f2 (f1 c)))) (pcb s))); generalize (pcb s);
    apply (quiet_compose (fun c => f3 (f2 (f1 c))) f4); [apply (quiet_compose (fun c => f2 (f1 c)) f3); [apply (quiet_compose f1 f2)|]|] end.
  - is_quiet.
  - apply quiet_if; [is_quiet|exact quiet_id].
  - is_quiet.
  - apply quiet_if; apply quiet_if; first [exact quiet_id|is_quiet].
Qed.

Lemma u16_add_r a b : u16 (a + u16 b) = u16 (a + b).
Proof. apply Zplus_mod_idemp_r. Qed.

Lemma receive_ack_spec s : tx_ok s.(pcb) -> hdr_ok s -> s.(recv_acked) = 0 -> exists s', receive_ack NOASSERT ack_out s = Ok (tt, s') /\ acked s s'.
Proof.
  intros T H R. assert (R0 : is_u16 (recv_acked s)) by (rewrite R; word_lia). unfold receive_ack, pget. rewrite bind_gets. cbv zeta. destruct (update_window_quiet s T H) as (c1 & E1 & Q1 & L1). rewrite (bind_ok _ _ _ _ _ E1), bind_gets.
  pose proof (quiet_step s c1 R0 Q1) as S1. destruct Q1 as (D1 & T1 & U1 & V1). set (s1 := s <| pcb := c1 |>) in *.
  assert (Hnew : is_new s1 = is_new s) by (unfold is_new, s1; cbn [pcb ackno with_field]; now rewrite L1, (proj2 (sd_buf _ _ D1))).
  assert (H2 : exists s2, (if TCP_SEQ_LEQ (ackno s1) (lastack (pcb s1)) then duplicate_ack (u32 (snd_wnd (pcb s) + snd_wl2 (pcb s))) else if TCP_SEQ_BETWEEN (ackno s1) (u32 (lastack (pcb s1) + 1)) (snd_nxt (pcb s1)) then new_ack NOASSERT else tcp_send_empty_ack ack_out) s1 = Ok (tt, s2) /\
    ack_step s1 s2 /\ tx_ok (pcb s2) /\ is_u16 (recv_acked s2) /\ (is_new s1 = true -> unacked (pcb s2) = drop_while (covered (ackno s1)) (unacked (pcb s1)))).
  { unfold is_new. destruct (TCP_SEQ_LEQ _ _); cbn [negb andb].
    - destruct (duplicate_ack_part (u32 (snd_wnd (pcb s) + snd_wl2 (pcb s))) s1 T1 R0 H) as (s2 & E & A & B & C). now exists s2.
    - destruct (TCP_SEQ_BETWEEN _ _ _).
      + destruct (new_ack_spec s1 T1 R0) as (s2 & E & A & B & C & D). now exists s2.
      + destruct (empty_ack_step s1 T1 R0) as (s2 & E & A & B & C & D). now exists s2. }
  destruct H2 as (s2 & E2 & S2 & T2 & R2 & U2). rewrite (bind_ok _ _ _ _ _ E2), bind_gets. destruct (ack_unsent_spec _ s2 T2 R2 eq_refl) as (s3 & E3 & S3 & T3 & R3 & U3). rewrite (bind_ok _ _ _ _ _ E3), bind_gets. unfold pset. rewrite bind_modify.
  pose proof (ack_step_trans _ _ _ (ack_step_trans _ _ _ S1 S2) S3) as S. set (s4 := s3 <| pcb := _ |>). assert (T4 : tx_ok (pcb s4)) by (destruct T3; now split). destruct (estimate_rtt_spec s4 T4) as (c5 & E5 & D5 & T5 & U5 & V5). exists (s4 <| pcb := c5 |>). split; [exact E5|].
  destruct S as [A1 (A2 & A2' & A2'') (A3 & A4 & A5 & A6 & _) [A8 A9] A10 A11 A12 A13]. pose proof D5 as [B1 [B2 B3] [B4 _]]. injection B1 as B11 B12 B13 B14 B15 B16 B17.
  assert (A11' : recv_acked s3 = u16 (in_flight (pcb s) - in_flight (pcb s3))) by (rewrite A11, R; reflexivity).
  split; cbn [pcb with_field]; rewrite ?B2, ?B3, ?B4, ?B11, ?B13, ?B17; try assumption; try (now repeat split).
  - intros N X. apply (rx_side N (pcb s4)); [exact D5|]. destruct (A1 N X) as [Y1 Y2 Y3 Y4 Y5 Y6 Y7]. now split.
  - change (u16 (snd_buf (pcb s3) + recv_acked s3) = u16 (snd_buf (pcb s) + (in_flight (pcb s) - in_flight (pcb s3)))). rewrite A12, A11'. apply u16_add_r.
  - intros Hn. rewrite U5. change (unacked (pcb s4)) with (unacked (pcb s3)). rewrite U3, U2 by (rewrite Hnew; exact Hn). unfold s1. cbn [pcb ackno with_field]. now rewrite U1.
Qed.

End Ack.

(** C5: an acknowledgement is accounted for exactly, whatever its number is:
    no assertion fails; the bytes reported to the application and given back to
    the send buffer are those of the segments that left the two queues; each of
    these segments went back to the pool; the queues and the count of their
    pbufs stay consistent; and an acknowledgement of something new removes exactly
    the segments it covers from the front of the unacknowledged ones. *)
Theorem tcp_ack_accounts NOASSERT ack_out s : tx_ok s.(pcb) -> hdr_ok s -> s.(recv_acked) = 0 ->
  exists s', receive_ack NOASSERT ack_out s = Ok (tt, s') /\ tx_ok s'.(pcb) /\
    s'.(recv_acked) = u16 (in_flight s.(pcb) - in_flight s'.(pcb)) /\
    s'.(pcb).(snd_buf) = u16 (s.(pcb).(snd_buf) + (in_flight s.(pcb) - in_flight s'.(pcb))) /\
    s'.(seg_free) - s.(seg_free) = queued s.(pcb) - queued s'.(pcb) /\
    (is_new s = true -> s'.(pcb).(unacked) = drop_while (covered s.(ackno)) s.(pcb).(unacked)).
Proof.
  intros T H R. destruct (receive_ack_spec 0 [] NOASSERT ack_out s T H R) as (s' & E & []). exists s'. repeat (split; try assumption). lia.
Qed.
