(* ===== verification/TcpQueue.v ===== *)
(** * The queue of a TCP sender

    What the application has written, cut into the segments that wait to be sent
    or acknowledged: each segment holds the bytes of its place in the stream,
    and no byte that is not acknowledged is missing.  [tcp_write] appends to the
    stream or changes nothing. *)

From Stdlib Require Import ZArith List Lia Bool.
From S2P Require Import Prelude Mem Pbuf TcpIn TcpOut TcpWrite TcpStream TcpAck.
Import ListNotations.
Open Scope Z_scope.
Open Scope c_scope.

(** ** Lists *)

Lemma last_seg_none l : last_seg l = None -> l = [].
Proof. induction l as [|g [|x t] IH]; [reflexivity|discriminate|]. intros H. discriminate (IH H). Qed.
Lemma last_seg_app l g : last_seg (l ++ [g]) = Some g.
Proof. induction l as [|x [|y t] IH]; [reflexivity|reflexivity|exact IH]. Qed.
Lemma last_seg_some l g : last_seg l = Some g -> exists t, l = t ++ [g].
Proof.
  induction l as [|x [|y t] IH]; [discriminate|intros [= ->]; now exists []|]. intros H. destruct (IH H) as [t' E]. exists (x :: t'). cbn [app]. now rewrite <- E.
Qed.
Lemma on_last_app {A} (f : A -> A) l g : on_last f (l ++ [g]) = l ++ [f g].
Proof. induction l as [|x t IH]; [reflexivity|]. cbn [app on_last]. rewrite IH. now destruct (t ++ [g]) eqn:E; [destruct t|]. Qed.
Lemma snoc_cases {A} (l : list A) : l = [] \/ exists t g, l = t ++ [g].
Proof. destruct l as [|x t] using rev_ind; [now left|right; now exists t, x]. Qed.

Lemma concat_on_last (x : list Z) p : p <> [] -> concat (on_last (fun b => b ++ x) p) = concat p ++ x.
Proof.
  intros Hp. destruct (snoc_cases p) as [->|(t & b & ->)]; [contradiction|]. rewrite on_last_app, !concat_app. cbn [concat]. now rewrite !app_nil_r, app_assoc.
Qed.
Lemma clen_on_last (f : list Z -> list Z) p : pbuf_clen (on_last f p) = pbuf_clen p.
Proof. destruct (snoc_cases p) as [->|(t & b & ->)]; [reflexivity|]. rewrite on_last_app. unfold pbuf_clen. now rewrite !length_app. Qed.

Lemma bytes_length arg pos n : 0 <= pos -> 0 <= n -> pos + n <= len_of arg -> len_of (bytes arg pos n) = n.
Proof. unfold len_of, bytes. intros. rewrite length_firstn, length_skipn. lia. Qed.
Lemma bytes_of_app arg pos n m : 0 <= pos -> 0 <= n -> 0 <= m -> bytes arg pos n ++ bytes arg (pos + n) m = bytes arg pos (n + m).
Proof. exact (fun H1 H2 H3 => slice_app arg pos n m H1 H2 H3). Qed.

(** ** The stream grows *)

Section Queue.
Context (isn : Z).

Lemma stream_total_app d arg : total (d ++ arg) = total d + len_of arg.
Proof. unfold total, len_of. rewrite length_app. lia. Qed.

Lemma slice_grows d arg a n : 0 <= a -> 0 <= n -> a + n <= total d -> slice (d ++ arg) a n = slice d a n.
Proof.
  unfold slice, total. intros. rewrite skipn_app, firstn_app, length_skipn. replace (Z.to_nat n - (length d - Z.to_nat a))%nat with 0%nat by lia. now rewrite app_nil_r.
Qed.
Lemma slice_new d arg pos n : 0 <= pos -> slice (d ++ arg) (total d + pos) n = bytes arg pos n.
Proof.
  unfold slice, bytes, total. intros. rewrite skipn_app, skipn_all2 by lia. cbn [app]. do 2 f_equal. lia.
Qed.

Lemma seg_grows d arg g a : seg_at isn d g a -> fin g = false -> seg_at isn (d ++ arg) g a.
Proof.
  intros [H1 H2 H3 H4 H5 H6 H7] Hf. split; try assumption.
  - rewrite stream_total_app. unfold len_of. lia.
  - rewrite slice_grows by lia. exact H5.
  - rewrite Hf. discriminate.
Qed.

(** Flags that do not matter. *)
Lemma seg_flags d g a f : seg_at isn d g a -> Z.testbit f 0 = false -> Z.testbit f 1 = false -> seg_at isn d (g <| hflags := g.(hflags) .| f |>) a.
Proof.
  intros [H1 H2 H3 H4 H5 H6 H7] F0 F1. split; try assumption; unfold fin; cbn [hflags with_field].
  - change TCP_FIN with (2 ^ 0). rewrite on_lor, F0, orb_false_r by lia. exact H6.
  - change TCP_SYN with (2 ^ 1). rewrite on_lor, F1, orb_false_r by lia. exact H7.
Qed.

(** A piece of the stream; a byte that is queued. *)
Definition piece_of (d : list Z) (g : tcp_seg) : Prop := exists a, seg_at isn d g a.
Definition holds (d : list Z) (p : Z) (g : tcp_seg) : Prop := exists a, seg_at isn d g a /\ a <= p < a + g.(slen).
Definition queues (c : tcp_pcb) : list tcp_seg := c.(unacked) ++ c.(unsent).

(** The stream [d] as the queues have it: every byte from [A] on is there. *)
Record sender (d : list Z) (A : Z) (c : tcp_pcb) : Prop := {
  sn_pieces : Forall (piece_of d) (queues c);
  sn_holds : forall p, A <= p < total d -> Exists (holds d p) (queues c) }.

(** More can be written: the end of the stream is at the end of the queue. *)
Record open_end (d : list Z) (c : tcp_pcb) : Prop := {
  oe_lbb : c.(snd_lbb) = q isn (total d);
  oe_fin : Forall (fun g => fin g = false) (queues c);
  oe_last : forall g, last_seg c.(unsent) = Some g -> exists a, seg_at isn d g a /\ a + g.(slen) = total d }.

(** The sizes are as [tcp_write] expects them. *)
Record roomy (c : tcp_pcb) : Prop := {
  ry_max : 0 <= c.(snd_wnd_max);
  ry_buf : 0 <= c.(snd_buf) < 65536;
  ry_none : c.(unsent) = [] -> c.(unsent_oversize) = 0;
  ry_last : forall g, last_seg c.(unsent) = Some g -> 0 <= c.(unsent_oversize) /\ g.(slen) + c.(unsent_oversize) <= mss_local c }.

Lemma mss_local_ok c : tx_ok c -> 0 <= c.(snd_wnd_max) -> 0 < mss_local c <= TCP_MSS.
Proof.
  intros T H. pose proof (tx_mss _ T) as Hm. unfold mss_local. cbv zeta. assert (Hd : 0 <= snd_wnd_max c / 2) by (apply Z.div_pos; lia). destruct (Z.eqb_spec (Z.min (mss c) (snd_wnd_max c / 2)) 0); lia.
Qed.

Lemma prealloc_spec len max c fl first ov : 0 <= len <= max -> max <= TCP_MSS -> tcp_pbuf_prealloc true len max c fl first = Some ov -> 0 <= ov /\ len + ov <= max.
Proof.
  unfold TCP_MSS. intros Hl Hm E. unfold tcp_pbuf_prealloc in E. cbv zeta in E. injection E as <-. assert (Ha : LWIP_MEM_ALIGN_SIZE (TCP_OVERSIZE_CALC_LENGTH len) = len + 536).
  { unfold LWIP_MEM_ALIGN_SIZE, TCP_OVERSIZE_CALC_LENGTH, TCP_OVERSIZE, TCP_MSS, MEM_ALIGNMENT. change (u32 (Z.lnot (1 - 1))) with (Z.ones 32). rewrite Z.land_ones by lia. rewrite Z.mod_small by lia. lia. }
  rewrite Ha. destruct (_ && _); [|rewrite (u16_id len), Z.sub_diag by word_lia; change (u16 0) with 0; lia]. rewrite Z.min_l by lia. rewrite (u16_id max), u16_id by word_lia. lia.
Qed.
Lemma prealloc_none len max c fl first ok : tcp_pbuf_prealloc ok len max c fl first = None <-> ok = false.
Proof. unfold tcp_pbuf_prealloc. cbv zeta. destruct ok; split; intros H; try discriminate H; reflexivity. Qed.

(** ** Writing *)

Section Write.
Context (NOASSERT : bool) (room : nat -> bool) (d arg : list Z) (apiflags : Z) (c : tcp_pcb).
Context (T : tx_ok c) (R : roomy c) (O : open_end d c) (Hlen : len_of arg < 65536) (Hsize : total (d ++ arg) <= 536870912).
Abbreviation L := (len_of arg).
Abbreviation m := (mss_local c).
Abbreviation D := (d ++ arg).

Lemma L_pos : 0 <= L.
Proof. unfold len_of. lia. Qed.
Lemma m_ok : 0 < m <= TCP_MSS.
Proof. exact (mss_local_ok c T (ry_max _ R)). Qed.

Lemma bind_wassert {B} x (k : unit -> TM B) s : x = true -> bind (LWIP_ASSERT NOASSERT x) k s = k tt s.
Proof. intros ->. unfold bind, LWIP_ASSERT, Xil_Assert. now destruct NOASSERT. Qed.

(** After the first two phases. *)
Record tailed (w : wvars) : Prop := {
  tl_pos : 0 <= w.(w_used) <= w.(w_pos) /\ w.(w_pos) <= L;
  tl_queue : w.(w_queue) = [];
  tl_concat : match w.(w_concat) with None => w.(w_pos) = w.(w_used) | Some b => b = bytes arg w.(w_used) (w.(w_pos) - w.(w_used)) end;
  tl_len : w.(w_queuelen) = c.(snd_queuelen) + match w.(w_concat) with None => 0 | Some _ => 1 end;
  tl_over : 0 <= w.(w_oversize) /\ (w.(w_pos) < L -> w.(w_oversize) = 0);
  tl_none : c.(unsent) = [] -> w.(w_pos) = 0 /\ w.(w_oversize) = 0 /\ w.(w_concat) = None;
  tl_last : forall g, last_seg c.(unsent) = Some g -> g.(slen) + w.(w_pos) + w.(w_oversize) <= m }.

Lemma write_tail_spec s : 0 <= c.(snd_queuelen) < 65535 -> exists b w, write_tail NOASSERT room arg apiflags m c s = Ok ((b, w), s) /\ w.(w_queue) = [] /\ (b = true -> tailed w) /\ ((forall n, room n = true) -> b = true).
Proof.
  intros Hq. pose proof L_pos as HL. pose proof m_ok as Hm. unfold TCP_MSS in Hm. unfold write_tail. cbv zeta. destruct (last_seg (unsent c)) as [g|] eqn:El.
  2:{ pose proof (last_seg_none _ El) as Hn. rewrite bind_wassert by (apply Z.eqb_eq, (ry_none _ R Hn)). eexists _, _. split; [reflexivity|]. split; [reflexivity|]. split; [intros _|reflexivity]. split; cbn [w_used w_pos w_queue w_concat w_queuelen w_oversize]; try lia; try reflexivity; [now repeat split|]. rewrite El. discriminate. }
  destruct (ry_last _ R g El) as [Ho Hs]. destruct (oe_last _ _ O g El) as (a & Sg & Ha). assert (Hopt : LWIP_TCP_OPT_LENGTH g = 0) by (unfold LWIP_TCP_OPT_LENGTH; now rewrite (sg_syn _ _ _ _ Sg)). pose proof (sg_len _ _ _ _ Sg) as Hg.
  rewrite Hopt, Z.add_0_r. rewrite bind_wassert by (apply Z.geb_le; lia). rewrite (u16_id (m - slen g)) by word_lia. set (touched := unsent_oversize c >? 0).
  set (used := if touched then Z.min (m - slen g) (Z.min (unsent_oversize c) L) else 0). assert (Hu : 0 <= used <= L /\ used <= unsent_oversize c /\ (used < L -> used = unsent_oversize c)) by (unfold used, touched; destruct (Z.gtb_spec (unsent_oversize c) 0); lia).
  rewrite (u16_id (unsent_oversize c - used)), (u16_id (m - slen g - used)) by word_lia. rewrite bind_wassert by (apply orb_true_iff; rewrite !Z.eqb_eq; lia).
  destruct ((used <? L) && (m - slen g - used >? 0) && (slen g >? 0)) eqn:Eb.
  2:{ eexists _, _. split; [reflexivity|]. split; [reflexivity|]. split; [intros _|reflexivity]. split; cbn [w_used w_pos w_queue w_concat w_queuelen w_oversize]; try lia; try reflexivity.
      - intros E. rewrite E in El. discriminate El.
      - rewrite El. intros g' [= <-]. lia. }
  rewrite !andb_true_iff, !Z.gtb_lt, Z.ltb_lt in Eb. destruct Eb as [[B1 B2] B3]. set (seglen := if m - slen g - used <? L - used then m - slen g - used else L - used).
  assert (Hl : 0 < seglen <= m - slen g - used /\ used + seglen <= L /\ (used + seglen < L -> seglen = m - slen g - used)) by (unfold seglen; destruct (Z.ltb_spec (m - slen g - used) (L - used)); lia). clearbody seglen.
  assert (Hn : forall ov, 0 <= ov -> seglen + ov <= m - slen g - used -> tailed (mkW (used + seglen) ov used true (Some (bytes arg used seglen)) (u16 (snd_queuelen c + 1)) [] 1)).
  { intros ov Hov Hsp. split; cbn [w_used w_pos w_queue w_concat w_queuelen w_oversize]; try lia; try reflexivity.
    - f_equal. lia.
    - rewrite u16_id by word_lia. reflexivity.
    - intros E. rewrite E in El. discriminate El.
    - rewrite El. intros g' [= <-]. lia. }
  destruct (on apiflags TCP_WRITE_FLAG_COPY).
  - destruct (tcp_pbuf_prealloc _ _ _ _ _ _) as [ov|] eqn:Ep.
    + assert (Hr : room 0%nat = true) by (destruct (room 0%nat); [reflexivity|rewrite (proj2 (prealloc_none _ _ _ _ _ _) eq_refl) in Ep; discriminate Ep]). rewrite Hr in Ep. destruct (prealloc_spec seglen (m - slen g - used) c apiflags true ov ltac:(lia) ltac:(unfold TCP_MSS; lia) Ep) as [P1 P2]. eexists _, _. split; [reflexivity|]. split; [reflexivity|]. split; [intros _; now apply Hn|reflexivity].
    + eexists _, _. split; [reflexivity|]. split; [reflexivity|]. split; [discriminate|]. intros Hr. rewrite Hr in Ep. discriminate Ep.
  - destruct (room 0%nat) eqn:Er; [|eexists _, _; split; [reflexivity|]; split; [reflexivity|]; split; [discriminate|]; intros Hr; rewrite Hr in Er; discriminate Er]. eexists _, _. split; [reflexivity|]. split; [reflexivity|]. split; [intros _; apply Hn; lia|reflexivity].
Qed.

Lemma pbufs_nonneg l : 0 <= pbufs l.
Proof. induction l as [|g l IH]; [unfold pbufs, sum; cbn [fold_right]; lia|]. unfold pbufs in *. rewrite sum_cons. assert (0 <= pbuf_clen (sp g)) by (unfold pbuf_clen; lia). lia. Qed.

(** New segments, one behind the other. *)
Fixpoint tiles (a : Z) (l : list tcp_seg) (b : Z) : Prop :=
  match l with
  | [] => a = b
  | g :: t => (seg_at isn D g a /\ seg_ok g /\ fin g = false /\ g.(slen) <= m) /\ tiles (a + g.(slen)) t b
  end.
Lemma tiles_snoc l g : forall a b, tiles a l b -> seg_at isn D g b -> seg_ok g -> fin g = false -> g.(slen) <= m -> tiles a (l ++ [g]) (b + g.(slen)).
Proof. induction l as [|x t IH]; intros a b Ht Hs Hk Hf Hm; cbn [app tiles] in *; [now subst b|]. destruct Ht as [Hx Ht]. split; [exact Hx|now apply IH]. Qed.

Record writing (w0 w : wvars) : Prop := {
  wr_pos : w0.(w_pos) <= w.(w_pos) <= L;
  wr_tiles : tiles (total d + w0.(w_pos)) w.(w_queue) (total d + w.(w_pos));
  wr_len : w.(w_queuelen) = w0.(w_queuelen) + pbufs w.(w_queue) /\ w.(w_queuelen) <= 8;
  wr_over : 0 <= w.(w_oversize) /\ (w.(w_pos) < L -> w.(w_oversize) = 0);
  wr_last : match last_seg w.(w_queue) with Some g => g.(slen) + w.(w_oversize) <= m | None => w.(w_oversize) = w0.(w_oversize) end;
  wr_same : (w.(w_used), w.(w_touched), w.(w_concat)) = (w0.(w_used), w0.(w_touched), w0.(w_concat)) }.

Lemma writing_start w : tailed w -> w.(w_queuelen) <= 8 -> writing w w.
Proof.
  intros [T1 T2 T3 T4 T5 T6 T7] Hq. split; rewrite ?T2; cbn [tiles last_seg]; try lia; try reflexivity. unfold pbufs, sum. cbn [fold_right]. lia.
Qed.

(** A new segment. *)
Lemma new_seg p pos n : 0 <= pos -> 0 < n <= m -> pos + n <= L -> p <> [] -> concat p = bytes arg pos n ->
  let g := mkSeg p (tot_len p) (u32 (c.(snd_lbb) + pos)) 0 in seg_at isn D g (total d + pos) /\ seg_ok g /\ fin g = false /\ g.(slen) = n.
Proof.
  intros Hp Hn Hl Hne Hc g. pose proof m_ok as Hm. unfold TCP_MSS in Hm. pose proof (bytes_length arg pos n Hp ltac:(lia) Hl) as Hb. assert (Hs : slen g = n) by (unfold g, tot_len; cbn [slen]; rewrite Hc; exact Hb).
  split; [|split; [|split; [reflexivity|exact Hs]]].
  - split; rewrite ?Hs; unfold total; try lia; try discriminate.
    + unfold g. cbn [hseq]. rewrite (oe_lbb _ _ O). apply q_add.
    + rewrite length_app. fold (total d). unfold len_of in Hl. unfold total. lia.
    + unfold g. cbn [sp]. fold (total d). rewrite slice_new by exact Hp. exact Hc.
    + reflexivity.
  - unfold seg_ok, TCP_TCPLEN, g. cbn [sp slen hflags]. rewrite <- Hs in Hn. unfold g in Hn. cbn [slen] in Hn. change (on 0 (TCP_FIN .| TCP_SYN)) with false. change (on 0 TCP_RST) with false. repeat split; try assumption; lia.
Qed.

(** When there is memory for one more segment, and that is enough. *)
Definition enough (w : wvars) (s : tcp_st) : Prop := w.(w_pos) = L \/ ((forall n, room n = true) /\ L - w.(w_pos) <= m /\ w.(w_queuelen) <= 6 /\ 0 < s.(seg_free)).

Lemma write_segs_spec w0 fuel : forall w s, writing w0 w -> 0 <= w0.(w_pos) -> 0 <= w0.(w_queuelen) -> L - w.(w_pos) < Z.of_nat fuel ->
  exists b w', write_segs NOASSERT fuel room arg apiflags m c w s = Ok ((b, w'), s <| seg_free := s.(seg_free) + Z.of_nat (length w.(w_queue)) - Z.of_nat (length w'.(w_queue)) |>) /\ writing w0 w' /\ (b = true -> w'.(w_pos) = L) /\ (enough w s -> b = true).
Proof.
  pose proof m_ok as Hm. induction fuel as [|fuel IH]; intros w s Hw Hp0 Hq0 Hf; [pose proof (wr_pos _ _ Hw); lia|]. cbn [write_segs]. cbv zeta. pose proof Hw as [W1 W2 [W3 W3'] [W4 W4'] W5 W6].
  assert (Hsame : forall (x : bool), exists b w', ret (x, w) s = Ok ((b, w'), s <| seg_free := s.(seg_free) + Z.of_nat (length w.(w_queue)) - Z.of_nat (length w'.(w_queue)) |>) /\ w' = w /\ b = x).
  { intros x. exists x, w. split; [|now split]. unfold ret. do 2 f_equal. replace (seg_free s + Z.of_nat (length (w_queue w)) - Z.of_nat (length (w_queue w))) with (seg_free s) by lia. now destruct s. }
  destruct (Z.ltb_spec (w_pos w) L) as [Hlt|Hge].
  2:{ destruct (Hsame true) as (b & w' & E & -> & ->). exists true, w. split; [exact E|]. split; [exact Hw|]. split; [lia|reflexivity]. }
  assert (Hfail : ~ enough w s -> exists b w', ret (false, w) s = Ok ((b, w'), s <| seg_free := s.(seg_free) + Z.of_nat (length w.(w_queue)) - Z.of_nat (length w'.(w_queue)) |>) /\ writing w0 w' /\ (b = true -> w'.(w_pos) = L) /\ (enough w s -> b = true)).
  { intros Hno. destruct (Hsame false) as (b & w' & E & -> & ->). exists false, w. split; [exact E|]. split; [exact Hw|]. split; [discriminate|contradiction]. }
  set (seglen := if L - w_pos w >? m then m else L - w_pos w). assert (Hl : 0 < seglen <= m /\ w_pos w + seglen <= L /\ (w_pos w + seglen < L -> seglen = m /\ m < L - w_pos w)) by (unfold seglen; destruct (Z.gtb_spec (L - w_pos w) m); lia). clearbody seglen.
  set (alloc := if on apiflags TCP_WRITE_FLAG_COPY then _ else _).
  assert (Ha : exists pw, (forall B (k : option (chain * Z * nat) -> TM B), bind alloc k s = k pw s) /\ (forall p ov n, pw = Some (p, ov, n) -> p <> [] /\ concat p = bytes arg (w_pos w) seglen /\ pbuf_clen p <= 2 /\ 0 <= ov /\ seglen + ov <= m /\ (w_pos w + seglen < L -> ov = 0)) /\ ((forall n, room n = true) -> pw <> None)).
  { unfold alloc. destruct (on apiflags TCP_WRITE_FLAG_COPY).
    - eexists. split; [intros B k; reflexivity|]. split; [|intros Hr; rewrite Hr; discriminate]. intros p ov n E. destruct (tcp_pbuf_prealloc _ _ _ _ _ _) as [ov'|] eqn:Ep; [|discriminate E]. injection E as <- <- <-.
      assert (Hr : room (w_n w) = true) by (destruct (room (w_n w)); [reflexivity|rewrite (proj2 (prealloc_none _ _ _ _ _ _) eq_refl) in Ep; discriminate Ep]). rewrite Hr in Ep. destruct (prealloc_spec seglen m c apiflags (is_empty (w_queue w)) ov' ltac:(lia) ltac:(lia) Ep) as [P1 P2].
      split; [discriminate|]. split; [cbn [concat]; apply app_nil_r|]. split; [unfold pbuf_clen; cbn [length]; lia|]. lia.
    - eexists. split; [intros B k; rewrite bind_assoc, bind_wassert by (apply Z.eqb_eq; lia); reflexivity|]. split; [|intros Hr; rewrite !Hr; discriminate]. intros p ov n E. destruct (_ && _); [|discriminate E]. injection E as <- <- <-. split; [discriminate|]. split; [cbn [concat app]; apply app_nil_r|]. split; [unfold pbuf_clen; cbn [length]; lia|]. lia. }
  destruct Ha as (pw & Ea & Hpw & Hsome). rewrite Ea. clear Ea alloc. destruct pw as [[[p ov] n]|]; [|apply Hfail; intros [He|(He & _)]; [lia|now apply Hsome]]. destruct (Hpw p ov n eq_refl) as (P1 & P2 & P3 & P4 & P5 & P6). clear Hpw.
  assert (Hc : 0 < pbuf_clen p) by (unfold pbuf_clen; destruct p; [contradiction|cbn [length]; lia]). pose proof (pbufs_nonneg (w_queue w)) as Hpb.
  rewrite u16_id by word_lia. destruct ((w_queuelen w + pbuf_clen p >? TCP_SND_QUEUELEN) || _) eqn:Eq; [apply Hfail; intros [He|(_ & _ & He & _)]; [lia|]; apply orb_true_iff in Eq; change TCP_SND_QUEUELEN with 8 in Eq; unfold TCP_SNDQUEUELEN_OVERFLOW in Eq; rewrite !Z.gtb_lt in Eq; lia|]. apply orb_false_elim in Eq. destruct Eq as [Eq _]. change TCP_SND_QUEUELEN with 8 in Eq. rewrite Z.gtb_ltb, Z.ltb_ge in Eq.
  unfold tcp_create_segment. rewrite bind_assoc, bind_gets. destruct (Z.eqb_spec (seg_free s) 0) as [E0|E0]; [rewrite bind_ret; apply Hfail; intros [He|(_ & _ & _ & He)]; lia|]. rewrite bind_assoc, bind_modify, bind_ret.
  destruct (new_seg p (w_pos w) seglen ltac:(lia) ltac:(lia) ltac:(lia) P1 P2) as (N1 & N2 & N3 & N4). set (g := mkSeg p _ _ _) in *. set (w1 := mkW _ _ _ _ _ _ _ _).
  assert (H1 : writing w0 w1).
  { split; unfold w1; cbn [w_pos w_queue w_queuelen w_oversize w_used w_touched w_concat]; try lia.
    - replace (total d + (w_pos w + seglen)) with (total d + w_pos w + slen g) by lia. apply tiles_snoc; try assumption. lia.
    - unfold pbufs, sum in *. rewrite fold_right_app. cbn [fold_right]. split; [|lia]. replace (pbuf_clen (sp g) + 0) with (pbuf_clen p) by (unfold g; cbn [sp]; lia). rewrite W3. clear. induction (w_queue w) as [|x l IHl]; cbn [fold_right]; lia.
    - rewrite last_seg_app. lia.
    - exact W6. }
  destruct (IH w1 (s <| seg_free := seg_free s - 1 |>) H1 Hp0 Hq0 ltac:(unfold w1; cbn [w_pos]; lia)) as (b & w' & E & Hw' & Hb & Hen). exists b, w'. split; [|split; [exact Hw'|split; [exact Hb|]]; intros [He|(_ & He & _)]; [lia|]; apply Hen; left; unfold w1; cbn [w_pos]; lia]. rewrite E. unfold w1. cbn [w_queue]. rewrite length_app. cbn [length]. f_equal. f_equal.
  change (seg_free (s <| seg_free := seg_free s - 1 |>)) with (seg_free s - 1). replace (seg_free s - 1 + Z.of_nat (length (w_queue w) + 1) - Z.of_nat (length (w_queue w'))) with (seg_free s + Z.of_nat (length (w_queue w)) - Z.of_nat (length (w_queue w'))) by lia. reflexivity.
Qed.

(** *** The new queue *)

Lemma tiles_facts l : forall a b, tiles a l b -> Forall (piece_of D) l /\ Forall seg_ok l /\ Forall (fun g => fin g = false) l /\ lens l = b - a /\
  (forall p, a <= p < b -> Exists (holds D p) l) /\ (forall g, last_seg l = Some g -> exists a', seg_at isn D g a' /\ a' + g.(slen) = b).
Proof.
  induction l as [|g l IH]; intros a b Ht; cbn [tiles] in Ht.
  - subst b. repeat split; try constructor; [unfold lens, sum; cbn [fold_right]; lia|lia|discriminate].
  - destruct Ht as [(H1 & H2 & H3 & H4) Ht]. destruct (IH _ _ Ht) as (I1 & I2 & I3 & I4 & I5 & I6). repeat split; try (constructor; assumption).
    + constructor; [now exists a|exact I1].
    + unfold lens in *. rewrite sum_cons. lia.
    + intros p Hp. destruct (Z.lt_ge_cases p (a + slen g)) as [Hq|Hq]; [apply Exists_cons_hd; exists a; split; [exact H1|lia]|apply Exists_cons_tl, I5; lia].
    + intros g' E. destruct l as [|x l]; [|exact (I6 g' E)]. injection E as <-. cbn [tiles] in Ht. exists a. split; [exact H1|exact Ht].
Qed.

Lemma extend_spec w0 w g a : tailed w0 -> (w.(w_used), w.(w_touched), w.(w_concat)) = (w0.(w_used), w0.(w_touched), w0.(w_concat)) -> seg_at isn d g a -> a + g.(slen) = total d -> seg_ok g -> fin g = false -> g.(slen) + w0.(w_pos) <= m ->
  let g' := extend arg w g in seg_at isn D g' a /\ seg_ok g' /\ fin g' = false /\ g'.(slen) = g.(slen) + w0.(w_pos) /\ pbuf_clen g'.(sp) = pbuf_clen g.(sp) + match w0.(w_concat) with None => 0 | Some _ => 1 end.
Proof.
  intros [[T1 T1'] _ T3 _ _ _ _] E Sg Ha [K1 [K2 [K3 K4]]] Hf Hm. pose proof m_ok as M. unfold TCP_MSS in M. injection E as E1 _ E3. unfold extend. rewrite E1, E3. cbv zeta. pose proof Sg as [S1 S2 S3 S4 S5 S6 S7].
  set (g1 := if w_used w0 >? 0 then _ else g). assert (H1 : sp g1 <> [] /\ concat (sp g1) = concat (sp g) ++ bytes arg 0 (w_used w0) /\ pbuf_clen (sp g1) = pbuf_clen (sp g) /\ slen g1 = slen g + w_used w0 /\ (hseq g1, hflags g1) = (hseq g, hflags g)).
  { unfold g1. destruct (Z.gtb_spec (w_used w0) 0) as [Hu|Hu].
    - cbn [sp slen hseq hflags with_field]. split; [|split; [now apply concat_on_last|split; [apply clen_on_last|split; [rewrite u16_id by word_lia; lia|reflexivity]]]]. destruct (snoc_cases (sp g)) as [E|(t & b & E)]; [contradiction|]. rewrite E, on_last_app. now destruct t.
    - replace (w_used w0) with 0 by lia. split; [exact K1|]. split; [unfold bytes; cbn [Z.to_nat firstn]; now rewrite app_nil_r|]. split; [reflexivity|]. split; [lia|reflexivity]. }
  clearbody g1. destruct H1 as (A1 & A2 & A3 & A4 & A5). injection A5 as A5 A6. set (g2 := match w_concat w0 with Some b => _ | None => g1 end).
  assert (H2 : sp g2 <> [] /\ concat (sp g2) = concat (sp g) ++ bytes arg 0 (w_pos w0) /\ pbuf_clen (sp g2) = pbuf_clen (sp g) + match w_concat w0 with None => 0 | Some _ => 1 end /\ slen g2 = slen g + w_pos w0 /\ (hseq g2, hflags g2) = (hseq g, hflags g)).
  { unfold g2. destruct (w_concat w0) as [b|].
    - cbn [sp slen hseq hflags with_field]. subst b. split; [now destruct (sp g1)|]. split; [rewrite concat_app, A2; cbn [concat]; rewrite app_nil_r, <- app_assoc; f_equal; rewrite <- (Z.add_0_l (w_used w0)) at 2; rewrite bytes_of_app by lia; f_equal; lia|].
      split; [unfold pbuf_clen in *; rewrite length_app; cbn [length]; lia|]. split; [rewrite bytes_length by lia; rewrite u16_id by word_lia; lia|congruence].
    - rewrite T3. split; [exact A1|]. split; [exact A2|]. split; [lia|]. split; [exact A4|congruence]. }
  clearbody g2. clear g1 A1 A2 A3 A4 A5 A6. destruct H2 as (B1 & B2 & B3 & B4 & B5). injection B5 as B5 B6. pose proof L_pos. split; [|split; [|split; [|now split]]].
  - split; rewrite ?B4, ?B5; try lia; try assumption.
    + rewrite stream_total_app. lia.
    + rewrite B2, S5, <- slice_app by lia. f_equal; [symmetry; apply slice_grows; lia|]. rewrite Ha. symmetry. rewrite <- (Z.add_0_r (total d)). apply slice_new. lia.
    + unfold fin in *. rewrite B6, Hf. discriminate.
    + now rewrite B6.
  - unfold seg_ok, TCP_TCPLEN in *. rewrite B4, B6. repeat split; try assumption; lia.
  - unfold fin in *. now rewrite B6.
Qed.

Lemma push_seg_spec g : (forall e a, seg_at isn e g a -> seg_at isn e (push g) a) /\ fin (push g) = fin g /\ (seg_ok g -> seg_ok (push g)).
Proof.
  assert (Hf : fin (push g) = fin g) by (unfold fin, push; cbn [hflags with_field]; change TCP_FIN with (2 ^ 0); rewrite on_lor by lia; apply orb_false_r).
  split; [intros e a S; now apply seg_flags|]. split; [exact Hf|]. unfold seg_ok, TCP_TCPLEN. intros (K1 & K2 & K3 & K4). unfold push in *. cbn [sp slen hflags with_field] in *. repeat split; try assumption.
  - rewrite on_fin_syn in *. unfold fin in Hf. cbn [hflags with_field] in Hf. rewrite Hf. change (on (hflags g .| TCP_PSH) TCP_SYN) with (on (hflags g .| TCP_PSH) (2 ^ 1)). rewrite on_lor by lia. change (Z.testbit TCP_PSH 1) with false. rewrite orb_false_r. exact K3.
  - change TCP_RST with (2 ^ 2) in *. rewrite on_lor by lia. rewrite K4. reflexivity.
Qed.

(** Up to the PSH flag of the last segment. *)
Lemma new_unsent_eq w : exists b : bool, new_unsent arg apiflags w c.(unsent) = (if b then on_last push else fun l => l) (on_last (extend arg w) c.(unsent) ++ w.(w_queue)).
Proof.
  unfold new_unsent. cbv zeta. destruct (w_queue w) as [|x l] eqn:Eq.
  - exists (w_touched w && negb (on apiflags TCP_WRITE_FLAG_MORE)). rewrite app_nil_r. destruct (snoc_cases (unsent c)) as [->|(t & g & ->)]; [now destruct (_ && _)|]. rewrite !on_last_app. destruct (_ && _); [now rewrite on_last_app|reflexivity].
  - exists (negb (on apiflags TCP_WRITE_FLAG_MORE)). rewrite <- Eq. destruct (snoc_cases (w_queue w)) as [E|(t & g & E)]; [rewrite E in Eq; discriminate Eq|]. rewrite E. destruct (on apiflags _); [reflexivity|]. cbn [negb]. now rewrite app_assoc, !on_last_app, app_assoc.
Qed.

(** What the new queue is like. *)
Record grown (w : wvars) (l : list tcp_seg) : Prop := {
  gr_pieces : Forall (piece_of D) l;
  gr_ok : Forall seg_ok l;
  gr_fin : Forall (fun g => fin g = false) l;
  gr_lens : lens l = lens c.(unsent) + L;
  gr_pbufs : pbufs l = pbufs c.(unsent) + (w.(w_queuelen) - c.(snd_queuelen));
  gr_count : length l = (length c.(unsent) + length w.(w_queue))%nat;
  gr_new : forall p, total d <= p < total d + L -> Exists (holds D p) l;
  gr_old : forall p, Exists (holds d p) c.(unsent) -> Exists (holds D p) l;
  gr_last : forall g, last_seg l = Some g -> (exists a, seg_at isn D g a /\ a + g.(slen) = total D) /\ g.(slen) + w.(w_oversize) <= m;
  gr_none : l = [] -> w.(w_oversize) = 0 }.

Lemma sum_snoc f l g : sum f (l ++ [g]) = sum f l + f g.
Proof. unfold sum. induction l as [|x l IH]; cbn [app fold_right]; lia. Qed.
Lemma sum_cat f l k : sum f (l ++ k) = sum f l + sum f k.
Proof. unfold sum. induction l as [|x l IH]; cbn [app fold_right]; lia. Qed.

Lemma grown_push w l : grown w l -> grown w (on_last push l).
Proof.
  destruct (snoc_cases l) as [->|(t & g & ->)]; [now intros|]. rewrite on_last_app. destruct (push_seg_spec g) as (P1 & P2 & P3). intros [G1 G2 G3 G4 G5 G6 G7 G8 G9 G10]. apply Forall_app in G1, G2, G3. destruct G1 as [G1 G1'], G2 as [G2 G2'], G3 as [G3 G3'].
  assert (Hh : forall p, Exists (holds D p) (t ++ [g]) -> Exists (holds D p) (t ++ [push g])).
  { intros p H. apply Exists_app in H. apply Exists_app. destruct H as [H|H]; [now left|right]. apply Exists_cons in H. destruct H as [(a & Sa & Hp)|H]; [|inversion H]. apply Exists_cons_hd. exists a. split; [now apply P1|exact Hp]. }
  split.
  - apply Forall_app. split; [exact G1|]. constructor; [|constructor]. apply Forall_inv in G1'. destruct G1' as [a Sa]. exists a. now apply P1.
  - apply Forall_app. split; [exact G2|]. constructor; [|constructor]. apply P3. exact (Forall_inv G2').
  - apply Forall_app. split; [exact G3|]. constructor; [|constructor]. rewrite P2. exact (Forall_inv G3').
  - unfold lens in *. rewrite sum_snoc in *. exact G4.
  - unfold pbufs in *. rewrite sum_snoc in *. exact G5.
  - rewrite length_app in *. exact G6.
  - intros p Hp. exact (Hh p (G7 p Hp)).
  - intros p Hp. exact (Hh p (G8 p Hp)).
  - intros g'. rewrite last_seg_app. intros [= <-]. destruct (G9 g (last_seg_app _ _)) as [(a & Sa & Ha) Hm]. split; [|exact Hm]. exists a. split; [now apply P1|exact Ha].
  - intros E. now destruct t.
Qed.

Lemma queue_grown w0 w : Forall (piece_of d) c.(unsent) -> tailed w0 -> writing w0 w -> w.(w_pos) = L -> grown w (on_last (extend arg w) c.(unsent) ++ w.(w_queue)).
Proof.
  intros Fp Tl Wr HL. pose proof Wr as [W1 W2 [W3 _] W4 W5 W6]. destruct (tiles_facts _ _ _ W2) as (Q1 & Q2 & Q3 & Q4 & Q5 & Q6). pose proof (tx_unsent _ T) as Fk. pose proof (proj2 (proj1 (Forall_app _ _ _) (oe_fin _ _ O))) as Ff. pose proof (stream_total_app d arg) as HD. pose proof (tl_len _ Tl) as Hql.
  destruct (snoc_cases (unsent c)) as [E|(t & g & E)].
  - rewrite E. cbn [on_last app length]. destruct (tl_none _ Tl E) as (Hp & Ho & Hn). rewrite Hn in Hql. rewrite Hp, Z.add_0_r in *. rewrite HL in *. split; rewrite ?E; try assumption.
    + rewrite Q4. unfold lens, sum. cbn [fold_right]. lia.
    + unfold pbufs at 2, sum. cbn [fold_right]. lia.
    + reflexivity.
    + intros p H. inversion H.
    + intros g Eg. rewrite HD. split; [exact (Q6 g Eg)|]. rewrite Eg in W5. exact W5.
    + intros En. rewrite En in W5. cbn [last_seg] in W5. now rewrite W5.
  - assert (El : last_seg (unsent c) = Some g) by (rewrite E; apply last_seg_app). destruct (oe_last _ _ O g El) as (a & Sg & Ha). pose proof (tl_last _ Tl g El) as Hm. pose proof (sg_len _ _ _ _ Sg) as Hlg. pose proof (proj1 (tl_pos _ Tl)) as Hp0. rewrite E in Fk, Ff, Fp. apply Forall_app in Fk, Ff, Fp. destruct Fk as [Fk Fk'], Ff as [Ff Ff'], Fp as [Fp _].
    destruct (extend_spec w0 w g a Tl W6 Sg Ha (Forall_inv Fk') (Forall_inv Ff') ltac:(pose proof (tl_over _ Tl); lia)) as (X1 & X2 & X3 & X4 & X5). rewrite E, on_last_app. set (g1 := extend arg w g) in *. clearbody g1.
    assert (Ft : Forall (piece_of D) t). { apply Forall_forall. intros x Hx. destruct (proj1 (Forall_forall _ _) Fp x Hx) as [ax Sx]. exists ax. apply seg_grows; [exact Sx|]. exact (proj1 (Forall_forall _ _) Ff x Hx). }
    split; rewrite ?E.
    + apply Forall_app. split; [apply Forall_app; split; [exact Ft|constructor; [now exists a|constructor]]|exact Q1].
    + apply Forall_app. split; [apply Forall_app; split; [exact Fk|now constructor]|exact Q2].
    + apply Forall_app. split; [apply Forall_app; split; [exact Ff|now constructor]|exact Q3].
    + unfold lens in *. rewrite sum_cat, !sum_snoc, X4. lia.
    + unfold pbufs in *. rewrite sum_cat, !sum_snoc, X5. lia.
    + rewrite !length_app. cbn [length]. lia.
    + intros p Hp. apply Exists_app. destruct (Z.lt_ge_cases p (total d + w_pos w0)) as [Hq|Hq]; [left|right; apply Q5; lia]. apply Exists_app. right. apply Exists_cons_hd. exists a. split; [exact X1|lia].
    + intros p H. apply Exists_app. left. apply Exists_app in H. apply Exists_app. destruct H as [H|H].
      * left. apply Exists_exists in H. destruct H as (x & Hx & ax & Sx & Hpx). apply Exists_exists. exists x. split; [exact Hx|]. exists ax. split; [|exact Hpx]. apply seg_grows; [exact Sx|]. exact (proj1 (Forall_forall _ _) Ff x Hx).
      * right. apply Exists_cons in H. destruct H as [(ag & Sag & Hpg)|H]; [|inversion H]. apply Exists_cons_hd. exists a. split; [exact X1|]. assert (ag = a) by (apply (seg_at_unique isn d g); [unfold len_of in HD; lia|assumption..]). lia.
    + intros g' Eg. destruct (snoc_cases (w_queue w)) as [En|(t' & x & En)]; rewrite En in Eg, W5, W2.
      * rewrite app_nil_r, last_seg_app in Eg. injection Eg as <-. cbn [last_seg tiles] in *. rewrite W5. split; [|lia]. exists a. split; [exact X1|lia].
      * rewrite app_assoc, last_seg_app in Eg. injection Eg as <-. rewrite last_seg_app in W5. split; [|exact W5]. rewrite HD, <- HL. apply Q6. now rewrite En, last_seg_app.
    + intros En. now destruct t.
Qed.

(** *** The call *)

Lemma queues_used_ok s : tx_ok s.(pcb) -> queues_used NOASSERT s = Ok (tt, s).
Proof.
  intros Tx. unfold queues_used, pget. rewrite bind_gets. destruct (Z.eqb_spec (snd_queuelen (pcb s)) 0) as [E|E]; cbn [negb]; [reflexivity|]. rewrite (tx_pbufs _ Tx) in E. unfold LWIP_ASSERT, Xil_Assert. destruct NOASSERT; [reflexivity|]. destruct (unacked (pcb s)); [|reflexivity]. destruct (unsent (pcb s)); [|reflexivity]. now contradiction E.
Qed.

(** The control block after a write. *)
Definition committed (w : wvars) (k : tcp_pcb) : tcp_pcb := k <| unsent_oversize := w.(w_oversize) |> <| unsent := new_unsent arg apiflags w k.(unsent) |>
    <| snd_lbb := u32 (k.(snd_lbb) + L) |> <| snd_buf := u16 (k.(snd_buf) - L) |> <| snd_queuelen := w.(w_queuelen) |>.

Record appended (A : Z) (c' : tcp_pcb) : Prop := {
  ap_tx : tx_ok c';
  ap_roomy : roomy c';
  ap_open : open_end D c';
  ap_sender : sender D A c';
  ap_unacked : c'.(unacked) = c.(unacked);
  ap_buf : c'.(snd_buf) = c.(snd_buf) - L;
  ap_flight : in_flight c' = in_flight c + L }.

Lemma commit_appended A w0 w : sender d A c -> L <= c.(snd_buf) -> tailed w0 -> writing w0 w -> w.(w_pos) = L -> appended A (committed w c) /\ queued (committed w c) = queued c + Z.of_nat (length w.(w_queue)).
Proof.
  intros Sn HL Tl Wr Hp. pose proof (proj2 (proj1 (Forall_app _ _ _) (sn_pieces _ _ _ Sn))) as Fu. pose proof (queue_grown w0 w Fu Tl Wr Hp) as Gr. destruct (new_unsent_eq w) as [b Eb]. assert (G : grown w (new_unsent arg apiflags w (unsent c))) by (rewrite Eb; destruct b; [now apply grown_push|exact Gr]). clear Gr Eb Fu.
  pose proof (wr_over _ _ Wr) as [Ho _]. pose proof (wr_len _ _ Wr) as [_ Hq8]. pose proof T as [T1 T2 T3 T4 T5 T6 T7 T8 T9]. pose proof R as [R1 R2 R3 R4]. pose proof O as [O1 O2 O3]. pose proof L_pos as HL0. destruct G as [G1 G2 G3 G4 G5 G6 G7 G8 G9 G10].
  set (U := new_unsent arg apiflags w (unsent c)) in *. assert (Fd : unacked (committed w c) = unacked c /\ unsent (committed w c) = U) by now split. destruct Fd as [Fa Fu]. apply Forall_app in O2. destruct O2 as [O2 _].
  assert (Hold : forall p, Exists (holds d p) (unacked c) -> Exists (holds D p) (unacked c)). { intros p H. apply Exists_exists in H. destruct H as (x & Hx & a & Sx & Hpx). apply Exists_exists. exists x. split; [exact Hx|]. exists a. split; [|exact Hpx]. apply seg_grows; [exact Sx|]. exact (proj1 (Forall_forall _ _) O2 x Hx). }
  split; [|unfold queued; rewrite Fa, Fu, G6; lia]. split; try reflexivity.
  - split; try assumption. rewrite Fa, Fu. change (snd_queuelen (committed w c)) with (w_queuelen w). lia. change (snd_queuelen (committed w c)) with (w_queuelen w). lia.
  - split; [exact R1| | |].
    + change (snd_buf (committed w c)) with (u16 (snd_buf c - L)). rewrite u16_id by word_lia. lia.
    + rewrite Fu. intros E. exact (G10 E).
    + rewrite Fu. intros g E. change (mss_local (committed w c)) with m. change (unsent_oversize (committed w c)) with (w_oversize w). split; [exact Ho|exact (proj2 (G9 g E))].
  - split.
    + change (snd_lbb (committed w c)) with (u32 (snd_lbb c + L)). rewrite O1, q_add, stream_total_app. reflexivity.
    + unfold queues. rewrite Fa, Fu. apply Forall_app. now split.
    + rewrite Fu. intros g E. exact (proj1 (G9 g E)).
  - split; unfold queues; rewrite Fa, Fu.
    + apply Forall_app. split; [|exact G1]. pose proof (proj1 (proj1 (Forall_app _ _ _) (sn_pieces _ _ _ Sn))) as F. apply Forall_forall. intros x Hx. destruct (proj1 (Forall_forall _ _) F x Hx) as [a Sx]. exists a. apply seg_grows; [exact Sx|]. exact (proj1 (Forall_forall _ _) O2 x Hx).
    + intros p Hp'. rewrite stream_total_app in Hp'. apply Exists_app. destruct (Z.lt_ge_cases p (total d)) as [Hlt|Hge]; [|right; apply G7; lia]. pose proof (sn_holds _ _ _ Sn p ltac:(lia)) as H. apply Exists_app in H. destruct H as [H|H]; [left; now apply Hold|right; now apply G8].
  - change (snd_buf (committed w c)) with (u16 (snd_buf c - L)). rewrite u16_id by word_lia. reflexivity.
  - unfold in_flight. rewrite Fa, Fu. lia.
Qed.

Definition nagled (s : tcp_st) : tcp_st := s <| pcb := s.(pcb) <| flags := s.(pcb).(flags) .| TF_NAGLEMEMERR |> |>.

Lemma nagled_tx s : tx_ok s.(pcb) -> tx_ok (nagled s).(pcb).
Proof. intros []. split; try assumption. unfold nagled. cbn [pcb flags ssthresh with_field]. change TF_INFR with (2 ^ 2) in *. rewrite on_lor by lia. change (Z.testbit TF_NAGLEMEMERR 2) with false. now rewrite orb_false_r. Qed.

Lemma memerr_spec w s n : s.(pcb) = c -> n = Z.of_nat (length w.(w_queue)) -> write_memerr NOASSERT w (s <| seg_free := s.(seg_free) - n |>) = Ok (ERR_MEM, nagled s).
Proof.
  intros Hc ->. unfold write_memerr, nagle_memerr. rewrite bind_pset. destruct (segs_free_spec (w_queue w) (nagled (s <| seg_free := seg_free s - Z.of_nat (length (w_queue w)) |>))) as (s' & E & Hs').
  unfold nagled in E. rewrite (bind_ok _ _ _ _ _ E). assert (Es : s' = nagled s) by (rewrite Hs'; unfold nagled; cbn [seg_free pcb with_field]; destruct s; cbn; f_equal; lia). rewrite Es. assert (Tn : tx_ok (pcb (nagled s))) by (apply nagled_tx; now rewrite Hc). rewrite (bind_ok _ _ _ _ _ (queues_used_ok _ Tn)). reflexivity.
Qed.

Lemma write_body_spec A s : s.(pcb) = c -> sender d A c -> c.(snd_queuelen) < 8 -> L <= c.(snd_buf) ->
  exists err s', write_body NOASSERT room arg apiflags s = Ok (err, s') /\
    ((err = ERR_OK /\ appended A s'.(pcb) /\ s' = s <| pcb := s'.(pcb) |> <| seg_free := s.(seg_free) + queued c - queued s'.(pcb) |>) \/ (err = ERR_MEM /\ s' = nagled s)) /\
    ((forall n, room n = true) -> L <= m -> c.(snd_queuelen) <= 5 -> 0 < s.(seg_free) -> err = ERR_OK).
Proof.
  intros Hc Sn Hq HL. assert (Hq0 : 0 <= snd_queuelen c) by (rewrite (tx_pbufs _ T); pose proof (pbufs_nonneg (unacked c)); pose proof (pbufs_nonneg (unsent c)); lia). unfold write_body, pget. rewrite bind_gets, Hc. destruct (write_tail_spec s ltac:(lia)) as (b & w & E & Hw & Hb & Hr). rewrite (bind_ok _ _ _ _ _ E). cbn [fst snd]. clear E.
  assert (Hs0 : s = s <| seg_free := seg_free s - 0 |>) by (rewrite Z.sub_0_r; now destruct s). destruct b.
  2:{ exists ERR_MEM, (nagled s). split; [rewrite Hs0 at 1; apply memerr_spec; [exact Hc|now rewrite Hw]|]. split; [right; now split|]. intros H. discriminate (Hr H). }
  specialize (Hb eq_refl). pose proof (tl_len _ Hb) as Hwl. assert (Hwq : w_queuelen w <= 8) by (destruct (w_concat w); lia). destruct (write_segs_spec w (S (length arg)) w s (writing_start w Hb Hwq)) as (b & w' & E & Hw' & Hp & Hen); [pose proof (tl_pos _ Hb); lia|destruct (w_concat w); lia|pose proof (tl_pos _ Hb); unfold len_of; lia|].
  rewrite Hw in E. cbn [length Z.of_nat] in E. rewrite Z.add_0_r in E. rewrite (bind_ok _ _ _ _ _ E). cbn [fst snd]. clear E. destruct b.
  2:{ exists ERR_MEM, (nagled s). split; [now apply memerr_spec|]. split; [right; now split|]. intros H1 H2 H3 H4. discriminate Hen. right. pose proof (tl_pos _ Hb). split; [exact H1|]. split; [lia|]. split; [destruct (w_concat w); lia|exact H4]. }
  destruct (commit_appended A w w' Sn HL Hb Hw' (Hp eq_refl)) as [Ap Qd]. unfold write_commit. rewrite bind_pset. change (pcb (s <| seg_free := _ |>)) with (pcb s). rewrite Hc. fold (committed w' c). set (s1 := (s <| seg_free := _ |>) <| pcb := committed w' c |>). assert (P1 : pcb s1 = committed w' c) by reflexivity.
  rewrite (bind_ok _ _ _ _ _ (queues_used_ok s1 ltac:(rewrite P1; exact (ap_tx _ _ Ap)))). exists ERR_OK, s1. split; [reflexivity|]. split; [left|reflexivity]. split; [reflexivity|]. rewrite P1. split; [exact Ap|]. rewrite Qd. unfold s1. replace (seg_free s + queued c - (queued c + Z.of_nat (length (w_queue w')))) with (seg_free s - Z.of_nat (length (w_queue w'))) by lia. reflexivity.
Qed.
End Write.

(** The states in which data may be written. *)
Definition writable (x : tcp_state) : bool := match x with ESTABLISHED | CLOSE_WAIT | SYN_SENT | SYN_RCVD => true | _ => false end.

Lemma checks_spec NOASSERT len s : tx_ok s.(pcb) -> 0 < len -> exists err s', tcp_write_checks NOASSERT len s = Ok (err, s') /\
  match err with
  | ERR_OK => s' = s /\ writable s.(pcb).(state) = true /\ len <= s.(pcb).(snd_buf) /\ s.(pcb).(snd_queuelen) < 8
  | ERR_MEM => s' = nagled s /\ (s.(pcb).(snd_buf) < len \/ 8 <= s.(pcb).(snd_queuelen))
  | ERR_CONN => s' = s /\ writable s.(pcb).(state) = false
  | _ => False
  end.
Proof.
  intros T Hl. unfold tcp_write_checks, pget. rewrite bind_gets. cbv zeta. set (k := if len =? 0 then _ else _).
  assert (H : exists err s', k s = Ok (err, s') /\ ((err = ERR_OK /\ s' = s /\ len <= s.(pcb).(snd_buf) /\ s.(pcb).(snd_queuelen) < 8) \/ (err = ERR_MEM /\ s' = nagled s /\ (s.(pcb).(snd_buf) < len \/ 8 <= s.(pcb).(snd_queuelen))))).
  { unfold k. rewrite (proj2 (Z.eqb_neq _ _)) by lia. destruct (Z.gtb_spec len (snd_buf (pcb s))) as [Hb|Hb]; [exists ERR_MEM, (nagled s); split; [reflexivity|]; right; auto|].
    change TCP_SND_QUEUELEN with 8. unfold TCP_SNDQUEUELEN_OVERFLOW. destruct ((_ >=? _) || _) eqn:Eq; [exists ERR_MEM, (nagled s); split; [reflexivity|]; right; split; [reflexivity|]; split; [reflexivity|right]; apply orb_true_iff in Eq; rewrite Z.geb_le, Z.gtb_lt in Eq; destruct Eq as [Eq|Eq]; [exact Eq|]; refine (Z.le_trans _ _ _ _ (Z.lt_le_incl _ _ Eq)); discriminate|].
    apply orb_false_elim in Eq. destruct Eq as [Eq _]. rewrite Z.geb_leb, Z.leb_gt in Eq. exists ERR_OK, s. split; [|left; auto]. pose proof (tx_pbufs _ T) as Hp. pose proof (pbufs_pos _ (tx_unacked _ T)) as [_ P1]. pose proof (pbufs_pos _ (tx_unsent _ T)) as [_ P2]. pose proof (pbufs_nonneg (unacked (pcb s))). pose proof (pbufs_nonneg (unsent (pcb s))).
    destruct (Z.eqb_spec (snd_queuelen (pcb s)) 0) as [E|E]; cbn [negb]; rewrite bind_wassert; try reflexivity.
    - destruct (unacked (pcb s)); [|specialize (P1 ltac:(discriminate)); lia]. destruct (unsent (pcb s)); [reflexivity|specialize (P2 ltac:(discriminate)); lia].
    - destruct (unacked (pcb s)); [|reflexivity]. destruct (unsent (pcb s)); [now contradiction E|reflexivity]. }
  clearbody k. destruct H as (err & s' & E & H). destruct (state (pcb s)); try (exists ERR_CONN, s; split; [reflexivity|now split]); exists err, s'; (split; [exact E|]); destruct H as [(-> & -> & H1 & H2)|(-> & -> & H)]; auto.
Qed.
End Queue.

