(* ===== verification/TcpFrame.v ===== *)
(** * What receiving leaves alone

    Whatever [tcp_receive] finds in the control block, if it returns then it has
    changed the state of the connection at most from ESTABLISHED to CLOSE_WAIT, on
    a FIN, and has touched neither the segment's header nor what was sent. *)

From Stdlib Require Import ZArith List Lia Bool.
From S2P Require Import Prelude Pbuf TcpIn TcpOut TcpStream.
Import ListNotations.
Open Scope Z_scope.
Open Scope c_scope.

(** Data is handed over only if there is some. *)
Definition data_ok (s : tcp_st) : Prop := forall p, s.(recv_data) = Some p -> 0 < tot_len p.

Record frame (s s' : tcp_st) : Prop := {
  fr_state : s'.(pcb).(state) = s.(pcb).(state) \/ (s.(pcb).(state) = ESTABLISHED /\ s'.(pcb).(state) = CLOSE_WAIT /\ got_fin s' = true);
  fr_fin : got_fin s = true -> got_fin s' = true;
  fr_data : data_ok s -> data_ok s';
  fr_rst : on s'.(recv_flags) TF_RESET = on s.(recv_flags) TF_RESET /\ on s'.(recv_flags) TF_CLOSED = on s.(recv_flags) TF_CLOSED;
  fr_rxclosed : on s'.(pcb).(flags) TF_RXCLOSED = on s.(pcb).(flags) TF_RXCLOSED;
  fr_input : (s'.(hdr_flags), s'.(ackno), s'.(hdr_wnd), s'.(input_pcb), s'.(tcp_ticks), s'.(xmit)) = (s.(hdr_flags), s.(ackno), s.(hdr_wnd), s.(input_pcb), s.(tcp_ticks), s.(xmit));
  fr_pcb : (s'.(pcb).(snd_nxt), s'.(pcb).(mss), s'.(pcb).(tmr)) = (s.(pcb).(snd_nxt), s.(pcb).(mss), s.(pcb).(tmr)) }.

Lemma frame_refl s : frame s s.
Proof. split; auto. Qed.
Lemma rx_frame_trans s1 s2 s3 : frame s1 s2 -> frame s2 s3 -> frame s1 s3.
Proof.
  intros [A1 A2 A7 [A3 A3'] A4 A5 A6] [B1 B2 B7 [B3 B3'] B4 B5 B6]. split; [|auto|auto|split|..]; try congruence. destruct A1 as [A1|(A1 & A1' & A1'')], B1 as [B1|(B1 & B1' & B1'')]; [left; congruence|right; repeat split; congruence|right; repeat split; [congruence..|auto]|congruence].
Qed.

(** Code that, if it returns, keeps to the frame. *)
Definition framed {A} (m : TM A) : Prop := forall s a s', m s = Ok (a, s') -> frame s s'.

Lemma framed_ret {A} (a : A) : framed (ret a).
Proof. intros s b s' E. injection E as _ <-. apply frame_refl. Qed.
Lemma framed_halt {A} : framed (@halt _ A).
Proof. intros s b s' E. discriminate E. Qed.
Lemma framed_gets {A} (f : tcp_st -> A) : framed (gets f).
Proof. intros s b s' E. injection E as _ <-. apply frame_refl. Qed.
Lemma framed_bind {A B} (m : TM A) (k : A -> TM B) : framed m -> (forall a, framed (k a)) -> framed (bind m k).
Proof. intros Hm Hk s b s' E. apply bind_inv in E. destruct E as (a & s1 & E1 & E2). exact (rx_frame_trans _ _ _ (Hm _ _ _ E1) (Hk a _ _ _ E2)). Qed.
(** A segment that is read and then used. *)
Lemma framed_if {A} (b : bool) (m k : TM A) : framed m -> framed k -> framed (if b then m else k).
Proof. now destruct b. Qed.
Lemma framed_assert N b : framed (LWIP_ASSERT N b).
Proof. unfold LWIP_ASSERT. destruct N; [apply framed_ret|]. unfold Xil_Assert. destruct b; [apply framed_ret|apply framed_halt]. Qed.
Lemma framed_modify f : (forall s, frame s (f s)) -> framed (modify f).
Proof. intros H s b s' E. injection E as _ <-. apply H. Qed.

Definition pcb_frame (c c' : tcp_pcb) : Prop := c'.(state) = c.(state) /\ on c'.(flags) TF_RXCLOSED = on c.(flags) TF_RXCLOSED /\ (c'.(snd_nxt), c'.(mss), c'.(tmr)) = (c.(snd_nxt), c.(mss), c.(tmr)).
Lemma framed_pset f : (forall c, pcb_frame c (f c)) -> framed (pset f).
Proof. intros H. apply framed_modify. intros s. destruct (H (pcb s)) as (H1 & H2 & H3). split; [left; exact H1|auto|auto|auto|exact H2|reflexivity|exact H3]. Qed.

(** Bits of the flags that masks do not touch. *)
Lemma lor_off n x y : 0 <= n -> Z.testbit y n = false -> on (x .| y) (2 ^ n) = on x (2 ^ n).
Proof. intros Hn Hy. now rewrite on_lor, Hy, orb_false_r. Qed.
Lemma ldiff_off n x y : 0 <= n -> Z.testbit y n = false -> on (off_bits x y) (2 ^ n) = on x (2 ^ n).
Proof. intros Hn Hy. now rewrite on_off, Hy, andb_true_r. Qed.
Lemma rx_lor x y : Z.testbit y 4 = false -> on (x .| y) TF_RXCLOSED = on x TF_RXCLOSED.
Proof. now apply (lor_off 4). Qed.
Lemma rx_off x y : Z.testbit y 4 = false -> on (off_bits x y) TF_RXCLOSED = on x TF_RXCLOSED.
Proof. now apply (ldiff_off 4). Qed.

Create HintDb framed.
#[export] Hint Resolve framed_ret framed_halt framed_gets framed_assert : framed.

Ltac framed_pcb :=
  apply framed_pset; intros ?;
  repeat match goal with |- pcb_frame _ (if ?b then _ else _) => destruct b | |- pcb_frame _ (match ?x with _ => _ end) => destruct x end;
  (split; [reflexivity|split; [cbn [flags with_field]; rewrite ?rx_lor, ?rx_off by reflexivity; reflexivity|reflexivity]]).
Ltac framed_mod := apply framed_modify; intros ?; split; [left; reflexivity|auto|auto|split; reflexivity|reflexivity|reflexivity|reflexivity].
(** One construct of the code at a time. *)
Ltac framed_step :=
  match goal with
  | |- framed (bind _ _) => apply framed_bind; [|intros ?]
  | |- framed (if _ then _ else _) => apply framed_if
  | |- framed (match ?x with _ => _ end) => destruct x
  | |- framed (pset _) => framed_pcb
  | |- framed (set_inseg _) => unfold set_inseg; framed_mod
  | |- framed (let _ := _ in _) => cbv zeta
  | |- framed (pget _) => unfold pget
  | |- forall _, framed _ => intros ?
  | |- framed (modify _) => framed_mod
  | |- _ => solve [eauto with framed]
  end.
Ltac framed_code := repeat framed_step.

Section Receive.
Context (NOASSERT : bool) (ack_out : tcp_pcb -> option err_t).

Lemma tcp_ack_framed : framed tcp_ack.
Proof. unfold tcp_ack. framed_code. Qed.
Lemma tcp_ack_now_framed : framed tcp_ack_now.
Proof. unfold tcp_ack_now. framed_code. Qed.
Lemma tcp_seg_free_framed : framed tcp_seg_free.
Proof. unfold tcp_seg_free. framed_code. Qed.
Hint Resolve tcp_ack_framed tcp_ack_now_framed tcp_seg_free_framed : framed.
Lemma tcp_segs_free_framed l : framed (tcp_segs_free l).
Proof. induction l; cbn [tcp_segs_free]; framed_code. Qed.
Lemma tcp_seg_copy_framed g : framed (tcp_seg_copy g).
Proof. unfold tcp_seg_copy. framed_code. Qed.
Lemma update_ann_framed : framed (tcp_update_rcv_ann_wnd NOASSERT).
Proof. unfold tcp_update_rcv_ann_wnd. framed_code. Qed.
Lemma empty_ack_framed : framed (tcp_send_empty_ack ack_out).
Proof. unfold tcp_send_empty_ack. framed_code. Qed.
Lemma tcp_rexmit_framed : framed tcp_rexmit.
Proof. unfold tcp_rexmit. apply framed_pset. intros c. destruct (unacked c); [now repeat split|]. cbv zeta. destruct (goes_last _ _); now repeat split. Qed.
Hint Resolve tcp_segs_free_framed tcp_seg_copy_framed update_ann_framed empty_ack_framed tcp_rexmit_framed : framed.
Lemma tcp_rexmit_fast_framed : framed tcp_rexmit_fast.
Proof. unfold tcp_rexmit_fast. framed_code. Qed.
Lemma update_window_framed : framed update_window.
Proof. unfold update_window. framed_code. Qed.
Hint Resolve tcp_rexmit_fast_framed update_window_framed : framed.
Lemma duplicate_ack_framed e : framed (duplicate_ack e).
Proof. unfold duplicate_ack. framed_code. Qed.
Lemma free_acked_framed g : framed (free_acked NOASSERT g).
Proof. unfold free_acked. framed_code. Qed.
Hint Resolve duplicate_ack_framed free_acked_framed : framed.
Lemma ack_unacked_framed l : framed (ack_unacked NOASSERT l).
Proof. induction l; cbn [ack_unacked]; framed_code. Qed.
Lemma ack_unsent_framed l : framed (ack_unsent NOASSERT l).
Proof. induction l; cbn [ack_unsent]; framed_code. Qed.
Lemma grow_cwnd_framed : framed grow_cwnd.
Proof. unfold grow_cwnd. framed_code. Qed.
Lemma estimate_rtt_framed : framed estimate_rtt.
Proof. unfold estimate_rtt. framed_code. Qed.
Hint Resolve ack_unacked_framed ack_unsent_framed grow_cwnd_framed estimate_rtt_framed : framed.
Lemma new_ack_framed : framed (new_ack NOASSERT).
Proof. unfold new_ack. framed_code. Qed.
Hint Resolve new_ack_framed : framed.
Lemma receive_ack_framed : framed (receive_ack NOASSERT ack_out).
Proof. unfold receive_ack. framed_code. Qed.

Lemma trim_front_framed : framed (trim_front NOASSERT).
Proof. unfold trim_front. framed_code. Qed.
Lemma set_tcplen_framed : framed set_tcplen.
Proof. unfold set_tcplen. framed_code. Qed.
Hint Resolve set_tcplen_framed : framed.
Lemma cut_inseg_framed n : framed (cut_inseg n).
Proof. unfold cut_inseg. framed_code. Qed.
Hint Resolve cut_inseg_framed : framed.
Lemma trim_to_window_framed : framed (trim_to_window NOASSERT).
Proof. unfold trim_to_window. framed_code. Qed.
Lemma drop_covered_framed l : framed (drop_covered l).
Proof. induction l; cbn [drop_covered]; framed_code. Qed.
Hint Resolve drop_covered_framed : framed.
Lemma adjust_ooseq_framed : framed (adjust_ooseq NOASSERT).
Proof. unfold adjust_ooseq. framed_code. Qed.
Lemma oos_covered_framed l : forall g, framed (oos_covered g l).
Proof. induction l; intros g; cbn [oos_covered]; framed_code. Qed.
Hint Resolve oos_covered_framed : framed.
Lemma oos_insert_framed g l : framed (tcp_oos_insert_segment g l).
Proof. unfold tcp_oos_insert_segment. framed_code. Qed.
Lemma oos_window_framed g : framed (oos_window NOASSERT g).
Proof. unfold oos_window. framed_code. Qed.
Hint Resolve oos_insert_framed oos_window_framed : framed.
Lemma oos_walk_framed l : forall p, framed (oos_walk NOASSERT p l).
Proof. induction l; intros p; cbn [oos_walk]; framed_code. Qed.
Hint Resolve oos_walk_framed : framed.
Lemma out_of_sequence_framed : framed (receive_out_of_sequence NOASSERT ack_out).
Proof. unfold receive_out_of_sequence. framed_code. Qed.

(** A FIN. *)
Lemma fin_flag r : on (r .| TF_GOT_FIN) TF_GOT_FIN = true /\ on (r .| TF_GOT_FIN) TF_RESET = on r TF_RESET /\ on (r .| TF_GOT_FIN) TF_CLOSED = on r TF_CLOSED.
Proof. split; [|split; [now apply (lor_off 3)|now apply (lor_off 4)]]. change TF_GOT_FIN with (2 ^ 5). rewrite on_lor by lia. apply orb_true_r. Qed.

Lemma note_fin_framed : framed (modify (fun s => s <| recv_flags := s.(recv_flags) .| TF_GOT_FIN |>)).
Proof. apply framed_modify. intros s. destruct (fin_flag (recv_flags s)) as (F1 & F2 & F3). split; [left; reflexivity|intros _; exact F1|auto|split; assumption|reflexivity..]. Qed.

Lemma take_fin_framed : framed (modify (fun s => s <| recv_flags := s.(recv_flags) .| TF_GOT_FIN |>) ;; pset (fun c => match c.(state) with ESTABLISHED => c <| state := CLOSE_WAIT |> | _ => c end)).
Proof.
  intros s a s' E. rewrite bind_modify in E. unfold pset, modify in E. injection E as _ <-. destruct (fin_flag (recv_flags s)) as (F1 & F2 & F3). change (pcb (s <| recv_flags := _ |>)) with (pcb s).
  split; cbn [recv_flags hdr_flags ackno hdr_wnd input_pcb tcp_ticks xmit with_field]; [|intros _; exact F1|auto|split; assumption|..]; cbn [pcb with_field].
  - destruct (state (pcb s)) eqn:Es; try (left; exact Es). right. repeat split. exact F1.
  - now destruct (state (pcb s)).
  - reflexivity.
  - now destruct (state (pcb s)).
Qed.
Hint Resolve receive_ack_framed trim_front_framed trim_to_window_framed adjust_ooseq_framed out_of_sequence_framed note_fin_framed take_fin_framed : framed.

Lemma deliver_framed g : framed (when tot_len g.(sp) >? 0 then modify (fun s => s <| recv_data := match s.(recv_data) with Some d => Some (d ++ g.(sp)) | None => Some g.(sp) end |>)).
Proof.
  destruct (Z.gtb_spec (tot_len (sp g)) 0) as [Hg|_]; [|apply framed_ret]. apply framed_modify. intros s. split; [left; reflexivity|auto|..]; [|auto|reflexivity..]. intros _ p E. cbn [recv_data with_field] in E.
  unfold tot_len in *. destruct (recv_data s); injection E as <-; [rewrite concat_app, length_app; lia|lia].
Qed.
Hint Resolve deliver_framed : framed.

Lemma dequeue_framed l : framed (dequeue NOASSERT l).
Proof.
  induction l as [|g l IH]; cbn [dequeue]; [framed_code|]. apply framed_bind; [framed_code|intros n]. apply framed_if; [|framed_code].
  repeat (apply framed_bind; [first [exact take_fin_framed|apply framed_if; [exact take_fin_framed|framed_code]|apply deliver_framed|framed_code]|intros ?]). exact IH.
Qed.
Hint Resolve dequeue_framed : framed.

(** From a given state. *)
Definition framed_at {A} (s : tcp_st) (m : TM A) : Prop := forall a s', m s = Ok (a, s') -> frame s s'.
Lemma framed_here {A} (k : tcp_st -> TM A) : (forall s, framed_at s (k s)) -> framed (do s <- gets (fun s => s); k s).
Proof. intros H s a s' E. rewrite bind_gets in E. exact (H s a s' E). Qed.
Lemma framed_after {A B} s (m : TM A) (k : A -> TM B) : framed m -> (forall a s1, m s = Ok (a, s1) -> s1.(inseg) = s.(inseg)) -> (forall a s1, s1.(inseg) = s.(inseg) -> framed_at s1 (k a)) -> framed_at s (bind m k).
Proof. intros Hm Hi Hk a s' E. apply bind_inv in E. destruct E as (b & s1 & E1 & E2). exact (rx_frame_trans _ _ _ (Hm _ _ _ E1) (Hk b s1 (Hi _ _ E1) _ _ E2)). Qed.

Lemma update_ann_inseg s v s' : tcp_update_rcv_ann_wnd NOASSERT s = Ok (v, s') -> s'.(inseg) = s.(inseg).
Proof.
  unfold tcp_update_rcv_ann_wnd, pget, pset, LWIP_ASSERT, Xil_Assert. rewrite bind_gets. cbv zeta. destruct (TCP_SEQ_GEQ _ _); [intros E; injection E as _ <-; reflexivity|]. destruct (TCP_SEQ_GT _ _); [intros E; injection E as _ <-; reflexivity|].
  rewrite bind_assoc. destruct NOASSERT; [intros E; injection E as _ <-; reflexivity|]. destruct (_ <=? _); [intros E; injection E as _ <-; reflexivity|discriminate].
Qed.
Lemma assert_inseg b s v s' : LWIP_ASSERT NOASSERT b s = Ok (v, s') -> s'.(inseg) = s.(inseg).
Proof. unfold LWIP_ASSERT, Xil_Assert. destruct NOASSERT, b; intros E; try discriminate E; injection E as _ <-; reflexivity. Qed.

Lemma take_first_framed s g : s.(inseg) = g -> framed_at s (when tot_len g.(sp) >? 0 then modify (fun s => s <| recv_data := Some s.(inseg).(sp) |> <| inseg_p := false |>)).
Proof.
  intros Hg a s' E. destruct (Z.gtb_spec (tot_len (sp g)) 0) as [Hp|_]; injection E as _ <-; [|apply frame_refl]. split; [left; reflexivity|auto|..]; [|auto|reflexivity..]. intros _ p E. cbn [recv_data with_field] in E. injection E as <-. now rewrite Hg.
Qed.

Lemma in_sequence_framed : framed (receive_in_sequence NOASSERT).
Proof.
  unfold receive_in_sequence. do 3 (apply framed_bind; [framed_code|intros ?]). apply framed_here. intros s. set (g := inseg s).
  apply framed_after; [framed_code|intros ? ? E; injection E as _ <-; reflexivity|intros ? s1 E1]. apply framed_after; [framed_code|intros ? ? E; exact (assert_inseg _ _ _ _ E)|intros ? s2 E2].
  apply framed_after; [framed_code|intros ? ? E; injection E as _ <-; reflexivity|intros ? s3 E3]. apply framed_after; [framed_code|intros ? ? E; exact (update_ann_inseg _ _ _ E)|intros ? s4 E4].
  intros b s' E. apply bind_inv in E. destruct E as ([] & s5 & E5 & E6). refine (rx_frame_trans _ _ _ (take_first_framed s4 g ltac:(unfold g; congruence) _ _ E5) _). revert E6.
  match goal with |- ?m s5 = _ -> _ => assert (Hm : framed m); [|apply Hm] end. apply framed_bind; [apply framed_if; [exact note_fin_framed|framed_code]|intros ?]. framed_code.
Qed.
Hint Resolve in_sequence_framed : framed.

Lemma receive_data_framed : framed (receive_data NOASSERT ack_out).
Proof. unfold receive_data. framed_code. Qed.
Hint Resolve receive_data_framed : framed.

Lemma tcp_receive_framed : framed (tcp_receive NOASSERT ack_out).
Proof. unfold tcp_receive. framed_code. Qed.
End Receive.
