(* ===== verification/TcpSend.v ===== *)
(** * Sending keeps to the window

    [tcp_output] sends segments of the queue that fit the window of the peer and
    the congestion window, in order, and puts them where acknowledgements are
    awaited; nothing is lost, and the receiver's side keeps its meaning. *)

From Stdlib Require Import ZArith List Lia Bool.
From S2P Require Import Prelude Pbuf TcpIn TcpOut TcpStream TcpAck TcpFrame.
Import ListNotations.
Open Scope Z_scope.
Open Scope c_scope.

(** ** The queue of segments that await their acknowledgement *)

Lemma sum_app f l1 l2 : sum f (l1 ++ l2) = sum f l1 + sum f l2.
Proof. induction l1 as [|g l1 IH]; cbn [app]; [reflexivity|]. rewrite !sum_cons, IH. lia. Qed.

Lemma put_sum f seg l : sum f (put_unacked seg l) = f seg + sum f l.
Proof. destruct l as [|x t]; [reflexivity|]. cbn [put_unacked]. destruct (TCP_SEQ_LT _ _); [apply insert_sum|]. rewrite sum_app. cbn [sum fold_right]. lia. Qed.
Lemma put_length seg l : length (put_unacked seg l) = S (length l).
Proof. destruct l as [|x t]; [reflexivity|]. cbn [put_unacked]. destruct (TCP_SEQ_LT _ _); [apply insert_length|]. rewrite length_app. cbn [length]. lia. Qed.
Lemma put_Forall (P : tcp_seg -> Prop) seg l : P seg -> Forall P l -> Forall P (put_unacked seg l).
Proof. intros Hs Hl. destruct l as [|x t]; [now constructor|]. cbn [put_unacked]. destruct (TCP_SEQ_LT _ _); [now apply insert_Forall|]. apply Forall_app. split; [exact Hl|now constructor]. Qed.

(** The header with ACK is the same segment. *)
Lemma ack_flag_ok seg : seg_ok seg -> seg_ok (seg <| hflags := seg.(hflags) .| TCP_ACK |>).
Proof.
  intros (H1 & H2 & H3 & H4). split; [exact H1|]. split; [exact H2|]. cbn [hflags with_field]. change TCP_RST with (2 ^ 2) in *. rewrite on_lor by lia. split; [|now rewrite H4].
  unfold TCP_TCPLEN in *. cbn [slen hflags with_field]. rewrite on_fin_syn in *. change TCP_FIN with (2 ^ 0) in *. change TCP_SYN with (2 ^ 1) in *. rewrite !on_lor by lia. now rewrite !orb_false_r.
Qed.

Section Send.
Context (isn : Z) (data : list Z) (NOASSERT : bool) (ack_out : tcp_pcb -> option err_t) (route : option Z) (seg_out : tcp_pcb -> tcp_seg -> option err_t).
Abbreviation rx := (rx isn data).

(** What sending leaves alone, in the control block and around it. *)
Definition pcb_kept (c : tcp_pcb) := (c.(state), c.(ooseq), c.(rcv_nxt), c.(rcv_wnd), c.(rcv_ann_wnd), c.(mss), c.(lastack), c.(snd_buf), c.(snd_wnd), c.(cwnd), on c.(flags) TF_RXCLOSED).
Definition input_kept (s : tcp_st) := (s.(inseg), s.(seqno), s.(ackno), s.(tcplen), s.(hdr_flags), s.(hdr_wnd), s.(recv_acked), s.(recv_flags), s.(recv_data), s.(seg_free), s.(input_pcb), s.(tcp_ticks)).

(** A transmitted segment: it fits the window, and carries the acknowledgement
    and the announced window. *)
Definition fits (wnd : Z) (c : tcp_pcb) (x : tcp_seg * Z * Z) : Prop :=
  let '(g, a, w) := x in u32 (g.(hseq) - c.(lastack) + g.(slen)) <= wnd /\ a = c.(rcv_nxt) /\ w = c.(rcv_ann_wnd).

Record out_step (wnd : Z) (s s' : tcp_st) : Prop := {
  ou_rx : forall N, rx N s.(pcb) -> rx N s'.(pcb);
  ou_tx : tx_ok s'.(pcb);
  ou_pcb : pcb_kept s'.(pcb) = pcb_kept s.(pcb);
  ou_input : input_kept s' = input_kept s;
  ou_queued : queued s'.(pcb) = queued s.(pcb);
  ou_flight : in_flight s'.(pcb) = in_flight s.(pcb);
  ou_sent : exists l, s'.(xmit) = s.(xmit) ++ l /\ Forall (fits wnd s.(pcb)) l }.

Lemma out_step_refl wnd s : tx_ok s.(pcb) -> out_step wnd s s.
Proof. intros T. split; auto. exists []. now rewrite app_nil_r. Qed.

Lemma fits_kept wnd c c' x : pcb_kept c' = pcb_kept c -> fits wnd c' x -> fits wnd c x.
Proof. intros E. unfold pcb_kept in E. injection E as _ _ E1 _ E2 _ E3 _ _ _ _. destruct x as [[g a] w]. unfold fits. now rewrite E1, E2, E3. Qed.

Lemma out_step_trans wnd s1 s2 s3 : out_step wnd s1 s2 -> out_step wnd s2 s3 -> out_step wnd s1 s3.
Proof.
  intros [A1 _ A3 A4 A5 A6 (l1 & A7 & A8)] [B1 B2 B3 B4 B5 B6 (l2 & B7 & B8)]. split; [auto|exact B2|congruence..|]. exists (l1 ++ l2). split; [now rewrite B7, A7, app_assoc|].
  apply Forall_app. split; [exact A8|]. eapply Forall_impl; [|exact B8]. intros x. now apply fits_kept.
Qed.

(** Updates of the control block. *)
Definition okset (f : tcp_pcb -> tcp_pcb) : Prop := forall c, tx_ok c ->
  (forall N, rx N c -> rx N (f c)) /\ tx_ok (f c) /\ pcb_kept (f c) = pcb_kept c /\ queued (f c) = queued c /\ in_flight (f c) = in_flight c.

Lemma okset_step wnd f s : okset f -> tx_ok s.(pcb) -> out_step wnd s (s <| pcb := f s.(pcb) |>).
Proof. intros Hf T. destruct (Hf _ T) as (H1 & H2 & H3 & H4 & H5). split; try assumption; [reflexivity|]. exists []. split; [now rewrite app_nil_r|constructor]. Qed.

Lemma okset_if (b : tcp_pcb -> bool) f g : okset f -> okset g -> okset (fun c => if b c then f c else g c).
Proof. intros Hf Hg c T. destruct (b c); [exact (Hf c T)|exact (Hg c T)]. Qed.
Lemma okset_id : okset (fun c => c).
Proof. intros c T. split; [auto|]. split; [exact T|]. now repeat split. Qed.

Lemma rx_fields N c c' : (c'.(rcv_nxt), c'.(rcv_wnd), c'.(rcv_ann_wnd), c'.(mss), c'.(ooseq)) = (c.(rcv_nxt), c.(rcv_wnd), c.(rcv_ann_wnd), c.(mss), c.(ooseq)) ->
  c'.(rcv_ann_right_edge) = c.(rcv_ann_right_edge) \/ c'.(rcv_ann_right_edge) = u32 (c.(rcv_nxt) + c.(rcv_ann_wnd)) -> rx N c -> rx N c'.
Proof.
  intros E He [X1 X2 X3 X4 X5 X6 X7]. injection E as E1 E2 E3 E4 E5. split; rewrite ?E1, ?E2, ?E3, ?E4, ?E5; try assumption. destruct He as [-> | ->]; [exact X5|]. exists (N + rcv_ann_wnd c). rewrite X2, q_add. split; [reflexivity|lia].
Qed.

Ltac is_okset := intros c T; split; [intros N; apply rx_fields; [reflexivity|first [left; reflexivity|right; reflexivity]]|split; [destruct T; now split|split; [reflexivity|split; reflexivity]]].

Lemma edge_okset : okset (fun c => c <| rcv_ann_right_edge := u32 (c.(rcv_nxt) + c.(rcv_ann_wnd)) |>).
Proof. is_okset. Qed.
Lemma rtime_okset : okset (fun c => if c.(rtime) <? 0 then c <| rtime := 0 |> else c).
Proof. apply okset_if; [is_okset|exact okset_id]. Qed.
Lemma rttest_okset t g : okset (fun c => if c.(rttest) =? 0 then c <| rttest := t |> <| rtseq := g |> else c).
Proof. apply okset_if; [is_okset|exact okset_id]. Qed.
Lemma flags_okset g : (forall f, on (g f) TF_INFR = on f TF_INFR) -> (forall f, on (g f) TF_RXCLOSED = on f TF_RXCLOSED) -> okset (fun c => c <| flags := g c.(flags) |>).
Proof.
  intros Hg Hr c T. split; [intros N; apply rx_fields; [reflexivity|left; reflexivity]|]. split; [|split; [unfold pcb_kept; cbn [flags with_field]; now rewrite Hr|split; reflexivity]]. destruct T. split; try assumption. intros H. apply tx_infr. rewrite <- (Hg (flags c)). exact H.
Qed.
Lemma oversize_okset : okset (fun c => match c.(unsent) with [] => c <| unsent_oversize := 0 |> | _ => c end).
Proof. intros c T. destruct (unsent c); [revert c T; is_okset|exact (okset_id c T)]. Qed.
Lemma snd_nxt_okset nxt : okset (fun c => if TCP_SEQ_LT c.(snd_nxt) nxt then c <| snd_nxt := nxt |> else c).
Proof. apply okset_if; [is_okset|exact okset_id]. Qed.

Lemma bind_oset {B} f (k : unit -> TM B) s : bind (pset f) k s = k tt (s <| pcb := f s.(pcb) |>).
Proof. reflexivity. Qed.

(** *** One segment *)

Lemma output_segment_spec wnd seg s : tx_ok s.(pcb) -> u32 (seg.(hseq) - s.(pcb).(lastack) + seg.(slen)) <= wnd ->
  exists err s', tcp_output_segment seg_out seg s = Ok (err, s') /\ out_step wnd s s' /\ s'.(pcb).(unsent) = s.(pcb).(unsent) /\ s'.(pcb).(unacked) = s.(pcb).(unacked) /\ s'.(pcb).(snd_queuelen) = s.(pcb).(snd_queuelen) /\
    err = match seg_out s.(pcb) seg with None => ERR_OK | Some e => e end.
Proof.
  intros T Hf. unfold tcp_output_segment, pget. rewrite bind_gets. destruct (seg_out (pcb s) seg) as [err|]; [|exists ERR_OK, s; split; [reflexivity|]; split; [now apply out_step_refl|now repeat split]].
  set (f1 := fun c : tcp_pcb => c <| rcv_ann_right_edge := u32 (rcv_nxt c + rcv_ann_wnd c) |>). set (f2 := fun c : tcp_pcb => if rtime c <? 0 then c <| rtime := 0 |> else c). set (f3 := fun t (c : tcp_pcb) => if rttest c =? 0 then c <| rttest := t |> <| rtseq := hseq seg |> else c).
  assert (U : forall c t, unsent (f3 t (f2 (f1 c))) = unsent c /\ unacked (f3 t (f2 (f1 c))) = unacked c /\ snd_queuelen (f3 t (f2 (f1 c))) = snd_queuelen c) by (intros c t; unfold f3, f2; destruct (_ <? 0), (_ =? 0); now repeat split).
  rewrite bind_oset, bind_oset, bind_gets. pose proof (okset_step wnd f1 s edge_okset T) as S1. set (s1 := s <| pcb := f1 (pcb s) |>) in *. pose proof (okset_step wnd f2 s1 rtime_okset (ou_tx _ _ _ S1)) as S2.
  specialize (U (pcb s) (tcp_ticks s)). change (f1 (pcb s)) with (pcb s1) in U. set (s2 := s1 <| pcb := f2 (pcb s1) |>) in *. change (f2 (pcb s1)) with (pcb s2) in U. rewrite bind_oset. change (tcp_ticks s2) with (tcp_ticks s). fold (f3 (tcp_ticks s)).
  pose proof (okset_step wnd (f3 (tcp_ticks s)) s2 (rttest_okset _ _) (ou_tx _ _ _ S2)) as S3. change (_ <| pcb := f3 (tcp_ticks s) (pcb s2) |>) with (s2 <| pcb := f3 (tcp_ticks s) (pcb s2) |>). set (s3 := s2 <| pcb := _ |>) in *. change (f3 (tcp_ticks s) (pcb s2)) with (pcb s3) in U.
  rewrite bind_modify. pose proof (out_step_trans _ _ _ _ S1 (out_step_trans _ _ _ _ S2 S3)) as S. clearbody s1 s2 s3. clear S1 S2 S3. exists err. eexists. split; [reflexivity|]. split; [|now split; [|split; [|split]]; try apply U].
  destruct S as [A1 A2 A3 A4 A5 A6 (l & A7 & A8)]. split; try assumption. exists (l ++ [(seg, rcv_nxt (pcb s3), rcv_ann_wnd (pcb s3))]). cbn [xmit with_field]. rewrite A7, <- app_assoc. split; [reflexivity|]. apply Forall_app. split; [exact A8|]. constructor; [|constructor].
  unfold pcb_kept in A3. injection A3 as _ _ E1 _ E2 _ _ _ _ _ _. unfold fits. now rewrite E1, E2.
Qed.

(** The segment goes from one queue to the other. *)
Definition move (seg : tcp_seg) (rest : list tcp_seg) (c : tcp_pcb) : tcp_pcb := c <| unsent := rest |> <| unacked := put_unacked seg c.(unacked) |>.

Lemma move_ok seg rest c : tx_ok c -> c.(unsent) = seg :: rest ->
  (forall N, rx N c -> rx N (move seg rest c)) /\ tx_ok (move seg rest c) /\ pcb_kept (move seg rest c) = pcb_kept c /\ queued (move seg rest c) = queued c /\ in_flight (move seg rest c) = in_flight c.
Proof.
  intros [T1 T2 T3 T4 T5 T6 T7 T8 T9] E. rewrite E in T1, T4. pose proof (Forall_inv T4) as Hs. apply Forall_inv_tail in T4. split; [intros N; apply rx_fields; [reflexivity|left; reflexivity]|].
  split; [|split; [reflexivity|]].
  - split; unfold move; cbn [snd_queuelen unacked unsent cwnd mss ssthresh snd_wnd flags with_field]; try assumption; [|now apply put_Forall]. unfold pbufs in *. rewrite sum_cons in T1. rewrite put_sum. lia.
  - unfold queued, in_flight, lens, move. cbn [unacked unsent with_field]. rewrite put_length, put_sum, E, sum_cons. cbn [length]. split; lia.
Qed.

Definition ack_done (c : tcp_pcb) : tcp_pcb := if is_syn_sent c.(state) then c else c <| flags := off_bits c.(flags) (TF_ACK_DELAY .| TF_ACK_NOW) |>.
Definition next_to (nxt : Z) (c : tcp_pcb) : tcp_pcb := if TCP_SEQ_LT c.(snd_nxt) nxt then c <| snd_nxt := nxt |> else c.

Lemma ack_done_unsent r c : ack_done (c <| unsent := r |>) = (ack_done c) <| unsent := r |>.
Proof. unfold ack_done. change (state (c <| unsent := r |>)) with (state c). now destruct (is_syn_sent (state c)). Qed.
Lemma next_to_unsent nxt r c : next_to nxt (c <| unsent := r |>) = (next_to nxt c) <| unsent := r |>.
Proof. unfold next_to. change (snd_nxt (c <| unsent := r |>)) with (snd_nxt c). now destruct (TCP_SEQ_LT (snd_nxt c) nxt). Qed.

Lemma ack_done_okset : okset ack_done.
Proof. apply (okset_if (fun c => is_syn_sent c.(state))); [exact okset_id|]. apply (flags_okset (fun f => off_bits f (TF_ACK_DELAY .| TF_ACK_NOW))); [apply infr_off|]. intros f. now apply rx_off. Qed.

Lemma segment_sent_spec wnd seg rest s : tx_ok s.(pcb) -> s.(pcb).(unsent) = seg :: rest -> exists s', segment_sent seg rest s = Ok (tt, s') /\ out_step wnd s s' /\ s'.(pcb).(unsent) = rest.
Proof.
  intros T E. pose proof (tx_unsent _ T) as Hok. rewrite E in Hok. destruct (Forall_inv Hok) as (_ & _ & Hl & _). unfold segment_sent. cbv zeta. rewrite (proj2 (Z.gtb_lt _ 0)) by lia. set (nxt := u32 _).
  assert (Hm : forall c, (fun c => c <| unacked := put_unacked seg c.(unacked) |>) (next_to nxt (ack_done (c <| unsent := rest |>))) = move seg rest (next_to nxt (ack_done c))).
  { intros c. rewrite ack_done_unsent, next_to_unsent. reflexivity. }
  pose proof (okset_step wnd ack_done s ack_done_okset T) as S1. set (s1 := s <| pcb := ack_done (pcb s) |>) in *. pose proof (okset_step wnd (next_to nxt) s1 (snd_nxt_okset nxt) (ou_tx _ _ _ S1)) as S2. set (s2 := s1 <| pcb := next_to nxt (pcb s1) |>) in *.
  assert (E2 : unsent (pcb s2) = seg :: rest) by (rewrite <- E; unfold s2, s1; cbn [pcb with_field]; unfold next_to, ack_done; destruct (is_syn_sent _), (TCP_SEQ_LT _ _); reflexivity).
  destruct (move_ok seg rest _ (ou_tx _ _ _ S2) E2) as (M1 & M2 & M3 & M4 & M5). exists (s2 <| pcb := move seg rest (pcb s2) |>). split; [unfold s2, s1; cbn [pcb with_field]; rewrite <- Hm; reflexivity|]. split; [|reflexivity].
  refine (out_step_trans _ _ _ _ (out_step_trans _ _ _ _ S1 S2) _). split; try assumption; [reflexivity|]. exists []. split; [now rewrite app_nil_r|constructor].
Qed.

(** *** The queue *)

(** The first segment left does not fit, or Nagle's algorithm holds it. *)
Definition stopped (wnd : Z) (c : tcp_pcb) : Prop :=
  match c.(unsent) with [] => True | seg :: _ => wnd < u32 (seg.(hseq) - c.(lastack) + seg.(slen)) \/ tcp_do_output_nagle c = false end.

Lemma output_done_spec wnd s : tx_ok s.(pcb) -> exists s', output_done s = Ok (ERR_OK, s') /\ out_step wnd s s' /\ (stopped wnd s.(pcb) -> stopped wnd s'.(pcb)).
Proof.
  intros T. unfold output_done. rewrite !bind_oset. set (f1 := fun c : tcp_pcb => match unsent c with [] => c <| unsent_oversize := 0 |> | _ => c end). pose proof (okset_step wnd f1 s oversize_okset T) as S1.
  set (f2 := fun c : tcp_pcb => c <| flags := off_bits (flags c) TF_NAGLEMEMERR |>).
  assert (H2 : okset f2) by (apply (flags_okset (fun f => off_bits f TF_NAGLEMEMERR)); intros f; [now apply (ldiff_off 2)|now apply rx_off]).
  pose proof (okset_step wnd f2 _ H2 (ou_tx _ _ _ S1)) as S2. eexists. split; [reflexivity|]. split; [exact (out_step_trans _ _ _ _ S1 S2)|].
  assert (Hn : forall c, on (off_bits (flags c) TF_NAGLEMEMERR) (TF_NODELAY .| TF_INFR) = on (flags c) (TF_NODELAY .| TF_INFR)).
  { intros c. unfold on, off_bits. now rewrite Z.ldiff_land, <- Z.land_assoc. }
  unfold stopped. cbn [pcb with_field]. unfold f1. destruct (unsent (pcb s)) as [|seg rest] eqn:Eu; [intros _; unfold f2; cbn [unsent with_field]; try rewrite Eu; exact I|]. unfold f2. cbn [unsent lastack with_field]. rewrite Eu. intros [H|H]; [now left|right].
  unfold tcp_do_output_nagle in *. cbn [unacked unsent flags mss snd_buf snd_queuelen with_field]. rewrite Eu in H. now rewrite Hn.
Qed.

Lemma bind_oassert {B} c (k : unit -> TM B) s : c = true -> bind (LWIP_ASSERT NOASSERT c) k s = k tt s.
Proof. intros ->. unfold LWIP_ASSERT. now destruct NOASSERT. Qed.

Lemma head_okset seg seg' rest c : seg_ok seg' -> seg'.(sp) = seg.(sp) -> seg'.(slen) = seg.(slen) -> tx_ok c -> c.(unsent) = seg :: rest ->
  (forall N, rx N c -> rx N (c <| unsent := seg' :: rest |>)) /\ tx_ok (c <| unsent := seg' :: rest |>) /\ queued (c <| unsent := seg' :: rest |>) = queued c /\ in_flight (c <| unsent := seg' :: rest |>) = in_flight c.
Proof.
  intros Hs Ep El [T1 T2 T3 T4 T5 T6 T7 T8 T9] E. rewrite E in T1, T4. apply Forall_inv_tail in T4. split; [intros N; apply rx_fields; [reflexivity|left; reflexivity]|]. split.
  - split; cbn [snd_queuelen unacked unsent cwnd mss ssthresh snd_wnd flags with_field]; try assumption; [|now constructor]. rewrite T1. unfold pbufs. now rewrite !sum_cons, Ep.
  - unfold queued, in_flight, lens. cbn [unacked unsent with_field]. rewrite E, !sum_cons, El. now split.
Qed.

(** The body of the loop: an error ends it, else the segment has left the queue. *)
Lemma send_seg_spec wnd seg rest (k : TM err_t) s : tx_ok s.(pcb) -> s.(pcb).(unsent) = seg :: rest -> u32 (seg.(hseq) - s.(pcb).(lastack) + seg.(slen)) <= wnd ->
  let seg' := if is_syn_sent s.(pcb).(state) then seg else seg <| hflags := seg.(hflags) .| TCP_ACK |> in
  let m := pset (fun c => c <| unsent := seg' :: rest |>) ;; do err <- tcp_output_segment seg_out seg';
    if err_is_ok err then segment_sent seg' rest ;; k else pset (fun c => c <| flags := c.(flags) .| TF_NAGLEMEMERR |>) ;; ret err in
  (exists err s', m s = Ok (err, s') /\ out_step wnd s s' /\ err <> ERR_OK) \/ (exists s', m s = k s' /\ out_step wnd s s' /\ s'.(pcb).(unsent) = rest).
Proof.
  intros T E Hf seg' m. pose proof (tx_unsent _ T) as Hok. rewrite E in Hok. apply Forall_inv in Hok.
  assert (Hs : seg_ok seg' /\ sp seg' = sp seg /\ slen seg' = slen seg /\ hseq seg' = hseq seg) by (unfold seg'; destruct (is_syn_sent _); (split; [first [exact Hok|now apply ack_flag_ok]|now repeat split])). destruct Hs as (H1 & H2 & H3 & H4). clearbody seg'.
  unfold m. rewrite bind_oset. destruct (head_okset seg seg' rest _ H1 H2 H3 T E) as (A1 & A2 & A3 & A4). set (s1 := s <| pcb := (pcb s) <| unsent := seg' :: rest |> |>).
  assert (S1 : out_step wnd s s1) by (split; try assumption; [reflexivity|reflexivity|exists []; split; [now rewrite app_nil_r|constructor]]).
  destruct (output_segment_spec wnd seg' s1 A2) as (err & s2 & E2 & S2 & U2 & _ & _ & _); [rewrite H3, H4; exact Hf|]. rewrite (bind_ok _ _ _ _ _ E2). destruct (err_is_ok err) eqn:Ee.
  - right. destruct (segment_sent_spec wnd seg' rest s2 (ou_tx _ _ _ S2)) as (s3 & E3 & S3 & U3); [now rewrite U2|]. rewrite (bind_ok _ _ _ _ _ E3). exists s3. split; [reflexivity|]. split; [exact (out_step_trans _ _ _ _ S1 (out_step_trans _ _ _ _ S2 S3))|exact U3].
  - left. rewrite bind_oset. exists err. eexists. split; [reflexivity|]. split; [|intros ->; discriminate Ee]. refine (out_step_trans _ _ _ _ S1 (out_step_trans _ _ _ _ S2 (okset_step _ (fun c => c <| flags := flags c .| TF_NAGLEMEMERR |>) _ _ (ou_tx _ _ _ S2)))).
    apply (flags_okset (fun f => f .| TF_NAGLEMEMERR)); intros f; [now apply (lor_off 2)|now apply rx_lor].
Qed.

Lemma output_segs_spec wnd l : forall s, tx_ok s.(pcb) -> s.(pcb).(unsent) = l ->
  exists err s', output_segs NOASSERT seg_out wnd l s = Ok (err, s') /\ out_step wnd s s' /\ (err = ERR_OK -> stopped wnd s'.(pcb)).
Proof.
  induction l as [|seg rest IH]; intros s T E; cbn [output_segs].
  - destruct (output_done_spec wnd s T) as (s' & E' & S' & H'). exists ERR_OK, s'. split; [exact E'|]. split; [exact S'|]. intros _. apply H'. unfold stopped. now rewrite E.
  - unfold pget. rewrite bind_gets. destruct (Z.leb_spec (u32 (hseq seg - lastack (pcb s) + slen seg)) wnd) as [Hf|Hf].
    2:{ destruct (output_done_spec wnd s T) as (s' & E' & S' & H'). exists ERR_OK, s'. split; [exact E'|]. split; [exact S'|]. intros _. apply H'. unfold stopped. rewrite E. now left. }
    pose proof (tx_unsent _ T) as Hok. rewrite E in Hok. apply Forall_inv in Hok. rewrite bind_oassert by (now rewrite (proj2 (proj2 (proj2 Hok)))). destruct (negb (tcp_do_output_nagle (pcb s)) && _) eqn:En.
    + destruct (output_done_spec wnd s T) as (s' & E' & S' & H'). exists ERR_OK, s'. split; [exact E'|]. split; [exact S'|]. intros _. apply H'. unfold stopped. rewrite E. right. apply andb_prop in En. now apply negb_true_iff.
    + destruct (send_seg_spec wnd seg rest (output_segs NOASSERT seg_out wnd rest) s T E Hf) as [(err & s' & E' & S' & He)|(s1 & E1 & S1 & U1)]; [exists err, s'; now split; [exact E'|split]|].
      cbv zeta in *. rewrite E1. destruct (IH s1 (ou_tx _ _ _ S1) U1) as (err & s' & E' & S' & H'). exists err, s'. split; [exact E'|]. split; [exact (out_step_trans _ _ _ _ S1 S')|exact H'].
Qed.

Lemma empty_ack_out wnd s : tx_ok s.(pcb) -> exists s', tcp_send_empty_ack ack_out s = Ok (tt, s') /\ out_step wnd s s' /\ s'.(pcb).(unsent) = s.(pcb).(unsent).
Proof.
  intros T. unfold tcp_send_empty_ack, pget. rewrite bind_gets.
  pose proof (flags_okset (fun f => f .| (TF_ACK_DELAY .| TF_ACK_NOW)) infr_lor (fun f => rx_lor f (TF_ACK_DELAY .| TF_ACK_NOW) eq_refl)) as F1. pose proof (flags_okset (fun f => off_bits f (TF_ACK_DELAY .| TF_ACK_NOW)) infr_off (fun f => rx_off f (TF_ACK_DELAY .| TF_ACK_NOW) eq_refl)) as F2.
  destruct (ack_out (pcb s)) as [err|]; [|eexists; split; [reflexivity|]; split; [exact (okset_step wnd _ s F1 T)|reflexivity]]. pose proof (okset_step wnd _ s edge_okset T) as S1. rewrite bind_oset.
  set (s1 := s <| pcb := _ |>) in *. assert (U1 : unsent (pcb s1) = unsent (pcb s)) by reflexivity. clearbody s1.
  destruct err; try (eexists; split; [reflexivity|]; split; [exact (out_step_trans _ _ _ _ S1 (okset_step wnd _ s1 F1 (ou_tx _ _ _ S1)))|exact U1]).
  rewrite bind_modify. pose proof (okset_step wnd _ s1 F2 (ou_tx _ _ _ S1)) as S2. eexists. split; [reflexivity|]. split; [|exact U1]. refine (out_step_trans _ _ _ _ S1 _). destruct S2 as [A1 A2 A3 A4 A5 A6 A7]. now split.
Qed.

Lemma tcp_output_spec s : tx_ok s.(pcb) -> s.(pcb).(state) <> LISTEN ->
  exists err s', tcp_output NOASSERT ack_out route seg_out s = Ok (err, s') /\ out_step (Z.min s.(pcb).(snd_wnd) s.(pcb).(cwnd)) s s' /\
    (s.(input_pcb) = false -> err = ERR_OK -> stopped (Z.min s.(pcb).(snd_wnd) s.(pcb).(cwnd)) s'.(pcb)).
Proof.
  intros T Hl. unfold tcp_output. rewrite bind_gets. cbv zeta. rewrite bind_oassert by (destruct (state (pcb s)); [reflexivity|contradiction|reflexivity..]). set (wnd := Z.min _ _).
  destruct (input_pcb s); [exists ERR_OK, s; split; [reflexivity|]; split; [now apply out_step_refl|discriminate]|]. destruct (on _ _ && _) eqn:Ea.
  - destruct (empty_ack_out wnd s T) as (s' & E' & S' & U'). rewrite (bind_ok _ _ _ _ _ E'). eexists _, s'. split; [reflexivity|]. split; [exact S'|]. intros _ _. apply andb_prop in Ea. destruct Ea as [_ Ea]. unfold stopped. rewrite U'.
    destruct (unsent (pcb s)); [exact I|]. left. pose proof (ou_pcb _ _ _ S') as K. unfold pcb_kept in K. injection K as _ _ _ _ _ _ K _ _ _ _. rewrite K. now apply Z.gtb_lt.
  - destruct route; [|exists ERR_RTE, s; split; [reflexivity|]; split; [now apply out_step_refl|discriminate]]. destruct (output_segs_spec wnd _ s T eq_refl) as (err & s' & E' & S' & H'). exists err, s'. split; [exact E'|]. split; [exact S'|auto].
Qed.
End Send.

(** C10: [tcp_output] never fails an assertion; each segment it sends lies within
    the smaller of the peer's window and the congestion window, and carries the
    current acknowledgement and window; no segment is lost, all are kept until
    they are acknowledged; and when it reports success, what is left does not fit
    or is held back by Nagle's algorithm. *)
Theorem tcp_output_fits NOASSERT ack_out route seg_out s : tx_ok s.(pcb) -> s.(pcb).(state) <> LISTEN -> s.(input_pcb) = false ->
  let wnd := Z.min s.(pcb).(snd_wnd) s.(pcb).(cwnd) in
  exists err s' sent, tcp_output NOASSERT ack_out route seg_out s = Ok (err, s') /\ tx_ok s'.(pcb) /\
    s'.(xmit) = s.(xmit) ++ sent /\ Forall (fits wnd s.(pcb)) sent /\
    queued s'.(pcb) = queued s.(pcb) /\ in_flight s'.(pcb) = in_flight s.(pcb) /\ s'.(seg_free) = s.(seg_free) /\
    (err = ERR_OK -> stopped wnd s'.(pcb)).
Proof.
  intros T Hl Hi wnd. destruct (tcp_output_spec 0 [] NOASSERT ack_out route seg_out s T Hl) as (err & s' & E & [_ O1 _ O2 O3 O4 (l & O5 & O6)] & Hs).
  exists err, s', l. injection O2 as _ _ _ _ _ _ _ _ _ O2 _ _. repeat (split; try assumption). exact (Hs Hi).
Qed.
