(* ===== verification/TcpSender.v ===== *)
(** * The sender keeps the stream

    Acknowledgements, output, retransmission and probes, on queues that hold a
    stream: what is sent are pieces of the stream, and nothing leaves the queues
    before it is acknowledged. *)

From Stdlib Require Import ZArith List Lia Bool.
From S2P Require Import Prelude Mem Pbuf TcpIn TcpOut TcpWrite TcpStream TcpAck TcpFrame TcpSend TcpQueue.
Import ListNotations.
Open Scope Z_scope.
Open Scope c_scope.

(** ** Invariants of code *)

Create HintDb kept.

Definition keeps {A} (I : tcp_st -> Prop) (m : TM A) : Prop := safe I m (fun _ => I).

Lemma tcp_keeps_bind {A B} I (m : TM A) (k : A -> TM B) : keeps I m -> (forall a, keeps I (k a)) -> keeps I (bind m k).
Proof. exact (fun Hm Hk => safe_seq I m k _ Hm Hk). Qed.
Lemma tcp_keeps_ret {A} I (a : A) : keeps I (ret a).
Proof. apply safe_ret. auto. Qed.
Lemma tcp_keeps_halt {A} I : keeps I (@halt tcp_st A).
Proof. intros s a s' _ E. discriminate E. Qed.
Lemma tcp_keeps_gets {A} I (f : tcp_st -> A) : keeps I (gets f).
Proof. apply safe_gets. auto. Qed.
Lemma tcp_keeps_modify I f : (forall s, I s -> I (f s)) -> keeps I (modify f).
Proof. intros H. apply safe_modify. exact H. Qed.
Lemma tcp_keeps_assert I N b : keeps I (LWIP_ASSERT N b).
Proof. unfold LWIP_ASSERT. destruct N; [apply tcp_keeps_ret|]. unfold Xil_Assert. destruct b; [apply tcp_keeps_ret|apply tcp_keeps_halt]. Qed.
Lemma tcp_keeps_when I (b : bool) m : keeps I m -> keeps I (when b then m).
Proof. destruct b; [auto|intros _; apply tcp_keeps_ret]. Qed.
Lemma tcp_keeps_if {A} I (b : bool) (m k : TM A) : keeps I m -> keeps I k -> keeps I (if b then m else k).
Proof. now destruct b. Qed.
#[export] Hint Resolve tcp_keeps_ret tcp_keeps_halt tcp_keeps_gets tcp_keeps_assert : safe.

(** Code that reads the state first. *)
Lemma tcp_keeps_here {A B} I (f : tcp_st -> A) (k : A -> TM B) : (forall s, I s -> safe (fun x => x = s) (k (f s)) (fun _ => I)) -> keeps I (bind (gets f) k).
Proof. intros H s b s' Hs E. rewrite bind_gets in E. exact (H s Hs s b s' eq_refl E). Qed.

Section Sender.
Context (isn : Z) (d : list Z) (Hsize : total d <= 536870912) (A : Z) (HA : A <= total d + 1).
Abbreviation seg_at := (seg_at isn d).
Abbreviation piece_of := (piece_of isn d).
Abbreviation holds := (holds isn d).
Abbreviation sender := (sender isn d A).

(** The queues hold the stream, in segments that can be sent. *)
Record stored (l : list tcp_seg) : Prop := {
  so_pieces : Forall piece_of l;
  so_segs : Forall seg_ok l;
  so_holds : forall p, A <= p < total d -> Exists (holds p) l }.

(** The same segment, but for its flags. *)
Definition same_seg (g g' : tcp_seg) : Prop := g'.(slen) = g.(slen) /\ (seg_ok g -> seg_ok g') /\ forall a, seg_at g a -> seg_at g' a.
Lemma same_seg_refl g : same_seg g g.
Proof. split; [reflexivity|]. split; auto. Qed.
Lemma same_seg_ack g : same_seg g (g <| hflags := g.(hflags) .| TCP_ACK |>).
Proof. split; [reflexivity|]. split; [exact (ack_flag_ok g)|]. intros a S. apply seg_flags; [exact S|reflexivity|reflexivity]. Qed.

(** Segments are moved, get flags, or leave when they are acknowledged. *)
Lemma stored_sim l l' : (forall g', In g' l' -> exists g, In g l /\ same_seg g g') -> (forall g, In g l -> (exists g', In g' l' /\ same_seg g g') \/ (forall a, seg_at g a -> a + g.(slen) <= A)) -> stored l -> stored l'.
Proof.
  intros H1 H2 [S1 F S2]. split.
  - apply Forall_forall. intros g' Hg'. destruct (H1 g' Hg') as (g & Hg & _ & _ & Hs). destruct (proj1 (Forall_forall _ _) S1 g Hg) as [a Sa]. exists a. auto.
  - apply Forall_forall. intros g' Hg'. destruct (H1 g' Hg') as (g & Hg & _ & Hs & _). exact (Hs (proj1 (Forall_forall _ _) F g Hg)).
  - intros p Hp. specialize (S2 p Hp). apply Exists_exists in S2. destruct S2 as (g & Hg & a & Sa & Ha). apply Exists_exists. destruct (H2 g Hg) as [(g' & Hg' & Hl & _ & Hs)|Hd]; [|specialize (Hd a Sa); lia]. exists g'. split; [exact Hg'|]. exists a. rewrite Hl. auto.
Qed.
Lemma stored_perm l l' : (forall g, In g l' <-> In g l) -> stored l -> stored l'.
Proof. intros H. apply stored_sim; intros g Hg; [exists g; split; [now apply H|apply same_seg_refl]|left; exists g; split; [now apply H|apply same_seg_refl]]. Qed.

(** What was sent: pieces of the stream, or nothing but a header. *)
Definition sent_ok (x : tcp_seg * Z * Z) : Prop := let g := fst (fst x) in g.(sp) <> [] /\ on g.(hflags) TCP_RST = false /\ on g.(hflags) TCP_SYN = false /\ (fin g = false /\ concat g.(sp) = [] \/ piece_of g).

(** A state whose queues are as [G] says; [k] is the number that is
    acknowledged. *)
Definition inv (k : Z) (G : list tcp_seg -> list tcp_seg -> Prop) (s : tcp_st) : Prop :=
  G s.(pcb).(unacked) s.(pcb).(unsent) /\ Forall sent_ok s.(xmit) /\ s.(ackno) = k.
Definition good (ua us : list tcp_seg) : Prop := stored (ua ++ us).

Section Kept.
Context (k : Z).

Lemma safe_queues G G' f : (forall c, G c.(unacked) c.(unsent) -> G' (f c).(unacked) (f c).(unsent)) -> safe (inv k G) (pset f) (fun _ => inv k G').
Proof. intros H. apply safe_modify. intros s (H1 & H2 & H3). split; [now apply H|now split]. Qed.
Lemma tcp_keeps_quiet G f : (forall c, (f c).(unacked) = c.(unacked)) -> (forall c, (f c).(unsent) = c.(unsent)) -> keeps (inv k G) (pset f).
Proof. intros H1 H2. apply safe_queues. intros c. now rewrite H1, H2. Qed.
Lemma tcp_keeps_outside G f : (forall s, (f s).(pcb) = s.(pcb)) -> (forall s, (f s).(xmit) = s.(xmit)) -> (forall s, (f s).(ackno) = s.(ackno)) -> keeps (inv k G) (modify f).
Proof. intros H1 H2 H3. apply tcp_keeps_modify. intros s. unfold inv. now rewrite H1, H2, H3. Qed.

(** Updates that leave the queues alone. *)
Ltac quiet := first
  [ apply tcp_keeps_quiet; intros ?; reflexivity
  | apply tcp_keeps_quiet; intros ?; repeat match goal with |- context [match ?x with _ => _ end] => destruct x eqn:? end; first [reflexivity|assumption]
  | apply tcp_keeps_outside; intros ?; repeat match goal with |- context [if ?b then _ else _] => destruct b end; reflexivity ].
Ltac keep_by t := repeat first
  [ t | apply tcp_keeps_ret | apply tcp_keeps_halt | apply tcp_keeps_gets | apply tcp_keeps_assert | quiet
  | apply tcp_keeps_bind; [|intros ?] | apply tcp_keeps_when | apply tcp_keeps_if
  | match goal with |- keeps _ (match ?x with _ => _ end) => destruct x end ].
Ltac keep := keep_by fail.

Lemma in_insert g seg l : In g (insert_unsent seg l) <-> g = seg \/ In g l.
Proof. induction l as [|x l IH]; cbn [insert_unsent In]; [intuition congruence|]. destruct (TCP_SEQ_LT _ _); cbn [In]; rewrite ?IH; intuition congruence. Qed.
Lemma in_put g seg l : In g (put_unacked seg l) <-> g = seg \/ In g l.
Proof. destruct l as [|x l]; cbn [put_unacked In]; [intuition congruence|]. destruct (TCP_SEQ_LT _ _); [apply in_insert|]. rewrite in_app_iff. cbn [In]. intuition congruence. Qed.

(** *** What receives acknowledgements *)

Lemma rexmitted_queues c : ((rexmitted c).(unacked), (rexmitted c).(unsent)) = match c.(unacked) with [] => (c.(unacked), c.(unsent)) | seg :: rest => (rest, insert_unsent seg c.(unsent)) end.
Proof. unfold rexmitted. destruct (unacked c) as [|seg rest] eqn:E; [now rewrite E|]. cbv zeta. destruct (goes_last seg (unsent (c <| unacked := rest |>))); reflexivity. Qed.
Lemma tcp_keeps_rexmit : keeps (inv k good) tcp_rexmit.
Proof.
  change tcp_rexmit with (pset rexmitted). apply safe_queues. intros c. pose proof (rexmitted_queues c) as E. set (c' := rexmitted c) in *. clearbody c'. destruct (unacked c) as [|seg rest]; injection E as -> ->; [auto|].
  apply stored_perm. intros g. rewrite !in_app_iff, in_insert. cbn [In]. intuition congruence.
Qed.
Lemma tcp_keeps_rexmit_fast : keeps (inv k good) tcp_rexmit_fast.
Proof. unfold tcp_rexmit_fast, pget. keep_by ltac:(apply tcp_keeps_rexmit). Qed.
Lemma tcp_keeps_empty_ack G ack_out : keeps (inv k G) (tcp_send_empty_ack ack_out).
Proof. unfold tcp_send_empty_ack, pget. keep. Qed.
Lemma tcp_keeps_update_window G : keeps (inv k G) update_window.
Proof. unfold update_window. keep. Qed.
Lemma tcp_keeps_duplicate_ack e : keeps (inv k good) (duplicate_ack e).
Proof. unfold duplicate_ack, pget. keep_by ltac:(apply tcp_keeps_rexmit_fast). Qed.
Lemma tcp_keeps_free_acked G N g : keeps (inv k G) (free_acked N g).
Proof. unfold free_acked, tcp_seg_free, pget. keep. Qed.
Lemma tcp_keeps_grow_cwnd G : keeps (inv k G) grow_cwnd.
Proof. unfold grow_cwnd, pget. keep. Qed.
Lemma tcp_keeps_estimate_rtt G : keeps (inv k G) estimate_rtt.
Proof. unfold estimate_rtt. keep. Qed.

(** *** What sends *)

Lemma tcp_keeps_sent G g : g.(sp) <> [] -> on g.(hflags) TCP_RST = false -> on g.(hflags) TCP_SYN = false -> fin g = false /\ concat g.(sp) = [] \/ piece_of g -> keeps (inv k G) (modify (fun s => s <| xmit := s.(xmit) ++ [(g, s.(pcb).(rcv_nxt), s.(pcb).(rcv_ann_wnd))] |>)).
Proof. intros H1 H2 H3 H4. apply tcp_keeps_modify. intros s (I1 & I2 & I3). split; [exact I1|]. split; [|exact I3]. cbn [xmit with_field]. apply Forall_app. split; [exact I2|]. constructor; [|constructor]. unfold sent_ok. cbn [fst]. tauto. Qed.

Lemma tcp_keeps_weak G (m : TM err_t) : keeps (inv k good) m -> safe (inv k (fun ua us => good ua us /\ G ua us)) m (fun _ => inv k good).
Proof. intros H. eapply safe_pre; [exact H|]. intros s ([H1 _] & H2). now split. Qed.

Section Output.
Context (N : bool) (ack_out : tcp_pcb -> option err_t) (route : option Z) (seg_out : tcp_pcb -> tcp_seg -> option err_t).

Lemma tcp_keeps_output_segment G g : seg_ok g -> piece_of g -> keeps (inv k G) (tcp_output_segment seg_out g).
Proof. intros H1 H2. unfold tcp_output_segment, pget. assert (Hs : on (hflags g) TCP_SYN = false) by (destruct H2 as [a S]; exact (sg_syn _ _ _ _ S)). keep_by ltac:(apply tcp_keeps_sent; [exact (proj1 H1)|apply H1|exact Hs|now right]). Qed.
Lemma tcp_keeps_output_done G : keeps (inv k G) output_done.
Proof. unfold output_done. keep. Qed.

Lemma safe_segment_sent g l : seg_ok g -> safe (inv k (fun ua us => good ua us /\ us = g :: l)) (segment_sent g l) (fun _ => inv k (fun ua us => good ua us /\ us = l)).
Proof.
  intros Hg. unfold segment_sent. apply (safe_bind _ _ _ (fun _ => inv k (fun ua us => good ua (g :: l) /\ us = l))); [apply safe_queues; intros c [H1 H2]; split; [now rewrite <- H2|reflexivity]|intros _].
  apply safe_seq; [quiet|intros _]. cbv zeta. apply safe_seq; [quiet|intros _]. destruct (Z.gtb_spec (TCP_TCPLEN g) 0) as [_|Hn]; [|pose proof (proj1 (proj2 (proj2 Hg))); lia].
  apply safe_queues. intros c [H1 H2]. cbn [unacked unsent with_field]. split; [|exact H2]. revert H1. apply stored_perm. intros x. rewrite H2, !in_app_iff, in_put. cbn [In]. intuition congruence.
Qed.

Lemma good_flag ua g g' l : same_seg g g' -> good ua (g :: l) -> good ua (g' :: l).
Proof.
  intros S. apply stored_sim; intros x Hx; rewrite in_app_iff in Hx; cbn [In] in Hx.
  - destruct Hx as [Hx|[<-|Hx]]; [exists x|exists g|exists x]; (split; [apply in_app_iff; cbn [In]; tauto|first [exact S|apply same_seg_refl]]).
  - left. destruct Hx as [Hx|[<-|Hx]]; [exists x|exists g'|exists x]; (split; [apply in_app_iff; cbn [In]; tauto|first [exact S|apply same_seg_refl]]).
Qed.
Lemma good_first ua g l : good ua (g :: l) -> seg_ok g /\ piece_of g.
Proof. intros [H1 H2 _]. rewrite Forall_forall in H1, H2. assert (Hi : In g (ua ++ g :: l)) by (apply in_app_iff; right; now left). auto. Qed.

Lemma safe_output_segs wnd l : safe (inv k (fun ua us => good ua us /\ us = l)) (output_segs N seg_out wnd l) (fun _ => inv k good).
Proof.
  induction l as [|g l IH]; cbn [output_segs]; [apply tcp_keeps_weak, tcp_keeps_output_done|]. intros s a s' Hs. unfold pget. rewrite bind_gets. revert s a s' Hs. intros s0 a s' Hs0. generalize (pcb s0) as c. intros c. destruct (proj1 Hs0) as [Hg0 E0]. rewrite E0 in Hg0. destruct (good_first _ _ _ Hg0) as [Ok Pc]. clear Hg0 E0. revert s0 a s' Hs0.
  destruct (_ <=? wnd); [|apply tcp_keeps_weak, tcp_keeps_output_done]. apply safe_seq; [apply tcp_keeps_assert|intros _]. destruct (_ && _); [apply tcp_keeps_weak, tcp_keeps_output_done|]. cbv zeta.
  assert (S : same_seg g (if is_syn_sent (state c) then g else g <| hflags := hflags g .| TCP_ACK |>)) by (destruct (is_syn_sent _); [apply same_seg_refl|apply same_seg_ack]). set (g' := if is_syn_sent (state c) then g else _) in *. clearbody g'.
  pose proof (proj1 (proj2 S) Ok) as Ok'. assert (Pc' : piece_of g') by (destruct Pc as [x Hx]; exists x; now apply (proj2 (proj2 S))).
  apply (safe_bind _ _ _ (fun _ => inv k (fun ua us => good ua us /\ us = g' :: l))); [apply safe_queues; intros x [H1 H2]; split; [rewrite H2 in H1; now apply (good_flag _ g)|reflexivity]|intros _].
  apply safe_seq; [now apply tcp_keeps_output_segment|intros err]. destruct (err_is_ok err); [|apply tcp_keeps_weak; keep].
  apply (safe_bind _ _ _ (fun _ => inv k (fun ua us => good ua us /\ us = l))); [now apply safe_segment_sent|intros _; exact IH].
Qed.

Lemma tcp_keeps_output : keeps (inv k good) (tcp_output N ack_out route seg_out).
Proof.
  unfold tcp_output. apply tcp_keeps_here. intros s Hs. cbv zeta. apply (safe_pre _ (inv k (fun ua us => good ua us /\ us = unsent (pcb s)))); [|intros x ->; split; [now split; [apply Hs|]|apply Hs]].
  apply safe_seq; [apply tcp_keeps_assert|intros _]. destruct (input_pcb s); [apply tcp_keeps_weak; keep|]. destruct (_ && _); [apply tcp_keeps_weak; keep_by ltac:(apply tcp_keeps_empty_ack)|]. destruct route; [apply safe_output_segs|apply tcp_keeps_weak; keep].
Qed.

Lemma tcp_keeps_rexmit_rto : keeps (inv k good) (tcp_rexmit_rto N ack_out route seg_out).
Proof.
  unfold tcp_rexmit_rto. apply tcp_keeps_here. intros s Hs. destruct (unacked (pcb s)) as [|g l] eqn:E; [eapply safe_pre; [apply tcp_keeps_ret|intros x ->; exact Hs]|].
  apply (safe_pre _ (inv k (fun ua us => good ua us /\ ua = g :: l))); [|intros x ->; split; [now split; [apply Hs|]|apply Hs]]. apply (safe_bind _ _ _ (fun _ => inv k good)); [|intros _; apply tcp_keeps_bind; [apply tcp_keeps_output|intros e; apply tcp_keeps_ret]].
  apply safe_queues. intros c [H1 H2]. cbn [unacked unsent with_field]. rewrite H2 in H1. revert H1. apply stored_perm. intros x. rewrite !in_app_iff. cbn [In]. tauto.
Qed.

(** *** Probes *)

Lemma tcp_keeps_probe out g : g.(sp) <> [] -> on g.(hflags) TCP_RST = false -> on g.(hflags) TCP_SYN = false -> fin g = false /\ concat g.(sp) = [] \/ piece_of g -> keeps (inv k good) (send_probe out g).
Proof. intros H1 H2 H3 H4. unfold send_probe. keep_by ltac:(apply tcp_keeps_sent; assumption). Qed.
Lemma tcp_keeps_keepalive out : keeps (inv k good) (tcp_keepalive out).
Proof. unfold tcp_keepalive, pget. keep_by ltac:(apply tcp_keeps_probe; [discriminate|reflexivity|reflexivity|left; now split]). Qed.

(** The first byte of a segment is a piece. *)
Lemma probe_piece stale g : seg_ok g -> piece_of g -> piece_of (probe_of stale g).
Proof.
  intros Ok [a Sa]. exists a. pose proof (seg_tcplen _ _ _ _ Sa) as Ht. pose proof (proj1 (proj2 (proj2 Ok))) as Hp. destruct Sa as [H1 H2 H3 H4 H5 H6 H7]. unfold probe_of. fold (fin g). destruct (fin g && (slen g =? 0)) eqn:E.
  - apply andb_true_iff in E. destruct E as [E1 E2]. apply Z.eqb_eq in E2. specialize (H6 E1). split; cbn [hseq slen sp hflags]; try assumption; try lia; try reflexivity.
  - assert (Hl : 0 < slen g) by (destruct (fin g); cbn [andb] in E; rewrite ?Z.eqb_neq in E; lia). split; cbn [hseq slen sp hflags]; try assumption; try lia; try reflexivity; [|discriminate]. rewrite H5. pose proof (slice_firstn d a (slen g) 1 ltac:(lia)) as F. pose proof (slice_length d a (slen g) H1 ltac:(lia) ltac:(lia)) as Hle. destruct (slice d a (slen g)) as [|x t]; [cbn in Hle; lia|]. rewrite <- F. reflexivity.
Qed.
Lemma tcp_keeps_zero_window_probe out stale : keeps (inv k good) (tcp_zero_window_probe out stale).
Proof.
  unfold tcp_zero_window_probe. apply tcp_keeps_here. intros s Hs. apply (safe_pre _ (inv k good)); [|now intros x ->]. destruct (hd_error _) as [g|] eqn:E; [|keep]. assert (Hg : seg_ok g /\ piece_of g).
  { destruct (proj1 Hs) as [H1 H2 _]. rewrite Forall_forall in H1, H2. assert (Hi : In g (unacked (pcb s) ++ unsent (pcb s))) by (destruct (unacked (pcb s) ++ unsent (pcb s)); [discriminate E|injection E as ->; now left]). auto. }
  destruct out; keep_by ltac:(apply tcp_keeps_probe; [unfold probe_of; destruct (_ && _); discriminate|unfold probe_of; now destruct (_ && _)|unfold probe_of; now destruct (_ && _)|right; now apply probe_piece]).
Qed.
End Output.

(** *** Acknowledgements of at most [A] *)
Context (K : Z) (HK : 0 <= K <= A) (Hk : k = q isn K).

Lemma acked_end g a : seg_at g a -> near (a + TCP_TCPLEN g) K.
Proof. intros S. pose proof (seg_tcplen _ _ _ _ S). pose proof (sg_pos _ _ _ _ S). pose proof (sg_end _ _ _ _ S). pose proof (sg_len _ _ _ _ S). unfold near. destruct (fin g); lia. Qed.
Lemma acked_gone g a : seg_at g a -> TCP_SEQ_LEQ (u32 (g.(hseq) + TCP_TCPLEN g)) k = true -> a + g.(slen) <= A.
Proof.
  intros S E. rewrite (sg_seq _ _ _ _ S), q_add, Hk, seq_leq in E by exact (acked_end g a S). apply Z.leb_le in E. pose proof (seg_tcplen _ _ _ _ S). destruct (fin g); lia.
Qed.
Lemma covered_gone g a n : seg_at g a -> TCP_SEQ_BETWEEN k (u32 (g.(hseq) + TCP_TCPLEN g)) n = true -> a + g.(slen) <= A.
Proof.
  intros S E. unfold TCP_SEQ_BETWEEN in E. apply andb_true_iff in E. destruct E as [E _]. rewrite (sg_seq _ _ _ _ S), q_add, Hk, seq_geq in E by (pose proof (acked_end g a S); unfold near in *; lia). apply Z.leb_le in E. pose proof (seg_tcplen _ _ _ _ S). destruct (fin g); lia.
Qed.

(** The first segment of a queue goes. *)
Lemma good_tail_unacked g ua us : (forall a, seg_at g a -> a + g.(slen) <= A) -> good (g :: ua) us -> good ua us.
Proof.
  intros Hg. apply stored_sim; intros x Hx; [exists x; split; [now right|apply same_seg_refl]|]. destruct Hx as [<-|Hx]; [now right|left]. exists x. split; [exact Hx|apply same_seg_refl].
Qed.
Lemma good_tail_unsent g ua us : (forall a, seg_at g a -> a + g.(slen) <= A) -> good ua (g :: us) -> good ua us.
Proof.
  intros Hg. apply stored_sim; intros x Hx; [exists x; split; [|apply same_seg_refl]|]; rewrite in_app_iff in *; cbn [In] in *; [tauto|]. destruct Hx as [Hx|[<-|Hx]]; [|now right|]; (left; exists x; split; [apply in_app_iff; tauto|apply same_seg_refl]).
Qed.

Lemma safe_ack_unacked N l : safe (inv k (fun ua us => good ua us /\ ua = l)) (ack_unacked N l) (fun _ => inv k good).
Proof.
  induction l as [|g l IH]; cbn [ack_unacked]; [intros s a s' (H1 & H2) E; injection E as <- <-; split; [exact (proj1 H1)|exact H2]|].
  intros s a s' Hs. rewrite bind_gets. rewrite (proj2 (proj2 Hs)). destruct (TCP_SEQ_LEQ _ k) eqn:E; [|intros [= <- <-]; split; [exact (proj1 (proj1 Hs))|exact (proj2 Hs)]]. revert s a s' Hs.
  apply (safe_bind _ _ _ (fun _ => inv k (fun ua us => good ua us /\ ua = l))); [apply safe_queues; intros c [H1 H2]|intros _; apply safe_seq; [apply tcp_keeps_free_acked|intros _; exact IH]].
  split; [|reflexivity]. cbn [unacked unsent with_field]. rewrite H2 in H1. apply (good_tail_unacked g); [|exact H1]. intros a S. exact (acked_gone g a S E).
Qed.

Lemma safe_ack_unsent N l : safe (inv k (fun ua us => good ua us /\ us = l)) (ack_unsent N l) (fun _ => inv k good).
Proof.
  induction l as [|g l IH]; cbn [ack_unsent]; [intros s a s' (H1 & H2) E; injection E as <- <-; split; [exact (proj1 H1)|exact H2]|].
  intros s a s' Hs. unfold pget. rewrite !bind_gets. rewrite (proj2 (proj2 Hs)). destruct (TCP_SEQ_BETWEEN k _ _) eqn:E; [|intros [= <- <-]; split; [exact (proj1 (proj1 Hs))|exact (proj2 Hs)]]. revert E. generalize (snd_nxt (pcb s)) as n. intros n E. revert s a s' Hs.
  apply (safe_bind _ _ _ (fun _ => inv k (fun ua us => good ua us /\ us = l))); [apply safe_queues; intros c [H1 H2]|intros _; apply safe_seq; [destruct l; keep|intros _; apply safe_seq; [apply tcp_keeps_free_acked|intros _; exact IH]]].
  split; [|reflexivity]. cbn [unacked unsent with_field]. rewrite H2 in H1. apply (good_tail_unsent g); [|exact H1]. intros a S. exact (covered_gone g a n S E).
Qed.

Lemma safe_ack_here N : keeps (inv k good) (do l <- pget unacked; ack_unacked N l).
Proof. apply tcp_keeps_here. intros s Hs. eapply safe_pre; [apply safe_ack_unacked|]. intros x ->. split; [now split; [apply Hs|]|apply Hs]. Qed.
Lemma safe_unsent_here N : keeps (inv k good) (do l <- pget unsent; ack_unsent N l).
Proof. apply tcp_keeps_here. intros s Hs. eapply safe_pre; [apply safe_ack_unsent|]. intros x ->. split; [now split; [apply Hs|]|apply Hs]. Qed.

Lemma tcp_keeps_assoc {X Y W} G (m : TM X) (f : X -> TM Y) (g : Y -> TM W) : keeps G (do y <- (do x <- m; f x); g y) -> keeps G (do x <- m; do y <- f x; g y).
Proof. intros H s a s' Hs E. apply (H s a s' Hs). now rewrite bind_assoc. Qed.

Lemma tcp_keeps_new_ack N : keeps (inv k good) (new_ack N).
Proof.
  unfold new_ack. apply tcp_keeps_bind; [quiet|intros _]. apply tcp_keeps_bind; [keep|intros a]. apply tcp_keeps_bind; [quiet|intros _]. apply tcp_keeps_bind; [apply tcp_keeps_grow_cwnd|intros _]. apply tcp_keeps_assoc, tcp_keeps_bind; [apply safe_ack_here|intros _; quiet].
Qed.
Lemma tcp_keeps_receive_ack N ack_out : keeps (inv k good) (receive_ack N ack_out).
Proof.
  unfold receive_ack. apply tcp_keeps_bind; [apply tcp_keeps_gets|intros c]. cbv zeta. apply tcp_keeps_bind; [apply tcp_keeps_update_window|intros _]. apply tcp_keeps_bind; [apply tcp_keeps_gets|intros s]. apply tcp_keeps_bind.
  - keep_by ltac:(first [apply tcp_keeps_duplicate_ack|apply tcp_keeps_new_ack|apply tcp_keeps_empty_ack]).
  - intros _. apply tcp_keeps_assoc, tcp_keeps_bind; [apply safe_unsent_here|intros _]. apply tcp_keeps_bind; [apply tcp_keeps_gets|intros r]. apply tcp_keeps_bind; [quiet|intros _; apply tcp_keeps_estimate_rtt].
Qed.

(** *** Data that arrives leaves these queues alone *)

Section Data.
Context (N : bool) (ack_out : tcp_pcb -> option err_t) (G : list tcp_seg -> list tcp_seg -> Prop).
Abbreviation kept m := (keeps (inv k G) m).
Ltac kept_code := keep_by ltac:(solve [auto with kept]).

Lemma kept_ack : kept tcp_ack.
Proof. unfold tcp_ack. keep. Qed.
Lemma kept_ack_now : kept tcp_ack_now.
Proof. unfold tcp_ack_now. keep. Qed.
Lemma kept_seg_free : kept tcp_seg_free.
Proof. unfold tcp_seg_free. keep. Qed.
Hint Resolve kept_ack kept_ack_now kept_seg_free tcp_keeps_empty_ack : kept.
Lemma kept_segs_free l : kept (tcp_segs_free l).
Proof. induction l; cbn [tcp_segs_free]; kept_code. Qed.
Lemma kept_seg_copy g : kept (tcp_seg_copy g).
Proof. unfold tcp_seg_copy. kept_code. Qed.
Lemma kept_update_ann : kept (tcp_update_rcv_ann_wnd N).
Proof. unfold tcp_update_rcv_ann_wnd, pget. kept_code. Qed.
Lemma kept_set_tcplen : kept set_tcplen.
Proof. unfold set_tcplen. keep. Qed.
Hint Resolve kept_segs_free kept_seg_copy kept_update_ann kept_set_tcplen : kept.
Lemma kept_trim_front : kept (trim_front N).
Proof. unfold trim_front, set_inseg. kept_code. Qed.
Lemma kept_cut_inseg n : kept (cut_inseg n).
Proof. unfold cut_inseg, set_inseg. kept_code. Qed.
Hint Resolve kept_trim_front kept_cut_inseg : kept.
Lemma kept_trim_to_window : kept (trim_to_window N).
Proof. unfold trim_to_window, set_inseg. kept_code. Qed.
Lemma kept_drop_covered l : kept (drop_covered l).
Proof. induction l; cbn [drop_covered]; unfold set_inseg; kept_code. Qed.
Hint Resolve kept_trim_to_window kept_drop_covered : kept.
Lemma kept_adjust_ooseq : kept (adjust_ooseq N).
Proof. unfold adjust_ooseq. kept_code. Qed.
Lemma kept_dequeue l : kept (dequeue N l).
Proof. induction l; cbn [dequeue]; unfold pget; kept_code. Qed.
Hint Resolve kept_adjust_ooseq kept_dequeue : kept.
Lemma kept_in_sequence : kept (receive_in_sequence N).
Proof. unfold receive_in_sequence, pget. kept_code. Qed.
Lemma kept_oos_covered l : forall g, kept (oos_covered g l).
Proof. induction l; intros g; cbn [oos_covered]; kept_code. Qed.
Hint Resolve kept_in_sequence kept_oos_covered : kept.
Lemma kept_oos_insert g l : kept (tcp_oos_insert_segment g l).
Proof. unfold tcp_oos_insert_segment. kept_code. Qed.
Lemma kept_oos_window g : kept (oos_window N g).
Proof. unfold oos_window. kept_code. Qed.
Hint Resolve kept_oos_insert kept_oos_window : kept.
Lemma kept_oos_walk l : forall p, kept (oos_walk N p l).
Proof. induction l; intros p; cbn [oos_walk]; kept_code. Qed.
Hint Resolve kept_oos_walk : kept.
Lemma kept_out_of_sequence : kept (receive_out_of_sequence N ack_out).
Proof. unfold receive_out_of_sequence. kept_code. Qed.
Hint Resolve kept_out_of_sequence : kept.
Lemma kept_receive_data : kept (receive_data N ack_out).
Proof. unfold receive_data. kept_code. Qed.
End Data.

Lemma tcp_keeps_receive N ack_out : keeps (inv k good) (tcp_receive N ack_out).
Proof. unfold tcp_receive. keep_by ltac:(first [apply tcp_keeps_receive_ack|apply kept_receive_data|apply kept_ack_now]). Qed.
End Kept.
End Sender.
