(* ===== verification/TcpReceive.v ===== *)
(** * Receiving a segment of the stream

    The acknowledgement and the data together: [tcp_receive] on a segment of the
    stream, in every state that is synchronised. *)

From Stdlib Require Import ZArith List Lia Bool.
From S2P Require Import Prelude Pbuf TcpIn TcpOut TcpConn TcpStream TcpAck TcpSend TcpFrame.
Import ListNotations.
Open Scope Z_scope.
Open Scope c_scope.

(** The elements of the pool that a connection holds or that are free. *)
Definition pool (s : tcp_st) : Z := s.(seg_free) + queued s.(pcb) + Z.of_nat (length s.(pcb).(ooseq)).

Section Receive.
Context (isn : Z) (data : list Z) (Hsize : total data <= 536870912) (NOASSERT : bool) (ack_out : tcp_pcb -> option err_t).
Abbreviation rx := (rx isn data).
Abbreviation total := (total data).
Abbreviation slice := (slice data).
Abbreviation upto := (upto data).
Abbreviation arrived := (arrived isn data).

(** [tcp_input] has set up the segment. *)
Record fresh (s : tcp_st) : Prop := {
  fs_acked : s.(recv_acked) = 0;
  fs_flags : s.(recv_flags) = 0;
  fs_data : s.(recv_data) = None;
  fs_wnd : hdr_ok s }.

(** The peer's FIN has not been taken. *)
Definition open_state (x : tcp_state) : bool := match x with ESTABLISHED | FIN_WAIT_1 | FIN_WAIT_2 => true | _ => false end.
Definition synced (x : tcp_state) : bool := state_num x >=? state_num ESTABLISHED.

(** The segment at hand: of the stream, at [a], if it has data and the
    connection still takes data. *)
Definition acceptable (N a : Z) (s : tcp_st) : Prop :=
  0 <= s.(tcplen) /\ (s.(tcplen) > 0 -> state_num s.(pcb).(state) < state_num CLOSE_WAIT -> arrived N a s).

Record received (N N' a : Z) (s s' : tcp_st) : Prop := {
  rd_rx : rx N' s'.(pcb);
  rd_tx : tx_ok s'.(pcb);
  rd_le : N <= N';
  rd_edge : N' + s'.(pcb).(rcv_wnd) = N + s.(pcb).(rcv_wnd);
  rd_bytes : bytes_of s' = slice (upto N) (upto N' - upto N);
  rd_fin : got_fin s' = (N <=? total) && (total <? N');
  rd_state : got_fin s' = false -> s'.(pcb).(state) = s.(pcb).(state);
  rd_pool : pool s' = pool s;
  rd_frame : frame s s';
  rd_idle : s.(tcplen) = 0 -> s'.(recv_data) = None;
  rd_progress : s.(tcplen) > 0 -> open_state s.(pcb).(state) = true -> a <= N -> N + Z.min (a + s.(tcplen) - N) s.(pcb).(rcv_wnd) <= N' }.

Lemma txv_ok c c' : txv c' = txv c -> tx_ok c -> tx_ok c'.
Proof.
  intros E [T1 T2 T3 T4 T5 T6 T7 T8 T9]. unfold txv in E. injection E as E1 E2 E3 E4 E5 E6 E7 E8 E9 E10 E11. split; rewrite ?E1, ?E2, ?E3, ?E4, ?E5, ?E6, ?E7; try assumption. now rewrite E11.
Qed.
Lemma txv_queued c c' : txv c' = txv c -> queued c' = queued c.
Proof. intros E. unfold txv in E. injection E as E1 E2 E3 E4 E5 E6 E7 E8 E9 E10 E11. unfold queued. now rewrite E2, E3. Qed.

(** The acknowledgement, if there is one. *)
Lemma ack_part_spec s : tx_ok s.(pcb) -> fresh s -> exists s', (when on s.(hdr_flags) TCP_ACK then receive_ack NOASSERT ack_out) s = Ok (tt, s') /\
  (forall N, rx N s.(pcb) -> rx N s'.(pcb)) /\ (s'.(pcb).(state) = s.(pcb).(state) /\ s'.(pcb).(ooseq) = s.(pcb).(ooseq) /\ s'.(pcb).(rcv_wnd) = s.(pcb).(rcv_wnd)) /\
  (s'.(inseg) = s.(inseg) /\ s'.(seqno) = s.(seqno) /\ s'.(tcplen) = s.(tcplen)) /\ (s'.(recv_data) = s.(recv_data) /\ s'.(recv_flags) = s.(recv_flags)) /\ tx_ok s'.(pcb) /\
  s'.(seg_free) + queued s'.(pcb) = s.(seg_free) + queued s.(pcb).
Proof.
  intros T [F1 F2 F3 F4]. destruct (on (hdr_flags s) TCP_ACK); [|exists s; split; [reflexivity|]; now repeat (split; [auto|])]. destruct (receive_ack_spec isn data NOASSERT ack_out s T F4 F1) as (s' & E & [A1 A2 A3 A4 A5 A6 _ _ _]). exists s'. now repeat (split; [assumption|]).
Qed.

Lemma tcp_receive_spec N a s : rx N s.(pcb) -> tx_ok s.(pcb) -> fresh s -> synced s.(pcb).(state) = true -> (open_state s.(pcb).(state) = true -> N <= total) -> acceptable N a s ->
  exists s' N', tcp_receive NOASSERT ack_out s = Ok (tt, s') /\ received N N' a s s'.
Proof.
  intros X T F Hs Ho [Hl Ha]. enough (H : exists s' N', tcp_receive NOASSERT ack_out s = Ok (tt, s') /\ (frame s s' -> received N N' a s s')).
  { destruct H as (s' & N' & E & R). exists s', N'. split; [exact E|]. apply R. exact (tcp_receive_framed NOASSERT ack_out _ _ _ E). }
  unfold tcp_receive. rewrite bind_gets, bind_oassert by exact Hs. destruct (ack_part_spec s T F) as (s1 & E1 & A1 & (A2 & A2' & A2'') & (A3 & A3' & A3'') & (A4 & A4') & A5 & A6).
  rewrite (bind_ok _ _ _ _ _ E1), bind_gets. cbv zeta. pose proof (A1 N X) as X1. destruct F as [_ F2 F3 _]. rewrite A2, A3''. destruct (_ && _) eqn:Ed.
  - apply andb_prop in Ed. destruct Ed as [D1 D2]. apply Z.gtb_lt in D1. apply Z.ltb_lt in D2. specialize (Ha ltac:(lia) D2). assert (Hop : open_state (state (pcb s)) = true) by (unfold synced in Hs; destruct (state (pcb s)); try reflexivity; cbn in Hs, D2; try discriminate Hs; lia).
    assert (Ha1 : arrived N a s1) by (destruct Ha as [V1 V2 V3 V4 V5 V6 V7 V8]; split; rewrite ?A3, ?A3', ?A3'', ?A2'', ?A4, ?A4'; assumption).
    destruct (receive_data_spec isn data Hsize NOASSERT ack_out N a s1 X1 (Ho Hop) Ha1) as (s' & N' & E & [B1 B2 B3 B4 B5 B6 B7 B8] & Hp). exists s', N'. split; [exact E|]. intros Fr. split; try assumption.
    + exact (txv_ok _ _ B7 A5).
    + now rewrite B3, A2''.
    + rewrite B5, (proj2 (Z.leb_le N total)) by exact (Ho Hop). reflexivity.
    + intros Hf. rewrite B5 in Hf. apply Z.ltb_ge in Hf. now rewrite (B6 Hf).
    + unfold pool. rewrite (txv_queued _ _ B7). rewrite A2' in B8. lia.
    + lia.
    + intros _ _ Han. specialize (Hp Han). rewrite A3, A2'' in Hp. now rewrite (av_tcplen _ _ _ _ _ Ha).
  - assert (H : exists s', (when negb (TCP_SEQ_BETWEEN (seqno s1) (rcv_nxt (pcb s1)) (u32 (rcv_nxt (pcb s1) + rcv_wnd (pcb s1) - 1))) then tcp_ack_now) s1 = Ok (tt, s') /\ rx N s'.(pcb) /\ txv s'.(pcb) = txv s1.(pcb) /\ s'.(pcb).(state) = s1.(pcb).(state) /\ s'.(pcb).(ooseq) = s1.(pcb).(ooseq) /\
      s'.(pcb).(rcv_wnd) = s1.(pcb).(rcv_wnd) /\ s'.(recv_data) = s1.(recv_data) /\ s'.(recv_flags) = s1.(recv_flags) /\ s'.(seg_free) = s1.(seg_free)).
    { destruct (negb _); [|exists s1; now repeat (split; [auto|])]. destruct (ack_now_spec isn data N s1 X1) as (s' & E & B1 & B2 & B3 & B4 & B5 & _ & B7 & B8 & B9). exists s'. now repeat (split; [assumption|]). }
    destruct H as (s' & E & B1 & B2 & B3 & B4 & B5 & B6 & B7 & B8). exists s', N. split; [exact E|]. intros Fr. split; try assumption; try lia.
    + exact (txv_ok _ _ B2 A5).
    + unfold bytes_of. now rewrite B6, A4, F3, Z.sub_diag.
    + unfold got_fin. rewrite B7, A4', F2. destruct (Z.leb_spec N total), (Z.ltb_spec total N); try reflexivity. lia.
    + intros _. congruence.
    + unfold pool. rewrite (txv_queued _ _ B2), B4, A2', B8. lia.
    + intros _. congruence.
    + intros Hg Hop. exfalso. rewrite (proj2 (Z.gtb_lt _ _)) in Ed by lia. cbn [andb] in Ed. destruct (state (pcb s)); discriminate.
Qed.
End Receive.
