(* ===== verification/TcpProcess.v ===== *)
(** * The state machine of a connection

    [tcp_process] for a connection that is synchronised: the segment is received
    and the state changes as RFC 793 has it; a reset is taken only where it must
    be; the options are read to their end. *)

From Stdlib Require Import ZArith List Lia Bool.
From S2P Require Import Prelude Pbuf TcpIn TcpOut TcpConn TcpStream TcpAck TcpSend TcpFrame TcpReceive.
Import ListNotations.
Open Scope Z_scope.
Open Scope c_scope.

(** ** Options *)

Definition byte_at (o : options) (i : Z) : Prop := 0 <= tcp_getoptbyte o i < 256.
Definition opts_ok (o : options) : Prop := 0 <= o.(optlen) <= 40 /\ forall i, byte_at o i.
Definition mss_ok (m : Z) : Prop := 0 < m <= TCP_MSS.

(** The same options, in other memory. *)
Definition same_opts (o o' : options) : Prop := o'.(optlen) = o.(optlen) /\ forall i, 0 <= i < o.(optlen) -> tcp_getoptbyte o' i = tcp_getoptbyte o i.

Lemma mss_option_ok x y : 0 <= x < 256 -> 0 <= y < 256 -> let m := u16 (x << 8) .| y in mss_ok (if (m >? TCP_MSS) || (m =? 0) then TCP_MSS else m).
Proof.
  intros Hx Hy m. assert (Hm : 0 <= m) by (apply Z.lor_nonneg; split; [apply u16_ok|lia]). unfold mss_ok, TCP_MSS in *. destruct (Z.gtb_spec m 536), (Z.eqb_spec m 0); cbn [orb]; lia.
Qed.

(** What is read behind the options does not matter. *)
Lemma parse_opts_spec o o' : opts_ok o -> opts_ok o' -> same_opts o o' -> forall fuel idx m, 0 <= idx < 32768 -> (Z.to_nat (o.(optlen) - idx) < fuel)%nat -> mss_ok m ->
  exists m', parse_opts fuel o idx m = Some m' /\ parse_opts fuel o' idx m = Some m' /\ mss_ok m'.
Proof.
  intros [Ho Hb] [_ Hb'] [Hl Hs]. induction fuel as [|fuel IH]; intros idx m Hi Hf Hm; [lia|]. cbn [parse_opts]. rewrite Hl. destruct (Z.ltb_spec idx (optlen o)) as [Hlt|]; [|now exists m].
  assert (Hlast : forall n, idx + 1 <= n < 32768 -> (Z.to_nat (optlen o - n) < fuel)%nat) by lia. assert (Hend : forall n k, optlen o <= n -> (0 < fuel)%nat -> parse_opts fuel o n k = Some k /\ parse_opts fuel o' n k = Some k).
  { intros n k Hn Hfu. destruct fuel; [lia|]. cbn [parse_opts]. rewrite Hl. now rewrite (proj2 (Z.ltb_ge _ _)). }
  rewrite (Hs idx) by lia. rewrite (u16_id (idx + 1)) by word_lia. rewrite (u16_id (idx + 1 + 1)) by word_lia. rewrite (u16_id (idx + 1 + 1 + 1)), (u16_id (idx + 1 + 1 + 2)) by word_lia.
  destruct (tcp_getoptbyte o idx =? LWIP_TCP_OPT_EOL); [now exists m|]. destruct (tcp_getoptbyte o idx =? LWIP_TCP_OPT_NOP); [apply IH; [lia|apply Hlast; lia|exact Hm]|].
  destruct (tcp_getoptbyte o idx =? LWIP_TCP_OPT_MSS).
  - unfold LWIP_TCP_OPT_LEN_MSS. destruct (Z.gtb_spec (idx + 1 + 1 - 2 + 4) (optlen o)); [rewrite !orb_true_r; now exists m|]. rewrite !orb_false_r, !Hs by lia. destruct (negb _); [now exists m|].
    apply IH; [lia|apply Hlast; lia|]. apply mss_option_ok; apply Hb.
  - pose proof (Hb (idx + 1)) as B. pose proof (Hb' (idx + 1)) as B'. unfold byte_at in B, B'. rewrite (u16_id (idx + 1 + 1 + (tcp_getoptbyte o (idx + 1) - 2))), (u16_id (idx + 1 + 1 + (tcp_getoptbyte o' (idx + 1) - 2))) by word_lia.
    destruct (Z.ltb_spec (idx + 1) (optlen o)).
    + rewrite (Hs (idx + 1)) by lia. destruct (Z.ltb_spec (tcp_getoptbyte o (idx + 1)) 2); [now exists m|]. apply IH; [lia|apply Hlast; lia|exact Hm].
    + exists m. assert (0 < fuel)%nat by (specialize (Hlast (idx + 1)); lia).
      destruct (Z.ltb_spec (tcp_getoptbyte o (idx + 1)) 2), (Z.ltb_spec (tcp_getoptbyte o' (idx + 1)) 2); (split; [|split; [|exact Hm]]); try reflexivity; apply Hend; lia.
Qed.

Lemma opts_refl o : same_opts o o.
Proof. now split. Qed.
Lemma opts_fuel_enough o : opts_ok o -> (Z.to_nat (o.(optlen) - 0) < opts_fuel o)%nat.
Proof. intros [H _]. unfold opts_fuel. lia. Qed.

(** ** Connections *)

Lemma bind_clift {A B} (m : TM A) (f : A -> CM B) k a s' : m k.(st) = Ok (a, s') -> bind (lift m) f k = f a (k <| st := s' |>).
Proof. intros E. unfold bind, lift. now rewrite E. Qed.
Definition set_pcb (f : tcp_pcb -> tcp_pcb) (k : conn) : conn := k <| st := k.(st) <| pcb := f k.(st).(pcb) |> |>.
Lemma bind_cset {B} f (g : unit -> CM B) k : bind (cset f) g k = g tt (set_pcb f k).
Proof. reflexivity. Qed.
Lemma bind_cget {A B} (f : tcp_pcb -> A) (g : A -> CM B) k : bind (cget f) g k = g (f k.(st).(pcb)) k.
Proof. reflexivity. Qed.

Section Process.
Context (isn : Z) (data : list Z) (Hsize : total data <= 536870912) (NOASSERT : bool) (ack_out : tcp_pcb -> option err_t) (route : option Z) (seg_out : tcp_pcb -> tcp_seg -> option err_t) (rst_out : bool) (cb : callbacks).
Abbreviation rx := (rx isn data).
Abbreviation total := (total data).
Abbreviation received := (received isn data).

(** What comes before the state is looked at: time stamps and options. *)
Record prologue (c c' : tcp_pcb) : Prop := {
  pl_rx : forall N, rx N c -> rx N c';
  pl_tx : tx_ok c -> tx_ok c';
  pl_same : (c'.(state), c'.(flags), c'.(ooseq), c'.(rcv_nxt), c'.(rcv_wnd), c'.(snd_nxt), c'.(unacked), c'.(unsent), c'.(lastack), c'.(snd_buf), c'.(rcv_ann_wnd)) =
            (c.(state), c.(flags), c.(ooseq), c.(rcv_nxt), c.(rcv_wnd), c.(snd_nxt), c.(unacked), c.(unsent), c.(lastack), c.(snd_buf), c.(rcv_ann_wnd)) }.

Lemma prologue_trans c1 c2 c3 : prologue c1 c2 -> prologue c2 c3 -> prologue c1 c3.
Proof. intros [A1 A2 A3] [B1 B2 B3]. split; [auto|auto|congruence]. Qed.

Lemma tmr_prologue (b : tcp_pcb -> bool) t c : prologue c (if b c then c else c <| tmr := t |>).
Proof. destruct (b c); (split; [intros N [X1 X2 X3 X4 X5 X6 X7]; now split|intros [T1 T2 T3 T4 T5 T6 T7 T8 T9]; now split|reflexivity]). Qed.
Lemma keep_prologue c : prologue c (c <| keep_cnt_sent := 0 |>).
Proof. split; [intros N [X1 X2 X3 X4 X5 X6 X7]; now split|intros [T1 T2 T3 T4 T5 T6 T7 T8 T9]; now split|reflexivity]. Qed.
Lemma mss_prologue m c : mss_ok m -> prologue c (c <| mss := m |>).
Proof. unfold mss_ok, TCP_MSS. intros Hm. split; [intros N [X1 X2 X3 X4 X5 X6 X7]; split; try assumption; cbn [mss with_field]; lia|intros [T1 T2 T3 T4 T5 T6 T7 T8 T9]; now split|reflexivity]. Qed.

(** The control block with the time of the segment and the MSS of its options. *)
Definition timed_pcb (t m : Z) (c : tcp_pcb) : tcp_pcb := (if on c.(flags) TF_RXCLOSED then c else c <| tmr := t |>) <| keep_cnt_sent := 0 |> <| mss := m |>.

Lemma tcp_process_begins o k : opts_ok o -> mss_ok k.(st).(pcb).(mss) -> on k.(st).(hdr_flags) TCP_RST = false -> on k.(st).(hdr_flags) TCP_SYN && negb (state_is k.(st).(pcb).(state) SYN_SENT) && negb (state_is k.(st).(pcb).(state) SYN_RCVD) = false ->
  exists m, let c := timed_pcb k.(st).(tcp_ticks) m k.(st).(pcb) in tcp_process NOASSERT ack_out route seg_out rst_out cb o k = process_state NOASSERT ack_out route seg_out rst_out cb (set_pcb (fun _ => c) k) /\ prologue k.(st).(pcb) c.
Proof.
  intros Ho Hm Hr Hs. unfold tcp_process. rewrite bind_gets. cbv zeta. rewrite Hr, Hs. rewrite !bind_cset. unfold tcp_parseopt. rewrite bind_assoc, bind_cget.
  set (f1 := fun c : tcp_pcb => if on (flags c) TF_RXCLOSED then c else c <| tmr := tcp_ticks (st k) |>). set (f2 := fun c : tcp_pcb => c <| keep_cnt_sent := 0 |>).
  pose proof (tmr_prologue (fun c => on (flags c) TF_RXCLOSED) (tcp_ticks (st k)) (pcb (st k))) as P1. change (prologue (pcb (st k)) (f1 (pcb (st k)))) in P1. pose proof (prologue_trans _ _ _ P1 (keep_prologue _)) as P2. change (prologue (pcb (st k)) (f2 (f1 (pcb (st k))))) in P2.
  assert (Em : mss (f2 (f1 (pcb (st k)))) = mss (pcb (st k))) by (unfold f2, f1; destruct (on (flags (pcb (st k))) TF_RXCLOSED); reflexivity). change (pcb (st (set_pcb f2 (set_pcb f1 k)))) with (f2 (f1 (pcb (st k)))). rewrite Em.
  destruct (parse_opts_spec o o Ho Ho (opts_refl o) (opts_fuel o) 0 (mss (pcb (st k))) ltac:(lia) (opts_fuel_enough o Ho) Hm) as (m & E & _ & Hm'). rewrite E. rewrite bind_cset.
  exists m. split; [reflexivity|]. exact (prologue_trans _ _ _ P2 (mss_prologue m _ Hm')).
Qed.

Lemma tcp_process_prologue o k : opts_ok o -> mss_ok k.(st).(pcb).(mss) -> on k.(st).(hdr_flags) TCP_RST = false -> on k.(st).(hdr_flags) TCP_SYN && negb (state_is k.(st).(pcb).(state) SYN_SENT) && negb (state_is k.(st).(pcb).(state) SYN_RCVD) = false ->
  exists c, tcp_process NOASSERT ack_out route seg_out rst_out cb o k = process_state NOASSERT ack_out route seg_out rst_out cb (set_pcb (fun _ => c) k) /\ prologue k.(st).(pcb) c.
Proof. intros H1 H2 H3 H4. destruct (tcp_process_begins o k H1 H2 H3 H4) as (m & H). eexists. exact H. Qed.

(** *** The end of a connection *)

Definition purged (k : conn) : conn := k <| refused_data := None |> <| st := k.(st)
  <| pcb := k.(st).(pcb) <| ooseq := [] |> <| rtime := -1 |> <| unacked := [] |> <| unsent := [] |> <| unsent_oversize := 0 |> |>
  <| seg_free := k.(st).(seg_free) + Z.of_nat (length k.(st).(pcb).(ooseq)) + Z.of_nat (length k.(st).(pcb).(unsent)) + Z.of_nat (length k.(st).(pcb).(unacked)) |> |>.

Lemma segs_free_eq l s : tcp_segs_free l s = Ok (tt, with_free s (Z.of_nat (length l))).
Proof. destruct (segs_free_spec l s) as (s' & E & ->). exact E. Qed.

Lemma purge_spec k : synced k.(st).(pcb).(state) = true -> k.(st).(pcb).(state) <> TIME_WAIT -> tcp_pcb_purge k = Ok (tt, purged k).
Proof.
  intros Hs Ht. unfold tcp_pcb_purge. rewrite bind_cget. replace (_ || _ || _) with false by (destruct (state (pcb (st k))); try reflexivity; try discriminate Hs; contradiction). cbn [negb]. rewrite bind_modify.
  rewrite (bind_clift _ _ _ _ _ (segs_free_eq _ _)), bind_cset, (bind_clift _ _ _ _ _ (segs_free_eq _ _)), (bind_clift _ _ _ _ _ (segs_free_eq _ _)). reflexivity.
Qed.
Lemma pool_fields s s' : s'.(seg_free) = s.(seg_free) -> s'.(pcb).(unacked) = s.(pcb).(unacked) -> s'.(pcb).(unsent) = s.(pcb).(unsent) -> s'.(pcb).(ooseq) = s.(pcb).(ooseq) -> pool s' = pool s.
Proof. intros E1 E2 E3 E4. unfold pool, queued. now rewrite E1, E2, E3, E4. Qed.
Lemma purged_pool k : pool (st (purged k)) = pool (st k).
Proof. unfold pool, purged, queued. cbn [st seg_free pcb unacked unsent ooseq length with_field]. lia. Qed.

Lemma enter_time_wait_spec k : synced k.(st).(pcb).(state) = true -> k.(st).(pcb).(state) <> TIME_WAIT ->
  enter_time_wait k = Ok (tt, (set_pcb (fun c => c <| state := TIME_WAIT |>) (purged k)) <| place := TimeWait |>).
Proof. intros Hs Ht. unfold enter_time_wait, to_state. rewrite (bind_ok _ _ _ _ _ (purge_spec k Hs Ht)). reflexivity. Qed.

(** *** The new state *)

(** RFC 793, for a connection that is synchronised: [fin] tells whether the
    peer's FIN has been taken, [acked] whether our FIN is acknowledged. *)
Definition next_state (x : tcp_state) (fin acked : bool) : tcp_state :=
  match x with
  | ESTABLISHED => if fin then CLOSE_WAIT else ESTABLISHED
  | FIN_WAIT_1 => if fin then if acked then TIME_WAIT else CLOSING else if acked then FIN_WAIT_2 else FIN_WAIT_1
  | FIN_WAIT_2 => if fin then TIME_WAIT else FIN_WAIT_2
  | CLOSING => if acked then TIME_WAIT else CLOSING
  | _ => x
  end.
Definition closes (x : tcp_state) (acked : bool) : bool := match x with LAST_ACK => acked | _ => false end.

(** What [tcp_process] does after [tcp_receive] has left [s1]. *)
Record settled (k : conn) (s1 : tcp_st) (k' : conn) : Prop := {
  se_live : k'.(st).(pcb).(state) <> TIME_WAIT -> (forall N, rx N s1.(pcb) -> rx N k'.(st).(pcb)) /\ txv k'.(st).(pcb) = txv s1.(pcb) /\ k'.(st).(pcb).(ooseq) = s1.(pcb).(ooseq) /\ k'.(place) = k.(place) /\ k'.(refused_data) = k.(refused_data);
  se_dead : k'.(st).(pcb).(state) = TIME_WAIT -> k'.(place) = TimeWait /\ k'.(st).(pcb).(unacked) = [] /\ k'.(st).(pcb).(unsent) = [] /\ k'.(st).(pcb).(ooseq) = [] /\ k'.(refused_data) = None;
  se_pool : pool k'.(st) = pool s1;
  se_wnd : k'.(st).(pcb).(rcv_wnd) = s1.(pcb).(rcv_wnd);
  se_rxclosed : on k'.(st).(pcb).(flags) TF_RXCLOSED = on s1.(pcb).(flags) TF_RXCLOSED;
  se_input : (k'.(st).(recv_data), k'.(st).(recv_acked), k'.(st).(input_pcb), k'.(st).(xmit)) = (s1.(recv_data), s1.(recv_acked), s1.(input_pcb), s1.(xmit));
  se_flags : on k'.(st).(recv_flags) TF_GOT_FIN = got_fin s1 /\ on k'.(st).(recv_flags) TF_RESET = on s1.(recv_flags) TF_RESET;
  se_conn : k'.(log) = k.(log) /\ k'.(rsts) = k.(rsts) }.

Lemma settled_live k s1 f x : (forall c, (f c).(state) = x /\ (forall N, rx N c -> rx N (f c)) /\ txv (f c) = txv c /\ (f c).(ooseq) = c.(ooseq) /\ (f c).(rcv_wnd) = c.(rcv_wnd) /\ on (f c).(flags) TF_RXCLOSED = on c.(flags) TF_RXCLOSED) -> x <> TIME_WAIT ->
  settled k s1 (k <| st := s1 <| pcb := f s1.(pcb) |> |>).
Proof.
  intros Hf Hx. destruct (Hf (pcb s1)) as (H1 & H2 & H3 & H4 & H5 & H6). split; cbn [st place refused_data log rsts with_field]; try reflexivity; try assumption; try (now split).
  - intros E. change (state (f (pcb s1)) = TIME_WAIT) in E. rewrite H1 in E. contradiction.
  - unfold pool. cbn [seg_free pcb with_field]. now rewrite (txv_queued _ _ H3), H4.
Qed.

Lemma rx_kept c c' : (c'.(rcv_nxt), c'.(rcv_wnd), c'.(ooseq), c'.(rcv_ann_right_edge), c'.(rcv_ann_wnd), c'.(mss)) = (c.(rcv_nxt), c.(rcv_wnd), c.(ooseq), c.(rcv_ann_right_edge), c.(rcv_ann_wnd), c.(mss)) -> forall N, rx N c -> rx N c'.
Proof. intros E N [X1 X2 X3 X4 X5 X6 X7]. injection E as E1 E2 E3 E4 E5 E6. split; rewrite ?E1, ?E2, ?E3, ?E4, ?E5, ?E6; assumption. Qed.

Lemma to_state_live x c : let f := fun c : tcp_pcb => c <| state := x |> in
  (f c).(state) = x /\ (forall N, rx N c -> rx N (f c)) /\ txv (f c) = txv c /\ (f c).(ooseq) = c.(ooseq) /\ (f c).(rcv_wnd) = c.(rcv_wnd) /\ on (f c).(flags) TF_RXCLOSED = on c.(flags) TF_RXCLOSED.
Proof. cbv zeta. split; [reflexivity|]. split; [apply rx_kept; reflexivity|]. now repeat split. Qed.

Definition acked_state (x : tcp_state) (c : tcp_pcb) : tcp_pcb := c <| flags := c.(flags) .| TF_ACK_NOW |> <| state := x |>.
Lemma acked_state_live x c : (acked_state x c).(state) = x /\ (forall N, rx N c -> rx N (acked_state x c)) /\ txv (acked_state x c) = txv c /\ (acked_state x c).(ooseq) = c.(ooseq) /\ (acked_state x c).(rcv_wnd) = c.(rcv_wnd) /\
  on (acked_state x c).(flags) TF_RXCLOSED = on c.(flags) TF_RXCLOSED.
Proof.
  split; [reflexivity|]. split; [apply rx_kept; reflexivity|]. unfold txv, acked_state. cbn [snd_queuelen unacked unsent cwnd mss ssthresh snd_wnd snd_buf snd_nxt lastack flags ooseq rcv_wnd with_field].
  change TF_INFR with (2 ^ 2). rewrite (lor_off 2) by (lia || reflexivity). rewrite rx_lor by reflexivity. now repeat split.
Qed.

Lemma settled_same k s1 : s1.(pcb).(state) <> TIME_WAIT -> settled k s1 (k <| st := s1 |>).
Proof. intros Hx. split; cbn [st place refused_data log rsts with_field]; try reflexivity; now split. Qed.

Lemma dead_pool k : pool (st ((set_pcb (fun c => c <| state := TIME_WAIT |>) k) <| place := TimeWait |>)) = pool (st k).
Proof. unfold pool, queued, set_pcb. cbn [st seg_free pcb unacked unsent ooseq with_field]. reflexivity. Qed.

Lemma settled_dead k s1 f : s1.(pcb).(state) <> TIME_WAIT -> synced s1.(pcb).(state) = true -> (forall c, (f c).(unacked) = c.(unacked) /\ (f c).(unsent) = c.(unsent) /\ (f c).(ooseq) = c.(ooseq) /\ (f c).(rcv_wnd) = c.(rcv_wnd) /\ on (f c).(flags) TF_RXCLOSED = on c.(flags) TF_RXCLOSED) ->
  settled k s1 ((set_pcb (fun c => c <| state := TIME_WAIT |>) (purged (set_pcb f (k <| st := s1 |>)))) <| place := TimeWait |>).
Proof.
  intros Hx Hs Hf. destruct (Hf (pcb s1)) as (H1 & H2 & H3 & H4 & H5). split; try reflexivity; try (now split).
  - rewrite dead_pool, purged_pool. apply pool_fields; [reflexivity|assumption..].
  - exact H4.
  - exact H5.
Qed.

Lemma ack_now_kept c : let f := fun c : tcp_pcb => c <| flags := c.(flags) .| TF_ACK_NOW |> in
  (f c).(state) = c.(state) /\ (f c).(unacked) = c.(unacked) /\ (f c).(unsent) = c.(unsent) /\ (f c).(ooseq) = c.(ooseq) /\ (f c).(rcv_wnd) = c.(rcv_wnd) /\ on (f c).(flags) TF_RXCLOSED = on c.(flags) TF_RXCLOSED.
Proof. cbv zeta. cbn [state unacked unsent ooseq rcv_wnd flags with_field]. rewrite rx_lor by reflexivity. now repeat split. Qed.

Lemma enter_settled {B} (g : unit -> CM B) k s1 f : s1.(pcb).(state) <> TIME_WAIT -> synced s1.(pcb).(state) = true ->
  (forall c, (f c).(state) = c.(state) /\ (f c).(unacked) = c.(unacked) /\ (f c).(unsent) = c.(unsent) /\ (f c).(ooseq) = c.(ooseq) /\ (f c).(rcv_wnd) = c.(rcv_wnd) /\ on (f c).(flags) TF_RXCLOSED = on c.(flags) TF_RXCLOSED) ->
  exists k', bind enter_time_wait g (set_pcb f (k <| st := s1 |>)) = g tt k' /\ settled k s1 k' /\ k'.(st).(pcb).(state) = TIME_WAIT /\ k'.(st).(recv_flags) = s1.(recv_flags).
Proof.
  intros Hx Hs Hf. set (K := set_pcb f _). assert (EK : state (pcb (st K)) = state (pcb s1)) by apply Hf. eexists. rewrite (bind_ok _ _ _ _ _ (enter_time_wait_spec K ltac:(rewrite EK; exact Hs) ltac:(rewrite EK; exact Hx))).
  split; [reflexivity|]. split; [|now split]. apply settled_dead; [exact Hx|exact Hs|]. intros c. destruct (Hf c) as (_ & H). exact H.
Qed.

Lemma process_state_spec N a k : let s := k.(st) in
  rx N s.(pcb) -> tx_ok s.(pcb) -> fresh s -> synced s.(pcb).(state) = true -> s.(pcb).(state) <> TIME_WAIT -> (open_state s.(pcb).(state) = true -> N <= total) -> acceptable isn data N a s ->
  exists s1 N' k', tcp_receive NOASSERT ack_out s = Ok (tt, s1) /\ received N N' a s s1 /\ process_state NOASSERT ack_out route seg_out rst_out cb k = Ok (ERR_OK, k') /\ settled k s1 k' /\
    k'.(st).(pcb).(state) = next_state s.(pcb).(state) (got_fin s1) (fin_acked s1) /\
    on k'.(st).(recv_flags) TF_CLOSED = closes s.(pcb).(state) (fin_acked s1).
Proof.
  intros s X T F Hs Ht Ho Ha. destruct (tcp_receive_spec isn data Hsize NOASSERT ack_out N a s X T F Hs Ho Ha) as (s1 & N' & E & R). exists s1, N'. enough (H : exists k', process_state NOASSERT ack_out route seg_out rst_out cb k = Ok (ERR_OK, k') /\ settled k s1 k' /\ k'.(st).(pcb).(state) = next_state s.(pcb).(state) (got_fin s1) (fin_acked s1) /\ on k'.(st).(recv_flags) TF_CLOSED = closes s.(pcb).(state) (fin_acked s1)).
  { destruct H as (k' & H). exists k'. split; [exact E|]. split; [exact R|]. exact H. }
  pose proof (fr_state _ _ (rd_frame _ _ _ _ _ _ _ R)) as Fs. pose proof (proj2 (fr_rst _ _ (rd_frame _ _ _ _ _ _ _ R))) as Fc. rewrite (fs_flags _ F) in Fc. change (on 0 TF_CLOSED) with false in Fc. pose proof (rd_state _ _ _ _ _ _ _ R) as Fg.
  unfold process_state. rewrite bind_cget. fold s. 
  assert (Hs1 : state (pcb s) <> ESTABLISHED -> state (pcb s1) = state (pcb s)) by (intros Hne; destruct Fs as [Fs|(Fs & _)]; [exact Fs|contradiction]).
  assert (Hwait : forall k1, bind (got_fin_then (lift tcp_ack_now ;; to_state CLOSE_WAIT)) (fun _ => ret ERR_OK) k1 = Ok (ERR_OK, if got_fin k1.(st) then set_pcb (acked_state CLOSE_WAIT) k1 else k1)).
  { intros k1. unfold got_fin_then. rewrite bind_assoc, bind_gets. fold (got_fin (st k1)). destruct (got_fin (st k1)); reflexivity. }
  destruct (state (pcb s)) eqn:Es; try discriminate Hs; try contradiction.
  - rewrite (bind_clift _ _ _ _ _ E), Hwait. eexists. split; [reflexivity|]. cbn [next_state closes]. change (st (k <| st := s1 |>)) with s1. destruct (got_fin s1) eqn:Eg.
    + split; [apply (settled_live k s1 (acked_state CLOSE_WAIT) CLOSE_WAIT); [apply acked_state_live|discriminate]|]. split; [reflexivity|exact Fc].
    + specialize (Fg eq_refl). split; [apply settled_same; rewrite Fg; discriminate|]. split; [exact Fg|exact Fc].
  - unfold process_fin_wait_1. rewrite bind_assoc, (bind_clift _ _ _ _ _ E), bind_assoc, bind_gets. change (st (k <| st := s1 |>)) with s1. fold (got_fin s1). specialize (Hs1 ltac:(discriminate)). cbn [next_state closes]. destruct (got_fin s1) eqn:Eg.
    + rewrite bind_assoc, (bind_clift tcp_ack_now _ _ tt _ eq_refl). destruct (fin_acked s1).
      * destruct (enter_settled (fun _ => ret ERR_OK) k s1 (fun c => c <| flags := c.(flags) .| TF_ACK_NOW |>)) as (k' & E' & S' & H1 & H2); [rewrite Hs1; discriminate|now rewrite Hs1|exact ack_now_kept|]. exists k'. split; [exact E'|]. split; [exact S'|]. split; [exact H1|now rewrite H2].
      * eexists. split; [reflexivity|]. split; [apply (settled_live k s1 (acked_state CLOSING) CLOSING); [apply acked_state_live|discriminate]|]. split; [reflexivity|exact Fc].
    + destruct (fin_acked s1); eexists; (split; [reflexivity|]).
      * split; [apply (settled_live k s1 (fun c => c <| state := FIN_WAIT_2 |>) FIN_WAIT_2); [apply to_state_live|discriminate]|]. split; [reflexivity|exact Fc].
      * split; [apply settled_same; rewrite Hs1; discriminate|]. split; [exact Hs1|exact Fc].
  - rewrite (bind_clift _ _ _ _ _ E). unfold got_fin_then. rewrite bind_assoc, bind_gets. change (st (k <| st := s1 |>)) with s1. fold (got_fin s1). specialize (Hs1 ltac:(discriminate)). cbn [next_state closes]. destruct (got_fin s1).
    + rewrite bind_assoc, (bind_clift tcp_ack_now _ _ tt _ eq_refl).
      destruct (enter_settled (fun _ => ret ERR_OK) k s1 (fun c => c <| flags := c.(flags) .| TF_ACK_NOW |>)) as (k' & E' & S' & H1 & H2); [rewrite Hs1; discriminate|now rewrite Hs1|exact ack_now_kept|]. exists k'. split; [exact E'|]. split; [exact S'|]. split; [exact H1|now rewrite H2].
    + eexists. split; [reflexivity|]. split; [apply settled_same; rewrite Hs1; discriminate|]. split; [exact Hs1|exact Fc].
  - rewrite (bind_clift _ _ _ _ _ E), Hwait. eexists. split; [reflexivity|]. specialize (Hs1 ltac:(discriminate)). cbn [next_state closes]. change (st (k <| st := s1 |>)) with s1. destruct (got_fin s1).
    + split; [apply (settled_live k s1 (acked_state CLOSE_WAIT) CLOSE_WAIT); [apply acked_state_live|discriminate]|]. split; [reflexivity|exact Fc].
    + split; [apply settled_same; rewrite Hs1; discriminate|]. split; [exact Hs1|exact Fc].
  - rewrite (bind_clift _ _ _ _ _ E), bind_gets. change (st (k <| st := s1 |>)) with s1. specialize (Hs1 ltac:(discriminate)). cbn [next_state closes]. destruct (fin_acked s1).
    + destruct (enter_settled (fun _ => ret ERR_OK) k s1 (fun c => c)) as (k' & E' & S' & H1 & H2); [rewrite Hs1; discriminate|now rewrite Hs1|now repeat split|]. exists k'. split; [|split; [exact S'|split; [exact H1|now rewrite H2]]].
      assert (EK : set_pcb (fun c => c) (k <| st := s1 |>) = k <| st := s1 |>) by (now destruct s1). rewrite EK in E'. exact E'.
    + eexists. split; [reflexivity|]. split; [apply settled_same; rewrite Hs1; discriminate|]. split; [exact Hs1|exact Fc].
  - rewrite (bind_clift _ _ _ _ _ E), bind_gets. change (st (k <| st := s1 |>)) with s1. specialize (Hs1 ltac:(discriminate)). cbn [next_state closes]. destruct (fin_acked s1).
    + eexists. split; [reflexivity|]. split; [|split; [exact Hs1|]].
      * destruct (settled_same k s1 ltac:(rewrite Hs1; discriminate)) as [A1 A2 A3 A4 A5 A6 [A7 A8] A9]. split; try assumption. split; [now apply (lor_off 5)|now apply (lor_off 3)].
      * change TF_CLOSED with (2 ^ 4). cbn [st recv_flags with_field]. rewrite on_lor by lia. apply orb_true_r.
    + eexists. split; [reflexivity|]. split; [apply settled_same; rewrite Hs1; discriminate|]. split; [exact Hs1|exact Fc].
Qed.

(** C4: for a connection that is synchronised, [tcp_process] takes a segment of
    the peer's stream (or a mere acknowledgement) without a failed assertion and
    returns ERR_OK.  It runs [tcp_receive] on the control block with the time and
    the options of the segment; from the position [N'] that the receiver then has
    in the stream and the queue of unsent segments that is left then, it follows
    whether the peer's FIN has just been taken and whether our FIN is
    acknowledged, and the state afterwards is the one that RFC 793 gives for
    these; outside of TIME_WAIT both sides of the control block are as they must
    be, and in TIME_WAIT every segment is back in the pool. *)
Theorem tcp_process_next_state N a k o : let s := k.(st) in
  opts_ok o -> on s.(hdr_flags) TCP_RST = false -> on s.(hdr_flags) TCP_SYN = false ->
  rx N s.(pcb) -> tx_ok s.(pcb) -> fresh s -> synced s.(pcb).(state) = true -> s.(pcb).(state) <> TIME_WAIT -> (open_state s.(pcb).(state) = true -> N <= total) -> acceptable isn data N a s ->
  exists m s1 N' k', tcp_receive NOASSERT ack_out (s <| pcb := timed_pcb s.(tcp_ticks) m s.(pcb) |>) = Ok (tt, s1) /\ rx N' s1.(pcb) /\ N <= N' /\
    tcp_process NOASSERT ack_out route seg_out rst_out cb o k = Ok (ERR_OK, k') /\
    (let fin := (N <=? total) && (total <? N') in let acked := on s.(hdr_flags) TCP_ACK && (s.(ackno) =? s.(pcb).(snd_nxt)) && is_empty s1.(pcb).(unsent) in
     k'.(st).(pcb).(state) = next_state s.(pcb).(state) fin acked /\ on k'.(st).(recv_flags) TF_CLOSED = closes s.(pcb).(state) acked) /\
    (k'.(st).(pcb).(state) <> TIME_WAIT -> rx N' k'.(st).(pcb) /\ tx_ok k'.(st).(pcb) /\ k'.(st).(pcb).(unsent) = s1.(pcb).(unsent) /\ k'.(st).(pcb).(unacked) = s1.(pcb).(unacked) /\ k'.(place) = k.(place)) /\
    (k'.(st).(pcb).(state) = TIME_WAIT -> k'.(place) = TimeWait /\ k'.(st).(seg_free) = pool s) /\
    pool k'.(st) = pool s.
Proof.
  intros s Ho Hr Hy X T F Hs Ht Hop Ha. destruct (tcp_process_begins o k Ho (tx_mss _ T) Hr ltac:(fold s; now rewrite Hy)) as (m & E & [P1 P2 P3]). fold s in E, P1, P2, P3. remember (timed_pcb (tcp_ticks s) m (pcb s)) as c eqn:Ec.
  rewrite E. injection P3 as Q1 Q2 Q3 Q4 Q5 Q6 Q7 Q8 Q9 Q10 Q11. set (k1 := set_pcb (fun _ => c) k). assert (F1 : pcb (st k1) = c) by reflexivity.
  assert (Fr1 : fresh (st k1)) by (destruct F; now split). assert (Ac1 : acceptable isn data N a (st k1)). { destruct Ha as [L1 L2]. split; [exact L1|]. rewrite F1, Q1. intros Hl Hc. destruct (L2 Hl Hc) as [V1 V2 V3 V4 V5 V6 V7 V8]. split; try assumption. change (pcb (st k1)) with c. rewrite Q5. exact V6. }
  destruct (process_state_spec N a k1) as (s1 & N' & k' & Er & R & E' & Se & St & Cl); try assumption; try (rewrite F1, Q1; assumption); [exact (P1 N X)|exact (P2 T)|]. pose proof (rd_frame _ _ _ _ _ _ _ R) as Fm. pose proof (fr_input _ _ Fm) as FI. injection FI as J1 J2 J3 J4 J5 J6. pose proof (fr_pcb _ _ Fm) as FP. injection FP as K1 K2 K3.
  assert (Hp : pool (st k') = pool s) by (rewrite (se_pool _ _ _ Se), (rd_pool _ _ _ _ _ _ _ R); apply pool_fields; [reflexivity|rewrite F1; assumption..]).
  exists m, s1, N', k'. rewrite <- Ec. split; [exact Er|]. split; [exact (rd_rx _ _ _ _ _ _ _ R)|]. split; [exact (rd_le _ _ _ _ _ _ _ R)|]. split; [exact E'|]. split; [|split; [|split; [|exact Hp]]].
  - rewrite F1, Q1 in St, Cl. unfold fin_acked in St, Cl. rewrite (rd_fin _ _ _ _ _ _ _ R), J1, J2, K1, Q6 in St. rewrite J1, J2, K1, Q6 in Cl. cbv zeta. split; [exact St|exact Cl].
  - intros Hl. destruct (se_live _ _ _ Se Hl) as (S1 & S2 & _ & S4 & _). split; [exact (S1 N' (rd_rx _ _ _ _ _ _ _ R))|]. split; [exact (txv_ok _ _ S2 (rd_tx _ _ _ _ _ _ _ R))|]. unfold txv in S2. injection S2 as _ S5 S6 _ _ _ _ _ _ _ _. now repeat split.
  - intros Hd. destruct (se_dead _ _ _ Se Hd) as (D1 & D2 & D3 & D4 & _). split; [exact D1|]. rewrite <- Hp. unfold pool, queued. rewrite D2, D3, D4. cbn [length Z.of_nat]. lia.
Qed.

(** C33: reading the options of a segment always ends, leaves a maximum segment
    size between 1 and the configured one, and does not depend on the memory
    behind the options, although a byte of it may be read. *)
Theorem tcp_parseopt_within o o' k : opts_ok o -> opts_ok o' -> same_opts o o' -> mss_ok k.(st).(pcb).(mss) ->
  exists m, tcp_parseopt o k = Ok (tt, set_pcb (fun c => c <| mss := m |>) k) /\ tcp_parseopt o' k = Ok (tt, set_pcb (fun c => c <| mss := m |>) k) /\ mss_ok m.
Proof.
  intros Ho Ho' Hs Hm. pose proof (opts_fuel_enough o Ho) as Hf. destruct (parse_opts_spec o o' Ho Ho' Hs (opts_fuel o) 0 _ ltac:(lia) Hf Hm) as (m & E & E' & Hm').
  assert (Hfu : opts_fuel o' = opts_fuel o) by (unfold opts_fuel; now rewrite (proj1 Hs)). exists m. unfold tcp_parseopt. rewrite !bind_cget, E, Hfu, E'. now repeat split; try apply Hm'.
Qed.
End Process.
