(* ===== verification/TcpApp.v ===== *)
(** * The application of a TCP connection

    What [tcp_input] relies on from the callbacks of the application, as an
    interface, and what a connection promises the application: it is told the
    bytes of the stream, each once and in order, and the end of the stream after
    them.  Data that the application refuses is offered again. *)

From Stdlib Require Import ZArith List Lia Bool.
From S2P Require Import Prelude Pbuf TcpIn TcpOut TcpConn TcpStream TcpAck TcpSend TcpFrame TcpReceive TcpProcess.
Import ListNotations.
Open Scope Z_scope.
Open Scope c_scope.

(** ** What the application has been told *)

Definition taken (e : event) : list Z := match e with Recv p ERR_OK => concat p | _ => [] end.
Definition heard (k : conn) : list Z := flat_map taken k.(log).
Definition is_end (e : event) : bool := match e with Closed => true | _ => false end.
Definition ends (k : conn) : nat := length (filter is_end k.(log)).
(** Data that waits, and whether the FIN waits with it. *)
Definition pending (k : conn) : list Z := match k.(refused_data) with Some (p, _) => concat p | None => [] end.
Definition fin_waits (k : conn) : bool := match k.(refused_data) with Some (_, b) => b | None => false end.
Definition some_waits (k : conn) : Prop := forall p b, k.(refused_data) = Some (p, b) -> 0 < tot_len p.

(** The part of the state that callbacks and the code around them share. *)
Definition around (s : tcp_st) := (s.(recv_data), s.(recv_flags), s.(tcplen), s.(input_pcb), s.(hdr_flags), s.(ackno), s.(seqno), s.(inseg), s.(hdr_wnd)).

Section App.
Context (isn : Z) (data : list Z) (Hsize : total data <= 536870912).
Abbreviation rx := (rx isn data).
Abbreviation total := (total data).
Abbreviation slice := (slice data).
Abbreviation upto := (upto data).

(** A step that keeps the connection: the window may grow, the rest of the
    receiver's side means the same. *)
Record calm (k k' : conn) : Prop := {
  ca_rx : forall N, rx N k.(st).(pcb) -> rx N k'.(st).(pcb);
  ca_tx : tx_ok k.(st).(pcb) -> tx_ok k'.(st).(pcb);
  ca_state : (k'.(st).(pcb).(state), on k'.(st).(pcb).(flags) TF_RXCLOSED, k'.(place)) = (k.(st).(pcb).(state), on k.(st).(pcb).(flags) TF_RXCLOSED, k.(place));
  ca_around : around k'.(st) = around k.(st);
  ca_acked : k'.(st).(recv_acked) = k.(st).(recv_acked);
  ca_pool : pool k'.(st) = pool k.(st);
  ca_wnd : k.(st).(pcb).(rcv_wnd) <= k'.(st).(pcb).(rcv_wnd) }.
(** A step of the application: nothing is told or refused. *)
Definition app_step (k k' : conn) : Prop := calm k k' /\ (k'.(refused_data), k'.(log)) = (k.(refused_data), k.(log)).

Lemma calm_refl k : calm k k.
Proof. split; auto; lia. Qed.
Lemma calm_trans k1 k2 k3 : calm k1 k2 -> calm k2 k3 -> calm k1 k3.
Proof. intros [A1 A2 A3 A4 A5 A6 A7] [B1 B2 B3 B4 B5 B6 B7]. split; try congruence; auto; lia. Qed.
Lemma calm_log k l : calm k (k <| log := l |>).
Proof. split; auto; cbn [st with_field]; lia. Qed.
Lemma calm_refused k r : calm k (k <| refused_data := r |>).
Proof. split; auto; cbn [st with_field]; lia. Qed.
#[local] Hint Resolve calm_refl calm_log calm_refused calm_trans : core.

(** A connection whose callbacks may be called. *)
Definition callable (k : conn) : Prop := tx_ok k.(st).(pcb) /\ (exists N, rx N k.(st).(pcb)) /\ (k.(st).(pcb).(state) = ESTABLISHED \/ k.(st).(pcb).(state) = CLOSE_WAIT).

Lemma callable_calm k k' : callable k -> calm k k' -> callable k'.
Proof. intros (C1 & (N & C2) & C3) [A1 A2 A3 A4 A5 A6 A7]. injection A3 as A3 _ _. split; [auto|]. split; [exists N; auto|now rewrite A3]. Qed.

(** What the callbacks promise: they return, do not abort the connection, and
    open the window by at most what they have taken; the callback for errors is
    not given the control block. *)
Class Application (cb : callbacks) : Prop := {
  app_recv : forall p k, callable k -> 0 < tot_len p -> k.(st).(pcb).(rcv_wnd) + tot_len p <= TCP_WND ->
    exists err k', cb.(on_recv) (Some p) k = Ok (err, k') /\ err <> ERR_ABRT /\ app_step k k' /\ k'.(st).(pcb).(rcv_wnd) <= TCP_WND /\ (err <> ERR_OK -> k'.(st).(pcb).(rcv_wnd) = k.(st).(pcb).(rcv_wnd));
  app_end : forall k, callable k -> k.(st).(pcb).(rcv_wnd) <= TCP_WND ->
    exists err k', cb.(on_recv) None k = Ok (err, k') /\ err <> ERR_ABRT /\ app_step k k' /\ k'.(st).(pcb).(rcv_wnd) <= TCP_WND;
  app_sent : forall n k, callable k -> 0 < n -> exists err k', cb.(on_sent) n k = Ok (err, k') /\ err <> ERR_ABRT /\ app_step k k' /\ k'.(st).(pcb).(rcv_wnd) = k.(st).(pcb).(rcv_wnd);
  app_connected : forall k, callable k -> exists err k', cb.(on_connected) k = Ok (err, k') /\ err <> ERR_ABRT /\ app_step k k' /\ k'.(st).(pcb).(rcv_wnd) = k.(st).(pcb).(rcv_wnd);
  app_err : forall e k, cb.(on_err) e k = Ok (tt, k) }.

(** A larger window. *)
Lemma rx_grow N c w : rx N c -> c.(rcv_wnd) <= w < 65536 -> rx N (c <| rcv_wnd := w |>).
Proof.
  intros [X1 X2 X3 X4 (E & X5 & X6) X7 X8] Hw. split; cbn [rcv_nxt rcv_wnd ooseq rcv_ann_right_edge rcv_ann_wnd mss with_field]; try assumption; try lia.
  - eapply queue_weaken; [exact X4|lia|lia].
  - exists E. split; [exact X5|lia].
Qed.

(** *** The invariant of a connection between two segments *)

(** The connection stands at position [N] of the stream. *)
Record core (N : Z) (k : conn) : Prop := {
  co_rx : rx N k.(st).(pcb);
  co_tx : tx_ok k.(st).(pcb);
  co_state : k.(st).(pcb).(state) = if N <=? total then ESTABLISHED else CLOSE_WAIT;
  co_rxclosed : on k.(st).(pcb).(flags) TF_RXCLOSED = false;
  co_place : k.(place) = Active }.

(** What it has told the application. *)
Record told (N : Z) (k : conn) : Prop := {
  to_waits : some_waits k;
  to_bytes : heard k ++ pending k = slice 0 (upto N);
  to_fin : fin_waits k = true -> total < N;
  to_last : total < N -> k.(refused_data) <> None -> fin_waits k = true;
  to_ends : ends k = if (total <? N) && negb (fin_waits k) then 1%nat else 0%nat }.

Definition within (k : conn) : Prop := k.(st).(pcb).(rcv_wnd) + Z.of_nat (length (pending k)) <= TCP_WND.
Definition live (N : Z) (k : conn) : Prop := core N k /\ told N k /\ within k.

Lemma core_calm N k k' : core N k -> calm k k' -> core N k'.
Proof. intros [C1 C2 C3 C4 C5] [A1 A2 A3 A4 A5 A6 A7]. injection A3 as E1 E2 E3. split; auto; congruence. Qed.
Lemma core_callable N k : core N k -> callable k.
Proof. intros [C1 C2 C3 C4 C5]. split; [exact C2|]. split; [now exists N|]. rewrite C3. destruct (N <=? total); [now left|now right]. Qed.

(** The same has been told and the same waits. *)
Lemma told_same N k k' : (k'.(refused_data), k'.(log)) = (k.(refused_data), k.(log)) -> told N k -> told N k'.
Proof. intros E [T1 T2 T3 T5 T4]. injection E as E1 E2. unfold some_waits, heard, pending, fin_waits, ends in *. split; unfold some_waits, heard, pending, fin_waits, ends; rewrite ?E1, ?E2; assumption. Qed.

(** *** Refused data *)

Definition corrected (c : tcp_pcb) : tcp_pcb := if c.(rcv_wnd) =? TCP_WND then c else c <| rcv_wnd := u16 (c.(rcv_wnd) + 1) |>.

Lemma corrected_calm k : callable k -> k.(st).(pcb).(rcv_wnd) <= TCP_WND -> calm k (set_pcb corrected k) /\ (set_pcb corrected k).(st).(pcb).(rcv_wnd) <= TCP_WND.
Proof.
  intros (T & (N0 & X0) & _) Hw. pose proof (rx_wnd _ _ _ _ X0) as W. unfold set_pcb, corrected. destruct (Z.eqb_spec (rcv_wnd (pcb (st k))) TCP_WND) as [E|E]; [split; [|exact Hw]; replace (k <| st := _ |>) with k by (destruct k as [[] ? ? ? ?]; reflexivity); apply calm_refl|].
  rewrite u16_id by (unfold TCP_WND, TCP_MSS in *; word_lia). split; [|cbn [st pcb rcv_wnd with_field]; lia]. split; try reflexivity.
  - intros N X. apply rx_grow; [exact X|unfold TCP_WND, TCP_MSS in *; lia].
  - clear T. intros T. destruct T. now split.
  - cbn [st pcb rcv_wnd with_field]. lia.
Qed.

Context (cb : callbacks) (App : Application cb).

(** The end of the stream is told. *)
Lemma closed_spec {B} (f : err_t -> CM B) k : callable k -> k.(st).(pcb).(rcv_wnd) <= TCP_WND ->
  exists err k', (correct_rcv_wnd ;; do err <- TCP_EVENT_CLOSED cb; f err) k = f err k' /\ err <> ERR_ABRT /\ calm k k' /\ (k'.(refused_data), k'.(log)) = (k.(refused_data), k.(log) ++ [Closed]) /\ k'.(st).(pcb).(rcv_wnd) <= TCP_WND.
Proof.
  intros C Hw. destruct (corrected_calm k C Hw) as [S1 W1]. unfold correct_rcv_wnd. rewrite bind_cset. change (set_pcb _ k) with (set_pcb corrected k).
  set (k1 := set_pcb corrected k) in *. assert (R1 : refused_data k1 = refused_data k /\ log k1 = log k) by now split. clearbody k1. destruct R1 as [R1 L1]. unfold TCP_EVENT_CLOSED, note. rewrite bind_assoc, bind_modify.
  assert (S2 : calm k1 (k1 <| log := log k1 ++ [Closed] |>)) by apply calm_log. set (k2 := k1 <| log := log k1 ++ [Closed] |>) in *. assert (R2 : refused_data k2 = refused_data k1 /\ log k2 = log k1 ++ [Closed] /\ st k2 = st k1) by now repeat split. clearbody k2. destruct R2 as (R2 & L2 & E2).
  destruct (app_end k2 (callable_calm _ _ C (calm_trans _ _ _ S1 S2))) as (err & k3 & E3 & He & [S3 R3] & W3); [now rewrite E2|]. rewrite (bind_ok _ _ _ _ _ E3). exists err, k3. split; [reflexivity|]. split; [exact He|]. split; [eauto|]. split; [rewrite R3; congruence|exact W3].
Qed.

(** Data is offered. *)
Lemma event_recv_spec {B} (f : err_t -> CM B) p k : callable k -> 0 < tot_len p -> k.(st).(pcb).(rcv_wnd) + tot_len p <= TCP_WND ->
  exists err k', (do err <- TCP_EVENT_RECV cb p; f err) k = f err k' /\ err <> ERR_ABRT /\ calm k k' /\ (k'.(refused_data), k'.(log)) = (k.(refused_data), k.(log) ++ [Recv p err]) /\ k'.(st).(pcb).(rcv_wnd) <= TCP_WND /\ (err <> ERR_OK -> k'.(st).(pcb).(rcv_wnd) = k.(st).(pcb).(rcv_wnd)).
Proof.
  intros C Hp Hw. destruct (app_recv p k C Hp Hw) as (err & k1 & E1 & He & [S1 R1] & W1 & W1'). unfold TCP_EVENT_RECV, note. rewrite bind_assoc, (bind_ok _ _ _ _ _ E1), bind_assoc, bind_modify, bind_ret. injection R1 as R1 L1.
  exists err. eexists. split; [reflexivity|]. split; [exact He|]. split; [eauto|]. cbn [refused_data log st with_field]. split; [congruence|]. now split.
Qed.

(** Telling one thing more. *)
Lemma heard_more k k' e : k'.(log) = k.(log) ++ [e] -> heard k' = heard k ++ taken e.
Proof. intros E. unfold heard. rewrite E, flat_map_app. cbn [flat_map]. now rewrite app_nil_r. Qed.
Lemma ends_more k k' e : k'.(log) = k.(log) ++ [e] -> ends k' = (ends k + if is_end e then 1 else 0)%nat.
Proof. intros E. unfold ends. rewrite E, filter_app, length_app. cbn [filter]. now destruct (is_end e). Qed.

(** Waiting data has been taken; its FIN, if there is one, is told next. *)
Lemma told_taken N k k' p b : told N k -> k.(refused_data) = Some (p, b) -> (k'.(refused_data), k'.(log)) = (None, k.(log) ++ (if b then [Recv p ERR_OK; Closed] else [Recv p ERR_OK])) -> told N k'.
Proof.
  intros [T1 T2 T3 T5 T4] Er E. injection E as E1 E2. unfold pending, fin_waits in *. rewrite Er in *. split.
  - intros p' b' E. rewrite E1 in E. discriminate E.
  - unfold pending, heard in *. rewrite E1, E2, flat_map_app, app_nil_r, <- T2. f_equal. destruct b; cbn [flat_map taken]; now rewrite ?app_nil_r.
  - unfold fin_waits. rewrite E1. discriminate.
  - rewrite E1. contradiction.
  - unfold fin_waits, ends in *. rewrite E1, E2, filter_app, length_app, T4. destruct b; cbn [filter is_end length negb]; rewrite ?andb_false_r, ?andb_true_r, ?Nat.add_0_r; [|reflexivity]. specialize (T3 eq_refl). now rewrite (proj2 (Z.ltb_lt _ _)).
Qed.

(** It is still refused. *)
Lemma told_refused N k k' p b err : told N k -> k.(refused_data) = Some (p, b) -> err <> ERR_OK -> (k'.(refused_data), k'.(log)) = (Some (p, b), k.(log) ++ [Recv p err]) -> told N k'.
Proof.
  intros [T1 T2 T3 T5 T4] Er He E. injection E as E1 E2. unfold some_waits, pending, fin_waits in *. rewrite Er in *. split; unfold some_waits, pending, fin_waits; rewrite ?E1; try assumption.
  - rewrite (heard_more k k' _ E2). destruct err; try contradiction; cbn [taken]; now rewrite app_nil_r.
  - rewrite (ends_more k k' _ E2), T4. cbn [is_end]. now rewrite Nat.add_0_r.
Qed.

Lemma err_not_ok err : err_is_ok err = false -> err <> ERR_OK.
Proof. intros H ->. discriminate H. Qed.

Lemma refused_spec N k : live N k -> exists err k', tcp_process_refused_data cb k = Ok (err, k') /\ err <> ERR_ABRT /\ live N k' /\ calm k k'.
Proof.
  intros (C & T & W). unfold tcp_process_refused_data. rewrite bind_gets. destruct (refused_data k) as [[p b]|] eqn:Er; [|exists ERR_OK, k; split; [reflexivity|]; split; [discriminate|]; now repeat (split; [repeat split; assumption|])].
  pose proof (core_callable _ _ C) as Hc. pose proof (to_waits _ _ T p b Er) as Hp. unfold within, pending in W. rewrite Er in W. fold (tot_len p) in W. rewrite bind_modify. pose proof (calm_refused k None) as S1.
  set (k1 := k <| refused_data := None |>) in *. assert (R1 : refused_data k1 = None /\ log k1 = log k /\ st k1 = st k) by now repeat split. clearbody k1. destruct R1 as (R1 & L1 & E1). rewrite <- E1 in W.
  match goal with |- context [bind (TCP_EVENT_RECV cb p) ?f k1] => destruct (event_recv_spec f p k1 (callable_calm _ _ Hc S1) Hp W) as (err & k2 & E2 & He & S2 & R2 & W2 & W2') end. rewrite E2. injection R2 as R2 L2. pose proof (calm_trans _ _ _ S1 S2) as S12. rewrite R1 in R2. rewrite L1 in L2.
  destruct (err_is_ok err) eqn:Eo; [destruct err; try discriminate Eo; destruct b|].
  - destruct (closed_spec (fun err => ret (if is_abrt err then ERR_ABRT else ERR_OK)) k2 (callable_calm _ _ Hc S12) W2) as (err & k3 & E3 & Ha & S3 & R3 & W3). rewrite E3. injection R3 as R3 L3. exists (if is_abrt err then ERR_ABRT else ERR_OK), k3. split; [reflexivity|]. split; [destruct err; try discriminate; contradiction|].
    split; [|exact (calm_trans _ _ _ S12 S3)]. split; [exact (core_calm _ _ _ C (calm_trans _ _ _ S12 S3))|]. split; [|unfold within, pending; rewrite R3, R2; cbn [length]; lia]. apply (told_taken N k k3 p true T Er). rewrite R3, L3, R2, L2, <- app_assoc. reflexivity.
  - exists ERR_OK, k2. split; [reflexivity|]. split; [discriminate|]. split; [|exact S12]. split; [exact (core_calm _ _ _ C S12)|]. split; [|unfold within, pending; rewrite R2; cbn [length]; lia]. apply (told_taken N k k2 p false T Er). now rewrite R2, L2.
  - pose proof (err_not_ok _ Eo) as Ho. specialize (W2' Ho). pose proof (calm_refused k2 (Some (p, b))) as S3. exists ERR_INPROGRESS. eexists. split; [destruct err; try contradiction; reflexivity|]. split; [discriminate|].
    split; [|exact (calm_trans _ _ _ S12 S3)]. split; [exact (core_calm _ _ _ C (calm_trans _ _ _ S12 S3))|]. split; [|unfold within, pending; cbn [refused_data st with_field]; rewrite W2'; exact W]. apply (told_refused N k _ p b err T Er Ho). cbn [refused_data log with_field]. now rewrite L2.
Qed.
End App.
