(* ===== verification/TcpInput.v ===== *)
(** * A segment for a connection

    [tcp_input] for a connection that receives the stream, with any application
    that keeps its promises: the segment is processed, and afterwards the
    connection and what the application was told are at the same position. *)

From Stdlib Require Import ZArith List Lia Bool.
From S2P Require Import Prelude Pbuf TcpIn TcpOut TcpConn TcpStream TcpAck TcpSend TcpFrame TcpReceive TcpProcess TcpApp.
Import ListNotations.
Open Scope Z_scope.
Open Scope c_scope.

Section Input.
Context (isn : Z) (data : list Z) (Hsize : total data <= 536870912) (NOASSERT : bool) (ack_out : tcp_pcb -> option err_t) (route : option Z) (seg_out : tcp_pcb -> tcp_seg -> option err_t) (rst_out : bool).
Context (cb : callbacks) (App : Application isn data cb).
Abbreviation rx := (rx isn data).
Abbreviation total := (total data).
Abbreviation slice := (slice data).
Abbreviation upto := (upto data).
Abbreviation calm := (calm isn data).
Abbreviation live := (live isn data).
Abbreviation core := (core isn data).
Abbreviation told := (told data).
Abbreviation callable := (callable isn data).

(** ** Segments *)

Definition has_data (g : segment) : bool := (tot_len g.(s_p) >? 0) || on g.(s_flags) TCP_FIN.
Definition seg_of (g : segment) : tcp_seg := mkSeg g.(s_p) (tot_len g.(s_p)) g.(s_seq) g.(s_flags).

(** A segment of an established connection: if it has data, it is the stream's
    at position [a], and keeps to the window of the receiver. *)
Record of_stream (a : Z) (k : conn) (g : segment) : Prop := {
  os_opts : opts_ok g.(s_opts);
  os_wnd : 0 <= g.(s_wnd) < 65536;
  os_rst : on g.(s_flags) TCP_RST = false;
  os_syn : on g.(s_flags) TCP_SYN = false;
  os_len : tot_len g.(s_p) < 32767;
  os_seg : has_data g = true -> seg_at isn data (seg_of g) a /\ g.(s_p) <> [];
  os_fits : has_data g = true -> forall N, rx N k.(st).(pcb) -> N < a -> a + TCP_TCPLEN (seg_of g) <= N + k.(st).(pcb).(rcv_wnd) }.

(** The segment is set up in [s]. *)
Record at_hand (g : segment) (s : tcp_st) : Prop := {
  ah_seg : s.(inseg) = seg_of g /\ s.(seqno) = g.(s_seq) /\ s.(hdr_flags) = g.(s_flags) /\ s.(hdr_wnd) = g.(s_wnd);
  ah_tcplen : s.(tcplen) = TCP_TCPLEN (seg_of g);
  ah_fresh : s.(recv_acked) = 0 /\ s.(recv_flags) = 0 /\ s.(recv_data) = None }.

Lemma tot_len_pos p : 0 <= tot_len p.
Proof. unfold tot_len. lia. Qed.

Lemma setup_spec a k g : of_stream a k g -> exists s, setup_inseg g k.(st) = Ok (tt, s) /\ at_hand g s /\ s.(pcb) = k.(st).(pcb) /\ s.(seg_free) = k.(st).(seg_free) /\ s.(input_pcb) = k.(st).(input_pcb).
Proof.
  intros [O1 O2 O3 O4 O5 O6 O7]. eexists. split; [reflexivity|]. split; [|now repeat split]. split; [now repeat split| |now repeat split]. cbn [tcplen with_field]. unfold TCP_TCPLEN, seg_of. cbn [slen hflags]. pose proof (tot_len_pos (s_p g)).
  destruct (on (s_flags g) (TCP_FIN .| TCP_SYN)); rewrite u16_id by word_lia; lia.
Qed.

Lemma has_data_tcplen g : on g.(s_flags) TCP_SYN = false -> 0 <= TCP_TCPLEN (seg_of g) /\ (has_data g = true <-> 0 < TCP_TCPLEN (seg_of g)).
Proof.
  intros Hs. rewrite tcplen_eq by exact Hs. unfold has_data, seg_of, fin. cbn [slen hflags]. pose proof (tot_len_pos (s_p g)). destruct (Z.gtb_spec (tot_len (s_p g)) 0), (on (s_flags g) TCP_FIN); cbn [orb]; (split; [lia|split; intros H'; try reflexivity; try discriminate H'; lia]).
Qed.

Lemma at_hand_calm g k k' : at_hand g k.(st) -> calm k k' -> at_hand g k'.(st).
Proof.
  intros [A1 A2 A3] [_ _ _ C1 C2 _ _]. unfold around in C1. injection C1 as E1 E2 E3 E4 E5 E6 E7 E8 E9. split; rewrite ?E8, ?E7, ?E5, ?E9, ?E3, ?C2, ?E2, ?E1; assumption.
Qed.

(** The segment is acceptable to [tcp_receive], also in a larger window. *)
Lemma at_hand_acceptable N a g k0 k : of_stream a k0 g -> rx N k0.(st).(pcb) -> k0.(st).(pcb).(rcv_wnd) <= k.(st).(pcb).(rcv_wnd) -> at_hand g k.(st) -> fresh k.(st) /\ acceptable isn data N a k.(st).
Proof.
  intros [O1 O2 O3 O4 O5 O6 O7] X Hw [(A1 & A2 & A3 & A4) A5 (A6 & A7 & A8)]. split; [split; try assumption; unfold hdr_ok; rewrite A4; exact O2|]. destruct (has_data_tcplen g O4) as [Hl Hh]. split; [rewrite A5; exact Hl|]. intros Ht _. rewrite A5 in Ht.
  assert (Hd : has_data g = true) by (apply Hh; lia). destruct (O6 Hd) as [S1 S2]. specialize (O7 Hd N X). split; rewrite ?A1; try assumption; try lia.
  - rewrite A2. exact (sg_seq _ _ _ _ S1).
Qed.

(** ** tcp_process *)

Record processed (N N' a : Z) (g : segment) (k k' : conn) : Prop := {
  ps_core : core N' k';
  ps_le : N <= N';
  ps_edge : N' + k'.(st).(pcb).(rcv_wnd) = N + k.(st).(pcb).(rcv_wnd);
  ps_bytes : bytes_of k'.(st) = slice (upto N) (upto N' - upto N);
  ps_data : data_ok k'.(st);
  ps_flags : on k'.(st).(recv_flags) TF_GOT_FIN = (N <=? total) && (total <? N') /\ on k'.(st).(recv_flags) TF_RESET = false /\ on k'.(st).(recv_flags) TF_CLOSED = false;
  ps_conn : (k'.(refused_data), k'.(log)) = (k.(refused_data), k.(log));
  ps_pool : pool k'.(st) = pool k.(st);
  ps_input : k'.(st).(input_pcb) = k.(st).(input_pcb);
  ps_idle : has_data g = false -> k'.(st).(recv_data) = None;
  ps_progress : has_data g = true -> N <= total -> a <= N -> N + Z.min (a + TCP_TCPLEN (seg_of g) - N) k.(st).(pcb).(rcv_wnd) <= N' }.

Lemma next_live N N' : N <= N' -> forall acked, next_state (if N <=? total then ESTABLISHED else CLOSE_WAIT) ((N <=? total) && (total <? N')) acked = if N' <=? total then ESTABLISHED else CLOSE_WAIT.
Proof. intros H acked. destruct (Z.leb_spec N total), (Z.ltb_spec total N'), (Z.leb_spec N' total); cbn [andb next_state]; try reflexivity; lia. Qed.

Lemma process_spec N a g k0 k : of_stream a k0 g -> rx N k0.(st).(pcb) -> k0.(st).(pcb).(rcv_wnd) <= k.(st).(pcb).(rcv_wnd) -> at_hand g k.(st) -> core N k ->
  exists k' N', tcp_process NOASSERT ack_out route seg_out rst_out cb g.(s_opts) k = Ok (ERR_OK, k') /\ processed N N' a g k k'.
Proof.
  intros O X0 Hw0 AH [C1 C2 C3 C4 C5]. destruct (at_hand_acceptable N a g k0 k O X0 Hw0 AH) as [Fr Ac]. pose proof AH as [(A1 & A2 & A3 & A4) A5 _]. pose proof (tx_mss _ C2) as Hm.
  destruct (tcp_process_prologue isn data NOASSERT ack_out route seg_out rst_out cb g.(s_opts) k (os_opts _ _ _ O) Hm) as (c & E & [P1 P2 P3]); [rewrite A3; exact (os_rst _ _ _ O)|now rewrite A3, (os_syn _ _ _ O)|]. rewrite E. injection P3 as Q1 Q2 Q3 Q4 Q5 Q6 Q7 Q8 Q9 Q10 Q11.
  set (k1 := set_pcb (fun _ => c) k). assert (F1 : pcb (st k1) = c) by reflexivity.
  assert (Fr1 : fresh (st k1)) by (destruct Fr; now split). assert (Hst : state (pcb (st k1)) = if N <=? total then ESTABLISHED else CLOSE_WAIT) by (rewrite F1, Q1; exact C3).
  assert (Ac1 : acceptable isn data N a (st k1)). { destruct Ac as [L1 L2]. split; [exact L1|]. rewrite F1, Q1. intros Hl Hs. destruct (L2 Hl Hs) as [V1 V2 V3 V4 V5 V6 V7 V8]. split; try assumption. change (pcb (st k1)) with c. rewrite Q5. exact V6. }
  destruct (process_state_spec isn data Hsize NOASSERT ack_out route seg_out rst_out cb N a k1) as (s1 & N' & k' & _ & R & E' & Se & St & Cl); try assumption.
  - exact (P1 N C1).
  - exact (P2 C2).
  - rewrite Hst. now destruct (N <=? total).
  - rewrite Hst. now destruct (N <=? total).
  - rewrite Hst. destruct (Z.leb_spec N total); [now intros _|discriminate].
  - exists k', N'. split; [exact E'|]. rewrite (rd_fin _ _ _ _ _ _ _ R), Hst, (next_live N N' (rd_le _ _ _ _ _ _ _ R)) in St. assert (Ht : state (pcb (st k')) <> TIME_WAIT) by (rewrite St; now destruct (N' <=? total)).
    destruct (se_live _ _ _ _ _ Se Ht) as (S1 & S2 & S3 & S4 & S5). pose proof (se_input _ _ _ _ _ Se) as SI. injection SI as I1 I2 I3 I4. pose proof (rd_frame _ _ _ _ _ _ _ R) as Fm. pose proof (fr_input _ _ Fm) as FI. injection FI as J1 J2 J3 J4 J5 J6.
    destruct (se_conn _ _ _ _ _ Se) as [SL _]. destruct (se_flags _ _ _ _ _ Se) as [G1 G2]. destruct (has_data_tcplen g (os_syn _ _ _ O)) as [Hl Hh]. change (tcplen (st k1)) with (tcplen (st k)) in R. split.
    + split; [exact (S1 N' (rd_rx _ _ _ _ _ _ _ R))|exact (txv_ok _ _ S2 (rd_tx _ _ _ _ _ _ _ R))|exact St| |rewrite S4; exact C5]. rewrite (se_rxclosed _ _ _ _ _ Se), (fr_rxclosed _ _ Fm), F1, Q2. exact C4.
    + exact (rd_le _ _ _ _ _ _ _ R).
    + rewrite (se_wnd _ _ _ _ _ Se), (rd_edge _ _ _ _ _ _ _ R), F1, Q5. reflexivity.
    + unfold bytes_of. rewrite I1. exact (rd_bytes _ _ _ _ _ _ _ R).
    + intros p Ep. rewrite I1 in Ep. apply (fr_data _ _ Fm); [|exact Ep]. intros p' E2. rewrite (fs_data _ Fr1) in E2. discriminate E2.
    + rewrite G1, (rd_fin _ _ _ _ _ _ _ R), G2, (proj1 (fr_rst _ _ Fm)), (fs_flags _ Fr1), Cl, Hst. split; [reflexivity|]. split; [reflexivity|]. now destruct (N <=? total).
    + rewrite S5, SL. reflexivity.
    + rewrite (se_pool _ _ _ _ _ Se), (rd_pool _ _ _ _ _ _ _ R). apply pool_fields; [reflexivity|rewrite F1; congruence..].
    + rewrite I3, J4. reflexivity.
    + intros Hd. rewrite I1. apply (rd_idle _ _ _ _ _ _ _ R). change (tcplen (st k1)) with (tcplen (st k)). rewrite A5. destruct (Z.eq_dec (TCP_TCPLEN (seg_of g)) 0) as [E0|E0]; [exact E0|]. rewrite (proj2 Hh) in Hd by lia. discriminate Hd.
    + intros Hd HN Ha. pose proof (rd_progress _ _ _ _ _ _ _ R) as Pr. change (tcplen (st k1)) with (tcplen (st k)) in Pr. rewrite A5, Hst, F1, Q5, (proj2 (Z.leb_le _ _) HN) in Pr. apply Pr; [|reflexivity|exact Ha]. apply Z.lt_gt, Hh, Hd.
Qed.

(** ** The application is told *)

(** What the parts that tell the application keep. *)
Record stage (N : Z) (k k' : conn) : Prop := {
  sg_core : core N k';
  sg_around : (k'.(st).(recv_data), k'.(st).(recv_flags)) = (k.(st).(recv_data), k.(st).(recv_flags));
  sg_pool : pool k'.(st) = pool k.(st);
  sg_waits : some_waits k -> some_waits k' }.

Lemma stage_trans N k1 k2 k3 : stage N k1 k2 -> stage N k2 k3 -> stage N k1 k3.
Proof. intros [A1 A2 A3 A4] [B1 B2 B3 B4]. split; [exact B1|congruence|congruence|auto]. Qed.
Lemma stage_refl N k : core N k -> stage N k k.
Proof. intros C. split; auto. Qed.
Lemma stage_calm N k k' : core N k -> calm k k' -> k'.(refused_data) = k.(refused_data) -> stage N k k'.
Proof. intros C Ca E. split; [exact (core_calm _ _ _ _ _ C Ca)|pose proof (ca_around _ _ _ _ Ca) as A; unfold around in A; injection A as -> -> _ _ _ _ _ _ _; reflexivity|exact (ca_pool _ _ _ _ Ca)|unfold some_waits; now rewrite E]. Qed.

(** The same is pending, and the application has heard the same. *)
Definition same_told (k k' : conn) : Prop := k'.(refused_data) = k.(refused_data) /\ heard k' = heard k /\ ends k' = ends k.
Lemma same_told_refl k : same_told k k.
Proof. now repeat split. Qed.
Lemma same_log k k' : (k'.(refused_data), k'.(log)) = (k.(refused_data), k.(log)) -> same_told k k'.
Proof. intros E. injection E as E1 E2. split; [exact E1|]. unfold heard, ends. now rewrite E2. Qed.

Lemma input_sent_spec N k : core N k -> exists k', input_sent cb k = Ok (false, k') /\ stage N k k' /\ same_told k k' /\ k'.(st).(pcb).(rcv_wnd) = k.(st).(pcb).(rcv_wnd).
Proof.
  intros C. unfold input_sent. rewrite bind_gets. destruct (Z.gtb_spec (recv_acked (st k)) 0) as [Hn|_]; [|exists k; split; [reflexivity|]; split; [now apply stage_refl|]; now repeat split].
  unfold TCP_EVENT_SENT, note. rewrite bind_assoc, bind_modify. set (n := recv_acked (st k)) in *. pose proof (calm_log isn data k (log k ++ [Sent n])) as S1. set (k1 := k <| log := log k ++ [Sent n] |>) in *.
  assert (R1 : refused_data k1 = refused_data k /\ log k1 = log k ++ [Sent n] /\ st k1 = st k) by now repeat split. clearbody k1. destruct R1 as (R1 & L1 & E1).
  destruct (app_sent isn data n k1 (callable_calm _ _ _ _ (core_callable _ _ _ _ C) S1) Hn) as (err & k2 & E2 & He & [S2 R2] & W2). rewrite (bind_ok _ _ _ _ _ E2). injection R2 as R2 L2. pose proof (calm_trans _ _ _ _ _ S1 S2) as S12.
  replace (is_abrt err) with false by (destruct err; try reflexivity; contradiction). rewrite (bind_clift _ _ _ _ _ eq_refl). eexists. split; [reflexivity|].
  assert (Rk : refused_data k2 = refused_data k) by congruence. split; [destruct (stage_calm N k k2 C S12 Rk) as [G1 G2 G3 G4]; split; [destruct G1 as [D1 D2 D3 D4 D5]; now split|exact G2|exact G3|exact G4]|]. split; [|cbn [st pcb with_field]; now rewrite W2, E1].
  split; [exact Rk|]. split; [transitivity (heard k2); [reflexivity|]|transitivity (ends k2); [reflexivity|]].
  - rewrite (heard_more k k2 (Sent n)) by congruence. apply app_nil_r.
  - rewrite (ends_more k k2 (Sent n)) by congruence. apply Nat.add_0_r.
Qed.

Lemma bind_cassert {B} c (f : unit -> CM B) k : c = true -> bind (lift (LWIP_ASSERT NOASSERT c)) f k = f tt k.
Proof. intros ->. unfold bind, lift, LWIP_ASSERT, Xil_Assert. destruct NOASSERT; cbn; now destruct k as [[] ? ? ? ?]. Qed.

Lemma input_data_spec N k : core N k -> data_ok k.(st) -> some_waits k -> within k -> k.(st).(pcb).(rcv_wnd) + Z.of_nat (length (bytes_of k.(st))) <= TCP_WND -> (k.(st).(recv_data) <> None -> k.(refused_data) = None) ->
  exists k', input_data NOASSERT ack_out route seg_out rst_out cb k = Ok (false, k') /\ stage N k k' /\ within k' /\ heard k' ++ pending k' = (heard k ++ pending k) ++ bytes_of k.(st) /\ fin_waits k' = fin_waits k /\ ends k' = ends k /\ (k.(st).(recv_data) = None -> k'.(refused_data) = k.(refused_data)).
Proof.
  intros C Hd Hs Hw Hb Hr. unfold input_data. rewrite bind_gets. unfold bytes_of in *. destruct (recv_data (st k)) as [p|] eqn:Ed; [|exists k; split; [reflexivity|]; split; [now apply stage_refl|]; split; [exact Hw|]; rewrite app_nil_r; now repeat split].
  specialize (Hr ltac:(discriminate)). specialize (Hd p Ed). rewrite Hr, bind_cassert by reflexivity. rewrite (co_rxclosed _ _ _ _ C). fold (tot_len p) in Hb.
  match goal with |- context [bind (TCP_EVENT_RECV cb p) ?f k] => destruct (event_recv_spec isn data cb App f p k (core_callable _ _ _ _ C) Hd Hb) as (err & k1 & E1 & He & S1 & R1 & W1 & W1') end. rewrite E1. injection R1 as R1 L1. rewrite Hr in R1.
  replace (is_abrt err) with false by (destruct err; try reflexivity; contradiction). unfold pending, fin_waits. rewrite Hr, app_nil_r. assert (R1' : refused_data k1 = refused_data k) by congruence. pose proof (stage_calm N k k1 C S1 R1') as St1. destruct (err_is_ok err) eqn:Eo; cbn [negb].
  - rewrite bind_ret. exists k1. split; [reflexivity|]. split; [exact St1|]. split; [unfold within, pending; rewrite R1; cbn [length]; lia|]. rewrite R1, app_nil_r. destruct err; try discriminate Eo. rewrite (heard_more k k1 _ L1), (ends_more k k1 _ L1). cbn [taken is_end]. now rewrite Nat.add_0_r.
  - pose proof (err_not_ok _ Eo) as Ho. rewrite bind_modify. eexists. split; [reflexivity|]. split; [|split; [|split; [|split; [|split; [|discriminate]]]]].
    + destruct St1 as [[D1 D2 D3 D4 D5] G2 G3 G4]. split; [now split|exact G2|exact G3|]. intros _ p' b' Ep. cbn [refused_data with_field] in Ep. injection Ep as <- _. exact Hd.
    + unfold within, pending. cbn [refused_data st with_field]. rewrite (W1' Ho). exact Hb.
    + cbn [refused_data with_field]. transitivity (heard k1 ++ concat p); [reflexivity|]. rewrite (heard_more k k1 _ L1). destruct err; try contradiction; cbn [taken]; now rewrite app_nil_r.
    + reflexivity.
    + transitivity (ends k1); [reflexivity|]. rewrite (ends_more k k1 _ L1). apply Nat.add_0_r.
Qed.

Lemma input_fin_spec N k : core N k -> within k -> (on k.(st).(recv_flags) TF_GOT_FIN = true -> fin_waits k = false) -> exists k', input_fin cb k = Ok (false, k') /\ stage N k k' /\ within k' /\ heard k' ++ pending k' = heard k ++ pending k /\
  (if on k.(st).(recv_flags) TF_GOT_FIN then (fin_waits k' = true /\ ends k' = ends k) \/ (k'.(refused_data) = None /\ ends k' = S (ends k)) else k'.(refused_data) = k.(refused_data) /\ ends k' = ends k).
Proof.
  intros C Hw Hf. unfold input_fin. rewrite bind_gets. destruct (on (recv_flags (st k)) TF_GOT_FIN); [|exists k; split; [reflexivity|]; split; [now apply stage_refl|]; now repeat split]. destruct (refused_data k) as [[p b]|] eqn:Er.
  - rewrite bind_modify. eexists. split; [reflexivity|]. split; [destruct C as [D1 D2 D3 D4 D5]; split; [now split|reflexivity|reflexivity|]; intros Hs p' b' Ep; cbn [refused_data with_field] in Ep; injection Ep as <- _; exact (Hs p b Er)|].
    unfold within, pending, fin_waits in *. rewrite Er in *. cbn [refused_data st with_field]. split; [exact Hw|]. split; [reflexivity|]. now left.
  - unfold within, pending in Hw. rewrite Er in Hw. cbn [length] in Hw. destruct (closed_spec isn data cb App (fun err => ret (is_abrt err)) k (core_callable _ _ _ _ C) ltac:(lia)) as (err & k1 & E1 & He & S1 & R1 & W1). rewrite E1. injection R1 as R1 L1.
    exists k1. split; [unfold ret; destruct err; try reflexivity; contradiction|]. assert (R1' : refused_data k1 = refused_data k) by congruence. split; [exact (stage_calm N k k1 C S1 R1')|]. rewrite Er in R1. unfold within, pending, fin_waits. rewrite R1, Er. cbn [length]. split; [lia|].
    split; [rewrite (heard_more k k1 _ L1); cbn [taken]; now rewrite app_nil_r|]. right. split; [reflexivity|]. rewrite (ends_more k k1 _ L1). cbn [is_end]. lia.
Qed.

(** ** The end of the processing *)

Lemma out_calm wnd k s' : out_step isn data wnd k.(st) s' -> calm k (k <| st := s' |>) /\ s'.(pcb).(rcv_wnd) = k.(st).(pcb).(rcv_wnd).
Proof.
  intros [O1 O2 O3 O4 O5 O6 O7]. unfold pcb_kept in O3. unfold input_kept in O4. injection O3 as P1 P2 P3 P4 P5 P6 P7 P8 P9 P10 P11. injection O4 as I1 I2 I3 I4 I5 I6 I7 I8 I9 I10 I11 I12. split; [|exact P4].
  split; cbn [st place with_field]; try assumption; try (now intros _); try congruence; try lia.
  - unfold around. congruence.
  - unfold pool. rewrite O5, P2, I10. reflexivity.
Qed.

Lemma output_spec k : callable k -> exists err k', lift (tcp_output NOASSERT ack_out route seg_out) k = Ok (err, k') /\ calm k k' /\ (k'.(refused_data), k'.(log)) = (k.(refused_data), k.(log)) /\ k'.(st).(pcb).(rcv_wnd) = k.(st).(pcb).(rcv_wnd).
Proof.
  intros (C & _ & Cs). destruct (tcp_output_spec isn data NOASSERT ack_out route seg_out k.(st) C) as (err & s' & E & O & _); [destruct Cs as [-> | ->]; discriminate|]. destruct (out_calm _ k s' O) as [Ca W].
  exists err, (k <| st := s' |>). split; [unfold lift; now rewrite E|]. split; [exact Ca|]. now split.
Qed.

Definition with_input (b : bool) (k : conn) : conn := k <| st := k.(st) <| input_pcb := b |> |>.
Lemma core_input N b k : core N k -> core N (with_input b k).
Proof. intros [C1 C2 C3 C4 C5]. now split. Qed.
Lemma live_input N b k : live N k -> live N (with_input b k).
Proof. intros (C & [T1 T2 T3 T5 T4] & W). split; [now apply core_input|]. split; [now split|exact W]. Qed.

Lemma bind_aborted m1 m2 k k1 : m1 k = Ok (false, k1) -> unless_aborted m1 m2 k = m2 k1.
Proof. intros E. unfold unless_aborted. now rewrite (bind_ok _ _ _ _ _ E). Qed.

Lemma upto_lip N N' : N <= N' -> 0 <= upto N' - upto N <= N' - N.
Proof. unfold TcpStream.upto. lia. Qed.

(** What has been told, after the position has moved. *)
Lemma told_moved N N' k0 k : 0 <= N -> N <= N' -> told N k0 -> some_waits k -> heard k ++ pending k = (heard k0 ++ pending k0) ++ slice (upto N) (upto N' - upto N) ->
  (if (N <=? total) && (total <? N') then (fin_waits k = true /\ ends k = ends k0) \/ (k.(refused_data) = None /\ ends k = S (ends k0)) else fin_waits k = fin_waits k0 /\ (total < N -> k.(refused_data) = k0.(refused_data)) /\ ends k = ends k0) -> told N' k.
Proof.
  intros H0 HN [T1 T2 T3 T5 T4] Hs Hb Hf. pose proof (upto_lip N N' HN) as Hu. assert (Hno : refused_data k = None -> fin_waits k = false) by (unfold fin_waits; now intros ->). split; [exact Hs| | | |].
  - rewrite Hb, T2. replace (slice (upto N) (upto N' - upto N)) with (slice (0 + upto N) (upto N' - upto N)) by reflexivity. rewrite slice_app; [f_equal; lia|lia|unfold TcpStream.upto, TcpStream.total; lia|lia].
  - intros Hw. destruct (Z.leb_spec N total), (Z.ltb_spec total N'); cbn [andb] in Hf; try lia; rewrite (proj1 Hf) in Hw; specialize (T3 Hw); lia.
  - intros Ht Hn. rewrite (proj2 (Z.ltb_lt _ _) Ht), andb_true_r in Hf. destruct (Z.leb_spec N total); [destruct Hf as [[Hf _]|[Hf _]]; [exact Hf|contradiction]|]. destruct Hf as (Hf & Hr & _). rewrite Hf. apply T5; [assumption|]. now rewrite <- Hr.
  - destruct (Z.leb_spec N total) as [HNt|HNt], (Z.ltb_spec total N') as [Ht|Ht]; cbn [andb] in *; try lia.
    + rewrite (proj2 (Z.ltb_ge _ _) HNt) in T4. cbn [andb] in T4. destruct Hf as [[-> ->]|[Hr ->]]; [|rewrite (Hno Hr)]; now rewrite T4.
    + destruct Hf as (_ & _ & ->). now rewrite (proj2 (Z.ltb_ge _ _) HNt) in T4.
    + destruct Hf as (-> & _ & ->). now rewrite (proj2 (Z.ltb_lt _ _) HNt) in T4.
Qed.

Lemma input_events_spec N N' a g k0 k : core N k0 -> told N k0 -> within k0 -> (k0.(refused_data) <> None -> has_data g = false) -> processed N N' a g k0 k ->
  exists k', input_events NOASSERT ack_out route seg_out rst_out cb k = Ok (false, k') /\ live N' k' /\ pool k'.(st) = pool k.(st).
Proof.
  intros C0 T W Hr P. pose proof (ps_core _ _ _ _ _ _ P) as C. destruct (ps_flags _ _ _ _ _ _ P) as (Ff & _ & Fc). pose proof (ps_conn _ _ _ _ _ _ P) as Pc. destruct (same_log _ _ Pc) as (Tr & Th & Te). unfold input_events.
  pose proof (rx_pos _ _ _ _ (co_rx _ _ _ _ C0)) as HN. pose proof (ps_le _ _ _ _ _ _ P) as Hle. pose proof (ps_edge _ _ _ _ _ _ P) as He. pose proof (ps_bytes _ _ _ _ _ _ P) as Hb. pose proof (upto_lip N N' Hle) as Hu.
  assert (Hlen : Z.of_nat (length (bytes_of (st k))) = upto N' - upto N) by (rewrite Hb; apply slice_length; unfold TcpStream.upto, TcpStream.total in *; lia). unfold within in W. pose proof (Zle_0_nat (length (pending k0))) as Hp.
  destruct (input_sent_spec N' k C) as (k1 & E1 & S1 & (T1r & T1h & T1e) & W1). rewrite (bind_aborted _ _ _ _ E1). pose proof (sg_around _ _ _ S1) as A1. injection A1 as A1 A1'.
  assert (Ec : input_closed NOASSERT ack_out route seg_out cb k1 = Ok (false, k1)) by (unfold input_closed; rewrite bind_gets, A1', Fc; reflexivity). rewrite (bind_aborted _ _ _ _ Ec).
  assert (Hb1 : bytes_of (st k1) = bytes_of (st k)) by (unfold bytes_of; now rewrite A1). assert (Hpe : pending k1 = pending k0) by (unfold pending; now rewrite T1r, Tr).
  destruct (input_data_spec N' k1 (sg_core _ _ _ S1)) as (k2 & E2 & S2 & W2 & H2 & F2 & N2 & D2).
  { intros p Ep. rewrite A1 in Ep. exact (ps_data _ _ _ _ _ _ P p Ep). }
  { intros p b Ep. rewrite T1r, Tr in Ep. exact (to_waits _ _ _ T p b Ep). }
  { unfold within. rewrite Hpe, W1. lia. }
  { rewrite Hb1, Hlen, W1. lia. }
  { intros Hne. rewrite T1r, Tr. destruct (refused_data k0); [|reflexivity]. rewrite A1, (ps_idle _ _ _ _ _ _ P (Hr ltac:(discriminate))) in Hne. contradiction. }
  rewrite (bind_aborted _ _ _ _ E2). pose proof (sg_around _ _ _ S2) as A2. injection A2 as A2 A2'. assert (Fw : fin_waits k1 = fin_waits k0) by (unfold fin_waits; now rewrite T1r, Tr).
  destruct (input_fin_spec N' k2 (sg_core _ _ _ S2) W2) as (k3 & E3 & S3 & W3 & H3 & F3).
  { rewrite A2', A1', Ff, F2, Fw. intros Hf. destruct (fin_waits k0) eqn:Ew; [|reflexivity]. pose proof (to_fin _ _ _ T Ew). destruct (Z.leb_spec N total); [lia|discriminate Hf]. }
  rewrite (bind_aborted _ _ _ _ E3). unfold set_input. rewrite (bind_clift _ _ _ _ _ eq_refl). change (k3 <| st := _ |>) with (with_input false k3). destruct (output_spec (with_input false k3) (core_callable _ _ _ _ (core_input _ _ _ (sg_core _ _ _ S3)))) as (err & k4 & E4 & Ca & R4 & W4). rewrite (bind_ok _ _ _ _ _ E4). exists k4. split; [reflexivity|].
  split; [|rewrite (ca_pool _ _ _ _ Ca); change (pool (st (with_input false k3))) with (pool (st k3)); rewrite (sg_pool _ _ _ S3), (sg_pool _ _ _ S2), (sg_pool _ _ _ S1); reflexivity].
  split; [exact (core_calm _ _ _ _ _ (core_input _ _ _ (sg_core _ _ _ S3)) Ca)|]. assert (T3 : told N' k3).
  { apply (told_moved N N' k0 k3); [lia|exact Hle|exact T| | |].
    - apply (sg_waits _ _ _ S3), (sg_waits _ _ _ S2). intros p b Ep. rewrite T1r, Tr in Ep. exact (to_waits _ _ _ T p b Ep).
    - rewrite H3, H2, Hb1, Hb, Hpe, T1h, Th. reflexivity.
    - rewrite A2', A1', Ff in F3. rewrite N2, T1e, Te in F3. destruct (_ && _); [exact F3|]. destruct F3 as [F3 F3']. split; [unfold fin_waits in *; rewrite F3; congruence|]. split; [|exact F3'].
      intros Ht. rewrite F3, D2; [congruence|]. rewrite A1. destruct (recv_data (st k)) as [p|] eqn:Ep; [|reflexivity]. pose proof (ps_data _ _ _ _ _ _ P p Ep) as Hpos. exfalso. unfold bytes_of in Hlen. rewrite Ep in Hlen. fold (tot_len p) in Hlen. unfold TcpStream.upto in Hlen. lia. }
  split; [exact (told_same data N' k3 k4 R4 T3)|]. unfold within, pending in *. injection R4 as R4 _. rewrite R4, W4. exact W3.
Qed.

(** ** tcp_input *)

(** The refused data comes first. *)
Lemma input_refused_spec N g k : live N k -> at_hand g k.(st) -> exists b k', input_refused cb k = Ok (b, k') /\ live N k' /\ calm k k' /\ (k.(refused_data) = None -> b = false /\ k' = k) /\ (b = false -> k'.(refused_data) <> None -> TCP_TCPLEN (seg_of g) <= 0).
Proof.
  intros L AH. unfold input_refused. rewrite bind_gets. destruct (refused_data k) as [r|] eqn:Er.
  - destruct (refused_spec isn data cb App N k L) as (err & k1 & E1 & He & L1 & Ca). rewrite (bind_ok _ _ _ _ _ E1). replace (is_abrt err) with false by (destruct err; try reflexivity; contradiction). rewrite bind_gets. eexists _, k1. split; [reflexivity|]. split; [exact L1|]. split; [exact Ca|]. split; [discriminate|].
    intros Hb Hne. destruct (refused_data k1); [|contradiction]. rewrite (ah_tcplen _ _ (at_hand_calm _ _ _ AH Ca)) in Hb. destruct (Z.gtb_spec (TCP_TCPLEN (seg_of g)) 0); [discriminate Hb|assumption].
  - exists false, k. split; [reflexivity|]. split; [exact L|]. split; [apply calm_refl|]. split; [auto|]. rewrite Er. contradiction.
Qed.

(** What [tcp_input] leaves behind. *)
Definition dropped_seg (k : conn) : conn := (with_input false k) <| st := k.(st) <| input_pcb := false |> <| recv_data := None |> <| inseg_p := false |> |>.
Lemma live_dropped N k : live N k -> live N (dropped_seg k).
Proof. intros ([C1 C2 C3 C4 C5] & [T1 T2 T3 T5 T4] & W). split; [now split|]. split; [now split|exact W]. Qed.

Lemma tcp_input_spec N a k g : live N k -> of_stream a k g ->
  exists k' N', tcp_input NOASSERT ack_out route seg_out rst_out cb g k = Ok (tt, k') /\ live N' k' /\ N <= N' /\ pool k'.(st) = pool k.(st) /\
    (k.(refused_data) = None -> has_data g = true -> N <= total -> a <= N -> N + Z.min (a + TCP_TCPLEN (seg_of g) - N) k.(st).(pcb).(rcv_wnd) <= N').
Proof.
  intros L O. unfold tcp_input. destruct (setup_spec a k g O) as (s0 & E0 & AH & Pc & Sf & _). rewrite (bind_clift _ _ _ _ _ E0). pose proof (co_rx _ _ _ _ (proj1 L)) as X. set (k0 := k <| st := s0 |>).
  assert (L0 : live N k0) by (destruct L as ([C1 C2 C3 C4 C5] & [T1 T2 T3 T5 T4] & W); split; [|split; [now split|unfold within; change (st k0) with s0; rewrite Pc; exact W]]; split; change (st k0) with s0; rewrite ?Pc; assumption).
  assert (Hp0 : pool (st k0) = pool (st k)) by (apply pool_fields; [exact Sf|change (st k0) with s0; now rewrite Pc..]). assert (Hw0 : rcv_wnd (pcb (st k)) = rcv_wnd (pcb (st k0))) by (change (st k0) with s0; now rewrite Pc). assert (Hr0 : refused_data k0 = refused_data k) by reflexivity. change s0 with (st k0) in AH. clearbody k0.
  destruct (input_refused_spec N g k0 L0 AH) as (b & k1 & E1 & L1 & Ca & Hn & Hb). rewrite (bind_ok _ _ _ _ _ E1). pose proof (ca_pool _ _ _ _ Ca) as Hp1. pose proof (ca_wnd _ _ _ _ Ca) as Hw1. destruct b.
  - rewrite bind_ret. unfold set_input. rewrite (bind_clift _ _ _ _ _ eq_refl). exists (dropped_seg k1), N. split; [reflexivity|]. split; [now apply live_dropped|]. split; [lia|]. split; [change (pool (st (dropped_seg k1))) with (pool (st k1)); congruence|]. intros Hr. rewrite <- Hr0 in Hr. destruct (Hn Hr). discriminate.
  - rewrite bind_assoc.
    unfold set_input. rewrite (bind_clift _ _ _ _ _ eq_refl). change (k1 <| st := _ |>) with (with_input true k1). set (k2 := with_input true k1). pose proof (live_input N true k1 L1) as L2. fold k2 in L2. assert (A2 : at_hand g (st k2)) by (destruct (at_hand_calm _ _ _ AH Ca); now split).
    destruct L2 as (C2 & T2 & W2). destruct (process_spec N a g k k2 O X ltac:(change (st k2) with ((st k1) <| input_pcb := true |>); cbn [pcb with_field]; lia) A2 C2) as (k3 & N' & E3 & P). rewrite bind_assoc, (bind_ok _ _ _ _ _ E3). unfold input_processed at 1. cbn [is_abrt]. rewrite bind_assoc, bind_gets, (proj1 (proj2 (ps_flags _ _ _ _ _ _ P))).
    destruct (input_events_spec N N' a g k2 k3 C2 T2 W2) as (k4 & E4 & L4 & P4); [|exact P|].
    { intros Hne. specialize (Hb eq_refl Hne). destruct (has_data_tcplen g (os_syn _ _ _ O)) as [_ Hh]. destruct (has_data g); [|reflexivity]. apply proj1 in Hh. specialize (Hh eq_refl). lia. }
    rewrite bind_assoc, (bind_ok _ _ _ _ _ E4), bind_ret. rewrite (bind_clift _ _ _ _ _ eq_refl). exists (dropped_seg k4), N'. split; [reflexivity|]. split; [now apply live_dropped|]. split; [exact (ps_le _ _ _ _ _ _ P)|]. split.
    + change (pool (st (dropped_seg k4))) with (pool (st k4)). rewrite P4, (ps_pool _ _ _ _ _ _ P). change (pool (st k2)) with (pool (st k1)). congruence.
    + intros Hr Hd HN Ha. rewrite <- Hr0 in Hr. destruct (Hn Hr) as [_ ->]. rewrite Hw0. exact (ps_progress _ _ _ _ _ _ P Hd HN Ha).
Qed.

(** ** Resets *)

Definition with_flags (f : Z -> Z) (k : conn) : conn := set_pcb (fun c => c <| flags := f c.(flags) |>) k.

Lemma live_flags N f k : (forall x, on (f x) TF_INFR = on x TF_INFR) -> (forall x, on (f x) TF_RXCLOSED = on x TF_RXCLOSED) -> live N k -> live N (with_flags f k).
Proof.
  intros Hi Hr ([C1 C2 C3 C4 C5] & [T1 T2 T3 T5 T4] & W). split; [|split; [now split|exact W]]. split; [revert C1; apply rx_kept; reflexivity| |exact C3| |exact C5].
  - destruct C2. split; try assumption. unfold with_flags, set_pcb. cbn [st pcb flags ssthresh with_field]. rewrite Hi. assumption.
  - unfold with_flags, set_pcb. cbn [st pcb flags with_field]. rewrite Hr. exact C4.
Qed.

(** Nothing has been received: only the output remains. *)
Lemma idle_events N k : live N k -> k.(st).(recv_acked) = 0 -> k.(st).(recv_flags) = 0 -> k.(st).(recv_data) = None ->
  exists k', input_events NOASSERT ack_out route seg_out rst_out cb k = Ok (false, k') /\ live N k' /\ pool k'.(st) = pool k.(st) /\ k'.(log) = k.(log).
Proof.
  intros L Ra Rf Rd. unfold input_events. rewrite (bind_aborted _ _ k k) by (unfold input_sent; rewrite bind_gets, Ra; reflexivity). rewrite (bind_aborted _ _ k k) by (unfold input_closed; rewrite bind_gets, Rf; reflexivity).
  rewrite (bind_aborted _ _ k k) by (unfold input_data; rewrite bind_gets, Rd; reflexivity). rewrite (bind_aborted _ _ k k) by (unfold input_fin; rewrite bind_gets, Rf; reflexivity).
  unfold set_input. rewrite (bind_clift _ _ _ _ _ eq_refl). change (k <| st := _ |>) with (with_input false k). pose proof (live_input N false k L) as L1. destruct (output_spec (with_input false k) (core_callable _ _ _ _ (proj1 L1))) as (err & k1 & E1 & Ca & R1 & W1). rewrite (bind_ok _ _ _ _ _ E1).
  exists k1. split; [reflexivity|]. split; [|split; [exact (ca_pool _ _ _ _ Ca)|now injection R1]]. destruct L1 as (C & T & W). split; [exact (core_calm _ _ _ _ _ C Ca)|]. split; [exact (told_same data N _ k1 R1 T)|]. injection R1 as R1 _. unfold within, pending in *. rewrite R1, W1. exact W.
Qed.

Definition state_closed (k : conn) : conn := set_pcb (fun c => c <| state := CLOSED |>) k.

(** The removal of a connection whose ACK is not outstanding. *)
Lemma remove_spec k : synced k.(st).(pcb).(state) = true -> k.(st).(pcb).(state) <> TIME_WAIT -> on k.(st).(pcb).(flags) TF_ACK_DELAY = false ->
  tcp_pcb_remove NOASSERT ack_out route seg_out k = Ok (tt, state_closed (purged (k <| place := Removed |>))).
Proof.
  intros Hs Ht Hf. unfold tcp_pcb_remove. rewrite bind_modify. set (k1 := k <| place := Removed |>). rewrite (bind_ok _ _ _ _ _ (purge_spec k1 Hs Ht)), bind_cget. set (k2 := purged k1). change (state (pcb (st k2))) with (state (pcb (st k))). change (flags (pcb (st k2))) with (flags (pcb (st k))). rewrite Hf, andb_false_r, bind_ret.
  replace (negb (state_is (state (pcb (st k))) LISTEN)) with true by (destruct (state (pcb (st k))); try reflexivity; discriminate Hs). rewrite bind_assoc, bind_cget. rewrite bind_assoc, bind_cassert by reflexivity. rewrite bind_assoc, bind_cassert by reflexivity. rewrite bind_cassert by reflexivity. reflexivity.
Qed.

Lemma live_setup N g k : live N k -> exists s0, setup_inseg g k.(st) = Ok (tt, s0) /\ live N (k <| st := s0 |>) /\ pool s0 = pool k.(st) /\ s0.(pcb) = k.(st).(pcb) /\ s0.(seqno) = g.(s_seq) /\ s0.(hdr_flags) = g.(s_flags) /\ s0.(recv_acked) = 0 /\ s0.(recv_flags) = 0 /\ s0.(recv_data) = None.
Proof.
  intros ([C1 C2 C3 C4 C5] & [T1 T2 T3 T5 T4] & W). eexists. split; [reflexivity|]. split; [|now repeat split]. split; [now split|]. split; [now split|exact W].
Qed.

(** The reset is not acceptable: at most an acknowledgement is asked for. *)
Lemma rst_ignored N k : live N k -> (k.(st).(seqno) =? q isn N) = false -> exists k', process_rst NOASSERT k = Ok (ERR_OK, k') /\ live N k' /\ pool k'.(st) = pool k.(st) /\ k'.(log) = k.(log) /\ around k'.(st) = around k.(st) /\ k'.(st).(recv_acked) = k.(st).(recv_acked).
Proof.
  intros L Hq. pose proof (proj1 L) as C. unfold process_rst, rst_acceptable. rewrite bind_assoc, bind_gets. cbv zeta. rewrite (co_state _ _ _ _ C), (rx_nxt _ _ _ _ (co_rx _ _ _ _ C)), Hq. replace (state_is _ SYN_SENT) with false by (now destruct (N <=? total)).
  destruct (TCP_SEQ_BETWEEN _ _ _); [|exists k; now repeat (split; [assumption || reflexivity|])]. rewrite bind_assoc, (bind_clift tcp_ack_now _ k tt _ eq_refl). change (k <| st := _ |>) with (with_flags (fun f => f .| TF_ACK_NOW) k).
  eexists. split; [reflexivity|]. split; [|now repeat split]. apply live_flags; [intros x; now apply (lor_off 2)|intros x; now apply rx_lor|exact L].
Qed.

(** The reset is acceptable. *)
Definition reset_seen (k : conn) : conn := with_flags (fun f => off_bits f TF_ACK_DELAY) (k <| st := k.(st) <| recv_flags := k.(st).(recv_flags) .| TF_RESET |> |>).
Lemma rst_accepted N k : live N k -> k.(st).(seqno) = q isn N -> process_rst NOASSERT k = Ok (ERR_RST, reset_seen k).
Proof.
  intros L Hq. pose proof (proj1 L) as C. unfold process_rst, rst_acceptable. rewrite bind_assoc, bind_gets. cbv zeta. rewrite (co_state _ _ _ _ C), (rx_nxt _ _ _ _ (co_rx _ _ _ _ C)), Hq, Z.eqb_refl. replace (state_is _ SYN_SENT) with false by (now destruct (N <=? total)).
  rewrite bind_ret, bind_cget, (co_state _ _ _ _ C), bind_cassert by (now destruct (N <=? total)). reflexivity.
Qed.

(** C9: for a connection that is established or whose peer has closed, with no
    refused data waiting: a reset ends it only if its sequence number is exactly
    the next one that is expected.  Then the application is told the error, the
    control block is freed and every segment is back in the pool.  With any other
    sequence number, inside the window or not, the connection stays open at the
    same position of the stream, nothing is told, and no segment is lost. *)
Theorem tcp_reset_validated N k g : live N k -> k.(refused_data) = None -> on g.(s_flags) TCP_RST = true ->
  exists k', tcp_input NOASSERT ack_out route seg_out rst_out cb g k = Ok (tt, k') /\
    if g.(s_seq) =? q isn N then k'.(place) = Freed /\ k'.(st).(pcb).(state) = CLOSED /\ k'.(log) = k.(log) ++ [Error ERR_RST] /\ k'.(st).(seg_free) = pool k.(st)
    else live N k' /\ pool k'.(st) = pool k.(st) /\ k'.(log) = k.(log).
Proof.
  intros L Hr Hf. unfold tcp_input. destruct (live_setup N g k L) as (s0 & E0 & L0 & P0 & Pc & Sq & Fl & Ra & Rf & Rd). rewrite (bind_clift _ _ _ _ _ E0). set (k0 := k <| st := s0 |>) in *. unfold input_refused. rewrite bind_assoc, bind_gets. change (refused_data k0) with (refused_data k). rewrite Hr, bind_ret.
  unfold set_input at 1. rewrite bind_assoc, (bind_clift _ _ k0 tt _ eq_refl). change (k0 <| st := _ |>) with (with_input true k0). set (k2 := with_input true k0). pose proof (live_input N true k0 L0) as L2. fold k2 in L2. rewrite bind_assoc.
  assert (Ep : forall B (f : err_t -> CM B), bind (tcp_process NOASSERT ack_out route seg_out rst_out cb (s_opts g)) f k2 = bind (process_rst NOASSERT) f k2) by (intros B f; unfold tcp_process; rewrite bind_assoc, bind_gets; cbv zeta; change (hdr_flags (st k2)) with (hdr_flags s0); rewrite Fl, Hf; reflexivity). rewrite Ep.
  assert (Hq2 : seqno (st k2) = s_seq g) by exact Sq. destruct (Z.eqb_spec (s_seq g) (q isn N)) as [Eq|Nq].
  - rewrite (bind_ok _ _ _ _ _ (rst_accepted N k2 L2 (eq_trans Hq2 Eq))). set (k3 := reset_seen k2). unfold input_processed at 1. cbn [is_abrt]. rewrite bind_assoc, bind_gets.
    assert (Hrs : on (recv_flags (st k3)) TF_RESET = true) by (change (recv_flags (st k3)) with (recv_flags s0 .| TF_RESET); rewrite Rf; reflexivity). rewrite Hrs. unfold TCP_EVENT_ERR, note. rewrite !bind_assoc, bind_modify, (bind_ok _ _ _ _ _ (app_err isn data ERR_RST _)). set (k4 := k3 <| log := log k3 ++ [Error ERR_RST] |>).
    assert (Hst : state (pcb (st k4)) = if N <=? total then ESTABLISHED else CLOSE_WAIT) by exact (co_state _ _ _ _ (proj1 L2)). assert (Hfl : on (flags (pcb (st k4))) TF_ACK_DELAY = false).
    { change (flags (pcb (st k4))) with (off_bits (flags (pcb s0)) TF_ACK_DELAY). change TF_ACK_DELAY with (2 ^ 0). rewrite on_off by lia. apply andb_false_r. }
    rewrite bind_assoc, (bind_ok _ _ _ _ _ (remove_spec k4 ltac:(rewrite Hst; now destruct (N <=? total)) ltac:(rewrite Hst; now destruct (N <=? total)) Hfl)). unfold memp_free_pcb, set_input. rewrite bind_modify, (bind_clift _ _ _ _ _ eq_refl). eexists. split; [reflexivity|]. split; [reflexivity|]. split; [reflexivity|]. split; [reflexivity|].
    change (seg_free s0 + Z.of_nat (length (ooseq (pcb s0))) + Z.of_nat (length (unsent (pcb s0))) + Z.of_nat (length (unacked (pcb s0))) = pool (st k)). rewrite <- P0. unfold pool, queued. lia.
  - destruct (rst_ignored N k2 L2) as (k3 & E3 & L3 & P3 & G3 & A3 & B3); [rewrite Hq2; now apply Z.eqb_neq|]. rewrite (bind_ok _ _ _ _ _ E3). unfold around in A3. injection A3 as I1 I2 I3 I4 I5 I6 I7 I8 I9. unfold input_processed at 1. cbn [is_abrt]. rewrite bind_assoc, bind_gets, I2. change (recv_flags (st k2)) with (recv_flags s0). rewrite Rf. change (on 0 TF_RESET) with false. cbv iota.
    destruct (idle_events N k3 L3) as (k4 & E4 & L4 & P4 & G4); [rewrite B3; exact Ra|rewrite I2; exact Rf|rewrite I1; exact Rd|]. rewrite bind_assoc, (bind_ok _ _ _ _ _ E4), bind_ret. unfold set_input. rewrite (bind_clift _ _ _ _ _ eq_refl). exists (dropped_seg k4). split; [reflexivity|]. split; [now apply live_dropped|].
    split; [change (pool (st (dropped_seg k4))) with (pool (st k4)); rewrite P4, P3; exact P0|]. change (log (dropped_seg k4)) with (log k4). rewrite G4, G3. reflexivity.
Qed.
End Input.
