(* ===== verification/TcpRuns.v ===== *)
(** * Runs of a connection

    Segments arrive in any order, overlapping and more than once; the application
    reads, the fast timer runs, data is sent.  Through every such run the
    application is told the stream, and no step fails. *)

From Stdlib Require Import ZArith List Lia Bool.
From S2P Require Import Prelude Pbuf TcpIn TcpOut TcpConn TcpStream TcpAck TcpSend TcpFrame TcpReceive TcpProcess TcpApp TcpInput.
Import ListNotations.
Open Scope Z_scope.
Open Scope c_scope.

Section Runs.
Context (isn : Z) (data : list Z) (Hsize : total data <= 536870912) (NOASSERT : bool) (ack_out : tcp_pcb -> option err_t) (route : option Z) (seg_out : tcp_pcb -> tcp_seg -> option err_t) (rst_out : bool).
Abbreviation rx := (rx isn data).
Abbreviation total := (total data).
Abbreviation slice := (slice data).
Abbreviation upto := (upto data).
Abbreviation calm := (calm isn data).
Abbreviation live := (live isn data).
Abbreviation core := (core isn data).
Abbreviation callable := (callable isn data).
Abbreviation output_spec := (output_spec isn data NOASSERT ack_out route seg_out).
Abbreviation told := (told data).

(** ** Reading and the fast timer *)

Lemma calm_set f k : (forall N, rx N k.(st).(pcb) -> rx N (f k.(st).(pcb))) -> (tx_ok k.(st).(pcb) -> tx_ok (f k.(st).(pcb))) -> (f k.(st).(pcb)).(state) = k.(st).(pcb).(state) -> on (f k.(st).(pcb)).(flags) TF_RXCLOSED = on k.(st).(pcb).(flags) TF_RXCLOSED ->
  queued (f k.(st).(pcb)) = queued k.(st).(pcb) -> (f k.(st).(pcb)).(ooseq) = k.(st).(pcb).(ooseq) -> k.(st).(pcb).(rcv_wnd) <= (f k.(st).(pcb)).(rcv_wnd) -> calm k (set_pcb f k).
Proof.
  intros H1 H2 H3 H4 H5 H6 H7. split; try assumption; try reflexivity.
  - change (place (set_pcb f k)) with (place k). change (pcb (st (set_pcb f k))) with (f (pcb (st k))). now rewrite H3, H4.
  - unfold pool. change (pcb (st (set_pcb f k))) with (f (pcb (st k))). now rewrite H5, H6.
Qed.

Lemma calm_flags g k : (forall f, on (g f) TF_INFR = on f TF_INFR) -> (forall f, on (g f) TF_RXCLOSED = on f TF_RXCLOSED) -> calm k (set_pcb (fun c => c <| flags := g c.(flags) |>) k).
Proof.
  intros Hg Hr. apply calm_set; try reflexivity; try apply Hr.
  - intros N. apply rx_kept. reflexivity.
  - intros []. split; try assumption. cbn [flags ssthresh with_field]. rewrite Hg. assumption.
Qed.
Lemma calm_ack_now k : calm k (set_pcb (fun c => c <| flags := c.(flags) .| TF_ACK_NOW |>) k).
Proof. apply (calm_flags (fun f => f .| TF_ACK_NOW)); intros f; [now apply (lor_off 2)|now apply rx_lor]. Qed.

Lemma lift_bind {A B} (m : TM A) (f : A -> TM B) k : lift (bind m f) k = bind (lift m) (fun a => lift (f a)) k.
Proof. unfold lift, bind. destruct (m (st k)) as [[a s]| |]; try reflexivity. Qed.

Lemma recved_spec k len : callable k -> 0 < len -> k.(st).(pcb).(rcv_wnd) + len <= TCP_WND ->
  exists k', lift (tcp_recved NOASSERT ack_out route seg_out len) k = Ok (tt, k') /\ calm k k' /\ (k'.(refused_data), k'.(log)) = (k.(refused_data), k.(log)) /\ k'.(st).(pcb).(rcv_wnd) = k.(st).(pcb).(rcv_wnd) + len.
Proof.
  intros C Hl Hw. destruct (proj1 (proj2 C)) as (N & X). pose proof (rx_wnd _ _ _ _ X) as Wn. unfold TCP_WND, TCP_MSS in Hw. pose proof (proj2 (proj2 C)) as Hst.
  set (f1 := fun c : tcp_pcb => c <| rcv_wnd := rcv_wnd (pcb (st k)) + len |>). assert (S1 : calm k (set_pcb f1 k)) by (apply calm_set; try reflexivity; [intros M Y; apply rx_grow; [exact Y|lia]|intros []; now split|cbn [rcv_wnd with_field f1]; unfold f1; cbn [rcv_wnd with_field]; lia]).
  set (k1 := set_pcb f1 k) in *. pose proof (ca_rx _ _ _ _ S1 N X) as [Y1 Y2 Y3 Y4 (E & Y5 & Y6) Y7 Y8].
  destruct (update_ann_spec isn data Hsize NOASSERT N (st k1) E Y2 Y5 Y1 Y3 Y6 Y8) as (v & w & Eu & Hv). set (f2 := fun c : tcp_pcb => c <| rcv_ann_wnd := w |>).
  assert (S2 : calm k1 (set_pcb f2 k1)) by (apply calm_set; try reflexivity; [intros M [Z1 Z2 Z3 Z4 Z5 Z6 Z7]; now split|intros []; now split]). set (k2 := set_pcb f2 k1) in *. pose proof (calm_trans _ _ _ _ _ S1 S2) as S12.
  assert (Hk : tcp_recved NOASSERT ack_out route seg_out len (st k) = (when s32 v >=? TCP_WND_UPDATE_THRESHOLD then (tcp_ack_now ;; tcp_output NOASSERT ack_out route seg_out ;; ret tt)) (st k2)).
  { unfold tcp_recved, pget. rewrite bind_gets, bind_oassert by (destruct Hst as [-> | ->]; reflexivity). rewrite bind_pset, bind_gets, u16_id by word_lia. change ((st k) <| pcb := _ |>) with (st k1). change (rcv_wnd (pcb (st k1))) with (rcv_wnd (pcb (st k)) + len).
    destruct (Z.gtb_spec (rcv_wnd (pcb (st k)) + len) TCP_WND) as [Hg|_]; [unfold TCP_WND, TCP_MSS in Hg; lia|]. rewrite (proj2 (Z.eqb_neq _ 0)) by lia. rewrite bind_ret, (bind_ok _ _ _ _ _ Eu). reflexivity. }
  assert (R2 : refused_data k2 = refused_data k /\ log k2 = log k /\ rcv_wnd (pcb (st k2)) = rcv_wnd (pcb (st k)) + len) by now repeat split. destruct R2 as (R2 & L2 & W2). pose proof (callable_calm _ _ _ _ C S12) as C2. assert (Hl2 : forall s', k <| st := s' |> = k2 <| st := s' |>) by reflexivity.
  unfold lift. rewrite Hk. clear Hk Eu. destruct (_ >=? _).
  - pose proof (calm_ack_now k2) as S3. unfold tcp_ack_now. rewrite bind_pset. set (k3 := set_pcb (fun c => c <| flags := flags c .| TF_ACK_NOW |>) k2) in *. change ((st k2) <| pcb := _ |>) with (st k3). assert (Hl3 : forall s', k2 <| st := s' |> = k3 <| st := s' |>) by reflexivity.
    assert (R3 : refused_data k3 = refused_data k2 /\ log k3 = log k2 /\ rcv_wnd (pcb (st k3)) = rcv_wnd (pcb (st k2))) by now repeat split. clearbody k3. destruct R3 as (R3 & L3 & W3).
    destruct (output_spec k3 (callable_calm _ _ _ _ C2 S3)) as (err & k4 & E4 & S4 & R4 & W4). unfold lift in E4. destruct (tcp_output NOASSERT ack_out route seg_out (st k3)) as [[e s4]| |] eqn:Eo; try discriminate E4. injection E4 as <- <-.
    rewrite (bind_ok _ _ _ _ _ Eo). unfold ret. exists (k3 <| st := s4 |>). split; [rewrite Hl2, Hl3; reflexivity|]. split; [exact (calm_trans _ _ _ _ _ S12 (calm_trans _ _ _ _ _ S3 S4))|]. split; [refine (eq_trans R4 _); congruence|refine (eq_trans W4 _); lia].
  - exists k2. split; [unfold ret; rewrite Hl2; now destruct k2|]. split; [exact S12|]. split; [congruence|exact W2].
Qed.

Context (cb : callbacks) (App : Application isn data cb).

Lemma live_calm N k k' : live N k -> calm k k' -> (k'.(refused_data), k'.(log)) = (k.(refused_data), k.(log)) -> within k' -> live N k'.
Proof. intros (C & T & _) Ca E W. split; [exact (core_calm _ _ _ _ _ C Ca)|]. split; [exact (told_same data N k k' E T)|exact W]. Qed.

Lemma same_within k k' : (k'.(refused_data), k'.(log)) = (k.(refused_data), k.(log)) -> k'.(st).(pcb).(rcv_wnd) = k.(st).(pcb).(rcv_wnd) -> within k -> within k'.
Proof. intros E W. injection E as E _. unfold within, pending. now rewrite E, W. Qed.

Lemma fasttmr_spec N k : live N k -> exists k', tcp_fasttmr NOASSERT ack_out route seg_out cb k = Ok (tt, k') /\ live N k' /\ pool k'.(st) = pool k.(st).
Proof.
  intros L. unfold tcp_fasttmr. rewrite bind_cget.
  assert (H : exists k1, (when on (flags (pcb (st k))) TF_ACK_DELAY then (lift tcp_ack_now ;; lift (tcp_output NOASSERT ack_out route seg_out) ;; cset (fun c => c <| flags := off_bits c.(flags) (TF_ACK_DELAY .| TF_ACK_NOW) |>))) k = Ok (tt, k1) /\ live N k1 /\ pool k1.(st) = pool k.(st)).
  { destruct (on _ TF_ACK_DELAY); [|exists k; now split]. rewrite (bind_clift tcp_ack_now _ k tt _ eq_refl). pose proof (calm_ack_now k) as S1. change (k <| st := _ |>) with (set_pcb (fun c => c <| flags := flags c .| TF_ACK_NOW |>) k).
    set (k1 := set_pcb _ k) in *. assert (R1 : (refused_data k1, log k1) = (refused_data k, log k) /\ rcv_wnd (pcb (st k1)) = rcv_wnd (pcb (st k))) by now split. clearbody k1. destruct R1 as [R1 W1].
    destruct (output_spec k1 (callable_calm _ _ _ _ (core_callable _ _ _ _ (proj1 L)) S1)) as (err & k2 & E2 & S2 & R2 & W2). rewrite (bind_ok _ _ _ _ _ E2). eexists. split; [reflexivity|].
    pose proof (calm_flags (fun f => off_bits f (TF_ACK_DELAY .| TF_ACK_NOW)) k2 infr_off (fun f => rx_off f (TF_ACK_DELAY .| TF_ACK_NOW) eq_refl)) as S3. pose proof (calm_trans _ _ _ _ _ S1 (calm_trans _ _ _ _ _ S2 S3)) as S.
    split; [|exact (ca_pool _ _ _ _ S)]. apply (live_calm N k _ L S); [rewrite <- R1, <- R2; reflexivity|]. apply (same_within k); [rewrite <- R1, <- R2; reflexivity|rewrite <- W1, <- W2; reflexivity|exact (proj2 (proj2 L))]. }
  destruct H as (k1 & E1 & L1 & P1). rewrite (bind_ok _ _ _ _ _ E1), bind_gets. destruct (refused_data k1) eqn:Er; [|exists k1; now split].
  destruct (refused_spec isn data cb App N k1 L1) as (err & k2 & E2 & _ & L2 & Ca). rewrite (bind_ok _ _ _ _ _ E2). exists k2. split; [reflexivity|]. split; [exact L2|]. rewrite (ca_pool _ _ _ _ Ca). exact P1.
Qed.

(** ** Runs *)

Abbreviation tcp_input := (tcp_input NOASSERT ack_out route seg_out rst_out cb).
Abbreviation tcp_fasttmr := (tcp_fasttmr NOASSERT ack_out route seg_out cb).
Abbreviation tcp_recved := (tcp_recved NOASSERT ack_out route seg_out).
Abbreviation tcp_output := (tcp_output NOASSERT ack_out route seg_out).
Abbreviation of_stream := (of_stream isn data).

(** A step: a segment of the stream arrives, at any position; the application
    reports that it has read data it was told; the fast timer; something is
    sent; or anything else that keeps what the application may do. *)
Inductive step (k k' : conn) : Prop :=
| step_segment a g : of_stream a k g -> tcp_input g k = Ok (tt, k') -> step k k'
| step_read len : 0 < len -> k.(st).(pcb).(rcv_wnd) + len + Z.of_nat (length (pending k)) <= TCP_WND -> lift (tcp_recved len) k = Ok (tt, k') -> step k k'
| step_timer : tcp_fasttmr k = Ok (tt, k') -> step k k'
| step_output err : lift tcp_output k = Ok (err, k') -> step k k'
| step_other : app_step isn data k k' -> within k' -> step k k'.

Inductive run (k : conn) : conn -> Prop :=
| run_nil : run k k
| run_step k1 k2 : run k k1 -> step k1 k2 -> run k k2.

Lemma step_live N k k' : live N k -> step k k' -> exists N', live N' k' /\ N <= N' /\ pool k'.(st) = pool k.(st).
Proof.
  intros L S. pose proof (core_callable _ _ _ _ (proj1 L)) as C. destruct S as [a g O E|len Hl Hw E|E|err E|[Ca R] W].
  - destruct (tcp_input_spec isn data Hsize NOASSERT ack_out route seg_out rst_out cb App N a k g L O) as (k1 & N' & E1 & L1 & HN & P & _). rewrite E in E1. injection E1 as <-. now exists N'.
  - destruct (recved_spec k len C Hl ltac:(lia)) as (k1 & E1 & Ca & R & W). rewrite E in E1. injection E1 as <-. exists N. split; [|split; [lia|exact (ca_pool _ _ _ _ Ca)]]. apply (live_calm N k); try assumption. injection R as R _. unfold within, pending in *. rewrite R, W. lia.
  - destruct (fasttmr_spec N k L) as (k1 & E1 & L1 & P). rewrite E in E1. injection E1 as <-. exists N. split; [exact L1|split; [lia|exact P]].
  - destruct (output_spec k C) as (err' & k1 & E1 & Ca & R & W). rewrite E in E1. injection E1 as _ <-. exists N. split; [|split; [lia|exact (ca_pool _ _ _ _ Ca)]]. apply (live_calm N k); try assumption. exact (same_within k k' R W (proj2 (proj2 L))).
  - exists N. split; [exact (live_calm N k k' L Ca R W)|]. split; [lia|exact (ca_pool _ _ _ _ Ca)].
Qed.

Lemma run_live N0 k0 k : live N0 k0 -> run k0 k -> exists N, live N k /\ N0 <= N /\ pool k.(st) = pool k0.(st).
Proof.
  intros L. induction 1 as [|k1 k2 R (N & L1 & HN & P) S]; [exists N0; split; [exact L|split; [lia|reflexivity]]|]. destruct (step_live N k1 k2 L1 S) as (N' & L2 & HN' & P'). exists N'. split; [exact L2|]. split; [lia|congruence].
Qed.

(** The stream up to the position. *)
Lemma told_prefix N k : 0 <= N -> told N k -> heard k ++ pending k = firstn (length (heard k ++ pending k)) data /\ Z.of_nat (length (heard k ++ pending k)) = upto N.
Proof.
  intros HN T. assert (HU : 0 <= upto N <= total) by (unfold TcpStream.upto, TcpStream.total; lia). rewrite (to_bytes _ _ _ T). rewrite slice_length by lia. split; [|reflexivity].
  pose proof (slice_length data 0 (upto N) ltac:(lia) ltac:(lia) ltac:(lia)) as Hl. unfold TcpStream.slice. rewrite length_firstn. change (skipn (Z.to_nat 0) data) with data. f_equal. unfold TcpStream.total in HU. lia.
Qed.

Lemma told_end N k : told N k -> ends k = 0%nat \/ (ends k = 1%nat /\ heard k = data).
Proof.
  intros T. rewrite (to_ends _ _ _ T). destruct (Z.ltb_spec total N) as [Ht|Ht]; [|now left]. destruct (fin_waits k) eqn:Ef; [now left|right]. split; [reflexivity|]. pose proof (to_bytes _ _ _ T) as Hb. pose proof (to_last _ _ _ T Ht) as Hl.
  destruct (refused_data k) as [r|] eqn:Er; [rewrite Hl in Ef by discriminate; discriminate Ef|]. unfold pending in Hb. rewrite Er, app_nil_r in Hb. rewrite Hb. unfold TcpStream.upto, TcpStream.slice, TcpStream.total in *. change (skipn (Z.to_nat 0) data) with data. rewrite Z.min_r by lia. rewrite Nat2Z.id. apply firstn_all.
Qed.

(** C2: in every run of a connection in which segments of the peer's stream
    ([of_stream]: no RST, no SYN, shorter than 32767 bytes, and within the window
    if they are ahead of what is expected next) arrive in any order, overlapping
    and repeated, the application has been told
    a prefix of the stream, each byte once and in order (less data that it
    refused, which waits and comes next); the end of the stream is told at most
    once, and only after every byte; no segment of the pool is lost; and the next
    such segment, whichever it is, and the next tick of the timer are processed without
    a failed assertion. *)
Theorem tcp_stream_delivered N0 k0 k : live N0 k0 -> run k0 k ->
  heard k ++ pending k = firstn (length (heard k ++ pending k)) data /\
  (ends k = 0%nat \/ (ends k = 1%nat /\ heard k = data)) /\
  pool k.(st) = pool k0.(st) /\
  (forall a g, of_stream a k g -> exists k', tcp_input g k = Ok (tt, k')) /\
  (exists k', tcp_fasttmr k = Ok (tt, k')).
Proof.
  intros L0 R. destruct (run_live N0 k0 k L0 R) as (N & L & HN & P). pose proof (rx_pos _ _ _ _ (co_rx _ _ _ _ (proj1 L))) as Hp. split; [exact (proj1 (told_prefix N k (proj1 Hp) (proj1 (proj2 L))))|]. split; [exact (told_end N k (proj1 (proj2 L)))|]. split; [exact P|]. split.
  - intros a g O. destruct (tcp_input_spec isn data Hsize NOASSERT ack_out route seg_out rst_out cb App N a k g L O) as (k' & _ & E & _). now exists k'.
  - destruct (fasttmr_spec N k L) as (k' & E & _). now exists k'.
Qed.

(** C7: a segment that starts at or before the next byte that is expected, when
    no refused data waits, takes the connection as far as the segment reaches, or
    to the end of the window: the bytes up to there have been told, or wait. *)
Theorem tcp_segment_advances N a k g : live N k -> of_stream a k g -> k.(refused_data) = None -> has_data g = true -> N <= total -> a <= N ->
  exists k', tcp_input g k = Ok (tt, k') /\ upto (N + Z.min (a + TCP_TCPLEN (seg_of g) - N) k.(st).(pcb).(rcv_wnd)) <= Z.of_nat (length (heard k' ++ pending k')).
Proof.
  intros L O Hr Hd HN Ha. destruct (tcp_input_spec isn data Hsize NOASSERT ack_out route seg_out rst_out cb App N a k g L O) as (k' & N' & E & L' & HN' & _ & Hpr). exists k'. split; [exact E|].
  pose proof (rx_pos _ _ _ _ (co_rx _ _ _ _ (proj1 L'))) as Hp. rewrite (proj2 (told_prefix N' k' (proj1 Hp) (proj1 (proj2 L')))). specialize (Hpr Hr Hd HN Ha). unfold TcpStream.upto. lia.
Qed.
End Runs.

(** ** An application that reads what it is told *)

Section Reader.
Context (NOASSERT : bool) (ack_out : tcp_pcb -> option err_t) (route : option Z) (seg_out : tcp_pcb -> tcp_seg -> option err_t).

Definition reader : callbacks := {|
  on_recv := fun p => match p with Some p => lift (tcp_recved NOASSERT ack_out route seg_out (tot_len p)) ;; ret ERR_OK | None => ret ERR_OK end;
  on_sent := fun _ => ret ERR_OK; on_connected := ret ERR_OK; on_accept := None; on_err := fun _ => ret tt |}.

#[export] Instance reader_application isn data : total data <= 536870912 -> Application isn data reader.
Proof.
  intros Hsize. split.
  - intros p k C Hp Hw. destruct (recved_spec isn data Hsize NOASSERT ack_out route seg_out k (tot_len p) C Hp Hw) as (k' & E & Ca & R & W). exists ERR_OK, k'. split; [cbn [on_recv reader]; now rewrite (bind_ok _ _ _ _ _ E)|]. split; [discriminate|]. split; [now split|]. split; [lia|contradiction].
  - intros k C Hw. exists ERR_OK, k. split; [reflexivity|]. split; [discriminate|]. split; [split; [apply calm_refl|reflexivity]|exact Hw].
  - intros n k C Hn. exists ERR_OK, k. split; [reflexivity|]. split; [discriminate|]. split; [split; [apply calm_refl|reflexivity]|reflexivity].
  - intros k C. exists ERR_OK, k. split; [reflexivity|]. split; [discriminate|]. split; [split; [apply calm_refl|reflexivity]|reflexivity].
  - reflexivity.
Qed.
End Reader.
