(* ===== verification/TcpTransfer.v ===== *)
(** * A transfer between two connections

    A sender whose queues hold a stream and a receiver, with a network between
    them that loses, repeats and reorders segments and acknowledgements: what the
    receiver's application is told and what the sender still holds add up to
    the stream. *)

From Stdlib Require Import ZArith List Lia Bool.
From S2P Require Import Prelude Pbuf TcpIn TcpOut TcpWrite TcpConn TcpStream TcpAck TcpQueue TcpSend TcpSender TcpFrame TcpReceive TcpProcess TcpApp TcpInput TcpRuns.
Import ListNotations.
Open Scope Z_scope.
Open Scope c_scope.

Section Transfer.
Context (isn : Z) (d : list Z) (Hsize : total d <= 536870912).
(** The sender. *)
Context (NA : bool) (ack_a : tcp_pcb -> option err_t) (route_a : option Z) (seg_a : tcp_pcb -> tcp_seg -> option err_t).
(** The receiver. *)
Context (NB : bool) (ack_b : tcp_pcb -> option err_t) (route_b : option Z) (seg_b : tcp_pcb -> tcp_seg -> option err_t) (rst_b : bool) (cb : callbacks) (App : Application isn d cb).

(** ** The network *)

(** A segment as it arrives: the same bytes in pbufs of the receiver. *)
Record carries (g : segment) (x : tcp_seg) : Prop := {
  cy_chain : g.(s_p) <> [];
  cy_data : concat g.(s_p) = concat x.(sp);
  cy_seq : g.(s_seq) = x.(hseq);
  cy_flags : g.(s_flags) = x.(hflags);
  cy_opts : opts_ok g.(s_opts);
  cy_wnd : 0 <= g.(s_wnd) < 65536 }.

(** It does not reach behind the receiver's window. *)
Definition in_window (k : conn) (g : segment) : Prop := forall a N, seg_at isn d (seg_of g) a -> rx isn d N k.(st).(pcb) -> N < a -> a + TCP_TCPLEN (seg_of g) <= N + k.(st).(pcb).(rcv_wnd).

(** The steps of both ends: the sender sends, retransmits everything, sends a
    probe, or gets a segment that acknowledges at most what the receiver has; a
    segment that was sent arrives; the receiver's application reads, its timer
    runs, it sends, or it does something else of its own. *)
Inductive link_step : tcp_st * conn -> tcp_st * conn -> Prop :=
| ls_output s k err s' : tcp_output NA ack_a route_a seg_a s = Ok (err, s') -> link_step (s, k) (s', k)
| ls_timeout s k s' : tcp_rexmit_rto NA ack_a route_a seg_a s = Ok (tt, s') -> link_step (s, k) (s', k)
| ls_keepalive s k out err s' : tcp_keepalive out s = Ok (err, s') -> link_step (s, k) (s', k)
| ls_probe s k out stale err s' : tcp_zero_window_probe out stale s = Ok (err, s') -> link_step (s, k) (s', k)
| ls_acknowledged s k s1 K N s' : (s1.(pcb), s1.(xmit)) = (s.(pcb), s.(xmit)) -> s1.(ackno) = q isn K -> rx isn d N k.(st).(pcb) -> 0 <= K <= N -> tcp_receive NA ack_a s1 = Ok (tt, s') -> link_step (s, k) (s', k)
| ls_segment s k x g k' : In x s.(xmit) -> carries g (fst (fst x)) -> in_window k g -> tcp_input NB ack_b route_b seg_b rst_b cb g k = Ok (tt, k') -> link_step (s, k) (s, k')
| ls_read s k len k' : 0 < len -> k.(st).(pcb).(rcv_wnd) + len + Z.of_nat (length (pending k)) <= TCP_WND -> lift (tcp_recved NB ack_b route_b seg_b len) k = Ok (tt, k') -> link_step (s, k) (s, k')
| ls_timer s k k' : tcp_fasttmr NB ack_b route_b seg_b cb k = Ok (tt, k') -> link_step (s, k) (s, k')
| ls_send s k err k' : lift (tcp_output NB ack_b route_b seg_b) k = Ok (err, k') -> link_step (s, k) (s, k')
| ls_other s k k' : app_step isn d k k' -> within k' -> link_step (s, k) (s, k').

Inductive link_run (x : tcp_st * conn) : tcp_st * conn -> Prop :=
| link_nil : link_run x x
| link_more y z : link_run x y -> link_step y z -> link_run x z.

(** ** The invariant *)

Definition joint (x : tcp_st * conn) : Prop := exists N, live isn d N (snd x) /\ inv isn d (fst x).(ackno) (good isn d N) (fst x).

Lemma stored_later A A' l : A <= A' -> stored isn d A l -> stored isn d A' l.
Proof. intros H [S1 S2 S3]. split; try assumption. intros p Hp. apply S3. lia. Qed.
Lemma inv_later A A' n s : A <= A' -> inv isn d n (good isn d A) s -> inv isn d n (good isn d A') s.
Proof. intros H (I1 & I2). split; [exact (stored_later _ _ _ H I1)|exact I2]. Qed.

Lemma piece_arrives g x a : carries g x -> seg_at isn d x a -> seg_at isn d (seg_of g) a.
Proof.
  intros [C1 C2 C3 C4 _ _] S. pose proof (seg_tot _ _ _ _ S) as Ht. assert (E : tot_len (s_p g) = slen x) by (unfold tot_len in *; now rewrite C2). destruct S as [S1 S2 S3 S4 S5 S6 S7].
  split; unfold seg_of, fin in *; cbn [hseq slen sp hflags]; rewrite ?E, ?C2, ?C3, ?C4; assumption.
Qed.

(** What was sent is acceptable to the receiver. *)
Lemma sent_of_stream k g x : sent_ok isn d x -> carries g (fst (fst x)) -> in_window k g -> exists a, of_stream isn d a k g.
Proof.
  intros (S1 & S2 & S3 & S4) C W. assert (Hl : tot_len (s_p g) < 32767).
  { unfold tot_len. rewrite (cy_data _ _ C). destruct S4 as [[_ ->]|[a S]]; [reflexivity|]. pose proof (seg_tot _ _ _ _ S) as Ht. unfold tot_len in Ht. rewrite Ht. apply (sg_len _ _ _ _ S). }
  assert (Hn : fin (fst (fst x)) = false -> concat (sp (fst (fst x))) = [] -> has_data g = false) by (intros F E; unfold has_data, tot_len; now rewrite (cy_data _ _ C), E, (cy_flags _ _ C)).
  destruct S4 as [[E1 E2]|[a S]]; [exists 0|exists a]; split; rewrite ?(cy_flags _ _ C); try assumption; try apply C.
  - intros H. rewrite Hn in H by assumption. discriminate H.
  - intros H. rewrite Hn in H by assumption. discriminate H.
  - intros _. split; [exact (piece_arrives _ _ _ C S)|apply C].
  - intros _ N X HN. exact (W a N (piece_arrives _ _ _ C S) X HN).
Qed.

(** The sender's steps. *)
Lemma joint_sender s k s' N : live isn d N k -> inv isn d s.(ackno) (good isn d N) s' -> joint (s', k).
Proof. intros L (I1 & I2 & I3). exists N. split; [exact L|]. now split. Qed.
Lemma joint_receiver s k k' N : live isn d N k -> inv isn d s.(ackno) (good isn d N) s -> step isn d NB ack_b route_b seg_b rst_b cb k k' -> joint (s, k').
Proof.
  intros L Iv S. destruct (step_live isn d Hsize NB ack_b route_b seg_b rst_b cb App N k k' L S) as (N' & L' & HN & _). exists N'. split; [exact L'|]. exact (inv_later _ _ _ _ HN Iv).
Qed.
Lemma rx_unique N M c : rx isn d N c -> rx isn d M c -> N = M.
Proof.
  intros X Y. pose proof (rx_pos _ _ _ _ X). pose proof (rx_pos _ _ _ _ Y). assert (E : (q isn N =? q isn M) = true) by (rewrite <- (rx_nxt _ _ _ _ X), <- (rx_nxt _ _ _ _ Y); apply Z.eqb_refl). rewrite q_inj in E by lia. now apply Z.eqb_eq.
Qed.
Lemma joint_step x y : joint x -> link_step x y -> joint y.
Proof.
  intros (N & L & Iv) S. pose proof (rx_pos _ _ _ _ (co_rx _ _ _ _ (proj1 L))) as HN. destruct S as [s k err s' E|s k s' E|s k out err s' E|s k out stale err s' E|s k s1 K M s' E1 E2 X HK E|s k x g k' Hx C W E|s k len k' H1 H2 E|s k k' E|s k err k' E|s k k' E W]; cbn [fst snd] in *.
  - exact (joint_sender _ _ _ _ L (tcp_keeps_output _ _ _ _ _ _ _ _ _ _ _ Iv E)).
  - exact (joint_sender _ _ _ _ L (tcp_keeps_rexmit_rto _ _ _ _ _ _ _ _ _ _ _ Iv E)).
  - exact (joint_sender _ _ _ _ L (tcp_keeps_keepalive _ _ _ _ _ _ _ _ Iv E)).
  - exact (joint_sender _ _ _ _ L (tcp_keeps_zero_window_probe _ _ _ _ _ _ _ _ _ Iv E)).
  - rewrite (rx_unique _ _ _ X (co_rx _ _ _ _ (proj1 L))) in HK. assert (Iv1 : inv isn d (q isn K) (good isn d N) s1) by (injection E1 as P1 P2; destruct Iv as (I1 & I2 & _); split; [now rewrite P1|split; [now rewrite P2|exact E2]]).
    destruct (tcp_keeps_receive isn d Hsize N (proj2 HN) (q isn K) K HK eq_refl NA ack_a _ _ _ Iv1 E) as (I1 & I2 & I3). exists N. split; [exact L|]. now split.
  - destruct (sent_of_stream k g x (proj1 (Forall_forall _ _) (proj1 (proj2 Iv)) x Hx) C W) as [a O]. apply (joint_receiver s k k' N L Iv). exact (step_segment _ _ _ _ _ _ _ _ _ _ a g O E).
  - apply (joint_receiver s k k' N L Iv). exact (step_read _ _ _ _ _ _ _ _ _ _ len H1 H2 E).
  - apply (joint_receiver s k k' N L Iv). exact (step_timer _ _ _ _ _ _ _ _ _ _ E).
  - apply (joint_receiver s k k' N L Iv). exact (step_output _ _ _ _ _ _ _ _ _ _ err E).
  - apply (joint_receiver s k k' N L Iv). exact (step_other _ _ _ _ _ _ _ _ _ _ E W).
Qed.

Lemma joint_run x y : joint x -> link_run x y -> joint y.
Proof. intros J. induction 1 as [|y z _ IH S]; [exact J|exact (joint_step y z IH S)]. Qed.

(** C1: a sender whose queues hold the stream from the receiver's position
    on, and a receiver, linked by a network that loses, repeats and reorders
    what is sent in both directions, with retransmissions and probes at any
    time: the receiver's application has been told a prefix of the stream, each
    byte once and in order, and its end at most once and only after every byte;
    whatever is missing is still in the sender's queues; when these are empty,
    the application has been told all of the stream, or the rest waits for it;
    and everything that was sent is a piece of the stream or a bare header. *)
Theorem tcp_transfer N0 s0 k0 s k : live isn d N0 k0 -> stored isn d N0 (queues s0.(pcb)) -> s0.(xmit) = [] -> link_run (s0, k0) (s, k) ->
  let got := heard k ++ pending k in
  got = firstn (length got) d /\
  (ends k = 0%nat \/ (ends k = 1%nat /\ heard k = d)) /\
  (forall p, Z.of_nat (length got) <= p < total d -> Exists (holds isn d p) (queues s.(pcb))) /\
  (queues s.(pcb) = [] -> got = d) /\
  Forall (sent_ok isn d) s.(xmit).
Proof.
  intros L0 S0 X0 R. cbv zeta. assert (J0 : joint (s0, k0)) by (exists N0; split; [exact L0|]; split; [exact S0|]; cbn [fst]; rewrite X0; now split). destruct (joint_run _ _ J0 R) as (N & L & I1 & I2 & _). cbn [fst snd] in *.
  pose proof (rx_pos _ _ _ _ (co_rx _ _ _ _ (proj1 L))) as HN. destruct (told_prefix d N k (proj1 HN) (proj1 (proj2 L))) as [P1 P2].
  assert (H : forall p, Z.of_nat (length (heard k ++ pending k)) <= p < total d -> Exists (holds isn d p) (queues (pcb s))) by (intros p Hp; apply (so_holds _ _ _ _ I1); rewrite P2 in Hp; unfold upto in Hp; lia).
  split; [exact P1|]. split; [exact (told_end d N k (proj1 (proj2 L)))|]. split; [exact H|]. split; [|exact I2]. intros E. rewrite E in H.
  destruct (Z.ltb_spec (Z.of_nat (length (heard k ++ pending k))) (total d)) as [Hl|Hl]; [specialize (H _ (conj (Z.le_refl _) Hl)); now apply Exists_nil in H|]. rewrite P1. apply firstn_all2. unfold total in Hl. lia.
Qed.
End Transfer.
