(* ===== verification/TcpOpen.v ===== *)
(** * Opening a connection

    The peer's SYN and ACK arrive for a connection that has sent its SYN: from
    then on the connection stands at the beginning of the peer's stream. *)

From Stdlib Require Import ZArith List Lia Bool.
From S2P Require Import Prelude Pbuf TcpIn TcpOut TcpConn TcpStream TcpAck TcpSend TcpFrame TcpReceive TcpProcess TcpApp.
Import ListNotations.
Open Scope Z_scope.
Open Scope c_scope.

Section Open.
Context (NOASSERT : bool) (ack_out : tcp_pcb -> option err_t) (route : option Z) (seg_out : tcp_pcb -> tcp_seg -> option err_t) (rst_out : bool).

(** A connection that has sent its SYN and heard nothing. *)
Record syn_sent (k : conn) : Prop := {
  ss_state : k.(st).(pcb).(state) = SYN_SENT;
  ss_tx : tx_ok k.(st).(pcb);
  ss_syn : exists syn rest, k.(st).(pcb).(unacked) = syn :: rest /\ pbuf_clen syn.(sp) = 1;
  ss_rcv : k.(st).(pcb).(rcv_wnd) = TCP_WND /\ k.(st).(pcb).(rcv_ann_wnd) = TCP_WND /\ k.(st).(pcb).(ooseq) = [];
  ss_flags : on k.(st).(pcb).(flags) TF_INFR = false /\ on k.(st).(pcb).(flags) TF_RXCLOSED = false;
  ss_conn : k.(place) = Active /\ k.(refused_data) = None /\ k.(log) = [] }.

(** The route's MTU leaves room for data. *)
Definition mtu_ok : Prop := forall mtu, route = Some mtu -> 40 < mtu < 32768.

Lemma eff_mss_ok m : mtu_ok -> mss_ok m -> mss_ok (tcp_eff_send_mss route m).
Proof.
  unfold mss_ok, mtu_ok. intros Hr Hm. destruct route as [mtu|]; [|exact Hm]. specialize (Hr mtu eq_refl). unfold tcp_eff_send_mss, s16, IP_HLEN, TCP_HLEN. rewrite (u16_id mtu) by word_lia. rewrite (proj2 (Z.ltb_lt _ _)) by lia. rewrite (proj2 (Z.eqb_neq _ _)) by lia. cbn [negb]. rewrite u16_id by word_lia. lia.
Qed.

Lemma initial_cwnd m : mss_ok m -> 0 < u16 (LWIP_TCP_CALC_INITIAL_CWND m) < 65536.
Proof. unfold mss_ok, TCP_MSS, LWIP_TCP_CALC_INITIAL_CWND. intros H. rewrite u16_id by word_lia. lia. Qed.

Abbreviation eff_mss := (TcpConn.eff_mss route).

(** What these steps establish. *)
Record opening (s : tcp_st) (c : tcp_pcb) : Prop := {
  og_nxt : c.(rcv_nxt) = u32 (s.(seqno) + 1) /\ c.(rcv_ann_right_edge) = u32 (s.(seqno) + 1) /\ c.(state) = ESTABLISHED;
  og_rcv : c.(rcv_wnd) = TCP_WND /\ c.(rcv_ann_wnd) = TCP_WND /\ c.(ooseq) = [];
  og_flags : on c.(flags) TF_INFR = false /\ on c.(flags) TF_RXCLOSED = false;
  og_mss : mss_ok c.(mss);
  og_wnd : c.(snd_wnd) = s.(hdr_wnd);
  og_max : c.(snd_queuelen) < 65536;
  og_segs : Forall seg_ok c.(unacked) /\ Forall seg_ok c.(unsent) }.

Lemma opening_ok s c : opening s c -> hdr_ok s -> 0 < c.(cwnd) < 65536 -> c.(ssthresh) = c.(snd_wnd) -> c.(snd_queuelen) = pbufs c.(unacked) + pbufs c.(unsent) -> tx_ok c /\ forall data, rx (s.(seqno) + 1) data 0 c.
Proof.
  intros [(O1 & O1' & _) (O2 & O2' & O2'') [O3 _] O4 O5 O6 [O7 O7']] Hh Hc Hs Hq. unfold hdr_ok in Hh. split.
  - split; try assumption; try (rewrite ?Hs, O5; lia). rewrite O3. discriminate.
  - intros data. unfold mss_ok, TCP_MSS in O4. split; rewrite ?O1, ?O2, ?O2', ?O2''; unfold TCP_WND, TCP_MSS; try lia; try exact I; [unfold total; lia|unfold q; now rewrite Z.add_0_r|]. exists 0. rewrite O1'. split; [unfold q; now rewrite Z.add_0_r|lia].
Qed.

(** The fields that matter, step by step. *)
Definition og_fields (c : tcp_pcb) := (c.(rcv_nxt), c.(rcv_ann_right_edge), c.(state), c.(rcv_wnd), c.(rcv_ann_wnd), c.(ooseq), c.(flags), c.(mss), c.(snd_wnd), c.(snd_queuelen), c.(unacked), c.(unsent)).
Lemma synced_fields s c : og_fields (synced_pcb s c) = (u32 (s.(seqno) + 1), u32 (s.(seqno) + 1), ESTABLISHED, c.(rcv_wnd), c.(rcv_ann_wnd), c.(ooseq), c.(flags), c.(mss), s.(hdr_wnd), c.(snd_queuelen), c.(unacked), c.(unsent)).
Proof. reflexivity. Qed.
Lemma eff_fields c : og_fields (eff_mss c) = (c.(rcv_nxt), c.(rcv_ann_right_edge), c.(state), c.(rcv_wnd), c.(rcv_ann_wnd), c.(ooseq), c.(flags), tcp_eff_send_mss route c.(mss), c.(snd_wnd), c.(snd_queuelen), c.(unacked), c.(unsent)).
Proof. reflexivity. Qed.
Lemma first_fields c : (og_fields (first_cwnd c), (first_cwnd c).(ssthresh), (first_cwnd c).(cwnd)) = (og_fields c, c.(snd_wnd), u16 (LWIP_TCP_CALC_INITIAL_CWND c.(mss))).
Proof. reflexivity. Qed.

Lemma opened_pcb s c : tx_ok c -> mtu_ok -> c.(rcv_wnd) = TCP_WND /\ c.(rcv_ann_wnd) = TCP_WND /\ c.(ooseq) = [] -> on c.(flags) TF_INFR = false /\ on c.(flags) TF_RXCLOSED = false ->
  let c' := first_cwnd (eff_mss (synced_pcb s c)) in opening s c' /\ 0 < c'.(cwnd) < 65536 /\ c'.(ssthresh) = c'.(snd_wnd) /\ c'.(snd_queuelen) = c.(snd_queuelen) /\ c'.(unacked) = c.(unacked) /\ c'.(unsent) = c.(unsent).
Proof.
  intros T Hm Hr Hf c'. pose proof (eff_mss_ok _ Hm (tx_mss _ T)) as He. pose proof (synced_fields s c) as F. pose proof (first_fields (eff_mss (synced_pcb s c))) as G. pose proof (eff_fields (synced_pcb s c)) as H.
  fold c' in G. clearbody c'. set (c2 := eff_mss _) in *. clearbody c2. set (c1 := synced_pcb _ c) in *. clearbody c1.
  injection F as A1 A2 A3 A4 A5 A6 A7 A8 A9 A10 A11 A12. injection H as B1 B2 B3 B4 B5 B6 B7 B8 B9 B10 B11 B12. injection G as D1 D2 D3 D4 D5 D6 D7 D8 D9 D10 D11 D12 D13 D14.
  split; [|split; [|split; [|split; [|split]]]]; try congruence; [|rewrite D14, B8, A8; now apply initial_cwnd]. split; rewrite ?D1, ?D2, ?D3, ?D4, ?D5, ?D6, ?D7, ?D8, ?D9, ?D10, ?D11, ?D12, ?B1, ?B2, ?B3, ?B4, ?B5, ?B6, ?B7, ?B8, ?B9, ?B10, ?B11, ?B12, ?A1, ?A2, ?A3, ?A4, ?A5, ?A6, ?A7, ?A8, ?A9, ?A10, ?A11, ?A12; try assumption; try (now repeat split).
  - exact (tx_max _ T).
  - split; [exact (tx_unacked _ T)|exact (tx_unsent _ T)].
Qed.

Lemma freed_fields c rest : let c' := restart ((one_less c) <| unacked := rest |>) in
  (c'.(rcv_nxt), c'.(rcv_ann_right_edge), c'.(state), c'.(rcv_wnd), c'.(rcv_ann_wnd), c'.(ooseq), c'.(flags), c'.(mss), c'.(snd_wnd), c'.(unsent), c'.(ssthresh), c'.(cwnd)) =
  (c.(rcv_nxt), c.(rcv_ann_right_edge), c.(state), c.(rcv_wnd), c.(rcv_ann_wnd), c.(ooseq), c.(flags), c.(mss), c.(snd_wnd), c.(unsent), c.(ssthresh), c.(cwnd)) /\ (c'.(unacked), c'.(snd_queuelen)) = (rest, u16 (c.(snd_queuelen) - 1)).
Proof. cbv zeta. unfold restart. change (unacked ((one_less c) <| unacked := rest |>)) with rest. destruct rest; now split. Qed.

Lemma bind_cassert' {B} c (f : unit -> CM B) k : c = true -> bind (lift (LWIP_ASSERT NOASSERT c)) f k = f tt k.
Proof. intros ->. unfold bind, lift, LWIP_ASSERT, Xil_Assert. destruct NOASSERT; cbn; now destruct k as [[] ? ? ? ?]. Qed.

Lemma ack_now_calm isn data k : calm isn data k (set_pcb (fun c => c <| flags := c.(flags) .| TF_ACK_NOW |>) k).
Proof.
  unfold set_pcb. split; try reflexivity; cbn [st pcb with_field].
  - intros N. apply rx_kept. reflexivity.
  - intros []. split; try assumption. cbn [flags ssthresh with_field]. change TF_INFR with (2 ^ 2) in *. now rewrite (lor_off 2) by (lia || reflexivity).
  - cbn [state flags place with_field]. now rewrite rx_lor.
Qed.

Context (data : list Z) (cb : callbacks).

(** What an update of the control block changes, and what it does not. *)
Definition rest_of (k : conn) := (k.(place), k.(refused_data), k.(log)).
Definition freed (k : conn) : conn := k <| st := k.(st) <| seg_free := k.(st).(seg_free) + 1 |> |>.
Lemma pcb_set f k : (set_pcb f k).(st).(pcb) = f k.(st).(pcb).
Proof. reflexivity. Qed.
Lemma rest_set f k : rest_of (set_pcb f k) = rest_of k.
Proof. reflexivity. Qed.
Lemma free_set f k : (set_pcb f k).(st).(seg_free) = k.(st).(seg_free).
Proof. reflexivity. Qed.
Lemma pcb_freed k : (freed k).(st).(pcb) = k.(st).(pcb).
Proof. reflexivity. Qed.
Lemma rest_freed k : rest_of (freed k) = rest_of k.
Proof. reflexivity. Qed.
Lemma free_freed k : (freed k).(st).(seg_free) = k.(st).(seg_free) + 1.
Proof. reflexivity. Qed.
Lemma bind_freed {B} (f : unit -> CM B) k : bind (lift tcp_seg_free) f k = f tt (freed k).
Proof. reflexivity. Qed.

Definition no_syn (rest : list tcp_seg) (c : tcp_pcb) : tcp_pcb := c <| unacked := rest |>.
Definition opened (s : tcp_st) (k : conn) : conn := set_pcb first_cwnd (set_pcb eff_mss (set_pcb (synced_pcb s) k)).
Definition unqueued (rest : list tcp_seg) (k : conn) : conn := set_pcb restart (freed (set_pcb (no_syn rest) (set_pcb one_less k))).

Lemma free_syn_unqueued {B} (f : unit -> CM B) k syn rest : k.(st).(pcb).(unacked) = syn :: rest -> bind (free_syn ;; cset restart) f (set_pcb one_less k) = f tt (unqueued rest k).
Proof.
  intros U. unfold free_syn. rewrite !bind_assoc, bind_cget, pcb_set. change (unacked (one_less (pcb (st k)))) with (unacked (pcb (st k))). rewrite U. change (fun c : tcp_pcb => c <| unacked := rest |>) with (no_syn rest). rewrite bind_assoc, bind_cset, bind_freed, bind_cset. reflexivity.
Qed.

Lemma opened_rest s k : rest_of (opened s k) = rest_of k /\ (opened s k).(st).(seg_free) = k.(st).(seg_free) /\ (opened s k).(st).(pcb) = first_cwnd (eff_mss (synced_pcb s k.(st).(pcb))).
Proof. unfold opened. split; [now rewrite !rest_set|]. split; [now rewrite !free_set|now rewrite !pcb_set]. Qed.
Lemma unqueued_rest rest k : rest_of (unqueued rest k) = rest_of k /\ (unqueued rest k).(st).(seg_free) = k.(st).(seg_free) + 1 /\ (unqueued rest k).(st).(pcb) = restart (no_syn rest (one_less k.(st).(pcb))).
Proof.
  unfold unqueued. split; [now rewrite rest_set, rest_freed, !rest_set|]. split; [now rewrite free_set, free_freed, !free_set|now rewrite pcb_set, pcb_freed, !pcb_set].
Qed.

(** Up to the callback: the SYN is freed. *)
Lemma syn_acked_runs k syn rest : let s := k.(st) in on s.(hdr_flags) TCP_SYN = true -> on s.(hdr_flags) TCP_ACK = true -> s.(ackno) = u32 (s.(pcb).(lastack) + 1) ->
  (opened s k).(st).(pcb).(unacked) = syn :: rest -> 0 < (opened s k).(st).(pcb).(snd_queuelen) ->
  process_syn_sent NOASSERT ack_out route seg_out rst_out cb k = (do err <- TCP_EVENT_CONNECTED cb; if is_abrt err then ret ERR_ABRT else lift tcp_ack_now ;; ret ERR_OK) (unqueued rest (opened s k)).
Proof.
  intros s Hy Ha Hk HU HQ. unfold process_syn_sent. rewrite bind_gets. fold s. rewrite Ha, Hy, Hk, Z.eqb_refl. cbn [andb]. rewrite !bind_cset. fold (opened s k). rewrite bind_cget, bind_cassert' by (apply Z.gtb_lt; lia). rewrite bind_cset.
  set (f := fun _ : unit => _). pose proof (free_syn_unqueued (fun _ => do err <- TCP_EVENT_CONNECTED cb; if is_abrt err then ret ERR_ABRT else lift tcp_ack_now ;; ret ERR_OK) (opened s k) syn rest HU) as E. rewrite bind_assoc in E. exact E.
Qed.

(** The SYN has left the queue and is back in the pool. *)
Definition syn_released (s s' : tcp_st) : Prop :=
  s'.(pcb).(unacked) = tl s.(pcb).(unacked) /\ s'.(pcb).(unsent) = s.(pcb).(unsent) /\ s'.(pcb).(snd_queuelen) = s.(pcb).(snd_queuelen) - 1 /\ s'.(seg_free) = s.(seg_free) + 1.

Lemma syn_acked_spec k : let s := k.(st) in mtu_ok -> syn_sent k -> on s.(hdr_flags) TCP_SYN = true -> on s.(hdr_flags) TCP_ACK = true -> s.(ackno) = u32 (s.(pcb).(lastack) + 1) ->
  exists k', process_syn_sent NOASSERT ack_out route seg_out rst_out cb k = (do err <- TCP_EVENT_CONNECTED cb; if is_abrt err then ret ERR_ABRT else lift tcp_ack_now ;; ret ERR_OK) k' /\
    opening s k'.(st).(pcb) /\ 0 < k'.(st).(pcb).(cwnd) < 65536 /\ k'.(st).(pcb).(ssthresh) = k'.(st).(pcb).(snd_wnd) /\ k'.(st).(pcb).(snd_queuelen) = pbufs k'.(st).(pcb).(unacked) + pbufs k'.(st).(pcb).(unsent) /\
    pool k'.(st) = pool s /\ rest_of k' = rest_of k /\ syn_released s k'.(st).
Proof.
  intros s Hmtu [S1 S2 (syn & rest & S3 & S3') S4 S5 S6] Hy Ha Hk. pose proof (syn_acked_runs k syn rest Hy Ha Hk) as E. destruct (opened_rest (st k) k) as (R3 & F3 & P3). fold s in E, R3, F3, P3, S2, S3, S4, S5, Hk.
  destruct (opened_pcb s (pcb s) S2 Hmtu S4 S5) as (O3 & W3 & H3 & Q3 & U3 & V3). rewrite <- P3 in O3, W3, H3, Q3, U3, V3. set (k3 := opened s k) in *. clearbody k3.
  pose proof (tx_pbufs _ S2) as Hpb. pose proof (tx_unacked _ S2) as Fu. pose proof (proj1 (pbufs_pos _ (tx_unsent _ S2))) as B2. pose proof (tx_max _ S2) as B3. rewrite S3 in Hpb, Fu, U3. apply Forall_inv_tail in Fu. pose proof (proj1 (pbufs_pos _ Fu)) as B1.
  unfold pbufs in Hpb. rewrite sum_cons, S3' in Hpb. fold (pbufs rest) (pbufs (unsent (pcb s))) in Hpb.
  exists (unqueued rest k3). split; [apply E; [exact U3|lia]|]. clear E. destruct (unqueued_rest rest k3) as (R6 & F6 & P6). destruct (freed_fields (pcb (st k3)) rest) as [G1 G2]. fold (no_syn rest (one_less (pcb (st k3)))) in G1, G2. rewrite <- P6 in G1, G2.
  set (k6 := unqueued rest k3) in *. clearbody k6. injection G1 as A1 A2 A3 A4 A5 A6 A7 A8 A9 A10 A11 A12. injection G2 as A13 A14. rewrite Q3, u16_id in A14 by word_lia. split; [|split; [|split; [|split; [|split; [|split]]]]].
  - destruct O3 as [X1 X2 X3 X4 X5 X6 [X7 X7']]. split; rewrite ?A1, ?A2, ?A3, ?A4, ?A5, ?A6, ?A7, ?A8, ?A9, ?A10, ?A13, ?A14; try assumption; [lia|now split].
  - now rewrite A12.
  - congruence.
  - rewrite A14, A13, A10, V3. lia.
  - unfold pool, queued. rewrite F6, F3, A13, A10, V3, A6, S3, (proj2 (proj2 (og_rcv _ _ O3))), (proj2 (proj2 S4) : ooseq (pcb s) = []). cbn [length]. lia.
  - congruence.
  - unfold syn_released. rewrite A13, A10, A14, V3, S3, F6, F3. now repeat split.
Qed.

(** A connection at the beginning of the stream. *)
Lemma live_start s k : opening s k.(st).(pcb) -> tx_ok k.(st).(pcb) -> rx (s.(seqno) + 1) data 0 k.(st).(pcb) -> k.(place) = Active -> k.(refused_data) = None -> k.(log) = [Connected] -> live (s.(seqno) + 1) data 0 k.
Proof.
  intros O T X Hp Hr Hl. pose proof (og_nxt _ _ O) as (_ & _ & Hst). assert (H0 : 0 <= total data) by (unfold total; lia). split; [|split].
  - split; [exact X|exact T|rewrite Hst; now rewrite (proj2 (Z.leb_le _ _))|exact (proj2 (og_flags _ _ O))|exact Hp].
  - split; unfold some_waits, heard, pending, fin_waits, ends; rewrite ?Hr, ?Hl; [discriminate| |discriminate|intros _ H; now contradiction H|].
    + unfold upto. rewrite Z.min_l by lia. reflexivity.
    + now rewrite (proj2 (Z.ltb_ge _ _)).
  - unfold within, pending. rewrite Hr, (proj1 (og_rcv _ _ O)). cbn [length Z.of_nat]. lia.
Qed.

(** C8: when the SYN and ACK of the peer, with the acknowledgement of our SYN,
    reach a connection in SYN_SENT, [tcp_process] returns ERR_OK and the connection
    is established.  The callback of the application is called on a connection
    [k1] in which the SYN has left the queue and gone back to the pool, and that
    expects the first byte of the peer's stream; what the callback leaves, with an
    ACK asked for, is the result, and both its sides are in the state that every
    run starts from. *)
Theorem tcp_handshake_established k o : let s := k.(st) in Application (s.(seqno) + 1) data cb -> mtu_ok -> opts_ok o -> syn_sent k ->
  on s.(hdr_flags) TCP_RST = false -> on s.(hdr_flags) TCP_SYN = true -> on s.(hdr_flags) TCP_ACK = true -> s.(ackno) = u32 (s.(pcb).(lastack) + 1) -> hdr_ok s ->
  exists k1 err k2, cb.(on_connected) k1 = Ok (err, k2) /\ live (s.(seqno) + 1) data 0 k1 /\ syn_released s k1.(st) /\ k1.(log) = [Connected] /\
    let k' := set_pcb (fun c => c <| flags := c.(flags) .| TF_ACK_NOW |>) k2 in
    tcp_process NOASSERT ack_out route seg_out rst_out cb o k = Ok (ERR_OK, k') /\ live (s.(seqno) + 1) data 0 k' /\ pool k'.(st) = pool s.
Proof.
  intros s App Hmtu Ho S Hr Hy Ha Hk Hh. pose proof S as [S1 S2 S3 S4 S5 (S6 & S6' & S6'')].
  destruct (tcp_process_prologue (s.(seqno) + 1) data NOASSERT ack_out route seg_out rst_out cb o k Ho (tx_mss _ S2) Hr ltac:(rewrite S1; apply andb_false_iff; left; apply andb_false_r)) as (c0 & E & [P1 P2 P3]). rewrite E. clear E. injection P3 as Q1 Q2 Q3 Q4 Q5 Q6 Q7 Q8 Q9 Q10 Q11.
  set (k0 := set_pcb (fun _ => c0) k). assert (F0 : pcb (st k0) = c0) by reflexivity. unfold process_state. rewrite bind_cget, F0, Q1, S1. assert (S0 : syn_sent k0) by (split; rewrite ?F0, ?Q1, ?Q2, ?Q3, ?Q5, ?Q7, ?Q11; try assumption; [exact (P2 S2)|now repeat split]).
  destruct (syn_acked_spec k0 Hmtu S0 Hy Ha) as (k6 & E6 & O6 & W6 & H6 & Q6' & P6 & R6 & SR); [rewrite F0, Q9; exact Hk|]. rewrite E6. clear E6. assert (Hp0 : pool (st k0) = pool s) by (apply pool_fields; [reflexivity|rewrite F0; assumption..]). change (opening (st k0)) with (opening (st k0)) in O6.
  assert (O : opening s (pcb (st k6))) by (destruct O6; now split). clear O6. destruct (opening_ok s _ O Hh W6 H6 Q6') as [T6 X6]. assert (R6' : (place k6, refused_data k6, log k6) = (Active, None, [])) by (refine (eq_trans R6 _); unfold k0; rewrite rest_set; unfold rest_of; congruence). injection R6' as R1 R2 R3'.
  unfold TCP_EVENT_CONNECTED, note. rewrite bind_assoc, bind_modify. set (k7 := k6 <| log := log k6 ++ [Connected] |>). assert (R7 : st k7 = st k6 /\ log k7 = log k6 ++ [Connected] /\ refused_data k7 = refused_data k6 /\ place k7 = place k6) by now repeat split. clearbody k7. destruct R7 as (R7 & L7 & D7 & Pl7). rewrite R3' in L7.
  assert (L7' : live (seqno s + 1) data 0 k7) by (apply live_start; rewrite ?R7; try assumption; [exact (X6 data)|congruence|congruence]).
  destruct (app_connected (seqno s + 1) data k7 (core_callable _ _ _ _ (proj1 L7'))) as (err & k8 & E8 & He & [Ca8 R8] & W8). rewrite (bind_ok _ _ _ _ _ E8). replace (is_abrt err) with false by (destruct err; try reflexivity; contradiction). rewrite (bind_clift tcp_ack_now _ _ tt _ eq_refl).
  pose proof (calm_trans _ _ _ _ _ Ca8 (ack_now_calm (seqno s + 1) data k8)) as Ca. exists k7, err, k8. split; [exact E8|]. split; [exact L7'|]. assert (SR7 : syn_released s (st k7)) by (rewrite R7; unfold syn_released in *; rewrite F0, Q7, Q8 in SR; destruct SR as (SR1 & SR2 & SR3 & SR4); split; [exact SR1|]; split; [exact SR2|]; split; [refine (eq_trans SR3 _); rewrite (tx_pbufs _ (P2 S2)), Q7, Q8; now rewrite <- (tx_pbufs _ S2)|exact SR4]). split; [exact SR7|]. split; [exact L7|]. split; [reflexivity|]. destruct L7' as (Co & To & Wi). split; [split; [exact (core_calm _ _ _ _ _ Co Ca)|]|].
  - split; [refine (told_same data 0 k7 _ _ To); exact R8|]. unfold within, pending in *. injection R8 as R8 _. unfold set_pcb. cbn [refused_data st pcb rcv_wnd with_field]. rewrite R8, W8. exact Wi.
  - refine (eq_trans (ca_pool _ _ _ _ Ca) _). now rewrite R7, P6.
Qed.
End Open.
