(* ===== verification/TcpFaults.v ===== *)
(** * Where the TCP code loses its way

    Two faults, for every connection on which they can occur: a segment out of
    sequence that reaches behind the window, and data written while a segment
    waits to be retransmitted. *)

From Stdlib Require Import ZArith List Lia Bool.
From S2P Require Import Prelude Mem Pbuf TcpIn TcpOut TcpWrite TcpStream TcpAck TcpQueue.
Import ListNotations.
Open Scope Z_scope.
Open Scope c_scope.

(** ** A segment that reaches behind the window *)

Section Overrun.
Context (isn : Z) (data : list Z) (Hsize : total data <= 536870912).
Context (NOASSERT : bool) (ack_out : tcp_pcb -> option err_t).
Abbreviation q := (q isn).
Abbreviation rx := (rx isn data).
Abbreviation seg_at := (seg_at isn data).

(** The incoming segment is a piece of the stream at [a], with data or a FIN. *)
Definition at_pos (a : Z) (s : tcp_st) : Prop := incoming isn data a s.

(** In the window, out of sequence, nothing queued: the segment is queued as it
    is. *)
Lemma queued_whole N a s : rx N s.(pcb) -> s.(pcb).(ooseq) = [] -> at_pos a s -> N < a < N + s.(pcb).(rcv_wnd) -> 0 < s.(seg_free) ->
  exists s1, receive_data NOASSERT ack_out s = Ok (tt, s1) /\ s1.(pcb).(ooseq) = [s.(inseg)] /\ rx N (s1.(pcb) <| ooseq := [] |>) /\ s1.(pcb).(rcv_wnd) = s.(pcb).(rcv_wnd).
Proof.
  intros X Ho [A1 A2 A3 A4] Ha Hf. pose proof (rx_pos _ _ _ _ X) as P. pose proof (rx_wnd _ _ _ _ X) as W. pose proof (sg_len _ _ _ _ A1) as L1. pose proof (seg_tcplen _ _ _ _ A1) as Ht. pose proof (sg_end _ _ _ _ A1) as L2.
  assert (Hle : TCP_TCPLEN (inseg s) <= 32767) by (destruct (fin (inseg s)); lia). unfold receive_data. rewrite bind_gets. cbv zeta. rewrite A4, A3, (rx_nxt _ _ _ _ X).
  rewrite <- (Z.add_opp_r (q a + _)), <- Z.add_assoc, !q_add, seq_between, seq_lt by (unfold near; lia). rewrite (proj2 (Z.leb_gt (a + 1) N)), (proj2 (Z.ltb_ge a N)) by lia. cbn [andb]. rewrite bind_ret, bind_gets, A4.
  rewrite <- (Z.add_opp_r (q N + _)), <- Z.add_assoc, q_add, seq_between by (unfold near; lia). rewrite (proj2 (Z.leb_le N a)), (proj2 (Z.leb_le a _)), q_inj, (proj2 (Z.eqb_neq N a)) by lia. cbn [andb].
  unfold receive_out_of_sequence. destruct (empty_ack_spec isn data ack_out N s X) as (s1 & E1 & X1 & _ & _ & Q1 & W1 & I1 & _ & _ & _ & _ & Fr1). rewrite (bind_ok _ _ _ _ _ E1), bind_gets, Q1, Ho.
  unfold tcp_seg_copy, pset. rewrite bind_assoc, bind_gets, Fr1, (proj2 (Z.eqb_neq _ 0)), bind_assoc, bind_modify, bind_ret by lia. eexists. split; [reflexivity|]. cbn [pcb ooseq rcv_wnd with_field]. rewrite I1. split; [reflexivity|]. split; [|exact W1].
  destruct X1 as [X1 X2 X3 X4 X5 X6 X7]. now split.
Qed.

Lemma update_ann_unchecked s : exists v w, tcp_update_rcv_ann_wnd true s = Ok (v, s <| pcb := s.(pcb) <| rcv_ann_wnd := w |> |>).
Proof. unfold tcp_update_rcv_ann_wnd, pget, pset. rewrite bind_gets. cbv zeta. destruct (TCP_SEQ_GEQ _ _); [now eexists _, _|]. destruct (TCP_SEQ_GT _ _); now eexists _, _. Qed.

(** What is done with a queued segment leaves the window alone from there on. *)
Lemma dequeue_rest g s : exists s', ((when tot_len g.(sp) >? 0 then
      modify (fun s => s <| recv_data := match s.(recv_data) with Some d => Some (d ++ g.(sp)) | None => Some g.(sp) end |>)) ;;
    (when on g.(hflags) TCP_FIN then
      (modify (fun s => s <| recv_flags := s.(recv_flags) .| TF_GOT_FIN |>) ;; pset (fun c => match c.(state) with ESTABLISHED => c <| state := CLOSE_WAIT |> | _ => c end))) ;;
    pset (fun c => c <| ooseq := [] |>) ;; tcp_seg_free ;; dequeue NOASSERT []) s = Ok (tt, s') /\ s'.(pcb).(rcv_wnd) = s.(pcb).(rcv_wnd).
Proof.
  destruct (tot_len (sp g) >? 0), (on (hflags g) TCP_FIN); unfold pset, tcp_seg_free; cbn [dequeue]; rewrite ?bind_assoc, ?bind_modify, ?bind_ret; eexists; (split; [reflexivity|]); cbn [pcb rcv_wnd with_field]; try reflexivity; now destruct (state (pcb s)).
Qed.

(** The queued segment is taken although the window is smaller. *)
Lemma dequeue_overruns g s : g.(hseq) = s.(pcb).(rcv_nxt) -> s.(pcb).(rcv_wnd) < TCP_TCPLEN g ->
  if NOASSERT then exists s', dequeue NOASSERT [g] s = Ok (tt, s') /\ s'.(pcb).(rcv_wnd) = u16 (s.(pcb).(rcv_wnd) - TCP_TCPLEN g)
  else dequeue NOASSERT [g] s = Halt.
Proof.
  intros Hg Hw. cbn [dequeue]. unfold pget. rewrite bind_gets, Hg, Z.eqb_refl. rewrite bind_modify, bind_pset, bind_gets. set (s1 := (s <| seqno := _ |>) <| pcb := _ |>). assert (W1 : rcv_wnd (pcb s1) = rcv_wnd (pcb s)) by reflexivity. clearbody s1.
  pose proof (dequeue_rest g) as Hrest. destruct NOASSERT.
  - unfold TcpIn.LWIP_ASSERT. rewrite bind_ret, bind_pset. set (s2 := s1 <| pcb := _ |>). assert (W2 : rcv_wnd (pcb s2) = u16 (rcv_wnd (pcb s1) - TCP_TCPLEN g)) by reflexivity. clearbody s2. destruct (update_ann_unchecked s2) as (v & w & E). rewrite (bind_ok _ _ _ _ _ E). clear E.
    set (s3 := s2 <| pcb := _ |>). assert (W3 : rcv_wnd (pcb s3) = rcv_wnd (pcb s2)) by reflexivity. clearbody s3. destruct (Hrest s3) as (s' & E & W'). exists s'. split; [exact E|congruence].
  - rewrite W1. unfold bind at 1, TcpIn.LWIP_ASSERT, Xil_Assert. destruct (Z.geb_spec (rcv_wnd (pcb s)) (TCP_TCPLEN g)); [lia|reflexivity].
Qed.

Lemma not_covered g a s : at_pos (a - s.(inseg).(slen)) s -> fin s.(inseg) = false -> seg_at g a -> 0 < g.(slen) -> s.(pcb).(ooseq) = [g] -> adjust_ooseq NOASSERT s = Ok (tt, s).
Proof.
  intros [A1 A2 A3 A4] Hf Sg Hl Ho. pose proof (sg_len _ _ _ _ A1) as L1. pose proof (sg_len _ _ _ _ Sg) as L2. pose proof (seg_tcplen _ _ _ _ A1) as Ht. rewrite Hf in Ht. unfold adjust_ooseq. rewrite bind_gets, Ho. fold (fin (inseg s)). rewrite Hf. cbn [drop_covered].
  rewrite bind_assoc, bind_gets, A4, A3, Ht, (sg_seq _ _ _ _ Sg), !q_add, seq_geq by (unfold near; lia). rewrite (proj2 (Z.leb_gt _ _)), bind_ret, bind_assoc, bind_gets, A4, A3, Ht, q_add, (sg_seq _ _ _ _ Sg), seq_gt by (unfold near; lia). rewrite (proj2 (Z.ltb_ge _ _)), bind_ret by lia.
  unfold pset, modify. do 2 f_equal. destruct s as [? ? ? ? ? ? ? ? ? ? c ? ? ? ? ?]. cbn in Ho |- *. f_equal. destruct c. cbn in Ho |- *. now rewrite Ho.
Qed.

(** The gap before the queued segment is filled. *)
Lemma gap_filled N a g s : rx N (s.(pcb) <| ooseq := [] |>) -> s.(pcb).(ooseq) = [g] -> seg_at g a -> a < N + s.(pcb).(rcv_wnd) < a + TCP_TCPLEN g ->
  at_pos N s -> fin s.(inseg) = false -> N + s.(inseg).(slen) = a -> s.(recv_data) = None -> s.(recv_flags) = 0 ->
  if NOASSERT then exists s', receive_data NOASSERT ack_out s = Ok (tt, s') /\ s'.(pcb).(rcv_wnd) = N + s.(pcb).(rcv_wnd) + 65536 - (a + TCP_TCPLEN g)
  else receive_data NOASSERT ack_out s = Halt.
Proof.
  intros X Ho Sg Ha A Hf Hn Hd Hfl. pose proof A as [A1 A2 A3 A4]. pose proof (rx_pos _ _ _ _ X) as P. pose proof (rx_wnd _ _ _ _ X) as W. pose proof (rx_nxt _ _ _ _ X) as R. cbn [rcv_wnd rcv_nxt with_field] in W, R.
  pose proof (sg_len _ _ _ _ A1) as L1. pose proof (sg_len _ _ _ _ Sg) as L2. pose proof (seg_tcplen _ _ _ _ A1) as Ht. pose proof (seg_tcplen _ _ _ _ Sg) as Hg. rewrite Hf in Ht. pose proof (sg_end _ _ _ _ A1) as L3.
  assert (E : receive_data NOASSERT ack_out s = receive_in_sequence NOASSERT s).
  { unfold receive_data. rewrite bind_gets. cbv zeta. rewrite A4, A3, R. rewrite <- (Z.add_opp_r (q N + _)), <- Z.add_assoc, !q_add, seq_between, seq_lt by (unfold near; lia). rewrite (proj2 (Z.leb_gt (N + 1) N)), (proj2 (Z.ltb_ge N N)) by lia. cbn [andb].
    rewrite bind_ret, bind_gets, A4, <- (Z.add_opp_r (q N + _)), <- Z.add_assoc, q_add, seq_between by (unfold near; lia). rewrite Z.leb_refl, (proj2 (Z.leb_le N _)), Z.eqb_refl by lia. reflexivity. }
  rewrite E. clear E. unfold receive_in_sequence, set_tcplen. rewrite bind_modify, (tcplen_u16 _ _ _ _ A1), <- A3. replace (s <| tcplen := tcplen s |>) with s by now destruct s.
  unfold trim_to_window. rewrite bind_assoc, bind_gets. cbv zeta. replace (tcplen s >? rcv_wnd (pcb s)) with false by (symmetry; rewrite Z.gtb_ltb; apply Z.ltb_ge; lia). rewrite bind_ret.
  assert (A' : at_pos (a - slen (inseg s)) s) by (now replace (a - slen (inseg s)) with N by lia). rewrite (bind_ok _ _ _ _ _ (not_covered g a s A' Hf Sg ltac:(destruct (fin g); lia) Ho)), bind_gets.
  assert (Xa : rx_at isn data N (N + rcv_wnd (pcb s)) (pcb s)) by (destruct X; split; try assumption; split; [assumption|reflexivity]).
  destruct (first_segment isn data Hsize NOASSERT N _ s Xa A ltac:(lia) Hd Hfl) as (s3 & E3 & X3 & _ & _ & Q3 & _). rewrite E3. clear E3. unfold pget. rewrite bind_gets, Q3, Ho. destruct X3 as [X31 X32 [X33 X34] X35 X36 X37]. pose proof (dequeue_overruns g s3) as D.
  assert (Hga : hseq g = rcv_nxt (pcb s3)) by (rewrite X32, (sg_seq _ _ _ _ Sg); f_equal; lia). specialize (D Hga ltac:(lia)). destruct NOASSERT.
  - destruct D as (s4 & E4 & W4). rewrite (bind_ok _ _ _ _ _ E4). eexists. split; [reflexivity|]. cbn [pcb with_field]. assert (Hk : forall c, rcv_wnd (if on (flags c) TF_ACK_DELAY then c <| flags := off_bits (flags c) TF_ACK_DELAY .| TF_ACK_NOW |> else c <| flags := flags c .| TF_ACK_DELAY |>) = rcv_wnd c) by (intros c; now destruct (on _ _)).
    rewrite Hk, W4. unfold u16. symmetry. apply (Z.mod_unique _ _ (-1)); destruct (fin g); lia.
  - unfold bind. now rewrite D.
Qed.

(** C34: an out-of-sequence segment of the stream that starts inside the window
    and reaches behind it is put on an empty queue as it is; the segment that then fills the gap before it makes the
    assertion on the window fail, and in a build without assertions the window
    becomes negative and wraps around: the receiver then takes nearly 64 KB more. *)
Theorem tcp_window_overrun N a s : rx N s.(pcb) -> s.(pcb).(ooseq) = [] -> at_pos a s -> 0 < s.(seg_free) -> N < a < N + s.(pcb).(rcv_wnd) -> N + s.(pcb).(rcv_wnd) < a + TCP_TCPLEN s.(inseg) ->
  exists s1, receive_data NOASSERT ack_out s = Ok (tt, s1) /\ s1.(pcb).(ooseq) = [s.(inseg)] /\
    forall s2, s2.(pcb) = s1.(pcb) -> at_pos N s2 -> fin s2.(inseg) = false -> N + s2.(inseg).(slen) = a -> s2.(recv_data) = None -> s2.(recv_flags) = 0 ->
    if NOASSERT then exists s3, receive_data NOASSERT ack_out s2 = Ok (tt, s3) /\ s3.(pcb).(rcv_wnd) = N + s.(pcb).(rcv_wnd) + 65536 - (a + TCP_TCPLEN s.(inseg))
    else receive_data NOASSERT ack_out s2 = Halt.
Proof.
  intros X Ho A Hf Ha He. destruct (queued_whole N a s X Ho A Ha Hf) as (s1 & E & Q & X1 & W). exists s1. split; [exact E|]. split; [exact Q|]. intros s2 Hp A2 Hf2 Hn Hd Hfl. rewrite <- W.
  rewrite <- Hp in *. apply gap_filled; try assumption; [exact (in_seg _ _ _ _ A)|lia].
Qed.
End Overrun.

(** ** Writing while a segment waits to be retransmitted *)

Section Rewrite.
Context (isn : Z) (NOASSERT : bool) (room : nat -> bool).
Abbreviation q := (q isn).

(** The first segment without acknowledgement goes back to the unsent ones. *)
Lemma rexmit_alone g rest s : s.(pcb).(unacked) = g :: rest -> s.(pcb).(unsent) = [] ->
  exists s', tcp_rexmit s = Ok (tt, s') /\ s'.(pcb).(unsent) = [g] /\ s'.(pcb).(unacked) = rest /\ s'.(pcb).(unsent_oversize) = 0 /\
    (s'.(pcb).(state), s'.(pcb).(snd_buf), s'.(pcb).(snd_queuelen), s'.(pcb).(snd_lbb), mss_local s'.(pcb)) = (s.(pcb).(state), s.(pcb).(snd_buf), s.(pcb).(snd_queuelen), s.(pcb).(snd_lbb), mss_local s.(pcb)).
Proof.
  intros Ha Hu. destruct s as [? ? ? ? ? ? ? ? ? ? c ? ? ? ? ?]. destruct c. cbn in Ha, Hu. subst. eexists. split; [reflexivity|]. now repeat split.
Qed.

(** The last unsent segment has room for what is written, its pbuf has not. *)
Lemma tail_takes arg g c s : c.(unsent) = [g] -> c.(unsent_oversize) = 0 -> on g.(hflags) TCP_SYN = false -> 0 < g.(slen) -> 0 < len_of arg -> g.(slen) + len_of arg <= mss_local c < 65536 -> room 0%nat = true ->
  exists w, write_tail NOASSERT room arg TCP_WRITE_FLAG_COPY (mss_local c) c s = Ok ((true, w), s) /\ w.(w_pos) = len_of arg /\ w.(w_used) = 0 /\ w.(w_concat) = Some arg /\ w.(w_queue) = [] /\ w.(w_touched) = true /\ w.(w_queuelen) = u16 (c.(snd_queuelen) + 1).
Proof.
  intros Hu Ho Hy Hg Hl Hm Hr. unfold write_tail. rewrite Hu, Ho. cbn [last_seg]. unfold LWIP_TCP_OPT_LENGTH. rewrite Hy. cbv zeta. rewrite bind_wassert by (apply Z.geb_le; lia). change (0 >? 0) with false. cbn iota. change (u16 (0 - 0)) with 0. rewrite bind_wassert by reflexivity.
  rewrite Z.add_0_r, Z.sub_0_r, !(u16_id (mss_local c - slen g)) by word_lia. rewrite (proj2 (Z.ltb_lt 0 _)), !(proj2 (Z.gtb_lt _ _)) by lia. cbn [andb]. rewrite Z.sub_0_r, (proj2 (Z.ltb_ge _ _)) by lia. change (on TCP_WRITE_FLAG_COPY TCP_WRITE_FLAG_COPY) with true. cbn iota.
  rewrite Hr. unfold tcp_pbuf_prealloc. eexists. split; [reflexivity|]. cbn [w_pos w_used w_concat w_queue w_touched w_queuelen]. repeat split; try lia. f_equal. unfold bytes. cbn [Z.to_nat skipn]. apply firstn_all2. unfold len_of. lia.
Qed.

Lemma write_on_tail arg g s : writable s.(pcb).(state) = true -> s.(pcb).(unsent) = [g] -> s.(pcb).(unsent_oversize) = 0 -> on g.(hflags) TCP_SYN = false -> 0 < g.(slen) -> 0 < len_of arg -> g.(slen) + len_of arg <= mss_local s.(pcb) < 65536 ->
  room 0%nat = true -> len_of arg <= s.(pcb).(snd_buf) -> 0 < s.(pcb).(snd_queuelen) < 8 ->
  exists s', tcp_write NOASSERT room (Some arg) TCP_WRITE_FLAG_COPY s = Ok (ERR_OK, s') /\
    s'.(pcb).(unsent) = [push (g <| sp := g.(sp) ++ [arg] |> <| slen := g.(slen) + len_of arg |>)] /\ s'.(pcb).(unacked) = s.(pcb).(unacked) /\ s'.(pcb).(snd_lbb) = u32 (s.(pcb).(snd_lbb) + len_of arg).
Proof.
  intros Hw Hu Ho Hy Hg Hl Hm Hr Hb Hq. unfold tcp_write.
  assert (E : tcp_write_checks NOASSERT (len_of arg) s = Ok (ERR_OK, s)).
  { unfold tcp_write_checks, pget. rewrite bind_gets. unfold TCP_SND_QUEUELEN, TCP_SND_BUF, TCP_SNDQUEUELEN_OVERFLOW, TCP_MSS.
    rewrite (proj2 (Z.eqb_neq _ 0)), Z.gtb_ltb, (proj2 (Z.ltb_ge _ _)), (proj2 (Z.eqb_neq (snd_queuelen _) 0)), Hu by lia. cbn [negb is_empty]. rewrite orb_true_r.
    destruct (Z.geb_spec (snd_queuelen (pcb s)) ((4 * (2 * 536) + (536 - 1)) / 536)) as [H|_]; [change ((4 * (2 * 536) + (536 - 1)) / 536) with 8 in H; lia|]. destruct (Z.gtb_spec (snd_queuelen (pcb s)) (65535 - 3)) as [H|_]; [lia|]. cbn [orb].
    destruct (state (pcb s)); try discriminate Hw; now rewrite bind_wassert. }
  rewrite (bind_ok _ _ _ _ _ E). cbn [err_is_ok]. unfold write_body, pget. rewrite bind_gets. destruct (tail_takes arg g (pcb s) s Hu Ho Hy Hg Hl Hm Hr) as (w & Ew & W1 & W2 & W3 & W4 & W5 & W6). rewrite (bind_ok _ _ _ _ _ Ew). cbn [fst snd write_segs]. cbv zeta.
  rewrite W1, (proj2 (Z.ltb_ge _ _)), bind_ret by lia. cbn [fst snd]. unfold write_commit, queues_used, pget. rewrite bind_pset, bind_assoc, bind_gets. set (s1 := s <| pcb := _ |>).
  assert (F : unsent (pcb s1) = [push (g <| sp := g.(sp) ++ [arg] |> <| slen := g.(slen) + len_of arg |>)]).
  { unfold s1. cbn [pcb unsent with_field]. rewrite Hu. unfold new_unsent. rewrite W4. cbn [on_last]. unfold extend. rewrite W2, W3, W5. change (on TCP_WRITE_FLAG_COPY TCP_WRITE_FLAG_MORE) with false. cbn. do 3 f_equal. apply u16_id. word_lia. }
  assert (F' : unacked (pcb s1) = unacked (pcb s) /\ snd_lbb (pcb s1) = u32 (snd_lbb (pcb s) + len_of arg)) by now split. clearbody s1. exists s1. split; [|now split].
  rewrite F. cbn [is_empty negb]. rewrite orb_true_r. destruct (negb _); [now rewrite bind_wassert|reflexivity].
Qed.

(** C35: a retransmission puts the first segment that is not acknowledged, [g],
    back into the queue of unsent ones, where it is alone.  As long as it is there
    (it could not be sent at once), [tcp_write] takes it for the last segment of
    the stream and puts the new bytes behind its own, although the stream goes on
    behind [g]: the new bytes get the sequence numbers of the bytes that follow [g]
    in the stream, the call reports success, and no segment that is queued reaches
    the end of the stream as [snd_lbb] has it. *)
Theorem tcp_write_after_rexmit_corrupts d arg g rest a s : tx_ok s.(pcb) -> 0 <= s.(pcb).(snd_wnd_max) -> open_end isn d s.(pcb) -> Forall (piece_of isn d) s.(pcb).(unacked) -> total (d ++ arg) <= 536870912 ->
  s.(pcb).(unacked) = g :: rest -> s.(pcb).(unsent) = [] -> seg_at isn d g a -> 0 < g.(slen) -> a + g.(slen) < total d ->
  writable s.(pcb).(state) = true -> 0 < len_of arg <= s.(pcb).(snd_buf) -> g.(slen) + len_of arg <= mss_local s.(pcb) -> s.(pcb).(snd_queuelen) < 8 -> room 0%nat = true ->
  exists s1 s' g', tcp_rexmit s = Ok (tt, s1) /\ tcp_write NOASSERT room (Some arg) TCP_WRITE_FLAG_COPY s1 = Ok (ERR_OK, s') /\
    s'.(pcb).(unsent) = [g'] /\ s'.(pcb).(unacked) = rest /\ g'.(hseq) = q a /\ concat g'.(sp) = slice d a g.(slen) ++ arg /\ g'.(slen) = g.(slen) + len_of arg /\
    s'.(pcb).(snd_lbb) = q (total (d ++ arg)) /\ forall x, In x (queues s'.(pcb)) -> u32 (x.(hseq) + x.(slen)) <> s'.(pcb).(snd_lbb).
Proof.
  intros T Hmax O Fp Hsz Ha Hu Sg Hg Hend Hw Hl Hm Hq Hr. destruct (rexmit_alone g rest s Ha Hu) as (s1 & E1 & U1 & A1 & O1 & F1). injection F1 as F1 F2 F3 F4 F5. pose proof (mss_local_ok _ T Hmax) as Hml. unfold TCP_MSS in Hml.
  assert (Hq0 : 0 < snd_queuelen (pcb s)) by (rewrite (tx_pbufs _ T), Hu, Ha; pose proof (tx_unacked _ T) as Fo; rewrite Ha in Fo; pose proof (proj2 (pbufs_pos _ Fo) ltac:(discriminate)); change (pbufs []) with 0; lia).
  destruct (write_on_tail arg g s1) as (s' & E' & U' & A' & L'); rewrite ?F1, ?F2, ?F3, ?F5; try assumption; try lia; [exact (sg_syn _ _ _ _ Sg)|]. set (g' := push _) in U'. assert (L : snd_lbb (pcb s') = q (total (d ++ arg))) by (rewrite L', F4, (oe_lbb _ _ _ O), q_add, stream_total_app; reflexivity).
  exists s1, s', g'. split; [exact E1|]. split; [exact E'|]. split; [exact U'|]. split; [congruence|]. split; [exact (sg_seq _ _ _ _ Sg)|]. split; [|split; [reflexivity|split; [exact L|]]].
  - change (sp g') with (sp g ++ [arg]). rewrite concat_app. cbn [concat]. now rewrite app_nil_r, (sg_data _ _ _ _ Sg).
  - intros x Hx E. rewrite L in E. rewrite stream_total_app in E, Hsz. pose proof (sg_pos _ _ _ _ Sg) as P. unfold queues in Hx. rewrite U', A', A1 in Hx. apply in_app_or in Hx. destruct Hx as [Hx|[<-|[]]].
    + rewrite Ha in Fp. destruct (proj1 (Forall_forall _ _) Fp x (or_intror Hx)) as [b Sx]. pose proof (sg_end _ _ _ _ Sx). pose proof (sg_pos _ _ _ _ Sx). pose proof (sg_len _ _ _ _ Sx). rewrite (sg_seq _ _ _ _ Sx), q_add in E. apply Z.eqb_eq in E. rewrite q_inj in E by lia. apply Z.eqb_eq in E. lia.
    + change (hseq g') with (hseq g) in E. change (slen g') with (slen g + len_of arg) in E. rewrite (sg_seq _ _ _ _ Sg), q_add in E. apply Z.eqb_eq in E. rewrite q_inj in E by lia. apply Z.eqb_eq in E. lia.
Qed.
End Rewrite.
