(* ===== verification/TcpDemo.v ===== *)
(** * A TCP connection on concrete segments

    A connection whose stream wraps around the sequence numbers, an application
    that reads, and segments that arrive out of order and overlap.  The theorems on
    runs at this connection, and what goes wrong when the peer does not keep to
    the window or there is no memory for an ACK. *)

From Stdlib Require Import ZArith List Lia Bool.
From S2P Require Import Prelude Pbuf TcpIn TcpOut TcpConn TcpStream TcpAck TcpSend TcpFrame TcpReceive TcpProcess TcpApp TcpInput TcpRuns TcpOpen TcpFaults.
Import ListNotations.
Open Scope Z_scope.
Open Scope c_scope.

Definition isn0 : Z := 4294967290.
Definition data0 : list Z := [11; 12; 13; 14; 15; 16; 17; 18; 19; 20].
Definition acked_fine (c : tcp_pcb) : option err_t := Some ERR_OK.
Definition sent_fine (c : tcp_pcb) (g : tcp_seg) : option err_t := Some ERR_OK.
Definition mtu0 : option Z := Some 1500.
Definition reader0 : callbacks := reader false acked_fine mtu0 sent_fine.

Definition pcb0 : tcp_pcb := {|
  state := ESTABLISHED; flags := 0; polltmr := 0; rcv_nxt := isn0; rcv_wnd := TCP_WND; rcv_ann_wnd := TCP_WND; rcv_ann_right_edge := u32 (isn0 + TCP_WND);
  rtime := -1; mss := 536; rttest := 0; rtseq := 0; sa := 0; sv := 6; rto := 6; nrtx := 0; dupacks := 0; lastack := 500; cwnd := 2144; ssthresh := 2144;
  snd_nxt := 500; snd_wl1 := u32 (isn0 - 1); snd_wl2 := 500; snd_wnd := 2144; snd_wnd_max := 2144; snd_buf := 1072; snd_queuelen := 0; unsent_oversize := 0;
  unsent := []; unacked := []; ooseq := []; persist_cnt := 0; persist_backoff := 0; tmr := 0; keep_cnt_sent := 0; snd_lbb := 500; pollinterval := 0; so_options := 0; keep_idle := 7200000 |}.
Definition st0 : tcp_st := {|
  inseg := mkSeg [] 0 0 0; inseg_p := false; seqno := 0; ackno := 0; tcplen := 0; hdr_flags := 0; hdr_wnd := 0; recv_acked := 0; recv_flags := 0; recv_data := None;
  pcb := pcb0; tcp_ticks := 7; seg_free := 16; acks := []; xmit := []; input_pcb := false |}.
Definition conn0 : conn := {| st := st0; refused_data := None; place := Active; rsts := []; log := [] |}.

Definition no_opts : options := {| opt1 := fun _ => 0; opt1len := 0; opt2 := None; optlen := 0 |}.
(** The bytes of the stream from position [a] on, in pbufs of three bytes. *)
Fixpoint in_threes (n : nat) (l : list Z) : chain := match n, l with S n, _ :: _ => firstn 3 l :: in_threes n (skipn 3 l) | _, _ => [] end.
Definition piece (a n : Z) (fl : Z) : segment := {|
  s_p := in_threes 10 (slice data0 a n); s_seq := u32 (isn0 + a); s_ack := 500; s_wnd := 2144; s_flags := fl; s_opts := no_opts |}.

Definition after (m : CM unit) (k : conn) : conn := match m k with Ok (_, k') => k' | _ => k end.
Definition arrives (g : segment) (k : conn) : conn := after (tcp_input false acked_fine mtu0 sent_fine true reader0 g) k.

(** The second part with the FIN comes first, then the first part, with an
    overlap of two bytes. *)
Definition late : segment := piece 4 6 0x11.
Definition early : segment := piece 0 6 0x10.
Definition conn1 : conn := arrives late conn0.
Definition conn2 : conn := arrives early conn1.

Example demo_told : (heard conn1, ends conn1, heard conn2, ends conn2, conn2.(st).(pcb).(state), conn2.(st).(pcb).(rcv_nxt)) = ([], 0%nat, data0, 1%nat, CLOSE_WAIT, 5).
Proof. vm_compute. reflexivity. Qed.

(** ** The hypotheses hold *)

Lemma small0 : total data0 <= 536870912.
Proof. vm_compute. discriminate. Qed.
#[export] Instance reader0_application : Application isn0 data0 reader0 := reader_application false acked_fine mtu0 sent_fine isn0 data0 small0.

Lemma tx_ok0 : tx_ok pcb0.
Proof. split; [reflexivity|reflexivity|constructor|constructor|unfold pcb0, cwnd; lia|cbn; unfold TCP_MSS; lia|cbn; lia|cbn; lia|discriminate]. Qed.

Lemma rx0 : rx isn0 data0 0 pcb0.
Proof. split; [change (total data0) with 10; lia|reflexivity|cbn; unfold TCP_WND, TCP_MSS; lia|exact I| |cbn; unfold TCP_WND, TCP_MSS; lia|cbn; lia]. exists TCP_WND. split; [reflexivity|cbn; unfold TCP_WND, TCP_MSS; lia]. Qed.

Lemma live0 : live isn0 data0 0 conn0.
Proof.
  split; [|split].
  - split; [exact rx0|exact tx_ok0|reflexivity|reflexivity|reflexivity].
  - split; [discriminate|reflexivity|discriminate|change (total data0) with 10; lia|reflexivity].
  - unfold within. cbn. lia.
Qed.

(** The position of the receiver in the stream. *)
Lemma at_position k N M : rx isn0 data0 N k.(st).(pcb) -> k.(st).(pcb).(rcv_nxt) = q isn0 M -> 0 <= M <= 11 -> N = M.
Proof. intros X E HM. pose proof (rx_pos _ _ _ _ X) as HN. rewrite (rx_nxt _ _ _ _ X) in E. change (total data0) with 10 in HN. pose proof (q_inj isn0 N M ltac:(lia)) as Q. rewrite E, Z.eqb_refl in Q. now apply Z.eqb_eq. Qed.

Lemma no_opts_ok : opts_ok no_opts.
Proof. split; [vm_compute; now repeat split|]. intros i. vm_compute. now repeat split. Qed.

Lemma piece_ok a n fl k : on fl TCP_RST = false -> on fl TCP_SYN = false -> tot_len (in_threes 10 (slice data0 a n)) = n -> 0 <= a /\ 0 <= n -> (a + n <=? 10) = true -> concat (in_threes 10 (slice data0 a n)) = slice data0 a n -> (on fl TCP_FIN = true -> a + n = 10) -> in_threes 10 (slice data0 a n) <> [] ->
  (forall N, rx isn0 data0 N k.(st).(pcb) -> N < a -> a + TCP_TCPLEN (seg_of (piece a n fl)) <= N + k.(st).(pcb).(rcv_wnd)) -> of_stream isn0 data0 a k (piece a n fl).
Proof.
  intros H1 H2 H3 H4 H5 H6 H7 H8 H9. apply Z.leb_le in H5. split; [exact no_opts_ok|cbn; lia|exact H1|exact H2|cbn [s_p piece]; lia| |intros _; exact H9].
  intros _. split; [|exact H8]. split; unfold seg_of, piece, fin; cbn [s_p s_seq s_flags slen hseq hflags sp]; rewrite ?H3; try assumption; try reflexivity; try lia; intros Hf; now rewrite (H7 Hf).
Qed.

Lemma late_ok : of_stream isn0 data0 4 conn0 late.
Proof.
  apply piece_ok; [reflexivity|reflexivity|reflexivity|lia|reflexivity|reflexivity|first [discriminate|intros _; reflexivity]|discriminate|].
  intros N X _. rewrite (at_position conn0 N 0 X) by (reflexivity || lia). vm_compute. discriminate.
Qed.
Lemma early_ok : of_stream isn0 data0 0 conn1 early.
Proof.
  apply piece_ok; [reflexivity|reflexivity|reflexivity|lia|reflexivity|reflexivity|first [discriminate|intros _; reflexivity]|discriminate|].
  intros N X HN. rewrite (at_position conn1 N 0 X) in HN by first [lia|vm_compute; reflexivity]. lia.
Qed.

Abbreviation run0 := (run isn0 data0 false acked_fine mtu0 sent_fine true reader0).

Lemma tcp_stream_delivered_witness : heard conn2 = data0 /\ ends conn2 = 1%nat /\
  (heard conn2 ++ pending conn2 = firstn (length (heard conn2 ++ pending conn2)) data0 /\ (ends conn2 = 0%nat \/ (ends conn2 = 1%nat /\ heard conn2 = data0)) /\ pool conn2.(st) = pool conn0.(st) /\
   (forall a g, of_stream isn0 data0 a conn2 g -> exists k', tcp_input false acked_fine mtu0 sent_fine true reader0 g conn2 = Ok (tt, k')) /\
   (exists k', tcp_fasttmr false acked_fine mtu0 sent_fine reader0 conn2 = Ok (tt, k'))).
Proof.
  split; [vm_compute; reflexivity|]. split; [vm_compute; reflexivity|]. apply (tcp_stream_delivered isn0 data0 small0 false acked_fine mtu0 sent_fine true reader0 reader0_application 0 conn0 conn2 live0).
  apply (run_step _ _ _ _ _ _ _ _ _ conn1); [apply (run_step _ _ _ _ _ _ _ _ _ conn0); [apply run_nil|]|].
  - apply (step_segment _ _ _ _ _ _ _ _ _ _ 4 late late_ok). vm_compute. reflexivity.
  - apply (step_segment _ _ _ _ _ _ _ _ _ _ 0 early early_ok). vm_compute. reflexivity.
Defined.

Lemma early_ok0 : of_stream isn0 data0 0 conn0 early.
Proof.
  apply piece_ok; [reflexivity|reflexivity|reflexivity|lia|reflexivity|reflexivity|first [discriminate|intros _; reflexivity]|discriminate|].
  intros N X HN. rewrite (at_position conn0 N 0 X) in HN by (reflexivity || lia). lia.
Qed.
Lemma tcp_segment_advances_witness : exists k', tcp_input false acked_fine mtu0 sent_fine true reader0 early conn0 = Ok (tt, k') /\
  upto data0 (0 + Z.min (0 + TCP_TCPLEN (seg_of early) - 0) conn0.(st).(pcb).(rcv_wnd)) <= Z.of_nat (length (heard k' ++ pending k')).
Proof.
  apply (tcp_segment_advances isn0 data0 small0 false acked_fine mtu0 sent_fine true reader0 reader0_application 0 0 conn0 early live0 early_ok0); try reflexivity; vm_compute; discriminate.
Defined.

(** ** Acknowledgements and output *)

(** Ten bytes twice are on the way, five more wait. *)
Definition seg_out_at (q n : Z) : tcp_seg := mkSeg [repeat 0 (Z.to_nat n)] n q TCP_ACK.
Definition pcb_busy : tcp_pcb := pcb0 <| snd_nxt := 520 |> <| unacked := [seg_out_at 500 10; seg_out_at 510 10] |> <| unsent := [seg_out_at 520 5] |> <| snd_queuelen := 3 |>.
Definition st_busy : tcp_st := st0 <| pcb := pcb_busy |> <| ackno := 510 |> <| hdr_wnd := 2144 |> <| hdr_flags := TCP_ACK |>.
Lemma seg_out_ok q n : n = 5 \/ n = 10 -> seg_ok (seg_out_at q n).
Proof. intros [-> | ->]; (split; [discriminate|]; split; [cbn; lia|]; split; reflexivity). Qed.
Lemma tx_busy : tx_ok st_busy.(pcb).
Proof.
  split; [reflexivity|reflexivity| | |cbn; lia|cbn; unfold TCP_MSS; lia|cbn; lia|cbn; lia|discriminate].
  - cbn. apply Forall_cons; [apply seg_out_ok; now right|]. apply Forall_cons; [apply seg_out_ok; now right|constructor].
  - cbn. apply Forall_cons; [apply seg_out_ok; now left|constructor].
Qed.

Lemma tcp_ack_accounts_witness : exists s', receive_ack false acked_fine st_busy = Ok (tt, s') /\ tx_ok s'.(pcb) /\
  s'.(recv_acked) = u16 (in_flight st_busy.(pcb) - in_flight s'.(pcb)) /\
  s'.(pcb).(snd_buf) = u16 (st_busy.(pcb).(snd_buf) + (in_flight st_busy.(pcb) - in_flight s'.(pcb))) /\
  s'.(seg_free) - st_busy.(seg_free) = queued st_busy.(pcb) - queued s'.(pcb) /\
  (is_new st_busy = true -> s'.(pcb).(unacked) = drop_while (covered st_busy.(ackno)) st_busy.(pcb).(unacked)).
Proof. apply (tcp_ack_accounts false acked_fine st_busy tx_busy); [unfold hdr_ok; cbn; lia|reflexivity]. Defined.

Lemma tcp_output_fits_witness : exists err s' sent, tcp_output false acked_fine mtu0 sent_fine st_busy = Ok (err, s') /\ tx_ok s'.(pcb) /\
  s'.(xmit) = st_busy.(xmit) ++ sent /\ Forall (fits (Z.min 2144 2144) st_busy.(pcb)) sent /\
  queued s'.(pcb) = queued st_busy.(pcb) /\ in_flight s'.(pcb) = in_flight st_busy.(pcb) /\ s'.(seg_free) = st_busy.(seg_free) /\
  (err = ERR_OK -> stopped (Z.min 2144 2144) s'.(pcb)).
Proof. apply (tcp_output_fits false acked_fine mtu0 sent_fine st_busy tx_busy); [discriminate|reflexivity]. Defined.

(** ** Options and resets *)

Definition mss_bytes (behind : Z) : options := {| opt1 := fun i => if i =? 0 then 1 else if i =? 1 then 2 else if i =? 2 then 4 else if i =? 3 then 1 else if i =? 4 then 144 else behind; opt1len := 5; opt2 := None; optlen := 5 |}.
Lemma mss_bytes_ok x : 0 <= x < 256 -> opts_ok (mss_bytes x).
Proof. intros Hx. split; [cbn; lia|]. intros i. unfold byte_at, tcp_getoptbyte, mss_bytes. cbn [opt2 opt1]. repeat (destruct (_ =? _); [lia|]). exact Hx. Qed.
Lemma same_mss : same_opts (mss_bytes 0) (mss_bytes 255).
Proof. split; [reflexivity|]. intros i Hi. unfold tcp_getoptbyte, mss_bytes in *. cbn [opt2 opt1 optlen] in *. assert (C : i = 0 \/ i = 1 \/ i = 2 \/ i = 3 \/ i = 4) by lia. now destruct C as [-> |[-> |[-> |[-> | ->]]]]. Qed.

Lemma tcp_parseopt_within_witness : exists m, tcp_parseopt (mss_bytes 0) conn0 = Ok (tt, set_pcb (fun c => c <| mss := m |>) conn0) /\ tcp_parseopt (mss_bytes 255) conn0 = Ok (tt, set_pcb (fun c => c <| mss := m |>) conn0) /\ mss_ok m.
Proof. apply tcp_parseopt_within; [apply mss_bytes_ok; lia|apply mss_bytes_ok; lia|exact same_mss|unfold mss_ok; cbn; unfold TCP_MSS; lia]. Defined.
Example mss_bytes_read : parse_opts (opts_fuel (mss_bytes 0)) (mss_bytes 0) 0 536 = Some 400.
Proof. reflexivity. Qed.

Definition reset_at (q : Z) : segment := {| s_p := []; s_seq := q; s_ack := 500; s_wnd := 0; s_flags := TCP_RST; s_opts := no_opts |}.
Lemma tcp_reset_validated_witness : exists k', tcp_input false acked_fine mtu0 sent_fine true reader0 (reset_at isn0) conn0 = Ok (tt, k') /\
  if (reset_at isn0).(s_seq) =? q isn0 0 then k'.(place) = Freed /\ k'.(st).(pcb).(state) = CLOSED /\ k'.(log) = conn0.(log) ++ [Error ERR_RST] /\ k'.(st).(seg_free) = pool conn0.(st)
  else live isn0 data0 0 k' /\ pool k'.(st) = pool conn0.(st) /\ k'.(log) = conn0.(log).
Proof. apply (tcp_reset_validated isn0 data0 false acked_fine mtu0 sent_fine true reader0 reader0_application 0 conn0 (reset_at isn0) live0); reflexivity. Defined.

(** ** Closing and opening *)

(** Our FIN is on the way when the rest of the stream, the peer's FIN and the
    acknowledgement of ours arrive in one segment. *)
Definition our_fin : tcp_seg := mkSeg [[]] 0 500 (TCP_FIN .| TCP_ACK).
Definition conn_fin : conn := conn0 <| st := st0 <| pcb := pcb0 <| state := FIN_WAIT_1 |> <| snd_nxt := 501 |> <| unacked := [our_fin] |> <| snd_queuelen := 1 |> |> |>.
Definition final_seg : segment := {| s_p := in_threes 10 data0; s_seq := u32 isn0; s_ack := 501; s_wnd := 2144; s_flags := 0x11; s_opts := no_opts |}.
Definition conn_fin_seg : conn := after (lift (setup_inseg final_seg)) conn_fin.

Lemma tx_fin : tx_ok conn_fin.(st).(pcb).
Proof. split; [reflexivity|reflexivity| |constructor|cbn; lia|cbn; unfold TCP_MSS; lia|cbn; lia|cbn; lia|discriminate]. cbn. apply Forall_cons; [|constructor]. split; [discriminate|]. split; [cbn; lia|]. split; reflexivity. Qed.
Lemma rx_fin : rx isn0 data0 0 conn_fin.(st).(pcb).
Proof. apply (rx_kept isn0 data0 pcb0); [reflexivity|exact rx0]. Qed.
Lemma last_ok : of_stream isn0 data0 0 conn_fin final_seg.
Proof.
  destruct (piece_ok 0 10 0x11 conn_fin) as [O1 O2 O3 O4 O5 O6 O7]; [reflexivity|reflexivity|reflexivity|lia|reflexivity|reflexivity|intros _; reflexivity|discriminate| |now split].
  intros N X HN. rewrite (at_position conn_fin N 0 X) in HN by (reflexivity || lia). lia.
Qed.
Lemma fin_at_hand : at_hand final_seg conn_fin_seg.(st).
Proof. split; [now repeat split|reflexivity|now repeat split]. Qed.

Lemma tcp_process_next_state_witness : let k := conn_fin_seg in let s := k.(st) in
  exists m s1 N' k', tcp_receive false acked_fine (s <| pcb := timed_pcb s.(tcp_ticks) m s.(pcb) |>) = Ok (tt, s1) /\ rx isn0 data0 N' s1.(pcb) /\ 0 <= N' /\
    tcp_process false acked_fine mtu0 sent_fine true reader0 no_opts k = Ok (ERR_OK, k') /\
    (let fin := (0 <=? total data0) && (total data0 <? N') in let acked := on s.(hdr_flags) TCP_ACK && (s.(ackno) =? s.(pcb).(snd_nxt)) && is_empty s1.(pcb).(unsent) in
     k'.(st).(pcb).(state) = next_state s.(pcb).(state) fin acked /\ on k'.(st).(recv_flags) TF_CLOSED = closes s.(pcb).(state) acked) /\
    (k'.(st).(pcb).(state) <> TIME_WAIT -> rx isn0 data0 N' k'.(st).(pcb) /\ tx_ok k'.(st).(pcb) /\ k'.(st).(pcb).(unsent) = s1.(pcb).(unsent) /\ k'.(st).(pcb).(unacked) = s1.(pcb).(unacked) /\ k'.(place) = k.(place)) /\
    (k'.(st).(pcb).(state) = TIME_WAIT -> k'.(place) = TimeWait /\ k'.(st).(seg_free) = pool s) /\
    pool k'.(st) = pool s.
Proof.
  destruct (at_hand_acceptable isn0 data0 0 0 final_seg conn_fin conn_fin_seg last_ok rx_fin ltac:(vm_compute; discriminate) fin_at_hand) as [F A].
  apply (tcp_process_next_state isn0 data0 small0 false acked_fine mtu0 sent_fine true reader0 0 0 conn_fin_seg no_opts no_opts_ok); try reflexivity; try assumption; [exact rx_fin|exact tx_fin|discriminate|intros _; vm_compute; discriminate].
Defined.
Example closed_at_once : (after (tcp_input false acked_fine mtu0 sent_fine true reader0 final_seg) conn_fin).(st).(pcb).(state) = TIME_WAIT.
Proof. vm_compute. reflexivity. Qed.

(** The SYN has been sent, the answer is at hand. *)
Definition our_syn : tcp_seg := mkSeg [[]] 0 500 TCP_SYN.
Definition syn_ack : segment := {| s_p := []; s_seq := u32 (isn0 - 1); s_ack := 501; s_wnd := 2144; s_flags := 0x12; s_opts := no_opts |}.
Definition conn_syn : conn := after (lift (setup_inseg syn_ack)) (conn0 <| st := st0 <| pcb := pcb0 <| state := SYN_SENT |> <| rcv_nxt := 0 |> <| rcv_ann_right_edge := 0 |> <| snd_nxt := 501 |> <| unacked := [our_syn] |> <| snd_queuelen := 1 |> |> |>).
Lemma syn_sent0 : syn_sent conn_syn.
Proof.
  split; [reflexivity| | |now repeat split|now split|now repeat split].
  - split; [reflexivity|reflexivity| |constructor|cbn; lia|cbn; unfold TCP_MSS; lia|cbn; lia|cbn; lia|discriminate]. cbn. apply Forall_cons; [|constructor]. split; [discriminate|]. split; [cbn; lia|]. split; reflexivity.
  - now exists our_syn, [].
Qed.
Lemma mtu_ok0 : mtu_ok mtu0.
Proof. intros mtu E. injection E as <-. lia. Qed.
Lemma reader_from q0 : Application q0 data0 reader0.
Proof. exact (reader_application false acked_fine mtu0 sent_fine q0 data0 small0). Qed.

Lemma tcp_handshake_established_witness : let s := conn_syn.(st) in
  exists k1 err k2, reader0.(on_connected) k1 = Ok (err, k2) /\ live (s.(seqno) + 1) data0 0 k1 /\ syn_released s k1.(st) /\ k1.(log) = [Connected] /\
    let k' := set_pcb (fun c => c <| flags := c.(flags) .| TF_ACK_NOW |>) k2 in
    tcp_process false acked_fine mtu0 sent_fine true reader0 no_opts conn_syn = Ok (ERR_OK, k') /\ live (s.(seqno) + 1) data0 0 k' /\ pool k'.(st) = pool s.
Proof. apply (tcp_handshake_established false acked_fine mtu0 sent_fine true data0 reader0 conn_syn no_opts (reader_from _) mtu_ok0 no_opts_ok syn_sent0); try reflexivity. unfold hdr_ok. cbn. lia. Defined.

(** ** What goes wrong *)

(** An application that takes data and reads it later. *)
Definition keeper : callbacks := {| on_recv := fun _ => ret ERR_OK; on_sent := fun _ => ret ERR_OK; on_connected := ret ERR_OK; on_accept := None; on_err := fun _ => ret tt |}.
(** Six bytes of window are left. *)
Definition conn_six : conn := conn0 <| st := st0 <| pcb := pcb0 <| rcv_wnd := 6 |> <| rcv_ann_wnd := 6 |> <| rcv_ann_right_edge := u32 (isn0 + 6) |> |> |>.
Definition kept_input (NOASSERT : bool) : segment -> CM unit := tcp_input NOASSERT acked_fine mtu0 sent_fine true keeper.

(** Four bytes of the last six reach behind the window; in order they are cut. *)
Example overrun_input :
  kept_input false (piece 0 4 0x10) (after (kept_input false (piece 4 6 0x10)) conn_six) = Halt /\
  (after (kept_input true (piece 0 4 0x10)) (after (kept_input true (piece 4 6 0x10)) conn_six)).(st).(pcb).(rcv_wnd) = 65532 /\
  (after (kept_input false (piece 4 6 0x10)) (after (kept_input false (piece 0 4 0x10)) conn_six)).(st).(pcb).(rcv_wnd) = 0.
Proof. vm_compute. now repeat split. Qed.

Definition with_seg (g : segment) (s : tcp_st) : tcp_st := match setup_inseg g s with Ok (_, s') => s' | _ => s end.
Lemma with_seg_pcb g s : (with_seg g s).(pcb) = s.(pcb).
Proof. reflexivity. Qed.
Lemma with_seg_at a n fl s : on fl TCP_SYN = false -> tot_len (in_threes 10 (slice data0 a n)) = n -> 0 <= a /\ 0 < n -> (a + n <=? 10) = true -> concat (in_threes 10 (slice data0 a n)) = slice data0 a n -> on fl TCP_FIN = false -> at_pos isn0 data0 a (with_seg (piece a n fl) s).
Proof.
  intros H1 H2 H3 H4 H5 H6. apply Z.leb_le in H4. assert (T : TCP_TCPLEN (inseg (with_seg (piece a n fl) s)) = n) by (unfold TCP_TCPLEN; cbn [with_seg setup_inseg modify inseg slen hflags with_field piece s_p s_flags]; rewrite on_fin_syn, H6, H1, H2; cbn; lia).
  split; [|rewrite T; lia| |reflexivity].
  - split; unfold fin; cbn [with_seg setup_inseg modify inseg slen sp hseq hflags with_field piece s_p s_seq s_flags]; rewrite ?H2; try assumption; try reflexivity; try (change (total data0) with 10; lia); try lia. rewrite H6. discriminate.
  - rewrite T. cbn [with_seg setup_inseg modify tcplen with_field piece s_p s_flags]. rewrite on_fin_syn, H6, H1, H2. cbn [orb]. rewrite Z.add_0_r. apply u16_id. word_lia.
Qed.
Lemma rx_six : rx isn0 data0 0 conn_six.(st).(pcb).
Proof. split; [change (total data0) with 10; lia|reflexivity|cbn; lia|exact I| |cbn; lia|cbn; lia]. exists 6. split; [reflexivity|cbn; lia]. Qed.

Lemma tcp_window_overrun_witness : let s := with_seg (piece 4 6 0x10) conn_six.(st) in
  exists s1, receive_data false acked_fine s = Ok (tt, s1) /\ s1.(pcb).(ooseq) = [s.(inseg)] /\ receive_data false acked_fine (with_seg (piece 0 4 0x10) s1) = Halt.
Proof.
  intros s. assert (A : at_pos isn0 data0 4 s) by (apply with_seg_at; reflexivity || lia).
  destruct (tcp_window_overrun isn0 data0 small0 false acked_fine 0 4 s rx_six eq_refl A) as (s1 & E & Q & H); [reflexivity|split; reflexivity|reflexivity|]. exists s1. split; [exact E|]. split; [exact Q|].
  apply H; try reflexivity. apply with_seg_at; reflexivity || lia.
Defined.

(** An ACK that is due and cannot be sent. *)
Lemma output_no_memory NOASSERT route seg_out s : on s.(pcb).(flags) TF_ACK_NOW = true -> s.(pcb).(unsent) = [] -> s.(pcb).(state) = ESTABLISHED -> s.(input_pcb) = false ->
  tcp_output NOASSERT (fun _ => None) route seg_out s = Ok (ERR_BUF, s <| pcb := s.(pcb) <| flags := s.(pcb).(flags) .| (TF_ACK_DELAY .| TF_ACK_NOW) |> |>).
Proof. intros Hf Hu Hs Hi. unfold tcp_output. rewrite bind_gets. cbv zeta. rewrite bind_oassert by now rewrite Hs. now rewrite Hi, Hf, Hu. Qed.

Lemma both_off f m : m = TF_ACK_DELAY \/ m = TF_ACK_NOW -> on (off_bits f (TF_ACK_DELAY .| TF_ACK_NOW)) m = false.
Proof.
  intros [-> | ->]; [refine (eq_trans (on_off 0 f _ ltac:(lia)) _)|refine (eq_trans (on_off 1 f _ ltac:(lia)) _)]; apply andb_false_r.
Qed.

(** C36: when the fast timer finds a delayed ACK and there is no memory for it,
    nothing is sent, and the two flags that ask for the ACK are cleared all the
    same: nothing is left that would make a later tick try again. *)
Theorem tcp_fasttmr_forgets_ack NOASSERT route seg_out cb k : on k.(st).(pcb).(flags) TF_ACK_DELAY = true -> k.(st).(pcb).(unsent) = [] -> k.(st).(pcb).(state) = ESTABLISHED -> k.(st).(input_pcb) = false -> k.(refused_data) = None ->
  exists k', tcp_fasttmr NOASSERT (fun _ => None) route seg_out cb k = Ok (tt, k') /\ k'.(st).(acks) = k.(st).(acks) /\ k'.(st).(xmit) = k.(st).(xmit) /\
    on k'.(st).(pcb).(flags) TF_ACK_DELAY = false /\ on k'.(st).(pcb).(flags) TF_ACK_NOW = false.
Proof.
  intros Hd Hu Hs Hi Hr. unfold tcp_fasttmr. rewrite bind_cget, Hd. set (ack := fun c : tcp_pcb => c <| flags := c.(flags) .| TF_ACK_NOW |>). set (clear := fun c : tcp_pcb => c <| flags := off_bits c.(flags) (TF_ACK_DELAY .| TF_ACK_NOW) |>).
  unfold bind at 1. rewrite (bind_clift tcp_ack_now _ k tt (k.(st) <| pcb := ack k.(st).(pcb) |>) eq_refl). fold (set_pcb ack k).
  assert (Hn : on (flags (pcb (st (set_pcb ack k)))) TF_ACK_NOW = true) by (cbn [flags pcb st set_pcb ack with_field]; refine (eq_trans (on_lor 1 _ TF_ACK_NOW ltac:(lia)) _); apply orb_true_r).
  rewrite (bind_clift _ _ (set_pcb ack k) _ _ (output_no_memory NOASSERT route seg_out (st (set_pcb ack k)) Hn Hu Hs Hi)).
  eexists. split; [cbn; rewrite Hr; reflexivity|]. split; [reflexivity|]. split; [reflexivity|]. split; [apply both_off; now left|apply both_off; now right].
Qed.

Definition conn_delayed : conn := conn0 <| st := st0 <| pcb := pcb0 <| flags := TF_ACK_DELAY |> |> |>.
Lemma tcp_fasttmr_forgets_ack_witness : exists k', tcp_fasttmr false (fun _ => None) mtu0 sent_fine reader0 conn_delayed = Ok (tt, k') /\ k'.(st).(acks) = conn_delayed.(st).(acks) /\ k'.(st).(xmit) = conn_delayed.(st).(xmit) /\ on k'.(st).(pcb).(flags) TF_ACK_DELAY = false /\ on k'.(st).(pcb).(flags) TF_ACK_NOW = false.
Proof. apply (tcp_fasttmr_forgets_ack false mtu0 sent_fine reader0 conn_delayed); reflexivity. Defined.
