(* ===== verification/TcpSendDemo.v ===== *)
(** * A TCP sender on concrete data

    Five bytes are queued, three of them have been sent; more is written.  The
    five bytes are transferred to a receiver. *)

From Stdlib Require Import ZArith List Lia Bool.
From S2P Require Import Prelude Pbuf TcpIn TcpOut TcpWrite TcpConn TcpStream TcpAck TcpQueue TcpSend TcpSender TcpFrame TcpReceive TcpProcess TcpApp TcpInput TcpRuns TcpTransfer TcpFaults TcpDemo.
Import ListNotations.
Open Scope Z_scope.
Open Scope c_scope.

Definition queued0 : list Z := [1; 2; 3; 4; 5].
Definition more0 : list Z := [6; 7; 8; 9; 10].
Definition way0 : tcp_seg := mkSeg [[1; 2; 3]] 3 500 TCP_ACK.
Definition wait0 : tcp_seg := mkSeg [[4; 5]] 2 503 0.
(** The pbuf of the second segment has room for three bytes. *)
Definition pcb_writes : tcp_pcb := pcb0 <| unacked := [way0] |> <| unsent := [wait0] |> <| snd_nxt := 503 |> <| snd_lbb := 505 |> <| snd_queuelen := 2 |> <| snd_buf := 1067 |> <| unsent_oversize := 3 |>.
Definition st_writes : tcp_st := st0 <| pcb := pcb_writes |> <| seg_free := 14 |>.

Example written_parts : (match tcp_write false (fun _ => true) (Some more0) TCP_WRITE_FLAG_COPY st_writes with Ok (e, s) => Some (e, s.(pcb).(unsent), s.(pcb).(snd_lbb)) | _ => None end) =
  Some (ERR_OK, [mkSeg [[4; 5; 6; 7; 8]; [9; 10]] 7 503 TCP_PSH], 510).
Proof. vm_compute. reflexivity. Qed.

Lemma seg_okd g : g.(sp) <> [] -> (0 <=? g.(slen)) && (0 <? TCP_TCPLEN g) && negb (on g.(hflags) TCP_RST) = true -> seg_ok g.
Proof. intros H E. rewrite !andb_true_iff, negb_true_iff in E. destruct E as [[E1 E2] E3]. split; [exact H|]. apply Z.leb_le in E1. apply Z.ltb_lt in E2. now repeat split. Qed.
Lemma tx_writes : tx_ok pcb_writes.
Proof. split; [reflexivity|reflexivity| | |cbn; lia|cbn; unfold TCP_MSS; lia|cbn; lia|cbn; lia|discriminate]; (cbn; apply Forall_cons; [apply seg_okd; [discriminate|reflexivity]|constructor]). Qed.
Lemma roomy_writes : roomy pcb_writes.
Proof. split; [cbn; lia|cbn; lia|discriminate|]. intros g [= <-]. split; [cbn; lia|vm_compute; discriminate]. Qed.
Lemma way_at : seg_at 500 queued0 way0 0.
Proof. split; try reflexivity; try (cbn; lia); try discriminate. Qed.
Lemma wait_at : seg_at 500 queued0 wait0 3.
Proof. split; try reflexivity; try (cbn; lia); try discriminate. Qed.
Lemma open_writes : open_end 500 queued0 pcb_writes.
Proof. split; [reflexivity|cbn; now repeat constructor|]. intros g [= <-]. exists 3. split; [exact wait_at|reflexivity]. Qed.
Lemma sender_writes : sender 500 queued0 0 pcb_writes.
Proof.
  split; [cbn; apply Forall_cons; [exists 0; exact way_at|apply Forall_cons; [exists 3; exact wait_at|constructor]]|]. intros p. change (total queued0) with 5. intros Hp. cbn. destruct (Z.ltb_spec p 3).
  - apply Exists_cons_hd. exists 0. split; [exact way_at|cbn; lia].
  - apply Exists_cons_tl, Exists_cons_hd. exists 3. split; [exact wait_at|cbn; lia].
Qed.


(** ** A transfer *)

Definition rcv0 : conn := conn0 <| st := st0 <| pcb := pcb0 <| rcv_nxt := 500 |> <| rcv_ann_right_edge := u32 (500 + TCP_WND) |> |> |>.
Lemma small_queued : total queued0 <= 536870912.
Proof. vm_compute. discriminate. Qed.
Lemma reader_queued : Application 500 queued0 reader0.
Proof. exact (reader_application false acked_fine mtu0 sent_fine 500 queued0 small_queued). Qed.

Definition done {A} (m : TM A) (s : tcp_st) : tcp_st := match m s with Ok (_, s') => s' | _ => s end.
(** An acknowledgement without data. *)
Definition with_ack (n : Z) (s : tcp_st) : tcp_st := s <| ackno := n |> <| hdr_flags := TCP_ACK |> <| hdr_wnd := 2144 |> <| seqno := isn0 |> <| tcplen := 0 |> <| recv_acked := 0 |>.
(** A segment as it arrives. *)
Definition arriving (g : tcp_seg) : segment := {| s_p := g.(sp); s_seq := g.(hseq); s_ack := isn0; s_wnd := 2144; s_flags := g.(hflags); s_opts := no_opts |}.

(** The first segment is sent again and arrives, its acknowledgement lets the
    second one go. *)
Definition snd1 : tcp_st := done (tcp_rexmit_rto false acked_fine mtu0 sent_fine) st_writes.
Definition sent1 : tcp_seg := way0.
Definition rcv1 : conn := arrives (arriving sent1) rcv0.
Definition snd2 : tcp_st := done (tcp_receive false acked_fine) (with_ack 503 snd1).
Definition snd3 : tcp_st := done (tcp_output false acked_fine mtu0 sent_fine) snd2.
Definition sent2 : tcp_seg := wait0 <| hflags := TCP_ACK |>.
Definition rcv2 : conn := arrives (arriving sent2) rcv1.
Definition snd4 : tcp_st := done (tcp_receive false acked_fine) (with_ack 505 snd3).
Example transferred : (heard rcv1, heard rcv2, queues snd4.(pcb)) = ([1; 2; 3], queued0, []).
Proof. vm_compute. reflexivity. Qed.

Lemma rx_rcv0 : rx 500 queued0 0 rcv0.(st).(pcb).
Proof. split; [change (total queued0) with 5; lia|reflexivity|cbn; unfold TCP_WND, TCP_MSS; lia|exact I| |cbn; unfold TCP_WND, TCP_MSS; lia|cbn; lia]. exists TCP_WND. split; [reflexivity|cbn; unfold TCP_WND, TCP_MSS; lia]. Qed.
Lemma live_rcv0 : live 500 queued0 0 rcv0.
Proof.
  split; [|split].
  - split; [exact rx_rcv0|destruct tx_ok0; split; assumption|reflexivity|reflexivity|reflexivity].
  - split; [discriminate|reflexivity|discriminate|change (total queued0) with 5; lia|reflexivity].
  - unfold within. cbn. lia.
Qed.

(** The receiver with nothing out of sequence. *)
Lemma rx_plain N c E : c.(ooseq) = [] -> (0 <=? N) && (N <=? 6) && (c.(rcv_nxt) =? q 500 N) && (0 <=? c.(rcv_wnd)) && (c.(rcv_wnd) <? 65536) && (c.(rcv_ann_right_edge) =? q 500 E) && (0 <=? E) && (E <=? N + c.(rcv_wnd)) && (0 <=? c.(rcv_ann_wnd)) && (c.(rcv_ann_wnd) <=? c.(rcv_wnd)) && (0 <? c.(mss)) && (c.(mss) <? 65536) = true -> rx 500 queued0 N c.
Proof.
  intros Ho H. rewrite !andb_true_iff, !Z.eqb_eq, !Z.leb_le, !Z.ltb_lt in H. split; rewrite ?Ho; try tauto; [exact I|]. exists E. tauto.
Qed.
Lemma in_window_plain k g a N : rx 500 queued0 N k.(st).(pcb) -> seg_at 500 queued0 (seg_of g) a -> a + TCP_TCPLEN (seg_of g) <= N + k.(st).(pcb).(rcv_wnd) -> in_window 500 queued0 k g.
Proof.
  intros X S H b M Sb Y _. now rewrite <- (rx_unique 500 queued0 small_queued _ _ _ X Y), (seg_at_unique 500 queued0 _ _ _ small_queued Sb S).
Qed.
Lemma rx_rcv1 : rx 500 queued0 3 rcv1.(st).(pcb).
Proof. apply (rx_plain 3 _ 2144); vm_compute; reflexivity. Qed.
Lemma rx_rcv2 : rx 500 queued0 5 rcv2.(st).(pcb).
Proof. apply (rx_plain 5 _ 2144); vm_compute; reflexivity. Qed.
Lemma carries_arriving g : g.(sp) <> [] -> carries (arriving g) g.
Proof. intros H. split; [exact H|reflexivity|reflexivity|reflexivity|exact no_opts_ok|cbn; lia]. Qed.

Abbreviation link0 := (link_run 500 queued0 false acked_fine mtu0 sent_fine false acked_fine mtu0 sent_fine true reader0).
Lemma stored0 : stored 500 queued0 0 (queues pcb_writes).
Proof. split; [apply sender_writes| |apply sender_writes]. pose proof tx_writes as T. exact (proj2 (Forall_app _ _ _) (conj (tx_unacked _ T) (tx_unsent _ T))). Qed.

Lemma tcp_transfer_witness : queues snd4.(pcb) = [] /\ heard rcv2 = queued0 /\
  (let got := heard rcv2 ++ pending rcv2 in got = firstn (length got) queued0 /\ (ends rcv2 = 0%nat \/ (ends rcv2 = 1%nat /\ heard rcv2 = queued0)) /\
   (forall p, Z.of_nat (length got) <= p < total queued0 -> Exists (holds 500 queued0 p) (queues snd4.(pcb))) /\ (queues snd4.(pcb) = [] -> got = queued0) /\ Forall (sent_ok 500 queued0) snd4.(xmit)).
Proof.
  split; [vm_compute; reflexivity|]. split; [vm_compute; reflexivity|].
  apply (tcp_transfer 500 queued0 small_queued false acked_fine mtu0 sent_fine false acked_fine mtu0 sent_fine true reader0 reader_queued 0 st_writes rcv0 snd4 rcv2 live_rcv0 stored0 eq_refl).
  apply link_more with (snd3, rcv2); [apply link_more with (snd3, rcv1); [apply link_more with (snd2, rcv1); [apply link_more with (snd1, rcv1); [apply link_more with (snd1, rcv0); [apply link_more with (st_writes, rcv0); [apply link_nil|]|]|]|]|]|].
  - apply ls_timeout. vm_compute. reflexivity.
  - apply ls_segment with (sent1, isn0, 2144) (arriving sent1); [vm_compute; tauto|apply carries_arriving; discriminate| |vm_compute; reflexivity]. apply (in_window_plain _ _ 0 0 rx_rcv0); [exact way_at|vm_compute; discriminate].
  - apply ls_acknowledged with (with_ack 503 snd1) 3 3; [vm_compute; reflexivity|vm_compute; reflexivity|exact rx_rcv1|lia|vm_compute; reflexivity].
  - apply ls_output with ERR_OK. vm_compute. reflexivity.
  - apply ls_segment with (sent2, isn0, 2144) (arriving sent2); [vm_compute; tauto|apply carries_arriving; discriminate| |vm_compute; reflexivity]. apply (in_window_plain _ _ 3 3 rx_rcv1); [destruct wait_at; split; assumption|vm_compute; discriminate].
  - apply ls_acknowledged with (with_ack 505 snd3) 5 5; [vm_compute; reflexivity|vm_compute; reflexivity|exact rx_rcv2|lia|vm_compute; reflexivity].
Defined.

(** ** What goes wrong *)

(** Both segments are on the way when the acknowledgement of the first byte
    comes three times; [seg_out] tells what becomes of the retransmission. *)
Definition second0 : tcp_seg := mkSeg [[4; 5]] 2 503 TCP_ACK.
Definition conn_way : conn := conn0 <| st := st0 <| pcb := pcb0 <| unacked := [way0; second0] |> <| snd_nxt := 505 |> <| snd_lbb := 505 |> <| snd_queuelen := 2 |> <| snd_buf := 1067 |> <| rtime := 0 |> |> <| seg_free := 14 |> |>.
Definition dup_ack : segment := {| s_p := []; s_seq := isn0; s_ack := 500; s_wnd := 2144; s_flags := TCP_ACK; s_opts := no_opts |}.
Definition dup_acked (seg_out : tcp_pcb -> tcp_seg -> option err_t) : conn :=
  let again := after (tcp_input false acked_fine mtu0 seg_out true reader0 dup_ack) in again (again (again conn_way)).
(** Then three bytes are written and sent. *)
Definition sent_later (seg_out : tcp_pcb -> tcp_seg -> option err_t) : conn :=
  after (lift (tcp_write false (fun _ => true) (Some [6; 7; 8]) TCP_WRITE_FLAG_COPY ;; tcp_output false acked_fine mtu0 sent_fine ;; ret tt)) (dup_acked seg_out).
Definition sent_parts (k : conn) : list (Z * list Z) := map (fun x => let g := fst (fst x) in (g.(hseq), concat g.(sp))) k.(st).(xmit).

(** If the retransmission cannot go out at once, the new bytes are sent with the
    sequence numbers of the second segment and nothing is sent with their own. *)
Example write_after_rexmit :
  sent_parts (sent_later (fun _ _ => Some ERR_MEM)) = [(500, [1; 2; 3]); (500, [1; 2; 3; 6; 7; 8])] /\
  (sent_later (fun _ _ => Some ERR_MEM)).(st).(pcb).(snd_lbb) = 508 /\
  (sent_later (fun _ _ => Some ERR_MEM)).(st).(pcb).(unsent) = [] /\
  map hseq (sent_later (fun _ _ => Some ERR_MEM)).(st).(pcb).(unacked) = [500; 503] /\
  sent_parts (sent_later sent_fine) = [(500, [1; 2; 3]); (505, [6; 7; 8])].
Proof. vm_compute. now repeat split. Qed.

Lemma tx_way : tx_ok conn_way.(st).(pcb).
Proof. split; [reflexivity|reflexivity| |constructor|cbn; lia|cbn; unfold TCP_MSS; lia|cbn; lia|cbn; lia|discriminate]; (cbn; apply Forall_cons; [apply seg_okd; [discriminate|reflexivity]|apply Forall_cons; [apply seg_okd; [discriminate|reflexivity]|constructor]]). Qed.
Lemma second_at : seg_at 500 queued0 second0 3.
Proof. split; try reflexivity; try (cbn; lia); try discriminate. Qed.
Lemma tcp_write_after_rexmit_corrupts_witness : exists s1 s' g', tcp_rexmit conn_way.(st) = Ok (tt, s1) /\ tcp_write false (fun _ => true) (Some [6; 7; 8]) TCP_WRITE_FLAG_COPY s1 = Ok (ERR_OK, s') /\
  s'.(pcb).(unsent) = [g'] /\ s'.(pcb).(unacked) = [second0] /\ g'.(hseq) = q 500 0 /\ concat g'.(sp) = slice queued0 0 3 ++ [6; 7; 8] /\ g'.(slen) = 3 + len_of [6; 7; 8] /\
  s'.(pcb).(snd_lbb) = q 500 (total (queued0 ++ [6; 7; 8])) /\ forall x, In x (queues s'.(pcb)) -> u32 (x.(hseq) + x.(slen)) <> s'.(pcb).(snd_lbb).
Proof.
  apply (tcp_write_after_rexmit_corrupts 500 false (fun _ => true) queued0 [6; 7; 8] way0 [second0] 0 conn_way.(st) tx_way); try reflexivity; try exact way_at; try (vm_compute; discriminate).
  - split; [reflexivity|cbn; now repeat constructor|discriminate].
  - cbn. apply Forall_cons; [exists 0; exact way_at|apply Forall_cons; [exists 3; exact second_at|constructor]].
  - vm_compute. now split.
Defined.
