(* ===== verification/UartLite.v ===== *)
(** * The UART Lite driver (bsp/microblaze_0/libsrc/uartlite_v3_2)

    xuartlite.c, xuartlite_intr.c, xuartlite_l.c, xuartlite_sinit.c,
    xuartlite_stats.c, xuartlite_selftest.c and, on top of them, outbyte.c and
    inbyte.c of the standalone BSP, over a device reached by 32-bit register
    accesses.  The functions of the driver that run with interrupts enabled take
    the interrupt as an argument [irq]: what happens at the places where it can
    be taken, that is before every access outside a critical region.  Inside the
    interrupt handler it is [ret tt].  The callbacks act on the application's
    state only; one that calls the driver is a later call of the driver.

    The core is a parameter, with the laws of the class [AxiUart]: two FIFOs of
    16 bytes, whose contents move while time passes between two accesses. *)

From Stdlib Require Import ZArith List Lia Bool.
From S2P Require Import Prelude XSpi SpiCore.
Import ListNotations Regs.
Open Scope Z_scope.
Open Scope c_scope.

(** ** Constants of xuartlite_l.h *)
Definition XUL_RX_FIFO_OFFSET := 0.
Definition XUL_TX_FIFO_OFFSET := 4.
Definition XUL_STATUS_REG_OFFSET := 8.
Definition XUL_CONTROL_REG_OFFSET := 12.
Definition XUL_CR_ENABLE_INTR := 0x10.
Definition XUL_CR_FIFO_RX_RESET := 0x02.
Definition XUL_CR_FIFO_TX_RESET := 0x01.
Definition XUL_SR_PARITY_ERROR := 0x80.
Definition XUL_SR_FRAMING_ERROR := 0x40.
Definition XUL_SR_OVERRUN_ERROR := 0x20.
Definition XUL_SR_INTR_ENABLED := 0x10.
Definition XUL_SR_TX_FIFO_FULL := 0x08.
Definition XUL_SR_TX_FIFO_EMPTY := 0x04.
Definition XUL_SR_RX_FIFO_FULL := 0x02.
Definition XUL_SR_RX_FIFO_VALID_DATA := 0x01.
Definition XUL_FIFO_SIZE : nat := 16.
Definition XST_FAILURE := 1.

(** ** Data *)

Record XUartLite_Stats := mkUStats {
  TransmitInterrupts : Z; ReceiveInterrupts : Z; CharactersTransmitted : Z; CharactersReceived : Z;
  ReceiveOverrunErrors : Z; ReceiveParityErrors : Z; ReceiveFramingErrors : Z }.
#[export] Instance XUartLite_Stats_eta : Eta XUartLite_Stats := { eta := fun r =>
  mkUStats r.(TransmitInterrupts) r.(ReceiveInterrupts) r.(CharactersTransmitted) r.(CharactersReceived)
    r.(ReceiveOverrunErrors) r.(ReceiveParityErrors) r.(ReceiveFramingErrors) }.

Record XUartLite_Buffer := mkUBuf { NextBytePtr : Z; Requested : Z; Remaining : Z }.
#[export] Instance XUartLite_Buffer_eta : Eta XUartLite_Buffer := { eta := fun r =>
  mkUBuf r.(NextBytePtr) r.(Requested) r.(Remaining) }.

Record XUartLite_Config := mkUConfig {
  u_DeviceId : Z; RegBaseAddr : Z; BaudRate : Z; UseParity : Z; ParityOdd : Z; DataBits : Z }.

(** A handler field: the driver's stub or a function of the application. *)
Inductive uart_handler := StubHandler | AppHandler (id : Z).

Record XUartLite := mkUartLite {
  UStats : XUartLite_Stats; RegBaseAddress : Z; UIsReady : Z;
  SendBuffer : XUartLite_Buffer; ReceiveBuffer : XUartLite_Buffer;
  RecvHandler : uart_handler; RecvCallBackRef : Z; SendHandler : uart_handler; SendCallBackRef : Z }.
#[export] Instance XUartLite_eta : Eta XUartLite := { eta := fun r =>
  mkUartLite r.(UStats) r.(RegBaseAddress) r.(UIsReady) r.(SendBuffer) r.(ReceiveBuffer)
    r.(RecvHandler) r.(RecvCallBackRef) r.(SendHandler) r.(SendCallBackRef) }.

(** xuartlite_g.c with the values of xparameters.h. *)
Definition XUartLite_ConfigTable : list XUartLite_Config := [mkUConfig 0 0x40600000 9600 0 0 8].
Definition STDOUT_BASEADDRESS := 0x40600000.
Definition STDIN_BASEADDRESS := 0x40600000.

Section Driver.
Context {D : Type} `{RegDevice D}.
(** The state of the application, and what its callbacks do: function,
    reference, byte count. *)
Context {A : Type} (callback : Z -> Z -> Z -> A -> A).

(** The instance, the device, the memory the buffers are in, the application. *)
Record uart_state := mkUSt { uart : XUartLite; udev : D; umem : Z -> Z; app : A }.
#[export] Instance uart_state_eta : Eta uart_state := { eta := fun r =>
  mkUSt r.(uart) r.(udev) r.(umem) r.(app) }.

Definition UM := M uart_state.

Definition ufield {B} (f : XUartLite -> B) : UM B := gets (fun s => f s.(uart)).
Definition uupd (f : XUartLite -> XUartLite) : UM unit := modify (fun s => s <| uart := f s.(uart) |>).
Definition ustat (f : XUartLite_Stats -> XUartLite_Stats) : UM unit := uupd (fun u => u <| UStats := f u.(UStats) |>).

(** ** Macros *)

Definition XUartLite_ReadReg (BaseAddress RegOffset : Z) : UM Z := fun s =>
  let '(d, v) := reg_read s.(udev) (BaseAddress + RegOffset) in Ok (v, s <| udev := d |>).
Definition XUartLite_WriteReg (BaseAddress RegOffset Data : Z) : UM unit := fun s =>
  Ok (tt, s <| udev := reg_write s.(udev) (BaseAddress + RegOffset) (u32 Data) |>).
Definition XUartLite_GetStatusReg (BaseAddress : Z) : UM Z := XUartLite_ReadReg BaseAddress XUL_STATUS_REG_OFFSET.
Definition XUartLite_IsReceiveEmpty (BaseAddress : Z) : UM bool :=
  do v <- XUartLite_GetStatusReg BaseAddress; ret (negb (v .& XUL_SR_RX_FIFO_VALID_DATA =? XUL_SR_RX_FIFO_VALID_DATA)).
Definition XUartLite_IsTransmitFull (BaseAddress : Z) : UM bool :=
  do v <- XUartLite_GetStatusReg BaseAddress; ret (v .& XUL_SR_TX_FIFO_FULL =? XUL_SR_TX_FIFO_FULL).

Definition XUartLite_SetControlReg (BaseAddress Mask : Z) : UM unit := XUartLite_WriteReg BaseAddress XUL_CONTROL_REG_OFFSET Mask.
Definition XUartLite_IsIntrEnabled (BaseAddress : Z) : UM bool :=
  do v <- XUartLite_GetStatusReg BaseAddress; ret (v .& XUL_SR_INTR_ENABLED =? XUL_SR_INTR_ENABLED).
Definition XUartLite_EnableIntr (BaseAddress : Z) : UM unit := XUartLite_SetControlReg BaseAddress XUL_CR_ENABLE_INTR.
Definition XUartLite_DisableIntr (BaseAddress : Z) : UM unit := XUartLite_SetControlReg BaseAddress 0.

(** The registers of the instance. *)
Definition get_status : UM Z := do b <- ufield RegBaseAddress; XUartLite_GetStatusReg b.
Definition set_control (v : Z) : UM unit := do b <- ufield RegBaseAddress; XUartLite_WriteReg b XUL_CONTROL_REG_OFFSET v.
Definition ready : UM unit := do r <- ufield UIsReady; Xil_Assert (r =? XIL_COMPONENT_IS_READY).

Definition XUartLite_UpdateStats (StatusRegister : Z) : UM unit :=
  (when tst StatusRegister XUL_SR_OVERRUN_ERROR then ustat (fun t => t <| ReceiveOverrunErrors := u32 (t.(ReceiveOverrunErrors) + 1) |>)) ;;
  (when tst StatusRegister XUL_SR_PARITY_ERROR then ustat (fun t => t <| ReceiveParityErrors := u32 (t.(ReceiveParityErrors) + 1) |>)) ;;
  (when tst StatusRegister XUL_SR_FRAMING_ERROR then ustat (fun t => t <| ReceiveFramingErrors := u32 (t.(ReceiveFramingErrors) + 1) |>)).

(** ** xuartlite_l.c, outbyte.c, inbyte.c

    The loops wait for the device; [fuel] bounds the polls. *)

Fixpoint XUartLite_SendByte (fuel : nat) (BaseAddress Data : Z) : UM unit :=
  match fuel with
  | O => hang
  | S n =>
      do full <- XUartLite_IsTransmitFull BaseAddress;
      if full : bool then XUartLite_SendByte n BaseAddress Data
      else XUartLite_WriteReg BaseAddress XUL_TX_FIFO_OFFSET Data
  end.

Fixpoint XUartLite_RecvByte (fuel : nat) (BaseAddress : Z) : UM Z :=
  match fuel with
  | O => hang
  | S n =>
      do empty <- XUartLite_IsReceiveEmpty BaseAddress;
      if empty : bool then XUartLite_RecvByte n BaseAddress
      else do v <- XUartLite_ReadReg BaseAddress XUL_RX_FIFO_OFFSET; ret (u8 v)
  end.

Definition outbyte (fuel : nat) (c : Z) : UM unit := XUartLite_SendByte fuel STDOUT_BASEADDRESS (u8 c).
Definition inbyte (fuel : nat) : UM Z := XUartLite_RecvByte fuel STDIN_BASEADDRESS.

(** ** xuartlite.c *)

(** The loop that fills the FIFO; the result is [SentCount]. *)
Fixpoint fill_fifo (fuel : nat) (StatusRegister SentCount : Z) : UM Z :=
  do b <- ufield SendBuffer;
  if (StatusRegister .& XUL_SR_TX_FIFO_FULL =? 0) && (SentCount <? b.(Remaining)) then
    match fuel with
    | O => hang
    | S n =>
        do base <- ufield RegBaseAddress;
        do c <- gets (fun s => s.(umem) (b.(NextBytePtr) + SentCount));
        XUartLite_WriteReg base XUL_TX_FIFO_OFFSET c ;;
        do v <- get_status;
        fill_fifo n (u8 v) (SentCount + 1)
    end
  else ret SentCount.

Definition XUartLite_SendBuffer (irq : UM unit) : UM Z :=
  irq ;;
  do _ <- get_status;
  irq ;;
  do v <- get_status;
  irq ;;
  set_control 0 ;;
  do b <- ufield SendBuffer;
  do SentCount <- fill_fifo (Z.to_nat b.(Remaining)) (u8 v) 0;
  uupd (fun u => u <| SendBuffer := u.(SendBuffer) <| NextBytePtr := u.(SendBuffer).(NextBytePtr) + SentCount |>
    <| Remaining := u32 (u.(SendBuffer).(Remaining) - SentCount) |> |>) ;;
  ustat (fun t => t <| CharactersTransmitted := u32 (t.(CharactersTransmitted) + SentCount) |>) ;;
  set_control (u8 v .& XUL_CR_ENABLE_INTR) ;;
  ret SentCount.

(** The loop that empties the FIFO; the result is [ReceivedCount]. *)
Fixpoint drain_fifo (fuel : nat) (ReceivedCount : Z) : UM Z :=
  do b <- ufield ReceiveBuffer;
  if ReceivedCount <? b.(Remaining) then
    match fuel with
    | O => hang
    | S n =>
        do v <- get_status;
        if tst (u8 v) XUL_SR_RX_FIFO_VALID_DATA then
          do base <- ufield RegBaseAddress;
          do c <- XUartLite_ReadReg base XUL_RX_FIFO_OFFSET;
          modify (fun s => s <| umem := store8 s.(umem) (b.(NextBytePtr) + ReceivedCount) c |>) ;;
          XUartLite_UpdateStats (u8 v) ;;
          drain_fifo n (ReceivedCount + 1)
        else ret ReceivedCount
    end
  else ret ReceivedCount.

Definition XUartLite_ReceiveBuffer (irq : UM unit) : UM Z :=
  irq ;;
  do v <- get_status;
  irq ;;
  set_control 0 ;;
  do b <- ufield ReceiveBuffer;
  do ReceivedCount <- drain_fifo (Z.to_nat b.(Remaining)) 0;
  uupd (fun u => u <| ReceiveBuffer := u.(ReceiveBuffer) <| NextBytePtr := u.(ReceiveBuffer).(NextBytePtr) + ReceivedCount |>
    <| Remaining := u32 (u.(ReceiveBuffer).(Remaining) - ReceivedCount) |> |>) ;;
  ustat (fun t => t <| CharactersReceived := u32 (t.(CharactersReceived) + ReceivedCount) |>) ;;
  set_control (u8 v .& XUL_CR_ENABLE_INTR) ;;
  ret ReceivedCount.

Definition XUartLite_Send (irq : UM unit) (DataBufferPtr NumBytes : Z) : UM Z :=
  Xil_Assert (negb (DataBufferPtr =? NULL)) ;;
  ready ;;
  Xil_Assert (s32 NumBytes >=? 0) ;;
  irq ;;
  do v <- get_status;
  irq ;;
  set_control 0 ;;
  uupd (fun u => u <| SendBuffer := mkUBuf DataBufferPtr NumBytes NumBytes |>) ;;
  set_control (v .& XUL_CR_ENABLE_INTR) ;;
  XUartLite_SendBuffer irq.

Definition XUartLite_Recv (irq : UM unit) (DataBufferPtr NumBytes : Z) : UM Z :=
  Xil_Assert (negb (DataBufferPtr =? NULL)) ;;
  ready ;;
  Xil_Assert (s32 NumBytes >=? 0) ;;
  irq ;;
  do v <- get_status;
  irq ;;
  set_control 0 ;;
  uupd (fun u => u <| ReceiveBuffer := mkUBuf DataBufferPtr NumBytes NumBytes |>) ;;
  set_control (v .& XUL_CR_ENABLE_INTR) ;;
  XUartLite_ReceiveBuffer irq.

Definition XUartLite_ResetFifos : UM unit :=
  ready ;;
  do v <- get_status;
  set_control ((v .& XUL_SR_INTR_ENABLED) .| XUL_CR_FIFO_TX_RESET .| XUL_CR_FIFO_RX_RESET).

Definition XUartLite_IsSending : UM bool :=
  do v <- get_status; ret (v .& XUL_SR_TX_FIFO_EMPTY =? 0).

(** ** xuartlite_stats.c *)

Definition XUartLite_ClearStats : UM unit := ready ;; ustat (fun _ => mkUStats 0 0 0 0 0 0 0).
Definition XUartLite_GetStats : UM XUartLite_Stats := ready ;; ufield UStats.

(** ** xuartlite_sinit.c *)

Definition XUartLite_CfgInitialize (EffectiveAddr : Z) : UM Z :=
  uupd (fun u => u <| SendBuffer := mkUBuf NULL 0 0 |> <| ReceiveBuffer := mkUBuf NULL 0 0 |>
    <| UIsReady := XIL_COMPONENT_IS_READY |> <| RegBaseAddress := EffectiveAddr |>
    <| RecvHandler := StubHandler |> <| SendHandler := StubHandler |>) ;;
  set_control 0 ;;
  XUartLite_ClearStats ;;
  ret XST_SUCCESS.

Definition XUartLite_LookupConfig (DeviceId : Z) : option XUartLite_Config :=
  find (fun c => c.(u_DeviceId) =? DeviceId) XUartLite_ConfigTable.

Definition XUartLite_Initialize (DeviceId : Z) : UM Z :=
  match XUartLite_LookupConfig DeviceId with
  | None => ret XST_DEVICE_NOT_FOUND
  | Some c => XUartLite_CfgInitialize c.(RegBaseAddr)
  end.

(** ** xuartlite_selftest.c *)

Definition XUartLite_SelfTest : UM Z :=
  ready ;;
  XUartLite_ResetFifos ;;
  do v <- get_status;
  ret (if v =? XUL_SR_TX_FIFO_EMPTY then XST_SUCCESS else XST_FAILURE).

(** ** xuartlite_intr.c *)

Definition XUartLite_SetRecvHandler (FuncPtr CallBackRef : Z) : UM unit :=
  Xil_Assert (negb (FuncPtr =? NULL)) ;; ready ;;
  uupd (fun u => u <| RecvHandler := AppHandler FuncPtr |> <| RecvCallBackRef := CallBackRef |>).
Definition XUartLite_SetSendHandler (FuncPtr CallBackRef : Z) : UM unit :=
  Xil_Assert (negb (FuncPtr =? NULL)) ;; ready ;;
  uupd (fun u => u <| SendHandler := AppHandler FuncPtr |> <| SendCallBackRef := CallBackRef |>).

(** Calling a handler: the stub's assertion always fails. *)
Definition call (h : uart_handler) (CallBackRef ByteCount : Z) : UM unit :=
  match h with
  | StubHandler => Xil_Assert false
  | AppHandler id => modify (fun s => s <| app := callback id CallBackRef ByteCount s.(app) |>)
  end.

Definition ReceiveDataHandler : UM unit :=
  do b <- ufield ReceiveBuffer;
  (when negb (b.(Remaining) =? 0) then (XUartLite_ReceiveBuffer (ret tt) ;; ret tt)) ;;
  do u <- ufield (fun u => u);
  let b := u.(ReceiveBuffer) in
  (when b.(Remaining) =? 0 then call u.(RecvHandler) u.(RecvCallBackRef) (u32 (b.(Requested) - b.(Remaining)))) ;;
  ustat (fun t => t <| ReceiveInterrupts := u32 (t.(ReceiveInterrupts) + 1) |>).

Definition SendDataHandler : UM unit :=
  do u <- ufield (fun u => u);
  (if u.(SendBuffer).(Remaining) =? 0 then
     let SaveReq := u.(SendBuffer).(Requested) in
     uupd (fun u => u <| SendBuffer := u.(SendBuffer) <| Requested := 0 |> |>) ;;
     call u.(SendHandler) u.(SendCallBackRef) SaveReq
   else (XUartLite_SendBuffer (ret tt) ;; ret tt)) ;;
  ustat (fun t => t <| TransmitInterrupts := u32 (t.(TransmitInterrupts) + 1) |>).

Definition XUartLite_InterruptHandler : UM unit :=
  do IsrStatus <- get_status;
  (when negb (IsrStatus .& (XUL_SR_RX_FIFO_FULL .| XUL_SR_RX_FIFO_VALID_DATA) =? 0) then ReceiveDataHandler) ;;
  do b <- ufield SendBuffer;
  (when negb (IsrStatus .& XUL_SR_TX_FIFO_EMPTY =? 0) && (b.(Requested) >? 0) then SendDataHandler).

Definition XUartLite_DisableInterrupt : UM unit := ready ;; set_control 0.
Definition XUartLite_EnableInterrupt : UM unit := ready ;; set_control XUL_CR_ENABLE_INTR.
End Driver.
Arguments uart_state : clear implicits.
