(* ===== verification/UartSpec.v ===== *)
(** * What the UART driver does with bytes

    The laws of the core, and the driver's promises on any core that keeps them:
    the bytes handed to the driver leave on the line in order and once, the
    bytes that arrive go to the receive buffer in order, and the callbacks come
    when a transfer is complete. *)

From Stdlib Require Import ZArith List Lia Bool.
From S2P Require Import Prelude XSpi SpiCore Spi UartLite.
Import ListNotations Regs.
Open Scope Z_scope.
Open Scope c_scope.

(** ** The core *)

(** The FIFOs, the interrupt enable bit, the bytes that left on the line and the
    bytes that arrived and found room. *)
Record uart_view := mkUView { u_tx : list Z; u_rx : list Z; u_ie : bool; u_line : list Z; u_in : list Z }.
#[export] Instance uart_view_eta : Eta uart_view := { eta := fun r =>
  mkUView r.(u_tx) r.(u_rx) r.(u_ie) r.(u_line) r.(u_in) }.

(** While time passes, bytes leave and arrive. *)
Inductive flows : uart_view -> uart_view -> Prop :=
| flows_refl v : flows v v
| flows_send v b t w : v.(u_tx) = b :: t -> flows (v <| u_tx := t |> <| u_line := v.(u_line) ++ [b] |>) w -> flows v w
| flows_recv v b w : is_u8 b -> (length v.(u_rx) < XUL_FIFO_SIZE)%nat -> flows (v <| u_rx := v.(u_rx) ++ [b] |> <| u_in := v.(u_in) ++ [b] |>) w -> flows v w.

Definition uart_control (v : uart_view) (c : Z) : uart_view :=
  v <| u_ie := tst c XUL_CR_ENABLE_INTR |>
    <| u_tx := if tst c XUL_CR_FIFO_TX_RESET then [] else v.(u_tx) |>
    <| u_rx := if tst c XUL_CR_FIFO_RX_RESET then [] else v.(u_rx) |>.
(** A byte written to a full FIFO is lost. *)
Definition uart_push (v : uart_view) (x : Z) : uart_view :=
  if (length v.(u_tx) <? XUL_FIFO_SIZE)%nat then v <| u_tx := v.(u_tx) ++ [u8 x] |> else v.
Definition uart_pop (v : uart_view) : uart_view := v <| u_rx := tl v.(u_rx) |>.

(** An access lets time pass and then has its effect. *)
Class AxiUart (D : Type) `{RegDevice D} (base : Z) := {
  uview : D -> uart_view;
  ur_status : forall d, let r := reg_read d (base + XUL_STATUS_REG_OFFSET) in flows (uview d) (uview (fst r)) /\ is_u8 (snd r);
  ur_tx_full : forall d, let r := reg_read d (base + XUL_STATUS_REG_OFFSET) in
    tst (snd r) XUL_SR_TX_FIFO_FULL = (XUL_FIFO_SIZE <=? length (uview (fst r)).(u_tx))%nat;
  ur_tx_empty : forall d, let r := reg_read d (base + XUL_STATUS_REG_OFFSET) in
    tst (snd r) XUL_SR_TX_FIFO_EMPTY = is_nil (uview (fst r)).(u_tx);
  ur_rx_valid : forall d, let r := reg_read d (base + XUL_STATUS_REG_OFFSET) in
    tst (snd r) XUL_SR_RX_FIFO_VALID_DATA = negb (is_nil (uview (fst r)).(u_rx));
  ur_ie : forall d, let r := reg_read d (base + XUL_STATUS_REG_OFFSET) in tst (snd r) XUL_SR_INTR_ENABLED = (uview (fst r)).(u_ie);
  ur_data : forall d, let r := reg_read d (base + XUL_RX_FIFO_OFFSET) in
    exists w, flows (uview d) w /\ uview (fst r) = uart_pop w /\ forall b l, w.(u_rx) = b :: l -> snd r = b;
  uw_control : forall d c, exists w, flows (uview d) w /\ uview (reg_write d (base + XUL_CONTROL_REG_OFFSET) c) = uart_control w c;
  uw_data : forall d x, exists w, flows (uview d) w /\ uview (reg_write d (base + XUL_TX_FIFO_OFFSET) x) = uart_push w x }.

(** Everything that was given to the transmitter. *)
Definition u_sent (v : uart_view) : list Z := v.(u_line) ++ v.(u_tx).

(** The transmitter was given [bs] and [rs] was taken from the receiver;
    meanwhile bytes left and arrived. *)
Record traffic (v w : uart_view) (bs rs : list Z) : Prop := {
  tr_sent : u_sent w = u_sent v ++ bs;
  tr_line : exists l, w.(u_line) = v.(u_line) ++ l;
  tr_tx : (length w.(u_tx) <= length v.(u_tx) + length bs)%nat;
  tr_ie : w.(u_ie) = v.(u_ie);
  tr_in : exists l, w.(u_in) = v.(u_in) ++ l /\ v.(u_rx) ++ l = rs ++ w.(u_rx) /\ bytes_ok l }.
Abbreviation pushed v w bs := (traffic v w bs []).
(** Only time passed. *)
Abbreviation moved v w := (traffic v w [] []).

Lemma moved_refl v : moved v v.
Proof. split; rewrite ?app_nil_r; try reflexivity; [exists []; now rewrite app_nil_r|cbn; lia|]. exists []. rewrite !app_nil_r. repeat split. constructor. Qed.

Lemma traffic_trans u v w a b r r' : traffic u v a r -> traffic v w b r' -> traffic u w (a ++ b) (r ++ r').
Proof.
  intros [A1 [l A2] A3 A4 (i & A5 & A6 & A7)] [B1 [l' B2] B3 B4 (i' & B5 & B6 & B7)]. split; try congruence.
  - now rewrite B1, A1, app_assoc.
  - exists (l ++ l'). now rewrite B2, A2, app_assoc.
  - rewrite length_app. lia.
  - exists (i ++ i'). split; [now rewrite B5, A5, app_assoc|]. split; [now rewrite <- app_assoc, <- B6, !app_assoc, A6|]. now apply bytes_ok_app.
Qed.

Lemma moved_traffic u v w b r : moved u v -> traffic v w b r -> traffic u w b r.
Proof. apply traffic_trans. Qed.
Lemma traffic_moved u v w a r : traffic u v a r -> moved v w -> traffic u w a r.
Proof. intros H1 H2. rewrite <- (app_nil_r a), <- (app_nil_r r). exact (traffic_trans _ _ _ _ _ _ _ H1 H2). Qed.

Lemma flows_moved v w : flows v w -> moved v w.
Proof.
  induction 1 as [v|v b t w E _ IH|v b w Hb Hl _ IH]; [apply moved_refl| |]; (eapply moved_traffic; [|exact IH]).
  - split; unfold u_sent; cbn [u_line u_tx u_ie u_in u_rx with_field]; rewrite ?E.
    + now rewrite app_nil_r, <- app_assoc.
    + now exists [b].
    + cbn [length]. lia.
    + reflexivity.
    + exists []. rewrite !app_nil_r. repeat split. constructor.
  - split; unfold u_sent; cbn [u_line u_tx u_ie u_in u_rx with_field length].
    + now rewrite app_nil_r.
    + exists []. now rewrite app_nil_r.
    + lia.
    + reflexivity.
    + exists [b]. repeat split. constructor; [exact Hb|constructor].
Qed.

(** ** The driver on a core *)

Section Spec.
Context {D : Type} `{RegDevice D} {base : Z} {core : AxiUart D base}.
Context {A : Type} (callback : Z -> Z -> Z -> A -> A).
Abbreviation st := (uart_state D A).

Definition vw (s : st) : uart_view := uview s.(udev).
Definition at_base (s : st) : Prop := s.(uart).(RegBaseAddress) = base.

(** Nothing but the device changed. *)
Record same_driver (s s' : st) : Prop := {
  sd_uart : s'.(uart) = s.(uart);
  sd_mem : s'.(umem) = s.(umem);
  sd_app : s'.(app) = s.(app) }.

Lemma status_spec (s : st) : at_base s -> exists v s', get_status s = Ok (v, s') /\ same_driver s s' /\ moved (vw s) (vw s') /\ is_u8 v /\
  tst v XUL_SR_TX_FIFO_FULL = (XUL_FIFO_SIZE <=? length (vw s').(u_tx))%nat /\ tst v XUL_SR_TX_FIFO_EMPTY = is_nil (vw s').(u_tx) /\
  tst v XUL_SR_RX_FIFO_VALID_DATA = negb (is_nil (vw s').(u_rx)) /\ tst v XUL_SR_INTR_ENABLED = (vw s').(u_ie).
Proof.
  intros Hb. unfold get_status, ufield. rewrite bind_gets. unfold XUartLite_GetStatusReg, XUartLite_ReadReg. rewrite Hb.
  pose proof (ur_status (udev s)) as [H1 H2]. pose proof (ur_tx_full (udev s)) as H3. pose proof (ur_tx_empty (udev s)) as H4.
  pose proof (ur_rx_valid (udev s)) as H5. pose proof (ur_ie (udev s)) as H6. cbv zeta in *. destruct (reg_read (udev s) (base + XUL_STATUS_REG_OFFSET)) as [d v].
  cbn [fst snd] in *. exists v, (s <| udev := d |>). split; [reflexivity|]. split; [now split|]. split; [now apply flows_moved|]. auto.
Qed.

Lemma control_spec (s : st) c : at_base s -> is_u32 c -> exists s' w, set_control c s = Ok (tt, s') /\ same_driver s s' /\ moved (vw s) w /\ vw s' = uart_control w c.
Proof.
  intros Hb Hc. unfold set_control, ufield. rewrite bind_gets. unfold XUartLite_WriteReg. rewrite Hb, u32_id by exact Hc.
  destruct (uw_control (udev s) c) as (w & Hf & E). exists (s <| udev := reg_write (udev s) (base + XUL_CONTROL_REG_OFFSET) c |>), w.
  split; [reflexivity|]. split; [now split|]. split; [now apply flows_moved|exact E].
Qed.

Lemma enable_bit v : v .& XUL_CR_ENABLE_INTR = if tst v XUL_SR_INTR_ENABLED then XUL_CR_ENABLE_INTR else 0.
Proof.
  change XUL_CR_ENABLE_INTR with (2 ^ 4). change XUL_SR_INTR_ENABLED with (2 ^ 4). rewrite tst_bit, land_pow2 by lia. reflexivity.
Qed.

Lemma enable_u32 (b : bool) : is_u32 (if b then XUL_CR_ENABLE_INTR else 0).
Proof. destruct b; unfold is_u32, XUL_CR_ENABLE_INTR; lia. Qed.

Lemma push_spec (s : st) c : at_base s -> exists s' w, XUartLite_WriteReg base XUL_TX_FIFO_OFFSET c s = Ok (tt, s') /\ same_driver s s' /\
  moved (vw s) w /\ vw s' = uart_push w (u32 c).
Proof.
  intros Hb. unfold XUartLite_WriteReg. destruct (uw_data (udev s) (u32 c)) as (w & Hf & E). eexists _, w. split; [reflexivity|]. split; [now split|].
  split; [now apply flows_moved|exact E].
Qed.

Lemma u8_u32 c : u8 (u32 c) = u8 c.
Proof. unfold u8, u32. apply Z.mod_mod_divide. now exists 16777216. Qed.

Lemma push_pushed v w x : moved v w -> (length w.(u_tx) < XUL_FIFO_SIZE)%nat -> pushed v (uart_push w x) [u8 x].
Proof.
  intros Hm Hl. apply (moved_traffic _ w); [exact Hm|]. unfold uart_push. rewrite (proj2 (Nat.ltb_lt _ _) Hl).
  split; unfold u_sent; cbn [u_line u_tx u_ie u_in u_rx with_field].
  - now rewrite app_assoc.
  - exists []. now rewrite app_nil_r.
  - rewrite length_app. lia.
  - reflexivity.
  - exists []. rewrite !app_nil_r. repeat split. constructor.
Qed.

Lemma same_driver_refl (s : st) : same_driver s s.
Proof. now split. Qed.
Lemma same_driver_trans (s1 s2 s3 : st) : same_driver s1 s2 -> same_driver s2 s3 -> same_driver s1 s3.
Proof. intros [A1 A2 A3] [B1 B2 B3]. split; congruence. Qed.

(** The bytes from the [i]th of the send buffer on. *)
Definition send_bytes (m : Z -> Z) (p : Z) (i : Z) (k : nat) : list Z := map u8 (load_bytes m (p + i) k).

Lemma send_bytes_S m p i k : send_bytes m p i (S k) = u8 (m (p + i)) :: send_bytes m p (i + 1) k.
Proof. unfold send_bytes. cbn [load_bytes map]. now rewrite Z.add_assoc. Qed.

(** The loop stops when all bytes are in the FIFO or it is full. *)
Lemma fill_spec : forall n (s : st) status i T, let b := s.(uart).(SendBuffer) in at_base s -> 0 <= i <= b.(Remaining) -> (Z.to_nat (b.(Remaining) - i) <= n)%nat ->
  is_u8 status -> (tst status XUL_SR_TX_FIFO_FULL = false -> (length (vw s).(u_tx) < XUL_FIFO_SIZE)%nat) ->
  (length (vw s).(u_tx) <= T)%nat -> (tst status XUL_SR_TX_FIFO_FULL = true -> (XUL_FIFO_SIZE <= T)%nat) ->
  exists k s', fill_fifo n status i s = Ok (i + Z.of_nat k, s') /\ same_driver s s' /\ i + Z.of_nat k <= b.(Remaining) /\
    pushed (vw s) (vw s') (send_bytes s.(umem) b.(NextBytePtr) i k) /\
    (i + Z.of_nat k = b.(Remaining) \/ (XUL_FIFO_SIZE <= T + k)%nat).
Proof.
  assert (Hfull : forall v, (v .& XUL_SR_TX_FIFO_FULL =? 0) = negb (tst v XUL_SR_TX_FIFO_FULL)) by (intros v; unfold tst; now rewrite negb_involutive).
  induction n as [|n IH]; intros s status i T b Hb Hi Hn Hst Hno HT Hyes; cbn [fill_fifo]; unfold ufield; rewrite bind_gets, Hfull; fold b.
  - rewrite (proj2 (Z.ltb_ge i (Remaining b))), andb_false_r by lia. exists 0%nat, s. rewrite Z.add_0_r.
    split; [reflexivity|]. split; [apply same_driver_refl|]. split; [lia|]. split; [apply moved_refl|left; lia].
  - destruct (tst status XUL_SR_TX_FIFO_FULL) eqn:Ef; cbn [negb andb].
    { exists 0%nat, s. rewrite Z.add_0_r. split; [reflexivity|]. split; [apply same_driver_refl|]. split; [lia|]. split; [apply moved_refl|right; specialize (Hyes eq_refl); lia]. }
    destruct (Z.ltb_spec i (Remaining b)) as [Hlt|Hge].
    2:{ exists 0%nat, s. rewrite Z.add_0_r. split; [reflexivity|]. split; [apply same_driver_refl|]. split; [lia|]. split; [apply moved_refl|left; lia]. }
    rewrite !bind_gets. rewrite Hb. destruct (push_spec s (umem s (NextBytePtr b + i)) Hb) as (s1 & w & E1 & Hsd1 & Hm1 & Ev1). rewrite (bind_ok _ _ _ _ _ E1).
    assert (Hb1 : at_base s1) by (unfold at_base; now rewrite (sd_uart _ _ Hsd1)).
    destruct (status_spec s1 Hb1) as (v & s2 & E2 & Hsd2 & Hm2 & Hv & Hfl & _). rewrite (bind_ok _ _ _ _ _ E2). rewrite (u8_id v) by exact Hv.
    pose proof (same_driver_trans _ _ _ Hsd1 Hsd2) as Hsd.
    assert (Hp : pushed (vw s) (vw s2) [u8 (umem s (NextBytePtr b + i))]).
    { apply (traffic_moved _ (vw s1)); [|exact Hm2]. rewrite Ev1, <- u8_u32. apply push_pushed; [exact Hm1|].
      pose proof (tr_tx _ _ _ _ Hm1) as Hl. cbn [length] in Hl. specialize (Hno eq_refl). lia. }
    destruct (IH s2 v (i + 1) (S T)) as (k & s' & E & Hsd' & Hk & Hp' & Hend); rewrite ?(sd_uart _ _ Hsd); fold b; try lia.
    + unfold at_base. now rewrite (sd_uart _ _ Hsd).
    + exact Hv.
    + rewrite Hfl. intros Hf. now apply Nat.leb_gt in Hf.
    + pose proof (tr_tx _ _ _ _ Hp) as Hl. cbn [length] in Hl. lia.
    + rewrite Hfl. intros Hf. apply Nat.leb_le in Hf. pose proof (tr_tx _ _ _ _ Hp) as Hl. cbn [length] in Hl. lia.
    + rewrite (sd_uart _ _ Hsd) in Hk, Hp', Hend. rewrite (sd_mem _ _ Hsd) in Hp'. fold b in Hk, Hp', Hend.
      exists (S k), s'. split; [rewrite E; do 2 f_equal; lia|]. split; [exact (same_driver_trans _ _ _ Hsd Hsd')|]. split; [lia|]. rewrite send_bytes_S.
      split; [exact (traffic_trans _ _ _ _ _ _ _ Hp Hp')|]. destruct Hend as [Hend|Hend]; [left; lia|right; lia].
Qed.

Lemma traffic_ie v w bs rs b : traffic v w bs rs -> traffic (v <| u_ie := b |>) (w <| u_ie := b |>) bs rs.
Proof. intros [A1 A2 A3 A4 A5]. split; assumption || reflexivity. Qed.

Lemma control_bit w (b : bool) : uart_control w (if b then XUL_CR_ENABLE_INTR else 0) = w <| u_ie := b |>.
Proof. now destruct b, w. Qed.

(** A critical region: interrupts off, [bs] given to the transmitter,
    [rs] taken from the receiver, and the old setting again. *)
Lemma critical v1 v2 w v3 v4 v5 (b : bool) bs rs : moved v1 v2 -> moved v2 w -> v3 = w <| u_ie := false |> -> traffic v3 v4 bs rs -> moved v4 v5 -> b = v2.(u_ie) ->
  traffic v1 (v5 <| u_ie := b |>) bs rs.
Proof.
  intros H1 H2 -> H4 H5 ->. apply (moved_traffic _ v2); [exact H1|]. apply (moved_traffic _ w); [exact H2|].
  assert (E : forall x : uart_view, x <| u_ie := false |> <| u_ie := x.(u_ie) |> = x) by (now intros []).
  rewrite <- (tr_ie _ _ _ _ H2). pose proof (traffic_ie _ _ _ _ w.(u_ie) (traffic_moved _ _ _ _ _ H4 H5)) as Hp. rewrite E in Hp. exact Hp.
Qed.

Definition sent_more (k : nat) (u : XUartLite) : XUartLite :=
  u <| SendBuffer := u.(SendBuffer) <| NextBytePtr := u.(SendBuffer).(NextBytePtr) + Z.of_nat k |> <| Remaining := u.(SendBuffer).(Remaining) - Z.of_nat k |> |>
    <| UStats := u.(UStats) <| CharactersTransmitted := u32 (u.(UStats).(CharactersTransmitted) + Z.of_nat k) |> |>.

(** [XUartLite_SendBuffer] when no interrupt comes in between. *)
Lemma send_buffer_spec (s : st) : let b := s.(uart).(SendBuffer) in at_base s -> is_u32 b.(Remaining) ->
  exists k s', XUartLite_SendBuffer (ret tt) s = Ok (Z.of_nat k, s') /\ s'.(uart) = sent_more k s.(uart) /\ s'.(umem) = s.(umem) /\ s'.(app) = s.(app) /\
    Z.of_nat k <= b.(Remaining) /\ pushed (vw s) (vw s') (send_bytes s.(umem) b.(NextBytePtr) 0 k) /\
    (Z.of_nat k = b.(Remaining) \/ (XUL_FIFO_SIZE <= length (vw s).(u_tx) + k)%nat).
Proof.
  intros b Hb Hr. unfold XUartLite_SendBuffer. rewrite !bind_ret.
  destruct (status_spec s Hb) as (v0 & s0 & E0 & Sd0 & M0 & _). rewrite (bind_ok _ _ _ _ _ E0), bind_ret.
  assert (B0 : at_base s0) by (unfold at_base; now rewrite (sd_uart _ _ Sd0)).
  destruct (status_spec s0 B0) as (v & s1 & E1 & Sd1 & M1 & Hv & Hfull & _ & _ & Hie). rewrite (bind_ok _ _ _ _ _ E1), bind_ret.
  assert (B1 : at_base s1) by (unfold at_base; now rewrite (sd_uart _ _ Sd1)).
  destruct (control_spec s1 0 B1 ltac:(word_lia)) as (s2 & w2 & E2 & Sd2 & M2 & V2). rewrite (bind_ok _ _ _ _ _ E2).
  pose proof (same_driver_trans _ _ _ Sd0 (same_driver_trans _ _ _ Sd1 Sd2)) as Sd. unfold ufield. rewrite bind_gets, (sd_uart _ _ Sd). fold b.
  assert (B2 : at_base s2) by (unfold at_base; now rewrite (sd_uart _ _ Sd)). rewrite (u8_id v) by exact Hv.
  change 0 with (if false then XUL_CR_ENABLE_INTR else 0) in V2. rewrite control_bit in V2.
  assert (Htx : (length (u_tx (vw s2)) <= length (u_tx (vw s1)))%nat) by (rewrite V2; pose proof (tr_tx _ _ _ _ M2) as Hl; cbn [u_tx length with_field] in *; lia).
  destruct (fill_spec (Z.to_nat (Remaining b)) s2 v 0 (length (u_tx (vw s1)))) as (k & s3 & E3 & Sd3 & Hk & P3 & Hend); rewrite ?(sd_uart _ _ Sd); fold b; try assumption; try (unfold is_u32 in Hr; lia).
  { rewrite Hfull. intros Hf. apply Nat.leb_gt in Hf. lia. }
  { rewrite Hfull. intros Hf. now apply Nat.leb_le in Hf. }
  rewrite (sd_uart _ _ Sd), (sd_mem _ _ Sd) in *. fold b in Hk, P3, Hend. rewrite (bind_ok _ _ _ _ _ E3), Z.add_0_l in *.
  pose proof (same_driver_trans _ _ _ Sd Sd3) as Sd'. unfold ustat, uupd. rewrite !bind_modify. match goal with |- context [bind (set_control _) _ ?x] => set (s4 := x) end.
  assert (Hu4 : uart s4 = sent_more k (uart s)).
  { unfold s4. cbn [uart with_field]. rewrite (sd_uart _ _ Sd'). unfold sent_more. fold b. rewrite (u32_id (Remaining b - _)) by (unfold is_u32 in Hr; word_lia). reflexivity. }
  assert (B4 : at_base s4) by (unfold at_base; rewrite Hu4; exact Hb). rewrite enable_bit.
  destruct (control_spec s4 (if tst v XUL_SR_INTR_ENABLED then XUL_CR_ENABLE_INTR else 0) B4) as (s5 & w5 & E5 & Sd5 & M5 & V5); [apply enable_u32|].
  rewrite (bind_ok _ _ _ _ _ E5). exists k, s5. split; [reflexivity|]. split; [now rewrite (sd_uart _ _ Sd5)|].
  split; [rewrite (sd_mem _ _ Sd5); exact (sd_mem _ _ Sd')|]. split; [rewrite (sd_app _ _ Sd5); exact (sd_app _ _ Sd')|]. split; [exact Hk|]. rewrite control_bit in V5. split.
  - rewrite V5. apply (moved_traffic _ (vw s0)); [exact M0|]. exact (critical _ _ _ _ _ _ _ _ _ M1 M2 V2 P3 M5 Hie).
  - destruct Hend as [Hend|Hend]; [now left|right]. pose proof (tr_tx _ _ _ _ M0). pose proof (tr_tx _ _ _ _ M1). cbn [length] in *. lia.
Qed.
(** *** Receiving *)

Lemma pop_traffic w x l : w.(u_rx) = x :: l -> traffic w (uart_pop w) [] [x].
Proof.
  intros Hrx. unfold uart_pop. split; unfold u_sent; cbn [u_line u_tx u_ie u_in u_rx with_field length].
  - now rewrite app_nil_r.
  - exists []. now rewrite app_nil_r.
  - lia.
  - reflexivity.
  - exists []. rewrite !app_nil_r, Hrx. repeat split. constructor.
Qed.

Lemma data_spec (s : st) x l : at_base s -> (vw s).(u_rx) = x :: l ->
  exists s', XUartLite_ReadReg base XUL_RX_FIFO_OFFSET s = Ok (x, s') /\ same_driver s s' /\ traffic (vw s) (vw s') [] [x].
Proof.
  intros Hb Hx. unfold XUartLite_ReadReg. pose proof (ur_data (udev s)) as (w & Hf & Ew & Hd). cbv zeta in *.
  destruct (reg_read (udev s) (base + XUL_RX_FIFO_OFFSET)) as [d c]. cbn [fst snd] in *. apply flows_moved in Hf.
  destruct (tr_in _ _ _ _ Hf) as (i & _ & Hrx & _). cbn [Datatypes.app] in Hrx. fold (vw s) in Hrx. rewrite Hx in Hrx. symmetry in Hrx. specialize (Hd _ _ Hrx). subst c.
  exists (s <| udev := d |>). split; [reflexivity|]. split; [now split|]. apply (moved_traffic _ w); [exact Hf|].
  change (vw (s <| udev := d |>)) with (uview d). rewrite Ew. exact (pop_traffic _ _ _ Hrx).
Qed.

Lemma update_stats_spec v (s : st) : exists t, XUartLite_UpdateStats v s = Ok (tt, s <| uart := s.(uart) <| UStats := t |> |>).
Proof.
  unfold XUartLite_UpdateStats, ustat, uupd. destruct s as [[] ? ? ?]. destruct (tst v XUL_SR_OVERRUN_ERROR), (tst v XUL_SR_PARITY_ERROR), (tst v XUL_SR_FRAMING_ERROR); eexists; reflexivity.
Qed.

(** The loop stops when the buffer is full or the FIFO is empty. *)
Lemma drain_spec : forall n (s : st) i, let b := s.(uart).(ReceiveBuffer) in at_base s -> 0 <= i <= b.(Remaining) -> (Z.to_nat (b.(Remaining) - i) <= n)%nat ->
  exists rs t s', drain_fifo n i s = Ok (i + Z.of_nat (length rs), s') /\ s'.(uart) = s.(uart) <| UStats := t |> /\ s'.(app) = s.(app) /\
    s'.(umem) = store_bytes s.(umem) (b.(NextBytePtr) + i) rs /\ i + Z.of_nat (length rs) <= b.(Remaining) /\ traffic (vw s) (vw s') [] rs /\
    (i + Z.of_nat (length rs) = b.(Remaining) \/ (vw s').(u_rx) = []).
Proof.
  induction n as [|n IH]; intros s i b Hb Hi Hn; cbn [drain_fifo]; unfold ufield; rewrite bind_gets; fold b.
  - rewrite (proj2 (Z.ltb_ge i (Remaining b))) by lia. exists [], (UStats (uart s)), s. rewrite Z.add_0_r. split; [reflexivity|]. split; [now destruct (uart s)|].
    split; [reflexivity|]. split; [reflexivity|]. split; [lia|]. split; [apply moved_refl|left; lia].
  - destruct (Z.ltb_spec i (Remaining b)) as [Hlt|Hge].
    2:{ exists [], (UStats (uart s)), s. rewrite Z.add_0_r. split; [reflexivity|]. split; [now destruct (uart s)|].
      split; [reflexivity|]. split; [reflexivity|]. split; [lia|]. split; [apply moved_refl|left; lia]. }
    destruct (status_spec s Hb) as (v & s1 & E1 & Sd1 & M1 & Hv & _ & _ & Hval & _). rewrite (bind_ok _ _ _ _ _ E1), (u8_id v), Hval by exact Hv.
    destruct (u_rx (vw s1)) as [|x l] eqn:Ex; cbn [is_nil negb].
    { exists [], (UStats (uart s)), s1. rewrite Z.add_0_r. split; [reflexivity|]. split; [rewrite (sd_uart _ _ Sd1); now destruct (uart s)|].
      split; [exact (sd_app _ _ Sd1)|]. split; [exact (sd_mem _ _ Sd1)|]. split; [lia|]. split; [exact M1|now right]. }
    assert (B1 : at_base s1) by (unfold at_base; now rewrite (sd_uart _ _ Sd1)). rewrite bind_gets, B1.
    destruct (data_spec s1 x l B1 Ex) as (s2 & E2 & Sd2 & M2). rewrite (bind_ok _ _ _ _ _ E2), bind_modify. pose proof (same_driver_trans _ _ _ Sd1 Sd2) as Sd.
    match goal with |- context [bind (XUartLite_UpdateStats _) _ ?y] => set (s3 := y) end.
    destruct (update_stats_spec v s3) as (t & E4). rewrite (bind_ok _ _ _ _ _ E4). set (s4 := s3 <| uart := _ |>) in *.
    assert (U4 : uart s4 = (uart s) <| UStats := t |>) by (unfold s4, s3; cbn [uart with_field]; now rewrite (sd_uart _ _ Sd)).
    assert (R4 : ReceiveBuffer (uart s4) = b) by now rewrite U4.
    assert (M4 : umem s4 = store8 (umem s) (NextBytePtr b + i) x) by (unfold s4, s3; cbn [umem with_field]; now rewrite (sd_mem _ _ Sd)).
    destruct (IH s4 (i + 1)) as (rs & t' & s' & E & U' & A' & M' & Hle & T' & Hend); rewrite ?R4; try lia.
    { unfold at_base. rewrite U4. exact Hb. }
    rewrite R4 in M', Hle, Hend. exists (x :: rs), t', s'. cbn [length]. rewrite Nat2Z.inj_succ. split; [rewrite E; do 2 f_equal; lia|].
    split; [rewrite U', U4; now destruct (uart s)|]. split; [rewrite A'; exact (sd_app _ _ Sd)|]. split; [rewrite M', M4; cbn [store_bytes]; f_equal; lia|]. split; [lia|].
    split; [|destruct Hend as [Hend|Hend]; [left; lia|now right]]. apply (moved_traffic _ (vw s1)); [exact M1|]. exact (traffic_trans _ _ _ _ _ _ _ M2 T').
Qed.
Definition got_more (k : nat) (u : XUartLite) : XUartLite :=
  u <| ReceiveBuffer := u.(ReceiveBuffer) <| NextBytePtr := u.(ReceiveBuffer).(NextBytePtr) + Z.of_nat k |> <| Remaining := u.(ReceiveBuffer).(Remaining) - Z.of_nat k |> |>.

Lemma drained v w v3 v4 rs : moved v w -> traffic v3 v4 [] rs -> u_rx v3 = u_rx w -> u_rx v4 = [] -> (length (u_rx v) <= length rs)%nat.
Proof.
  intros Hm Ht E3 E4. destruct (tr_in _ _ _ _ Hm) as (l & _ & El & _). destruct (tr_in _ _ _ _ Ht) as (l' & _ & El' & _). rewrite E3, E4, app_nil_r in El'. cbn [Datatypes.app] in El.
  apply (f_equal (@length Z)) in El, El'. rewrite !length_app in El, El'. lia.
Qed.

(** [XUartLite_ReceiveBuffer] when no interrupt comes in between: it takes what
    the FIFO held at the call, unless the buffer is full. *)
Lemma receive_buffer_spec (s : st) : let b := s.(uart).(ReceiveBuffer) in at_base s -> is_u32 b.(Remaining) ->
  exists rs t s', XUartLite_ReceiveBuffer (ret tt) s = Ok (Z.of_nat (length rs), s') /\ s'.(uart) = (got_more (length rs) s.(uart)) <| UStats := t |> /\
    s'.(app) = s.(app) /\ s'.(umem) = store_bytes s.(umem) b.(NextBytePtr) rs /\ Z.of_nat (length rs) <= b.(Remaining) /\ traffic (vw s) (vw s') [] rs /\
    (Z.of_nat (length rs) = b.(Remaining) \/ (length (vw s).(u_rx) <= length rs)%nat).
Proof.
  intros b Hb Hr. unfold XUartLite_ReceiveBuffer. rewrite !bind_ret.
  destruct (status_spec s Hb) as (v & s1 & E1 & Sd1 & M1 & Hv & _ & _ & _ & Hie). rewrite (bind_ok _ _ _ _ _ E1), bind_ret.
  assert (B1 : at_base s1) by (unfold at_base; now rewrite (sd_uart _ _ Sd1)).
  destruct (control_spec s1 0 B1 ltac:(word_lia)) as (s2 & w2 & E2 & Sd2 & M2 & V2). rewrite (bind_ok _ _ _ _ _ E2).
  pose proof (same_driver_trans _ _ _ Sd1 Sd2) as Sd. unfold ufield. rewrite bind_gets, (sd_uart _ _ Sd). fold b.
  assert (B2 : at_base s2) by (unfold at_base; now rewrite (sd_uart _ _ Sd)). rewrite (u8_id v) by exact Hv.
  change 0 with (if false then XUL_CR_ENABLE_INTR else 0) in V2. rewrite control_bit in V2.
  destruct (drain_spec (Z.to_nat (Remaining b)) s2 0) as (rs & t & s3 & E3 & U3 & A3 & M3 & Hle & T3 & Hend); rewrite ?(sd_uart _ _ Sd); fold b; try assumption; try (unfold is_u32 in Hr; lia).
  rewrite (sd_uart _ _ Sd), ?(sd_mem _ _ Sd) in *. fold b in Hle, M3, Hend. rewrite (bind_ok _ _ _ _ _ E3), ?Z.add_0_l, ?Z.add_0_r in *.
  unfold ustat, uupd. rewrite !bind_modify. match goal with |- context [bind (set_control _) _ ?y] => set (s4 := y) end.
  assert (Hu4 : exists t', uart s4 = (got_more (length rs) (uart s)) <| UStats := t' |>).
  { eexists. unfold s4. cbn [uart with_field]. rewrite U3. unfold got_more. cbn [ReceiveBuffer with_field]. fold b. rewrite (u32_id (Remaining b - _)) by (unfold is_u32 in Hr; word_lia). reflexivity. }
  destruct Hu4 as (t' & Hu4). assert (B4 : at_base s4) by (unfold at_base; rewrite Hu4; exact Hb). rewrite enable_bit.
  destruct (control_spec s4 (if tst v XUL_SR_INTR_ENABLED then XUL_CR_ENABLE_INTR else 0) B4) as (s5 & w5 & E5 & Sd5 & M5 & V5); [apply enable_u32|].
  rewrite (bind_ok _ _ _ _ _ E5). exists rs, t', s5. split; [reflexivity|]. split; [now rewrite (sd_uart _ _ Sd5)|].
  split; [rewrite (sd_app _ _ Sd5); unfold s4; cbn [app with_field]; rewrite A3; exact (sd_app _ _ Sd)|]. split; [rewrite (sd_mem _ _ Sd5); exact M3|]. split; [exact Hle|].
  rewrite control_bit in V5. pose proof (critical _ _ _ _ _ _ _ _ _ M1 M2 V2 T3 M5 Hie) as Hc. split; [rewrite V5; exact Hc|].
  destruct Hend as [Hend|Hend]; [now left|right]. refine (drained _ _ _ _ _ (moved_traffic _ _ _ _ _ M1 M2) T3 _ Hend). now rewrite V2.
Qed.

(** A critical region that sets the instance up. *)
Lemma arm_spec (s : st) f : at_base s -> at_base (s <| uart := f s.(uart) |>) ->
  exists s', (forall B (k : UM B), bind (ret tt) (fun _ => bind get_status (fun v => bind (ret tt) (fun _ => bind (set_control 0) (fun _ =>
    bind (uupd f) (fun _ => bind (set_control (v .& XUL_CR_ENABLE_INTR)) (fun _ => k)))))) s = k s') /\
    s'.(uart) = f s.(uart) /\ s'.(umem) = s.(umem) /\ s'.(app) = s.(app) /\ moved (vw s) (vw s').
Proof.
  intros Hb Hf. destruct (status_spec s Hb) as (v & s1 & E1 & Sd1 & M1 & Hv & _ & _ & _ & Hie).
  assert (B1 : at_base s1) by (unfold at_base; now rewrite (sd_uart _ _ Sd1)).
  destruct (control_spec s1 0 B1 ltac:(word_lia)) as (s2 & w2 & E2 & Sd2 & M2 & V2). pose proof (same_driver_trans _ _ _ Sd1 Sd2) as Sd.
  set (s3 := s2 <| uart := f (uart s2) |>). assert (B3 : at_base s3) by (unfold at_base, s3; cbn [uart with_field]; rewrite (sd_uart _ _ Sd); exact Hf).
  destruct (control_spec s3 (v .& XUL_CR_ENABLE_INTR) B3) as (s5 & w5 & E5 & Sd5 & M5 & V5); [rewrite enable_bit; apply enable_u32|].
  exists s5. split.
  { intros B k. rewrite bind_ret, (bind_ok _ _ _ _ _ E1), bind_ret, (bind_ok _ _ _ _ _ E2). unfold uupd. rewrite bind_modify. fold s3. now rewrite (bind_ok _ _ _ _ _ E5). }
  split; [rewrite (sd_uart _ _ Sd5); unfold s3; cbn [uart with_field]; now rewrite (sd_uart _ _ Sd)|].
  split; [rewrite (sd_mem _ _ Sd5); exact (sd_mem _ _ Sd)|]. split; [rewrite (sd_app _ _ Sd5); exact (sd_app _ _ Sd)|].
  rewrite enable_bit, control_bit in V5. change 0 with (if false then XUL_CR_ENABLE_INTR else 0) in V2. rewrite control_bit in V2. rewrite V5.
  exact (critical _ _ _ _ _ _ _ _ _ M1 M2 V2 (moved_refl _) M5 Hie).
Qed.
End Spec.
Arguments at_base {D} base {A} s.
