(* ===== verification/UartSession.v ===== *)
(** * A transfer in both directions over the UART

    The application posts a receive buffer and a send buffer and leaves the rest
    to the interrupt handler.  [duplex] is what the driver promises while time
    passes and interrupts come: what was sent is a prefix of the send buffer, what
    arrived is in the receive buffer in order, and the callbacks come when a
    buffer is done. *)

From Stdlib Require Import ZArith List Lia Bool.
From S2P Require Import Prelude XSpi SpiCore Spi UartLite UartSpec.
Import ListNotations Regs.
Open Scope Z_scope.
Open Scope c_scope.

Section Handlers.
Context {D : Type} `{RegDevice D} {base : Z} {core : AxiUart D base}.
Context {A : Type} (callback : Z -> Z -> Z -> A -> A).
Abbreviation st := (uart_state D A).

Lemma receive_handler_spec (s : st) h : let b := s.(uart).(ReceiveBuffer) in
  at_base base s -> is_u32 b.(Remaining) -> s.(uart).(RecvHandler) = AppHandler h ->
  exists rs t s', ReceiveDataHandler callback s = Ok (tt, s') /\ s'.(uart) = (got_more (length rs) s.(uart)) <| UStats := t |> /\
    s'.(app) = (if b.(Remaining) - Z.of_nat (length rs) =? 0 then callback h s.(uart).(RecvCallBackRef) (u32 b.(Requested)) s.(app) else s.(app)) /\
    s'.(umem) = store_bytes s.(umem) b.(NextBytePtr) rs /\ Z.of_nat (length rs) <= b.(Remaining) /\ traffic (vw s) (vw s') [] rs /\
    (Z.of_nat (length rs) = b.(Remaining) \/ (length (vw s).(u_rx) <= length rs)%nat).
Proof.
  intros b Hb Hr Hh. unfold ReceiveDataHandler, ufield. rewrite bind_gets. fold b.
  assert (Hfirst : exists rs t s1, (when negb (Remaining b =? 0) then (XUartLite_ReceiveBuffer (ret tt) ;; ret tt)) s = Ok (tt, s1) /\
    s1.(uart) = (got_more (length rs) s.(uart)) <| UStats := t |> /\ s1.(app) = s.(app) /\ s1.(umem) = store_bytes s.(umem) b.(NextBytePtr) rs /\
    Z.of_nat (length rs) <= b.(Remaining) /\ traffic (vw s) (vw s1) [] rs /\ (Z.of_nat (length rs) = b.(Remaining) \/ (length (vw s).(u_rx) <= length rs)%nat)).
  { destruct (Z.eqb_spec (Remaining b) 0) as [E0|E0]; cbn [negb].
    - exists [], (UStats (uart s)), s. split; [reflexivity|]. split; [|split; [reflexivity|split; [reflexivity|split; [cbn; lia|split; [apply moved_refl|left; cbn; lia]]]]].
      unfold got_more. cbn [length]. rewrite Z.add_0_r, Z.sub_0_r. now destruct s as [[? ? ? ? [] ? ? ? ?] ? ? ?].
    - destruct (receive_buffer_spec s Hb Hr) as (rs & t & s1 & E1 & F). exists rs, t, s1. rewrite (bind_ok _ _ _ _ _ E1). split; [reflexivity|exact F]. }
  destruct Hfirst as (rs & t & s1 & E1 & U1 & A1 & M1 & Hle & T1 & Hend). rewrite (bind_ok _ _ _ _ _ E1), bind_gets. cbv beta zeta.
  replace (RecvHandler (uart s1)) with (AppHandler h) by now rewrite U1. replace (RecvCallBackRef (uart s1)) with (RecvCallBackRef (uart s)) by now rewrite U1.
  replace (ReceiveBuffer (uart s1)) with (mkUBuf (NextBytePtr b + Z.of_nat (length rs)) (Requested b) (Remaining b - Z.of_nat (length rs))) by now rewrite U1.
  cbn [Remaining Requested]. unfold call, ustat, uupd. destruct (Z.eqb_spec (Remaining b - Z.of_nat (length rs)) 0) as [E|E].
  - rewrite bind_modify, E, Z.sub_0_r. eexists rs, _, _. split; [reflexivity|]. cbn [uart app umem with_field]. rewrite U1, A1, (proj2 (Z.eqb_eq _ _) E).
    split; [reflexivity|]. split; [reflexivity|]. split; [exact M1|]. split; [exact Hle|]. split; [exact T1|exact Hend].
  - rewrite bind_ret. eexists rs, _, _. split; [reflexivity|]. cbn [uart app umem with_field]. rewrite U1, (proj2 (Z.eqb_neq _ _) E).
    split; [reflexivity|]. split; [exact A1|]. split; [exact M1|]. split; [exact Hle|]. split; [exact T1|exact Hend].
Qed.

(** Nothing left: the callback; otherwise the next bytes. *)
Lemma send_handler_spec (s : st) h : let b := s.(uart).(SendBuffer) in
  at_base base s -> is_u32 b.(Remaining) -> s.(uart).(SendHandler) = AppHandler h ->
  exists k t s', SendDataHandler callback s = Ok (tt, s') /\ s'.(umem) = s.(umem) /\
    pushed (vw s) (vw s') (send_bytes s.(umem) b.(NextBytePtr) 0 k) /\ Z.of_nat k <= b.(Remaining) /\
    if b.(Remaining) =? 0 then
      s'.(uart) = s.(uart) <| SendBuffer := b <| Requested := 0 |> |> <| UStats := t |> /\ s'.(app) = callback h s.(uart).(SendCallBackRef) b.(Requested) s.(app)
    else s'.(uart) = (sent_more k s.(uart)) <| UStats := t |> /\ s'.(app) = s.(app) /\
      (Z.of_nat k = b.(Remaining) \/ (XUL_FIFO_SIZE <= length (vw s).(u_tx) + k)%nat).
Proof.
  intros b Hb Hr Hh. unfold SendDataHandler, ufield, ustat, uupd, call. rewrite bind_gets. cbv beta zeta. fold b. rewrite Hh.
  destruct (Z.eqb_spec (Remaining b) 0) as [E|E].
  - eexists 0%nat, _, _. split; [reflexivity|]. cbn [uart app umem with_field]. split; [reflexivity|]. split; [apply moved_refl|]. split; [lia|]. now split.
  - destruct (send_buffer_spec s Hb Hr) as (k & s1 & E1 & U1 & M1 & A1 & Hk & P1 & Hend). rewrite bind_assoc, (bind_ok _ _ _ _ _ E1), bind_ret.
    eexists k, _, _. split; [reflexivity|]. cbn [uart app umem with_field]. rewrite U1. split; [exact M1|]. split; [exact P1|]. split; [exact Hk|].
    split; [reflexivity|]. split; [exact A1|exact Hend].
Qed.
End Handlers.

(** ** The session *)

(** The calls the application saw: function, reference, byte count. *)
Definition calls := list (Z * Z * Z).
Definition log_call (id ref n : Z) (l : calls) : calls := l ++ [(id, ref, n)].
Definition calls_of (id : Z) (l : calls) : calls := filter (fun c => fst (fst c) =? id) l.

(** The buffers and the handlers of a session. *)
Record session := mkSession { se_send : Z; se_n : Z; se_recv : Z; se_m : Z; se_hs : Z; se_sref : Z; se_hr : Z; se_rref : Z }.

Record session_ok (e : session) : Prop := {
  so_n : 0 < e.(se_n) < 2147483648;
  so_m : 0 <= e.(se_m) < 2147483648;
  so_send : e.(se_send) <> NULL;
  so_recv : e.(se_recv) <> NULL;
  so_apart : e.(se_send) + e.(se_n) <= e.(se_recv) \/ e.(se_recv) + e.(se_m) <= e.(se_send);
  so_handlers : e.(se_hs) <> e.(se_hr) }.

Section Session.
Context {D : Type} `{RegDevice D} {base : Z} {core : AxiUart D base}.
Abbreviation st := (uart_state D calls).
(** The session; the view of the core, the contents of the send buffer and the
    log at its start. *)
Context (e : session) (v0 : uart_view) (B : list Z) (log0 : calls).

(** The number of bytes given to the transmitter. *)
Definition sent_count (s : st) : Z := e.(se_n) - s.(uart).(SendBuffer).(Remaining).
Definition got_count (s : st) : Z := e.(se_m) - s.(uart).(ReceiveBuffer).(Remaining).
Definition completed (s : st) : bool := s.(uart).(SendBuffer).(Requested) =? 0.

Record duplex (s : st) : Prop := {
  dx_base : at_base base s;
  dx_sh : s.(uart).(SendHandler) = AppHandler e.(se_hs) /\ s.(uart).(SendCallBackRef) = e.(se_sref);
  dx_rh : s.(uart).(RecvHandler) = AppHandler e.(se_hr) /\ s.(uart).(RecvCallBackRef) = e.(se_rref);
  dx_send : 0 <= sent_count s <= e.(se_n) /\ s.(uart).(SendBuffer).(NextBytePtr) = e.(se_send) + sent_count s;
  dx_recv : 0 <= got_count s <= e.(se_m) /\ s.(uart).(ReceiveBuffer).(NextBytePtr) = e.(se_recv) + got_count s /\
    s.(uart).(ReceiveBuffer).(Requested) = e.(se_m);
  dx_bytes : send_bytes s.(umem) e.(se_send) 0 (Z.to_nat e.(se_n)) = B;
  dx_traffic : exists got, traffic v0 (vw s) (firstn (Z.to_nat (sent_count s)) B) got /\
    Z.of_nat (length got) = got_count s /\ load_bytes s.(umem) e.(se_recv) (length got) = map u8 got;
  dx_done : if completed s then s.(uart).(SendBuffer).(Remaining) = 0 /\ (vw s).(u_tx) = [] else s.(uart).(SendBuffer).(Requested) = e.(se_n);
  dx_log : exists ev, s.(app) = log0 ++ ev /\ calls_of e.(se_hs) ev = (if completed s then [(e.(se_hs), e.(se_sref), e.(se_n))] else []) /\
    forall c, In c ev -> c = (e.(se_hs), e.(se_sref), e.(se_n)) \/ c = (e.(se_hr), e.(se_rref), e.(se_m)) /\ s.(uart).(ReceiveBuffer).(Remaining) = 0 }.

Hypothesis Hok : session_ok e.

Lemma moved_tx v w : moved v w -> v.(u_tx) = [] -> w.(u_tx) = [].
Proof. intros Hm E. pose proof (tr_tx _ _ _ _ Hm) as Hl. rewrite E in Hl. cbn [length] in Hl. apply length_zero_iff_nil. lia. Qed.

(** Time passes. *)
Lemma duplex_time s s' : duplex s -> same_driver s s' -> moved (vw s) (vw s') -> duplex s'.
Proof.
  intros [X1 X2 X3 X4 X5 X6 (got & X7 & X8) X9 X10] [E1 E2 E3] Hm. unfold sent_count, got_count, completed, at_base in *.
  split; unfold sent_count, got_count, completed, at_base; rewrite ?E1, ?E2, ?E3; try assumption.
  - exists got. split; [exact (traffic_moved _ _ _ _ _ X7 Hm)|exact X8].
  - destruct (_ =? 0); [|exact X9]. split; [apply X9|]. exact (moved_tx _ _ Hm (proj2 X9)).
Qed.

Lemma store_apart m p rs q n : p + Z.of_nat n <= q \/ q + Z.of_nat (length rs) <= p -> load_bytes (store_bytes m q rs) p n = load_bytes m p n.
Proof. intros Hd. apply load_bytes_ext. intros a Ha. apply store_bytes_outside. lia. Qed.

(** The receive interrupt. *)
Lemma duplex_receive s : duplex s -> exists s', ReceiveDataHandler log_call s = Ok (tt, s') /\ duplex s' /\ s'.(uart).(SendBuffer) = s.(uart).(SendBuffer) /\
  ((vw s).(u_tx) = [] -> (vw s').(u_tx) = []) /\
  (s'.(uart).(ReceiveBuffer).(Remaining) = 0 \/ (length (vw s).(u_rx) <= Z.to_nat (got_count s' - got_count s))%nat).
Proof.
  intros [X1 X2 X3 X4 X5 X6 (got & X7 & X8 & X9) X10 (ev & X11 & X12 & X13)]. pose proof (so_m _ Hok) as Hm.
  destruct (receive_handler_spec log_call s (se_hr e) X1) as (rs & t & s' & E & U & Ap & Me & Hle & Tr & Hend); [unfold got_count in *; word_lia|apply X3|].
  exists s'. split; [exact E|]. assert (Es : SendBuffer (uart s') = SendBuffer (uart s)) by now rewrite U.
  assert (Eg : got_count s' = got_count s + Z.of_nat (length rs)) by (unfold got_count; rewrite U; cbn [ReceiveBuffer Remaining got_more with_field]; lia).
  assert (Er : Remaining (ReceiveBuffer (uart s')) = Remaining (ReceiveBuffer (uart s)) - Z.of_nat (length rs)) by now rewrite U.
  split; [|split; [exact Es|split; [|unfold got_count in *; lia]]].
  2:{ intros Et. pose proof (tr_tx _ _ _ _ Tr) as Hl. rewrite Et in Hl. cbn [length] in Hl. apply length_zero_iff_nil. lia. }
  destruct X5 as (X5 & X5' & X5''). pose proof (so_n _ Hok) as Hn. pose proof (so_apart _ Hok) as Hap.
  assert (Ec : completed s' = completed s) by (unfold completed; now rewrite Es). assert (En : sent_count s' = sent_count s) by (unfold sent_count; now rewrite Es).
  split; rewrite ?Ec, ?Es, ?En; try assumption.
  - unfold at_base. rewrite U. exact X1.
  - rewrite U. exact X2.
  - rewrite U. exact X3.
  - rewrite Eg. split; [unfold got_count in *; lia|]. rewrite U. cbn [ReceiveBuffer NextBytePtr Requested got_more with_field]. split; [lia|exact X5''].
  - rewrite <- X6, Me. unfold send_bytes. rewrite store_apart; [reflexivity|]. unfold got_count in *. lia.
  - exists (got ++ rs). split; [rewrite <- (app_nil_r (firstn _ _)); exact (traffic_trans _ _ _ _ _ _ _ X7 Tr)|]. rewrite length_app, Eg. split; [lia|].
    rewrite load_bytes_app, map_app, Me, X5'. replace (se_recv e + Z.of_nat (length got)) with (se_recv e + got_count s) by lia. rewrite load_store_bytes. f_equal.
    rewrite store_apart by lia. exact X9.
  - destruct (completed s); [|exact X10]. split; [apply X10|]. pose proof (tr_tx _ _ _ _ Tr) as Hl. rewrite (proj2 X10) in Hl. cbn [length] in Hl. apply length_zero_iff_nil. lia.
  - rewrite Er. rewrite Ap. destruct (Z.eqb_spec (Remaining (ReceiveBuffer (uart s)) - Z.of_nat (length rs)) 0) as [E0|E0].
    + exists (ev ++ [(se_hr e, se_rref e, se_m e)]). unfold log_call. rewrite X11, (proj2 X3), X5'', u32_id by word_lia. split; [now rewrite app_assoc|].
      unfold calls_of in *. rewrite filter_app, X12. cbn [filter fst]. rewrite (proj2 (Z.eqb_neq (se_hr e) (se_hs e))) by (intros Eh; now apply (so_handlers _ Hok)).
      split; [apply app_nil_r|]. intros c Hc. apply in_app_iff in Hc. destruct Hc as [Hc|[<-|[]]]; [|right; now split].
      destruct (X13 c Hc) as [Hc'|[Hc' _]]; [now left|right; now split].
    + exists ev. split; [exact X11|]. split; [exact X12|]. intros c Hc. destruct (X13 c Hc) as [Hc'|[Hc' Hc'']]; [now left|]. exfalso. lia.
Qed.
Lemma send_bytes_firstn m p n i k : (i + k <= n)%nat ->
  firstn (i + k) (send_bytes m p 0 n) = firstn i (send_bytes m p 0 n) ++ send_bytes m (p + Z.of_nat i) 0 k.
Proof.
  intros Hle. assert (F : forall j, (j <= n)%nat -> firstn j (send_bytes m p 0 n) = send_bytes m p 0 j).
  { intros j Hj. unfold send_bytes. replace n with (j + (n - j))%nat by lia. rewrite load_bytes_app, map_app, firstn_app, firstn_all2 by (rewrite length_map, length_load_bytes; lia).
    rewrite length_map, length_load_bytes, Nat.sub_diag. apply app_nil_r. }
  rewrite !F by lia. unfold send_bytes. now rewrite load_bytes_app, map_app, !Z.add_0_r.
Qed.

(** The interrupts with an empty transmitter that are still needed. *)
Definition irqs_left (s : st) : nat := if completed s then 0%nat else S (Z.to_nat ((s.(uart).(SendBuffer).(Remaining) + 15) / 16)).

(** The send interrupt: the transmitter was found empty. *)
Lemma duplex_sending s : duplex s -> completed s = false -> (vw s).(u_tx) = [] -> exists s', SendDataHandler log_call s = Ok (tt, s') /\ duplex s' /\ (irqs_left s' <= pred (irqs_left s))%nat.
Proof.
  intros [X1 X2 X3 [X4 X4'] X5 X6 (got & X7 & X8 & X9) X10 (ev & X11 & X12 & X13)] Hc Htx. pose proof (so_n _ Hok) as Hn. rewrite Hc in *.
  set (r := Remaining (SendBuffer (uart s))) in *. assert (Hr : 0 <= r <= se_n e) by (unfold sent_count in X4; fold r in X4; lia).
  destruct (send_handler_spec log_call s (se_hs e) X1) as (k & t & s' & E & M & P & Hk & F); [fold r; word_lia|apply X2|]. fold r in Hk, F.
  exists s'. split; [exact E|]. destruct (Z.eqb_spec r 0) as [E0|E0].
  - destruct F as [U Ap]. assert (k = 0%nat) by lia. subst k. assert (Hc' : completed s' = true) by (unfold completed; now rewrite U). assert (Hr' : Remaining (SendBuffer (uart s')) = 0) by now rewrite U.
    split; [|unfold irqs_left; rewrite Hc'; lia]. assert (En : sent_count s' = sent_count s) by (unfold sent_count; now rewrite U). assert (Eg : got_count s' = got_count s) by (unfold got_count; now rewrite U).
    split; rewrite ?Hc', ?En, ?Eg, ?M; try (rewrite U; assumption || (split; assumption)).
    + unfold at_base. rewrite U. exact X1.
    + exact X6.
    + exists got. split; [exact (traffic_moved _ _ _ _ _ X7 P)|now split].
    + split; [exact Hr'|]. exact (moved_tx _ _ P Htx).
    + exists (ev ++ [(se_hs e, se_sref e, se_n e)]). rewrite Ap. unfold log_call. rewrite X11, (proj2 X2), X10. split; [now rewrite app_assoc|].
      unfold calls_of in *. rewrite filter_app, X12. cbn [filter fst]. rewrite Z.eqb_refl. split; [reflexivity|].
      intros c Hcin. apply in_app_iff in Hcin. destruct Hcin as [Hcin|[<-|[]]]; [|now left]. rewrite U. exact (X13 c Hcin).
  - destruct F as (U & Ap & Hend). assert (Hc' : completed s' = false) by (unfold completed; rewrite U; exact Hc).
    assert (Hr' : Remaining (SendBuffer (uart s')) = r - Z.of_nat k) by now rewrite U.
    assert (En : sent_count s' = sent_count s + Z.of_nat k) by (unfold sent_count; rewrite Hr'; fold r; lia). assert (Eg : got_count s' = got_count s) by (unfold got_count; now rewrite U).
    split.
    + split; rewrite ?Hc', ?Eg, ?M; try (rewrite U; assumption || (split; assumption)).
      * unfold at_base. rewrite U. exact X1.
      * rewrite En. split; [unfold sent_count in *; fold r in X4 |- *; lia|]. rewrite U. cbn [SendBuffer NextBytePtr sent_more with_field]. lia.
      * exact X6.
      * exists got. split; [|now split]. rewrite En, Z2Nat.inj_add, Nat2Z.id by lia. rewrite <- X6, send_bytes_firstn by (unfold sent_count in *; fold r in X4 |- *; lia).
        rewrite X6, Z2Nat.id, <- X4' by lia. rewrite <- (app_nil_r got). exact (traffic_trans _ _ _ _ _ _ _ X7 P).
      * exists ev. rewrite U, Ap. now split.
    + unfold irqs_left. rewrite Hc, Hc', Hr'. fold r. cbn [Nat.pred]. rewrite Htx in Hend. cbn [length] in Hend. unfold XUL_FIFO_SIZE in Hend.
      assert (r - Z.of_nat k + 15 <= r + 15 - 16 \/ r - Z.of_nat k = 0) as [Hd|Hd] by lia.
      * apply (Z.div_le_mono _ _ 16) in Hd; [|lia]. replace ((r + 15 - 16) / 16) with ((r + 15) / 16 - 1) in Hd by (replace (r + 15 - 16) with (r + 15 + (-1) * 16) by lia; rewrite Z.div_add; lia). 
        assert (1 <= (r + 15) / 16) by (apply Z.div_le_lower_bound; lia). lia.
      * rewrite Hd. change ((0 + 15) / 16) with 0. assert (1 <= (r + 15) / 16) by (apply Z.div_le_lower_bound; lia). lia.
Qed.

Lemma duplex_requested s : duplex s -> (Requested (SendBuffer (uart s)) >? 0) = negb (completed s).
Proof.
  intros X. pose proof (dx_done _ X) as Hd. unfold completed in *. destruct (Z.eqb_spec (Requested (SendBuffer (uart s))) 0) as [E|E]; [now rewrite E|].
  rewrite Hd. pose proof (so_n _ Hok). cbn [negb]. apply Z.gtb_lt. lia.
Qed.

Lemma left_eq s s' : SendBuffer (uart s') = SendBuffer (uart s) -> irqs_left s' = irqs_left s.
Proof. intros E. unfold irqs_left, completed. now rewrite E. Qed.

(** The interrupt handler. *)
Lemma duplex_irq s : duplex s -> exists s', XUartLite_InterruptHandler log_call s = Ok (tt, s') /\ duplex s' /\
  (irqs_left s' <= irqs_left s)%nat /\ ((vw s).(u_tx) = [] -> (irqs_left s' <= pred (irqs_left s))%nat).
Proof.
  intros X. unfold XUartLite_InterruptHandler. destruct (status_spec s (dx_base _ X)) as (v & s1 & E1 & Sd1 & M1 & Hv & _ & Hem & _ & _).
  rewrite (bind_ok _ _ _ _ _ E1). pose proof (duplex_time _ _ X Sd1 M1) as X1.
  assert (Hrecv : exists s2, (when negb (v .& (XUL_SR_RX_FIFO_FULL .| XUL_SR_RX_FIFO_VALID_DATA) =? 0) then ReceiveDataHandler log_call) s1 = Ok (tt, s2) /\
    duplex s2 /\ SendBuffer (uart s2) = SendBuffer (uart s1) /\ ((vw s1).(u_tx) = [] -> (vw s2).(u_tx) = [])).
  { destruct (negb _); [|exists s1; now split]. destruct (duplex_receive s1 X1) as (s2 & E2 & X2 & Es & Et & _). exists s2. now split. }
  destruct Hrecv as (s2 & E2 & X2 & Es & Et). rewrite (bind_ok _ _ _ _ _ E2). unfold ufield. rewrite bind_gets, (duplex_requested _ X2).
  change (negb (v .& XUL_SR_TX_FIFO_EMPTY =? 0)) with (tst v XUL_SR_TX_FIFO_EMPTY). rewrite Hem.
  assert (El : irqs_left s2 = irqs_left s) by (rewrite (left_eq s1 s2 Es); apply left_eq; now rewrite (sd_uart _ _ Sd1)).
  destruct (is_nil (u_tx (vw s1)) && negb (completed s2)) eqn:Ec.
  - apply andb_prop in Ec. destruct Ec as [En Ec]. apply negb_true_iff in Ec. destruct (u_tx (vw s1)) eqn:Ex; [|discriminate En].
    destruct (duplex_sending s2 X2 Ec (Et eq_refl)) as (s3 & E3 & X3 & Hl). exists s3. rewrite <- El. split; [exact E3|]. split; [exact X3|]. split; [lia|]. now intros _.
  - exists s2. split; [reflexivity|]. split; [exact X2|]. rewrite El. split; [lia|]. intros Ex. rewrite (moved_tx _ _ M1 Ex) in Ec. cbn [is_nil andb] in Ec.
    apply negb_false_iff in Ec. rewrite <- El. unfold irqs_left. now rewrite Ec.
Qed.

(** A run: time passes and interrupts come; the number counts the interrupts
    that come with the transmitter empty. *)
Inductive runs : nat -> st -> st -> Prop :=
| runs_nil s : runs 0 s s
| runs_time n s d s' : flows (vw s) (uview d) -> runs n (s <| udev := d |>) s' -> runs n s s'
| runs_irq n s s1 s' : XUartLite_InterruptHandler log_call s = Ok (tt, s1) -> runs n s1 s' -> runs (if is_nil (vw s).(u_tx) then S n else n) s s'.

Lemma duplex_runs n s s' : runs n s s' -> duplex s -> duplex s' /\ (irqs_left s' <= irqs_left s - n)%nat.
Proof.
  induction 1 as [s|n s d s' Hf _ IH|n s s1 s' E _ IH]; intros X.
  - split; [exact X|lia].
  - apply IH. apply (duplex_time s); [exact X|now split|now apply flows_moved].
  - destruct (duplex_irq s X) as (s2 & E2 & X2 & L1 & L2). rewrite E in E2. injection E2 as <-. destruct (IH X2) as [IH1 IH2]. split; [exact IH1|].
    destruct (u_tx (vw s)); cbn [is_nil]; [specialize (L2 eq_refl)|]; lia.
Qed.
End Session.

(** ** Starting a session *)

Section Start.
Context {D : Type} `{RegDevice D} {base : Z} {core : AxiUart D base}.
Abbreviation st := (uart_state D calls).

(** An initialised driver with the handlers of the session. *)
Record prepared (e : session) (s : st) : Prop := {
  pr_base : at_base base s;
  pr_ready : s.(uart).(UIsReady) = XIL_COMPONENT_IS_READY;
  pr_sh : s.(uart).(SendHandler) = AppHandler e.(se_hs) /\ s.(uart).(SendCallBackRef) = e.(se_sref);
  pr_rh : s.(uart).(RecvHandler) = AppHandler e.(se_hr) /\ s.(uart).(RecvCallBackRef) = e.(se_rref) }.

Definition start (e : session) : UM (D := D) (A := calls) Z :=
  XUartLite_Recv (ret tt) e.(se_recv) e.(se_m) ;;
  XUartLite_Send (ret tt) e.(se_send) e.(se_n).

Lemma buffer_asserts {X} (s : st) p n (k : UM (D := D) (A := calls) X) : p <> NULL -> 0 <= n < 2147483648 -> s.(uart).(UIsReady) = XIL_COMPONENT_IS_READY ->
  (Xil_Assert (negb (p =? NULL)) ;; ready ;; Xil_Assert (s32 n >=? 0) ;; k) s = k s.
Proof.
  intros Hp Hn Hr. rewrite bind_assert by now apply negb_true_iff, Z.eqb_neq. unfold ready, ufield. rewrite bind_assoc, bind_gets, Hr, bind_assert by apply Z.eqb_refl.
  apply bind_assert. unfold s32. rewrite u32_id by word_lia. destruct (Z.ltb_spec n 2147483648); apply Z.geb_le; lia.
Qed.

Lemma recv_spec (s : st) p m : at_base base s -> s.(uart).(UIsReady) = XIL_COMPONENT_IS_READY -> p <> NULL -> 0 <= m < 2147483648 ->
  exists rs t s', XUartLite_Recv (ret tt) p m s = Ok (Z.of_nat (length rs), s') /\
    s'.(uart) = (got_more (length rs) (s.(uart) <| ReceiveBuffer := mkUBuf p m m |>)) <| UStats := t |> /\ s'.(app) = s.(app) /\
    s'.(umem) = store_bytes s.(umem) p rs /\ Z.of_nat (length rs) <= m /\ traffic (vw s) (vw s') [] rs.
Proof.
  intros Hb Hrdy Hp Hm. unfold XUartLite_Recv. rewrite buffer_asserts by assumption.
  destruct (arm_spec s (fun u => u <| ReceiveBuffer := mkUBuf p m m |>) Hb ltac:(unfold at_base; exact Hb)) as (s1 & E1 & U1 & M1 & A1 & T1). rewrite E1.
  assert (B1 : at_base base s1) by (unfold at_base; rewrite U1; exact Hb).
  destruct (receive_buffer_spec s1 B1) as (rs & t & s2 & E2 & U2 & A2 & M2 & Hle & T2 & _); [rewrite U1; cbn [ReceiveBuffer Remaining with_field]; word_lia|].
  exists rs, t, s2. rewrite U1 in M2, Hle. split; [exact E2|]. split; [rewrite U2, U1; reflexivity|]. split; [now rewrite A2|].
  split; [rewrite M2, M1; reflexivity|]. split; [exact Hle|]. exact (moved_traffic _ _ _ _ _ T1 T2).
Qed.

Lemma send_spec (s : st) p n : at_base base s -> s.(uart).(UIsReady) = XIL_COMPONENT_IS_READY -> p <> NULL -> 0 <= n < 2147483648 ->
  exists k s', XUartLite_Send (ret tt) p n s = Ok (Z.of_nat k, s') /\ s'.(uart) = sent_more k (s.(uart) <| SendBuffer := mkUBuf p n n |>) /\
    s'.(app) = s.(app) /\ s'.(umem) = s.(umem) /\ Z.of_nat k <= n /\ pushed (vw s) (vw s') (send_bytes s.(umem) p 0 k).
Proof.
  intros Hb Hrdy Hp Hn. unfold XUartLite_Send. rewrite buffer_asserts by assumption.
  destruct (arm_spec s (fun u => u <| SendBuffer := mkUBuf p n n |>) Hb ltac:(unfold at_base; exact Hb)) as (s1 & E1 & U1 & M1 & A1 & T1). rewrite E1.
  assert (B1 : at_base base s1) by (unfold at_base; rewrite U1; exact Hb).
  destruct (send_buffer_spec s1 B1) as (k & s2 & E2 & U2 & M2 & A2 & Hle & T2 & _); [rewrite U1; cbn [SendBuffer Remaining with_field]; word_lia|].
  exists k, s2. rewrite U1 in Hle, T2. split; [exact E2|]. split; [now rewrite U2, U1|]. split; [now rewrite A2|]. split; [now rewrite M2|]. split; [exact Hle|].
  rewrite M1 in T2. exact (moved_traffic _ _ _ _ _ T1 T2).
Qed.

Lemma duplex_start e (s : st) : session_ok e -> prepared e s -> exists k s', start e s = Ok (k, s') /\
  duplex e (vw s) (send_bytes s.(umem) e.(se_send) 0 (Z.to_nat e.(se_n))) s.(app) s' /\ (irqs_left s' <= S (Z.to_nat ((e.(se_n) + 15) / 16)))%nat.
Proof.
  intros Hok [P1 P2 P3 P4]. pose proof (so_n _ Hok) as Hn. pose proof (so_m _ Hok) as Hm. unfold start.
  destruct (recv_spec s (se_recv e) (se_m e) P1 P2 (so_recv _ Hok) Hm) as (rs & t & s1 & E1 & U1 & A1 & M1 & Hle1 & T1). rewrite (bind_ok _ _ _ _ _ E1).
  assert (B1 : at_base base s1) by (unfold at_base; rewrite U1; exact P1).
  destruct (send_spec s1 (se_send e) (se_n e) B1 ltac:(now rewrite U1) (so_send _ Hok) ltac:(lia)) as (k & s2 & E2 & U2 & A2 & M2 & Hle2 & T2).
  exists (Z.of_nat k), s2. split; [exact E2|]. pose proof (so_apart _ Hok) as Hap.
  assert (Hload : forall n, (n <= Z.to_nat (se_n e))%nat -> load_bytes (umem s1) (se_send e) n = load_bytes (umem s) (se_send e) n) by (intros n Hle; rewrite M1; apply store_apart; lia).
  assert (En : sent_count e s2 = Z.of_nat k) by (unfold sent_count; rewrite U2; cbn [SendBuffer Remaining sent_more with_field]; lia).
  assert (Eg : got_count e s2 = Z.of_nat (length rs)) by (unfold got_count; rewrite U2, U1; cbn [ReceiveBuffer Remaining sent_more got_more with_field]; lia).
  assert (Hc : completed s2 = false) by (unfold completed; rewrite U2; cbn [SendBuffer Requested sent_more with_field]; apply Z.eqb_neq; lia).
  split.
  - split; rewrite ?En, ?Eg, ?Hc, ?M2.
    + unfold at_base. rewrite U2. exact B1.
    + rewrite U2, U1. exact P3.
    + rewrite U2, U1. exact P4.
    + rewrite U2. split; [lia|reflexivity].
    + rewrite U2, U1. split; [lia|]. split; reflexivity.
    + unfold send_bytes. rewrite Z.add_0_r. now rewrite Hload.
    + exists rs. rewrite M1, load_store_bytes, Nat2Z.id. split; [|split; reflexivity].
      replace (firstn k _) with (send_bytes (umem s1) (se_send e) 0 k).
      2:{ unfold send_bytes. rewrite Z.add_0_r, Hload by lia. replace (Z.to_nat (se_n e)) with (k + (Z.to_nat (se_n e) - k))%nat by lia.
          rewrite load_bytes_app, map_app, firstn_app, firstn_all2 by (rewrite length_map, length_load_bytes; lia). rewrite length_map, length_load_bytes, Nat.sub_diag. symmetry. apply app_nil_r. }
      pose proof (traffic_trans _ _ _ _ _ _ _ T1 T2) as T. rewrite app_nil_r in T. exact T.
    + rewrite U2. reflexivity.
    + exists []. rewrite A2, A1, app_nil_r. split; [reflexivity|]. split; [reflexivity|]. intros c [].
  - unfold irqs_left. rewrite Hc. apply le_n_S, Z2Nat.inj_le; try (apply Z.div_pos; lia); [|apply Z.div_le_mono; unfold sent_count in En; lia].
    apply Z.div_pos; [|lia]. unfold sent_count in En. lia.
Qed.
End Start.
Arguments prepared {D} base e s.
