(* ===== verification/UartBoard.v ===== *)
(** * The UART driver on a concrete core

    The properties of a session, a soft core on which they are exercised, and
    the race between [XUartLite_SendBuffer] and the interrupt handler. *)

From Stdlib Require Import ZArith List Lia Bool.
From S2P Require Import Prelude XSpi SpiCore Spi UartLite UartSpec UartSession.
Import ListNotations Regs.
Open Scope Z_scope.
Open Scope c_scope.

Section Properties.
Context {D : Type} `{RegDevice D} {base : Z} {core : AxiUart D base}.

(** C21: After [XUartLite_Recv] and [XUartLite_Send], whatever the core does
    within its laws and however often the interrupt handler runs, the handler
    returns and [duplex] holds: the bytes given to the transmitter are the first
    [n - RemainingBytes] of the send buffer, in order and once; the receive
    buffer holds what arrived, in order; the send callback came once with the
    byte count if the transfer is complete and not before; the receive callback
    came only with a full buffer. *)
Theorem uart_duplex e (s : uart_state D calls) : session_ok e -> prepared base e s ->
  exists k s1, start e s = Ok (k, s1) /\ forall i s', runs i s1 s' ->
    duplex e (vw s) (send_bytes s.(umem) e.(se_send) 0 (Z.to_nat e.(se_n))) s.(app) s' /\
    exists s'', XUartLite_InterruptHandler log_call s' = Ok (tt, s'').
Proof.
  intros Hok Hp. destruct (duplex_start e s Hok Hp) as (k & s1 & E & X & _). exists k, s1. split; [exact E|].
  intros i s' Hr. destruct (duplex_runs _ _ _ _ Hok _ _ _ Hr X) as [X' _]. split; [exact X'|].
  destruct (duplex_irq _ _ _ _ Hok _ X') as (s'' & E' & _). now exists s''.
Qed.

(** C23: After [ceil(n/16) + 1] interrupts that find the transmitter empty
    the transfer is complete: the send callback came, once, with the byte count,
    and the whole buffer has left on the line. *)
Theorem uart_send_completes e (s : uart_state D calls) : session_ok e -> prepared base e s ->
  exists k s1, start e s = Ok (k, s1) /\ forall i s', runs i s1 s' -> (e.(se_n) + 15) / 16 < Z.of_nat i ->
    (vw s').(u_line) = u_sent (vw s) ++ send_bytes s.(umem) e.(se_send) 0 (Z.to_nat e.(se_n)) /\
    exists ev, s'.(app) = s.(app) ++ ev /\ calls_of e.(se_hs) ev = [(e.(se_hs), e.(se_sref), e.(se_n))].
Proof.
  intros Hok Hp. pose proof (so_n _ Hok) as Hn. destruct (duplex_start e s Hok Hp) as (k & s1 & E & X & Hl). exists k, s1. split; [exact E|].
  intros i s' Hr Hi. destruct (duplex_runs _ _ _ _ Hok _ _ _ Hr X) as [X' Hl'].
  assert (Hq : 0 <= (se_n e + 15) / 16) by (apply Z.div_pos; lia).
  assert (Hc : completed s' = true) by (assert (E0 : irqs_left s' = 0%nat) by lia; unfold irqs_left in E0; now destruct (completed s')).
  destruct X' as [_ _ _ _ _ _ (got & T & _) Hd (ev & Ea & Ec & _)]. rewrite Hc in *. destruct Hd as [Hrem Htx]. split; [|now exists ev].
  pose proof (tr_sent _ _ _ _ T) as Hs. unfold u_sent at 1 in Hs. rewrite Htx, app_nil_r in Hs. rewrite Hs. f_equal. apply firstn_all2.
  unfold send_bytes. rewrite length_map, length_load_bytes. unfold sent_count. lia.
Qed.
End Properties.

(** ** A soft core

    At every access it does what its schedule says: a byte leaves or not, a byte
    arrives or not; after the schedule a byte leaves at every access. *)

Record soft_uart := mkSoftUart { sv : uart_view; sched : list (bool * option Z) }.

Definition soft_leave (v : uart_view) : uart_view :=
  match v.(u_tx) with [] => v | b :: t => v <| u_tx := t |> <| u_line := v.(u_line) ++ [b] |> end.
Definition soft_arrive (v : uart_view) (x : Z) : uart_view :=
  if (length v.(u_rx) <? XUL_FIFO_SIZE)%nat then v <| u_rx := v.(u_rx) ++ [u8 x] |> <| u_in := v.(u_in) ++ [u8 x] |> else v.
Definition utick (d : soft_uart) : soft_uart :=
  match d.(sched) with
  | [] => mkSoftUart (soft_leave d.(sv)) []
  | (leaves, arrives) :: l =>
      let v := if leaves : bool then soft_leave d.(sv) else d.(sv) in
      mkSoftUart (match arrives with Some x => soft_arrive v x | None => v end) l
  end.

Definition soft_status (v : uart_view) : Z :=
  (if u_ie v then XUL_SR_INTR_ENABLED else 0) .|
  (if (XUL_FIFO_SIZE <=? length v.(u_tx))%nat then XUL_SR_TX_FIFO_FULL else 0) .|
  (if is_nil v.(u_tx) then XUL_SR_TX_FIFO_EMPTY else 0) .|
  (if (XUL_FIFO_SIZE <=? length v.(u_rx))%nat then XUL_SR_RX_FIFO_FULL else 0) .|
  (if is_nil v.(u_rx) then 0 else XUL_SR_RX_FIFO_VALID_DATA).

Section Soft.
Context (base : Z).

Definition uread (d : soft_uart) (a : Z) : soft_uart * Z :=
  let d := utick d in
  if a - base =? XUL_STATUS_REG_OFFSET then (d, soft_status d.(sv))
  else if a - base =? XUL_RX_FIFO_OFFSET then (mkSoftUart (uart_pop d.(sv)) d.(sched), hd 0 d.(sv).(u_rx))
  else (d, 0).
Definition uwrite (d : soft_uart) (a x : Z) : soft_uart :=
  let d := utick d in
  if a - base =? XUL_CONTROL_REG_OFFSET then mkSoftUart (uart_control d.(sv) x) d.(sched)
  else if a - base =? XUL_TX_FIFO_OFFSET then mkSoftUart (uart_push d.(sv) x) d.(sched)
  else d.
#[export] Instance soft_uart_regs : RegDevice soft_uart := { reg_read := uread; reg_write := uwrite }.

Lemma flows_trans u v w : flows u v -> flows v w -> flows u w.
Proof. induction 1; intros; [assumption| |]; [eapply flows_send; eauto|eapply flows_recv; eauto]. Qed.
Lemma soft_leave_flows v : flows v (soft_leave v).
Proof. unfold soft_leave. destruct (u_tx v) as [|b t] eqn:E; [constructor|]. eapply flows_send; [exact E|constructor]. Qed.
Lemma soft_arrive_flows v x : flows v (soft_arrive v x).
Proof.
  unfold soft_arrive. destruct (Nat.ltb_spec (length (u_rx v)) XUL_FIFO_SIZE); [|constructor]. eapply flows_recv; [|exact H|constructor]. unfold is_u8, u8. apply Z.mod_pos_bound. lia.
Qed.
Lemma utick_flows d : flows (sv d) (sv (utick d)).
Proof.
  unfold utick. destruct (sched d) as [|[[] [x|]] l]; cbn [sv]; try apply soft_leave_flows; try constructor; try apply soft_arrive_flows.
  eapply flows_trans; [apply soft_leave_flows|apply soft_arrive_flows].
Qed.

Lemma soft_status_bits v : is_u8 (soft_status v) /\
  tst (soft_status v) XUL_SR_TX_FIFO_FULL = (XUL_FIFO_SIZE <=? length v.(u_tx))%nat /\ tst (soft_status v) XUL_SR_TX_FIFO_EMPTY = is_nil v.(u_tx) /\
  tst (soft_status v) XUL_SR_RX_FIFO_VALID_DATA = negb (is_nil v.(u_rx)) /\ tst (soft_status v) XUL_SR_INTR_ENABLED = v.(u_ie).
Proof.
  unfold soft_status. destruct (u_ie v), (XUL_FIFO_SIZE <=? length (u_tx v))%nat, (is_nil (u_tx v)), (XUL_FIFO_SIZE <=? length (u_rx v))%nat, (is_nil (u_rx v));
    (split; [unfold is_u8; vm_compute; split; congruence|repeat split]).
Qed.

#[export] Instance soft_uart_laws : AxiUart soft_uart base.
Proof.
  refine {| uview := sv |}; intros d; cbv zeta; cbn [reg_read reg_write soft_uart_regs]; unfold uread, uwrite; rewrite ?base_off.
  - change (XUL_STATUS_REG_OFFSET =? XUL_STATUS_REG_OFFSET) with true. cbn [fst snd]. split; [apply utick_flows|apply soft_status_bits].
  - apply soft_status_bits.
  - apply soft_status_bits.
  - apply soft_status_bits.
  - apply soft_status_bits.
  - exists (sv (utick d)). split; [apply utick_flows|]. split; [reflexivity|]. intros b l. cbn. now intros ->.
  - intros c. exists (sv (utick d)). split; [apply utick_flows|reflexivity].
  - intros c. exists (sv (utick d)). split; [apply utick_flows|reflexivity].
Defined.
End Soft.

(** ** A session on the soft core *)

Module Demo.
Definition UB := STDOUT_BASEADDRESS.
#[local] Instance regs : RegDevice soft_uart := soft_uart_regs UB.
#[local] Instance laws : AxiUart soft_uart UB := soft_uart_laws UB.

(** 40 bytes to send, room for 3, the callbacks 1 (send) and 2 (receive). *)
Definition demo : session := mkSession 0x1000 40 0x2000 3 1 11 2 22.
Definition ram : Z -> Z := fun a => if (0x1000 <=? a) && (a <? 0x1028) then a - 0x1000 + 1 else 0.
Definition idle (l : list (bool * option Z)) : uart_state soft_uart calls :=
  mkUSt (mkUartLite (mkUStats 0 0 0 0 0 0 0) UB XIL_COMPONENT_IS_READY (mkUBuf NULL 0 0) (mkUBuf NULL 0 0) (AppHandler 2) 22 (AppHandler 1) 11)
    (mkSoftUart (mkUView [] [] true [] []) l) ram [].

Lemma demo_ok : session_ok demo.
Proof. split; cbn; (discriminate || lia). Qed.
Lemma idle_prepared l : prepared UB demo (idle l).
Proof. now split. Qed.

Lemma uart_duplex_witness : exists k s1, start demo (idle [(true, Some 7)]) = Ok (k, s1) /\ forall i s', runs i s1 s' ->
  duplex demo (vw (idle [(true, Some 7)])) (map Z.of_nat (seq 1 40)) [] s' /\ exists s'', XUartLite_InterruptHandler log_call s' = Ok (tt, s'').
Proof. exact (uart_duplex demo (idle [(true, Some 7)]) demo_ok (idle_prepared _)). Defined.

Lemma uart_send_completes_witness : exists k s1, start demo (idle []) = Ok (k, s1) /\ forall i s', runs i s1 s' -> 55 / 16 < Z.of_nat i ->
  (vw s').(u_line) = map Z.of_nat (seq 1 40) /\ exists ev, s'.(app) = ev /\ calls_of 1 ev = [(1, 11, 40)].
Proof. exact (uart_send_completes demo (idle []) demo_ok (idle_prepared _)). Defined.
(** *** The race *)

(** The receive interrupt, taken when it is enabled and a byte is waiting. *)
Definition level_irq : UM (D := soft_uart) (A := calls) unit := fun s =>
  if (vw s).(u_ie) && negb (is_nil (vw s).(u_rx)) then XUartLite_InterruptHandler log_call s else Ok (tt, s).
Definition irqs (n : nat) : UM (D := soft_uart) (A := calls) unit := Nat.iter n (fun m => XUartLite_InterruptHandler log_call ;; m) (ret tt).

(** An idle driver with a receive buffer posted. *)
Definition listening (l : list (bool * option Z)) : uart_state soft_uart calls :=
  let s := idle l in s <| uart := s.(uart) <| ReceiveBuffer := mkUBuf 0x2000 3 3 |> |>.

(** What left on the line, and the send callbacks. *)
Definition observed (r : res (unit * uart_state soft_uart calls)) : option (list Z * calls) :=
  match r with Ok (_, s') => Some ((vw s').(u_line), calls_of 1 s'.(app)) | _ => None end.

(** A byte arrives at the fifth access, the second status read of
    [XUartLite_SendBuffer]; the line is slow for the first 60 accesses. *)
Definition slow_line : list (bool * option Z) := repeat (false, None) 4 ++ [(false, Some 7)] ++ repeat (false, None) 55.

(** [XUartLite_SendBuffer] reads the status before it disables
    interrupts.  When the receive interrupt comes in between, the handler fills
    the transmit FIFO from the new buffer and the status of the interrupted call
    is stale: the next byte is written to the full FIFO and lost, and counted as
    sent.  Of 40 bytes the 17th never leaves, and the send callback reports 40. *)
Theorem uart_send_race : observed ((XUartLite_Send level_irq 0x1000 40 ;; irqs 40) (listening slow_line)) =
  Some (map Z.of_nat (seq 1 16 ++ seq 18 23), [(1, 11, 40)]).
Proof. vm_compute. reflexivity. Qed.

(** The same transfer without the interrupt. *)
Example uart_send_no_race : observed ((XUartLite_Send (ret tt) 0x1000 40 ;; irqs 40) (listening slow_line)) =
  Some (map Z.of_nat (seq 1 40), [(1, 11, 40)]).
Proof. vm_compute. reflexivity. Qed.
End Demo.
