(* ===== verification/XilPrintf.v ===== *)
(** * Formatted output (bsp/.../standalone_v6_0/src/xil_printf.c, print.c)

    Characters are their codes; the characters a function passes to [outbyte]
    are its result, [None] if it reads behind the end of the format or takes an
    argument that is not there.  The specification [render] is given item by
    item for formats built from literal characters and directives. *)

From Stdlib Require Import ZArith List Lia Bool.
From S2P Require Import Prelude Def.
Import ListNotations.
Open Scope Z_scope.
Open Scope c_scope.

(** [struct params_s] *)
Record params_t := mkParams {
  par_len : Z; num1 : Z; num2 : Z; pad_character : Z; do_padding : Z; left_flag : Z; unsigned_flag : Z }.
#[export] Instance params_t_eta : Eta params_t := { eta := fun r =>
  mkParams r.(par_len) r.(num1) r.(num2) r.(pad_character) r.(do_padding) r.(left_flag) r.(unsigned_flag) }.

(** An argument: an integer or a string without its NUL. *)
Inductive arg := AInt (n : Z) | AStr (s : list Z).

(** [!x] *)
Definition bnot (x : Z) : Z := if x =? 0 then 1 else 0.

Definition padding (l_flag : Z) (par : params_t) : list Z :=
  if negb (par.(do_padding) =? 0) && negb (l_flag =? 0) && (par.(par_len) <? par.(num1))
  then repeat par.(pad_character) (Z.to_nat (par.(num1) - par.(par_len)))
  else [].

(** The loop until the end of the string, or until [num2] characters went out. *)
Fixpoint outs_loop (s : list Z) (num2 : Z) : list Z :=
  match s with
  | [] => []
  | c :: s => if num2 =? 0 then [] else c :: outs_loop s (num2 - 1)
  end.

Definition outs (lp : list Z) (par : params_t) : list Z :=
  let par := par <| par_len := Z.of_nat (length lp) |> in
  padding (bnot par.(left_flag)) par ++ outs_loop lp par.(num2) ++ padding par.(left_flag) par.

(** "0123456789ABCDEF" *)
Definition digits : list Z := [48; 49; 50; 51; 52; 53; 54; 55; 56; 57; 65; 66; 67; 68; 69; 70].

(** The [do ... while (num > 0)] loop: [outbuf], least significant digit first.
    [outbuf] has 32 characters. *)
Fixpoint outnum_digits (room : nat) (num base : Z) : option (list Z) :=
  match room with
  | O => None
  | S n =>
      let c := nth (Z.to_nat (num mod base)) digits 0 in
      let num := num / base in
      if num >? 0 then option_map (cons c) (outnum_digits n num base) else Some [c]
  end.

Definition outnum (n base : Z) (par : params_t) : option (list Z) :=
  let negative := (par.(unsigned_flag) =? 0) && (base =? 10) && (n <? 0) in
  let num := if negative then u32 (- n) else u32 n in
  let* outbuf := outnum_digits 30 num base in
  let outbuf := if negative then outbuf ++ [45] else outbuf in
  let par := par <| par_len := Z.of_nat (length outbuf) |> in
  Some (padding (bnot par.(left_flag)) par ++ rev outbuf ++ padding par.(left_flag) par).

Definition isdigit (c : Z) : bool := (48 <=? c) && (c <=? 57).
Definition tolower (c : Z) : Z := if (65 <=? c) && (c <=? 90) then c + 32 else c.

(** The number at the start of the format, and what follows it. *)
Fixpoint getnum (linep : list Z) (n : Z) : Z * list Z :=
  match linep with
  | c :: l => if isdigit c then getnum l (s32 (n * 10 + (c - 48))) else (n, linep)
  | [] => (n, [])
  end.

(** [va_arg] of an integer and of a string. *)
Definition va_int (argp : list arg) : option (Z * list arg) :=
  match argp with AInt n :: r => Some (n, r) | _ => None end.
Definition va_str (argp : list arg) : option (list Z * list arg) :=
  match argp with AStr s :: r => Some (s, r) | _ => None end.

Definition par0 : params_t := mkParams 0 0 32767 32 0 0 0.

(** From [try_next] on: [ctrl] is the format from the incremented pointer on.
    The result is what was written, the format and the arguments that are left. *)
Fixpoint directive (fuel : nat) (ctrl : list Z) (argp : list arg) (dot_flag : bool) (par : params_t)
    : option (list Z * list Z * list arg) :=
  match fuel, ctrl with
  | O, _ => None
  | S _, [] => None
  | S n, ch :: rest =>
      if isdigit ch then
        if dot_flag then
          let '(v, ctrl) := getnum ctrl 0 in
          directive n ctrl argp dot_flag (par <| num2 := v |>)
        else
          let par := if ch =? 48 then par <| pad_character := 48 |> else par in
          let '(v, ctrl) := getnum ctrl 0 in
          directive n ctrl argp dot_flag (par <| num1 := v |> <| do_padding := 1 |>)
      else
        let ch := tolower ch in
        if ch =? 37 (* % *) then Some ([37], rest, argp)
        else if ch =? 45 (* - *) then directive n rest argp dot_flag (par <| left_flag := 1 |>)
        else if ch =? 46 (* . *) then directive n rest argp true par
        else if ch =? 108 (* l *) then directive n rest argp dot_flag par
        else if (ch =? 117) || (ch =? 105) || (ch =? 100) (* u i d *) then
          let par := if ch =? 117 then par <| unsigned_flag := 1 |> else par in
          let* (v, argp) := va_int argp in
          let* out := outnum v 10 par in
          Some (out, rest, argp)
        else if (ch =? 112) || (ch =? 120) (* p x *) then
          let* (v, argp) := va_int argp in
          let* out := outnum v 16 (par <| unsigned_flag := 1 |>) in
          Some (out, rest, argp)
        else if ch =? 115 (* s *) then
          let* (s, argp) := va_str argp in
          Some (outs s par, rest, argp)
        else if ch =? 99 (* c *) then
          let* (v, argp) := va_int argp in
          Some ([u8 v], rest, argp)
        else if ch =? 92 (* backslash *) then
          match rest with
          | [] => None
          | _ :: rest =>
              let* (out, ctrl, argp) := directive n rest argp dot_flag par in
              Some (92 :: out, ctrl, argp)
          end
        else Some ([], rest, argp)
  end.

Fixpoint printf_loop (fuel : nat) (ctrl : list Z) (argp : list arg) : option (list Z) :=
  match fuel, ctrl with
  | _, [] => Some []
  | O, _ => None
  | S n, c :: l =>
      if negb (c =? 37) then option_map (cons c) (printf_loop n l argp)
      else
        let* (out, ctrl, argp) := directive (S (length l)) l argp false par0 in
        option_map (app out) (printf_loop n ctrl argp)
  end.

Definition xil_printf (ctrl1 : list Z) (args : list arg) : option (list Z) := printf_loop (length ctrl1) ctrl1 args.

(** print.c *)
Definition print (ptr : list Z) : list Z := ptr.

Example printf_hex : xil_printf [32; 37; 48; 50; 120] [AInt 10] = Some [32; 48; 65]. Proof. reflexivity. Qed.
Example printf_neg : xil_printf [37; 48; 53; 100] [AInt (-42)] = Some [48; 48; 45; 52; 50]. Proof. reflexivity. Qed.
Example printf_left : xil_printf [37; 45; 53; 100; 33] [AInt 42] = Some [52; 50; 32; 32; 32; 33]. Proof. reflexivity. Qed.

(** ** Numerals *)

Definition digit (d : Z) : Z := nth (Z.to_nat d) digits 0.
Definition digit_value (c : Z) : Z := if c <=? 57 then c - 48 else c - 55.

(** The number a string of digits stands for. *)
Definition value (base : Z) (s : list Z) : Z := fold_left (fun v c => base * v + digit_value c) s 0.

(** The canonical numeral of [n]. *)
Fixpoint numeral (fuel : nat) (base n : Z) : list Z :=
  match fuel with
  | O => []
  | S fuel => if n <? base then [digit n] else numeral fuel base (n / base) ++ [digit (n mod base)]
  end.

Lemma digit_value_digit d : 0 <= d < 16 -> digit_value (digit d) = d.
Proof.
  intros H. assert (Hd : In d (map Z.of_nat (seq 0 16))) by (apply in_map_iff; exists (Z.to_nat d); rewrite in_seq; lia).
  cbn in Hd. repeat (destruct Hd as [<-|Hd]; [reflexivity|]). contradiction.
Qed.

Lemma value_snoc base s c : value base (s ++ [c]) = base * value base s + digit_value c.
Proof. unfold value. now rewrite fold_left_app. Qed.

Lemma numeral_value base fuel : forall n, 2 <= base <= 16 -> 0 <= n < base ^ Z.of_nat fuel -> value base (numeral fuel base n) = n.
Proof.
  induction fuel as [|fuel IH]; intros n Hb Hn; [cbn in *; lia|]. cbn [numeral].
  destruct (Z.ltb_spec n base); [unfold value; cbn [fold_left]; rewrite digit_value_digit by lia; lia|].
  rewrite Nat2Z.inj_succ, Z.pow_succ_r in Hn by lia.
  rewrite value_snoc, IH, digit_value_digit by (try (pose proof (Z.mod_pos_bound n base)); try split; try (apply Z.div_pos); try (apply Z.div_lt_upper_bound); lia).
  pose proof (Z.div_mod n base). lia.
Qed.

Lemma numeral_ne base fuel n : (0 < fuel)%nat -> numeral fuel base n <> [].
Proof. destruct fuel; [lia|]. intros _. cbn. destruct (n <? base); [discriminate|]. now destruct (numeral fuel base (n / base)). Qed.

(** [outnum_digits] builds the numeral backwards. *)
Lemma outnum_digits_spec base room : forall n, 2 <= base -> 0 <= n < base ^ Z.of_nat room -> (0 < room)%nat ->
  outnum_digits room n base = Some (rev (numeral room base n)).
Proof.
  induction room as [|room IH]; intros n Hb Hn Hr; [lia|]. cbn [outnum_digits numeral]. fold (digit (n mod base)).
  rewrite Nat2Z.inj_succ, Z.pow_succ_r in Hn by lia.
  destruct (Z.ltb_spec n base).
  - rewrite Z.div_small, Z.mod_small by lia. reflexivity.
  - assert (0 < n / base) by (apply Z.div_str_pos; lia). rewrite Z.gtb_ltb, (proj2 (Z.ltb_lt _ _)) by assumption.
    rewrite IH; [|assumption|split; [lia|apply Z.div_lt_upper_bound; lia]|].
    + cbn [option_map]. now rewrite rev_app_distr.
    + destruct room; [cbn in Hn; lia|lia].
Qed.

(** ** What a format means *)

Inductive conv := Signed | Unsigned | Hex.

(** A literal character, a percent sign, a number (left-justified or not, with
    a width and whether it is padded with zeros), a string (with a width and a
    precision) or a character. *)
Inductive item :=
  | Lit (c : Z)
  | Percent
  | Num (lj : bool) (width : option (bool * Z)) (c : conv)
  | Str (lj : bool) (width : option Z) (precision : option Z)
  | Chr.

Definition decimal (n : Z) : list Z := numeral 10 10 n.

Definition flags_text (lj : bool) : list Z := if lj then [45] else [].
Definition width_text (width : option (bool * Z)) : list Z :=
  match width with Some (zero, w) => (if zero then [48] else []) ++ decimal w | None => [] end.
Definition precision_text (precision : option Z) : list Z :=
  match precision with Some p => 46 :: decimal p | None => [] end.
Definition conv_char (c : conv) : Z := match c with Signed => 100 | Unsigned => 117 | Hex => 120 end.

Definition item_text (i : item) : list Z :=
  match i with
  | Lit c => [c]
  | Percent => [37; 37]
  | Num lj width c => 37 :: flags_text lj ++ width_text width ++ [conv_char c]
  | Str lj width precision => 37 :: flags_text lj ++ width_text (option_map (pair false) width) ++ precision_text precision ++ [115]
  | Chr => [37; 99]
  end.
Definition format (items : list item) : list Z := concat (map item_text items).

(** Fill up to the width, on the right if left-justified; [n] characters count. *)
Definition justify (lj : bool) (width : option (bool * Z)) (n : Z) (body : list Z) : list Z :=
  match width with
  | None => body
  | Some (zero, w) =>
      let fill := repeat (if zero then 48 else 32) (Z.to_nat (w - n)) in
      if lj then body ++ fill else fill ++ body
  end.

Definition number_text (c : conv) (n : Z) : list Z :=
  match c with
  | Signed => if n <? 0 then 45 :: numeral 30 10 (- n) else numeral 30 10 n
  | Unsigned => numeral 30 10 (u32 n)
  | Hex => numeral 30 16 (u32 n)
  end.

(** The characters of a string that go out: the first [precision]. *)
Definition cut (precision : option Z) (s : list Z) : list Z :=
  match precision with Some p => firstn (Z.to_nat p) s | None => s end.

Definition render_item (i : item) (args : list arg) : option (list Z * list arg) :=
  match i, args with
  | Lit c, _ => Some ([c], args)
  | Percent, _ => Some ([37], args)
  | Num lj width c, AInt n :: args =>
      let body := number_text c n in Some (justify lj width (Z.of_nat (length body)) body, args)
  | Str lj width precision, AStr s :: args =>
      Some (justify lj (option_map (pair false) width) (Z.of_nat (length s)) (cut precision s), args)
  | Chr, AInt n :: args => Some ([u8 n], args)
  | _, _ => None
  end.

Fixpoint render (items : list item) (args : list arg) : option (list Z) :=
  match items with
  | [] => Some []
  | i :: items =>
      let* (out, args) := render_item i args in
      option_map (app out) (render items args)
  end.

(** Widths fit an int; a string is shorter than the default precision. *)
Definition item_ok (i : item) : Prop :=
  match i with
  | Lit c => c <> 37
  | Num _ (Some (zero, w)) _ => 0 < w < 2147483648
  | Str _ width precision =>
      match width with Some w => 0 < w < 2147483648 | None => True end /\
      match precision with Some p => 0 <= p < 2147483648 | None => True end
  | _ => True
  end.
Definition arg_ok (a : arg) : Prop :=
  match a with AInt n => -2147483648 <= n < 2147483648 | AStr s => Z.of_nat (length s) <= 32767 end.

(** ** The parser *)

Lemma numeral_digits fuel : forall n, 0 <= n -> Forall (fun c => 48 <= c <= 57) (numeral fuel 10 n).
Proof.
  assert (Hd : forall d, 0 <= d < 10 -> 48 <= digit d <= 57).
  { intros d H. assert (Hin : In d (map Z.of_nat (seq 0 10))) by (apply in_map_iff; exists (Z.to_nat d); rewrite in_seq; lia).
    cbn in Hin. repeat (destruct Hin as [<-|Hin]; [now vm_compute|]). contradiction. }
  induction fuel as [|fuel IH]; intros n Hn; cbn [numeral]; [constructor|]. destruct (Z.ltb_spec n 10).
  - constructor; [apply Hd; lia|constructor].
  - apply Forall_app. split; [apply IH, Z.div_pos; lia|]. constructor; [apply Hd, Z.mod_pos_bound; lia|constructor].
Qed.

Lemma numeral_head fuel : forall n, 0 < n < 10 ^ Z.of_nat fuel -> exists c s, numeral fuel 10 n = c :: s /\ c <> 48.
Proof.
  induction fuel as [|fuel IH]; intros n Hn; [cbn in Hn; lia|]. cbn [numeral]. destruct (Z.ltb_spec n 10).
  - exists (digit n), []. split; [reflexivity|]. intros E. assert (Hv := digit_value_digit n ltac:(lia)). rewrite E in Hv. change (digit_value 48) with 0 in Hv. lia.
  - rewrite Nat2Z.inj_succ, Z.pow_succ_r in Hn by lia.
    destruct (IH (n / 10)) as (c & s & -> & Hc); [split; [apply Z.div_str_pos; lia|apply Z.div_lt_upper_bound; lia]|].
    exists c, (s ++ [digit (n mod 10)]). now split.
Qed.

(** The format behind a number does not start with a digit. *)
Definition no_digit (l : list Z) : Prop := match l with c :: _ => isdigit c = false | [] => True end.

Lemma isdigit_true c : 48 <= c <= 57 -> isdigit c = true.
Proof. intros H. unfold isdigit. rewrite (proj2 (Z.leb_le _ _)), (proj2 (Z.leb_le _ _)) by lia. reflexivity. Qed.

Lemma getnum_spec rest : no_digit rest -> forall s n, Forall (fun c => 48 <= c <= 57) s -> 0 <= n ->
  fold_left (fun v c => 10 * v + digit_value c) s n < 2147483648 ->
  getnum (s ++ rest) n = (fold_left (fun v c => 10 * v + digit_value c) s n, rest).
Proof.
  intros Hrest. induction s as [|c s IH]; intros n Hs Hn Hv; cbn [app getnum fold_left] in *.
  - destruct rest as [|c rest]; [reflexivity|]. cbn in Hrest. cbn [getnum]. now rewrite Hrest.
  - apply Forall_cons_iff in Hs. destruct Hs as [Hc Hs]. rewrite isdigit_true by assumption.
    assert (Hd : digit_value c = c - 48) by (unfold digit_value; rewrite (proj2 (Z.leb_le _ _)) by lia; reflexivity).
    assert (Hmono : forall s v, Forall (fun c => 48 <= c <= 57) s -> 0 <= v -> v <= fold_left (fun v c => 10 * v + digit_value c) s v).
    { clear. induction s as [|c s IH]; intros v Hs Hv; cbn [fold_left]; [lia|]. apply Forall_cons_iff in Hs. destruct Hs as [Hc Hs].
      assert (0 <= digit_value c) by (unfold digit_value; destruct (Z.leb_spec c 57); lia). specialize (IH (10 * v + digit_value c) Hs ltac:(lia)). lia. }
    assert (10 * n + digit_value c < 2147483648) by (pose proof (Hmono s (10 * n + digit_value c) Hs ltac:(lia)); lia).
    replace (s32 (n * 10 + (c - 48))) with (10 * n + digit_value c); [now apply IH; [|lia|]|].
    rewrite Hd in *. unfold s32, u32. cbv zeta. rewrite Z.mod_small by lia. destruct (Z.ltb_spec (n * 10 + (c - 48)) 2147483648); lia.
Qed.

Lemma getnum_decimal w rest : 0 <= w < 2147483648 -> no_digit rest -> getnum (decimal w ++ rest) 0 = (w, rest) /\ getnum (48 :: decimal w ++ rest) 0 = (w, rest).
Proof.
  intros Hw Hr. unfold decimal. assert (Hv : value 10 (numeral 10 10 w) = w) by (apply numeral_value; lia). unfold value in Hv.
  assert (Hg : getnum (numeral 10 10 w ++ rest) 0 = (w, rest)).
  { rewrite getnum_spec by (assumption || lia || (apply numeral_digits; lia)). now rewrite Hv. }
  split; [exact Hg|]. cbn [getnum]. change (isdigit 48) with true. exact Hg.
Qed.

Lemma directive_mono n : forall n' ctrl argp dot par r, directive n ctrl argp dot par = Some r -> (n <= n')%nat ->
  directive n' ctrl argp dot par = Some r.
Proof.
  induction n as [|n IH]; intros n' ctrl argp dot par r E Hn; [discriminate|]. destruct n' as [|n']; [lia|].
  destruct ctrl as [|ch rest]; [discriminate|]. cbn [directive] in *.
  repeat match goal with
  | |- context [if ?b then _ else _] => destruct b
  | |- context [let '(_, _) := ?x in _] => destruct x
  end; try assumption; try (apply (IH n'); [assumption|lia]).
  destruct rest as [|x rest]; [discriminate|].
  destruct (directive n rest argp dot par) as [[[out ctrl] argp']|] eqn:Ed; [|discriminate].
  rewrite (IH n' rest argp dot par _ Ed) by lia. exact E.
Qed.

(** The parameters after the flags, the width and the precision. *)
Definition par_flags (lj : bool) (par : params_t) : params_t := if lj then par <| left_flag := 1 |> else par.
Definition par_width (width : option (bool * Z)) (par : params_t) : params_t :=
  match width with
  | Some (zero, w) => (if zero : bool then par <| pad_character := 48 |> else par) <| num1 := w |> <| do_padding := 1 |>
  | None => par
  end.
Definition par_precision (precision : option Z) (par : params_t) : params_t :=
  match precision with Some p => par <| num2 := p |> | None => par end.

Definition width_ok (width : option (bool * Z)) : Prop := match width with Some (_, w) => 0 < w < 2147483648 | None => True end.
Definition precision_ok (p : option Z) : Prop := match p with Some p => 0 <= p < 2147483648 | None => True end.

Definition steps {A} (k : nat) (o : option A) : nat := match o with Some _ => k | None => O end.
Definition is_some {A} (o : option A) : bool := match o with Some _ => true | None => false end.

Lemma directive_flags n lj rest argp par :
  directive (length (flags_text lj) + n) (flags_text lj ++ rest) argp false par = directive n rest argp false (par_flags lj par).
Proof. now destruct lj. Qed.

Lemma directive_width n width rest argp par : width_ok width -> no_digit rest ->
  directive (steps 1 width + n) (width_text width ++ rest) argp false par = directive n rest argp false (par_width width par).
Proof.
  destruct width as [[zero w]|]; [|reflexivity]. cbn [width_ok width_text par_width]. intros Hw Hr.
  destruct (getnum_decimal w rest ltac:(lia) Hr) as [Hg Hg0]. destruct zero; cbn [app steps Nat.add].
  - cbn [directive]. change (isdigit 48) with true. cbv iota. rewrite Hg0. reflexivity.
  - destruct (numeral_head 10 w ltac:(lia)) as (c & s & E & Hc). pose proof (numeral_digits 10 w ltac:(lia)) as Hd.
    unfold decimal in *. rewrite E in *. cbn [app directive]. apply Forall_inv in Hd. rewrite isdigit_true by assumption.
    rewrite (proj2 (Z.eqb_neq _ _) Hc). cbn [app] in Hg. rewrite Hg. reflexivity.
Qed.

Lemma directive_precision n p rest argp par : precision_ok p -> no_digit rest ->
  directive (steps 2 p + n) (precision_text p ++ rest) argp false par = directive n rest argp (is_some p) (par_precision p par).
Proof.
  destruct p as [p|]; [|reflexivity]. cbn [precision_ok precision_text par_precision app steps is_some Nat.add]. intros Hp Hr. cbn [directive].
  change (isdigit 46) with false. cbv iota. change (tolower 46) with 46. cbn [Z.eqb Pos.eqb].
  destruct (getnum_decimal p rest ltac:(lia) Hr) as [Hg _]. pose proof (numeral_ne 10 10 p ltac:(lia)) as Hne.
  pose proof (numeral_digits 10 p ltac:(lia)) as Hd. unfold decimal in *. destruct (numeral 10 10 p) as [|c s]; [contradiction|].
  apply Forall_inv in Hd. cbn [app] in *. rewrite isdigit_true, Hg by assumption. reflexivity.
Qed.

(** ** The conversions *)

(** The parameters of a directive with these flags and this width. *)
Definition par_of (lj : bool) (width : option (bool * Z)) : params_t := par_width width (par_flags lj par0).

Lemma justify_spec lj width par body : par.(left_flag) = (par_of lj width).(left_flag) -> par.(num1) = (par_of lj width).(num1) ->
  par.(pad_character) = (par_of lj width).(pad_character) -> par.(do_padding) = (par_of lj width).(do_padding) ->
  padding (bnot par.(left_flag)) par ++ body ++ padding par.(left_flag) par = justify lj width par.(par_len) body.
Proof.
  intros H1 H2 H3 H4. unfold padding, justify. rewrite H1, H2, H3, H4.
  assert (E10 : (1 =? 0) = false) by reflexivity. assert (E00 : (0 =? 0) = true) by reflexivity.
  assert (Hfill : forall (c w n : Z), (if n <? w then repeat c (Z.to_nat (w - n)) else []) = repeat c (Z.to_nat (w - n))).
  { intros c w n. destruct (Z.ltb_spec n w); [reflexivity|]. now replace (Z.to_nat (w - n)) with O by lia. }
  destruct width as [[[|] w]|], lj; cbn [par_of par_width par_flags par0 left_flag num1 pad_character do_padding with_field];
    unfold bnot; rewrite ?E10, ?E00, ?E10, ?E00; cbn [negb andb app]; rewrite ?Hfill, ?app_nil_r; reflexivity.
Qed.

Lemma outnum_spec lj width c n par : -2147483648 <= n < 2147483648 -> par = par_of lj width ->
  (match c with Hex => outnum n 16 (par <| unsigned_flag := 1 |>) | Unsigned => outnum n 10 (par <| unsigned_flag := 1 |>) | Signed => outnum n 10 par end) =
  Some (let body := number_text c n in justify lj width (Z.of_nat (length body)) body).
Proof.
  intros Hn ->.
  assert (Hu : 0 <= u32 n < 4294967296) by (apply u32_ok).
  assert (Hb : forall base m, 10 <= base <= 16 -> 0 <= m < 4294967296 -> outnum_digits 30 m base = Some (rev (numeral 30 base m))).
  { intros base m Hbase Hm. apply outnum_digits_spec; [lia| |lia]. split; [lia|].
    apply (Z.lt_le_trans _ (10 ^ Z.of_nat 30)); [cbn; lia|]. apply Z.pow_le_mono_l. lia. }
  assert (Hj : forall p body, left_flag p = left_flag (par_of lj width) -> num1 p = num1 (par_of lj width) ->
    pad_character p = pad_character (par_of lj width) -> do_padding p = do_padding (par_of lj width) ->
    Some (padding (bnot (left_flag (p <| par_len := Z.of_nat (length (rev body)) |>))) (p <| par_len := Z.of_nat (length (rev body)) |>) ++ rev (rev body) ++
      padding (left_flag (p <| par_len := Z.of_nat (length (rev body)) |>)) (p <| par_len := Z.of_nat (length (rev body)) |>)) =
    Some (justify lj width (Z.of_nat (length body)) body)).
  { intros p body H1 H2 H3 H4. f_equal. rewrite rev_involutive, length_rev. set (q := p <| par_len := Z.of_nat (length body) |>). exact (justify_spec lj width q body H1 H2 H3 H4). }
  unfold outnum. destruct c; cbn [unsigned_flag with_field number_text].
  - replace (unsigned_flag (par_of lj width)) with 0 by (destruct lj, width as [[[|] ?]|]; reflexivity). change (0 =? 0) with true. change (10 =? 10) with true.
    destruct (Z.ltb_spec n 0); cbn [andb].
    + rewrite (u32_id (- n)) by word_lia. rewrite Hb by lia. cbn [obind]. change [45] with (rev [45]).
      rewrite <- rev_app_distr. cbn [app]. now apply Hj.
    + rewrite (u32_id n) by word_lia. rewrite Hb by lia. cbn [obind]. now apply Hj.
  - change (1 =? 0) with false. cbn [andb]. rewrite Hb by lia. cbn [obind]. now apply Hj.
  - change (1 =? 0) with false. cbn [andb]. rewrite Hb by lia. cbn [obind]. now apply Hj.
Qed.

Lemma outs_loop_spec s : forall p, 0 <= p -> outs_loop s p = firstn (Z.to_nat p) s.
Proof.
  induction s as [|c s IH]; intros p Hp; cbn [outs_loop]; [now rewrite firstn_nil|]. destruct (Z.eqb_spec p 0) as [->|Hne]; [reflexivity|].
  rewrite IH by lia. replace (Z.to_nat p) with (S (Z.to_nat (p - 1))) by lia. reflexivity.
Qed.

Lemma outs_spec lj width precision s : precision_ok precision -> Z.of_nat (length s) <= 32767 ->
  outs s (par_precision precision (par_of lj width)) = justify lj width (Z.of_nat (length s)) (cut precision s).
Proof.
  intros Hp Hs. unfold outs.
  assert (Hn : outs_loop s (num2 (par_precision precision (par_of lj width))) = cut precision s).
  { destruct precision as [p|]; cbn [par_precision cut num2 with_field]; [apply outs_loop_spec; cbn in Hp; lia|].
    replace (num2 (par_of lj width)) with 32767 by (destruct lj, width as [[[|] ?]|]; reflexivity).
    rewrite outs_loop_spec by lia. apply firstn_all2. lia. }
  cbn [num2 with_field left_flag]. rewrite Hn. set (q := (par_precision precision (par_of lj width)) <| par_len := Z.of_nat (length s) |>).
  change (left_flag (par_precision precision (par_of lj width))) with (left_flag q). apply (justify_spec lj width q); destruct precision; reflexivity.
Qed.

(** ** Whole formats *)

Lemma directive_num c n rest args par : directive 1 (conv_char c :: rest) (AInt n :: args) false par =
  let* out := match c with Hex => outnum n 16 (par <| unsigned_flag := 1 |>) | Unsigned => outnum n 10 (par <| unsigned_flag := 1 |>) | Signed => outnum n 10 par end in
  Some (out, rest, args).
Proof. now destruct c. Qed.

Lemma directive_str s rest args dot par : directive 1 (115 :: rest) (AStr s :: args) dot par = Some (outs s par, rest, args).
Proof. reflexivity. Qed.

Lemma decimal_ne w : (1 <= length (decimal w))%nat.
Proof. pose proof (numeral_ne 10 10 w). unfold decimal. destruct (numeral 10 10 w); [exfalso; apply H; [lia|reflexivity]|cbn; lia]. Qed.

Lemma width_steps width : (steps 1 width <= length (width_text width))%nat.
Proof. destruct width as [[zero w]|]; cbn [steps width_text]; [|lia]. rewrite length_app. pose proof (decimal_ne w). lia. Qed.

(** One directive. *)
Lemma directive_item i args out args' rest : item_ok i -> Forall arg_ok args -> render_item i args = Some (out, args') ->
  match i with Lit _ => True | _ => exists l, item_text i = 37 :: l /\ directive (S (length (l ++ rest))) (l ++ rest) args false par0 = Some (out, rest, args') end.
Proof.
  intros Hi Ha E. destruct i as [c| |lj width c|lj width precision|]; [exact I|..]; cbn [item_text]; (eexists; split; [reflexivity|]).
  - injection E as <- <-. reflexivity.
  - destruct args as [|[n|s] args]; try discriminate. injection E as <- <-. apply Forall_inv in Ha. cbn in Ha.
    apply (directive_mono (length (flags_text lj) + (steps 1 width + 1))).
    + rewrite <- !app_assoc, directive_flags, directive_width by (destruct c; reflexivity || assumption). fold (par_of lj width).
      cbn [app]. rewrite directive_num, (outnum_spec lj width c n (par_of lj width) Ha eq_refl). reflexivity.
    + pose proof (width_steps width). rewrite !length_app. cbn [length]. lia.
  - destruct args as [|[n|s] args]; try discriminate. injection E as <- <-. apply Forall_inv in Ha. cbn in Ha. destruct Hi as [Hw Hp].
    set (w := option_map (pair false) width). assert (Hwo : width_ok w) by (destruct width; exact Hw).
    apply (directive_mono (length (flags_text lj) + (steps 1 w + (steps 2 precision + 1)))).
    + rewrite <- !app_assoc, directive_flags. rewrite directive_width by (assumption || (destruct precision; reflexivity)). fold (par_of lj w).
      rewrite directive_precision by (assumption || reflexivity). cbn [app]. now rewrite directive_str, outs_spec.
    + pose proof (width_steps w).
      assert (steps 2 precision <= length (precision_text precision))%nat by (destruct precision as [x|]; cbn [steps precision_text length]; [pose proof (decimal_ne x); lia|lia]).
      rewrite !length_app. cbn [length]. lia.
  - destruct args as [|[n|s] args]; try discriminate. injection E as <- <-. reflexivity.
Qed.

Lemma printf_loop_spec items : forall fuel args out, Forall item_ok items -> Forall arg_ok args -> render items args = Some out ->
  (length (format items) <= fuel)%nat -> printf_loop fuel (format items) args = Some out.
Proof.
  induction items as [|i items IH]; intros fuel args out Hi Ha E Hf.
  - injection E as <-. now destruct fuel.
  - apply Forall_cons_iff in Hi. destruct Hi as [Hi His]. cbn [render] in E.
    destruct (render_item i args) as [[o args']|] eqn:Ei; [|discriminate]. cbn [obind] in E.
    destruct (render items args') as [out'|] eqn:Er; [|discriminate]. injection E as <-.
    assert (Ha' : Forall arg_ok args').
    { destruct i; cbn in Ei; try (injection Ei as _ <-; assumption);
        (destruct args as [|[?|?] args]; try discriminate; injection Ei as _ <-; now apply Forall_inv_tail in Ha). }
    unfold format in *. cbn [map concat] in *. rewrite length_app in Hf. fold (format items) in *.
    pose proof (directive_item i args o args' (format items) Hi Ha Ei) as Hd.
    destruct i as [c| | | |]; [|(destruct Hd as (l & El & Hd); rewrite El in *; cbn [app length] in *; destruct fuel as [|fuel]; [lia|]; cbn [printf_loop];
      change (negb (37 =? 37)) with false; cbv iota; rewrite Hd; cbn [obind]; rewrite (IH fuel args' out') by (assumption || lia); reflexivity)..].
    injection Ei as <- <-. cbn [item_text app length] in *. destruct fuel as [|fuel]; [lia|]. cbn [printf_loop]. cbn in Hi.
    rewrite (proj2 (Z.eqb_neq _ _) Hi). cbn [negb]. rewrite (IH fuel args out') by (assumption || lia). reflexivity.
Qed.

(** [xil_printf] prints what the format says, for every format made of
    literal characters, %% and directives for numbers (%d, %u, %x with '-', '0'
    and a width), strings (with a width and a precision) and characters. *)
Theorem xil_printf_renders items args out : Forall item_ok items -> Forall arg_ok args -> render items args = Some out ->
  xil_printf (format items) args = Some out.
Proof. intros Hi Ha E. now apply printf_loop_spec. Qed.

(** A line of the application: the byte as two digits, and the number of turns. *)
Lemma xil_printf_renders_witness : xil_printf [32; 37; 48; 50; 120; 58; 37; 100; 10] [AInt 11; AInt (-7)] = Some [32; 48; 66; 58; 45; 55; 10].
Proof.
  apply (xil_printf_renders [Lit 32; Num false (Some (true, 2)) Hex; Lit 58; Num false None Signed; Lit 10]).
  - repeat constructor; cbn; lia.
  - repeat constructor; cbn; lia.
  - reflexivity.
Defined.

(** Numbers read back: as printed by %d, and by %x. *)
Theorem printed_numbers_read_back n : -2147483648 <= n < 2147483648 ->
  exists d h, xil_printf [37; 100] [AInt n] = Some d /\ xil_printf [37; 120] [AInt n] = Some h /\
    value 16 h = u32 n /\ (if hd 0 d =? 45 then - value 10 (tl d) else value 10 d) = n.
Proof.
  intros Hn. exists (number_text Signed n), (number_text Hex n).
  assert (Ha : Forall arg_ok [AInt n]) by (constructor; [exact Hn|constructor]).
  assert (Hok : forall c, Forall item_ok [Num false None c]) by (intros c; constructor; [exact I|constructor]).
  assert (Hp0 : forall c, xil_printf [37; conv_char c] [AInt n] = Some (number_text c n)).
  { intros c. rewrite <- (app_nil_r (number_text c n)). apply (printf_loop_spec [Num false None c] 2 [AInt n]); [apply Hok|exact Ha|reflexivity|cbn; lia]. }
  split; [exact (Hp0 Signed)|]. split; [exact (Hp0 Hex)|].
  assert (Hu := u32_ok n). assert (Hp : 4294967296 < 10 ^ Z.of_nat 30) by (cbn; lia). assert (Hq : 4294967296 < 16 ^ Z.of_nat 30) by (cbn; lia).
  split; [apply numeral_value; unfold is_u32 in Hu; lia|]. cbn [number_text]. destruct (Z.ltb_spec n 0).
  - cbn [hd tl]. change (45 =? 45) with true. cbv iota. rewrite numeral_value by lia. lia.
  - pose proof (numeral_digits 30 n ltac:(lia)) as Hd. pose proof (numeral_value 10 30 n ltac:(lia) ltac:(lia)) as Hv.
    destruct (numeral 30 10 n) as [|c s]; [exact Hv|]. apply Forall_inv in Hd. cbn [hd]. rewrite (proj2 (Z.eqb_neq c 45)) by lia. exact Hv.
Qed.
