(* ===== verification/UartConsole.v ===== *)
(** * The console on the UART

    [xil_printf] and [print] give their characters to [outbyte] one by one;
    [outbyte] waits for room in the transmit FIFO.  On a core that makes room
    within a bounded number of polls the text leaves on the line as it was
    rendered; [inbyte] returns the first byte that arrives. *)

From Stdlib Require Import ZArith List Lia Bool.
From S2P Require Import Prelude XSpi SpiCore Spi UartLite UartSpec UartBoard XilPrintf.
Import ListNotations Regs.
Open Scope Z_scope.
Open Scope c_scope.

Section Console.
Context {D : Type} `{RegDevice D} {core : AxiUart D STDOUT_BASEADDRESS} {A : Type}.
Abbreviation st := (uart_state D A).

Abbreviation poll d := (reg_read d (STDOUT_BASEADDRESS + XUL_STATUS_REG_OFFSET)).

(** Within [n] polls a byte can be written. *)
Fixpoint room (n : nat) (d : D) : Prop :=
  match n with
  | O => False
  | S n => let d' := fst (poll d) in (length (uview d').(u_tx) < XUL_FIFO_SIZE)%nat \/ room n d'
  end.

(** From the device states of [P], which the accesses keep, there is room
    within [n] polls. *)
Record prompt (P : D -> Prop) (n : nat) : Prop := {
  pm_read : forall d a, P d -> P (fst (reg_read d a));
  pm_write : forall d a x, P d -> P (reg_write d a x);
  pm_room : forall d, P d -> room n d }.

(** The characters of a text, one by one. *)
Fixpoint outbytes (fuel : nat) (text : list Z) : UM (D := D) (A := A) unit :=
  match text with
  | [] => ret tt
  | c :: l => outbyte fuel c ;; outbytes fuel l
  end.

Context (P : D -> Prop) (fuel : nat) (Hp : prompt P fuel).

Lemma full_spec (s : st) : exists s', XUartLite_IsTransmitFull STDOUT_BASEADDRESS s = Ok ((XUL_FIFO_SIZE <=? length (vw s').(u_tx))%nat, s') /\
  same_driver s s' /\ s'.(udev) = fst (poll s.(udev)) /\ moved (vw s) (vw s').
Proof.
  unfold XUartLite_IsTransmitFull, XUartLite_GetStatusReg, XUartLite_ReadReg. pose proof (ur_status (udev s)) as [Hf _]. pose proof (ur_tx_full (udev s)) as Hfull. cbv zeta in *.
  unfold bind. destruct (poll (udev s)) as [d v]. cbn [fst snd] in *. exists (s <| udev := d |>). split; [|split; [now split|split; [reflexivity|now apply flows_moved]]].
  unfold ret. do 2 f_equal. change (vw (s <| udev := d |>)) with (uview d). rewrite <- Hfull. change XUL_SR_TX_FIFO_FULL with (2 ^ 3). rewrite tst_bit, land_pow2 by lia.
  now destruct (Z.testbit v 3).
Qed.

Lemma send_byte_spec c : forall n (s : st), room n s.(udev) -> P s.(udev) -> exists s', XUartLite_SendByte n STDOUT_BASEADDRESS c s = Ok (tt, s') /\ same_driver s s' /\
  P s'.(udev) /\ pushed (vw s) (vw s') [u8 c].
Proof.
  induction n as [|n IH]; intros s Hr HP; [contradiction|]. cbn [XUartLite_SendByte]. destruct (full_spec s) as (s1 & E1 & Sd1 & Hd & M1). rewrite (bind_ok _ _ _ _ _ E1).
  assert (HP1 : P (udev s1)) by (rewrite Hd; now apply (pm_read _ _ Hp)). destruct (Nat.leb_spec XUL_FIFO_SIZE (length (u_tx (vw s1)))) as [Hl|Hl].
  - destruct Hr as [Hr|Hr]; [unfold vw in Hl; rewrite Hd in Hl; lia|]. rewrite <- Hd in Hr. destruct (IH s1 Hr HP1) as (s2 & E2 & Sd2 & HP2 & T2). exists s2.
    split; [exact E2|]. split; [exact (same_driver_trans _ _ _ Sd1 Sd2)|]. split; [exact HP2|]. exact (moved_traffic _ _ _ _ _ M1 T2).
  - unfold XUartLite_WriteReg. destruct (uw_data (udev s1) (u32 c)) as (w & Hf & Ew). apply flows_moved in Hf. eexists. split; [reflexivity|].
    split; [apply (same_driver_trans _ _ _ Sd1); now split|]. split; [now apply (pm_write _ _ Hp)|]. apply (moved_traffic _ _ _ _ _ M1).
    unfold vw at 2. cbn [udev with_field]. rewrite Ew, <- u8_u32. apply push_pushed; [exact Hf|]. pose proof (tr_tx _ _ _ _ Hf) as Ht. cbn [length] in Ht. unfold vw in Hl. lia.
Qed.

Lemma outbytes_spec text : forall s : st, P s.(udev) -> exists s', outbytes fuel text s = Ok (tt, s') /\ same_driver s s' /\ P s'.(udev) /\ pushed (vw s) (vw s') (map u8 text).
Proof.
  induction text as [|c l IH]; intros s HP.
  - exists s. split; [reflexivity|]. split; [apply same_driver_refl|]. split; [exact HP|apply moved_refl].
  - cbn [outbytes]. unfold outbyte. destruct (send_byte_spec (u8 c) fuel s (pm_room _ _ Hp _ HP) HP) as (s1 & E1 & Sd1 & HP1 & T1). rewrite (bind_ok _ _ _ _ _ E1).
    destruct (IH s1 HP1) as (s2 & E2 & Sd2 & HP2 & T2). exists s2. split; [exact E2|]. split; [exact (same_driver_trans _ _ _ Sd1 Sd2)|]. split; [exact HP2|].
    cbn [map]. rewrite (u8_id (u8 c)) in T1 by apply u8_ok. exact (traffic_trans _ _ _ _ _ _ _ T1 T2).
Qed.

(** [xil_printf] on the console. *)
Definition console_printf (fmt : list Z) (args : list arg) : UM (D := D) (A := A) unit :=
  match xil_printf fmt args with Some text => outbytes fuel text | None => halt end.

(** C28: What [xil_printf] is asked to print leaves on the line: for every
    format built from literal characters and directives, on a core that makes room
    within the polls [outbyte] is given, the call returns, the driver's state is
    untouched and the transmitter got the rendered text, character by character,
    behind what it already had. *)
Theorem console_prints items args out (s : st) : Forall item_ok items -> Forall arg_ok args -> render items args = Some out -> P s.(udev) ->
  exists s', console_printf (format items) args s = Ok (tt, s') /\ same_driver s s' /\ pushed (vw s) (vw s') (map u8 out).
Proof.
  intros Hi Ha E HP. unfold console_printf, xil_printf. rewrite (printf_loop_spec items _ args out Hi Ha E (le_n _)).
  destruct (outbytes_spec out s HP) as (s' & E' & Sd & _ & T). now exists s'.
Qed.
(** Within [n] polls a byte is there. *)
Fixpoint arriving (n : nat) (d : D) : Prop :=
  match n with
  | O => False
  | S n => let d' := fst (poll d) in (uview d').(u_rx) <> [] \/ arriving n d'
  end.

Lemma empty_spec (s : st) : exists s', XUartLite_IsReceiveEmpty STDIN_BASEADDRESS s = Ok (is_nil (vw s').(u_rx), s') /\
  same_driver s s' /\ s'.(udev) = fst (poll s.(udev)) /\ moved (vw s) (vw s').
Proof.
  unfold XUartLite_IsReceiveEmpty, XUartLite_GetStatusReg, XUartLite_ReadReg. pose proof (ur_status (udev s)) as [Hf _]. pose proof (ur_rx_valid (udev s)) as Hval. cbv zeta in *.
  change STDIN_BASEADDRESS with STDOUT_BASEADDRESS. unfold bind. destruct (poll (udev s)) as [d v]. cbn [fst snd] in *. exists (s <| udev := d |>).
  split; [|split; [now split|split; [reflexivity|now apply flows_moved]]].
  unfold ret. do 2 f_equal. change (vw (s <| udev := d |>)) with (uview d). rewrite <- (negb_involutive (is_nil _)), <- Hval. change XUL_SR_RX_FIFO_VALID_DATA with (2 ^ 0). rewrite tst_bit, land_pow2 by lia.
  now destruct (Z.testbit v 0).
Qed.

(** [inbyte] takes the oldest byte of the receive FIFO, waiting for it. *)
Lemma inbyte_spec : forall n (s : st), arriving n s.(udev) -> exists c s', inbyte n s = Ok (u8 c, s') /\ same_driver s s' /\ traffic (vw s) (vw s') [] [c].
Proof.
  unfold inbyte. induction n as [|n IH]; intros s Hr; [contradiction|]. cbn [XUartLite_RecvByte]. destruct (empty_spec s) as (s1 & E1 & Sd1 & Hd & M1). rewrite (bind_ok _ _ _ _ _ E1).
  destruct (u_rx (vw s1)) as [|x l] eqn:Ex; cbn [is_nil].
  - destruct Hr as [Hr|Hr]; [unfold vw in Ex; rewrite Hd in Ex; contradiction|]. rewrite <- Hd in Hr. destruct (IH s1 Hr) as (c & s2 & E2 & Sd2 & T2). exists c, s2.
    split; [exact E2|]. split; [exact (same_driver_trans _ _ _ Sd1 Sd2)|]. exact (moved_traffic _ _ _ _ _ M1 T2).
  - unfold XUartLite_ReadReg. pose proof (ur_data (udev s1)) as (w & Hf & Ew & Hx). cbv zeta in *. change STDIN_BASEADDRESS with STDOUT_BASEADDRESS.
    unfold bind. destruct (reg_read (udev s1) (STDOUT_BASEADDRESS + XUL_RX_FIFO_OFFSET)) as [d c]. cbn [fst snd] in *. apply flows_moved in Hf.
    destruct (tr_in _ _ _ _ Hf) as (i & _ & Hrx & _). cbn [Datatypes.app] in Hrx. fold (vw s1) in Hrx. rewrite Ex in Hrx. symmetry in Hrx. specialize (Hx _ _ Hrx). subst c.
    exists x, (s1 <| udev := d |>). split; [reflexivity|]. split; [apply (same_driver_trans _ _ _ Sd1); now split|]. apply (moved_traffic _ _ _ _ _ M1), (moved_traffic _ _ _ _ _ Hf).
    change (vw (s1 <| udev := d |>)) with (uview d). rewrite Ew. exact (pop_traffic _ _ _ Hrx).
Qed.
End Console.

(** ** On the soft core *)

Section SoftConsole.
#[local] Instance regs : RegDevice soft_uart := soft_uart_regs STDOUT_BASEADDRESS.
#[local] Instance laws : AxiUart soft_uart STDOUT_BASEADDRESS := soft_uart_laws STDOUT_BASEADDRESS.

(** After its schedule the core sends a byte at every access: a FIFO of at most
    16 bytes has room at the first poll. *)
Definition running (d : soft_uart) : Prop := d.(sched) = [] /\ (length d.(sv).(u_tx) <= XUL_FIFO_SIZE)%nat.

Lemma utick_running d : running d -> running (utick d) /\ (length (u_tx (sv (utick d))) < XUL_FIFO_SIZE)%nat.
Proof.
  intros [E Hl]. unfold utick, running. rewrite E. cbn [sched sv]. unfold soft_leave. destruct (u_tx (sv d)) as [|b t] eqn:Et; cbn [u_tx with_field length] in *.
  - rewrite Et. cbn [length]. unfold XUL_FIFO_SIZE. split; [split; [reflexivity|]|]; lia.
  - split; [split; [reflexivity|]|]; lia.
Qed.

Lemma soft_prompt : prompt running 1.
Proof.
  split.
  - intros d a Hd. destruct (utick_running d Hd) as [[E Hl] _]. cbn [reg_read regs soft_uart_regs]. unfold uread. repeat destruct (_ =? _); cbn [fst]; now split.
  - intros d a x Hd. destruct (utick_running d Hd) as [[E Hl] Hlt]. cbn [reg_write regs soft_uart_regs]. unfold uwrite, running. repeat destruct (_ =? _); cbn [sched sv].
    + split; [exact E|]. unfold uart_control. cbn [u_tx with_field]. destruct (tst _ _); [cbn [length]; lia|exact Hl].
    + split; [exact E|]. unfold uart_push. rewrite (proj2 (Nat.ltb_lt _ _) Hlt). cbn [u_tx with_field]. rewrite length_app. cbn [length]. lia.
    + now split.
  - intros d Hd. left. exact (proj2 (utick_running d Hd)).
Qed.

Definition quiet : uart_state soft_uart unit :=
  mkUSt (mkUartLite (mkUStats 0 0 0 0 0 0 0) 0 0 (mkUBuf NULL 0 0) (mkUBuf NULL 0 0) StubHandler 0 StubHandler 0)
    (mkSoftUart (mkUView [] [] false [] []) []) (fun _ => 0) tt.

Lemma console_prints_witness : exists s', console_printf 1 (format [Lit 32; Num false (Some (true, 2)) Hex; Lit 58; Num false None Signed; Lit 10]) [AInt 11; AInt (-7)] quiet = Ok (tt, s') /\
  same_driver quiet s' /\ pushed (vw quiet) (vw s') [32; 48; 66; 58; 45; 55; 10].
Proof.
  apply (console_prints running 1 soft_prompt [Lit 32; Num false (Some (true, 2)) Hex; Lit 58; Num false None Signed; Lit 10] [AInt 11; AInt (-7)] [32; 48; 66; 58; 45; 55; 10]).
  - repeat constructor; cbn; lia.
  - repeat constructor; cbn; lia.
  - reflexivity.
  - split; [reflexivity|cbn; lia].
Defined.
End SoftConsole.
