(* ===== verification/App.v ===== *)
(** * The application (main.c, platform.c)

    [main] reads the identification and the registers of the flash memory over
    SPI, prints them, dumps the registers of the Ethernet core and sends one
    packet through its transmit buffer.  The state is that of the SPI driver
    with the memory (Spi.v), the console and the Ethernet core.  The Ethernet
    core's bus accesses are section variables; the greeting printed at the end
    (libc's printf with a floating point temperature) is one too.  The caches
    and the system monitor are not part of the state; of the local variables of
    [main] only [buf] is in memory.  The console takes every character at once:
    the UART that [outbyte] waits for is the subject of UartConsole.v. *)

From Stdlib Require Import String Ascii ZArith List Lia Bool.
From S2P Require Import Prelude Def XSpi SpiCore Spi XilPrintf.
Import ListNotations Regs.
Open Scope Z_scope.
Open Scope c_scope.

(** The characters of a string literal. *)
Definition chars (s : string) : list Z := map (fun c => Z.of_N (N_of_ascii c)) (list_ascii_of_string s).
Definition newline : list Z := [10].

(** ** Addresses of the Ethernet core *)
Definition XPAR_AXI_SLAVE_WISHBONE_CLASSIC_MASTER_0_BASEADDR := 0x44A00000.
Definition ETH0_WB_OFFSET := 0x292f8.
Definition ETH0_BASE_ADDRESS := XPAR_AXI_SLAVE_WISHBONE_CLASSIC_MASTER_0_BASEADDR + ETH0_WB_OFFSET.
Definition ETH_MAC_BUFFER_LEVEL_OFFSET := 0x18.
Definition ETH_MAC_TX_BUF_OFFSET := 0x4000.
Definition tx_level_address := Z.lxor (ETH0_BASE_ADDRESS + ETH_MAC_BUFFER_LEVEL_OFFSET + 2) 2.

(** The unicast ARP request, padded to 64 bytes. *)
Definition pkt : list Z :=
  [0x02; 0x02; 0x0a; 0x14; 0x1e; 0x28; 0x02; 0x02; 0x0a; 0x0a; 0x0a; 0x0a; 0x08; 0x06; 0x00; 0x01;
   0x08; 0x00; 0x06; 0x04; 0x00; 0x01; 0x02; 0x02; 0x0a; 0x0a; 0x0a; 0x0a; 0x0a; 0x0a; 0x0a; 0x0a;
   0x00; 0x00; 0x00; 0x00; 0x00; 0x00; 0x0a; 0x14; 0x1e; 0x28] ++ repeat 0x00 22.
(** [pkt32[i]] on the little-endian processor, and [Xil_Htonl], [Xil_Htons]. *)
Definition pkt32 (i : nat) : Z :=
  nth (4 * i) pkt 0 + 256 * nth (4 * i + 1) pkt 0 + 65536 * nth (4 * i + 2) pkt 0 + 16777216 * nth (4 * i + 3) pkt 0.
Definition Xil_Htonl (x : Z) : Z := lwip_htonl x.
Definition Xil_Htons (x : Z) : Z := lwip_htons x.

Section App.
Context {D : Type} `{RegDevice D}.
Context {E : Type} (in8 in16 in32 : Z -> E -> Z * E) (out16 out32 : Z -> Z -> E -> E).
(** The address of [buf] on the stack. *)
Variable buf : Z.
Variable greeting : nat -> list Z.

Record app_state := mkApp { spi : spi_state D; console : list Z; eth : E }.
#[export] Instance app_state_eta : Eta app_state := { eta := fun r => mkApp r.(spi) r.(console) r.(eth) }.

Definition AM := M app_state.

Definition on_spi {A} (m : M (spi_state D) A) : AM A := fun s =>
  match m s.(spi) with
  | Ok (a, t) => Ok (a, s <| spi := t |>)
  | Halt => Halt
  | Hang => Hang
  end.
Definition say (l : list Z) : AM unit := modify (fun s => s <| console := s.(console) ++ print l |>).
Definition printf (fmt : string) (args : list arg) : AM unit := fun s =>
  match xil_printf (chars fmt) args with
  | Some l => Ok (tt, s <| console := s.(console) ++ l |>)
  | None => Halt
  end.
Definition from_eth (rd : Z -> E -> Z * E) (a : Z) : AM Z := fun s =>
  let '(v, e) := rd a s.(eth) in Ok (v, s <| eth := e |>).
Definition to_eth (wr : Z -> Z -> E -> E) (a v : Z) : AM unit := modify (fun s => s <| eth := wr a v s.(eth) |>).

Definition set_buf (i v : Z) : AM unit :=
  modify (fun s => s <| spi := s.(spi) <| mem := store8 s.(spi).(mem) (buf + i) v |> |>).
Definition get_buf (i : Z) : AM Z := gets (fun s => u8 (s.(spi).(mem) (buf + i))).
Definition send (len opt : Z) : AM unit := on_spi (send_spi buf buf len opt) ;; ret tt.

(** ** platform.c *)

Definition init_platform : AM unit := on_spi init_spi.

(** ** The flash memory *)

(** [n] bytes of [buf] from [i] on. *)
Fixpoint hex_bytes (n : nat) (i : Z) : AM unit :=
  match n with
  | O => ret tt
  | S n => do b <- get_buf i; printf " %02x" [AInt b] ;; hex_bytes n (i + 1)
  end.

(** RDID: the identification, then the unique identifier, whose length is the
    last byte of the identification. *)
Definition read_id : AM unit :=
  set_buf 0 0x9e ;;
  send 5 SEND_SPI_MORE ;;
  say (chars "RDID:  ") ;;
  hex_bytes 4 1 ;;
  say (newline ++ chars "       ") ;;
  do len <- get_buf 4;
  send len 0 ;;
  hex_bytes (Z.to_nat len) 0 ;;
  say newline.

(** The four register reads. *)
Definition read_register (opcode len : Z) (label : string) : AM unit :=
  set_buf 0 opcode ;;
  send len 0 ;;
  say (chars label) ;;
  hex_bytes (Z.to_nat len - 1) 1 ;;
  say newline.

Fixpoint sfdp_rows (n : nat) (i : Z) : AM unit :=
  match n with
  | O => ret tt
  | S n =>
      say (chars (if i =? 0 then "RDSFDP:" else "       ")) ;;
      hex_bytes 16 (16 * i) ;;
      say newline ;;
      sfdp_rows n (i + 1)
  end.

Definition read_sfdp : AM unit :=
  set_buf 0 0x5a ;; set_buf 1 0 ;; set_buf 2 0 ;; set_buf 3 0 ;; set_buf 4 0 ;;
  send 5 SEND_SPI_MORE ;;
  send 128 0 ;;
  sfdp_rows 8 0 ;;
  say newline.

Definition flash_info : AM unit :=
  say (chars "## SPI Flash Info" ++ newline) ;;
  read_id ;;
  read_register 0x05 2 "RDSR:  " ;;
  read_register 0xb5 3 "RDNVCR:" ;;
  read_register 0x85 2 "RDVCR: " ;;
  read_register 0x65 2 "RDEVCR:" ;;
  read_sfdp.

(** ** The Ethernet core *)

(** One line of a dump: [n] values from the index [j] on. *)
Fixpoint dump_line (rd : Z -> E -> Z * E) (fmt : string) (size : Z) (n : nat) (j : Z) : AM unit :=
  match n with
  | O => ret tt
  | S n =>
      do v <- from_eth rd (ETH0_BASE_ADDRESS + size * j);
      printf fmt [AInt (s32 v)] ;;
      dump_line rd fmt size n (j + 1)
  end.

Fixpoint dump_lines (rd : Z -> E -> Z * E) (fmt : string) (size : Z) (n : nat) (i : Z) : AM unit :=
  match n with
  | O => ret tt
  | S n =>
      printf "%02x:" [AInt (16 * i)] ;;
      dump_line rd fmt size (Z.to_nat (16 / size)) (16 / size * i) ;;
      say newline ;;
      dump_lines rd fmt size n (i + 1)
  end.

Definition dump_eth : AM unit :=
  say (chars "## eth0 memory as u8:" ++ newline) ;; dump_lines in8 " %02x" 1 4 0 ;; say newline ;;
  say (chars "## eth0 memory as u16:" ++ newline) ;; dump_lines in16 " %04x" 2 4 0 ;; say newline ;;
  say (chars "## eth0 memory as u32:" ++ newline) ;; dump_lines in32 " %08x" 4 4 0 ;; say newline.

(** The packet goes to the transmit buffer; the address is [+ i], not [+ 4 * i]. *)
Fixpoint copy_packet (n : nat) (i : nat) : AM unit :=
  match n with
  | O => ret tt
  | S n =>
      to_eth out32 (ETH0_BASE_ADDRESS + ETH_MAC_TX_BUF_OFFSET + Z.of_nat i) (Xil_Htonl (pkt32 i)) ;;
      copy_packet n (S i)
  end.

(** The number of turns until the level is 0, at most [n] more. *)
Fixpoint wait_sent (n : nat) (i : Z) : AM Z :=
  match n with
  | O => ret i
  | S n => do v <- from_eth in16 tx_level_address; if v =? 0 then ret i else wait_sent n (i + 1)
  end.

Definition send_packet : AM unit :=
  copy_packet 16 0 ;;
  to_eth out16 tx_level_address (Xil_Htons (64 / 8)) ;;
  do i <- wait_sent (Z.to_nat 10000) 0;
  printf "looped %d times while packet was sending" [AInt i] ;; say newline ;;
  say newline.

(** [rounds] turns of the endless loop at the end. *)
Fixpoint greet (rounds : nat) : AM unit :=
  match rounds with
  | O => ret tt
  | S n => say (greeting n) ;; greet n
  end.

Definition main (rounds : nat) : AM unit :=
  init_platform ;;
  say (newline ++ chars "# JAM starting" ++ newline ++ newline) ;;
  flash_info ;;
  dump_eth ;;
  send_packet ;;
  greet rounds.

(** ** Printing *)

(** [m] prints a text that depends on the memory, and does nothing else. *)
Definition prints (m : AM unit) (text : (Z -> Z) -> list Z) : Prop :=
  forall s, m s = Ok (tt, s <| console := s.(console) ++ text s.(spi).(mem) |>).

Lemma prints_say l : prints (say l) (fun _ => l).
Proof. intros s. reflexivity. Qed.

Lemma prints_seq m1 m2 t1 t2 : prints m1 t1 -> prints m2 t2 -> prints (m1 ;; m2) (fun m => t1 m ++ t2 m).
Proof. intros H1 H2 s. rewrite (bind_ok _ _ _ _ _ (H1 s)), H2. cbn [console spi with_field]. now rewrite app_assoc. Qed.

Lemma prints_ret : prints (ret tt) (fun _ => []).
Proof. intros s. unfold ret. rewrite app_nil_r. now destruct s. Qed.

(** A byte: a blank and two digits. *)
Definition hex_byte (v : Z) : list Z := [32; digit (v / 16); digit (v mod 16)].

Lemma printf_hex_byte v : is_u8 v -> xil_printf (chars " %02x") [AInt v] = Some (hex_byte v).
Proof.
  intros Hv. assert (Hall : forallb (fun n => match xil_printf (chars " %02x") [AInt (Z.of_nat n)] with
      | Some l => if list_eq_dec Z.eq_dec l (hex_byte (Z.of_nat n)) then true else false | None => false end) (seq 0 256) = true) by (vm_compute; reflexivity).
  rewrite forallb_forall in Hall. specialize (Hall (Z.to_nat v)). rewrite in_seq, Z2Nat.id in Hall by (unfold is_u8 in Hv; lia).
  specialize (Hall ltac:(unfold is_u8 in Hv; lia)). destruct (xil_printf _ _) as [l|]; [|discriminate]. destruct (list_eq_dec Z.eq_dec l (hex_byte v)) as [->|]; [reflexivity|discriminate].
Qed.

Definition hex_text (n : nat) (i : Z) (m : Z -> Z) : list Z := concat (map (fun b => hex_byte (u8 b)) (load_bytes m (buf + i) n)).

Lemma prints_hex n : forall i, prints (hex_bytes n i) (hex_text n i).
Proof.
  induction n as [|n IH]; intros i s; cbn [hex_bytes]; [exact (prints_ret s)|]. unfold get_buf. rewrite bind_gets.
  set (b := u8 (mem (spi s) (buf + i))). unfold printf at 1, bind at 1. rewrite printf_hex_byte by apply u8_ok. rewrite IH.
  cbn [console spi with_field]. rewrite <- app_assoc. unfold hex_text. cbn [load_bytes map concat]. now rewrite Z.add_assoc.
Qed.

Lemma prints_line l n i : prints (say l ;; hex_bytes n i ;; say newline) (fun m => l ++ hex_text n i m ++ newline).
Proof. exact (prints_seq _ _ _ _ (prints_say l) (prints_seq _ _ _ _ (prints_hex n i) (prints_say newline))). Qed.

Lemma prints_rows n : forall i, exists t, prints (sfdp_rows n i) t.
Proof.
  induction n as [|n IH]; intros i; cbn [sfdp_rows]; [eexists; apply prints_ret|]. destruct (IH (i + 1)) as (t & Ht).
  eexists. eapply prints_seq; [apply prints_say|]. eapply prints_seq; [apply prints_hex|]. eapply prints_seq; [apply prints_say|exact Ht].
Qed.
End App.

(** ** The flash memory on a core that works *)

Section Flash.
Context (slave : list bus_event -> Z -> Z) {D : Type} `{RegDevice D} {base : Z} `{!AxiSpi slave D base}.
Context (x : XSpi) (Hbase : x.(BaseAddr) = base) (Hdrain : drains slave (D := D) (base := base) XSP_SR_OFFSET 1000).
Context {E : Type} (buf : Z).
Implicit Types s : app_state (D := D) (E := E).

(** The driver is ready for a transaction. *)
Definition spi_ok s : Prop := s.(spi).(inst) = x /\ spi_ready slave s.(spi).

(** Only the SPI state of [s] may differ from that of [t]. *)
Definition sent_by s (bytes : list Z) (more : bool) s' : Prop :=
  let len := Z.of_nat (length bytes) in
  let h := opened slave s.(spi) in
  spi_ok s' /\ s'.(console) = s.(console) /\ s'.(eth) = s.(eth) /\
  load_bytes s'.(spi).(mem) buf (length bytes) = map u8 (answers slave h bytes) /\
  (forall a, a < buf \/ buf + len <= a -> s'.(spi).(mem) a = s.(spi).(mem) a) /\
  (view s'.(spi).(dev)).(v_bus) = history slave h bytes ++ (if more then [] else [SlaveSelect 0xFFFFFFFF]) /\
  tst (view s'.(spi).(dev)).(v_cr) XSP_CR_ENABLE_MASK = more.

Lemma send_ok s len opt : spi_ok s -> 0 <= len < 4294967296 ->
  exists s', send buf len opt s = Ok (tt, s') /\
    sent_by s (map u8 (load_bytes s.(spi).(mem) buf (Z.to_nat len))) (tst opt SEND_SPI_MORE) s'.
Proof.
  intros [Hi Hr] Hl.
  destruct (send_spi_spec slave x Hbase Hdrain s.(spi) buf buf len opt Hi Hr Hl (or_introl (Z.le_refl _))) as (t & E1 & Hm & Ho & Hb & He & Hr' & Hi').
  exists (s <| spi := t |>). unfold send, on_spi. split; [unfold bind; now rewrite E1|]. unfold sent_by. rewrite length_map, length_load_bytes, Z2Nat.id by lia.
  split; [exact (conj Hi' Hr')|]. split; [reflexivity|]. split; [reflexivity|]. split; [exact Hm|]. split; [exact Ho|]. split; [exact Hb|exact He].
Qed.

Lemma set_buf_ok s i v : spi_ok s -> exists s', set_buf buf i v s = Ok (tt, s') /\ spi_ok s' /\ s'.(spi).(mem) = store8 s.(spi).(mem) (buf + i) v /\
  s'.(console) = s.(console) /\ s'.(eth) = s.(eth) /\ opened slave s'.(spi) = opened slave s.(spi).
Proof. intros Hs. eexists. split; [reflexivity|]. split; [exact Hs|]. now repeat (split; [reflexivity|]). Qed.

(** Reading a register of the flash sends the opcode and as many further
    bytes as the register has, in one transaction that is closed again, and
    prints the flash's answers to the further bytes, two hexadecimal digits
    each, behind the label. *)
Theorem read_register_prints s opcode len label : spi_ok s -> is_u8 opcode -> 1 <= len <= 128 ->
  let bytes := opcode :: map u8 (load_bytes s.(spi).(mem) (buf + 1) (Z.to_nat len - 1)) in
  let h := opened slave s.(spi) in
  exists s', read_register buf opcode len label s = Ok (tt, s') /\ spi_ok s' /\
    s'.(console) = s.(console) ++ chars label ++ concat (map hex_byte (map u8 (tl (answers slave h bytes)))) ++ newline /\
    (view s'.(spi).(dev)).(v_bus) = history slave h bytes ++ [SlaveSelect 0xFFFFFFFF] /\
    (forall a, a < buf \/ buf + len <= a -> s'.(spi).(mem) a = s.(spi).(mem) a).
Proof.
  intros Hs Hop Hlen bytes h. unfold read_register.
  destruct (set_buf_ok s 0 opcode Hs) as (s1 & E1 & Hs1 & Hm1 & Hc1 & _ & Ho1). rewrite (bind_ok _ _ _ _ _ E1).
  destruct (send_ok s1 len 0 Hs1 ltac:(lia)) as (s2 & E2 & Hs2 & Hc2 & _ & Hl2 & Hout & Hb2 & _). rewrite (bind_ok _ _ _ _ _ E2).
  assert (Hbytes : map u8 (load_bytes (mem (spi s1)) buf (Z.to_nat len)) = bytes).
  { replace (Z.to_nat len) with (S (Z.to_nat len - 1)) by lia. cbn [load_bytes map]. unfold bytes. rewrite Hm1.
    unfold store8 at 1. rewrite Z.add_0_r, Z.eqb_refl, !(u8_id opcode Hop). f_equal. f_equal. apply load_bytes_ext.
    intros a Ha. unfold store8. rewrite (proj2 (Z.eqb_neq _ _)) by lia. reflexivity. }
  rewrite Hbytes, Ho1 in *. fold h in Hl2, Hb2.
  assert (Hlen' : length bytes = S (Z.to_nat len - 1)) by (unfold bytes; cbn [length]; now rewrite length_map, length_load_bytes).
  rewrite (prints_line buf (chars label) (Z.to_nat len - 1) 1 s2). eexists. split; [reflexivity|]. cbn [spi console eth with_field]. split; [exact Hs2|]. split; [|split; [exact Hb2|]].
  - rewrite Hc2, Hc1. do 2 f_equal. f_equal. unfold hex_text. rewrite <- map_map. f_equal. f_equal. rewrite Hlen' in Hl2. cbn [load_bytes] in Hl2.
    assert (Ht : load_bytes (mem (spi s2)) (buf + 1) (Z.to_nat len - 1) = map u8 (tl (answers slave h bytes)))
      by (unfold bytes in Hl2 |- *; cbn [answers map tl] in Hl2 |- *; injection Hl2 as _ Hl2; exact Hl2).
    rewrite Ht, map_map. apply map_ext. intros v. unfold u8. apply Z.mod_mod. lia.
  - intros a Ha. rewrite Hout by (rewrite Hlen'; lia). rewrite Hm1. unfold store8. rewrite (proj2 (Z.eqb_neq _ _)) by lia. reflexivity.
Qed.

(** The flash's answers to RDID and four more bytes; the last is the length of
    the unique identifier. *)
Definition id_bytes s : list Z := 0x9e :: map u8 (load_bytes s.(spi).(mem) (buf + 1) 4).
Definition uid_length s : Z := u8 (nth 4 (answers slave (opened slave s.(spi)) (id_bytes s)) 0).

(** What [read_id] does: the two exchanges of its transaction. *)
Lemma read_id_spec s : spi_ok s ->
  let n := uid_length s in
  exists s' h bytes, read_id buf s = Ok (tt, s') /\ spi_ok s' /\ s'.(eth) = s.(eth) /\ Z.of_nat (length bytes) = n /\
    load_bytes s'.(spi).(mem) buf (length bytes) = map u8 (answers slave h bytes) /\
    h = history slave (opened slave s.(spi)) (id_bytes s) /\
    (forall a, a < buf \/ buf + Z.max 5 n <= a -> s'.(spi).(mem) a = s.(spi).(mem) a).
Proof.
  intros Hs n. assert (Hn : is_u8 n) by apply u8_ok. unfold is_u8 in Hn. unfold read_id.
  destruct (set_buf_ok s 0 0x9e Hs) as (s1 & E1 & Hs1 & Hm1 & _ & He1 & Ho1). rewrite (bind_ok _ _ _ _ _ E1).
  destruct (send_ok s1 5 SEND_SPI_MORE Hs1 ltac:(lia)) as (s2 & E2 & Hs2 & _ & He2 & Hl2 & Hout2 & Hb2 & Hen2). rewrite (bind_ok _ _ _ _ _ E2).
  assert (Hbytes : map u8 (load_bytes (mem (spi s1)) buf (Z.to_nat 5)) = id_bytes s).
  { change (Z.to_nat 5) with 5%nat. unfold id_bytes. rewrite Hm1. cbn [load_bytes map]. unfold store8.
    rewrite Z.add_0_r, Z.eqb_refl. rewrite !(proj2 (Z.eqb_neq _ _)) by lia. reflexivity. }
  rewrite Hbytes, Ho1 in *. change (length (id_bytes s)) with 5%nat in *.
  rewrite (bind_ok _ _ _ _ _ (prints_say (chars "RDID:  ") s2)).
  match goal with |- context [bind (hex_bytes buf 4 1) _ ?t] => set (t3 := t) end. rewrite (bind_ok _ _ _ _ _ (prints_hex buf 4 1 t3)).
  match goal with |- context [bind (say ?l) _ ?t] => set (t4 := t); rewrite (bind_ok _ _ _ _ _ (prints_say l t4)) end.
  match goal with |- context [bind (get_buf buf 4) _ ?t] => set (t5 := t) end.
  assert (Ht5 : spi t5 = spi s2 /\ eth t5 = eth s2) by (split; reflexivity). destruct Ht5 as [Ht5 Ht5e].
  unfold get_buf. rewrite bind_gets, Ht5.
  assert (Hlen : u8 (mem (spi s2) (buf + 4)) = n).
  { apply (f_equal (fun l => nth 4 l 0)) in Hl2. cbn [load_bytes nth] in Hl2. replace (buf + 1 + 1 + 1 + 1) with (buf + 4) in Hl2 by lia.
    rewrite Hl2. unfold n, uid_length, id_bytes. cbn [map load_bytes answers nth]. unfold u8. apply Z.mod_mod. lia. }
  rewrite Hlen. assert (Hs5 : spi_ok t5) by (unfold spi_ok; rewrite Ht5; exact Hs2).
  destruct (send_ok t5 n 0 Hs5 ltac:(lia)) as (s6 & E6 & Hs6 & _ & He6 & Hl6 & Hout6 & _). rewrite (bind_ok _ _ _ _ _ E6).
  rewrite (bind_ok _ _ _ _ _ (prints_hex buf (Z.to_nat n) 0 s6)).
  match goal with |- context [say newline ?t] => set (t7 := t); rewrite (prints_say newline t7) end.
  rewrite length_map, length_load_bytes, Ht5 in *.
  eexists. exists (history slave (opened slave (spi s)) (id_bytes s)), (map u8 (load_bytes (mem (spi s2)) buf (Z.to_nat n))). split; [reflexivity|].
  split; [exact Hs6|]. split; [cbn; congruence|]. rewrite length_map, length_load_bytes. split; [lia|].
  split; [|split; [reflexivity|]].
  - cbn [spi with_field t7]. rewrite Hl6. f_equal. unfold opened. change (tst SEND_SPI_MORE SEND_SPI_MORE) with true in *. rewrite Hen2, Hb2.
    cbv iota. now rewrite app_nil_r.
  - intros a Ha. cbn [spi with_field t7]. rewrite Hout6 by lia. rewrite Hout2 by lia. rewrite Hm1. unfold store8.
    rewrite (proj2 (Z.eqb_neq _ _)) by lia. reflexivity.
Qed.

(** C27: the flash decides how much of the stack [read_id] overwrites.  When
    the length byte of the identification is at most 128, nothing outside
    [buf] changes; when it is [n] > 128, the bytes behind [buf] up to [n] hold
    what the flash sent. *)
Theorem read_id_overruns s : spi_ok s -> let n := uid_length s in
  exists s' h bytes, read_id buf s = Ok (tt, s') /\ Z.of_nat (length bytes) = n /\
    (n <= 128 -> forall a, a < buf \/ buf + 128 <= a -> s'.(spi).(mem) a = s.(spi).(mem) a) /\
    (forall i, 0 <= i < n -> s'.(spi).(mem) (buf + i) = u8 (nth (Z.to_nat i) (answers slave h bytes) 0)).
Proof.
  intros Hs n. destruct (read_id_spec s Hs) as (s' & h & bytes & E1 & _ & _ & Hlen & Hl & _ & Hout). fold n in Hlen, Hout.
  exists s', h, bytes. split; [exact E1|]. split; [exact Hlen|]. split.
  - intros Hn a Ha. apply Hout. lia.
  - intros i Hi. apply (f_equal (fun l => nth (Z.to_nat i) l 0)) in Hl.
    rewrite load_bytes_nth in Hl by lia. rewrite Z2Nat.id in Hl by lia. rewrite Hl.
    change 0 with (u8 0) at 1. apply map_nth.
Qed.

(** A step that keeps the SPI driver ready, the Ethernet core alone and the
    memory outside [buf] as it was. *)
Definition inside (m : AM (D := D) (E := E) unit) : Prop := forall s, spi_ok s ->
  exists s', m s = Ok (tt, s') /\ spi_ok s' /\ s'.(eth) = s.(eth) /\
    forall a, a < buf \/ buf + 128 <= a -> s'.(spi).(mem) a = s.(spi).(mem) a.

Lemma inside_seq m1 m2 : inside m1 -> inside m2 -> inside (m1 ;; m2).
Proof.
  intros H1 H2 s Hs. destruct (H1 s Hs) as (s1 & E1 & Hs1 & He1 & Hm1). destruct (H2 s1 Hs1) as (s2 & E2 & Hs2 & He2 & Hm2).
  exists s2. rewrite (bind_ok _ _ _ _ _ E1). split; [exact E2|]. split; [exact Hs2|]. split; [congruence|]. intros a Ha. now rewrite Hm2, Hm1.
Qed.

Lemma inside_prints m t : prints m t -> inside m.
Proof. intros Hp s Hs. rewrite Hp. eexists. split; [reflexivity|]. now split; [exact Hs|]. Qed.

Lemma inside_set i v : 0 <= i < 128 -> inside (set_buf buf i v).
Proof.
  intros Hi s Hs. destruct (set_buf_ok s i v Hs) as (s' & E1 & Hs' & Hm & _ & He & _). exists s'. split; [exact E1|]. split; [exact Hs'|].
  split; [exact He|]. intros a Ha. rewrite Hm. unfold store8. rewrite (proj2 (Z.eqb_neq _ _)) by lia. reflexivity.
Qed.

Lemma inside_send len opt : 0 <= len <= 128 -> inside (send buf len opt).
Proof.
  intros Hl s Hs. destruct (send_ok s len opt Hs ltac:(lia)) as (s' & E1 & Hs' & _ & He & _ & Hout & _). exists s'.
  split; [exact E1|]. split; [exact Hs'|]. split; [exact He|]. intros a Ha. apply Hout. rewrite length_map, length_load_bytes. lia.
Qed.

Lemma inside_register opcode len label : 1 <= len <= 128 -> inside (read_register buf opcode len label).
Proof.
  intros Hl. unfold read_register. apply inside_seq; [apply inside_set; lia|]. apply inside_seq; [apply inside_send; lia|].
  exact (inside_prints _ _ (prints_line buf (chars label) (Z.to_nat len - 1) 1)).
Qed.

Lemma inside_sfdp : inside (read_sfdp buf).
Proof.
  unfold read_sfdp. do 5 (apply inside_seq; [apply inside_set; lia|]). do 2 (apply inside_seq; [apply inside_send; lia|]).
  destruct (prints_rows (D := D) (E := E) buf 8 0) as (t & Ht). apply inside_seq; [exact (inside_prints _ _ Ht)|].
  exact (inside_prints _ _ (prints_say newline)).
Qed.

(** When the flash names a length of at most 128 bytes, reading the flash
    information comes to its end, leaves the SPI driver ready for the next
    transaction and changes no memory outside [buf]. *)
Theorem flash_info_contained s : spi_ok s -> uid_length s <= 128 ->
  exists s', flash_info buf s = Ok (tt, s') /\ spi_ok s' /\ s'.(eth) = s.(eth) /\
    forall a, a < buf \/ buf + 128 <= a -> s'.(spi).(mem) a = s.(spi).(mem) a.
Proof.
  intros Hs Hn. unfold flash_info. rewrite (bind_ok _ _ _ _ _ (prints_say _ s)).
  set (s1 := s <| console := _ |>). destruct (read_id_spec s1 Hs) as (s2 & h & bytes & E2 & Hs2 & He2 & _ & _ & _ & Hout).
  rewrite (bind_ok _ _ _ _ _ E2). change (uid_length s1) with (uid_length s) in Hout.
  destruct (inside_seq _ _ (inside_register 0x05 2 "RDSR:  " ltac:(lia)) (inside_seq _ _ (inside_register 0xb5 3 "RDNVCR:" ltac:(lia))
    (inside_seq _ _ (inside_register 0x85 2 "RDVCR: " ltac:(lia)) (inside_seq _ _ (inside_register 0x65 2 "RDEVCR:" ltac:(lia)) inside_sfdp))) s2 Hs2)
    as (s3 & E3 & Hs3 & He3 & Hm3).
  exists s3. split; [exact E3|]. split; [exact Hs3|]. split; [rewrite He3, He2; reflexivity|]. intros a Ha. rewrite Hm3, Hout by lia. reflexivity.
Qed.
End Flash.

(** ** Any Ethernet core *)

Section AnyDevices.
Context {D : Type} `{RegDevice D}.
Context {E : Type} (in8 in16 in32 : Z -> E -> Z * E) (out16 out32 : Z -> Z -> E -> E).

(** [m] comes to its end from every state and leaves the SPI driver and the
    memory alone. *)
Definition ends {A} (m : AM (D := D) (E := E) A) : Prop := forall t, triple (fun s => s.(spi) = t) m (fun _ s => s.(spi) = t).

Lemma ends_bind {A B} (m : AM (D := D) (E := E) A) (k : A -> AM B) : ends m -> (forall a, ends (k a)) -> ends (bind m k).
Proof. intros Hm Hk t. exact (triple_bind _ _ _ _ _ (Hm t) (fun a => Hk a t)). Qed.

Lemma ends_ret {A} (a : A) : ends (ret a).
Proof. intros t. apply triple_ret. auto. Qed.

Lemma ends_say l : ends (say l).
Proof. intros t. apply triple_modify. auto. Qed.

(** A format with one number. *)
Definition one_number (fmt : string) : Prop := exists items1 lj width c items2,
  chars fmt = format (items1 ++ Num lj width c :: items2) /\ Forall item_ok (items1 ++ Num lj width c :: items2) /\
  Forall (fun i => match i with Lit _ => True | _ => False end) (items1 ++ items2).

Lemma ends_printf fmt n : one_number fmt -> -2147483648 <= n < 2147483648 -> ends (printf fmt [AInt n]).
Proof.
  intros (items1 & lj & width & c & items2 & Ef & Hok & Hlit) Hn t s Hs. unfold printf.
  assert (Hr2 : forall items, Forall (fun i => match i with Lit _ => True | _ => False end) items -> exists out, render items [] = Some out).
  { clear. induction 1 as [|i l Hi _ (out & Ho)]; [now exists []|]. destruct i as [c| | | |]; try contradiction. exists (c :: out). cbn [render render_item obind]. now rewrite Ho. }
  apply Forall_app in Hlit. destruct Hlit as [H1 H2]. destruct (Hr2 items2 H2) as (o2 & Ho2).
  assert (Hr1 : exists out, render (items1 ++ Num lj width c :: items2) [AInt n] = Some out).
  { clear - H1 Ho2. induction H1 as [|i l Hi _ (out & Ho)]; cbn [app render].
    - cbn [render_item obind]. rewrite Ho2. cbn [option_map]. eauto.
    - destruct i as [c0| | | |]; try contradiction. cbn [render_item obind]. rewrite Ho. cbn [option_map]. eauto. }
  destruct Hr1 as (out & Ho). unfold xil_printf. rewrite Ef. rewrite (printf_loop_spec _ _ _ _ Hok (Forall_cons (AInt n) (Hn : arg_ok (AInt n)) (Forall_nil _)) Ho (le_n _)). eauto.
Qed.

Ltac lits := repeat constructor; cbn; try lia; try discriminate.
Lemma fmt_02x : one_number " %02x".
Proof. exists [Lit 32], false, (Some (true, 2)), Hex, []. split; [reflexivity|]. split; lits. Qed.
Lemma fmt_04x : one_number " %04x".
Proof. exists [Lit 32], false, (Some (true, 4)), Hex, []. split; [reflexivity|]. split; lits. Qed.
Lemma fmt_08x : one_number " %08x".
Proof. exists [Lit 32], false, (Some (true, 8)), Hex, []. split; [reflexivity|]. split; lits. Qed.
Lemma fmt_row : one_number "%02x:".
Proof. exists [], false, (Some (true, 2)), Hex, [Lit 58]. split; [reflexivity|]. split; lits. Qed.
Lemma fmt_looped : one_number "looped %d times while packet was sending".
Proof.
  exists (map Lit (chars "looped ")), false, None, Signed, (map Lit (chars " times while packet was sending")).
  split; [reflexivity|]. split; lits.
Qed.

Lemma ends_from_eth rd a : ends (from_eth rd a).
Proof. intros t s Hs. unfold from_eth. destruct (rd a (eth s)) as [v e]. eauto. Qed.

Lemma ends_to_eth wr a v : ends (to_eth wr a v).
Proof. intros t. apply triple_modify. auto. Qed.

Lemma s32_range v : -2147483648 <= s32 v < 2147483648.
Proof. unfold s32, u32. pose proof (Z.mod_pos_bound v 4294967296). destruct (Z.ltb_spec (v mod 4294967296) 2147483648); lia. Qed.

Lemma ends_dump_line rd fmt size n : one_number fmt -> forall j, ends (dump_line rd fmt size n j).
Proof.
  intros Hf. induction n as [|n IH]; intros j; cbn [dump_line]; [apply ends_ret|]. apply ends_bind; [apply ends_from_eth|intros v].
  apply ends_bind; [apply ends_printf; [assumption|apply s32_range]|intros ?; apply IH].
Qed.

Lemma ends_dump_lines rd fmt size n : one_number fmt -> forall i, 0 <= i -> i + Z.of_nat n <= 1000 -> ends (dump_lines rd fmt size n i).
Proof.
  intros Hf. induction n as [|n IH]; intros i Hi Hn; cbn [dump_lines]; [apply ends_ret|].
  apply ends_bind; [apply ends_printf; [apply fmt_row|lia]|intros ?]. apply ends_bind; [now apply ends_dump_line|intros ?].
  apply ends_bind; [apply ends_say|intros ?]. apply IH; lia.
Qed.

Lemma ends_copy n : forall i, ends (copy_packet out32 n i).
Proof. induction n as [|n IH]; intros i; cbn [copy_packet]; [apply ends_ret|]. apply ends_bind; [apply ends_to_eth|intros ?; apply IH]. Qed.

(** The wait ends, after at most as many turns as are left. *)
Lemma wait_sent_bound n t : forall i, triple (fun s => s.(spi) = t) (wait_sent (D := D) in16 n i) (fun r s => s.(spi) = t /\ i <= r <= i + Z.of_nat n).
Proof.
  induction n as [|n IH]; intros i; cbn [wait_sent]; [apply triple_ret; intros; split; [assumption|lia]|].
  eapply triple_bind; [apply ends_from_eth|]. cbn beta. intros v. destruct (v =? 0); [apply triple_ret; intros; split; [assumption|lia]|].
  eapply triple_post; [apply (IH (i + 1))|]. cbn beta. intros r s [Hs Hr]. split; [exact Hs|lia].
Qed.

Lemma ends_dump : ends (dump_eth in8 in16 in32).
Proof.
  unfold dump_eth. repeat (apply ends_bind; [first [apply ends_say|apply ends_dump_lines; [first [apply fmt_02x|apply fmt_04x|apply fmt_08x]|lia|lia]]|intros ?]).
  apply ends_say.
Qed.

Lemma ends_packet : ends (send_packet in16 out16 out32).
Proof.
  unfold send_packet. apply ends_bind; [apply ends_copy|intros ?]. apply ends_bind; [apply ends_to_eth|intros ?]. intros t.
  eapply triple_bind; [apply wait_sent_bound|]. intros i s [Hs Hi]. refine ((_ : ends _) t s Hs).
  apply ends_bind; [apply ends_printf; [apply fmt_looped|lia]|intros ?]. apply ends_bind; [apply ends_say|intros ?; apply ends_say].
Qed.

Lemma ends_greet greeting rounds : ends (greet greeting rounds).
Proof. induction rounds as [|n IH]; cbn [greet]; [apply ends_ret|]. apply ends_bind; [apply ends_say|intros ?; exact IH]. Qed.
End AnyDevices.

(** ** The program *)

Section Main.
Context (slave : list bus_event -> Z -> Z) {D : Type} `{RegDevice D} `{!AxiSpi slave D 0x44B00000}.
Context (Hdrain : drains slave (D := D) (base := 0x44B00000) XSP_SR_OFFSET 1000).
Context {E : Type} (in8 in16 in32 : Z -> E -> Z * E) (out16 out32 : Z -> Z -> E -> E) (buf : Z) (greeting : nat -> list Z).

(** The length byte in the flash's answer to RDID. *)
Hypothesis short_id : forall h bytes, length bytes = 4%nat -> u8 (nth 4 (answers slave h (0x9e :: bytes)) 0) <= 128.

(** [main], on an SPI core that keeps its laws and drains its FIFO, with a
    flash that names at most 128 bytes of identification, and whatever the
    Ethernet core answers: from a state in which the driver has not been started,
    it initialises the driver, reads the flash, dumps the Ethernet core, sends the
    packet and reaches any turn of its final loop, without a failed assertion and
    without a format that [xil_printf] cannot print; memory outside [buf] is as it
    was, and the SPI driver is ready. *)
Theorem main_contained rounds (s : app_state (D := D) (E := E)) : s.(spi).(inst).(IsStarted) <> XIL_COMPONENT_IS_STARTED ->
  exists s', main in8 in16 in32 out16 out32 buf greeting rounds s = Ok (tt, s') /\ spi_ok slave (spi_instance s.(spi).(inst).(StatusRef)) s' /\
    forall a, a < buf \/ buf + 128 <= a -> s'.(spi).(mem) a = s.(spi).(mem) a.
Proof.
  intros Hst. set (x := spi_instance _). unfold main, init_platform. destruct (init_spi_ready slave s.(spi) Hst) as (t & E1 & Hi & Hm & _ & _ & _ & _ & Hr).
  unfold on_spi at 1, bind at 1. rewrite E1. rewrite (bind_ok _ _ _ _ _ (prints_say _ _)). set (s1 := (s <| spi := t |>) <| console := _ |>). assert (Hs1 : spi_ok slave x s1) by (split; assumption).
  destruct (flash_info_contained slave x eq_refl Hdrain buf s1 Hs1) as (s2 & E2 & Hs2 & _ & Hm2); [apply short_id; now rewrite length_map, length_load_bytes|]. rewrite (bind_ok _ _ _ _ _ E2).
  assert (Hend : ends (D := D) (dump_eth in8 in16 in32 ;; send_packet in16 out16 out32 ;; greet greeting rounds)).
  { apply ends_bind; [apply ends_dump|intros ?]. apply ends_bind; [apply ends_packet|intros ?; apply ends_greet]. }
  destruct (Hend (spi s2) s2 eq_refl) as ([] & s' & E' & Hs'). exists s'. split; [exact E'|]. unfold spi_ok. rewrite Hs'. split; [exact Hs2|]. intros a Ha. rewrite Hm2 by exact Ha. exact (f_equal (fun m => m a) Hm).
Qed.
End Main.

(** ** The transmit buffer *)

(** A bus of 32-bit words that ignores the two low address bits. *)
Definition word_bus := Z -> Z.
Definition bus_out32 (a v : Z) (m : word_bus) : word_bus := fun b => if b =? a / 4 then v else m b.

Definition tx_word (m : word_bus) (i : Z) : Z := m ((ETH0_BASE_ADDRESS + ETH_MAC_TX_BUF_OFFSET) / 4 + i).

(** The buffer after [n] words from the [i]th on. *)
Fixpoint copied (n i : nat) (m : word_bus) : word_bus :=
  match n with
  | O => m
  | S n => copied n (S i) (bus_out32 (ETH0_BASE_ADDRESS + ETH_MAC_TX_BUF_OFFSET + Z.of_nat i) (Xil_Htonl (pkt32 i)) m)
  end.

Lemma copy_copied {D} `{RegDevice D} (t : spi_state D) l n : forall i m,
  copy_packet bus_out32 n i (mkApp t l m) = Ok (tt, mkApp t l (copied n i m)).
Proof. induction n as [|n IH]; intros i m; cbn [copy_packet copied]; [reflexivity|]. unfold to_eth. rewrite bind_modify. apply IH. Qed.

Lemma copied_off n : forall i m b, (forall k, (i <= k < i + n)%nat -> b <> (ETH0_BASE_ADDRESS + ETH_MAC_TX_BUF_OFFSET + Z.of_nat k) / 4) ->
  copied n i m b = m b.
Proof.
  induction n as [|n IH]; intros i m b Hb; cbn [copied]; [reflexivity|]. rewrite IH by (intros k Hk; apply Hb; lia).
  unfold bus_out32. rewrite (proj2 (Z.eqb_neq _ _)); [reflexivity|]. apply Hb. lia.
Qed.

(** Only the words 3, 7, 11 and 15 of the packet reach such a bus, as the first
    four words of the transmit buffer. *)
Theorem copy_packet_loses_words {D} `{RegDevice D} (t : spi_state D) l (m : word_bus) :
  exists m', copy_packet bus_out32 16 0 (mkApp t l m) = Ok (tt, mkApp t l m') /\
    map (tx_word m') [0; 1; 2; 3] = map (fun i => Xil_Htonl (pkt32 i)) [3; 7; 11; 15]%nat /\
    forall i, 4 <= i -> tx_word m' i = tx_word m i.
Proof.
  exists (copied 16 0 m). split; [apply copy_copied|]. split; [vm_compute; reflexivity|]. intros i Hi. unfold tx_word. apply copied_off. intros k Hk.
  change (ETH0_BASE_ADDRESS + ETH_MAC_TX_BUF_OFFSET) with (287880382 * 4). rewrite Z.div_mul, Z.add_comm, Z.div_add_l by lia.
  assert (Z.of_nat k / 4 < 4) by (apply Z.div_lt_upper_bound; lia). lia.
Qed.

(** ** Witnesses on the soft core *)

Section Witnesses.
(** A flash that answers every byte with [v]. *)
Definition echo (v : Z) : list bus_event -> Z -> Z := fun _ _ => v.
Definition echo_core (v : Z) : RegDevice soft_spi := soft_regs (echo v) 0x44B00000 false.
Definition echo_laws (v : Z) : @AxiSpi (echo v) soft_spi (echo_core v) 0x44B00000 := soft_laws (echo v) 0x44B00000 false.
Definition app0 : app_state (D := soft_spi) (E := unit) := mkApp Demo.start [] tt.

Lemma echo_drains v : @drains (echo v) soft_spi (echo_core v) 0x44B00000 (echo_laws v) XSP_SR_OFFSET 1000.
Proof. apply soft_drains; [reflexivity|apply SR_quiet|]. apply Nat.ltb_lt. vm_compute. reflexivity. Qed.

Lemma app0_ok v : @spi_ok (echo v) soft_spi (echo_core v) 0x44B00000 (echo_laws v) (spi_instance 0) unit app0.
Proof. split; [reflexivity|]. split; [reflexivity|discriminate]. Qed.
End Witnesses.

Lemma read_register_prints_witness : exists s',
  @read_register _ (echo_core 7) _ 1000 0xb5 3 "RDNVCR:" app0 = Ok (tt, s') /\
  s'.(console) = chars "RDNVCR: 07 07" ++ newline.
Proof.
  destruct (@read_register_prints (echo 7) _ (echo_core 7) _ (echo_laws 7) (spi_instance 0) eq_refl (echo_drains 7) unit 1000 app0 0xb5 3 "RDNVCR:")
    as (s' & E1 & _ & Hc & _).
  - apply app0_ok.
  - word_lia.
  - lia.
  - exists s'. split; [exact E1|]. rewrite Hc. reflexivity.
Defined.

(** A flash that names 200 bytes writes behind the 128 bytes of the buffer. *)
Lemma read_id_overruns_witness : exists s',
  @read_id _ (echo_core 200) _ 1000 app0 = Ok (tt, s') /\ app0.(spi).(mem) (1000 + 150) = 1150 /\ s'.(spi).(mem) (1000 + 150) = 200.
Proof.
  destruct (@read_id_overruns (echo 200) _ (echo_core 200) _ (echo_laws 200) (spi_instance 0) eq_refl (echo_drains 200) unit 1000 app0 (app0_ok 200))
    as (s' & h & bytes & E1 & Hlen & _ & Hi).
  exists s'. split; [exact E1|]. split; [reflexivity|]. rewrite Hi by (vm_compute; split; [discriminate|reflexivity]).
  change (@uid_length (echo 200) _ (echo_core 200) _ (echo_laws 200) unit 1000 app0) with 200 in Hlen.
  assert (Ha : forall l h, answers (echo 200) h l = repeat 200 (length l)) by (induction l as [|b l IH]; intros h'; cbn; [reflexivity|now rewrite IH]).
  rewrite Ha. replace (length bytes) with 200%nat by lia. reflexivity.
Defined.

Lemma flash_info_contained_witness : exists s',
  @flash_info _ (echo_core 16) _ 1000 app0 = Ok (tt, s') /\ s'.(spi).(mem) 1128 = 1128.
Proof.
  destruct (@flash_info_contained (echo 16) _ (echo_core 16) _ (echo_laws 16) (spi_instance 0) eq_refl (echo_drains 16) unit 1000 app0)
    as (s' & E1 & _ & _ & Hm).
  - apply app0_ok.
  - vm_compute. discriminate.
  - exists s'. split; [exact E1|]. rewrite Hm by lia. reflexivity.
Defined.

(** A flash that answers every byte with 16. *)
Lemma main_contained_witness : exists s',
  @main _ (echo_core 16) unit (fun _ e => (1, e)) (fun _ e => (0, e)) (fun _ e => (0, e)) (fun _ _ e => e) (fun _ _ e => e) 1000 (fun _ => [33]) 2 app0 = Ok (tt, s') /\
  @spi_ok (echo 16) soft_spi (echo_core 16) 0x44B00000 (echo_laws 16) (spi_instance 0) unit s' /\
  forall a, a < 1000 \/ 1000 + 128 <= a -> s'.(spi).(mem) a = app0.(spi).(mem) a.
Proof.
  apply (@main_contained (echo 16) _ (echo_core 16) (echo_laws 16) (echo_drains 16) unit (fun _ e => (1, e)) (fun _ e => (0, e)) (fun _ e => (0, e)) (fun _ _ e => e) (fun _ _ e => e) 1000 (fun _ => [33])).
  - intros h bytes Hl. destruct bytes as [|b1 [|b2 [|b3 [|b4 [|]]]]]; discriminate.
  - discriminate.
Defined.
